(* ===== verification/_CoqProject ===== *)
-Q . S2P
Prelude.v
Layout.v
SchemaCodec.v
TypeCodec.v
RowBuilder.v
RowView.v
RowCodec.v
RowWrite.v
RowRead.v
RowErrors.v
RowFormat.v
CompiledCodec.v
CompiledProof.v
Iterators.v
MemCatalog.v
MemCatalogProof.v
Window.v
WindowProof.v
Rows.v
RowSelector.v
RowSelectorProof.v
SliceOwnership.v
InnerLists.v
InnerListsProof.v
ColumnLists.v
ColumnListsProof.v
CatalogWrapper.v
Handlers.v
HandlersProof.v
FnGenerators.v
KeyText.v
Generators.v
Joins.v
WindowRunners.v
Runners.v
GeneratorsProof.v
JoinsProof.v
SegmentMerge.v
RequestWindowProof.v
WindowAggProof.v
RunnersProof.v
Queries.v
Frames.v
FramesProof.v
SchemasContext.v
SchemasProof.v
Llvm.v
ExprTypes.v
ExprBuilder.v
Expr.v
ExprProof.v
ExprSem.v
Project.v
ProjectProof.v
Aggregates.v
AggregatesProof.v
MultiAgg.v
MultiAggProof.v
Conditions.v
ConditionsProof.v
IndexMatch.v
IndexMatchProof.v
Limits.v
Containers.v
ContainersProof.v
Calendar.v
Udf.v
UdfProof.v
SkipList.v
SkipListProof.v
TimeList.v
Storage.v
StorageProof.v
FeatureZero.v
RowIOBuf.v
RunnerBuilder.v
RunnerBuilderProof.v
Engine.v
UdfLibrary.v
WindowFns.v
