(* ===== verification/Prelude.v ===== *)
(** * HybridSE: a verification library for the SQL engine

    HybridSE compiles SQL to machine code that works on rows in a packed binary
    format. This library models the C++ code a query runs through: the row
    format with its builders and readers (hand-written and emitted), rows,
    lists, tables and sliding windows, the data handlers and runners that
    execute a plan, the code generated for expressions, projections and
    aggregates, and parts of the planner: frames, column resolution and the
    passes on conditions, indexes and limits.

    ** How the program is put together

    A row is a list of slices ([codec::Row]); a slice is a buffer in the row
    format: a header (version and size), a null bitmap, the fixed fields, the
    addresses of the strings in 1 to 4 bytes, and the string bodies.
    [RowBuilder] writes rows and [RowView] reads them; the code generator
    emits its own encoder and decoder from the positions of [RowFormat] and
    from the functions of [codec::v1]. Tables, partitions and windows
    ([mem_catalog]) store rows with a key and hand out iterators; compiled
    aggregates see a window as a list, take inner windows of it for other
    frames, and read columns of it.

    A query becomes a tree of physical operators whose schemas are resolved
    by [SchemasContext]; passes extract keys from conditions, choose indexes
    and push limits down. Expressions get types and are compiled to functions
    on rows. The plan is turned into runners, each of which takes the data
    handlers of its producers (row, table, partition) and makes its own,
    calling compiled functions for keys, orders, conditions and projections.
    The engine keeps compiled queries in a cache that its sessions share; a
    session runs the job that was built for its query. The toy database of
    the examples stores rows in segments of lists in skip lists and gives the
    engine tables and partitions.

    ** Files

    Basis:
    - [Prelude]: machine integers with explicit wrap-around ([u32], [i64],
      ...), memory as a list of bytes with checked loads and stores, tactics,
      hints and list lemmas.

    The row codec:
    - [Layout]: column types, header and bitmap sizes, address widths
      (src/codec/fe_row_codec.cc and .h, src/proto/fe_type.proto).
    - [SchemaCodec]: the wire format of schemas (include/codec/fe_schema_codec.h).
    - [TypeCodec]: [StringRef], [Timestamp], [Date] and the functions of
      [codec::v1] (include/codec/type_codec.h, src/codec/type_codec.cc).
    - [RowBuilder], [RowView]: the classes of the same name in
      src/codec/fe_row_codec.cc, method by method.
    - [RowCodec], [RowWrite], [RowRead]: the meaning of a row buffer
      ([row_holds]), that every [Append] establishes it for one more column,
      and that every getter reads it back; the round trip. [RowErrors]: the
      refused operations and the places where the guards are too weak.
    - [RowFormat], [CompiledCodec], [CompiledProof]: the layout handed to the
      code generator, what the code emitted by src/codegen/buf_ir_builder.cc
      computes, and that it reads and writes the same rows.
    - [Rows]: slices as views and joined rows (include/base/fe_slice.h,
      include/codec/row.h, src/codec/row.cc). [SliceOwnership]: the reference
      counts of slices on an explicit heap (src/base/fe_slice.cc).
    - [RowSelector], [RowSelectorProof]: the projection of columns into a new
      row (src/codec/fe_row_selector.cc).
    - [RowIOBuf]: the reader of rows that lie in the io buffers of the
      network library, which are a class with laws (src/sdk/codec_sdk.cc).

    Tables, windows and lists:
    - [Iterators]: the iterator interface (include/base/iterator.h) as a type
      class of operations, the promises of an iterator as a class of laws over
      the list of remaining entries, and the default methods of [ListV]
      (include/codec/row_list.h) proved from the laws.
    - [MemCatalog], [MemCatalogProof]: tables, time tables, partitions,
      segments, concatenation and request union with their iterators
      (include/vm/mem_catalog.h, src/vm/mem_catalog.cc).
    - [Window], [WindowProof]: [WindowRange], [HistoryWindow] and
      [CurrentHistoryWindow] (include/vm/mem_catalog.h).
    - [InnerLists], [InnerListsProof]: inner rows and range windows and array
      lists (include/codec/list_iterator_codec.h) and the calls that compiled
      code makes to create them (src/codegen/window_ir_builder.cc,
      src/codegen/expr_ir_builder.cc, src/codec/type_codec.cc).
    - [ColumnLists], [ColumnListsProof]: columns of windows and the row
      iterator functions for compiled code (the same files and
      src/vm/mem_catalog.cc).

    Execution (src/vm):
    - [CatalogWrapper], [Handlers], [HandlersProof]: lazy projections and
      filters of iterators, tables, partitions and rows
      (src/vm/catalog_wrapper.h and .cc, include/vm/catalog.h); [t_contents] is
      the abstract content of a handler.
    - [FnGenerators], [KeyText]: calls of compiled functions and the text of
      keys (src/vm/runner.cc, src/vm/core_api.cc); the compiled functions are
      parameters there.
    - [Generators], [GeneratorsProof]: partition, sort, filter, index seek and
      window generators. [Joins], [JoinsProof]: last joins.
    - [WindowRunners], [SegmentMerge], [RequestWindowProof],
      [WindowAggProof]: window aggregation with unions and joins, and the
      window of a request built from the segments of its key.
    - [Runners], [RunnersProof], [Queries]: the [Run] method of every runner
      as one function over plans, caches, batches of requests, and theorems
      that compose runners into queries.
    - [RunnerBuilder], [RunnerBuilderProof]: the runners, tasks and jobs made
      of a physical plan, on a heap of runners, with the tasks of cluster mode
      (src/vm/runner.h and .cc).
    - [Engine]: the cache of compiled queries with its lookups
      and stores as steps of several threads, dependent tables, and the runs
      of request, batch and batch request sessions (src/vm/engine.cc,
      [SqlCompiler::BuildClusterJob] of src/vm/sql_compiler.cc). Compilation
      and the LRU cache of boost are parameters.

    Planning (src/plan, src/node, src/passes, src/vm/schemas_context.cc):
    - [Frames], [FramesProof]: frames and windows of a query, their merging
      and the window ranges made of them.
    - [SchemasContext], [SchemasProof]: schemas of plan nodes and the
      resolution of columns by name and by id.
    - [Conditions], [ConditionsProof]: keys extracted from join and filter
      conditions (passes/physical/condition_optimized.cc). [IndexMatch],
      [IndexMatchProof]: the choice of an index
      (passes/physical/group_and_sort_optimized.cc). [Limits]: limits pushed
      down (passes/physical/limit_optimized.cc).

    Generated code (src/codegen, src/node/expr_node.cc, src/udf):
    - [Llvm]: what the instructions the builders emit compute.
    - [ExprTypes], [ExprBuilder], [Expr], [ExprProof], [ExprSem]: the types of
      expressions, the code built for every operator, and its meaning.
    - [Project], [ProjectProof]: a compiled projection of a row, from the
      columns read by id to the encoded output row.
    - [Aggregates], [AggregatesProof]: the aggregates of
      src/udf/default_udf_library.cc as the expressions they are defined by,
      compiled to loops over lists. [MultiAgg], [MultiAggProof]: the one loop
      emitted for all aggregates on columns of a window
      (src/codegen/aggregate_ir_builder.cc).
    - [Containers], [ContainersProof]: the greatest elements, the aggregates
      by category and their texts (src/udf/containers.h, src/udf/default_defs).
    - [Calendar], [Udf], [UdfProof]: calendar fields, formats, casts from and
      to strings and substrings (src/udf/udf.cc); the calendar of the C
      library is written out, its parsing functions are parameters.
    - [FeatureZero]: splitting and joining of strings and
      frequencies of keys (src/udf/default_defs/feature_zero_def.cc); regular
      expressions are parameters. [WindowFns]: the value at a position of a
      window (src/udf/default_defs/window_functions_def.cc).
    - [UdfLibrary]: the library of functions with its
      aliases, the registration of signatures and the choice of an overload
      (src/udf/udf_library.cc, src/udf/udf_registry.h), and the comparison of
      types it rests on (src/node/sql_node.cc).

    Storage of the toy database (examples/toydb/src/storage):
    - [SkipList], [SkipListProof]: the skip list on an explicit heap
      (skiplist.h, src/base/fe_random.h), its abstract list, and its iterators
      beside an insertion as a step relation whose steps are single stores.
    - [TimeList]: the arrays and linked lists of a key, sorted by time (list.h).
    - [Storage], [StorageProof]: segments, tables with several indexes, their
      iterators and the handlers the engine sees (table_impl.cc,
      table_iterator.cc, segment.cc, tablet/tablet_catalog.cc).

    ** How definitions correspond to the code

    A method is a function from the object's fields (a record) to its result
    and the new fields, with the guards and early returns of the source in
    their order. [None] is undefined behaviour: an access outside the memory
    of a pointer, a null dereference, an overflow of a signed integer, an
    exception, or a call of [front] or [pop] on an empty container; so a
    theorem that says a method returns [Some] says it has none of these.
    Where an operation may also refuse its input with a status, the result is
    an [outcome]: [Undefined], [Refused] or [Done]. Other error codes and
    boolean results are ordinary values. Pointers that may be null are
    [option]s. Floating point numbers are their bits and their arithmetic a
    parameter. Compiled functions, the hash and sort of the C++ library and
    the order of hash tables are parameters of the components that call them,
    with what is relied on as named hypotheses. Physical plans are trees; in
    [RunnerBuilder] a shared node is a subtree that occurs twice with the same
    id, in [Limits] sharing is not represented. The build-time choice of the
    row format is the parameter [spark] where the code has it; the round trip
    theorems are about the default format ([false]).

    ** What the theorems show

    - The row codec: a row of supported types written within the announced
      size is read back column by column ([row_codec_roundtrip]); the emitted
      encoder and decoder agree with it in both directions
      ([compiled_encode_correct], [compiled_decode_correct]), and the reader
      of io buffers with it as well ([io_view_roundtrip]).
    - Windows: a window holds exactly the rows its frame selects
      ([current_window_refines]), window aggregation projects every row with
      the rows of its frame ([window_agg_frames]), the window of a request is,
      for frames that end at the current row, the window the batch mode computes
      for that row ([request_window_is_batch_window], [request_window_frame]),
      and a window shared between frames without size limit serves each of them
      ([window_merging], [merged_windows_rows]).
    - Handlers and runners: a handler enumerates its content whichever method
      is used ([handlers_enumerate]); caches and batches do not change the
      result of a plan ([cached_run], [batch_run]); plans of selections and of
      groups return the rows SQL says ([select_query], [group_query]); joins
      through a partition of the right side find the row that a scan finds, with
      a right order the last one ([hash_join_is_scan], [last_join_latest]).
    - Plans and sessions: the job built in local mode from a plan with shared
      nodes has one runner at most per node and computes what its operators
      compute without sharing ([job_runs_plan]); a session
      is handed a compilation of its own query for its own parameters, in
      every interleaving ([engine_get]), and returns the rows of the plan
      ([session_runs]).
    - Planning: a column resolved by name in a plan is the column it came from
      ([resolve_in_plan]); keys and remaining condition together are the
      original condition, also at run time ([join_condition_split],
      [join_keys_runtime]); the index chosen is the best one
      ([match_best_index]); limits survive the limit pass
      ([limit_pass]).
    - Generated code: accepted expressions compile ([accepted_compiles]), have
      the inferred type ([expr_type_sound]) and, on integers and booleans,
      the SQL value, zero for a division by zero ([expr_exact]); projections encode the values of their
      expressions ([compiled_projection]); aggregates, alone and merged in one
      loop, compute the aggregate of an integer column ([aggregate_call],
      [aggregate_where_call], [merged_aggregates]); containers keep and print
      the greatest elements and groups ([top_k], [top_n_categories],
      [dict_output]).
    - Scalar functions: times and dates survive the cast to a string and back
      unless the zone of the process skips them ([timestamp_text_roundtrip],
      [date_roundtrip]), substrings are the bytes
      they should be ([sub_string_correct]); joining what was split at a
      byte gives the string again ([split_join_roundtrip]), and the most frequent keys fill
      exactly the buffer computed for them ([topn_frequency]). A call gets the
      best overload that covers its arguments, but for one case
      ([overload_found]), and what was
      registered stays ([registration_stays]).
    - Storage: the skip list is a sorted list under insertion, removal and
      search ([skiplist_insert], [skiplist_remove], [skiplist_reads]); a scan
      beside insertions misses no entry that was there before, in any
      interleaving ([concurrent_scan]), and comes to its end
      ([scan_completes]); the lists of a key stay sorted, also when the array
      becomes a linked list ([time_list_insert]); a lookup by the key of an
      index finds exactly the rows put with that key, newest first
      ([index_lookup]), and a full scan meets every row ([table_full_scan]).
    - Rows, ownership and schemas: joining, comparing and projecting rows
      ([row_selector_correct], [joined_row_columns]), no leak, double free or
      dangling buffer as long as the inherited mutators leave managed slices alone
      ([slice_ownership]), the schema codec
      ([schema_roundtrip]).
    - Deviations: [RowErrors], and the theorems whose names say so
      ([division_undefined], [sort_partition_diverges],
      [maxsize_merge_drops_row], [limit_lost_on_filter],
      [long_category_overruns], [variadic_shadows_placeholder],
      [reset_frees_foreign_pointer], [null_string_undefined],
      [skipped_time_moves], ...) state exactly what the code does where that
      differs from what its name or documentation says.

    ** Fuel

    Loops that run over an iterator take fuel ([drain], [GetCount], the table
    synchronisation); the theorems give a result for every fuel that is at
    least the number of entries. [decode_loop] gets one unit per byte of its
    input, and every turn consumes at least three bytes. The index choice
    recurses once per marked key and gets one unit per key. A search in a skip
    list gets one unit per node of the heap and per level ([fuel_of]); the
    theorems show that it ends with these. Scans of stored tables need one
    unit more than there are entries, a join of strings one unit per string.
    Tasks of a cluster job are merged with two units more than there are
    shared tasks, since every turn without a merge replaces a task by the one
    before it. The runners behind a pointer are read to a depth; the theorems
    say that every depth from that of the plan on gives the same result. All other loops
    are structural over the container, the expression or the plan, or over a
    counter the code computes; the window loops take the length of the deque.

    ** Not modelled

    The parser and the translation of syntax trees to logical and physical
    plans (src/planv2, src/plan, src/vm/transform.cc) with the schemas of the
    operators they create (src/vm/physical_op.cc): a physical plan is the
    input of the models here. The passes that are not named above. Proxy
    runners, whose results come from remote calls, and printing. [Explain] and
    the local tablet of the engine. Function definitions and loops of the
    script language, the templates that register functions and the
    mathematical functions of src/udf, which call the C library. The server of
    the toy database, the SDK clients, command lines, bindings and the test
    tooling, which are input and output. The construction of LLVM
    instructions is modelled by what the emitted code computes; LLVM itself
    is not part of the sources. *)

From stdpp Require Import base numbers list option.

(** Shared vocabulary of the development: machine integers, byte-addressed
    memory, and the list facts the components use. *)

Declare Scope cpp_scope.
Delimit Scope cpp_scope with cpp.
Global Open Scope Z_scope.

(** ** Machine integers

    A [w]-bit unsigned integer is a [Z] in [0, 2^w); every C++ operation that
    may leave the range is written with the wrap-around of its type. *)

Definition wrapu (w z : Z) : Z := z mod 2 ^ w.

Definition wraps (w z : Z) : Z :=
  (z + 2 ^ (w - 1)) mod 2 ^ w - 2 ^ (w - 1).

Definition u8 (z : Z) : Z := wrapu 8 z.
Definition u16 (z : Z) : Z := wrapu 16 z.
Definition u32 (z : Z) : Z := wrapu 32 z.
Definition u64 (z : Z) : Z := wrapu 64 z.
Definition i8 (z : Z) : Z := wraps 8 z.
Definition i16 (z : Z) : Z := wraps 16 z.
Definition i32 (z : Z) : Z := wraps 32 z.
Definition i64 (z : Z) : Z := wraps 64 z.

Definition UINT8_MAX : Z := 255.
Definition UINT16_MAX : Z := 65535.
Definition UINT32_MAX : Z := 4294967295.

(** ** Byte strings, little endian *)

Fixpoint le_bytes (n : nat) (z : Z) : list Z :=
  match n with
  | O => []
  | S n' => (z mod 256) :: le_bytes n' (z / 256)
  end.

Fixpoint le_val (bs : list Z) : Z :=
  match bs with
  | [] => 0
  | b :: bs' => b + 256 * le_val bs'
  end.

(** ** Memory

    The memory a pointer refers to is the list of its bytes; an access
    outside the list is undefined behaviour of the C++ program and is the
    result [None]. *)

Abbreviation mem := (list Z) (only parsing).

Definition in_bounds (b : mem) (off : Z) (n : nat) : bool :=
  (0 <=? off) && (off + Z.of_nat n <=? Z.of_nat (length b)).

Definition load (b : mem) (off : Z) (n : nat) : option (list Z) :=
  if in_bounds b off n then Some (take n (drop (Z.to_nat off) b)) else None.

Definition store (b : mem) (off : Z) (bs : list Z) : option mem :=
  if in_bounds b off (length bs)
  then Some (take (Z.to_nat off) b ++ bs ++ drop (Z.to_nat off + length bs) b)
  else None.

(** Typed accesses: [*(T* )(p + off)] for a [T] of [n] bytes. *)
Definition load_u (b : mem) (off : Z) (n : nat) : option Z :=
  le_val <$> load b off n.

Definition load_s (b : mem) (off : Z) (n : nat) : option Z :=
  wraps (8 * Z.of_nat n) <$> load_u b off n.

Definition store_le (b : mem) (off : Z) (n : nat) (z : Z) : option mem :=
  store b off (le_bytes n z).

(** ** Tactics and hint databases *)

Create HintDb cpp.
Create Rewrite HintDb cpp_simpl.

(** Split boolean tests and conjunctions of the context into propositions. *)
Ltac bool_to_prop :=
  repeat match goal with
  | H : _ /\ _ |- _ => destruct H
  | H : andb _ _ = true |- _ => apply andb_true_iff in H
  | H : orb _ _ = false |- _ => apply orb_false_iff in H
  | H : andb _ _ = false |- _ => apply andb_false_iff in H
  | H : orb _ _ = true |- _ => apply orb_true_iff in H
  | H : negb _ = true |- _ => apply negb_true_iff in H
  | H : negb _ = false |- _ => apply negb_false_iff in H
  | H : (_ =? _)%Z = true |- _ => apply Z.eqb_eq in H
  | H : (_ =? _)%Z = false |- _ => apply Z.eqb_neq in H
  | H : (_ <? _)%Z = true |- _ => apply Z.ltb_lt in H
  | H : (_ <? _)%Z = false |- _ => apply Z.ltb_ge in H
  | H : (_ <=? _)%Z = true |- _ => apply Z.leb_le in H
  | H : (_ <=? _)%Z = false |- _ => apply Z.leb_gt in H
  | H : (_ >? _)%Z = true |- _ => apply Z.gtb_lt in H
  | H : (_ >? _)%Z = false |- _ => rewrite Z.gtb_ltb in H
  | H : (_ >=? _)%Z = true |- _ => rewrite Z.geb_leb in H
  | H : (_ >=? _)%Z = false |- _ => rewrite Z.geb_leb in H
  end.

(** Linear arithmetic with divisions and remainders by constants. *)
Ltac dlia := Z.div_mod_to_equations; lia.

(** Case on the condition of the innermost [if] of the goal. *)
Ltac case_if :=
  match goal with
  | |- context [if ?c then _ else _] =>
      let E := fresh "Hif" in destruct c eqn:E; bool_to_prop
  end.

(** ** Machine-integer lemmas *)

Lemma wrapu_small w z : 0 <= z < 2 ^ w -> wrapu w z = z.
Proof. intros. unfold wrapu. by apply Z.mod_small. Qed.

Lemma wrapu_range w z : 0 <= w -> 0 <= wrapu w z < 2 ^ w.
Proof. intros. unfold wrapu. apply Z.mod_pos_bound. lia. Qed.

Lemma wraps_small w z :
  0 < w -> - 2 ^ (w - 1) <= z < 2 ^ (w - 1) -> wraps w z = z.
Proof.
  intros Hw Hz. unfold wraps.
  assert (2 ^ w = 2 * 2 ^ (w - 1)) as E
    by (rewrite <- Z.pow_succ_r by lia; f_equal; lia).
  rewrite Z.mod_small; lia.
Qed.

Lemma wraps_mod w z : 0 < w -> wraps w (z mod 2 ^ w) = wraps w z.
Proof.
  intros Hw. unfold wraps. f_equal. by rewrite Zplus_mod_idemp_l.
Qed.

Lemma u8_small z : 0 <= z < 256 -> u8 z = z.
Proof. intros. by apply wrapu_small. Qed.
Lemma u16_small z : 0 <= z < 65536 -> u16 z = z.
Proof. intros. by apply wrapu_small. Qed.
Lemma u32_small z : 0 <= z < 4294967296 -> u32 z = z.
Proof. intros. by apply wrapu_small. Qed.
Lemma u64_small z : 0 <= z < 18446744073709551616 -> u64 z = z.
Proof. intros. by apply wrapu_small. Qed.
Lemma i16_small z : -32768 <= z < 32768 -> i16 z = z.
Proof. intros. apply wraps_small; simpl; lia. Qed.
Lemma i32_small z : -2147483648 <= z < 2147483648 -> i32 z = z.
Proof. intros. apply wraps_small; simpl; lia. Qed.
Lemma i64_small z :
  -9223372036854775808 <= z < 9223372036854775808 -> i64 z = z.
Proof. intros. apply wraps_small; simpl; lia. Qed.

Lemma u32_range z : 0 <= u32 z < 4294967296.
Proof. apply (wrapu_range 32). lia. Qed.
Lemma u64_range z : 0 <= u64 z < 18446744073709551616.
Proof. apply (wrapu_range 64). lia. Qed.

#[export] Hint Rewrite u8_small u16_small u32_small u64_small
  i16_small i32_small i64_small using lia : cpp_simpl.

(** ** Little-endian lemmas *)

Lemma length_le_bytes n z : length (le_bytes n z) = n.
Proof. revert z. induction n; intros; simpl; auto. Qed.

Lemma le_val_bytes n z : le_val (le_bytes n z) = z mod 2 ^ (8 * Z.of_nat n).
Proof.
  revert z. induction n as [|n IH]; intros z; cbn [le_bytes le_val].
  - by rewrite Z.mod_1_r.
  - rewrite IH.
    replace (8 * Z.of_nat (S n)) with (8 + 8 * Z.of_nat n) by lia.
    rewrite Z.pow_add_r by lia. change (2 ^ 8) with 256.
    rewrite Z.rem_mul_r; lia.
Qed.

(** Only the low bits matter. *)
Lemma le_bytes_mod n z : le_bytes n (z mod 2 ^ (8 * Z.of_nat n)) = le_bytes n z.
Proof.
  revert z. induction n as [|n IH]; intros z; [done|]. cbn [le_bytes].
  replace (8 * Z.of_nat (S n)) with (8 + 8 * Z.of_nat n) by lia.
  rewrite Z.pow_add_r by lia. change (2 ^ 8) with 256.
  assert (0 < 2 ^ (8 * Z.of_nat n)) by lia.
  rewrite Z.rem_mul_r by lia. f_equal.
  - rewrite (Z.mul_comm 256), Z_mod_plus_full. by rewrite Z.mod_mod by lia.
  - rewrite (Z.mul_comm 256), Z.div_add by lia.
    rewrite (Z.div_small (z mod 256)) by (apply Z.mod_pos_bound; lia).
    by rewrite Z.add_0_l, IH.
Qed.

Lemma le_val_bytes_small n z :
  0 <= z < 2 ^ (8 * Z.of_nat n) -> le_val (le_bytes n z) = z.
Proof. intros. rewrite le_val_bytes. by apply Z.mod_small. Qed.

Lemma le_bytes_range n z : Forall (fun b => 0 <= b < 256) (le_bytes n z).
Proof.
  revert z. induction n; intros; simpl; constructor; auto.
  apply Z.mod_pos_bound. lia.
Qed.

Lemma le_bytes_val bs :
  Forall (fun b => 0 <= b < 256) bs -> le_bytes (length bs) (le_val bs) = bs.
Proof.
  induction 1 as [|b bs Hb _ IH]; [done|]. cbn [le_val le_bytes length].
  rewrite (Z.mul_comm 256), Z_mod_plus_full, Z.mod_small by lia.
  rewrite Z.div_add, Z.div_small by lia. rewrite Z.add_0_l. by f_equal.
Qed.

#[export] Hint Rewrite length_le_bytes : cpp_simpl.

(** ** Memory lemmas *)

Lemma in_bounds_true b off n :
  in_bounds b off n = true <->
  0 <= off /\ off + Z.of_nat n <= Z.of_nat (length b).
Proof. unfold in_bounds. rewrite andb_true_iff. lia. Qed.

Lemma load_Some b off n :
  0 <= off -> off + Z.of_nat n <= Z.of_nat (length b) ->
  load b off n = Some (take n (drop (Z.to_nat off) b)).
Proof.
  intros. unfold load. by rewrite (proj2 (in_bounds_true b off n)).
Qed.

Lemma load_inv b off n bs :
  load b off n = Some bs ->
  0 <= off /\ off + Z.of_nat n <= Z.of_nat (length b) /\
  bs = take n (drop (Z.to_nat off) b) /\ length bs = n.
Proof.
  unfold load. destruct (in_bounds b off n) eqn:E; [|done].
  apply in_bounds_true in E as [? ?]. intros [= <-]. repeat split; auto.
  rewrite length_take, length_drop. lia.
Qed.

Lemma store_Some b off bs :
  0 <= off -> off + Z.of_nat (length bs) <= Z.of_nat (length b) ->
  store b off bs =
  Some (take (Z.to_nat off) b ++ bs ++ drop (Z.to_nat off + length bs) b).
Proof.
  intros. unfold store. by rewrite (proj2 (in_bounds_true b off _)).
Qed.

Lemma store_inv b off bs b' :
  store b off bs = Some b' ->
  0 <= off /\ off + Z.of_nat (length bs) <= Z.of_nat (length b) /\
  b' = take (Z.to_nat off) b ++ bs ++ drop (Z.to_nat off + length bs) b.
Proof.
  unfold store. destruct (in_bounds b off (length bs)) eqn:E; [|done].
  apply in_bounds_true in E as [? ?]. by intros [= <-].
Qed.

Lemma store_length b off bs b' :
  store b off bs = Some b' -> length b' = length b.
Proof.
  intros (? & ? & ->)%store_inv.
  rewrite !length_app, length_take, length_drop. lia.
Qed.

(** A byte of the memory after a store. *)
Lemma store_lookup b off bs b' i :
  store b off bs = Some b' ->
  b' !! i =
  if decide (off <= Z.of_nat i < off + Z.of_nat (length bs))
  then bs !! (i - Z.to_nat off)%nat else b !! i.
Proof.
  intros (H1 & H2 & ->)%store_inv.
  assert (length (take (Z.to_nat off) b) = Z.to_nat off) as Hlen
    by (rewrite length_take; lia).
  destruct (decide (Z.of_nat i < off)) as [Hi|Hi].
  - rewrite decide_False by lia. rewrite lookup_app_l by lia.
    by rewrite lookup_take_lt by lia.
  - rewrite lookup_app_r by lia. rewrite Hlen.
    destruct (decide (Z.of_nat i < off + Z.of_nat (length bs))) as [Hj|Hj].
    + rewrite decide_True by lia. by rewrite lookup_app_l by lia.
    + rewrite decide_False by lia. rewrite lookup_app_r by lia.
      rewrite lookup_drop. f_equal. lia.
Qed.

Lemma load_ext b b' off n :
  length b = length b' ->
  (forall i, off <= Z.of_nat i < off + Z.of_nat n -> b !! i = b' !! i) ->
  load b off n = load b' off n.
Proof.
  intros Hlen Hext. unfold load, in_bounds. rewrite Hlen.
  case_if; [|done]. f_equal. apply list_eq. intros i.
  destruct (decide (i < n)%nat).
  - rewrite !lookup_take_lt, !lookup_drop by lia. apply Hext. lia.
  - by rewrite !lookup_take_ge by lia.
Qed.

Lemma load_store_same b off bs b' :
  store b off bs = Some b' -> load b' off (length bs) = Some bs.
Proof.
  intros H. pose proof (store_length _ _ _ _ H) as Hlen.
  pose proof (store_inv _ _ _ _ H) as (? & ? & _).
  rewrite load_Some by lia. f_equal. apply list_eq. intros i.
  destruct (decide (i < length bs)%nat).
  - rewrite lookup_take_lt, lookup_drop by lia.
    rewrite (store_lookup _ _ _ _ _ H), decide_True by lia. f_equal. lia.
  - rewrite lookup_take_ge by lia. symmetry. apply lookup_ge_None_2. lia.
Qed.

Lemma load_store_disjoint b off bs b' off' n :
  store b off bs = Some b' ->
  off' + Z.of_nat n <= off \/ off + Z.of_nat (length bs) <= off' ->
  load b' off' n = load b off' n.
Proof.
  intros H Hd. apply load_ext; [by eapply store_length|].
  intros i Hi. rewrite (store_lookup _ _ _ _ _ H), decide_False; [done|lia].
Qed.

(** Loads inside a region read the corresponding part of its contents. *)
Lemma load_sub b off n bs k m :
  load b off n = Some bs -> 0 <= k -> k + Z.of_nat m <= Z.of_nat n ->
  load b (off + k) m = Some (take m (drop (Z.to_nat k) bs)).
Proof.
  intros (? & ? & -> & _)%load_inv ? ?. rewrite load_Some by lia. f_equal.
  apply list_eq. intros i. destruct (decide (i < m)%nat).
  - rewrite !lookup_take_lt by lia. rewrite !lookup_drop.
    rewrite lookup_take_lt by lia. rewrite lookup_drop. f_equal. lia.
  - by rewrite !lookup_take_ge by lia.
Qed.

Lemma store_is_Some b off bs :
  is_Some (store b off bs) <->
  0 <= off /\ off + Z.of_nat (length bs) <= Z.of_nat (length b).
Proof.
  split.
  - intros [b' H]. by apply store_inv in H as (? & ? & _).
  - intros [? ?]. rewrite store_Some by done. by eexists.
Qed.

(** Two consecutive stores are one store. *)
Lemma store_app b off xs ys :
  store b off (xs ++ ys) =
  (b1 ← store b off xs; store b1 (off + Z.of_nat (length xs)) ys).
Proof.
  destruct (store b off (xs ++ ys)) as [bA|] eqn:EA.
  - pose proof (proj1 (store_is_Some b off (xs ++ ys)) (ex_intro _ _ EA)) as HA.
    rewrite length_app in HA.
    destruct (proj2 (store_is_Some b off xs)) as [b1 E1]; [lia|].
    pose proof (store_length _ _ _ _ E1).
    rewrite E1. cbn [mbind option_bind].
    destruct (proj2 (store_is_Some b1 (off + Z.of_nat (length xs)) ys)) as [bB EB];
      [lia|].
    rewrite EB. f_equal. apply list_eq. intros i.
    rewrite (store_lookup _ _ _ _ i EA), (store_lookup _ _ _ _ i EB),
      (store_lookup _ _ _ _ i E1), length_app.
    repeat case_decide; try lia; try done.
    + rewrite lookup_app_r by lia. f_equal. lia.
    + by rewrite lookup_app_l by lia.
  - destruct (store b off xs) as [b1|] eqn:E1; [|done]. cbn [mbind option_bind].
    destruct (store b1 _ ys) as [bB|] eqn:EB; [|done].
    pose proof (store_length _ _ _ _ E1).
    apply store_inv in E1 as (? & ? & _), EB as (? & ? & _).
    destruct (proj2 (store_is_Some b off (xs ++ ys))); [|congruence].
    rewrite length_app. lia.
Qed.

(** [if (n != 0) memcpy(dst, src, n)] for a source of [n] bytes. *)
Lemma memcpy_store b off s b' :
  store b off s = Some b' ->
  (if negb (Z.of_nat (length s) =? 0)
   then src ← load s 0 (Z.to_nat (Z.of_nat (length s))); store b off src
   else Some b) = Some b'.
Proof.
  intros H. case_if.
  - rewrite Nat2Z.id, load_Some by lia. cbn [mbind option_bind].
    change (Z.to_nat 0) with 0%nat. by rewrite drop_0, take_ge.
  - destruct s; [|simpl in *; lia]. apply store_inv in H as (_ & _ & ->).
    cbn. by rewrite Nat.add_0_r, take_drop.
Qed.

(** ** Typed accesses *)

Lemma load_u_store_le b ptr n z b' :
  store_le b ptr n z = Some b' -> load_u b' ptr n = Some (z mod 2 ^ (8 * Z.of_nat n)).
Proof.
  intros H. unfold load_u.
  pose proof (load_store_same _ _ _ _ H) as E. rewrite length_le_bytes in E.
  by rewrite E, <- le_val_bytes.
Qed.

Lemma load_u_store_disjoint b ptr n z b' off m :
  store_le b ptr n z = Some b' ->
  off + Z.of_nat m <= ptr \/ ptr + Z.of_nat n <= off ->
  load_u b' off m = load_u b off m.
Proof.
  intros H Hd. unfold load_u.
  rewrite (load_store_disjoint _ _ _ _ off m H); [done|]. by rewrite length_le_bytes.
Qed.

Lemma store_le_Some b ptr n z :
  0 <= ptr -> ptr + Z.of_nat n <= Z.of_nat (length b) ->
  exists b', store_le b ptr n z = Some b'.
Proof. intros. eexists. apply store_Some; rewrite ?length_le_bytes; lia. Qed.

(** ** Bits *)

(** A shifted high part and a low part that fits below it. *)
Lemma lor_shiftl_add hi lo n :
  0 <= n -> 0 <= lo < 2 ^ n -> Z.lor (Z.shiftl hi n) lo = hi * 2 ^ n + lo.
Proof.
  intros Hn Hlo.
  assert (Z.land (Z.shiftl hi n) lo = 0) as Hd.
  { apply Z.bits_inj'. intros k Hk. rewrite Z.land_spec, Z.bits_0.
    destruct (decide (k < n)).
    - by rewrite Z.shiftl_spec_low by lia.
    - rewrite <- (Z.mod_small lo (2 ^ n)) by lia.
      rewrite Z.mod_pow2_bits_high by lia. apply andb_false_r. }
  rewrite <- Z.shiftl_mul_pow2, Z.add_nocarry_lxor by done.
  symmetry. by apply Z.lxor_lor.
Qed.

(** The C++ test [v & (1 << k)]. *)
Lemma land_mask_testbit v k :
  0 <= k -> negb (Z.land v (Z.shiftl 1 k) =? 0) = Z.testbit v k.
Proof.
  intros Hk. rewrite Z.shiftl_1_l. destruct (Z.testbit v k) eqn:E.
  - apply negb_true_iff, Z.eqb_neq. intros H0.
    assert (Z.testbit (Z.land v (2 ^ k)) k = true) as HT
      by (rewrite Z.land_spec, E, Z.pow2_bits_true by lia; done).
    rewrite H0, Z.bits_0 in HT. done.
  - apply negb_false_iff, Z.eqb_eq. apply Z.bits_inj'. intros j Hj.
    rewrite Z.land_spec, Z.bits_0. destruct (decide (j = k)) as [->|].
    + by rewrite E.
    + rewrite Z.pow2_bits_false by lia. apply andb_false_r.
Qed.

Lemma testbit_u8 v k : 0 <= k < 8 -> Z.testbit (u8 v) k = Z.testbit v k.
Proof. intros. unfold u8, wrapu. by rewrite Z.mod_pow2_bits_low by lia. Qed.

(** [v |= 1 << k] and [v &= ~(1 << k)] on one bit. *)
Lemma testbit_set v k j :
  0 <= k -> 0 <= j ->
  Z.testbit (Z.lor v (Z.shiftl 1 k)) j = if decide (j = k) then true else Z.testbit v j.
Proof.
  intros. rewrite Z.lor_spec, Z.shiftl_1_l. case_decide.
  - subst. rewrite Z.pow2_bits_true by lia. apply orb_true_r.
  - rewrite Z.pow2_bits_false by lia. apply orb_false_r.
Qed.

Lemma testbit_clear v k j :
  0 <= k -> 0 <= j ->
  Z.testbit (Z.land v (Z.lnot (Z.shiftl 1 k))) j =
  if decide (j = k) then false else Z.testbit v j.
Proof.
  intros. rewrite Z.land_spec, Z.lnot_spec, Z.shiftl_1_l by lia. case_decide.
  - subst. rewrite Z.pow2_bits_true by lia. apply andb_false_r.
  - rewrite Z.pow2_bits_false by lia. apply andb_true_r.
Qed.

(** ** Weighted sums of lists *)

Definition sumz {A} (f : A -> Z) (l : list A) : Z := foldr (fun x acc => f x + acc) 0 l.

Section Sumz.
Context {A : Type} (f : A -> Z).

Lemma sumz_app l1 l2 : sumz f (l1 ++ l2) = sumz f l1 + sumz f l2.
Proof. induction l1; simpl; lia. Qed.

Lemma sumz_take_S l j x :
  l !! j = Some x -> sumz f (take (S j) l) = sumz f (take j l) + f x.
Proof.
  intros H. rewrite (take_S_r _ _ _ H), sumz_app. simpl. lia.
Qed.

Context (f_nonneg : forall x, 0 <= f x).

Lemma sumz_nonneg l : 0 <= sumz f l.
Proof. induction l as [|x l IH]; simpl; [lia|]. specialize (f_nonneg x). lia. Qed.

Lemma sumz_take_le l j k : (j <= k)%nat -> sumz f (take j l) <= sumz f (take k l).
Proof.
  intros H. rewrite <- (take_drop j (take k l)), sumz_app, take_take.
  rewrite Nat.min_l by done. pose proof (sumz_nonneg (drop j (take k l))). lia.
Qed.

Lemma sumz_take_all l j : sumz f (take j l) <= sumz f l.
Proof.
  rewrite <- (take_drop j l) at 2. rewrite sumz_app.
  pose proof (sumz_nonneg (drop j l)). lia.
Qed.

(** The part of an earlier element ends before any later one begins. *)
Lemma sumz_take_lt l j k x :
  l !! j = Some x -> (j < k)%nat -> sumz f (take j l) + f x <= sumz f (take k l).
Proof.
  intros H Hk. rewrite <- (sumz_take_S _ _ _ H). apply sumz_take_le. lia.
Qed.

Lemma sumz_take_end l j x :
  l !! j = Some x -> sumz f (take j l) + f x <= sumz f l.
Proof. intros H. rewrite <- (sumz_take_S _ _ _ H). apply sumz_take_all. Qed.
End Sumz.
