(* ===== verification/Layout.v ===== *)
(** * Row layout: column types, null bitmap, address widths

    The data model of [src/src/proto/fe_type.proto] and the layout
    functions of [include/codec/fe_row_codec.h] and [src/codec/fe_row_codec.cc]
    that both the writer and the readers of a row use. *)

From stdpp Require Import base numbers list option strings.
From S2P Require Import Prelude.

(** ** Data of the protobuf messages *)

Inductive Ty :=
| kBool | kInt16 | kInt32 | kInt64 | kFloat | kDouble
| kVarchar | kDate | kTimestamp | kBlob | kNull.

#[export] Instance Ty_eq_dec : EqDecision Ty.
Proof. solve_decision. Defined.

(** The wire numbers of the enumeration. *)
Definition Ty_number (t : Ty) : Z :=
  match t with
  | kBool => 0 | kInt16 => 1 | kInt32 => 3 | kInt64 => 5 | kFloat => 7
  | kDouble => 8 | kVarchar => 9 | kDate => 10 | kTimestamp => 11
  | kBlob => 12 | kNull => 101
  end.

(** A [std::string] is the list of its bytes. *)
Record ColumnDef := mkColumnDef {
  col_name : list Z;
  col_type : Ty;
  col_offset : Z;
  col_is_not_null : bool;
  col_is_constant : bool
}.

Abbreviation Schema := (list ColumnDef).

(** A column with the message's default values but for name and type. *)
Definition mkcol (n : list Z) (t : Ty) : ColumnDef :=
  mkColumnDef n t 0 false false.

Definition schema_size (s : Schema) : Z := Z.of_nat (length s).

Definition is_varchar (t : Ty) : bool := bool_decide (t = kVarchar).

(** ** Constants *)

Definition VERSION_LENGTH : Z := 2.
Definition SIZE_LENGTH : Z := 4.
Definition HEADER_LENGTH : Z := VERSION_LENGTH + SIZE_LENGTH.
Definition UINT24_MAX : Z := Z.shiftl 1 24 - 1.

(** [!!x] of C++: 1 for a non-zero [x]. *)
Definition nonzero (z : Z) : Z := if z =? 0 then 0 else 1.

(** ** Layout functions

    [spark] is the value of the process-wide flag
    [FLAGS_enable_spark_unsaferow_format]. *)

Section Layout.
Context (spark : bool).

Definition BitMapSize (size : Z) : Z :=
  if spark
  then u32 ((Z.shiftr size 6 + nonzero (Z.land size 0x7f)) * 8)
  else u32 (Z.shiftr size 3 + nonzero (Z.land size 0x07)).

Definition DEFAULT_TYPE_SIZE_MAP (t : Ty) : option Z :=
  match t with
  | kBool => Some 1
  | kInt16 => Some 2
  | kInt32 => Some 4
  | kFloat => Some 4
  | kInt64 => Some 8
  | kTimestamp => Some 8
  | kDate => Some 4
  | kDouble => Some 8
  | kVarchar | kBlob | kNull => None
  end.

Definition SPARK_UNSAFEROW_TYPE_SIZE_MAP (t : Ty) : option Z :=
  match t with
  | kBool | kInt16 | kInt32 | kFloat | kInt64 | kTimestamp | kDate
  | kDouble => Some 8
  | kVarchar | kBlob | kNull => None
  end.

Definition GetTypeSizeMap (t : Ty) : option Z :=
  if spark then SPARK_UNSAFEROW_TYPE_SIZE_MAP t else DEFAULT_TYPE_SIZE_MAP t.

Definition GetAddrLength (size : Z) : Z :=
  if size <=? UINT8_MAX then 1
  else if size <=? UINT16_MAX then 2
  else if size <=? UINT24_MAX then 3
  else 4.

Definition GetBitmapSize (column_size : Z) : Z := BitMapSize column_size.

Definition GetStartOffset (column_count : Z) : Z :=
  u32 (HEADER_LENGTH + BitMapSize column_count).

(** The offset of a string body, written at [ptr] in [addr_length] bytes:
    little endian but for the three-byte form, which is big endian. *)
Definition write_str_addr (b : mem) (ptr addr_length off : Z) : option mem :=
  if addr_length =? 1 then store_le b ptr 1 (u8 off)
  else if addr_length =? 2 then store_le b ptr 2 (u16 off)
  else if addr_length =? 3 then
    b1 ← store_le b ptr 1 (u8 (Z.shiftr off 16));
    b2 ← store_le b1 (ptr + 1) 1 (u8 (Z.shiftr (Z.land off 0xFF00) 8));
    store_le b2 (ptr + 2) 1 (u8 (Z.land off 0x00FF))
  else store_le b ptr 4 off.

Definition FillNullStringOffset (b : mem) (start addr_length str_idx
    str_offset : Z) : option mem :=
  write_str_addr b (start + u32 (addr_length * str_idx)) addr_length str_offset.

(** The reader's side of [write_str_addr] (the cases of the switch of
    [v1::GetStrFieldUnsafe]). *)
Definition read_str_addr (b : mem) (ptr addr_length : Z) : option Z :=
  if addr_length =? 1 then load_u b ptr 1
  else if addr_length =? 2 then load_u b ptr 2
  else if addr_length =? 3 then
    x0 ← load_u b ptr 1;
    x1 ← load_u b (ptr + 1) 1;
    x2 ← load_u b (ptr + 2) 1;
    Some (u32 (u32 (Z.shiftl (u32 (u32 (Z.shiftl x0 8) + x1)) 8) + x2))
  else load_u b ptr 4.

End Layout.

(** ** Properties of the layout *)

(** The bitmap of the default format has a bit for every column and less than
    one byte to spare. *)
Lemma BitMapSize_default n :
  0 <= n < 4294967296 ->
  n <= 8 * BitMapSize false n < n + 8.
Proof.
  intros Hn. unfold BitMapSize, nonzero.
  change 0x07 with (Z.ones 3). rewrite Z.land_ones by lia.
  rewrite Z.shiftr_div_pow2 by lia. change (2 ^ 3) with 8.
  pose proof (Z.div_mod n 8 ltac:(lia)). pose proof (Z.mod_pos_bound n 8 ltac:(lia)).
  case_if; rewrite u32_small by lia; lia.
Qed.

Lemma GetAddrLength_range size : 1 <= GetAddrLength size <= 4.
Proof. unfold GetAddrLength. repeat case_if; lia. Qed.

(** An offset of at most [size] fits the width chosen for [size]. *)
Lemma GetAddrLength_fits size :
  0 <= size < 4294967296 -> size < 2 ^ (8 * GetAddrLength size).
Proof.
  intros. unfold GetAddrLength, UINT24_MAX, UINT8_MAX, UINT16_MAX in *.
  change (Z.shiftl 1 24 - 1) with 16777215 in *.
  repeat case_if; simpl; lia.
Qed.

(** The bytes of an address and the value they are read back as. *)
Definition addr_bytes (al off : Z) : list Z :=
  if al =? 3 then rev (le_bytes 3 off) else le_bytes (Z.to_nat al) off.

Definition addr_value (al : Z) (bs : list Z) : Z :=
  if al =? 3 then le_val (rev bs) else le_val bs.

Lemma length_addr_bytes al off : length (addr_bytes al off) = Z.to_nat al.
Proof.
  unfold addr_bytes. case_if; [subst; done|]. apply length_le_bytes.
Qed.

Lemma addr_bytes_range al off : Forall (fun x => 0 <= x < 256) (addr_bytes al off).
Proof. unfold addr_bytes. case_if; [apply Forall_rev|]; apply le_bytes_range. Qed.

Lemma addr_value_bytes al off :
  0 <= al -> 0 <= off < 2 ^ (8 * al) -> addr_value al (addr_bytes al off) = off.
Proof.
  intros ? H. unfold addr_value, addr_bytes. case_if.
  - subst. rewrite rev_involutive. by apply le_val_bytes_small.
  - apply le_val_bytes_small. by rewrite Z2Nat.id.
Qed.

Lemma be_bytes off :
  [u8 (Z.shiftr off 16)] ++ [u8 (Z.shiftr (Z.land off 0xFF00) 8)] ++
  [u8 (Z.land off 0x00FF)] = rev (le_bytes 3 off).
Proof.
  rewrite Z.shiftr_land. change (Z.shiftr 0xFF00 8) with (Z.ones 8).
  change 0x00FF with (Z.ones 8).
  rewrite !Z.land_ones, !Z.shiftr_div_pow2 by lia. cbn [le_bytes rev app].
  unfold u8, wrapu. change (2 ^ 16) with (256 * 256). change (2 ^ 8) with 256.
  by rewrite !Z.mod_mod, Z.div_div by lia.
Qed.

(** The four address widths. *)
Ltac width_cases al :=
  let H := fresh in
  assert (al = 1 \/ al = 2 \/ al = 3 \/ al = 4) as H by lia;
  destruct H as [-> | [-> | [-> | ->]]];
  cbn [Z.eqb Pos.eqb];
  repeat match goal with
  | _ : context [Z.to_nat ?n] |- _ =>
      let m := eval vm_compute in (Z.to_nat n) in change (Z.to_nat n) with m in *
  | |- context [Z.to_nat ?n] =>
      let m := eval vm_compute in (Z.to_nat n) in change (Z.to_nat n) with m in *
  end.

(** Writing an address is one store of its bytes. *)
Lemma write_str_addr_store b ptr al off :
  1 <= al <= 4 -> write_str_addr b ptr al off = store b ptr (addr_bytes al off).
Proof.
  intros Hal. unfold write_str_addr, store_le, addr_bytes.
  width_cases al.
  - f_equal. apply (le_bytes_mod 1).
  - f_equal. apply (le_bytes_mod 2).
  - rewrite <- be_bytes, store_app. cbn [le_bytes].
    unfold u8, wrapu. change (2 ^ 8) with 256. rewrite !Z.mod_mod by lia.
    destruct (store b ptr _); cbn [mbind option_bind]; [|done].
    by rewrite store_app, <- Z.add_assoc.
  - done.
Qed.


(** Reading one is one load. *)
Lemma read_str_addr_load b ptr al bs :
  1 <= al <= 4 -> Forall (fun x => 0 <= x < 256) bs ->
  load b ptr (Z.to_nat al) = Some bs ->
  read_str_addr b ptr al = Some (addr_value al bs).
Proof.
  intros Hal Hbs Hl. unfold read_str_addr, addr_value, load_u.
  width_cases al; try by (rewrite Hl).
  pose proof (load_inv _ _ _ _ Hl) as (_ & _ & _ & Hlen).
  destruct bs as [|x [|y [|z [|]]]]; try done. rewrite !Forall_cons in Hbs.
  rewrite <- (Z.add_0_r ptr) at 1.
  rewrite !(load_sub _ _ _ _ _ 1 Hl) by lia.
  change (Z.to_nat 0) with 0%nat. change (Z.to_nat 1) with 1%nat.
  change (Z.to_nat 2) with 2%nat. cbn [drop take fmap option_fmap option_map mbind option_bind].
  f_equal. cbn [le_val rev app]. rewrite !Z.shiftl_mul_pow2 by lia.
  change (2 ^ 8) with 256.
  rewrite (u32_small ((_ + _) * 256)), (u32_small (_ + (y + _))),
    (u32_small (_ * 256)), u32_small; lia.
Qed.

(** The writer's and the reader's switch agree: an offset that fits the
    address width is read back unchanged. *)
Lemma read_write_str_addr b ptr al off b' :
  1 <= al <= 4 -> 0 <= off < 2 ^ (8 * al) ->
  write_str_addr b ptr al off = Some b' ->
  read_str_addr b' ptr al = Some off.
Proof.
  intros Hal Hoff H. rewrite write_str_addr_store in H by done.
  apply load_store_same in H. rewrite length_addr_bytes in H.
  rewrite (read_str_addr_load _ _ _ _ Hal) with (2 := H).
  - f_equal. apply addr_value_bytes; lia.
  - apply addr_bytes_range.
Qed.

(** A read depends only on the bytes of the address. *)
Lemma read_str_addr_frame b b' ptr al :
  1 <= al <= 4 ->
  (forall k, 0 <= k -> k + 1 <= al -> load b (ptr + k) 1 = load b' (ptr + k) 1) ->
  load b ptr (Z.to_nat al) = load b' ptr (Z.to_nat al) ->
  read_str_addr b ptr al = read_str_addr b' ptr al.
Proof.
  intros Hal H1 H. unfold read_str_addr, load_u.
  width_cases al; try by (rewrite H).
  pose proof (H1 0 ltac:(lia) ltac:(lia)) as E0. rewrite Z.add_0_r in E0.
  by rewrite E0, (H1 1), (H1 2) by lia.
Qed.
