(* ===== verification/SchemaCodec.v ===== *)
(** * Schemas on the wire

    Models [include/codec/fe_schema_codec.h]: a schema is written as a
    two-byte column count and, for every column, three bytes and the name. *)

From stdpp Require Import base numbers option list.
From S2P Require Import Prelude Layout.

Definition MAX_ROW_BYTE_SIZE : Z := 1024 * 1024.
Definition FIELD_BYTE_SIZE : Z := 3.
Definition HEADER_SIZE : Z := 2.

Definition name_size (c : ColumnDef) : Z := Z.of_nat (length (col_name c)).

Definition GetSize (schema : Schema) : Z :=
  fold_left (fun byte_size c => u32 (byte_size + (FIELD_BYTE_SIZE + name_size c))) schema HEADER_SIZE.

(** [std::string::resize]. *)
Definition resize (n : nat) (s : mem) : mem := take n s ++ replicate (n - length s) 0.

(** The loop over the columns, writing at [cbuffer]; the status and the
    buffer, also when a column is refused in the middle. *)
Fixpoint encode_loop (cols : Schema) (b : mem) (cbuffer : Z) : option (bool * mem) :=
  match cols with
  | [] => Some (true, b)
  | c :: cols' =>
      b1 ← store_le b cbuffer 1 (if col_is_constant c then 1 else 0);
      b2 ← store_le b1 (cbuffer + 1) 1 (Ty_number (col_type c));
      if name_size c >=? 128 then Some (false, b2)
      else
        b3 ← store_le b2 (cbuffer + 2) 1 (u8 (name_size c));
        b4 ← store b3 (cbuffer + 3) (col_name c);
        encode_loop cols' b4 (cbuffer + 3 + name_size c)
  end.

Definition Encode (schema : Schema) (buffer : option mem) : option (bool * option mem) :=
  match buffer with
  | None => Some (false, None)
  | Some b0 =>
      match schema with
      | [] => Some (true, Some b0)
      | _ =>
          let byte_size := GetSize schema in
          if byte_size >? MAX_ROW_BYTE_SIZE then Some (false, Some b0)
          else
            b1 ← store_le (resize (Z.to_nat byte_size) b0) 0 2 (u16 (schema_size schema));
            r ← encode_loop schema b1 2;
            Some (r.1, Some r.2)
      end
  end.

(** [Type_IsValid] and the cast back to the enumeration. *)
Definition Ty_of_number (n : Z) : option Ty :=
  find (fun t => Ty_number t =? n)
    [kBool; kInt16; kInt32; kInt64; kFloat; kDouble; kVarchar; kDate; kTimestamp; kBlob; kNull].

(** One turn per column; [m] is the string with its terminating zero. A turn
    that the fuel does not allow is [None]. *)
Fixpoint decode_loop (fuel : nat) (m : mem) (buf_size buffer read_size : Z) (schema : Schema)
  : option (bool * Schema) :=
  if read_size <? buf_size then
    match fuel with
    | O => None
    | S fuel' =>
        if buf_size - read_size <? FIELD_BYTE_SIZE then Some (true, schema)
        else
          is_constant ← load_u m buffer 1;
          type ← load_u m (buffer + 1) 1;
          match Ty_of_number type with
          | None => Some (false, schema)
          | Some t =>
              name_size ← load_u m (buffer + 2) 1;
              let total_size := FIELD_BYTE_SIZE + name_size in
              if buf_size - read_size <? total_size then Some (false, schema)
              else
                name ← load m (buffer + 3) (Z.to_nat name_size);
                decode_loop fuel' m buf_size (buffer + 3 + name_size) (read_size + total_size)
                  (schema ++ [mkColumnDef name t 0 false (is_constant =? 1)])
          end
    end
  else Some (true, schema).

Definition Decode (buf : mem) (schema : option Schema) : option (bool * option Schema) :=
  match schema with
  | None => Some (false, None)
  | Some s =>
      let buf_size := Z.of_nat (length buf) in
      if buf_size <=? 0 then Some (true, Some s)
      else if buf_size <? HEADER_SIZE then Some (false, Some s)
      else
        cnt ← load_u (buf ++ [0]) 0 2;
        r ← decode_loop (length buf) (buf ++ [0]) buf_size 2 HEADER_SIZE s;
        Some (r.1, Some r.2)
  end.

(** ** The format *)

Definition column_bytes (c : ColumnDef) : list Z :=
  [if col_is_constant c then 1 else 0; Ty_number (col_type c); name_size c] ++ col_name c.

Definition columns_bytes (s : Schema) : list Z := concat (map column_bytes s).

(** What is transmitted of a column. *)
Definition wire (c : ColumnDef) : ColumnDef :=
  mkColumnDef (col_name c) (col_type c) 0 false (col_is_constant c).

Definition name_ok (c : ColumnDef) : Prop := name_size c < 128.

Lemma Ty_number_range t : 0 <= Ty_number t < 256.
Proof. destruct t; cbn; lia. Qed.

Lemma Ty_of_number_number t : Ty_of_number (Ty_number t) = Some t.
Proof. by destruct t. Qed.

Lemma length_column_bytes c : length (column_bytes c) = (3 + length (col_name c))%nat.
Proof. unfold column_bytes. rewrite length_app. done. Qed.

Lemma GetSize_sum s acc :
  0 <= acc -> acc + sumz (fun c => 3 + name_size c) s < 4294967296 ->
  fold_left (fun byte_size c => u32 (byte_size + (FIELD_BYTE_SIZE + name_size c))) s acc =
  acc + sumz (fun c => 3 + name_size c) s.
Proof.
  revert acc. induction s as [|c s IH]; intros acc Ha Hb; cbn [fold_left sumz foldr] in *; [lia|].
  fold (sumz (fun c => 3 + name_size c) s) in *.
  assert (0 <= name_size c) by (unfold name_size; lia).
  pose proof (sumz_nonneg (fun c => 3 + name_size c) ltac:(unfold name_size; intros; lia) s).
  change FIELD_BYTE_SIZE with 3. rewrite u32_small by lia. rewrite IH by lia. lia.
Qed.

Lemma length_columns_bytes s :
  Z.of_nat (length (columns_bytes s)) = sumz (fun c => 3 + name_size c) s.
Proof.
  unfold columns_bytes. induction s as [|c s IH]; [done|]. cbn [map concat sumz foldr].
  rewrite length_app, Nat2Z.inj_add, IH, length_column_bytes. unfold name_size, sumz. lia.
Qed.

Lemma store_le_byte b off z : 0 <= z < 256 -> store_le b off 1 z = store b off [z].
Proof. intros. unfold store_le. cbn. by rewrite Z.mod_small. Qed.

Lemma encode_loop_store s : forall b off b',
  Forall name_ok s -> store b off (columns_bytes s) = Some b' ->
  encode_loop s b off = Some (true, b').
Proof.
  induction s as [|c s IH]; intros b off b' Hs Hb; cbn [encode_loop].
  - apply store_inv in Hb as (_ & _ & ->). cbn. by rewrite Nat.add_0_r, take_drop.
  - apply Forall_cons_1 in Hs as [Hc Hs]. unfold name_ok in Hc.
    change (columns_bytes (c :: s)) with
      ([if col_is_constant c then 1 else 0] ++ [Ty_number (col_type c)] ++ [name_size c] ++
       col_name c ++ columns_bytes s) in Hb.
    rewrite !store_le_byte by (destruct (col_is_constant c); lia).
    rewrite store_app in Hb. destruct (store b off _) as [b1|]; [|done].
    cbn [mbind option_bind length] in *.
    rewrite store_le_byte by apply Ty_number_range.
    rewrite store_app in Hb. change (Z.of_nat 1) with 1 in Hb.
    destruct (store b1 _ _) as [b2|]; [|done]. cbn [mbind option_bind length] in *.
    rewrite Z.geb_leb, (proj2 (Z.leb_gt _ _)) by lia.
    assert (0 <= name_size c) by (unfold name_size; lia).
    rewrite u8_small, store_le_byte by lia. rewrite store_app in Hb. change (Z.of_nat 1) with 1 in Hb.
    replace (off + 1 + 1) with (off + 2) in Hb by lia.
    destruct (store b2 _ _) as [b3|]; [|done]. cbn [mbind option_bind length] in *.
    rewrite store_app in Hb. change (Z.of_nat 1) with 1 in Hb.
    replace (off + 2 + 1) with (off + 3) in Hb by lia.
    destruct (store b3 _ _) as [b4|]; [|done]. cbn [mbind option_bind] in *. by apply IH.
Qed.

Lemma length_resize n b : length (resize n b) = n.
Proof. unfold resize. rewrite length_app, length_take, length_replicate. lia. Qed.

(** A store that fills the memory is its content. *)
Lemma store_whole b bs b' : store b 0 bs = Some b' -> length bs = length b -> b' = bs.
Proof.
  intros (_ & _ & ->)%store_inv Hl. change (Z.to_nat 0) with 0%nat. cbn.
  by rewrite drop_ge, app_nil_r by lia.
Qed.

Lemma Encode_bytes s b0 :
  s <> [] -> Forall name_ok s -> HEADER_SIZE + sumz (fun c => 3 + name_size c) s <= MAX_ROW_BYTE_SIZE ->
  Encode s (Some b0) = Some (true, Some (le_bytes 2 (u16 (schema_size s)) ++ columns_bytes s)).
Proof.
  intros Hne Hs Hz. unfold MAX_ROW_BYTE_SIZE, HEADER_SIZE in Hz.
  assert (GetSize s = 2 + sumz (fun c => 3 + name_size c) s) as Eg
    by (unfold GetSize, HEADER_SIZE; apply GetSize_sum; lia).
  unfold Encode. destruct s as [|c s]; [done|]. set (s' := c :: s) in *. rewrite Eg.
  rewrite Z.gtb_ltb, (proj2 (Z.ltb_ge _ _)) by (unfold MAX_ROW_BYTE_SIZE; lia).
  set (b1 := resize _ b0). assert (length b1 = (2 + length (columns_bytes s'))%nat) as Hl.
  { unfold b1. rewrite length_resize. pose proof (length_columns_bytes s'). lia. }
  destruct (proj2 (store_is_Some b1 0 (le_bytes 2 (u16 (schema_size s')) ++ columns_bytes s')))
    as [b2 E2]; [rewrite length_app, length_le_bytes; lia|].
  pose proof (store_whole _ _ _ E2 ltac:(rewrite length_app, length_le_bytes; lia)) as ->.
  rewrite store_app in E2. unfold store_le. destruct (store b1 0 _) as [b3|]; [|done].
  cbn [mbind option_bind] in *. rewrite length_le_bytes in E2.
  change (0 + Z.of_nat 2) with 2 in E2. by rewrite (encode_loop_store _ _ _ _ Hs E2).
Qed.

(** ** Decoding *)

Lemma load_middle (pre x post : list Z) :
  load (pre ++ x ++ post) (Z.of_nat (length pre)) (length x) = Some x.
Proof.
  rewrite load_Some by (rewrite ?length_app; lia). rewrite Nat2Z.id, drop_app_length.
  by rewrite take_app_length.
Qed.

Lemma load_u_byte (pre post : list Z) x off :
  off = Z.of_nat (length pre) -> load_u (pre ++ x :: post) off 1 = Some x.
Proof.
  intros ->. unfold load_u. pose proof (load_middle pre [x] post) as E. cbn [app length] in E.
  rewrite E. cbn. f_equal. lia.
Qed.

Lemma decode_loop_columns s : forall fuel pre acc,
  Forall name_ok s -> (length s <= fuel)%nat ->
  let m := pre ++ columns_bytes s ++ [0] in
  decode_loop fuel m (Z.of_nat (length (pre ++ columns_bytes s))) (Z.of_nat (length pre))
    (Z.of_nat (length pre)) acc = Some (true, acc ++ map wire s).
Proof.
  induction s as [|c s IH]; intros fuel pre acc Hs Hf m.
  - unfold decode_loop. destruct fuel; cbn [columns_bytes map concat]; rewrite app_nil_r, Z.ltb_irrefl;
      by rewrite app_nil_r.
  - apply Forall_cons_1 in Hs as [Hc Hs]. destruct fuel as [|fuel]; [cbn in Hf; lia|].
    cbn [decode_loop]. unfold name_ok in Hc.
    assert (m = (pre ++ column_bytes c) ++ columns_bytes s ++ [0]) as Em
      by (unfold m, columns_bytes; cbn [map concat]; by rewrite <- !app_assoc).
    pose proof (length_column_bytes c) as Hlc.
    assert (length (pre ++ columns_bytes (c :: s)) =
      length ((pre ++ column_bytes c) ++ columns_bytes s)) as El
      by (unfold columns_bytes; cbn [map concat]; by rewrite <- app_assoc).
    rewrite El. rewrite (length_app (pre ++ _)), (length_app pre), Hlc.
    rewrite (proj2 (Z.ltb_lt _ _)) by lia. change FIELD_BYTE_SIZE with 3.
    rewrite (proj2 (Z.ltb_ge _ _)) by lia.
    assert (m = pre ++ (if col_is_constant c then 1 else 0) :: Ty_number (col_type c) ::
      name_size c :: col_name c ++ columns_bytes s ++ [0]) as Eb
      by (unfold m, columns_bytes; cbn [map concat]; unfold column_bytes; by rewrite <- !app_assoc).
    assert (load_u m (Z.of_nat (length pre)) 1 = Some (if col_is_constant c then 1 else 0)) as ->
      by (rewrite Eb; by apply load_u_byte).
    assert (load_u m (Z.of_nat (length pre) + 1) 1 = Some (Ty_number (col_type c))) as ->.
    { rewrite Eb, cons_middle, app_assoc. apply load_u_byte. rewrite length_app. cbn. lia. }
    assert (load_u m (Z.of_nat (length pre) + 2) 1 = Some (name_size c)) as ->.
    { rewrite Eb, cons_middle, app_assoc, cons_middle, app_assoc. apply load_u_byte.
      rewrite !length_app. cbn. lia. }
    cbn [mbind option_bind]. rewrite Ty_of_number_number. cbv zeta.
    rewrite (proj2 (Z.ltb_ge _ _)) by (unfold name_size; lia).
    replace (Z.to_nat (name_size c)) with (length (col_name c)) by (unfold name_size; lia).
    assert (load m (Z.of_nat (length pre) + 3) (length (col_name c)) = Some (col_name c)) as ->.
    { rewrite Em. unfold column_bytes. rewrite !app_assoc, <- !app_assoc.
      rewrite app_assoc. pose proof (load_middle (pre ++ [if col_is_constant c then 1 else 0;
        Ty_number (col_type c); name_size c]) (col_name c) (columns_bytes s ++ [0])) as E.
      rewrite length_app, Nat2Z.inj_add in E. exact E. }
    cbn [mbind option_bind].
    specialize (IH fuel (pre ++ column_bytes c) (acc ++ [wire c]) Hs ltac:(cbn in Hf; lia)).
    cbv zeta in IH. rewrite <- Em, length_app, length_app, Hlc in IH.
    rewrite <- app_assoc in IH. cbn [app] in IH. cbn [map]. rewrite <- IH. unfold wire, name_size.
    f_equal; try lia. do 2 f_equal. by destruct (col_is_constant c).
Qed.

(** ** Arbitrary inputs *)

Lemma load_u_byte_ok m off :
  Forall (fun x => 0 <= x < 256) m -> 0 <= off < Z.of_nat (length m) ->
  exists x, load_u m off 1 = Some x /\ 0 <= x < 256.
Proof.
  intros Hm Ho. destruct (lookup_lt_is_Some_2 m (Z.to_nat off)) as [x Hx]; [lia|].
  exists x. unfold load_u. rewrite load_Some by lia. rewrite (drop_S _ _ _ Hx).
  change (take 1 (x :: _)) with [x]. split; [cbn; f_equal; lia|]. exact (Forall_lookup_1 _ _ _ _ Hm Hx).
Qed.

Lemma decode_loop_total fuel : forall m size off acc,
  Forall (fun x => 0 <= x < 256) m -> Z.of_nat (length m) = size + 1 -> 0 <= off <= size ->
  size - off <= Z.of_nat fuel ->
  exists ok new, decode_loop fuel m size off off acc = Some (ok, acc ++ new).
Proof.
  induction fuel as [|fuel IH]; intros m size off acc Hm Hl Ho Hf; cbn [decode_loop].
  { rewrite (proj2 (Z.ltb_ge _ _)) by lia. exists true, []. by rewrite app_nil_r. }
  change FIELD_BYTE_SIZE with 3.
  destruct (Z.ltb_spec off size); [|exists true, []; by rewrite app_nil_r].
  destruct (Z.ltb_spec (size - off) 3); [exists true, []; by rewrite app_nil_r|].
  destruct (load_u_byte_ok m off Hm) as (x1 & -> & ?); [lia|].
  destruct (load_u_byte_ok m (off + 1) Hm) as (x2 & -> & ?); [lia|].
  destruct (load_u_byte_ok m (off + 2) Hm) as (x3 & -> & ?); [lia|].
  cbn [mbind option_bind]. destruct (Ty_of_number x2) as [t|];
    [|exists false, []; by rewrite app_nil_r].
  destruct (Z.ltb_spec (size - off) (3 + x3)); [exists false, []; by rewrite app_nil_r|].
  rewrite load_Some by lia. cbn [mbind option_bind].
  replace (off + 3 + x3) with (off + (3 + x3)) by lia.
  edestruct (IH m size (off + (3 + x3))) as (ok & new & E); [done..|lia|lia|].
  rewrite E. exists ok. eexists. by rewrite <- app_assoc.
Qed.

Lemma encode_loop_status s : forall b off,
  0 <= off -> off + Z.of_nat (length (columns_bytes s)) <= Z.of_nat (length b) ->
  exists ok b', encode_loop s b off = Some (ok, b') /\ (ok = true <-> Forall name_ok s).
Proof.
  induction s as [|c s IH]; intros b off Ho Hb; cbn [encode_loop].
  { eexists _, _. split; [done|]. done. }
  unfold columns_bytes in Hb. cbn [map concat] in Hb. fold (columns_bytes s) in Hb.
  rewrite length_app, length_column_bytes in Hb.
  assert (forall bb n z, length bb = length b -> 0 <= n -> n + 1 <= off + 3 ->
    exists b', store_le bb n 1 z = Some b' /\ length b' = length b) as Hst.
  { intros bb n z E1 E2 E3. destruct (proj2 (store_is_Some bb n (le_bytes 1 z))) as [b' Eb].
    - rewrite length_le_bytes. lia.
    - exists b'. split; [done|]. by rewrite (store_length _ _ _ _ Eb). }
  destruct (Hst b off (if col_is_constant c then 1 else 0)) as (b1 & -> & L1); [lia..|].
  cbn [mbind option_bind].
  destruct (Hst b1 (off + 1) (Ty_number (col_type c))) as (b2 & -> & L2); [lia..|].
  cbn [mbind option_bind]. rewrite Z.geb_leb. destruct (Z.leb_spec 128 (name_size c)).
  - eexists _, _. split; [done|]. split; [done|]. intros [Hc _]%Forall_cons_1.
    unfold name_ok in Hc. lia.
  - destruct (Hst b2 (off + 2) (u8 (name_size c))) as (b3 & -> & L3); [lia..|].
    cbn [mbind option_bind].
    destruct (proj2 (store_is_Some b3 (off + 3) (col_name c))) as [b4 E4]; [lia|].
    rewrite E4. cbn [mbind option_bind]. pose proof (store_length _ _ _ _ E4).
    destruct (IH b4 (off + 3 + name_size c)) as (ok & b' & E & Hok); [unfold name_size; lia..|].
    exists ok, b'. split; [done|]. rewrite Hok, Forall_cons. unfold name_ok at 2. tauto.
Qed.

(** A schema survives the wire: encoding a schema whose names are shorter
    than 128 bytes and that fits a megabyte succeeds, and decoding the bytes
    appends the same columns in the same order, with name, type and
    constness. *)
Theorem schema_roundtrip s b0 acc :
  Forall name_ok s -> HEADER_SIZE + sumz (fun c => 3 + name_size c) s <= MAX_ROW_BYTE_SIZE ->
  (s = [] -> b0 = []) ->
  exists bytes, Encode s (Some b0) = Some (true, Some bytes) /\
    Decode bytes (Some acc) = Some (true, Some (acc ++ map wire s)).
Proof.
  intros Hs Hz H0. destruct (decide (s = [])) as [->|Hne].
  { rewrite (H0 eq_refl). eexists. split; [done|]. cbn. by rewrite app_nil_r. }
  eexists. split; [by apply Encode_bytes|]. unfold Decode.
  set (bytes := le_bytes 2 (u16 (schema_size s)) ++ columns_bytes s).
  assert (length bytes = (2 + length (columns_bytes s))%nat) as Hl
    by (unfold bytes; by rewrite length_app, length_le_bytes).
  rewrite (proj2 (Z.leb_gt _ _)), (proj2 (Z.ltb_ge _ _)) by (unfold HEADER_SIZE; lia).
  unfold load_u. rewrite load_Some by (rewrite ?length_app; lia). cbn [mbind option_bind fmap option_fmap option_map].
  pose proof (decode_loop_columns s (length bytes) (le_bytes 2 (u16 (schema_size s))) acc Hs) as E.
  cbv zeta in E. rewrite app_assoc, length_le_bytes in E. fold bytes in E.
  change (Z.of_nat 2) with 2 in E. unfold HEADER_SIZE. rewrite E; [done|]. rewrite Hl.
  assert (length s <= length (columns_bytes s))%nat; [|lia].
  clear. unfold columns_bytes. induction s as [|c s IH]; [done|].
  cbn [map concat length]. rewrite length_app, length_column_bytes. lia.
Qed.

(** the schema codec is safe on every input: encoding a schema that fits a
    megabyte never writes outside the buffer and reports success exactly when
    all names are short enough; decoding terminates on every byte string,
    reads nothing outside it, and only ever appends columns. *)
Theorem schema_codec_safe s b0 bytes acc :
  HEADER_SIZE + sumz (fun c => 3 + name_size c) s <= MAX_ROW_BYTE_SIZE ->
  Forall (fun x => 0 <= x < 256) bytes ->
  (exists ok b, Encode s (Some b0) = Some (ok, Some b) /\ (ok = true <-> Forall name_ok s)) /\
  (exists ok new, Decode bytes (Some acc) = Some (ok, Some (acc ++ new))).
Proof.
  intros Hz Hb. unfold MAX_ROW_BYTE_SIZE, HEADER_SIZE in Hz. split.
  - destruct s as [|c s]; [by exists true, b0|]. set (s' := c :: s) in *.
    assert (GetSize s' = 2 + sumz (fun c => 3 + name_size c) s') as Eg
      by (unfold GetSize, HEADER_SIZE; apply GetSize_sum; lia).
    unfold Encode. subst s'. cbv iota. set (s' := c :: s) in *. rewrite Eg.
    rewrite Z.gtb_ltb, (proj2 (Z.ltb_ge _ _)) by (unfold MAX_ROW_BYTE_SIZE; lia).
    pose proof (length_columns_bytes s') as Hl. set (b1 := resize _ b0).
    assert (length b1 = Z.to_nat (2 + sumz (fun c => 3 + name_size c) s')) as L1
      by apply length_resize.
    destruct (proj2 (store_is_Some b1 0 (le_bytes 2 (u16 (schema_size s'))))) as [b2 E2];
      [rewrite length_le_bytes; lia|].
    unfold store_le. rewrite E2. cbn [mbind option_bind]. pose proof (store_length _ _ _ _ E2).
    destruct (encode_loop_status s' b2 2) as (ok & b' & E & Hok); [lia..|].
    rewrite E. by exists ok, b'.
  - unfold Decode. destruct (Z.leb_spec (Z.of_nat (length bytes)) 0);
      [exists true, []; by rewrite app_nil_r|].
    destruct (Z.ltb_spec (Z.of_nat (length bytes)) HEADER_SIZE) as [|Hh];
      [exists false, []; by rewrite app_nil_r|]. unfold HEADER_SIZE in *.
    unfold load_u. rewrite load_Some by (rewrite ?length_app; lia).
    cbn [mbind option_bind fmap option_fmap option_map].
    destruct (decode_loop_total (length bytes) (bytes ++ [0]) (Z.of_nat (length bytes)) 2 acc)
      as (ok & new & ->); [|rewrite length_app; cbn; lia|lia|lia|by exists ok, new].
    apply Forall_app. split; [done|]. by repeat constructor.
Qed.

Definition sample_names : Schema :=
  [mkColumnDef [97; 98] kVarchar 0 false true; mkColumnDef [] kInt64 0 false false].

Lemma schema_roundtrip_witness :
  exists bytes, Encode sample_names (Some [1; 2; 3]) = Some (true, Some bytes) /\
    Decode bytes (Some []) = Some (true, Some sample_names).
Proof.
  apply (schema_roundtrip sample_names [1; 2; 3] []); [repeat constructor|vm_compute; discriminate|discriminate].
Defined.

Lemma schema_codec_safe_witness :
  (exists ok b, Encode sample_names (Some []) = Some (ok, Some b) /\
     (ok = true <-> Forall name_ok sample_names)) /\
  (exists ok new, Decode [1; 0; 1; 9; 200; 7] (Some []) = Some (ok, Some ([] ++ new))).
Proof.
  apply (schema_codec_safe sample_names [] [1; 0; 1; 9; 200; 7] []); [vm_compute; discriminate|].
  repeat (constructor; [lia|]). constructor.
Defined.
