(* ===== verification/TypeCodec.v ===== *)
(** * Field codec: [StringRef], [Timestamp], [Date] and the [codec::v1] functions

    Models [include/codec/type_codec.h] and [src/codec/type_codec.cc]: the
    value types of the engine and the functions that the generated code and
    the row views use to write and read single fields of a row. A [float] or
    [double] is its IEEE-754 bit pattern; the codec only copies it. *)

From stdpp Require Import base numbers list option.
From S2P Require Import Prelude Layout.

(** ** Strings *)

Record StringRef := mkStringRef { sr_size : Z; sr_data : option (list Z) }.

(** The first [n] bytes behind a pointer; reading nothing is always defined. *)
Definition ptr_load (p : option (list Z)) (n : nat) : option (list Z) :=
  match p with
  | Some m => load m 0 n
  | None => match n with O => Some [] | _ => None end
  end.

(** [memcmp] on two ranges of the same length; C fixes only the sign. *)
Fixpoint memcmp (a b : list Z) : Z :=
  match a, b with
  | x :: a', y :: b' => if x <? y then -1 else if y <? x then 1 else memcmp a' b'
  | _, _ => 0
  end.

Definition StringRef_compare (a b : StringRef) : option Z :=
  let min_len := Z.to_nat (if sr_size a <? sr_size b then sr_size a else sr_size b) in
  da ← ptr_load (sr_data a) min_len;
  db ← ptr_load (sr_data b) min_len;
  let r := memcmp da db in
  Some (if r =? 0
        then if sr_size a <? sr_size b then -1
             else if sr_size a >? sr_size b then 1 else r
        else r).

Definition StringRef_ToString (a : StringRef) : option (list Z) :=
  if sr_size a =? 0 then Some [] else ptr_load (sr_data a) (Z.to_nat (sr_size a)).

(** The comparison operators. *)
Definition StringRef_eq (a b : StringRef) : option bool :=
  r ← StringRef_compare a b; Some (0 =? r).
Definition StringRef_ne (a b : StringRef) : option bool :=
  r ← StringRef_compare a b; Some (negb (0 =? r)).
Definition StringRef_ge (a b : StringRef) : option bool :=
  r ← StringRef_compare a b; Some (r >=? 0).
Definition StringRef_gt (a b : StringRef) : option bool :=
  r ← StringRef_compare a b; Some (r >? 0).
Definition StringRef_le (a b : StringRef) : option bool :=
  r ← StringRef_compare a b; Some (r <=? 0).
Definition StringRef_lt (a b : StringRef) : option bool :=
  r ← StringRef_compare a b; Some (r <? 0).

(** [operator+]: a fresh buffer with both strings and a terminating zero. *)
Definition StringRef_concat (a b : StringRef) : option StringRef :=
  let size := u32 (sr_size a + sr_size b) in
  da ← (if sr_size a >? 0 then ptr_load (sr_data a) (Z.to_nat (sr_size a)) else Some []);
  db ← (if sr_size b >? 0 then ptr_load (sr_data b) (Z.to_nat (sr_size b)) else Some []);
  let buffer := replicate (Z.to_nat (u32 (size + 1))) 0 in
  b1 ← store buffer 0 da;
  b2 ← store b1 (sr_size a) db;
  b3 ← store b2 size [0];
  Some (mkStringRef size (Some b3)).

(** ** Time stamps *)

(** Signed 64-bit addition and subtraction; overflow is undefined. *)
Definition in_i64 (z : Z) : bool := (- 2 ^ 63 <=? z) && (z <? 2 ^ 63).
Definition checked_i64 (z : Z) : option Z := if in_i64 z then Some z else None.

Record Timestamp := mkTimestamp { ts_ : Z }.

Definition Timestamp_of (ts : Z) : Timestamp := mkTimestamp (if ts <? 0 then 0 else ts).

Definition Timestamp_add_assign (a b : Timestamp) : option Timestamp :=
  mkTimestamp <$> checked_i64 (ts_ a + ts_ b).
Definition Timestamp_sub_assign (a b : Timestamp) : option Timestamp :=
  mkTimestamp <$> checked_i64 (ts_ a - ts_ b).
Definition Timestamp_add (a b : Timestamp) : option Timestamp :=
  Timestamp_of <$> checked_i64 (ts_ a + ts_ b).
Definition Timestamp_sub (a b : Timestamp) : option Timestamp :=
  Timestamp_of <$> checked_i64 (ts_ a - ts_ b).
Definition Timestamp_div (a : Timestamp) (b : Z) : option Timestamp :=
  if b =? 0 then None else Timestamp_of <$> checked_i64 (Z.quot (ts_ a) b).

Definition Timestamp_gt (a b : Timestamp) : bool := ts_ a >? ts_ b.
Definition Timestamp_lt (a b : Timestamp) : bool := ts_ a <? ts_ b.
Definition Timestamp_ge (a b : Timestamp) : bool := ts_ a >=? ts_ b.
Definition Timestamp_le (a b : Timestamp) : bool := ts_ a <=? ts_ b.
Definition Timestamp_eq (a b : Timestamp) : bool := ts_ a =? ts_ b.
Definition Timestamp_ne (a b : Timestamp) : bool := negb (ts_ a =? ts_ b).

(** ** Dates *)

Record Date := mkDate { date_ : Z }.

Definition Date_of_int (date : Z) : Date := mkDate (if date <? 0 then 0 else date).

(** The packing shared by the constructor of [Date] and by
    [RowBuilder::AppendDate]. *)
Definition date_pack (year month day : Z) : Z :=
  let data := Z.shiftl (year - 1900) 16 in
  let data := Z.lor data (Z.shiftl (month - 1) 8) in
  Z.lor data day.

Definition Date_of_ymd (year month day : Z) : Date :=
  if (year <? 1900) || (year >? 9999) then mkDate 0
  else if (month <? 1) || (month >? 12) then mkDate 0
  else if (day <? 1) || (day >? 31) then mkDate 0
  else mkDate (date_pack year month day).

(** [Decode] fails on a negative word, otherwise yields (year, month, day). *)
Definition Date_Decode (date : Z) : option (Z * Z * Z) :=
  if date <? 0 then None
  else
    let day := Z.land date 0xFF in
    let date := Z.shiftr date 8 in
    let month := 1 + Z.land date 0xFF in
    Some (1900 + Z.shiftr date 8, month, day).

Definition Date_gt (a b : Date) : bool := date_ a >? date_ b.
Definition Date_lt (a b : Date) : bool := date_ a <? date_ b.
Definition Date_ge (a b : Date) : bool := date_ a >=? date_ b.
Definition Date_le (a b : Date) : bool := date_ a <=? date_ b.
Definition Date_eq (a b : Date) : bool := date_ a =? date_ b.
Definition Date_ne (a b : Date) : bool := negb (date_ a =? date_ b).

(** A [const char*] the string getters hand out. *)
Inductive charp := PNull | PEmpty | PRow (off : Z).

(** ** Writing fields: the namespace [codec::v1] *)

Module v1.
Section V1.
Context (spark : bool).

(** Returns the row size and the width of string addresses. *)
Definition CalcTotalLength (primary_size str_field_cnt str_size : Z) : Z * Z :=
  let total_size := u32 (primary_size + str_size) in
  if spark then (u32 (total_size + u32 (str_field_cnt * 8)), 8)
  else if u32 (total_size + str_field_cnt) <=? UINT8_MAX
  then (u32 (total_size + str_field_cnt), 1)
  else if u32 (total_size + u32 (str_field_cnt * 2)) <=? UINT16_MAX
  then (u32 (total_size + u32 (str_field_cnt * 2)), 2)
  else if u32 (total_size + u32 (str_field_cnt * 3)) <=? Z.shiftl 1 24
  then (u32 (total_size + u32 (str_field_cnt * 3)), 3)
  else (u32 (total_size + u32 (str_field_cnt * 4)), 4).

Definition null_bit_ptr (idx : Z) : Z := HEADER_LENGTH + Z.shiftr idx 3.
Definition null_bit_mask (idx : Z) : Z := Z.shiftl 1 (Z.land idx 0x07).

Definition AppendNullBit (b : mem) (col_idx : Z) (is_null : bool) : option mem :=
  v ← load_u b (null_bit_ptr col_idx) 1;
  store_le b (null_bit_ptr col_idx) 1
    (u8 (if is_null then Z.lor v (null_bit_mask col_idx)
         else Z.land v (Z.lnot (null_bit_mask col_idx)))).

(** [AppendInt16] reports 4, as the source does. *)
Definition append_field (n : nat) (ret : Z) (b : mem) (buf_size val field_offset : Z)
  : option (Z * mem) :=
  if u32 (field_offset + Z.of_nat n) >? buf_size then Some (-1, b)
  else b' ← store_le b field_offset n val; Some (ret, b').

Definition AppendInt16 := append_field 2 4.
Definition AppendFloat := append_field 4 4.
Definition AppendInt32 := append_field 4 4.
Definition AppendInt64 := append_field 8 8.
Definition AppendDouble := append_field 8 8.

(** Returns the offset after the written body (an [int32_t]). *)
Definition AppendString (b : mem) (buf_size col_idx : Z) (val : list Z) (size : Z)
    (is_null : bool) (str_start_offset str_field_offset str_addr_space
    str_body_offset : Z) : option (Z * mem) :=
  if spark then
    let str_col_offset := u32 (u32 (HEADER_LENGTH + str_start_offset) + u32 (col_idx * 8)) in
    b1 ← store_le b str_col_offset 4 size;
    b2 ← store_le b1 (str_col_offset + 4) 4 (u32 (str_body_offset - HEADER_LENGTH));
    b3 ← (if negb (size =? 0)
          then src ← load val 0 (Z.to_nat size); store b2 str_body_offset src
          else Some b2);
    Some (i32 (u32 (str_body_offset + size)), b3)
  else if is_null then
    b1 ← AppendNullBit b col_idx true;
    b2 ← FillNullStringOffset b1 str_start_offset (GetAddrLength buf_size)
           str_field_offset str_body_offset;
    Some (i32 str_body_offset, b2)
  else
    let str_offset := u32 (str_start_offset + u32 (str_field_offset * str_addr_space)) in
    if u32 (str_offset + size) >? buf_size then Some (-1, b)
    else
      b1 ← write_str_addr b str_offset str_addr_space str_body_offset;
      b2 ← (if negb (size =? 0)
            then src ← load val 0 (Z.to_nat size); store b1 str_body_offset src
            else Some b1);
      Some (i32 (u32 (str_body_offset + size)), b2).

Definition GetAddrSpace (size : Z) : Z :=
  if size <=? UINT8_MAX then 1
  else if size <=? UINT16_MAX then 2
  else if size <=? Z.shiftl 1 24 then 3
  else 4.

(** ** Reading fields *)

(** A row pointer is [None] when it is null. *)
Definition IsNullAt (row : option (list Z)) (idx : Z) : option bool :=
  match row with
  | None => Some true
  | Some b =>
      v ← load_u b (null_bit_ptr idx) 1;
      Some (negb (Z.land v (null_bit_mask idx) =? 0))
  end.

Definition GetBoolFieldUnsafe (row : mem) (offset : Z) : option Z := load_s row offset 1.
Definition GetInt16FieldUnsafe (row : mem) (offset : Z) : option Z := load_s row offset 2.
Definition GetInt32FieldUnsafe (row : mem) (offset : Z) : option Z := load_s row offset 4.
Definition GetInt64FieldUnsafe (row : mem) (offset : Z) : option Z := load_s row offset 8.
Definition GetFloatFieldUnsafe (row : mem) (offset : Z) : option Z := load_u row offset 4.
Definition GetDoubleFieldUnsafe (row : mem) (offset : Z) : option Z := load_u row offset 8.
Definition GetTimestampFieldUnsafe (row : mem) (offset : Z) : option Timestamp :=
  Timestamp_of <$> load_s row offset 8.

(** The checked getters: the value and the null flag they set. *)
Definition get_field {A} (unsafe : mem -> Z -> option A) (dflt : A)
    (row : option (list Z)) (idx offset : Z) : option (A * bool) :=
  n ← IsNullAt row idx;
  match n, row with
  | false, Some b => v ← unsafe b offset; Some (v, false)
  | _, _ => Some (dflt, true)
  end.

Definition GetBoolField := get_field GetBoolFieldUnsafe 0.
Definition GetInt16Field := get_field GetInt16FieldUnsafe 0.
Definition GetInt32Field := get_field GetInt32FieldUnsafe 0.
Definition GetInt64Field := get_field GetInt64FieldUnsafe 0.
Definition GetFloatField := get_field GetFloatFieldUnsafe 0.
Definition GetTimestampField := get_field GetTimestampFieldUnsafe (mkTimestamp 0).
Definition GetDoubleField := get_field GetDoubleFieldUnsafe 0.

(** The out-parameters [data] and [size] are the cells they point to, [None]
    for a null pointer; the result is the status and the cells afterwards. *)
Definition GetStrFieldUnsafe (row : option (list Z)) (col_idx field_offset
    next_str_field_offset str_start_offset addr_space : Z)
    (data : option charp) (size : option Z) : option (Z * option charp * option Z) :=
  match row, data, size with
  | Some b, Some _, Some _ =>
      if spark then
        let p := HEADER_LENGTH + str_start_offset + u32 (col_idx * 8) in
        sz ← load_u b p 4;
        o ← load_u b (p + 4) 4;
        Some (0, Some (PRow (u32 (o + HEADER_LENGTH))), Some sz)
      else if (1 <=? addr_space) && (addr_space <=? 4) then
        str_offset ← read_str_addr b
          (str_start_offset + u32 (field_offset * addr_space)) addr_space;
        next_str_offset ← (if next_str_field_offset >? 0
          then read_str_addr b
            (str_start_offset + u32 (next_str_field_offset * addr_space)) addr_space
          else Some 0);
        if next_str_field_offset <=? 0 then
          total_length ← load_u b VERSION_LENGTH 4;
          if total_length <? str_offset
          then Some (-3, Some (PRow str_offset), Some 0)
          else Some (0, Some (PRow str_offset), Some (u32 (total_length - str_offset)))
        else if next_str_offset <? str_offset
        then Some (-3, Some (PRow str_offset), Some 0)
        else Some (0, Some (PRow str_offset), Some (u32 (next_str_offset - str_offset)))
      else Some (-2, data, size)
  | _, _, _ => Some (-1, data, size)
  end.

Definition GetStrField (row : option (list Z)) (idx str_field_offset
    next_str_field_offset str_start_offset addr_space : Z)
    (data : option charp) (size : option Z)
  : option (Z * option charp * option Z * bool) :=
  n ← IsNullAt row idx;
  if (n : bool) then
    match data, size with
    | Some _, Some _ => Some (0, Some PEmpty, Some 0, true)
    | _, _ => None
    end
  else
    r ← GetStrFieldUnsafe row idx str_field_offset next_str_field_offset
          str_start_offset addr_space data size;
    Some (r, false).

End V1.
End v1.
Import v1.

(** [std::string(p, n)]. *)
Definition charp_string (b : mem) (p : charp) (n : Z) : option (list Z) :=
  match p with
  | PNull => None
  | PEmpty => if n =? 0 then Some [] else None
  | PRow off => load b off (Z.to_nat n)
  end.
(** ** Null bits *)

Lemma null_bit_shift idx : 0 <= idx -> null_bit_ptr idx = HEADER_LENGTH + idx / 8.
Proof. intros. unfold null_bit_ptr. by rewrite Z.shiftr_div_pow2. Qed.

Lemma null_bit_pos idx : 0 <= idx -> Z.land idx 7 = idx mod 8.
Proof. intros. change 7 with (Z.ones 3). by rewrite Z.land_ones. Qed.

Lemma IsNullAt_testbit b idx v :
  0 <= idx -> load_u b (null_bit_ptr idx) 1 = Some v ->
  IsNullAt (Some b) idx = Some (Z.testbit v (idx mod 8)).
Proof.
  intros Hi Hv. unfold IsNullAt. rewrite Hv. cbn [mbind option_bind].
  unfold null_bit_mask. rewrite null_bit_pos by done. f_equal.
  apply land_mask_testbit. dlia.
Qed.

(** Setting one null bit leaves all others alone. *)
Lemma IsNullAt_AppendNullBit b b' i j (v x : bool) :
  0 <= i -> 0 <= j ->
  AppendNullBit b i v = Some b' ->
  IsNullAt (Some b) j = Some x ->
  IsNullAt (Some b') j = Some (if decide (i = j) then v else x).
Proof.
  intros Hi Hj Ha Hx. unfold AppendNullBit in Ha.
  destruct (load_u b (null_bit_ptr i) 1) as [w|] eqn:Hw; [|done].
  cbn [mbind option_bind] in Ha.
  destruct (decide (null_bit_ptr j = null_bit_ptr i)) as [E|E].
  - pose proof (load_u_store_le _ _ _ _ _ Ha) as Hn. rewrite <- E in Hn.
    rewrite (IsNullAt_testbit _ _ _ Hj Hn).
    rewrite <- E in Hw. rewrite (IsNullAt_testbit _ _ _ Hj Hw) in Hx.
    rewrite !null_bit_shift in E by done.
    rewrite Z.mod_pow2_bits_low, testbit_u8 by dlia.
    unfold null_bit_mask. rewrite null_bit_pos by done.
    f_equal. injection Hx as <-.
    destruct v; rewrite ?testbit_set, ?testbit_clear by dlia;
      repeat case_decide; try done; dlia.
  - assert (load_u b' (null_bit_ptr j) 1 = load_u b (null_bit_ptr j) 1) as EL
      by (eapply load_u_store_disjoint; [done|lia]).
    rewrite decide_False by congruence.
    unfold IsNullAt in *. by rewrite EL.
Qed.

Lemma AppendNullBit_Some b i v :
  0 <= i -> HEADER_LENGTH + i / 8 < Z.of_nat (length b) ->
  exists b', AppendNullBit b i v = Some b' /\ length b' = length b.
Proof.
  intros Hi Hb. unfold AppendNullBit, load_u. rewrite null_bit_shift by done.
  unfold HEADER_LENGTH, VERSION_LENGTH, SIZE_LENGTH in *.
  rewrite load_Some by dlia. cbn [fmap option_fmap option_map mbind option_bind].
  destruct (store_le_Some b (2 + 4 + i / 8) 1
    (u8 (if v then Z.lor (le_val (take 1 (drop (Z.to_nat (2 + 4 + i / 8)) b))) (null_bit_mask i)
      else Z.land (le_val (take 1 (drop (Z.to_nat (2 + 4 + i / 8)) b))) (Z.lnot (null_bit_mask i)))))
    as [b' Hb']; [dlia..|].
  exists b'. split; [done|]. by eapply store_length.
Qed.

Lemma AppendNullBit_frame b i v b' off n :
  0 <= i -> AppendNullBit b i v = Some b' ->
  off + Z.of_nat n <= HEADER_LENGTH + i / 8 \/ HEADER_LENGTH + i / 8 + 1 <= off ->
  load b' off n = load b off n.
Proof.
  intros Hi Ha Hd. unfold AppendNullBit in Ha.
  destruct (load_u b (null_bit_ptr i) 1) as [w|]; [|done].
  cbn [mbind option_bind] in Ha. rewrite null_bit_shift in Ha by done.
  eapply load_store_disjoint; [exact Ha|]. rewrite length_le_bytes. lia.
Qed.

(** ** Dates *)

(** What the constructor accepts. *)
Definition valid_ymd (y m d : Z) : Prop :=
  1900 <= y <= 9999 /\ 1 <= m <= 12 /\ 1 <= d <= 31.

Lemma date_pack_value y m d :
  1 <= m <= 256 -> 0 <= d < 256 ->
  date_pack y m d = (y - 1900) * 65536 + (m - 1) * 256 + d.
Proof.
  intros Hm Hd. unfold date_pack. rewrite <- Z.lor_assoc.
  rewrite (lor_shiftl_add (m - 1) d 8) by lia.
  rewrite lor_shiftl_add by lia. lia.
Qed.

Lemma Date_of_ymd_valid y m d :
  valid_ymd y m d ->
  date_ (Date_of_ymd y m d) = (y - 1900) * 65536 + (m - 1) * 256 + d.
Proof.
  intros (Hy & Hm & Hd). unfold Date_of_ymd. rewrite !Z.gtb_ltb.
  repeat case_if; try lia. apply date_pack_value; lia.
Qed.

Lemma Date_Decode_value date :
  0 <= date ->
  Date_Decode date =
  Some (1900 + date / 65536, 1 + (date / 256) mod 256, date mod 256).
Proof.
  intros H. unfold Date_Decode. case_if; [lia|].
  change 0xFF with (Z.ones 8). rewrite !Z.land_ones by lia.
  rewrite !Z.shiftr_div_pow2 by lia. change (2 ^ 8) with 256.
  by rewrite Z.div_div by lia.
Qed.

(** Packing a valid calendar date and decoding it gives the date back. *)
Lemma Date_decode_encode y m d :
  valid_ymd y m d -> Date_Decode (date_ (Date_of_ymd y m d)) = Some (y, m, d).
Proof.
  intros H. pose proof H as (? & ? & ?).
  rewrite Date_of_ymd_valid, Date_Decode_value by (done || lia).
  f_equal. f_equal; [f_equal|]; dlia.
Qed.

(** Lexicographic order on calendar dates. *)
Definition ymd_lt (a b : Z * Z * Z) : Prop :=
  let '(y1, m1, d1) := a in
  let '(y2, m2, d2) := b in
  y1 < y2 \/ (y1 = y2 /\ (m1 < m2 \/ (m1 = m2 /\ d1 < d2))).

(** ** String comparison *)

(** The order the engine promises for strings. *)
Fixpoint lex_compare (a b : list Z) : Z :=
  match a, b with
  | [], [] => 0
  | [], _ => -1
  | _, [] => 1
  | x :: a', y :: b' => if x <? y then -1 else if y <? x then 1 else lex_compare a' b'
  end.

(** The string a reference denotes. *)
Definition sr_denotes (s : StringRef) (bs : list Z) : Prop :=
  sr_size s = Z.of_nat (length bs) /\ ptr_load (sr_data s) (length bs) = Some bs.

Lemma ptr_load_prefix p bs n :
  ptr_load p (length bs) = Some bs -> (n <= length bs)%nat ->
  ptr_load p n = Some (take n bs).
Proof.
  intros H Hn. destruct p as [m|]; cbn in *.
  - rewrite <- (Z.add_0_r 0). by rewrite (load_sub _ _ _ _ 0 n H) by lia.
  - destruct bs; [|done]. by destruct n; [|simpl in *; lia].
Qed.

Lemma lex_compare_prefix a b n :
  n = Nat.min (length a) (length b) ->
  lex_compare a b =
  let r := memcmp (take n a) (take n b) in
  if r =? 0 then Z.sgn (Z.of_nat (length a) - Z.of_nat (length b)) else r.
Proof.
  revert b n. induction a as [|x a IH]; intros [|y b] n ->; cbn -[Z.of_nat]; try done.
  case_if; [done|]. case_if; [done|]. rewrite (IH b _ eq_refl). cbv zeta.
  case_if; [|done]. f_equal. lia.
Qed.

Lemma lex_compare_eq a b : lex_compare a b = 0 <-> a = b.
Proof.
  revert b. induction a as [|x a IH]; intros [|y b]; simpl; try done.
  case_if; [split; [done|intros [=]; lia]|].
  case_if; [split; [done|intros [=]; lia]|].
  rewrite IH. assert (x = y) as -> by lia. split; congruence.
Qed.

Lemma lex_compare_antisym a b : lex_compare b a = - lex_compare a b.
Proof.
  revert b. induction a as [|x a IH]; intros [|y b]; simpl; try done.
  repeat case_if; try lia. apply IH.
Qed.

Lemma lex_compare_trans a b c :
  lex_compare a b < 0 -> lex_compare b c < 0 -> lex_compare a c < 0.
Proof.
  revert b c. induction a as [|x a IH]; intros [|y b] [|z c]; simpl; try lia.
  repeat case_if; try lia. apply IH.
Qed.

Lemma compare_lex a b x y :
  sr_denotes a x -> sr_denotes b y -> StringRef_compare a b = Some (lex_compare x y).
Proof.
  intros [Ha Hx] [Hb Hy]. unfold StringRef_compare. rewrite Ha, Hb.
  set (n := Nat.min (length x) (length y)).
  assert (Z.to_nat (if Z.of_nat (length x) <? Z.of_nat (length y)
    then Z.of_nat (length x) else Z.of_nat (length y)) = n) as -> by (case_if; lia).
  rewrite (ptr_load_prefix _ _ n Hx), (ptr_load_prefix _ _ n Hy) by lia.
  cbn [mbind option_bind]. f_equal. rewrite (lex_compare_prefix x y n eq_refl).
  cbv zeta. rewrite Z.gtb_ltb. repeat case_if; lia.
Qed.

(** ** Row sizes and address widths *)

Lemma GetAddrSpace_length size :
  size <> Z.shiftl 1 24 -> GetAddrSpace size = GetAddrLength size.
Proof.
  intros. unfold GetAddrSpace, GetAddrLength, UINT24_MAX.
  repeat case_if; try done; lia.
Qed.

(** ** Main properties *)

(** The packed form of dates is a faithful code: for every valid calendar
    triple the decoder returns the triple the constructor packed; every
    invalid triple becomes the word 0; and a decoded word whose month and day
    are in range is the word the constructor builds. *)
Theorem date_word_codec y m d w :
  (valid_ymd y m d -> Date_Decode (date_ (Date_of_ymd y m d)) = Some (y, m, d)) /\
  (~ valid_ymd y m d -> date_ (Date_of_ymd y m d) = 0) /\
  (Date_Decode w = Some (y, m, d) -> valid_ymd y m d -> date_ (Date_of_ymd y m d) = w).
Proof.
  split_and!.
  - apply Date_decode_encode.
  - intros Hn. unfold Date_of_ymd, valid_ymd in *. rewrite !Z.gtb_ltb.
    repeat case_if; try done. exfalso. apply Hn. lia.
  - intros Hd Hv. rewrite Date_of_ymd_valid by done. destruct Hv as (? & ? & ?).
    destruct (Z.ltb_spec w 0) as [Hw|Hw].
    + unfold Date_Decode in Hd. by rewrite (proj2 (Z.ltb_lt w 0) Hw) in Hd.
    + rewrite Date_Decode_value in Hd by done. injection Hd as <- <- <-. dlia.
Qed.

Lemma date_word_codec_witness :
  Date_Decode (date_ (Date_of_ymd 2020 5 27)) = Some (2020, 5, 27).
Proof. apply (date_word_codec 2020 5 27 0). unfold valid_ymd. lia. Defined.

(** The comparison operators on [Date] compare the packed words, and that
    is comparing the calendar dates: [<] is year first, then month, then day,
    [==] is the same day, and the other four operators follow from the two. *)
Theorem date_word_order y1 m1 d1 y2 m2 d2 :
  valid_ymd y1 m1 d1 -> valid_ymd y2 m2 d2 ->
  let a := Date_of_ymd y1 m1 d1 in
  let b := Date_of_ymd y2 m2 d2 in
  (Date_lt a b = true <-> ymd_lt (y1, m1, d1) (y2, m2, d2)) /\
  (Date_eq a b = true <-> (y1, m1, d1) = (y2, m2, d2)) /\
  Date_gt a b = Date_lt b a /\ Date_le a b = Date_lt a b || Date_eq a b /\
  Date_ge a b = negb (Date_lt a b) /\ Date_ne a b = negb (Date_eq a b).
Proof.
  intros H1 H2. cbv zeta.
  unfold Date_lt, Date_eq, Date_gt, Date_le, Date_ge, Date_ne.
  rewrite !Date_of_ymd_valid by done. unfold valid_ymd in *. simpl.
  rewrite Z.gtb_ltb, Z.geb_leb, Z.ltb_lt, Z.eqb_eq. split_and!; try done; try lia.
  split; [intros; f_equal; [f_equal|]; lia|intros [=]; lia].
Qed.

Lemma date_word_order_witness :
  Date_lt (Date_of_ymd 1999 12 31) (Date_of_ymd 2000 1 1) = true.
Proof.
  apply (date_word_order 1999 12 31 2000 1 1); unfold valid_ymd; simpl; lia.
Defined.

(** [StringRef::compare] never reads outside the two strings and returns
    the sign of the lexicographic order of their bytes; so [==] and [!=]
    decide equality of the byte strings, and [<], [<=], [>], [>=] are one
    total order. *)
Theorem StringRef_compare_spec a b x y :
  sr_denotes a x -> sr_denotes b y ->
  StringRef_compare a b = Some (lex_compare x y) /\
  StringRef_eq a b = Some (bool_decide (x = y)) /\
  StringRef_ne a b = Some (negb (bool_decide (x = y))) /\
  StringRef_lt a b = StringRef_gt b a /\ StringRef_le a b = StringRef_ge b a /\
  StringRef_ge a b = negb <$> StringRef_lt a b.
Proof.
  intros Ha Hb. unfold StringRef_eq, StringRef_ne, StringRef_lt, StringRef_gt, StringRef_le,
    StringRef_ge. rewrite (compare_lex _ _ _ _ Ha Hb), (compare_lex _ _ _ _ Hb Ha).
  cbn [mbind option_bind fmap option_fmap option_map].
  rewrite (lex_compare_antisym x y). pose proof (lex_compare_eq x y) as He.
  rewrite !Z.gtb_ltb, !Z.geb_leb.
  assert ((0 =? lex_compare x y) = bool_decide (x = y)) as ->.
  { destruct (Z.eqb_spec 0 (lex_compare x y)); symmetry;
      [apply bool_decide_eq_true|apply bool_decide_eq_false]; rewrite <- He; lia. }
  split_and!; try done; f_equal; lia.
Qed.

Lemma StringRef_compare_spec_witness :
  StringRef_lt (mkStringRef 1 (Some [97; 0])) (mkStringRef 2 (Some [97; 98; 0])) =
  StringRef_gt (mkStringRef 2 (Some [97; 98; 0])) (mkStringRef 1 (Some [97; 0])).
Proof.
  apply (StringRef_compare_spec _ _ [97] [97; 98]); split; reflexivity.
Defined.

(** [v1::CalcTotalLength] without overflow of 32 bits: the size is the
    fixed part, the bodies and one address per string column, the width it
    reports is the one [v1::GetAddrSpace] derives from that size, and every
    offset inside the row fits the width. *)
Theorem CalcTotalLength_consistent primary cnt strs :
  0 <= primary -> 0 <= cnt -> 0 <= strs ->
  primary + strs + cnt * 4 < 4294967296 ->
  let '(size, width) := CalcTotalLength false primary cnt strs in
  size = primary + strs + cnt * width /\
  width = GetAddrSpace size /\
  (forall off, 0 <= off < size -> off < 2 ^ (8 * width)).
Proof.
  intros. unfold CalcTotalLength, GetAddrSpace, UINT8_MAX, UINT16_MAX.
  change (Z.shiftl 1 24) with 16777216.
  rewrite !u32_small by (rewrite ?u32_small; lia).
  repeat case_if; try lia; split_and!; try done; try lia; intros; simpl; lia.
Qed.

Lemma CalcTotalLength_consistent_witness :
  CalcTotalLength false 20 3 300 = (326, 2) /\ 2 = GetAddrSpace 326.
Proof.
  pose proof (CalcTotalLength_consistent 20 3 300) as H.
  split; [reflexivity|]. apply H; lia.
Defined.
