(* ===== verification/RowBuilder.v ===== *)
(** * [RowBuilder]: the writer of rows

    Models the class [RowBuilder] of [src/codec/fe_row_codec.cc]. A builder
    is created for a schema, attached to a buffer with [SetBuffer] and then
    receives one [Append] call per column. The buffer behind [buf_] is part
    of the builder's state, since the builder is its only writer. An
    operation returns [None] when the C++ code would access memory (or a
    vector) out of bounds. *)

From stdpp Require Import base numbers list option.
From S2P Require Import Prelude Layout TypeCodec.

Record RowBuilder := mkRowBuilder {
  rb_schema : list ColumnDef;
  rb_buf : option (list Z);
  rb_cnt : Z;
  rb_size : Z;
  rb_str_field_cnt : Z;
  rb_str_addr_length : Z;
  rb_str_field_start_offset : Z;
  rb_str_offset : Z;
  rb_offset_vec : list Z
}.

Section Builder.
Context (spark : bool).

(** The loop of the constructor: the next fixed offset, the number of string
    columns so far and the vector being filled. A column of an unsupported
    type pushes nothing. *)
Fixpoint builder_layout (cols : list ColumnDef) (start str_cnt : Z) (vec : list Z)
  : Z * Z * list Z :=
  match cols with
  | [] => (start, str_cnt, vec)
  | c :: cols' =>
      if is_varchar (col_type c)
      then builder_layout cols' start (u32 (str_cnt + 1)) (vec ++ [str_cnt])
      else match GetTypeSizeMap spark (col_type c) with
           | None => builder_layout cols' start str_cnt vec
           | Some w => builder_layout cols' (u32 (start + w)) str_cnt (vec ++ [start])
           end
  end.

Definition RowBuilder_new (schema : list ColumnDef) : RowBuilder :=
  let '(start, str_cnt, vec) :=
    builder_layout schema (u32 (HEADER_LENGTH + BitMapSize spark (schema_size schema))) 0 [] in
  mkRowBuilder schema None 0 0 str_cnt 0 start 0 vec.

(** [memset(p, 0, n)]. *)
Definition memset0 (b : mem) (off n : Z) : option mem :=
  store b off (replicate (Z.to_nat n) 0).

Definition SetBuffer (buf : option (list Z)) (size : Z) (rb : RowBuilder)
  : option (bool * RowBuilder) :=
  match buf with
  | None => Some (false, rb)
  | Some b =>
      if (size =? 0) ||
         (size <? u32 (rb_str_field_start_offset rb + rb_str_field_cnt rb))
      then Some (false, rb)
      else
        b1 ← store_le b 0 1 1;
        b2 ← store_le b1 1 1 1;
        b3 ← store_le b2 VERSION_LENGTH 4 size;
        b4 ← memset0 b3 HEADER_LENGTH (BitMapSize spark (schema_size (rb_schema rb)));
        let al := GetAddrLength size in
        Some (true, mkRowBuilder (rb_schema rb) (Some b4) 0 size (rb_str_field_cnt rb) al
          (rb_str_field_start_offset rb)
          (u32 (rb_str_field_start_offset rb + u32 (al * rb_str_field_cnt rb)))
          (rb_offset_vec rb))
  end.

Definition CalTotalLength (string_length : Z) (rb : RowBuilder) : Z :=
  let cnt := rb_str_field_cnt rb in
  if schema_size (rb_schema rb) =? 0 then 0
  else
    let total := u32 (rb_str_field_start_offset rb + string_length) in
    if u32 (total + cnt) <=? UINT8_MAX then u32 (total + cnt)
    else if u32 (total + u32 (cnt * 2)) <=? UINT16_MAX then u32 (total + u32 (cnt * 2))
    else if u32 (total + u32 (cnt * 3)) <=? UINT24_MAX then u32 (total + u32 (cnt * 3))
    else if u32 (total + u32 (cnt * 4)) <=? UINT32_MAX then u32 (total + u32 (cnt * 4))
    else 0.

(** [schema_.Get(i)]; the index must be in range. *)
Definition schema_get (s : list ColumnDef) (i : Z) : option ColumnDef := s !! Z.to_nat i.

Definition Check_ (type : Ty) (rb : RowBuilder) : option bool :=
  if i32 (rb_cnt rb) >=? schema_size (rb_schema rb) then Some false
  else
    c ← schema_get (rb_schema rb) (rb_cnt rb);
    if negb (bool_decide (col_type c = type)) then Some false
    else if negb (is_varchar (col_type c))
    then Some (bool_decide (is_Some (GetTypeSizeMap spark (col_type c))))
    else Some true.

(** The state after a field has been written. *)
Definition advance (b : mem) (str_offset : Z) (rb : RowBuilder) : RowBuilder :=
  mkRowBuilder (rb_schema rb) (Some b) (u32 (rb_cnt rb + 1)) (rb_size rb)
    (rb_str_field_cnt rb) (rb_str_addr_length rb) (rb_str_field_start_offset rb)
    str_offset (rb_offset_vec rb).

Definition AppendNULL (rb : RowBuilder) : option (bool * RowBuilder) :=
  b ← rb_buf rb;
  b1 ← v1.AppendNullBit b (rb_cnt rb) true;
  c ← schema_get (rb_schema rb) (rb_cnt rb);
  b2 ← (if is_varchar (col_type c)
        then o ← rb_offset_vec rb !! Z.to_nat (rb_cnt rb);
             FillNullStringOffset b1 (rb_str_field_start_offset rb)
               (rb_str_addr_length rb) o (rb_str_offset rb)
        else Some b1);
  Some (true, advance b2 (rb_str_offset rb) rb).

(** The common shape of the fixed-width appends: check the type, store [n]
    bytes at the column's offset, count the column. *)
Definition append_fixed (type : Ty) (n : nat) (val : Z) (rb : RowBuilder)
  : option (bool * RowBuilder) :=
  ok ← Check_ type rb;
  if (ok : bool) then
    b ← rb_buf rb;
    o ← rb_offset_vec rb !! Z.to_nat (rb_cnt rb);
    b' ← store_le b o n val;
    Some (true, advance b' (rb_str_offset rb) rb)
  else Some (false, rb).

Definition AppendBool (val : bool) := append_fixed kBool 1 (if val then 1 else 0).
Definition AppendInt32 (val : Z) := append_fixed kInt32 4 val.
Definition AppendInt16 (val : Z) := append_fixed kInt16 2 val.
Definition AppendTimestamp (val : Z) := append_fixed kTimestamp 8 val.
Definition AppendInt64 (val : Z) := append_fixed kInt64 8 val.
Definition AppendFloat (bits : Z) := append_fixed kFloat 4 bits.
Definition AppendDouble (bits : Z) := append_fixed kDouble 8 bits.

Definition AppendDate (year month day : Z) (rb : RowBuilder)
  : option (bool * RowBuilder) :=
  if (year <? 1900) || (year >? 9999) then Some (false, rb)
  else if (month <? 1) || (month >? 12) then Some (false, rb)
  else if (day <? 1) || (day >? 31) then Some (false, rb)
  else append_fixed kDate 4 (date_pack year month day) rb.

Definition AppendString (val : option (list Z)) (length : Z) (rb : RowBuilder)
  : option (bool * RowBuilder) :=
  match val with
  | None => Some (false, rb)
  | Some v =>
      ok ← Check_ kVarchar rb;
      if negb ok then Some (false, rb)
      else if u32 (rb_str_offset rb + length) >? rb_size rb then Some (false, rb)
      else
        b ← rb_buf rb;
        o ← rb_offset_vec rb !! Z.to_nat (rb_cnt rb);
        b1 ← write_str_addr b
               (rb_str_field_start_offset rb + u32 (rb_str_addr_length rb * o))
               (rb_str_addr_length rb) (rb_str_offset rb);
        b2 ← (if negb (length =? 0)
              then src ← load v 0 (Z.to_nat length); store b1 (rb_str_offset rb) src
              else Some b1);
        Some (true, advance b2 (u32 (rb_str_offset rb + length)) rb)
  end.

End Builder.

(** ** Values of a row and the client's sequence of calls *)

(** A value a client stores in a column; [None] below is SQL NULL. *)
Inductive Value :=
| VBool (b : bool) | VInt16 (z : Z) | VInt32 (z : Z) | VInt64 (z : Z)
| VTimestamp (z : Z) | VDate (y m d : Z) | VFloat (bits : Z) | VDouble (bits : Z)
| VString (s : list Z).

#[export] Instance Value_eq_dec : EqDecision Value.
Proof. solve_decision. Defined.

Definition value_type (v : Value) : Ty :=
  match v with
  | VBool _ => kBool | VInt16 _ => kInt16 | VInt32 _ => kInt32 | VInt64 _ => kInt64
  | VTimestamp _ => kTimestamp | VDate _ _ _ => kDate | VFloat _ => kFloat
  | VDouble _ => kDouble | VString _ => kVarchar
  end.

(** The value is one of its C++ type (and, for a date, one [AppendDate]
    accepts). *)
Definition value_in_range (v : Value) : Prop :=
  match v with
  | VBool _ => True
  | VInt16 z => -32768 <= z < 32768
  | VInt32 z => -2147483648 <= z < 2147483648
  | VInt64 z | VTimestamp z => -9223372036854775808 <= z < 9223372036854775808
  | VDate y m d => valid_ymd y m d
  | VFloat z => 0 <= z < 4294967296
  | VDouble z => 0 <= z < 18446744073709551616
  | VString s => True
  end.

(** The call a client makes for a value, and for a whole row; the result says
    whether all calls returned [true]. *)
Definition append_value (spark : bool) (v : option Value) (rb : RowBuilder)
  : option (bool * RowBuilder) :=
  match v with
  | None => AppendNULL rb
  | Some (VBool b) => AppendBool spark b rb
  | Some (VInt16 z) => AppendInt16 spark z rb
  | Some (VInt32 z) => AppendInt32 spark z rb
  | Some (VInt64 z) => AppendInt64 spark z rb
  | Some (VTimestamp z) => AppendTimestamp spark z rb
  | Some (VDate y m d) => AppendDate spark y m d rb
  | Some (VFloat z) => AppendFloat spark z rb
  | Some (VDouble z) => AppendDouble spark z rb
  | Some (VString s) => AppendString spark (Some s) (Z.of_nat (length s)) rb
  end.

Fixpoint append_all (spark : bool) (vs : list (option Value)) (rb : RowBuilder)
  : option (bool * RowBuilder) :=
  match vs with
  | [] => Some (true, rb)
  | v :: vs' =>
      r ← append_value spark v rb;
      if (r.1 : bool) then append_all spark vs' r.2 else Some r
  end.
