(* ===== verification/RowView.v ===== *)
(** * [RowView]: the checked reader of rows

    Models the class [RowView] of [src/codec/fe_row_codec.cc]. An
    out-parameter is the cell it points to, [None] for a null pointer; a
    getter returns its status code and the cell afterwards. The whole result
    is [None] when the C++ code dereferences a null pointer, reads outside
    the row or throws from [vector::at]. *)

From stdpp Require Import base numbers list option.
From S2P Require Import Prelude Layout TypeCodec RowBuilder.

Record RowView := mkRowView {
  rv_str_addr_length : Z;
  rv_is_valid : bool;
  rv_string_field_cnt : Z;
  rv_str_field_start_offset : Z;
  rv_size : Z;
  rv_row : option (list Z);
  rv_schema : list ColumnDef;
  rv_offset_vec : list Z
}.

Section View.
Context (spark : bool).

(** ** Construction *)

(** The loop of [Init]; it stops at the first unsupported type. *)
Fixpoint init_loop (cols : list ColumnDef) (offset str_cnt : Z) (vec : list Z)
  : bool * Z * Z * list Z :=
  match cols with
  | [] => (true, offset, str_cnt, vec)
  | c :: cols' =>
      if is_varchar (col_type c)
      then init_loop cols' offset (u32 (str_cnt + 1)) (vec ++ [str_cnt])
      else match GetTypeSizeMap spark (col_type c) with
           | None => (false, offset, str_cnt, vec)
           | Some w => init_loop cols' (u32 (offset + w)) str_cnt (vec ++ [offset])
           end
  end.

Definition Init (rv : RowView) : bool * RowView :=
  let '(ok, offset, str_cnt, vec) :=
    init_loop (rv_schema rv)
      (u32 (HEADER_LENGTH + BitMapSize spark (schema_size (rv_schema rv))))
      (rv_string_field_cnt rv) (rv_offset_vec rv) in
  if (ok : bool)
  then (true, mkRowView (rv_str_addr_length rv) (rv_is_valid rv) str_cnt offset
          (rv_size rv) (rv_row rv) (rv_schema rv) vec)
  else (false, mkRowView (rv_str_addr_length rv) false str_cnt
          (rv_str_field_start_offset rv) (rv_size rv) (rv_row rv) (rv_schema rv) vec).

Definition set_valid (v : bool) (rv : RowView) : RowView :=
  mkRowView (rv_str_addr_length rv) v (rv_string_field_cnt rv)
    (rv_str_field_start_offset rv) (rv_size rv) (rv_row rv) (rv_schema rv)
    (rv_offset_vec rv).

Definition RowView_default : RowView := mkRowView 0 false 0 0 0 None [] [].

Definition RowView_of_schema (schema : list ColumnDef) : RowView :=
  (Init (mkRowView 0 true 0 0 0 None schema [])).2.

(** [Reset(row, size)]. *)
Definition Reset (row : option (list Z)) (size : Z) (rv : RowView)
  : option (bool * RowView) :=
  match row with
  | Some b =>
      if (schema_size (rv_schema rv) =? 0) || (size <=? HEADER_LENGTH)
      then Some (false, set_valid false rv)
      else
        stored ← load_u b VERSION_LENGTH 4;
        if negb (stored =? size) then Some (false, set_valid false rv)
        else Some (true, mkRowView (GetAddrLength size) true (rv_string_field_cnt rv)
               (rv_str_field_start_offset rv) size (Some b) (rv_schema rv)
               (rv_offset_vec rv))
  | None => Some (false, set_valid false rv)
  end.

(** [Reset(row)]: the size is the one stored in the row. *)
Definition Reset_row (row : option (list Z)) (rv : RowView) : option (bool * RowView) :=
  match row with
  | Some b =>
      if schema_size (rv_schema rv) =? 0 then Some (false, set_valid false rv)
      else
        size ← load_u b VERSION_LENGTH 4;
        if size <=? HEADER_LENGTH
        then Some (false, mkRowView (rv_str_addr_length rv) false (rv_string_field_cnt rv)
               (rv_str_field_start_offset rv) size (Some b) (rv_schema rv) (rv_offset_vec rv))
        else Some (true, mkRowView (GetAddrLength size) true (rv_string_field_cnt rv)
               (rv_str_field_start_offset rv) size (Some b) (rv_schema rv) (rv_offset_vec rv))
  | None => Some (false, set_valid false rv)
  end.

Definition RowView_new (schema : list ColumnDef) (row : option (list Z)) (size : Z)
  : option RowView :=
  let rv := mkRowView 0 true 0 0 size row schema [] in
  if schema_size schema =? 0 then Some (set_valid false rv)
  else
    let '(ok, rv') := Init rv in
    if (ok : bool) then snd <$> Reset row size rv' else Some rv'.

(** ** Checks *)

Definition CheckValid (idx : Z) (type : Ty) (rv : RowView) : option bool :=
  if bool_decide (rv_row rv = None) || negb (rv_is_valid rv) then Some false
  else if i32 idx >=? schema_size (rv_schema rv) then Some false
  else
    c ← schema_get (rv_schema rv) idx;
    Some (bool_decide (col_type c = type)).

(** [IsNULL(row, idx)] dereferences the row unconditionally. *)
Definition IsNULL (row : option (list Z)) (idx : Z) : option bool :=
  match row with Some b => v1.IsNullAt (Some b) idx | None => None end.

(** ** Unchecked getters *)

Definition unsafe_field {A} (get : mem -> Z -> option A) (idx : Z) (rv : RowView)
  : option A :=
  o ← rv_offset_vec rv !! Z.to_nat idx;
  b ← rv_row rv;
  get b o.

Definition GetBoolUnsafe (idx : Z) (rv : RowView) : option bool :=
  v ← unsafe_field v1.GetBoolFieldUnsafe idx rv; Some (v =? 1).
Definition GetInt32Unsafe := unsafe_field v1.GetInt32FieldUnsafe.
Definition GetInt64Unsafe := unsafe_field v1.GetInt64FieldUnsafe.
Definition GetDateUnsafe := unsafe_field v1.GetInt32FieldUnsafe.
Definition GetTimestampUnsafe := unsafe_field v1.GetInt64FieldUnsafe.
Definition GetInt16Unsafe := unsafe_field v1.GetInt16FieldUnsafe.
Definition GetFloatUnsafe := unsafe_field v1.GetFloatFieldUnsafe.
Definition GetDoubleUnsafe := unsafe_field v1.GetDoubleFieldUnsafe.

Definition GetYearUnsafe (days : Z) : Z := 1900 + Z.shiftr days 16.
Definition GetMonthUnsafe (days : Z) : Z := 1 + Z.land (Z.shiftr days 8) 0xFF.
Definition GetDayUnsafe (days : Z) : Z := Z.land days 0xFF.

(** The slot of the next string column, 0 for the last one. *)
Definition next_str_field (field_offset string_field_cnt : Z) : Z :=
  if field_offset <? u32 (string_field_cnt - 1) then u32 (field_offset + 1) else 0.

Definition GetStringUnsafe (idx : Z) (rv : RowView) : option (list Z) :=
  field_offset ← rv_offset_vec rv !! Z.to_nat idx;
  '(ret, data, size) ← v1.GetStrFieldUnsafe spark (rv_row rv) idx field_offset
    (next_str_field field_offset (rv_string_field_cnt rv))
    (rv_str_field_start_offset rv) (rv_str_addr_length rv) (Some PNull) (Some 0);
  p ← data; n ← size; b ← rv_row rv;
  charp_string b p n.

(** ** Checked getters *)

Definition get_checked {A} (type : Ty) (unsafe : Z -> RowView -> option A)
    (idx : Z) (val : option A) (rv : RowView) : option (Z * option A) :=
  match val with
  | None => Some (-1, None)
  | Some _ =>
      ok ← CheckValid idx type rv;
      if negb ok then Some (-1, val)
      else
        n ← IsNULL (rv_row rv) idx;
        if (n : bool) then Some (1, val)
        else v ← unsafe idx rv; Some (0, Some v)
  end.

Definition GetBool := get_checked kBool GetBoolUnsafe.
Definition GetInt32 := get_checked kInt32 GetInt32Unsafe.
Definition GetTimestamp := get_checked kTimestamp GetTimestampUnsafe.
Definition GetInt64 := get_checked kInt64 GetInt64Unsafe.
Definition GetInt16 := get_checked kInt16 GetInt16Unsafe.
Definition GetFloat := get_checked kFloat GetFloatUnsafe.
Definition GetDouble := get_checked kDouble GetDoubleUnsafe.

(** [GetDate(idx, date)]: the test on the pointer is the inverted one of the
    source, so a non-null pointer is refused and a null one is written. *)
Definition GetDate_word (idx : Z) (date : option Z) (rv : RowView)
  : option (Z * option Z) :=
  match date with
  | Some _ => Some (-1, date)
  | None =>
      ok ← CheckValid idx kDate rv;
      if negb ok then Some (-1, None)
      else
        n ← IsNULL (rv_row rv) idx;
        if (n : bool) then Some (1, None) else None
  end.

(** [GetDate(idx, year, month, day)]; the three cells are written together,
    and kept when [Date::Decode] refuses the word. *)
Definition GetDate (idx : Z) (ymd : option (Z * Z * Z)) (rv : RowView)
  : option (Z * option (Z * Z * Z)) :=
  match ymd with
  | None => Some (-1, None)
  | Some old =>
      ok ← CheckValid idx kDate rv;
      if negb ok then Some (-1, ymd)
      else
        n ← IsNULL (rv_row rv) idx;
        if (n : bool) then Some (1, ymd)
        else
          date ← GetDateUnsafe idx rv;
          Some (0, Some (default old (Date_Decode date)))
  end.

Definition GetString (idx : Z) (val : option charp) (length : option Z) (rv : RowView)
  : option (Z * option charp * option Z) :=
  match val, length with
  | Some _, Some _ =>
      ok ← CheckValid idx kVarchar rv;
      if negb ok then Some (-1, val, length)
      else
        b ← rv_row rv;
        size ← load_u b VERSION_LENGTH 4;
        if size <=? HEADER_LENGTH then Some (-1, val, length)
        else
          n ← IsNULL (rv_row rv) idx;
          if (n : bool) then Some (1, val, length)
          else
            field_offset ← rv_offset_vec rv !! Z.to_nat idx;
            v1.GetStrFieldUnsafe spark (rv_row rv) idx field_offset
              (next_str_field field_offset (rv_string_field_cnt rv))
              (rv_str_field_start_offset rv) (rv_str_addr_length rv) val length
  | _, _ => Some (-1, val, length)
  end.

(** ** Getters on a row that is passed in *)

(** [GetValue(row, idx, type, val)]. *)
Definition GetValue (row : option (list Z)) (idx : Z) (type : Ty) (val : option Z)
    (rv : RowView) : option (Z * option Z) :=
  match row with
  | None => Some (-1, val)
  | Some b =>
      if schema_size (rv_schema rv) =? 0 then Some (-1, val)
      else if i32 idx >=? schema_size (rv_schema rv) then Some (-1, val)
      else
        c ← schema_get (rv_schema rv) idx;
        if negb (bool_decide (col_type c = type)) then Some (-1, val)
        else
          size ← load_u b VERSION_LENGTH 4;
          if size <=? HEADER_LENGTH then Some (-1, val)
          else
            n ← IsNULL row idx;
            if (n : bool) then Some (1, val)
            else
              offset ← rv_offset_vec rv !! Z.to_nat idx;
              let write (v : Z) : option (Z * option Z) :=
                match val with Some _ => Some (0, Some v) | None => None end in
              match type with
              | kBool => v ← v1.GetBoolFieldUnsafe b offset; write (if v =? 1 then 1 else 0)
              | kInt16 => v ← v1.GetInt16FieldUnsafe b offset; write v
              | kDate | kInt32 => v ← v1.GetInt32FieldUnsafe b offset; write v
              | kTimestamp | kInt64 => v ← v1.GetInt64FieldUnsafe b offset; write v
              | kFloat => v ← v1.GetFloatFieldUnsafe b offset; write v
              | kDouble => v ← v1.GetDoubleFieldUnsafe b offset; write v
              | kVarchar | kBlob | kNull => Some (-1, val)
              end
  end.

(** [GetValue(row, idx, val, length)] for strings. *)
Definition GetValue_str (row : option (list Z)) (idx : Z) (val : option charp)
    (length : option Z) (rv : RowView) : option (Z * option charp * option Z) :=
  match row, length with
  | Some b, Some _ =>
      if schema_size (rv_schema rv) =? 0 then Some (-1, val, length)
      else if i32 idx >=? schema_size (rv_schema rv) then Some (-1, val, length)
      else
        c ← schema_get (rv_schema rv) idx;
        if negb (is_varchar (col_type c)) then Some (-1, val, length)
        else
          size ← load_u b VERSION_LENGTH 4;
          if size <=? HEADER_LENGTH then Some (-1, val, length)
          else
            n ← IsNULL row idx;
            if (n : bool) then Some (1, val, length)
            else
              field_offset ← rv_offset_vec rv !! Z.to_nat idx;
              v1.GetStrFieldUnsafe spark row idx field_offset
                (next_str_field field_offset (rv_string_field_cnt rv))
                (rv_str_field_start_offset rv) (GetAddrLength size) val length
  | _, _ => Some (-1, val, length)
  end.

(** [GetInteger]: the status of [GetValue] is kept for [kInt16] only, as in
    the source; for the wider types a NULL is reported as the value 0. *)
Definition GetInteger (row : option (list Z)) (idx : Z) (type : Ty) (val : Z)
    (rv : RowView) : option (Z * Z) :=
  match type with
  | kInt16 =>
      '(ret, tmp) ← GetValue row idx type (Some 0) rv;
      t ← tmp; Some (ret, if ret =? 0 then t else val)
  | kDate | kInt32 | kTimestamp | kInt64 =>
      '(_, tmp) ← GetValue row idx type (Some 0) rv;
      t ← tmp; Some (0, t)
  | kBool | kFloat | kDouble | kVarchar | kBlob | kNull => Some (-1, val)
  end.

Definition GetPrimaryFieldOffset (idx : Z) (rv : RowView) : option Z :=
  i32 <$> rv_offset_vec rv !! Z.to_nat idx.

End View.
