(* ===== verification/RowCodec.v ===== *)
(** * The row codec: what [RowBuilder] writes, [RowView] reads

    The abstract content of a row buffer ([row_holds]) relates the bytes to
    the values of the columns. The builder's operations establish it column
    by column, the view's getters are proved against it alone, and the two
    together give the round trip. *)

From stdpp Require Import base numbers list option.
From S2P Require Import Prelude Layout TypeCodec RowBuilder RowView.

(** ** The layout a schema determines (default format) *)

Definition width (c : ColumnDef) : Z := default 0 (DEFAULT_TYPE_SIZE_MAP (col_type c)).
Definition strs (c : ColumnDef) : Z := if is_varchar (col_type c) then 1 else 0.

(** Every type the row format stores: all but [kBlob] and [kNull]. *)
Definition supported (c : ColumnDef) : Prop := col_type c <> kBlob /\ col_type c <> kNull.

Definition fixed_start (cols : list ColumnDef) : Z :=
  HEADER_LENGTH + BitMapSize false (schema_size cols).
Definition fixed_end (cols : list ColumnDef) : Z := fixed_start cols + sumz width cols.
Definition field_pos (cols : list ColumnDef) (j : nat) : Z :=
  fixed_start cols + sumz width (take j cols).
Definition slot (cols : list ColumnDef) (j : nat) : Z := sumz strs (take j cols).
Definition addr_pos (cols : list ColumnDef) (al : Z) (j : nat) : Z :=
  fixed_end cols + al * slot cols j.
Definition bodies_start (cols : list ColumnDef) (al : Z) : Z :=
  fixed_end cols + al * sumz strs cols.

(** The vector the constructors compute. *)
Definition layout_entry (cols : list ColumnDef) (j : nat) (c : ColumnDef) : Z :=
  if is_varchar (col_type c) then slot cols j else field_pos cols j.

(** ** Content of a row *)

Definition body_len (v : option Value) : Z :=
  match v with Some (VString s) => Z.of_nat (length s) | _ => 0 end.
Definition body_pos (cols : list ColumnDef) (al : Z) (vs : list (option Value)) (j : nat) : Z :=
  bodies_start cols al + sumz body_len (take j vs).

(** The bytes of a fixed-width value. *)
Definition fixed_bytes (v : Value) : list Z :=
  match v with
  | VBool b => le_bytes 1 (if b then 1 else 0)
  | VInt16 z => le_bytes 2 z
  | VInt32 z => le_bytes 4 z
  | VInt64 z | VTimestamp z => le_bytes 8 z
  | VDate y m d => le_bytes 4 (date_pack y m d)
  | VFloat z => le_bytes 4 z
  | VDouble z => le_bytes 8 z
  | VString _ => []
  end.

Definition is_null_value (v : option Value) : bool :=
  match v with None => true | Some _ => false end.

(** The value is NULL or one of the column's type. *)
Definition value_fits (c : ColumnDef) (v : option Value) : Prop :=
  match v with
  | None => True
  | Some x => value_type x = col_type c /\ value_in_range x
  end.

(** The first columns of the schema, as many as there are values, are stored
    in the buffer. *)
Record row_data (cols : list ColumnDef) (size al : Z) (vs : list (option Value))
    (b : list Z) : Prop := {
  rd_fits : forall j v, vs !! j = Some v ->
    exists c, cols !! j = Some c /\ value_fits c v;
  rd_length : size <= Z.of_nat (length b);
  rd_size : load b VERSION_LENGTH 4 = Some (le_bytes 4 size);
  rd_fixed : forall j v, vs !! j = Some (Some v) -> value_type v <> kVarchar ->
    load b (field_pos cols j) (length (fixed_bytes v)) = Some (fixed_bytes v);
  rd_addr : forall j c, cols !! j = Some c -> (j < length vs)%nat ->
    is_varchar (col_type c) = true ->
    load b (addr_pos cols al j) (Z.to_nat al) = Some (addr_bytes al (body_pos cols al vs j));
  rd_body : forall j s, vs !! j = Some (Some (VString s)) ->
    load b (body_pos cols al vs j) (length s) = Some s
}.

(** The null bits are those of the values, and no bit beyond them is set. *)
Definition row_bits (cols : list ColumnDef) (vs : list (option Value)) (b : list Z) : Prop :=
  forall j, (j < length cols)%nat ->
    v1.IsNullAt (Some b) (Z.of_nat j) = Some (from_option is_null_value false (vs !! j)).

Definition row_holds (cols : list ColumnDef) (size al : Z) (vs : list (option Value))
    (b : list Z) : Prop :=
  row_data cols size al vs b /\ row_bits cols vs b.

(** ** Well-formed inputs *)

(** A row that matches its schema and whose size is a [uint32_t]. *)
Record row_ok (cols : list ColumnDef) (vs : list (option Value)) : Prop := {
  ok_cols : Forall supported cols;
  ok_values : Forall2 value_fits cols vs;
  ok_nonempty : cols <> [];
  ok_count : schema_size cols < 2147483648;
  ok_size : fixed_end cols + sumz body_len vs + 4 * sumz strs cols < 4294967296
}.

Lemma fixed_bytes_width c x :
  value_fits c (Some x) -> value_type x <> kVarchar ->
  Z.of_nat (length (fixed_bytes x)) = width c.
Proof.
  intros [Ht _] Hv. unfold width. rewrite <- Ht.
  destruct x; simpl; rewrite ?length_le_bytes; done.
Qed.

Lemma width_nonneg c : 0 <= width c.
Proof. unfold width. by destruct (col_type c). Qed.
Lemma strs_nonneg c : 0 <= strs c.
Proof. unfold strs. destruct (is_varchar _); lia. Qed.
Lemma body_len_nonneg v : 0 <= body_len v.
Proof. destruct v as [[]|]; simpl; lia. Qed.

#[export] Hint Resolve width_nonneg strs_nonneg body_len_nonneg : cpp.

Lemma supported_cases c :
  supported c ->
  (is_varchar (col_type c) = true /\ width c = 0 /\ strs c = 1) \/
  (is_varchar (col_type c) = false /\ strs c = 0 /\
   GetTypeSizeMap false (col_type c) = Some (width c) /\ 1 <= width c <= 8).
Proof.
  intros [H1 H2]. unfold strs, width, GetTypeSizeMap, is_varchar.
  destruct (col_type c); try done; (by left) || (right; simpl; split_and!; done || lia).
Qed.

(** The entries of the offset vector for columns that start at given counters. *)
Definition entry (cols : list ColumnDef) (start cnt : Z) (j : nat) (c : ColumnDef) : Z :=
  if is_varchar (col_type c) then cnt + sumz strs (take j cols)
  else start + sumz width (take j cols).

Lemma entries_cons c cols start cnt :
  imap (entry (c :: cols) start cnt) (c :: cols) =
  (if is_varchar (col_type c) then cnt else start)
  :: imap (entry cols (start + width c) (cnt + strs c)) cols.
Proof.
  cbn [imap]. f_equal.
  - unfold entry. cbn. case_if; lia.
  - apply imap_ext. intros j c' _. unfold entry. cbn [compose take sumz foldr].
    case_if; unfold sumz; lia.
Qed.

(** The constructors' loops compute the layout. *)
Lemma init_loop_spec cols start cnt vec :
  Forall supported cols ->
  0 <= start -> start + sumz width cols < 4294967296 ->
  0 <= cnt -> cnt + sumz strs cols < 4294967296 ->
  init_loop false cols start cnt vec =
  (true, start + sumz width cols, cnt + sumz strs cols,
   vec ++ imap (entry cols start cnt) cols).
Proof.
  revert start cnt vec. induction cols as [|c cols IH]; intros start cnt vec Hs.
  - intros. cbn. by rewrite !Z.add_0_r, app_nil_r.
  - apply Forall_cons_1 in Hs as [Hc Hs]. intros. rewrite entries_cons.
    cbn [init_loop sumz foldr] in *. fold (sumz width cols) (sumz strs cols) in *.
    pose proof (sumz_nonneg width ltac:(auto with cpp) cols).
    pose proof (sumz_nonneg strs ltac:(auto with cpp) cols).
    destruct (supported_cases c Hc) as [(Hv & Hw & Hn)|(Hv & Hn & Hw & Hr)]; rewrite Hv.
    + rewrite Hw, Hn in *. rewrite u32_small, IH by (done || lia).
      by rewrite <- app_assoc, !Z.add_assoc, !Z.add_0_r.
    + rewrite Hw, Hn in *. rewrite u32_small, IH by (done || lia).
      by rewrite <- app_assoc, !Z.add_assoc, !Z.add_0_r.
Qed.

(** The builder skips what the view refuses; on supported columns both loops
    agree. *)
Lemma builder_layout_init cols start cnt vec o n v :
  init_loop false cols start cnt vec = (true, o, n, v) ->
  builder_layout false cols start cnt vec = (o, n, v).
Proof.
  revert start cnt vec. induction cols as [|c cols IH]; intros start cnt vec;
    cbn [init_loop builder_layout].
  - by intros [= <- <- <-].
  - destruct (is_varchar _); [apply IH|].
    destruct (GetTypeSizeMap false (col_type c)); [apply IH|done].
Qed.

Section Layout.
Context (cols : list ColumnDef).

Lemma fixed_start_pos :
  schema_size cols < 2147483648 ->
  6 <= fixed_start cols < 2147483648 /\ Z.of_nat (length cols) <= 8 * (fixed_start cols - 6).
Proof.
  intros H. unfold fixed_start, schema_size in *.
  change HEADER_LENGTH with 6.
  pose proof (BitMapSize_default (Z.of_nat (length cols)) ltac:(lia)). lia.
Qed.

Lemma layout_lookup j c :
  cols !! j = Some c ->
  imap (entry cols (fixed_start cols) 0) cols !! j = Some (layout_entry cols j c).
Proof.
  intros H. by rewrite list_lookup_imap, H.
Qed.

(** Regions of a row are disjoint and in this order: header and bitmap, fixed
    fields, string addresses, string bodies. *)
Lemma bit_region j :
  schema_size cols < 2147483648 -> (j < length cols)%nat ->
  6 <= 6 + Z.of_nat j / 8 < fixed_start cols.
Proof.
  intros H Hj. destruct (fixed_start_pos H) as [? ?]. dlia.
Qed.

Lemma field_region j c :
  cols !! j = Some c ->
  fixed_start cols <= field_pos cols j /\ field_pos cols j + width c <= fixed_end cols.
Proof.
  intros H. unfold field_pos, fixed_end.
  pose proof (sumz_nonneg width width_nonneg (take j cols)).
  pose proof (sumz_take_end width width_nonneg _ _ _ H). lia.
Qed.

Lemma field_region_lt j k c :
  cols !! j = Some c -> (j < k)%nat -> field_pos cols j + width c <= field_pos cols k.
Proof.
  intros H Hk. unfold field_pos.
  pose proof (sumz_take_lt width width_nonneg _ _ _ _ H Hk). lia.
Qed.

Lemma slot_range j c :
  cols !! j = Some c -> is_varchar (col_type c) = true ->
  0 <= slot cols j /\ slot cols j + 1 <= sumz strs cols.
Proof.
  intros H Hv. unfold slot.
  pose proof (sumz_nonneg strs strs_nonneg (take j cols)).
  pose proof (sumz_take_end strs strs_nonneg _ _ _ H) as He.
  unfold strs at 2 in He. rewrite Hv in He. lia.
Qed.

Lemma slot_lt j k c :
  cols !! j = Some c -> is_varchar (col_type c) = true -> (j < k)%nat ->
  slot cols j + 1 <= slot cols k.
Proof.
  intros H Hv Hk. unfold slot.
  pose proof (sumz_take_lt strs strs_nonneg _ _ _ _ H Hk) as He.
  unfold strs at 2 in He. by rewrite Hv in He.
Qed.

Lemma addr_region al j c :
  1 <= al -> cols !! j = Some c -> is_varchar (col_type c) = true ->
  fixed_end cols <= addr_pos cols al j /\
  addr_pos cols al j + al <= bodies_start cols al.
Proof.
  intros Hal H Hv. unfold addr_pos, bodies_start.
  pose proof (slot_range _ _ H Hv). nia.
Qed.

Lemma addr_region_lt al j k c :
  1 <= al -> cols !! j = Some c -> is_varchar (col_type c) = true -> (j < k)%nat ->
  addr_pos cols al j + al <= addr_pos cols al k.
Proof.
  intros Hal H Hv Hk. unfold addr_pos. pose proof (slot_lt _ _ _ H Hv Hk). nia.
Qed.

Lemma body_region al vs j v :
  vs !! j = Some v ->
  bodies_start cols al <= body_pos cols al vs j /\
  body_pos cols al vs j + body_len v <= bodies_start cols al + sumz body_len vs.
Proof.
  intros H. unfold body_pos.
  pose proof (sumz_nonneg body_len body_len_nonneg (take j vs)).
  pose proof (sumz_take_end body_len body_len_nonneg _ _ _ H). lia.
Qed.
End Layout.

(** ** Stores and the content of a row *)

Definition disjoint_region (o1 n1 o2 n2 : Z) : Prop := o1 + n1 <= o2 \/ o2 + n2 <= o1.

Section Store.
Context (cols : list ColumnDef) (size al : Z).
Context (Hcols : Forall supported cols) (Hcount : schema_size cols < 2147483648).
Context (Hal : 1 <= al <= 4).

(** A store behind the bitmap keeps the header and the null bits. *)
Lemma row_bits_store vs b off bs b' :
  store b off bs = Some b' -> fixed_start cols <= off ->
  row_bits cols vs b -> row_bits cols vs b'.
Proof.
  intros Hs Ho Hb j Hj. rewrite <- (Hb j Hj).
  pose proof (bit_region cols j Hcount Hj).
  unfold v1.IsNullAt, load_u. rewrite null_bit_shift by lia.
  change HEADER_LENGTH with 6.
  by rewrite (load_store_disjoint _ _ _ _ _ _ Hs) by lia.
Qed.

(** A store that avoids every region of the stored columns keeps them. *)
Lemma row_data_store vs b off bs b' :
  store b off bs = Some b' -> fixed_start cols <= off ->
  (forall j v, vs !! j = Some (Some v) -> value_type v <> kVarchar ->
    disjoint_region (field_pos cols j) (Z.of_nat (length (fixed_bytes v)))
      off (Z.of_nat (length bs))) ->
  (forall j c, cols !! j = Some c -> (j < length vs)%nat ->
    is_varchar (col_type c) = true ->
    disjoint_region (addr_pos cols al j) al off (Z.of_nat (length bs))) ->
  (forall j s, vs !! j = Some (Some (VString s)) ->
    disjoint_region (body_pos cols al vs j) (Z.of_nat (length s))
      off (Z.of_nat (length bs))) ->
  row_data cols size al vs b -> row_data cols size al vs b'.
Proof.
  intros Hs Ho Hf Ha Hb [Hi Hl Hz Hf' Ha' Hb'].
  destruct (fixed_start_pos cols Hcount) as [? _].
  assert (forall o n, disjoint_region o (Z.of_nat n) off (Z.of_nat (length bs)) ->
    load b' o n = load b o n) as Hfr
    by (intros; by apply (load_store_disjoint _ _ _ _ _ _ Hs)).
  constructor; [done|..].
  - by rewrite (store_length _ _ _ _ Hs).
  - rewrite Hfr; [done|]. left. change VERSION_LENGTH with 2. lia.
  - intros. rewrite Hfr; auto.
  - intros. rewrite Hfr; [by eapply Ha'|]. rewrite Z2Nat.id by lia. eauto.
  - intros. rewrite Hfr; auto.
Qed.

Lemma row_data_bit vs b i v b' :
  0 <= i -> 6 + i / 8 < fixed_start cols -> fixed_start cols <= fixed_end cols ->
  v1.AppendNullBit b i v = Some b' -> length b' = length b ->
  row_data cols size al vs b -> row_data cols size al vs b'.
Proof.
  intros Hi Hlt He Hs Hlen [Hv Hl Hz Hf Ha Hb].
  destruct (fixed_start_pos cols Hcount) as [? _].
  assert (forall o n, fixed_start cols <= o -> load b' o n = load b o n) as Hfr.
  { intros. apply (AppendNullBit_frame _ _ _ _ _ _ Hi Hs).
    change HEADER_LENGTH with 6. lia. }
  constructor; [done|..].
  - by rewrite Hlen.
  - rewrite <- Hz. apply (AppendNullBit_frame _ _ _ _ _ _ Hi Hs).
    change HEADER_LENGTH with 6. change VERSION_LENGTH with 2. dlia.
  - intros j w Hj Hw. rewrite Hfr; auto. unfold field_pos.
    pose proof (sumz_nonneg width width_nonneg (take j cols)). lia.
  - intros j c Hj Hjl Hc. rewrite Hfr; [by eapply Ha|].
    pose proof (addr_region cols al j c ltac:(lia) Hj Hc). lia.
  - intros j w Hj. rewrite Hfr; auto.
    pose proof (body_region cols al vs j _ Hj). unfold bodies_start in *.
    pose proof (sumz_nonneg strs strs_nonneg cols). nia.
Qed.

(** Extending the stored columns by one. *)
Lemma body_pos_snoc vs v j :
  (j <= length vs)%nat -> body_pos cols al (vs ++ [v]) j = body_pos cols al vs j.
Proof. intros. unfold body_pos. by rewrite take_app_le. Qed.

Lemma row_data_snoc vs v b c :
  cols !! length vs = Some c -> value_fits c v ->
  row_data cols size al vs b ->
  (forall x, v = Some x -> value_type x <> kVarchar ->
    load b (field_pos cols (length vs)) (length (fixed_bytes x)) = Some (fixed_bytes x)) ->
  (is_varchar (col_type c) = true ->
    load b (addr_pos cols al (length vs)) (Z.to_nat al) =
    Some (addr_bytes al (body_pos cols al vs (length vs)))) ->
  (forall s, v = Some (VString s) ->
    load b (body_pos cols al vs (length vs)) (length s) = Some s) ->
  row_data cols size al (vs ++ [v]) b.
Proof.
  intros Hc Hfit [Hi Hl Hz Hf Ha Hb] Hf' Ha' Hb'. constructor; try done.
  - intros j x [[_ Hj]|[-> ->]]%lookup_snoc_Some; eauto.
  - intros j x [[_ Hj]|[-> Hj]]%lookup_snoc_Some; [by apply Hf|by apply Hf'].
  - intros j c' Hj Hlt Hv. rewrite length_app in Hlt. simpl in Hlt.
    rewrite body_pos_snoc by lia.
    destruct (decide (j = length vs)) as [->|].
    + apply Ha'. congruence.
    + eapply Ha; eauto. lia.
  - intros j s Hj. apply lookup_snoc_Some in Hj as [[Hlt Hj]|[-> Hj]].
    + rewrite body_pos_snoc by lia. by apply Hb.
    + rewrite body_pos_snoc by lia. by apply Hb'.
Qed.

Lemma row_bits_snoc_value vs x b :
  row_bits cols vs b -> row_bits cols (vs ++ [Some x]) b.
Proof.
  intros H j Hj. rewrite (H j Hj). f_equal.
  destruct (decide (j < length vs)%nat).
  - by rewrite lookup_app_l.
  - rewrite (lookup_ge_None_2 vs) by lia. rewrite lookup_app_r by lia.
    by destruct (j - length vs)%nat as [|[]].
Qed.

Lemma row_bits_snoc_null vs b b' :
  v1.AppendNullBit b (Z.of_nat (length vs)) true = Some b' ->
  row_bits cols vs b -> row_bits cols (vs ++ [None]) b'.
Proof.
  intros Ha H j Hj.
  rewrite (IsNullAt_AppendNullBit b b' _ (Z.of_nat j) true _
    (Nat2Z.is_nonneg _) (Nat2Z.is_nonneg _) Ha (H j Hj)).
  f_equal. case_decide as E.
  - apply Nat2Z.inj in E as <-. by rewrite lookup_app_r, Nat.sub_diag by lia.
  - destruct (decide (j < length vs)%nat).
    + by rewrite lookup_app_l.
    + rewrite (lookup_ge_None_2 vs) by lia. rewrite lookup_app_r by lia.
      by destruct (j - length vs)%nat as [|[]] eqn:?; [lia|..].
Qed.
End Store.
