(* ===== verification/RowWrite.v ===== *)
(** * [RowBuilder] establishes the content of a row

    One lemma per kind of column (NULL, fixed width, string) and their
    composition over a whole row. *)

From stdpp Require Import base numbers list option.
From S2P Require Import Prelude Layout TypeCodec RowBuilder RowView RowCodec.

(** The builder has been attached to a buffer of [size] bytes and has
    received the values [vs]. *)
Record builder_at (cols : list ColumnDef) (size : Z) (vs : list (option Value))
    (rb : RowBuilder) (b : list Z) : Prop := {
  ba_schema : rb_schema rb = cols;
  ba_buf : rb_buf rb = Some b;
  ba_cnt : rb_cnt rb = Z.of_nat (length vs);
  ba_size : rb_size rb = size;
  ba_str_cnt : rb_str_field_cnt rb = sumz strs cols;
  ba_addr : rb_str_addr_length rb = GetAddrLength size;
  ba_start : rb_str_field_start_offset rb = fixed_end cols;
  ba_offset : rb_str_offset rb =
    bodies_start cols (GetAddrLength size) + sumz body_len vs;
  ba_vec : rb_offset_vec rb = imap (entry cols (fixed_start cols) 0) cols;
  ba_holds : row_holds cols size (GetAddrLength size) vs b
}.

(** What the constructor computes. *)
Lemma RowBuilder_new_layout cols :
  Forall supported cols -> schema_size cols < 2147483648 ->
  fixed_end cols + sumz strs cols < 4294967296 ->
  RowBuilder_new false cols =
  mkRowBuilder cols None 0 0 (sumz strs cols) 0 (fixed_end cols) 0
    (imap (entry cols (fixed_start cols) 0) cols).
Proof.
  intros Hcols Hcount H. destruct (fixed_start_pos cols Hcount) as [? _].
  pose proof (sumz_nonneg width width_nonneg cols).
  pose proof (sumz_nonneg strs strs_nonneg cols).
  unfold RowBuilder_new. fold (fixed_start cols). rewrite u32_small by lia.
  erewrite builder_layout_init by
    (apply init_loop_spec; [done|unfold fixed_end in *; lia..]).
  done.
Qed.

Section Write.
Context (cols : list ColumnDef) (size : Z).
Context (Hcols : Forall supported cols) (Hcount : schema_size cols < 2147483648).
Context (Hsize : 0 <= size < 4294967296).

Let al := GetAddrLength size.

Context (Hroom : bodies_start cols al <= size).

Lemma al_range : 1 <= al <= 4.
Proof. apply GetAddrLength_range. Qed.

Lemma regions_order :
  6 <= fixed_start cols <= fixed_end cols /\ fixed_end cols <= bodies_start cols al.
Proof.
  pose proof al_range. destruct (fixed_start_pos cols Hcount) as [? _].
  pose proof (sumz_nonneg width width_nonneg cols).
  pose proof (sumz_nonneg strs strs_nonneg cols).
  unfold bodies_start, fixed_end in *. nia.
Qed.

(** The next column and its entry of the offset vector. *)
Lemma next_column vs rb b c :
  builder_at cols size vs rb b -> cols !! length vs = Some c ->
  schema_get (rb_schema rb) (rb_cnt rb) = Some c /\
  rb_offset_vec rb !! Z.to_nat (rb_cnt rb) = Some (layout_entry cols (length vs) c) /\
  (i32 (rb_cnt rb) >=? schema_size (rb_schema rb)) = false.
Proof.
  intros Hb Hc. pose proof (lookup_lt_Some _ _ _ Hc). unfold schema_size in *.
  rewrite (ba_schema _ _ _ _ _ Hb), (ba_cnt _ _ _ _ _ Hb), (ba_vec _ _ _ _ _ Hb).
  unfold schema_get. rewrite Nat2Z.id. split_and!.
  - done.
  - by apply layout_lookup.
  - rewrite i32_small by lia. rewrite Z.geb_leb. apply Z.leb_gt. lia.
Qed.

Lemma Check_next vs rb b c :
  builder_at cols size vs rb b -> cols !! length vs = Some c ->
  Check_ false (col_type c) rb = Some true.
Proof.
  intros Hb Hc. destruct (next_column _ _ _ _ Hb Hc) as (Hg & _ & Hi).
  unfold Check_. rewrite Hi, Hg. cbn [mbind option_bind].
  rewrite bool_decide_true by done. cbn [negb].
  pose proof (Forall_lookup_1 _ _ _ _ Hcols Hc) as Hs.
  destruct (supported_cases c Hs) as [(Hv & _)|(Hv & _ & Hw & _)]; rewrite Hv; [done|].
  cbn [negb]. rewrite Hw. by rewrite bool_decide_true by done.
Qed.

(** Counting the column. *)
Lemma builder_at_advance vs v rb b b' :
  builder_at cols size vs rb b -> (length vs < length cols)%nat ->
  row_holds cols size al (vs ++ [v]) b' ->
  builder_at cols size (vs ++ [v])
    (advance b' (bodies_start cols al + sumz body_len (vs ++ [v])) rb) b'.
Proof.
  intros [] Hl Hh. unfold schema_size in Hcount.
  constructor; cbn; try done.
  rewrite ba_cnt0, u32_small by lia. rewrite length_app. simpl. lia.
Qed.

(** The address of the string body being appended. *)
Lemma addr_ptr j c :
  cols !! j = Some c -> is_varchar (col_type c) = true ->
  fixed_end cols + u32 (al * slot cols j) = addr_pos cols al j.
Proof.
  intros Hc Hv. pose proof al_range. pose proof regions_order.
  pose proof (slot_range cols _ _ Hc Hv).
  destruct (addr_region cols al _ _ ltac:(lia) Hc Hv).
  unfold addr_pos in *. by rewrite u32_small by nia.
Qed.

Lemma body_pos_end vs :
  bodies_start cols al + sumz body_len vs = body_pos cols al vs (length vs).
Proof. unfold body_pos. by rewrite take_ge by lia. Qed.

Lemma addr_store vs b c :
  row_data cols size al vs b -> cols !! length vs = Some c ->
  is_varchar (col_type c) = true ->
  exists b', write_str_addr b (addr_pos cols al (length vs)) al
      (body_pos cols al vs (length vs)) = Some b' /\
    length b' = length b /\ row_data cols size al vs b' /\
    load b' (addr_pos cols al (length vs)) (Z.to_nat al) =
      Some (addr_bytes al (body_pos cols al vs (length vs))) /\
    (forall vs', row_bits cols vs' b -> row_bits cols vs' b').
Proof.
  intros Hd Hc Hv. pose proof al_range. pose proof regions_order as (Hfs & Hfe).
  destruct (addr_region cols al _ _ ltac:(lia) Hc Hv).
  pose proof (rd_length _ _ _ _ _ Hd).
  rewrite write_str_addr_store by done.
  destruct (proj2 (store_is_Some b (addr_pos cols al (length vs))
    (addr_bytes al (body_pos cols al vs (length vs))))) as [b' Hb'].
  { rewrite length_addr_bytes. lia. }
  exists b'. split_and!; [done|by eapply store_length|..].
  - eapply (row_data_store cols size al Hcount al_range); [exact Hb'|lia|..|done];
      unfold disjoint_region; rewrite length_addr_bytes, Z2Nat.id by lia.
    + intros j v Hj Hnv. left.
      destruct (rd_fits _ _ _ _ _ Hd _ _ Hj) as (c' & Hc' & Hf).
      rewrite (fixed_bytes_width _ _ Hf Hnv).
      pose proof (field_region cols _ _ Hc'). lia.
    + intros j c' Hj Hlt Hv'. left.
      pose proof (addr_region_lt cols al _ _ _ ltac:(lia) Hj Hv' Hlt). lia.
    + intros j w Hj. right. pose proof (body_region cols al vs _ _ Hj). lia.
  - pose proof (load_store_same _ _ _ _ Hb') as E. by rewrite length_addr_bytes in E.
  - intros vs'. eapply row_bits_store; [done|exact Hb'|lia].
Qed.

(** [AppendNULL]. *)
Lemma append_null_step vs rb b c :
  builder_at cols size vs rb b -> cols !! length vs = Some c ->
  exists rb' b', AppendNULL rb = Some (true, rb') /\
    builder_at cols size (vs ++ [None]) rb' b'.
Proof.
  intros Hb Hc. destruct (next_column _ _ _ _ Hb Hc) as (Hg & Ho & _).
  pose proof (lookup_lt_Some _ _ _ Hc) as Hlt.
  pose proof al_range. pose proof regions_order as (Hfs & Hfe).
  pose proof (bit_region cols (length vs) Hcount Hlt).
  destruct (ba_holds _ _ _ _ _ Hb) as [Hd Hbits].
  pose proof (rd_length _ _ _ _ _ Hd).
  destruct (AppendNullBit_Some b (Z.of_nat (length vs)) true) as (b1 & Hb1 & Hl1);
    [lia| change HEADER_LENGTH with 6; lia|].
  assert (row_data cols size al vs b1) as Hd1
    by (eapply row_data_bit; [done|done|..|exact Hb1|done|done]; lia).
  pose proof (row_bits_snoc_null cols vs b b1 Hb1 Hbits) as Hbits1.
  unfold AppendNULL. rewrite (ba_buf _ _ _ _ _ Hb). cbn [mbind option_bind].
  rewrite Hg, Ho, (ba_cnt _ _ _ _ _ Hb), Hb1. cbn [mbind option_bind].
  rewrite (ba_start _ _ _ _ _ Hb), (ba_addr _ _ _ _ _ Hb), (ba_offset _ _ _ _ _ Hb).
  fold al. unfold layout_entry, FillNullStringOffset.
  assert (sumz body_len vs = sumz body_len (vs ++ [None])) as Esum
    by (rewrite sumz_app; simpl; lia).
  destruct (is_varchar (col_type c)) eqn:Hv; cbn [mbind option_bind].
  - rewrite addr_ptr with (c := c), body_pos_end by done.
    destruct (addr_store vs b1 c Hd1 Hc Hv) as (b2 & Hs & Hl2 & Hd2 & Ha & Hbk).
    rewrite Hs. cbn [mbind option_bind]. eexists _, b2. split; [done|].
    rewrite <- body_pos_end, Esum. eapply builder_at_advance; [done..|].
    split; [|by apply Hbk]. eapply row_data_snoc; done.
  - eexists _, b1. split; [done|]. rewrite Esum.
    eapply builder_at_advance; [done..|]. split; [|done].
    eapply row_data_snoc; try done. congruence.
Qed.

(** A store of at most the column's width into the slot of the next column. *)
Lemma field_store vs b c bs :
  row_data cols size al vs b -> cols !! length vs = Some c ->
  is_varchar (col_type c) = false -> Z.of_nat (length bs) <= width c ->
  exists b', store b (field_pos cols (length vs)) bs = Some b' /\
    row_data cols size al vs b' /\
    (forall vs', row_bits cols vs' b -> row_bits cols vs' b').
Proof.
  intros Hd Hc Hv Hw. pose proof al_range. pose proof regions_order as (Hfs & Hfe).
  pose proof (field_region cols _ _ Hc). pose proof (rd_length _ _ _ _ _ Hd).
  destruct (proj2 (store_is_Some b (field_pos cols (length vs)) bs)) as [b' Hb']; [lia|].
  exists b'. split_and!; [done|..].
  - eapply (row_data_store cols size al Hcount al_range); [exact Hb'|lia|..|done];
      unfold disjoint_region.
    + intros j v Hj Hjv. left. destruct (rd_fits _ _ _ _ _ Hd _ _ Hj) as (c' & Hc' & Hf').
      rewrite (fixed_bytes_width _ _ Hf' Hjv).
      apply field_region_lt; [done|]. by eapply lookup_lt_Some.
    + intros j c' Hj _ Hv'. right. pose proof (addr_region cols al _ _ ltac:(lia) Hj Hv'). lia.
    + intros j w Hj. right. pose proof (body_region cols al vs _ _ Hj). lia.
  - intros vs'. eapply row_bits_store; [done|exact Hb'|lia].
Qed.

(** The fixed-width appends. *)
Lemma append_fixed_step vs rb b c x n word :
  builder_at cols size vs rb b -> cols !! length vs = Some c ->
  value_fits c (Some x) -> value_type x <> kVarchar -> fixed_bytes x = le_bytes n word ->
  exists rb' b', append_fixed false (value_type x) n word rb = Some (true, rb') /\
    builder_at cols size (vs ++ [Some x]) rb' b'.
Proof.
  intros Hb Hc Hf Hnv Hx. destruct (next_column _ _ _ _ Hb Hc) as (_ & Ho & _).
  pose proof (lookup_lt_Some _ _ _ Hc) as Hlt.
  destruct (ba_holds _ _ _ _ _ Hb) as [Hd Hbits].
  assert (is_varchar (col_type c) = false) as Hv.
  { unfold is_varchar. apply bool_decide_false. destruct Hf. congruence. }
  pose proof (fixed_bytes_width _ _ Hf Hnv) as Hw.
  destruct (field_store vs b c (fixed_bytes x) Hd Hc Hv) as (b' & Hb' & Hd' & Hk); [lia|].
  unfold append_fixed. rewrite (proj1 Hf), (Check_next _ _ _ _ Hb Hc).
  cbn [mbind option_bind]. rewrite (ba_buf _ _ _ _ _ Hb), Ho. cbn [mbind option_bind].
  unfold layout_entry, store_le. rewrite Hv, <- Hx, Hb'. cbn [mbind option_bind].
  eexists _, b'. split; [done|]. rewrite (ba_offset _ _ _ _ _ Hb). fold al.
  replace (sumz body_len vs) with (sumz body_len (vs ++ [Some x]))
    by (rewrite sumz_app; simpl; destruct x; done || lia).
  eapply builder_at_advance; [done..|]. split; [|by apply row_bits_snoc_value, Hk].
  eapply row_data_snoc; try done.
  - intros y [= ->] _. by apply load_store_same in Hb'.
  - congruence.
  - intros s [= ->]. done.
Qed.

(** The body of a string, written behind all earlier bodies. *)
Lemma body_store vs b s :
  row_data cols size al vs b ->
  body_pos cols al vs (length vs) + Z.of_nat (length s) <= size ->
  exists b', store b (body_pos cols al vs (length vs)) s = Some b' /\
    row_data cols size al vs b' /\
    (forall off n, off + Z.of_nat n <= bodies_start cols al -> load b' off n = load b off n) /\
    (forall vs', row_bits cols vs' b -> row_bits cols vs' b').
Proof.
  intros Hd Hr. pose proof al_range. pose proof regions_order as (Hfs & Hfe).
  pose proof (sumz_nonneg body_len body_len_nonneg vs).
  assert (bodies_start cols al <= body_pos cols al vs (length vs))
    by (rewrite <- body_pos_end; lia).
  pose proof (rd_length _ _ _ _ _ Hd).
  destruct (proj2 (store_is_Some b (body_pos cols al vs (length vs)) s)) as [b' Hb']; [lia|].
  exists b'. split_and!; [done|..].
  - eapply (row_data_store cols size al Hcount al_range); [exact Hb'|lia|..|done];
      unfold disjoint_region; intros; left.
    + destruct (rd_fits _ _ _ _ _ Hd _ _ H3) as (c' & Hc' & Hf).
      rewrite (fixed_bytes_width _ _ Hf H4).
      pose proof (field_region cols _ _ Hc'). lia.
    + pose proof (addr_region cols al _ _ ltac:(lia) H3 H5). lia.
    + pose proof (body_region cols al vs _ _ H3) as [_ Hx]. simpl in Hx.
      rewrite <- body_pos_end. lia.
  - intros off n Hn. eapply load_store_disjoint; [exact Hb'|]. left. lia.
  - intros vs'. eapply row_bits_store; [done|exact Hb'|lia].
Qed.

(** [AppendString]. *)
Lemma append_string_step vs rb b c s :
  builder_at cols size vs rb b -> cols !! length vs = Some c ->
  value_fits c (Some (VString s)) ->
  bodies_start cols al + sumz body_len vs + Z.of_nat (length s) <= size ->
  exists rb' b', AppendString false (Some s) (Z.of_nat (length s)) rb = Some (true, rb') /\
    builder_at cols size (vs ++ [Some (VString s)]) rb' b'.
Proof.
  intros Hb Hc Hf Hr. destruct (next_column _ _ _ _ Hb Hc) as (_ & Ho & _).
  pose proof (lookup_lt_Some _ _ _ Hc) as Hlt.
  pose proof al_range. pose proof regions_order as (Hfs & Hfe).
  pose proof (sumz_nonneg body_len body_len_nonneg vs).
  destruct (ba_holds _ _ _ _ _ Hb) as [Hd Hbits].
  assert (is_varchar (col_type c) = true) as Hv
    by (unfold is_varchar; apply bool_decide_true; destruct Hf; done).
  destruct (addr_region cols al _ _ ltac:(lia) Hc Hv).
  rewrite body_pos_end in Hr.
  destruct (addr_store vs b c Hd Hc Hv) as (b1 & Hs1 & Hl1 & Hd1 & Ha1 & Hbk1).
  destruct (body_store vs b1 s Hd1 Hr) as (b2 & Hs2 & Hd2 & Hfr & Hbk2).
  assert (col_type c = kVarchar) as Ht by (by destruct Hf).
  unfold AppendString. rewrite <- Ht, (Check_next _ _ _ _ Hb Hc).
  cbn [mbind option_bind negb].
  rewrite (ba_offset _ _ _ _ _ Hb), (ba_size _ _ _ _ _ Hb), (ba_buf _ _ _ _ _ Hb), Ho,
    (ba_start _ _ _ _ _ Hb), (ba_addr _ _ _ _ _ Hb).
  fold al. rewrite u32_small by (pose proof (body_pos_end vs); lia).
  rewrite body_pos_end.
  assert ((body_pos cols al vs (length vs) + Z.of_nat (length s) >? size) = false) as ->
    by (rewrite Z.gtb_ltb; apply Z.ltb_ge; lia).
  unfold layout_entry. rewrite Hv. cbn [mbind option_bind].
  rewrite addr_ptr with (c := c), Hs1 by done. cbn [mbind option_bind].
  rewrite (memcpy_store _ _ _ _ Hs2). cbn [mbind option_bind].
  eexists _, b2. split; [done|].
  replace (body_pos cols al vs (length vs) + Z.of_nat (length s))
    with (bodies_start cols al + sumz body_len (vs ++ [Some (VString s)]))
    by (rewrite <- body_pos_end, sumz_app; simpl; lia).
  eapply builder_at_advance; [done..|]. split.
  - eapply row_data_snoc; try done.
    + by intros x [= <-] [].
    + intros _. rewrite Hfr by lia. done.
    + intros s' [= <-]. by apply load_store_same in Hs2.
  - by apply row_bits_snoc_value, Hbk2, Hbk1.
Qed.

(** The call for any value of the next column. *)
Lemma append_value_step vs rb b c v :
  builder_at cols size vs rb b -> cols !! length vs = Some c -> value_fits c v ->
  bodies_start cols al + sumz body_len vs + body_len v <= size ->
  exists rb' b', append_value false v rb = Some (true, rb') /\
    builder_at cols size (vs ++ [v]) rb' b'.
Proof.
  intros Hb Hc Hf Hr. destruct v as [x|]; [|by eapply append_null_step].
  destruct x; cbn [append_value];
    try (eapply (append_fixed_step vs rb b c _ _ _ Hb Hc Hf); done).
  - destruct Hf as [Ht (? & ? & ?)]. unfold AppendDate. rewrite !Z.gtb_ltb.
    rewrite !(proj2 (Z.ltb_ge _ _)) by lia. cbn [orb].
    by eapply (append_fixed_step vs rb b c (VDate y m d)).
  - by eapply append_string_step.
Qed.

Lemma append_all_steps ws : forall vs rb b,
  builder_at cols size vs rb b ->
  Forall2 value_fits (drop (length vs) cols) ws ->
  bodies_start cols al + sumz body_len (vs ++ ws) <= size ->
  exists rb' b', append_all false ws rb = Some (true, rb') /\
    builder_at cols size (vs ++ ws) rb' b'.
Proof.
  induction ws as [|v ws IH]; intros vs rb b Hb Hf Hr.
  - exists rb, b. rewrite app_nil_r. done.
  - apply Forall2_cons_inv_r in Hf as (c & cs & Hfv & Hfs & Hd).
    assert (cols !! length vs = Some c) as Hc.
    { rewrite <- (Nat.add_0_r (length vs)), <- lookup_drop, Hd. done. }
    pose proof (sumz_nonneg body_len body_len_nonneg ws).
    rewrite sumz_app in Hr. cbn [sumz foldr] in Hr. fold (sumz body_len ws) in Hr.
    destruct (append_value_step vs rb b c v Hb Hc Hfv) as (rb1 & b1 & E1 & Hb1); [lia|].
    destruct (IH (vs ++ [v]) rb1 b1 Hb1) as (rb2 & b2 & E2 & Hb2).
    + rewrite length_app. cbn. rewrite Nat.add_comm. cbn.
      rewrite (drop_S _ _ _ Hc) in Hd. by injection Hd as ->.
    + rewrite !sumz_app. cbn [sumz foldr]. fold (sumz body_len ws). lia.
    + exists rb2, b2. cbn [append_all]. rewrite E1. cbn. rewrite E2.
      by rewrite <- app_assoc in Hb2.
Qed.

(** ** Attaching the buffer *)

Lemma SetBuffer_attach b0 :
  size <= Z.of_nat (length b0) ->
  exists rb b, SetBuffer false (Some b0) size (RowBuilder_new false cols) = Some (true, rb) /\
    builder_at cols size [] rb b.
Proof.
  intros Hlen. pose proof al_range. pose proof regions_order as (Hfs & Hfe).
  pose proof (sumz_nonneg strs strs_nonneg cols).
  assert (fixed_end cols + sumz strs cols <= bodies_start cols al)
    by (unfold bodies_start; nia).
  rewrite RowBuilder_new_layout by (done || lia). unfold SetBuffer. cbn [rb_str_field_start_offset rb_str_field_cnt rb_schema].
  rewrite u32_small by lia.
  rewrite (proj2 (Z.eqb_neq size 0)), (proj2 (Z.ltb_ge size _)) by lia. cbn [orb].
  destruct (store_le_Some b0 0 1 1) as [b1 E1]; [lia..|].
  pose proof (store_length _ _ _ _ E1) as L1.
  destruct (store_le_Some b1 1 1 1) as [b2 E2]; [lia..|].
  pose proof (store_length _ _ _ _ E2) as L2.
  destruct (store_le_Some b2 VERSION_LENGTH 4 size) as [b3 E3]; [done|change VERSION_LENGTH with 2; lia|].
  pose proof (store_length _ _ _ _ E3) as L3.
  set (n := BitMapSize false (schema_size cols)).
  assert (fixed_start cols = 6 + n) as Efs by done.
  destruct (proj2 (store_is_Some b3 HEADER_LENGTH (replicate (Z.to_nat n) 0))) as [b4 E4].
  { rewrite length_replicate. change HEADER_LENGTH with 6. lia. }
  pose proof (store_length _ _ _ _ E4) as L4.
  rewrite E1. cbn [mbind option_bind]. rewrite E2. cbn [mbind option_bind].
  rewrite E3. cbn [mbind option_bind]. unfold memset0. rewrite E4. cbn [mbind option_bind].
  eexists _, b4. split; [done|].
  constructor; cbn [rb_schema rb_buf rb_cnt rb_size rb_str_field_cnt rb_str_addr_length
    rb_str_field_start_offset rb_str_offset rb_offset_vec]; try done.
  - fold al. cbn. assert (bodies_start cols al = fixed_end cols + al * sumz strs cols) as Eb
      by (unfold bodies_start; lia).
    rewrite (u32_small (al * _)) by nia. rewrite u32_small by lia. lia.
  - split.
    + constructor; try done; try (intros j; intros; cbn in *; lia); [lia|].
      rewrite (load_store_disjoint _ _ _ _ _ _ E4) by (left; done).
      pose proof (load_store_same _ _ _ _ E3) as E. by rewrite length_le_bytes in E.
    + intros j Hj. pose proof (bit_region cols j Hcount Hj).
      unfold v1.IsNullAt, load_u. rewrite null_bit_shift by lia.
      pose proof (load_store_same _ _ _ _ E4) as E. rewrite length_replicate in E.
      rewrite (load_sub _ _ _ _ _ 1 E) by lia.
      by rewrite drop_replicate, take_replicate, Nat.min_l by lia.
Qed.
End Write.

(** ** The size of a row *)

(** The size the builder announces is exactly the layout's, with the address
    width that this size implies. *)
Lemma CalTotalLength_exact cols slen :
  Forall supported cols -> cols <> [] -> schema_size cols < 2147483648 ->
  0 <= slen -> fixed_end cols + slen + 4 * sumz strs cols < 4294967296 ->
  let size := CalTotalLength slen (RowBuilder_new false cols) in
  size = bodies_start cols (GetAddrLength size) + slen /\ 0 <= size < 4294967296.
Proof.
  intros Hc Hne Hn Hs Hr. pose proof (sumz_nonneg strs strs_nonneg cols).
  destruct (fixed_start_pos cols Hn) as [? _].
  pose proof (sumz_nonneg width width_nonneg cols).
  assert (0 <= fixed_end cols) by (unfold fixed_end; lia).
  rewrite RowBuilder_new_layout by (done || lia). unfold CalTotalLength.
  cbn [rb_str_field_cnt rb_schema rb_str_field_start_offset]. cbv zeta.
  assert (schema_size cols <> 0) by (unfold schema_size; destruct cols; [done|cbn; lia]).
  unfold bodies_start. generalize dependent (sumz strs cols). intros cnt Hcnt Hr1.
  generalize dependent (fixed_end cols). intros fe Hfe Hr2.
  rewrite (proj2 (Z.eqb_neq _ 0)) by done.
  rewrite !u32_small by (rewrite ?u32_small; rewrite ?u32_small; lia).
  unfold GetAddrLength, UINT8_MAX, UINT16_MAX, UINT24_MAX, UINT32_MAX.
  change (Z.shiftl 1 24 - 1) with 16777215.
  repeat case_if; lia.
Qed.
