(* ===== verification/RowRead.v ===== *)
(** * [RowView] reads the content of a row

    The getters of [RowView] are proved against the abstract content
    [row_holds] of a buffer, and combined with the builder's side into the
    round trip of the codec. *)

From stdpp Require Import base numbers list option.
From S2P Require Import Prelude Layout TypeCodec RowBuilder RowView RowCodec RowWrite.

(** ** A client that reads one column *)

(** A getter's status and, when the status is 0, the value as a [Value]. *)
Definition answer {A} (mk : A -> Value) (r : option (Z * option A))
  : option (Z * option Value) :=
  '(ret, v) ← r; Some (ret, if ret =? 0 then mk <$> v else None).

(** The getter a client calls for a column of the given type. *)
Definition read_value (type : Ty) (idx : Z) (rv : RowView) : option (Z * option Value) :=
  match type with
  | kBool => answer VBool (GetBool idx (Some false) rv)
  | kInt16 => answer VInt16 (GetInt16 idx (Some 0) rv)
  | kInt32 => answer VInt32 (GetInt32 idx (Some 0) rv)
  | kInt64 => answer VInt64 (GetInt64 idx (Some 0) rv)
  | kTimestamp => answer VTimestamp (GetTimestamp idx (Some 0) rv)
  | kFloat => answer VFloat (GetFloat idx (Some 0) rv)
  | kDouble => answer VDouble (GetDouble idx (Some 0) rv)
  | kDate => answer (fun '(y, m, d) => VDate y m d) (GetDate idx (Some (0, 0, 0)) rv)
  | kVarchar =>
      '(ret, p, n) ← GetString false idx (Some PNull) (Some 0) rv;
      if ret =? 0
      then b ← rv_row rv; p' ← p; n' ← n; s ← charp_string b p' n'; Some (0, Some (VString s))
      else Some (ret, None)
  | kBlob | kNull => Some (-1, None)
  end.

(** The status and value a stored value must be read back as. *)
Definition expected (v : option Value) : Z * option Value :=
  match v with Some x => (0, Some x) | None => (1, None) end.

(** ** Strings *)

(** The next string column, if there is one, starts where the body of the
    present one ends. *)
Lemma first_string cols vs :
  Forall2 value_fits cols vs -> 0 < sumz strs cols ->
  exists j c, cols !! j = Some c /\ is_varchar (col_type c) = true /\
    sumz strs (take j cols) = 0 /\ sumz body_len (take j vs) = 0.
Proof.
  induction 1 as [|c v cols vs Hf Hfs IH]; [cbn; lia|]. intros Hs.
  destruct (is_varchar (col_type c)) eqn:E; [by exists 0%nat, c|].
  unfold strs in Hs. cbn [sumz foldr] in Hs. fold strs in Hs. rewrite E in Hs.
  destruct (IH Hs) as (j & c' & H1 & H2 & H3 & H4).
  exists (S j), c'. split_and!; try done; cbn [take sumz foldr].
  - unfold strs at 1. rewrite E. done.
  - unfold body_len at 1. destruct v as [[]|]; try done.
    destruct Hf as [Ht _]. cbn in Ht. unfold is_varchar in E. by rewrite <- Ht in E.
Qed.

Lemma no_string cols vs :
  Forall2 value_fits cols vs -> sumz strs cols = 0 -> sumz body_len vs = 0.
Proof.
  induction 1 as [|c v cols vs Hf Hfs IH]; [done|]. cbn [sumz foldr].
  fold (sumz strs cols) (sumz body_len vs).
  pose proof (sumz_nonneg strs strs_nonneg cols). pose proof (strs_nonneg c).
  intros. rewrite IH by lia. destruct v as [[]|]; try done.
  destruct Hf as [Ht _]. cbn in Ht.
  assert (strs c = 1) by (unfold strs, is_varchar; by rewrite <- Ht). lia.
Qed.

(** Decoding what the typed loads return. *)
Lemma load_s_decode m o n bs :
  load m o n = Some bs -> load_s m o n = Some (wraps (8 * Z.of_nat n) (le_val bs)).
Proof. intros H. unfold load_s, load_u. by rewrite H. Qed.

Lemma load_u_decode m o n bs : load m o n = Some bs -> load_u m o n = Some (le_val bs).
Proof. intros H. unfold load_u. by rewrite H. Qed.

Lemma wraps_le_bytes n z :
  (0 < n)%nat -> - 2 ^ (8 * Z.of_nat n - 1) <= z < 2 ^ (8 * Z.of_nat n - 1) ->
  wraps (8 * Z.of_nat n) (le_val (le_bytes n z)) = z.
Proof. intros. rewrite le_val_bytes, wraps_mod, wraps_small by lia. done. Qed.

Section Read.
Context (cols : list ColumnDef) (size : Z) (vs : list (option Value)) (b : list Z).
Context (Hcols : Forall supported cols) (Hcount : schema_size cols < 2147483648).
Context (Hsize : 0 <= size < 4294967296).
Context (Hfits : Forall2 value_fits cols vs).

Let al := GetAddrLength size.

Context (Hexact : size = bodies_start cols al + sumz body_len vs).
Context (Hrow : row_holds cols size al vs b).

Lemma al_bounds : 1 <= al <= 4.
Proof. apply GetAddrLength_range. Qed.

Lemma read_order :
  6 <= fixed_start cols <= fixed_end cols /\ fixed_end cols <= bodies_start cols al /\
  bodies_start cols al <= size.
Proof.
  pose proof al_bounds. destruct (fixed_start_pos cols Hcount) as [? _].
  pose proof (sumz_nonneg width width_nonneg cols).
  pose proof (sumz_nonneg strs strs_nonneg cols).
  pose proof (sumz_nonneg body_len body_len_nonneg vs).
  unfold bodies_start, fixed_end in *. nia.
Qed.

(** The view over the row. *)
Definition view : RowView :=
  mkRowView al true (sumz strs cols) (fixed_end cols) size (Some b) cols
    (imap (entry cols (fixed_start cols) 0) cols).

Lemma stored_size : load_u b VERSION_LENGTH 4 = Some size.
Proof.
  unfold load_u. rewrite (rd_size _ _ _ _ _ (proj1 Hrow)). cbn. f_equal.
  by apply (le_val_bytes_small 4).
Qed.

Lemma RowView_new_view : cols <> [] -> RowView_new false cols (Some b) size = Some view.
Proof.
  intros Hne. destruct read_order as (? & ? & ?). unfold RowView_new, Init.
  pose proof (sumz_nonneg strs strs_nonneg cols). pose proof al_bounds.
  assert (fixed_end cols + sumz strs cols <= bodies_start cols al)
    by (unfold bodies_start; nia).
  assert (schema_size cols <> 0) by (unfold schema_size; destruct cols; [done|cbn; lia]).
  rewrite (proj2 (Z.eqb_neq _ 0)) by done.
  cbn [rv_schema rv_string_field_cnt rv_offset_vec]. fold (fixed_start cols).
  rewrite u32_small by lia.
  rewrite init_loop_spec by (done || unfold fixed_end in *; lia).
  cbn [rv_str_addr_length rv_is_valid rv_size rv_row rv_schema].
  unfold Reset. cbn [rv_schema].
  rewrite (proj2 (Z.eqb_neq _ 0)) by done.
  assert (6 < size \/ size = 6) as [Hs|Hs] by lia.
  - rewrite (proj2 (Z.leb_gt size HEADER_LENGTH)) by (change HEADER_LENGTH with 6; lia).
    cbn [orb]. rewrite stored_size. cbn [mbind option_bind]. by rewrite Z.eqb_refl.
  - destruct (fixed_start_pos cols Hcount) as [_ Hl]. unfold schema_size in *. lia.
Qed.

Lemma column_valid j c :
  cols !! j = Some c -> CheckValid (Z.of_nat j) (col_type c) view = Some true.
Proof.
  intros Hc. pose proof (lookup_lt_Some _ _ _ Hc). unfold CheckValid, schema_size in *.
  cbn. rewrite i32_small by lia. rewrite Z.geb_leb, (proj2 (Z.leb_gt _ _)) by lia.
  unfold schema_get. rewrite Nat2Z.id, Hc. cbn. by rewrite bool_decide_true.
Qed.

Lemma column_null j v :
  vs !! j = Some v -> IsNULL (Some b) (Z.of_nat j) = Some (is_null_value v).
Proof.
  intros Hv. pose proof (lookup_lt_Some _ _ _ Hv). unfold IsNULL.
  rewrite (proj2 Hrow) by (rewrite (Forall2_length Hfits); done).
  by rewrite Hv.
Qed.

Lemma view_entry j c :
  cols !! j = Some c -> rv_offset_vec view !! Z.to_nat (Z.of_nat j) =
  Some (layout_entry cols j c).
Proof. intros Hc. rewrite Nat2Z.id. by apply layout_lookup. Qed.

(** A fixed-width field, read with a decoder of its bytes. *)
Lemma unsafe_field_value {A} (get : mem -> Z -> option A) (dec : list Z -> A) n j c v :
  (forall m o bs, load m o n = Some bs -> get m o = Some (dec bs)) ->
  cols !! j = Some c -> vs !! j = Some (Some v) -> value_type v <> kVarchar ->
  length (fixed_bytes v) = n ->
  unsafe_field get (Z.of_nat j) view = Some (dec (fixed_bytes v)).
Proof.
  intros Hg Hc Hv Hnv Hn. unfold unsafe_field. rewrite (view_entry _ _ Hc).
  cbn [mbind option_bind rv_row view]. apply Hg.
  destruct (rd_fits _ _ _ _ _ (proj1 Hrow) _ _ Hv) as (c' & Hc' & Ht & _).
  assert (c' = c) as -> by congruence.
  unfold layout_entry, is_varchar. rewrite bool_decide_false by congruence.
  rewrite <- Hn. by apply (rd_fixed _ _ _ _ _ (proj1 Hrow)).
Qed.

Lemma get_checked_value {A} (unsafe : Z -> RowView -> option A) j c v dflt x :
  cols !! j = Some c -> vs !! j = Some v ->
  (v <> None -> unsafe (Z.of_nat j) view = Some x) ->
  get_checked (col_type c) unsafe (Z.of_nat j) (Some dflt) view =
  Some (if is_null_value v then (1, Some dflt) else (0, Some x)).
Proof.
  intros Hc Hv Hx. unfold get_checked. rewrite (column_valid _ _ Hc).
  cbn [mbind option_bind negb rv_row view]. rewrite (column_null _ _ Hv).
  cbn [mbind option_bind]. destruct v; [|done]. cbn [is_null_value]. by rewrite Hx.
Qed.

(** The address slot of a string column holds the offset of its body. *)
Lemma addr_read j c :
  cols !! j = Some c -> is_varchar (col_type c) = true ->
  read_str_addr b (fixed_end cols + u32 (slot cols j * al)) al =
  Some (body_pos cols al vs j).
Proof.
  intros Hc Hv. pose proof al_bounds. destruct read_order as (? & ? & ?).
  pose proof (slot_range cols j c Hc Hv).
  pose proof (addr_region cols al j c ltac:(lia) Hc Hv).
  assert (fixed_end cols + u32 (slot cols j * al) = addr_pos cols al j) as ->
    by (unfold addr_pos in *; rewrite (Z.mul_comm _ al), u32_small; lia).
  assert (j < length vs)%nat as Hj
    by (rewrite <- (Forall2_length Hfits); by eapply lookup_lt_Some).
  rewrite (read_str_addr_load _ _ _ _ al_bounds)
    with (2 := rd_addr _ _ _ _ _ (proj1 Hrow) _ _ Hc Hj Hv).
  - f_equal. apply addr_value_bytes; [lia|].
    pose proof (GetAddrLength_fits size Hsize : size < 2 ^ (8 * al)).
    destruct (lookup_lt_is_Some_2 vs j Hj) as [v Hvj].
    pose proof (body_region cols al vs j v Hvj). pose proof (body_len_nonneg v). lia.
  - apply addr_bytes_range.
Qed.

(** Where the body of a string column ends: at the offset in the next slot, or
    at the end of the row. *)
Lemma next_string j c v :
  cols !! j = Some c -> is_varchar (col_type c) = true -> vs !! j = Some v ->
  (slot cols j + 1 < sumz strs cols ->
    exists k c', cols !! k = Some c' /\ is_varchar (col_type c') = true /\
      slot cols k = slot cols j + 1 /\
      body_pos cols al vs k = body_pos cols al vs j + body_len v) /\
  (slot cols j + 1 = sumz strs cols -> body_pos cols al vs j + body_len v = size).
Proof.
  intros Hc Hvar Hv.
  assert (strs c = 1) as Hsc by (unfold strs; by rewrite Hvar).
  pose proof (sumz_take_S strs _ _ _ Hc) as Es. pose proof (sumz_take_S body_len _ _ _ Hv) as Eb.
  assert (Forall2 value_fits (drop (S j) cols) (drop (S j) vs)) as Hd by by apply Forall2_drop.
  assert (sumz strs cols = sumz strs (take (S j) cols) + sumz strs (drop (S j) cols)) as Ec
    by (by rewrite <- sumz_app, take_drop).
  assert (sumz body_len vs = sumz body_len (take (S j) vs) + sumz body_len (drop (S j) vs)) as Ev
    by (by rewrite <- sumz_app, take_drop).
  unfold slot, body_pos. split; intros Hs.
  - destruct (first_string _ _ Hd) as (k & c' & Hk & Hvk & H1 & H2); [lia|].
    rewrite lookup_drop in Hk. exists (S j + k)%nat, c'.
    rewrite <- (take_drop (S j) (take (S j + k) cols)), <- (take_drop (S j) (take (S j + k) vs)).
    rewrite !sumz_app, !take_take, !skipn_firstn_comm.
    replace (S j + k - S j)%nat with k by lia. rewrite !Nat.min_l by lia.
    split_and!; try done; lia.
  - pose proof (no_string _ _ Hd). lia.
Qed.

(** The string field getter on the column's slot. *)
Lemma GetStrFieldUnsafe_value j c s idx p n :
  cols !! j = Some c -> is_varchar (col_type c) = true -> vs !! j = Some (Some (VString s)) ->
  v1.GetStrFieldUnsafe false (Some b) idx (slot cols j)
    (next_str_field (slot cols j) (sumz strs cols)) (fixed_end cols) al (Some p) (Some n) =
  Some (0, Some (PRow (body_pos cols al vs j)), Some (Z.of_nat (length s))).
Proof.
  intros Hc Hvar Hv. pose proof al_bounds. destruct read_order as (? & ? & ?).
  pose proof (slot_range cols j c Hc Hvar) as Hslot.
  assert (bodies_start cols al = fixed_end cols + al * sumz strs cols) as Eb by done.
  unfold v1.GetStrFieldUnsafe.
  rewrite (proj2 (Z.leb_le 1 al)), (proj2 (Z.leb_le al 4)) by lia. cbn [andb].
  rewrite (addr_read _ _ Hc Hvar). cbn [mbind option_bind].
  destruct (next_string j c _ Hc Hvar Hv) as [Hn Hl].
  unfold next_str_field. rewrite u32_small by nia. rewrite Z.gtb_ltb.
  pose proof (body_region cols al vs j _ Hv) as Hbr. cbn [body_len] in *.
  destruct (Z.ltb_spec (slot cols j) (sumz strs cols - 1)).
  - destruct Hn as (k & c' & Hk & Hvk & Esl & Ebody); [lia|].
    rewrite u32_small by nia. rewrite (proj2 (Z.ltb_lt 0 _)), (proj2 (Z.leb_gt _ 0)) by lia.
    rewrite <- Esl, (addr_read _ _ Hk Hvk). cbn [mbind option_bind].
    rewrite (proj2 (Z.ltb_ge _ _)), u32_small by lia.
    by replace (body_pos cols al vs k - _) with (Z.of_nat (length s)) by lia.
  - cbn. rewrite stored_size. cbn [mbind option_bind].
    rewrite (proj2 (Z.ltb_ge _ _)), u32_small by lia.
    by replace (size - _) with (Z.of_nat (length s)) by lia.
Qed.

(** What precedes it in [GetString]. *)
Lemma GetString_checks j c v p n :
  cols !! j = Some c -> col_type c = kVarchar -> vs !! j = Some v ->
  GetString false (Z.of_nat j) (Some p) (Some n) view =
  if is_null_value v then Some (1, Some p, Some n)
  else v1.GetStrFieldUnsafe false (Some b) (Z.of_nat j) (slot cols j)
    (next_str_field (slot cols j) (sumz strs cols)) (fixed_end cols) al (Some p) (Some n).
Proof.
  intros Hc Ht Hv. pose proof al_bounds. destruct read_order as (? & ? & ?).
  assert (is_varchar (col_type c) = true) as Hvar by (unfold is_varchar; by rewrite Ht).
  pose proof (slot_range cols j c Hc Hvar).
  assert (bodies_start cols al = fixed_end cols + al * sumz strs cols) as Eb by done.
  unfold GetString. pose proof (column_valid _ _ Hc) as E. rewrite Ht in E. rewrite E.
  cbn [mbind option_bind negb rv_row view].
  rewrite stored_size. cbn [mbind option_bind].
  rewrite (proj2 (Z.leb_gt size _)) by (change HEADER_LENGTH with 6; nia).
  rewrite (column_null _ _ Hv). cbn [mbind option_bind].
  destruct (is_null_value v); [done|].
  rewrite (view_entry _ _ Hc). unfold layout_entry. by rewrite Hvar.
Qed.

Lemma GetString_value j c s p n :
  cols !! j = Some c -> col_type c = kVarchar -> vs !! j = Some (Some (VString s)) ->
  GetString false (Z.of_nat j) (Some p) (Some n) view =
  Some (0, Some (PRow (body_pos cols al vs j)), Some (Z.of_nat (length s))).
Proof.
  intros Hc Ht Hv. rewrite (GetString_checks _ _ _ _ _ Hc Ht Hv). cbn [is_null_value].
  apply (GetStrFieldUnsafe_value _ c); [done| |done]. unfold is_varchar. by rewrite Ht.
Qed.

Lemma GetString_null j c p n :
  cols !! j = Some c -> col_type c = kVarchar -> vs !! j = Some None ->
  GetString false (Z.of_nat j) (Some p) (Some n) view = Some (1, Some p, Some n).
Proof. intros Hc Ht Hv. by rewrite (GetString_checks _ _ _ _ _ Hc Ht Hv). Qed.

Lemma GetDate_value j c v :
  cols !! j = Some c -> col_type c = kDate -> vs !! j = Some v ->
  GetDate (Z.of_nat j) (Some (0, 0, 0)) view =
  Some (match v with
        | Some (VDate y m d) => (0, Some (y, m, d))
        | _ => (1, Some (0, 0, 0))
        end).
Proof.
  intros Hc Ht Hv. unfold GetDate. rewrite <- Ht, (column_valid _ _ Hc).
  cbn [mbind option_bind negb rv_row view]. rewrite (column_null _ _ Hv).
  cbn [mbind option_bind]. destruct v as [x|]; [|done]. cbn [is_null_value].
  destruct (rd_fits _ _ _ _ _ (proj1 Hrow) _ _ Hv) as (c' & Hc' & Htx & Hr).
  assert (c' = c) as -> by congruence. rewrite Ht in Htx. destruct x; try done.
  unfold GetDateUnsafe, v1.GetInt32FieldUnsafe.
  rewrite (unsafe_field_value _ _ _ _ _ _ (fun m0 o bs => load_s_decode m0 o 4 bs) Hc Hv)
    by done.
  cbn [mbind option_bind fixed_bytes]. pose proof Hr as (? & ? & ?).
  pose proof (date_pack_value y m d ltac:(lia) ltac:(lia)).
  rewrite (wraps_le_bytes 4) by (cbn; lia).
  pose proof (Date_decode_encode y m d Hr) as E.
  rewrite Date_of_ymd_valid, <- date_pack_value in E by (done || lia). by rewrite E.
Qed.

(** A checked getter of a fixed-width type, given how the field's bytes decode. *)
Lemma answer_value {A} (mk : A -> Value) (unsafe : Z -> RowView -> option A) dflt j c v :
  cols !! j = Some c -> vs !! j = Some v ->
  (forall x, v = Some x -> value_type x = col_type c -> value_in_range x ->
    exists a, unsafe (Z.of_nat j) view = Some a /\ mk a = x) ->
  answer mk (get_checked (col_type c) unsafe (Z.of_nat j) (Some dflt) view) =
  Some (expected v).
Proof.
  intros Hc Hv Hu.
  destruct (rd_fits _ _ _ _ _ (proj1 Hrow) _ _ Hv) as (c' & Hc' & Hf).
  assert (c' = c) as -> by congruence.
  destruct v as [x|].
  - destruct Hf as [Ht Hr]. destruct (Hu x eq_refl Ht Hr) as (a & Ha & <-).
    by rewrite (get_checked_value _ _ _ _ _ a Hc Hv (fun _ => Ha)).
  - by rewrite (get_checked_value _ _ _ _ dflt dflt Hc Hv).
Qed.

Lemma field_s n j c x :
  cols !! j = Some c -> vs !! j = Some (Some x) -> value_type x <> kVarchar ->
  length (fixed_bytes x) = n ->
  unsafe_field (fun m o => load_s m o n) (Z.of_nat j) view =
  Some (wraps (8 * Z.of_nat n) (le_val (fixed_bytes x))).
Proof.
  intros. by eapply (unsafe_field_value _
    (fun bs => wraps (8 * Z.of_nat n) (le_val bs)) n j c x (fun m o => load_s_decode m o n)).
Qed.

Lemma field_u n j c x :
  cols !! j = Some c -> vs !! j = Some (Some x) -> value_type x <> kVarchar ->
  length (fixed_bytes x) = n ->
  unsafe_field (fun m o => load_u m o n) (Z.of_nat j) view = Some (le_val (fixed_bytes x)).
Proof. intros. by eapply (unsafe_field_value _ le_val n j c x (fun m o => load_u_decode m o n)). Qed.

(** Every column reads back as the value stored, NULL as status 1. *)
Lemma read_value_correct j c v :
  cols !! j = Some c -> vs !! j = Some v ->
  read_value (col_type c) (Z.of_nat j) view = Some (expected v).
Proof.
  intros Hc Hv. pose proof (Forall_lookup_1 _ _ _ _ Hcols Hc) as [Hs1 Hs2].
  destruct (col_type c) eqn:Ht; try done; cbn [read_value].
  all: unfold GetBool, GetInt16, GetInt32, GetInt64, GetTimestamp, GetFloat, GetDouble.
  all: try (rewrite <- Ht; eapply answer_value; [exact Hc|exact Hv|];
    intros [] -> Hx Hr; rewrite Ht in Hx; try done; cbn [value_in_range] in Hr; eexists;
    (split; [first [eapply (field_s _ _ _ _ Hc Hv); done | eapply (field_u _ _ _ _ Hc Hv); done]|];
     f_equal; first [apply wraps_le_bytes; cbn; lia | apply le_val_bytes_small; cbn; lia])).
  - rewrite <- Ht. eapply answer_value; [exact Hc|exact Hv|].
    intros [] -> Hx Hr; rewrite Ht in Hx; try done. exists b0. split; [|done].
    unfold GetBoolUnsafe, v1.GetBoolFieldUnsafe.
    pose proof (field_s 1 _ _ _ Hc Hv ltac:(done) eq_refl) as E. rewrite E.
    by destruct b0.
  - destruct v as [x|].
    + destruct (rd_fits _ _ _ _ _ (proj1 Hrow) _ _ Hv) as (c' & Hc' & Hf & _).
      assert (c' = c) as -> by congruence. rewrite Ht in Hf. destruct x; try done.
      rewrite (GetString_value _ _ _ _ _ Hc Ht Hv).
      cbn -[charp_string Z.of_nat]. cbn [charp_string]. rewrite Nat2Z.id.
      by rewrite (rd_body _ _ _ _ _ (proj1 Hrow) _ _ Hv).
    + by rewrite (GetString_null _ _ _ _ Hc Ht Hv).
  - rewrite (GetDate_value _ _ _ Hc Ht Hv).
    destruct (rd_fits _ _ _ _ _ (proj1 Hrow) _ _ Hv) as (c' & Hc' & Hf).
    assert (c' = c) as -> by congruence.
    destruct v as [[]|]; cbn in Hf; rewrite ?Ht in Hf; by try destruct Hf.
Qed.
End Read.

(** ** Refused accesses *)

(** What [CheckValid] decides. *)
Lemma CheckValid_spec idx type rv :
  0 <= idx < 2147483648 -> schema_size (rv_schema rv) < 2147483648 ->
  CheckValid idx type rv =
  Some (bool_decide (rv_row rv <> None /\ rv_is_valid rv = true /\
    col_type <$> rv_schema rv !! Z.to_nat idx = Some type)).
Proof.
  intros Hi Hs. unfold CheckValid, schema_size, schema_get in *.
  destruct (rv_row rv) as [b|]; [|done]. rewrite bool_decide_false by done. cbn [orb].
  destruct (rv_is_valid rv); [|done]. cbn [negb].
  rewrite i32_small, Z.geb_leb by lia.
  destruct (Z.leb_spec (Z.of_nat (length (rv_schema rv))) idx).
  - rewrite (lookup_ge_None_2 (rv_schema rv)) by lia. by rewrite bool_decide_false by (by intros (_ & _ & ?)).
  - destruct (lookup_lt_is_Some_2 (rv_schema rv) (Z.to_nat idx)) as [c E]; [lia|].
    rewrite E. cbn. f_equal. apply bool_decide_ext.
    split; [by intros ->|by intros (_ & _ & [= ->])].
Qed.

(** ** The round trip *)

(** The client's use of the builder: announce the size, attach a buffer,
    append every column; the result is the row. *)
Definition encode_row (cols : list ColumnDef) (vs : list (option Value)) (b0 : list Z)
  : option (list Z) :=
  let rb0 := RowBuilder_new false cols in
  '(ok1, rb1) ← SetBuffer false (Some b0) (CalTotalLength (sumz body_len vs) rb0) rb0;
  if (ok1 : bool) then
    '(ok2, rb2) ← append_all false vs rb1;
    if (ok2 : bool) then rb_buf rb2 else None
  else None.

Definition row_size (cols : list ColumnDef) (vs : list (option Value)) : Z :=
  CalTotalLength (sumz body_len vs) (RowBuilder_new false cols).

Lemma encode_row_builder cols vs b0 :
  row_ok cols vs -> row_size cols vs <= Z.of_nat (length b0) ->
  let size := row_size cols vs in
  size = bodies_start cols (GetAddrLength size) + sumz body_len vs /\
  0 <= size < 4294967296 /\
  exists rb1 rb2 b,
    SetBuffer false (Some b0) size (RowBuilder_new false cols) = Some (true, rb1) /\
    append_all false vs rb1 = Some (true, rb2) /\ builder_at cols size vs rb2 b.
Proof.
  intros [Hc Hv Hne Hn Hs] Hb size.
  pose proof (sumz_nonneg body_len body_len_nonneg vs).
  destruct (CalTotalLength_exact cols (sumz body_len vs)) as [He Hsz]; try done.
  change (CalTotalLength _ _) with size in He, Hsz.
  destruct (SetBuffer_attach cols size Hc Hn Hsz) with (b0 := b0) as (rb1 & b1 & E1 & H1);
    [lia|done|].
  destruct (append_all_steps cols size Hc Hn Hsz) with (ws := vs) (vs := @nil (option Value))
    (rb := rb1) (b := b1) as (rb2 & b2 & E2 & H2); [lia|done|done|rewrite app_nil_l; lia|].
  split; [done|]. split; [done|]. exists rb1, rb2, b2. done.
Qed.

Lemma encode_row_holds cols vs b0 :
  row_ok cols vs -> row_size cols vs <= Z.of_nat (length b0) ->
  let size := row_size cols vs in
  size = bodies_start cols (GetAddrLength size) + sumz body_len vs /\
  0 <= size < 4294967296 /\
  exists rb1 rb2 b,
    SetBuffer false (Some b0) size (RowBuilder_new false cols) = Some (true, rb1) /\
    append_all false vs rb1 = Some (true, rb2) /\ rb_buf rb2 = Some b /\
    row_holds cols size (GetAddrLength size) vs b.
Proof.
  intros Hok Hb. destruct (encode_row_builder cols vs b0 Hok Hb)
    as (He & Hsz & rb1 & rb2 & b & E1 & E2 & H2).
  split; [done|]. split; [done|]. exists rb1, rb2, b.
  split_and!; [done|done|apply (ba_buf _ _ _ _ _ H2)|apply (ba_holds _ _ _ _ _ H2)].
Qed.

(** C1: the row codec is a faithful code. For every non-empty schema of
    supported types and every row of matching values (any column may be
    NULL) whose encoding is below 2^32 bytes: on any buffer of at least the
    announced size ([CalTotalLength]), [SetBuffer] and every [Append] call
    succeed without touching memory outside it; a [RowView] on the result is
    valid; and for every column the getter of its type returns status 0 and
    the appended value, or status 1 if it was NULL. *)
Theorem row_codec_roundtrip cols vs b0 :
  row_ok cols vs -> row_size cols vs <= Z.of_nat (length b0) ->
  exists b rv,
    encode_row cols vs b0 = Some b /\
    RowView_new false cols (Some b) (row_size cols vs) = Some rv /\
    rv_is_valid rv = true /\
    forall j c v, cols !! j = Some c -> vs !! j = Some v ->
      read_value (col_type c) (Z.of_nat j) rv = Some (expected v).
Proof.
  intros Hok Hb. destruct (encode_row_holds _ _ _ Hok Hb)
    as (He & Hsz & rb1 & rb2 & b & E1 & E2 & E3 & Hh). destruct Hok as [Hc Hv Hne Hn Hs].
  exists b, (view cols (row_size cols vs) b). split_and!; try done.
  - unfold encode_row. fold (row_size cols vs). rewrite E1. cbn [mbind option_bind].
    by rewrite E2.
  - by apply (RowView_new_view cols _ vs b).
  - intros j c v Hj Hvj. by apply (read_value_correct cols (row_size cols vs) vs b).
Qed.

Definition sample_schema : list ColumnDef :=
  [mkcol [97] kInt32; mkcol [98] kVarchar; mkcol [99] kDate; mkcol [100] kVarchar;
   mkcol [101] kInt64; mkcol [102] kVarchar; mkcol [103] kBool; mkcol [104] kDouble].
Definition sample_row : list (option Value) :=
  [Some (VInt32 (-7)); Some (VString [104; 105]); Some (VDate 2020 5 27); None;
   None; Some (VString []); Some (VBool true); Some (VDouble 4611686018427387904)].

Lemma sample_row_ok : row_ok sample_schema sample_row.
Proof.
  constructor; try done.
  - repeat constructor; done.
  - repeat constructor; cbn; try lia; unfold valid_ymd; lia.
Qed.

Lemma row_codec_roundtrip_witness :
  row_size sample_schema sample_row = 37 /\
  exists b rv, encode_row sample_schema sample_row (replicate 37 0) = Some b /\
    RowView_new false sample_schema (Some b) 37 = Some rv /\
    read_value kVarchar 1 rv = Some (0, Some (VString [104; 105])).
Proof.
  assert (row_size sample_schema sample_row = 37) as E by (vm_compute; reflexivity).
  split; [exact E|].
  destruct (row_codec_roundtrip sample_schema sample_row (replicate 37 0) sample_row_ok)
    as (b & rv & H1 & H2 & _ & H3).
  - vm_compute. discriminate.
  - exists b, rv. rewrite E in H2. split_and!; [done..|].
    exact (H3 1%nat _ _ eq_refl eq_refl).
Defined.
