(* ===== verification/RowErrors.v ===== *)
(** * Error paths of the row codec

    The refusals of [RowBuilder] and [RowView] as exact statements, and the
    places where a check or a status is lost. *)

From stdpp Require Import base numbers list option.
From S2P Require Import Prelude Layout TypeCodec RowBuilder RowView RowCodec RowWrite RowRead.

(** ** Reading *)

(** The view may hand out column [idx] as [type]. *)
Definition readable (rv : RowView) (idx : Z) (type : Ty) : Prop :=
  rv_row rv <> None /\ rv_is_valid rv = true /\
  col_type <$> rv_schema rv !! Z.to_nat idx = Some type.

Lemma get_checked_refused {A} type (unsafe : Z -> RowView -> option A) idx val rv :
  CheckValid idx type rv = Some false -> get_checked type unsafe idx (Some val) rv = Some (-1, Some val).
Proof. intros H. unfold get_checked. by rewrite H. Qed.

(** a read the view cannot serve is refused without touching the row: if
    there is no row, the view is invalid, the index is past the last column
    or the column has another type, every typed getter returns -1 and leaves
    the output as it was; so does a call with a null output pointer. *)
Theorem getters_refuse rv idx :
  0 <= idx < 2147483648 -> schema_size (rv_schema rv) < 2147483648 ->
  (~ readable rv idx kBool -> forall v, GetBool idx (Some v) rv = Some (-1, Some v)) /\
  (~ readable rv idx kInt16 -> forall v, GetInt16 idx (Some v) rv = Some (-1, Some v)) /\
  (~ readable rv idx kInt32 -> forall v, GetInt32 idx (Some v) rv = Some (-1, Some v)) /\
  (~ readable rv idx kInt64 -> forall v, GetInt64 idx (Some v) rv = Some (-1, Some v)) /\
  (~ readable rv idx kTimestamp -> forall v, GetTimestamp idx (Some v) rv = Some (-1, Some v)) /\
  (~ readable rv idx kFloat -> forall v, GetFloat idx (Some v) rv = Some (-1, Some v)) /\
  (~ readable rv idx kDouble -> forall v, GetDouble idx (Some v) rv = Some (-1, Some v)) /\
  (~ readable rv idx kDate -> forall v, GetDate idx (Some v) rv = Some (-1, Some v)) /\
  (~ readable rv idx kVarchar -> forall p n,
    GetString false idx (Some p) (Some n) rv = Some (-1, Some p, Some n)) /\
  GetInt32 idx None rv = Some (-1, None) /\ GetDate idx None rv = Some (-1, None) /\
  (forall n, GetString false idx None n rv = Some (-1, None, n)).
Proof.
  intros Hi Hs.
  assert (forall t, ~ readable rv idx t -> CheckValid idx t rv = Some false) as Hc.
  { intros t Ht. rewrite CheckValid_spec by done. f_equal. by apply bool_decide_eq_false. }
  split_and!; intros; try done; try by apply get_checked_refused, Hc.
  - unfold GetDate. by rewrite Hc.
  - unfold GetString. by rewrite Hc.
Qed.

Lemma getters_refuse_witness :
  GetInt64 0 (Some 5) (RowView_of_schema false sample_schema) = Some (-1, Some 5).
Proof.
  apply (getters_refuse (RowView_of_schema false sample_schema) 0); [lia|done|].
  intros (_ & _ & H). vm_compute in H. discriminate.
Defined.

(** ** Writing *)

(** Why the builder refuses a value for its next column. *)
Definition refused (rb : RowBuilder) (x : Value) : Prop :=
  match x with
  | VDate y m d => ~ valid_ymd y m d
  | VString s => rb_size rb < u32 (rb_str_offset rb + Z.of_nat (length s))
  | _ => False
  end \/
  col_type <$> rb_schema rb !! Z.to_nat (rb_cnt rb) <> Some (value_type x).

Lemma Check_wrong type rb :
  0 <= rb_cnt rb < 2147483648 -> schema_size (rb_schema rb) < 2147483648 ->
  col_type <$> rb_schema rb !! Z.to_nat (rb_cnt rb) <> Some type ->
  Check_ false type rb = Some false.
Proof.
  intros Hi Hs Ht. unfold Check_, schema_size, schema_get in *.
  rewrite i32_small, Z.geb_leb by lia.
  destruct (Z.leb_spec (Z.of_nat (length (rb_schema rb))) (rb_cnt rb)); [done|].
  destruct (lookup_lt_is_Some_2 (rb_schema rb) (Z.to_nat (rb_cnt rb))) as [c E]; [lia|].
  rewrite E in *. cbn in *. rewrite bool_decide_false by congruence. done.
Qed.

Lemma Check_total type rb :
  0 <= rb_cnt rb < 2147483648 -> schema_size (rb_schema rb) < 2147483648 ->
  exists ok, Check_ false type rb = Some ok.
Proof.
  intros Hi Hs. unfold Check_, schema_size, schema_get in *.
  rewrite i32_small, Z.geb_leb by lia.
  destruct (Z.leb_spec (Z.of_nat (length (rb_schema rb))) (rb_cnt rb)); [by eexists|].
  destruct (lookup_lt_is_Some_2 (rb_schema rb) (Z.to_nat (rb_cnt rb))) as [c E]; [lia|].
  rewrite E. cbn. case_if; [by eexists|]. case_if; by eexists.
Qed.

(** A value the builder cannot store is refused and nothing changes: a
    value of another type than the next column's (or after the last column),
    a date outside 1900-01-01 .. 9999-12-31, and a string whose end would be
    past the announced size all return [false] and leave counter, string
    offset and buffer as they were. *)
Theorem append_refused rb x :
  0 <= rb_cnt rb < 2147483648 -> schema_size (rb_schema rb) < 2147483648 ->
  refused rb x -> append_value false (Some x) rb = Some (false, rb).
Proof.
  intros Hi Hs [Hx|Hx].
  - destruct x; try done; cbn [append_value].
    + unfold AppendDate, valid_ymd in *. rewrite !Z.gtb_ltb.
      repeat case_if; try done. exfalso. apply Hx. lia.
    + unfold AppendString. destruct (Check_total kVarchar rb Hi Hs) as [[] ->]; [|done].
      cbn [mbind option_bind negb]. rewrite Z.gtb_ltb. by rewrite (proj2 (Z.ltb_lt _ _) Hx).
  - pose proof (Check_wrong _ _ Hi Hs Hx) as Hc.
    destruct x; cbn [append_value value_type] in *;
      unfold AppendDate, AppendString, AppendBool, AppendInt16, AppendInt32, AppendInt64,
        AppendTimestamp, AppendFloat, AppendDouble, append_fixed;
      rewrite ?Hc; try done. by repeat case_if.
Qed.

Lemma append_refused_witness :
  append_value false (Some (VInt64 1)) (RowBuilder_new false sample_schema) =
  Some (false, RowBuilder_new false sample_schema).
Proof.
  apply append_refused; [vm_compute; done|vm_compute; done|].
  right. vm_compute. discriminate.
Defined.

(** ** Lost checks *)

(** [AppendNULL] has no bound check: after the last column it does not
    return [false], as every other append does, but reads the schema out of
    range. *)
Theorem AppendNULL_unchecked rb :
  0 <= rb_cnt rb < 2147483648 -> schema_size (rb_schema rb) <= rb_cnt rb ->
  AppendNULL rb = None /\ (forall z, AppendInt32 false z rb = Some (false, rb)).
Proof.
  intros Hi Hs. unfold schema_size in *.
  assert (rb_schema rb !! Z.to_nat (rb_cnt rb) = None) as E
    by (apply lookup_ge_None_2; lia).
  split.
  - unfold AppendNULL, schema_get. destruct (rb_buf rb); [|done]. cbn [mbind option_bind].
    destruct (v1.AppendNullBit _ _ _); [|done]. cbn [mbind option_bind]. by rewrite E.
  - intros z. unfold AppendInt32, append_fixed.
    rewrite (Check_wrong kInt32 rb) by (unfold schema_size; rewrite ?E; (done || lia)). done.
Qed.

Lemma AppendNULL_unchecked_witness :
  AppendNULL (mkRowBuilder [] (Some (repeat 0 16)) 0 16 0 1 6 6 []) = None.
Proof. apply AppendNULL_unchecked; [cbn [rb_cnt]; lia|vm_compute; discriminate]. Defined.

(** The guard of [SetBuffer] counts one byte per string address whatever the
    address width of the size. *)
Definition wide_schema : list ColumnDef := replicate 300 (mkcol [115] kVarchar).

(** [SetBuffer] accepts a size that holds a one-byte address per string
    column even when the size implies wider addresses; a row of 300 NULL
    strings in 344 bytes is accepted, and appending the NULLs then writes
    behind the buffer. *)
Theorem SetBuffer_guard_short :
  exists rb, SetBuffer false (Some (repeat 0 344)) 344 (RowBuilder_new false wide_schema) =
    Some (true, rb) /\
  rb_str_addr_length rb = 2 /\ append_all false (replicate 300 None) rb = None.
Proof.
  destruct (SetBuffer false (Some (repeat 0 344)) 344 (RowBuilder_new false wide_schema))
    as [[ok rb]|] eqn:E; vm_compute in E; [|discriminate].
  injection E as <- <-. eexists. split; [reflexivity|]. split; vm_compute; reflexivity.
Qed.

(** ** Reading through [GetValue] and [GetInteger] *)

(** The machine word [GetValue] writes for a value. *)
Definition value_word (x : Value) : Z :=
  match x with
  | VBool b => if b then 1 else 0
  | VInt16 z | VInt32 z | VInt64 z | VTimestamp z | VFloat z | VDouble z => z
  | VDate y m d => date_pack y m d
  | VString _ => 0
  end.

Definition is_integer (t : Ty) : Prop :=
  t = kInt16 \/ t = kInt32 \/ t = kInt64 \/ t = kDate \/ t = kTimestamp.

Section ReadValue.
Context (cols : list ColumnDef) (size : Z) (vs : list (option Value)) (b : list Z).
Context (Hcols : Forall supported cols) (Hcount : schema_size cols < 2147483648).
Context (Hsize : 0 <= size < 4294967296) (Hfits : Forall2 value_fits cols vs).
Context (Hexact : size = bodies_start cols (GetAddrLength size) + sumz body_len vs).
Context (Hrow : row_holds cols size (GetAddrLength size) vs b).

Let rv := view cols size b.

Lemma GetValue_value j c v d :
  cols !! j = Some c -> col_type c <> kVarchar -> vs !! j = Some v ->
  GetValue (Some b) (Z.of_nat j) (col_type c) (Some d) rv =
  Some (match v with Some x => (0, Some (value_word x)) | None => (1, Some d) end).
Proof.
  intros Hc Ht Hv. pose proof (lookup_lt_Some _ _ _ Hc).
  destruct (read_order cols size vs Hcount Hsize Hexact) as (? & ? & ?).
  destruct (fixed_start_pos cols Hcount) as [_ ?].
  destruct (rd_fits _ _ _ _ _ (proj1 Hrow) _ _ Hv) as (c' & Hc' & Hf).
  assert (c' = c) as -> by congruence.
  unfold GetValue, rv. cbn [rv_schema view]. unfold schema_size in *.
  rewrite (proj2 (Z.eqb_neq _ 0)) by lia.
  rewrite i32_small, Z.geb_leb, (proj2 (Z.leb_gt _ _)) by lia.
  unfold schema_get. rewrite Nat2Z.id, Hc. cbn [mbind option_bind].
  rewrite bool_decide_true by done. cbn [negb].
  rewrite (stored_size cols size vs b Hsize Hrow). cbn [mbind option_bind].
  rewrite (proj2 (Z.leb_gt size _)) by (change HEADER_LENGTH with 6; lia).
  rewrite (column_null cols size vs b Hfits Hrow _ _ Hv). cbn [mbind option_bind].
  destruct v as [x|]; [|done]. cbn [is_null_value]. destruct Hf as [Htx Hr].
  rewrite (layout_lookup cols j c Hc : rv_offset_vec (view cols size b) !! j = _).
  cbn [mbind option_bind].
  assert (layout_entry cols j c = field_pos cols j) as ->
    by (unfold layout_entry, is_varchar; by rewrite bool_decide_false by done).
  pose proof (rd_fixed _ _ _ _ _ (proj1 Hrow) _ _ Hv ltac:(congruence)) as Hl.
  rewrite <- Htx in *.
  destruct x; cbn [value_type value_in_range fixed_bytes value_word] in *; try done;
    rewrite length_le_bytes in Hl;
    unfold v1.GetBoolFieldUnsafe, v1.GetInt16FieldUnsafe, v1.GetInt32FieldUnsafe,
      v1.GetInt64FieldUnsafe, v1.GetFloatFieldUnsafe, v1.GetDoubleFieldUnsafe;
    first [rewrite (load_s_decode _ _ _ _ Hl)|rewrite (load_u_decode _ _ _ _ Hl)];
    cbn [mbind option_bind].
  all: try (rewrite wraps_le_bytes by (cbn; lia); done).
  all: try (rewrite le_val_bytes_small by (cbn; lia); done).
  - by destruct b0.
  - destruct Hr as (? & ? & ?). pose proof (date_pack_value y m d0 ltac:(lia) ltac:(lia)).
    by rewrite wraps_le_bytes by (cbn; lia).
Qed.
End ReadValue.

(** [GetInteger] returns the stored integer, but reports a NULL as such
    (status 1) only for 16-bit columns; for every wider type, dates and
    timestamps included, a NULL comes back as status 0 and the value 0. *)
Theorem GetInteger_loses_null cols vs b0 j c v d :
  row_ok cols vs -> row_size cols vs <= Z.of_nat (length b0) ->
  cols !! j = Some c -> is_integer (col_type c) -> vs !! j = Some v ->
  exists b rv, encode_row cols vs b0 = Some b /\
    RowView_new false cols (Some b) (row_size cols vs) = Some rv /\
    GetInteger (Some b) (Z.of_nat j) (col_type c) d rv =
    Some (match v with
          | Some x => (0, value_word x)
          | None => if bool_decide (col_type c = kInt16) then (1, d) else (0, 0)
          end).
Proof.
  intros Hok Hb Hc Ht Hv. destruct (encode_row_holds _ _ _ Hok Hb)
    as (He & Hsz & rb1 & rb2 & b & E1 & E2 & E3 & Hh). destruct Hok as [Hs Hf Hne Hn _].
  exists b, (view cols (row_size cols vs) b). split_and!.
  - unfold encode_row. fold (row_size cols vs). rewrite E1. cbn [mbind option_bind].
    by rewrite E2.
  - by apply (RowView_new_view cols _ vs b).
  - assert (col_type c <> kVarchar) as Hnv by (by destruct Ht as [->|[->|[->|[->| ->]]]]).
    pose proof (GetValue_value cols _ vs b Hn Hsz Hf He Hh j c v 0 Hc Hnv Hv) as E.
    unfold GetInteger. destruct Ht as [Ht|[Ht|[Ht|[Ht|Ht]]]]; rewrite Ht in *;
      rewrite E; by destruct v.
Qed.

Lemma GetInteger_loses_null_witness :
  exists b rv, encode_row sample_schema sample_row (replicate 37 0) = Some b /\
    RowView_new false sample_schema (Some b) 37 = Some rv /\
    GetInteger (Some b) 4 kInt64 5 rv = Some (0, 0).
Proof.
  apply (GetInteger_loses_null sample_schema sample_row (replicate 37 0) 4
    (mkcol [101] kInt64) None 5 sample_row_ok);
    [vm_compute; discriminate|reflexivity|do 2 right; left; reflexivity|reflexivity].
Defined.

(** The overload [GetDate(idx, date)] never delivers a date: a caller that
    passes a cell gets -1, whatever the row holds, and one that passes a null
    pointer for a stored date makes the getter write through it. *)
Theorem GetDate_word_unusable rv idx :
  (forall cell, GetDate_word idx (Some cell) rv = Some (-1, Some cell)) /\
  (CheckValid idx kDate rv = Some true -> IsNULL (rv_row rv) idx = Some false ->
   GetDate_word idx None rv = None).
Proof. split; [done|]. intros H1 H2. unfold GetDate_word. by rewrite H1; cbn; rewrite H2. Qed.

Lemma GetDate_word_unusable_witness :
  exists b rv, encode_row sample_schema sample_row (replicate 37 0) = Some b /\
    RowView_new false sample_schema (Some b) 37 = Some rv /\
    GetDate 2 (Some (0, 0, 0)) rv = Some (0, Some (2020, 5, 27)) /\
    GetDate_word 2 None rv = None.
Proof.
  do 2 eexists. split; [vm_compute; reflexivity|]. split; [vm_compute; reflexivity|].
  split; [vm_compute; reflexivity|].
  apply GetDate_word_unusable; vm_compute; reflexivity.
Defined.

(** ** Address widths and bitmaps *)

(** The two functions that derive the width of string addresses from the
    row size ([codec::GetAddrLength], used by the writer and [RowView], and
    [v1::GetAddrSpace], used by the compiled code) agree on every size but
    2^24, where the writer uses four bytes and the compiled reader three. *)
Theorem addr_width_agreement size :
  v1.GetAddrSpace size = GetAddrLength size <-> size <> 16777216.
Proof.
  split.
  - intros H ->. vm_compute in H. discriminate.
  - intros H. by apply GetAddrSpace_length.
Qed.

(** In the UnsafeRow-compatible format the null bitmap should be a
    sequence of 64-bit words, one bit per column; the code allocates exactly
    the words needed unless the number of columns is 64 modulo 128, where it
    allocates one word too many. *)
Theorem spark_bitmap_words n :
  0 <= n < 4294967232 ->
  BitMapSize true n = 8 * ((n + 63) / 64) + (if n mod 128 =? 64 then 8 else 0).
Proof.
  intros Hn. unfold BitMapSize, nonzero.
  change 0x7f with (Z.ones 7). rewrite Z.land_ones, Z.shiftr_div_pow2 by lia.
  change (2 ^ 7) with 128. change (2 ^ 6) with 64.
  repeat case_if; rewrite u32_small; dlia.
Qed.

Lemma spark_bitmap_words_witness : BitMapSize true 64 = 16.
Proof. apply (spark_bitmap_words 64). lia. Defined.

(** ** The compiled code's string writer *)

(** The function the compiled code calls to write a string column
    ([v1::AppendString]) writes the same bytes as [RowBuilder]: in a builder
    state with consistent address width and room for the string, both append
    the string, or the NULL, to the same buffer with the same next body
    offset. *)
Theorem v1_AppendString_equiv rb b c o s :
  rb_buf rb = Some b -> Check_ false kVarchar rb = Some true ->
  schema_get (rb_schema rb) (rb_cnt rb) = Some c -> is_varchar (col_type c) = true ->
  rb_offset_vec rb !! Z.to_nat (rb_cnt rb) = Some o -> 0 <= o ->
  rb_str_addr_length rb = GetAddrLength (rb_size rb) ->
  0 <= rb_str_field_start_offset rb ->
  rb_str_field_start_offset rb + rb_str_addr_length rb * o <= rb_str_offset rb ->
  rb_str_offset rb + Z.of_nat (length s) <= rb_size rb < 2147483648 ->
  AppendString false (Some s) (Z.of_nat (length s)) rb =
    ('(next, b') ← v1.AppendString false b (rb_size rb) (rb_cnt rb) s (Z.of_nat (length s))
       false (rb_str_field_start_offset rb) o (rb_str_addr_length rb) (rb_str_offset rb);
     Some (true, advance b' next rb)) /\
  AppendNULL rb =
    ('(next, b') ← v1.AppendString false b (rb_size rb) (rb_cnt rb) [] 0
       true (rb_str_field_start_offset rb) o (rb_str_addr_length rb) (rb_str_offset rb);
     Some (true, advance b' next rb)).
Proof.
  intros Hb Hk Hc Hv Ho Hpos Hal Hst Hlt Hsz.
  pose proof (GetAddrLength_range (rb_size rb)) as Hr. rewrite <- Hal in Hr.
  assert (0 <= rb_str_addr_length rb * o) by nia.
  split.
  - unfold AppendString, v1.AppendString. rewrite Hk, Ho, Hb. cbn [mbind option_bind negb].
    rewrite (Z.mul_comm o). rewrite !u32_small by (rewrite ?u32_small; lia).
    rewrite i32_small, !Z.gtb_ltb by lia.
    rewrite !(proj2 (Z.ltb_ge _ _)) by lia. unfold mbind, option_bind.
    destruct (write_str_addr _ _ _ _); [|done]. by destruct (if negb _ then _ else _).
  - unfold AppendNULL, v1.AppendString. rewrite Hb. cbn [mbind option_bind].
    destruct (v1.AppendNullBit b (rb_cnt rb) true); [|done]. cbn [mbind option_bind].
    rewrite Hc, Ho. cbn [mbind option_bind]. rewrite Hv.
    rewrite Hal, i32_small by lia. by destruct (FillNullStringOffset _ _ _ _ _).
Qed.

Definition one_string : RowBuilder :=
  mkRowBuilder [mkcol [] kVarchar] (Some (repeat 0 10)) 0 10 1 1 7 8 [0].

Lemma v1_AppendString_equiv_witness :
  AppendString false (Some [104; 105]) 2 one_string =
  ('(next, b') ← v1.AppendString false (repeat 0 10) 10 0 [104; 105] 2 false 7 0 1 8;
   Some (true, advance b' next one_string)).
Proof.
  apply (v1_AppendString_equiv one_string (repeat 0 10) (mkcol [] kVarchar) 0 [104; 105]);
    try reflexivity; cbn; lia.
Defined.

(** The size check of [v1::AppendString] adds the string length to the
    offset of the address slot, not of the body, so a string that does not
    fit is not refused: the check passes and the copy runs behind the buffer
    (the builder refuses the same call). *)
Theorem v1_AppendString_overrun :
  exists s, v1.AppendString false (repeat 0 10) 10 0 s (Z.of_nat (length s)) false 7 0 1 8 = None /\
  AppendString false (Some s) (Z.of_nat (length s)) one_string = Some (false, one_string).
Proof. exists [97; 98; 99]. split; vm_compute; reflexivity. Qed.
