(* ===== verification/RowFormat.v ===== *)
(** * [RowFormat]: the layout the code generator uses

    Models the class [RowFormat] of [src/codec/fe_row_codec.cc], which hands
    the positions of fields to the compiled code, and proves that a row
    written by [RowBuilder] is read correctly through these positions with
    the field getters of [codec::v1]. *)

From stdpp Require Import base numbers list option gmap.
From S2P Require Import Prelude Layout TypeCodec RowBuilder RowView RowCodec RowWrite RowRead.

Record ColInfo := mkColInfo {
  ci_name : list Z; ci_type : Ty; ci_idx : Z; ci_offset : Z
}.

Record StringColInfo := mkStringColInfo {
  sci_info : ColInfo; sci_str_next_offset : Z; sci_str_start_offset : Z
}.

(** A [std::map] with integer keys: its entries in key order. *)
Abbreviation omap := (list (Z * Z)).

(** [insert] keeps an entry that is already there. *)
Fixpoint omap_insert (k v : Z) (m : omap) : omap :=
  match m with
  | [] => [(k, v)]
  | (k', v') :: m' =>
      if k <? k' then (k, v) :: m
      else if k =? k' then m
      else (k', v') :: omap_insert k v m'
  end.

Fixpoint omap_find (k : Z) (m : omap) : option Z :=
  match m with
  | [] => None
  | (k', v') :: m' => if k =? k' then Some v' else omap_find k m'
  end.

Record RowFormat := mkRowFormat {
  rf_schema : list ColumnDef;
  rf_infos : list ColInfo;
  rf_infos_dict : gmap (list Z) Z;
  rf_next_str_pos : omap;
  rf_str_field_start_offset : Z
}.

Section Format.
Context (spark : bool).

(** The loop over the columns: the column counter, the next fixed offset, the
    number of strings and the three containers. *)
Fixpoint format_loop (cols : list ColumnDef) (i offset string_field_cnt : Z)
    (infos : list ColInfo) (dict : gmap (list Z) Z) (next : omap)
  : Z * list ColInfo * gmap (list Z) Z * omap :=
  match cols with
  | [] => (offset, infos, dict, next)
  | c :: cols' =>
      if is_varchar (col_type c)
      then format_loop cols' (i + 1) offset (u32 (string_field_cnt + 1))
             (infos ++ [mkColInfo (col_name c) (col_type c) i string_field_cnt])
             (<[col_name c := i]> dict)
             (omap_insert string_field_cnt string_field_cnt next)
      else match GetTypeSizeMap spark (col_type c) with
           | None => format_loop cols' (i + 1) offset string_field_cnt infos dict next
           | Some w =>
               format_loop cols' (i + 1) (u32 (offset + w)) string_field_cnt
                 (infos ++ [mkColInfo (col_name c) (col_type c) i offset])
                 (<[col_name c := i]> dict) next
           end
  end.

(** The pass from the last entry to the first: each entry receives the old
    value of its successor, the last one 0. *)
Definition link_next (m : omap) : omap :=
  (foldr (fun '(k, v) '(next_pos, acc) => (v, (k, next_pos) :: acc)) (0, []) m).2.

Definition RowFormat_new (schema : option (list ColumnDef)) : RowFormat :=
  match schema with
  | None => mkRowFormat [] [] ∅ [] 0
  | Some s =>
      let '(offset, infos, dict, next) :=
        format_loop s 0 (GetStartOffset spark (schema_size s)) 0 [] ∅ [] in
      mkRowFormat s infos dict (link_next next) offset
  end.

Definition GetColumnInfo (idx : Z) (rf : RowFormat) : option ColInfo :=
  rf_infos rf !! Z.to_nat idx.

(** [None] when the function returns [false]. *)
Definition GetStringColumnInfo (idx : Z) (rf : RowFormat) : option StringColInfo :=
  base_col_info ← rf_infos rf !! Z.to_nat idx;
  next_offset ← omap_find (ci_offset base_col_info) (rf_next_str_pos rf);
  Some (mkStringColInfo base_col_info next_offset
    (if spark then BitMapSize spark (schema_size (rf_schema rf))
     else rf_str_field_start_offset rf)).
End Format.

(** ** The layout of a supported schema *)

(** The entries [0 .. n-1], each mapped to itself. *)
Definition str_slots (n : nat) : omap := (fun k => (Z.of_nat k, Z.of_nat k)) <$> seq 0 n.

Lemma omap_insert_last n : omap_insert (Z.of_nat n) (Z.of_nat n) (str_slots n) = str_slots (S n).
Proof.
  unfold str_slots. rewrite seq_S, fmap_app. cbn [fmap list_fmap].
  assert (Forall (fun e => e.1 < Z.of_nat n)
    ((fun k => (Z.of_nat k, Z.of_nat k)) <$> seq 0 n)) as H.
  { apply Forall_fmap, Forall_forall. intros x Hx. apply elem_of_seq in Hx. cbn. lia. }
  induction H as [|[k v] m Hk Hm IH]; [done|]. cbn [omap_insert fst] in *.
  rewrite (proj2 (Z.ltb_ge _ _)), (proj2 (Z.eqb_neq _ _)) by lia. by rewrite IH.
Qed.

Lemma link_next_slots n k :
  omap_find (Z.of_nat k) (link_next (str_slots n)) =
  if decide (k < n)%nat then Some (if decide (S k < n)%nat then Z.of_nat (S k) else 0)
  else None.
Proof.
  unfold link_next, str_slots.
  assert (forall i m, let f := foldr (fun '(k, v) '(next_pos, acc) => (v, (k, next_pos) :: acc)) (0, [])
      ((fun k => (Z.of_nat k, Z.of_nat k)) <$> seq i m) : Z * omap in
    f.1 = (match m with O => 0 | _ => Z.of_nat i end) /\
    omap_find (Z.of_nat k) f.2 = if decide (i <= k < i + m)%nat
      then Some (if decide (S k < i + m)%nat then Z.of_nat (S k) else 0) else None) as H.
  { intros i m. revert i. induction m as [|m IH]; intros i; cbv zeta; cbn [seq fmap list_fmap foldr].
    - split; [done|]. cbn. by rewrite decide_False by lia.
    - destruct (IH (S i)) as [H1 H2]. destruct (foldr _ _ _) as [nx acc] eqn:E. cbn in *.
      split; [done|]. destruct (Z.eqb_spec (Z.of_nat k) (Z.of_nat i)).
      + rewrite decide_True by lia. f_equal. subst nx. destruct m.
        * by rewrite decide_False by lia.
        * rewrite decide_True by lia. lia.
      + rewrite H2. repeat case_decide; try lia; done. }
  destruct (H 0%nat n) as [_ H2]. cbv zeta in H2. rewrite H2. repeat case_decide; try lia; done.
Qed.

Definition info (cols : list ColumnDef) (start cnt i : Z) (j : nat) (c : ColumnDef) : ColInfo :=
  mkColInfo (col_name c) (col_type c) (i + Z.of_nat j) (entry cols start cnt j c).

Lemma infos_cons c cols start cnt i :
  imap (info (c :: cols) start cnt i) (c :: cols) =
  mkColInfo (col_name c) (col_type c) i (if is_varchar (col_type c) then cnt else start)
  :: imap (info cols (start + width c) (cnt + strs c) (i + 1)) cols.
Proof.
  cbn [imap]. f_equal.
  - unfold info, entry. cbn. rewrite !Z.add_0_r. done.
  - apply imap_ext. intros j c' _. unfold info, entry. cbn [compose take sumz foldr].
    f_equal; [lia|]. case_if; unfold sumz; lia.
Qed.

Lemma format_loop_spec cols i start n infos dict :
  Forall supported cols ->
  0 <= start -> start + sumz width cols < 4294967296 ->
  Z.of_nat n + sumz strs cols < 4294967296 ->
  exists dict',
    format_loop false cols i start (Z.of_nat n) infos dict (str_slots n) =
    (start + sumz width cols, infos ++ imap (info cols start (Z.of_nat n) i) cols, dict',
     str_slots (n + Z.to_nat (sumz strs cols))).
Proof.
  revert i start n infos dict. induction cols as [|c cols IH]; intros i start n infos dict Hs.
  - intros. exists dict. cbn. by rewrite Z.add_0_r, app_nil_r, Nat.add_0_r.
  - apply Forall_cons_1 in Hs as [Hc Hs]. intros. rewrite infos_cons.
    cbn [format_loop sumz foldr] in *. fold (sumz width cols) (sumz strs cols) in *.
    pose proof (sumz_nonneg width ltac:(auto with cpp) cols).
    pose proof (sumz_nonneg strs ltac:(auto with cpp) cols).
    destruct (supported_cases c Hc) as [(Hv & Hw & Hn)|(Hv & Hn & Hw & Hr)]; rewrite Hv.
    + rewrite Hw, Hn in *. rewrite u32_small, omap_insert_last by lia.
      replace (Z.of_nat n + 1) with (Z.of_nat (S n)) by lia.
      edestruct (IH (i + 1) start (S n)) as [d' E]; [done|lia..|].
      exists d'. rewrite E, <- app_assoc, !Z.add_0_r. cbn [app].
      rewrite !Z.add_0_l. do 2 f_equal. lia.
    + rewrite Hw, Hn in *. rewrite u32_small by lia.
      edestruct (IH (i + 1) (start + width c) n) as [d' E]; [done|lia..|].
      exists d'. rewrite E, <- app_assoc, Z.add_assoc, Z.add_0_r, Z.add_0_l. done.
Qed.

Section Agreement.
Context (cols : list ColumnDef).
Context (Hcols : Forall supported cols) (Hcount : schema_size cols < 2147483648).
Context (Hroom : fixed_end cols + sumz strs cols < 4294967296).

Let rf := RowFormat_new false (Some cols).

Lemma format_fields :
  rf_infos rf = imap (info cols (fixed_start cols) 0 0) cols /\
  rf_next_str_pos rf = link_next (str_slots (Z.to_nat (sumz strs cols))) /\
  rf_str_field_start_offset rf = fixed_end cols.
Proof.
  destruct (fixed_start_pos cols Hcount) as [? _].
  pose proof (sumz_nonneg width width_nonneg cols).
  pose proof (sumz_nonneg strs strs_nonneg cols).
  subst rf. unfold RowFormat_new, GetStartOffset. fold (fixed_start cols).
  rewrite u32_small by lia.
  destruct (format_loop_spec cols 0 (fixed_start cols) 0 [] ∅ Hcols) as [d E];
    [unfold fixed_end in *; lia..|].
  change (Z.of_nat 0) with 0 in E. change (str_slots 0) with (@nil (Z * Z)) in E.
  by rewrite E.
Qed.

Lemma GetColumnInfo_spec j c :
  cols !! j = Some c ->
  GetColumnInfo (Z.of_nat j) rf =
  Some (mkColInfo (col_name c) (col_type c) (Z.of_nat j) (layout_entry cols j c)).
Proof.
  intros Hc. destruct format_fields as [E _]. unfold GetColumnInfo. rewrite E, Nat2Z.id.
  rewrite list_lookup_imap, Hc. done.
Qed.

Lemma GetStringColumnInfo_spec j c :
  cols !! j = Some c -> is_varchar (col_type c) = true ->
  GetStringColumnInfo false (Z.of_nat j) rf =
  Some (mkStringColInfo
    (mkColInfo (col_name c) (col_type c) (Z.of_nat j) (slot cols j))
    (next_str_field (slot cols j) (sumz strs cols)) (fixed_end cols)).
Proof.
  intros Hc Hv. destruct format_fields as (E1 & E2 & E3).
  pose proof (slot_range cols j c Hc Hv).
  destruct (fixed_start_pos cols Hcount) as [? _].
  pose proof (sumz_nonneg width width_nonneg cols). assert (0 <= fixed_end cols) by (unfold fixed_end; lia).
  unfold GetStringColumnInfo. rewrite E1, E2, E3, Nat2Z.id, list_lookup_imap, Hc.
  cbn [mbind option_bind fmap option_fmap option_map].
  assert (ci_offset (info cols (fixed_start cols) 0 0 j c) = Z.of_nat (Z.to_nat (slot cols j))) as ->.
  { unfold info, entry. cbn [ci_offset]. rewrite Hv. unfold slot in *. lia. }
  rewrite link_next_slots, decide_True by lia. cbn [mbind option_bind].
  unfold info, entry, next_str_field. rewrite Hv, Z.add_0_l. fold (slot cols j).
  rewrite u32_small by lia.
  assert ((if decide (S (Z.to_nat (slot cols j)) < Z.to_nat (sumz strs cols))%nat
    then Z.of_nat (S (Z.to_nat (slot cols j))) else 0) =
    (if slot cols j <? sumz strs cols - 1 then u32 (slot cols j + 1) else 0)) as ->; [|done].
  destruct (Z.ltb_spec (slot cols j) (sumz strs cols - 1)).
  - rewrite decide_True by lia. rewrite u32_small by lia. lia.
  - by rewrite decide_False by lia.
Qed.
End Agreement.
