(* ===== verification/CompiledCodec.v ===== *)
(** * The code emitted for decoding and encoding rows

    Models [src/codegen/buf_ir_builder.cc]: not the LLVM instructions but what
    the emitted code computes when it runs. [BuildGetField] emits calls of the
    [codec::v1] getters with positions from [RowFormat]; [BuildEncode] emits
    the allocation and the stores of an output row. *)

From stdpp Require Import base numbers list option.
From S2P Require Import Prelude Layout TypeCodec RowBuilder RowView RowCodec RowWrite RowRead RowFormat.

(** ** Values of the emitted code *)

(** The run-time content of a [NativeValue]: a typed value, nullable when it
    has a flag; the null constant of a type; a value of the null type. *)
Inductive NativeValue :=
| NReg (v : Value) (flag : option bool)
| NConstNull (t : Ty)
| NNullTy.

Definition GetIsNull (nv : NativeValue) : bool :=
  match nv with NReg _ flag => default false flag | NConstNull _ | NNullTy => true end.

Definition IsNullable (nv : NativeValue) : bool :=
  match nv with NReg _ flag => bool_decide (is_Some flag) | NConstNull _ | NNullTy => true end.

(** Running the emitted code: it may have undefined behaviour, the builder may
    have refused to emit it ([return false]), or it completes. *)
Inductive outcome (A : Type) := Undefined | Refused | Done (a : A).
Arguments Undefined {A}.
Arguments Refused {A}.
Arguments Done {A} _.

Definition obind {A B} (f : A -> outcome B) (x : outcome A) : outcome B :=
  match x with Undefined => Undefined | Refused => Refused | Done a => f a end.

(** A memory access inside the emitted code. *)
Definition access {A} (x : option A) : outcome A :=
  match x with Some a => Done a | None => Undefined end.

Notation "x <~ e ; f" := (obind (fun x => f) e)
  (at level 100, e at next level, f at level 200, right associativity) : cpp_scope.
Local Open Scope cpp_scope.

(** ** Decoding *)

(** A decoded field: the machine word or the string, and the null flag. *)
Inductive Native := NWord (z : Z) | NStr (s : list Z).

Section Decode.
Context (spark : bool).

Definition BuildGetStringField (b : mem) (size col_idx offset next_str_field_offset
    str_start_offset : Z) : outcome (Native * bool) :=
  r <~ access (v1.GetStrField spark (Some b) col_idx offset next_str_field_offset
         str_start_offset (i32 (v1.GetAddrSpace size)) (Some PNull) (Some 0));
  let '(_, data, n, is_null) := r in
  p <~ access data; len <~ access n; s <~ access (charp_string b p len);
  Done (NStr s, is_null).

Definition BuildGetPrimaryField (get : option (list Z) -> Z -> Z -> option (Z * bool))
    (b : mem) (col_idx offset : Z) : outcome (Native * bool) :=
  r <~ access (get (Some b) col_idx offset); Done (NWord r.1, r.2).

Definition BuildGetField (rf : RowFormat) (col_idx : Z) (b : mem) (size : Z)
  : outcome (Native * bool) :=
  match GetColumnInfo col_idx rf with
  | None => Refused
  | Some col_info =>
      let offset := ci_offset col_info in
      match ci_type col_info with
      | kBool => BuildGetPrimaryField v1.GetBoolField b col_idx offset
      | kInt16 => BuildGetPrimaryField v1.GetInt16Field b col_idx offset
      | kInt32 | kDate => BuildGetPrimaryField v1.GetInt32Field b col_idx offset
      | kInt64 | kTimestamp => BuildGetPrimaryField v1.GetInt64Field b col_idx offset
      | kFloat => BuildGetPrimaryField v1.GetFloatField b col_idx offset
      | kDouble => BuildGetPrimaryField v1.GetDoubleField b col_idx offset
      | kVarchar =>
          match GetStringColumnInfo spark col_idx rf with
          | None => Undefined
          | Some str_info =>
              BuildGetStringField b size col_idx offset (sci_str_next_offset str_info)
                (sci_str_start_offset str_info)
          end
      | kBlob | kNull => Refused
      end
  end.
End Decode.

(** ** Encoding *)

Record Encoder := mkEncoder {
  en_schema : list ColumnDef;
  en_str_field_start_offset : Z;
  en_offset_vec : list Z;
  en_str_field_cnt : Z
}.

Section Encode.
Context (spark : bool).

(** The content of fresh memory and of undefined values, by size. *)
Context (junk : nat -> list Z).

Fixpoint encoder_layout (cols : list ColumnDef) (start cnt : Z) (vec : list Z)
  : Z * Z * list Z :=
  match cols with
  | [] => (start, cnt, vec)
  | c :: cols' =>
      if spark then
        encoder_layout cols' (u32 (start + 8))
          (if is_varchar (col_type c) then u32 (cnt + 1) else cnt) (vec ++ [start])
      else if is_varchar (col_type c) then
        encoder_layout cols' start (u32 (cnt + 1)) (vec ++ [cnt])
      else match GetTypeSizeMap spark (col_type c) with
           | None => encoder_layout cols' start cnt vec
           | Some w => encoder_layout cols' (u32 (start + w)) cnt (vec ++ [start])
           end
  end.

Definition Encoder_new (schema : list ColumnDef) : Encoder :=
  let '(start, cnt, vec) :=
    encoder_layout schema (GetStartOffset spark (schema_size schema)) 0 [] in
  mkEncoder schema start vec cnt.

(** The sum of the lengths of the string outputs; [outputs_->at(idx)] throws
    for a missing one, and the length of a null constant is read through an
    undefined pointer. *)
Fixpoint str_total (cols : list ColumnDef) (outputs : list (option NativeValue))
    (acc : option Z) : outcome (option Z) :=
  match cols with
  | [] => Done acc
  | c :: cols' =>
      let rest := tail outputs in
      if is_varchar (col_type c) then
        match outputs with
        | Some (NReg (VString s) flag) :: _ =>
            let fe_str_size := if default false flag then 0 else Z.of_nat (length s) in
            str_total cols' rest
              (Some (match acc with None => fe_str_size | Some t => u32 (fe_str_size + t) end))
        | _ => Undefined
        end
      else str_total cols' rest acc
  end.

(** The row size and the address width (0 where the code leaves it unset). *)
Definition CalcTotalSize (outputs : list (option NativeValue)) (en : Encoder)
  : outcome (Z * Z) :=
  if (en_str_field_cnt en <=? 0) || (schema_size (en_schema en) =? 0)
  then Done (en_str_field_start_offset en, 0)
  else
    total <~ str_total (en_schema en) outputs None;
    match total with
    | None => Undefined
    | Some total_size =>
        Done (v1.CalcTotalLength spark (en_str_field_start_offset en) (en_str_field_cnt en)
                total_size)
    end.

Definition AppendHeader (b : mem) (size bitmap_size : Z) : option mem :=
  b1 ← store_le b 0 1 1;
  b2 ← store_le b1 1 1 1;
  b3 ← store_le b2 2 4 size;
  memset0 b3 6 bitmap_size.

Definition AppendPrimary (b : mem) (nullable is_null : bool) (bytes : list Z)
    (field_idx field_offset : Z) : option mem :=
  b1 ← (if nullable then v1.AppendNullBit b field_idx is_null else Some b);
  store b1 field_offset bytes.

Definition CalcStrBodyStart (en : Encoder) (str_addr_space : Z) : Z :=
  u32 (en_str_field_start_offset en + u32 (en_str_field_cnt en * str_addr_space)).

(** The emitted call and the next body offset, whose status is not checked. *)
Definition AppendString (en : Encoder) (b : mem) (buf_size field_idx : Z) (s : list Z)
    (is_null : bool) (str_addr_space str_body_offset str_field_idx : Z)
  : option (Z * mem) :=
  '(next, b') ← v1.AppendString spark b buf_size field_idx s (Z.of_nat (length s)) is_null
    (if spark then BitMapSize spark (schema_size (en_schema en))
     else en_str_field_start_offset en)
    str_field_idx str_addr_space str_body_offset;
  Some (u32 next, b').

(** One iteration of the loop of [BuildEncode]; the second component is the
    body offset, unset before the first string column. *)
Definition encode_column (en : Encoder) (size space idx : Z) (c : ColumnDef)
    (out : option NativeValue) (st : mem * option Z) : outcome (mem * option Z) :=
  let '(b, body) := st in
  match out with
  | None => Done st
  | Some val =>
      match col_type c with
      | kBool | kInt16 | kInt32 | kInt64 | kTimestamp | kDate | kFloat | kDouble =>
          offset <~ access (en_offset_vec en !! Z.to_nat idx);
          let put bytes := b' <~ access (AppendPrimary b (IsNullable val) (GetIsNull val)
                                           bytes idx offset); Done (b', body) in
          match val with
          | NReg (VString _) _ | NConstNull kVarchar => Refused
          | NReg v _ => put (fixed_bytes v)
          | NConstNull kTimestamp => put (le_bytes 8 0)
          | NConstNull kDate => put (le_bytes 4 0)
          | NConstNull t => put (junk (Z.to_nat (default 0 (DEFAULT_TYPE_SIZE_MAP t))))
          | NNullTy => put [1]
          end
      | kVarchar =>
          let str_body_offset := default (CalcStrBodyStart en space) body in
          field_cnt <~ access (en_offset_vec en !! Z.to_nat idx);
          let put s is_null :=
            r <~ access (AppendString en b size idx s is_null space str_body_offset field_cnt);
            Done (r.2, Some r.1) in
          match val with
          | NReg (VString s) flag => put s (default false flag)
          | NReg _ _ => Undefined
          | NConstNull _ | NNullTy => put [] true
          end
      | kBlob | kNull => Refused
      end
  end.

Fixpoint encode_columns (en : Encoder) (size space idx : Z) (cols : list ColumnDef)
    (outputs : list (option NativeValue)) (st : mem * option Z) : outcome (mem * option Z) :=
  match cols with
  | [] => Done st
  | c :: cols' =>
      st' <~ encode_column en size space idx c (default None (head outputs)) st;
      encode_columns en size space (idx + 1) cols' (tail outputs) st'
  end.

(** The emitted encoder: the size and the bytes of the new row. *)
Definition BuildEncode (schema : list ColumnDef) (outputs : list (option NativeValue))
  : outcome (Z * list Z) :=
  let en := Encoder_new schema in
  r <~ CalcTotalSize outputs en;
  let '(size, space) := r in
  b <~ access (AppendHeader (junk (Z.to_nat size)) size (GetBitmapSize spark (schema_size schema)));
  st <~ encode_columns en size space 0 schema outputs (b, None);
  Done (size, st.1).
End Encode.
