(* ===== verification/CompiledProof.v ===== *)
(** * The emitted decoder and encoder implement the row format

    The emitted decoder is proved against the content of a row, the emitted
    encoder establishes it; so rows travel in both directions between the
    compiled code and [RowBuilder]/[RowView]. *)

From stdpp Require Import base numbers list option.
From S2P Require Import Prelude Layout TypeCodec RowBuilder RowView RowCodec RowWrite RowRead RowErrors RowFormat CompiledCodec.
Local Open Scope cpp_scope.

(** What the compiled code sees of a value. *)
Definition native_of (x : Value) : Native :=
  match x with VString s => NStr s | _ => NWord (value_word x) end.

Section Decode.
Context (cols : list ColumnDef) (size : Z) (vs : list (option Value)) (b : list Z).
Context (Hcols : Forall supported cols) (Hcount : schema_size cols < 2147483648).
Context (Hsize : 0 <= size < 4294967296) (Hfits : Forall2 value_fits cols vs).
Context (Hexact : size = bodies_start cols (GetAddrLength size) + sumz body_len vs).
Context (Hrow : row_holds cols size (GetAddrLength size) vs b).
Context (Hwidth : size <> 16777216).

Let rf := RowFormat_new false (Some cols).

Lemma format_room : fixed_end cols + sumz strs cols < 4294967296.
Proof.
  pose proof (GetAddrLength_range size).
  pose proof (sumz_nonneg strs strs_nonneg cols).
  pose proof (sumz_nonneg body_len body_len_nonneg vs).
  assert (bodies_start cols (GetAddrLength size) =
    fixed_end cols + GetAddrLength size * sumz strs cols) by done. nia.
Qed.

(** A field getter of [codec::v1] on a column of fixed width. *)
Lemma primary_field_value (unsafe : mem -> Z -> option Z) dflt j c v :
  cols !! j = Some c -> is_varchar (col_type c) = false -> vs !! j = Some v ->
  (forall x, v = Some x -> unsafe b (field_pos cols j) = Some (value_word x)) ->
  BuildGetPrimaryField (v1.get_field unsafe dflt) b (Z.of_nat j) (layout_entry cols j c) =
  Done (NWord (from_option value_word dflt v), is_null_value v).
Proof.
  intros Hc Hv Hvj Hu. unfold BuildGetPrimaryField, v1.get_field.
  pose proof (column_null cols size vs b Hfits Hrow _ _ Hvj) as Hn. unfold IsNULL in Hn.
  rewrite Hn. cbn [mbind option_bind]. unfold layout_entry. rewrite Hv.
  destruct v as [x|]; cbn [is_null_value]; [|done]. by rewrite (Hu x eq_refl).
Qed.

(** The word a typed load returns for a stored value. *)
Lemma load_word_s j x n :
  vs !! j = Some (Some x) -> value_type x <> kVarchar -> value_in_range x ->
  length (fixed_bytes x) = n ->
  (match x with VFloat _ | VDouble _ => False | _ => True end) ->
  load_s b (field_pos cols j) n = Some (value_word x).
Proof.
  intros Hv Ht Hr <- Hx.
  rewrite (load_s_decode _ _ _ _ (rd_fixed _ _ _ _ _ (proj1 Hrow) _ _ Hv Ht)). f_equal.
  destruct x; try done; cbn [fixed_bytes value_word value_in_range] in *;
    rewrite length_le_bytes.
  all: try (apply wraps_le_bytes; cbn; lia).
  - by destruct b0.
  - destruct Hr as (? & ? & ?). pose proof (date_pack_value y m d ltac:(lia) ltac:(lia)).
    apply wraps_le_bytes; cbn; lia.
Qed.

Lemma load_word_u j x n :
  vs !! j = Some (Some x) -> value_in_range x -> length (fixed_bytes x) = n ->
  (match x with VFloat _ | VDouble _ => True | _ => False end) ->
  load_u b (field_pos cols j) n = Some (value_word x).
Proof.
  intros Hv Hr <- Hx.
  rewrite (load_u_decode _ _ _ _ (rd_fixed _ _ _ _ _ (proj1 Hrow) _ _ Hv ltac:(by destruct x))).
  f_equal. destruct x; try done; cbn [fixed_bytes value_word value_in_range] in *;
    apply le_val_bytes_small; cbn; lia.
Qed.

(** A field of fixed width: its word, or zero for NULL. *)
Lemma BuildGetField_primary j c v :
  cols !! j = Some c -> vs !! j = Some v -> is_varchar (col_type c) = false ->
  BuildGetField false rf (Z.of_nat j) b size = Done (NWord (from_option value_word 0 v), is_null_value v).
Proof.
  intros Hc Hv Hvar. pose proof format_room.
  destruct (rd_fits _ _ _ _ _ (proj1 Hrow) _ _ Hv) as (c' & Hc' & Hf).
  assert (c' = c) as -> by congruence.
  pose proof (Forall_lookup_1 _ _ _ _ Hcols Hc) as [Hs1 Hs2].
  unfold BuildGetField, rf. rewrite (GetColumnInfo_spec cols) with (c := c) by done.
  cbn [ci_type ci_offset]. apply bool_decide_eq_false in Hvar as Hnv.
  destruct (col_type c) eqn:Ht; try done.
  all: apply primary_field_value; [done|by rewrite Ht|done|].
  all: intros [] ->; destruct Hf as [Hx Hr]; rewrite Ht in Hx; try done;
    first [apply load_word_s | apply load_word_u]; done.
Qed.

Lemma BuildGetField_value j c v :
  cols !! j = Some c -> vs !! j = Some v ->
  exists n, BuildGetField false rf (Z.of_nat j) b size = Done (n, is_null_value v) /\
    (forall x, v = Some x -> n = native_of x).
Proof.
  intros Hc Hv. destruct (is_varchar (col_type c)) eqn:Hvar.
  2: { rewrite (BuildGetField_primary j c v Hc Hv Hvar). eexists. split; [done|]. intros x ->. cbn.
       destruct (rd_fits _ _ _ _ _ (proj1 Hrow) _ _ Hv) as (c' & Hc' & Hx & _).
       assert (c' = c) as -> by congruence. apply bool_decide_eq_false in Hvar. by destruct x. }
  pose proof format_room.
  destruct (rd_fits _ _ _ _ _ (proj1 Hrow) _ _ Hv) as (c' & Hc' & Hf).
  assert (c' = c) as -> by congruence.
  pose proof (Forall_lookup_1 _ _ _ _ Hcols Hc) as Hs.
  unfold BuildGetField, rf. rewrite (GetColumnInfo_spec cols) with (c := c) by done.
  cbn [ci_type ci_offset].
  apply bool_decide_eq_true in Hvar as Ht. rewrite Ht.
  rewrite (GetStringColumnInfo_spec cols Hcols Hcount format_room j c Hc Hvar).
  cbn [sci_str_next_offset sci_str_start_offset]. unfold BuildGetStringField, v1.GetStrField.
  pose proof (column_null cols size vs b Hfits Hrow _ _ Hv) as Hn. unfold IsNULL in Hn.
  rewrite Hn. cbn [mbind option_bind]. unfold layout_entry. rewrite Hvar.
  destruct v as [x|]; cbn [is_null_value].
  - destruct Hf as [Htx _]. rewrite Ht in Htx. destruct x; try done.
    rewrite GetAddrSpace_length by done.
    pose proof (GetAddrLength_range size). rewrite i32_small by lia.
    rewrite (GetStrFieldUnsafe_value cols size vs b) with (c := c) (s := s) by done.
    cbn -[charp_string Z.of_nat]. cbn [charp_string]. rewrite Nat2Z.id.
    rewrite (rd_body _ _ _ _ _ (proj1 Hrow) _ _ Hv). cbn.
    eexists. split; [done|]. by intros x [= <-].
  - eexists. split; [done|]. done.
Qed.
End Decode.

(** ** Encoding *)

(** The output of the compiled code for a column represents the value [v]. The
    constant NULL does not represent a string: its length would be read through an
    undefined pointer ([null_string_undefined]). *)
Definition native_repr (c : ColumnDef) (nv : NativeValue) (v : option Value) : Prop :=
  match nv, v with
  | NReg x (None | Some false), Some y => x = y
  | NReg x (Some true), None => value_type x = col_type c
  | NConstNull t, None => t = col_type c /\ t <> kVarchar
  | NNullTy, None => col_type c <> kVarchar
  | _, _ => False
  end.

Fixpoint outputs_ok (cols : list ColumnDef) (outputs : list (option NativeValue))
    (vs : list (option Value)) : Prop :=
  match cols, outputs, vs with
  | [], [], [] => True
  | c :: cols', Some nv :: outputs', v :: vs' =>
      native_repr c nv v /\ outputs_ok cols' outputs' vs'
  | _, _, _ => False
  end.

Lemma u32_i32 z : u32 (i32 z) = u32 z.
Proof.
  unfold u32, i32, wrapu, wraps. rewrite Zminus_mod_idemp_l.
  f_equal. lia.
Qed.

Lemma encoder_layout_builder cols start cnt vec :
  encoder_layout false cols start cnt vec = builder_layout false cols start cnt vec.
Proof.
  revert start cnt vec. induction cols as [|c cols IH]; intros; [done|].
  cbn [encoder_layout builder_layout]. destruct (is_varchar _); [apply IH|].
  destruct (GetTypeSizeMap false (col_type c)); apply IH.
Qed.

Section Encode.
Context (junk : nat -> list Z) (Hjunk : forall n, length (junk n) = n).
Context (cols : list ColumnDef) (size : Z).
Context (Hcols : Forall supported cols) (Hcount : schema_size cols < 2147483648).
Context (Hsize : 0 <= size < 4294967296).

Local Notation al := (GetAddrLength size).

Context (Hroom : bodies_start cols al <= size).

Lemma row_bits_snoc_flag vs b b' (x : Value) :
  (length vs < length cols)%nat ->
  v1.AppendNullBit b (Z.of_nat (length vs)) false = Some b' ->
  row_bits cols vs b -> row_bits cols (vs ++ [Some x]) b'.
Proof.
  intros Hl Ha H. apply row_bits_snoc_value. intros j Hj.
  rewrite (IsNullAt_AppendNullBit b b' _ (Z.of_nat j) false _
    (Nat2Z.is_nonneg _) (Nat2Z.is_nonneg _) Ha (H j Hj)).
  f_equal. case_decide as E; [|done]. apply Nat2Z.inj in E as <-.
  by rewrite lookup_ge_None_2 by lia.
Qed.

(** The null bit of the next column. *)
Lemma null_bit_step vs b (nullable is_null : bool) v :
  row_holds cols size al vs b -> (length vs < length cols)%nat ->
  is_null_value v = is_null -> (is_null = true -> nullable = true) ->
  exists b1, (if nullable then v1.AppendNullBit b (Z.of_nat (length vs)) is_null else Some b)
      = Some b1 /\
    row_data cols size al vs b1 /\ row_bits cols (vs ++ [v]) b1.
Proof.
  intros [Hd Hb] Hl Hv Hn. pose proof (al_range size).
  pose proof (regions_order cols size Hcount Hsize Hroom) as (Hfs & Hfe).
  pose proof (bit_region cols (length vs) Hcount Hl). pose proof (rd_length _ _ _ _ _ Hd).
  assert (exists b', v1.AppendNullBit b (Z.of_nat (length vs)) is_null = Some b' /\
    length b' = length b) as (b1 & Hb1 & Hl1)
    by (apply AppendNullBit_Some; [lia|change HEADER_LENGTH with 6; lia]).
  destruct nullable.
  - exists b1. split_and!; [done|eapply row_data_bit; [done|done|..|exact Hb1|done|done]; lia|].
    destruct v as [x|], is_null; try done.
    + by eapply row_bits_snoc_flag.
    + by eapply row_bits_snoc_null.
  - exists b. destruct v as [x|], is_null; try done; try by specialize (Hn eq_refl).
    split_and!; try done. by apply row_bits_snoc_value.
Qed.

Lemma primary_step vs b c nullable is_null bytes v :
  row_holds cols size al vs b -> cols !! length vs = Some c ->
  is_varchar (col_type c) = false -> value_fits c v ->
  is_null_value v = is_null -> (is_null = true -> nullable = true) ->
  Z.of_nat (length bytes) <= width c -> (forall x, v = Some x -> bytes = fixed_bytes x) ->
  exists b', AppendPrimary b nullable is_null bytes (Z.of_nat (length vs))
      (field_pos cols (length vs)) = Some b' /\
    row_holds cols size al (vs ++ [v]) b'.
Proof.
  intros Hh Hc Hv Hf Hn1 Hn2 Hw Hx. pose proof (lookup_lt_Some _ _ _ Hc) as Hl.
  destruct (null_bit_step vs b nullable is_null v Hh Hl Hn1 Hn2) as (b1 & E1 & Hd1 & Hb1).
  destruct (field_store cols size Hcount Hsize Hroom vs b1 c bytes Hd1 Hc Hv Hw)
    as (b2 & E2 & Hd2 & Hb2).
  exists b2. unfold AppendPrimary. rewrite E1. cbn [mbind option_bind].
  split; [done|]. split; [|by apply Hb2]. eapply row_data_snoc; try done.
  - intros x -> _. rewrite <- (Hx x eq_refl). by apply load_store_same in E2.
  - congruence.
  - intros s ->. destruct Hf as [Ht _]. cbn in Ht.
    unfold is_varchar in Hv. by rewrite <- Ht in Hv.
Qed.

Lemma string_step en vs b c s (is_null : bool) v :
  en_str_field_start_offset en = fixed_end cols ->
  row_holds cols size al vs b -> cols !! length vs = Some c ->
  is_varchar (col_type c) = true ->
  v = (if is_null then None else Some (VString s)) ->
  bodies_start cols al + sumz body_len (vs ++ [v]) <= size ->
  exists b', CompiledCodec.AppendString false en b size (Z.of_nat (length vs)) s is_null al
      (bodies_start cols al + sumz body_len vs) (slot cols (length vs)) =
    Some (bodies_start cols al + sumz body_len (vs ++ [v]), b') /\
    row_holds cols size al (vs ++ [v]) b'.
Proof.
  intros Hen Hh Hc Hv -> Hr. pose proof (lookup_lt_Some _ _ _ Hc) as Hl.
  pose proof (al_range size). pose proof (regions_order cols size Hcount Hsize Hroom) as (Hfs & Hfe).
  pose proof (sumz_nonneg body_len body_len_nonneg vs).
  destruct (addr_region cols al _ _ ltac:(lia) Hc Hv).
  pose proof (addr_ptr cols size Hcount Hsize Hroom _ _ Hc Hv) as Hptr.
  rewrite (body_pos_end cols size vs). unfold CompiledCodec.AppendString, v1.AppendString.
  rewrite Hen. destruct is_null; rewrite sumz_app in *; cbn [sumz foldr body_len] in *.
  - destruct (null_bit_step vs b true true None Hh Hl eq_refl ltac:(done))
      as (b1 & E1 & Hd1 & Hb1).
    destruct (addr_store cols size Hcount Hsize Hroom vs b1 c Hd1 Hc Hv)
      as (b2 & E2 & _ & Hd2 & Ha & Hk).
    rewrite E1. cbn [mbind option_bind]. unfold FillNullStringOffset.
    rewrite Hptr, E2. cbn [mbind option_bind]. exists b2.
    rewrite u32_i32, <- (body_pos_end cols size vs), u32_small by (lia).
    split; [by rewrite !Z.add_0_r|]. split; [|by apply Hk]. by eapply row_data_snoc.
  - destruct Hh as [Hd Hb].
    destruct (addr_store cols size Hcount Hsize Hroom vs b c Hd Hc Hv)
      as (b1 & E1 & _ & Hd1 & Ha & Hk1).
    destruct (body_store cols size Hcount Hsize Hroom vs b1 s Hd1) as (b2 & E2 & Hd2 & Hfr & Hk2).
    { rewrite <- (body_pos_end cols size vs). lia. }
    rewrite (Z.mul_comm (slot _ _)). rewrite Hptr.
    rewrite !(u32_small (addr_pos _ _ _)) by lia.
    rewrite u32_small by lia. rewrite Z.gtb_ltb, (proj2 (Z.ltb_ge _ _)) by lia.
    rewrite E1. cbn [mbind option_bind].
    rewrite (memcpy_store _ _ _ _ E2). cbn [mbind option_bind]. exists b2.
    rewrite u32_i32, !u32_small by (rewrite <- ?(body_pos_end cols size vs), ?u32_small; lia).
    split; [rewrite <- (body_pos_end cols size vs); do 2 f_equal; lia|].
    split; [|by apply row_bits_snoc_value, Hk2, Hk1].
    eapply row_data_snoc; try done.
    + split; [|done]. by apply bool_decide_eq_true in Hv as ->.
    + by intros x [= <-] [].
    + intros _. rewrite Hfr by (lia). done.
    + intros x [= <-]. by apply load_store_same in E2.
Qed.

(** ** The loop over the columns *)

Context (en : Encoder) (space : Z).
Context (Hstart : en_str_field_start_offset en = fixed_end cols).
Context (Hvec : en_offset_vec en = imap (entry cols (fixed_start cols) 0) cols).
Context (Hbody : CalcStrBodyStart en space = bodies_start cols al).
Context (Hspace : 0 < sumz strs cols -> space = al).

Definition enc_at (vs : list (option Value)) (st : list Z * option Z) : Prop :=
  row_holds cols size al vs st.1 /\
  default (bodies_start cols al) st.2 = bodies_start cols al + sumz body_len vs.

Lemma column_entry (vs : list (option Value)) c :
  cols !! length vs = Some c ->
  en_offset_vec en !! Z.to_nat (Z.of_nat (length vs)) = Some (layout_entry cols (length vs) c).
Proof. intros Hc. rewrite Hvec, Nat2Z.id. by apply layout_lookup. Qed.

Lemma enc_fixed vs c bytes nv v st :
  enc_at vs st -> cols !! length vs = Some c -> is_varchar (col_type c) = false ->
  value_fits c v -> is_null_value v = GetIsNull nv ->
  Z.of_nat (length bytes) <= width c -> (forall x, v = Some x -> bytes = fixed_bytes x) ->
  exists st', obind (fun b' => Done (b', st.2))
      (access (AppendPrimary st.1 (IsNullable nv) (GetIsNull nv) bytes (Z.of_nat (length vs))
        (layout_entry cols (length vs) c))) = Done st' /\ enc_at (vs ++ [v]) st'.
Proof.
  intros [Hh Hb] Hc Hv Hf Hn Hw Hx.
  destruct (primary_step vs st.1 c (IsNullable nv) (GetIsNull nv) bytes v Hh Hc Hv Hf Hn)
    as (b' & E & Hh'); [by destruct nv as [? [[]|]| |]|done|done|].
  unfold layout_entry. rewrite Hv, E. eexists. split; [done|]. split; [done|].
  cbn [snd]. rewrite Hb, sumz_app. cbn [sumz foldr]. destruct v as [x|]; [|cbn; lia].
  destruct Hf as [Ht _]. destruct x; cbn; try lia.
  cbn in Ht. unfold is_varchar in Hv. by rewrite <- Ht in Hv.
Qed.

Lemma enc_string vs c s (is_null : bool) v st :
  enc_at vs st -> cols !! length vs = Some c -> is_varchar (col_type c) = true ->
  v = (if is_null then None else Some (VString s)) ->
  bodies_start cols al + sumz body_len (vs ++ [v]) <= size ->
  exists st', obind (fun r => Done (r.2, Some r.1))
      (access (CompiledCodec.AppendString false en st.1 size (Z.of_nat (length vs)) s is_null
        space (default (CalcStrBodyStart en space) st.2) (layout_entry cols (length vs) c)))
    = Done st' /\ enc_at (vs ++ [v]) st'.
Proof.
  intros [Hh Hb] Hc Hv Hx Hr. pose proof (slot_range cols _ _ Hc Hv).
  destruct (string_step en vs st.1 c s is_null v Hstart Hh Hc Hv Hx Hr) as (b' & E & Hh').
  rewrite Hbody, Hb, Hspace by lia. unfold layout_entry. rewrite Hv, E.
  eexists. split; [done|]. split; done.
Qed.

Lemma encode_column_step vs c nv v st :
  enc_at vs st -> cols !! length vs = Some c -> value_fits c v -> native_repr c nv v ->
  bodies_start cols al + sumz body_len (vs ++ [v]) <= size ->
  exists st', encode_column false junk en size space (Z.of_nat (length vs)) c (Some nv) st
    = Done st' /\ enc_at (vs ++ [v]) st'.
Proof.
  intros He Hc Hf Hr Hb. pose proof (Forall_lookup_1 _ _ _ _ Hcols Hc) as Hs.
  unfold encode_column. destruct st as [b body]. rewrite (column_entry _ _ Hc).
  cbn [access obind].
  destruct (supported_cases c Hs) as [(Hv & _ & _)|(Hv & _ & Hw & Hwr)].
  - apply bool_decide_eq_true in Hv as Ht. rewrite Ht.
    destruct nv as [x flag|t|]; cbn in Hr; [|destruct v; [done|]; destruct Hr; congruence|by destruct v].
    assert (value_type x = kVarchar) as Hx.
    { destruct flag as [[]|], v; try done; try congruence; subst; destruct Hf; congruence. }
    destruct x; try done.
    apply (enc_string vs c s (default false flag) v (b, body)); try done.
    destruct flag as [[]|], v; try done; by subst.
  - pose proof (fun bytes => enc_fixed vs c bytes nv v (b, body) He Hc Hv Hf) as Hp.
    cbn [fst snd] in Hp. unfold is_varchar in Hv. apply bool_decide_eq_false in Hv.
    destruct nv as [x flag|t|]; cbn in Hr; cbn [GetIsNull] in Hp.
    + assert (is_null_value v = default false flag) as Hn by (destruct flag as [[]|], v; done).
      assert (value_type x = col_type c) as Hx
        by (destruct flag as [[]|], v; try done; subst; by destruct Hf).
      assert (forall y, v = Some y -> x = y) as Hxy
        by (intros y ->; by destruct flag as [[]|]).
      assert (Z.of_nat (length (fixed_bytes x)) <= width c) as Hl
        by (unfold width; rewrite <- Hx; destruct x; cbn; lia).
      destruct (Hp (fixed_bytes x) Hn Hl) as (st' & E & Hst');
        [intros y Hy; by rewrite (Hxy y Hy)|].
      exists st'. split; [|done]. rewrite <- E, <- Hx in *.
      destruct x; done.
    + destruct v; [done|]. destruct Hr as [-> Ht]. destruct Hs as [Hs1 Hs2].
      destruct (col_type c) eqn:Hct; try done; cbn [DEFAULT_TYPE_SIZE_MAP default];
        eapply Hp; try done; rewrite ?Hjunk; unfold width; rewrite Hct; cbn; lia.
    + destruct v; [done|]. destruct (Hp [1] eq_refl) as (st' & E & Hst'); [cbn; lia|done|].
      exists st'. split; [|done]. rewrite <- E. destruct Hs as [Hs1 Hs2].
      destruct (col_type c); done.
Qed.

Lemma encode_columns_steps cs : forall outs ws vs st,
  enc_at vs st -> drop (length vs) cols = cs ->
  Forall2 value_fits cs ws -> outputs_ok cs outs ws ->
  bodies_start cols al + sumz body_len (vs ++ ws) <= size ->
  exists st', encode_columns false junk en size space (Z.of_nat (length vs)) cs outs st
    = Done st' /\ enc_at (vs ++ ws) st'.
Proof.
  induction cs as [|c cs IH]; intros outs ws vs st He Hd Hf Ho Hb.
  - destruct outs, ws; try done. exists st. by rewrite app_nil_r.
  - destruct outs as [|[nv|] outs], ws as [|v ws]; try done.
    destruct Ho as [Hr Ho]. apply Forall2_cons_1 in Hf as [Hfv Hfs].
    assert (cols !! length vs = Some c) as Hc.
    { rewrite <- (Nat.add_0_r (length vs)), <- lookup_drop, Hd. done. }
    pose proof (sumz_nonneg body_len body_len_nonneg ws).
    rewrite sumz_app in Hb. cbn [sumz foldr] in Hb. fold (sumz body_len ws) in Hb.
    destruct (encode_column_step vs c nv v st He Hc Hfv Hr) as (st1 & E1 & He1).
    { rewrite sumz_app. cbn [sumz foldr]. lia. }
    destruct (IH outs ws (vs ++ [v]) st1 He1) as (st2 & E2 & He2); [|done|done|..].
    + rewrite length_app, Nat.add_comm. cbn. rewrite (drop_S _ _ _ Hc) in Hd. by injection Hd.
    + rewrite !sumz_app. cbn [sumz foldr]. fold (sumz body_len ws). lia.
    + exists st2. cbn [encode_columns tail].
      change (default None (head (Some nv :: outs))) with (Some nv). rewrite E1. cbn [obind].
      rewrite length_app in E2. cbn [length] in E2.
      replace (Z.of_nat (length vs + 1)) with (Z.of_nat (length vs) + 1) in E2 by lia.
      rewrite E2. by rewrite <- app_assoc in He2.
Qed.
End Encode.

(** ** The size of the row *)

Lemma str_total_spec cols : forall outs vs acc,
  Forall2 value_fits cols vs -> outputs_ok cols outs vs ->
  0 <= default 0 acc -> default 0 acc + sumz body_len vs < 4294967296 ->
  str_total cols outs acc =
  Done (if 0 <? sumz strs cols then Some (default 0 acc + sumz body_len vs) else acc).
Proof.
  induction cols as [|c cols IH]; intros outs vs acc Hf Ho Ha Hr; [done|].
  destruct outs as [|[nv|] outs], vs as [|v vs]; try done. destruct Ho as [Hn Ho].
  apply Forall2_cons_1 in Hf as [Hfv Hfs]. cbn [str_total tail].
  pose proof (sumz_nonneg strs strs_nonneg cols).
  pose proof (sumz_nonneg body_len body_len_nonneg vs).
  pose proof (body_len_nonneg v).
  cbn [sumz foldr] in *. fold (sumz strs cols) (sumz body_len vs) in *.
  destruct (is_varchar (col_type c)) eqn:Hv.
  - assert (strs c = 1) as -> by (unfold strs; by rewrite Hv).
    rewrite (proj2 (Z.ltb_lt 0 (1 + _))) by lia. apply bool_decide_eq_true in Hv as Ht.
    destruct nv as [x flag|t|]; cbn in Hn;
      [|destruct v; [done|]; destruct Hn; congruence|by destruct v].
    assert (value_type x = kVarchar) as Hx.
    { destruct flag as [[]|], v; try done; try congruence; subst; destruct Hfv; congruence. }
    destruct x; try done.
    assert ((if default false flag then 0 else Z.of_nat (length s)) = body_len v) as ->
      by (destruct flag as [[]|], v; try done; by subst).
    assert (match acc with None => body_len v | Some t => u32 (body_len v + t) end =
      default 0 acc + body_len v) as -> by (destruct acc; cbn in *; rewrite ?u32_small; lia).
    rewrite (IH outs vs) by (done || cbn; lia). cbn [default].
    rewrite Z.add_assoc. case_if; [done|]. f_equal. f_equal.
    pose proof (no_string _ _ Hfs). lia.
  - assert (strs c = 0) as -> by (unfold strs; by rewrite Hv).
    assert (body_len v = 0) as Hz.
    { destruct v as [[]|]; try done. destruct Hfv as [Ht _]. cbn in Ht.
      unfold is_varchar in Hv. by rewrite <- Ht in Hv. }
    rewrite Hz, !Z.add_0_l. apply IH; (done || lia).
Qed.

(** At this size the builder's and the compiled code's address widths differ. *)
Definition odd_size (cols : list ColumnDef) (vs : list (option Value)) : Prop :=
  fixed_end cols + sumz body_len vs + 3 * sumz strs cols = 16777216.

Section Sizes.
Context (cols : list ColumnDef) (vs : list (option Value)).
Context (Hok : row_ok cols vs) (Hodd : ~ odd_size cols vs).

Lemma row_size_exact :
  row_size cols vs = bodies_start cols (GetAddrLength (row_size cols vs)) + sumz body_len vs /\
  0 <= row_size cols vs < 4294967296.
Proof.
  destruct Hok as [Hc Hv Hne Hn Hs].
  apply CalTotalLength_exact; try done. apply sumz_nonneg, body_len_nonneg.
Qed.

Lemma calc_size_agree :
  v1.CalcTotalLength false (fixed_end cols) (sumz strs cols) (sumz body_len vs) =
  (row_size cols vs, GetAddrLength (row_size cols vs)) /\ row_size cols vs <> 16777216.
Proof.
  destruct Hok as [Hc Hv Hne Hn Hs]. unfold odd_size, row_size in *.
  pose proof (sumz_nonneg strs strs_nonneg cols).
  pose proof (sumz_nonneg body_len body_len_nonneg vs).
  destruct (fixed_start_pos cols Hn) as [? _].
  pose proof (sumz_nonneg width width_nonneg cols).
  assert (0 <= fixed_end cols) by (unfold fixed_end; lia).
  rewrite (RowBuilder_new_layout cols Hc Hn) by lia. unfold CalTotalLength, v1.CalcTotalLength.
  cbn [rb_str_field_cnt rb_schema rb_str_field_start_offset]. cbv zeta.
  assert (schema_size cols <> 0) by (unfold schema_size; destruct cols; [done|cbn; lia]).
  rewrite (proj2 (Z.eqb_neq _ 0)) by done.
  clear Hok. set (cnt := sumz strs cols) in *. set (sl := sumz body_len vs) in *.
  set (fe := fixed_end cols) in *. clearbody cnt sl fe.
  rewrite !u32_small by (rewrite ?u32_small; rewrite ?u32_small; lia).
  unfold GetAddrLength, UINT8_MAX, UINT16_MAX, UINT24_MAX, UINT32_MAX.
  change (Z.shiftl 1 24) with 16777216.
  repeat case_if; try lia; split; (done || lia).
Qed.

Lemma Encoder_new_fields :
  Encoder_new false cols =
  mkEncoder cols (fixed_end cols) (imap (entry cols (fixed_start cols) 0) cols) (sumz strs cols).
Proof.
  destruct Hok as [Hc Hv Hne Hn Hs]. pose proof (sumz_nonneg strs strs_nonneg cols).
  pose proof (sumz_nonneg body_len body_len_nonneg vs).
  pose proof (RowBuilder_new_layout cols Hc Hn ltac:(lia)) as E.
  unfold Encoder_new, GetStartOffset. unfold RowBuilder_new in E.
  rewrite encoder_layout_builder.
  destruct (builder_layout false cols _ 0 []) as [[start cnt] vec]. by injection E as -> -> ->.
Qed.
End Sizes.

Lemma header_of_SetBuffer b0 size rb0 rb b :
  SetBuffer false (Some b0) size rb0 = Some (true, rb) -> rb_buf rb = Some b ->
  AppendHeader b0 size (GetBitmapSize false (schema_size (rb_schema rb0))) = Some b.
Proof.
  unfold SetBuffer, AppendHeader. case_if; [done|].
  change VERSION_LENGTH with 2. change HEADER_LENGTH with 6.
  destruct (store_le b0 0 1 1) as [b1|]; [|done]. cbn [mbind option_bind].
  destruct (store_le b1 1 1 1) as [b2|]; [|done]. cbn [mbind option_bind].
  destruct (store_le b2 2 4 size) as [b3|]; [|done]. cbn [mbind option_bind].
  unfold GetBitmapSize. destruct (memset0 b3 6 _) as [b4|]; [|done]. cbn [mbind option_bind].
  intros [= <-]. done.
Qed.

(** The emitted encoder establishes the content of the row. *)
Lemma BuildEncode_holds junk cols vs outs :
  (forall n, length (junk n) = n) -> row_ok cols vs -> outputs_ok cols outs vs ->
  ~ odd_size cols vs ->
  let size := row_size cols vs in
  exists b, BuildEncode false junk cols outs = Done (size, b) /\
    row_holds cols size (GetAddrLength size) vs b.
Proof.
  intros Hj Hok Ho Hodd size. destruct (row_size_exact _ _ Hok) as [He Hsz].
  destruct (calc_size_agree _ _ Hok Hodd) as [Hcalc _]. fold size in He, Hsz, Hcalc.
  pose proof (Encoder_new_fields _ _ Hok) as Hen. destruct Hok as [Hc Hv Hne Hn Hs].
  pose proof (sumz_nonneg strs strs_nonneg cols).
  pose proof (sumz_nonneg body_len body_len_nonneg vs).
  assert (bodies_start cols (GetAddrLength size) =
    fixed_end cols + GetAddrLength size * sumz strs cols) as Ebs by done.
  pose proof (GetAddrLength_range size).
  destruct (fixed_start_pos cols Hn) as [? _].
  pose proof (sumz_nonneg width width_nonneg cols).
  assert (0 <= fixed_end cols) by (unfold fixed_end; lia).
  destruct (SetBuffer_attach cols size Hc Hn Hsz) with (b0 := junk (Z.to_nat size))
    as (rb & b1 & E1 & Hat); [lia|rewrite Hj; lia|].
  pose proof (header_of_SetBuffer _ _ _ _ _ E1 (ba_buf _ _ _ _ _ Hat)) as Eh.
  assert (exists space, CalcTotalSize false outs (Encoder_new false cols) = Done (size, space) /\
    (0 < sumz strs cols -> space = GetAddrLength size) /\
    (sumz strs cols = 0 \/ space = GetAddrLength size)) as (space & Ec & Hsp & Hsp').
  { unfold CalcTotalSize. rewrite Hen. cbn [en_str_field_cnt en_schema en_str_field_start_offset].
    destruct (Z.leb_spec (sumz strs cols) 0) as [Hle|Hlt]; cbn [orb].
    - exists 0. pose proof (no_string _ _ Hv ltac:(lia)).
      assert (sumz strs cols = 0) as E0 by lia. rewrite E0 in *.
      split_and!; [f_equal; f_equal; nia|lia|lia].
    - rewrite (proj2 (Z.eqb_neq _ 0))
        by (unfold schema_size; destruct cols; [done|cbn; lia]).
      rewrite (str_total_spec cols outs vs None) by (done || cbn; lia). cbn [obind].
      rewrite (proj2 (Z.ltb_lt 0 _)) by lia. cbn [default]. rewrite Z.add_0_l, Hcalc.
      exists (GetAddrLength size). split_and!; auto. }
  assert (rb_schema (RowBuilder_new false cols) = cols) as Esch.
  { unfold RowBuilder_new. by destruct (builder_layout _ _ _ _ _) as [[? ?] ?]. }
  destruct (encode_columns_steps junk Hj cols size Hc Hn Hsz ltac:(lia)
    (Encoder_new false cols) space) with (cs := cols) (outs := outs) (ws := vs)
    (vs := @nil (option Value)) (st := (b1, @None Z)) as (st & E2 & Hend & _); try done;
    try (by rewrite Hen).
  - rewrite Hen. unfold CalcStrBodyStart. cbn.
    rewrite (u32_small (sumz strs cols * space)), u32_small by (destruct Hsp' as [-> | ->]; nia).
    rewrite Ebs. destruct Hsp' as [E0 | ->]; [rewrite E0|]; lia.
  - split; [apply (ba_holds _ _ _ _ _ Hat)|]. cbn. lia.
  - rewrite app_nil_l. lia.
  - exists st.1. split; [|done]. unfold BuildEncode. rewrite Ec. cbn [obind].
    rewrite Esch in Eh. rewrite Eh. cbn [access obind]. cbn [length] in E2.
    change (Z.of_nat 0) with 0 in E2. by rewrite E2.
Qed.

(** ** Main properties *)

(** C27: the row encoder emitted by the code generator is correct and agrees
    with [RowBuilder]. For every row of supported columns, given as the
    outputs of compiled expressions (values with or without a null flag; the
    constant NULL too, but for string columns, where the emitted code reads the
    length through an undefined pointer, see [null_string_undefined]), the emitted
    code runs without undefined behaviour, allocates exactly the size [RowBuilder]
    announces, and both the interpreted reader [RowView] and the emitted decoder
    read every column back as its value or as NULL. The one excluded size is the
    one where the two address-width functions differ ([odd_size]). *)
Theorem compiled_encode_correct junk cols vs outs :
  (forall n, length (junk n) = n) -> row_ok cols vs -> outputs_ok cols outs vs ->
  ~ odd_size cols vs ->
  exists b rv,
    BuildEncode false junk cols outs = Done (row_size cols vs, b) /\
    RowView_new false cols (Some b) (row_size cols vs) = Some rv /\ rv_is_valid rv = true /\
    forall j c v, cols !! j = Some c -> vs !! j = Some v ->
      read_value (col_type c) (Z.of_nat j) rv = Some (expected v) /\
      exists n, BuildGetField false (RowFormat_new false (Some cols)) (Z.of_nat j) b
          (row_size cols vs) = Done (n, is_null_value v) /\
        (forall x, v = Some x -> n = native_of x).
Proof.
  intros Hj Hok Ho Hodd. destruct (row_size_exact _ _ Hok) as [He Hsz].
  destruct (calc_size_agree _ _ Hok Hodd) as [_ H24].
  destruct (BuildEncode_holds junk cols vs outs Hj Hok Ho Hodd) as (b & E & Hh).
  destruct Hok as [Hc Hv Hne Hn Hs].
  exists b, (view cols (row_size cols vs) b). split_and!; try done.
  - by apply (RowView_new_view cols _ vs b).
  - intros j c v Hjc Hjv. split; [by apply (read_value_correct cols (row_size cols vs) vs b)|].
    by apply (BuildGetField_value cols (row_size cols vs) vs b) with (c := c).
Qed.

(** A constant NULL for a string column, with or without a type: [CalcTotalSize]
    loads the length of the string before it looks at the null flag. *)
Theorem null_string_undefined junk name : BuildEncode false junk [mkcol name kVarchar] [Some (NConstNull kVarchar)] = Undefined /\
  BuildEncode false junk [mkcol name kVarchar] [Some NNullTy] = Undefined.
Proof. split; reflexivity. Qed.

Definition sample_outputs : list (option NativeValue) :=
  [Some (NReg (VInt32 (-7)) None); Some (NReg (VString [104; 105]) (Some false));
   Some (NReg (VDate 2020 5 27) None); Some (NReg (VString [120]) (Some true));
   Some (NConstNull kInt64); Some (NReg (VString []) None);
   Some (NReg (VBool true) (Some false)); Some (NReg (VDouble 4611686018427387904) None)].

Lemma compiled_encode_correct_witness :
  exists b rv,
    BuildEncode false (fun n => replicate n 205) sample_schema sample_outputs = Done (37, b) /\
    RowView_new false sample_schema (Some b) 37 = Some rv /\
    read_value kVarchar 1 rv = Some (0, Some (VString [104; 105])).
Proof.
  destruct (compiled_encode_correct (fun n => replicate n 205) sample_schema sample_row sample_outputs)
    as (b & rv & H1 & H2 & _ & H3).
  - intros n. apply length_replicate.
  - apply sample_row_ok.
  - vm_compute. repeat split; discriminate.
  - vm_compute. discriminate.
  - exists b, rv. change (row_size sample_schema sample_row) with 37 in H1, H2.
    split_and!; [done..|]. apply (H3 1%nat (mkcol [98] kVarchar) _ eq_refl eq_refl).
Defined.


