(* ===== verification/Iterators.v ===== *)
(** * Row iterators and lists: the interface between data sets and operators

    Models [include/base/iterator.h] and [include/codec/row_list.h]. The
    abstract class of iterators is a type class of operations; what an
    implementation promises to its clients is a second class of laws over the
    list of remaining entries. The default methods of [ListV] are proved
    against the laws, and the in-memory iterators of [mem_catalog] discharge
    them. *)

From stdpp Require Import base numbers list option.
From S2P Require Import Prelude.

(** [AbstractIterator<uint64_t, R, const R&>]; a getter called on an exhausted
    iterator dereferences an end iterator ([None]). *)
Class RowIterator (I R : Type) := {
  Valid : I -> bool;
  Next : I -> I;
  GetKey : I -> option Z;
  GetValue : I -> option R;
  Seek : Z -> I -> I;
  SeekToFirst : I -> I
}.

(** What an iterator promises: it enumerates a fixed list of entries. [it_ok]
    is the condition under which it keeps the promise. *)
Class RowIteratorLaws (I R : Type) `{RowIterator I R} := {
  it_ok : I -> Prop;
  all : I -> list (Z * R);
  rest : I -> list (Z * R);
  valid_rest : forall i, it_ok i -> (Valid i = true <-> rest i <> []);
  next_ok : forall i, it_ok i -> Valid i = true -> it_ok (Next i);
  next_rest : forall i, it_ok i -> Valid i = true -> rest (Next i) = tail (rest i);
  next_all : forall i, it_ok i -> Valid i = true -> all (Next i) = all i;
  key_rest : forall i e l, it_ok i -> rest i = e :: l -> GetKey i = Some e.1;
  value_rest : forall i e l, it_ok i -> rest i = e :: l -> GetValue i = Some e.2;
  first_ok : forall i, it_ok i -> it_ok (SeekToFirst i);
  first_rest : forall i, it_ok i -> rest (SeekToFirst i) = all i;
  first_all : forall i, it_ok i -> all (SeekToFirst i) = all i
}.

(** The first entries that fail a test are skipped. *)
Fixpoint skip_while {A} (p : A -> bool) (l : list A) : list A :=
  match l with [] => [] | x :: l' => if p x then skip_while p l' else l end.

Lemma length_skip_while {A} (p : A -> bool) l : (length (skip_while p l) <= length l)%nat.
Proof. induction l as [|x l IH]; cbn; [lia|]. destruct (p x); cbn; lia. Qed.

(** The iterators over time-ordered data: [Seek] moves to the first entry that
    is not newer than the key. *)
Class TimeSeek (I R : Type) `{RowIteratorLaws I R} := {
  seek_rest : forall ts i, it_ok i -> rest (Seek ts i) = skip_while (fun e => ts <? e.1) (all i);
  seek_ok : forall ts i, it_ok i -> it_ok (Seek ts i);
  seek_all : forall ts i, it_ok i -> all (Seek ts i) = all i
}.

Section ListV.
Context {I R : Type} `{RowIteratorLaws I R}.

(** [while (iter->Valid()) { iter->Next(); cnt++; }]; [None] when the fuel
    does not suffice. *)
Fixpoint count_loop (fuel : nat) (cnt : Z) (it : I) : option Z :=
  if Valid it then
    match fuel with
    | O => None
    | S fuel' => count_loop fuel' (u64 (cnt + 1)) (Next it)
    end
  else Some cnt.

(** [ListV::GetCount] on the iterator of the list. *)
Definition GetCount (fuel : nat) (it : I) : option Z := count_loop fuel 0 it.

(** [while (pos-- > 0 && iter->Valid()) iter->Next();] *)
Fixpoint advance_loop (pos : nat) (it : I) : I :=
  match pos with
  | O => it
  | S pos' => if Valid it then advance_loop pos' (Next it) else it
  end.

(** [ListV::At]; a null iterator and a position past the end give [V()]. *)
Definition At (pos : nat) (it : option I) (dflt : R) : option R :=
  match it with
  | None => Some dflt
  | Some it =>
      let it' := advance_loop pos it in
      if Valid it' then GetValue it' else Some dflt
  end.

(** Collecting what a loop over the iterator visits. *)
Fixpoint drain (fuel : nat) (it : I) : option (list (Z * R)) :=
  if Valid it then
    match fuel with
    | O => None
    | S fuel' =>
        k ← GetKey it; v ← GetValue it;
        l ← drain fuel' (Next it);
        Some ((k, v) :: l)
    end
  else Some [].

(** The loop [while (it->Valid()) { body; it->Next(); }] whose body works on
    the current key and value and on a state. *)
Fixpoint for_rows {S} (body : Z -> R -> S -> option S) (fuel : nat) (it : I) (s : S) : option S :=
  if Valid it then
    match fuel with
    | O => None
    | S fuel' =>
        k ← GetKey it; v ← GetValue it;
        s' ← body k v s;
        for_rows body fuel' (Next it) s'
    end
  else Some s.

(** The same loop over a list. *)
Fixpoint fold_rows {S} (body : Z -> R -> S -> option S) (l : list (Z * R)) (s : S) : option S :=
  match l with
  | [] => Some s
  | e :: l' => s' ← body e.1 e.2 s; fold_rows body l' s'
  end.

Lemma invalid_rest it : it_ok it -> Valid it = false -> rest it = [].
Proof.
  intros Ho Hv. destruct (rest it) as [|e l] eqn:E; [done|].
  assert (Valid it = true) by (apply valid_rest; [done|by rewrite E]). congruence.
Qed.

Lemma exhausted it : it_ok it -> rest it = [] -> Valid it = false.
Proof. intros Ho E. destruct (Valid it) eqn:V; [|done]. by apply valid_rest in V. Qed.

Lemma valid_cons it e l : it_ok it -> rest it = e :: l -> Valid it = true.
Proof. intros Ho E. apply valid_rest; [done|]. by rewrite E. Qed.

Lemma rest_next it e l : it_ok it -> rest it = e :: l -> rest (Next it) = l /\ it_ok (Next it).
Proof.
  intros Ho E. pose proof (valid_cons _ _ _ Ho E). rewrite next_rest, E by done.
  split; [done|]. by apply next_ok.
Qed.

Lemma drain_rest fuel : forall it,
  it_ok it -> (length (rest it) <= fuel)%nat -> drain fuel it = Some (rest it).
Proof.
  induction fuel as [|fuel IH]; intros it Ho Hf; cbn [drain];
    destruct (rest it) as [|e l] eqn:E; try by rewrite (exhausted _ Ho E).
  - cbn in Hf. lia.
  - rewrite (valid_cons _ _ _ Ho E), (key_rest _ _ _ Ho E), (value_rest _ _ _ Ho E).
    destruct (rest_next _ _ _ Ho E) as [Er Ho']. cbn [mbind option_bind].
    rewrite IH by (rewrite ?Er; (done || cbn in Hf; lia)). rewrite Er. by destruct e.
Qed.

Lemma for_rows_rest {S} (body : Z -> R -> S -> option S) fuel : forall it s,
  it_ok it -> (length (rest it) <= fuel)%nat ->
  for_rows body fuel it s = fold_rows body (rest it) s.
Proof.
  induction fuel as [|fuel IH]; intros it s Ho Hf; cbn [for_rows];
    destruct (rest it) as [|e l] eqn:E; try by rewrite (exhausted _ Ho E).
  - cbn in Hf. lia.
  - rewrite (valid_cons _ _ _ Ho E), (key_rest _ _ _ Ho E), (value_rest _ _ _ Ho E).
    destruct (rest_next _ _ _ Ho E) as [Er Ho']. cbn [mbind option_bind fold_rows].
    destruct (body e.1 e.2 s); [|done]. cbn [mbind option_bind].
    by rewrite IH, Er by (rewrite ?Er; (done || cbn in Hf; lia)).
Qed.

Lemma count_loop_rest fuel : forall it cnt,
  it_ok it -> (length (rest it) <= fuel)%nat -> 0 <= cnt ->
  cnt + Z.of_nat (length (rest it)) < 18446744073709551616 ->
  count_loop fuel cnt it = Some (cnt + Z.of_nat (length (rest it))).
Proof.
  induction fuel as [|fuel IH]; intros it cnt Ho Hf Hc Hr; cbn [count_loop];
    destruct (rest it) as [|e l] eqn:E;
    try (rewrite (exhausted _ Ho E); cbn; f_equal; lia).
  - cbn in Hf. lia.
  - rewrite (valid_cons _ _ _ Ho E). cbn [length] in *.
    destruct (rest_next _ _ _ Ho E) as [Er Ho']. rewrite u64_small by lia.
    rewrite IH by (rewrite ?Er; (done || lia)). rewrite Er. f_equal. lia.
Qed.

Lemma advance_rest pos : forall it,
  it_ok it -> rest (advance_loop pos it) = drop pos (rest it) /\ it_ok (advance_loop pos it).
Proof.
  induction pos as [|pos IH]; intros it Ho; cbn [advance_loop]; [by rewrite drop_0|].
  destruct (Valid it) eqn:V.
  - destruct (IH (Next it)) as [E1 E2]; [by apply next_ok|]. rewrite E1, next_rest by done.
    split; [|done]. destruct (rest it); cbn; [by rewrite drop_nil|done].
  - rewrite (invalid_rest _ Ho V). by rewrite drop_nil.
Qed.

(** The default methods on what the iterator has left. *)
Lemma At_rest (it : I) (dflt : R) pos : it_ok it -> At pos (Some it) dflt = Some (from_option snd dflt (rest it !! pos)).
Proof.
  intros Ho. unfold At. destruct (advance_rest pos it Ho) as [E Ho'].
  destruct (rest it !! pos) as [e|] eqn:El.
  - rewrite (drop_S _ _ _ El) in E. rewrite (valid_cons _ _ _ Ho' E).
    by rewrite (value_rest _ _ _ Ho' E).
  - rewrite drop_ge in E by (by apply lookup_ge_None_1).
    by rewrite (exhausted _ Ho' E).
Qed.
Lemma defaults_rest (it : I) (dflt : R) pos fuel :
  it_ok it -> (length (rest it) <= fuel)%nat ->
  Z.of_nat (length (rest it)) < 18446744073709551616 ->
  GetCount fuel it = Some (Z.of_nat (length (rest it))) /\
  At pos (Some it) dflt = Some (from_option snd dflt (rest it !! pos)).
Proof.
  intros Ho Hf Hr. split; [|by apply At_rest].
  unfold GetCount. by rewrite count_loop_rest by (done || lia).
Qed.

(** The default methods of [ListV] are correct for every iterator that
    keeps its promises: counting terminates with the number of remaining
    entries, [At] returns the entry at the position or the default value
    behind the end, and neither dereferences an exhausted iterator. *)
Theorem ListV_defaults (it : I) (dflt : R) pos fuel :
  it_ok it -> (length (rest it) <= fuel)%nat ->
  Z.of_nat (length (rest it)) < 18446744073709551616 ->
  GetCount fuel it = Some (Z.of_nat (length (rest it))) /\
  At pos (Some it) dflt = Some (from_option snd dflt (rest it !! pos)).
Proof. apply defaults_rest. Qed.
End ListV.
