(* ===== verification/MemCatalog.v ===== *)
(** * In-memory tables and their iterators

    Models the handlers and iterators of [include/vm/mem_catalog.h] and
    [src/vm/mem_catalog.cc]. The type of rows is abstract here: the handlers
    only store and move rows. A [std::deque] or [std::vector] is the list of
    its elements, front first; an iterator into it is a position. *)

From stdpp Require Import base numbers list option sorting.
From S2P Require Import Prelude TypeCodec Iterators.

Inductive OrderType := kDescOrder | kAscOrder | kNoneOrder.

Section MemCatalog.
Context {R : Type}.

(** ** Iterators *)

(** [MemTimeTableIterator]: positions of begin, end and current. *)
Record MemTimeTableIterator := mkMemTimeTableIterator {
  mt_table : list (Z * R); mt_start : nat; mt_end : nat; mt_iter : nat
}.

Definition MemTimeTableIterator_new (table : list (Z * R)) : MemTimeTableIterator :=
  mkMemTimeTableIterator table 0 (length table) 0.

Definition MemTimeTableIterator_range (table : list (Z * R)) (start end_ : nat)
  : MemTimeTableIterator := mkMemTimeTableIterator table start end_ start.

Definition mt_set (p : nat) (it : MemTimeTableIterator) : MemTimeTableIterator :=
  mkMemTimeTableIterator (mt_table it) (mt_start it) (mt_end it) p.

(** The loop of [Seek], from the position [p] with [n] entries to go. *)
Fixpoint mt_seek_loop (table : list (Z * R)) (ts : Z) (n p : nat) : nat :=
  match n with
  | O => p
  | S n' =>
      match table !! p with
      | Some (k, _) => if k <=? ts then p else mt_seek_loop table ts n' (S p)
      | None => p
      end
  end.

#[export] Instance MemTimeTableIterator_ops : RowIterator MemTimeTableIterator R := {
  Valid it := (mt_iter it <? mt_end it)%nat;
  Next it := mt_set (S (mt_iter it)) it;
  GetKey it := fst <$> mt_table it !! mt_iter it;
  GetValue it := snd <$> mt_table it !! mt_iter it;
  Seek ts it := mt_set (mt_seek_loop (mt_table it) ts (mt_end it - mt_start it) (mt_start it)) it;
  SeekToFirst it := mt_set (mt_start it) it
}.

(** [MemTableIterator]: the key is the number of the row. *)
Record MemTableIterator := mkMemTableIterator {
  ml_table : list R; ml_start : nat; ml_end : nat; ml_iter : nat; ml_key : Z
}.

Definition MemTableIterator_new (table : list R) : MemTableIterator :=
  mkMemTableIterator table 0 (length table) 0 0.

Definition MemTableIterator_range (table : list R) (start end_ : nat) : MemTableIterator :=
  mkMemTableIterator table start end_ start 0.

#[export] Instance MemTableIterator_ops : RowIterator MemTableIterator R := {
  Valid it := (ml_iter it <? ml_end it)%nat;
  Next it := mkMemTableIterator (ml_table it) (ml_start it) (ml_end it) (S (ml_iter it))
               (u64 (ml_key it + 1));
  GetKey it := Some (ml_key it);
  GetValue it := ml_table it !! ml_iter it;
  Seek ts it := mkMemTableIterator (ml_table it) (ml_start it) (ml_end it)
                  (ml_start it + Z.to_nat ts) ts;
  SeekToFirst it := mkMemTableIterator (ml_table it) (ml_start it) (ml_end it) (ml_start it) 0
}.

(** [RequestUnionIterator]: the request row, then the rows of the window. *)
Record RequestUnionIterator (W : Type) := mkRequestUnionIterator {
  ru_request_ts : Z; ru_request_row : R; ru_window_iter : W; ru_window_iter_start : bool
}.
Arguments mkRequestUnionIterator {W}.
Arguments ru_request_ts {W}.
Arguments ru_request_row {W}.
Arguments ru_window_iter {W}.
Arguments ru_window_iter_start {W}.

Definition RequestUnionIterator_new {W} (ts : Z) (row : R) (w : W) : RequestUnionIterator W :=
  mkRequestUnionIterator ts row w false.

#[export] Instance RequestUnionIterator_ops {W} `{RowIterator W R} :
  RowIterator (RequestUnionIterator W) R := {
  Valid it := if ru_window_iter_start it then Valid (ru_window_iter it) else true;
  Next it :=
    if ru_window_iter_start it
    then mkRequestUnionIterator (ru_request_ts it) (ru_request_row it)
           (Next (ru_window_iter it)) true
    else mkRequestUnionIterator (ru_request_ts it) (ru_request_row it)
           (ru_window_iter it) true;
  GetKey it := if ru_window_iter_start it then GetKey (ru_window_iter it)
               else Some (ru_request_ts it);
  GetValue it := if ru_window_iter_start it then GetValue (ru_window_iter it)
                 else Some (ru_request_row it);
  Seek key it :=
    if ru_request_ts it <=? key
    then mkRequestUnionIterator (ru_request_ts it) (ru_request_row it)
           (SeekToFirst (ru_window_iter it)) false
    else mkRequestUnionIterator (ru_request_ts it) (ru_request_row it)
           (Seek key (ru_window_iter it)) true;
  SeekToFirst it :=
    mkRequestUnionIterator (ru_request_ts it) (ru_request_row it)
      (SeekToFirst (ru_window_iter it)) false
}.

(** [RequestUnionTableHandler::GetRawIterator]: null for a null iterator of
    the window. *)
Definition RequestUnion_GetRawIterator {W} (ts : Z) (row : R) (window_iter : option W)
  : option (RequestUnionIterator W) :=
  RequestUnionIterator_new ts row <$> window_iter.

(** ** Table handlers *)

(** [MemTimeTableHandler]: the deque and its order. *)
Record MemTimeTableHandler := mkMemTimeTableHandler {
  th_table : list (Z * R); th_order_type : OrderType
}.

Definition MemTimeTableHandler_new : MemTimeTableHandler := mkMemTimeTableHandler [] kNoneOrder.

(** The deque operations; [pop_*], [front] and [back] on an empty deque are
    undefined. *)
Definition pop_back (t : list (Z * R)) : option (list (Z * R)) :=
  match t with [] => None | _ => Some (removelast t) end.
Definition pop_front (t : list (Z * R)) : option (list (Z * R)) :=
  match t with [] => None | _ :: t' => Some t' end.

Definition th_set (t : list (Z * R)) (h : MemTimeTableHandler) : MemTimeTableHandler :=
  mkMemTimeTableHandler t (th_order_type h).

Definition AddRow (key : Z) (row : R) (h : MemTimeTableHandler) : MemTimeTableHandler :=
  th_set (th_table h ++ [(key, row)]) h.
Definition AddFrontRow (key : Z) (row : R) (h : MemTimeTableHandler) : MemTimeTableHandler :=
  th_set ((key, row) :: th_table h) h.
Definition PopBackRow (h : MemTimeTableHandler) : option MemTimeTableHandler :=
  t ← pop_back (th_table h); Some (th_set t h).
Definition PopFrontRow (h : MemTimeTableHandler) : option MemTimeTableHandler :=
  t ← pop_front (th_table h); Some (th_set t h).
Definition GetFrontRow (h : MemTimeTableHandler) : option (Z * R) := head (th_table h).
Definition GetBackRow (h : MemTimeTableHandler) : option (Z * R) := last (th_table h).
Definition th_GetCount (h : MemTimeTableHandler) : Z := Z.of_nat (length (th_table h)).
Definition th_At (pos : Z) (dflt : R) (h : MemTimeTableHandler) : R :=
  if pos <? Z.of_nat (length (th_table h))
  then from_option snd dflt (th_table h !! Z.to_nat pos) else dflt.
Definition th_GetIterator (h : MemTimeTableHandler) : MemTimeTableIterator :=
  MemTimeTableIterator_new (th_table h).

Definition reverse_order (o : OrderType) : OrderType :=
  match o with kAscOrder => kDescOrder | kDescOrder => kAscOrder | kNoneOrder => kNoneOrder end.

Definition th_Reverse (h : MemTimeTableHandler) : MemTimeTableHandler :=
  mkMemTimeTableHandler (rev (th_table h)) (reverse_order (th_order_type h)).

(** [Sort]: [std::sort] with a comparator on the keys, a parameter since its
    result is not determined for equal keys. *)
Section Sort.
Context (std_sort : ((Z * R) -> (Z * R) -> bool) -> list (Z * R) -> list (Z * R)).

Definition AscComparor (i j : Z * R) : bool := i.1 <? j.1.
Definition DescComparor (i j : Z * R) : bool := i.1 >? j.1.

Definition th_Sort (is_asc : bool) (h : MemTimeTableHandler) : MemTimeTableHandler :=
  if is_asc
  then mkMemTimeTableHandler (std_sort AscComparor (th_table h)) kAscOrder
  else mkMemTimeTableHandler (std_sort DescComparor (th_table h)) kDescOrder.

(** ** Partitions *)

(** [MemPartitionHandler]: a [std::map] from keys to segments, in descending
    order of the keys. *)
Record MemPartitionHandler := mkMemPartitionHandler {
  ph_partitions : list (list Z * list (Z * R)); ph_order_type : OrderType
}.

Definition MemPartitionHandler_new : MemPartitionHandler := mkMemPartitionHandler [] kNoneOrder.

(** [std::map::find]: the position of the key, or of the end. *)
Fixpoint seg_find (key : list Z) (m : list (list Z * list (Z * R))) : nat :=
  match m with
  | [] => 0
  | (k, _) :: m' => if bool_decide (k = key) then 0%nat else S (seg_find key m')
  end.

(** [std::map::insert] of a new key. *)
Fixpoint seg_insert (key : list Z) (t : list (Z * R)) (m : list (list Z * list (Z * R)))
  : list (list Z * list (Z * R)) :=
  match m with
  | [] => [(key, t)]
  | (k, t') :: m' => if lex_compare k key <? 0 then (key, t) :: m
                     else (k, t') :: seg_insert key t m'
  end.

Definition ph_AddRow (key : list Z) (ts : Z) (row : R) (p : MemPartitionHandler)
  : bool * MemPartitionHandler :=
  let m := ph_partitions p in
  let iter := seg_find key m in
  (true, mkMemPartitionHandler
     (match m !! iter with
      | None => seg_insert key [(ts, row)] m
      | Some (k, t) => <[iter := (k, t ++ [(ts, row)])]> m
      end) (ph_order_type p)).

Definition ph_Sort (is_asc : bool) (p : MemPartitionHandler) : MemPartitionHandler :=
  let cmp := if is_asc then AscComparor else DescComparor in
  mkMemPartitionHandler ((fun s => (s.1, std_sort cmp s.2)) <$> ph_partitions p)
    (if is_asc then kAscOrder else kDescOrder).

Definition ph_Reverse (p : MemPartitionHandler) : MemPartitionHandler :=
  mkMemPartitionHandler ((fun s => (s.1, rev s.2)) <$> ph_partitions p)
    (reverse_order (ph_order_type p)).

Definition ph_GetCount (p : MemPartitionHandler) : Z := Z.of_nat (length (ph_partitions p)).
End Sort.

(** [MemWindowIterator]: a position in the map. *)
Record MemWindowIterator := mkMemWindowIterator {
  mw_partitions : list (list Z * list (Z * R)); mw_iter : nat
}.

Definition ph_GetWindowIterator (p : MemPartitionHandler) : MemWindowIterator :=
  mkMemWindowIterator (ph_partitions p) 0.
Definition mw_Seek (key : list Z) (it : MemWindowIterator) : MemWindowIterator :=
  mkMemWindowIterator (mw_partitions it) (seg_find key (mw_partitions it)).
Definition mw_SeekToFirst (it : MemWindowIterator) : MemWindowIterator :=
  mkMemWindowIterator (mw_partitions it) 0.
Definition mw_Next (it : MemWindowIterator) : MemWindowIterator :=
  mkMemWindowIterator (mw_partitions it) (S (mw_iter it)).
Definition mw_Valid (it : MemWindowIterator) : bool :=
  negb (bool_decide (mw_iter it = length (mw_partitions it))).
Definition mw_GetValue (it : MemWindowIterator) : option MemTimeTableIterator :=
  s ← mw_partitions it !! mw_iter it; Some (MemTimeTableIterator_new s.2).
Definition mw_GetKey (it : MemWindowIterator) : option (list Z) :=
  s ← mw_partitions it !! mw_iter it; Some s.1.

(** [MemSegmentHandler]: the rows of one key of a partition. *)
Definition seg_GetIterator (p : MemPartitionHandler) (key : list Z)
  : option MemTimeTableIterator :=
  let iter := mw_Seek key (ph_GetWindowIterator p) in
  if mw_Valid iter then mw_GetValue iter else None.

Definition seg_GetCount (fuel : nat) (p : MemPartitionHandler) (key : list Z) : option Z :=
  match seg_GetIterator p key with
  | None => Some 0
  | Some it => count_loop fuel 0 (SeekToFirst it)
  end.

Definition seg_At (pos : nat) (dflt : R) (p : MemPartitionHandler) (key : list Z) : option R :=
  match seg_GetIterator p key with
  | None => Some dflt
  | Some it =>
      let it' := advance_loop pos (SeekToFirst it) in
      if Valid it' then GetValue it' else Some dflt
  end.

(** [MemTableHandler]: a vector of rows. *)
Record MemTableHandler := mkMemTableHandler { tb_table : list R; tb_order_type : OrderType }.

Definition tb_AddRow (row : R) (h : MemTableHandler) : MemTableHandler :=
  mkMemTableHandler (tb_table h ++ [row]) (tb_order_type h).
Definition tb_Resize (size : nat) (dflt : R) (h : MemTableHandler) : MemTableHandler :=
  mkMemTableHandler (take size (tb_table h) ++ replicate (size - length (tb_table h)) dflt)
    (tb_order_type h).
Definition tb_SetRow (idx : Z) (row : R) (h : MemTableHandler) : bool * MemTableHandler :=
  if idx >=? Z.of_nat (length (tb_table h)) then (false, h)
  else (true, mkMemTableHandler (<[Z.to_nat idx := row]> (tb_table h)) (tb_order_type h)).
Definition tb_Reverse (h : MemTableHandler) : MemTableHandler :=
  mkMemTableHandler (rev (tb_table h)) (reverse_order (tb_order_type h)).
Definition tb_GetCount (h : MemTableHandler) : Z := Z.of_nat (length (tb_table h)).
Definition tb_At (pos : Z) (dflt : R) (h : MemTableHandler) : R :=
  if pos <? Z.of_nat (length (tb_table h))
  then default dflt (tb_table h !! Z.to_nat pos) else dflt.
Definition tb_GetIterator (h : MemTableHandler) : MemTableIterator :=
  MemTableIterator_new (tb_table h).

(** [ConcatTableHandler]: rows of the left table with the row of the same
    position of the right table, or an empty one; the table is filled on the
    first access. *)
Section Concat.
Context {L I2 : Type} `{RowIterator L R} `{RowIterator I2 R}.
Context (concat : R -> R -> R) (empty_row : R).

(** The loop of [SyncValue]; [None] in the result for too little fuel or an
    exhausted iterator that is dereferenced. *)
Fixpoint sync_loop (fuel : nat) (left_iter : L) (right_iter : option I2)
    (h : MemTimeTableHandler) : option MemTimeTableHandler :=
  if Valid left_iter then
    match fuel with
    | O => None
    | S fuel' =>
        k ← GetKey left_iter; l ← GetValue left_iter;
        match right_iter with
        | Some r =>
            if Valid r
            then v ← GetValue r;
                 sync_loop fuel' (Next left_iter) (Some (Next r)) (AddRow k (concat l v) h)
            else sync_loop fuel' (Next left_iter) right_iter (AddRow k (concat l empty_row) h)
        | None =>
            sync_loop fuel' (Next left_iter) right_iter (AddRow k (concat l empty_row) h)
        end
    end
  else Some h.

Record ConcatTableHandler := mkConcatTableHandler {
  ct_running : bool; ct_base : MemTimeTableHandler;
  ct_left : option L; ct_right : option I2
}.

(** [SyncValue]; the iterators are those of the two tables, null when the
    table or its iterator is. *)
Definition SyncValue (fuel : nat) (c : ConcatTableHandler) : option MemTimeTableHandler :=
  match ct_left c with
  | None => Some (ct_base c)
  | Some l => sync_loop fuel (SeekToFirst l) (ct_right c) (ct_base c)
  end.

(** What [At], [GetIterator] and [GetCount] do first. *)
Definition ct_sync (fuel : nat) (c : ConcatTableHandler) : option ConcatTableHandler :=
  if ct_running c
  then h ← SyncValue fuel c; Some (mkConcatTableHandler false h (ct_left c) (ct_right c))
  else Some c.

Definition ct_At (fuel : nat) (pos : Z) (dflt : R) (c : ConcatTableHandler)
  : option (R * ConcatTableHandler) :=
  c' ← ct_sync fuel c; Some (th_At pos dflt (ct_base c'), c').
Definition ct_GetCount (fuel : nat) (c : ConcatTableHandler)
  : option (Z * ConcatTableHandler) :=
  c' ← ct_sync fuel c; Some (th_GetCount (ct_base c'), c').
Definition ct_GetIterator (fuel : nat) (c : ConcatTableHandler)
  : option (MemTimeTableIterator * ConcatTableHandler) :=
  c' ← ct_sync fuel c; Some (th_GetIterator (ct_base c'), c').
End Concat.
End MemCatalog.

Arguments MemTimeTableIterator : clear implicits.
Arguments MemTableIterator : clear implicits.
Arguments RequestUnionIterator : clear implicits.
Arguments MemTimeTableHandler : clear implicits.
Arguments MemPartitionHandler : clear implicits.
Arguments MemWindowIterator : clear implicits.
Arguments MemTableHandler : clear implicits.
Arguments ConcatTableHandler : clear implicits.
Arguments mkRequestUnionIterator {R W}.
Arguments ru_request_ts {R W}.
Arguments ru_request_row {R W}.
Arguments ru_window_iter {R W}.
Arguments ru_window_iter_start {R W}.
