(* ===== verification/MemCatalogProof.v ===== *)
(** * The in-memory handlers keep their promises

    The iterators of [MemCatalog] are instances of the iterator laws; the
    segment and concatenation handlers, which only use iterators, are proved
    from the laws. *)

From stdpp Require Import base numbers list option sorting.
From S2P Require Import Prelude TypeCodec Iterators MemCatalog.

Section Laws.
Context {R : Type}.

(** ** Time tables *)

Definition slice (b e : nat) (l : list (Z * R)) : list (Z * R) := drop b (take e l).

Lemma slice_cons b e (l : list (Z * R)) x :
  (b < e)%nat -> l !! b = Some x -> slice b e l = x :: slice (S b) e l.
Proof.
  intros Hb Hx. unfold slice. apply drop_S. by rewrite lookup_take_lt.
Qed.

Lemma slice_nil b e (l : list (Z * R)) : (e <= b)%nat -> slice b e l = [].
Proof. intros. unfold slice. apply drop_ge. rewrite length_take. lia. Qed.

Lemma mt_seek_slice (table : list (Z * R)) ts n : forall p,
  (p + n <= length table)%nat ->
  slice (mt_seek_loop table ts n p) (p + n) table =
  skip_while (fun e => ts <? e.1) (slice p (p + n) table).
Proof.
  induction n as [|n IH]; intros p Hp; cbn [mt_seek_loop].
  - by rewrite !slice_nil by lia.
  - destruct (lookup_lt_is_Some_2 table p) as [[k r] Hx]; [lia|]. rewrite Hx.
    rewrite (slice_cons p (p + S n) table (k, r) ltac:(lia) Hx). cbn [skip_while fst].
    rewrite (Z.ltb_antisym k ts). destruct (k <=? ts); cbn [negb].
    + by rewrite <- slice_cons by (done || lia).
    + replace (p + S n)%nat with (S p + n)%nat by lia. apply IH. lia.
Qed.

#[export] Program Instance MemTimeTableIterator_laws :
  RowIteratorLaws (MemTimeTableIterator R) R := {
  it_ok i := (mt_start i <= mt_end i <= length (mt_table i))%nat;
  all i := slice (mt_start i) (mt_end i) (mt_table i);
  rest i := slice (mt_iter i) (mt_end i) (mt_table i)
}.
Next Obligation.
  intros i [? ?]. cbn -[Nat.ltb]. rewrite Nat.ltb_lt. split; intros Hv.
  - destruct (lookup_lt_is_Some_2 (mt_table i) (mt_iter i)) as [x Hx]; [lia|].
    by rewrite (slice_cons _ _ _ _ Hv Hx).
  - destruct (decide (mt_iter i < mt_end i)%nat); [done|].
    by rewrite slice_nil in Hv by lia.
Qed.
Next Obligation. done. Qed.
Next Obligation.
  intros i Ho Hv. cbn -[Nat.ltb] in *. apply Nat.ltb_lt in Hv.
  destruct (lookup_lt_is_Some_2 (mt_table i) (mt_iter i)) as [x Hx]; [lia|].
  by rewrite (slice_cons _ _ _ _ Hv Hx).
Qed.
Next Obligation. done. Qed.
Next Obligation.
  intros i e l Ho E. cbn in *. unfold slice in E.
  assert (take (mt_end i) (mt_table i) !! mt_iter i = Some e) as Hx.
  { rewrite <- (Nat.add_0_r (mt_iter i)), <- lookup_drop, E. done. }
  apply lookup_take_Some in Hx as [-> _]. done.
Qed.
Next Obligation.
  intros i e l Ho E. cbn in *. unfold slice in E.
  assert (take (mt_end i) (mt_table i) !! mt_iter i = Some e) as Hx.
  { rewrite <- (Nat.add_0_r (mt_iter i)), <- lookup_drop, E. done. }
  apply lookup_take_Some in Hx as [-> _]. done.
Qed.
Next Obligation. done. Qed.
Next Obligation. done. Qed.
Next Obligation. done. Qed.

#[export] Instance MemTimeTableIterator_seek : TimeSeek (MemTimeTableIterator R) R.
Proof.
  constructor; [|done|done]. intros ts i [? ?]. cbn.
  pose proof (mt_seek_slice (mt_table i) ts (mt_end i - mt_start i) (mt_start i)) as E.
  replace (mt_start i + (mt_end i - mt_start i))%nat with (mt_end i) in E by lia.
  apply E. lia.
Qed.

(** ** Tables *)

Definition numbered (n : Z) (l : list R) : list (Z * R) :=
  imap (fun j r => (n + Z.of_nat j, r)) l.

Lemma numbered_cons n r l : numbered n (r :: l) = (n, r) :: numbered (n + 1) l.
Proof.
  unfold numbered. cbn [imap]. f_equal; [by rewrite Z.add_0_r|].
  apply imap_ext. intros j x _. cbn. f_equal. lia.
Qed.

#[export] Program Instance MemTableIterator_laws :
  RowIteratorLaws (MemTableIterator R) R := {
  it_ok i := (ml_start i <= ml_iter i /\ ml_end i <= length (ml_table i))%nat /\
    ml_key i = Z.of_nat (ml_iter i - ml_start i) /\
    Z.of_nat (ml_end i) < 18446744073709551616;
  all i := numbered 0 (drop (ml_start i) (take (ml_end i) (ml_table i)));
  rest i := numbered (ml_key i) (drop (ml_iter i) (take (ml_end i) (ml_table i)))
}.
Next Obligation.
  intros i ((? & ?) & ? & ?). cbn -[Nat.ltb]. rewrite Nat.ltb_lt. split; intros Hv.
  - destruct (lookup_lt_is_Some_2 (take (ml_end i) (ml_table i)) (ml_iter i)) as [x Hx];
      [rewrite length_take; lia|]. rewrite (drop_S _ _ _ Hx). by rewrite numbered_cons.
  - destruct (decide (ml_iter i < ml_end i)%nat); [done|].
    by rewrite drop_ge in Hv by (rewrite length_take; lia).
Qed.
Next Obligation.
  intros i ((? & ?) & Hk & ?) Hv. cbn -[Nat.ltb] in *. apply Nat.ltb_lt in Hv. rewrite Hk.
  rewrite u64_small by lia. lia.
Qed.
Next Obligation.
  intros i ((? & ?) & Hk & ?) Hv. cbn -[Nat.ltb] in *. apply Nat.ltb_lt in Hv.
  destruct (lookup_lt_is_Some_2 (take (ml_end i) (ml_table i)) (ml_iter i)) as [x Hx];
    [rewrite length_take; lia|].
  rewrite (drop_S _ _ _ Hx), numbered_cons, u64_small by lia. done.
Qed.
Next Obligation. done. Qed.
Next Obligation.
  intros i e l Ho E. cbn in *. destruct (drop _ _); [done|].
  rewrite numbered_cons in E. by injection E as <- _.
Qed.
Next Obligation.
  intros i e l Ho E. cbn in *.
  destruct (drop (ml_iter i) _) as [|x l'] eqn:Ed; [done|].
  rewrite numbered_cons in E. injection E as <- _.
  assert (take (ml_end i) (ml_table i) !! ml_iter i = Some x) as Hx.
  { rewrite <- (Nat.add_0_r (ml_iter i)), <- lookup_drop, Ed. done. }
  by apply lookup_take_Some in Hx as [-> _].
Qed.
Next Obligation. intros i (? & ? & ?). cbn. rewrite Nat.sub_diag. repeat split; lia. Qed.
Next Obligation. done. Qed.
Next Obligation. done. Qed.

(** ** The union of a request row and a window *)

#[export] Program Instance RequestUnionIterator_laws {W} `{RowIteratorLaws W R} :
  RowIteratorLaws (RequestUnionIterator R W) R := {
  it_ok i := it_ok (ru_window_iter i);
  all i := (ru_request_ts i, ru_request_row i) :: all (ru_window_iter i);
  rest i := if ru_window_iter_start i then rest (ru_window_iter i)
            else (ru_request_ts i, ru_request_row i) :: rest (ru_window_iter i)
}.
Next Obligation.
  intros W ?? i Ho. cbn. destruct (ru_window_iter_start i); [by apply valid_rest|done].
Qed.
Next Obligation.
  intros W ?? i Ho Hv. cbn in *. destruct (ru_window_iter_start i); cbn; [by apply next_ok|done].
Qed.
Next Obligation.
  intros W ?? i Ho Hv. cbn in *. destruct (ru_window_iter_start i); cbn; [by apply next_rest|done].
Qed.
Next Obligation.
  intros W ?? i Ho Hv. cbn in *. destruct (ru_window_iter_start i); cbn; [by rewrite next_all|done].
Qed.
Next Obligation.
  intros W ?? i e l Ho E. cbn in *. destruct (ru_window_iter_start i);
    [by eapply key_rest|by injection E as <- _].
Qed.
Next Obligation.
  intros W ?? i e l Ho E. cbn in *. destruct (ru_window_iter_start i);
    [by eapply value_rest|by injection E as <- _].
Qed.
Next Obligation. intros W ?? i Ho. cbn in *. by apply first_ok. Qed.
Next Obligation. intros W ?? i Ho. cbn in *. by rewrite first_rest. Qed.
Next Obligation. intros W ?? i Ho. cbn in *. by rewrite first_all. Qed.

#[export] Instance RequestUnionIterator_seek {W} `{TimeSeek W R} :
  TimeSeek (RequestUnionIterator R W) R.
Proof.
  constructor; intros ts i Ho; cbn in *.
  - rewrite (Z.ltb_antisym (ru_request_ts i) ts). destruct (ru_request_ts i <=? ts); cbn.
    + by rewrite first_rest.
    + by apply seek_rest.
  - destruct (ru_request_ts i <=? ts); cbn; [by apply first_ok|by apply seek_ok].
  - destruct (ru_request_ts i <=? ts); cbn; [by rewrite first_all|by rewrite seek_all].
Qed.
End Laws.

Lemma ListV_defaults_witness :
  GetCount 5 (MemTimeTableIterator_new [(9, 1); (7, 2)]) = Some 2 /\
  At 1 (Some (MemTimeTableIterator_new [(9, 1); (7, 2)])) 0 = Some 2.
Proof.
  destruct (ListV_defaults (MemTimeTableIterator_new [(9, 1); (7, 2)]) 0 1 5) as [H1 H2];
    [cbn; lia..|].
  split; [rewrite H1; reflexivity|rewrite H2; reflexivity].
Defined.

(** The table of a request union yields the request row first and then the
    rows of the window, whatever window iterator it is given; and [Seek]
    moves to the first entry of this sequence that is not newer than the key,
    so the request row is skipped exactly when it is newer. *)
Theorem RequestUnion_enumerates {R W} `{TimeSeek W R} (ts : Z) (row : R) (w : W) key fuel :
  it_ok w -> (length (all w) < fuel)%nat -> rest w = all w ->
  let it := RequestUnionIterator_new ts row w in
  drain fuel it = Some ((ts, row) :: all w) /\
  drain fuel (Seek key it) = Some (skip_while (fun e => key <? e.1) ((ts, row) :: all w)).
Proof.
  intros Ho Hf Hr it. split.
  - rewrite drain_rest; subst it; cbn; rewrite ?Hr; (done || lia).
  - pose proof (seek_rest key it Ho : rest (Seek key it) = _) as E. cbn [all] in E.
    rewrite drain_rest; [by rewrite E|by apply (seek_ok key it)|]. rewrite E.
    etrans; [apply length_skip_while|]. cbn. lia.
Qed.

Lemma RequestUnion_enumerates_witness :
  drain 5 (Seek 8 (RequestUnionIterator_new 10 0 (MemTimeTableIterator_new [(9, 1); (7, 2)]))) =
  Some [(7, 2)].
Proof.
  destruct (RequestUnion_enumerates 10 0 (MemTimeTableIterator_new [(9, 1); (7, 2)]) 8 5)
    as [_ H]; [cbn; lia|cbn; lia|reflexivity|].
  rewrite H. reflexivity.
Defined.

(** ** Concatenation *)

Section Concat.
Context {R L I2 : Type} `{RowIteratorLaws L R} `{RowIteratorLaws I2 R}.
Context (concat : R -> R -> R) (empty_row : R).

(** The rows of the result: left rows with the right row of the same number. *)
Fixpoint concat_rows (l r : list (Z * R)) : list (Z * R) :=
  match l with
  | [] => []
  | (k, x) :: l' => (k, concat x (from_option snd empty_row (head r))) :: concat_rows l' (tail r)
  end.

Lemma sync_loop_rows fuel : forall (l : L) (r : option I2) h,
  it_ok l -> from_option it_ok True r -> (length (rest l) <= fuel)%nat ->
  sync_loop concat empty_row fuel l r h =
  Some (th_set (th_table h ++ concat_rows (rest l) (from_option rest [] r)) h).
Proof.
  induction fuel as [|fuel IH]; intros l r h Hl Hr Hf; cbn [sync_loop];
    destruct (rest l) as [|[k x] l'] eqn:E;
    try (rewrite (exhausted _ Hl E); cbn; rewrite app_nil_r; by destruct h).
  - cbn in Hf. lia.
  - rewrite (valid_cons _ _ _ Hl E), (key_rest _ _ _ Hl E), (value_rest _ _ _ Hl E).
    destruct (rest_next _ _ _ Hl E) as [Er Hl']. cbn [mbind option_bind fst snd].
    cbn [length] in Hf. cbn [concat_rows].
    destruct r as [r|]; cbn [from_option].
    + destruct (rest r) as [|[k' y] r'] eqn:E'.
      * rewrite (exhausted _ Hr E'). rewrite IH by (rewrite ?Er; (done || lia)).
        cbn [from_option]. rewrite Er, E'. cbn. by rewrite <- app_assoc.
      * rewrite (valid_cons _ _ _ Hr E'), (value_rest _ _ _ Hr E').
        destruct (rest_next _ _ _ Hr E') as [Er' Hr']. cbn [mbind option_bind snd].
        rewrite IH by (rewrite ?Er; (done || lia)).
        cbn [from_option]. rewrite Er, Er'. cbn. by rewrite <- app_assoc.
    + rewrite IH by (rewrite ?Er; (done || lia)). rewrite Er. cbn. by rewrite <- app_assoc.
Qed.

(** A concatenated table is filled once, on its first access, with every
    left row joined to the right row of the same position, or to an empty row
    when the right side is shorter or missing; later accesses return the same
    table without filling it again. *)
Theorem ConcatTable_sync (l : L) (r : option I2) fuel dflt pos :
  it_ok l -> from_option it_ok True r -> (length (all l) <= fuel)%nat ->
  let rows := concat_rows (all l) (from_option rest [] r) in
  let c := mkConcatTableHandler true MemTimeTableHandler_new (Some l) r in
  exists c', ct_sync concat empty_row fuel c = Some c' /\
    th_table (ct_base c') = rows /\
    ct_GetCount concat empty_row fuel c = Some (Z.of_nat (length (all l)), c') /\
    ct_At concat empty_row fuel pos dflt c = Some (th_At pos dflt (ct_base c'), c') /\
    ct_sync concat empty_row fuel c' = Some c'.
Proof.
  intros Hl Hr Hf rows c.
  assert (ct_sync concat empty_row fuel c =
    Some (mkConcatTableHandler false (mkMemTimeTableHandler rows kNoneOrder) (Some l) r)) as E.
  { unfold ct_sync, SyncValue, c. cbn [ct_running ct_left ct_right ct_base].
    rewrite sync_loop_rows by (rewrite ?first_rest; auto using first_ok).
    cbn [mbind option_bind]. by rewrite first_rest by done. }
  eexists. split; [exact E|]. cbn [ct_base]. split_and!; try done.
  - unfold ct_GetCount. rewrite E. cbn. unfold th_GetCount. cbn.
    assert (forall a b, length (concat_rows a b) = length a) as Hlen.
    { induction a as [|[] a IH]; intros; cbn; auto. }
    unfold rows. by rewrite Hlen.
  - unfold ct_At. by rewrite E.
Qed.
End Concat.

Lemma ConcatTable_sync_witness :
  ct_GetCount Z.add 100 3 (mkConcatTableHandler true MemTimeTableHandler_new
    (Some (MemTimeTableIterator_new [(9, 1); (7, 2)])) (Some (MemTableIterator_new [5]))) =
  Some (2, mkConcatTableHandler false (mkMemTimeTableHandler [(9, 6); (7, 102)] kNoneOrder)
    (Some (MemTimeTableIterator_new [(9, 1); (7, 2)])) (Some (MemTableIterator_new [5]))).
Proof.
  destruct (ConcatTable_sync Z.add 100 (MemTimeTableIterator_new [(9, 1); (7, 2)])
    (Some (MemTableIterator_new [5])) 3 0 0) as (c' & E & _ & Ec & _); [cbn; lia|cbn; lia|cbn; lia|].
  rewrite Ec. vm_compute in E. by injection E as <-.
Defined.

(** ** Partitions *)

Section Partition.
Context {R : Type}.
Implicit Types m : list (list Z * list (Z * R)).

(** The segment of a key. *)
Definition seg_get (key : list Z) m : option (list (Z * R)) := snd <$> m !! seg_find key m.

Lemma seg_get_nil key : seg_get key (@nil (list Z * list (Z * R))) = None.
Proof. done. Qed.

Lemma seg_get_cons key k t m :
  seg_get key ((k, t) :: m) = if decide (k = key) then Some t else seg_get key m.
Proof. unfold seg_get. cbn [seg_find]. case_bool_decide; by case_decide. Qed.

Lemma seg_get_insert key t m key' :
  seg_get key m = None ->
  seg_get key' (seg_insert key t m) = if decide (key = key') then Some t else seg_get key' m.
Proof.
  induction m as [|[k t'] m IH]; cbn [seg_insert]; intros Hn.
  - rewrite seg_get_cons. by case_decide.
  - rewrite seg_get_cons in Hn. case_decide; [done|].
    case_if; rewrite !seg_get_cons.
    + by repeat case_decide.
    + rewrite IH by done. repeat case_decide; try done. congruence.
Qed.

Lemma seg_get_update key f m key' s :
  m !! seg_find key m = Some s ->
  seg_get key' (<[seg_find key m := (s.1, f s.2)]> m) =
  if decide (key = key') then Some (f s.2) else seg_get key' m.
Proof.
  revert s. induction m as [|[k t] m IH]; intros s; [done|]. cbn [seg_find].
  case_bool_decide as E.
  - cbn. intros [= <-]. cbn. rewrite !seg_get_cons. subst. by case_decide.
  - intros Hs. change (m !! seg_find key m = Some s) in Hs.
    assert (forall x, <[S (seg_find key m) := x]> ((k, t) :: m) =
      (k, t) :: <[seg_find key m := x]> m) as -> by done.
    rewrite !seg_get_cons, (IH s) by done. repeat case_decide; try done. congruence.
Qed.

Lemma ph_AddRow_get key ts row p key' :
  seg_get key' (ph_partitions (ph_AddRow key ts row p).2) =
  if decide (key = key')
  then Some (default [] (seg_get key (ph_partitions p)) ++ [(ts, row)])
  else seg_get key' (ph_partitions p).
Proof.
  unfold ph_AddRow. cbn [snd ph_partitions].
  destruct (ph_partitions p !! seg_find key (ph_partitions p)) as [[k t]|] eqn:E.
  - pose proof (seg_get_update key (fun t => t ++ [(ts, row)]) _ key' _ E) as Hu.
    cbn [fst snd] in Hu. rewrite Hu. unfold seg_get at 2. by rewrite E.
  - rewrite seg_get_insert by (unfold seg_get; by rewrite E).
    unfold seg_get at 2. by rewrite E.
Qed.

(** Keys in strictly descending order. *)
Definition keys_sorted m : Prop := StronglySorted (fun a b => lex_compare b.1 a.1 < 0) m.

Lemma keys_sorted_insert key t m :
  seg_get key m = None -> keys_sorted m -> keys_sorted (seg_insert key t m).
Proof.
  intros Hn Hs. induction Hs as [|[k t'] m Hs IH Hf]; cbn [seg_insert].
  - by repeat constructor.
  - rewrite seg_get_cons in Hn. case_decide as Hk; [done|]. case_if.
    + constructor; [by constructor|]. constructor; [done|].
      eapply Forall_impl; [exact Hf|]. intros [k2 t2] H2. cbn in *.
      by eapply lex_compare_trans.
    + constructor; [by apply IH|].
      assert (lex_compare key k < 0) as Hlt.
      { pose proof (lex_compare_antisym k key). pose proof (lex_compare_eq k key).
        assert (lex_compare k key <> 0) by (by rewrite H0). lia. }
      clear -Hf Hlt. induction m as [|[k2 t2] m IH]; cbn [seg_insert].
      * by repeat constructor.
      * apply Forall_cons_1 in Hf as [? ?]. case_if; repeat constructor; auto.
Qed.

Lemma keys_sorted_update i k t t' m :
  m !! i = Some (k, t) -> keys_sorted m -> keys_sorted (<[i := (k, t')]> m).
Proof.
  intros Hi Hs. revert i Hi. induction Hs as [|[k2 t2] m Hs IH Hf]; intros [|i] Hi; try done; cbn in *.
  - injection Hi as -> ->. constructor; [done|]. exact Hf.
  - constructor; [by apply IH|]. apply Forall_insert; [done|].
    by apply (Forall_lookup_1 _ _ _ _ Hf Hi).
Qed.

(** Rows added one after the other. *)
Definition add_rows (rows : list (list Z * Z * R)) (p : MemPartitionHandler R)
  : MemPartitionHandler R :=
  foldl (fun p r => (ph_AddRow r.1.1 r.1.2 r.2 p).2) p rows.

(** What was added under a key, in order. *)
Definition rows_of (key : list Z) (rows : list (list Z * Z * R)) : list (Z * R) :=
  (fun r => (r.1.2, r.2)) <$> filter (fun r => r.1.1 = key) rows.

Lemma add_rows_get key rows p :
  seg_get key (ph_partitions (add_rows rows p)) =
  match seg_get key (ph_partitions p), rows_of key rows with
  | None, [] => None
  | o, l => Some (default [] o ++ l)
  end.
Proof.
  revert p. induction rows as [|[[k ts] r] rows IH]; intros p; cbn [add_rows foldl].
  - unfold rows_of. cbn. destruct (seg_get key (ph_partitions p)); [|done].
    by rewrite app_nil_r.
  - change (foldl _ _ rows) with (add_rows rows (ph_AddRow k ts r p).2). rewrite IH, ph_AddRow_get. cbn [fst snd].
    unfold rows_of. rewrite filter_cons. cbn [fst]. repeat case_decide; try done; subst.
    + cbn. rewrite <- app_assoc. destruct (seg_get key (ph_partitions p)); done.
Qed.

Lemma add_rows_sorted rows p :
  keys_sorted (ph_partitions p) -> keys_sorted (ph_partitions (add_rows rows p)).
Proof.
  revert p. induction rows as [|[[k ts] r] rows IH]; intros p Hs; [done|].
  cbn [add_rows foldl]. apply IH. unfold ph_AddRow. cbn.
  destruct (ph_partitions p !! seg_find k (ph_partitions p)) as [[k2 t2]|] eqn:E.
  - by eapply keys_sorted_update.
  - apply keys_sorted_insert; [unfold seg_get; by rewrite E|done].
Qed.

Lemma seg_find_le key m : (seg_find key m <= length m)%nat.
Proof. induction m as [|[] m IH]; cbn; [lia|]. case_bool_decide; cbn; lia. Qed.

Lemma seg_GetIterator_get p key :
  seg_GetIterator p key = MemTimeTableIterator_new <$> seg_get key (ph_partitions p).
Proof.
  unfold seg_GetIterator, mw_Valid, mw_GetValue, seg_get. cbn [mw_Seek mw_iter mw_partitions ph_GetWindowIterator].
  pose proof (seg_find_le key (ph_partitions p)).
  destruct (ph_partitions p !! seg_find key (ph_partitions p)) as [s|] eqn:E.
  - rewrite bool_decide_false by (apply lookup_lt_Some in E; lia). done.
  - by destruct (negb _).
Qed.

(** A partitioned table groups rows by key: after any sequence of [AddRow]
    calls the segment of a key holds exactly the rows added under it, in the
    order they were added (counting and indexing a segment agree with that
    list, a key without rows has no segment), and the segments are in
    strictly descending order of their keys. *)
Theorem partition_groups rows key fuel pos (dflt : R) :
  (length rows <= fuel)%nat -> Z.of_nat (length rows) < 18446744073709551616 ->
  let p := add_rows rows MemPartitionHandler_new in
  let seg := rows_of key rows in
  keys_sorted (ph_partitions p) /\
  (seg_GetIterator p key = None <-> seg = []) /\
  seg_GetCount fuel p key = Some (Z.of_nat (length seg)) /\
  seg_At pos dflt p key = Some (from_option snd dflt (seg !! pos)).
Proof.
  intros Hf Hr p seg.
  assert (length seg <= length rows)%nat as Hl.
  { unfold seg, rows_of. rewrite length_fmap. apply length_filter. }
  pose proof (add_rows_get key rows MemPartitionHandler_new) as Hg. fold p seg in Hg.
  change (seg_get key (ph_partitions MemPartitionHandler_new)) with (@None (list (Z * R))) in Hg.
  split; [apply add_rows_sorted; constructor|].
  unfold seg_GetCount, seg_At. rewrite seg_GetIterator_get, Hg.
  destruct seg as [|e l]; cbn [fmap option_fmap option_map default]; [done|].
  rewrite app_nil_l. split; [done|].
  set (it := SeekToFirst (MemTimeTableIterator_new (e :: l))).
  assert (it_ok it) as Ho by (cbn; lia).
  assert (rest it = e :: l) as Er by (cbn; unfold slice; by rewrite take_ge by (cbn; lia)).
  split.
  - rewrite count_loop_rest; rewrite ?Er; (done || lia).
  - destruct (advance_rest pos it Ho) as [E Ho']. rewrite Er in E.
    destruct ((e :: l) !! pos) as [x|] eqn:El.
    + rewrite (drop_S _ _ _ El) in E. rewrite (valid_cons _ _ _ Ho' E).
      by rewrite (value_rest _ _ _ Ho' E).
    + rewrite drop_ge in E by (by apply lookup_ge_None_1). by rewrite (exhausted _ Ho' E).
Qed.
End Partition.

Lemma partition_groups_witness :
  seg_GetCount 9 (add_rows [([97], 1, 10); ([98], 2, 20); ([97], 3, 30)] MemPartitionHandler_new)
    [97] = Some 2.
Proof.
  destruct (partition_groups [([97], 1, 10); ([98], 2, 20); ([97], 3, 30)] [97] 9 0 0)
    as (_ & _ & H & _); [cbn; lia|cbn; lia|]. rewrite H. reflexivity.
Defined.

(** ** Order *)

Section Order.
Context {R : Type}.
Implicit Types cmp : (Z * R) -> (Z * R) -> bool.

(** What [std::sort] asks of its comparator, and what it guarantees. *)
Definition strict_weak cmp : Prop :=
  (forall a, cmp a a = false) /\
  (forall a b c, cmp a b = true -> cmp b c = true -> cmp a c = true) /\
  (forall a b c, cmp a b = false -> cmp b c = false -> cmp a c = false).

Definition sorts (std_sort : ((Z * R) -> (Z * R) -> bool) -> list (Z * R) -> list (Z * R)) : Prop :=
  forall cmp l, strict_weak cmp ->
    Permutation (std_sort cmp l) l /\
    StronglySorted (fun a b => cmp b a = false) (std_sort cmp l).

Context (std_sort : ((Z * R) -> (Z * R) -> bool) -> list (Z * R) -> list (Z * R)).
Context (Hsort : sorts std_sort).

(** The order tag of a table tells the truth. *)
Definition order_true (o : OrderType) (t : list (Z * R)) : Prop :=
  match o with
  | kAscOrder => StronglySorted (fun a b => a.1 <= b.1) t
  | kDescOrder => StronglySorted (fun a b => b.1 <= a.1) t
  | kNoneOrder => True
  end.

Lemma comparors_strict_weak : strict_weak AscComparor /\ strict_weak DescComparor.
Proof.
  unfold strict_weak, AscComparor, DescComparor. setoid_rewrite Z.gtb_ltb.
  setoid_rewrite Z.ltb_lt. setoid_rewrite Z.ltb_ge. split_and!; intros; lia.
Qed.

Lemma StronglySorted_mono {A} (P Q : A -> A -> Prop) l :
  (forall a b, P a b -> Q a b) -> StronglySorted P l -> StronglySorted Q l.
Proof.
  intros H Hs. induction Hs as [|a l Hs IH Hf]; constructor; [done|].
  eapply Forall_impl; [exact Hf|]. auto.
Qed.

Lemma StronglySorted_rev {A} (P : A -> A -> Prop) l :
  StronglySorted P l -> StronglySorted (flip P) (rev l).
Proof.
  intros Hs. induction Hs as [|a l Hs IH Hf]; cbn; [constructor|].
  clear Hs. assert (Forall (fun x => P a x) (rev l)) as Hr by (by apply Forall_rev).
  induction IH as [|x l' IH' IH2 Hf']; cbn; [by repeat constructor|].
  apply Forall_cons_1 in Hr as [? ?]. constructor; [auto|].
  apply Forall_app. split; [done|]. by repeat constructor.
Qed.

Lemma sort_order (is_asc : bool) t :
  Permutation (std_sort (if is_asc then AscComparor else DescComparor) t) t /\
  order_true (if is_asc then kAscOrder else kDescOrder)
    (std_sort (if is_asc then AscComparor else DescComparor) t).
Proof.
  destruct comparors_strict_weak as [Ha Hd]. destruct is_asc.
  - destruct (Hsort AscComparor t Ha) as [? Hs]. split; [done|].
    eapply StronglySorted_mono; [|exact Hs]. unfold AscComparor. cbn. intros. lia.
  - destruct (Hsort DescComparor t Hd) as [? Hs]. split; [done|].
    eapply StronglySorted_mono; [|exact Hs]. unfold DescComparor. cbn. intros a b.
    rewrite Z.gtb_ltb. lia.
Qed.

Lemma reverse_order_true o (t : list (Z * R)) :
  order_true o t -> order_true (reverse_order o) (rev t).
Proof.
  destruct o; cbn; [intros H%StronglySorted_rev; exact H..|done].
Qed.

(** Sorting and reversing keep the rows of a table and its order tag
    truthful: after [Sort] the table is a permutation of what it was, in the
    order the tag says, ties in any order; [Reverse] turns a table whose tag
    is true into one whose tag is true; a partition does the same in every
    segment. *)
Theorem order_tags (h : MemTimeTableHandler R) (p : MemPartitionHandler R) is_asc :
  let s := th_Sort std_sort is_asc h in
  Permutation (th_table s) (th_table h) /\ order_true (th_order_type s) (th_table s) /\
  (order_true (th_order_type h) (th_table h) ->
   order_true (th_order_type (th_Reverse h)) (th_table (th_Reverse h))) /\
  Forall (fun seg => order_true (ph_order_type (ph_Sort std_sort is_asc p)) seg.2)
    (ph_partitions (ph_Sort std_sort is_asc p)) /\
  (Forall (fun seg => order_true (ph_order_type p) seg.2) (ph_partitions p) ->
   Forall (fun seg => order_true (ph_order_type (ph_Reverse p)) seg.2)
     (ph_partitions (ph_Reverse p))).
Proof.
  cbv zeta. destruct (sort_order is_asc (th_table h)) as [H1 H2]. split_and!.
  - unfold th_Sort. by destruct is_asc.
  - unfold th_Sort. by destruct is_asc.
  - apply reverse_order_true.
  - cbn. apply Forall_fmap, Forall_forall. intros seg _. cbn. apply sort_order.
  - intros Hf. cbn. apply Forall_fmap. eapply Forall_impl; [exact Hf|].
    intros seg Hs. cbn. by apply reverse_order_true.
Qed.
End Order.

(** A sort that satisfies the guarantee. *)
Definition merge_sort_by {R} (cmp : (Z * R) -> (Z * R) -> bool) : list (Z * R) -> list (Z * R) :=
  @merge_sort _ (fun a b => cmp b a = false) (fun a b => decide (cmp b a = false)).

Lemma merge_sort_sorts {R} : sorts (@merge_sort_by R).
Proof.
  intros cmp l (Hi & Ht & Hn). unfold merge_sort_by. split; [apply merge_sort_Permutation|].
  assert (Transitive (fun a b : Z * R => cmp b a = false)) by (intros a b c ? ?; by eapply Hn).
  assert (Total (fun a b : Z * R => cmp b a = false)).
  { intros a b. destruct (cmp b a) eqn:E1; [|by left]. right.
    destruct (cmp a b) eqn:E2; [|done]. by rewrite <- (Hi a), (Ht a b a). }
  apply StronglySorted_merge_sort; apply _.
Qed.

Lemma order_tags_witness :
  th_table (th_Sort merge_sort_by false
    (mkMemTimeTableHandler [(3, 0); (9, 1); (7, 2)] kNoneOrder)) = [(9, 1); (7, 2); (3, 0)] /\
  order_true kDescOrder [(9, 1); (7, 2); (3, 0)].
Proof.
  destruct (order_tags merge_sort_by merge_sort_sorts
    (mkMemTimeTableHandler [(3, 0); (9, 1); (7, 2)] kNoneOrder) MemPartitionHandler_new false)
    as (_ & H & _).
  split; [vm_compute; reflexivity|exact H].
Defined.
