(* ===== verification/Window.v ===== *)
(** * Sliding windows

    Models [WindowRange], [Window], [HistoryWindow] and [CurrentHistoryWindow]
    of [include/vm/mem_catalog.h]. The table of a window is a deque with the
    newest row in front; [current_history_buffer_] holds rows that are not in
    the frame yet. Operations on an empty deque are undefined ([None]). *)

From stdpp Require Import base numbers option list.
From S2P Require Import Prelude MemCatalog.

Inductive WindowFrameType := kFrameRows | kFrameRowsRange | kFrameRowsMergeRowsRange.

Record WindowRange := mkWindowRange {
  frame_type : WindowFrameType;
  start_offset : Z;   (* int64_t *)
  end_offset : Z;     (* int64_t *)
  start_row : Z;      (* uint64_t *)
  end_row : Z;
  max_size : Z
}.

Definition WindowRange_default : WindowRange := mkWindowRange kFrameRows 0 0 0 0 0.
Definition WindowRange_new (t : WindowFrameType) (start_offset end_offset rows_preceding
    max_size : Z) : WindowRange :=
  mkWindowRange t start_offset end_offset rows_preceding 0 max_size.
Definition CreateRowsWindow (rows_preceding : Z) : WindowRange :=
  WindowRange_new kFrameRows 0 0 rows_preceding 0.
Definition CreateRowsRangeWindow (start_offset end_offset max_size : Z) : WindowRange :=
  WindowRange_new kFrameRowsRange start_offset end_offset 0 max_size.
Definition CreateRowsMergeRowsRangeWindow (start_offset rows_preceding max_size : Z)
  : WindowRange :=
  WindowRange_new kFrameRowsMergeRowsRange start_offset 0 rows_preceding max_size.

Inductive WindowPositionStatus := kInWindow | kExceedWindow | kBeforeWindow.

Definition GetWindowPositionStatus (out_of_rows before_window exceed_window : bool)
    (r : WindowRange) : WindowPositionStatus :=
  match frame_type r with
  | kFrameRows => if out_of_rows then kExceedWindow else kInWindow
  | kFrameRowsMergeRowsRange =>
      if out_of_rows
      then if before_window then kBeforeWindow
           else if exceed_window then kExceedWindow else kInWindow
      else kInWindow
  | kFrameRowsRange =>
      if exceed_window then kExceedWindow
      else if before_window then kBeforeWindow else kInWindow
  end.

(** [int64_t sub = key + offset; sub < 0 ? 0 : sub]: the sum is one of
    [uint64_t], converted to [int64_t]. *)
Definition frame_ts (key offset : Z) : Z :=
  let sub := i64 (u64 (key + offset)) in if sub <? 0 then 0 else sub.

Section Window.
Context {R : Type}.

Record HistoryWindow := mkHistoryWindow {
  hw_table : list (Z * R);
  hw_exclude_current_time : bool;
  hw_instance_not_in_window : bool;
  hw_window_range : WindowRange;
  hw_current_history_buffer : list (Z * R)
}.

Definition HistoryWindow_new (r : WindowRange) : HistoryWindow :=
  mkHistoryWindow [] false false r [].

Definition set_exclude_current_time (flag : bool) (w : HistoryWindow) : HistoryWindow :=
  mkHistoryWindow (hw_table w) flag (hw_instance_not_in_window w) (hw_window_range w)
    (hw_current_history_buffer w).
Definition set_instance_not_in_window (flag : bool) (w : HistoryWindow) : HistoryWindow :=
  mkHistoryWindow (hw_table w) (hw_exclude_current_time w) flag (hw_window_range w)
    (hw_current_history_buffer w).
Definition set_table (t : list (Z * R)) (w : HistoryWindow) : HistoryWindow :=
  mkHistoryWindow t (hw_exclude_current_time w) (hw_instance_not_in_window w)
    (hw_window_range w) (hw_current_history_buffer w).
Definition set_history (h : list (Z * R)) (w : HistoryWindow) : HistoryWindow :=
  mkHistoryWindow (hw_table w) (hw_exclude_current_time w) (hw_instance_not_in_window w)
    (hw_window_range w) h.

Definition w_GetCount (w : HistoryWindow) : Z := Z.of_nat (length (hw_table w)).
Definition w_At (pos : Z) (dflt : R) (w : HistoryWindow) : R :=
  if pos >=? Z.of_nat (length (hw_table w)) then dflt
  else from_option snd dflt (hw_table w !! Z.to_nat pos).

Definition PopBackData (w : HistoryWindow) : option HistoryWindow :=
  t ← pop_back (hw_table w); Some (set_table t w).
Definition PopFrontData (w : HistoryWindow) : option HistoryWindow :=
  match hw_current_history_buffer w with
  | [] => t ← pop_front (hw_table w); Some (set_table t w)
  | _ :: h => Some (set_history h w)
  end.
Definition PopEffectiveData (w : HistoryWindow) : HistoryWindow :=
  match hw_table w with [] => w | _ :: t => set_table t w end.

(** The first loop of [BufferEffectiveWindow]; [cur_size] is the size of the
    table. *)
Fixpoint trim_loop (max_size : Z) (cur_size : nat) (t : list (Z * R))
  : option (list (Z * R)) :=
  match cur_size with
  | O => Some t
  | S n =>
      if (max_size >? 0) && (Z.of_nat cur_size >? max_size)
      then t' ← pop_back t; trim_loop max_size n t'
      else Some t
  end.

(** The second loop: slide the window. *)
Fixpoint slide_loop (r : WindowRange) (start_ts : Z) (cur_size : nat) (t : list (Z * R))
  : option (list (Z * R)) :=
  match cur_size with
  | O => Some t
  | S n =>
      pair ← last t;
      let rows_frame := match frame_type r with
                        | kFrameRows | kFrameRowsMergeRowsRange => true
                        | kFrameRowsRange => false
                        end in
      if rows_frame && (Z.of_nat cur_size <=? u64 (start_row r + 1)) then Some t
      else if match frame_type r with kFrameRows => true | _ => false end
              || (pair.1 <? start_ts)
      then t' ← pop_back t; slide_loop r start_ts n t'
      else Some t
  end.

Definition BufferEffectiveWindow (key : Z) (row : R) (start_ts : Z) (w : HistoryWindow)
  : option (bool * HistoryWindow) :=
  let t := (key, row) :: hw_table w in
  t1 ← trim_loop (max_size (hw_window_range w)) (length t) t;
  t2 ← slide_loop (hw_window_range w) start_ts (length t1) t1;
  Some (true, set_table t2 w).

(** The loop of [BufferCurrentHistoryBuffer]: rows up to [end_ts] leave the
    buffer from its back and enter the window; [n] is the buffer's size. *)
Fixpoint flush_loop (end_ts start_ts : Z) (n : nat) (w : HistoryWindow)
  : option HistoryWindow :=
  match n with
  | O => Some w
  | S n' =>
      back ← last (hw_current_history_buffer w);
      if back.1 >? end_ts then Some w
      else
        '(_, w1) ← BufferEffectiveWindow back.1 back.2 start_ts w;
        h ← pop_back (hw_current_history_buffer w1);
        flush_loop end_ts start_ts n' (set_history h w1)
  end.

Definition BufferCurrentHistoryBuffer (key : Z) (row : R) (end_ts : Z) (w : HistoryWindow)
  : option (bool * HistoryWindow) :=
  let w1 := set_history ((key, row) :: hw_current_history_buffer w) w in
  let start_ts := frame_ts key (start_offset (hw_window_range w)) in
  w2 ← flush_loop end_ts start_ts (length (hw_current_history_buffer w1)) w1;
  Some (true, w2).

Definition BufferCurrentTimeBuffer (key : Z) (row : R) (start_ts : Z) (w : HistoryWindow)
  : option (bool * HistoryWindow) :=
  if negb (hw_exclude_current_time w) then BufferEffectiveWindow key row start_ts w
  else
    let w1 := PopEffectiveData w in
    '(_, w2) ← BufferCurrentHistoryBuffer key row (u64 (key - 1)) w1;
    BufferEffectiveWindow key row start_ts w2.

(** The newest row of the window is newer than the row to add. *)
Definition too_late (key : Z) (w : HistoryWindow) : bool :=
  match hw_table w with [] => false | front :: _ => front.1 >? key end.

Definition HistoryWindow_BufferData (key : Z) (row : R) (w : HistoryWindow)
  : option (bool * HistoryWindow) :=
  if too_late key w then Some (false, w)
  else
    let r := hw_window_range w in
    let cur_size := Z.of_nat (length (hw_table w)) in
    if cur_size <? start_row r then
      let start_ts := frame_ts key (start_offset r) in
      if end_offset r =? 0 then BufferCurrentTimeBuffer key row start_ts w
      else BufferEffectiveWindow key row start_ts w
    else if end_offset r =? 0 then
      BufferCurrentTimeBuffer key row (frame_ts key (start_offset r)) w
    else BufferCurrentHistoryBuffer key row (frame_ts key (end_offset r)) w.

(** [CurrentHistoryWindow]. *)
Definition Current_PopFrontData (w : HistoryWindow) : option HistoryWindow :=
  t ← pop_front (hw_table w); Some (set_table t w).

Definition Current_BufferData (key : Z) (row : R) (w : HistoryWindow)
  : option (bool * HistoryWindow) :=
  if too_late key w then Some (false, w)
  else
    let start_ts := frame_ts key (start_offset (hw_window_range w)) in
    if hw_exclude_current_time w then BufferCurrentTimeBuffer key row start_ts w
    else BufferEffectiveWindow key row start_ts w.

(** A sequence of [BufferData] calls; the results are not looked at. *)
Fixpoint buffer_all (step : Z -> R -> HistoryWindow -> option (bool * HistoryWindow))
    (rows : list (Z * R)) (w : HistoryWindow) : option HistoryWindow :=
  match rows with
  | [] => Some w
  | (k, r) :: rows' => '(_, w') ← step k r w; buffer_all step rows' w'
  end.
End Window.

Arguments HistoryWindow : clear implicits.
