(* ===== verification/WindowProof.v ===== *)
(** * Windows hold exactly their frame

    The abstract specification of a window is a function of the rows accepted
    so far ([frame_spec]); [CurrentHistoryWindow] refines it for all three
    frame types, with and without EXCLUDE CURRENT_TIME and size limit. *)

From stdpp Require Import base numbers option list sorting.
From S2P Require Import Prelude MemCatalog Window.

Section Window.
Context {R : Type}.
Implicit Types l t F A : list (Z * R).

(** ** Specification *)

(** Rows from newest to oldest. *)
Definition desc l : Prop := StronglySorted (fun a b => b.1 <= a.1) l.

(** How many rows are not older than [start]. *)
Definition cnt (start : Z) l : nat := length (filter (fun e => start <= e.1) l).

(** How many of the newest rows the frame keeps: a number of rows, the rows of
    a time range, or whichever is more; never more than the size limit. *)
Definition keepn (r : WindowRange) (start : Z) l : nat :=
  let rows := S (Z.to_nat (start_row r)) in
  match frame_type r with
  | kFrameRows => rows
  | kFrameRowsRange => cnt start l
  | kFrameRowsMergeRowsRange => Nat.max rows (cnt start l)
  end.

Definition limit (r : WindowRange) (start : Z) l : nat :=
  if max_size r =? 0 then keepn r start l else Nat.min (Z.to_nat (max_size r)) (keepn r start l).

(** The accepted rows, newest first: a row older than the newest is refused. *)
Definition accept A (e : Z * R) : list (Z * R) :=
  match A with
  | [] => [e]
  | f :: _ => if f.1 >? e.1 then A else e :: A
  end.
Definition refused A (k : Z) : bool := match A with [] => false | f :: _ => f.1 >? k end.
Definition accepted (rows : list (Z * R)) : list (Z * R) := foldl accept [] rows.

(** The rows the frame of the newest row chooses from. *)
Definition candidates (ex : bool) A : list (Z * R) :=
  match A with
  | [] => []
  | f :: A' => f :: (if ex then filter (fun e => e.1 < f.1) A' else A')
  end.

Definition start_of (r : WindowRange) A : Z :=
  match A with [] => 0 | f :: _ => Z.max 0 (f.1 + start_offset r) end.

Definition frame_spec (r : WindowRange) (ex : bool) A : list (Z * R) :=
  take (limit r (start_of r A) (candidates ex A)) (candidates ex A).

(** A range as the planner builds it: a start not in the future. *)
Definition range_ok (r : WindowRange) : Prop :=
  -9223372036854775808 <= start_offset r <= 0 /\
  0 <= start_row r < 18446744073709551615 /\ 0 <= max_size r.

(** Keys are time stamps; with EXCLUDE CURRENT_TIME they are positive. *)
Definition key_ok (ex : bool) (k : Z) : Prop :=
  (if ex then 1 else 0) <= k < 9223372036854775808.

(** ** Counting *)

Lemma desc_cons e l : desc (e :: l) -> desc l /\ Forall (fun x => x.1 <= e.1) l.
Proof. intros H. by inversion H. Qed.

Lemma cnt_cons s e l : cnt s (e :: l) = ((if decide (s <= e.1)%Z then 1 else 0) + cnt s l)%nat.
Proof. unfold cnt. rewrite filter_cons. by case_decide. Qed.

Lemma cnt_le s l : (cnt s l <= length l)%nat.
Proof. apply length_filter. Qed.

Lemma cnt_mono s s' l : s <= s' -> (cnt s' l <= cnt s l)%nat.
Proof.
  intros H. induction l as [|e l IH]; [done|]. rewrite !cnt_cons.
  repeat case_decide; lia.
Qed.

Lemma cnt_old s l : Forall (fun x => x.1 < s) l -> cnt s l = 0%nat.
Proof.
  induction 1 as [|e l He Hl IH]; [done|]. rewrite cnt_cons, IH, decide_False by lia. done.
Qed.

Lemma cnt_take s l n : desc l -> cnt s (take n l) = Nat.min n (cnt s l).
Proof.
  revert n. induction l as [|e l IH]; intros n Hd; [by rewrite take_nil, Nat.min_0_r|].
  apply desc_cons in Hd as [Hd Hf]. destruct n as [|n]; [done|]. cbn [take].
  rewrite !cnt_cons, IH by done. case_decide; [lia|].
  rewrite (cnt_old s l); [lia|]. eapply Forall_impl; [exact Hf|]. cbn. intros; lia.
Qed.

Lemma desc_take l n : desc l -> desc (take n l).
Proof.
  intros H. revert n. induction H as [|e l H IH Hf]; intros [|n]; cbn; try by constructor.
  constructor; [apply IH|by apply Forall_take].
Qed.

Lemma desc_filter (P : Z * R -> Prop) `{forall x, Decision (P x)} l : desc l -> desc (filter P l).
Proof.
  intros Hd. induction Hd as [|e l Hd IH Hf]; [constructor|]. rewrite filter_cons.
  case_decide; [|done]. constructor; [done|].
  apply Forall_forall. intros x Hx. apply list_elem_of_filter in Hx as [_ Hx].
  by apply (proj1 (Forall_forall _ _) Hf).
Qed.

(** A prefix of a window's candidates loses only what it cuts off. *)
Lemma keepn_take r s l m : desc l -> Nat.min m (keepn r s (take m l)) = Nat.min m (keepn r s l).
Proof. intros Hd. unfold keepn. rewrite cnt_take by done. destruct (frame_type r); lia. Qed.

Lemma keepn_same r s l l' : map fst l = map fst l' -> keepn r s l = keepn r s l'.
Proof.
  intros H. assert (cnt s l = cnt s l') as E; [|unfold keepn; by rewrite E].
  revert l' H. induction l as [|e l IH]; intros [|e' l'] Hm; try done. cbn in Hm.
  injection Hm as E1 E2. by rewrite !cnt_cons, (IH l'), E1.
Qed.

Lemma limit_push r s s' e l : s <= s' -> (limit r s' (e :: l) <= S (limit r s l))%nat.
Proof.
  intros H. pose proof (cnt_mono s s' l H). unfold limit, keepn. rewrite cnt_cons.
  destruct (max_size r =? 0), (frame_type r), (decide (s' <= e.1)); lia.
Qed.

Lemma limit_mono r s s' l : s <= s' -> (limit r s' l <= limit r s l)%nat.
Proof.
  intros H. pose proof (cnt_mono s s' l H). unfold limit, keepn.
  destruct (max_size r =? 0), (frame_type r); lia.
Qed.

Lemma limit_same r s l l' : map fst l = map fst l' -> limit r s l = limit r s l'.
Proof. intros H. unfold limit. by rewrite (keepn_same r s l l' H). Qed.

Lemma limit_pos r s e l : 0 <= max_size r -> s <= e.1 -> (1 <= limit r s (e :: l))%nat.
Proof.
  intros Hm Hs. unfold limit, keepn. rewrite cnt_cons, decide_True by done.
  destruct (Z.eqb_spec (max_size r) 0), (frame_type r); lia.
Qed.

(** ** The loops *)

Lemma pop_back_snoc t e : pop_back (t ++ [e]) = Some t.
Proof. unfold pop_back. destruct (t ++ [e]) eqn:E; [by destruct t|]. rewrite <- E. by rewrite removelast_last. Qed.

Lemma trim_loop_spec M t : 0 <= M ->
  trim_loop M (length t) t = Some (if M =? 0 then t else take (Z.to_nat M) t).
Proof.
  intros HM. induction t as [|e t IH] using rev_ind; [cbn; by destruct (M =? 0); rewrite ?take_nil|].
  rewrite length_app, Nat.add_comm. cbn [length Nat.add trim_loop]. rewrite !Z.gtb_ltb.
  destruct (Z.eqb_spec M 0) as [->|]; [done|].
  rewrite (proj2 (Z.ltb_lt 0 M)) by lia. cbn [andb]. destruct (Z.ltb_spec M (Z.of_nat (S (length t)))).
  - rewrite pop_back_snoc. cbn [mbind option_bind]. rewrite IH.
    by rewrite take_app_le by lia.
  - rewrite take_ge; [done|]. rewrite length_app. cbn. lia.
Qed.

Lemma slide_loop_spec r s t :
  0 <= start_row r < 18446744073709551615 -> desc t ->
  slide_loop r s (length t) t = Some (take (keepn r s t) t).
Proof.
  intros Hr. induction t as [|e t IH] using rev_ind; intros Hd; [by rewrite take_nil|].
  assert (desc t) as Hdt by (rewrite <- (take_app_length t [e]); by apply desc_take).
  assert (cnt s (t ++ [e]) = (cnt s t + if decide (s <= e.1)%Z then 1 else 0)%nat) as Hc.
  { unfold cnt. rewrite filter_app, length_app, filter_cons, filter_nil. by case_decide. }
  assert (s <= e.1 -> cnt s (t ++ [e]) = length (t ++ [e])) as Hall.
  { intros Hs. pose proof (cnt_take s (t ++ [e]) (length t) Hd) as E.
    rewrite take_app_length in E. rewrite decide_True in Hc by done.
    assert (Forall (fun x => s <= x.1) t) as Hf.
    { apply Forall_forall. intros x Hx. apply list_elem_of_lookup in Hx as [i Hi].
      assert (e.1 <= x.1); [|lia].
      clear -Hd Hi. revert i Hi. induction t as [|y t IH]; intros i Hi; [done|].
      apply desc_cons in Hd as [Hd Hf]. destruct i; cbn in Hi.
      - injection Hi as ->. rewrite Forall_app in Hf. destruct Hf as [_ Hf].
        by apply Forall_cons_1 in Hf as [? _].
      - by eapply IH. }
    rewrite length_app. cbn. rewrite Hc. f_equal.
    clear -Hf. induction Hf as [|x l Hx Hf IH]; [done|]. rewrite cnt_cons, decide_True, IH by done.
    done. }
  pose proof (cnt_le s t). specialize (IH Hdt).
  rewrite length_app, Nat.add_comm. cbn [length Nat.add slide_loop].
  rewrite last_snoc. cbn [mbind option_bind]. rewrite u64_small by lia.
  rewrite length_app in Hall. cbn [length] in Hall.
  unfold keepn in *. rewrite Hc. rewrite pop_back_snoc. cbn [mbind option_bind].
  destruct (frame_type r); cbn [andb orb].
  - destruct (Z.leb_spec (Z.of_nat (S (length t))) (start_row r + 1)).
    + rewrite take_ge; [done|]. rewrite length_app. cbn. lia.
    + rewrite IH, take_app_le by lia. done.
  - destruct (Z.ltb_spec e.1 s).
    + rewrite decide_False, Nat.add_0_r by lia. rewrite IH, take_app_le by lia. done.
    + rewrite <- Hc, Hall by lia. rewrite take_ge; [done|]. rewrite length_app. cbn. lia.
  - destruct (Z.leb_spec (Z.of_nat (S (length t))) (start_row r + 1)); cbn [andb].
    + rewrite take_ge; [done|]. rewrite length_app. cbn. lia.
    + destruct (Z.ltb_spec e.1 s).
      * rewrite decide_False, Nat.add_0_r by lia. rewrite IH, take_app_le by lia. done.
      * rewrite <- Hc, Hall by lia. rewrite take_ge; [done|]. rewrite length_app. cbn. lia.
Qed.

(** ** One row *)

Lemma frame_ts_max k off :
  0 <= k < 9223372036854775808 -> -9223372036854775808 <= off <= 0 ->
  frame_ts k off = Z.max 0 (k + off).
Proof.
  intros Hk Ho. unfold frame_ts, i64, u64, wrapu.
  rewrite wraps_mod, wraps_small by (cbn; lia).
  case_if; lia.
Qed.

(** Pushing a row onto a long enough prefix of the candidates. *)
Lemma BufferEffectiveWindow_push k row start n F w :
  range_ok (hw_window_range w) -> desc ((k, row) :: F) -> hw_table w = take n F ->
  (limit (hw_window_range w) start ((k, row) :: F) <= S n)%nat ->
  BufferEffectiveWindow k row start w =
  Some (true, set_table (take (limit (hw_window_range w) start ((k, row) :: F))
                          ((k, row) :: F)) w).
Proof.
  intros (? & ? & ?) Hd Ht Hn. unfold BufferEffectiveWindow. cbv zeta.
  rewrite Ht, trim_loop_spec by done. cbn [mbind option_bind].
  change ((k, row) :: take n F) with (take (S n) ((k, row) :: F)).
  set (X := (k, row) :: F) in *. set (r := hw_window_range w) in *.
  assert ((if max_size r =? 0 then take (S n) X else take (Z.to_nat (max_size r)) (take (S n) X)) =
    take (if max_size r =? 0 then S n else Nat.min (Z.to_nat (max_size r)) (S n)) X) as ->.
  { destruct (max_size r =? 0); [done|]. by rewrite take_take. }
  set (m := if max_size r =? 0 then S n else Nat.min (Z.to_nat (max_size r)) (S n)).
  rewrite slide_loop_spec by (done || by apply desc_take). cbn [mbind option_bind].
  do 3 f_equal. rewrite take_take, (Nat.min_comm _ m), keepn_take by done. f_equal.
  unfold limit, m in *. destruct (max_size r =? 0); lia.
Qed.

(** The candidates of a window and what it holds of them. *)
Definition holds (w : HistoryWindow R) (start : Z) F : Prop :=
  hw_table w = take (limit (hw_window_range w) start F) F.

(** Rows leaving the history buffer for the window: those up to [end_ts]. *)
Lemma flush_loop_spec end_ts start ps hs : forall fuel n F w,
  range_ok (hw_window_range w) -> desc (hs ++ F) ->
  Forall (fun e => e.1 <= end_ts) hs -> (exists p, last ps = Some p /\ end_ts < p.1) ->
  hw_current_history_buffer w = ps ++ hs -> hw_table w = take n F ->
  (length hs < fuel)%nat ->
  (forall q, last hs = Some q -> (limit (hw_window_range w) start (q :: F) <= S n)%nat) ->
  flush_loop end_ts start fuel w =
  Some (set_history ps (set_table
    (match hs with
     | [] => take n F
     | _ => take (limit (hw_window_range w) start (hs ++ F)) (hs ++ F)
     end) w)).
Proof.
  induction hs as [|q hs IH] using rev_ind;
    intros [|fuel] n F w Hr Hd Hf (p & Hp & Hpe) Hh Ht Hfu Hn;
    try (rewrite ?length_app in Hfu; cbn in Hfu; lia).
  - rewrite app_nil_r in Hh. cbn [flush_loop]. rewrite Hh, Hp. cbn [mbind option_bind].
    rewrite Z.gtb_ltb, (proj2 (Z.ltb_lt _ _)) by done. rewrite <- Hh, <- Ht. by destruct w.
  - rewrite length_app in Hfu. cbn in Hfu.
    rewrite <- app_assoc in Hd. cbn [app] in Hd.
    assert (desc (q :: F)) as Hdq.
    { clear -Hd. induction hs as [|x hs IH]; [done|]. by apply desc_cons in Hd as [? _]; auto. }
    apply Forall_app in Hf as [Hf Hq]. apply Forall_cons_1 in Hq as [Hq _].
    cbn [flush_loop]. rewrite Hh, app_assoc, last_snoc.
    cbn [mbind option_bind]. rewrite Z.gtb_ltb, (proj2 (Z.ltb_ge _ _)) by lia.
    rewrite (BufferEffectiveWindow_push q.1 q.2 start n F w Hr) by
      (rewrite <- ?surjective_pairing; try done; apply Hn; by rewrite last_snoc).
    rewrite <- surjective_pairing. cbn [mbind option_bind hw_current_history_buffer set_table].
    rewrite Hh, app_assoc, pop_back_snoc. cbn [mbind option_bind].
    erewrite (IH fuel (limit (hw_window_range w) start (q :: F)) (q :: F)); cycle 1; try done;
      [by exists p|lia|by intros q' Hq'; apply limit_push|].
    cbn [set_history set_table hw_table hw_window_range hw_exclude_current_time
      hw_instance_not_in_window hw_current_history_buffer].
    rewrite <- app_assoc. cbn [app]. destruct hs; done.
Qed.

Lemma BufferCurrentHistoryBuffer_spec k row end_ts n F ps hs w :
  range_ok (hw_window_range w) -> desc (hs ++ F) ->
  Forall (fun e => e.1 <= end_ts) hs -> Forall (fun e => end_ts < e.1) ps ->
  end_ts < k -> 0 <= k < 9223372036854775808 ->
  hw_current_history_buffer w = ps ++ hs -> hw_table w = take n F ->
  let start := Z.max 0 (k + start_offset (hw_window_range w)) in
  (forall q, last hs = Some q -> (limit (hw_window_range w) start (q :: F) <= S n)%nat) ->
  BufferCurrentHistoryBuffer k row end_ts w =
  Some (true, set_history ((k, row) :: ps) (set_table
    (match hs with
     | [] => take n F
     | _ => take (limit (hw_window_range w) start (hs ++ F)) (hs ++ F)
     end) w)).
Proof.
  intros Hr Hd Hf Hps Hk Hk' Hh Ht start Hn. unfold BufferCurrentHistoryBuffer.
  rewrite frame_ts_max by (done || apply Hr). fold start.
  cbn [hw_current_history_buffer set_history]. rewrite Hh.
  rewrite (flush_loop_spec end_ts start ((k, row) :: ps) hs _ n F); try done.
  - destruct (last ((k, row) :: ps)) as [p|] eqn:E; [|by apply last_None in E].
    exists p. split; [done|]. apply last_Some_elem_of in E.
    apply (proj1 (Forall_forall (fun e => end_ts < e.1) ((k, row) :: ps))); [by constructor|done].
  - cbn. rewrite length_app. lia.
Qed.

Lemma BufferCurrentHistoryBuffer_keep k (row : R) end_ts hs w :
  hw_current_history_buffer w = hs -> Forall (fun e => end_ts < e.1) ((k, row) :: hs) ->
  BufferCurrentHistoryBuffer k row end_ts w =
  Some (true, set_history ((k, row) :: hs) w).
Proof.
  intros Hh Hf. unfold BufferCurrentHistoryBuffer. cbn [hw_current_history_buffer set_history].
  rewrite Hh. cbn [length flush_loop hw_current_history_buffer set_history].
  destruct (last ((k, row) :: hs)) as [q|] eqn:E; [|by apply last_None in E].
  cbn [mbind option_bind]. apply last_Some in E as [l' E].
  rewrite E, Forall_app in Hf. destruct Hf as [_ Hq]. apply Forall_cons_1 in Hq as [Hq _].
  by rewrite Z.gtb_ltb, (proj2 (Z.ltb_lt _ _)).
Qed.

(** ** The refinement *)

(** The rows of the newest time stamp wait in the history buffer when the
    current time is excluded. *)
Definition waiting (ex : bool) A : list (Z * R) :=
  match A with
  | [] => []
  | f :: _ => if ex then filter (fun e => e.1 = f.1) A else []
  end.

Record refines (r : WindowRange) (ex : bool) A (w : HistoryWindow R) : Prop := {
  rf_range : hw_window_range w = r;
  rf_ex : hw_exclude_current_time w = ex;
  rf_table : hw_table w = frame_spec r ex A;
  rf_wait : hw_current_history_buffer w = waiting ex A;
  rf_desc : desc A;
  rf_keys : Forall (fun e => key_ok ex e.1) A
}.

Lemma desc_candidates ex A : desc A -> desc (candidates ex A).
Proof.
  destruct A as [|f A]; [done|]. intros [Hd Hf]%desc_cons. cbn [candidates].
  destruct ex; [|by constructor]. constructor; [by apply desc_filter|].
  apply Forall_forall. intros x Hx. apply list_elem_of_filter in Hx as [Hx _]. lia.
Qed.

(** Sorted rows split into those of the newest time and the older ones. *)
Lemma desc_split f A :
  desc (f :: A) ->
  f :: A = filter (fun e => e.1 = f.1) (f :: A) ++ filter (fun e => e.1 < f.1) (f :: A).
Proof.
  intros Hd. pose proof (desc_cons _ _ Hd) as [_ Hf].
  assert (forall l, desc l -> Forall (fun x => x.1 <= f.1) l ->
    l = filter (fun e => e.1 = f.1) l ++ filter (fun e => e.1 < f.1) l) as H.
  { clear. intros l Hd. induction Hd as [|e l Hd IH He]; intros Hf; [done|].
    apply Forall_cons_1 in Hf as [Hle Hf]. rewrite !filter_cons.
    destruct (decide (e.1 = f.1)) as [E|E].
    - rewrite (decide_False (P := e.1 < f.1)) by lia. cbn. f_equal. by apply IH.
    - rewrite (decide_True (P := e.1 < f.1)) by lia.
      assert (filter (fun x => x.1 = f.1) l = []) as En.
      { apply length_zero_iff_nil. clear -He E Hle. induction He as [|x l Hx He IH]; [done|].
        rewrite filter_cons, decide_False by lia. done. }
      rewrite En. cbn. f_equal. rewrite IH at 1 by done. by rewrite En. }
  apply H; [done|]. constructor; [lia|done].
Qed.

Lemma filter_lt_cons f A :
  filter (fun e => e.1 < f.1) (f :: A) = filter (fun e => e.1 < f.1) A.
Proof. rewrite filter_cons, decide_False by lia. done. Qed.

Section Step.
Context (r : WindowRange) (Hr : range_ok r).

Lemma start_le k : 0 <= k -> Z.max 0 (k + start_offset r) <= k.
Proof. destruct Hr as (? & ? & ?). lia. Qed.

Lemma too_late_spec ex A w k :
  refines r ex A w -> too_late k w = refused A k.
Proof.
  intros [Hw _ Ht _ _ Hk]. unfold too_late. rewrite Ht. unfold frame_spec.
  destruct A as [|f A]; [cbn [candidates]; by rewrite take_nil|].
  apply Forall_cons_1 in Hk as [Hk _]. cbn [candidates start_of].
  pose proof (limit_pos r (Z.max 0 (f.1 + start_offset r)) f
    (if ex then filter (fun e => e.1 < f.1) A else A) ltac:(apply Hr)
    ltac:(apply start_le; unfold key_ok in Hk; destruct ex; lia)) as Hl.
  destruct (limit r _ (f :: _)) as [|n]; [lia|]. done.
Qed.

Lemma accept_newer A k (row : R) :
  refused A k = false ->
  desc A -> accept A (k, row) = (k, row) :: A /\ desc ((k, row) :: A).
Proof.
  intros Hl Hd. destruct A as [|f A]; cbn in *; [split; [done|by repeat constructor]|].
  rewrite Hl. rewrite Z.gtb_ltb in Hl. apply Z.ltb_ge in Hl.
  split; [done|]. constructor; [done|]. constructor; [done|].
  apply desc_cons in Hd as [_ Hf]. eapply Forall_impl; [exact Hf|]. cbn. intros; lia.
Qed.

Lemma Current_step_include A w k row :
  refines r false A w -> key_ok false k ->
  exists w', Current_BufferData k row w = Some (negb (refused A k), w') /\
    refines r false (accept A (k, row)) w'.
Proof.
  intros Hf Hk. unfold Current_BufferData. rewrite (too_late_spec _ _ _ _ Hf).
  destruct (refused A k) eqn:Hl.
  - exists w. split; [done|]. destruct A as [|f A]; [done|]. cbn in Hl |- *. by rewrite Hl.
  - destruct (accept_newer A k row Hl (rf_desc _ _ _ _ Hf)) as [-> Hd].
    destruct Hf as [Hw He Ht Hh Hd' Hks]. rewrite He, Hw.
    unfold key_ok in Hk. rewrite frame_ts_max by (done || apply Hr).
    set (start := Z.max 0 (k + start_offset r)).
    rewrite (BufferEffectiveWindow_push k row start
      (match A with [] => limit r start [(k, row)] | _ => limit r (start_of r A) A end) A w);
      rewrite ?Hw; [|done|done|..].
    + eexists. split; [done|]. constructor; try done.
      * cbn. rewrite Hh. by destruct A.
      * by constructor.
    + rewrite Ht. unfold frame_spec. destruct A; [cbn [candidates]; by rewrite !take_nil|done].
    + destruct A as [|f A]; [lia|]. apply limit_push. cbn in *.
      rewrite Z.gtb_ltb in Hl. apply Z.ltb_ge in Hl. lia.
Qed.

(** The window after [PopEffectiveData]. *)
Lemma frame_tail A f :
  key_ok true f.1 ->
  let H := filter (fun e => e.1 < f.1) A in
  tail (frame_spec r true (f :: A)) = take (limit r (start_of r (f :: A)) (f :: H) - 1) H.
Proof.
  intros Hk H. unfold frame_spec. cbn [candidates start_of].
  pose proof (limit_pos r (Z.max 0 (f.1 + start_offset r)) f H ltac:(apply Hr)
    ltac:(apply start_le; unfold key_ok in Hk; lia)) as Hl.
  destruct (limit r _ (f :: _)) as [|n]; [lia|]. cbn. by rewrite Nat.sub_0_r.
Qed.

Lemma PopEffective_tail (w : HistoryWindow R) :
  PopEffectiveData w = set_table (tail (hw_table w)) w.
Proof. by destruct w as [[]]. Qed.

(** Another row of the same time. *)
Lemma exclude_same A w f row :
  refines r true (f :: A) w ->
  exists w', BufferCurrentTimeBuffer f.1 row (Z.max 0 (f.1 + start_offset r)) w = Some (true, w') /\
    refines r true ((f.1, row) :: f :: A) w'.
Proof.
  intros [Hw He Ht Hh Hd Hks]. pose proof Hks as Hks'. apply Forall_cons_1 in Hks' as [Hk Hks'].
  pose proof (frame_tail A f Hk) as Htl. cbv zeta in Htl.
  set (H := filter (fun e => e.1 < f.1) A) in *.
  assert (desc ((f.1, row) :: f :: A)) as Hd2.
  { constructor; [done|]. constructor; [done|]. by apply desc_cons in Hd as [_ Hf]. }
  unfold BufferCurrentTimeBuffer. rewrite He. cbn [negb]. rewrite PopEffective_tail, Ht, Htl.
  rewrite (BufferCurrentHistoryBuffer_keep f.1 row _ (waiting true (f :: A))).
  - cbn [mbind option_bind].
    rewrite (BufferEffectiveWindow_push f.1 row _ (limit r (start_of r (f :: A)) (f :: H) - 1) H).
    + eexists. split; [done|]. cbn [hw_window_range set_history set_table]. rewrite Hw.
      constructor; try done.
      * cbn [hw_table set_table]. unfold frame_spec. cbn [candidates start_of].
        rewrite (filter_cons _ f A), decide_False by (cbn; lia). done.
      * cbn [hw_current_history_buffer set_history set_table waiting fst].
        by rewrite (filter_cons _ (f.1, row)), decide_True.
      * by constructor.
    + cbn. by rewrite Hw.
    + pose proof (desc_candidates true _ Hd2) as Hdc. cbn [candidates fst] in Hdc.
      by rewrite (filter_cons _ f A), decide_False in Hdc by lia.
    + done.
    + cbn [hw_window_range set_history set_table]. rewrite Hw.
      rewrite (limit_same r _ ((f.1, row) :: H) (f :: H)) by done. cbn [start_of]. lia.
  - done.
  - unfold key_ok in Hk. rewrite u64_small by lia. constructor; [cbn; lia|].
    apply Forall_forall. intros x Hx. cbn [waiting] in Hx.
    apply list_elem_of_filter in Hx as [Hx _]. lia.
Qed.

(** A row of a later time, or the first row. *)
Lemma exclude_later A w k row :
  refines r true A w -> key_ok true k -> desc ((k, row) :: A) ->
  Forall (fun e => e.1 < k) A ->
  exists w', BufferCurrentTimeBuffer k row (Z.max 0 (k + start_offset r)) w = Some (true, w') /\
    refines r true ((k, row) :: A) w'.
Proof.
  intros [Hw He Ht Hh Hd Hks] Hk Hd2 Hlt. unfold key_ok in Hk.
  set (start := Z.max 0 (k + start_offset r)).
  assert (filter (fun e => e.1 < k) A = A) as Hfa.
  { clear -Hlt. induction Hlt as [|x l Hx Hl IH]; [done|]. rewrite filter_cons, decide_True by done.
    by rewrite IH. }
  assert (exists n, BufferCurrentHistoryBuffer k row (u64 (k - 1)) (PopEffectiveData w) =
    Some (true, set_history [(k, row)] (set_table (take n A) w)) /\
    (limit r start ((k, row) :: A) <= S n)%nat) as (n & Eb & Hn).
  { rewrite u64_small by lia. destruct A as [|f A].
    - exists (limit r start [(k, row)]). split; [|lia].
      assert (PopEffectiveData w = w) as ->.
      { unfold PopEffectiveData. rewrite Ht. unfold frame_spec. cbn [candidates]. by rewrite take_nil. }
      rewrite (BufferCurrentHistoryBuffer_spec k row (k - 1) 0 [] [] []); rewrite ?Hw; try done; try lia.
      + by rewrite !take_nil.
      + rewrite Ht. unfold frame_spec. cbn [candidates]. by rewrite !take_nil.
    - exists (limit r start (f :: A)). split; [|by apply limit_push].
      apply Forall_cons_1 in Hks as [Hkf _]. apply Forall_cons_1 in Hlt as [Hlf _].
      pose proof (frame_tail A f Hkf) as Htl. cbv zeta in Htl.
      set (H := filter (fun e => e.1 < f.1) A) in *.
      pose proof (desc_split f A Hd) as Esp. rewrite filter_lt_cons in Esp. fold H in Esp.
      rewrite PopEffective_tail, Ht, Htl. cbn [waiting] in Hh.
      rewrite (BufferCurrentHistoryBuffer_spec k row (k - 1)
        (limit r (start_of r (f :: A)) (f :: H) - 1) H [] (filter (fun e => e.1 = f.1) (f :: A)));
        cbn [hw_window_range set_table hw_current_history_buffer hw_table]; rewrite ?Hw; try done; try lia.
      + rewrite <- Esp. fold start.
        destruct (filter (fun e => e.1 = f.1) (f :: A)) eqn:E;
          [by rewrite filter_cons, decide_True in E by done|done].
      + by rewrite <- Esp.
      + apply Forall_forall. intros x Hx. apply list_elem_of_filter in Hx as [Hx _]. lia.
      + intros q Hq. fold start.
        assert (q.1 = f.1) as Hqf.
        { apply last_Some_elem_of in Hq. by apply list_elem_of_filter in Hq as [? _]. }
        rewrite (limit_same r start (q :: H) (f :: H)) by (cbn; by rewrite Hqf).
        pose proof (limit_mono r (start_of r (f :: A)) start (f :: H)) as Hm.
        cbn [start_of] in *. unfold start in *. specialize (Hm ltac:(lia)). lia. }
  unfold BufferCurrentTimeBuffer. rewrite He. cbn [negb]. rewrite Eb. cbn [mbind option_bind].
  rewrite (BufferEffectiveWindow_push k row start n A);
    cbn [hw_window_range set_history set_table hw_table]; rewrite ?Hw; try done.
  eexists. split; [done|]. constructor; try done.
  - cbn [hw_table set_table]. unfold frame_spec. cbn [candidates start_of fst]. by rewrite Hfa.
  - cbn [hw_current_history_buffer set_history set_table waiting fst].
    rewrite filter_cons, decide_True by done. f_equal.
    clear -Hlt. induction Hlt as [|x l Hx Hl IH]; [done|].
    by rewrite filter_cons, decide_False by lia.
  - by constructor.
Qed.

Lemma Current_step ex A w k row :
  refines r ex A w -> key_ok ex k ->
  exists w', Current_BufferData k row w = Some (negb (refused A k), w') /\
    refines r ex (accept A (k, row)) w'.
Proof.
  intros Hf Hk. destruct ex; [|by apply Current_step_include].
  unfold Current_BufferData. rewrite (too_late_spec _ _ _ _ Hf).
  destruct (refused A k) eqn:Hl.
  - exists w. split; [done|]. destruct A as [|f A]; [done|]. cbn in Hl |- *. by rewrite Hl.
  - destruct (accept_newer A k row Hl (rf_desc _ _ _ _ Hf)) as [-> Hd].
    rewrite (rf_ex _ _ _ _ Hf), (rf_range _ _ _ _ Hf).
    rewrite frame_ts_max by (unfold key_ok in Hk; first [lia|apply Hr]).
    destruct A as [|f A].
    + destruct (exclude_later [] w k row Hf Hk Hd) as (w' & E & Hf'); [done|].
      by exists w'.
    + cbn in Hl. rewrite Z.gtb_ltb in Hl. apply Z.ltb_ge in Hl.
      destruct (decide (f.1 = k)) as [<-|Hne].
      * destruct (exclude_same A w f row Hf) as (w' & E & Hf'). by exists w'.
      * destruct (exclude_later (f :: A) w k row Hf Hk Hd) as (w' & E & Hf').
        { constructor; [lia|]. apply desc_cons in Hd as [Hd _]. apply desc_cons in Hd as [_ Hfa].
          eapply Forall_impl; [exact Hfa|]. cbn. intros; lia. }
        by exists w'.
Qed.
End Step.

Lemma buffer_all_refines r ex rows : range_ok r -> forall A w,
  refines r ex A w -> Forall (fun e => key_ok ex e.1) rows ->
  exists w', buffer_all Current_BufferData rows w = Some w' /\
    refines r ex (foldl accept A rows) w'.
Proof.
  intros Hr. induction rows as [|[k row] rows IH]; intros A w Hf Hk; [by exists w|].
  apply Forall_cons_1 in Hk as [Hk Hks].
  destruct (Current_step r Hr ex A w k row Hf Hk) as (w1 & E1 & Hf1).
  destruct (IH _ w1 Hf1 Hks) as (w2 & E2 & Hf2).
  exists w2. split; [|done]. cbn [buffer_all]. rewrite E1. cbn [mbind option_bind]. done.
Qed.

(** The window of the batch operators, for a frame that ends at the current row. *)
Lemma history_is_current k (row : R) w :
  end_offset (hw_window_range w) = 0 ->
  HistoryWindow_BufferData k row w = Current_BufferData k row w.
Proof.
  intros He. unfold HistoryWindow_BufferData, Current_BufferData. rewrite He. cbn [Z.eqb].
  destruct (too_late k w); [done|]. unfold BufferCurrentTimeBuffer.
  destruct (hw_exclude_current_time w); cbn [negb]; by destruct (_ <? _).
Qed.

Lemma History_step r ex A w k row :
  range_ok r -> end_offset r = 0 -> refines r ex A w -> key_ok ex k ->
  exists w', HistoryWindow_BufferData k row w = Some (negb (refused A k), w') /\
    refines r ex (accept A (k, row)) w'.
Proof.
  intros Hr He Hf Hk. rewrite history_is_current by (by rewrite (rf_range _ _ _ _ Hf)).
  by apply Current_step.
Qed.

Lemma buffer_all_history r ex rows : range_ok r -> end_offset r = 0 -> forall A w,
  refines r ex A w -> Forall (fun e => key_ok ex e.1) rows ->
  exists w', buffer_all HistoryWindow_BufferData rows w = Some w' /\
    refines r ex (foldl accept A rows) w'.
Proof.
  intros Hr He. induction rows as [|[k row] rows IH]; intros A w Hf Hk; [by exists w|].
  apply Forall_cons_1 in Hk as [Hk Hks].
  destruct (History_step r ex A w k row Hr He Hf Hk) as (w1 & E1 & Hf1).
  destruct (IH _ w1 Hf1 Hks) as (w2 & E2 & Hf2).
  exists w2. split; [|done]. cbn [buffer_all]. rewrite E1. cbn [mbind option_bind]. done.
Qed.

(** Rows that come in time order are all accepted. *)
Lemma accept_sorted A (e : Z * R) : Forall (fun x => x.1 <= e.1) A -> accept A e = e :: A /\ refused A e.1 = false.
Proof.
  destruct 1 as [|f A Hf _]; [done|]. cbn. rewrite Z.gtb_ltb, (proj2 (Z.ltb_ge _ _)) by done. done.
Qed.

Lemma accepted_sorted l : desc l -> accepted (rev l) = l.
Proof.
  unfold accepted. induction 1 as [|e l Hd IH Hf]; [done|]. cbn [rev].
  rewrite foldl_app, IH. cbn. by apply accept_sorted.
Qed.

Lemma refines_new r ex : refines r ex [] (set_exclude_current_time ex (HistoryWindow_new r)).
Proof.
  constructor; cbn; try done; [|constructor]. unfold frame_spec. cbn [candidates].
  by rewrite take_nil.
Qed.

(** For a time range without size limit the frame is a filter. *)
Lemma take_cnt s l : desc l -> take (cnt s l) l = filter (fun e => s <= e.1) l.
Proof.
  induction l as [|e l IH]; intros Hd; [done|]. apply desc_cons in Hd as [Hd Hf].
  rewrite cnt_cons, filter_cons. case_decide.
  - cbn. by rewrite IH.
  - rewrite cnt_old; cbn.
    + rewrite <- IH by done. rewrite cnt_old; [done|].
      eapply Forall_impl; [exact Hf|]. cbn. intros; lia.
    + eapply Forall_impl; [exact Hf|]. cbn. intros; lia.
Qed.

(** ** The delayed window *)

Lemma desc_partition e l :
  desc l -> l = filter (fun x => e < x.1) l ++ filter (fun x => x.1 <= e) l.
Proof.
  induction l as [|x l IH]; intros Hd; [done|]. apply desc_cons in Hd as [Hd Hf].
  rewrite !filter_cons. destruct (decide (e < x.1)).
  - rewrite (decide_False (P := x.1 <= e)) by lia. cbn. f_equal. by apply IH.
  - rewrite (decide_True (P := x.1 <= e)) by lia.
    assert (filter (fun y => e < y.1) l = []) as En.
    { apply length_zero_iff_nil. clear -Hf n. induction Hf as [|y l Hy Hf IH]; [done|].
      rewrite filter_cons, decide_False by lia. done. }
    rewrite En. cbn. f_equal. rewrite (IH Hd) at 1. by rewrite En.
Qed.

(** A time range that ends before the current row. *)
Definition delayed (r : WindowRange) : Prop :=
  frame_type r = kFrameRowsRange /\ start_row r = 0 /\ max_size r = 0 /\
  -9223372036854775808 <= start_offset r <= end_offset r /\ end_offset r < 0.

Definition end_of (r : WindowRange) (t : Z) : Z := Z.max 0 (t + end_offset r).

Record delays (r : WindowRange) A (w : HistoryWindow R) : Prop := {
  dl_range : hw_window_range w = r;
  dl_desc : desc A;
  dl_keys : Forall (fun e => key_ok true e.1) A;
  dl_table : match A with
    | [] => hw_table w = [] /\ hw_current_history_buffer w = []
    | f :: _ =>
        hw_current_history_buffer w = filter (fun e => end_of r f.1 < e.1) A /\
        exists n, hw_table w = take n (filter (fun e => e.1 <= end_of r f.1) A) /\
          (cnt (start_of r A) (filter (fun e => (e.1 <= end_of r f.1)%Z) A) <= n)%nat
    end
}.

Lemma filter_le_le e e' l : e <= e' ->
  filter (fun x => x.1 <= e) (filter (fun x => x.1 <= e') l) = filter (fun x => x.1 <= e) l /\
  filter (fun x => e < x.1) (filter (fun x => x.1 <= e') l) =
  filter (fun x => x.1 <= e') (filter (fun x => e < x.1) l) /\
  filter (fun x => e' < x.1) (filter (fun x => e < x.1) l) = filter (fun x => e' < x.1) l.
Proof.
  intros He. rewrite !list_filter_filter. split_and!; apply list_filter_iff; intros; lia.
Qed.

Lemma delays_step r A w k row :
  delayed r -> delays r A w -> key_ok true k ->
  (match A with [] => True | f :: _ => f.1 <= k end) ->
  exists w', HistoryWindow_BufferData k row w = Some (true, w') /\ delays r ((k, row) :: A) w'.
Proof.
  intros (Ht & Hsr & Hm & Hso & Heo) [Hw Hd Hks Htab] Hk Hle. unfold key_ok in Hk.
  assert (range_ok r) as Hr by (repeat split; lia).
  set (e' := end_of r k). assert (e' < k) as Hek by (unfold e', end_of; lia).
  assert (desc ((k, row) :: A)) as Hd2.
  { constructor; [done|]. destruct A as [|f A]; [done|]. constructor; [done|].
    apply desc_cons in Hd as [_ Hf]. eapply Forall_impl; [exact Hf|]. cbn. intros; lia. }
  assert (exists ps hs F n, hw_current_history_buffer w = ps ++ hs /\ hw_table w = take n F /\
    ps = filter (fun e => e' < e.1) A /\ hs ++ F = filter (fun e => e.1 <= e') A /\
    Forall (fun e => e.1 <= e') hs /\ (cnt (Z.max 0 (k + start_offset r)) F <= n)%nat)
    as (ps & hs & F & n & Hh & Htb & Hps & HF & Hhs & Hn).
  { destruct A as [|f A]; [destruct Htab as [-> ->]; by exists [], [], [], 0%nat|].
    destruct Htab as (Hh & n & Htb & Hn). set (e := end_of r f.1) in *.
    assert (e <= e') as Hee by (unfold e, e', end_of; lia).
    destruct (filter_le_le e e' (f :: A) Hee) as (E1 & E2 & E3).
    exists (filter (fun x => e' < x.1) (f :: A)),
      (filter (fun x => x.1 <= e') (filter (fun x => e < x.1) (f :: A))),
      (filter (fun x => x.1 <= e) (f :: A)), n. split_and!; try done.
    - rewrite Hh, <- E3. apply desc_partition. by apply desc_filter.
    - rewrite <- E1, <- E2. symmetry. apply desc_partition. by apply desc_filter.
    - apply Forall_forall. intros x Hx. by apply list_elem_of_filter in Hx as [? _].
    - etrans; [|exact Hn]. apply cnt_mono. cbn [start_of]. lia. }
  assert (too_late k w = false) as Hl.
  { unfold too_late. rewrite Htb. destruct F as [|x F]; [by rewrite take_nil|].
    destruct n as [|n]; [done|]. cbn. rewrite Z.gtb_ltb. apply Z.ltb_ge.
    assert (x ∈ filter (fun e => e.1 <= e') A) as Hx
      by (rewrite <- HF; apply elem_of_app; right; apply list_elem_of_here).
    apply list_elem_of_filter in Hx as [? _]. lia. }
  unfold HistoryWindow_BufferData. rewrite Hl, Hw, Hsr.
  rewrite (proj2 (Z.ltb_ge _ 0)) by lia. rewrite (proj2 (Z.eqb_neq _ 0)) by lia.
  rewrite frame_ts_max by lia. change (Z.max 0 (k + end_offset r)) with e'.
  assert (forall l, limit r (Z.max 0 (k + start_offset r)) l =
    cnt (Z.max 0 (k + start_offset r)) l) as Hlim
    by (intros l; unfold limit, keepn; by rewrite Hm, Ht).
  rewrite (BufferCurrentHistoryBuffer_spec k row e' n F ps hs w); rewrite ?Hw; try done; try lia.
  - eexists. split; [done|]. constructor; try done; [by constructor|].
    cbn [hw_current_history_buffer set_history set_table hw_table fst]. change (end_of r k) with e'.
    rewrite !filter_cons. cbn [fst]. rewrite (decide_True (P := e' < k)) by done.
    rewrite (decide_False (P := k <= e')) by lia. split; [by rewrite Hps|].
    cbn [start_of fst]. rewrite <- HF. destruct hs as [|h hs].
    + by exists n.
    + exists (cnt (Z.max 0 (k + start_offset r)) ((h :: hs) ++ F)). rewrite Hlim. done.
  - rewrite HF. by apply desc_filter.
  - rewrite Hps. apply Forall_forall. intros x Hx. by apply list_elem_of_filter in Hx as [? _].
  - intros q Hq. rewrite Hlim, cnt_cons. destruct (decide _); lia.
Qed.
End Window.

(** ** Main properties *)

Section Claims.
Context {R : Type}.

(** C11: [CurrentHistoryWindow] refines its frame specification. Whatever rows
    are buffered (a row older than the newest one is refused and changes
    nothing), no call has undefined behaviour, and afterwards the window
    holds, newest first, exactly the rows its frame selects: the last [n+1]
    rows for a ROWS frame, the rows not older than the start of the range for
    a RANGE frame, whichever are more for the merged frame, cut to the size
    limit; with EXCLUDE CURRENT_TIME the current row and the rows strictly
    before its time stamp are what the frame selects from. *)
Theorem current_window_refines (rows : list (Z * R)) r ex :
  range_ok r -> Forall (fun e => key_ok ex e.1) rows ->
  exists w,
    buffer_all Current_BufferData rows (set_exclude_current_time ex (HistoryWindow_new r)) =
      Some w /\
    hw_table w = frame_spec r ex (accepted rows).
Proof.
  intros Hr Hk. destruct (buffer_all_refines r ex rows Hr [] _ (refines_new r ex) Hk)
    as (w & E & Hf). exists w. split; [done|]. apply (rf_table _ _ _ _ Hf).
Qed.

(** For a RANGE frame without size limit the window after any sequence of
    rows is exactly the accepted rows with a time stamp in
    [[max 0 (t + start), t]], where [t] is that of the newest row, in
    descending order. *)
Theorem range_window_is_filter (rows : list (Z * R)) r f A :
  range_ok r -> frame_type r = kFrameRowsRange -> max_size r = 0 ->
  Forall (fun e => key_ok false e.1) rows -> accepted rows = f :: A ->
  exists w,
    buffer_all Current_BufferData rows (HistoryWindow_new r) = Some w /\
    hw_table w = filter (fun e => Z.max 0 (f.1 + start_offset r) <= e.1) (f :: A) /\
    Forall (fun e => e.1 <= f.1) (hw_table w).
Proof.
  intros Hr Ht Hm Hk Ha.
  destruct (buffer_all_refines r false rows Hr [] _ (refines_new r false) Hk) as (w & E & Hf).
  change (foldl accept [] rows) with (accepted rows) in Hf. rewrite Ha in Hf.
  destruct Hf as [_ _ Htab _ Hd _].
  assert (hw_table w = filter (fun e => Z.max 0 (f.1 + start_offset r) <= e.1) (f :: A)) as Et.
  { rewrite Htab. unfold frame_spec, limit, keepn. rewrite Hm, Ht. cbn [Z.eqb candidates start_of].
    by apply take_cnt. }
  exists w. split_and!; [exact E|done|]. rewrite Et.
  apply Forall_forall. intros x Hx. apply list_elem_of_filter in Hx as [_ Hx].
  apply desc_cons in Hd as [_ Hfa]. apply elem_of_cons in Hx as [->|Hx]; [lia|].
  by apply (proj1 (Forall_forall _ _) Hfa).
Qed.

(** A [HistoryWindow] whose range ends at the current row is a
    [CurrentHistoryWindow]: the two [BufferData] functions return the same
    result in every state. *)
Theorem history_window_is_current k (row : R) w :
  end_offset (hw_window_range w) = 0 ->
  HistoryWindow_BufferData k row w = Current_BufferData k row w.
Proof. apply history_is_current. Qed.

(** A [HistoryWindow] over a range that ends before the current row, fed
    with rows in time order: it holds the newest [n] of the rows that are not
    newer than the end of the range, for an [n] that covers every row of the
    range; so no row that is too new is in it and no row of the range is
    missing; the rows that are too new wait in the history buffer. *)
Theorem delayed_window_covers (rows : list (Z * R)) r f A :
  delayed r -> Forall (fun e => key_ok true e.1) rows -> rev rows = f :: A ->
  StronglySorted (fun a b => a.1 <= b.1) rows ->
  exists w n,
    buffer_all HistoryWindow_BufferData rows (HistoryWindow_new r) = Some w /\
    hw_table w = take n (filter (fun e => e.1 <= end_of r f.1) (f :: A)) /\
    hw_current_history_buffer w = filter (fun e => end_of r f.1 < e.1) (f :: A) /\
    (forall e, e ∈ f :: A -> start_of r (f :: A) <= e.1 <= end_of r f.1 -> e ∈ hw_table w).
Proof.
  intros Hd Hk Hr Hs.
  assert (forall A0 w0, delays r A0 w0 ->
    StronglySorted (fun a b => a.1 <= b.1) rows ->
    (match A0, rows with f0 :: _, e :: _ => f0.1 <= e.1 | _, _ => True end) ->
    exists w, buffer_all HistoryWindow_BufferData rows w0 = Some w /\
      delays r (rev rows ++ A0) w) as Hall.
  { clear Hr Hs. induction rows as [|[k row] rows IH]; intros A0 w0 Hd0 Hs0 H0; [by exists w0|].
    apply Forall_cons_1 in Hk as [Hk Hks].
    destruct (delays_step r A0 w0 k row Hd Hd0 Hk) as (w1 & E1 & Hd1); [by destruct A0|].
    inversion Hs0 as [|? ? Hs1 Hf1]; subst.
    destruct (IH Hks ((k, row) :: A0) w1 Hd1 Hs1) as (w2 & E2 & Hd2).
    { destruct rows; [done|]. by apply Forall_cons_1 in Hf1 as [? _]. }
    exists w2. cbn [buffer_all rev]. rewrite E1. cbn [mbind option_bind].
    rewrite <- app_assoc. done. }
  destruct (Hall [] (HistoryWindow_new r)) as (w & E & Hd');
    [constructor; try done; constructor|done|done|].
  rewrite app_nil_r, Hr in Hd'. destruct Hd' as [_ Hde _ (Hh & n & Ht & Hn)].
  exists w, n. split_and!; try done. intros e He [H1 H2].
  rewrite Ht. set (F := filter (fun e => e.1 <= end_of r f.1) (f :: A)) in *.
  assert (e ∈ take (cnt (start_of r (f :: A)) F) F) as Hin.
  { rewrite take_cnt by by apply desc_filter. apply list_elem_of_filter. split; [done|].
    by apply list_elem_of_filter. }
  apply list_elem_of_lookup in Hin as [i Hi]. apply lookup_take_Some in Hi as [Hi Hlt].
  apply list_elem_of_lookup. exists i. rewrite lookup_take_lt by lia. done.
Qed.
End Claims.

Lemma current_window_refines_witness :
  exists w, buffer_all Current_BufferData [(5, 0); (9, 1); (7, 2); (12, 3); (12, 4)]
      (set_exclude_current_time true (HistoryWindow_new (CreateRowsRangeWindow (-4) 0 0))) =
    Some w /\ hw_table w = [(12, 4); (9, 1)].
Proof.
  destruct (current_window_refines [(5, 0); (9, 1); (7, 2); (12, 3); (12, 4)]
    (CreateRowsRangeWindow (-4) 0 0) true) as (w & E & Ht).
  - repeat split; cbn; lia.
  - repeat constructor; cbn; lia.
  - exists w. split; [exact E|]. rewrite Ht. vm_compute. reflexivity.
Defined.

Lemma range_window_is_filter_witness :
  exists w, buffer_all Current_BufferData [(5, 0); (9, 1); (7, 2); (12, 3)]
      (HistoryWindow_new (CreateRowsRangeWindow (-4) 0 0)) = Some w /\
    hw_table w = [(12, 3); (9, 1)].
Proof.
  destruct (range_window_is_filter [(5, 0); (9, 1); (7, 2); (12, 3)]
    (CreateRowsRangeWindow (-4) 0 0) (12, 3) [(9, 1); (5, 0)]) as (w & E & Ht & _).
  - repeat split; cbn; lia.
  - reflexivity.
  - reflexivity.
  - repeat constructor; cbn; lia.
  - reflexivity.
  - exists w. split; [exact E|]. rewrite Ht. vm_compute. reflexivity.
Defined.

Lemma history_window_is_current_witness :
  HistoryWindow_BufferData 3 1 (HistoryWindow_new (CreateRowsWindow 2)) =
  Current_BufferData 3 1 (HistoryWindow_new (CreateRowsWindow 2)).
Proof. apply history_window_is_current. reflexivity. Defined.

Lemma delayed_window_covers_witness :
  exists w n, buffer_all HistoryWindow_BufferData [(1, 0); (9, 1); (14, 2)]
      (HistoryWindow_new (CreateRowsRangeWindow (-10) (-4) 0)) = Some w /\
    hw_table w = take n [(9, 1); (1, 0)] /\ (9, 1) ∈ hw_table w.
Proof.
  destruct (delayed_window_covers [(1, 0); (9, 1); (14, 2)] (CreateRowsRangeWindow (-10) (-4) 0)
    (14, 2) [(9, 1); (1, 0)]) as (w & n & E & Ht & _ & Hin).
  - repeat split; cbn; lia.
  - repeat constructor; cbn; lia.
  - reflexivity.
  - repeat constructor; cbn; lia.
  - exists w, n. split; [exact E|]. split; [rewrite Ht; reflexivity|].
    apply Hin; [right; left|vm_compute; split; discriminate].
Defined.

(** A delayed window keeps expired rows while no new row enters the range:
    with the range from 10 to 4 before the current row and rows at 1, 9 and
    12, the row at 1 is still in the window at time 12, where the range is
    [[2, 8]]. *)
Theorem delayed_window_keeps_expired :
  exists w, buffer_all HistoryWindow_BufferData [(1, 0); (9, 1); (12, 2)]
      (HistoryWindow_new (CreateRowsRangeWindow (-10) (-4) 0)) = Some w /\
    hw_table w = [(1, 0)] /\
    start_of (CreateRowsRangeWindow (-10) (-4) 0) [(12, 2)] = 2.
Proof. eexists. split; [vm_compute; reflexivity|]. split; reflexivity. Qed.

(** At time stamp 0 EXCLUDE CURRENT_TIME does not exclude: the bound
    [key - 1] wraps around, so the row enters the window twice, once as the
    current row and once from the history buffer. *)
Theorem exclude_current_time_at_zero (row : Z) :
  exists w, Current_BufferData 0 row
      (set_exclude_current_time true (HistoryWindow_new (CreateRowsRangeWindow (-3) 0 0))) =
    Some (true, w) /\ hw_table w = [(0, row); (0, row)].
Proof. eexists. split; [vm_compute; reflexivity|]. reflexivity. Qed.
