(* ===== verification/Rows.v ===== *)
(** * Slices and rows

    Models [include/base/fe_slice.h] (the view part; the reference counts are
    in [SliceOwnership]) and [include/codec/row.h] with [src/codec/row.cc]. A
    joined row is a list of slices; the code generator addresses a column by
    the number of its slice. A slice is its length and the memory its pointer
    refers to, [None] for the null pointer. *)

From stdpp Require Import base numbers option list.
From S2P Require Import Prelude Layout TypeCodec.

(** ** Slices *)

Record Slice := mkSlice { sl_size : Z; sl_data : option (list Z) }.

(** [Slice()] points to the empty C string. *)
Definition Slice_default : Slice := mkSlice 0 (Some [0]).
Definition Slice_clear (_ : Slice) : Slice := Slice_default.
Definition Slice_reset (d : option (list Z)) (size : Z) (_ : Slice) : Slice :=
  mkSlice (u32 size) d.
(** [RefCountedSlice()]: the null slice. *)
Definition RefCountedSlice_default : Slice := mkSlice 0 None.

Definition Slice_empty (s : Slice) : bool := 0 =? sl_size s.

(** [operator[]], with its assertion. *)
Definition Slice_byte (s : Slice) (n : Z) : option Z :=
  if n <? sl_size s then m ← sl_data s; bs ← load m n 1; Some (i8 (le_val bs)) else None.

(** [remove_prefix], with its assertion. *)
Definition Slice_remove_prefix (n : Z) (s : Slice) : option Slice :=
  if n <=? sl_size s
  then Some (mkSlice (u32 (sl_size s - n)) (drop (Z.to_nat n) <$> sl_data s))
  else None.

Definition Slice_ToString (s : Slice) : option (list Z) :=
  ptr_load (sl_data s) (Z.to_nat (sl_size s)).

Definition Slice_starts_with (s x : Slice) : option bool :=
  if sl_size s >=? sl_size x then
    a ← ptr_load (sl_data s) (Z.to_nat (sl_size x));
    b ← ptr_load (sl_data x) (Z.to_nat (sl_size x));
    Some (memcmp a b =? 0)
  else Some false.

Definition Slice_eq (x y : Slice) : option bool :=
  if sl_size x =? sl_size y then
    a ← ptr_load (sl_data x) (Z.to_nat (sl_size x));
    b ← ptr_load (sl_data y) (Z.to_nat (sl_size x));
    Some (memcmp a b =? 0)
  else Some false.

Definition Slice_ne (x y : Slice) : option bool := negb <$> Slice_eq x y.

Definition Slice_compare (a b : Slice) : option Z :=
  let min_len := Z.to_nat (if sl_size a <? sl_size b then sl_size a else sl_size b) in
  da ← ptr_load (sl_data a) min_len;
  db ← ptr_load (sl_data b) min_len;
  let r := memcmp da db in
  Some (if r =? 0
        then if sl_size a <? sl_size b then -1
             else if sl_size a >? sl_size b then 1 else r
        else r).

(** ** Rows *)

Record Row := mkRow { slice_ : Slice; slices_ : list Slice }.

Definition Row_default : Row := mkRow RefCountedSlice_default [].
Definition Row_of_slice (s : Slice) : Row := mkRow s [].
Definition Row_of_string (str : list Z) : Row :=
  mkRow (mkSlice (u32 (Z.of_nat (length str))) (Some str)) [].

(** [Row::buf(pos)] and [Row::size(pos)]: no bounds check. *)
Definition nth_slice (r : Row) (pos : Z) : option Slice :=
  if 0 =? pos then Some (slice_ r)
  else if 0 <? pos then slices_ r !! Z.to_nat (pos - 1) else None.
Definition buf (r : Row) (pos : Z) : option (option (list Z)) := sl_data <$> nth_slice r pos.
Definition size (r : Row) (pos : Z) : option Z := (fun s => i32 (sl_size s)) <$> nth_slice r pos.

Definition empty (r : Row) : bool :=
  Slice_empty (slice_ r) && match slices_ r with [] => true | _ => false end.

Definition GetSlice (r : Row) (slice_index : Z) : Slice :=
  if slice_index >=? Z.of_nat (length (slices_ r)) + 1 then RefCountedSlice_default
  else if 0 =? slice_index then slice_ r
  else default RefCountedSlice_default (slices_ r !! Z.to_nat (slice_index - 1)).

Definition Append (s : Slice) (r : Row) : Row := mkRow (slice_ r) (slices_ r ++ [s]).
Definition Append_slices (ss : list Slice) (r : Row) : Row := mkRow (slice_ r) (slices_ r ++ ss).
Definition Append_row (b : Row) (r : Row) : Row := Append_slices (slices_ b) (Append (slice_ b) r).
Definition Reset (d : option (list Z)) (n : Z) (r : Row) : Row :=
  mkRow (Slice_reset d n (slice_ r)) (slices_ r).
Definition ToString (r : Row) : option (list Z) := Slice_ToString (slice_ r).
Definition GetRowPtrCnt (r : Row) : Z := i32 (1 + Z.of_nat (length (slices_ r))).
Definition GetRowPtrs (r : Row) : list (option (list Z)) :=
  sl_data (slice_ r) :: map sl_data (slices_ r).
Definition GetRowSizes (r : Row) : list Z :=
  i32 (sl_size (slice_ r)) :: map (fun s => i32 (sl_size s)) (slices_ r).

(** [slices_[i] = s] on a vector. *)
Definition vec_set (v : list Slice) (i : nat) (s : Slice) : option (list Slice) :=
  if decide (i < length v)%nat then Some (<[i := s]> v) else None.

(** [for (offset = ..) if (src.size() > offset) slices_[offset + base] = src[offset];],
    [n] turns from [offset]. *)
Fixpoint copy_loop (n offset base : nat) (src dst : list Slice) : option (list Slice) :=
  match n with
  | O => Some dst
  | S n' =>
      dst' ← match src !! offset with
             | Some s => vec_set dst (offset + base) s
             | None => Some dst
             end;
      copy_loop n' (S offset) base src dst'
  end.

(** [Row(major_slices, major, secondary_slices, secondary)]; the counts are
    [size_t]. *)
Definition Row_concat (major_slices : Z) (major : Row) (secondary_slices : Z)
    (secondary : Row) : option Row :=
  let v0 := replicate (Z.to_nat (u64 (major_slices + secondary_slices - 1)))
              RefCountedSlice_default in
  v1 ← copy_loop (Z.to_nat (u64 (major_slices - 1))) 0 0 (slices_ major) v0;
  v2 ← vec_set v1 (Z.to_nat (u64 (major_slices - 1))) (slice_ secondary);
  v3 ← copy_loop (Z.to_nat (u64 (secondary_slices - 1))) 0 (Z.to_nat major_slices)
         (slices_ secondary) v2;
  Some (mkRow (slice_ major) v3).

(** [Row(slice, secondary_slices, secondary)]. *)
Definition Row_concat_slice (s : Slice) (secondary_slices : Z) (secondary : Row) : option Row :=
  let v0 := replicate (Z.to_nat secondary_slices) RefCountedSlice_default in
  v1 ← vec_set v0 0 (slice_ secondary);
  v2 ← copy_loop (Z.to_nat (u64 (secondary_slices - 1))) 0 1 (slices_ secondary) v1;
  Some (mkRow s v2).

(** The loop of [Row::compare] and the tie-break on the number of slices. *)
Fixpoint compare_loop (a b : list Slice) : option Z :=
  match a, b with
  | x :: a', y :: b' =>
      r ← Slice_compare x y; if r =? 0 then compare_loop a' b' else Some r
  | [], [] => Some 0
  | [], _ :: _ => Some (-1)
  | _ :: _, [] => Some 1
  end.

Definition Row_compare (a b : Row) : option Z :=
  r ← Slice_compare (slice_ a) (slice_ b);
  if negb (r =? 0) then Some r else compare_loop (slices_ a) (slices_ b).

(** ** Comparison *)

Definition sl_denotes (s : Slice) (bs : list Z) : Prop :=
  sl_size s = Z.of_nat (length bs) /\ ptr_load (sl_data s) (length bs) = Some bs.

(** The byte strings of the slices of a row. *)
Definition row_denotes (r : Row) (l : list (list Z)) : Prop :=
  Forall2 sl_denotes (slice_ r :: slices_ r) l.

(** Lexicographic order of lists of byte strings. *)
Fixpoint rows_lex (a b : list (list Z)) : Z :=
  match a, b with
  | [], [] => 0
  | [], _ => -1
  | _, [] => 1
  | x :: a', y :: b' => let r := lex_compare x y in if r =? 0 then rows_lex a' b' else r
  end.

Lemma Slice_compare_lex a b x y :
  sl_denotes a x -> sl_denotes b y -> Slice_compare a b = Some (lex_compare x y).
Proof.
  intros Ha Hb.
  exact (compare_lex (mkStringRef (sl_size a) (sl_data a)) (mkStringRef (sl_size b) (sl_data b))
           x y Ha Hb).
Qed.

Lemma compare_loop_lex a b x y :
  Forall2 sl_denotes a x -> Forall2 sl_denotes b y -> compare_loop a b = Some (rows_lex x y).
Proof.
  intros Ha. revert b y. induction Ha as [|s bs a x Hs Ha IH]; intros b y Hb;
    destruct Hb as [|s' bs' b y Hs' Hb]; cbn [compare_loop rows_lex]; try done.
  rewrite (Slice_compare_lex _ _ _ _ Hs Hs'). cbn [mbind option_bind]. case_if; [|done].
  by apply IH.
Qed.

Lemma rows_lex_eq a b : rows_lex a b = 0 <-> a = b.
Proof.
  revert b. induction a as [|x a IH]; intros [|y b]; simpl; try done.
  pose proof (lex_compare_eq x y) as E. destruct (Z.eqb_spec (lex_compare x y) 0) as [E0|E0].
  - rewrite IH. apply E in E0 as ->. split; congruence.
  - split; [done|]. intros [= -> ->]. by destruct (proj2 E eq_refl).
Qed.

Lemma rows_lex_antisym a b : rows_lex b a = - rows_lex a b.
Proof.
  revert b. induction a as [|x a IH]; intros [|y b]; simpl; try done.
  rewrite (lex_compare_antisym x y). repeat case_if; try lia. apply IH.
Qed.

Lemma rows_lex_trans a b c : rows_lex a b < 0 -> rows_lex b c < 0 -> rows_lex a c < 0.
Proof.
  revert b c. induction a as [|x a IH]; intros [|y b] [|z c]; simpl; try lia.
  pose proof (lex_compare_trans x y z) as T.
  destruct (Z.eqb_spec (lex_compare x y) 0) as [E|E];
    [apply lex_compare_eq in E as ->; case_if; [apply IH|done]|].
  destruct (Z.eqb_spec (lex_compare y z) 0) as [E'|E'];
    [apply lex_compare_eq in E' as <-; case_if; lia|].
  intros. case_if; lia.
Qed.

(** [Row::compare] never reads outside the slices and is a total order on
    the contents of rows: it returns 0 exactly for rows with the same byte
    strings in the same slices, swapping the arguments flips the sign, and it
    is transitive. *)
Theorem Row_compare_order a b c x y z :
  row_denotes a x -> row_denotes b y -> row_denotes c z ->
  exists ab bc ac,
    Row_compare a b = Some ab /\ Row_compare b c = Some bc /\ Row_compare a c = Some ac /\
    (ab = 0 <-> x = y) /\ Row_compare b a = Some (- ab) /\
    (ab < 0 -> bc < 0 -> ac < 0) /\ ab = rows_lex x y.
Proof.
  intros Ha Hb Hc.
  assert (forall r s u v, row_denotes r u -> row_denotes s v ->
            Row_compare r s = Some (rows_lex u v)) as E.
  { intros r s u v Hr Hs. rewrite <- (compare_loop_lex _ _ _ _ Hr Hs). unfold Row_compare.
    cbn [compare_loop]. destruct (Slice_compare _ _) as [d|]; [|done]. cbn [mbind option_bind].
    by destruct (d =? 0). }
  exists (rows_lex x y), (rows_lex y z), (rows_lex x z).
  rewrite !(E _ _ _ _ Ha Hb), !(E _ _ _ _ Hb Hc), !(E _ _ _ _ Ha Hc), !(E _ _ _ _ Hb Ha).
  rewrite (rows_lex_antisym x y). split_and!; try done; [apply rows_lex_eq|apply rows_lex_trans].
Qed.

Lemma Row_compare_order_witness :
  let a := mkRow (mkSlice 1 (Some [7; 9])) [] in
  let b := mkRow (mkSlice 1 (Some [7])) [mkSlice 0 None] in
  exists ab bc ac,
    Row_compare a b = Some ab /\ Row_compare b a = Some bc /\ Row_compare a a = Some ac /\
    (ab = 0 <-> [[7]] = [[7]; []]) /\ Row_compare b a = Some (- ab) /\
    (ab < 0 -> bc < 0 -> ac < 0) /\ ab = rows_lex [[7]] [[7]; []].
Proof.
  apply (Row_compare_order _ _ _ [[7]] [[7]; []] [[7]]); repeat constructor.
Defined.

(** ** Joined rows *)

Lemma copy_loop_lookup n : forall offset base src dst,
  (offset + base + n <= length dst)%nat ->
  exists dst', copy_loop n offset base src dst = Some dst' /\ length dst' = length dst /\
    forall i, dst' !! i =
      if decide (offset + base <= i < offset + base + n)%nat
      then match src !! (i - base)%nat with Some s => Some s | None => dst !! i end
      else dst !! i.
Proof.
  induction n as [|n IH]; intros offset base src dst Hl; cbn [copy_loop].
  { exists dst. split_and!; try done. intros i. by rewrite decide_False by lia. }
  set (d1 := match src !! offset with
             | Some s => <[(offset + base)%nat := s]> dst | None => dst end).
  assert (match src !! offset with Some s => vec_set dst (offset + base) s
          | None => Some dst end = Some d1) as ->.
  { unfold d1, vec_set. destruct (src !! offset); [|done]. by rewrite decide_True by lia. }
  assert (length d1 = length dst) as Hd.
  { unfold d1. destruct (src !! offset); [|done]. by rewrite length_insert. }
  cbn [mbind option_bind]. destruct (IH (S offset) base src d1) as (dst' & E & El & Ei); [lia|].
  exists dst'. split_and!; [done|lia|]. intros i. rewrite Ei.
  destruct (decide (i = offset + base)%nat) as [->|Hi].
  - rewrite decide_False, decide_True by lia. replace (offset + base - base)%nat with offset by lia.
    unfold d1. destruct (src !! offset); [|done]. by rewrite list_lookup_insert_eq by lia.
  - assert (d1 !! i = dst !! i) as ->.
    { unfold d1. destruct (src !! offset); [|done]. by rewrite list_lookup_insert_ne by lia. }
    destruct (decide (S offset + base <= i < S offset + base + n)%nat);
      [by rewrite decide_True by lia|by rewrite decide_False by lia].
Qed.

Lemma GetSlice_lookup r i :
  GetSlice r (Z.of_nat i) =
  default RefCountedSlice_default ((slice_ r :: slices_ r) !! i).
Proof.
  unfold GetSlice. rewrite Z.geb_leb. destruct i as [|i].
  - by case_if; [lia|].
  - replace (Z.to_nat (Z.of_nat (S i) - 1)) with i by lia. rewrite !lookup_cons.
    case_if; [|case_if; [lia|done]]. by rewrite lookup_ge_None_2 by lia.
Qed.

Lemma nth_slice_lookup r i : nth_slice r (Z.of_nat i) = (slice_ r :: slices_ r) !! i.
Proof.
  unfold nth_slice. destruct i as [|i]; [done|].
  case_if; [lia|]. case_if; [|lia]. by replace (Z.to_nat (Z.of_nat (S i) - 1)) with i by lia.
Qed.

Lemma vec_set_Some v i s : (i < length v)%nat -> vec_set v i s = Some (<[i := s]> v).
Proof. intros. unfold vec_set. by rewrite decide_True. Qed.

Lemma match_default (o : option Slice) :
  match o with Some s => Some s | None => Some RefCountedSlice_default end =
  Some (default RefCountedSlice_default o).
Proof. by destruct o. Qed.

(** Joining a bare slice with a row is joining the row of that slice. *)
Lemma Row_concat_slice_row sl (s : nat) (secondary : Row) :
  (0 < s)%nat -> Z.of_nat (S s) < 18446744073709551616 ->
  Row_concat_slice sl (Z.of_nat s) secondary =
  Row_concat 1 (Row_of_slice sl) (Z.of_nat s) secondary.
Proof.
  intros Hs Hr. unfold Row_concat, Row_concat_slice. rewrite !u64_small by lia.
  by replace (1 + Z.of_nat s - 1) with (Z.of_nat s) by lia.
Qed.

Lemma Row_concat_lookup (m s : nat) (major secondary : Row) :
  (0 < m)%nat -> (0 < s)%nat -> Z.of_nat (m + s) < 18446744073709551616 ->
  exists r, Row_concat (Z.of_nat m) major (Z.of_nat s) secondary = Some r /\
    length (slices_ r) = (m + s - 1)%nat /\
    (forall i, (i < m)%nat -> nth_slice r (Z.of_nat i) = Some (GetSlice major (Z.of_nat i))) /\
    (forall j, (j < s)%nat ->
       nth_slice r (Z.of_nat (m + j)) = Some (GetSlice secondary (Z.of_nat j))).
Proof.
  intros Hm Hs Hr.
  unfold Row_concat. rewrite !u64_small by lia.
  replace (Z.to_nat (Z.of_nat m + Z.of_nat s - 1)) with (m + s - 1)%nat by lia.
  replace (Z.to_nat (Z.of_nat m - 1)) with (m - 1)%nat by lia.
  replace (Z.to_nat (Z.of_nat s - 1)) with (s - 1)%nat by lia. rewrite Nat2Z.id.
  set (v0 := replicate (m + s - 1) RefCountedSlice_default).
  assert (length v0 = m + s - 1)%nat as L0 by apply length_replicate.
  destruct (copy_loop_lookup (m - 1) 0 0 (slices_ major) v0) as (v1 & -> & L1 & E1); [lia|].
  cbn [mbind option_bind]. rewrite vec_set_Some by lia. cbn [mbind option_bind].
  destruct (copy_loop_lookup (s - 1) 0 m (slices_ secondary)
    (<[(m - 1)%nat := slice_ secondary]> v1)) as (v3 & -> & L3 & E3);
    [rewrite length_insert; lia|].
  cbn [mbind option_bind]. rewrite length_insert in L3.
  eexists. split_and!; [done|cbn; lia| |].
  - intros i Hi. rewrite nth_slice_lookup, GetSlice_lookup. cbn [slice_ slices_].
    destruct i as [|i]; [done|]. rewrite !lookup_cons.
    rewrite E3, decide_False by lia. rewrite list_lookup_insert_ne by lia.
    rewrite E1, decide_True, Nat.sub_0_r by lia. unfold v0. rewrite lookup_replicate_2 by lia.
    apply match_default.
  - intros j Hj. rewrite nth_slice_lookup, GetSlice_lookup. cbn [slice_ slices_].
    destruct j as [|j].
    + replace (m + 0)%nat with (S (m - 1)) by lia. rewrite !lookup_cons.
     
      rewrite E3, decide_False by lia. by rewrite list_lookup_insert_eq by lia.
    + replace (m + S j)%nat with (S (m + j)) by lia. rewrite !lookup_cons.
     
      rewrite E3, decide_True by lia. replace (m + j - m)%nat with j by lia.
      rewrite list_lookup_insert_ne by lia. rewrite E1, decide_False by lia.
      unfold v0. rewrite lookup_replicate_2 by lia. apply match_default.
Qed.

(** Joining two rows: the result has as many slices as both sides were
    declared to have; slice [i] of the major side and slice [j] of the other
    side are found at [i] and at [major_slices + j], and a side with fewer
    slices than declared is filled with null slices. No slice is written
    outside the vector. Joining a bare slice is the case of one slice. *)
Theorem Row_concat_slices (m s : nat) (major secondary : Row) :
  (0 < m)%nat -> (0 < s)%nat -> Z.of_nat (m + s) < 18446744073709551616 ->
  exists r, Row_concat (Z.of_nat m) major (Z.of_nat s) secondary = Some r /\
    length (slices_ r) = (m + s - 1)%nat /\
    (forall i, (i < m)%nat -> nth_slice r (Z.of_nat i) = Some (GetSlice major (Z.of_nat i))) /\
    (forall j, (j < s)%nat ->
       nth_slice r (Z.of_nat (m + j)) = Some (GetSlice secondary (Z.of_nat j))) /\
    (m = 1%nat -> slices_ major = [] ->
       Row_concat_slice (slice_ major) (Z.of_nat s) secondary = Some r).
Proof.
  intros Hm Hs Hr. destruct (Row_concat_lookup m s major secondary Hm Hs Hr) as (r & E & ? & ? & ?).
  exists r. split_and!; try done. intros -> E0. rewrite Row_concat_slice_row, <- E by lia.
  destruct major; cbn in E0; by subst.
Qed.

Lemma Row_concat_slices_witness :
  let a := Row_of_string [1] in
  let b := mkRow (mkSlice 1 (Some [2])) [mkSlice 1 (Some [3])] in
  exists r, Row_concat 1 a 3 b = Some r /\ length (slices_ r) = 3%nat /\
    (forall i, (i < 1)%nat -> nth_slice r (Z.of_nat i) = Some (GetSlice a (Z.of_nat i))) /\
    (forall j, (j < 3)%nat -> nth_slice r (Z.of_nat (1 + j)) = Some (GetSlice b (Z.of_nat j))) /\
    (1%nat = 1%nat -> slices_ a = [] -> Row_concat_slice (slice_ a) 3 b = Some r).
Proof. apply (Row_concat_slices 1 3); lia. Defined.
