(* ===== verification/RowSelector.v ===== *)
(** * [RowSelector]: projecting columns into a new row

    Models [src/codec/fe_row_selector.cc]: a selector reads chosen columns of
    the slices of a row with one [RowView] per slice and writes them with a
    [RowBuilder] into a fresh buffer. The status results the code ignores are
    ignored here. *)

From stdpp Require Import base numbers option list.
From S2P Require Import Prelude Layout TypeCodec RowBuilder RowView Rows.

Record RowSelector := mkRowSelector {
  rs_schemas : list Schema;
  rs_indices : list (Z * Z);
  rs_target_schema : Schema;
  rs_row_views : list RowView;
  rs_builder : RowBuilder
}.

(** An index pair that names no column contributes nothing. *)
Fixpoint CreateTargetSchema (schemas : list Schema) (indices : list (Z * Z)) : Schema :=
  match indices with
  | [] => []
  | (schema_idx, col_idx) :: indices' =>
      match (s ← schemas !! Z.to_nat schema_idx; s !! Z.to_nat col_idx) with
      | Some c => c :: CreateTargetSchema schemas indices'
      | None => CreateTargetSchema schemas indices'
      end
  end.

Section Selector.
Context (spark : bool).

Definition RowSelector_new (schemas : list Schema) (indices : list (Z * Z)) : RowSelector :=
  let target := CreateTargetSchema schemas indices in
  mkRowSelector schemas indices target (RowView_of_schema spark <$> schemas)
    (RowBuilder_new spark target).

Definition RowSelectorMakeIndices (indices : list Z) : list (Z * Z) := (pair 0) <$> indices.

Definition RowSelector_single (schema : Schema) (indices : list Z) : RowSelector :=
  RowSelector_new [schema] (RowSelectorMakeIndices indices).

(** [for (i < row_views_.size()) row_views_[i].Reset(row.buf(i), row.size(i))]. *)
Fixpoint reset_views (row : Row) (i : nat) (views : list RowView) : option (list RowView) :=
  match views with
  | [] => Some []
  | rv :: views' =>
      b ← buf row (Z.of_nat i);
      n ← size row (Z.of_nat i);
      r ← RowView.Reset b (u32 n) rv;
      rest ← reset_views row (S i) views';
      Some (r.2 :: rest)
  end.

(** What one column adds to the size of the strings. *)
Definition string_size (schema : Schema) (rv : RowView) (col_idx : Z) : option Z :=
  match schema !! Z.to_nat col_idx with
  | Some c =>
      if is_varchar (col_type c) then
        n ← IsNULL (rv_row rv) col_idx;
        if (n : bool) then Some 0
        else s ← GetStringUnsafe spark col_idx rv; Some (Z.of_nat (length s))
      else Some 0
  | None => Some 0
  end.

(** The first loop, [None] inside for [return false]. *)
Fixpoint sum_strings (schemas : list Schema) (views : list RowView) (indices : list (Z * Z))
    (str_size : Z) : option (option Z) :=
  match indices with
  | [] => Some (Some str_size)
  | (schema_idx, col_idx) :: indices' =>
      if schema_idx >=? Z.of_nat (length views) then Some None
      else
        schema ← schemas !! Z.to_nat schema_idx;
        rv ← views !! Z.to_nat schema_idx;
        n ← string_size schema rv col_idx;
        sum_strings schemas views indices' (u64 (str_size + n))
  end.

(** [row_view.GetDate(col_idx, &year, &month, &day)] into uninitialised
    variables, which (0, 0, 0) stands for: no date is written with year 0. *)
Definition read_date (col_idx : Z) (rv : RowView) : option (Z * Z * Z) :=
  '(_, ymd) ← GetDate col_idx (Some (0, 0, 0)) rv;
  d ← ymd;
  if bool_decide (d = (0, 0, 0)) then None else Some d.

(** The body of the second loop: one column is appended or skipped. *)
Definition copy_column (schema : Schema) (rv : RowView) (col_idx : Z) (rb : RowBuilder)
  : option RowBuilder :=
  match schema !! Z.to_nat col_idx with
  | None => Some rb
  | Some c =>
      n ← IsNULL (rv_row rv) col_idx;
      if (n : bool) then snd <$> AppendNULL rb
      else match col_type c with
           | kInt16 => v ← GetInt16Unsafe col_idx rv; snd <$> AppendInt16 spark v rb
           | kInt32 => v ← GetInt32Unsafe col_idx rv; snd <$> AppendInt32 spark v rb
           | kInt64 => v ← GetInt64Unsafe col_idx rv; snd <$> AppendInt64 spark v rb
           | kBool => v ← GetBoolUnsafe col_idx rv; snd <$> AppendBool spark v rb
           | kFloat => v ← GetFloatUnsafe col_idx rv; snd <$> AppendFloat spark v rb
           | kDouble => v ← GetDoubleUnsafe col_idx rv; snd <$> AppendDouble spark v rb
           | kDate => '(y, m, d) ← read_date col_idx rv; snd <$> AppendDate spark y m d rb
           | kTimestamp => v ← GetTimestampUnsafe col_idx rv; snd <$> AppendTimestamp spark v rb
           | kVarchar => s ← GetStringUnsafe spark col_idx rv;
                         snd <$> AppendString spark (Some s) (Z.of_nat (length s)) rb
           | kBlob | kNull => Some rb
           end
  end.

Fixpoint copy_columns (schemas : list Schema) (views : list RowView) (indices : list (Z * Z))
    (rb : RowBuilder) : option RowBuilder :=
  match indices with
  | [] => Some rb
  | (schema_idx, col_idx) :: indices' =>
      schema ← schemas !! Z.to_nat schema_idx;
      rv ← views !! Z.to_nat schema_idx;
      rb' ← copy_column schema rv col_idx rb;
      copy_columns schemas views indices' rb'
  end.

(** The content of memory [malloc] returns, by size. *)
Context (junk : nat -> list Z).

(** From the strings' size on: allocate, attach and copy. The output is the
    new buffer and its size; a builder that refuses the buffer goes on writing
    to the one it had. *)
Definition write_target (sel : RowSelector) (views : list RowView) (str_size : Z)
  : option (bool * option (list Z * Z) * RowSelector) :=
  let target_size := CalTotalLength (u32 str_size) (rs_builder sel) in
  let fresh := junk (Z.to_nat target_size) in
  r ← SetBuffer spark (Some fresh) target_size (rs_builder sel);
  rb ← copy_columns (rs_schemas sel) views (rs_indices sel) r.2;
  b ← (if (r.1 : bool) then rb_buf rb else Some fresh);
  Some (true, Some (b, target_size),
        mkRowSelector (rs_schemas sel) (rs_indices sel) (rs_target_schema sel) views rb).

Definition with_views (views : list RowView) (sel : RowSelector) : RowSelector :=
  mkRowSelector (rs_schemas sel) (rs_indices sel) (rs_target_schema sel) views (rs_builder sel).

Definition Select_row (row : Row) (sel : RowSelector)
  : option (bool * option (list Z * Z) * RowSelector) :=
  if negb (GetRowPtrCnt row =? Z.of_nat (length (rs_row_views sel))) then Some (false, None, sel)
  else
    views ← reset_views row 0 (rs_row_views sel);
    s ← sum_strings (rs_schemas sel) views (rs_indices sel) 0;
    match s with
    | None => Some (false, None, with_views views sel)
    | Some str_size => write_target sel views str_size
    end.

(** [Select(slice, size, ..)]: only the first slice; index pairs of other
    slices are refused. *)
Fixpoint sum_strings_slice (schema : Schema) (rv : RowView) (indices : list (Z * Z))
    (str_size : Z) : option (option Z) :=
  match indices with
  | [] => Some (Some str_size)
  | (schema_idx, col_idx) :: indices' =>
      if schema_idx >? 0 then Some None
      else
        n ← string_size schema rv col_idx;
        sum_strings_slice schema rv indices' (u64 (str_size + n))
  end.

Definition Select_slice (slice : option (list Z)) (n : Z) (sel : RowSelector)
  : option (bool * option (list Z * Z) * RowSelector) :=
  match rs_row_views sel with
  | [] => Some (false, None, sel)
  | rv :: views =>
      schema ← head (rs_schemas sel);
      r ← RowView.Reset slice (u32 n) rv;
      s ← sum_strings_slice schema r.2 (rs_indices sel) 0;
      match s with
      | None => Some (false, None, with_views (r.2 :: views) sel)
      | Some str_size => write_target sel (r.2 :: views) str_size
      end
  end.
End Selector.
