(* ===== verification/RowSelectorProof.v ===== *)
(** * [RowSelector] copies the selected columns *)

From stdpp Require Import base numbers option list.
From S2P Require Import Prelude Layout TypeCodec RowBuilder RowView RowCodec RowWrite RowRead CompiledProof Rows RowSelector.

(** ** One column *)

(** Reading a stored field with the typed load [get], known to read [H]. *)
Local Ltac fixed_field get H :=
  let E := fresh "E" in
  unfold get; pose proof (H ltac:(done) eq_refl) as E; rewrite E; cbn [mbind option_bind].

Section Column.
Context (cols : list ColumnDef) (size : Z) (vs : list (option Value)) (b : list Z).
Context (Hcols : Forall supported cols) (Hcount : schema_size cols < 2147483648).
Context (Hsize : 0 <= size < 4294967296) (Hfits : Forall2 value_fits cols vs).
Context (Hexact : size = bodies_start cols (GetAddrLength size) + sumz body_len vs).
Context (Hrow : row_holds cols size (GetAddrLength size) vs b).

Lemma GetStringUnsafe_value j c s :
  cols !! j = Some c -> col_type c = kVarchar -> vs !! j = Some (Some (VString s)) ->
  GetStringUnsafe false (Z.of_nat j) (view cols size b) = Some s.
Proof.
  intros Hc Ht Hv. unfold GetStringUnsafe. rewrite (view_entry cols size b j c Hc).
  cbn [mbind option_bind view rv_row rv_string_field_cnt rv_str_field_start_offset rv_str_addr_length].
  assert (is_varchar (col_type c) = true) as Hvar by (unfold is_varchar; by rewrite Ht).
  unfold layout_entry. rewrite Hvar.
  rewrite (GetStrFieldUnsafe_value cols size vs b) with (c := c) (s := s) by done.
  cbn -[charp_string Z.of_nat]. cbn [charp_string]. rewrite Nat2Z.id.
  by apply (rd_body _ _ _ _ _ (proj1 Hrow)).
Qed.

Lemma string_size_value j c v :
  cols !! j = Some c -> vs !! j = Some v ->
  string_size false cols (view cols size b) (Z.of_nat j) = Some (body_len v).
Proof.
  intros Hc Hv. destruct (rd_fits _ _ _ _ _ (proj1 Hrow) _ _ Hv) as (c' & Hc' & Hf).
  assert (c' = c) as -> by congruence. unfold string_size. rewrite Nat2Z.id, Hc.
  destruct (is_varchar (col_type c)) eqn:Hvar.
  - apply bool_decide_eq_true in Hvar as Ht. cbn [rv_row view].
    rewrite (column_null cols size vs b Hfits Hrow _ _ Hv). cbn [mbind option_bind].
    destruct v as [x|]; cbn [is_null_value]; [|done]. destruct Hf as [Hx _].
    rewrite Ht in Hx. destruct x; try done. by rewrite (GetStringUnsafe_value j c s).
  - apply bool_decide_eq_false in Hvar. destruct v as [x|]; [|done]. destruct Hf as [Hx _].
    by destruct x.
Qed.

Lemma read_date_value j c y m d :
  cols !! j = Some c -> col_type c = kDate -> vs !! j = Some (Some (VDate y m d)) ->
  valid_ymd y m d -> read_date (Z.of_nat j) (view cols size b) = Some (y, m, d).
Proof.
  intros Hc Ht Hv (? & ? & ?). unfold read_date.
  rewrite (GetDate_value cols size vs b Hcount Hfits Hrow j c _ Hc Ht Hv).
  cbn [mbind option_bind]. rewrite bool_decide_false; [done|]. intros [=]. lia.
Qed.

(** Copying a column is appending its value. *)
Lemma copy_column_append j c v rb :
  cols !! j = Some c -> vs !! j = Some v ->
  copy_column false cols (view cols size b) (Z.of_nat j) rb = snd <$> append_value false v rb.
Proof.
  intros Hc Hv. destruct (rd_fits _ _ _ _ _ (proj1 Hrow) _ _ Hv) as (c' & Hc' & Hf).
  assert (c' = c) as -> by congruence. unfold copy_column. rewrite Nat2Z.id, Hc. cbn [rv_row view].
  rewrite (column_null cols size vs b Hfits Hrow _ _ Hv). cbn [mbind option_bind].
  destruct v as [x|]; cbn [is_null_value]; [|done]. destruct Hf as [Hx Hr]. rewrite <- Hx.
  pose proof (fun n => field_s cols size vs b Hrow n j c x Hc Hv) as Hs.
  pose proof (fun n => field_u cols size vs b Hrow n j c x Hc Hv) as Hu.
  destruct x; cbn [value_type append_value value_in_range fixed_bytes] in *.
  - unfold GetBoolUnsafe. fixed_field v1.GetBoolFieldUnsafe (Hs 1%nat). by destruct b0.
  - unfold GetInt16Unsafe. fixed_field v1.GetInt16FieldUnsafe (Hs 2%nat).
    by rewrite (wraps_le_bytes 2) by (cbn; lia).
  - unfold GetInt32Unsafe. fixed_field v1.GetInt32FieldUnsafe (Hs 4%nat).
    by rewrite (wraps_le_bytes 4) by (cbn; lia).
  - unfold GetInt64Unsafe. fixed_field v1.GetInt64FieldUnsafe (Hs 8%nat).
    by rewrite (wraps_le_bytes 8) by (cbn; lia).
  - unfold GetTimestampUnsafe. fixed_field v1.GetInt64FieldUnsafe (Hs 8%nat).
    by rewrite (wraps_le_bytes 8) by (cbn; lia).
  - by rewrite (read_date_value j c y m d).
  - unfold GetFloatUnsafe. fixed_field v1.GetFloatFieldUnsafe (Hu 4%nat).
    by rewrite (le_val_bytes_small 4) by (cbn; lia).
  - unfold GetDoubleUnsafe. fixed_field v1.GetDoubleFieldUnsafe (Hu 8%nat).
    by rewrite (le_val_bytes_small 8) by (cbn; lia).
  - by rewrite (GetStringUnsafe_value j c s).
Qed.
End Column.

(** ** Views and builders of a selector *)

(** What [Init] leaves in a view and [Reset] keeps. *)
Definition view_of (s : Schema) (rv : RowView) : Prop :=
  rv_schema rv = s /\ rv_string_field_cnt rv = sumz strs s /\
  rv_str_field_start_offset rv = fixed_end s /\
  rv_offset_vec rv = imap (entry s (fixed_start s) 0) s.

Definition builder_of (s : Schema) (rb : RowBuilder) : Prop :=
  rb_schema rb = s /\ rb_str_field_cnt rb = sumz strs s /\
  rb_str_field_start_offset rb = fixed_end s /\
  rb_offset_vec rb = imap (entry s (fixed_start s) 0) s.

(** Schemas whose positions fit 32 bits. *)
Definition schema_ok (s : Schema) : Prop :=
  Forall supported s /\ schema_size s < 2147483648 /\ fixed_end s + sumz strs s < 4294967296.

Lemma row_ok_schema cols vs : row_ok cols vs -> schema_ok cols.
Proof.
  intros [Hc Hv Hne Hn Hs]. pose proof (sumz_nonneg strs strs_nonneg cols).
  pose proof (sumz_nonneg body_len body_len_nonneg vs). split_and!; [done|done|lia].
Qed.

Lemma row_ok_bodies cols vs : row_ok cols vs -> 0 <= sumz body_len vs < 4294967296.
Proof.
  intros [Hc Hv Hne Hn Hs]. pose proof (sumz_nonneg strs strs_nonneg cols).
  pose proof (sumz_nonneg body_len body_len_nonneg vs).
  pose proof (sumz_nonneg width width_nonneg cols).
  destruct (fixed_start_pos cols Hn) as [? _]. unfold fixed_end in Hs. lia.
Qed.

Lemma RowView_of_schema_ok s : schema_ok s -> view_of s (RowView_of_schema false s).
Proof.
  intros (Hc & Hn & Hr). destruct (fixed_start_pos s Hn) as [? _].
  pose proof (sumz_nonneg width width_nonneg s). pose proof (sumz_nonneg strs strs_nonneg s).
  unfold RowView_of_schema, Init. cbn [rv_schema rv_string_field_cnt rv_offset_vec].
  fold (fixed_start s). rewrite u32_small by lia.
  rewrite init_loop_spec by (done || unfold fixed_end in *; lia). done.
Qed.

Lemma RowBuilder_new_ok s : schema_ok s -> builder_of s (RowBuilder_new false s).
Proof. intros (Hc & Hn & Hr). by rewrite RowBuilder_new_layout. Qed.

(** The row in a slice. *)
Definition holds (cols : Schema) (vs : list (option Value)) (b : list Z) : Prop :=
  row_ok cols vs /\
  row_size cols vs = bodies_start cols (GetAddrLength (row_size cols vs)) + sumz body_len vs /\
  0 <= row_size cols vs < 4294967296 /\
  row_holds cols (row_size cols vs) (GetAddrLength (row_size cols vs)) vs b.

Definition slice_at (row : Row) (i : nat) (cols : Schema) (vs : list (option Value)) : Prop :=
  row_ok cols vs /\
  exists b0 b, row_size cols vs <= Z.of_nat (length b0) /\ encode_row cols vs b0 = Some b /\
    nth_slice row (Z.of_nat i) = Some (mkSlice (row_size cols vs) (Some b)).

Lemma encode_row_inv cols vs b0 b :
  row_ok cols vs -> row_size cols vs <= Z.of_nat (length b0) -> encode_row cols vs b0 = Some b ->
  holds cols vs b.
Proof.
  intros Hok Hb Eb. destruct (encode_row_holds _ _ _ Hok Hb)
    as (He & Hsz & rb1 & rb2 & b' & E1 & E2 & E3 & Hh).
  assert (b' = b) as ->; [|done].
  unfold encode_row in Eb. fold (row_size cols vs) in Eb. rewrite E1 in Eb.
  cbn [mbind option_bind] in Eb. rewrite E2 in Eb. cbn in Eb. congruence.
Qed.

Lemma Reset_view cols vs b rv :
  holds cols vs b -> view_of cols rv ->
  RowView.Reset (Some b) (row_size cols vs) rv = Some (true, view cols (row_size cols vs) b).
Proof.
  intros (Hok & He & Hsz & Hh) (E1 & E2 & E3 & E4). destruct Hok as [Hc Hv Hne Hn Hs].
  pose proof (GetAddrLength_range (row_size cols vs)).
  destruct (read_order cols (row_size cols vs) vs) as (? & ? & ?); try done.
  destruct (fixed_start_pos cols Hn) as [_ Hl].
  assert (0 < length cols)%nat as Hpos by (destruct cols; [done|cbn; lia]).
  unfold RowView.Reset. rewrite E1.
  rewrite (proj2 (Z.eqb_neq _ 0)) by (unfold schema_size; lia).
  rewrite (proj2 (Z.leb_gt _ HEADER_LENGTH)) by (change HEADER_LENGTH with 6; lia). cbn [orb].
  rewrite (stored_size cols (row_size cols vs) vs b) by done. cbn [mbind option_bind].
  rewrite Z.eqb_refl. cbn [negb]. by rewrite E2, E3, E4.
Qed.

Lemma view_view_of cols n b : view_of cols (view cols n b).
Proof. done. Qed.

(** The slices of a row hold rows of the schemas. *)
Definition row_slices (row : Row) (i : nat) (schemas : list Schema)
    (data : list (list (option Value))) : Prop :=
  length data = length schemas /\
  forall k cols vs, schemas !! k = Some cols -> data !! k = Some vs -> slice_at row (i + k) cols vs.

(** The views after [Reset]. *)
Definition views_hold (schemas : list Schema) (data : list (list (option Value)))
    (views : list RowView) : Prop :=
  Forall2 view_of schemas views /\
  forall k cols vs, schemas !! k = Some cols -> data !! k = Some vs ->
    exists b, views !! k = Some (view cols (row_size cols vs) b) /\ holds cols vs b.

Lemma reset_views_hold row : forall schemas data views i,
  Forall2 view_of schemas views -> row_slices row i schemas data ->
  exists views', reset_views row i views = Some views' /\ views_hold schemas data views'.
Proof.
  intros schemas data views i Hv. revert data i.
  induction Hv as [|s rv schemas views Hs Hv IH]; intros data i [Hl Hk]; cbn [reset_views].
  { exists []. split; [done|]. split; [constructor|]. intros k ? ? Hn. by destruct k. }
  destruct data as [|vs data]; [done|]. cbn in Hl. injection Hl as Hl.
  destruct (Hk 0%nat s vs eq_refl eq_refl) as (Hok & b0 & b & Hb & Eb & Hn).
  rewrite Nat.add_0_r in Hn. pose proof (encode_row_inv _ _ _ _ Hok Hb Eb) as Hh.
  unfold buf, Rows.size. rewrite Hn. cbn [fmap option_fmap option_map mbind option_bind sl_data sl_size].
  destruct Hh as (_ & He & Hsz & Hh). rewrite u32_i32, u32_small by done.
  rewrite (Reset_view s vs b rv) by done. cbn [mbind option_bind snd].
  destruct (IH data (S i)) as (views' & -> & Hv' & Hk').
  { split; [done|]. intros k cols ws Hc Hd.
    replace (S i + k)%nat with (i + S k)%nat by lia. by apply Hk. }
  cbn [mbind option_bind]. eexists. split; [done|]. split; [constructor; [apply view_view_of|done]|].
  intros [|k] cols ws Hc Hd; [|by apply Hk']. cbn in Hc, Hd. simplify_eq.
  exists b. split; done.
Qed.

(** ** The two loops *)

(** An index pair names column [f.1] of a schema with value [f.2] in the row. *)
Definition selects (schemas : list Schema) (data : list (list (option Value)))
    (idx : Z * Z) (f : ColumnDef * option Value) : Prop :=
  0 <= idx.1 /\ 0 <= idx.2 /\
  exists cols vs, schemas !! Z.to_nat idx.1 = Some cols /\ data !! Z.to_nat idx.1 = Some vs /\
    cols !! Z.to_nat idx.2 = Some f.1 /\ vs !! Z.to_nat idx.2 = Some f.2.

Section Loops.
Context (schemas : list Schema) (data : list (list (option Value))) (views : list RowView).
Context (Hviews : views_hold schemas data views).

Lemma target_fields indices fields :
  Forall2 (selects schemas data) indices fields ->
  CreateTargetSchema schemas indices = fields.*1.
Proof.
  induction 1 as [|[si ci] f indices fields (? & ? & cols & vs & Hs & _ & Hc & _) H IH]; [done|].
  cbn [CreateTargetSchema fmap list_fmap]. cbn [fst snd] in *. rewrite Hs. cbn [mbind option_bind].
  rewrite Hc. by f_equal.
Qed.

(** The view and the row an index pair reads. *)
Lemma selected_view si ci c v :
  selects schemas data (si, ci) (c, v) ->
  exists cols vs b, schemas !! Z.to_nat si = Some cols /\ (si >=? Z.of_nat (length views)) = false /\
    views !! Z.to_nat si = Some (view cols (row_size cols vs) b) /\ holds cols vs b /\
    cols !! Z.to_nat ci = Some c /\ vs !! Z.to_nat ci = Some v /\ ci = Z.of_nat (Z.to_nat ci).
Proof.
  intros (? & ? & cols & vs & Hs & Hd & Hc & Hv). cbn [fst snd] in *.
  destruct (proj2 Hviews _ _ _ Hs Hd) as (b & Hb & Hh). exists cols, vs, b.
  pose proof (lookup_lt_Some _ _ _ Hb).
  split_and!; try done; [rewrite Z.geb_leb; apply Z.leb_gt; lia|lia].
Qed.

Lemma sum_strings_fields indices fields : forall acc,
  Forall2 (selects schemas data) indices fields -> 0 <= acc ->
  acc + sumz body_len fields.*2 < 18446744073709551616 ->
  sum_strings false schemas views indices acc = Some (Some (acc + sumz body_len fields.*2)).
Proof.
  intros acc H. revert acc. induction H as [|[si ci] [c v] indices fields Hx H IH]; intros acc Ha Hb;
    cbn [sum_strings fmap list_fmap sumz foldr] in *; [by rewrite Z.add_0_r|].
  destruct (selected_view _ _ _ _ Hx) as (cols & vs & b & Hs & Hg & Hv & Hh & Hc & Hvv & Eci).
  destruct Hh as (Hok & He & Hsz & Hh). destruct Hok as [Hc1 Hv1 Hne Hn1 Hs1].
  rewrite Hg, Hs. cbn [mbind option_bind]. rewrite Hv. cbn [mbind option_bind]. rewrite Eci.
  rewrite (string_size_value cols (row_size cols vs) vs b) with (c := c) (v := v) by done.
  cbn [mbind option_bind snd] in *. fold (sumz body_len fields.*2) in *.
  pose proof (body_len_nonneg v). pose proof (sumz_nonneg body_len body_len_nonneg fields.*2).
  rewrite u64_small by lia. rewrite IH by lia. do 2 f_equal. lia.
Qed.

Lemma copy_columns_fields indices fields : forall rb r,
  Forall2 (selects schemas data) indices fields ->
  append_all false fields.*2 rb = Some (true, r) ->
  copy_columns false schemas views indices rb = Some r.
Proof.
  intros rb r H. revert rb. induction H as [|[si ci] [c v] indices fields Hx H IH]; intros rb Ha;
    cbn [copy_columns fmap list_fmap append_all] in *; [by injection Ha as ->|].
  destruct (selected_view _ _ _ _ Hx) as (cols & vs & b & Hs & Hg & Hv & Hh & Hc & Hvv & Eci).
  destruct Hh as (Hok & He & Hsz & Hh). destruct Hok as [Hc1 Hv1 Hne Hn1 Hs1].
  rewrite Hs. cbn [mbind option_bind]. rewrite Hv. cbn [mbind option_bind]. rewrite Eci.
  rewrite (copy_column_append cols (row_size cols vs) vs b) with (c := c) (v := v) by done.
  cbn [snd] in Ha. destruct (append_value false v rb) as [[ok rb']|]; [|done].
  cbn in *. destruct ok; [|done]. by apply IH.
Qed.
End Loops.

Lemma SetBuffer_of s rb b n r :
  schema_ok s -> builder_of s rb ->
  SetBuffer false (Some b) n (RowBuilder_new false s) = Some (true, r) ->
  SetBuffer false (Some b) n rb = Some (true, r).
Proof.
  intros (Hc & Hn & Hr) (E1 & E2 & E3 & E4). rewrite RowBuilder_new_layout by done.
  destruct rb. cbn in E1, E2, E3, E4. subst. unfold SetBuffer.
  cbn [rb_schema rb_str_field_cnt rb_str_field_start_offset rb_offset_vec].
  by destruct (_ || _).
Qed.

Lemma CalTotalLength_of s rb n :
  schema_ok s -> builder_of s rb ->
  CalTotalLength n rb = CalTotalLength n (RowBuilder_new false s).
Proof.
  intros (Hc & Hn & Hr) (E1 & E2 & E3 & _). rewrite RowBuilder_new_layout by done.
  unfold CalTotalLength. by rewrite E1, E2, E3.
Qed.

(** ** Selecting *)

(** A selector between two calls. *)
Definition selector_ok (schemas : list Schema) (indices : list (Z * Z)) (sel : RowSelector) : Prop :=
  rs_schemas sel = schemas /\ rs_indices sel = indices /\
  Forall2 view_of schemas (rs_row_views sel) /\
  builder_of (CreateTargetSchema schemas indices) (rs_builder sel).

Lemma RowSelector_new_ok schemas indices :
  Forall schema_ok schemas -> schema_ok (CreateTargetSchema schemas indices) ->
  selector_ok schemas indices (RowSelector_new false schemas indices).
Proof.
  intros Hs Ht. split_and!; [done|done| |by apply RowBuilder_new_ok]. cbn.
  induction Hs as [|s schemas Hx Hs IH]; [constructor|]. constructor; [by apply RowView_of_schema_ok|].
  clear IH Ht. induction Hs; constructor; [by apply RowView_of_schema_ok|done].
Qed.

Lemma write_target_fields junk schemas data views indices fields sel :
  (forall n, length (junk n) = n) -> selector_ok schemas indices sel ->
  views_hold schemas data views -> Forall2 (selects schemas data) indices fields ->
  row_ok fields.*1 fields.*2 ->
  exists b sel',
    write_target false junk sel views (sumz body_len fields.*2) =
      Some (true, Some (b, row_size fields.*1 fields.*2), sel') /\
    selector_ok schemas indices sel' /\ holds fields.*1 fields.*2 b.
Proof.
  intros Hj (E1 & E2 & Hvo & Hb) Hviews Hsel Hok. pose proof (row_ok_schema _ _ Hok) as Hsok.
  rewrite (target_fields _ _ _ _ Hsel) in Hb. unfold write_target.
  rewrite (CalTotalLength_of _ _ _ Hsok Hb).
  pose proof (row_ok_bodies _ _ Hok). rewrite u32_small by lia.
  fold (row_size fields.*1 fields.*2). set (n := row_size fields.*1 fields.*2).
  destruct (encode_row_builder fields.*1 fields.*2 (junk (Z.to_nat n)) Hok)
    as (He & Hsz & rb1 & rb2 & b & S1 & S2 & S3); [rewrite Hj; fold n; lia|].
  fold n in He, Hsz, S1, S3. cbv zeta.
  rewrite (SetBuffer_of _ _ _ _ _ Hsok Hb S1). cbn [mbind option_bind fst snd].
  rewrite E1, E2, (copy_columns_fields schemas data views Hviews indices fields rb1 rb2 Hsel S2).
  cbn [mbind option_bind]. rewrite (ba_buf _ _ _ _ _ S3). cbn [mbind option_bind].
  eexists b, _. split; [done|]. split.
  - split_and!; [done|done|apply Hviews|]. cbn [rs_builder].
    rewrite (target_fields _ _ _ _ Hsel). by destruct S3.
  - split_and!; [done|done|lia|lia|]. apply (ba_holds _ _ _ _ _ S3).
Qed.

(** A selected row, read with a view of the target schema. *)
Lemma holds_read fields b :
  holds fields.*1 fields.*2 b ->
  exists rv, RowView_new false fields.*1 (Some b) (row_size fields.*1 fields.*2) = Some rv /\
    forall j c v, fields !! j = Some (c, v) ->
      read_value (col_type c) (Z.of_nat j) rv = Some (expected v).
Proof.
  intros (Hok & He & Hsz & Hh). destruct Hok as [Hc Hv Hne Hn Hs].
  exists (view fields.*1 (row_size fields.*1 fields.*2) b). split.
  - by apply (RowView_new_view _ _ fields.*2).
  - intros j c v Hj. apply (read_value_correct _ _ fields.*2); try done;
      rewrite list_lookup_fmap, Hj; done.
Qed.

(** C34: selecting columns of a joined row. For a row whose slices hold rows of
    the selector's schemas and index pairs that name columns of them, [Select]
    succeeds without undefined behaviour; the buffer it returns has the
    announced size and is a row of the target schema in which column [j] reads
    as the value of the [j]-th selected column, NULLs included; and the
    selector is ready for the next row. *)
Theorem row_selector_correct junk schemas data indices fields row sel :
  (forall n, length (junk n) = n) -> selector_ok schemas indices sel ->
  GetRowPtrCnt row = Z.of_nat (length schemas) -> row_slices row 0 schemas data ->
  Forall2 (selects schemas data) indices fields -> row_ok fields.*1 fields.*2 ->
  exists b sel' rv,
    Select_row false junk row sel = Some (true, Some (b, row_size fields.*1 fields.*2), sel') /\
    selector_ok schemas indices sel' /\
    CreateTargetSchema schemas indices = fields.*1 /\
    RowView_new false fields.*1 (Some b) (row_size fields.*1 fields.*2) = Some rv /\
    (forall j c v, fields !! j = Some (c, v) ->
       read_value (col_type c) (Z.of_nat j) rv = Some (expected v)).
Proof.
  intros Hj Hsel Hcnt Hrow Hf Hok. pose proof Hsel as (E1 & E2 & Hvo & Hb).
  destruct (reset_views_hold row schemas data _ 0 Hvo Hrow) as (views & Er & Hv).
  destruct (write_target_fields junk schemas data views indices fields sel Hj Hsel Hv Hf Hok)
    as (b & sel' & Ew & Hsel' & Hh).
  destruct (holds_read fields b Hh) as (rv & Ev & Hread).
  exists b, sel', rv. split_and!; try done; [|by apply (target_fields schemas data)].
  unfold Select_row. rewrite <- (Forall2_length _ _ _ Hvo), Hcnt, Z.eqb_refl. cbn [negb].
  rewrite Er. cbn [mbind option_bind]. rewrite E1, E2.
  pose proof (row_ok_bodies _ _ Hok).
  by rewrite (sum_strings_fields schemas data views Hv indices fields 0 Hf) by lia.
Qed.

(** ** Selecting from a single slice *)

Lemma sum_strings_single spark schema rv indices : forall acc,
  Forall (fun idx => 0 <= idx.1) indices ->
  sum_strings_slice spark schema rv indices acc = sum_strings spark [schema] [rv] indices acc.
Proof.
  intros acc H. revert acc. induction H as [|[si ci] indices Hi H IH]; intros acc; [done|].
  cbn [sum_strings_slice sum_strings]. cbn in Hi. rewrite Z.gtb_ltb, Z.geb_leb.
  change (Z.of_nat (length [rv])) with 1.
  destruct (Z.ltb_spec 0 si); [by rewrite (proj2 (Z.leb_le _ _)) by lia|].
  rewrite (proj2 (Z.leb_gt _ _)) by lia. assert (si = 0) as -> by lia. cbn [mbind option_bind].
  change (Z.to_nat 0) with 0%nat. cbn [lookup list_lookup mbind option_bind].
  destruct (string_size spark schema rv ci); [|done]. apply IH.
Qed.

(** The overload of [Select] on a plain buffer is the one on rows, for
    every selector of one schema and every buffer, whether valid or not: the
    same result, the same output and the same selector afterwards. *)
Theorem select_slice_is_row spark junk slice n sel schema rv :
  rs_schemas sel = [schema] -> rs_row_views sel = [rv] ->
  Forall (fun idx => 0 <= idx.1) (rs_indices sel) ->
  Select_slice spark junk slice n sel = Select_row spark junk (Row_of_slice (mkSlice n slice)) sel.
Proof.
  intros Es Ev Hi. unfold Select_slice, Select_row. rewrite Ev, Es. cbn [head length].
  change (GetRowPtrCnt (Row_of_slice (mkSlice n slice)) =? Z.of_nat 1) with true. cbn [negb].
  cbn [reset_views]. unfold buf, Rows.size.
  change (nth_slice (Row_of_slice (mkSlice n slice)) (Z.of_nat 0)) with (Some (mkSlice n slice)).
  cbn [fmap option_fmap option_map mbind option_bind sl_data sl_size].
  rewrite u32_i32. destruct (RowView.Reset slice (u32 n) rv) as [[ok rv']|]; [|done].
  cbn [mbind option_bind snd]. by rewrite sum_strings_single.
Qed.

(** A joined row of two slices and a selection that reorders their columns. *)
Definition sample_second : Schema := [mkcol [105] kVarchar; mkcol [106] kInt16].
Definition sample_data : list (list (option Value)) :=
  [sample_row; [Some (VString [120; 121]); Some (VInt16 5)]].
Definition sample_slices : Row :=
  mkRow (mkSlice 37 (encode_row sample_schema sample_row (replicate 37 0)))
    [mkSlice 12 (encode_row sample_second [Some (VString [120; 121]); Some (VInt16 5)] (replicate 12 0))].
Definition sample_indices : list (Z * Z) := [(1, 1); (0, 1); (0, 3); (1, 0); (0, 2)].
Definition sample_fields : list (ColumnDef * option Value) :=
  [(mkcol [106] kInt16, Some (VInt16 5)); (mkcol [98] kVarchar, Some (VString [104; 105]));
   (mkcol [100] kVarchar, None); (mkcol [105] kVarchar, Some (VString [120; 121]));
   (mkcol [99] kDate, Some (VDate 2020 5 27))].

Lemma sample_slices_hold : row_slices sample_slices 0 [sample_schema; sample_second] sample_data.
Proof.
  split; [done|]. intros [|[|k]] cols vs Hc Hd; try done; injection Hc as <-; injection Hd as <-.
  - split; [apply sample_row_ok|]. eexists (replicate 37 0), _.
    split; [vm_compute; discriminate|]. split; vm_compute; reflexivity.
  - split; [constructor; try done; repeat constructor; done|]. eexists (replicate 12 0), _.
    split; [vm_compute; discriminate|]. split; vm_compute; reflexivity.
Qed.

Lemma sample_selects :
  Forall2 (selects [sample_schema; sample_second] sample_data) sample_indices sample_fields.
Proof.
  repeat (constructor; [split_and!; [done|done|do 2 eexists; split_and!; reflexivity]|]). constructor.
Qed.

Lemma row_selector_correct_witness :
  exists b sel' rv,
    Select_row false (fun n => replicate n 7) sample_slices
      (RowSelector_new false [sample_schema; sample_second] sample_indices) =
      Some (true, Some (b, row_size sample_fields.*1 sample_fields.*2), sel') /\
    RowView_new false sample_fields.*1 (Some b) (row_size sample_fields.*1 sample_fields.*2) = Some rv /\
    read_value kVarchar 1 rv = Some (0, Some (VString [104; 105])) /\
    read_value kVarchar 2 rv = Some (expected None).
Proof.
  destruct (row_selector_correct (fun n => replicate n 7) [sample_schema; sample_second]
    sample_data sample_indices sample_fields sample_slices
    (RowSelector_new false [sample_schema; sample_second] sample_indices))
    as (b & sel' & rv & H1 & _ & _ & H2 & H3).
  - intros. apply length_replicate.
  - apply RowSelector_new_ok.
    + repeat (constructor; [split_and!; [repeat constructor; done|done|done]|]). constructor.
    + split_and!; [repeat constructor; done|done|done].
  - reflexivity.
  - apply sample_slices_hold.
  - apply sample_selects.
  - constructor; try done; repeat constructor; cbn; try lia; done.
  - exists b, sel', rv. split_and!; [exact H1|exact H2|exact (H3 1%nat _ _ eq_refl)|exact (H3 2%nat _ _ eq_refl)].
Defined.

Lemma select_slice_is_row_witness :
  Select_slice false (fun n => replicate n 7) (Some [1; 2]) 2
    (RowSelector_single false sample_schema [1; 0]) =
  Select_row false (fun n => replicate n 7) (Row_of_slice (mkSlice 2 (Some [1; 2])))
    (RowSelector_single false sample_schema [1; 0]).
Proof.
  apply (select_slice_is_row false (fun n => replicate n 7) (Some [1; 2]) 2
    (RowSelector_single false sample_schema [1; 0]) sample_schema
    (RowView_of_schema false sample_schema)); [reflexivity|reflexivity|].
  repeat (constructor; [cbn; lia|]). constructor.
Defined.
