(* ===== verification/SliceOwnership.v ===== *)
(** * Ownership of row buffers: [RefCountedSlice]

    Models the reference counting of [include/base/fe_slice.h] and
    [src/base/fe_slice.cc] on an explicit heap: the counters allocated with
    [new int(1)], the buffers that are handed to [CreateManaged], and the
    slice objects that are alive. An access to a freed counter, freeing a
    buffer twice and overflowing a counter are undefined ([None]). *)

From stdpp Require Import base numbers option list gmap.
From S2P Require Import Prelude.

(** A slice object: the pointer, the size and the pointer to the counter. *)
Record RefCountedSlice := mkRefCountedSlice {
  rs_data : nat; rs_size : Z; rs_ref_cnt : option nat
}.

Record Heap := mkHeap {
  counters : gmap nat Z;               (** live counters *)
  buffers : gset nat;                  (** live buffers owned by slices *)
  objects : gmap nat RefCountedSlice   (** live slice objects, by address *)
}.

Definition INT_MAX : Z := 2147483647.

(** [Release]; the pointer to the counter stays in the object. *)
Definition Release (s : RefCountedSlice) (h : Heap) : option Heap :=
  match rs_ref_cnt s with
  | None => Some h
  | Some c =>
      cnt ← counters h !! c;
      if cnt - 1 =? 0 then
        if decide (rs_data s ∈ buffers h)
        then Some (mkHeap (delete c (counters h)) (buffers h ∖ {[rs_data s]}) (objects h))
        else None
      else Some (mkHeap (<[c := cnt - 1]> (counters h)) (buffers h) (objects h))
  end.

(** [Update] of the object at [o]. *)
Definition Update (o : nat) (s : RefCountedSlice) (h : Heap) : option Heap :=
  match rs_ref_cnt s with
  | None => Some (mkHeap (counters h) (buffers h) (<[o := s]> (objects h)))
  | Some c =>
      cnt ← counters h !! c;
      if cnt + 1 <=? INT_MAX
      then Some (mkHeap (<[c := cnt + 1]> (counters h)) (buffers h) (<[o := s]> (objects h)))
      else None
  end.

(** The operations of a program that uses slices, with the mutators inherited
    from [Slice]. [CreateManaged] is given a fresh buffer [p]; [c] is the address
    [new] returns; [lit] is the address of the empty string literal. *)
Inductive slice_op :=
  | OpDefault (o : nat)
  | OpCreate (o p : nat) (size : Z)
  | OpCreateManaged (o p c : nat) (size : Z)
  | OpCopy (o src : nat)
  | OpMove (o src : nat)
  | OpAssign (o src : nat)
  | OpMoveAssign (o src : nat)
  | OpReset (o p : nat) (size : Z)
  | OpClear (o lit : nat)
  | OpRemovePrefix (o : nat) (n : Z)
  | OpDestroy (o : nat).

Definition construct (o : nat) (s : RefCountedSlice) (h : Heap) : Heap :=
  mkHeap (counters h) (buffers h) (<[o := s]> (objects h)).

(** The null pointer is address 0. *)
Definition RefCountedSlice_null : RefCountedSlice := mkRefCountedSlice 0 0 None.

Definition CreateManaged (o p c : nat) (size : Z) (h : Heap) : Heap :=
  mkHeap (<[c := 1]> (counters h)) ({[p]} ∪ buffers h)
    (<[o := mkRefCountedSlice p (u32 size) (Some c)]> (objects h)).

(** The copy constructor; the move constructor has the same body. *)
Definition copy_construct (o src : nat) (h : Heap) : option Heap :=
  s ← objects h !! src; Update o s h.

(** [operator=], for both kinds of references. *)
Definition assign (o src : nat) (h : Heap) : option Heap :=
  if decide (src = o) then Some h
  else
    this ← objects h !! o;
    s ← objects h !! src;
    h1 ← Release this h;
    Update o s h1.

(** [Slice::reset], [clear] and [remove_prefix] change the pointer and the size
    only: the counter stays. [Row::Reset] calls the first one. *)
Definition Slice_reset (o p : nat) (n : Z) (h : Heap) : option Heap :=
  this ← objects h !! o;
  Some (construct o (mkRefCountedSlice p (u32 n) (rs_ref_cnt this)) h).
Definition Slice_clear (o lit : nat) (h : Heap) : option Heap := Slice_reset o lit 0 h.
(** The assertion refuses a longer prefix. *)
Definition Slice_remove_prefix (o : nat) (n : Z) (h : Heap) : option Heap :=
  this ← objects h !! o;
  if (0 <=? n) && (n <=? rs_size this) then Slice_reset o (rs_data this + Z.to_nat n) (rs_size this - n) h else None.

Definition destroy (o : nat) (h : Heap) : option Heap :=
  this ← objects h !! o;
  h1 ← Release this h;
  Some (mkHeap (counters h1) (buffers h1) (delete o (objects h1))).

Definition slice_step (op : slice_op) (h : Heap) : option Heap :=
  match op with
  | OpDefault o => Some (construct o RefCountedSlice_null h)
  | OpCreate o p n => Some (construct o (mkRefCountedSlice p (u32 n) None) h)
  | OpCreateManaged o p c n => Some (CreateManaged o p c n h)
  | OpCopy o src | OpMove o src => copy_construct o src h
  | OpAssign o src | OpMoveAssign o src => assign o src h
  | OpReset o p n => Slice_reset o p n h
  | OpClear o lit => Slice_clear o lit h
  | OpRemovePrefix o n => Slice_remove_prefix o n h
  | OpDestroy o => destroy o h
  end.

Fixpoint slice_run (ops : list slice_op) (h : Heap) : option Heap :=
  match ops with [] => Some h | op :: ops' => h' ← slice_step op h; slice_run ops' h' end.

(** The inherited mutators know nothing of the counter, so a slice that owns its
    buffer must keep the pointer. *)
Definition keeps_pointer (o p : nat) (h : Heap) : bool :=
  match objects h !! o with Some s => bool_decide (rs_ref_cnt s = None) || bool_decide (rs_data s = p) | None => false end.

(** Objects are constructed once and used while they are alive, allocation
    returns fresh addresses and fewer than 2^31 objects are alive, as the language
    guarantees; [remove_prefix] gets its precondition, and the inherited mutators
    do not move the pointer of a managed slice. *)
Definition well_used (op : slice_op) (h : Heap) : bool :=
  match op with
  | OpDefault o | OpCreate o _ _ => bool_decide (objects h !! o = None)
  | OpCreateManaged o p c _ =>
      bool_decide (objects h !! o = None /\ (p ∉ buffers h) /\ counters h !! c = None)
  | OpCopy o src | OpMove o src =>
      bool_decide (objects h !! o = None /\ is_Some (objects h !! src)) &&
      (Z.of_nat (size (objects h)) <? INT_MAX)
  | OpAssign o src | OpMoveAssign o src =>
      bool_decide (is_Some (objects h !! o) /\ is_Some (objects h !! src)) &&
      (Z.of_nat (size (objects h)) <? INT_MAX)
  | OpReset o p _ | OpClear o p => keeps_pointer o p h
  | OpRemovePrefix o n =>
      match objects h !! o with
      | Some s => (0 <=? n) && (n <=? rs_size s) && keeps_pointer o (rs_data s + Z.to_nat n) h
      | None => false
      end
  | OpDestroy o => bool_decide (is_Some (objects h !! o))
  end.

(** A program that respects the language at every step it reaches. *)
Fixpoint well_used_run (ops : list slice_op) (h : Heap) : bool :=
  match ops with
  | [] => true
  | op :: ops' =>
      well_used op h && match slice_step op h with
                        | Some h' => well_used_run ops' h'
                        | None => true
                        end
  end.

Definition heap_empty : Heap := mkHeap ∅ ∅ ∅.

(** ** The invariant *)

(** The number of objects that share the counter [c]. *)
Definition refs (c : nat) (m : gmap nat RefCountedSlice) : nat :=
  size (filter (fun kv => rs_ref_cnt kv.2 = Some c) m).

(** [own] is the buffer each live counter stands for. *)
Record owned (h : Heap) (own : gmap nat nat) : Prop := {
  own_count c n : counters h !! c = Some n -> 0 < n /\ n = Z.of_nat (refs c (objects h));
  own_object o s c : objects h !! o = Some s -> rs_ref_cnt s = Some c -> own !! c = Some (rs_data s);
  own_dom c : is_Some (counters h !! c) <-> is_Some (own !! c);
  own_live p : p ∈ buffers h <-> exists c, own !! c = Some p;
  own_inj c1 c2 p : own !! c1 = Some p -> own !! c2 = Some p -> c1 = c2
}.

Lemma refs_insert c o s m :
  m !! o = None ->
  refs c (<[o := s]> m) = ((if decide (rs_ref_cnt s = Some c) then 1 else 0) + refs c m)%nat.
Proof.
  intros Hm. unfold refs. case_decide as E.
  - rewrite map_filter_insert_True by done. rewrite map_size_insert_None; [done|].
    apply map_lookup_filter_None. by left.
  - rewrite map_filter_insert_not' by (intros; by simplify_eq || done). done.
Qed.

Lemma refs_delete c o s m :
  m !! o = Some s ->
  refs c m = ((if decide (rs_ref_cnt s = Some c) then 1 else 0) + refs c (delete o m))%nat.
Proof.
  intros Hm. rewrite <- (refs_insert c o s) by apply lookup_delete_eq.
  by rewrite insert_delete_id.
Qed.

Lemma refs_le c m : (refs c m <= size m)%nat.
Proof. unfold refs. apply map_size_filter. Qed.

Lemma Release_owned h own o s :
  owned h own -> objects h !! o = Some s ->
  exists h1 own1, Release s h = Some h1 /\ objects h1 = objects h /\
    owned (mkHeap (counters h1) (buffers h1) (delete o (objects h))) own1.
Proof.
  intros [Hc Ho Hd Hl Hi] Hs. unfold Release. destruct (rs_ref_cnt s) as [c|] eqn:Er.
  - pose proof (Ho _ _ _ Hs Er) as Hown. destruct (proj2 (Hd c)) as [n Hn]; [by eexists|].
    rewrite Hn. cbn [mbind option_bind]. destruct (Hc _ _ Hn) as [Hp Hr].
    rewrite (refs_delete c o s _ Hs), decide_True in Hr by done.
    assert (forall c' n', c' <> c -> counters h !! c' = Some n' ->
      0 < n' /\ n' = Z.of_nat (refs c' (delete o (objects h)))) as Hother.
    { intros c' n' Hne Hn'. destruct (Hc _ _ Hn') as [? E]. split; [done|].
      rewrite (refs_delete c' o s _ Hs), decide_False in E by congruence. lia. }
    assert (forall o' s' c', delete o (objects h) !! o' = Some s' -> rs_ref_cnt s' = Some c' ->
      own !! c' = Some (rs_data s')) as Hobj.
    { intros o' s' c' [_ Hs']%lookup_delete_Some. by eapply Ho. }
    destruct (Z.eqb_spec (n - 1) 0) as [E|E].
    + rewrite decide_True by (apply Hl; by exists c).
      eexists _, (delete c own). split_and!; [done|done|]. split; cbn.
      * intros c' n' [Hne Hn']%lookup_delete_Some. by apply Hother.
      * intros o' s' c' Hs' Er'. apply lookup_delete_Some. split; [|by eapply Hobj].
        intros <-. assert (refs c (delete o (objects h)) = 0%nat) as E0 by lia.
        pose proof (refs_delete c o' s' _ Hs') as E1. rewrite decide_True in E1 by done. lia.
      * intros c'. rewrite !lookup_delete. destruct (decide (c = c')); [by split; intros []|]. apply Hd.
      * intros p. rewrite elem_of_difference, not_elem_of_singleton, Hl. split.
        -- intros [[c' Hc'] Hne]. exists c'. apply lookup_delete_Some.
           split; [|done]. intros <-. congruence.
        -- intros [c' [Hne Hc']%lookup_delete_Some]. split; [by exists c'|].
           intros ->. apply Hne. by eapply Hi.
      * intros c1 c2 p [_ H1]%lookup_delete_Some [_ H2]%lookup_delete_Some. by eapply Hi.
    + eexists _, own. split_and!; [done|done|]. split; cbn; try done.
      * intros c' n' [[<- <-]|[Hne Hn']]%lookup_insert_Some; [lia|]. by apply Hother.
      * intros c'. rewrite <- Hd. destruct (decide (c = c')) as [<-|Hne].
        -- rewrite lookup_insert_eq, Hn. by split; eexists.
        -- by rewrite lookup_insert_ne.
  - exists h, own. split_and!; [done|done|]. split; cbn; try done.
    + intros c n Hn. destruct (Hc _ _ Hn) as [? E]. split; [done|].
      rewrite (refs_delete c o s _ Hs), decide_False in E by congruence. lia.
    + intros o' s' c' [_ Hs']%lookup_delete_Some. by eapply Ho.
Qed.

Lemma Update_owned h own o s o' :
  owned h own -> objects h !! o = None -> objects h !! o' = Some s ->
  Z.of_nat (size (objects h)) < INT_MAX ->
  exists h1, Update o s h = Some h1 /\ objects h1 = <[o := s]> (objects h) /\ owned h1 own.
Proof.
  intros [Hc Ho Hd Hl Hi] Hno Hs Hsz. unfold Update. destruct (rs_ref_cnt s) as [c|] eqn:Er.
  - pose proof (Ho _ _ _ Hs Er) as Hown. destruct (proj2 (Hd c)) as [n Hn]; [by eexists|].
    rewrite Hn. cbn [mbind option_bind]. destruct (Hc _ _ Hn) as [Hp Hr].
    pose proof (refs_le c (objects h)). rewrite (proj2 (Z.leb_le _ _)) by lia.
    eexists. split_and!; [done|done|]. split; cbn; try done.
    + intros c' n' [[<- <-]|[Hne Hn']]%lookup_insert_Some;
        rewrite refs_insert by done; [rewrite decide_True by done; lia|].
      rewrite decide_False by congruence. by apply Hc.
    + intros o1 s1 c1 [[_ <-]|[_ H1]]%lookup_insert_Some; [|by eapply Ho].
      intros ?. by simplify_eq.
    + intros c'. rewrite <- Hd. destruct (decide (c = c')) as [<-|Hne].
      * rewrite lookup_insert_eq, Hn. by split; eexists.
      * by rewrite lookup_insert_ne.
  - eexists. split_and!; [done|done|]. split; cbn; try done.
    + intros c n Hn. rewrite refs_insert, decide_False by congruence. by apply Hc.
    + intros o1 s1 c1 [[_ <-]|[_ H1]]%lookup_insert_Some; [congruence|by eapply Ho].
Qed.

Lemma construct_owned h own o s :
  owned h own -> objects h !! o = None -> rs_ref_cnt s = None -> owned (construct o s h) own.
Proof.
  intros [Hc Ho Hd Hl Hi] Hno Er. split; cbn; try done.
  - intros c n Hn. rewrite refs_insert, decide_False by congruence. by apply Hc.
  - intros o1 s1 c1 [[_ <-]|[_ H1]]%lookup_insert_Some; [congruence|by eapply Ho].
Qed.

Lemma CreateManaged_owned h own o p c n :
  owned h own -> objects h !! o = None -> p ∉ buffers h -> counters h !! c = None ->
  owned (CreateManaged o p c n h) (<[c := p]> own).
Proof.
  intros [Hc Ho Hd Hl Hi] Hno Hp Hcn.
  assert (own !! c = None) as Hown.
  { destruct (own !! c) eqn:E; [|done]. destruct (proj2 (Hd c)) as [? ?]; [by eexists|congruence]. }
  assert (refs c (objects h) = 0%nat) as H0.
  { unfold refs. apply map_size_empty_iff, map_empty_filter. intros o' s' Hs' Er.
    cbn in Er. pose proof (Ho _ _ _ Hs' Er). congruence. }
  split; cbn.
  - intros c' n' [[<- <-]|[Hne Hn']]%lookup_insert_Some; rewrite refs_insert by done; cbn.
    + rewrite decide_True by done. lia.
    + rewrite decide_False by congruence. by apply Hc.
  - intros o1 s1 c1 [[_ <-]|[_ H1]]%lookup_insert_Some Er.
    + injection Er as <-. by rewrite lookup_insert_eq.
    + rewrite lookup_insert_ne; [by eapply Ho|]. intros <-. pose proof (Ho _ _ _ H1 Er). congruence.
  - intros c'. destruct (decide (c = c')) as [<-|]; [by rewrite !lookup_insert_eq|].
    by rewrite !lookup_insert_ne.
  - intros q. rewrite elem_of_union, elem_of_singleton, Hl. split.
    + intros [->|[c' Hc']]; [exists c; by rewrite lookup_insert_eq|].
      exists c'. rewrite lookup_insert_ne; congruence.
    + intros [c' [[_ <-]|[_ Hc']]%lookup_insert_Some]; [by left|right; by exists c'].
  - intros c1 c2 q [[<- <-]|[Hn1 H1]]%lookup_insert_Some [[<- E]|[Hn2 H2]]%lookup_insert_Some;
      try done; [| |by eapply Hi]; exfalso; apply Hp, Hl; [by exists c2|exists c1; congruence].
Qed.

Lemma assign_owned h own o src :
  owned h own -> is_Some (objects h !! o) -> is_Some (objects h !! src) ->
  Z.of_nat (size (objects h)) < INT_MAX ->
  exists h1 own1, assign o src h = Some h1 /\ owned h1 own1.
Proof.
  intros Hw [this Ht] [s Hs] Hsz. unfold assign. case_decide as E; [by eauto|].
  rewrite Ht, Hs. cbn [mbind option_bind].
  destruct (Release_owned _ _ _ _ Hw Ht) as (h1 & own1 & -> & Eo & Hw1). cbn [mbind option_bind].
  destruct (Update_owned _ _ o s src Hw1) as (h2 & Eu & Eo2 & Hw2); cbn.
  - by rewrite lookup_delete_eq.
  - by rewrite lookup_delete_ne.
  - rewrite map_size_delete_Some by (by eexists). lia.
  - assert (Update o s h1 = Some h2) as ->; [|by eauto]. rewrite <- Eu. unfold Update. cbn.
    by rewrite Eo, insert_delete_eq.
Qed.

Lemma destroy_owned h own o :
  owned h own -> is_Some (objects h !! o) ->
  exists h1 own1, destroy o h = Some h1 /\ owned h1 own1.
Proof.
  intros Hw [this Ht]. unfold destroy. rewrite Ht. cbn [mbind option_bind].
  destruct (Release_owned _ _ _ _ Hw Ht) as (h1 & own1 & -> & Eo & Hw1). cbn [mbind option_bind].
  rewrite Eo. by eauto.
Qed.

Lemma reset_owned h own o p n :
  owned h own -> keeps_pointer o p h = true ->
  exists h1, Slice_reset o p n h = Some h1 /\ owned h1 own.
Proof.
  unfold keeps_pointer, Slice_reset. intros [Hc Ho Hd Hl Hi] Hk. destruct (objects h !! o) as [s|] eqn:Hs; [|done].
  cbn [mbind option_bind]. eexists. split; [done|]. split; cbn; try done.
  - intros c m Hn. destruct (Hc _ _ Hn) as [? E]. split; [done|]. rewrite <- insert_delete_eq, refs_insert by apply lookup_delete_eq. cbn.
    by rewrite <- (refs_delete c o s _ Hs).
  - intros o1 s1 c1 [[_ <-]|[_ H1]]%lookup_insert_Some; [|by eapply Ho]. cbn. intros Er. rewrite (Ho _ _ _ Hs Er). f_equal.
    apply orb_true_iff in Hk as [Hk%bool_decide_eq_true|Hk%bool_decide_eq_true]; [congruence|done].
Qed.

Lemma slice_step_owned op h own :
  owned h own -> well_used op h = true ->
  exists h1 own1, slice_step op h = Some h1 /\ owned h1 own1.
Proof.
  intros Hw Hu.
  assert (forall o src, bool_decide (objects h !! o = None /\ is_Some (objects h !! src)) &&
      (Z.of_nat (size (objects h)) <? INT_MAX) = true ->
      exists h1 own1, copy_construct o src h = Some h1 /\ owned h1 own1) as Hcopy.
  { intros o src [[Hn [s Hs]]%bool_decide_eq_true Hz%Z.ltb_lt]%andb_true_iff.
    unfold copy_construct. rewrite Hs. cbn [mbind option_bind].
    destruct (Update_owned _ _ o s src Hw Hn Hs Hz) as (h1 & -> & _ & ?). by eauto. }
  assert (forall o src, bool_decide (is_Some (objects h !! o) /\ is_Some (objects h !! src)) &&
      (Z.of_nat (size (objects h)) <? INT_MAX) = true ->
      exists h1 own1, assign o src h = Some h1 /\ owned h1 own1) as Hassign.
  { intros o src [[Hn Hs]%bool_decide_eq_true Hz%Z.ltb_lt]%andb_true_iff.
    by eapply assign_owned. }
  destruct op; cbn [slice_step well_used] in *; try by auto.
  - apply bool_decide_eq_true in Hu. eexists _, own. split; [done|]. by apply construct_owned.
  - apply bool_decide_eq_true in Hu. eexists _, own. split; [done|]. by apply construct_owned.
  - apply bool_decide_eq_true in Hu as (? & ? & ?). eexists _, _. split; [done|].
    by apply CreateManaged_owned.
  - destruct (reset_owned h own o p size Hw Hu) as (h1 & E & Hw1). by exists h1, own.
  - destruct (reset_owned h own o lit 0 Hw Hu) as (h1 & E & Hw1). by exists h1, own.
  - unfold Slice_remove_prefix. destruct (objects h !! o) as [s|] eqn:Hs; [|done]. apply andb_true_iff in Hu as [Hr Hk]. cbn [mbind option_bind]. rewrite Hr.
    destruct (reset_owned h own o (rs_data s + Z.to_nat n) (rs_size s - n) Hw Hk) as (h1 & E & Hw1). by exists h1, own.
  - apply bool_decide_eq_true in Hu. by eapply destroy_owned.
Qed.

Lemma heap_empty_owned : owned heap_empty ∅.
Proof.
  split; cbn.
  - intros c n. by rewrite lookup_empty.
  - intros o s c. by rewrite lookup_empty.
  - intros c. rewrite !lookup_empty. done.
  - intros p. split; [set_solver|]. intros [c E]. by rewrite lookup_empty in E.
  - intros c1 c2 p. by rewrite lookup_empty.
Qed.

(** C39: reference counting is sound: a program that uses slice objects as the
    language allows, with fewer than 2^31 of them alive, and that does not move the
    pointer of a managed slice with the mutators inherited from [Slice]
    ([reset], which [Row::Reset] calls, [clear] and [remove_prefix]; on slices
    without ownership they are free) never frees a buffer twice or one it does
    not own and never touches a freed counter; at every point a counter is the
    number of objects that share it, the buffer of every managed object is alive,
    every live buffer is still reachable from an object, and so nothing is left
    when the last object is gone. [reset_frees_foreign_pointer] shows that the
    condition on the mutators is needed. *)
Theorem slice_ownership ops :
  well_used_run ops heap_empty = true ->
  exists h, slice_run ops heap_empty = Some h /\
    (forall c n, counters h !! c = Some n -> 0 < n /\ n = Z.of_nat (refs c (objects h))) /\
    (forall o s c, objects h !! o = Some s -> rs_ref_cnt s = Some c ->
       is_Some (counters h !! c) /\ rs_data s ∈ buffers h) /\
    (forall p, p ∈ buffers h ->
       exists o s c, objects h !! o = Some s /\ rs_ref_cnt s = Some c /\ rs_data s = p) /\
    (objects h = ∅ -> counters h = ∅ /\ buffers h = ∅).
Proof.
  pose proof heap_empty_owned as H0. revert H0. generalize heap_empty, (∅ : gmap nat nat).
  induction ops as [|op ops IH]; intros h own Hw Hu; cbn [slice_run well_used_run] in *.
  - pose proof Hw as [Hc Ho Hd Hl Hi]. exists h. split; [done|]. split; [done|].
    assert (forall p, p ∈ buffers h -> exists o s c,
      objects h !! o = Some s /\ rs_ref_cnt s = Some c /\ rs_data s = p) as Hreach.
    { intros p [c Hp]%Hl. destruct (proj2 (Hd c)) as [n Hn]; [by eexists|].
      destruct (Hc _ _ Hn) as [Hpos Hn'].
      destruct (map_choose (filter (fun kv => rs_ref_cnt kv.2 = Some c) (objects h)))
        as (o & s & [Hs Er]%map_lookup_filter_Some).
      { intros E. unfold refs in Hn'. rewrite E, map_size_empty in Hn'. lia. }
      exists o, s, c. split_and!; [done|done|]. pose proof (Ho _ _ _ Hs Er). congruence. }
    split_and!; [|done|].
    + intros o s c Hs Er. pose proof (Ho _ _ _ Hs Er) as E.
      split; [apply Hd; by eexists|]. apply Hl. by exists c.
    + intros E. split.
      * apply map_empty. intros c. destruct (counters h !! c) as [n|] eqn:Hn; [|done].
        destruct (Hc _ _ Hn) as [? Hr]. unfold refs in Hr. rewrite E, map_filter_empty, map_size_empty in Hr. lia.
      * apply set_eq. intros p. split; [|set_solver]. intros Hp.
        destruct (Hreach p Hp) as (o & s & c & Hs & _). by rewrite E in Hs.
  - apply andb_true_iff in Hu as [Hu Hr].
    destruct (slice_step_owned op h own Hw Hu) as (h1 & own1 & E & Hw1). rewrite E in *.
    cbn [mbind option_bind]. by eapply IH.
Qed.

(** [reset] on a slice that owns its buffer: nothing points to the buffer any
    more, and the destructor frees the new pointer, which nobody allocated. *)
Theorem reset_frees_foreign_pointer o p q c n m : q <> p ->
  exists h, slice_run [OpCreateManaged o p c n; OpReset o q m] heap_empty = Some h /\
    p ∈ buffers h /\ (forall o' s, objects h !! o' = Some s -> rs_data s <> p) /\
    destroy o h = None.
Proof.
  intros Hq. cbn [slice_run slice_step mbind option_bind]. unfold Slice_reset, CreateManaged. cbn [objects counters buffers heap_empty].
  rewrite lookup_insert_eq. cbn [mbind option_bind rs_ref_cnt]. eexists. split; [done|]. split_and!.
  - cbn. set_solver.
  - intros o' s. cbn. rewrite insert_insert_eq. intros [[_ <-]|[_ He]]%lookup_insert_Some; [done|]. by rewrite lookup_empty in He.
  - unfold destroy, Release, construct. cbn [objects counters buffers]. rewrite lookup_insert_eq. cbn [mbind option_bind rs_ref_cnt]. rewrite lookup_insert_eq. cbn [mbind option_bind].
    change (1 - 1 =? 0) with true. cbn [rs_data]. rewrite decide_False; [done|]. set_solver.
Qed.

(** Two rows share a buffer, one of them is assigned to itself and then
    replaced, a third one refers to foreign memory and is changed in place, and
    all are destroyed. *)
Definition sample_ops : list slice_op :=
  [OpCreateManaged 1 100 50 8; OpCopy 2 1; OpAssign 2 2; OpCreateManaged 3 101 51 9;
   OpMoveAssign 2 3; OpCreate 4 200 16; OpRemovePrefix 4 3; OpReset 4 210 5; OpReset 1 100 4; OpClear 4 7;
   OpDestroy 3; OpDestroy 1; OpDestroy 4; OpDestroy 2].

Lemma slice_ownership_witness :
  exists h, slice_run sample_ops heap_empty = Some h /\
    (forall c n, counters h !! c = Some n -> 0 < n /\ n = Z.of_nat (refs c (objects h))) /\
    (forall o s c, objects h !! o = Some s -> rs_ref_cnt s = Some c ->
       is_Some (counters h !! c) /\ rs_data s ∈ buffers h) /\
    (forall p, p ∈ buffers h ->
       exists o s c, objects h !! o = Some s /\ rs_ref_cnt s = Some c /\ rs_data s = p) /\
    (objects h = ∅ -> counters h = ∅ /\ buffers h = ∅).
Proof. apply (slice_ownership sample_ops). vm_compute. reflexivity. Defined.
