(* ===== verification/InnerLists.v ===== *)
(** * Lists over parts of a window: inner rows, inner ranges and arrays

    Models the list and iterator classes of
    [include/codec/list_iterator_codec.h] that do not look into rows, and the
    functions of [src/codec/type_codec.cc] by which compiled code creates the
    inner lists of a merged window. A list is given by the iterator its
    [GetIterator] returns. *)

From stdpp Require Import base numbers option list.
From S2P Require Import Prelude Iterators.

(** ** Inner rows: the rows at the positions [start] to [end] *)

Record InnerRowsIterator (I : Type) := mkInnerRowsIterator {
  ir_root : I; ir_pos : Z; ir_start : Z; ir_end : Z
}.
Arguments mkInnerRowsIterator {I}.
Arguments ir_root {I}.
Arguments ir_pos {I}.
Arguments ir_start {I}.
Arguments ir_end {I}.

(** ** Inner ranges: the rows with keys from [start] down to [end] *)

Record InnerRangeIterator (I : Type) := mkInnerRangeIterator {
  ig_root : I; ig_start_key : Z; ig_start : Z; ig_end : Z
}.
Arguments mkInnerRangeIterator {I}.
Arguments ig_root {I}.
Arguments ig_start_key {I}.
Arguments ig_start {I}.
Arguments ig_end {I}.

Section Inner.
Context {I R : Type} `{RowIterator I R}.

(** [while (root_->Valid() && pos_ < start_)], with [n = start_ - pos_]. *)
Fixpoint skip_rows (n : nat) (root : I) (pos : Z) : I * Z :=
  match n with
  | O => (root, pos)
  | S n' => if Valid root then skip_rows n' (Next root) (u64 (pos + 1)) else (root, pos)
  end.

Definition ir_SeekToFirst (it : InnerRowsIterator I) : InnerRowsIterator I :=
  let '(root, pos) := skip_rows (Z.to_nat (ir_start it)) (SeekToFirst (ir_root it)) 0 in
  mkInnerRowsIterator root pos (ir_start it) (ir_end it).

#[export] Instance InnerRowsIterator_ops : RowIterator (InnerRowsIterator I) R := {
  Valid it := Valid (ir_root it) && (ir_pos it <=? ir_end it) && (ir_pos it >=? ir_start it);
  Next it := mkInnerRowsIterator (Next (ir_root it)) (u64 (ir_pos it + 1)) (ir_start it) (ir_end it);
  GetKey it := GetKey (ir_root it);
  GetValue it := GetValue (ir_root it);
  Seek k it := mkInnerRowsIterator (Seek k (ir_root it)) (ir_pos it) (ir_start it) (ir_end it);
  SeekToFirst it := ir_SeekToFirst it
}.

(** The constructor on a list whose iterator is not null. *)
Definition InnerRowsIterator_new (list_iter : I) (start end_ : Z) : InnerRowsIterator I :=
  SeekToFirst (mkInnerRowsIterator list_iter 0 start end_).

(** [GetKey] is only called on a valid root. *)
Definition ig_Valid (it : InnerRangeIterator I) : bool :=
  Valid (ig_root it) &&
  match GetKey (ig_root it) with
  | Some k => (k <=? ig_start it) && (k >=? ig_end it)
  | None => false
  end.

#[export] Instance InnerRangeIterator_ops : RowIterator (InnerRangeIterator I) R := {
  Valid it := ig_Valid it;
  Next it := mkInnerRangeIterator (Next (ig_root it)) (ig_start_key it) (ig_start it) (ig_end it);
  GetKey it := GetKey (ig_root it);
  GetValue it := GetValue (ig_root it);
  Seek k it :=
    mkInnerRangeIterator (Seek k (ig_root it)) (ig_start_key it) (ig_start it) (ig_end it);
  SeekToFirst it :=
    mkInnerRangeIterator (Seek (ig_start it) (SeekToFirst (ig_root it))) (ig_start_key it)
      (ig_start it) (ig_end it)
}.

(** The constructor: the root is rewound, but not moved to the range. *)
Definition InnerRangeIterator_new (list_iter : I) (start end_ : Z) : InnerRangeIterator I :=
  let root := SeekToFirst list_iter in
  mkInnerRangeIterator root
    (if Valid root then default 0 (GetKey root) else 0) start end_.

(** ** Creating inner lists: [v1::GetInnerRangeList] and [v1::GetInnerRowsList]

    [input] is the list, [data] the memory of the new object; the result is
    the status and the bounds of the list created. The sums are signed 64-bit
    additions, undefined when they overflow. *)

Definition i64_add (a b : Z) : option Z :=
  let s := a + b in
  if (-9223372036854775808 <=? s) && (s <=? 9223372036854775807) then Some s else None.

Definition GetInnerRangeList {L} (input : option L) (start_key start_offset end_offset : Z)
    (data : bool) : option (Z * option (L * Z * Z)) :=
  match input, data with
  | Some w, true =>
      s ← i64_add start_key start_offset;
      e ← i64_add start_key end_offset;
      Some (0, Some (w, if s <? 0 then 0 else s, if e <? 0 then 0 else e))
  | _, _ => Some (-2, None)
  end.

Definition GetInnerRowsList {L} (input : option L) (start_rows end_rows : Z) (data : bool)
  : Z * option (L * Z * Z) :=
  match input, data with
  | Some w, true =>
      (0, Some (w, if start_rows <? 0 then 0 else start_rows,
                   if end_rows <? 0 then 0 else end_rows))
  | _, _ => (-2, None)
  end.

(** What the code emitted by [MemoryWindowDecodeIRBuilder] does: the call with
    the constants of the frame. *)
Definition BuildInnerRangeList {L} (list_ptr : L) (row_key start_offset end_offset : Z)
  : option (Z * option (L * Z * Z)) :=
  GetInnerRangeList (Some list_ptr) row_key start_offset end_offset true.

Definition BuildInnerRowsList {L} (list_ptr : L) (start_offset end_offset : Z)
  : Z * option (L * Z * Z) :=
  GetInnerRowsList (Some list_ptr) start_offset end_offset true.

(** What [ExprIRBuilder::BuildWindow] asks for: the frame of an aggregate,
    relative to the current row, given by its history bounds. *)
Definition BuildInnerRangeWindow {L} (w : L) (row_key range_start range_end : Z)
  : option (Z * option (L * Z * Z)) :=
  BuildInnerRangeList w row_key range_end range_start.

Definition BuildInnerRowsWindow {L} (w : L) (rows_start rows_end : Z)
  : Z * option (L * Z * Z) :=
  BuildInnerRowsList w (i64 (-1 * rows_end)) (i64 (-1 * rows_start)).
End Inner.

(** ** Arrays *)

Section Arrays.
Context {V : Type}.

Record ArrayListV := mkArrayListV { av_buffer : list V; av_start : nat; av_end : nat }.

Definition ArrayListV_new (buffer : list V) : ArrayListV :=
  mkArrayListV buffer 0 (length buffer).

Definition av_GetCount (a : ArrayListV) : Z := u64 (Z.of_nat (av_end a) - Z.of_nat (av_start a)).

(** [std::vector::at] throws outside the vector. *)
Definition av_At (a : ArrayListV) (pos : nat) : option V := av_buffer a !! (av_start a + pos)%nat.

Record ArrayListIterator := mkArrayListIterator {
  al_buffer : list V; al_start : nat; al_end : nat; al_iter : nat; al_key : Z
}.

Definition ArrayListIterator_new (buffer : list V) (start end_ : nat) : ArrayListIterator :=
  mkArrayListIterator buffer start end_ start 0.

Definition ArrayListIterator_copy (impl : ArrayListIterator) : ArrayListIterator :=
  mkArrayListIterator (al_buffer impl) (al_start impl) (al_end impl) (al_start impl) 0.

Definition ArrayListIterator_sub (impl : ArrayListIterator) (start end_ : nat)
  : ArrayListIterator :=
  mkArrayListIterator (al_buffer impl) (al_start impl + start) (al_start impl + end_)
    (al_start impl + start) 0.

(** The position [Seek] moves to. *)
Definition clamp (start end_ : nat) (key : Z) : nat :=
  if decide (end_ <= start + Z.to_nat key)%nat then end_ else (start + Z.to_nat key)%nat.

#[export] Instance ArrayListIterator_ops : RowIterator ArrayListIterator V := {
  Valid it := negb (al_end it =? al_iter it)%nat;
  Next it := mkArrayListIterator (al_buffer it) (al_start it) (al_end it) (S (al_iter it)) (al_key it);
  GetKey it := Some (al_key it);
  GetValue it := al_buffer it !! al_iter it;
  Seek key it := mkArrayListIterator (al_buffer it) (al_start it) (al_end it)
                   (clamp (al_start it) (al_end it) key)
                   (Z.of_nat (al_end it) - Z.of_nat (al_start it));
  SeekToFirst it := mkArrayListIterator (al_buffer it) (al_start it) (al_end it) (al_start it) (al_key it)
}.

Definition av_GetIterator (a : ArrayListV) : ArrayListIterator :=
  ArrayListIterator_new (av_buffer a) (av_start a) (av_end a).
End Arrays.
Arguments ArrayListV V : clear implicits.
Arguments ArrayListIterator V : clear implicits.

(** [BoolArrayListIterator]: a vector of [int] read through the member
    [tmp_]; [None] while it is not initialised. *)
Record BoolArrayListIterator := mkBoolArrayListIterator {
  bl_buffer : list Z; bl_start : nat; bl_end : nat; bl_iter : nat; bl_key : Z;
  bl_tmp : option bool
}.

(** [if (Valid()) tmp_ = *iter_;]; the buffer is long enough for [end]. *)
Definition bl_refresh (it : BoolArrayListIterator) : BoolArrayListIterator :=
  if negb (bl_end it =? bl_iter it)%nat
  then mkBoolArrayListIterator (bl_buffer it) (bl_start it) (bl_end it) (bl_iter it) (bl_key it)
         ((fun z => negb (z =? 0)) <$> bl_buffer it !! bl_iter it)
  else it.

Definition bl_set (iter : nat) (key : Z) (it : BoolArrayListIterator) : BoolArrayListIterator :=
  mkBoolArrayListIterator (bl_buffer it) (bl_start it) (bl_end it) iter key (bl_tmp it).

Definition BoolArrayListIterator_new (buffer : list Z) (start end_ : nat) : BoolArrayListIterator :=
  bl_refresh (mkBoolArrayListIterator buffer start end_ start 0 None).

Definition BoolArrayListIterator_copy (impl : BoolArrayListIterator) : BoolArrayListIterator :=
  BoolArrayListIterator_new (bl_buffer impl) (bl_start impl) (bl_end impl).

Definition BoolArrayListIterator_sub (impl : BoolArrayListIterator) (start end_ : nat)
  : BoolArrayListIterator :=
  BoolArrayListIterator_new (bl_buffer impl) (bl_start impl + start) (bl_start impl + end_).

(** [Seek] does not refresh the value. *)
#[export] Instance BoolArrayListIterator_ops : RowIterator BoolArrayListIterator bool := {
  Valid it := negb (bl_end it =? bl_iter it)%nat;
  Next it := bl_refresh (bl_set (S (bl_iter it)) (bl_key it) it);
  GetKey it := Some (bl_key it);
  GetValue it := bl_tmp it;
  Seek key it := bl_set (clamp (bl_start it) (bl_end it) key)
                   (Z.of_nat (bl_end it) - Z.of_nat (bl_start it)) it;
  SeekToFirst it := bl_refresh (bl_set (bl_start it) (bl_key it) it)
}.

Record BoolArrayListV := mkBoolArrayListV { bv_buffer : list Z; bv_start : nat; bv_end : nat }.
Definition bv_GetIterator (a : BoolArrayListV) : BoolArrayListIterator :=
  BoolArrayListIterator_new (bv_buffer a) (bv_start a) (bv_end a).
Definition bv_GetCount (a : BoolArrayListV) : Z :=
  u64 (Z.of_nat (bv_end a) - Z.of_nat (bv_start a)).
Definition bv_At (a : BoolArrayListV) (pos : nat) : option bool :=
  (fun z => negb (z =? 0)) <$> bv_buffer a !! (bv_start a + pos)%nat.
