(* ===== verification/InnerListsProof.v ===== *)
(** * Inner lists enumerate the right part of the window

    The inner iterators keep the promises of row iterators, for every root
    iterator that does: clients of windows work on inner windows unchanged. *)

From stdpp Require Import base numbers option list sorting.
From S2P Require Import Prelude Iterators TypeCodec MemCatalog MemCatalogProof InnerLists.

(** The longest prefix whose entries satisfy a test. *)
Fixpoint prefix_while {A} (p : A -> bool) (l : list A) : list A :=
  match l with [] => [] | x :: l' => if p x then x :: prefix_while p l' else [] end.

Lemma filter_none {A} (P : A -> Prop) `{!forall x, Decision (P x)} l :
  Forall (fun x => ~ P x) l -> filter P l = [].
Proof. induction 1; [done|]. by rewrite filter_cons_False. Qed.

Section Rows.
Context {I R : Type} `{RowIteratorLaws I R}.

Lemma skip_rows_spec n : forall (root : I) pos,
  it_ok root -> 0 <= pos -> pos + Z.of_nat n < 18446744073709551616 ->
  let '(root', pos') := skip_rows n root pos in
  it_ok root' /\ all root' = all root /\ rest root' = drop n (rest root) /\
  0 <= pos' <= pos + Z.of_nat n /\ (pos' = pos + Z.of_nat n \/ rest root' = []).
Proof.
  induction n as [|n IH]; intros root pos Ho Hp Hb; cbn [skip_rows].
  - rewrite drop_0. split_and!; try done; lia.
  - destruct (Valid root) eqn:V.
    + specialize (IH (Next root) (u64 (pos + 1))). rewrite u64_small in * by lia.
      destruct (skip_rows n (Next root) (pos + 1)) as [root' pos'].
      destruct IH as (? & E1 & E2 & ? & ?); [by apply next_ok|lia..|].
      rewrite E1, E2, next_all, next_rest by done.
      assert (drop n (tail (rest root)) = drop (S n) (rest root)) as Ed
        by (destruct (rest root); cbn; [by rewrite drop_nil|done]).
      rewrite E2, next_rest, Ed in * by done.
      split_and!; try done; try lia. destruct H3; [left; lia|by right].
    + rewrite (invalid_rest _ Ho V), drop_nil. split_and!; try done; try lia. by right.
Qed.

Definition rows_between (i : InnerRowsIterator I) : list (Z * R) :=
  take (Z.to_nat (ir_end i + 1 - ir_start i)) (drop (Z.to_nat (ir_start i)) (all (ir_root i))).

Lemma ir_SeekToFirst_spec (i : InnerRowsIterator I) :
  it_ok (ir_root i) -> 0 <= ir_start i < 18446744073709551615 ->
  let i' := ir_SeekToFirst i in
  it_ok (ir_root i') /\ ir_start i' = ir_start i /\ ir_end i' = ir_end i /\ 0 <= ir_pos i' /\
  (ir_start i <= ir_pos i' \/ rest (ir_root i') = []) /\
  take (Z.to_nat (ir_end i + 1 - ir_pos i')) (rest (ir_root i')) = rows_between i /\
  all (ir_root i') = all (ir_root i).
Proof.
  intros Ho Hs. cbv zeta. unfold ir_SeekToFirst.
  pose proof (skip_rows_spec (Z.to_nat (ir_start i)) (SeekToFirst (ir_root i)) 0) as Hk.
  destruct (skip_rows _ _ _) as [root' pos']. destruct Hk as (? & Ea & Er & ? & Hd);
    [by apply first_ok|lia..|]. cbn. rewrite first_rest in Er by done. rewrite first_all in Ea by done.
  split_and!; try done; try lia; [destruct Hd; [left; lia|by right]|].
  unfold rows_between. destruct Hd as [->|Hn]; [rewrite Er; f_equal; lia|].
  rewrite Er in Hn. by rewrite Er, Hn, !take_nil.
Qed.

(** An inner list that starts and ends within 64 bits and is positioned at or
    behind its start. *)
#[export] Program Instance InnerRowsIterator_laws : RowIteratorLaws (InnerRowsIterator I) R := {
  it_ok i := it_ok (ir_root i) /\ 0 <= ir_start i < 18446744073709551615 /\
    0 <= ir_end i < 18446744073709551615 /\ 0 <= ir_pos i /\
    (ir_start i <= ir_pos i \/ rest (ir_root i) = []);
  all i := rows_between i;
  rest i := take (Z.to_nat (ir_end i + 1 - ir_pos i)) (rest (ir_root i))
}.
Next Obligation.
  intros i (Ho & ? & ? & ? & Hs). cbn. rewrite !andb_true_iff, Z.leb_le, Z.geb_leb, Z.leb_le.
  destruct (rest (ir_root i)) as [|e l] eqn:E.
  - rewrite (exhausted _ Ho E), take_nil. split; [by intros [[] _]|done].
  - rewrite (valid_cons _ _ _ Ho E). destruct Hs as [Hs|]; [|done].
    destruct (Z.to_nat (ir_end i + 1 - ir_pos i)) eqn:En; cbn; split; try done; lia.
Qed.
Next Obligation.
  intros i (Ho & ? & ? & ? & Hs) Hv. cbn in *.
  rewrite !andb_true_iff, Z.leb_le, Z.geb_leb, Z.leb_le in Hv. destruct Hv as [[Hv ?] ?].
  rewrite u64_small by lia. split_and!; [by apply next_ok|lia..|left; lia].
Qed.
Next Obligation.
  intros i (Ho & ? & ? & ? & Hs) Hv. cbn in *.
  rewrite !andb_true_iff, Z.leb_le, Z.geb_leb, Z.leb_le in Hv. destruct Hv as [[Hv ?] ?].
  rewrite u64_small, next_rest by (done || lia).
  replace (Z.to_nat (ir_end i + 1 - ir_pos i)) with
    (S (Z.to_nat (ir_end i + 1 - (ir_pos i + 1)))) by lia.
  destruct (rest (ir_root i)); cbn; [by rewrite take_nil|done].
Qed.
Next Obligation.
  intros i (Ho & _) Hv. unfold rows_between. cbn in *.
  rewrite !andb_true_iff in Hv. by rewrite next_all by (done || apply Hv).
Qed.
Next Obligation.
  intros i e l (Ho & _) E. cbn in *. destruct (rest (ir_root i)) as [|e' l'] eqn:Er;
    [by rewrite take_nil in E|]. destruct (Z.to_nat _); [done|]. injection E as -> _.
  by eapply key_rest.
Qed.
Next Obligation.
  intros i e l (Ho & _) E. cbn in *. destruct (rest (ir_root i)) as [|e' l'] eqn:Er;
    [by rewrite take_nil in E|]. destruct (Z.to_nat _); [done|]. injection E as -> _.
  by eapply value_rest.
Qed.
Next Obligation.
  intros i (Ho & Hb & He & Hp & Hs). cbn.
  destruct (ir_SeekToFirst_spec i Ho Hb) as (? & -> & -> & ? & ? & _ & _).
  split_and!; try done; lia.
Qed.
Next Obligation.
  intros i (Ho & Hb & He & Hp & Hs). cbn.
  by destruct (ir_SeekToFirst_spec i Ho Hb) as (_ & _ & -> & _ & _ & -> & _).
Qed.
Next Obligation.
  intros i (Ho & Hb & He & Hp & Hs). cbn. unfold rows_between.
  by destruct (ir_SeekToFirst_spec i Ho Hb) as (_ & -> & -> & _ & _ & _ & ->).
Qed.

(** A new iterator stands at the first row of its part. *)
Lemma InnerRowsIterator_new_ok (root : I) s e :
  it_ok root -> 0 <= s < 18446744073709551615 -> 0 <= e < 18446744073709551615 ->
  let it := InnerRowsIterator_new root s e in
  it_ok it /\ rest it = all it /\
  all it = take (Z.to_nat (e + 1 - s)) (drop (Z.to_nat s) (all root)).
Proof.
  intros Ho Hs He it.
  destruct (ir_SeekToFirst_spec (mkInnerRowsIterator root 0 s e) Ho Hs)
    as (H1 & H2 & H3 & H4 & H5 & H6 & H7).
  assert (all it = rows_between (mkInnerRowsIterator root 0 s e)) as Ea.
  { subst it. unfold InnerRowsIterator_new. cbn [SeekToFirst InnerRowsIterator_ops all InnerRowsIterator_laws].
    unfold rows_between at 1. by rewrite H2, H3, H7. }
  rewrite Ea. split_and!; [|subst it; cbn; by rewrite H3|done].
  subst it. cbn in *. rewrite H2, H3 in *. split_and!; try done; lia.
Qed.

End Rows.

Section Range.
Context {I R : Type} `{TimeSeek I R}.

Definition in_range (s e : Z) (x : Z * R) : bool := (x.1 <=? s) && (x.1 >=? e).

#[export] Program Instance InnerRangeIterator_laws : RowIteratorLaws (InnerRangeIterator I) R := {
  it_ok i := it_ok (ig_root i);
  all i := prefix_while (in_range (ig_start i) (ig_end i))
             (skip_while (fun x => ig_start i <? x.1) (all (ig_root i)));
  rest i := prefix_while (in_range (ig_start i) (ig_end i)) (rest (ig_root i))
}.
Next Obligation.
  intros i Ho. cbn. unfold ig_Valid. destruct (rest (ig_root i)) as [|x l] eqn:E.
  - by rewrite (exhausted _ Ho E).
  - rewrite (valid_cons _ _ _ Ho E), (key_rest _ _ _ Ho E). cbn. unfold in_range at 1.
    by destruct (_ && _).
Qed.
Next Obligation.
  intros i Ho Hv. cbn in *. unfold ig_Valid in Hv. apply andb_true_iff in Hv as [Hv _].
  by apply next_ok.
Qed.
Next Obligation.
  intros i Ho Hv. cbn in *. unfold ig_Valid in Hv. destruct (rest (ig_root i)) as [|x l] eqn:E.
  - by rewrite (exhausted _ Ho E) in Hv.
  - rewrite (valid_cons _ _ _ Ho E), (key_rest _ _ _ Ho E) in Hv. cbn in *.
    destruct (rest_next _ _ _ Ho E) as [-> _]. unfold in_range at 2. by rewrite Hv.
Qed.
Next Obligation.
  intros i Ho Hv. cbn in *. unfold ig_Valid in Hv. apply andb_true_iff in Hv as [Hv _].
  by rewrite next_all.
Qed.
Next Obligation.
  intros i x l Ho E. cbn in *. destruct (rest (ig_root i)) as [|x' l'] eqn:Er; [done|].
  cbn in E. destruct (in_range _ _ x'); [|done]. injection E as -> _. by eapply key_rest.
Qed.
Next Obligation.
  intros i x l Ho E. cbn in *. destruct (rest (ig_root i)) as [|x' l'] eqn:Er; [done|].
  cbn in E. destruct (in_range _ _ x'); [|done]. injection E as -> _. by eapply value_rest.
Qed.
Next Obligation. intros i Ho. cbn in *. by apply seek_ok, first_ok. Qed.
Next Obligation.
  intros i Ho. cbn in *. rewrite seek_rest by (by apply first_ok). by rewrite first_all.
Qed.
Next Obligation.
  intros i Ho. cbn in *. rewrite seek_all by (by apply first_ok). by rewrite first_all.
Qed.

(** Newest first. *)
Definition descending (l : list (Z * R)) : Prop := StronglySorted (fun x y => y.1 <= x.1) l.

Lemma prefix_filter s e l :
  descending l -> Forall (fun x => x.1 <= s) l ->
  prefix_while (in_range s e) l = filter (fun x => e <= x.1 <= s) l.
Proof.
  intros Hd. induction Hd as [|x l Hd IH Hx]; intros Hs; [done|].
  apply Forall_cons_1 in Hs as [Hs Hl]. cbn [prefix_while]. unfold in_range at 1.
  rewrite (proj2 (Z.leb_le _ _) Hs), Z.geb_leb. cbn [andb].
  destruct (Z.leb_spec e x.1) as [He|He].
  - rewrite filter_cons_True by done. f_equal. by apply IH.
  - rewrite filter_cons_False by lia. symmetry. apply filter_none.
    eapply Forall_impl; [exact Hx|]. cbn. intros y ?. lia.
Qed.

Lemma skip_filter s e l :
  descending l ->
  prefix_while (in_range s e) (skip_while (fun x => s <? x.1) l) =
  filter (fun x => e <= x.1 <= s) l.
Proof.
  intros Hd. induction Hd as [|x l Hd IH Hx]; [done|]. cbn [skip_while].
  destruct (Z.ltb_spec s x.1) as [Hs|Hs].
  - rewrite filter_cons_False by lia. apply IH.
  - apply prefix_filter; [by constructor|]. constructor; [done|].
    eapply Forall_impl; [exact Hx|]. cbn. intros y ?. lia.
Qed.
End Range.

(** The list of an inner rows window. *)
Lemma inner_rows_lists {I R} `{RowIteratorLaws I R} (root : I) (dflt : R)
    rows_start rows_end pos fuel :
  it_ok root -> -9223372036854775808 < rows_start <= rows_end -> rows_end <= 0 ->
  (length (all root) <= fuel)%nat -> Z.of_nat (length (all root)) < 18446744073709551616 ->
  let rows := take (Z.to_nat (rows_end - rows_start + 1))
                (drop (Z.to_nat (- rows_end)) (all root)) in
  exists s e, BuildInnerRowsWindow root rows_start rows_end = (0, Some (root, s, e)) /\
    let it := InnerRowsIterator_new root s e in
    drain fuel it = Some rows /\ drain fuel (SeekToFirst it) = Some rows /\
    GetCount fuel it = Some (Z.of_nat (length rows)) /\
    At pos (Some it) dflt = Some (from_option snd dflt (rows !! pos)).
Proof.
  intros Ho Hf He Hfuel Hlen rows. exists (- rows_end), (- rows_start).
  split.
  { unfold BuildInnerRowsWindow, BuildInnerRowsList, GetInnerRowsList.
    rewrite !i64_small, !(proj2 (Z.ltb_ge _ _)) by lia. replace (-1 * rows_end) with (- rows_end) by lia.
    by replace (-1 * rows_start) with (- rows_start) by lia. }
  intros it.
  destruct (InnerRowsIterator_new_ok root (- rows_end) (- rows_start) Ho) as (Hi & Hr & Ha); [lia..|].
  fold it in Hi, Hr, Ha.
  assert (all it = rows) as Er by (rewrite Ha; unfold rows; do 2 f_equal; lia).
  assert (length rows <= length (all root))%nat as Hl
    by (unfold rows; rewrite length_take, length_drop; lia).
  destruct (defaults_rest it dflt pos fuel) as [H1 H2]; [done|rewrite Hr, Er; lia..|].
  rewrite Hr, Er in H1, H2. split_and!; [| |done|done].
  - rewrite drain_rest; [by rewrite Hr, Er|done|rewrite Hr, Er; lia].
  - rewrite drain_rest; rewrite ?first_rest by done; [by rewrite Er|by apply first_ok|].
    rewrite Er. lia.
Qed.

(** An inner rows window enumerates, for every window iterator that keeps
    its promises, exactly the rows of the window at the positions of the
    frame: with [GetIterator], [GetCount] and [At], reading nothing outside
    the window. *)
Theorem inner_rows_window {I R} `{RowIteratorLaws I R} (root : I) (dflt : R)
    rows_start rows_end pos fuel :
  it_ok root -> -9223372036854775808 < rows_start <= rows_end -> rows_end <= 0 ->
  (length (all root) <= fuel)%nat -> Z.of_nat (length (all root)) < 18446744073709551616 ->
  let rows := take (Z.to_nat (rows_end - rows_start + 1))
                (drop (Z.to_nat (- rows_end)) (all root)) in
  exists s e, BuildInnerRowsWindow root rows_start rows_end = (0, Some (root, s, e)) /\
    let it := InnerRowsIterator_new root s e in
    drain fuel it = Some rows /\ drain fuel (SeekToFirst it) = Some rows /\
    GetCount fuel it = Some (Z.of_nat (length rows)) /\
    At pos (Some it) dflt = Some (from_option snd dflt (rows !! pos)).
Proof. apply inner_rows_lists. Qed.

Lemma inner_rows_window_witness :
  let w := MemTimeTableIterator_new [(9, 1); (7, 2); (5, 3); (4, 4)] in
  exists s e, BuildInnerRowsWindow w (-2) (-1) = (0, Some (w, s, e)) /\
    let it := InnerRowsIterator_new w s e in
    drain 5 it = Some [(7, 2); (5, 3)] /\ drain 5 (SeekToFirst it) = Some [(7, 2); (5, 3)] /\
    GetCount 5 it = Some 2 /\ At 1 (Some it) 0 = Some 3.
Proof.
  destruct (inner_rows_window (MemTimeTableIterator_new [(9, 1); (7, 2); (5, 3); (4, 4)])
    0 (-2) (-1) 1 5) as (s & e & H1 & H2 & H3 & H4 & H5); [cbn; lia..|].
  exists s, e. split; [exact H1|]. split_and!; [exact H2|exact H3|exact H4|exact H5].
Defined.

Section RangeWindow.
Context {I R : Type} `{TimeSeek I R} (root : I).
Context (Hroot : it_ok root) (Hdesc : descending (all root)).

Lemma new_range_rest s e :
  rest (InnerRangeIterator_new root s e) =
  match all root with
  | x :: _ => if x.1 <=? s then filter (fun x => e <= x.1 <= s) (all root) else []
  | [] => []
  end.
Proof.
  cbn. rewrite first_rest by done. destruct Hdesc as [|x l Hd Hx]; [done|].
  destruct (Z.leb_spec x.1 s) as [Hs|Hs].
  - apply prefix_filter; [by constructor|]. constructor; [done|].
    eapply Forall_impl; [exact Hx|]. cbn. intros y ?. lia.
  - cbn. unfold in_range at 1. by rewrite (proj2 (Z.leb_gt _ _) Hs).
Qed.

(** The list of an inner range window. *)
Lemma inner_range_lists row_key range_start range_end fuel :
  0 <= row_key < 9223372036854775808 ->
  -9223372036854775808 <= range_start <= range_end -> range_end <= 0 ->
  (length (all root) <= fuel)%nat ->
  exists s e,
    BuildInnerRangeWindow root row_key range_start range_end = Some (0, Some (root, s, e)) /\
    s = Z.max 0 (row_key + range_end) /\ e = Z.max 0 (row_key + range_start) /\
    drain fuel (SeekToFirst (InnerRangeIterator_new root s e)) =
      Some (filter (fun x => e <= x.1 <= s) (all root)).
Proof.
  intros Hk Hs He Hf.
  exists (Z.max 0 (row_key + range_end)), (Z.max 0 (row_key + range_start)).
  split_and!; try done.
  - unfold BuildInnerRangeWindow, BuildInnerRangeList, GetInnerRangeList, i64_add.
    rewrite !(proj2 (Z.leb_le _ _)) by lia. cbn [andb mbind option_bind].
    assert (forall a, (if a <? 0 then 0 else a) = Z.max 0 a) as E by (intros; case_if; lia).
    by rewrite !E.
  - assert (it_ok (InnerRangeIterator_new root (Z.max 0 (row_key + range_end))
      (Z.max 0 (row_key + range_start)))) as Ho by (cbn; by apply first_ok).
    pose proof (first_rest _ Ho) as Er. cbn [all InnerRangeIterator_laws] in Er.
    unfold InnerRangeIterator_new at 2 3 4 5 in Er. cbn [ig_start ig_end ig_root] in Er.
    rewrite first_all, skip_filter in Er by done.
    rewrite drain_rest; [by rewrite Er|by apply (first_ok _ Ho)|].
    rewrite Er. etrans; [apply length_filter|done].
Qed.

(** An inner range window over data in descending key order, rewound with
    [SeekToFirst] as the emitted loops do, enumerates exactly the rows of the
    window whose keys lie in the frame (bounds below zero count as zero); the
    bounds are computed without overflow. *)
Theorem inner_range_window row_key range_start range_end fuel :
  0 <= row_key < 9223372036854775808 ->
  -9223372036854775808 <= range_start <= range_end -> range_end <= 0 ->
  (length (all root) <= fuel)%nat ->
  exists s e,
    BuildInnerRangeWindow root row_key range_start range_end = Some (0, Some (root, s, e)) /\
    s = Z.max 0 (row_key + range_end) /\ e = Z.max 0 (row_key + range_start) /\
    drain fuel (SeekToFirst (InnerRangeIterator_new root s e)) =
      Some (filter (fun x => e <= x.1 <= s) (all root)).
Proof. apply inner_range_lists. Qed.

(** [GetCount] and [At] of an inner range list use a new iterator without
    rewinding it, and the constructor does not move to the range: they see
    the rows of the frame only when the newest row of the window is not newer
    than the frame, and otherwise an empty list. *)
Theorem inner_range_unsought (dflt : R) s e pos fuel :
  (length (all root) <= fuel)%nat -> Z.of_nat (length (all root)) < 18446744073709551616 ->
  let it := InnerRangeIterator_new root s e in
  let seen := match all root with
              | x :: _ => if x.1 <=? s then filter (fun x => e <= x.1 <= s) (all root) else []
              | [] => []
              end in
  GetCount fuel it = Some (Z.of_nat (length seen)) /\
  At pos (Some it) dflt = Some (from_option snd dflt (seen !! pos)).
Proof.
  intros Hf Hl it seen. pose proof (new_range_rest s e) as E. fold it seen in E.
  assert (length seen <= length (all root))%nat as Hs.
  { unfold seen. destruct (all root) as [|x l]; [done|].
    case_if; [apply length_filter|cbn; lia]. }
  rewrite <- E in *. apply defaults_rest; try lia. cbn. by apply first_ok.
Qed.
End RangeWindow.

Lemma sample_window_ok : it_ok (MemTimeTableIterator_new [(9, 1); (7, 2); (5, 3); (4, 4)]).
Proof. cbn. lia. Qed.

Lemma sample_descending : descending [(9, 1); (7, 2); (5, 3); (4, 4)].
Proof. repeat constructor; cbn; lia. Qed.

Lemma inner_range_window_witness :
  let w := MemTimeTableIterator_new [(9, 1); (7, 2); (5, 3); (4, 4)] in
  exists s e,
    BuildInnerRangeWindow w 9 (-4) (-1) = Some (0, Some (w, s, e)) /\ s = 8 /\ e = 5 /\
    drain 5 (SeekToFirst (InnerRangeIterator_new w s e)) =
      Some (filter (fun x => e <= x.1 <= s) (all w)).
Proof.
  apply (inner_range_window (MemTimeTableIterator_new [(9, 1); (7, 2); (5, 3); (4, 4)])
    sample_window_ok sample_descending 9 (-4) (-1) 5); cbn; lia.
Defined.

Lemma inner_range_unsought_witness :
  let w := MemTimeTableIterator_new [(9, 1); (7, 2); (5, 3); (4, 4)] in
  GetCount 5 (InnerRangeIterator_new w 8 5) = Some 0 /\
  At 0 (Some (InnerRangeIterator_new w 8 5)) 0 = Some 0.
Proof.
  apply (inner_range_unsought (MemTimeTableIterator_new [(9, 1); (7, 2); (5, 3); (4, 4)])
    sample_window_ok sample_descending 0 8 5 0 5); [cbn; lia|reflexivity].
Defined.

(** ** Arrays *)

Section Array.
Context {V : Type}.

Definition part (b e : nat) (l : list V) : list V := drop b (take e l).

Lemma part_cons b e (l : list V) x :
  (b < e)%nat -> l !! b = Some x -> part b e l = x :: part (S b) e l.
Proof. intros Hb Hx. apply drop_S. by rewrite lookup_take_lt. Qed.

Lemma part_nil b (l : list V) : part b b l = [].
Proof. apply drop_ge. rewrite length_take. lia. Qed.

Lemma part_inv b e (l : list V) x t : part b e l = x :: t -> l !! b = Some x.
Proof.
  intros E. assert (take e l !! b = Some x) as Hx
    by (rewrite <- (Nat.add_0_r b), <- lookup_drop; fold (part b e l); by rewrite E).
  by apply lookup_take_Some in Hx as [? _].
Qed.

(** All entries carry the key of the iterator. *)
#[export] Program Instance ArrayListIterator_laws : RowIteratorLaws (ArrayListIterator V) V := {
  it_ok i := (al_start i <= al_end i <= length (al_buffer i))%nat /\ (al_iter i <= al_end i)%nat;
  all i := (fun v => (al_key i, v)) <$> part (al_start i) (al_end i) (al_buffer i);
  rest i := (fun v => (al_key i, v)) <$> part (al_iter i) (al_end i) (al_buffer i)
}.
Next Obligation.
  intros i [? ?]. cbn -[Nat.eqb]. rewrite negb_true_iff, Nat.eqb_neq. split; intros Hv.
  - destruct (lookup_lt_is_Some_2 (al_buffer i) (al_iter i)) as [x Hx]; [lia|].
    by rewrite (part_cons _ _ _ x) by (done || lia).
  - intros E. apply Hv. by rewrite E, part_nil.
Qed.
Next Obligation.
  intros i [? ?] Hv. cbn -[Nat.eqb] in *. rewrite negb_true_iff, Nat.eqb_neq in Hv. lia.
Qed.
Next Obligation.
  intros i [? ?] Hv. cbn -[Nat.eqb] in *. rewrite negb_true_iff, Nat.eqb_neq in Hv.
  destruct (lookup_lt_is_Some_2 (al_buffer i) (al_iter i)) as [x Hx]; [lia|].
  by rewrite (part_cons (al_iter i) _ _ x) by (done || lia).
Qed.
Next Obligation. done. Qed.
Next Obligation. intros i e l Ho E. cbn in *. destruct (part _ _ _); [done|]. by injection E as <- _. Qed.
Next Obligation.
  intros i e l Ho E. cbn in *. destruct (part _ _ _) eqn:Ep; [done|]. injection E as <- _.
  by apply part_inv in Ep.
Qed.
Next Obligation. intros i [? ?]. cbn. lia. Qed.
Next Obligation. done. Qed.
Next Obligation. done. Qed.

(** An array list is the part of its vector between its bounds: the
    iterator yields that part in order and terminates, [GetCount] is its
    length, [At] inside the list is its element, and [Seek] moves to a
    position, not to a key, clamped at the end. *)
Theorem array_list (a : ArrayListV V) pos k fuel :
  (av_start a <= av_end a <= length (av_buffer a))%nat ->
  Z.of_nat (av_end a) < 18446744073709551616 -> 0 <= k ->
  (av_end a - av_start a <= fuel)%nat ->
  let l := part (av_start a) (av_end a) (av_buffer a) in
  fmap (map snd) (drain fuel (av_GetIterator a)) = Some l /\
  av_GetCount a = Z.of_nat (length l) /\
  ((pos < length l)%nat -> av_At a pos = l !! pos) /\
  fmap (map snd) (drain fuel (Seek k (av_GetIterator a))) = Some (drop (Z.to_nat k) l).
Proof.
  intros Ho Hr Hk Hf l. unfold av_GetIterator, ArrayListIterator_new.
  assert (length l = av_end a - av_start a)%nat as Hl
    by (unfold l, part; rewrite length_drop, length_take; lia).
  assert (forall (key : Z) (x : list V), map snd ((fun v => (key, v)) <$> x) = x) as Hsnd.
  { intros key x. induction x as [|y x IH]; cbn; [done|]. by f_equal. }
  split_and!.
  - rewrite drain_rest; [cbn; by rewrite Hsnd|cbn; lia|]. cbn.
    rewrite length_fmap. change (length l <= fuel)%nat. lia.
  - unfold av_GetCount. rewrite u64_small by lia. lia.
  - intros Hp. unfold av_At, l, part. rewrite lookup_drop, lookup_take_lt by lia. done.
  - assert (part (clamp (av_start a) (av_end a) k) (av_end a) (av_buffer a) =
      drop (Z.to_nat k) l) as Ep.
    { unfold clamp, l, part. rewrite drop_drop. case_decide as E; [|done].
      rewrite !drop_ge by (rewrite length_take; lia). done. }
    rewrite drain_rest; [cbn -[part clamp]; by rewrite Hsnd, Ep| |].
    + cbn. unfold clamp. case_decide; lia.
    + cbn -[part clamp]. rewrite length_fmap, Ep, length_drop. lia.
Qed.
End Array.

Lemma array_list_witness :
  let a := mkArrayListV [5; 6; 7; 8] 1 3 in
  fmap (map snd) (drain 4 (av_GetIterator a)) = Some [6; 7] /\ av_GetCount a = 2 /\
  ((1 < 2)%nat -> av_At a 1 = Some 7) /\
  fmap (map snd) (drain 4 (Seek 1 (av_GetIterator a))) = Some [7].
Proof.
  destruct (array_list (mkArrayListV [5; 6; 7; 8] 1 3) 1 1 4) as (H1 & H2 & H3 & H4);
    [cbn; lia..|]. split_and!; [exact H1|exact H2|exact H3|exact H4].
Defined.

Lemma bool_drain buffer s e fuel : forall i tmp,
  (i <= e <= length buffer)%nat -> (e - i <= fuel)%nat ->
  fmap (map snd) (drain fuel (bl_refresh (mkBoolArrayListIterator buffer s e i 0 tmp))) =
  Some ((fun z => negb (z =? 0)) <$> drop i (take e buffer)).
Proof.
  induction fuel as [|fuel IH]; intros i tmp Hi Hf; unfold bl_refresh at 1;
    cbn [bl_end bl_iter bl_buffer bl_start bl_key bl_tmp]; destruct (Nat.eqb_spec e i) as [<-|Hne];
    try lia; try (cbn -[Nat.eqb]; rewrite Nat.eqb_refl;
      by rewrite drop_ge by (rewrite length_take; lia)).
  destruct (lookup_lt_is_Some_2 buffer i) as [x Hx]; [lia|].
  rewrite Hx. cbn -[Nat.eqb bl_refresh]. rewrite (proj2 (Nat.eqb_neq _ _) Hne).
  cbn -[Nat.eqb bl_refresh drain].
  specialize (IH (S i) (Some (negb (x =? 0))) ltac:(lia) ltac:(lia)).
  unfold bl_set. cbn [bl_buffer bl_start bl_end bl_tmp].
  destruct (drain fuel _) as [r|]; [|done]. cbn in *. injection IH as ->.
  rewrite (drop_S (take e buffer) x i); [done|]. by rewrite lookup_take_lt by lia.
Qed.

(** A boolean array list yields the truth values of its vector in order,
    but [Seek] leaves the value read before in place: the first [GetValue]
    after a [Seek] returns the value of the old position. *)
Theorem bool_array_list (a : BoolArrayListV) k fuel :
  (bv_start a <= bv_end a <= length (bv_buffer a))%nat ->
  (bv_end a - bv_start a <= fuel)%nat ->
  let l := (fun z => negb (z =? 0)) <$> drop (bv_start a) (take (bv_end a) (bv_buffer a)) in
  fmap (map snd) (drain fuel (bv_GetIterator a)) = Some l /\
  (0 <= k < Z.of_nat (bv_end a - bv_start a) ->
   Valid (Seek k (bv_GetIterator a)) = true /\
   GetValue (Seek k (bv_GetIterator a)) = head l /\
   bv_At a (Z.to_nat k) = l !! Z.to_nat k).
Proof.
  destruct a as [buffer start e]. intros Ho Hf l. cbn [bv_start bv_end bv_buffer] in *. split.
  - by apply bool_drain.
  - intros Hk. destruct (lookup_lt_is_Some_2 buffer start) as [x Hx]; [lia|].
    unfold bv_GetIterator, BoolArrayListIterator_new, bl_refresh. cbn [bv_buffer bv_start bv_end bl_end bl_iter].
    rewrite (proj2 (Nat.eqb_neq e start)) by lia. cbn [negb]. split_and!.
    + cbn -[Nat.eqb]. unfold clamp. rewrite decide_False by lia.
      by rewrite (proj2 (Nat.eqb_neq e (start + Z.to_nat k))) by lia.
    + cbn. rewrite Hx. unfold l. rewrite (drop_S (take e buffer) x start); [done|].
      by rewrite lookup_take_lt by lia.
    + unfold bv_At, l. cbn. rewrite list_lookup_fmap, lookup_drop, lookup_take_lt by lia. done.
Qed.

Lemma bool_array_list_witness :
  let a := mkBoolArrayListV [1; 0] 0 2 in
  Valid (Seek 1 (bv_GetIterator a)) = true /\
  GetValue (Seek 1 (bv_GetIterator a)) = Some true /\ bv_At a 1 = Some false.
Proof.
  destruct (bool_array_list (mkBoolArrayListV [1; 0] 0 2) 1 3) as [_ H]; [cbn; lia..|].
  apply H. cbn. lia.
Defined.
