(* ===== verification/ColumnLists.v ===== *)
(** * Columns of a window as lists

    Models [ColumnImpl], [StringColumnImpl] and [ColumnIterator] of
    [include/codec/list_iterator_codec.h], the functions [v1::GetCol] and
    [v1::GetStrCol] that create them, what the code emitted by
    [MemoryWindowDecodeIRBuilder] asks of these functions, and the row
    iterator functions of [src/vm/mem_catalog.cc] for compiled code. *)

From stdpp Require Import base numbers option list.
From S2P Require Import Prelude Layout TypeCodec RowBuilder RowView RowCodec RowWrite RowRead RowFormat CompiledCodec CompiledProof Iterators Rows.

(** ** Columns *)

(** [ColumnImpl<V>] for the element type of a schema type, and
    [StringColumnImpl]. *)
Inductive Column :=
| ColumnImpl (type : Ty) (row_idx col_idx offset : Z)
| StringColumnImpl (row_idx col_idx str_field_offset next_str_field_offset str_start_offset : Z).

Definition column_row_idx (c : Column) : Z :=
  match c with ColumnImpl _ r _ _ | StringColumnImpl r _ _ _ _ => r end.
Definition column_col_idx (c : Column) : Z :=
  match c with ColumnImpl _ _ i _ | StringColumnImpl _ i _ _ _ => i end.

(** [*((const V* )ptr)]: [Timestamp] and [Date] are one integer, floating
    point numbers are their bits. *)
Definition load_element (type : Ty) (b : mem) (off : Z) : option Native :=
  match type with
  | kBool => NWord <$> load_s b off 1
  | kInt16 => NWord <$> load_s b off 2
  | kInt32 | kDate => NWord <$> load_s b off 4
  | kInt64 | kTimestamp => NWord <$> load_s b off 8
  | kFloat => NWord <$> load_u b off 4
  | kDouble => NWord <$> load_u b off 8
  | kVarchar | kBlob | kNull => None
  end.

Section Columns.
Context (spark : bool).

(** The string a column reads; its bytes are those of the row. *)
Definition load_string (b : option (list Z)) (n : Z) (col_idx str_field_offset
    next_str_field_offset str_start_offset : Z) : option Native :=
  r ← v1.GetStrFieldUnsafe spark b col_idx str_field_offset next_str_field_offset
        str_start_offset (i32 (v1.GetAddrSpace (u32 n))) (Some PNull) (Some 0);
  let '(_, data, len) := r in
  p ← data; l ← len; m ← b;
  NStr <$> charp_string m p l.

Definition GetFieldUnsafe (c : Column) (row : Row) : option Native :=
  match c with
  | ColumnImpl type row_idx _ offset =>
      d ← buf row row_idx; b ← d; load_element type b offset
  | StringColumnImpl row_idx col_idx str_field_offset next_str_field_offset str_start_offset =>
      n ← size row row_idx; d ← buf row row_idx;
      load_string d n col_idx str_field_offset next_str_field_offset str_start_offset
  end.

(** [GetField]: [None] in the result is a set null flag. *)
Definition GetField (c : Column) (row : Row) : option (option Native) :=
  d ← buf row (column_row_idx c);
  match d with
  | None => Some None
  | Some b =>
      n ← v1.IsNullAt (Some b) (column_col_idx c);
      if (n : bool) then Some None
      else match c with
           | ColumnImpl type _ _ offset => Some <$> load_element type b offset
           | StringColumnImpl row_idx col_idx str_field_offset next_str_field_offset
               str_start_offset =>
               sz ← size row row_idx;
               Some <$> load_string (Some b) sz col_idx str_field_offset
                          next_str_field_offset str_start_offset
           end
  end.

Definition IsNull (c : Column) (row : Row) : option bool :=
  d ← buf row (column_row_idx c);
  match d with
  | None => Some true
  | Some b => v1.IsNullAt (Some b) (column_col_idx c)
  end.

(** [ColumnImpl::At]; a position behind the end of the list is the field of a
    default row, whose buffer is null. *)
Definition column_At {I} `{RowIterator I Row} (c : Column) (pos : nat) (root : option I)
  : option Native :=
  row ← At pos root Row_default; GetFieldUnsafe c row.

Definition column_GetCount {I} `{RowIterator I Row} (fuel : nat) (root : I) : option Z :=
  GetCount fuel root.

(** ** Creating columns

    [input] is the list, [data] tells whether the memory for the object is
    given; the result is the status and the column created. *)

Definition GetCol {L} (input : option L) (row_idx col_idx offset : Z) (type : Ty) (data : bool)
  : Z * option (L * Column) :=
  match input, data with
  | Some w, true =>
      match type with
      | kInt32 | kInt16 | kInt64 | kFloat | kDouble | kTimestamp | kDate | kBool =>
          (0, Some (w, ColumnImpl type row_idx col_idx (u32 offset)))
      | kVarchar | kBlob | kNull => (-2, None)
      end
  | _, _ => (-2, None)
  end.

Definition GetStrCol {L} (input : option L) (row_idx col_idx str_field_offset
    next_str_field_offset str_start_offset : Z) (type : Ty) (data : bool)
  : Z * option (L * Column) :=
  match input, data with
  | Some w, true =>
      match type with
      | kVarchar => (0, Some (w, StringColumnImpl row_idx col_idx (u32 str_field_offset)
                                   (u32 next_str_field_offset) (u32 str_start_offset)))
      | _ => (-2, None)
      end
  | _, _ => (-2, None)
  end.

(** The calls that [BuildGetPrimaryCol] and [BuildGetStringCol] emit. *)
Definition BuildGetPrimaryCol {L} (w : L) (schema_idx col_idx offset : Z) (type : Ty)
  : outcome (Z * option (L * Column)) :=
  Done (GetCol (Some w) schema_idx col_idx offset type true).

Definition BuildGetStringCol {L} (w : L) (schema_idx col_idx offset next_str_field_offset
    str_start_offset : Z) (type : Ty) : outcome (Z * option (L * Column)) :=
  Done (GetStrCol (Some w) schema_idx col_idx offset next_str_field_offset str_start_offset
          type true).

(** What the code emitted by [BuildGetCol] does with the window [w]. *)
Definition BuildGetCol {L} (rf : RowFormat) (schema_idx col_idx : Z) (w : L)
  : outcome (Z * option (L * Column)) :=
  match GetColumnInfo col_idx rf with
  | None => Refused
  | Some col_info =>
      match ci_type col_info with
      | kBool | kInt16 | kInt32 | kInt64 | kFloat | kDouble | kTimestamp | kDate =>
          BuildGetPrimaryCol w schema_idx col_idx (ci_offset col_info) (ci_type col_info)
      | kVarchar =>
          match GetStringColumnInfo spark col_idx rf with
          | None => Undefined
          | Some str_info =>
              BuildGetStringCol w schema_idx (ci_idx (sci_info str_info))
                (ci_offset (sci_info str_info)) (sci_str_next_offset str_info)
                (sci_str_start_offset str_info) kVarchar
          end
      | kBlob | kNull => Refused
      end
  end.

End Columns.

(** ** The iterator of a column *)

Record ColumnIterator (I : Type) := mkColumnIterator {
  ct_spark : bool; ct_column : Column; ct_row_iter : I
}.
Arguments mkColumnIterator {I}.
Arguments ct_spark {I}.
Arguments ct_column {I}.
Arguments ct_row_iter {I}.

Section ColumnIterator.
Context {I : Type} `{RowIterator I Row}.

Definition ct_set (i : I) (it : ColumnIterator I) : ColumnIterator I :=
  mkColumnIterator (ct_spark it) (ct_column it) i.

#[export] Instance ColumnIterator_ops : RowIterator (ColumnIterator I) Native := {
  Valid it := Valid (ct_row_iter it);
  Next it := ct_set (Next (ct_row_iter it)) it;
  GetKey it := GetKey (ct_row_iter it);
  GetValue it := row ← GetValue (ct_row_iter it); GetFieldUnsafe (ct_spark it) (ct_column it) row;
  Seek key it := ct_set (Seek key (ct_row_iter it)) it;
  SeekToFirst it := ct_set (SeekToFirst (ct_row_iter it)) it
}.

(** The constructor: [if (!row_iter_) row_iter_->SeekToFirst();] calls a
    method on a null pointer when the list has no iterator, and does nothing
    otherwise. *)
Definition ColumnIterator_new (spark : bool) (c : Column) (list_iter : option I)
  : option (ColumnIterator I) :=
  match list_iter with
  | None => None
  | Some i => Some (mkColumnIterator spark c i)
  end.

(** ** Row iterators for compiled code *)

Definition GetRowIter (list_iter : I) : I := SeekToFirst list_iter.
Definition RowIterHasNext (it : I) : bool := Valid it.
Definition RowIterNext (it : I) : I := Next it.
Definition RowIterGetCurSlice (it : I) (idx : Z) : option (option (list Z)) :=
  row ← GetValue it; buf row idx.
Definition RowIterGetCurSliceSize (it : I) (idx : Z) : option Z :=
  row ← GetValue it; n ← size row idx; Some (u64 n).
End ColumnIterator.

Definition RowGetSlice (row : Row) (idx : Z) : option (option (list Z)) := buf row idx.
Definition RowGetSliceSize (row : Row) (idx : Z) : option Z :=
  n ← size row idx; Some (u64 n).
