(* ===== verification/ColumnListsProof.v ===== *)
(** * Columns of a window hold the fields of its rows *)

From stdpp Require Import base numbers option list.
From S2P Require Import Prelude Layout TypeCodec RowBuilder RowView RowCodec RowWrite RowRead RowFormat CompiledCodec CompiledProof Iterators MemCatalog MemCatalogProof Rows InnerLists InnerListsProof ColumnLists.

Section Field.
Context (cols : list ColumnDef) (size : Z) (vs : list (option Value)) (b : list Z).
Context (Hcols : Forall supported cols) (Hcount : schema_size cols < 2147483648).
Context (Hsize : 0 <= size < 4294967296) (Hfits : Forall2 value_fits cols vs).
Context (Hexact : size = bodies_start cols (GetAddrLength size) + sumz body_len vs).
Context (Hrow : row_holds cols size (GetAddrLength size) vs b).
Context (Hwidth : size <> 16777216).
Context (row : Row) (k : Z) (Hslice : nth_slice row k = Some (mkSlice size (Some b))).

Let rf := RowFormat_new false (Some cols).

(** The column compiled code gets for column [j]. *)
Definition column_of (j : nat) (c : ColumnDef) : Column :=
  if is_varchar (col_type c)
  then StringColumnImpl k (Z.of_nat j) (slot cols j)
         (next_str_field (slot cols j) (sumz strs cols)) (fixed_end cols)
  else ColumnImpl (col_type c) k (Z.of_nat j) (field_pos cols j).

Lemma BuildGetCol_column {L} (w : L) j c :
  cols !! j = Some c ->
  BuildGetCol false rf k (Z.of_nat j) w = Done (0, Some (w, column_of j c)).
Proof.
  intros Hc. pose proof (format_room cols size vs Hsize Hexact Hwidth) as Hroom.
  pose proof (Forall_lookup_1 _ _ _ _ Hcols Hc) as Hs.
  destruct (fixed_start_pos cols Hcount) as [? _].
  pose proof (sumz_nonneg strs strs_nonneg cols).
  pose proof (field_region cols j c Hc). pose proof (width_nonneg c).
  unfold BuildGetCol, BuildGetPrimaryCol, BuildGetStringCol, rf. rewrite (GetColumnInfo_spec cols Hcols Hcount Hroom j c Hc).
  cbn [ci_type ci_offset]. unfold column_of, layout_entry.
  destruct (is_varchar (col_type c)) eqn:Hvar.
  - apply bool_decide_eq_true in Hvar as Ht. rewrite Ht.
    rewrite (GetStringColumnInfo_spec cols Hcols Hcount Hroom j c Hc Hvar).
    cbn. pose proof (slot_range cols j c Hc Hvar).
    assert (0 <= next_str_field (slot cols j) (sumz strs cols) < 4294967296) as Hnext.
    { unfold next_str_field. destruct (_ <? _); [apply u32_range|done]. }
    by rewrite !u32_small by lia.
  - apply bool_decide_eq_false in Hvar as Ht. destruct Hs as [Hs1 Hs2].
    destruct (col_type c) eqn:E; try done; cbn; by rewrite u32_small by lia.
Qed.

Lemma slice_buf : buf row k = Some (Some b).
Proof. unfold buf. by rewrite Hslice. Qed.

Lemma slice_size : exists n, Rows.size row k = Some n /\ u32 n = size.
Proof.
  unfold Rows.size. rewrite Hslice. eexists. split; [done|]. cbn.
  by rewrite u32_i32, u32_small by lia.
Qed.

Lemma column_null_flag j v :
  vs !! j = Some v -> v1.IsNullAt (Some b) (Z.of_nat j) = Some (is_null_value v).
Proof. intros Hv. exact (column_null cols size vs b Hfits Hrow _ _ Hv). Qed.

Lemma load_element_value j c x :
  cols !! j = Some c -> is_varchar (col_type c) = false -> vs !! j = Some (Some x) ->
  value_fits c (Some x) -> load_element (col_type c) b (field_pos cols j) = Some (native_of x).
Proof.
  intros Hc Hvar Hv [Hx Hr]. apply bool_decide_eq_false in Hvar. rewrite <- Hx in *.
  pose proof (load_word_s cols size vs b Hrow j x) as Hs.
  pose proof (load_word_u cols size vs b Hrow j x) as Hu.
  destruct x; cbn [value_type load_element native_of fixed_bytes] in *; try done;
    first [by rewrite (Hs _ Hv) by done | by rewrite (Hu _ Hv) by done].
Qed.

Lemma load_string_value j c s n :
  cols !! j = Some c -> is_varchar (col_type c) = true -> vs !! j = Some (Some (VString s)) ->
  u32 n = size ->
  load_string false (Some b) n (Z.of_nat j) (slot cols j)
    (next_str_field (slot cols j) (sumz strs cols)) (fixed_end cols) = Some (NStr s).
Proof.
  intros Hc Hvar Hv Hn. unfold load_string. rewrite Hn, GetAddrSpace_length by done.
  pose proof (GetAddrLength_range size). rewrite i32_small by lia.
  rewrite (GetStrFieldUnsafe_value cols size vs b) with (c := c) (s := s) by done.
  cbn -[charp_string Z.of_nat]. cbn [charp_string]. rewrite Nat2Z.id.
  by rewrite (rd_body _ _ _ _ _ (proj1 Hrow) _ _ Hv).
Qed.

Lemma column_value j c v :
  cols !! j = Some c -> vs !! j = Some v ->
  GetField false (column_of j c) row = Some (native_of <$> v) /\
  IsNull (column_of j c) row = Some (is_null_value v) /\
  (forall x, v = Some x -> GetFieldUnsafe false (column_of j c) row = Some (native_of x)).
Proof.
  intros Hc Hv. destruct (rd_fits _ _ _ _ _ (proj1 Hrow) _ _ Hv) as (c' & Hc' & Hf).
  assert (c' = c) as -> by congruence. destruct slice_size as (n & En & Eu).
  pose proof (column_null_flag j v Hv) as Hn.
  assert (forall x, v = Some x -> GetFieldUnsafe false (column_of j c) row = Some (native_of x)) as Hu.
  { intros x ->. unfold column_of. destruct (is_varchar (col_type c)) eqn:Hvar; cbn [GetFieldUnsafe].
    - rewrite En, slice_buf. cbn [mbind option_bind].
      destruct Hf as [Hx _]. apply bool_decide_eq_true in Hvar as Ht. rewrite Ht in Hx.
      destruct x; try done. by apply (load_string_value j c).
    - rewrite slice_buf. cbn [mbind option_bind]. by apply (load_element_value j c). }
  assert (column_row_idx (column_of j c) = k /\ column_col_idx (column_of j c) = Z.of_nat j)
    as [Er Ec] by (unfold column_of; by destruct (is_varchar _)).
  split_and!; [| |done]; unfold GetField, IsNull; rewrite Er, Ec, slice_buf; cbn [mbind option_bind];
    rewrite Hn; cbn [mbind option_bind]; [|done].
  destruct v as [x|]; cbn [is_null_value]; [|done]. specialize (Hu x eq_refl). revert Hu.
  unfold column_of. destruct (is_varchar (col_type c)); cbn [GetFieldUnsafe];
    rewrite ?En, ?slice_buf; cbn [mbind option_bind]; intros ->; done.
Qed.
End Field.

(** A slice of a row that was written by [RowBuilder] for the schema. *)
Definition stored (cols : list ColumnDef) (k : Z) (row : Row) (vs : list (option Value)) : Prop :=
  row_ok cols vs /\ row_size cols vs <> 16777216 /\
  exists b0 b, row_size cols vs <= Z.of_nat (length b0) /\ encode_row cols vs b0 = Some b /\
    nth_slice row k = Some (mkSlice (row_size cols vs) (Some b)).

Lemma stored_value cols k row vs j c v :
  stored cols k row vs -> cols !! j = Some c -> vs !! j = Some v ->
  GetField false (column_of cols k j c) row = Some (native_of <$> v) /\
  IsNull (column_of cols k j c) row = Some (is_null_value v) /\
  (forall x, v = Some x -> GetFieldUnsafe false (column_of cols k j c) row = Some (native_of x)).
Proof.
  intros (Hok & H24 & b0 & b & Hb & Eb & Hs) Hc Hv. destruct (encode_row_holds _ _ _ Hok Hb)
    as (He & Hsz & rb1 & rb2 & b' & E1 & E2 & E3 & Hh).
  assert (b' = b) as ->.
  { unfold encode_row in Eb. fold (row_size cols vs) in Eb. rewrite E1 in Eb.
    cbn [mbind option_bind] in Eb. rewrite E2 in Eb. cbn in Eb. congruence. }
  destruct Hok as [Hc1 Hv1 Hne Hn1 Hs1]. by eapply column_value.
Qed.

Lemma stored_BuildGetCol {L} (w : L) cols k row vs j c :
  stored cols k row vs -> cols !! j = Some c ->
  BuildGetCol false (RowFormat_new false (Some cols)) k (Z.of_nat j) w =
  Done (0, Some (w, column_of cols k j c)).
Proof.
  intros (Hok & H24 & b0 & b & Hb & Eb & Hs) Hc. destruct (encode_row_holds _ _ _ Hok Hb)
    as (He & Hsz & _). destruct Hok as [Hc1 Hv1 Hne Hn1 Hs1]. by eapply BuildGetCol_column.
Qed.

(** ** The iterator *)

Section Iterator.
Context {I : Type} `{RowIteratorLaws I Row}.

Definition readable (it : ColumnIterator I) (e : Z * Row) : Prop :=
  is_Some (GetFieldUnsafe (ct_spark it) (ct_column it) e.2).

Definition field_entry (it : ColumnIterator I) (e : Z * Row) : Z * Native :=
  (e.1, default (NWord 0) (GetFieldUnsafe (ct_spark it) (ct_column it) e.2)).

#[export] Program Instance ColumnIterator_laws : RowIteratorLaws (ColumnIterator I) Native := {
  it_ok it := it_ok (ct_row_iter it) /\ Forall (readable it) (all (ct_row_iter it)) /\
    Forall (readable it) (rest (ct_row_iter it));
  all it := field_entry it <$> all (ct_row_iter it);
  rest it := field_entry it <$> rest (ct_row_iter it)
}.
Next Obligation.
  intros it (Ho & _). cbn. rewrite valid_rest by done. by destruct (rest _).
Qed.
Next Obligation.
  intros it (Ho & Ha & Hr) Hv. cbn in *. rewrite next_all, next_rest by done.
  split_and!; [by apply next_ok|done|]. destruct (rest _); [done|]. by apply Forall_cons_1 in Hr as [_ ?].
Qed.
Next Obligation.
  intros it (Ho & _) Hv. cbn in *. rewrite next_rest by done. by destruct (rest _).
Qed.
Next Obligation. intros it (Ho & _) Hv. cbn in *. by rewrite next_all. Qed.
Next Obligation.
  intros it e l (Ho & _) E. cbn in *. destruct (rest (ct_row_iter it)) as [|x l'] eqn:Er; [done|].
  injection E as <- _. by rewrite (key_rest _ _ _ Ho Er).
Qed.
Next Obligation.
  intros it e l (Ho & _ & Hr) E. cbn in *. destruct (rest (ct_row_iter it)) as [|x l'] eqn:Er; [done|].
  injection E as <- _. rewrite (value_rest _ _ _ Ho Er). cbn [mbind option_bind].
  apply Forall_cons_1 in Hr as [[v Hx] _]. cbn. by rewrite Hx.
Qed.
Next Obligation.
  intros it (Ho & Ha & Hr). cbn. rewrite first_all, first_rest by done.
  split_and!; try done. by apply first_ok.
Qed.
Next Obligation. intros it (Ho & _). cbn. by rewrite first_rest. Qed.
Next Obligation. intros it (Ho & _). cbn. by rewrite first_all. Qed.
End Iterator.

(** The native value of column [j]. *)
Definition native_at (j : nat) (vs : list (option Value)) : Native :=
  match vs !! j with Some (Some x) => native_of x | _ => NWord 0 end.

(** Reading one field of a joined row through the column compiled code
    builds: whatever slice holds the encoded row, the column of [BuildGetCol]
    yields the stored value or reports NULL, for every column type, and its
    unchecked variant yields the value of every field that is not NULL. *)
Theorem column_field_correct cols k row vs j c v :
  stored cols k row vs -> cols !! j = Some c -> vs !! j = Some v ->
  exists col,
    BuildGetCol false (RowFormat_new false (Some cols)) k (Z.of_nat j) row =
      Done (0, Some (row, col)) /\
    GetField false col row = Some (native_of <$> v) /\
    IsNull col row = Some (is_null_value v) /\
    (forall x, v = Some x -> GetFieldUnsafe false col row = Some (native_of x)).
Proof.
  intros Hst Hc Hv. exists (column_of cols k j c).
  split; [by eapply stored_BuildGetCol|by eapply stored_value].
Qed.

(** The column of a window is the list of its fields: for every window
    iterator that keeps its promises, over rows whose slice [k] holds rows of
    the schema with no NULL in column [j], the column iterator yields the
    values of the column in window order and terminates. *)
Theorem column_list_values {I} `{RowIteratorLaws I Row} (root : I) cols k j c
    (vals : list (Z * list (option Value))) fuel :
  it_ok root -> cols !! j = Some c -> vals <> [] ->
  Forall2 (fun e v => e.1 = v.1 /\ stored cols k e.2 v.2) (all root) vals ->
  Forall (fun v => exists x, v.2 !! j = Some (Some x)) vals ->
  (length (all root) <= fuel)%nat ->
  exists col it,
    BuildGetCol false (RowFormat_new false (Some cols)) k (Z.of_nat j) root =
      Done (0, Some (root, col)) /\
    ColumnIterator_new false col (Some root) = Some it /\
    drain fuel (SeekToFirst it) = Some (map (fun v => (v.1, native_at j v.2)) vals).
Proof.
  intros Ho Hc Hne H2 Hx Hf. set (it := mkColumnIterator false (column_of cols k j c) root).
  exists (column_of cols k j c), it.
  assert (Forall (readable it) (all root) /\
    field_entry it <$> all root = map (fun v => (v.1, native_at j v.2)) vals) as [Hr Ef].
  { clear Hne Hf. induction H2 as [|e v es vs' [Ek Hst] H2 IH]; [done|].
    apply Forall_cons_1 in Hx as [[x Hj] Hx]. destruct (IH Hx) as [IH1 IH2].
    destruct (stored_value _ _ _ _ _ _ _ Hst Hc Hj) as (_ & _ & Hu). specialize (Hu x eq_refl).
    split; [constructor; [unfold readable; cbn; by rewrite Hu|done]|].
    cbn [fmap list_fmap map]. rewrite IH2. f_equal. unfold field_entry, native_at. cbn.
    by rewrite Hu, Hj, Ek. }
  split_and!; [|done|].
  - destruct H2 as [|e v ? ? [_ Hst] _]; [done|]. by eapply stored_BuildGetCol.
  - assert (it_ok (SeekToFirst it)) as Ho'.
    { cbn. rewrite first_all, first_rest by done. split_and!; try done. by apply first_ok. }
    assert (rest (SeekToFirst it) = field_entry it <$> all root) as Er.
    { change (rest (SeekToFirst it)) with (field_entry it <$> rest (SeekToFirst root)).
      by rewrite first_rest. }
    rewrite drain_rest; rewrite ?Er; [by rewrite Ef|done|]. by rewrite length_fmap.
Qed.

(** A joined row whose second slice holds the sample row. *)
Definition sample_joined : Row :=
  mkRow RefCountedSlice_default
    [mkSlice 37 (encode_row sample_schema sample_row (replicate 37 0))].

Lemma sample_stored : stored sample_schema 1 sample_joined sample_row.
Proof.
  split; [apply sample_row_ok|]. split; [vm_compute; discriminate|].
  eexists (replicate 37 0), _. split; [vm_compute; discriminate|].
  split; vm_compute; reflexivity.
Qed.

Lemma column_field_correct_witness :
  exists col,
    BuildGetCol false (RowFormat_new false (Some sample_schema)) 1 2 sample_joined =
      Done (0, Some (sample_joined, col)) /\
    GetField false col sample_joined = Some (Some (NWord 7865371)) /\
    IsNull col sample_joined = Some false.
Proof.
  destruct (column_field_correct sample_schema 1 sample_joined sample_row 2 (mkcol [99] kDate)
    (Some (VDate 2020 5 27)) sample_stored eq_refl eq_refl) as (col & H1 & H2 & H3 & _).
  exists col. split_and!; [exact H1|exact H2|exact H3].
Defined.

Lemma column_list_values_witness :
  let w := MemTimeTableIterator_new [(9, sample_joined); (4, sample_joined)] in
  exists col it,
    BuildGetCol false (RowFormat_new false (Some sample_schema)) 1 2 w = Done (0, Some (w, col)) /\
    ColumnIterator_new false col (Some w) = Some it /\
    drain 2 (SeekToFirst it) = Some [(9, NWord 7865371); (4, NWord 7865371)].
Proof.
  apply (column_list_values (MemTimeTableIterator_new [(9, sample_joined); (4, sample_joined)])
    sample_schema 1 2 (mkcol [99] kDate) [(9, sample_row); (4, sample_row)] 2).
  - cbn. lia.
  - reflexivity.
  - discriminate.
  - do 2 (constructor; [split; [reflexivity|apply sample_stored]|]). constructor.
  - repeat constructor; by eexists.
  - cbn. lia.
Defined.
