(* ===== verification/CatalogWrapper.v ===== *)
(** * Lazy projection and filtering of iterators

    Models the iterators of [src/vm/catalog_wrapper.h]: a wrapper holds the
    iterator of another data set and projects or filters its rows when they
    are read. The function object and its parameter row are one function. A
    loop over the wrapped iterator has fuel; the promises of the wrapper
    require that it covers the rows of the wrapped iterator. *)

From stdpp Require Import base numbers option list.
From S2P Require Import Prelude Iterators.

Section Wrappers.
Context {I R : Type} `{RowIterator I R}.

(** [IteratorProjectWrapper]. *)
Record IteratorProjectWrapper := mkIteratorProjectWrapper {
  ip_iter : I; ip_fun : R -> R
}.

#[export] Instance IteratorProjectWrapper_ops : RowIterator IteratorProjectWrapper R := {
  Valid w := Valid (ip_iter w);
  Next w := mkIteratorProjectWrapper (Next (ip_iter w)) (ip_fun w);
  GetKey w := GetKey (ip_iter w);
  GetValue w := ip_fun w <$> GetValue (ip_iter w);
  Seek k w := mkIteratorProjectWrapper (Seek k (ip_iter w)) (ip_fun w);
  SeekToFirst w := mkIteratorProjectWrapper (SeekToFirst (ip_iter w)) (ip_fun w)
}.

(** [IteratorFilterWrapper]. *)
Record IteratorFilterWrapper := mkIteratorFilterWrapper {
  if_iter : I; if_predicate : R -> bool; if_fuel : nat
}.

(** [predicate_(iter_->GetValue(), parameter_)]. *)
Definition accepts (p : R -> bool) (it : I) : bool :=
  match GetValue it with Some v => p v | None => false end.

(** [while (iter_->Valid() && !predicate_(..)) iter_->Next();] *)
Fixpoint skip_rejected (p : R -> bool) (fuel : nat) (it : I) : I :=
  if Valid it && negb (accepts p it) then
    match fuel with
    | O => it
    | S fuel' => skip_rejected p fuel' (Next it)
    end
  else it.

#[export] Instance IteratorFilterWrapper_ops : RowIterator IteratorFilterWrapper R := {
  Valid w := Valid (if_iter w) && accepts (if_predicate w) (if_iter w);
  Next w := mkIteratorFilterWrapper
              (skip_rejected (if_predicate w) (if_fuel w) (Next (if_iter w)))
              (if_predicate w) (if_fuel w);
  GetKey w := GetKey (if_iter w);
  GetValue w := GetValue (if_iter w);
  Seek k w := mkIteratorFilterWrapper
                (skip_rejected (if_predicate w) (if_fuel w) (Seek k (if_iter w)))
                (if_predicate w) (if_fuel w);
  SeekToFirst w := mkIteratorFilterWrapper
                     (skip_rejected (if_predicate w) (if_fuel w) (SeekToFirst (if_iter w)))
                     (if_predicate w) (if_fuel w)
}.
End Wrappers.

Arguments IteratorProjectWrapper : clear implicits.
Arguments IteratorFilterWrapper : clear implicits.

(** ** Their promises *)

Section Laws.
Context {I R : Type} `{RowIteratorLaws I R}.

Definition project (f : R -> R) (l : list (Z * R)) : list (Z * R) :=
  (fun e => (e.1, f e.2)) <$> l.

#[export] Program Instance IteratorProjectWrapper_laws :
  RowIteratorLaws (IteratorProjectWrapper I R) R := {
  it_ok w := it_ok (ip_iter w);
  all w := project (ip_fun w) (all (ip_iter w));
  rest w := project (ip_fun w) (rest (ip_iter w))
}.
Next Obligation.
  intros w Ho. cbn. rewrite valid_rest by done. by destruct (rest (ip_iter w)).
Qed.
Next Obligation. intros w Ho Hv. cbn in *. by apply next_ok. Qed.
Next Obligation.
  intros w Ho Hv. cbn. rewrite next_rest by done. by destruct (rest (ip_iter w)).
Qed.
Next Obligation. intros w Ho Hv. cbn in *. by rewrite next_all. Qed.
Next Obligation.
  intros w e l Ho E. cbn in *. destruct (rest (ip_iter w)) as [|e' l'] eqn:Er; [done|].
  cbn in E. injection E as <- _. exact (key_rest _ _ _ Ho Er).
Qed.
Next Obligation.
  intros w e l Ho E. cbn in *. destruct (rest (ip_iter w)) as [|e' l'] eqn:Er; [done|].
  cbn in E. injection E as <- _. by rewrite (value_rest _ _ _ Ho Er).
Qed.
Next Obligation. intros w Ho. cbn in *. by apply first_ok. Qed.
Next Obligation. intros w Ho. cbn. by rewrite first_rest. Qed.
Next Obligation. intros w Ho. cbn. by rewrite first_all. Qed.

Lemma skip_while_project ts f (l : list (Z * R)) :
  skip_while (fun e => ts <? e.1) (project f l) = project f (skip_while (fun e => ts <? e.1) l).
Proof. induction l as [|e l IH]; [done|]. cbn. destruct (ts <? e.1); [apply IH|done]. Qed.

#[export] Instance IteratorProjectWrapper_seek `{!TimeSeek I R} :
  TimeSeek (IteratorProjectWrapper I R) R.
Proof.
  constructor; intros ts w Ho; cbn in *.
  - by rewrite seek_rest, skip_while_project.
  - by apply seek_ok.
  - by rewrite seek_all.
Qed.

(** The accepted rows of a list. *)
Definition select (p : R -> bool) (l : list (Z * R)) : list (Z * R) :=
  filter (fun e => p e.2 = true) l.

Lemma select_cons p e l :
  select p (e :: l) = if p e.2 then e :: select p l else select p l.
Proof. unfold select. rewrite filter_cons. destruct (p e.2); by case_decide. Qed.

Lemma length_select p l : (length (select p l) <= length l)%nat.
Proof. apply length_filter. Qed.

Lemma accepts_rest p (it : I) e l :
  it_ok it -> rest it = e :: l -> accepts p it = p e.2.
Proof. intros Ho E. unfold accepts. by rewrite (value_rest _ _ _ Ho E). Qed.

(** What a filter iterator over an iterator with these rows has left: nothing,
    unless the current row is accepted. *)
Definition filter_rest (p : R -> bool) (l : list (Z * R)) : list (Z * R) :=
  match l with [] => [] | e :: _ => if p e.2 then select p l else [] end.

Lemma skip_rejected_rest p fuel : forall (it : I),
  it_ok it -> (length (rest it) <= fuel)%nat ->
  it_ok (skip_rejected p fuel it) /\ all (skip_rejected p fuel it) = all it /\
  rest (skip_rejected p fuel it) = skip_while (fun e => negb (p e.2)) (rest it).
Proof.
  induction fuel as [|fuel IH]; intros it Ho Hf; cbn [skip_rejected];
    destruct (rest it) as [|e l] eqn:E;
    try (rewrite (exhausted _ Ho E); cbn; by rewrite E).
  - cbn in Hf. lia.
  - rewrite (valid_cons _ _ _ Ho E), (accepts_rest p _ _ _ Ho E). cbn [andb skip_while].
    destruct (p e.2); cbn [negb]; [by rewrite E|].
    destruct (rest_next _ _ _ Ho E) as [Er Ho']. cbn in Hf.
    destruct (IH (Next it)) as (? & E2 & E3); [done|rewrite Er; lia|].
    by rewrite E2, E3, next_all, Er by (done || by eapply valid_cons).
Qed.

Lemma filter_rest_skip p l :
  filter_rest p (skip_while (fun e => negb (p e.2)) l) = select p l.
Proof.
  induction l as [|e l IH]; [done|]. cbn [skip_while]. rewrite select_cons.
  destruct (p e.2) eqn:Ep; cbn [negb]; [|done].
  cbn [filter_rest]. by rewrite Ep, select_cons, Ep.
Qed.

#[export] Program Instance IteratorFilterWrapper_laws :
  RowIteratorLaws (IteratorFilterWrapper I R) R := {
  it_ok w := it_ok (if_iter w) /\ (length (all (if_iter w)) <= if_fuel w)%nat /\
    (length (rest (if_iter w)) <= if_fuel w)%nat;
  all w := select (if_predicate w) (all (if_iter w));
  rest w := filter_rest (if_predicate w) (rest (if_iter w))
}.
Next Obligation.
  intros w (Ho & _ & _). cbn. destruct (rest (if_iter w)) as [|e l] eqn:E; cbn [filter_rest].
  - by rewrite (exhausted _ Ho E).
  - rewrite (valid_cons _ _ _ Ho E), (accepts_rest _ _ _ _ Ho E). cbn [andb].
    rewrite select_cons. by destruct (if_predicate w e.2).
Qed.
Next Obligation.
  intros w (Ho & Ha & Hr) Hv. cbn in *. apply andb_true_iff in Hv as [Hv _].
  pose proof (next_rest _ Ho Hv) as En. pose proof (next_ok _ Ho Hv) as Ho'.
  assert (length (rest (Next (if_iter w))) <= if_fuel w)%nat as Hl.
  { rewrite En. destruct (rest (if_iter w)); cbn in *; lia. }
  destruct (skip_rejected_rest (if_predicate w) _ _ Ho' Hl) as (? & E2 & E3).
  split_and!; [done|by rewrite E2, next_all|]. rewrite E3.
  etrans; [apply length_skip_while|done].
Qed.
Next Obligation.
  intros w (Ho & Ha & Hr) Hv. cbn in *. apply andb_true_iff in Hv as [Hv Hp].
  destruct (rest (if_iter w)) as [|e l] eqn:E;
    [by rewrite (exhausted _ Ho E) in Hv|].
  rewrite (accepts_rest _ _ _ _ Ho E) in Hp. destruct (rest_next _ _ _ Ho E) as [Er Ho'].
  cbn [length] in Hr.
  destruct (skip_rejected_rest (if_predicate w) (if_fuel w) _ Ho') as (_ & _ & E3);
    [rewrite Er; lia|].
  rewrite E3, Er, filter_rest_skip. cbn [filter_rest]. by rewrite Hp, select_cons, Hp.
Qed.
Next Obligation.
  intros w (Ho & Ha & Hr) Hv. cbn in *. apply andb_true_iff in Hv as [Hv _]. f_equal.
  destruct (skip_rejected_rest (if_predicate w) (if_fuel w) _ (next_ok _ Ho Hv))
    as (_ & -> & _); [|by rewrite next_all].
  rewrite next_rest by done. destruct (rest (if_iter w)); cbn in *; lia.
Qed.
Next Obligation.
  intros w e l (Ho & _ & _) E. cbn in *. destruct (rest (if_iter w)) as [|e' l'] eqn:Er; [done|].
  cbn [filter_rest] in E. rewrite select_cons in E. destruct (if_predicate w e'.2); [|done].
  injection E as <- _. by eapply key_rest.
Qed.
Next Obligation.
  intros w e l (Ho & _ & _) E. cbn in *. destruct (rest (if_iter w)) as [|e' l'] eqn:Er; [done|].
  cbn [filter_rest] in E. rewrite select_cons in E. destruct (if_predicate w e'.2); [|done].
  injection E as <- _. by eapply value_rest.
Qed.
Next Obligation.
  intros w (Ho & Ha & Hr). cbn.
  destruct (skip_rejected_rest (if_predicate w) (if_fuel w) _ (first_ok _ Ho))
    as (? & E2 & E3); [by rewrite first_rest|].
  rewrite E2, E3, first_all, first_rest by done. split_and!; try done.
  etrans; [apply length_skip_while|done].
Qed.
Next Obligation.
  intros w (Ho & Ha & Hr). cbn.
  destruct (skip_rejected_rest (if_predicate w) (if_fuel w) _ (first_ok _ Ho))
    as (_ & _ & E3); [by rewrite first_rest|].
  by rewrite E3, first_rest, filter_rest_skip.
Qed.
Next Obligation.
  intros w (Ho & Ha & Hr). cbn.
  destruct (skip_rejected_rest (if_predicate w) (if_fuel w) _ (first_ok _ Ho))
    as (_ & E2 & _); [by rewrite first_rest|].
  by rewrite E2, first_all.
Qed.
End Laws.
