(* ===== verification/Handlers.v ===== *)
(** * Data handlers: what operators pass to each other

    Models the handlers of [include/vm/catalog.h], [include/vm/mem_catalog.h]
    and [src/vm/catalog_wrapper.h]: rows, tables and partitions, stored or
    computed lazily from others. Dynamic dispatch over the iterator classes is
    a shape, which selects the type and the operations of an iterator. A null
    pointer is [None]; an outer [None] is undefined behaviour or exhausted
    fuel. *)

#[local] Set Warnings "-register-all".

From stdpp Require Import base numbers option list.
From S2P Require Import Prelude Layout TypeCodec Iterators MemCatalog MemCatalogProof Rows CatalogWrapper.

(** ** Iterators behind a pointer to the base class *)

Inductive shape :=
| STime | SVec | SProject (s : shape) | SFilter (s : shape) | SUnion (s : shape).

Fixpoint iter_ty (s : shape) : Type :=
  match s with
  | STime => MemTimeTableIterator Row
  | SVec => MemTableIterator Row
  | SProject s' => IteratorProjectWrapper (iter_ty s') Row
  | SFilter s' => IteratorFilterWrapper (iter_ty s') Row
  | SUnion s' => RequestUnionIterator Row (iter_ty s')
  end.

#[export] Instance iter_ops : forall s, RowIterator (iter_ty s) Row :=
  fix ops s := match s return RowIterator (iter_ty s) Row with
  | STime => MemTimeTableIterator_ops
  | SVec => MemTableIterator_ops
  | SProject s' => @IteratorProjectWrapper_ops _ _ (ops s')
  | SFilter s' => @IteratorFilterWrapper_ops _ _ (ops s')
  | SUnion s' => @RequestUnionIterator_ops _ _ (ops s')
  end.

(** [std::unique_ptr<RowIterator>], not null. *)
Record AnyIter := mkAnyIter { ai_shape : shape; ai_iter : iter_ty ai_shape }.

Definition ai_map (f : forall s, iter_ty s -> iter_ty s) (a : AnyIter) : AnyIter :=
  mkAnyIter (ai_shape a) (f (ai_shape a) (ai_iter a)).

#[export] Instance AnyIter_ops : RowIterator AnyIter Row := {
  Valid a := Valid (ai_iter a);
  Next := ai_map (fun s => Next);
  GetKey a := GetKey (ai_iter a);
  GetValue a := GetValue (ai_iter a);
  Seek k := ai_map (fun s => Seek k);
  SeekToFirst := ai_map (fun s => SeekToFirst)
}.

Definition project_iter (f : Row -> Row) (a : AnyIter) : AnyIter :=
  mkAnyIter (SProject (ai_shape a)) (mkIteratorProjectWrapper (ai_iter a) f).
Definition filter_iter (fuel : nat) (p : Row -> bool) (a : AnyIter) : AnyIter :=
  mkAnyIter (SFilter (ai_shape a)) (mkIteratorFilterWrapper (ai_iter a) p fuel).
Definition union_iter (ts : Z) (row : Row) (a : AnyIter) : AnyIter :=
  mkAnyIter (SUnion (ai_shape a)) (RequestUnionIterator_new ts row (ai_iter a)).

(** ** Partitions *)

(** [MemPartitionHandler], [PartitionProjectWrapper], [PartitionFilterWrapper]. *)
Inductive PartitionHandler :=
| PMem (p : MemPartitionHandler Row)
| PProject (f : Row -> Row) (p : PartitionHandler)
| PFilter (f : Row -> bool) (p : PartitionHandler).

Fixpoint p_GetOrderType (p : PartitionHandler) : OrderType :=
  match p with
  | PMem p => ph_order_type p
  | PProject _ p | PFilter _ p => p_GetOrderType p
  end.

(** Iterators over segments: the wrappers forward everything but [GetValue]. *)
Inductive WinIter :=
| WMem (it : MemWindowIterator Row)
| WProject (f : Row -> Row) (w : WinIter)
| WFilter (f : Row -> bool) (w : WinIter).

Fixpoint wi_map (g : MemWindowIterator Row -> MemWindowIterator Row) (w : WinIter) : WinIter :=
  match w with
  | WMem it => WMem (g it)
  | WProject f w => WProject f (wi_map g w)
  | WFilter f w => WFilter f (wi_map g w)
  end.
Fixpoint wi_root (w : WinIter) : MemWindowIterator Row :=
  match w with WMem it => it | WProject _ w | WFilter _ w => wi_root w end.

Definition wi_Seek (key : list Z) : WinIter -> WinIter := wi_map (mw_Seek key).
Definition wi_SeekToFirst : WinIter -> WinIter := wi_map mw_SeekToFirst.
Definition wi_Next : WinIter -> WinIter := wi_map mw_Next.
Definition wi_Valid (w : WinIter) : bool := mw_Valid (wi_root w).
Definition wi_GetKey (w : WinIter) : option (list Z) := mw_GetKey (wi_root w).

(** The fuel of the loops of filter iterators. *)
Section Handlers.
Context (fuel : nat).

(** [GetValue]: the iterator of the segment, possibly null. *)
Fixpoint wi_GetValue (w : WinIter) : option (option AnyIter) :=
  match w with
  | WMem it => v ← mw_GetValue it; Some (Some (mkAnyIter STime v))
  | WProject f w => o ← wi_GetValue w; Some (option_map (project_iter f) o)
  | WFilter p w => o ← wi_GetValue w; Some (option_map (filter_iter fuel p) o)
  end.

Fixpoint p_GetWindowIterator (p : PartitionHandler) : option WinIter :=
  match p with
  | PMem p => Some (WMem (ph_GetWindowIterator p))
  | PProject f p => WProject f <$> p_GetWindowIterator p
  | PFilter f p => WFilter f <$> p_GetWindowIterator p
  end.

(** ** Tables *)

(** [MemTimeTableHandler], [MemTableHandler], [TableProjectWrapper],
    [TableFilterWrapper], [MemSegmentHandler], [RequestUnionTableHandler] and
    [ConcatTableHandler]. *)
Inductive TableHandler :=
| TTime (h : MemTimeTableHandler Row)
| TMem (h : MemTableHandler Row)
| TProject (f : Row -> Row) (t : TableHandler)
| TFilter (f : Row -> bool) (t : TableHandler)
| TSegment (p : PartitionHandler) (key : list Z)
| TRequestUnion (ts : Z) (row : Row) (window : TableHandler)
| TConcat (left : option TableHandler) (left_slices : Z)
    (right : option TableHandler) (right_slices : Z).

Fixpoint t_GetOrderType (t : TableHandler) : OrderType :=
  match t with
  | TTime h => th_order_type h
  | TMem h => tb_order_type h
  | TProject _ t | TFilter _ t => t_GetOrderType t
  | TSegment p _ => p_GetOrderType p
  | TRequestUnion _ _ w => t_GetOrderType w
  | TConcat _ _ _ _ => kNoneOrder
  end.

(** [PartitionHandler::GetSegment]. *)
Fixpoint p_GetSegment (p : PartitionHandler) (key : list Z) : option TableHandler :=
  match p with
  | PMem _ => Some (TSegment p key)
  | PProject f p => TProject f <$> p_GetSegment p key
  | PFilter f p => TFilter f <$> p_GetSegment p key
  end.

(** [MemSegmentHandler::GetIterator]. *)
Definition segment_iterator (p : PartitionHandler) (key : list Z) : option (option AnyIter) :=
  match p_GetWindowIterator p with
  | Some iter =>
      let iter := wi_Seek key iter in
      if wi_Valid iter then wi_GetValue iter else Some None
  | None => Some None
  end.

(** Joining rows of the declared numbers of slices, which are positive. *)
Definition join_rows (ls rs : Z) (l r : Row) : Row :=
  default Row_default (Row_concat ls l rs r).

(** [ConcatTableHandler::SyncValue] on the iterators of its tables. *)
Definition concat_iterator (ls rs : Z) (left right : option AnyIter) : option AnyIter :=
  h ← SyncValue (join_rows ls rs) Row_default fuel
        (mkConcatTableHandler true MemTimeTableHandler_new left right);
  Some (mkAnyIter STime (th_GetIterator h)).

Fixpoint t_GetIterator (t : TableHandler) : option (option AnyIter) :=
  match t with
  | TTime h => Some (Some (mkAnyIter STime (th_GetIterator h)))
  | TMem h => Some (Some (mkAnyIter SVec (tb_GetIterator h)))
  | TProject f t => o ← t_GetIterator t; Some (option_map (project_iter f) o)
  | TFilter p t => o ← t_GetIterator t; Some (option_map (filter_iter fuel p) o)
  | TSegment p key => segment_iterator p key
  | TRequestUnion ts row w => o ← t_GetIterator w; Some (option_map (union_iter ts row) o)
  | TConcat tl ls tr rs =>
      match tl with
      | None => a ← concat_iterator ls rs None None; Some (Some a)
      | Some tl =>
          l ← t_GetIterator tl;
          r ← match tr with None => Some None | Some tr => t_GetIterator tr end;
          a ← concat_iterator ls rs l r; Some (Some a)
      end
  end.

(** [GetCount]: the wrappers of filters and unions inherit [ListV::GetCount],
    which dereferences a null iterator. *)
Fixpoint t_GetCount (t : TableHandler) : option Z :=
  match t with
  | TTime h => Some (th_GetCount h)
  | TMem h => Some (tb_GetCount h)
  | TProject _ t => t_GetCount t
  | TFilter _ _ | TRequestUnion _ _ _ => o ← t_GetIterator t; it ← o; GetCount fuel it
  | TSegment _ _ =>
      o ← t_GetIterator t;
      match o with None => Some 0 | Some it => count_loop fuel 0 (SeekToFirst it) end
  | TConcat _ _ _ _ => o ← t_GetIterator t; it ← o; GetCount fuel it
  end.

(** [At]; a position behind the end gives the empty row. *)
Fixpoint t_At (pos : Z) (t : TableHandler) : option Row :=
  match t with
  | TTime h => Some (th_At pos Row_default h)
  | TMem h => Some (tb_At pos Row_default h)
  | TProject f t => f <$> t_At pos t
  | TFilter _ _ | TRequestUnion _ _ _ | TConcat _ _ _ _ =>
      o ← t_GetIterator t; At (Z.to_nat pos) o Row_default
  | TSegment _ _ => o ← t_GetIterator t; At (Z.to_nat pos) (option_map SeekToFirst o) Row_default
  end.

(** ** Rows and data *)

(** [MemRowHandler], [RowProjectWrapper], [RowCombineWrapper]. *)
Inductive RowHandler :=
| RMem (row : Row)
| RProject (f : Row -> Row) (r : RowHandler)
| RCombine (left : option RowHandler) (left_slices : Z)
    (right : option RowHandler) (right_slices : Z).

Fixpoint r_GetValue (r : RowHandler) : option Row :=
  match r with
  | RMem row => Some row
  | RProject f r => row ← r_GetValue r; Some (if Rows.empty row then row else f row)
  | RCombine None _ _ _ => Some Row_default
  | RCombine (Some hl) ls hr rs =>
      l ← r_GetValue hl;
      match hr with
      | None => Row_concat ls l rs Row_default
      | Some hr => r ← r_GetValue hr; Row_concat ls l rs r
      end
  end.

(** [DataHandler]; the constructor is [GetHanlderType]. *)
Inductive DataHandler :=
| HRow (r : RowHandler) | HTable (t : TableHandler) | HPartition (p : PartitionHandler).

(** [DataHandlerVector] and [DataHandlerRepeater]. *)
Inductive DataHandlerList :=
| DVector (hs : list (option DataHandler))
| DRepeater (h : option DataHandler) (size : Z).

Definition dl_GetSize (l : DataHandlerList) : Z :=
  match l with DVector hs => Z.of_nat (length hs) | DRepeater _ n => n end.
Definition dl_Get (l : DataHandlerList) (idx : Z) : option DataHandler :=
  match l with
  | DVector hs => if idx <? Z.of_nat (length hs) then mjoin (hs !! Z.to_nat idx) else None
  | DRepeater h n => if idx <? n then h else None
  end.
Definition dl_Add (h : option DataHandler) (hs : list (option DataHandler))
  : list (option DataHandler) := hs ++ [h].
End Handlers.
