(* ===== verification/HandlersProof.v ===== *)
(** * What data handlers contain

    The abstract contents of a table is the list of its keys and rows, or
    nothing for a table without iterator. The iterators that the handlers
    return enumerate exactly these contents; operators are specified on them. *)

From stdpp Require Import base numbers option list sorting.
From S2P Require Import Prelude TypeCodec Iterators MemCatalog MemCatalogProof Rows CatalogWrapper Handlers.

(** ** Iterators behind a pointer *)

#[export] Instance iter_laws : forall s, RowIteratorLaws (iter_ty s) Row :=
  fix laws s := match s return RowIteratorLaws (iter_ty s) Row with
  | STime => MemTimeTableIterator_laws
  | SVec => MemTableIterator_laws
  | SProject s' => @IteratorProjectWrapper_laws _ _ _ (laws s')
  | SFilter s' => @IteratorFilterWrapper_laws _ _ _ (laws s')
  | SUnion s' => @RequestUnionIterator_laws _ _ _ (laws s')
  end.

#[export] Program Instance AnyIter_laws : RowIteratorLaws AnyIter Row := {
  it_ok a := it_ok (ai_iter a);
  all a := all (ai_iter a);
  rest a := rest (ai_iter a)
}.
Next Obligation. intros a. exact (valid_rest (ai_iter a)). Qed.
Next Obligation. intros a. exact (next_ok (ai_iter a)). Qed.
Next Obligation. intros a. exact (next_rest (ai_iter a)). Qed.
Next Obligation. intros a. exact (next_all (ai_iter a)). Qed.
Next Obligation. intros a. exact (key_rest (ai_iter a)). Qed.
Next Obligation. intros a. exact (value_rest (ai_iter a)). Qed.
Next Obligation. intros a. exact (first_ok (ai_iter a)). Qed.
Next Obligation. intros a. exact (first_rest (ai_iter a)). Qed.
Next Obligation. intros a. exact (first_all (ai_iter a)). Qed.

(** ** Seeking in time-ordered data *)

(** Keys in descending order. *)
Definition newest_first {A} (l : list (Z * A)) : Prop := StronglySorted (fun a b => b.1 <= a.1) l.

Lemma skip_while_sublist {A} (p : A -> bool) l : skip_while p l `suffix_of` l.
Proof.
  induction l as [|x l IH]; cbn; [done|]. destruct (p x); [by apply suffix_cons_r|done].
Qed.

Lemma select_older {R} (p : R -> bool) ts (l : list (Z * R)) :
  newest_first l ->
  select p (skip_while (fun e => ts <? e.1) l) = skip_while (fun e => ts <? e.1) (select p l).
Proof.
  induction 1 as [|e l Hs IH Hf]; [done|]. cbn [skip_while]. rewrite select_cons.
  destruct (Z.ltb_spec ts e.1) as [Hlt|Hge].
  - destruct (p e.2); [|done]. cbn [skip_while]. by rewrite (proj2 (Z.ltb_lt _ _) Hlt).
  - rewrite select_cons. destruct (p e.2).
    + cbn [skip_while]. by rewrite (proj2 (Z.ltb_ge _ _) Hge).
    + assert (Forall (fun e' : Z * R => e'.1 <= ts) (select p l)) as Ha.
      { apply Forall_forall. intros x Hx. apply list_elem_of_filter in Hx as [_ Hx].
        rewrite Forall_forall in Hf. specialize (Hf x Hx). cbn in Hf. lia. }
      destruct (select p l) as [|x s]; [done|]. cbn [skip_while].
      apply Forall_cons_1 in Ha as [Hx _]. by rewrite (proj2 (Z.ltb_ge _ _) Hx).
Qed.

(** Seeking in a filter of rows in time order, when seeking below it does. *)
Lemma filter_seek {I R} `{RowIteratorLaws I R} ts (w : IteratorFilterWrapper I R) :
  it_ok w -> newest_first (all (if_iter w)) ->
  it_ok (Seek ts (if_iter w)) -> all (Seek ts (if_iter w)) = all (if_iter w) ->
  rest (Seek ts (if_iter w)) = skip_while (fun e => ts <? e.1) (all (if_iter w)) ->
  it_ok (Seek ts w) /\ all (Seek ts w) = all w /\
  rest (Seek ts w) = skip_while (fun e => ts <? e.1) (all w).
Proof.
  intros (Ho & Ha & Hr) Hn Ho' E2 E3. cbn.
  assert (length (rest (Seek ts (if_iter w))) <= if_fuel w)%nat as Hl.
  { rewrite E3. etrans; [apply length_skip_while|done]. }
  destruct (skip_rejected_rest (if_predicate w) _ _ Ho' Hl) as (? & E5 & E6).
  rewrite E5, E6, E2, E3, filter_rest_skip, select_older by done.
  split_and!; try done. etrans; [apply length_skip_while|]. by rewrite <- E3.
Qed.

(** The stored rows below the wrappers are in time order; a vector of rows
    seeks by position. *)
Fixpoint time_sorted (s : shape) : iter_ty s -> Prop :=
  match s return iter_ty s -> Prop with
  | STime => fun it => newest_first (all it)
  | SVec => fun _ => False
  | SProject s' => fun it => time_sorted s' (ip_iter it)
  | SFilter s' => fun it => time_sorted s' (if_iter it) /\ newest_first (all (if_iter it))
  | SUnion s' => fun it => time_sorted s' (ru_window_iter it)
  end.

Lemma seek_sorted s : forall ts (it : iter_ty s),
  it_ok it -> time_sorted s it ->
  it_ok (Seek ts it) /\ all (Seek ts it) = all it /\
  rest (Seek ts it) = skip_while (fun e => ts <? e.1) (all it).
Proof.
  induction s as [| |s IH|s IH|s IH]; intros ts it Ho Hs.
  - split_and!; [by apply seek_ok|by apply seek_all|by apply seek_rest].
  - done.
  - destruct (IH ts _ Ho Hs) as (? & E2 & E3). cbn in *.
    split_and!; [done|by rewrite E2|by rewrite E3, skip_while_project].
  - destruct Hs as [Hs Hn]. destruct (IH ts _ (proj1 Ho) Hs) as (? & ? & ?).
    by apply (filter_seek (I := iter_ty s)).
  - destruct (IH ts _ Ho Hs) as (? & E2 & E3). cbn in *.
    rewrite (Z.ltb_antisym (ru_request_ts it) ts).
    destruct (ru_request_ts it <=? ts); cbn.
    + rewrite first_all, first_rest by done. split_and!; [by apply first_ok|done..].
    + by rewrite E2.
Qed.

Lemma any_seek_sorted ts (a : AnyIter) :
  it_ok a -> time_sorted _ (ai_iter a) ->
  it_ok (Seek ts a) /\ all (Seek ts a) = all a /\
  rest (Seek ts a) = skip_while (fun e => ts <? e.1) (all a).
Proof. apply seek_sorted. Qed.

(** ** Contents *)

(** The rows of a key. *)
Fixpoint p_segment (p : PartitionHandler) (key : list Z) : option (list (Z * Row)) :=
  match p with
  | PMem p => seg_get key (ph_partitions p)
  | PProject f p => project f <$> p_segment p key
  | PFilter q p => select q <$> p_segment p key
  end.

(** What a new iterator of the segment has left before it is rewound. *)
Fixpoint p_fresh (p : PartitionHandler) (key : list Z) : option (list (Z * Row)) :=
  match p with
  | PMem p => seg_get key (ph_partitions p)
  | PProject f p => project f <$> p_fresh p key
  | PFilter q p => filter_rest q <$> p_fresh p key
  end.

(** The keys and rows of a table, and what a new iterator has left before it
    is rewound; [None] for a null iterator. *)
Fixpoint t_contents (fresh : bool) (t : TableHandler) : option (list (Z * Row)) :=
  match t with
  | TTime h => Some (th_table h)
  | TMem h => Some (numbered 0 (tb_table h))
  | TProject f t => project f <$> t_contents fresh t
  | TFilter q t => (if fresh then filter_rest q else select q) <$> t_contents fresh t
  | TSegment p key => if fresh then p_fresh p key else p_segment p key
  | TRequestUnion ts row w => cons (ts, row) <$> t_contents fresh w
  | TConcat tl ls tr rs =>
      Some (concat_rows (join_rows ls rs) Row_default
              (default [] (match tl with None => None | Some tl => t_contents false tl end))
              (default [] (match tr with None => None | Some tr => t_contents true tr end)))
  end.

Definition entries : TableHandler -> option (list (Z * Row)) := t_contents false.

(** The loops of the wrappers have fuel for the rows below them, and rows are
    numbered within 64 bits. *)
Fixpoint p_ok (fuel : nat) (p : PartitionHandler) : Prop :=
  match p with
  | PMem _ => True
  | PProject _ p => p_ok fuel p
  | PFilter _ p => p_ok fuel p /\
      forall key, (length (default [] (p_segment p key)) <= fuel)%nat
  end.

Fixpoint t_ok (fuel : nat) (t : TableHandler) : Prop :=
  match t with
  | TTime _ => True
  | TMem h => Z.of_nat (length (tb_table h)) < 18446744073709551616
  | TProject _ t => t_ok fuel t
  | TFilter _ t => t_ok fuel t /\ (length (default [] (entries t)) <= fuel)%nat
  | TSegment p _ => p_ok fuel p
  | TRequestUnion _ _ w => t_ok fuel w
  | TConcat tl _ tr _ =>
      match tl with
      | None => True
      | Some tl => t_ok fuel tl /\ (length (default [] (entries tl)) <= fuel)%nat
      end /\
      match tr with None => True | Some tr => t_ok fuel tr end
  end.

(** An iterator pointer that enumerates a list [l] and starts at [f]. *)
Definition presents (o : option AnyIter) (l f : option (list (Z * Row))) : Prop :=
  match o, l, f with
  | None, None, None => True
  | Some it, Some l, Some f => it_ok it /\ all it = l /\ rest it = f
  | _, _, _ => False
  end.

(** Induction that reaches the tables below a concatenation. *)
Lemma table_ind (P : TableHandler -> Prop) :
  (forall h, P (TTime h)) -> (forall h, P (TMem h)) ->
  (forall f t, P t -> P (TProject f t)) -> (forall f t, P t -> P (TFilter f t)) ->
  (forall p key, P (TSegment p key)) -> (forall ts row t, P t -> P (TRequestUnion ts row t)) ->
  (forall tl ls tr rs, from_option P True tl -> from_option P True tr -> P (TConcat tl ls tr rs)) ->
  forall t, P t.
Proof.
  intros H1 H2 H3 H4 H5 H6 H7. fix IH 1. intros [h|h|f t|f t|p key|ts row t|tl ls tr rs].
  - apply H1.
  - apply H2.
  - apply H3, IH.
  - apply H4, IH.
  - apply H5.
  - apply H6, IH.
  - apply H7; [destruct tl as [tl|]|destruct tr as [tr|]]; cbn; (apply IH || exact Logic.I).
Qed.

Definition flen (l : option (list (Z * Row))) : nat := length (default [] l).

Lemma flen_project f l : flen (project f <$> l) = flen l.
Proof. destruct l; [|done]. apply length_fmap. Qed.

Lemma presents_project f o l r :
  presents o l r -> presents (option_map (project_iter f) o) (project f <$> l) (project f <$> r).
Proof. destruct o, l, r; try done. intros (? & <- & <-). done. Qed.

Lemma presents_union ts row o l r :
  presents o l r ->
  presents (option_map (union_iter ts row) o) (cons (ts, row) <$> l) (cons (ts, row) <$> r).
Proof. destruct o, l, r; try done. intros (? & <- & <-). done. Qed.

Lemma presents_filter fuel q o l r :
  (flen l <= fuel)%nat -> (flen r <= flen l)%nat -> presents o l r ->
  presents (option_map (filter_iter fuel q) o) (select q <$> l) (filter_rest q <$> r).
Proof.
  destruct o as [it|], l, r; try done. cbn. intros ? ? (? & <- & <-).
  split_and!; [done|..|done|done]; cbn in *; lia.
Qed.

(** A new iterator may stop early: a filter whose first row is rejected. *)
Lemma select_prefix q (l f : list (Z * Row)) : f `prefix_of` l -> select q f `prefix_of` select q l.
Proof. intros [k ->]. unfold select. rewrite filter_app. by eexists. Qed.

Lemma filter_rest_prefix q (l f : list (Z * Row)) :
  f `prefix_of` l -> filter_rest q f `prefix_of` select q l.
Proof.
  intros Hp. destruct f as [|e f]; [apply prefix_nil|]. cbn [filter_rest].
  destruct (q e.2); [by apply select_prefix|apply prefix_nil].
Qed.

Lemma project_prefix g (l f : list (Z * Row)) : f `prefix_of` l -> project g f `prefix_of` project g l.
Proof. intros [k ->]. unfold project. rewrite fmap_app. by eexists. Qed.

Definition starts (f l : option (list (Z * Row))) : Prop := option_Forall2 prefix f l.

Lemma starts_fmap (g h : list (Z * Row) -> list (Z * Row)) f l :
  (forall x y, x `prefix_of` y -> g x `prefix_of` h y) ->
  starts f l -> starts (g <$> f) (h <$> l).
Proof. intros Hg [x y Hp|]; constructor; auto. Qed.

Lemma starts_len f l : starts f l -> (flen f <= flen l)%nat.
Proof. intros [x y Hp|]; [by apply prefix_length|done]. Qed.

Lemma p_fresh_starts p key : starts (p_fresh p key) (p_segment p key).
Proof.
  induction p; cbn [p_fresh p_segment].
  - destruct (seg_get _ _); by constructor.
  - apply starts_fmap; [intros; by apply project_prefix|done].
  - apply starts_fmap; [intros; by apply filter_rest_prefix|done].
Qed.

Lemma contents_starts t : starts (t_contents true t) (t_contents false t).
Proof.
  induction t as [h|h|f t IH|q t IH|p key|ts row t IH|tl ls tr rs _ _] using table_ind;
    cbn [t_contents].
  - by constructor.
  - by constructor.
  - apply starts_fmap; [intros; by apply project_prefix|done].
  - apply starts_fmap; [intros; by apply filter_rest_prefix|done].
  - apply p_fresh_starts.
  - apply starts_fmap; [intros; by apply prefix_cons|done].
  - by constructor.
Qed.

(** ** The iterators of handlers *)

Lemma segment_iterator_wrap fuel p key :
  (forall f, segment_iterator fuel (PProject f p) key =
     o ← segment_iterator fuel p key; Some (option_map (project_iter f) o)) /\
  (forall q, segment_iterator fuel (PFilter q p) key =
     o ← segment_iterator fuel p key; Some (option_map (filter_iter fuel q) o)).
Proof.
  unfold segment_iterator. cbn [p_GetWindowIterator].
  destruct (p_GetWindowIterator p) as [w|]; split; intros g; try done; cbn;
    destruct (wi_Valid (wi_Seek key w)) eqn:E; unfold wi_Valid in *; cbn; by rewrite E.
Qed.

Lemma segment_presents fuel p key :
  p_ok fuel p -> exists o, segment_iterator fuel p key = Some o /\
    presents o (p_segment p key) (p_fresh p key).
Proof.
  induction p as [p|f p IH|q p IH]; intros Hok.
  - unfold segment_iterator, wi_Valid. cbn [p_GetWindowIterator wi_Seek wi_map wi_root wi_GetValue].
    unfold mw_Valid, mw_GetValue. cbn [p_segment p_fresh]. unfold seg_get.
    cbn [mw_Seek mw_iter mw_partitions ph_GetWindowIterator].
    pose proof (seg_find_le key (ph_partitions p)) as Hle.
    destruct (ph_partitions p !! seg_find key (ph_partitions p)) as [s|] eqn:El.
    + apply lookup_lt_Some in El as Hlt. rewrite bool_decide_false by lia. cbn.
      eexists; split; [done|]. cbn. unfold slice. rewrite take_ge by done.
      split_and!; try done; lia.
    + apply lookup_ge_None in El. rewrite bool_decide_true by lia. by eexists.
  - destruct (segment_iterator_wrap fuel p key) as [-> _]. destruct (IH Hok) as (o & -> & Ho).
    eexists; split; [done|]. by apply presents_project.
  - destruct Hok as [Hok Hl]. destruct (segment_iterator_wrap fuel p key) as [_ ->].
    destruct (IH Hok) as (o & -> & Ho). eexists; split; [done|].
    apply presents_filter; [apply Hl|apply starts_len, p_fresh_starts|done].
Qed.

Lemma time_presents (l : list (Z * Row)) :
  presents (Some (mkAnyIter STime (MemTimeTableIterator_new l))) (Some l) (Some l).
Proof. cbn. unfold slice. rewrite take_ge by done. split_and!; try done; lia. Qed.

Lemma concat_presents fuel ls rs ol orr l f lr fr :
  presents ol l f -> presents orr lr fr -> (flen l <= fuel)%nat ->
  let rows := concat_rows (join_rows ls rs) Row_default (default [] l) (default [] fr) in
  exists a, concat_iterator fuel ls rs ol orr = Some a /\ presents (Some a) (Some rows) (Some rows).
Proof.
  intros Hl Hr Hf rows. unfold concat_iterator, SyncValue. cbn [ct_left ct_right ct_base].
  destruct ol as [a|], l as [l|], f as [f|]; try done.
  - destruct Hl as (Ho & Ea & _).
    rewrite sync_loop_rows; [|by apply first_ok| |rewrite first_rest by done; by rewrite Ea].
    2:{ destruct orr as [b|], lr, fr; try done. by destruct Hr. }
    eexists; split; [done|]. cbn [th_set th_table MemTimeTableHandler_new app th_GetIterator].
    rewrite first_rest, Ea by done.
    assert (from_option rest [] orr = default [] fr) as ->.
    { destruct orr as [b|], lr, fr; try done. by destruct Hr as (_ & _ & ?). }
    apply time_presents.
  - eexists; split; [done|]. apply time_presents.
Qed.

(** The iterator a handler returns enumerates the contents of the handler. *)
Lemma t_GetIterator_presents fuel t :
  t_ok fuel t -> exists o, t_GetIterator fuel t = Some o /\
    presents o (entries t) (t_contents true t).
Proof.
  unfold entries. induction t as [h|h|f t IH|q t IH|p key|ts row t IH|tl ls tr rs IHl IHr] using table_ind;
    cbn [t_ok t_contents t_GetIterator]; intros Hok.
  - eexists; split; [done|]. apply time_presents.
  - eexists; split; [done|]. cbn. rewrite take_ge by done. split_and!; try done; lia.
  - destruct (IH Hok) as (o & -> & Ho). eexists; split; [done|]. by apply presents_project.
  - destruct Hok as [Hok Hl]. destruct (IH Hok) as (o & -> & Ho). eexists; split; [done|].
    apply presents_filter; [done|apply starts_len, contents_starts|done].
  - by apply segment_presents.
  - destruct (IH Hok) as (o & -> & Ho). eexists; split; [done|]. by apply presents_union.
  - destruct Hok as [Hl Hr]. destruct tl as [tl|].
    + cbn in *. destruct Hl as [Hl Hf]. destruct (IHl Hl) as (ol & -> & Hol).
      destruct tr as [tr|]; cbn in *.
      * destruct (IHr Hr) as (orr & -> & Hor). cbn.
        destruct (concat_presents fuel ls rs _ _ _ _ _ _ Hol Hor Hf) as (a & -> & Ha).
        by eexists.
      * destruct (concat_presents fuel ls rs _ None _ _ None None Hol Logic.I Hf) as (a & E & Ha).
        cbn. rewrite E. by eexists.
    + destruct (concat_presents fuel ls rs None None None None None None Logic.I Logic.I)
        as (a & E & Ha); [cbn; lia|]. rewrite E. by eexists.
Qed.

(** The loop over a rewound iterator of a table is the loop over its contents. *)
Lemma table_iterator fuel t l :
  t_ok fuel t -> entries t = Some l ->
  exists it, t_GetIterator fuel t = Some (Some it) /\ it_ok it /\ all it = l /\
    it_ok (SeekToFirst it) /\ rest (SeekToFirst it) = l.
Proof.
  intros Hok El. destruct (t_GetIterator_presents fuel t Hok) as (o & -> & Hp). rewrite El in Hp.
  destruct o as [it|], (t_contents true t); try done. destruct Hp as (Ho & <- & _).
  eexists; split_and!; [done|done|done|by apply first_ok|by apply first_rest].
Qed.

Lemma table_loop {S} (body : Z -> Row -> S -> option S) fuel t l s :
  t_ok fuel t -> entries t = Some l -> (length l <= fuel)%nat ->
  exists it, t_GetIterator fuel t = Some (Some it) /\
    for_rows body fuel (SeekToFirst it) s = fold_rows body l s.
Proof.
  intros Hok El Hf. destruct (table_iterator fuel t l Hok El) as (it & -> & _ & _ & Ho & Er).
  eexists; split; [done|]. by rewrite for_rows_rest, Er by (rewrite ?Er; done).
Qed.

Lemma table_null fuel t : t_ok fuel t -> entries t = None -> t_GetIterator fuel t = Some None.
Proof.
  intros Hok El. destruct (t_GetIterator_presents fuel t Hok) as (o & -> & Hp). rewrite El in Hp.
  by destruct o.
Qed.

Lemma fold_rows_total {S} (body : Z -> Row -> S -> option S) (f : Z -> Row -> S -> S) l s :
  (forall e s, e ∈ l -> body e.1 e.2 s = Some (f e.1 e.2 s)) ->
  fold_rows body l s = Some (foldl (fun s e => f e.1 e.2 s) s l).
Proof.
  revert s. induction l as [|e l IH]; intros s Hb; [done|]. cbn [fold_rows foldl].
  rewrite Hb by (by left). cbn [mbind option_bind]. apply IH. intros. apply Hb. by right.
Qed.

(** Whatever handlers are stacked on each other (projections, filters,
    segments of partitions, request unions, concatenations), a table returns a
    null iterator exactly when it has no contents, and otherwise an iterator
    that, once rewound, enumerates the rows of the abstract contents: the
    projected or accepted rows of the table below it, in order. *)
Theorem handlers_enumerate fuel t :
  t_ok fuel t -> (flen (entries t) <= fuel)%nat ->
  match entries t with
  | None => t_GetIterator fuel t = Some None
  | Some l => exists it, t_GetIterator fuel t = Some (Some it) /\
      drain fuel (SeekToFirst it) = Some l
  end.
Proof.
  intros Hok Hf. destruct (t_GetIterator_presents fuel t Hok) as (o & -> & Hp).
  destruct (entries t) as [l|], o as [it|], (t_contents true t); try done.
  destruct Hp as (Ho & <- & _). eexists; split; [done|].
  rewrite drain_rest; rewrite ?first_rest by done; [done|by apply first_ok|done].
Qed.

Definition ex_rows : list (Z * Row) :=
  [(9, Row_of_string [1]); (7, Row_of_string [2]); (5, Row_of_string [1])].
Definition ex_is (n : Z) (r : Row) : bool :=
  match sl_data (slice_ r) with Some [b] => b =? n | _ => false end.

Lemma handlers_enumerate_witness :
  exists it, t_GetIterator 5 (TRequestUnion 9 (Row_of_string [3])
      (TFilter (ex_is 2) (TTime (mkMemTimeTableHandler ex_rows kDescOrder)))) = Some (Some it) /\
    drain 5 (SeekToFirst it) = Some [(9, Row_of_string [3]); (7, Row_of_string [2])].
Proof.
  exact (handlers_enumerate 5 (TRequestUnion 9 (Row_of_string [3])
    (TFilter (ex_is 2) (TTime (mkMemTimeTableHandler ex_rows kDescOrder))))
    ltac:(cbn; lia) ltac:(vm_compute; lia)).
Defined.

(** Counting and indexing a filtered table. [TableFilterWrapper] inherits
    the methods of [ListV], which use a new iterator without rewinding it, and
    a new filter iterator is exhausted when its first row is rejected: the
    count is 0 and every position is empty, although iterating the same table
    yields the accepted rows. When the first row is accepted, count and
    positions are those of the accepted rows. *)
Theorem filter_count fuel q t l pos :
  t_ok fuel (TFilter q t) -> entries t = Some l -> t_contents true t = Some l ->
  Z.of_nat (length l) < 18446744073709551616 ->
  let seen := match l with e :: _ => if q e.2 then select q l else [] | [] => [] end in
  entries (TFilter q t) = Some (select q l) /\
  t_GetCount fuel (TFilter q t) = Some (Z.of_nat (length seen)) /\
  t_At fuel (Z.of_nat pos) (TFilter q t) = Some (from_option snd Row_default (seen !! pos)).
Proof.
  intros Hok El Ef Hl seen. pose proof (proj2 Hok) as Hf. rewrite El in Hf. cbn in Hf.
  unfold entries in *. cbn [t_contents]. rewrite El. split; [done|].
  destruct (t_GetIterator_presents fuel _ Hok) as (o & Eo & Hp).
  cbn [t_GetCount t_At]. rewrite Eo. unfold entries in Hp. cbn [t_contents] in Hp.
  rewrite El, Ef in Hp. destruct o as [it|]; [|done]. destruct Hp as (Ho & _ & Er).
  change (filter_rest q l) with seen in Er. cbn [mbind option_bind].
  assert (length seen <= length l)%nat as Hle.
  { subst seen. destruct l as [|e l]; [done|]. destruct (q e.2); [apply length_select|cbn; lia]. }
  destruct (defaults_rest it Row_default (Z.to_nat (Z.of_nat pos)) fuel Ho) as [-> ->];
    rewrite ?Er; try lia. by rewrite Nat2Z.id.
Qed.

Lemma filter_count_witness :
  let t := TFilter (ex_is 2) (TTime (mkMemTimeTableHandler ex_rows kDescOrder)) in
  entries t = Some [(7, Row_of_string [2])] /\ t_GetCount 5 t = Some 0 /\
  t_At 5 0 t = Some Row_default.
Proof.
  apply (filter_count 5 (ex_is 2) (TTime (mkMemTimeTableHandler ex_rows kDescOrder)) ex_rows 0);
    try reflexivity. cbn. lia.
Defined.
