(* ===== verification/FnGenerators.v ===== *)
(** * Calling compiled functions: keys, orders, conditions, projections

    Models the calls of compiled functions in [src/vm/core_api.cc] and the
    generators around them of [src/vm/runner.h] and [src/vm/runner.cc]: the
    text of a key, the time stamp of an order, the truth of a condition, a
    projected row. A compiled function is a parameter: a function of the row
    key, the row, the window and the parameter row to a status and an output
    buffer. Text is a list of bytes. *)

From Stdlib Require Import String Ascii.
From stdpp Require Import base numbers option list.
From S2P Require Import Prelude Layout TypeCodec RowBuilder RowView MemCatalog Window Rows Handlers.

(** ** Text *)

Fixpoint text (s : string) : list Z :=
  match s with
  | EmptyString => []
  | String c s' => Z.of_N (N_of_ascii c) :: text s'
  end.

Definition NONETOKEN : list Z := text "!N@U#L$L%".
Definition EMPTY_STRING : list Z := text "!@#$%".
Definition SEPARATOR : list Z := text "|".

(** Decimal digits of a number below [10 ^ fuel]. *)
Fixpoint digits (fuel : nat) (n : Z) : list Z :=
  match fuel with
  | O => []
  | S fuel' => (if n <? 10 then [] else digits fuel' (n / 10)) ++ [48 + n mod 10]
  end.

(** [std::to_string] of an integer of at most 64 bits. *)
Definition to_string (z : Z) : list Z := if z <? 0 then 45 :: digits 20 (- z) else digits 20 z.

(** The digits of a number, filled from the left to a width, as in the formats
    [%4d] and [%.2d]. *)
Definition padded (fill : Z) (width : nat) (z : Z) : list Z :=
  let s := to_string z in replicate (width - length s) fill ++ s.

(** [snprintf(date, 11, "%4d-%.2d-%.2d", ..)]. *)
Definition date_text (y m d : Z) : list Z :=
  take 10 (padded 32 4 y ++ text "-" ++ padded 48 2 m ++ text "-" ++ padded 48 2 d).

(** ** Compiled functions *)

(** The list a compiled function gets for a window. *)
Inductive ListRef := LWindow (w : HistoryWindow Row) | LTable (t : TableHandler).

(** [int32_t (int64_t key, const Row*, const ListRef*, const Row* parameter,
    int8_t** out)]. *)
Definition JitFn : Type := Z -> option Row -> option ListRef -> Row -> Z * option (list Z).

(** [RowView::GetSize(buf)]. *)
Definition buffer_size (b : list Z) : option Z := load_u b VERSION_LENGTH 4.

(** [Row(RefCountedSlice::CreateManaged(buf, RowView::GetSize(buf)))], the
    slice of it. *)
Definition managed_slice (out : option (list Z)) : option Slice :=
  b ← out; n ← buffer_size b; Some (mkSlice n (Some b)).

Definition RowConstProject (fn : JitFn) (parameter : Row) : option Row :=
  let '(ret, out) := fn 0 None None parameter in
  if negb (u32 ret =? 0) then Some Row_default
  else s ← managed_slice out; Some (Row_of_slice s).

Definition RowProject (fn : JitFn) (row parameter : Row) : option Row :=
  if Rows.empty row then Some Row_default
  else
    let '(ret, out) := fn 0 (Some row) None parameter in
    if negb (u32 ret =? 0) then Some Row_default
    else s ← managed_slice out; Some (Row_of_slice s).

Section Generators.
Context (spark : bool) (float_text double_text : Z -> list Z).

(** [FnGenerator]; a null function is not valid. *)
Record FnGenerator := mkFnGenerator {
  fn_ : option JitFn; fn_schema : Schema; fn_row_view : RowView; fn_idxs : list Z
}.

Definition FnGenerator_new (fn : option JitFn) (schema : Schema) : FnGenerator :=
  mkFnGenerator fn schema (RowView_of_schema spark schema) (Z.of_nat <$> seq 0 (length schema)).

Definition fn_Valid (g : FnGenerator) : bool := match fn_ g with Some _ => true | None => false end.

(** ** Columns as text *)

(** What a getter's status 0 makes of its value. *)
Definition text_of (r : option (Z * option Z)) (f : Z -> list Z) (dflt : list Z)
  : option (list Z) :=
  '(ret, v) ← r; if ret =? 0 then f <$> v else Some dflt.

Definition NA : list Z := text "NA".

(** [RowView::GetAsString]. *)
Definition GetAsString (idx : Z) (rv : RowView) : option (list Z) :=
  if schema_size (rv_schema rv) =? 0 then Some NA
  else if bool_decide (rv_row rv = None) || (rv_size rv =? 0) then Some NA
  else if i32 idx >=? schema_size (rv_schema rv) then Some NA
  else
    n ← IsNULL (rv_row rv) idx;
    if (n : bool) then Some (text "NULL")
    else
      c ← schema_get (rv_schema rv) idx;
      match col_type c with
      | kInt32 => text_of (GetInt32 idx (Some 0) rv) to_string NA
      | kInt64 => text_of (GetInt64 idx (Some 0) rv) to_string NA
      | kInt16 => text_of (GetInt16 idx (Some 0) rv) to_string NA
      | kFloat => text_of (GetFloat idx (Some 0) rv) float_text NA
      | kDouble => text_of (GetDouble idx (Some 0) rv) double_text NA
      | kBool =>
          '(ret, v) ← GetBool idx (Some false) rv;
          if ret =? 0 then (fun b : bool => if b then text "true" else text "false") <$> v
          else Some NA
      | kVarchar =>
          '(ret, p, n) ← GetString spark idx (Some PNull) (Some 0) rv;
          if ret =? 0
          then b ← rv_row rv; p' ← p; n' ← n; charp_string b p' (if n' >? 4096 then 4096 else n')
          else Some NA
      | kTimestamp => text_of (GetTimestamp idx (Some 0) rv) to_string NA
      | kDate =>
          '(ret, ymd) ← GetDate idx (Some (0, 0, 0)) rv;
          if ret =? 0 then (fun '(y, m, d) => date_text y m d) <$> ymd else Some NA
      | kBlob | kNull => Some NA
      end.

(** ** Keys *)

(** One column of [KeyGenerator::GenConst]. *)
Definition const_key_text (schema : Schema) (rv : RowView) (pos : Z) : option (list Z) :=
  n ← IsNULL (rv_row rv) pos;
  key ← (if (n : bool) then Some NONETOKEN
         else
           c ← schema_get schema pos;
           if bool_decide (col_type c = kDate)
           then to_string <$> GetDateUnsafe pos rv
           else GetAsString pos rv);
  Some (if bool_decide (key = []) then EMPTY_STRING else key).

Fixpoint const_keys (schema : Schema) (rv : RowView) (idxs : list Z) (keys : list Z)
  : option (list Z) :=
  match idxs with
  | [] => Some keys
  | pos :: idxs' =>
      key ← const_key_text schema rv pos;
      const_keys schema rv idxs'
        ((if bool_decide (keys = []) then keys else keys ++ SEPARATOR) ++ key)
  end.

Definition GenConst (g : FnGenerator) (parameter : Row) : option (list Z) :=
  fn ← fn_ g;
  key_row ← RowConstProject fn parameter;
  b ← buf key_row 0;
  '(ok, rv) ← Reset_row b (fn_row_view g);
  if negb ok then Some NA else const_keys (fn_schema g) rv (fn_idxs g) [].

(** One column of [KeyGenerator::Gen] that is not NULL; a type without a case
    and a failed read add nothing. *)
Definition key_text (rv : RowView) (b : option (list Z)) (pos : Z) (type : Ty)
  : option (list Z) :=
  match type with
  | kVarchar =>
      '(ret, p, n) ← GetValue_str spark b pos (Some PNull) (Some 0) rv;
      if ret =? 0
      then m ← b; p' ← p; n' ← n;
           if n' =? 0 then Some EMPTY_STRING else charp_string m p' n'
      else Some []
  | kDate | kInt16 | kInt32 | kInt64 | kTimestamp =>
      text_of (GetValue b pos type (Some 0) rv) to_string []
  | kBool =>
      text_of (GetValue b pos type (Some 0) rv)
        (fun v => if v =? 0 then text "false" else text "true") []
  | kFloat | kDouble | kBlob | kNull => Some []
  end.

Fixpoint gen_keys (schema : Schema) (rv : RowView) (b : option (list Z)) (idxs : list Z)
    (keys : list Z) : option (list Z) :=
  match idxs with
  | [] => Some keys
  | pos :: idxs' =>
      let keys' := if bool_decide (keys = []) then keys else keys ++ SEPARATOR in
      n ← IsNULL b pos;
      if (n : bool) then gen_keys schema rv b idxs' (keys' ++ NONETOKEN)
      else
        c ← schema_get schema pos;
        t ← key_text rv b pos (col_type c);
        gen_keys schema rv b idxs' (keys' ++ t)
  end.

Definition KeyGenerator_Gen (g : FnGenerator) (row parameter : Row) : option (list Z) :=
  n ← size row 0;
  if n =? 0 then Some NONETOKEN
  else
    fn ← fn_ g;
    key_row ← RowProject fn row parameter;
    b ← buf key_row 0;
    gen_keys (fn_schema g) (fn_row_view g) b (fn_idxs g) [].

(** ** Orders and conditions *)

(** [Runner::GetColumnInt64]; -1 when there is no integer to read. *)
Definition GetColumnInt64 (b : option (list Z)) (rv : RowView) (key_idx : Z) (key_type : Ty)
  : option Z :=
  match key_type with
  | kInt32 | kInt64 | kInt16 | kTimestamp =>
      '(ret, v) ← GetValue b key_idx key_type (Some 0) rv;
      if ret =? 0 then v else Some (-1)
  | kBool | kFloat | kDouble | kVarchar | kDate | kBlob | kNull => Some (-1)
  end.

(** [value == 0] of a floating point value with the given bits. *)
Definition float_zero (sign : Z) (v : Z) : bool := (v =? 0) || (v =? sign).

(** [Runner::GetColumnBool]; false when there is nothing to read. *)
Definition GetColumnBool (b : option (list Z)) (rv : RowView) (idx : Z) (type : Ty)
  : option bool :=
  let read (f : Z -> bool) : option bool :=
    '(ret, v) ← GetValue b idx type (Some 0) rv;
    if ret =? 0 then f <$> v else Some false in
  match type with
  | kInt32 | kInt64 | kInt16 => read (fun v => negb (v =? 0))
  | kFloat => read (fun v => negb (float_zero 0x80000000 v))
  | kDouble => read (fun v => negb (float_zero 0x8000000000000000 v))
  | kBool => read (fun v => negb (v =? 0))
  | kVarchar | kDate | kTimestamp | kBlob | kNull => Some false
  end.

Definition OrderGenerator_Gen (g : FnGenerator) (row : Row) : option Z :=
  fn ← fn_ g;
  order_row ← RowProject fn row Row_default;
  b ← buf order_row 0;
  idx ← head (fn_idxs g);
  c ← schema_get (fn_schema g) idx;
  GetColumnInt64 b (fn_row_view g) idx (col_type c).

(** [CoreAPI::ComputeCondition]. *)
Definition ComputeCondition (fn : JitFn) (row parameter : Row) (rv : RowView) (out_idx : Z)
  : option bool :=
  cond_row ← RowProject fn row parameter;
  b ← buf cond_row 0;
  c ← schema_get (rv_schema rv) out_idx;
  GetColumnBool b rv out_idx (col_type c).

Definition ConditionGenerator_Gen (g : FnGenerator) (row parameter : Row) : option bool :=
  fn ← fn_ g; idx ← head (fn_idxs g);
  ComputeCondition fn row parameter (fn_row_view g) idx.

Definition ProjectGenerator_Gen (g : FnGenerator) (row parameter : Row) : option Row :=
  fn ← fn_ g; RowProject fn row parameter.
Definition ConstProjectGenerator_Gen (g : FnGenerator) (parameter : Row) : option Row :=
  fn ← fn_ g; RowConstProject fn parameter.
End Generators.
