(* ===== verification/KeyText.v ===== *)
(** * The text of keys

    Keys of groups, partitions and indexes are texts made of the columns of a
    row computed by compiled code. The text is a function of the values; it
    separates rows whose strings do not contain the separator, and it is the
    same for a key computed from a row and from constants. *)

From Stdlib Require Import String.
From stdpp Require Import base numbers option list.
From S2P Require Import Prelude Layout TypeCodec RowBuilder RowView RowCodec RowWrite RowRead Rows FnGenerators.

(** ** The text of a value *)

Definition value_text (v : option Value) : list Z :=
  match v with
  | None => NONETOKEN
  | Some (VBool b) => if b then text "true" else text "false"
  | Some (VInt16 z) | Some (VInt32 z) | Some (VInt64 z) | Some (VTimestamp z) => to_string z
  | Some (VDate y m d) => to_string (date_pack y m d)
  | Some (VString s) => if bool_decide (s = []) then EMPTY_STRING else s
  | Some (VFloat _) | Some (VDouble _) => []
  end.

(** The texts joined as [KeyGenerator::Gen] joins them. *)
Definition add_key (keys t : list Z) : list Z :=
  (if bool_decide (keys = []) then keys else keys ++ SEPARATOR) ++ t.
Definition keys_text (vs : list (option Value)) : list Z :=
  foldl (fun keys v => add_key keys (value_text v)) [] vs.

(** ** Reading columns of a buffer with a view that is not attached to it *)

Section Read.
Context (cols : list ColumnDef) (size : Z) (vs : list (option Value)) (b : list Z).
Context (Hcols : Forall supported cols) (Hcount : schema_size cols < 2147483648).
Context (Hsize : 0 <= size < 4294967296).
Context (Hfits : Forall2 value_fits cols vs).
Let al := GetAddrLength size.
Context (Hexact : size = bodies_start cols al + sumz body_len vs).
Context (Hrow : row_holds cols size al vs b).

(** A view of the schema, wherever it points. *)
Definition views (rv : RowView) : Prop :=
  rv_schema rv = cols /\ rv_offset_vec rv = rv_offset_vec (view cols size b) /\
  rv_string_field_cnt rv = sumz strs cols /\ rv_str_field_start_offset rv = fixed_end cols.

Lemma RowView_of_schema_views : views (RowView_of_schema false cols).
Proof.
  assert (6 <= fixed_start cols <= fixed_end cols /\ fixed_end cols <= bodies_start cols al /\
    bodies_start cols al <= size) as (? & ? & ?) by (by eapply read_order).
  pose proof (sumz_nonneg strs strs_nonneg cols). pose proof (al_bounds size : 1 <= al <= 4).
  assert (fixed_end cols + sumz strs cols <= bodies_start cols al)
    by (unfold bodies_start; nia).
  unfold RowView_of_schema, Init. cbn [rv_schema rv_string_field_cnt rv_offset_vec].
  fold (fixed_start cols). rewrite u32_small by lia.
  by rewrite init_loop_spec by (done || unfold fixed_end in *; lia).
Qed.

Lemma views_entry rv j c :
  views rv -> cols !! j = Some c ->
  rv_offset_vec rv !! Z.to_nat (Z.of_nat j) = Some (layout_entry cols j c).
Proof. intros (_ & -> & _) Hc. by apply view_entry. Qed.

(** What precedes the read of a field in [GetValue]. *)
Lemma in_schema rv j c :
  views rv -> cols !! j = Some c ->
  (schema_size (rv_schema rv) =? 0) = false /\
  (i32 (Z.of_nat j) >=? schema_size (rv_schema rv)) = false /\
  schema_get (rv_schema rv) (Z.of_nat j) = Some c /\
  (size <=? HEADER_LENGTH) = false.
Proof.
  intros (-> & _) Hc. pose proof (lookup_lt_Some _ _ _ Hc). unfold schema_get, schema_size in *.
  rewrite i32_small, Nat2Z.id, Z.geb_leb by lia.
  assert (6 <= fixed_start cols <= fixed_end cols /\ fixed_end cols <= bodies_start cols al /\
    bodies_start cols al <= size) as (? & ? & ?) by (by eapply read_order).
  destruct (fixed_start_pos cols Hcount) as [_ ?]. unfold schema_size in *.
  split_and!; [apply Z.eqb_neq; lia|apply Z.leb_gt; lia|done|].
  apply Z.leb_gt. change HEADER_LENGTH with 6. lia.
Qed.

(** The word a getter reads for a fixed-width value. *)
Definition cell (x : Value) : Z :=
  match x with
  | VBool t => if t then 1 else 0
  | VInt16 z | VInt32 z | VInt64 z | VTimestamp z | VFloat z | VDouble z => z
  | VDate y m d => date_pack y m d
  | VString _ => 0
  end.

Lemma fixed_field j c x n (get : mem -> Z -> option Z) (dec : list Z -> Z) :
  cols !! j = Some c -> vs !! j = Some (Some x) -> value_type x <> kVarchar ->
  (forall m o bs, load m o n = Some bs -> get m o = Some (dec bs)) ->
  length (fixed_bytes x) = n ->
  get b (layout_entry cols j c) = Some (dec (fixed_bytes x)).
Proof.
  intros Hc Hv Hnv Hg Hn. pose proof (unsafe_field_value cols size vs b Hrow get dec n j c x
    Hg Hc Hv Hnv Hn) as E. unfold unsafe_field in E.
  rewrite (view_entry cols size b j c Hc) in E. exact E.
Qed.

Lemma fixed_field_s j c x n :
  cols !! j = Some c -> vs !! j = Some (Some x) -> value_type x <> kVarchar ->
  length (fixed_bytes x) = n ->
  load_s b (layout_entry cols j c) n = Some (wraps (8 * Z.of_nat n) (le_val (fixed_bytes x))).
Proof.
  intros. apply (fixed_field j c x n (fun m o => load_s m o n)
    (fun bs => wraps (8 * Z.of_nat n) (le_val bs))); try done. intros m o bs. apply load_s_decode.
Qed.

Lemma fixed_field_u j c x n :
  cols !! j = Some c -> vs !! j = Some (Some x) -> value_type x <> kVarchar ->
  length (fixed_bytes x) = n ->
  load_u b (layout_entry cols j c) n = Some (le_val (fixed_bytes x)).
Proof.
  intros. apply (fixed_field j c x n (fun m o => load_u m o n) le_val); try done.
  intros m o bs. apply load_u_decode.
Qed.

Lemma value_of_column j c x :
  cols !! j = Some c -> vs !! j = Some (Some x) -> value_type x = col_type c /\ value_in_range x.
Proof.
  intros Hc Hv. destruct (rd_fits _ _ _ _ _ (proj1 Hrow) _ _ Hv) as (c' & Hc' & Hf).
  assert (c' = c) as -> by congruence. exact Hf.
Qed.

(** A fixed-width column read with [GetValue]. *)
Lemma GetValue_stored rv j c v :
  views rv -> cols !! j = Some c -> vs !! j = Some v -> col_type c <> kVarchar ->
  GetValue (Some b) (Z.of_nat j) (col_type c) (Some 0) rv =
  Some (match v with None => (1, Some 0) | Some x => (0, Some (cell x)) end).
Proof.
  intros Hrv Hc Hv Hnv. destruct (in_schema rv j c Hrv Hc) as (E1 & E2 & E3 & E4).
  unfold GetValue. rewrite E1, E2, E3. cbn [mbind option_bind].
  rewrite bool_decide_true by done. cbn [negb].
  rewrite (stored_size cols size vs b Hsize Hrow). cbn [mbind option_bind]. rewrite E4.
  rewrite (column_null cols size vs b Hfits Hrow j v Hv). cbn [mbind option_bind].
  destruct v as [x|]; [|done]. cbn [is_null_value]. rewrite (views_entry _ _ _ Hrv Hc).
  cbn [mbind option_bind]. destruct (value_of_column _ _ _ Hc Hv) as [Ht Hr]. rewrite <- Ht.
  destruct x; cbn [value_type value_in_range cell] in *; try congruence;
    unfold v1.GetBoolFieldUnsafe, v1.GetInt16FieldUnsafe, v1.GetInt32FieldUnsafe,
      v1.GetInt64FieldUnsafe, v1.GetFloatFieldUnsafe, v1.GetDoubleFieldUnsafe;
    first [rewrite (fixed_field_s _ _ _ _ Hc Hv) by done
          |rewrite (fixed_field_u _ _ _ _ Hc Hv) by done]; cbn [mbind option_bind fixed_bytes].
  - by destruct b0.
  - do 3 f_equal. apply (wraps_le_bytes 2); cbn; lia.
  - do 3 f_equal. apply (wraps_le_bytes 4); cbn; lia.
  - do 3 f_equal. apply (wraps_le_bytes 8); cbn; lia.
  - do 3 f_equal. apply (wraps_le_bytes 8); cbn; lia.
  - do 3 f_equal. destruct Hr as (? & ? & ?).
    pose proof (date_pack_value y m d ltac:(lia) ltac:(lia)).
    apply (wraps_le_bytes 4); cbn; lia.
  - do 3 f_equal. apply le_val_bytes_small; cbn; lia.
  - do 3 f_equal. apply le_val_bytes_small; cbn; lia.
Qed.

(** A string column read with [GetValue]. *)
Lemma GetValue_str_value rv j c v :
  views rv -> cols !! j = Some c -> vs !! j = Some v -> col_type c = kVarchar ->
  GetValue_str false (Some b) (Z.of_nat j) (Some PNull) (Some 0) rv =
  Some (match v with
        | Some (VString s) => (0, Some (PRow (body_pos cols al vs j)), Some (Z.of_nat (length s)))
        | _ => (1, Some PNull, Some 0)
        end).
Proof.
  intros Hrv Hc Hv Ht. destruct (in_schema rv j c Hrv Hc) as (E1 & E2 & E3 & E4).
  unfold GetValue_str. rewrite E1, E2, E3. cbn [mbind option_bind].
  unfold is_varchar at 1. rewrite bool_decide_true by done. cbn [negb].
  rewrite (stored_size cols size vs b Hsize Hrow). cbn [mbind option_bind]. rewrite E4.
  rewrite (column_null cols size vs b Hfits Hrow j v Hv). cbn [mbind option_bind].
  destruct v as [x|]; [|done]. cbn [is_null_value]. rewrite (views_entry _ _ _ Hrv Hc).
  cbn [mbind option_bind]. destruct (value_of_column _ _ _ Hc Hv) as [Hx _]. rewrite Ht in Hx.
  destruct x; try done. destruct Hrv as (_ & _ & -> & ->).
  unfold layout_entry, is_varchar. rewrite bool_decide_true by done.
  eapply (GetStrFieldUnsafe_value cols size vs b); try done.
  unfold is_varchar. by rewrite bool_decide_true.
Qed.

(** The text of one column. *)
Lemma key_text_value rv j c x :
  views rv -> cols !! j = Some c -> vs !! j = Some (Some x) ->
  key_text false rv (Some b) (Z.of_nat j) (col_type c) = Some (value_text (Some x)).
Proof.
  intros Hrv Hc Hv. destruct (value_of_column _ _ _ Hc Hv) as [Ht _].
  destruct (decide (col_type c = kVarchar)) as [Hvar|Hvar].
  - pose proof (GetValue_str_value rv j c _ Hrv Hc Hv Hvar) as E. unfold key_text.
    rewrite Hvar in *. rewrite E. destruct x; try done. cbn [mbind option_bind Z.eqb value_text].
    destruct (Z.eqb_spec (Z.of_nat (length s)) 0) as [E0|E0].
    + destruct s; [done|cbn in E0; lia].
    + rewrite bool_decide_false by (by intros ->). cbn [charp_string]. rewrite Nat2Z.id.
      by rewrite (rd_body _ _ _ _ _ (proj1 Hrow) _ _ Hv).
  - pose proof (GetValue_stored rv j c _ Hrv Hc Hv Hvar) as E.
    unfold key_text, text_of. rewrite <- Ht in *.
    destruct x; cbn [value_type] in *; try done; rewrite ?E; try done. by destruct b0.
Qed.

Lemma gen_keys_value rv : views rv -> forall n j keys,
  (j + n = length cols)%nat ->
  gen_keys false cols rv (Some b) (Z.of_nat <$> seq j n) keys =
  Some (foldl (fun keys v => add_key keys (value_text v)) keys (drop j vs)).
Proof.
  intros Hrv. pose proof (Forall2_length _ _ _ Hfits) as Hlen.
  induction n as [|n IH]; intros j keys Hj; cbn [seq fmap list_fmap gen_keys].
  - by rewrite drop_ge by lia.
  - destruct (lookup_lt_is_Some_2 vs j) as [v Hv]; [lia|].
    destruct (lookup_lt_is_Some_2 cols j) as [c Hc]; [lia|].
    rewrite (drop_S _ _ _ Hv). cbn [foldl].
    rewrite (column_null cols size vs b Hfits Hrow j v Hv). cbn [mbind option_bind].
    destruct v as [x|]; cbn [is_null_value].
    + destruct Hrv as (Es & Hrv'). unfold schema_get. rewrite Nat2Z.id, Hc.
      cbn [mbind option_bind]. rewrite (key_text_value rv j c x) by done.
      cbn [mbind option_bind]. apply IH. lia.
    + apply IH. lia.
Qed.
End Read.

(** ** Decimal text *)

Definition of_digits (l : list Z) : Z := foldl (fun acc d => 10 * acc + (d - 48)) 0 l.

Lemma digits_value fuel n : 0 <= n < 10 ^ Z.of_nat fuel -> of_digits (digits fuel n) = n.
Proof.
  revert n. induction fuel as [|fuel IH]; intros n Hn; [cbn in *; lia|].
  rewrite Nat2Z.inj_succ, Z.pow_succ_r in Hn by lia. cbn [digits]. unfold of_digits.
  rewrite foldl_app. cbn [foldl]. pose proof (Z.div_mod n 10 ltac:(lia)).
  destruct (Z.ltb_spec n 10); [cbn; rewrite Z.mod_small by lia; lia|].
  change (foldl _ 0 ?l) with (of_digits l). rewrite IH; [lia|].
  split; [apply Z.div_pos; lia|]. apply Z.div_lt_upper_bound; lia.
Qed.

Lemma digits_range fuel n : Forall (fun c => 48 <= c <= 57) (digits fuel n).
Proof.
  revert n. induction fuel as [|fuel IH]; intros n; cbn [digits]; [done|].
  apply Forall_app. split; [destruct (n <? 10); [done|apply IH]|].
  pose proof (Z.mod_pos_bound n 10). repeat constructor; lia.
Qed.

Lemma digits_nonempty n : digits 20 n <> [].
Proof. cbn [digits]. intros E. by apply app_eq_nil in E as [_ ?]. Qed.

Lemma to_string_range z : Forall (fun c => c = 45 \/ 48 <= c <= 57) (to_string z).
Proof.
  unfold to_string. pose proof (digits_range 20) as H. destruct (z <? 0).
  - constructor; [by left|]. eapply Forall_impl; [apply H|]. cbn. lia.
  - eapply Forall_impl; [apply H|]. cbn. lia.
Qed.

Lemma to_string_nonempty z : to_string z <> [].
Proof. unfold to_string. destruct (z <? 0); [done|apply digits_nonempty]. Qed.

Lemma to_string_inj z z' :
  -9223372036854775808 <= z < 9223372036854775808 ->
  -9223372036854775808 <= z' < 9223372036854775808 ->
  to_string z = to_string z' -> z = z'.
Proof.
  intros Hz Hz' E. unfold to_string in E.
  assert (forall n k, digits 20 n <> 45 :: k) as Hd.
  { intros n k Ed. pose proof (digits_range 20 n) as H. rewrite Ed in H.
    apply Forall_cons_1 in H as [? _]. lia. }
  assert (forall n n', 0 <= n < 10000000000000000000 -> 0 <= n' < 10000000000000000000 ->
            digits 20 n = digits 20 n' -> n = n') as Hi.
  { intros n n' Hn Hn' En. rewrite <- (digits_value 20 n), <- (digits_value 20 n'), En; [done|lia..]. }
  destruct (Z.ltb_spec z 0), (Z.ltb_spec z' 0).
  - pose proof (f_equal tail E) as E'. change (digits 20 (- z) = digits 20 (- z')) in E'.
    apply Hi in E'; lia.
  - symmetry in E. by apply Hd in E.
  - by apply Hd in E.
  - apply Hi in E; lia.
Qed.

(** ** Keys separate rows *)

(** Values whose text is unambiguous: no floating point value, and no string
    that contains the separator or is one of the reserved tokens. *)
Definition plain (v : option Value) : Prop :=
  match v with
  | Some (VString s) => (124 ∉ s) /\ s <> EMPTY_STRING /\ s <> NONETOKEN
  | Some (VFloat _) | Some (VDouble _) => False
  | _ => True
  end.

Lemma to_string_token z t : t = NONETOKEN \/ t = EMPTY_STRING -> to_string z <> t.
Proof.
  intros Ht E. pose proof (to_string_range z) as H. rewrite E in H.
  destruct Ht as [-> | ->]; pose proof (Forall_lookup_1 _ _ 0%nat 33 H eq_refl) as H0; cbn in H0; lia.
Qed.

Lemma value_text_plain v : plain v -> value_text v <> [] /\ (124 ∉ value_text v).
Proof.
  assert (forall z, to_string z <> [] /\ (124 ∉ to_string z)) as Hs.
  { intros z. split; [apply to_string_nonempty|]. intros Hin.
    pose proof (to_string_range z) as H. rewrite Forall_forall in H.
    specialize (H _ Hin). cbn in H. lia. }
  assert (forall t, Forall (fun c => c <> 124) t -> 124 ∉ t) as Hf.
  { intros t H Hin. rewrite Forall_forall in H. by apply (H _ Hin). }
  destruct v as [[t| | | | | | | |s]|]; cbn [plain value_text]; intros Hp; try done; try apply Hs.
  - destruct t; (split; [done|apply Hf; repeat constructor; done]).
  - destruct Hp as (? & _ & _). case_bool_decide; [|done].
    split; [done|apply Hf; repeat constructor; done].
  - split; [done|apply Hf; repeat constructor; done].
Qed.

Lemma value_text_inj c v v' :
  value_fits c v -> value_fits c v' -> plain v -> plain v' ->
  value_text v = value_text v' -> v = v'.
Proof.
  assert (forall c x, value_fits c (Some x) -> plain (Some x) -> value_text (Some x) <> NONETOKEN)
    as Hn.
  { intros c0 x _ Hp E. destruct x as [t| | | | | | | |s]; cbn [value_text plain] in *; try done;
      try (by eapply to_string_token; [left; reflexivity|]).
    - by destruct t.
    - case_bool_decide; [done|]. by destruct Hp as (_ & _ & ?). }
  intros Hv Hv' Hp Hp' E. destruct v as [x|], v' as [x'|]; try done.
  2:{ exfalso. by apply (Hn c x). }
  2:{ exfalso. by apply (Hn c x'). }
  destruct Hv as [Ht Hr], Hv' as [Ht' Hr']. f_equal.
  destruct x as [t| | | | |y m d| | |s], x' as [t'| | | | |y' m' d'| | |s'];
    cbn [value_type value_text value_in_range plain] in *; try congruence; try done;
    try (apply to_string_inj in E; [by subst|lia|lia]).
  - by destruct t, t'.
  - destruct Hr as (? & ? & ?), Hr' as (? & ? & ?).
    rewrite !date_pack_value in E by lia. apply to_string_inj in E; [|lia..].
    assert (y = y' /\ m = m' /\ d = d') as (-> & -> & ->) by lia. done.
  - destruct Hp as (_ & ? & _), Hp' as (_ & ? & _).
    repeat case_bool_decide; by subst.
Qed.

(** The texts that follow the first one, each behind a separator. *)
Definition more_keys (vs : list (option Value)) : list Z :=
  mjoin ((fun v => 124 :: value_text v) <$> vs).

Lemma foldl_add_key vs keys :
  keys <> [] -> foldl (fun keys v => add_key keys (value_text v)) keys vs = keys ++ more_keys vs.
Proof.
  revert keys. induction vs as [|v vs IH]; intros keys Hk; [by rewrite app_nil_r|].
  cbn [foldl]. unfold add_key at 2. rewrite bool_decide_false by done.
  rewrite IH by (by intros [[_ ?]%app_eq_nil _]%app_eq_nil).
  unfold more_keys. cbn [fmap list_fmap mjoin list_join]. change SEPARATOR with [124].
  by rewrite <- !app_assoc.
Qed.

Lemma keys_text_cons v vs :
  value_text v <> [] -> keys_text (v :: vs) = value_text v ++ more_keys vs.
Proof. intros Hv. unfold keys_text. cbn [foldl]. by rewrite foldl_add_key. Qed.

(** A text up to the first separator. *)
Lemma split_key t t' r r' :
  (124 ∉ t) -> (124 ∉ t') -> (r = [] \/ head r = Some 124) -> (r' = [] \/ head r' = Some 124) ->
  t ++ r = t' ++ r' -> t = t' /\ r = r'.
Proof.
  revert t'. induction t as [|x t IH]; intros [|x' t'] Ht Ht' Hr Hr' E; cbn in E.
  - done.
  - subst r. destruct Hr as [?|[= ->]]; [done|]. by destruct Ht'; left.
  - subst r'. destruct Hr' as [?|[= ->]]; [done|]. by destruct Ht; left.
  - injection E as -> E. rewrite not_elem_of_cons in Ht, Ht'.
    destruct (IH t') as [-> ->]; try done; tauto.
Qed.

Lemma more_keys_head vs : more_keys vs = [] \/ head (more_keys vs) = Some 124.
Proof. destruct vs; [by left|by right]. Qed.

Lemma more_keys_inj cols vs vs' :
  Forall2 value_fits cols vs -> Forall2 value_fits cols vs' ->
  Forall plain vs -> Forall plain vs' -> more_keys vs = more_keys vs' -> vs = vs'.
Proof.
  intros Hf. revert vs'. induction Hf as [|c v cols vs Hv Hf IH]; intros vs' Hf' Hp Hp' E;
    inversion Hf'; subst; [done|].
  apply Forall_cons_1 in Hp as [Hp Hps]. apply Forall_cons_1 in Hp' as [Hp' Hps'].
  unfold more_keys in E. cbn [fmap list_fmap mjoin list_join] in E. injection E as E.
  apply split_key in E as [E1 E2]; try apply more_keys_head; try by apply value_text_plain.
  f_equal; [by eapply value_text_inj|by apply IH].
Qed.

Lemma keys_text_inj cols vs vs' :
  Forall2 value_fits cols vs -> Forall2 value_fits cols vs' ->
  Forall plain vs -> Forall plain vs' -> keys_text vs = keys_text vs' -> vs = vs'.
Proof.
  intros Hf Hf' Hp Hp' E. apply (more_keys_inj cols); try done.
  destruct Hf as [|c v cols vs Hv Hf]; inversion Hf'; subst; [done|].
  apply Forall_cons_1 in Hp as [Hp _]. apply Forall_cons_1 in Hp' as [Hp' _].
  rewrite !keys_text_cons in E by (by apply value_text_plain).
  unfold more_keys. cbn [fmap list_fmap mjoin list_join]. cbn. by f_equal.
Qed.

(** ** Keys computed by compiled functions *)

(** A buffer that holds a row of values. *)
Definition encodes (cols : list ColumnDef) (vs : list (option Value)) (b : list Z) : Prop :=
  row_ok cols vs /\
  row_holds cols (row_size cols vs) (GetAddrLength (row_size cols vs)) vs b.

Lemma encodes_facts cols vs b :
  encodes cols vs b ->
  let size := row_size cols vs in
  size = bodies_start cols (GetAddrLength size) + sumz body_len vs /\ 0 <= size < 4294967296 /\
  buffer_size b = Some size /\ (size <=? HEADER_LENGTH) = false.
Proof.
  intros [Hok Hh] size.
  destruct (encode_row_builder cols vs (replicate (Z.to_nat size) 0) Hok)
    as (He & Hsz & _); [rewrite length_replicate; fold size; lia|]. fold size in He, Hsz, Hh.
  split_and!; try done; [lia..|by apply (stored_size cols size vs b)|].
  destruct Hok as [Hc Hv Hne Hn Hs]. destruct cols as [|c cols']; [done|].
  destruct (in_schema (c :: cols') size vs b) with (rv := RowView_of_schema false (c :: cols'))
    (j := 0%nat) (c := c) as (_ & _ & _ & ?); try done.
  by apply RowView_of_schema_views with vs.
Qed.

Lemma managed_encodes cols vs b :
  encodes cols vs b -> managed_slice (Some b) = Some (mkSlice (row_size cols vs) (Some b)).
Proof.
  intros He. destruct (encodes_facts _ _ _ He) as (_ & _ & Hs & _).
  unfold managed_slice. cbn [mbind option_bind]. by rewrite Hs.
Qed.

Lemma nonempty_row row n : size row 0 = Some n -> n <> 0 -> Rows.empty row = false.
Proof.
  unfold size, Rows.empty, Slice_empty. intros [= <-] Hn.
  destruct (Z.eqb_spec 0 (sl_size (slice_ row))) as [E|E]; [|done]. by rewrite <- E in Hn.
Qed.

Lemma RowProject_encodes fn row parameter cols vs b :
  encodes cols vs b -> Rows.empty row = false -> fn 0 (Some row) None parameter = (0, Some b) ->
  RowProject fn row parameter = Some (Row_of_slice (mkSlice (row_size cols vs) (Some b))).
Proof.
  intros He Hrow Hfn. unfold RowProject. rewrite Hrow, Hfn.
  change (negb (u32 0 =? 0)) with false. cbv iota. by rewrite (managed_encodes cols vs).
Qed.

Lemma gen_text fn row parameter cols vs b n :
  encodes cols vs b -> size row 0 = Some n -> n <> 0 ->
  fn 0 (Some row) None parameter = (0, Some b) ->
  KeyGenerator_Gen false (FnGenerator_new false (Some fn) cols) row parameter =
  Some (keys_text vs).
Proof.
  intros He Hrow Hn Hfn. unfold KeyGenerator_Gen. rewrite Hrow. cbn [mbind option_bind].
  rewrite (proj2 (Z.eqb_neq n 0)) by done. cbn [FnGenerator_new fn_ mbind option_bind].
  rewrite (RowProject_encodes fn row parameter cols vs b) by (done || by eapply nonempty_row).
  cbn [mbind option_bind buf nth_slice Z.eqb fmap option_fmap option_map Row_of_slice slice_ sl_data].
  cbn [FnGenerator_new fn_schema fn_row_view fn_idxs].
  destruct (encodes_facts _ _ _ He) as (Hex & Hsz & _ & _). destruct He as [Hok Hh].
  destruct Hok as [Hc Hv Hne Hcnt Hs].
  rewrite (gen_keys_value cols (row_size cols vs) vs b) by
    (done || by apply RowView_of_schema_views with vs). by rewrite drop_0.
Qed.

(** ** Constant keys *)

(** Strings are not cut by [GetAsString]. *)
Definition short (v : option Value) : Prop :=
  match v with Some (VString s) => (length s <= 4096)%nat | _ => True end.

Lemma answer_inv {A} (mk : A -> Value) r x :
  answer mk r = Some (0, Some x) -> exists a, r = Some (0, Some a) /\ mk a = x.
Proof.
  unfold answer. destruct r as [[ret v]|]; [|done]. cbn. intros [= -> E].
  destruct v as [a|]; [|done]. cbn in E. injection E as <-. by exists a.
Qed.

Section Const.
Context (float_text double_text : Z -> list Z).
Context (cols : list ColumnDef) (vs : list (option Value)) (b : list Z).
Context (He : encodes cols vs b) (Hplain : Forall plain vs) (Hshort : Forall short vs).

Let size := row_size cols vs.
Let rv := view cols size b.

Lemma const_read j c v :
  cols !! j = Some c -> vs !! j = Some v ->
  read_value (col_type c) (Z.of_nat j) rv = Some (expected v) /\
  IsNULL (Some b) (Z.of_nat j) = Some (is_null_value v) /\ views cols size b rv.
Proof.
  intros Hc Hv. destruct (encodes_facts _ _ _ He) as (Hex & Hsz & _ & _).
  destruct He as [[Hs Hf Hne Hn Hb] Hh]. split_and!; try done.
  - by apply (read_value_correct cols size vs b).
  - by apply (column_null cols size vs b Hf Hh).
Qed.

Lemma GetAsString_value j c x :
  cols !! j = Some c -> vs !! j = Some (Some x) -> col_type c <> kDate ->
  exists t, GetAsString false float_text double_text (Z.of_nat j) rv = Some t /\
    (if bool_decide (t = []) then EMPTY_STRING else t) = value_text (Some x).
Proof.
  intros Hc Hv Hd. destruct (const_read _ _ _ Hc Hv) as (Hr & Hnull & Hviews).
  destruct (encodes_facts _ _ _ He) as (Hex & Hsz & _ & Hh6).
  pose proof (Forall_lookup_1 _ _ _ _ Hplain Hv) as Hp.
  pose proof (Forall_lookup_1 _ _ _ _ Hshort Hv) as Hsh.
  destruct He as [[Hs Hf Hne Hn Hb] Hh].
  destruct (in_schema cols size vs b Hn Hsz Hex rv j c Hviews Hc) as (E1 & E2 & E3 & _).
  unfold GetAsString. rewrite E1, E2, E3. cbn [rv view rv_row rv_size].
  rewrite bool_decide_false by done.
  rewrite (proj2 (Z.eqb_neq size 0)) by (apply Z.leb_gt in Hh6; change HEADER_LENGTH with 6 in Hh6; lia).
  cbn [orb]. rewrite Hnull. cbn [mbind option_bind is_null_value].
  destruct (value_of_column cols size vs b Hh j c x Hc Hv) as [Ht _].
  assert (forall z, bool_decide (to_string z = []) = false) as Hts
    by (intros; apply bool_decide_false, to_string_nonempty).
  unfold text_of. rewrite <- Ht in *.
  destruct x as [t|z|z|z|z|y m d| | |s]; cbn [value_type read_value expected value_text plain short] in *;
    try done;
    try (apply answer_inv in Hr as (a & -> & [= ->]); cbn [mbind option_bind Z.eqb];
         eexists; split; [reflexivity|]; by rewrite ?Hts).
  - apply answer_inv in Hr as (a & -> & [= ->]). cbn [mbind option_bind Z.eqb].
    eexists; split; [reflexivity|]. by destruct t.
  - pose proof (GetString_value cols size vs b Hn Hsz Hf Hex Hh j c s PNull 0 Hc (eq_sym Ht) Hv) as Hg.
    change (view cols size b) with rv in Hg. rewrite Hg. cbn [mbind option_bind Z.eqb].
    rewrite Z.gtb_ltb, (proj2 (Z.ltb_ge _ _)) by lia.
    cbn [charp_string]. fold size in Hh. rewrite Nat2Z.id, (rd_body _ _ _ _ _ (proj1 Hh) _ _ Hv).
    eexists; split; [reflexivity|done].
Qed.

Lemma const_key_value j c v :
  cols !! j = Some c -> vs !! j = Some v ->
  const_key_text false float_text double_text cols rv (Z.of_nat j) = Some (value_text v).
Proof.
  intros Hc Hv. destruct (const_read _ _ _ Hc Hv) as (Hr & Hnull & Hviews).
  unfold const_key_text. cbn [rv view rv_row]. rewrite Hnull. cbn [mbind option_bind].
  destruct v as [x|]; [|done]. cbn [is_null_value]. unfold schema_get. rewrite Nat2Z.id, Hc.
  cbn [mbind option_bind]. case_bool_decide as Hd.
  - destruct (encodes_facts _ _ _ He) as (Hex & Hsz & _ & _). destruct He as [[Hs Hf Hne Hn Hb] Hh].
    destruct (value_of_column cols size vs b Hh j c x Hc Hv) as [Ht Hr'].
    rewrite Hd in Ht. destruct x as [| | | | |y m d| | |]; try done.
    unfold GetDateUnsafe, v1.GetInt32FieldUnsafe, rv.
    rewrite (field_s cols size vs b Hh 4 j c _ Hc Hv) by done. cbn [fixed_bytes].
    destruct Hr' as (? & ? & ?). pose proof (date_pack_value y m d ltac:(lia) ltac:(lia)).
    rewrite (wraps_le_bytes 4) by (cbn; lia). cbn [fmap option_fmap option_map mbind option_bind value_text].
    by rewrite bool_decide_false by apply to_string_nonempty.
  - destruct (GetAsString_value j c x Hc Hv Hd) as (t & -> & Et). cbn [mbind option_bind]. by rewrite Et.
Qed.

Lemma const_keys_value n : forall j keys,
  (j + n = length cols)%nat ->
  const_keys false float_text double_text cols rv (Z.of_nat <$> seq j n) keys =
  Some (foldl (fun keys v => add_key keys (value_text v)) keys (drop j vs)).
Proof.
  pose proof (Forall2_length _ _ _ (ok_values _ _ (proj1 He))) as Hlen.
  induction n as [|n IH]; intros j keys Hj; cbn [seq fmap list_fmap const_keys].
  - by rewrite drop_ge by lia.
  - destruct (lookup_lt_is_Some_2 vs j) as [v Hv]; [lia|].
    destruct (lookup_lt_is_Some_2 cols j) as [c Hc]; [lia|].
    rewrite (drop_S _ _ _ Hv), (const_key_value _ _ _ Hc Hv). cbn [mbind option_bind foldl].
    apply IH. lia.
Qed.

Lemma gen_const_text fn parameter :
  fn 0 None None parameter = (0, Some b) ->
  GenConst false float_text double_text (FnGenerator_new false (Some fn) cols) parameter =
  Some (keys_text vs).
Proof.
  intros Hfn. unfold GenConst. cbn [FnGenerator_new fn_ mbind option_bind].
  unfold RowConstProject. rewrite Hfn. change (negb (u32 0 =? 0)) with false. cbv iota.
  rewrite (managed_encodes cols vs) by done.
  cbn [mbind option_bind buf nth_slice Z.eqb fmap option_fmap option_map Row_of_slice slice_ sl_data].
  destruct (encodes_facts _ _ _ He) as (Hex & Hsz & Hst & Hh6).
  pose proof He as [[Hs Hf Hne Hn Hb] Hh]. cbn [FnGenerator_new fn_schema fn_row_view fn_idxs].
  destruct (RowView_of_schema_views cols size vs b Hs Hn Hsz Hex) as (E1 & E2 & E3 & E4).
  assert (Reset_row (Some b) (RowView_of_schema false cols) = Some (true, rv)) as ->.
  { unfold Reset_row. rewrite E1. unfold schema_size in *.
    rewrite (proj2 (Z.eqb_neq _ 0)) by (destruct cols; [done|cbn; lia]).
    change (load_u b VERSION_LENGTH 4) with (buffer_size b). rewrite Hst. cbn [mbind option_bind].
    rewrite Hh6, E2, E3, E4. reflexivity. }
  cbn [mbind option_bind negb]. rewrite const_keys_value by done. by rewrite drop_0.
Qed.
End Const.

(** The key of a row is the text of the values that the compiled key
    expression computes for it, joined by a separator: numbers and dates in
    decimal, booleans as words, reserved tokens for NULL and for the empty
    string, nothing for floating point values. No read leaves the buffer. *)
Theorem key_gen_text fn row parameter cols vs b n :
  encodes cols vs b -> size row 0 = Some n -> n <> 0 ->
  fn 0 (Some row) None parameter = (0, Some b) ->
  KeyGenerator_Gen false (FnGenerator_new false (Some fn) cols) row parameter =
  Some (keys_text vs).
Proof. apply gen_text. Qed.

(** Keys separate rows. Two rows get the same key exactly when the key
    expressions have the same values, provided no value is a floating point
    number and no string contains the separator or is a reserved token. *)
Theorem keys_separate fn row row' parameter cols vs vs' b b' n n' :
  encodes cols vs b -> encodes cols vs' b' ->
  Forall plain vs -> Forall plain vs' ->
  size row 0 = Some n -> n <> 0 -> size row' 0 = Some n' -> n' <> 0 ->
  fn 0 (Some row) None parameter = (0, Some b) ->
  fn 0 (Some row') None parameter = (0, Some b') ->
  let g := FnGenerator_new false (Some fn) cols in
  KeyGenerator_Gen false g row parameter = KeyGenerator_Gen false g row' parameter <-> vs = vs'.
Proof.
  intros He He' Hp Hp' Hr Hn Hr' Hn' Hf Hf' g.
  unfold g. rewrite (gen_text fn row parameter cols vs b n) by done.
  rewrite (gen_text fn row' parameter cols vs' b' n') by done.
  split; [|by intros ->]. intros [= E].
  destruct He as [[_ Hv _ _ _] _], He' as [[_ Hv' _ _ _] _]. by apply (keys_text_inj cols).
Qed.

(** A constant key and the key of a row agree. When the constants of an
    index lookup have the values of the key expressions of a row, the text
    computed from the constants is the text the row was stored under, for
    strings of at most 4096 bytes and no floating point value. *)
Theorem const_key_agrees float_text double_text fnc fn row parameter cols vs b b' n :
  encodes cols vs b -> encodes cols vs b' -> Forall plain vs -> Forall short vs ->
  size row 0 = Some n -> n <> 0 ->
  fnc 0 None None parameter = (0, Some b) -> fn 0 (Some row) None parameter = (0, Some b') ->
  GenConst false float_text double_text (FnGenerator_new false (Some fnc) cols) parameter =
  KeyGenerator_Gen false (FnGenerator_new false (Some fn) cols) row parameter.
Proof.
  intros He He' Hp Hs Hr Hn Hc Hf. rewrite (gen_text fn row parameter cols vs b' n) by done.
  by apply (gen_const_text float_text double_text cols vs b).
Qed.

(** keys of rows with a separator inside a string collide: the pairs
    (s1|s2, s3) and (s1, s2|s3) are different values with the same key, so
    their rows fall into one group. *)
Theorem keys_collide fn row row' parameter cols s1 s2 s3 b b' n n' :
  let vs := [Some (VString (s1 ++ 124 :: s2)); Some (VString s3)] in
  let vs' := [Some (VString s1); Some (VString (s2 ++ 124 :: s3))] in
  s1 <> [] -> s3 <> [] ->
  encodes cols vs b -> encodes cols vs' b' ->
  size row 0 = Some n -> n <> 0 -> size row' 0 = Some n' -> n' <> 0 ->
  fn 0 (Some row) None parameter = (0, Some b) ->
  fn 0 (Some row') None parameter = (0, Some b') ->
  let g := FnGenerator_new false (Some fn) cols in
  vs <> vs' /\
  KeyGenerator_Gen false g row parameter = KeyGenerator_Gen false g row' parameter.
Proof.
  intros vs vs' H1 H3 He He' Hr Hn Hr' Hn' Hf Hf' g. split.
  { intros [= E _]. apply (f_equal length) in E. rewrite length_app in E. cbn in E. lia. }
  unfold g. rewrite (gen_text fn row parameter cols vs b n) by done.
  rewrite (gen_text fn row' parameter cols vs' b' n') by done. f_equal.
  assert (forall (l : list Z) r, l <> [] -> bool_decide (l ++ r = []) = false) as Hb
    by (intros l r Hl; apply bool_decide_false; by intros [? _]%app_eq_nil).
  unfold vs, vs'. rewrite !keys_text_cons; cbn [value_text]; rewrite ?Hb by done;
    rewrite ?bool_decide_false by done; try done; try by destruct s1.
  unfold more_keys. cbn [fmap list_fmap mjoin list_join]. cbn [value_text].
  rewrite !bool_decide_false by (done || by destruct s2). by rewrite !app_nil_r, <- app_assoc.
Qed.

(** ** Concrete keys *)

Lemma encode_encodes cols vs b0 b :
  row_ok cols vs -> row_size cols vs <= Z.of_nat (length b0) ->
  encode_row cols vs b0 = Some b -> encodes cols vs b.
Proof.
  intros Hok Hb E. split; [done|].
  destruct (encode_row_holds _ _ _ Hok Hb) as (_ & _ & rb1 & rb2 & b' & E1 & E2 & E3 & Hh).
  unfold encode_row in E. fold (row_size cols vs) in E. rewrite E1 in E. cbn [mbind option_bind] in E.
  rewrite E2 in E. cbn [mbind option_bind] in E. congruence.
Qed.

Definition ex_cols : list ColumnDef := [mkcol [97] kVarchar; mkcol [98] kVarchar].
Definition ex_buf (s1 s2 : list Z) : list Z :=
  default [] (encode_row ex_cols [Some (VString s1); Some (VString s2)] (replicate 20 0)).

(** A compiled function that encodes a pair of strings, according to the
    first byte of its row. *)
Definition ex_fn : JitFn := fun _ row _ _ =>
  match row with
  | Some r => match sl_data (slice_ r) with
              | Some [1] => (0, Some (ex_buf [97; 124; 98] [99]))
              | Some [2] => (0, Some (ex_buf [97] [98; 124; 99]))
              | Some [3] => (0, Some (ex_buf [97] []))
              | _ => (0, Some (ex_buf [100] [101]))
              end
  | None => (0, Some (ex_buf [100] [101]))
  end.

Ltac ex_encodes :=
  apply (encode_encodes _ _ (replicate 20 0));
  [constructor; [repeat constructor; done|repeat constructor|done|done|vm_compute; done]
  |vm_compute; done|vm_compute; reflexivity].

Ltac ex_plain :=
  repeat constructor; try done; intros H;
  repeat (apply elem_of_cons in H as [H|H]; [done|]); by apply elem_of_nil in H.

Lemma key_gen_text_witness :
  KeyGenerator_Gen false (FnGenerator_new false (Some ex_fn) ex_cols) (Row_of_string [3]) Row_default =
  Some (keys_text [Some (VString [97]); Some (VString [])]) /\
  keys_text [Some (VString [97]); Some (VString [])] = text "a|!@#$%".
Proof.
  split; [|reflexivity].
  apply (key_gen_text ex_fn (Row_of_string [3]) Row_default ex_cols
    [Some (VString [97]); Some (VString [])] (ex_buf [97] []) 1); [ex_encodes|done..].
Defined.

Lemma keys_separate_witness :
  let g := FnGenerator_new false (Some ex_fn) ex_cols in
  KeyGenerator_Gen false g (Row_of_string [3]) Row_default =
  KeyGenerator_Gen false g (Row_of_string [4]) Row_default <->
  [Some (VString [97]); Some (VString [])] = [Some (VString [100]); Some (VString [101])].
Proof.
  apply (keys_separate ex_fn (Row_of_string [3]) (Row_of_string [4]) Row_default ex_cols
    [Some (VString [97]); Some (VString [])] [Some (VString [100]); Some (VString [101])]
    (ex_buf [97] []) (ex_buf [100] [101]) 1 1); [ex_encodes|ex_encodes|ex_plain|ex_plain|done..].
Defined.

Lemma const_key_agrees_witness :
  GenConst false (fun _ => []) (fun _ => []) (FnGenerator_new false (Some ex_fn) ex_cols) Row_default =
  KeyGenerator_Gen false (FnGenerator_new false (Some ex_fn) ex_cols) (Row_of_string [4]) Row_default.
Proof.
  apply (const_key_agrees (fun _ => []) (fun _ => []) ex_fn ex_fn (Row_of_string [4]) Row_default ex_cols
    [Some (VString [100]); Some (VString [101])] (ex_buf [100] [101]) (ex_buf [100] [101]) 1);
    [ex_encodes|ex_encodes|ex_plain| |done..].
  apply Forall_cons_2, Forall_cons_2, Forall_nil_2; by apply Nat.leb_le.
Defined.

Lemma keys_collide_witness :
  let g := FnGenerator_new false (Some ex_fn) ex_cols in
  KeyGenerator_Gen false g (Row_of_string [1]) Row_default =
  KeyGenerator_Gen false g (Row_of_string [2]) Row_default.
Proof.
  apply (keys_collide ex_fn (Row_of_string [1]) (Row_of_string [2]) Row_default ex_cols
    [97] [98] [99] (ex_buf [97; 124; 98] [99]) (ex_buf [97] [98; 124; 99]) 1 1);
    [done|done|ex_encodes|ex_encodes|done..].
Defined.
