(* ===== verification/Generators.v ===== *)
(** * Generators: partitioning, sorting, seeking, filtering, joining

    Models the generators of [src/vm/runner.h] and [src/vm/runner.cc] from
    which the operators are built. Every result is an [option]: [None] is
    undefined behaviour or exhausted fuel; where the code returns a pointer,
    the value inside is an [option] again, [None] for the null pointer. *)

From stdpp Require Import base numbers option list.
From S2P Require Import Prelude Layout TypeCodec Iterators MemCatalog Window Rows CatalogWrapper Handlers FnGenerators.

Section Generators.
Context (spark : bool) (float_text double_text : Z -> list Z).
Context (std_sort : ((Z * Row) -> (Z * Row) -> bool) -> list (Z * Row) -> list (Z * Row)).
Context (fuel : nat).

Abbreviation Gen := (KeyGenerator_Gen spark).

(** ** Partitions *)

(** [PartitionGenerator] is its key generator. *)
Definition ph_SetOrderType (o : OrderType) (p : MemPartitionHandler Row) : MemPartitionHandler Row :=
  mkMemPartitionHandler (ph_partitions p) o.

(** [PartitionGenerator::Partition] of a table. *)
Definition Partition_table (key_gen : FnGenerator) (table : TableHandler) (parameter : Row)
  : option (option PartitionHandler) :=
  if negb (fn_Valid key_gen) then Some None
  else
    o ← t_GetIterator fuel table;
    match o with
    | None => Some None
    | Some iter =>
        p ← for_rows (fun key row p =>
               keys ← Gen key_gen row parameter;
               Some (ph_AddRow keys key row p).2)
             fuel (SeekToFirst iter) MemPartitionHandler_new;
        Some (Some (PMem (ph_SetOrderType (t_GetOrderType table) p)))
    end.

(** The segments of a partition one after the other; [body] gets the key and
    the iterator of a segment, null iterators are skipped. *)
Fixpoint for_segments {S} (body : list Z -> AnyIter -> S -> option S) (n : nat) (w : WinIter) (s : S)
  : option S :=
  if wi_Valid w then
    match n with
    | O => None
    | S n' =>
        o ← wi_GetValue fuel w;
        match o with
        | None => for_segments body n' (wi_Next w) s
        | Some it =>
            key ← wi_GetKey w;
            s' ← body key it s;
            for_segments body n' (wi_Next w) s'
        end
    end
  else Some s.

(** [PartitionGenerator::Partition] of a partition: the keys are refined. *)
Definition Partition_partition (key_gen : FnGenerator) (table : PartitionHandler) (parameter : Row)
  : option (option PartitionHandler) :=
  if negb (fn_Valid key_gen) then Some (Some table)
  else
    match p_GetWindowIterator table with
    | None => Some None
    | Some iter =>
        p ← for_segments (fun segment_key segment_iter p =>
               for_rows (fun ts row p =>
                   keys ← Gen key_gen row parameter;
                   Some (ph_AddRow (segment_key ++ SEPARATOR ++ keys) ts row p).2)
                 fuel (SeekToFirst segment_iter) p)
             fuel (wi_SeekToFirst iter)
             (ph_SetOrderType (p_GetOrderType table) MemPartitionHandler_new);
        Some (Some (PMem p))
    end.

Definition Partition (key_gen : FnGenerator) (input : DataHandler) (parameter : Row)
  : option (option PartitionHandler) :=
  match input with
  | HPartition p => Partition_partition key_gen p parameter
  | HTable t => Partition_table key_gen t parameter
  | HRow _ => Some None
  end.

(** ** Sorting *)

Record SortGenerator := mkSortGenerator {
  sg_is_valid : bool; sg_is_asc : bool; sg_order_gen : FnGenerator
}.

Definition is_asc_order (o : OrderType) : bool :=
  match o with kAscOrder => true | _ => false end.

(** The rows of a segment under their new time stamps. *)
Definition restamp (order_gen : FnGenerator) (key : list Z) (it : AnyIter) (p : MemPartitionHandler Row)
  : option (MemPartitionHandler Row) :=
  for_rows (fun _ row p =>
      ts ← OrderGenerator_Gen order_gen row;
      Some (ph_AddRow key (u64 ts) row p).2) fuel (SeekToFirst it) p.

(** The loop over segments of [SortGenerator::Sort] of a partition: it does
    not advance behind a segment. *)
Fixpoint sort_segments (order_gen : FnGenerator) (n : nat) (w : WinIter) (p : MemPartitionHandler Row)
  : option (MemPartitionHandler Row) :=
  if wi_Valid w then
    match n with
    | O => None
    | S n' =>
        o ← wi_GetValue fuel w;
        match o with
        | None => sort_segments order_gen n' (wi_Next w) p
        | Some it =>
            key ← wi_GetKey w;
            p' ← restamp order_gen key it p;
            sort_segments order_gen n' w p'
        end
    end
  else Some p.

Definition Sort_partition (g : SortGenerator) (partition : option PartitionHandler) (reverse : bool)
  : option (option PartitionHandler) :=
  let is_asc := if reverse then negb (sg_is_asc g) else sg_is_asc g in
  if negb (sg_is_valid g) then Some partition
  else
    match partition with
    | None => Some None
    | Some part =>
        let order := p_GetOrderType part in
        let order_gen := sg_order_gen g in
        if negb (fn_Valid order_gen) && Bool.eqb is_asc (is_asc_order order) then Some partition
        else
          match p_GetWindowIterator part with
          | None => Some None
          | Some iter =>
              p ← sort_segments order_gen fuel (wi_SeekToFirst iter) MemPartitionHandler_new;
              Some (Some (PMem
                (if fn_Valid order_gen then ph_Sort std_sort is_asc p
                 else if is_asc && match order with kDescOrder => true | _ => false end
                 then ph_Reverse p else p)))
          end
    end.

(** [SortGenerator::Sort] of a table. *)
Definition Sort_table (g : SortGenerator) (table : option TableHandler) (reverse : bool)
  : option (option TableHandler) :=
  let is_asc := if reverse then negb (sg_is_asc g) else sg_is_asc g in
  match table with
  | None => Some None
  | Some t =>
      if negb (sg_is_valid g) then Some table
      else
        let order := t_GetOrderType t in
        let order_gen := sg_order_gen g in
        if negb (fn_Valid order_gen) && Bool.eqb is_asc (is_asc_order order) then Some table
        else
          o ← t_GetIterator fuel t;
          match o with
          | None => Some None
          | Some iter =>
              out ← for_rows (fun key row out =>
                       k ← (if fn_Valid order_gen
                            then ts ← OrderGenerator_Gen order_gen row; Some (u64 ts)
                            else Some key);
                       Some (AddRow k row out))
                     fuel (SeekToFirst iter) (mkMemTimeTableHandler [] order);
              if fn_Valid order_gen then Some (Some (TTime (th_Sort std_sort is_asc out)))
              else match order with
                   | kDescOrder => Some (Some (TTime (if is_asc then th_Reverse out else out)))
                   | kAscOrder => Some (Some (TTime (if is_asc then out else th_Reverse out)))
                   | kNoneOrder => Some None
                   end
          end
  end.

Definition Sort (g : SortGenerator) (input : option DataHandler) (reverse : bool)
  : option (option DataHandler) :=
  match input with
  | None => Some input
  | Some d =>
      if negb (sg_is_valid g) || negb (fn_Valid (sg_order_gen g)) then Some input
      else match d with
           | HTable t => o ← Sort_table g (Some t) reverse; Some (option_map HTable o)
           | HPartition p => o ← Sort_partition g (Some p) reverse; Some (option_map HPartition o)
           | HRow _ => Some None
           end
  end.

(** [Runner::TableReverse]. *)
Definition TableReverse (table : option TableHandler) : option (option TableHandler) :=
  match table with
  | None => Some None
  | Some t =>
      o ← t_GetIterator fuel t;
      match o with
      | None => Some None
      | Some iter =>
          out ← for_rows (fun key row out => Some (AddRow key row out))
                  fuel (SeekToFirst iter) MemTimeTableHandler_new;
          Some (Some (TTime (th_Reverse out)))
      end
  end.

(** ** Seeking and filtering *)

(** The common part of [IndexSeekGenerator]: [key] computes the index key. *)
Definition segment_of (index_key_gen : FnGenerator) (key : option (list Z)) (input : DataHandler)
  : option (option TableHandler) :=
  if negb (fn_Valid index_key_gen) then
    match input with
    | HPartition _ => Some None
    | HTable t => Some (Some t)
    | HRow _ => Some None
    end
  else match input with
       | HPartition p => k ← key; Some (p_GetSegment p k)
       | _ => Some None
       end.

Definition SegmnetOfConstKey (index_key_gen : FnGenerator) (parameter : Row)
    (input : option DataHandler) : option (option TableHandler) :=
  match input with
  | None => Some None
  | Some d => segment_of index_key_gen (GenConst spark float_text double_text index_key_gen parameter) d
  end.

Definition SegmentOfKey (index_key_gen : FnGenerator) (row parameter : Row)
    (input : option DataHandler) : option (option TableHandler) :=
  match input with
  | None => Some None
  | Some d =>
      if Rows.empty row then Some None
      else segment_of index_key_gen (Gen index_key_gen row parameter) d
  end.

Record FilterGenerator := mkFilterGenerator {
  fg_condition_gen : FnGenerator; fg_index_key_gen : FnGenerator
}.

Definition fg_Valid (g : FilterGenerator) : bool :=
  fn_Valid (fg_index_key_gen g) || fn_Valid (fg_condition_gen g).

(** [FilterGenerator::operator()]. *)
Definition fg_call (g : FilterGenerator) (parameter row : Row) : option bool :=
  if negb (fg_Valid g) then Some true
  else ConditionGenerator_Gen (fg_condition_gen g) row parameter.

(** [Filter] of a table is lazy: the predicate runs when rows are read. *)
Definition Filter_table (g : FilterGenerator) (table : option TableHandler) (parameter : Row)
  : option TableHandler :=
  match table with
  | None => None
  | Some t =>
      if negb (fn_Valid (fg_condition_gen g)) then table
      else Some (TFilter (fun row => default false (fg_call g parameter row)) t)
  end.

Definition Filter_partition (g : FilterGenerator) (p : PartitionHandler) (parameter : Row)
  : option (option TableHandler) :=
  t ← SegmnetOfConstKey (fg_index_key_gen g) parameter (Some (HPartition p));
  Some (Filter_table g t parameter).

(** [FilterKeyGenerator::Filter]; the table is not checked for null. *)
Definition FilterKey_Filter (filter_key : FnGenerator) (parameter : Row) (table : option TableHandler)
    (request_keys : list Z) : option (option TableHandler) :=
  if negb (fn_Valid filter_key) then Some table
  else
    t ← table;
    o ← t_GetIterator fuel t;
    out ← match o with
          | None => Some (mkMemTimeTableHandler [] (t_GetOrderType t))
          | Some iter =>
              for_rows (fun key row out =>
                  keys ← Gen filter_key row parameter;
                  Some (if bool_decide (request_keys = keys) then AddRow key row out else out))
                fuel (SeekToFirst iter) (mkMemTimeTableHandler [] (t_GetOrderType t))
          end;
    Some (Some (TTime out)).

Definition FilterKey_GetKey (filter_key : FnGenerator) (row parameter : Row) : option (list Z) :=
  if fn_Valid filter_key then Gen filter_key row parameter else Some [].

Record RequestWindowGenertor := mkRequestWindowGenertor {
  rw_filter_gen : FnGenerator; rw_sort_gen : SortGenerator; rw_index_key_gen : FnGenerator
}.

Definition GetRequestWindow (g : RequestWindowGenertor) (row parameter : Row)
    (input : option DataHandler) : option (option TableHandler) :=
  segment ← SegmentOfKey (rw_index_key_gen g) row parameter input;
  segment ← (if fn_Valid (rw_filter_gen g)
             then filter_key ← FilterKey_GetKey (rw_filter_gen g) row parameter;
                  FilterKey_Filter (rw_filter_gen g) parameter segment filter_key
             else Some segment);
  if sg_is_valid (rw_sort_gen g) then Sort_table (rw_sort_gen g) segment true else Some segment.
End Generators.
