(* ===== verification/Joins.v ===== *)
(** * Last joins

    Models [JoinGenerator], [WindowJoinGenerator] and
    [Runner::RowLastJoinTable] of [src/vm/runner.cc]: a left row is joined
    with the first row of the right side, in the order of the right sort, that
    satisfies the key and the condition, or with an empty row. *)

From stdpp Require Import base numbers option list.
From S2P Require Import Prelude Layout TypeCodec Iterators MemCatalog Rows CatalogWrapper Handlers FnGenerators Generators.

Section Joins.
Context (spark : bool) (std_sort : ((Z * Row) -> (Z * Row) -> bool) -> list (Z * Row) -> list (Z * Row)).
Context (fuel : nat).

Abbreviation Gen := (KeyGenerator_Gen spark).
Abbreviation SortTable := (Sort_table std_sort fuel).

Record JoinGenerator := mkJoinGenerator {
  jg_condition_gen : FnGenerator;
  jg_left_key_gen : FnGenerator;
  jg_right_group_gen : FnGenerator;
  jg_index_key_gen : FnGenerator;
  jg_right_sort_gen : SortGenerator;
  jg_left_slices : Z;
  jg_right_slices : Z
}.

(** The loop of [Runner::RowLastJoinTable]. *)
Fixpoint last_join_loop (join : Row -> option Row) (cond_gen : FnGenerator) (parameter : Row)
    (n : nat) (it : AnyIter) : option (option Row) :=
  if Valid it then
    match n with
    | O => None
    | S n' =>
        right ← GetValue it;
        joined ← join right;
        ok ← ConditionGenerator_Gen cond_gen joined parameter;
        if (ok : bool) then Some (Some joined)
        else last_join_loop join cond_gen parameter n' (Next it)
    end
  else Some None.

(** [Runner::RowLastJoinTable]. *)
Definition Runner_RowLastJoinTable (left_slices : Z) (left_row : Row) (right_slices : Z)
    (right_table : option TableHandler) (parameter : Row) (right_sort : SortGenerator)
    (cond_gen : FnGenerator) : option Row :=
  let join := Row_concat left_slices left_row right_slices in
  right_table ← SortTable right_sort right_table true;
  match right_table with
  | None => join Row_default
  | Some t =>
      o ← t_GetIterator fuel t;
      match o with
      | None => join Row_default
      | Some right_iter =>
          let right_iter := SeekToFirst right_iter in
          if negb (Valid right_iter) then join Row_default
          else if negb (fn_Valid cond_gen) then r ← GetValue right_iter; join r
          else
            res ← last_join_loop join cond_gen parameter fuel right_iter;
            match res with Some r => Some r | None => join Row_default end
      end
  end.

(** The loop of [JoinGenerator::RowLastJoinTable]. *)
Fixpoint keyed_join_loop (g : JoinGenerator) (join : Row -> option Row) (left_key : list Z)
    (parameter : Row) (n : nat) (it : AnyIter) : option (option Row) :=
  if Valid it then
    match n with
    | O => None
    | S n' =>
        right ← GetValue it;
        other ← (if fn_Valid (jg_right_group_gen g)
                 then right_key ← Gen (jg_right_group_gen g) right parameter;
                      Some (fn_Valid (jg_left_key_gen g) && negb (bool_decide (left_key = right_key)))
                 else Some false);
        if (other : bool) then keyed_join_loop g join left_key parameter n' (Next it)
        else
          joined ← join right;
          if negb (fn_Valid (jg_condition_gen g)) then Some (Some joined)
          else
            ok ← ConditionGenerator_Gen (jg_condition_gen g) joined parameter;
            if (ok : bool) then Some (Some joined)
            else keyed_join_loop g join left_key parameter n' (Next it)
    end
  else Some None.

(** [JoinGenerator::RowLastJoinTable]. *)
Definition RowLastJoinTable (g : JoinGenerator) (left_row : Row) (table : option TableHandler)
    (parameter : Row) : option Row :=
  let join := Row_concat (jg_left_slices g) left_row (jg_right_slices g) in
  table ← (if sg_is_valid (jg_right_sort_gen g) then SortTable (jg_right_sort_gen g) table true
           else Some table);
  match table with
  | None => join Row_default
  | Some t =>
      o ← t_GetIterator fuel t;
      match o with
      | None => join Row_default
      | Some right_iter =>
          let right_iter := SeekToFirst right_iter in
          if negb (Valid right_iter) then join Row_default
          else if negb (fn_Valid (jg_left_key_gen g)) && negb (fn_Valid (jg_condition_gen g))
          then r ← GetValue right_iter; join r
          else
            left_key ← (if fn_Valid (jg_left_key_gen g)
                        then Gen (jg_left_key_gen g) left_row parameter else Some []);
            res ← keyed_join_loop g join left_key parameter fuel right_iter;
            match res with Some r => Some r | None => join Row_default end
      end
  end.

Definition RowLastJoinPartition (g : JoinGenerator) (left_row : Row) (partition : PartitionHandler)
    (parameter : Row) : option Row :=
  if negb (fn_Valid (jg_index_key_gen g)) then Some Row_default
  else
    key ← Gen (jg_index_key_gen g) left_row parameter;
    RowLastJoinTable g left_row (p_GetSegment partition key) parameter.

(** [JoinGenerator::RowLastJoin]. *)
Definition RowLastJoin (g : JoinGenerator) (left_row : Row) (right : DataHandler) (parameter : Row)
  : option Row :=
  match right with
  | HPartition p => RowLastJoinPartition g left_row p parameter
  | HTable t => RowLastJoinTable g left_row (Some t) parameter
  | HRow r =>
      row ← r_GetValue r;
      RowLastJoinTable g left_row (Some (TMem (tb_AddRow row (mkMemTableHandler [] kNoneOrder)))) parameter
  end.

(** [RowLastJoinDropLeftSlices]: the slices of the right side only. *)
Definition RowLastJoinDropLeftSlices (g : JoinGenerator) (left_row : Row) (right : DataHandler)
    (parameter : Row) : option Row :=
  joined ← RowLastJoin g left_row right parameter;
  Some (foldl (fun r offset => Append (GetSlice joined (jg_left_slices g + Z.of_nat offset)) r)
          (Row_of_slice (GetSlice joined (jg_left_slices g)))
          (seq 1 (Z.to_nat (jg_right_slices g) - 1))).

(** ** Joining tables and partitions *)

(** The key of the segment of the right partition a left row is joined with. *)
Definition join_key (g : JoinGenerator) (left_row parameter : Row) : option (list Z) :=
  key_str ← (if fn_Valid (jg_index_key_gen g) then Gen (jg_index_key_gen g) left_row parameter
             else Some []);
  if fn_Valid (jg_left_key_gen g)
  then k ← Gen (jg_left_key_gen g) left_row parameter;
       Some (if bool_decide (key_str = []) then k else key_str ++ SEPARATOR ++ k)
  else Some key_str.

(** One row of the loops below, with the segment or table it is joined with. *)
Definition join_row (g : JoinGenerator) (left_row : Row) (right : option TableHandler) (parameter : Row)
  : option Row :=
  Runner_RowLastJoinTable (jg_left_slices g) left_row (jg_right_slices g) right parameter
    (jg_right_sort_gen g) (jg_condition_gen g).

(** [JoinGenerator::TableJoin] with a table; the result is the status and the
    output table. *)
Definition TableJoin_table (g : JoinGenerator) (left : TableHandler) (right : option TableHandler)
    (parameter : Row) (output : MemTimeTableHandler Row) : option (bool * MemTimeTableHandler Row) :=
  o ← t_GetIterator fuel left;
  match o with
  | None => Some (false, output)
  | Some left_iter =>
      out ← for_rows (fun key left_row out =>
               r ← join_row g left_row right parameter; Some (AddRow key r out))
             fuel (SeekToFirst left_iter) output;
      Some (true, out)
  end.

(** [JoinGenerator::TableJoin] with a partition. *)
Definition TableJoin_partition (g : JoinGenerator) (left : TableHandler) (right : PartitionHandler)
    (parameter : Row) (output : MemTimeTableHandler Row) : option (bool * MemTimeTableHandler Row) :=
  if negb (fn_Valid (jg_left_key_gen g)) && negb (fn_Valid (jg_index_key_gen g))
  then Some (false, output)
  else
    o ← t_GetIterator fuel left;
    match o with
    | None => Some (false, output)
    | Some left_iter =>
        out ← for_rows (fun key left_row out =>
                 key_str ← join_key g left_row parameter;
                 r ← join_row g left_row (p_GetSegment right key_str) parameter;
                 Some (AddRow key r out))
               fuel (SeekToFirst left_iter) output;
        Some (true, out)
    end.

(** [JoinGenerator::PartitionJoin] with a table. *)
Definition PartitionJoin_table (g : JoinGenerator) (left : PartitionHandler) (right : option TableHandler)
    (parameter : Row) (output : MemPartitionHandler Row) : option (bool * MemPartitionHandler Row) :=
  match p_GetWindowIterator left with
  | None => Some (false, output)
  | Some left_window_iter =>
      out ← for_segments fuel (fun left_key left_iter out =>
               for_rows (fun ts left_row out =>
                   r ← join_row g left_row right parameter;
                   Some (ph_AddRow left_key ts r out).2)
                 fuel (SeekToFirst left_iter) out)
             fuel (wi_SeekToFirst left_window_iter) output;
      Some (true, out)
  end.

(** The key of [PartitionJoin] with a partition: always with a separator
    behind an index key. *)
Definition partition_join_key (g : JoinGenerator) (left_row parameter : Row) : option (list Z) :=
  if fn_Valid (jg_index_key_gen g)
  then i ← Gen (jg_index_key_gen g) left_row parameter;
       k ← Gen (jg_left_key_gen g) left_row parameter;
       Some (i ++ SEPARATOR ++ k)
  else Gen (jg_left_key_gen g) left_row parameter.

(** [JoinGenerator::PartitionJoin] with a partition. *)
Definition PartitionJoin_partition (g : JoinGenerator) (left : option PartitionHandler)
    (right : PartitionHandler) (parameter : Row) (output : MemPartitionHandler Row)
  : option (bool * MemPartitionHandler Row) :=
  match left with
  | None => Some (false, output)
  | Some lp =>
      match p_GetWindowIterator lp with
      | None => Some (false, output)
      | Some left_partition_iter =>
          if negb (fn_Valid (jg_left_key_gen g)) then Some (false, output)
          else
            out ← for_segments fuel (fun left_key left_iter out =>
                     for_rows (fun ts left_row out =>
                         key_str ← partition_join_key g left_row parameter;
                         r ← join_row g left_row (p_GetSegment right key_str) parameter;
                         Some (ph_AddRow left_key ts r out).2)
                       fuel (SeekToFirst left_iter) out)
                   fuel (wi_SeekToFirst left_partition_iter) output;
            Some (true, out)
      end
  end.

(** [WindowJoinGenerator::Join]: the joins one after the other. *)
Fixpoint Join (joins_gen : list JoinGenerator) (left_row : Row) (join_right_tables : list (option DataHandler))
    (parameter : Row) : option Row :=
  match join_right_tables with
  | [] => Some left_row
  | table :: tables =>
      match joins_gen with
      | [] => None
      | g :: gens => d ← table; r ← RowLastJoin g left_row d parameter; Join gens r tables parameter
      end
  end.
End Joins.
