(* ===== verification/WindowRunners.v ===== *)
(** * Window aggregation and request windows

    Models the window operators of [src/vm/runner.cc]: the projection over a
    sliding window, the merge of instance and union segments of a key, and the
    window of a request row over the segments of its key. *)

From stdpp Require Import base numbers option list.
From S2P Require Import Prelude Layout TypeCodec Iterators MemCatalog Window Rows CatalogWrapper Handlers FnGenerators Generators Joins.

(** ** Picking among iterators *)

Record IteratorStatus := mkIteratorStatus { st_is_valid : bool; st_key : Z }.

Definition IteratorStatus_none : IteratorStatus := mkIteratorStatus false 0.
Definition IteratorStatus_new (key : Z) : IteratorStatus := mkIteratorStatus true key.
Definition MarkInValid (_ : IteratorStatus) : IteratorStatus := mkIteratorStatus false 0.
Definition set_key (key : Z) (s : IteratorStatus) : IteratorStatus :=
  mkIteratorStatus (st_is_valid s) key.

Definition UINT64_MAX : Z := 18446744073709551615.

(** The loops of the two picks, from position [i] with the best so far. *)
Fixpoint pick_min_loop (l : list IteratorStatus) (i : nat) (pos order : Z) : Z :=
  match l with
  | [] => pos
  | s :: l' =>
      if st_is_valid s && (st_key s <? order)
      then pick_min_loop l' (S i) (i32 (Z.of_nat i)) (st_key s)
      else pick_min_loop l' (S i) pos order
  end.
Fixpoint pick_max_loop (l : list IteratorStatus) (i : nat) (pos order : Z) : Z :=
  match l with
  | [] => pos
  | s :: l' =>
      if st_is_valid s && (st_key s >=? order)
      then pick_max_loop l' (S i) (i32 (Z.of_nat i)) (st_key s)
      else pick_max_loop l' (S i) pos order
  end.

Definition PickIteratorWithMininumKey (l : list IteratorStatus) : Z := pick_min_loop l 0 (-1) UINT64_MAX.
Definition PickIteratorWithMaximizeKey (l : list IteratorStatus) : Z := pick_max_loop l 0 (-1) 0.

Section Runners.
Context (spark : bool) (std_sort : ((Z * Row) -> (Z * Row) -> bool) -> list (Z * Row) -> list (Z * Row)).
Context (fuel : nat).

(** ** Projecting over a window *)

(** [Runner::WindowProject]. *)
Definition WindowProject (fn : JitFn) (row_key : Z) (row parameter : Row) (is_instance : bool)
    (append_slices : Z) (window : HistoryWindow Row) : option (Row * HistoryWindow Row) :=
  if Rows.empty row then Some (row, window)
  else
    '(ok, w1) ← HistoryWindow_BufferData row_key row window;
    if negb ok then Some (Row_default, w1)
    else if negb is_instance then Some (Row_default, w1)
    else
      let '(ret, out) := fn (i64 row_key) (Some row) (Some (LWindow w1)) parameter in
      if negb (u32 ret =? 0) then Some (Row_default, w1)
      else
        w2 ← (if hw_instance_not_in_window w1 then PopFrontData w1 else Some w1);
        s ← managed_slice out;
        if append_slices >? 0
        then r ← Row_concat_slice s append_slices row; Some (r, w2)
        else Some (Row_of_slice s, w2).

(** [Runner::GroupbyProject]. *)
Definition GroupbyProject (fn : JitFn) (parameter : Row) (table : TableHandler) : option Row :=
  o ← t_GetIterator fuel table;
  match o with
  | None => Some Row_default
  | Some iter =>
      let iter := SeekToFirst iter in
      if negb (Valid iter) then Some Row_default
      else
        row ← GetValue iter; row_key ← GetKey iter;
        let '(ret, out) := fn (i64 row_key) (Some row) (Some (LTable table)) parameter in
        if negb (u32 ret =? 0) then Some Row_default
        else s ← managed_slice out; Some (Row_of_slice s)
  end.

(** ** Window aggregation *)

(** [WindowGenerator]. *)
Record WindowGenerator := mkWindowGenerator {
  wg_partition_gen : FnGenerator; wg_sort_gen : SortGenerator; wg_window_range : WindowRange
}.

(** [WindowAggRunner] without its input runners. *)
Record WindowAggRunner := mkWindowAggRunner {
  wa_limit_cnt : Z;
  wa_instance_not_in_window : bool;
  wa_exclude_current_time : bool;
  wa_append_slices : Z;
  wa_instance_window_gen : WindowGenerator;
  wa_union_windows_gen : list WindowGenerator;
  wa_joins_gen : list JoinGenerator;
  wa_window_project_gen : FnGenerator
}.

Abbreviation SortTable := (Sort_table std_sort fuel).

(** A segment is sorted and its iterator is rewound; its status is that of its
    first row. *)
Definition union_iterator (partition : option PartitionHandler) (sort_gen : SortGenerator) (key : list Z)
  : option (option AnyIter * IteratorStatus) :=
  match partition with
  | None => Some (None, IteratorStatus_none)
  | Some p =>
      segment ← SortTable sort_gen (p_GetSegment p key) false;
      match segment with
      | None => Some (None, IteratorStatus_none)
      | Some t =>
          o ← t_GetIterator fuel t;
          match o with
          | None => Some (None, IteratorStatus_none)
          | Some it =>
              let it := SeekToFirst it in
              if negb (Valid it) then Some (Some it, IteratorStatus_none)
              else ts ← GetKey it; Some (Some it, IteratorStatus_new ts)
          end
      end
  end.

Fixpoint union_iterators (partitions : list (option PartitionHandler)) (gens : list WindowGenerator)
    (key : list Z) : option (list (option AnyIter * IteratorStatus)) :=
  match gens, partitions with
  | [], _ => Some []
  | g :: gens', p :: partitions' =>
      u ← union_iterator p (wg_sort_gen g) key;
      us ← union_iterators partitions' gens' key;
      Some (u :: us)
  | _ :: _, [] => None
  end.

(** The joined row a row enters the window as. *)
Definition window_row (r : WindowAggRunner) (row : Row) (joins : list (option DataHandler)) (parameter : Row)
  : option Row :=
  match wa_joins_gen r with
  | [] => Some row
  | gens => Join spark std_sort fuel gens row joins parameter
  end.

(** Advancing the iterator at a position and updating its status. *)
Definition advance_union (pos : nat) (us : list (option AnyIter * IteratorStatus))
  : option (list (option AnyIter * IteratorStatus)) :=
  '(o, st) ← us !! pos;
  it ← o;
  let it := Next it in
  st' ← (if negb (Valid it) then Some (MarkInValid st) else k ← GetKey it; Some (set_key k st));
  Some (<[pos := (Some it, st')]> us).

(** The inner loop: union rows older than the instance row enter the window. *)
Fixpoint union_loop (r : WindowAggRunner) (joins : list (option DataHandler)) (parameter : Row)
    (instance_order : Z) (n : nat) (us : list (option AnyIter * IteratorStatus)) (min_union_pos : Z)
    (window : HistoryWindow Row)
  : option (list (option AnyIter * IteratorStatus) * Z * HistoryWindow Row) :=
  match n with
  | O => None
  | S n' =>
      older ← (if min_union_pos >=? 0
               then u ← us !! Z.to_nat min_union_pos; Some (st_key u.2 <? instance_order)
               else Some false);
      if negb older then Some (us, min_union_pos, window)
      else
        u ← us !! Z.to_nat min_union_pos;
        it ← u.1;
        row ← GetValue it;
        row ← window_row r row joins parameter;
        k ← GetKey it;
        fn ← fn_ (wa_window_project_gen r);
        '(_, w') ← WindowProject fn k row parameter false (wa_append_slices r) window;
        us' ← advance_union (Z.to_nat min_union_pos) us;
        union_loop r joins parameter instance_order n' us' (PickIteratorWithMininumKey us'.*2) w'
  end.

(** The loop over the instance rows. *)
Fixpoint instance_loop (r : WindowAggRunner) (joins : list (option DataHandler)) (parameter : Row)
    (n : nat) (it : AnyIter) (us : list (option AnyIter * IteratorStatus)) (min_union_pos : Z)
    (window : HistoryWindow Row) (cnt : Z) (output : MemTableHandler Row) : option (MemTableHandler Row) :=
  if Valid it then
    match n with
    | O => None
    | S n' =>
        if (wa_limit_cnt r >? 0) && (cnt >=? wa_limit_cnt r) then Some output
        else
          instance_row ← GetValue it;
          instance_order ← GetKey it;
          '(us', min', w1) ← union_loop r joins parameter instance_order fuel us min_union_pos window;
          row ← window_row r instance_row joins parameter;
          fn ← fn_ (wa_window_project_gen r);
          '(out, w2) ← WindowProject fn instance_order row parameter true (wa_append_slices r) w1;
          instance_loop r joins parameter n' (Next it) us' min' w2 (i32 (cnt + 1)) (tb_AddRow out output)
    end
  else Some output.

(** [WindowAggRunner::RunWindowAggOnKey]. *)
Definition RunWindowAggOnKey (r : WindowAggRunner) (parameter : Row) (instance_partition : PartitionHandler)
    (union_partitions : list (option PartitionHandler)) (joins : list (option DataHandler)) (key : list Z)
    (output : MemTableHandler Row) : option (MemTableHandler Row) :=
  instance_segment ← SortTable (wg_sort_gen (wa_instance_window_gen r))
                       (p_GetSegment instance_partition key) false;
  match instance_segment with
  | None => Some output
  | Some t =>
      o ← t_GetIterator fuel t;
      match o with
      | None => Some output
      | Some it =>
          us ← union_iterators union_partitions (wa_union_windows_gen r) key;
          let min_union_pos := match us with [] => -1 | _ => PickIteratorWithMininumKey us.*2 end in
          let window := set_exclude_current_time (wa_exclude_current_time r)
            (set_instance_not_in_window (wa_instance_not_in_window r)
              (HistoryWindow_new (wg_window_range (wa_instance_window_gen r)))) in
          instance_loop r joins parameter fuel (SeekToFirst it) us min_union_pos window
            (i32 (tb_GetCount output)) output
      end
  end.

(** The loop over the keys of [WindowAggRunner::Run]. *)
Fixpoint window_agg_keys (r : WindowAggRunner) (parameter : Row) (instance_partition : PartitionHandler)
    (union_partitions : list (option PartitionHandler)) (joins : list (option DataHandler))
    (n : nat) (w : WinIter) (output : MemTableHandler Row) : option (MemTableHandler Row) :=
  if wi_Valid w then
    match n with
    | O => None
    | S n' =>
        key ← wi_GetKey w;
        output' ← RunWindowAggOnKey r parameter instance_partition union_partitions joins key output;
        window_agg_keys r parameter instance_partition union_partitions joins n' (wi_Next w) output'
    end
  else Some output.

(** ** The window of a request *)

(** A union segment is positioned at the end of the range. *)
Definition request_iterator (segment : option TableHandler) (end_ : Z)
  : option (option AnyIter * IteratorStatus) :=
  match segment with
  | None => Some (None, IteratorStatus_none)
  | Some t =>
      o ← t_GetIterator fuel t;
      match o with
      | None => Some (None, IteratorStatus_none)
      | Some it =>
          let it := Seek end_ it in
          if negb (Valid it) then Some (Some it, IteratorStatus_none)
          else ts ← GetKey it; Some (Some it, IteratorStatus_new ts)
      end
  end.

Definition in_window (s : WindowPositionStatus) : bool := match s with kInWindow => true | _ => false end.
Definition exceeds (s : WindowPositionStatus) : bool := match s with kExceedWindow => true | _ => false end.

(** The loop of [RequestUnionWindow]. *)
Fixpoint request_loop (window_range : WindowRange) (start end_ rows_start_preceding max_size : Z) (n : nat)
    (us : list (option AnyIter * IteratorStatus)) (max_union_pos : Z) (cnt : Z)
    (window_table : MemTimeTableHandler Row) : option (MemTimeTableHandler Row) :=
  if max_union_pos =? -1 then Some window_table
  else
    match n with
    | O => None
    | S n' =>
        if (max_size >? 0) && (cnt >=? max_size) then Some window_table
        else
          u ← us !! Z.to_nat max_union_pos;
          let key := st_key u.2 in
          let range_status := GetWindowPositionStatus (cnt >? rows_start_preceding) (key >? end_)
                                (key <? start) window_range in
          if exceeds range_status then Some window_table
          else
            it ← u.1;
            '(table', cnt') ← (if in_window range_status
                               then v ← GetValue it; Some (AddRow key v window_table, u64 (cnt + 1))
                               else Some (window_table, cnt));
            us' ← advance_union (Z.to_nat max_union_pos) us;
            request_loop window_range start end_ rows_start_preceding max_size n' us'
              (PickIteratorWithMaximizeKey us'.*2) cnt' table'
    end.

Fixpoint mapM_opt {A B} (f : A -> option B) (l : list A) : option (list B) :=
  match l with
  | [] => Some []
  | x :: l' => y ← f x; ys ← mapM_opt f l'; Some (y :: ys)
  end.

(** [ts + offset] of [int64_t], at least 0; an overflow is undefined. *)
Definition clamp_ts (ts offset : Z) : option Z :=
  let sum := ts + offset in
  if (-9223372036854775808 <=? sum) && (sum <? 9223372036854775808)
  then Some (if sum <? 0 then 0 else sum) else None.

(** [RequestUnionRunner::RequestUnionWindow]. *)
Definition RequestUnionWindow (request : Row) (union_segments : list (option TableHandler)) (ts_gen : Z)
    (window_range : WindowRange) (output_request_row exclude_current_time : bool)
  : option (MemTimeTableHandler Row) :=
  '(start, end_, rows_start_preceding, max_size) ←
    (if ts_gen >=? 0
     then
       start ← clamp_ts ts_gen (start_offset window_range);
       end_ ← (if exclude_current_time && (0 =? end_offset window_range)
               then clamp_ts ts_gen (-1) else clamp_ts ts_gen (end_offset window_range));
       Some (start, end_, start_row window_range, Window.max_size window_range)
     else Some (0, UINT64_MAX, 0, 0));
  let request_key := if ts_gen >? 0 then ts_gen else 0 in
  us ← mapM_opt (fun s => request_iterator s end_) union_segments;
  let max_union_pos := match us with [] => -1 | _ => PickIteratorWithMaximizeKey us.*2 end in
  let range_status := GetWindowPositionStatus (0 >? rows_start_preceding) (end_offset window_range <? 0)
                        (request_key <? start) window_range in
  let table := if output_request_row then AddRow request_key request MemTimeTableHandler_new
               else MemTimeTableHandler_new in
  request_loop window_range start end_ rows_start_preceding max_size fuel us max_union_pos
    (if in_window range_status then 1 else 0) table.
End Runners.
