(* ===== verification/Runners.v ===== *)
(** * Runners: the operators of a query plan

    Models the [Run] methods of [src/vm/runner.cc] and the evaluation of a plan
    with and without caches. A runner is a node with its producers; sharing of
    runners in the plan shows in their ids. Compiled functions and [std::sort]
    are parameters. The runners that call a remote tablet are not part of the
    model. *)

#[local] Set Warnings "-register-all".

From stdpp Require Import base numbers option list gmap.
From S2P Require Import Prelude Layout TypeCodec Iterators MemCatalog Window Rows CatalogWrapper Handlers FnGenerators Generators Joins WindowRunners.

(** [RunnerContext]. *)
Record RunnerContext := mkRunnerContext {
  ctx_request : Row;
  ctx_requests : list Row;
  ctx_parameter : Row;
  ctx_cache : gmap Z (option DataHandler);
  ctx_batch_cache : gmap Z DataHandlerList
}.

Definition GetCache (id : Z) (ctx : RunnerContext) : option DataHandler :=
  match ctx_cache ctx !! id with Some d => d | None => None end.
Definition SetCache (id : Z) (d : option DataHandler) (ctx : RunnerContext) : RunnerContext :=
  mkRunnerContext (ctx_request ctx) (ctx_requests ctx) (ctx_parameter ctx)
    (<[id := d]> (ctx_cache ctx)) (ctx_batch_cache ctx).
Definition GetBatchCache (id : Z) (ctx : RunnerContext) : option DataHandlerList :=
  ctx_batch_cache ctx !! id.
Definition SetBatchCache (id : Z) (d : DataHandlerList) (ctx : RunnerContext) : RunnerContext :=
  mkRunnerContext (ctx_request ctx) (ctx_requests ctx) (ctx_parameter ctx)
    (ctx_cache ctx) (<[id := d]> (ctx_batch_cache ctx)).
Definition ClearCache (ctx : RunnerContext) : RunnerContext :=
  mkRunnerContext (ctx_request ctx) (ctx_requests ctx) (ctx_parameter ctx) ∅ (ctx_batch_cache ctx).
Definition SetRequest (request : Row) (ctx : RunnerContext) : RunnerContext :=
  mkRunnerContext request (ctx_requests ctx) (ctx_parameter ctx) (ctx_cache ctx) (ctx_batch_cache ctx).
Definition SetRequests (requests : list Row) (ctx : RunnerContext) : RunnerContext :=
  mkRunnerContext (ctx_request ctx) requests (ctx_parameter ctx) (ctx_cache ctx) (ctx_batch_cache ctx).

(** [RequestUnionRunner] without its input runners. *)
Record RequestUnionRunner := mkRequestUnionRunner {
  ru_windows_gen : list RequestWindowGenertor;
  ru_ts_gen : FnGenerator;
  ru_window_range : WindowRange;
  ru_exclude_current_time : bool;
  ru_output_request_row : bool
}.

(** The subclasses of [Runner] with their own fields. *)
Inductive RunnerOp :=
| OpData (d : option DataHandler)
| OpRequest
| OpGroup (partition_gen : FnGenerator)
| OpSort (sort_gen : SortGenerator)
| OpFilter (filter_gen : FilterGenerator)
| OpConstProject (project_gen : FnGenerator)
| OpTableProject (project_gen : FnGenerator)
| OpRowProject (project_gen : FnGenerator)
| OpSimpleProject (project_gen : FnGenerator)
| OpSelectSlice (slice : Z)
| OpGroupAgg (agg_gen : FnGenerator)
| OpAgg (agg_gen : FnGenerator)
| OpWindowAgg (r : WindowAggRunner)
| OpRequestUnion (r : RequestUnionRunner)
| OpPostRequestUnion (request_ts_gen : FnGenerator)
| OpLastJoin (join_gen : JoinGenerator)
| OpRequestLastJoin (join_gen : JoinGenerator) (output_right_only : bool)
| OpConcat (left_slices right_slices : Z)
| OpLimit.

Section Runners.
Context (spark : bool) (float_text double_text : Z -> list Z).
Context (std_sort : ((Z * Row) -> (Z * Row) -> bool) -> list (Z * Row) -> list (Z * Row)).
Context (fuel : nat).

(** The inputs are vectors of pointers; [input_at] is a checked access, whose
    inner [None] is a null pointer. *)
Definition input_at (inputs : list (option DataHandler)) (i : nat) : option DataHandler :=
  match inputs !! i with Some d => d | None => None end.

(** ** Projections *)

(** The function objects of the lazy wrappers cannot report an error: the
    result of a function that does not return is the empty row. *)
Definition project_fun (g : FnGenerator) (parameter row : Row) : Row :=
  default Row_default (ProjectGenerator_Gen g row parameter).

(** [SelectSliceRunner::GetSliceFn]. *)
Definition GetSliceFn (slice : Z) (row : Row) : Row :=
  if slice <? u64 (GetRowPtrCnt row) then Row_of_slice (GetSlice row slice) else Row_default.

Definition wrap_project (f : Row -> Row) (input : option DataHandler) : option DataHandler :=
  match input with
  | None => None
  | Some (HTable t) => Some (HTable (TProject f t))
  | Some (HPartition p) => Some (HPartition (PProject f p))
  | Some (HRow r) => Some (HRow (RProject f r))
  end.

(** The loop of [TableProjectRunner::Run]. *)
Fixpoint table_project_loop (g : FnGenerator) (limit_cnt : Z) (parameter : Row) (n : nat) (it : AnyIter)
    (cnt : Z) (output : MemTableHandler Row) : option (MemTableHandler Row) :=
  if Valid it then
    match n with
    | O => None
    | S n' =>
        if (limit_cnt >? 0) && (cnt >=? limit_cnt) then Some output
        else
          row ← GetValue it;
          r ← ProjectGenerator_Gen g row parameter;
          table_project_loop g limit_cnt parameter n' (Next it)
            (if limit_cnt >? 0 then i32 (cnt + 1) else cnt) (tb_AddRow r output)
    end
  else Some output.

Definition MemTableHandler_new : MemTableHandler Row := mkMemTableHandler [] kNoneOrder.

Definition TableProject_Run (g : FnGenerator) (limit_cnt : Z) (parameter : Row) (input : option DataHandler)
  : option (option DataHandler) :=
  match input with
  | Some (HTable t) =>
      o ← t_GetIterator fuel t;
      match o with
      | None => Some None
      | Some iter =>
          out ← table_project_loop g limit_cnt parameter fuel (SeekToFirst iter) 0 MemTableHandler_new;
          Some (Some (HTable (TMem out)))
      end
  | _ => Some None
  end.

(** [RowProjectRunner::Run] casts its input without a check. *)
Definition RowProject_Run (g : FnGenerator) (parameter : Row) (inputs : list (option DataHandler))
  : option (option DataHandler) :=
  match inputs with
  | [] => Some None
  | Some (HRow r) :: _ =>
      row ← r_GetValue r;
      out ← ProjectGenerator_Gen g row parameter;
      Some (Some (HRow (RMem out)))
  | _ => None
  end.

(** ** Aggregation *)

(** The loop of [GroupAggRunner::Run]. *)
Fixpoint group_agg_loop (g : FnGenerator) (limit_cnt : Z) (parameter : Row) (partition : PartitionHandler)
    (n : nat) (w : WinIter) (cnt : Z) (output : MemTableHandler Row) : option (option (MemTableHandler Row)) :=
  if wi_Valid w then
    match n with
    | O => None
    | S n' =>
        if (limit_cnt >? 0) && (cnt >=? limit_cnt) then Some (Some output)
        else
          o ← wi_GetValue fuel w;
          match o with
          | None => Some None
          | Some _ =>
              key ← wi_GetKey w;
              segment ← p_GetSegment partition key;
              fn ← fn_ g;
              row ← GroupbyProject fuel fn parameter segment;
              group_agg_loop g limit_cnt parameter partition n' (wi_Next w)
                (if limit_cnt >? 0 then i32 (cnt + 1) else cnt) (tb_AddRow row output)
          end
    end
  else Some (Some output).

Definition GroupAgg_Run (g : FnGenerator) (limit_cnt : Z) (parameter : Row) (input : option DataHandler)
  : option (option DataHandler) :=
  match input with
  | Some (HPartition p) =>
      match p_GetWindowIterator p with
      | None => Some None
      | Some iter =>
          out ← group_agg_loop g limit_cnt parameter p fuel (wi_SeekToFirst iter) 0 MemTableHandler_new;
          Some (option_map (fun t => HTable (TMem t)) out)
      end
  | _ => Some None
  end.

Definition Agg_Run (g : FnGenerator) (parameter : Row) (input : option DataHandler)
  : option (option DataHandler) :=
  match input with
  | Some (HTable t) =>
      fn ← fn_ g; row ← GroupbyProject fuel fn parameter t; Some (Some (HRow (RMem row)))
  | _ => Some None
  end.

(** ** Filter and limit *)

Definition Filter_Run (g : FilterGenerator) (parameter : Row) (input : option DataHandler)
  : option (option DataHandler) :=
  match input with
  | Some (HTable t) => Some (option_map HTable (Filter_table g (Some t) parameter))
  | Some (HPartition p) =>
      t ← Filter_partition spark float_text double_text g p parameter; Some (option_map HTable t)
  | _ => Some None
  end.

(** The loop of [LimitRunner::Run]: [while (cnt++ < limit_cnt_ && iter->Valid())]. *)
Fixpoint limit_loop (limit_cnt : Z) (n : nat) (it : AnyIter) (cnt : Z) (output : MemTableHandler Row)
  : option (MemTableHandler Row) :=
  if (cnt <? limit_cnt) && Valid it then
    match n with
    | O => None
    | S n' =>
        row ← GetValue it;
        limit_loop limit_cnt n' (Next it) (i32 (cnt + 1)) (tb_AddRow row output)
    end
  else Some output.

Definition Limit_Run (limit_cnt : Z) (input : option DataHandler) : option (option DataHandler) :=
  match input with
  | Some (HTable t) =>
      o ← t_GetIterator fuel t;
      match o with
      | None => Some None
      | Some iter =>
          out ← limit_loop limit_cnt fuel (SeekToFirst iter) 0 MemTableHandler_new;
          Some (Some (HTable (TMem out)))
      end
  | Some (HRow r) => Some input
  | Some (HPartition _) => Some None
  | None => Some None
  end.

(** ** Joins *)

(** [std::dynamic_pointer_cast<TableHandler>] of a row or a table. *)
Definition as_table (d : DataHandler) : option TableHandler :=
  match d with HTable t => Some t | _ => None end.

Definition LastJoin_Run (g : JoinGenerator) (parameter : Row) (lhs rhs : option DataHandler)
  : option (option DataHandler) :=
  match lhs, rhs with
  | Some l, Some r =>
      let partition_right : option (option DataHandler) :=
        if fn_Valid (jg_right_group_gen g)
        then p ← Partition spark fuel (jg_right_group_gen g) r parameter; Some (option_map HPartition p)
        else Some (Some r) in
      match l with
      | HTable lt =>
          r' ← partition_right;
          let output := mkMemTimeTableHandler [] (t_GetOrderType lt) in
          match r' with
          | None => Some None
          | Some (HPartition rp) =>
              '(ok, out) ← TableJoin_partition spark std_sort fuel g lt rp parameter output;
              Some (if (ok : bool) then Some (HTable (TTime out)) else None)
          | Some other =>
              '(ok, out) ← TableJoin_table std_sort fuel g lt (as_table other) parameter output;
              Some (if (ok : bool) then Some (HTable (TTime out)) else None)
          end
      | HPartition lp =>
          r' ← partition_right;
          let output := mkMemPartitionHandler [] (p_GetOrderType lp) in
          match r' with
          | None => Some None
          | Some (HPartition rp) =>
              '(ok, out) ← PartitionJoin_partition spark std_sort fuel g (Some lp) rp parameter output;
              Some (if (ok : bool) then Some (HPartition (PMem out)) else None)
          | Some other =>
              '(ok, out) ← PartitionJoin_table std_sort fuel g lp (as_table other) parameter output;
              Some (if (ok : bool) then Some (HPartition (PMem out)) else None)
          end
      | HRow lr =>
          row ← r_GetValue lr;
          out ← RowLastJoin spark std_sort fuel g row r parameter;
          Some (Some (HRow (RMem out)))
      end
  | _, _ => Some None
  end.

Definition RequestLastJoin_Run (g : JoinGenerator) (output_right_only : bool) (parameter : Row)
    (lhs rhs : option DataHandler) : option (option DataHandler) :=
  match lhs, rhs with
  | Some (HRow lr), Some r =>
      row ← r_GetValue lr;
      out ← (if output_right_only
             then RowLastJoinDropLeftSlices spark std_sort fuel g row r parameter
             else RowLastJoin spark std_sort fuel g row r parameter);
      Some (Some (HRow (RMem out)))
  | _, _ => Some None
  end.

Definition Concat_Run (left_slices right_slices : Z) (lhs rhs : option DataHandler) : option DataHandler :=
  match lhs with
  | Some (HRow l) =>
      Some (HRow (RCombine (Some l) left_slices
        (match rhs with Some (HRow r) => Some r | _ => None end) right_slices))
  | Some (HTable l) =>
      Some (HTable (TConcat (Some l) left_slices
        (match rhs with Some (HTable r) => Some r | _ => None end) right_slices))
  | _ => None
  end.

(** ** Windows *)

(** [WindowUnionGenerator::PartitionEach]; a null input is dereferenced. *)
Fixpoint PartitionEach (gens : list WindowGenerator) (inputs : list (option DataHandler)) (parameter : Row)
  : option (list (option PartitionHandler)) :=
  match gens, inputs with
  | [], _ => Some []
  | g :: gens', Some d :: inputs' =>
      p ← Partition spark fuel (wg_partition_gen g) d parameter;
      ps ← PartitionEach gens' inputs' parameter;
      Some (p :: ps)
  | _, _ => None
  end.

(** Running input runners; the context carries the caches. *)
Definition RunInputs : Type := RunnerContext -> option (list (option DataHandler) * RunnerContext).

Definition WindowAgg_Run (r : WindowAggRunner) (ctx : RunnerContext) (input : option DataHandler)
    (union_inputs join_inputs : RunInputs) : option (option DataHandler * RunnerContext) :=
  let parameter := ctx_parameter ctx in
  match input with
  | None => Some (None, ctx)
  | Some d =>
      o ← Partition spark fuel (wg_partition_gen (wa_instance_window_gen r)) d parameter;
      match o with
      | None => Some (None, ctx)
      | Some instance_partition =>
          match p_GetWindowIterator instance_partition with
          | None => Some (None, ctx)
          | Some iter =>
              '(unions, ctx1) ← union_inputs ctx;
              union_partitions ← PartitionEach (wa_union_windows_gen r) unions parameter;
              '(joins, ctx2) ← join_inputs ctx1;
              out ← window_agg_keys spark std_sort fuel r parameter instance_partition union_partitions
                      joins fuel (wi_SeekToFirst iter) MemTableHandler_new;
              Some (Some (HTable (TMem out)), ctx2)
          end
      end
  end.

(** [RequestWindowUnionGenerator::GetRequestWindows]. *)
Fixpoint GetRequestWindows (gens : list RequestWindowGenertor) (inputs : list (option DataHandler))
    (row parameter : Row) : option (list (option TableHandler)) :=
  match gens, inputs with
  | [], _ => Some []
  | g :: gens', d :: inputs' =>
      t ← GetRequestWindow spark std_sort fuel g row parameter d;
      ts ← GetRequestWindows gens' inputs' row parameter;
      Some (t :: ts)
  | _ :: _, [] => None
  end.

Definition RequestUnion_Run (r : RequestUnionRunner) (ctx : RunnerContext) (lhs rhs : option DataHandler)
    (union_inputs : RunInputs) : option (option DataHandler * RunnerContext) :=
  match lhs, rhs with
  | Some (HRow lr), Some _ =>
      request ← r_GetValue lr;
      ts_gen ← (if fn_Valid (ru_ts_gen r) then OrderGenerator_Gen (ru_ts_gen r) request else Some (-1));
      '(unions, ctx1) ← union_inputs ctx;
      segments ← GetRequestWindows (ru_windows_gen r) unions request (ctx_parameter ctx);
      t ← RequestUnionWindow fuel request segments ts_gen (ru_window_range r) (ru_output_request_row r)
            (ru_exclude_current_time r);
      Some (Some (HTable (TTime t)), ctx1)
  | _, _ => Some (None, ctx)
  end.

(** [PostRequestUnionRunner::Run]; a window that is a partition is outside the
    model. *)
Definition PostRequestUnion_Run (request_ts_gen : FnGenerator) (lhs rhs : option DataHandler)
  : option (option DataHandler) :=
  match lhs, rhs with
  | Some (HRow lr), Some d =>
      request_row ← r_GetValue lr;
      request_key ← OrderGenerator_Gen request_ts_gen request_row;
      match d with
      | HTable t => Some (Some (HTable (TRequestUnion (u64 request_key) request_row t)))
      | HRow _ => Some None
      | HPartition _ => None
      end
  | _, _ => Some None
  end.

(** ** One step *)

(** [Run(ctx, inputs)] of every runner. *)
Definition Run (op : RunnerOp) (limit_cnt : Z) (ctx : RunnerContext) (inputs : list (option DataHandler))
    (union_inputs join_inputs : RunInputs) : option (option DataHandler * RunnerContext) :=
  let parameter := ctx_parameter ctx in
  let pure (r : option (option DataHandler)) := d ← r; Some (d, ctx) in
  let input := input_at inputs 0 in
  let second := input_at inputs 1 in
  match op with
  | OpData d => Some (d, ctx)
  | OpRequest => Some (Some (HRow (RMem (ctx_request ctx))), ctx)
  | OpGroup g =>
      match input with
      | None => Some (None, ctx)
      | Some d => pure (p ← Partition spark fuel g d parameter; Some (option_map HPartition p))
      end
  | OpSort g => pure (Sort std_sort fuel g input false)
  | OpFilter g => pure (Filter_Run g parameter input)
  | OpConstProject g =>
      pure (row ← ConstProjectGenerator_Gen g parameter;
            Some (Some (HTable (TMem (tb_AddRow row MemTableHandler_new)))))
  | OpTableProject g => pure (TableProject_Run g limit_cnt parameter input)
  | OpRowProject g => pure (RowProject_Run g parameter inputs)
  | OpSimpleProject g => Some (wrap_project (project_fun g parameter) input, ctx)
  | OpSelectSlice slice => Some (wrap_project (GetSliceFn slice) input, ctx)
  | OpGroupAgg g => pure (GroupAgg_Run g limit_cnt parameter input)
  | OpAgg g => pure (Agg_Run g parameter input)
  | OpWindowAgg r => WindowAgg_Run r ctx input union_inputs join_inputs
  | OpRequestUnion r => RequestUnion_Run r ctx input second union_inputs
  | OpPostRequestUnion g => pure (PostRequestUnion_Run g input second)
  | OpLastJoin g => pure (LastJoin_Run g parameter input second)
  | OpRequestLastJoin g right_only => pure (RequestLastJoin_Run g right_only parameter input second)
  | OpConcat ls rs =>
      Some (if (length inputs <? 2)%nat then None else Concat_Run ls rs input second, ctx)
  | OpLimit => pure (Limit_Run limit_cnt input)
  end.

(** ** Plans *)

(** A runner: its id, whether its result is cached and whether it is the same
    for all rows of a batch, the limit, its own fields, its producers and the
    runners of its window unions and window joins. *)
Inductive Runner := mkRunner (id : Z) (need_cache need_batch_cache : bool) (limit_cnt : Z)
  (op : RunnerOp) (producers union_runners join_runners : list Runner).

Definition r_id (r : Runner) : Z := let '(mkRunner i _ _ _ _ _ _ _) := r in i.

(** A list of runners, run from the first to the last ([RunInputs]) or from the
    last to the first (the producers). *)
Definition run_forward (run : Runner -> RunnerContext -> option (option DataHandler * RunnerContext))
  : list Runner -> RunInputs :=
  fix go l ctx :=
    match l with
    | [] => Some ([], ctx)
    | r :: l' =>
        '(d, ctx1) ← run r ctx;
        '(ds, ctx2) ← go l' ctx1;
        Some (d :: ds, ctx2)
    end.
Definition run_backward (run : Runner -> RunnerContext -> option (option DataHandler * RunnerContext))
  : list Runner -> RunInputs :=
  fix go l ctx :=
    match l with
    | [] => Some ([], ctx)
    | r :: l' =>
        '(ds, ctx1) ← go l' ctx;
        '(d, ctx2) ← run r ctx1;
        Some (d :: ds, ctx2)
    end.

(** [Runner::RunWithCache]. *)
Fixpoint RunWithCache (r : Runner) (ctx : RunnerContext) : option (option DataHandler * RunnerContext) :=
  match r with
  | mkRunner id need_cache _ limit_cnt op producers unions joins =>
      match (if need_cache then GetCache id ctx else None) with
      | Some cached => Some (Some cached, ctx)
      | None =>
          '(inputs, ctx1) ← run_backward RunWithCache producers ctx;
          '(res, ctx2) ← Run op limit_cnt ctx1 inputs
                           (run_forward RunWithCache unions) (run_forward RunWithCache joins);
          Some (res, if need_cache then SetCache id res ctx2 else ctx2)
      end
  end.

(** ** Batches of requests *)

(** The producers of a batch, run from the last to the first. *)
Definition batch_backward (run : Runner -> RunnerContext -> option (DataHandlerList * RunnerContext)) :=
  fix go l ctx : option (list DataHandlerList * RunnerContext) :=
    match l with
    | [] => Some ([], ctx)
    | r :: l' =>
        '(ds, ctx1) ← go l' ctx;
        '(d, ctx2) ← run r ctx1;
        Some (d :: ds, ctx2)
    end.

(** The loop over the requests of [Runner::BatchRequestRun]; [n] requests from
    position [idx]. *)
Fixpoint batch_loop (need_batch_cache : bool) (request_size : Z)
    (run : list (option DataHandler) -> RunnerContext -> option (option DataHandler * RunnerContext))
    (batch_inputs : list DataHandlerList) (n : nat) (idx : Z) (outputs : list (option DataHandler))
    (ctx : RunnerContext) : option (DataHandlerList * RunnerContext) :=
  match n with
  | O => Some (DVector outputs, ctx)
  | S n' =>
      '(res, ctx1) ← run ((fun l => dl_Get l idx) <$> batch_inputs) ctx;
      if need_batch_cache then Some (DRepeater res request_size, ctx1)
      else batch_loop need_batch_cache request_size run batch_inputs n' (idx + 1) (dl_Add res outputs) ctx1
  end.

(** [BatchRequestRun] of [Runner], [DataRunner] and [RequestRunner]. *)
Fixpoint BatchRequestRun (r : Runner) (ctx : RunnerContext) : option (DataHandlerList * RunnerContext) :=
  match r with
  | mkRunner id need_cache need_batch_cache limit_cnt op producers unions joins =>
      match (if need_cache then GetBatchCache id ctx else None) with
      | Some cached => Some (cached, ctx)
      | None =>
          let request_size := Z.of_nat (length (ctx_requests ctx)) in
          '(res, ctx2) ←
            match op with
            | OpData d => Some (DRepeater d request_size, ctx)
            | OpRequest => Some (DVector ((fun row => Some (HRow (RMem row))) <$> ctx_requests ctx), ctx)
            | _ =>
                '(batch_inputs, ctx1) ← batch_backward BatchRequestRun producers ctx;
                batch_loop need_batch_cache request_size
                  (fun inputs c => Run op limit_cnt c inputs
                     (run_forward RunWithCache unions) (run_forward RunWithCache joins))
                  batch_inputs (length (ctx_requests ctx)) 0 [] ctx1
            end;
          Some (res, if need_cache then SetBatchCache id res ctx2 else ctx2)
      end
  end.

(** ** Results *)

(** [Runner::ExtractRows] of one handler; the status and the rows appended. *)
Definition ExtractRows (h : option DataHandler) (out_rows : list Row) : option (bool * list Row) :=
  match h with
  | Some (HTable t) =>
      o ← t_GetIterator fuel t;
      match o with
      | None => Some (false, out_rows)
      | Some iter =>
          rows ← for_rows (fun _ row rows => Some (rows ++ [row])) fuel (SeekToFirst iter) out_rows;
          Some (true, rows)
      end
  | Some (HRow r) => row ← r_GetValue r; Some (true, out_rows ++ [row])
  | _ => Some (false, out_rows)
  end.

(** [Runner::ExtractRow]; the status and the row. *)
Definition ExtractRow (h : DataHandler) (out_row : Row) : option (bool * Row) :=
  match h with
  | HTable t =>
      o ← t_GetIterator fuel t;
      match o with
      | None => Some (false, out_row)
      | Some iter =>
          let iter := SeekToFirst iter in
          if Valid iter then row ← GetValue iter; Some (true, row) else Some (false, out_row)
      end
  | HRow r => row ← r_GetValue r; Some (true, row)
  | HPartition _ => Some (false, out_row)
  end.

(** [Runner::ExtractRows] of a batch, from position [idx]: a missing result is
    an empty row. *)
Fixpoint extract_batch (handlers : DataHandlerList) (n : nat) (idx : Z) (out_rows : list Row)
  : option (bool * list Row) :=
  match n with
  | O => Some (true, out_rows)
  | S n' =>
      match dl_Get handlers idx with
      | None => extract_batch handlers n' (idx + 1) (out_rows ++ [Row_default])
      | Some h =>
          '(ok, rows) ← ExtractRows (Some h) out_rows;
          if (ok : bool) then extract_batch handlers n' (idx + 1) rows else Some (false, rows)
      end
  end.
Definition ExtractRows_batch (handlers : option DataHandlerList) (out_rows : list Row)
  : option (bool * list Row) :=
  match handlers with
  | None => Some (false, out_rows)
  | Some l => extract_batch l (Z.to_nat (dl_GetSize l)) 0 out_rows
  end.
End Runners.
