(* ===== verification/GeneratorsProof.v ===== *)
(** * Partitioning, sorting and filtering are what their names say

    The generators of [Generators] against the contents of the tables they
    work on. *)

From stdpp Require Import base numbers option list sorting.
From S2P Require Import Prelude Layout TypeCodec Iterators MemCatalog MemCatalogProof Window Rows CatalogWrapper Handlers HandlersProof FnGenerators Generators.

(** ** Grouping *)

Section Groups.
Context (spark : bool) (fuel : nat).

(** A key generator that computes a key for every row of a list. *)
Definition keyed (g : FnGenerator) (parameter : Row) (key : Row -> list Z) (l : list (Z * Row)) : Prop :=
  forall e, e ∈ l -> KeyGenerator_Gen spark g e.2 parameter = Some (key e.2).

(** The rows with a key. *)
Definition with_key (key : Row -> list Z) (k : list Z) (l : list (Z * Row)) : list (Z * Row) :=
  select (fun row => bool_decide (key row = k)) l.

Lemma rows_of_with_key (key : Row -> list Z) k l :
  rows_of k ((fun e => (key e.2, e.1, e.2)) <$> l) = with_key key k l.
Proof.
  unfold rows_of, with_key. induction l as [|e l IH]; [done|]. cbn [fmap list_fmap].
  rewrite filter_cons, select_cons. cbn [fst]. case_decide; case_bool_decide; try done.
  cbn. rewrite IH. by destruct e.
Qed.

Lemma foldl_add_rows (key : Row -> list Z) l p :
  foldl (fun p e => (ph_AddRow (key e.2) e.1 e.2 p).2) p l =
  add_rows ((fun e => (key e.2, e.1, e.2)) <$> l) p.
Proof. unfold add_rows. revert p. induction l as [|e l IH]; intros p; [done|]. apply IH. Qed.

Lemma partition_table_add g t parameter key l :
  fn_Valid g = true -> t_ok fuel t -> entries t = Some l -> (length l <= fuel)%nat ->
  keyed g parameter key l ->
  Partition_table spark fuel g t parameter =
  Some (Some (PMem (ph_SetOrderType (t_GetOrderType t)
    (add_rows ((fun e => (key e.2, e.1, e.2)) <$> l) MemPartitionHandler_new)))).
Proof.
  intros Hv Hok El Hf Hk. unfold Partition_table. rewrite Hv. cbn [negb].
  destruct (table_loop (fun k row p => keys ← KeyGenerator_Gen spark g row parameter;
    Some (ph_AddRow keys k row p).2) fuel t l MemPartitionHandler_new Hok El Hf) as (it & -> & E).
  cbn [mbind option_bind]. rewrite E.
  rewrite (fold_rows_total _ (fun k row p => (ph_AddRow (key row) k row p).2))
    by (intros e p He; by rewrite (Hk e He)).
  cbn [mbind option_bind]. by rewrite foldl_add_rows.
Qed.

Lemma partition_table_segments g t parameter key l :
  fn_Valid g = true -> t_ok fuel t -> entries t = Some l -> (length l <= fuel)%nat ->
  keyed g parameter key l ->
  exists p, Partition_table spark fuel g t parameter = Some (Some (PMem p)) /\
    ph_order_type p = t_GetOrderType t /\ keys_sorted (ph_partitions p) /\
    forall k, seg_get k (ph_partitions p) =
      match with_key key k l with [] => None | rows => Some rows end.
Proof.
  intros Hv Hok El Hf Hk. rewrite (partition_table_add g t parameter key l) by done.
  eexists; split; [done|]. cbn. split_and!; [done|apply add_rows_sorted; constructor|].
  intros k. rewrite add_rows_get, rows_of_with_key. cbn. by destruct (with_key key k l).
Qed.

(** Grouping a table. The partition has a segment for a key exactly when
    the table has rows with this key, and the segment holds these rows with
    their time stamps in the order of the table; the order of the table is
    that of the segments; the segments are in descending order of the keys. *)
Theorem partition_table_groups g t parameter key l :
  fn_Valid g = true -> t_ok fuel t -> entries t = Some l -> (length l <= fuel)%nat ->
  keyed g parameter key l ->
  exists p, Partition spark fuel g (HTable t) parameter = Some (Some (PMem p)) /\
    p_GetOrderType (PMem p) = t_GetOrderType t /\ keys_sorted (ph_partitions p) /\
    forall k, p_segment (PMem p) k =
      match with_key key k l with [] => None | rows => Some rows end.
Proof. apply partition_table_segments. Qed.
End Groups.

(** ** Sorting *)

Section Sorting.
Context (std_sort : ((Z * Row) -> (Z * Row) -> bool) -> list (Z * Row) -> list (Z * Row)).
Context (Hsort : sorts std_sort) (fuel : nat).

(** An order generator that computes a time stamp for every row of a list. *)
Definition ordered (g : FnGenerator) (ts : Row -> Z) (l : list (Z * Row)) : Prop :=
  forall e, e ∈ l -> OrderGenerator_Gen g e.2 = Some (ts e.2).

(** The rows under the time stamps of the order. *)
Definition restamped (ts : Row -> Z) (l : list (Z * Row)) : list (Z * Row) :=
  (fun e => (u64 (ts e.2), e.2)) <$> l.

Lemma foldl_AddRow (f : Z * Row -> Z) l h :
  foldl (fun h e => AddRow (f e) e.2 h) h l = th_set (th_table h ++ ((fun e => (f e, e.2)) <$> l)) h.
Proof.
  revert h. induction l as [|e l IH]; intros h; cbn; [rewrite app_nil_r; by destruct h|].
  rewrite IH. cbn. by rewrite <- app_assoc.
Qed.

Lemma sort_table_restamped g t reverse ts l :
  sg_is_valid g = true -> fn_Valid (sg_order_gen g) = true ->
  t_ok fuel t -> entries t = Some l -> (length l <= fuel)%nat -> ordered (sg_order_gen g) ts l ->
  let is_asc := xorb reverse (sg_is_asc g) in
  exists h, Sort_table std_sort fuel g (Some t) reverse = Some (Some (TTime h)) /\
    th_order_type h = (if is_asc then kAscOrder else kDescOrder) /\
    Permutation (th_table h) (restamped ts l) /\ order_true (th_order_type h) (th_table h).
Proof.
  intros Hv Hg Hok El Hf Ho is_asc. unfold Sort_table. rewrite Hv, Hg. cbn [negb andb].
  edestruct (table_loop (fun key row out =>
     k ← (ts ← OrderGenerator_Gen (sg_order_gen g) row; Some (u64 ts)); Some (AddRow k row out))
     fuel t l (mkMemTimeTableHandler [] (t_GetOrderType t)) Hok El Hf) as (it & -> & E).
  cbn [mbind option_bind] in *. rewrite E.
  rewrite (fold_rows_total _ (fun _ row h => AddRow (u64 (ts row)) row h))
    by (intros e h He; by rewrite (Ho e He)).
  cbn [mbind option_bind]. rewrite (foldl_AddRow (fun e => u64 (ts e.2))).
  assert ((if reverse then negb (sg_is_asc g) else sg_is_asc g) = is_asc) as -> by
    (unfold is_asc; by destruct reverse, (sg_is_asc g)).
  destruct (sort_order std_sort Hsort is_asc (restamped ts l)) as [H1 H2].
  eexists; split; [done|]. unfold th_Sort. by destruct is_asc.
Qed.

(** Sorting a table by an order expression gives every row the time stamp
    of the expression, keeps the rows, and puts them in the requested order
    (the opposite one when it is reversed), which is also the order the result
    claims to have; ties in any order. *)
Theorem sort_table_sorts g t reverse ts l :
  sg_is_valid g = true -> fn_Valid (sg_order_gen g) = true ->
  t_ok fuel t -> entries t = Some l -> (length l <= fuel)%nat -> ordered (sg_order_gen g) ts l ->
  let is_asc := xorb reverse (sg_is_asc g) in
  exists h, Sort std_sort fuel g (Some (HTable t)) reverse = Some (Some (HTable (TTime h))) /\
    th_order_type h = (if is_asc then kAscOrder else kDescOrder) /\
    Permutation (th_table h) (restamped ts l) /\ order_true (th_order_type h) (th_table h).
Proof.
  intros Hv Hg Hok El Hf Ho is_asc. unfold Sort. rewrite Hv, Hg. cbn [negb orb].
  destruct (sort_table_restamped g t reverse ts l Hv Hg Hok El Hf Ho) as (h & -> & ?).
  by exists h.
Qed.
End Sorting.

(** ** Sorting a partition does not return *)

Lemma sort_segments_stuck fuel g w :
  wi_Valid w = true -> wi_GetValue fuel w <> Some None ->
  forall n p, sort_segments fuel g n w p = None.
Proof.
  intros Hv Hn. induction n as [|n IH]; intros p; cbn [sort_segments]; rewrite Hv; [done|].
  destruct (wi_GetValue fuel w) as [[it|]|]; [|done|done]. cbn [mbind option_bind].
  destruct (wi_GetKey w); [|done]. cbn [mbind option_bind].
  destruct (restamp fuel g l it p); [|done]. cbn [mbind option_bind]. apply IH.
Qed.

(** The loop of [SortGenerator::Sort] over the segments of a partition does
    not advance: for every partition with a segment there is no number of steps
    after which sorting it returns, although every single pass over the first
    segment succeeds. *)
Theorem sort_partition_diverges std_sort g k rows m order ts :
  let p := PMem (mkMemPartitionHandler ((k, rows) :: m) order) in
  sg_is_valid g = true -> fn_Valid (sg_order_gen g) = true -> ordered (sg_order_gen g) ts rows ->
  (forall fuel reverse, Sort std_sort fuel g (Some (HPartition p)) reverse = None) /\
  (forall fuel out, (length rows <= fuel)%nat ->
     exists out', restamp fuel (sg_order_gen g) k (mkAnyIter STime (MemTimeTableIterator_new rows)) out =
       Some out').
Proof.
  intros p Hv Hg Ho. split.
  - intros fuel reverse. unfold Sort, Sort_partition. rewrite Hv, Hg. cbn [negb orb andb].
    cbn [p p_GetWindowIterator]. by rewrite sort_segments_stuck.
  - intros fuel out Hf.
    pose proof (time_presents rows) as (Hi & Ea & _). unfold restamp.
    rewrite for_rows_rest; rewrite ?first_rest, ?Ea by done; [|by apply first_ok|done].
    rewrite (fold_rows_total _ (fun _ row p => (ph_AddRow k (u64 (ts row)) row p).2)); [by eexists|].
    intros e p' He. by rewrite (Ho e He).
Qed.

(** ** Concrete plans *)

Definition ex_order : FnGenerator :=
  mkFnGenerator (Some (fun _ _ _ _ => (1, None))) [mkcol [97] kInt64]
    (RowView.RowView_of_schema false [mkcol [97] kInt64]) [0].

Lemma sort_partition_diverges_witness :
  Sort merge_sort_by 100 (mkSortGenerator true true ex_order)
    (Some (HPartition (PMem (mkMemPartitionHandler [([97], ex_rows)] kNoneOrder)))) false = None.
Proof.
  apply (sort_partition_diverges merge_sort_by (mkSortGenerator true true ex_order) [97] ex_rows []
    kNoneOrder (fun _ => -1)); [done|done|].
  intros e He. repeat (apply elem_of_cons in He as [->|He]; [done|]). by apply elem_of_nil in He.
Defined.

Lemma sort_table_sorts_witness :
  exists h, Sort merge_sort_by 5 (mkSortGenerator true true ex_order)
      (Some (HTable (TTime (mkMemTimeTableHandler ex_rows kDescOrder)))) true =
    Some (Some (HTable (TTime h))) /\ th_order_type h = kDescOrder /\
    Permutation (th_table h) (restamped (fun _ => -1) ex_rows).
Proof.
  destruct (sort_table_sorts merge_sort_by merge_sort_sorts 5 (mkSortGenerator true true ex_order)
    (TTime (mkMemTimeTableHandler ex_rows kDescOrder)) true (fun _ => -1) ex_rows)
    as (h & ? & ? & ? & _); try done; [cbn; lia| |by exists h].
  intros e He. repeat (apply elem_of_cons in He as [->|He]; [done|]). by apply elem_of_nil in He.
Defined.

(** A key generator without key columns: one group. *)
Definition ex_key : FnGenerator :=
  mkFnGenerator (Some (fun _ _ _ _ => (1, None))) [] RowView.RowView_default [].

Lemma partition_table_groups_witness :
  exists p, Partition false 5 ex_key (HTable (TTime (mkMemTimeTableHandler ex_rows kDescOrder))) Row_default =
    Some (Some (PMem p)) /\ p_segment (PMem p) [] = Some ex_rows /\ p_segment (PMem p) [1] = None.
Proof.
  destruct (partition_table_groups false 5 ex_key (TTime (mkMemTimeTableHandler ex_rows kDescOrder))
    Row_default (fun _ => []) ex_rows) as (p & ? & _ & _ & H); try done; [cbn; lia| |].
  - intros e He. repeat (apply elem_of_cons in He as [->|He]; [done|]). by apply elem_of_nil in He.
  - exists p. split_and!; [done|by rewrite H|by rewrite H].
Defined.
