(* ===== verification/JoinsProof.v ===== *)
(** * Last joins pick the right row

    The scan of the right side returns the first row that matches, so with a
    right order the newest one; joining through a partition of the right side
    gives the same rows as scanning the whole right side for every left row. *)

From stdpp Require Import base numbers option list sorting.
From S2P Require Import Prelude Layout TypeCodec RowBuilder RowRead Iterators MemCatalog MemCatalogProof Window Rows CatalogWrapper Handlers HandlersProof FnGenerators Generators GeneratorsProof Joins WindowRunners Runners.

(** ** Joined rows *)

Lemma join_rows_total (ls rs : nat) l r :
  (0 < ls)%nat -> (0 < rs)%nat -> Z.of_nat (ls + rs) < 18446744073709551616 ->
  Row_concat (Z.of_nat ls) l (Z.of_nat rs) r = Some (join_rows (Z.of_nat ls) (Z.of_nat rs) l r).
Proof.
  intros H1 H2 H3. destruct (Row_concat_lookup ls rs l r H1 H2 H3) as (x & E & _).
  unfold join_rows. by rewrite E.
Qed.

Lemma select_and (p q : Row -> bool) l :
  select (fun r => p r && q r) l = select q (select p l).
Proof.
  induction l as [|e l IH]; [done|]. rewrite !select_cons. destruct (p e.2); cbn [andb].
  - rewrite select_cons. by destruct (q e.2); rewrite IH.
  - done.
Qed.

Lemma select_true (l : list (Z * Row)) : select (fun _ => true) l = l.
Proof. induction l as [|e l IH]; [done|]. rewrite select_cons. by rewrite IH. Qed.

Section Loops.
Context (spark : bool) (parameter : Row) (cond_gen : FnGenerator).
Context (join : Row -> option Row) (j : Row -> Row) (cond : Row -> bool).

(** The condition is computed for the joined rows; without a condition every
    row matches. *)
Definition decides (l : list (Z * Row)) : Prop :=
  forall e, e ∈ l -> join e.2 = Some (j e.2) /\
    (if fn_Valid cond_gen
     then ConditionGenerator_Gen cond_gen (j e.2) parameter = Some (cond (j e.2))
     else cond (j e.2) = true).

Definition matches (r : Row) : bool := cond (j r).

Lemma last_join_loop_spec n : forall it,
  it_ok it -> (length (rest it) <= n)%nat -> decides (rest it) -> fn_Valid cond_gen = true ->
  last_join_loop join cond_gen parameter n it =
  Some (j <$> (snd <$> head (select matches (rest it)))).
Proof.
  induction n as [|n IH]; intros it Ho Hf Hd Hv; cbn [last_join_loop];
    destruct (rest it) as [|e l] eqn:E; try by rewrite (exhausted _ Ho E).
  - cbn in Hf. lia.
  - rewrite (valid_cons _ _ _ Ho E), (value_rest _ _ _ Ho E). cbn [mbind option_bind].
    destruct (Hd e ltac:(by left)) as [-> Hc]. rewrite Hv in Hc. cbn [mbind option_bind].
    rewrite Hc. cbn [mbind option_bind]. rewrite select_cons. unfold matches at 1.
    destruct (cond (j e.2)); [done|].
    destruct (rest_next _ _ _ Ho E) as [Er Ho']. cbn in Hf. rewrite <- Er. apply IH; try done.
    + rewrite Er. lia.
    + rewrite Er. intros e' He'. apply Hd. by right.
Qed.

Lemma keyed_join_loop_spec g key left_key n : forall it,
  jg_condition_gen g = cond_gen -> fn_Valid (jg_right_group_gen g) = true ->
  fn_Valid (jg_left_key_gen g) = true ->
  it_ok it -> (length (rest it) <= n)%nat -> decides (rest it) ->
  keyed spark (jg_right_group_gen g) parameter key (rest it) ->
  keyed_join_loop spark g join left_key parameter n it =
  Some (j <$> (snd <$> head (select matches (with_key key left_key (rest it))))).
Proof.
  induction n as [|n IH]; intros it Eg Hr Hl Ho Hf Hd Hk; cbn [keyed_join_loop];
    destruct (rest it) as [|e l] eqn:E; try by rewrite (exhausted _ Ho E).
  { cbn in Hf. lia. }
  rewrite (valid_cons _ _ _ Ho E), (value_rest _ _ _ Ho E). cbn [mbind option_bind].
  rewrite Hr, Hl, (Hk e ltac:(by left)). cbn [mbind option_bind andb]. unfold with_key. rewrite select_cons.
  destruct (rest_next _ _ _ Ho E) as [Er Ho']. cbn in Hf.
  assert (keyed_join_loop spark g join left_key parameter n (Next it) =
    Some (j <$> (snd <$> head (select matches (with_key key left_key l))))) as HI.
  { rewrite <- Er. apply IH; try done; rewrite Er; [lia|intros e' He'; apply Hd; by right|].
    intros e' He'. apply Hk. by right. }
  destruct (decide (key e.2 = left_key)) as [Ek|Ek].
  - rewrite !bool_decide_true by done. cbn [negb]. destruct (Hd e ltac:(by left)) as [-> Hc].
    cbn [mbind option_bind]. rewrite select_cons. unfold matches at 1. rewrite Eg.
    destruct (fn_Valid cond_gen); cbn [negb]; rewrite Hc; [|done]. cbn [mbind option_bind].
    destruct (cond (j e.2)); [done|]. exact HI.
  - rewrite (bool_decide_false (key e.2 = left_key)), (bool_decide_false (left_key = key e.2)) by
      (done || by intros ->). cbn [negb]. exact HI.
Qed.
End Loops.

(** ** Joining one row *)

Section OneRow.
Context (spark : bool) (std_sort : ((Z * Row) -> (Z * Row) -> bool) -> list (Z * Row) -> list (Z * Row)).
Context (Hsort : sorts std_sort) (fuel : nat) (ls rs : nat).
Context (Hls : (0 < ls)%nat) (Hrs : (0 < rs)%nat) (Hsl : Z.of_nat (ls + rs) < 18446744073709551616).
Context (parameter : Row) (cond_gen : FnGenerator) (cond : Row -> bool).

Abbreviation join l := (Row_concat (Z.of_nat ls) l (Z.of_nat rs)).
Abbreviation joined l := (join_rows (Z.of_nat ls) (Z.of_nat rs) l).

(** The condition is computed for the rows joined with a left row. *)
Definition decides_for (left_row : Row) (l : list (Z * Row)) : Prop :=
  forall e, e ∈ l ->
    if fn_Valid cond_gen
    then ConditionGenerator_Gen cond_gen (joined left_row e.2) parameter = Some (cond (joined left_row e.2))
    else cond (joined left_row e.2) = true.

Lemma decides_for_decides left_row l :
  decides_for left_row l -> decides parameter cond_gen (join left_row) (joined left_row) cond l.
Proof. intros H e He. split; [by apply join_rows_total|by apply H]. Qed.

(** The first row of a list that matches, or the empty row. *)
Definition first_match (left_row : Row) (l : list (Z * Row)) : Row :=
  from_option snd Row_default (head (select (fun r => cond (joined left_row r)) l)).

(** Scanning a table whose rows are [l]. *)
Lemma scan_table left_row o t l sort :
  t_ok fuel t -> entries t = Some l -> (length l <= fuel)%nat -> decides_for left_row l ->
  Sort_table std_sort fuel sort o true = Some (Some t) ->
  Runner_RowLastJoinTable std_sort fuel (Z.of_nat ls) left_row (Z.of_nat rs) o parameter sort cond_gen =
  Some (joined left_row (first_match left_row l)).
Proof.
  intros Hok El Hf Hd Hs. unfold Runner_RowLastJoinTable. rewrite Hs. cbn [mbind option_bind].
  destruct (table_iterator fuel t l Hok El) as (it & -> & _ & _ & Ho & Er). cbn [mbind option_bind].
  unfold first_match. destruct l as [|e l].
  { rewrite (exhausted _ Ho Er). by apply join_rows_total. }
  rewrite (valid_cons _ _ _ Ho Er). cbn [negb].
  destruct (fn_Valid cond_gen) eqn:Hv; cbn [negb].
  - rewrite (last_join_loop_spec parameter cond_gen (join left_row) (joined left_row) cond)
      by (rewrite ?Er; done || by apply decides_for_decides).
    rewrite Er. cbn [mbind option_bind]. fold (matches (joined left_row) cond).
    unfold matches. destruct (select _ (e :: l)) as [|e' s]; [|done]. by apply join_rows_total.
  - rewrite (value_rest _ _ _ Ho Er). cbn [mbind option_bind].
    pose proof (Hd e ltac:(by left)) as Hc. rewrite Hv in Hc.
    rewrite select_cons, Hc. by apply join_rows_total.
Qed.

Lemma scan_null left_row o t sort :
  t_ok fuel t -> entries t = None -> Sort_table std_sort fuel sort o true = Some (Some t) ->
  Runner_RowLastJoinTable std_sort fuel (Z.of_nat ls) left_row (Z.of_nat rs) o parameter sort cond_gen =
  Some (joined left_row Row_default).
Proof.
  intros Hok El Hs. unfold Runner_RowLastJoinTable. rewrite Hs. cbn [mbind option_bind].
  rewrite (table_null fuel t Hok El). by apply join_rows_total.
Qed.

Lemma first_match_spec left_row l (R : Z * Row -> Z * Row -> Prop) :
  (forall a, R a a) -> StronglySorted R l ->
  (Forall (fun e => cond (joined left_row e.2) = false) l /\ first_match left_row l = Row_default) \/
  exists e, e ∈ l /\ first_match left_row l = e.2 /\ cond (joined left_row e.2) = true /\
    forall e', e' ∈ l -> cond (joined left_row e'.2) = true -> R e e'.
Proof.
  intros Hr. unfold first_match. induction 1 as [|e l Hs IH Hf]; [by left|].
  rewrite select_cons. destruct (cond (joined left_row e.2)) eqn:Ec; cbn.
  - right. exists e. split_and!; [by left|done|done|]. intros e' He' _.
    apply elem_of_cons in He' as [->|He']; [done|]. rewrite Forall_forall in Hf. by apply Hf.
  - destruct IH as [[? ?]|(e0 & ? & ? & ? & Hall)]; [left; by repeat constructor|].
    right. exists e0. split_and!; try done; [by right|]. intros e' He' Hc.
    apply elem_of_cons in He' as [->|He']; [congruence|by apply Hall].
Qed.

(** A last join returns the left row joined with a matching right row that
    no matching right row is newer than, where the time stamps of the right
    order are compared as unsigned numbers; if no right row matches, with an
    empty row. *)
Theorem last_join_latest left_row t l sort ts :
  sg_is_valid sort = true -> fn_Valid (sg_order_gen sort) = true -> sg_is_asc sort = true ->
  t_ok fuel t -> entries t = Some l -> (length l <= fuel)%nat -> ordered (sg_order_gen sort) ts l ->
  decides_for left_row l ->
  exists r,
    Runner_RowLastJoinTable std_sort fuel (Z.of_nat ls) left_row (Z.of_nat rs) (Some t) parameter sort
      cond_gen = Some (joined left_row r) /\
    ((Forall (fun e => cond (joined left_row e.2) = false) l /\ r = Row_default) \/
     exists e, e ∈ l /\ r = e.2 /\ cond (joined left_row e.2) = true /\
       forall e', e' ∈ l -> cond (joined left_row e'.2) = true -> u64 (ts e'.2) <= u64 (ts e.2)).
Proof.
  intros Hv Hg Ha Hok El Hf Ho Hd.
  destruct (sort_table_restamped std_sort Hsort fuel sort t true ts l Hv Hg Hok El Hf Ho)
    as (h & Es & Et & Hp & Hord).
  rewrite Ha in Et. cbn in Et. rewrite Et in Hord. cbn in Hord.
  assert (forall e, e ∈ th_table h <-> exists e0, e0 ∈ l /\ e = (u64 (ts e0.2), e0.2)) as Hin.
  { intros e. rewrite Hp. unfold restamped. rewrite list_elem_of_fmap.
    split; intros (e0 & ? & ?); by exists e0. }
  exists (first_match left_row (th_table h)). split.
  - apply (scan_table _ _ (TTime h)); try done.
    + rewrite Hp. unfold restamped. by rewrite length_fmap.
    + intros e He. apply Hin in He as (e0 & He0 & ->). exact (Hd e0 He0).
  - destruct (first_match_spec left_row (th_table h) (fun a b => b.1 <= a.1))
      as [[Hn ->]|(e & He & -> & Hc & Hmax)]; [done|done|left|right].
    + split; [|done]. apply Forall_forall. intros e He. rewrite Forall_forall in Hn.
      apply (Hn (u64 (ts e.2), e.2)), Hin. by exists e.
    + apply Hin in He as (e0 & He0 & ->). exists e0. split_and!; try done.
      intros e' He' Hc'. apply (Hmax (u64 (ts e'.2), e'.2)); [|done]. apply Hin. by exists e'.
Qed.
End OneRow.

(** ** Joining tables *)

Lemma select_sorted (R : Z * Row -> Z * Row -> Prop) p l : StronglySorted R l -> StronglySorted R (select p l).
Proof.
  induction 1 as [|e l Hs IH Hf]; [constructor|]. rewrite select_cons. destruct (p e.2); [|done]. constructor; [done|].
  apply Forall_forall. intros x [_ Hx]%list_elem_of_filter. rewrite Forall_forall in Hf. by apply Hf.
Qed.
Lemma select_restamped p ts l : select p (restamped ts l) = restamped ts (select p l).
Proof. induction l as [|e l IH]; [done|]. cbn [restamped fmap list_fmap]. fold (restamped ts l). rewrite !select_cons. cbn [snd]. rewrite IH. by destruct (p e.2). Qed.
(** Rows sorted by time are determined by their set if rows of the same time are
    equal. *)
Lemma sorted_rows_unique o (l1 l2 : list (Z * Row)) : l1 ≡ₚ l2 -> o <> kNoneOrder -> order_true o l1 -> order_true o l2 -> (forall a b, a ∈ l1 -> b ∈ l1 -> a.1 = b.1 -> a = b) -> l1 = l2.
Proof.
  intros Hp Hn H1 H2 Hu. assert (forall a b, a ∈ l1 -> b ∈ l2 -> a.1 = b.1 -> a = b) as Hu' by (intros a b Ha Hb; apply Hu; [done|by rewrite Hp]).
  destruct o; cbn in H1, H2; [| |done]; (eapply StronglySorted_unique_strong; [|exact H1|exact H2|done]); intros x y Hx Hy; cbn; intros; apply Hu'; try done; lia.
Qed.

Section Tables.
Context (spark : bool) (std_sort : ((Z * Row) -> (Z * Row) -> bool) -> list (Z * Row) -> list (Z * Row)) (Hsort : sorts std_sort).
Context (fuel : nat) (ls rs : nat) (parameter : Row) (g : JoinGenerator).
Context (cond : Row -> bool) (left_key right_key : Row -> list Z) (ts : Row -> Z).
Context (Hls : (0 < ls)%nat) (Hrs : (0 < rs)%nat) (Hsl : Z.of_nat (ls + rs) < 18446744073709551616).
Context (Els : jg_left_slices g = Z.of_nat ls) (Ers : jg_right_slices g = Z.of_nat rs).
Context (Hnoindex : fn_Valid (jg_index_key_gen g) = false).
Context (Hleft : fn_Valid (jg_left_key_gen g) = true).
Context (Hright : fn_Valid (jg_right_group_gen g) = true).

(** The right side is not ordered, or it is ordered by an expression with the
    values [ts], and different rows of one key have different values: the sort is
    not stable. *)
Definition right_order (l : list (Z * Row)) : Prop :=
  sg_is_valid (jg_right_sort_gen g) = false \/
  (sg_is_valid (jg_right_sort_gen g) = true /\ fn_Valid (sg_order_gen (jg_right_sort_gen g)) = true /\ ordered (sg_order_gen (jg_right_sort_gen g)) ts l /\
   forall a b, a ∈ l -> b ∈ l -> right_key a.2 = right_key b.2 -> u64 (ts a.2) = u64 (ts b.2) -> a.2 = b.2).
(** The rows after the right sort, newest first for an ascending order. *)
Definition sorted_right (l l' : list (Z * Row)) : Prop :=
  if sg_is_valid (jg_right_sort_gen g)
  then l' ≡ₚ restamped ts l /\ order_true (if sg_is_asc (jg_right_sort_gen g) then kDescOrder else kAscOrder) l'
  else l' = l.
Lemma right_sort t l : t_ok fuel t -> entries t = Some l -> (length l <= fuel)%nat -> right_order l ->
  exists t' l', Sort_table std_sort fuel (jg_right_sort_gen g) (Some t) true = Some (Some t') /\ t_ok fuel t' /\ entries t' = Some l' /\ sorted_right l l'.
Proof.
  intros Hok El Hf Ho. unfold sorted_right. destruct Ho as [Hv|(Hv & Hg & Ho & _)].
  - exists t, l. unfold Sort_table. by rewrite Hv.
  - destruct (sort_table_restamped std_sort Hsort fuel _ t true ts l Hv Hg Hok El Hf Ho) as (h & Es & Et & Hp & Hord). rewrite Hv. exists (TTime h), (th_table h). split_and!; try done.
    rewrite Et in Hord. by destruct (sg_is_asc _).
Qed.
Lemma sort_or_not o : (if sg_is_valid (jg_right_sort_gen g) then Sort_table std_sort fuel (jg_right_sort_gen g) o true else Some o) = Sort_table std_sort fuel (jg_right_sort_gen g) o true.
Proof. destruct (sg_is_valid _) eqn:Hv; [done|]. unfold Sort_table. rewrite Hv. by destruct o. Qed.
Lemma sorted_right_elem l l' e : sorted_right l l' -> e ∈ l' -> exists e0, e0 ∈ l /\ e.2 = e0.2 /\ (sg_is_valid (jg_right_sort_gen g) = true -> e.1 = u64 (ts e.2)).
Proof.
  unfold sorted_right. destruct (sg_is_valid _); [|intros ->; by exists e]. intros [Hp _]. rewrite Hp. intros (e0 & -> & He0)%list_elem_of_fmap. by exists e0.
Qed.
Lemma sorted_right_length l l' : sorted_right l l' -> length l' = length l.
Proof. unfold sorted_right. destruct (sg_is_valid _); [|by intros ->]. intros [Hp _]. rewrite Hp. apply length_fmap. Qed.
(** Sorting the rows of a key is picking them from the sorted rows. *)
Lemma sort_with_key k l l1 l2 : right_order l -> sorted_right l l1 -> sorted_right (with_key right_key k l) l2 -> with_key right_key k l1 = l2.
Proof.
  unfold right_order, sorted_right. intros Ho. destruct (sg_is_valid _); [|by intros -> ->]. destruct Ho as [|(_ & _ & _ & Hu)]; [done|]. intros [Hp1 Ho1] [Hp2 Ho2].
  assert (with_key right_key k l1 ≡ₚ restamped ts (with_key right_key k l)) as Hp by (unfold with_key; rewrite <- select_restamped; unfold select; by rewrite Hp1).
  apply (sorted_rows_unique (if sg_is_asc (jg_right_sort_gen g) then kDescOrder else kAscOrder)); [by rewrite Hp, Hp2|by destruct (sg_is_asc _)| |done|].
  - destruct (sg_is_asc _); by apply select_sorted.
  - intros a b. rewrite Hp. intros (a0 & -> & [Ka Ha]%list_elem_of_filter)%list_elem_of_fmap (b0 & -> & [Kb Hb]%list_elem_of_filter)%list_elem_of_fmap. cbn. intros Et. f_equal; [done|].
    apply bool_decide_eq_true in Ka, Kb. apply (Hu a0 b0); congruence.
Qed.

(** What a left row is joined with. *)
Definition partner (left_row : Row) (l : list (Z * Row)) : Row :=
  first_match ls rs cond left_row (with_key right_key (left_key left_row) l).
Lemma with_key_elem e k l : e ∈ with_key right_key k l -> e ∈ l.
Proof. intros [_ ?]%list_elem_of_filter. done. Qed.
Lemma decides_sorted left_row l l' : sorted_right l l' -> decides_for ls rs parameter (jg_condition_gen g) cond left_row l -> decides_for ls rs parameter (jg_condition_gen g) cond left_row l'.
Proof. intros Hs Hd e He. destruct (sorted_right_elem _ _ _ Hs He) as (e0 & He0 & -> & _). by apply Hd. Qed.

Lemma scan_join left_row rt lr l1 t1 :
  Sort_table std_sort fuel (jg_right_sort_gen g) (Some rt) true = Some (Some t1) -> t_ok fuel t1 -> entries t1 = Some l1 -> sorted_right lr l1 -> (length lr <= fuel)%nat ->
  keyed spark (jg_right_group_gen g) parameter right_key lr ->
  KeyGenerator_Gen spark (jg_left_key_gen g) left_row parameter = Some (left_key left_row) ->
  decides_for ls rs parameter (jg_condition_gen g) cond left_row lr ->
  RowLastJoin spark std_sort fuel g left_row (HTable rt) parameter =
  Some (join_rows (Z.of_nat ls) (Z.of_nat rs) left_row (partner left_row l1)).
Proof.
  intros Es Hok El Hs Hf Hk Hl Hd. unfold RowLastJoin, RowLastJoinTable. rewrite sort_or_not, Es, Els, Ers.
  cbn [mbind option_bind]. rewrite <- (sorted_right_length _ _ Hs) in Hf. apply (decides_sorted _ _ _ Hs) in Hd.
  assert (keyed spark (jg_right_group_gen g) parameter right_key l1) as Hk1 by (intros e He; destruct (sorted_right_elem _ _ _ Hs He) as (e0 & He0 & -> & _); by apply Hk).
  destruct (table_iterator fuel t1 l1 Hok El) as (it & -> & _ & _ & Ho & Er). cbn [mbind option_bind].
  unfold partner, first_match. destruct l1 as [|e l1].
  { rewrite (exhausted _ Ho Er). by apply join_rows_total. }
  rewrite (valid_cons _ _ _ Ho Er), Hleft, Hl. cbn [negb andb mbind option_bind].
  rewrite (keyed_join_loop_spec spark parameter (jg_condition_gen g) _ (join_rows (Z.of_nat ls) (Z.of_nat rs) left_row)
    cond g right_key) by (rewrite ?Er; done || by apply decides_for_decides).
  cbn [mbind option_bind]. rewrite Er. unfold matches.
  destruct (select _ (with_key _ _ _)) as [|e' s]; [|done]. by apply join_rows_total.
Qed.

Lemma segment_join left_row p lr l1 :
  (length lr <= fuel)%nat -> right_order lr -> sorted_right lr l1 ->
  decides_for ls rs parameter (jg_condition_gen g) cond left_row lr ->
  seg_get (left_key left_row) (ph_partitions p) =
    match with_key right_key (left_key left_row) lr with [] => None | rows => Some rows end ->
  join_row std_sort fuel g left_row (p_GetSegment (PMem p) (left_key left_row)) parameter =
  Some (join_rows (Z.of_nat ls) (Z.of_nat rs) left_row (partner left_row l1)).
Proof.
  intros Hf Ho Hs1 Hd Hs. unfold join_row. rewrite Els, Ers. cbn [p_GetSegment]. unfold partner.
  set (k := left_key left_row) in *. set (seg := with_key right_key k lr) in *.
  assert (right_order seg) as Hos.
  { destruct Ho as [|(? & ? & Ho & Hu)]; [by left|right]. split_and!; [done|done|intros e He; apply Ho; by apply (with_key_elem _ k)|]. intros a b Ha Hb. apply Hu; by apply (with_key_elem _ k). }
  assert (length seg <= fuel)%nat as Hfs by (unfold seg, with_key; etrans; [apply length_select|done]).
  destruct seg as [|e l] eqn:Ew; fold seg in Ew.
  - assert (with_key right_key k l1 = []) as ->. { apply (sort_with_key k lr l1 [] Ho Hs1). fold seg. rewrite Ew. unfold sorted_right. destruct (sg_is_valid _); [|done]. split; [done|]. destruct (sg_is_asc _); constructor. }
    unfold Runner_RowLastJoinTable. destruct (sg_is_valid (jg_right_sort_gen g)) eqn:Hv.
    + assert (Sort_table std_sort fuel (jg_right_sort_gen g) (Some (TSegment (PMem p) k)) true = Some None) as ->.
      { unfold Sort_table. rewrite Hv. destruct Ho as [|(_ & Hg & _)]; [congruence|]. rewrite Hg. cbn [negb andb]. by rewrite (table_null fuel (TSegment (PMem p) k)). }
      by apply join_rows_total.
    + apply (scan_null std_sort fuel ls rs Hls Hrs Hsl parameter _ left_row _ (TSegment (PMem p) k)); [done|exact Hs|]. unfold Sort_table. by rewrite Hv.
  - destruct (right_sort (TSegment (PMem p) k) (e :: l)) as (t2 & l2 & E2 & Hok2 & El2 & Hs2); [done|exact Hs|done|done|].
    rewrite <- Ew in Hs2. rewrite (sort_with_key k lr l1 l2 Ho Hs1 Hs2).
    apply (scan_table std_sort fuel ls rs Hls Hrs Hsl parameter _ cond left_row _ t2); [done|done| | |done].
    + rewrite (sorted_right_length _ _ Hs2). by rewrite Ew.
    + apply (decides_sorted _ _ _ Hs2). intros e' He'. apply Hd. by apply (with_key_elem _ k).
Qed.

(** The right row of a left row: the first one with its key that satisfies the
    condition; with a right order, one that no other such row is behind (after,
    for a descending order). *)
Definition chosen (left_row : Row) (l : list (Z * Row)) (r : Row) : Prop :=
  let candidates := with_key right_key (left_key left_row) l in
  let joined := join_rows (Z.of_nat ls) (Z.of_nat rs) left_row in
  if sg_is_valid (jg_right_sort_gen g) then
    (Forall (fun e => cond (joined e.2) = false) candidates /\ r = Row_default) \/
    exists e, e ∈ candidates /\ r = e.2 /\ cond (joined e.2) = true /\
      forall e', e' ∈ candidates -> cond (joined e'.2) = true ->
        if sg_is_asc (jg_right_sort_gen g) then u64 (ts e'.2) <= u64 (ts e.2) else u64 (ts e.2) <= u64 (ts e'.2)
  else r = partner left_row l.
Lemma partner_chosen left_row l l1 : sorted_right l l1 -> chosen left_row l (partner left_row l1).
Proof.
  unfold sorted_right, chosen. destruct (sg_is_valid _); [|by intros ->]. intros [Hp Ho]. unfold partner. set (k := left_key left_row).
  assert (with_key right_key k l1 ≡ₚ restamped ts (with_key right_key k l)) as Hpk by (unfold with_key; rewrite <- select_restamped; unfold select; by rewrite Hp).
  assert (forall e, e ∈ with_key right_key k l1 <-> exists e0, e0 ∈ with_key right_key k l /\ e = (u64 (ts e0.2), e0.2)) as Hin.
  { intros e. rewrite Hpk. unfold restamped. rewrite list_elem_of_fmap. split; intros (e0 & ? & ?); by exists e0. }
  assert (forall (R : Z * Row -> Z * Row -> Prop), (forall a, R a a) -> StronglySorted R l1 -> StronglySorted R (with_key right_key k l1)) as Hss by (intros R _; apply select_sorted).
  set (R := fun a b : Z * Row => if sg_is_asc (jg_right_sort_gen g) then b.1 <= a.1 else a.1 <= b.1).
  destruct (first_match_spec ls rs cond left_row (with_key right_key k l1) R) as [[Hn ->]|(e & He & -> & Hc & Hmax)].
  - intros a. unfold R. by destruct (sg_is_asc _).
  - apply Hss; unfold R; [intros a|]; by destruct (sg_is_asc _).
  - left. split; [|done]. apply Forall_forall. intros e He. rewrite Forall_forall in Hn. apply (Hn (u64 (ts e.2), e.2)), Hin. by exists e.
  - right. apply Hin in He as (e0 & He0 & ->). exists e0. split_and!; try done. intros e' He' Hc'. apply (Hmax (u64 (ts e'.2), e'.2)); [|done]. apply Hin. by exists e'.
Qed.

(** C25: joining through a partition of the right side is joining by scanning.
    When the right side is a table, [LastJoinRunner] groups it by the right
    key and looks the left key up; the result has one row per left row, under
    its time stamp and in the order of the left side, and it is the row that
    [RowLastJoin] finds by scanning the ungrouped table for this left row.
    Without ORDER BY that is the first row with the same key that satisfies the
    condition; with ORDER BY each side sorts its own rows, and it is the last such
    row in the order (the times compared as unsigned numbers). The join has keys
    on both sides and no index key, and different right rows with the same key
    have different order values: [std::sort] may put rows of the same time in any
    order, so with ties the two paths may choose different rows. *)
Theorem hash_join_is_scan lt ll rt lr :
  t_ok fuel lt -> entries lt = Some ll -> (length ll <= fuel)%nat ->
  t_ok fuel rt -> entries rt = Some lr -> (length lr <= fuel)%nat -> right_order lr ->
  keyed spark (jg_left_key_gen g) parameter left_key ll ->
  keyed spark (jg_right_group_gen g) parameter right_key lr ->
  (forall e, e ∈ ll -> decides_for ls rs parameter (jg_condition_gen g) cond e.2 lr) ->
  exists h,
    LastJoin_Run spark std_sort fuel g parameter (Some (HTable lt)) (Some (HTable rt)) =
      Some (Some (HTable (TTime h))) /\
    th_order_type h = t_GetOrderType lt /\
    Forall2 (fun e o => o.1 = e.1 /\
        RowLastJoin spark std_sort fuel g e.2 (HTable rt) parameter = Some o.2 /\
        exists r, o.2 = join_rows (Z.of_nat ls) (Z.of_nat rs) e.2 r /\ chosen e.2 lr r) ll (th_table h).
Proof.
  intros Hlt Ell Hfl Hrt Elr Hfr Hro Hkl Hkr Hd.
  destruct (partition_table_segments spark fuel _ rt parameter right_key lr Hright Hrt Elr Hfr Hkr)
    as (p & Ep & _ & _ & Hseg).
  destruct (right_sort rt lr Hrt Elr Hfr Hro) as (t1 & l1 & Es1 & Hok1 & El1 & Hs1).
  unfold LastJoin_Run. rewrite Hright. cbn [Partition]. rewrite Ep. cbn [mbind option_bind option_map].
  unfold TableJoin_partition. rewrite Hleft, Hnoindex. cbn [negb andb].
  edestruct (table_loop (fun key left_row out => key_str ← join_key spark g left_row parameter;
      r ← join_row std_sort fuel g left_row (p_GetSegment (PMem p) key_str) parameter;
      Some (AddRow key r out)) fuel lt ll (mkMemTimeTableHandler [] (t_GetOrderType lt)) Hlt Ell Hfl)
    as (it & -> & E). cbn [mbind option_bind].
  rewrite E. rewrite (fold_rows_total _ (fun k row h =>
    AddRow k (join_rows (Z.of_nat ls) (Z.of_nat rs) row (partner row l1)) h)).
  - cbn [mbind option_bind]. eexists; split; [done|].
    assert (forall l h, let h' := foldl (fun h e =>
        AddRow e.1 (join_rows (Z.of_nat ls) (Z.of_nat rs) e.2 (partner e.2 l1)) h) h l in
      th_order_type h' = th_order_type h /\ th_table h' = th_table h ++
        ((fun e => (e.1, join_rows (Z.of_nat ls) (Z.of_nat rs) e.2 (partner e.2 l1))) <$> l)) as Hfold.
    { induction l as [|e l IH]; intros h; cbn; [by rewrite app_nil_r|].
      destruct (IH (AddRow e.1 (join_rows (Z.of_nat ls) (Z.of_nat rs) e.2 (partner e.2 l1)) h)) as [-> ->].
      cbn. by rewrite <- app_assoc. }
    destruct (Hfold ll (mkMemTimeTableHandler [] (t_GetOrderType lt))) as [-> ->]. split; [done|].
    cbn [th_table app]. apply Forall2_fmap_r, Forall_Forall2_diag, Forall_forall. intros e He. cbn.
    split_and!; [done| |]; [by apply (scan_join e.2 rt lr l1 t1); try done; [by apply Hkl|by apply Hd]|]. exists (partner e.2 l1). split; [done|by apply partner_chosen].
  - intros e h He. unfold join_key. rewrite Hnoindex, Hleft. cbn [mbind option_bind].
    rewrite (Hkl e He). cbn [mbind option_bind]. rewrite bool_decide_true by done.
    by rewrite (segment_join e.2 p lr l1) by (done || by apply Hd).
Qed.
End Tables.

(** ** Concrete joins *)

(** Compiled functions of the first byte of a slice: an integer column and a
    Boolean column. *)
Definition ex_byte (slice : Z) (row : option Row) : Z :=
  match row with
  | Some r => match sl_data (GetSlice r slice) with Some (b :: _) => b | _ => 0 end
  | None => 0
  end.
Definition ex_int (slice : Z) (f : Z -> Z) : FnGenerator :=
  FnGenerator_new false (Some (fun _ row _ _ =>
    (0, encode_row [mkcol [97] kInt64] [Some (VInt64 (f (ex_byte slice row)))] (replicate 20 0))))
    [mkcol [97] kInt64].
Definition ex_bool (slice : Z) (f : Z -> bool) : FnGenerator :=
  FnGenerator_new false (Some (fun _ row _ _ =>
    (0, encode_row [mkcol [97] kBool] [Some (VBool (f (ex_byte slice row)))] (replicate 20 0))))
    [mkcol [97] kBool].
Definition ex_none : FnGenerator := FnGenerator_new false None [].

Definition ex_right : list (Z * Row) :=
  [(0, Row_of_string [1]); (0, Row_of_string [7]); (0, Row_of_string [3]); (0, Row_of_string [2])].
Definition ex_left : list (Z * Row) := [(11, Row_of_string [5]); (12, Row_of_string [4])].

Ltac ex_rows_tac := intros e He;
  repeat (apply elem_of_cons in He as [->|He]; [vm_compute; reflexivity|]); by apply elem_of_nil in He.

Lemma last_join_latest_witness :
  exists r,
    Runner_RowLastJoinTable merge_sort_by 9 1 (Row_of_string [9]) 1
      (Some (TTime (mkMemTimeTableHandler ex_right kNoneOrder))) Row_default
      (mkSortGenerator true true (ex_int 0 (fun b => b))) (ex_bool 1 (fun b => b <? 5)) =
    Some (join_rows 1 1 (Row_of_string [9]) r) /\
    Some (join_rows 1 1 (Row_of_string [9]) r) =
    Some (join_rows 1 1 (Row_of_string [9]) (Row_of_string [3])).
Proof.
  destruct (last_join_latest merge_sort_by merge_sort_sorts 9 1 1 ltac:(lia) ltac:(lia) ltac:(lia)
    Row_default (ex_bool 1 (fun b => b <? 5)) (fun r => ex_byte 1 (Some r) <? 5) (Row_of_string [9])
    (TTime (mkMemTimeTableHandler ex_right kNoneOrder)) ex_right
    (mkSortGenerator true true (ex_int 0 (fun b => b))) (fun r => ex_byte 0 (Some r)))
    as (r & E & _); [done|done|done|done|done|cbn; lia|ex_rows_tac|ex_rows_tac|].
  exists r. split; [exact E|]. etrans; [exact (eq_sym E)|]. vm_compute. reflexivity.
Defined.

(** Left rows look for right rows of the same parity, the smallest one last in
    the order. *)
Definition ex_join : JoinGenerator :=
  mkJoinGenerator (ex_bool 1 (fun b => 2 <=? b)) (ex_int 0 (fun b => b mod 2)) (ex_int 0 (fun b => b mod 2))
    ex_none (mkSortGenerator true true (ex_int 0 (fun b => 10 - b))) 1 1.

Lemma hash_join_is_scan_witness :
  exists h,
    LastJoin_Run false merge_sort_by 9 ex_join Row_default
      (Some (HTable (TTime (mkMemTimeTableHandler ex_left kDescOrder))))
      (Some (HTable (TTime (mkMemTimeTableHandler ex_right kNoneOrder)))) =
      Some (Some (HTable (TTime h))) /\
    th_order_type h = kDescOrder /\
    th_table h = [(11, join_rows 1 1 (Row_of_string [5]) (Row_of_string [3]));
                  (12, join_rows 1 1 (Row_of_string [4]) (Row_of_string [2]))] /\
    Forall2 (fun e o => RowLastJoin false merge_sort_by 9 ex_join e.2 (HTable (TTime (mkMemTimeTableHandler ex_right kNoneOrder))) Row_default = Some o.2)
      ex_left (th_table h).
Proof.
  destruct (hash_join_is_scan false merge_sort_by merge_sort_sorts 9 1 1 Row_default ex_join
    (fun r => 2 <=? ex_byte 1 (Some r)) (fun r => to_string (ex_byte 0 (Some r) mod 2))
    (fun r => to_string (ex_byte 0 (Some r) mod 2)) (fun r => 10 - ex_byte 0 (Some r)) ltac:(lia) ltac:(lia) ltac:(lia) eq_refl eq_refl
    eq_refl eq_refl eq_refl
    (TTime (mkMemTimeTableHandler ex_left kDescOrder)) ex_left
    (TTime (mkMemTimeTableHandler ex_right kNoneOrder)) ex_right)
    as (h & E & Eo & Hf); [done|done|cbn; lia|done|done|cbn; lia| |ex_rows_tac|ex_rows_tac| |].
  - right. split_and!; [done|done|ex_rows_tac|]. intros a b Ha Hb _.
    repeat (apply elem_of_cons in Ha as [->|Ha]; [repeat (apply elem_of_cons in Hb as [->|Hb]; [vm_compute; intros; congruence|]); by apply elem_of_nil in Hb|]). by apply elem_of_nil in Ha.
  - intros e0 He0. repeat (apply elem_of_cons in He0 as [->|He0]; [ex_rows_tac|]).
    by apply elem_of_nil in He0.
  - exists h. split; [exact E|]. split; [exact Eo|]. split; [|eapply Forall2_impl; [exact Hf|]; intros e o (_ & H & _); exact H].
    clear -E. vm_compute in E. injection E as <-. vm_compute. reflexivity.
Defined.
