(* ===== verification/SegmentMerge.v ===== *)
(** * Merging the segments of a key in time order

    The loops of the window operators pick among several iterators, the one
    with the newest row (the window of a request) or with the oldest row
    (window aggregation). The visited rows are a merge of the segments: a
    permutation of their rows, sorted when the segments are. *)

From stdpp Require Import base numbers option list sorting.
From S2P Require Import Prelude Layout TypeCodec Iterators MemCatalog MemCatalogProof Window WindowProof Rows CatalogWrapper Handlers HandlersProof FnGenerators Generators GeneratorsProof Joins WindowRunners.

Abbreviation rows := (list (Z * Row)).

(** ** Picking the next segment *)

(** The status of an iterator that has these rows left. *)
Definition status_of (l : rows) : IteratorStatus :=
  match l with [] => IteratorStatus_none | e :: _ => IteratorStatus_new e.1 end.

Definition heads_le (ls : list rows) (k : Z) : Prop :=
  forall q e l, ls !! q = Some (e :: l) -> e.1 <= k.
Definition heads_ge (ls : list rows) (k : Z) : Prop :=
  forall q e l, ls !! q = Some (e :: l) -> k <= e.1.

Lemma pick_max_loop_spec ls : forall i pos order,
  Z.of_nat (i + length ls) < 2147483648 ->
  let r := pick_max_loop (status_of <$> ls) i pos order in
  (r = pos /\ forall q e l, ls !! q = Some (e :: l) -> e.1 < order) \/
  exists q e l, ls !! q = Some (e :: l) /\ r = Z.of_nat (i + q) /\ order <= e.1 /\ heads_le ls e.1.
Proof.
  induction ls as [|l0 ls IH]; intros i pos order Hi; cbn [fmap list_fmap pick_max_loop];
    [left; split; [done|intros q e l; by rewrite lookup_nil]|].
  cbn [length] in Hi.
  destruct l0 as [|e0 l0]; cbn [status_of st_is_valid st_key IteratorStatus_none IteratorStatus_new andb].
  - destruct (IH (S i) pos order ltac:(lia)) as [[E H]|(q & e & l & Hq & E & Ho & Hh)]; [left|right].
    + split; [done|]. intros [|q] e l; [done|apply H].
    + exists (S q), e, l. split_and!; [done|rewrite E; f_equal; lia|done|].
      intros [|q'] e' l'; [done|apply Hh].
  - rewrite Z.geb_leb. destruct (Z.leb_spec order e0.1) as [Hle|Hgt].
    + rewrite i32_small by lia. right.
      destruct (IH (S i) (Z.of_nat i) e0.1 ltac:(lia)) as [[E H]|(q & e & l & Hq & E & Ho & Hh)].
      * exists 0%nat, e0, l0. split_and!; [done|rewrite E; f_equal; lia|done|].
        intros [|q'] e' l' Hq; [injection Hq as <- <-; lia|]. apply H in Hq. lia.
      * exists (S q), e, l. split_and!; [done|rewrite E; f_equal; lia|lia|].
        intros [|q'] e' l' Hq'; [injection Hq' as <- <-; lia|by eapply Hh].
    + destruct (IH (S i) pos order ltac:(lia)) as [[E H]|(q & e & l & Hq & E & Ho & Hh)]; [left|right].
      * split; [done|]. intros [|q] e l Hq; [injection Hq as <- <-; lia|by eapply H].
      * exists (S q), e, l. split_and!; [done|rewrite E; f_equal; lia|done|].
        intros [|q'] e' l' Hq'; [injection Hq' as <- <-; lia|by eapply Hh].
Qed.

Lemma pick_min_loop_spec ls : forall i pos order,
  Z.of_nat (i + length ls) < 2147483648 ->
  let r := pick_min_loop (status_of <$> ls) i pos order in
  (r = pos /\ forall q e l, ls !! q = Some (e :: l) -> order <= e.1) \/
  exists q e l, ls !! q = Some (e :: l) /\ r = Z.of_nat (i + q) /\ e.1 < order /\ heads_ge ls e.1.
Proof.
  induction ls as [|l0 ls IH]; intros i pos order Hi; cbn [fmap list_fmap pick_min_loop];
    [left; split; [done|intros q e l; by rewrite lookup_nil]|].
  cbn [length] in Hi.
  destruct l0 as [|e0 l0]; cbn [status_of st_is_valid st_key IteratorStatus_none IteratorStatus_new andb].
  - destruct (IH (S i) pos order ltac:(lia)) as [[E H]|(q & e & l & Hq & E & Ho & Hh)]; [left|right].
    + split; [done|]. intros [|q] e l; [done|apply H].
    + exists (S q), e, l. split_and!; [done|rewrite E; f_equal; lia|done|].
      intros [|q'] e' l'; [done|apply Hh].
  - destruct (Z.ltb_spec e0.1 order) as [Hlt|Hge].
    + rewrite i32_small by lia. right.
      destruct (IH (S i) (Z.of_nat i) e0.1 ltac:(lia)) as [[E H]|(q & e & l & Hq & E & Ho & Hh)].
      * exists 0%nat, e0, l0. split_and!; [done|rewrite E; f_equal; lia|done|].
        intros [|q'] e' l' Hq; [injection Hq as <- <-; lia|]. apply H in Hq. lia.
      * exists (S q), e, l. split_and!; [done|rewrite E; f_equal; lia|lia|].
        intros [|q'] e' l' Hq'; [injection Hq' as <- <-; lia|by eapply Hh].
    + destruct (IH (S i) pos order ltac:(lia)) as [[E H]|(q & e & l & Hq & E & Ho & Hh)]; [left|right].
      * split; [done|]. intros [|q] e l Hq; [injection Hq as <- <-; lia|by eapply H].
      * exists (S q), e, l. split_and!; [done|rewrite E; f_equal; lia|done|].
        intros [|q'] e' l' Hq'; [injection Hq' as <- <-; lia|by eapply Hh].
Qed.

(** Lists within the number range of positions and keys. *)
Definition merge_ok (ls : list rows) : Prop :=
  Z.of_nat (length ls) < 2147483648 /\
  Forall (Forall (fun e => 0 <= e.1 < UINT64_MAX)) ls.

Lemma merge_ok_key ls q e l : merge_ok ls -> ls !! q = Some (e :: l) -> 0 <= e.1 < UINT64_MAX.
Proof.
  intros [_ Hk] Hq. apply (Forall_lookup_1 _ _ _ _ Hk) in Hq. by apply Forall_cons_1 in Hq as [? _].
Qed.

Lemma merge_ok_drop ls q e l :
  merge_ok ls -> ls !! q = Some (e :: l) -> merge_ok (<[q := l]> ls).
Proof.
  intros [Hl Hk] Hq. split; [by rewrite length_insert|]. apply Forall_insert; [done|].
  apply (Forall_lookup_1 _ _ _ _ Hk) in Hq. by apply Forall_cons_1 in Hq as [_ ?].
Qed.

Definition all_nil (ls : list rows) : Prop := forall q l, ls !! q = Some l -> l = [].

Lemma all_nil_heads ls : (forall q e l, ls !! q = Some (e :: l) -> False) -> all_nil ls.
Proof. intros H q [|e l] Hq; [done|]. by apply H in Hq. Qed.

(** The picked segment starts with a newest row; without a row the pick is -1. *)
Lemma pick_max_spec ls :
  merge_ok ls ->
  (PickIteratorWithMaximizeKey (status_of <$> ls) = -1 /\ all_nil ls) \/
  exists q e l, PickIteratorWithMaximizeKey (status_of <$> ls) = Z.of_nat q /\
    ls !! q = Some (e :: l) /\ heads_le ls e.1.
Proof.
  intros Hok. destruct (pick_max_loop_spec ls 0 (-1) 0) as [[E H]|(q & e & l & Hq & E & _ & Hh)];
    [by destruct Hok|left|right].
  - split; [done|]. apply all_nil_heads. intros q e l Hq. apply (merge_ok_key _ _ _ _ Hok) in Hq as Hk.
    apply H in Hq. lia.
  - by exists q, e, l.
Qed.

Lemma pick_min_spec ls :
  merge_ok ls ->
  (PickIteratorWithMininumKey (status_of <$> ls) = -1 /\ all_nil ls) \/
  exists q e l, PickIteratorWithMininumKey (status_of <$> ls) = Z.of_nat q /\
    ls !! q = Some (e :: l) /\ heads_ge ls e.1.
Proof.
  intros Hok. destruct (pick_min_loop_spec ls 0 (-1) UINT64_MAX) as [[E H]|(q & e & l & Hq & E & _ & Hh)];
    [by destruct Hok|left|right].
  - split; [done|]. apply all_nil_heads. intros q e l Hq. apply (merge_ok_key _ _ _ _ Hok) in Hq as Hk.
    apply H in Hq. lia.
  - by exists q, e, l.
Qed.

(** ** Merging segments *)

(** The rows of several segments in the order in which repeated picks visit
    them. *)
Fixpoint merge (pick : list IteratorStatus -> Z) (n : nat) (ls : list rows) : rows :=
  match n with
  | O => []
  | S n' =>
      let p := pick (status_of <$> ls) in
      match (if p <? 0 then None else ls !! Z.to_nat p) with
      | Some (e :: l) => e :: merge pick n' (<[Z.to_nat p := l]> ls)
      | _ => []
      end
  end.

Definition total (ls : list rows) : nat := length (concat ls).

Definition merge_newest (ls : list rows) : rows := merge PickIteratorWithMaximizeKey (total ls) ls.
Definition merge_oldest (ls : list rows) : rows := merge PickIteratorWithMininumKey (total ls) ls.

Lemma concat_drop_head (ls : list rows) q e l :
  ls !! q = Some (e :: l) -> concat ls ≡ₚ e :: concat (<[q := l]> ls).
Proof.
  revert q. induction ls as [|l0 ls IH]; intros [|q]; cbn; try done.
  - by intros [= ->].
  - intros Hq. rewrite (IH _ Hq). by rewrite Permutation_middle.
Qed.

Lemma total_drop ls q e l : ls !! q = Some (e :: l) -> total ls = S (total (<[q := l]> ls)).
Proof. intros Hq. unfold total. by rewrite (concat_drop_head _ _ _ _ Hq). Qed.

Lemma all_nil_concat (ls : list rows) : all_nil ls -> concat ls = [].
Proof.
  induction ls as [|l ls IH]; intros Hn; [done|]. cbn. rewrite (Hn 0%nat l) by done.
  apply IH. intros q. apply (Hn (S q)).
Qed.

Section Merge.
Context (pick : list IteratorStatus -> Z) (le : Z -> Z -> Prop) (le_trans : Transitive le).
Context (pick_spec : forall ls, merge_ok ls ->
  (pick (status_of <$> ls) = -1 /\ all_nil ls) \/
  exists q e l, pick (status_of <$> ls) = Z.of_nat q /\ ls !! q = Some (e :: l) /\
    forall q' e' l', ls !! q' = Some (e' :: l') -> le e.1 e'.1).

Definition sorted_by (l : rows) : Prop := StronglySorted (fun a b => le a.1 b.1) l.

Lemma merge_none n ls : pick (status_of <$> ls) = -1 -> merge pick n ls = [].
Proof. intros E. destruct n; cbn [merge]; [done|]. by rewrite E. Qed.

Lemma merge_some n ls q e l :
  pick (status_of <$> ls) = Z.of_nat q -> ls !! q = Some (e :: l) ->
  merge pick (S n) ls = e :: merge pick n (<[q := l]> ls).
Proof.
  intros E Hq. cbn [merge]. rewrite E, (proj2 (Z.ltb_ge _ 0)), Nat2Z.id, Hq by lia. done.
Qed.

Lemma merge_perm n : forall ls, merge_ok ls -> (total ls <= n)%nat -> merge pick n ls ≡ₚ concat ls.
Proof.
  induction n as [|n IH]; intros ls Hok Ht.
  - unfold total in Ht. destruct (concat ls); [done|cbn in Ht; lia].
  - destruct (pick_spec ls Hok) as [[E Hn]|(q & e & l & E & Hq & _)].
    + by rewrite merge_none, all_nil_concat.
    + rewrite (merge_some _ _ _ _ _ E Hq), (concat_drop_head _ _ _ _ Hq).
      rewrite IH; [done|by eapply merge_ok_drop|]. rewrite (total_drop _ _ _ _ Hq) in Ht. lia.
Qed.

Lemma merge_enough n : forall m ls, merge_ok ls -> (total ls <= n)%nat -> (total ls <= m)%nat ->
  merge pick n ls = merge pick m ls.
Proof.
  induction n as [|n IH]; intros m ls Hok Hn Hm.
  - pose proof (merge_perm m ls Hok Hm) as Hp. unfold total in Hn.
    destruct (concat ls); [|cbn in Hn; lia]. by apply Permutation_nil_r in Hp as ->.
  - destruct (pick_spec ls Hok) as [[E _]|(q & e & l & E & Hq & _)]; [by rewrite !merge_none|].
    rewrite (total_drop _ _ _ _ Hq) in Hn, Hm. destruct m as [|m]; [lia|].
    rewrite !(merge_some _ _ _ _ _ E Hq). f_equal. apply IH; [by eapply merge_ok_drop|lia|lia].
Qed.

Lemma sorted_drop ls q e l :
  Forall sorted_by ls -> ls !! q = Some (e :: l) ->
  Forall sorted_by (<[q := l]> ls).
Proof.
  intros Hs Hq. apply Forall_insert; [done|]. apply (Forall_lookup_1 _ _ _ _ Hs) in Hq.
  by apply StronglySorted_inv in Hq as [? _].
Qed.

(** The head that is first of all heads comes before every row. *)
Lemma first_of_all ls k :
  Forall sorted_by ls ->
  (forall q e l, ls !! q = Some (e :: l) -> le k e.1) ->
  Forall (fun e : Z * Row => le k e.1) (concat ls).
Proof.
  intros Hs Hk. apply Forall_concat, Forall_lookup. intros q [|e l] Hq; [constructor|].
  pose proof (Hk _ _ _ Hq) as He. apply (Forall_lookup_1 _ _ _ _ Hs) in Hq.
  apply StronglySorted_inv in Hq as [_ Hl]. constructor; [done|].
  eapply Forall_impl; [exact Hl|]. cbn. intros x Hx. by etrans.
Qed.

Lemma merge_sorted n : forall ls, merge_ok ls -> (total ls <= n)%nat ->
  Forall sorted_by ls ->
  sorted_by (merge pick n ls).
Proof.
  induction n as [|n IH]; intros ls Hok Ht Hs; [constructor|].
  destruct (pick_spec ls Hok) as [[E Hn]|(q & e & l & E & Hq & Hh)].
  - rewrite merge_none by done. constructor.
  - rewrite (merge_some _ _ _ _ _ E Hq). rewrite (total_drop _ _ _ _ Hq) in Ht.
    pose proof (merge_ok_drop _ _ _ _ Hok Hq) as Hok'.
    constructor; [apply IH; [done|lia|by eapply sorted_drop]|].
    rewrite merge_perm by (done || lia).
    pose proof (first_of_all ls e.1 Hs Hh) as Hf. rewrite (concat_drop_head _ _ _ _ Hq) in Hf.
    by apply Forall_cons_1 in Hf as [_ ?].
Qed.
End Merge.

Lemma merge_newest_perm ls : merge_ok ls -> merge_newest ls ≡ₚ concat ls.
Proof. intros Hok. apply (merge_perm _ (fun a b => b <= a)); [apply pick_max_spec|done..]. Qed.

Lemma merge_newest_sorted ls :
  merge_ok ls -> Forall newest_first ls -> newest_first (merge_newest ls).
Proof.
  intros Hok Hs. apply (merge_sorted _ (fun a b => b <= a)); [|apply pick_max_spec|done..].
  intros a b c ? ?; lia.
Qed.

Definition oldest_first (l : rows) : Prop := StronglySorted (fun a b => a.1 <= b.1) l.

Lemma merge_oldest_perm ls : merge_ok ls -> merge_oldest ls ≡ₚ concat ls.
Proof. intros Hok. apply (merge_perm _ (fun a b => a <= b)); [apply pick_min_spec|done..]. Qed.

Lemma merge_oldest_sorted ls :
  merge_ok ls -> Forall oldest_first ls -> oldest_first (merge_oldest ls).
Proof.
  intros Hok Hs. apply (merge_sorted _ (fun a b => a <= b)); [|apply pick_min_spec|done..].
  intros a b c ? ?; lia.
Qed.

(** ** Iterators with their status *)

(** An iterator with its status has the rows [l] left. *)
Definition tracks (u : option AnyIter * IteratorStatus) (l : rows) : Prop :=
  u.2 = status_of l /\
  match u.1 with None => l = [] | Some it => it_ok it /\ rest it = l end.

Lemma tracks_status us ls : Forall2 tracks us ls -> us.*2 = status_of <$> ls.
Proof. induction 1 as [|u l us ls [Hu _] _ IH]; [done|]. cbn. by rewrite Hu, IH. Qed.

Lemma tracks_head u e l : tracks u (e :: l) ->
  exists it, u = (Some it, IteratorStatus_new e.1) /\ it_ok it /\ rest it = e :: l.
Proof.
  destruct u as [[it|] st]; intros [Hs Hi]; cbn in *; [|done]. subst st. by exists it.
Qed.

Lemma advance_tracks us ls q e l :
  Forall2 tracks us ls -> ls !! q = Some (e :: l) ->
  exists it us', us !! q = Some (Some it, IteratorStatus_new e.1) /\
    GetKey it = Some e.1 /\ GetValue it = Some e.2 /\
    advance_union q us = Some us' /\ Forall2 tracks us' (<[q := l]> ls).
Proof.
  intros Hf Hq. destruct (Forall2_lookup_r _ _ _ _ _ Hf Hq) as (u & Hu & Ht).
  apply tracks_head in Ht as (it & -> & Ho & Er).
  destruct (rest_next _ _ _ Ho Er) as [Er' Ho'].
  exists it, (<[q := (Some (Next it), status_of l)]> us).
  split_and!; [done|by eapply key_rest|by eapply value_rest|..].
  - unfold advance_union. rewrite Hu. cbn [mbind option_bind]. destruct l as [|e' l'].
    + by rewrite (exhausted _ Ho' Er').
    + by rewrite (valid_cons _ _ _ Ho' Er'), (key_rest _ _ _ Ho' Er').
  - by apply Forall2_insert.
Qed.
