(* ===== verification/RequestWindowProof.v ===== *)
(** * The window of a request

    [RequestUnionWindow] scans the merge of the union segments from the newest
    row. Its result is the frame that the sliding window of batch execution
    keeps ([frame_spec]): the same specification holds for a query that runs
    on a request and for one that runs on a table. *)

From stdpp Require Import base numbers option list sorting.
From S2P Require Import Prelude Layout TypeCodec Iterators MemCatalog MemCatalogProof Window WindowProof Rows CatalogWrapper Handlers HandlersProof FnGenerators Generators Joins WindowRunners SegmentMerge.

(** ** Tables in time order *)

(** The rows a handler stores are in time order, below all its wrappers. *)
Fixpoint p_ordered (p : PartitionHandler) (key : list Z) : Prop :=
  match p with
  | PMem p => newest_first (default [] (seg_get key (ph_partitions p)))
  | PProject _ p => p_ordered p key
  | PFilter _ p => p_ordered p key /\ newest_first (default [] (p_segment p key))
  end.

Fixpoint t_ordered (t : TableHandler) : Prop :=
  match t with
  | TTime h => newest_first (th_table h)
  | TMem _ => False
  | TProject _ t => t_ordered t
  | TFilter _ t => t_ordered t /\ newest_first (default [] (entries t))
  | TSegment p key => p_ordered p key
  | TRequestUnion _ _ w => t_ordered w
  | TConcat _ _ _ _ => newest_first (default [] (entries t))
  end.

Definition seeks (o : option AnyIter) : Prop :=
  match o with None => True | Some it => time_sorted _ (ai_iter it) end.

Lemma seeks_project f o : seeks o -> seeks (option_map (project_iter f) o).
Proof. by destruct o. Qed.

Lemma seeks_filter fuel q o l r :
  seeks o -> presents o l r -> newest_first (default [] l) ->
  seeks (option_map (filter_iter fuel q) o).
Proof. destruct o, l, r; try done. intros ? (_ & <- & _) ?. by split. Qed.

Lemma segment_seeks fuel p key o :
  p_ok fuel p -> p_ordered p key -> segment_iterator fuel p key = Some o -> seeks o.
Proof.
  revert o. induction p as [p|f p IH|q p IH]; intros o Hok Hs E.
  - destruct (segment_presents fuel (PMem p) key Hok) as (o' & E' & Hp).
    rewrite E in E'. injection E' as <-.
    unfold segment_iterator in E. cbn [p_GetWindowIterator wi_Seek wi_map wi_GetValue] in E.
    destruct (wi_Valid _) in E; [|by injection E as <-].
    destruct (mw_GetValue _) in E; cbn in E; [|done]. injection E as <-. cbn in *.
    destruct (seg_get key (ph_partitions p)); [|done]. by destruct Hp as (_ & -> & _).
  - destruct (segment_iterator_wrap fuel p key) as [E' _]. rewrite E' in E.
    destruct (segment_iterator fuel p key) as [o'|]; [|done]. injection E as <-.
    by apply seeks_project, IH.
  - destruct Hok as [Hok _], Hs as [Hs Hn]. destruct (segment_iterator_wrap fuel p key) as [_ E'].
    rewrite E' in E. destruct (segment_presents fuel p key Hok) as (o' & E2 & Hp).
    rewrite E2 in E. injection E as <-. eapply seeks_filter; [by apply IH|done|done].
Qed.

Lemma ordered_seeks fuel t o :
  t_ok fuel t -> t_ordered t -> t_GetIterator fuel t = Some o -> seeks o.
Proof.
  revert o. induction t as [h|h|f t IH|q t IH|p key|ts row t IH|tl ls tr rs _ _] using table_ind;
    intros o Hok Hs E.
  - injection E as <-. cbn. unfold slice. by rewrite take_ge.
  - done.
  - cbn in E. destruct (t_GetIterator fuel t) as [o'|]; [|done]. injection E as <-.
    by apply seeks_project, IH.
  - destruct Hok as [Hok _], Hs as [Hs Hn]. cbn in E.
    destruct (t_GetIterator_presents fuel t Hok) as (o' & E2 & Hp). rewrite E2 in E.
    injection E as <-. eapply seeks_filter; [by apply IH|done|done].
  - by apply (segment_seeks fuel p key).
  - cbn in E. destruct (t_GetIterator fuel t) as [o'|]; [|done]. injection E as <-.
    pose proof (IH _ Hok Hs eq_refl). by destruct o'.
  - destruct (t_GetIterator_presents fuel _ Hok) as (o' & E2 & Hp). rewrite E in E2.
    injection E2 as <-. destruct o as [it|]; [|done]. cbn in Hs, Hp.
    assert (exists i : iter_ty STime, it = mkAnyIter STime i) as [i ->].
    { clear Hp Hs. cbn [t_GetIterator] in E. destruct tl as [tl|].
      1: apply bind_Some in E as (l & _ & E); apply bind_Some in E as (r & _ & E).
      all: apply bind_Some in E as (a & E & [= ->]); apply bind_Some in E as (h & _ & [= <-]).
      all: by eexists. }
    destruct Hp as (_ & Ea & _). cbn in Ea |- *. by rewrite Ea.
Qed.

(** ** Scanning the merge *)

Section Scan.
Context (range : WindowRange) (start end_ sr msize : Z).

(** The loop on the merged rows; [c] rows are in the window. *)
Fixpoint window_scan (c : Z) (l : rows) : rows :=
  match l with
  | [] => []
  | e :: l' =>
      if (msize >? 0) && (c >=? msize) then []
      else match GetWindowPositionStatus (c >? sr) (e.1 >? end_) (e.1 <? start) range with
           | kExceedWindow => []
           | kInWindow => e :: window_scan (c + 1) l'
           | kBeforeWindow => window_scan c l'
           end
  end.

(** The rows the frame takes when [c] are in the window. *)
Definition room (c : Z) (l : rows) : nat :=
  let by_rows := Z.to_nat (sr + 1 - c) in
  let n := match frame_type range with
           | kFrameRows => by_rows
           | kFrameRowsRange => cnt start l
           | kFrameRowsMergeRowsRange => Nat.max by_rows (cnt start l)
           end in
  if msize =? 0 then n else Nat.min (Z.to_nat (msize - c)) n.

Lemma cnt_expired (e : Z * Row) (l : rows) : newest_first (e :: l) -> e.1 < start -> cnt start (e :: l) = 0%nat.
Proof.
  intros Hs He. apply StronglySorted_inv in Hs as [_ Hf]. apply cnt_old. constructor; [done|].
  eapply Forall_impl; [exact Hf|]. cbn. intros; lia.
Qed.

Lemma scan_take l : forall c,
  0 <= c -> 0 <= msize -> newest_first l -> Forall (fun e => e.1 <= end_) l ->
  window_scan c l = take (room c l) l.
Proof.
  induction l as [|e l IH]; intros c Hc Hm Hs He; [by rewrite take_nil|].
  apply Forall_cons_1 in He as [He Hel]. pose proof (cnt_expired e l Hs) as Hx.
  apply StronglySorted_inv in Hs as [Hs _]. specialize (fun c H => IH c H Hm Hs Hel).
  pose proof (cnt_cons start e l) as Ec. cbn [window_scan].
  rewrite !Z.gtb_ltb, Z.geb_leb, (proj2 (Z.ltb_ge end_ e.1)) by done.
  destruct (Z.ltb_spec 0 msize), (Z.leb_spec msize c); cbn [andb]; try (assert (room c (e :: l) = 0%nat) as ->;
    [unfold room; rewrite (proj2 (Z.eqb_neq _ 0)) by lia; lia|done]).
  all: unfold GetWindowPositionStatus, room in *; destruct (frame_type range);
    destruct (Z.ltb_spec sr c), (Z.ltb_spec e.1 start); try rewrite decide_True in Ec by lia;
    try specialize (Hx ltac:(lia)).
  all: try rewrite IH by lia.
  all: destruct (Z.eqb_spec msize 0); try lia.
  all: match goal with |- _ = take ?n _ => destruct n eqn:En; cbn; try lia; try done end.
  all: try (f_equal; f_equal; lia).
Qed.
End Scan.

Lemma request_loop_scan range start end_ sr msize n : forall us ls c h,
  Forall2 tracks us ls -> merge_ok ls -> (total ls <= n)%nat ->
  0 <= c -> c + Z.of_nat (total ls) < 18446744073709551616 ->
  request_loop range start end_ sr msize n us (PickIteratorWithMaximizeKey us.*2) c h =
  Some (th_set (th_table h ++
    window_scan range start end_ sr msize c (merge PickIteratorWithMaximizeKey n ls)) h).
Proof.
  induction n as [|n IH]; intros us ls c h Hf Hok Ht Hc Hw; rewrite (tracks_status _ _ Hf);
    destruct (pick_max_spec ls Hok) as [[E Hn]|(q & e & l & E & Hq & _)].
  1,3: rewrite merge_none by done; cbn [request_loop window_scan]; rewrite E;
    cbn [Z.eqb Pos.eqb]; rewrite app_nil_r; by destruct h.
  - rewrite (total_drop _ _ _ _ Hq) in Ht. lia.
  - rewrite (total_drop _ _ _ _ Hq) in Ht, Hw. rewrite (merge_some _ _ _ _ _ _ E Hq).
    pose proof (merge_ok_drop _ _ _ _ Hok Hq) as Hok'.
    destruct (advance_tracks _ _ _ _ _ Hf Hq) as (it & us' & Hu & _ & Hv & Ha & Hf').
    cbn [request_loop window_scan]. rewrite E, (proj2 (Z.eqb_neq _ (-1))), Nat2Z.id by lia.
    destruct ((msize >? 0) && (c >=? msize)); [rewrite app_nil_r; by destruct h|].
    rewrite Hu. cbn [mbind option_bind snd fst st_key IteratorStatus_new].
    destruct (GetWindowPositionStatus _ _ _ _); cbn [exceeds in_window];
      [|rewrite app_nil_r; by destruct h|]; rewrite ?Hv, Ha; cbn [mbind option_bind].
    + rewrite u64_small by lia. rewrite (IH _ _ _ _ Hf' Hok') by lia.
      destruct h; cbn. by rewrite <- app_assoc, <- surjective_pairing.
    + by rewrite (IH _ _ _ _ Hf' Hok') by lia.
Qed.

(** ** Positioning the segments *)

Definition rows_of (s : option TableHandler) : rows := default [] (s ≫= entries).

(** A segment a request window can be taken from: its rows are in time order. *)
Definition segment_ok (fuel : nat) (s : option TableHandler) : Prop :=
  match s with
  | None => True
  | Some t => t_ok fuel t /\ t_ordered t /\ newest_first (default [] (entries t)) /\
      Forall (fun e => 0 <= e.1 < 9223372036854775808) (default [] (entries t))
  end.

Definition upto (end_ : Z) (l : rows) : rows := filter (fun e => e.1 <= end_) l.

Lemma skip_newer end_ l : newest_first l -> skip_while (fun e => end_ <? e.1) l = upto end_ l.
Proof.
  unfold upto. induction 1 as [|e l Hs IH Hf]; [done|]. cbn [skip_while]. rewrite filter_cons.
  destruct (Z.ltb_spec end_ e.1); case_decide; try lia; [done|].
  f_equal. clear IH Hs. induction Hf as [|x l Hx _ IHf]; [done|]. rewrite filter_cons, decide_True by lia.
  by rewrite <- IHf.
Qed.

Lemma request_iterator_tracks fuel s end_ :
  segment_ok fuel s ->
  exists u, request_iterator fuel s end_ = Some u /\ tracks u (upto end_ (rows_of s)).
Proof.
  destruct s as [t|]; [|by eexists]. intros (Hok & Ho & Hn & _). unfold request_iterator, rows_of.
  destruct (t_GetIterator_presents fuel t Hok) as (o & E & Hp). rewrite E.
  pose proof (ordered_seeks fuel t o Hok Ho E) as Hs. cbn [mbind option_bind from_option] in *.
  destruct o as [it|], (entries t) as [l|], (t_contents true t); try done; [|eexists; split; [done|by split]].
  destruct Hp as (Hi & <- & _). destruct (any_seek_sorted end_ it Hi Hs) as (Hi' & _ & Er).
  change (default [] (Some (all it))) with (all it) in *. rewrite skip_newer in Er by done.
  destruct (upto end_ (all it)) as [|e l'] eqn:El.
  - rewrite (exhausted _ Hi' Er). eexists; split; [done|]. by split.
  - rewrite (valid_cons _ _ _ Hi' Er), (key_rest _ _ _ Hi' Er). eexists; split; [done|]. by split.
Qed.

Lemma request_iterators_track fuel segs end_ :
  Forall (segment_ok fuel) segs ->
  exists us, mapM_opt (fun s => request_iterator fuel s end_) segs = Some us /\
    Forall2 tracks us ((upto end_ ∘ rows_of) <$> segs).
Proof.
  induction 1 as [|s segs Hs _ (us & E & IH)]; [by exists []|]. cbn [mapM_opt].
  destruct (request_iterator_tracks fuel s end_ Hs) as (u & Eu & Hu). rewrite Eu, E.
  eexists; split; [done|]. by constructor.
Qed.

(** ** The request window as a scan *)

Lemma upto_concat end_ (ls : list rows) : concat (upto end_ <$> ls) = upto end_ (concat ls).
Proof. induction ls as [|l ls IH]; [done|]. cbn. rewrite IH. unfold upto. by rewrite filter_app. Qed.

Lemma total_upto end_ (ls : list rows) : (total (upto end_ <$> ls) <= total ls)%nat.
Proof. unfold total. rewrite upto_concat. apply length_filter. Qed.

Lemma upto_sorted end_ l : newest_first l -> newest_first (upto end_ l).
Proof. apply desc_filter. Qed.

(** The rows of all segments up to a time, newest first. *)
Definition history (segs : list (option TableHandler)) (end_ : Z) : rows :=
  merge_newest (upto end_ <$> (rows_of <$> segs)).

(** Segments within the bounds of the loops. *)
Definition segments_ok (fuel : nat) (segs : list (option TableHandler)) : Prop :=
  Forall (segment_ok fuel) segs /\ Z.of_nat (length segs) < 2147483648 /\
  (total (rows_of <$> segs) <= fuel)%nat /\ Z.of_nat fuel < 9223372036854775808.

Lemma segments_merge_ok fuel segs end_ :
  segments_ok fuel segs -> merge_ok (upto end_ <$> (rows_of <$> segs)).
Proof.
  intros (Hs & Hl & _). split; [by rewrite !length_fmap|]. unfold UINT64_MAX.
  apply Forall_fmap, Forall_fmap. eapply Forall_impl; [exact Hs|]. intros [t|]; [|constructor].
  intros (_ & _ & _ & Hk). apply Forall_forall. intros x Hx.
  apply list_elem_of_filter in Hx as [_ Hx]. rewrite Forall_forall in Hk. specialize (Hk x Hx). lia.
Qed.

Lemma history_sorted fuel segs end_ : segments_ok fuel segs -> newest_first (history segs end_).
Proof.
  intros Hs. apply merge_newest_sorted; [by eapply segments_merge_ok|]. destruct Hs as [Hs _].
  apply Forall_fmap, Forall_fmap. eapply Forall_impl; [exact Hs|]. intros [t|]; [|constructor].
  intros (_ & _ & Hn & _). by apply upto_sorted.
Qed.

Lemma history_perm fuel segs end_ :
  segments_ok fuel segs -> history segs end_ ≡ₚ upto end_ (concat (rows_of <$> segs)).
Proof. intros Hs. rewrite <- upto_concat. by eapply merge_newest_perm, segments_merge_ok. Qed.

Lemma history_le fuel segs end_ :
  segments_ok fuel segs -> Forall (fun e => e.1 <= end_) (history segs end_).
Proof.
  intros Hs. rewrite history_perm by done. apply Forall_forall. intros e He.
  by apply list_elem_of_filter in He as [? _].
Qed.

Lemma request_union_scan fuel request segs ts r out ex start end_ :
  segments_ok fuel segs -> 0 <= ts ->
  clamp_ts ts (start_offset r) = Some start ->
  clamp_ts ts (if ex && (0 =? end_offset r) then -1 else end_offset r) = Some end_ ->
  let c := if in_window (GetWindowPositionStatus (0 >? start_row r) (end_offset r <? 0) (ts <? start) r)
           then 1 else 0 in
  exists h, RequestUnionWindow fuel request segs ts r out ex = Some h /\
    th_table h = (if out then [(ts, request)] else []) ++
      window_scan r start end_ (start_row r) (max_size r) c (history segs end_).
Proof.
  intros Hs Ht Es Ee c. pose proof (segments_merge_ok fuel segs end_ Hs) as Hok.
  destruct Hs as (Hs & _ & Hf & Hu).
  destruct (request_iterators_track fuel segs end_ Hs) as (us & Eu & Htr).
  rewrite list_fmap_compose in Htr. pose proof (total_upto end_ (rows_of <$> segs)) as Hup.
  unfold RequestUnionWindow. rewrite Z.geb_leb, (proj2 (Z.leb_le 0 ts)), Es by done.
  cbn [mbind option_bind].
  replace (if ex && (0 =? end_offset r) then clamp_ts ts (-1) else clamp_ts ts (end_offset r))
    with (Some end_) by (rewrite <- Ee; by destruct (ex && _)).
  cbn [mbind option_bind]. rewrite Eu. cbn [mbind option_bind].
  assert ((if ts >? 0 then ts else 0) = ts) as ->
    by (rewrite Z.gtb_ltb; destruct (Z.ltb_spec 0 ts); lia).
  replace (match us with [] => -1 | _ => PickIteratorWithMaximizeKey us.*2 end)
    with (PickIteratorWithMaximizeKey us.*2) by (by destruct us).
  rewrite (request_loop_scan _ _ _ _ _ _ us _ _ _ Htr Hok); [|lia|by destruct (in_window _)|].
  - eexists; split; [done|]. fold c. cbn [th_set th_table]. f_equal; [by destruct out|].
    f_equal. apply (merge_enough _ (fun a b => b <= a)); [apply pick_max_spec|done|lia|done].
  - destruct (in_window _); lia.
Qed.

Lemma clamp_ts_max ts offset :
  -9223372036854775808 <= ts + offset < 9223372036854775808 ->
  clamp_ts ts offset = Some (Z.max 0 (ts + offset)).
Proof.
  intros H. unfold clamp_ts. rewrite (proj2 (Z.leb_le _ _)), (proj2 (Z.ltb_lt _ _)) by lia. cbn [andb].
  f_equal. destruct (Z.ltb_spec (ts + offset) 0); lia.
Qed.

(** ** Main properties *)

(** The current row and what a request window takes fill the frame. *)
Lemma frame_room r ts (request : Row) (older : rows) :
  range_ok r ->
  limit r (Z.max 0 (ts + start_offset r)) ((ts, request) :: older) =
  S (room r (Z.max 0 (ts + start_offset r)) (start_row r) (max_size r) 1 older) \/ ts < 0.
Proof.
  intros (H1 & H2 & H3). destruct (Z.lt_ge_cases ts 0); [by right|left].
  unfold limit, keepn, room. rewrite cnt_cons, decide_True by (cbn; lia).
  destruct (frame_type r), (Z.eqb_spec (max_size r) 0); lia.
Qed.

Lemma candidates_older (ex : bool) ts (request : Row) (older : rows) :
  Forall (fun e => e.1 <= (if ex then ts - 1 else ts)) older ->
  candidates ex ((ts, request) :: older) = (ts, request) :: older.
Proof.
  intros Hf. destruct ex; [|done]. cbn. f_equal. induction Hf as [|e l He _ IH]; [done|].
  rewrite filter_cons, decide_True by lia. by rewrite IH.
Qed.

Lemma request_frame fuel request segs ts r (ex : bool) :
  segments_ok fuel segs -> range_ok r -> end_offset r = 0 -> key_ok ex ts ->
  exists h, RequestUnionWindow fuel request segs ts r true ex = Some h /\
    th_table h = frame_spec r ex ((ts, request) :: history segs (if ex then ts - 1 else ts)).
Proof.
  intros Hs Hr He Hk. pose proof Hr as (H1 & H2 & H3). unfold key_ok in Hk.
  set (end_ := if ex then ts - 1 else ts). assert (end_ <= ts /\ 0 <= end_) by (destruct ex; lia).
  destruct (request_union_scan fuel request segs ts r true ex (Z.max 0 (ts + start_offset r)) end_ Hs)
    as (h & E & Eh); [destruct ex; lia|apply clamp_ts_max; destruct ex; lia| |].
  { rewrite He. destruct ex; cbn [andb Z.eqb]; rewrite clamp_ts_max by lia; f_equal; lia. }
  exists h. split; [done|]. rewrite Eh.
  assert (in_window (GetWindowPositionStatus (0 >? start_row r) (end_offset r <? 0)
    (ts <? Z.max 0 (ts + start_offset r)) r) = true) as ->.
  { rewrite He, Z.gtb_ltb, !(proj2 (Z.ltb_ge _ _)) by lia. unfold GetWindowPositionStatus.
    by destruct (frame_type r). }
  pose proof (history_le fuel segs end_ Hs) as Hle.
  rewrite scan_take by (done || lia || by eapply history_sorted).
  unfold frame_spec. rewrite candidates_older by done. cbn [start_of fst].
  destruct (frame_room r ts request (history segs end_) Hr) as [->|]; [done|lia].
Qed.

(** The window of a request over a frame that ends at the current row: the
    request row followed by what the frame selects from the rows of all union
    segments that are not newer than the request (older than the request with
    EXCLUDE CURRENT_TIME), merged from the newest to the oldest. This is the
    specification of the sliding window of batch execution. *)
Theorem request_window_frame fuel request segs ts r (ex : bool) :
  segments_ok fuel segs -> range_ok r -> end_offset r = 0 -> key_ok ex ts ->
  exists h older, RequestUnionWindow fuel request segs ts r true ex = Some h /\
    newest_first older /\
    older ≡ₚ upto (if ex then ts - 1 else ts) (concat (rows_of <$> segs)) /\
    th_table h = frame_spec r ex ((ts, request) :: older).
Proof.
  intros Hs Hr He Hk. destruct (request_frame fuel request segs ts r ex Hs Hr He Hk) as (h & E & Eh).
  eexists h, _. split_and!; [done|by eapply history_sorted|by eapply history_perm|exact Eh].
Qed.

(** C2: for a frame that ends at the current row and contains the request row
    ([output_request_row]), the window of a request holds exactly the rows that
    the sliding window of batch execution holds after it has buffered the rows of
    the segments up to the request, oldest first, and then the request row: any
    frame type and start, size limit and EXCLUDE CURRENT_TIME. A frame that ends
    before the current row is not covered: there the sliding window of batch
    execution keeps rows that have left the frame
    ([WindowProof.delayed_window_keeps_expired]). *)
Theorem request_window_is_batch_window fuel request segs ts r (ex : bool) :
  segments_ok fuel segs -> range_ok r -> end_offset r = 0 -> key_ok ex ts ->
  Forall (fun e : Z * Row => key_ok ex e.1) (concat (rows_of <$> segs)) ->
  exists h w, RequestUnionWindow fuel request segs ts r true ex = Some h /\
    buffer_all HistoryWindow_BufferData
      (rev (history segs (if ex then ts - 1 else ts)) ++ [(ts, request)])
      (set_exclude_current_time ex (HistoryWindow_new r)) = Some w /\
    hw_table w = th_table h.
Proof.
  intros Hs Hr He Hk Hks. destruct (request_frame fuel request segs ts r ex Hs Hr He Hk) as (h & E & Eh).
  set (older := history segs (if ex then ts - 1 else ts)) in *.
  destruct (buffer_all_history r ex (rev ((ts, request) :: older)) Hr He [] _ (refines_new r ex))
    as (w & Ew & Hw).
  - apply Forall_rev. constructor; [done|]. unfold older. rewrite history_perm by done.
    apply Forall_forall. intros x Hx. apply list_elem_of_filter in Hx as [_ Hx].
    by apply (proj1 (Forall_forall _ _) Hks).
  - exists h, w. split_and!; [done|done|]. rewrite (rf_table _ _ _ _ Hw), Eh.
    change (foldl accept [] ?l) with (accepted l). rewrite accepted_sorted; [done|].
    constructor; [by eapply history_sorted|].
    eapply Forall_impl; [by eapply history_le|]. cbn. intros x. destruct ex; lia.
Qed.

(** The window of a request over a time range without size limit, which
    may end before the request: every row of the union segments with a time in
    [[max 0 (ts + start), max 0 (ts + end)]] is in it exactly once, and no
    other row but the request row, newest first. *)
Theorem request_range_window fuel request segs ts r out :
  segments_ok fuel segs -> frame_type r = kFrameRowsRange -> max_size r = 0 ->
  -9223372036854775808 <= start_offset r <= end_offset r -> end_offset r <= 0 ->
  0 <= ts < 9223372036854775808 ->
  exists h inside, RequestUnionWindow fuel request segs ts r out false = Some h /\
    th_table h = (if out then [(ts, request)] else []) ++ inside /\
    newest_first inside /\
    inside ≡ₚ filter (fun e : Z * Row => Z.max 0 (ts + start_offset r) <= e.1 <= Z.max 0 (ts + end_offset r))
                (concat (rows_of <$> segs)).
Proof.
  intros Hs Hf Hm Ho He Ht.
  set (start := Z.max 0 (ts + start_offset r)). set (end_ := Z.max 0 (ts + end_offset r)).
  destruct (request_union_scan fuel request segs ts r out false start end_ Hs)
    as (h & E & Eh); [lia|apply clamp_ts_max; lia|apply clamp_ts_max; cbn [andb]; lia|].
  pose proof (history_sorted fuel segs end_ Hs) as Hn.
  exists h, (filter (fun e => start <= e.1) (history segs end_)). split_and!; [done|..].
  - rewrite Eh. f_equal.
    rewrite scan_take by (done || lia || by eapply history_le || by destruct (in_window _)).
    unfold room. rewrite Hf, Hm. by apply take_cnt.
  - by apply desc_filter.
  - rewrite (history_perm fuel) by done. unfold upto. rewrite list_filter_filter.
    apply reflexive_eq, list_filter_iff. intros; lia.
Qed.

Definition ex_row (n : Z) : Row := Row_of_slice (mkSlice 1 (Some [n])).
Definition ex_segments : list (option TableHandler) :=
  [Some (TTime (mkMemTimeTableHandler [(9, ex_row 1); (6, ex_row 2); (2, ex_row 3)] kDescOrder));
   None;
   Some (TFilter (fun _ => true) (TTime (mkMemTimeTableHandler [(8, ex_row 4); (6, ex_row 5)] kDescOrder)))].

Lemma ex_segments_ok : segments_ok 10 ex_segments.
Proof.
  split_and!; [|done|vm_compute; repeat constructor|done].
  repeat (first [done | lia | constructor]; cbn).
Qed.

Lemma request_window_frame_witness :
  exists h, RequestUnionWindow 10 (ex_row 0) ex_segments 8 (CreateRowsRangeWindow (-3) 0 3) true true = Some h /\
    th_table h = [(8, ex_row 0); (6, ex_row 5); (6, ex_row 2)].
Proof.
  destruct (request_window_frame 10 (ex_row 0) ex_segments 8 (CreateRowsRangeWindow (-3) 0 3) true
    ex_segments_ok) as (h & older & E & _ & _ & Eh); [repeat split; cbn; lia|done|done|].
  exists h. split; [exact E|]. vm_compute in E. injection E as <-. reflexivity.
Defined.

Lemma request_window_is_batch_window_witness :
  exists h w, RequestUnionWindow 10 (ex_row 0) ex_segments 8 (CreateRowsWindow 2) true false = Some h /\
    buffer_all HistoryWindow_BufferData
      [(2, ex_row 3); (6, ex_row 2); (6, ex_row 5); (8, ex_row 4); (8, ex_row 0)]
      (set_exclude_current_time false (HistoryWindow_new (CreateRowsWindow 2))) = Some w /\
    hw_table w = th_table h.
Proof.
  exact (request_window_is_batch_window 10 (ex_row 0) ex_segments 8 (CreateRowsWindow 2) false
    ex_segments_ok ltac:(repeat split; cbn; lia) eq_refl ltac:(done) ltac:(repeat constructor; cbn; lia)).
Defined.

Lemma request_range_window_witness :
  exists h inside, RequestUnionWindow 10 (ex_row 0) ex_segments 10 (CreateRowsRangeWindow (-4) (-2) 0)
      true false = Some h /\
    th_table h = [(10, ex_row 0)] ++ inside /\ length inside = 3%nat.
Proof.
  destruct (request_range_window 10 (ex_row 0) ex_segments 10 (CreateRowsRangeWindow (-4) (-2) 0) true
    ex_segments_ok) as (h & inside & E & Eh & _ & Hp); [done|done|cbn; lia|cbn; lia|lia|].
  exists h, inside. split_and!; [exact E|exact Eh|]. by rewrite Hp.
Defined.
