(* ===== verification/WindowAggProof.v ===== *)
(** * Window aggregation

    For each instance row of a key, [RunWindowAggOnKey] applies the compiled
    function to a window that holds the frame of the row: the frame is taken
    from the instance rows so far and the older rows of all union segments. *)

From stdpp Require Import base numbers option list sorting.
From S2P Require Import Prelude Layout TypeCodec Iterators MemCatalog MemCatalogProof Window WindowProof Rows CatalogWrapper Handlers HandlersProof FnGenerators Generators Joins WindowRunners SegmentMerge.

(** ** What the window keeps of itself *)

Section Flags.
Context {R : Type}.
Implicit Types w : HistoryWindow R.

Lemma BufferEffectiveWindow_flag k row s w b w' :
  BufferEffectiveWindow k row s w = Some (b, w') ->
  hw_instance_not_in_window w' = hw_instance_not_in_window w.
Proof.
  unfold BufferEffectiveWindow. intros E.
  apply bind_Some in E as (t1 & _ & E). apply bind_Some in E as (t2 & _ & [= _ <-]). done.
Qed.

Lemma flush_loop_flag e s n : forall w w',
  flush_loop e s n w = Some w' -> hw_instance_not_in_window w' = hw_instance_not_in_window w.
Proof.
  induction n as [|n IH]; intros w w' E; cbn in E; [by injection E as <-|].
  apply bind_Some in E as (back & _ & E). destruct (back.1 >? e); [by injection E as <-|].
  apply bind_Some in E as ([b w1] & E1 & E). apply bind_Some in E as (h & _ & E).
  apply IH in E. rewrite E. by apply BufferEffectiveWindow_flag in E1.
Qed.

Lemma BufferCurrentHistoryBuffer_flag k row e w b w' :
  BufferCurrentHistoryBuffer k row e w = Some (b, w') ->
  hw_instance_not_in_window w' = hw_instance_not_in_window w.
Proof.
  unfold BufferCurrentHistoryBuffer. intros E. apply bind_Some in E as (w2 & E & [= _ <-]).
  by apply flush_loop_flag in E.
Qed.

Lemma BufferData_flag k row w b w' :
  HistoryWindow_BufferData k row w = Some (b, w') ->
  hw_instance_not_in_window w' = hw_instance_not_in_window w.
Proof.
  unfold HistoryWindow_BufferData, BufferCurrentTimeBuffer. intros E.
  destruct (too_late k w); [by injection E as _ <-|].
  destruct (_ <? _), (_ =? _); try destruct (negb _);
    eauto using BufferEffectiveWindow_flag, BufferCurrentHistoryBuffer_flag.
  all: apply bind_Some in E as ([b1 w1] & E1 & E).
  all: apply BufferEffectiveWindow_flag in E as ->; apply BufferCurrentHistoryBuffer_flag in E1 as ->.
  all: unfold PopEffectiveData; by destruct (hw_table w).
Qed.
End Flags.

(** ** Time lines *)

Fixpoint keep_while {A} (p : A -> bool) (l : list A) : list A :=
  match l with [] => [] | x :: l' => if p x then x :: keep_while p l' else [] end.

Lemma keep_skip {A} (p : A -> bool) l : keep_while p l ++ skip_while p l = l.
Proof. induction l as [|x l IH]; [done|]. cbn. destruct (p x); cbn; by rewrite ?IH. Qed.

Definition before (t : Z) (e : Z * Row) : bool := e.1 <? t.

(** The rows offered to the window up to each instance row: the union rows
    older than it come first. *)
Fixpoint timeline (seen unions instances : rows) : list rows :=
  match instances with
  | [] => []
  | i :: instances' =>
      let seen' := i :: rev (keep_while (before i.1) unions) ++ seen in
      seen' :: timeline seen' (skip_while (before i.1) unions) instances'
  end.

Lemma keep_before_filter t (l : rows) :
  oldest_first l -> keep_while (before t) l = filter (fun e => e.1 < t) l /\
    skip_while (before t) l = filter (fun e => t <= e.1) l.
Proof.
  unfold before. induction 1 as [|e l Hs IH Hf]; [done|]. cbn [keep_while skip_while].
  rewrite !filter_cons. destruct (Z.ltb_spec e.1 t).
  - rewrite decide_True, decide_False by lia. destruct IH as [-> ->]. done.
  - rewrite decide_False, decide_True by lia. split; [symmetry|f_equal; symmetry];
      clear Hs IH; induction Hf as [|x l Hx _ IHf]; try done; rewrite filter_cons;
      [rewrite decide_False by lia|rewrite decide_True by lia; rewrite IHf]; done.
Qed.

(** Every row of [a] is at most as new as every row of [b]. *)
Definition not_newer (a b : rows) : Prop := forall x y, x ∈ a -> y ∈ b -> x.1 <= y.1.

Lemma newest_first_app (a b : rows) :
  newest_first a -> newest_first b -> not_newer b a -> newest_first (a ++ b).
Proof.
  intros Ha Hb Hn. induction Ha as [|e a Ha IH Hf]; [done|]. cbn. constructor.
  - apply IH. intros x y Hx Hy. apply Hn; [done|by right].
  - apply Forall_app. split; [done|]. apply Forall_forall. intros x Hx. apply Hn; [done|by left].
Qed.

Lemma elem_of_rev (x : Z * Row) l : x ∈ rev l <-> x ∈ l.
Proof. rewrite !list_elem_of_In. symmetry. apply in_rev. Qed.

Lemma oldest_first_filter (P : Z * Row -> Prop) `{forall x, Decision (P x)} l :
  oldest_first l -> oldest_first (filter P l).
Proof.
  induction 1 as [|e l Hs IH Hf]; [constructor|]. rewrite filter_cons. case_decide; [|done].
  constructor; [done|]. apply Forall_forall. intros x Hx. apply list_elem_of_filter in Hx as [_ Hx].
  by apply (proj1 (Forall_forall _ _) Hf).
Qed.

Lemma newest_first_rev (l : rows) : oldest_first l -> newest_first (rev l).
Proof.
  induction 1 as [|e l Hs IH Hf]; [constructor|]. cbn. apply newest_first_app; [done|by repeat constructor|].
  intros x y Hx%list_elem_of_singleton Hy. subst x. apply (proj1 (Forall_forall _ _) Hf).
  by apply elem_of_rev.
Qed.

(** The invariant of the loop over the instance rows. *)
Record in_order (seen unions instances : rows) : Prop := {
  io_seen : newest_first seen;
  io_unions : oldest_first unions;
  io_instances : oldest_first instances;
  io_seen_unions : not_newer seen unions;
  io_seen_instances : not_newer seen instances
}.

Lemma in_order_cons seen unions i instances :
  in_order seen unions (i :: instances) ->
  newest_first (rev (keep_while (before i.1) unions) ++ seen) /\
  not_newer (rev (keep_while (before i.1) unions) ++ seen) [i] /\
  in_order (i :: rev (keep_while (before i.1) unions) ++ seen)
    (skip_while (before i.1) unions) instances.
Proof.
  intros [Hs Hu Hi Hsu Hsi]. destruct (keep_before_filter i.1 unions Hu) as [-> ->].
  apply StronglySorted_inv in Hi as [Hi Hf].
  assert (not_newer (rev (filter (fun e => e.1 < i.1) unions) ++ seen) [i]) as Hn.
  { intros x y Hx ->%list_elem_of_singleton. apply elem_of_app in Hx as [Hx|Hx].
    - apply elem_of_rev, list_elem_of_filter in Hx as [? _]. lia.
    - apply Hsi; [done|by left]. }
  assert (newest_first (rev (filter (fun e => e.1 < i.1) unions) ++ seen)) as Hd.
  { apply newest_first_app; [|done|].
    - apply newest_first_rev. by apply oldest_first_filter.
    - intros x y Hx Hy. apply elem_of_rev, list_elem_of_filter in Hy as [_ Hy]. by apply Hsu. }
  split_and!; [done|done|]. constructor.
  - constructor; [done|]. apply Forall_forall. intros x Hx. apply Hn; [done|by left].
  - by apply oldest_first_filter.
  - done.
  - intros x y Hx Hy. apply list_elem_of_filter in Hy as [Hy _].
    apply elem_of_cons in Hx as [->|Hx]; [done|]. etrans; [apply Hn; [done|by left]|done].
  - intros x y Hx Hy. pose proof (proj1 (Forall_forall _ _) Hf y Hy) as Hy'. cbn in Hy'.
    apply elem_of_cons in Hx as [->|Hx]; [done|]. etrans; [apply Hn; [done|by left]|done].
Qed.

(** The rows seen at an instance row: the instance rows up to it and every
    older union row, newest first, the instance row in front. *)
Lemma timeline_spec instances : forall seen unions n i,
  in_order seen unions instances -> instances !! n = Some i ->
  exists s, timeline seen unions instances !! n = Some (i :: s) /\ newest_first (i :: s) /\
    i :: s ≡ₚ take (S n) instances ++ filter (fun e => e.1 < i.1) unions ++ seen.
Proof.
  induction instances as [|i0 instances IH]; intros seen unions n i Ho Hi; [done|].
  destruct (in_order_cons _ _ _ _ Ho) as (_ & _ & Ho').
  destruct (keep_before_filter i0.1 unions (io_unions _ _ _ Ho)) as [Ek Es].
  destruct n as [|n].
  - injection Hi as <-. eexists. split; [done|]. split; [apply Ho'|]. cbn. by rewrite Ek, <- Permutation_rev.
  - destruct (IH _ _ n i Ho' Hi) as (s & Et & Hn & Hp). exists s. split_and!; [done|done|].
    rewrite Hp. cbn [timeline take app]. rewrite Ek, Es, <- Permutation_rev.
    assert (i0.1 <= i.1) as Hle.
    { destruct Ho as [_ _ Hi' _ _]. apply StronglySorted_inv in Hi' as [_ Hf].
      by apply (Forall_lookup_1 _ _ _ _ Hf) in Hi. }
    assert (filter (fun e => e.1 < i.1) unions ≡ₚ
      filter (fun e => e.1 < i0.1) unions ++ filter (fun e => e.1 < i.1) (filter (fun e => i0.1 <= e.1) unions))
      as ->.
    { clear -Hle. induction unions as [|u l IHu]; [done|]. rewrite !filter_cons.
      destruct (decide (u.1 < i0.1)), (decide (u.1 < i.1)), (decide (i0.1 <= u.1)); try lia;
        rewrite ?filter_cons, ?decide_True, ?decide_False by done; rewrite IHu; solve_Permutation. }
    rewrite <- app_assoc. solve_Permutation.
Qed.

(** ** The loops *)

(** The part of [WindowProject] behind the buffering of an instance row. *)
Definition window_output (fn : JitFn) (parameter : Row) (append_slices : Z) (e : Z * Row)
    (w : HistoryWindow Row) : option Row :=
  let '(ret, out) := fn (i64 e.1) (Some e.2) (Some (LWindow w)) parameter in
  if negb (u32 ret =? 0) then Some Row_default
  else
    s ← managed_slice out;
    if append_slices >? 0 then Row_concat_slice s append_slices e.2 else Some (Row_of_slice s).

Section Agg.
Context (spark : bool) (std_sort : ((Z * Row) -> (Z * Row) -> bool) -> list (Z * Row) -> list (Z * Row)).
Context (fuel : nat) (r : WindowAggRunner) (fn : JitFn) (joins : list (option DataHandler)).
Context (parameter : Row) (joined_row : Row -> Row).

Abbreviation range := (wg_window_range (wa_instance_window_gen r)).
Abbreviation ex := (wa_exclude_current_time r).

Definition joined (l : rows) : rows := (fun e => (e.1, joined_row e.2)) <$> l.

(** Rows the window can take: a time stamp, and the row with its joins is not
    empty. *)
Definition good (e : Z * Row) : Prop :=
  key_ok ex e.1 /\ Rows.empty (joined_row e.2) = false /\
  window_row spark std_sort fuel r e.2 joins parameter = Some (joined_row e.2).

Hypothesis Hrange : range_ok range.
Hypothesis Hend : end_offset range = 0.
Hypothesis Hfn : fn_ (wa_window_project_gen r) = Some fn.

Definition win_ok (seen : rows) (w : HistoryWindow Row) : Prop :=
  refines range ex (joined seen) w /\ hw_instance_not_in_window w = false.

Lemma accept_joined seen (e : Z * Row) :
  not_newer seen [e] -> accept (joined seen) (e.1, joined_row e.2) = joined (e :: seen) /\
    refused (joined seen) e.1 = false.
Proof.
  intros Hn. apply (accept_sorted (joined seen) (e.1, joined_row e.2)).
  apply Forall_fmap, Forall_forall. intros x Hx. exact (Hn x e Hx ltac:(by left)).
Qed.

Lemma union_row_step seen e w :
  win_ok seen w -> good e -> not_newer seen [e] ->
  exists w', WindowProject fn e.1 (joined_row e.2) parameter false (wa_append_slices r) w =
      Some (Row_default, w') /\ win_ok (e :: seen) w'.
Proof.
  intros [Hf Hi] (Hk & He & _) Hn. destruct (accept_joined seen e Hn) as [Ea Er].
  destruct (History_step range ex _ w e.1 (joined_row e.2) Hrange Hend Hf Hk) as (w' & E & Hf').
  rewrite Ea in Hf'. exists w'. unfold WindowProject. rewrite He, E, Er. cbn [mbind option_bind negb].
  split; [done|]. split; [done|]. by rewrite (BufferData_flag _ _ _ _ _ E).
Qed.

Lemma instance_row_step seen e w :
  win_ok seen w -> good e -> not_newer seen [e] ->
  exists w', win_ok (e :: seen) w' /\
    WindowProject fn e.1 (joined_row e.2) parameter true (wa_append_slices r) w =
      (out ← window_output fn parameter (wa_append_slices r) (e.1, joined_row e.2) w'; Some (out, w')).
Proof.
  intros [Hf Hi] (Hk & He & _) Hn. destruct (accept_joined seen e Hn) as [Ea Er].
  destruct (History_step range ex _ w e.1 (joined_row e.2) Hrange Hend Hf Hk) as (w' & E & Hf').
  rewrite Ea in Hf'. exists w'. unfold WindowProject. rewrite He, E, Er. cbn [mbind option_bind negb].
  pose proof (BufferData_flag _ _ _ _ _ E) as Hi'. rewrite Hi in Hi'.
  split; [by split|]. unfold window_output. cbn [fst snd].
  destruct (fn _ _ _ _) as [ret out]. destruct (negb (u32 ret =? 0)); [done|]. rewrite Hi'.
  cbn [mbind option_bind]. destruct (managed_slice out); [|done]. cbn [mbind option_bind].
  by destruct (wa_append_slices r >? 0).
Qed.

Lemma merge_oldest_cons ls q e l :
  merge_ok ls -> PickIteratorWithMininumKey (status_of <$> ls) = Z.of_nat q -> ls !! q = Some (e :: l) ->
  merge_oldest ls = e :: merge_oldest (<[q := l]> ls).
Proof.
  intros Hok E Hq. unfold merge_oldest at 1. rewrite (total_drop _ _ _ _ Hq).
  by rewrite (merge_some _ _ _ _ _ _ E Hq).
Qed.

Lemma union_loop_step n : forall us ls l seen w t,
  Forall2 tracks us ls -> merge_ok ls -> (total ls < n)%nat -> merge_oldest ls = l ->
  Forall good l -> oldest_first l -> not_newer seen l -> win_ok seen w ->
  exists us' ls' w', union_loop spark std_sort fuel r joins parameter t n us
      (PickIteratorWithMininumKey us.*2) w = Some (us', PickIteratorWithMininumKey us'.*2, w') /\
    Forall2 tracks us' ls' /\ merge_ok ls' /\ (total ls' <= total ls)%nat /\
    merge_oldest ls' = skip_while (before t) l /\
    win_ok (rev (keep_while (before t) l) ++ seen) w'.
Proof.
  induction n as [|n IH]; intros us ls l seen w t Hf Hok Ht El Hg Hs Hn Hw; [lia|].
  rewrite (tracks_status _ _ Hf). cbn [union_loop].
  destruct (pick_min_spec ls Hok) as [[E Hnil]|(q & e & l' & E & Hq & _)].
  - assert (l = []) as ->.
    { rewrite <- El. by apply merge_none. }
    exists us, ls, w. rewrite E. cbn [Z.geb Z.compare mbind option_bind negb skip_while keep_while rev app].
    split_and!; try done. by rewrite (tracks_status _ _ Hf), E.
  - destruct (advance_tracks _ _ _ _ _ Hf Hq) as (it & us' & Hu & Hk & Hv & Ha & Hf').
    rewrite (merge_oldest_cons _ _ _ _ Hok E Hq) in El. subst l.
    apply Forall_cons_1 in Hg as [He Hg]. apply StronglySorted_inv in Hs as [Hs Hfa].
    rewrite E, Z.geb_leb, (proj2 (Z.leb_le 0 _)), Nat2Z.id, Hu by lia.
    cbn [mbind option_bind snd fst st_key IteratorStatus_new skip_while keep_while].
    unfold before at 1 3. destruct (e.1 <? t) eqn:Elt; cbn [negb].
    + rewrite Hv. cbn [mbind option_bind]. destruct He as (? & ? & Ej). rewrite Ej. cbn [mbind option_bind].
      rewrite Hk, Hfn. cbn [mbind option_bind].
      destruct (union_row_step seen e w Hw) as (w' & -> & Hw');
        [done|intros x y Hx ->%list_elem_of_singleton; apply Hn; [done|by left]|].
      cbn [mbind option_bind]. rewrite Ha. cbn [mbind option_bind].
      rewrite (total_drop _ _ _ _ Hq) in Ht |- *.
      destruct (IH us' _ _ (e :: seen) w' t Hf' (merge_ok_drop _ _ _ _ Hok Hq) ltac:(lia) eq_refl Hg Hs)
        as (us2 & ls2 & w2 & E2 & H1 & H2 & H3 & H4 & H5); [|done|].
      { intros x y Hx Hy. apply elem_of_cons in Hx as [->|Hx]; [|apply Hn; [done|by right]].
        apply (proj1 (Forall_forall _ _) Hfa y Hy). }
      exists us2, ls2, w2. split_and!; try done; [lia|]. cbn [rev]. by rewrite <- app_assoc.
    + exists us, ls, w. split_and!; try done.
      * by rewrite (tracks_status _ _ Hf), E.
      * by apply merge_oldest_cons.
Qed.
(** What is emitted for an instance row when the rows [seen], from the instance
    row in front to the oldest, have been offered to the window. *)
Definition produces (seen : rows) (out : Row) : Prop :=
  exists i w, head seen = Some i /\ hw_table w = frame_spec range ex (joined seen) /\
    window_output fn parameter (wa_append_slices r) (i.1, joined_row i.2) w = Some out.

(** The instance rows that are within the limit of the output. *)
Definition limited (cnt : Z) (l : rows) : rows :=
  if wa_limit_cnt r >? 0 then take (Z.to_nat (wa_limit_cnt r - cnt)) l else l.

Lemma limited_nil cnt l : (wa_limit_cnt r >? 0) && (cnt >=? wa_limit_cnt r) = true -> limited cnt l = [].
Proof.
  unfold limited. rewrite Z.gtb_ltb, Z.geb_leb. destruct (Z.ltb_spec 0 (wa_limit_cnt r)); [|done].
  cbn [andb]. intros Hc%Z.leb_le. by replace (Z.to_nat _) with 0%nat by lia.
Qed.

Lemma limited_cons cnt e l : (wa_limit_cnt r >? 0) && (cnt >=? wa_limit_cnt r) = false ->
  limited cnt (e :: l) = e :: limited (cnt + 1) l.
Proof.
  unfold limited. rewrite Z.gtb_ltb, Z.geb_leb. destruct (Z.ltb_spec 0 (wa_limit_cnt r)); [|done].
  cbn [andb]. intros Hc%Z.leb_gt.
  by replace (Z.to_nat (wa_limit_cnt r - cnt)) with (S (Z.to_nat (wa_limit_cnt r - (cnt + 1)))) by lia.
Qed.

Lemma instance_loop_outputs inst : forall n it us ls l seen w cnt output,
  it_ok it -> rest it = inst -> (length inst <= n)%nat ->
  Forall2 tracks us ls -> merge_ok ls -> (total ls < fuel)%nat -> merge_oldest ls = l ->
  Forall good l -> Forall good inst -> in_order seen l inst -> win_ok seen w ->
  0 <= cnt -> cnt + Z.of_nat (length inst) < 2147483648 ->
  (forall e w, e ∈ inst ->
    is_Some (window_output fn parameter (wa_append_slices r) (e.1, joined_row e.2) w)) ->
  exists outs, instance_loop spark std_sort fuel r joins parameter n it us
      (PickIteratorWithMininumKey us.*2) w cnt output =
      Some (mkMemTableHandler (tb_table output ++ outs) (tb_order_type output)) /\
    Forall2 produces (timeline seen l (limited cnt inst)) outs.
Proof.
  induction inst as [|i inst IH]; intros n it us ls l seen w cnt output Ho Er Hl Hf Hok Ht El Hg Hgi Hio Hw
    Hc Hc' Hout.
  - exists []. destruct n; cbn [instance_loop]; rewrite (exhausted _ Ho Er), app_nil_r;
      (split; [by destruct output|]); unfold limited; destruct (_ >? 0); rewrite ?take_nil; constructor.
  - destruct n as [|n]; [cbn in Hl; lia|]. cbn [length] in *. cbn [instance_loop].
    rewrite (valid_cons _ _ _ Ho Er).
    destruct ((wa_limit_cnt r >? 0) && (cnt >=? wa_limit_cnt r)) eqn:Elim.
    { exists []. rewrite app_nil_r, limited_nil by done. split; [by destruct output|constructor]. }
    rewrite (value_rest _ _ _ Ho Er), (key_rest _ _ _ Ho Er), limited_cons by done.
    cbn [mbind option_bind timeline].
    destruct (in_order_cons _ _ _ _ Hio) as (Hn & Hn1 & Hio').
    destruct (union_loop_step fuel us ls l seen w i.1 Hf Hok Ht El Hg (io_unions _ _ _ Hio)
      (io_seen_unions _ _ _ Hio) Hw) as (us' & ls' & w1 & -> & Hf' & Hok' & Ht' & El' & Hw1).
    cbn [mbind option_bind]. apply Forall_cons_1 in Hgi as [Hi Hgi].
    destruct (instance_row_step _ i w1 Hw1 Hi Hn1) as (w2 & Hw2 & E2).
    destruct Hi as (_ & _ & ->). cbn [mbind option_bind]. rewrite Hfn. cbn [mbind option_bind].
    destruct (Hout i w2) as [out Eo]; [by left|]. rewrite E2, Eo. cbn [mbind option_bind].
    destruct (rest_next _ _ _ Ho Er) as [Er' Ho']. rewrite i32_small by lia.
    destruct (IH n (Next it) us' ls' (skip_while (before i.1) l)
      (i :: rev (keep_while (before i.1) l) ++ seen) w2 (cnt + 1) (tb_AddRow out output)
      Ho' Er' ltac:(lia) Hf' Hok' ltac:(lia) El') as (outs & E & Hp); try done; try lia.
    { rewrite <- (keep_skip (before i.1) l) in Hg. by apply Forall_app in Hg as [_ ?]. }
    { intros e w' He. apply Hout. by right. }
    exists (out :: outs). rewrite E. cbn [tb_AddRow tb_table tb_order_type]. rewrite <- app_assoc.
    split; [done|]. constructor; [|done]. exists i, w2. split_and!; [done|apply Hw2|done].
Qed.
(** ** The segments of a key *)

(** The rows of the key in a partition, as the sort generator leaves them. *)
Definition sorted_rows (key : list Z) (g : WindowGenerator) (p : option PartitionHandler) (l : rows) : Prop :=
  match p with
  | None => l = []
  | Some p => exists o, Sort_table std_sort fuel (wg_sort_gen g) (p_GetSegment p key) false = Some o /\
      match o with
      | None => l = []
      | Some t => t_ok fuel t /\ l = default [] (entries t)
      end
  end.

Lemma union_iterator_tracks key g p l :
  sorted_rows key g p l ->
  exists u, union_iterator std_sort fuel p (wg_sort_gen g) key = Some u /\ tracks u l.
Proof.
  unfold union_iterator. destruct p as [p|]; [|intros ->; eexists; split; [done|by split]].
  intros (o & -> & Ho). cbn [mbind option_bind]. destruct o as [t|]; [|subst l; eexists; split; [done|by split]].
  destruct Ho as [Hok ->]. destruct (entries t) as [l|] eqn:El.
  - destruct (table_iterator fuel t l Hok El) as (it & -> & _ & _ & Ho & Er). cbn [mbind option_bind].
    change (default [] (Some l)) with l. destruct l as [|e l].
    + rewrite (exhausted _ Ho Er). eexists; split; [done|]. by split.
    + rewrite (valid_cons _ _ _ Ho Er), (key_rest _ _ _ Ho Er). eexists; split; [done|]. by split.
  - rewrite (table_null fuel t Hok El). eexists; split; [done|]. by split.
Qed.

Lemma union_iterators_track key gens parts ls :
  Forall3 (sorted_rows key) gens parts ls ->
  exists us, union_iterators std_sort fuel parts gens key = Some us /\ Forall2 tracks us ls.
Proof.
  induction 1 as [|g p l gens parts ls Hp _ (us & E & Hus)]; [by exists []|]. cbn [union_iterators].
  destruct (union_iterator_tracks key g p l Hp) as (u & -> & Hu). cbn [mbind option_bind]. rewrite E.
  eexists; split; [done|]. by constructor.
Qed.

(** Instance rows and union rows an aggregation can run on: in time order,
    within the bounds of the loops, and the compiled function returns. *)
Record agg_ok (inst : rows) (ls : list rows) : Prop := {
  ag_inst : oldest_first inst;
  ag_unions : Forall oldest_first ls;
  ag_merge : merge_ok ls;
  ag_fuel : (length inst <= fuel)%nat /\ (total ls < fuel)%nat;
  ag_good : Forall good (inst ++ concat ls);
  ag_fn : forall e w, e ∈ inst ->
    is_Some (window_output fn parameter (wa_append_slices r) (e.1, joined_row e.2) w)
}.

Lemma agg_ok_order inst ls : agg_ok inst ls -> in_order [] (merge_oldest ls) inst.
Proof.
  intros [Hi Hu Hm _ _ _]. constructor; [constructor|by apply merge_oldest_sorted|done|..];
    by intros x y Hx%not_elem_of_nil.
Qed.

Lemma win_ok_new : win_ok [] (set_exclude_current_time ex
  (set_instance_not_in_window false (HistoryWindow_new range))).
Proof. split; [|done]. apply (refines_new range ex). Qed.

Lemma window_agg_outputs key part parts inst ls output :
  wa_instance_not_in_window r = false ->
  sorted_rows key (wa_instance_window_gen r) (Some part) inst ->
  Forall3 (sorted_rows key) (wa_union_windows_gen r) parts ls ->
  agg_ok inst ls -> tb_GetCount output + Z.of_nat (length inst) < 2147483648 ->
  exists outs, RunWindowAggOnKey spark std_sort fuel r parameter part parts joins key output =
      Some (mkMemTableHandler (tb_table output ++ outs) (tb_order_type output)) /\
    Forall2 produces (timeline [] (merge_oldest ls) (limited (tb_GetCount output) inst)) outs.
Proof.
  intros Hni (o & Es & Ho) Hps Hag Hc. unfold RunWindowAggOnKey. rewrite Es. cbn [mbind option_bind].
  assert (forall cnt, limited cnt [] = []) as Hnil
    by (intros cnt; unfold limited; rewrite take_nil; by destruct (_ >? _)).
  assert (Some output = Some (mkMemTableHandler (tb_table output ++ []) (tb_order_type output))) as Eout
    by (rewrite app_nil_r; by destruct output).
  destruct o as [t|]; [|subst inst; exists []; split; [exact Eout|rewrite Hnil; constructor]].
  destruct Ho as [Hok ->]. destruct (entries t) as [l|] eqn:El.
  2:{ rewrite (table_null fuel t Hok El). exists []. split; [exact Eout|]. cbn. rewrite Hnil. constructor. }
  destruct (table_iterator fuel t l Hok El) as (it & -> & _ & _ & Hi & Er). cbn [mbind option_bind].
  destruct (union_iterators_track key _ _ _ Hps) as (us & -> & Hus). cbn [mbind option_bind].
  replace (match us with [] => -1 | _ => PickIteratorWithMininumKey us.*2 end)
    with (PickIteratorWithMininumKey us.*2) by (by destruct us).
  pose proof (agg_ok_order _ _ Hag) as Hord. destruct Hag as [_ _ Hm [Hf1 Hf2] Hg Hfn'].
  apply Forall_app in Hg as [Hgi Hgu]. change (default [] (Some l)) with l in *.
  assert (0 <= tb_GetCount output) by apply Nat2Z.is_nonneg.
  rewrite i32_small, Hni by lia.
  apply (instance_loop_outputs l fuel (SeekToFirst it) us ls (merge_oldest ls)); try done.
  - by rewrite merge_oldest_perm.
  - apply win_ok_new.
Qed.
Lemma limited_prefix cnt l n i :
  limited cnt l !! n = Some i -> l !! n = Some i /\ take (S n) (limited cnt l) = take (S n) l.
Proof.
  unfold limited. destruct (_ >? 0); [|done]. intros [Hi Hn]%lookup_take_Some. split; [done|].
  rewrite take_take. f_equal. lia.
Qed.

Lemma limited_order cnt seen unions l : in_order seen unions l -> in_order seen unions (limited cnt l).
Proof.
  intros [H1 H2 H3 H4 H5]. unfold limited. destruct (_ >? 0); [|by constructor]. constructor; try done.
  - revert H3. generalize (Z.to_nat (wa_limit_cnt r - cnt)). clear H5.
    intros n Hs. revert n. induction Hs as [|e l Hs IH Hf]; intros [|n]; try by constructor.
    cbn. constructor; [apply IH|by apply Forall_take].
  - intros x y Hx Hy. apply H5; [done|]. apply list_elem_of_lookup in Hy as [k Hy].
    apply lookup_take_Some in Hy as [Hy _]. by eapply list_elem_of_lookup_2.
Qed.

(** C6: window aggregation on a key. One row is emitted per instance row, in
    order, up to the limit of the runner: the compiled function applied to a
    window that holds the frame of the instance row. The frame is chosen from
    the instance rows up to this one and all strictly older rows of every
    union segment, in time order with the instance row newest. Frames that end
    at the current row and hold it (no INSTANCE_NOT_IN_WINDOW); every frame type,
    with and without EXCLUDE CURRENT_TIME, size limits and window joins. *)
Theorem window_agg_frames key part parts inst ls output :
  wa_instance_not_in_window r = false ->
  sorted_rows key (wa_instance_window_gen r) (Some part) inst ->
  Forall3 (sorted_rows key) (wa_union_windows_gen r) parts ls ->
  agg_ok inst ls -> tb_GetCount output + Z.of_nat (length inst) < 2147483648 ->
  exists outs, RunWindowAggOnKey spark std_sort fuel r parameter part parts joins key output =
      Some (mkMemTableHandler (tb_table output ++ outs) (tb_order_type output)) /\
    length outs = length (limited (tb_GetCount output) inst) /\
    forall n i, limited (tb_GetCount output) inst !! n = Some i ->
      exists out seen w, outs !! n = Some out /\
        newest_first (i :: seen) /\
        i :: seen ≡ₚ take (S n) inst ++ filter (fun e => e.1 < i.1) (concat ls) /\
        hw_table w = frame_spec range ex (joined (i :: seen)) /\
        window_output fn parameter (wa_append_slices r) (i.1, joined_row i.2) w = Some out.
Proof.
  intros Hni Hs Hps Hag Hc. destruct (window_agg_outputs key part parts inst ls output Hni Hs Hps Hag Hc)
    as (outs & E & Hp). exists outs. split; [done|].
  pose proof (limited_order (tb_GetCount output) _ _ _ (agg_ok_order _ _ Hag)) as Hord.
  split.
  - rewrite <- (Forall2_length _ _ _ Hp). clear. generalize (limited (tb_GetCount output) inst).
    intros l. generalize (@nil (Z * Row)) (merge_oldest ls).
    induction l as [|i l IH]; intros seen us; [done|]. cbn. by rewrite IH.
  - intros n i Hi. destruct (timeline_spec _ _ _ n i Hord Hi) as (seen & Et & Hn & Hperm).
    destruct (Forall2_lookup_l _ _ _ _ _ Hp Et) as (out & Ho & i' & w & [= <-] & Hw & Hout).
    exists out, seen, w. split_and!; try done. destruct (limited_prefix _ _ _ _ Hi) as [_ Et'].
    rewrite Hperm, Et', app_nil_r. f_equiv. destruct Hag. by rewrite merge_oldest_perm.
Qed.
End Agg.

(** ** A concrete aggregation *)

(** A compiled function that counts the rows of its window. *)
Definition ex_count : JitFn := fun _ _ l _ =>
  match l with
  | Some (LWindow w) => (0, Some [1; 1; 7; 0; 0; 0; Z.of_nat (length (hw_table w))])
  | _ => (1, None)
  end.
Definition ex_fn (f : option JitFn) : FnGenerator := mkFnGenerator f [] RowView.RowView_default [].
Definition ex_window (range : WindowRange) : WindowGenerator :=
  mkWindowGenerator (ex_fn None) (mkSortGenerator false true (ex_fn None)) range.
Definition ex_agg : WindowAggRunner :=
  mkWindowAggRunner 0 false false 0 (ex_window (CreateRowsRangeWindow (-4) 0 0))
    [ex_window WindowRange_default] [] (ex_fn (Some ex_count)).
Definition ex_instances : rows := [(3, Row_of_string [1]); (8, Row_of_string [2])].
Definition ex_unions : rows := [(2, Row_of_string [3]); (5, Row_of_string [4]); (8, Row_of_string [5])].
Definition ex_part (l : rows) : PartitionHandler := PMem (mkMemPartitionHandler [([107], l)] kAscOrder).

Lemma ex_agg_ok : agg_ok false merge_sort_by 9 ex_agg ex_count [] Row_default (fun row => row)
  ex_instances [ex_unions].
Proof.
  constructor.
  - repeat (constructor; cbn; try lia).
  - repeat (constructor; cbn; try lia).
  - split; [done|]. unfold UINT64_MAX. repeat (constructor; cbn; try lia).
  - split; vm_compute; repeat constructor.
  - repeat constructor; cbn; try lia; unfold key_ok; cbn; try lia.
  - intros e w _. by eexists.
Qed.

Lemma window_agg_frames_witness :
  exists outs, RunWindowAggOnKey false merge_sort_by 9 ex_agg Row_default (ex_part ex_instances)
      [Some (ex_part ex_unions)] [] [107] (mkMemTableHandler [] kNoneOrder) =
    Some (mkMemTableHandler ([] ++ outs) kNoneOrder) /\ length outs = 2%nat.
Proof.
  destruct (window_agg_frames false merge_sort_by 9 ex_agg ex_count [] Row_default (fun row => row)
    ltac:(repeat split; cbn; lia) eq_refl eq_refl [107] (ex_part ex_instances)
    [Some (ex_part ex_unions)] ex_instances [ex_unions] (mkMemTableHandler [] kNoneOrder) eq_refl)
    as (outs & E & Hl & _).
  - eexists. split; [reflexivity|]. by split.
  - constructor; [|constructor]. eexists. split; [reflexivity|]. by split.
  - apply ex_agg_ok.
  - reflexivity.
  - exists outs. split; [exact E|exact Hl].
Defined.
