(* ===== verification/RunnersProof.v ===== *)
(** * Plans: caches and batches do not change results

    The meaning of a plan is its evaluation without caches ([denote]), a
    function of the request and the parameters. [RunWithCache] computes it
    whatever is cached, and [BatchRequestRun] computes it for every request of
    a batch. *)

From stdpp Require Import base numbers option list gmap.
From S2P Require Import Prelude Layout TypeCodec Iterators MemCatalog MemCatalogProof Window Rows CatalogWrapper Handlers HandlersProof FnGenerators Generators Joins WindowRunners Runners.

(** Induction over a plan that reaches all inputs of a runner. *)
Lemma runner_ind (P : Runner -> Prop) :
  (forall id c b lim op ps us js, Forall P ps -> Forall P us -> Forall P js ->
    P (mkRunner id c b lim op ps us js)) ->
  forall r, P r.
Proof.
  intros H. fix IH 1. intros [id c b lim op ps us js].
  apply H; [induction ps|induction us|induction js]; constructor; auto.
Qed.

Definition r_need_cache (r : Runner) : bool := let '(mkRunner _ c _ _ _ _ _ _) := r in c.

(** All runners of a plan. *)
Fixpoint nodes (r : Runner) : list Runner :=
  match r with
  | mkRunner _ _ _ _ _ ps us js =>
      r :: concat (nodes <$> ps) ++ concat (nodes <$> us) ++ concat (nodes <$> js)
  end.

Section Plans.
Context (spark : bool) (float_text double_text : Z -> list Z).
Context (std_sort : ((Z * Row) -> (Z * Row) -> bool) -> list (Z * Row) -> list (Z * Row)).
Context (fuel : nat).

Abbreviation run := (Run spark float_text double_text std_sort fuel).
Abbreviation run_cached := (RunWithCache spark float_text double_text std_sort fuel).
Abbreviation run_batch := (BatchRequestRun spark float_text double_text std_sort fuel).

(** Inputs whose evaluation does not touch the context. *)
Definition pure_inputs (ds : option (list (option DataHandler))) : RunInputs :=
  fun ctx => l ← ds; Some (l, ctx).

Definition env (request parameter : Row) : RunnerContext := mkRunnerContext request [] parameter ∅ ∅.

(** The meaning of a plan on a request. *)
Fixpoint denote (request parameter : Row) (r : Runner) : option (option DataHandler) :=
  match r with
  | mkRunner _ _ _ lim op ps us js =>
      inputs ← mapM_opt (denote request parameter) ps;
      res ← run op lim (env request parameter) inputs
              (pure_inputs (mapM_opt (denote request parameter) us))
              (pure_inputs (mapM_opt (denote request parameter) js));
      Some res.1
  end.

(** ** One runner *)

Definition same_request (request parameter : Row) (c : RunnerContext) : Prop :=
  ctx_request c = request /\ ctx_parameter c = parameter.

(** A computation in a context that keeps an invariant has a given result. *)
Definition gives {A} (I : RunnerContext -> Prop) (v : option A) (o : option (A * RunnerContext)) : Prop :=
  match v with
  | None => o = None
  | Some a => exists c, o = Some (a, c) /\ I c
  end.

Definition agree {A} (I : RunnerContext -> Prop) (o1 o2 : option (A * RunnerContext)) : Prop :=
  gives I (option_map fst o1) o2.

Lemma agree_ret {A} (I : RunnerContext -> Prop) (a : A) c1 c2 : I c2 -> agree I (Some (a, c1)) (Some (a, c2)).
Proof. intros Hc. by exists c2. Qed.

Lemma agree_bind {A B} I (v : option A) (f g : A -> option (B * RunnerContext)) :
  (forall a, agree I (f a) (g a)) -> agree I (v ≫= f) (v ≫= g).
Proof. by destruct v; cbn. Qed.

Lemma agree_inputs {B} I us (u : RunInputs) e c
    (f g : list (option DataHandler) * RunnerContext -> option (B * RunnerContext)) :
  gives I us (u c) -> (forall l c', I c' -> agree I (f (l, e)) (g (l, c'))) ->
  agree I (pure_inputs us e ≫= f) (u c ≫= g).
Proof. unfold pure_inputs. destruct us as [l|]; cbn; [|by intros ->]. intros (c' & -> & Hc) Hf. by apply Hf. Qed.

Lemma window_agg_agree I r input us js u j request parameter ctx :
  (forall c, I c -> ctx_parameter c = parameter) -> I ctx ->
  (forall c, I c -> gives I us (u c)) -> (forall c, I c -> gives I js (j c)) ->
  agree I (WindowAgg_Run spark std_sort fuel r (env request parameter) input (pure_inputs us) (pure_inputs js))
    (WindowAgg_Run spark std_sort fuel r ctx input u j).
Proof.
  intros Hp Hi Hu Hj. unfold WindowAgg_Run. rewrite (Hp _ Hi). cbn [env ctx_parameter].
  destruct input as [d|]; [|by apply agree_ret]. apply agree_bind. intros [p|]; [|by apply agree_ret].
  destruct (p_GetWindowIterator p); [|by apply agree_ret].
  apply agree_inputs; [by apply Hu|]. intros unions c1 Hc1. apply agree_bind. intros parts.
  apply agree_inputs; [by apply Hj|]. intros jds c2 Hc2. apply agree_bind. intros out. by apply agree_ret.
Qed.

Lemma request_union_agree I r lhs rhs us u request parameter ctx :
  (forall c, I c -> ctx_parameter c = parameter) -> I ctx -> (forall c, I c -> gives I us (u c)) ->
  agree I (RequestUnion_Run spark std_sort fuel r (env request parameter) lhs rhs (pure_inputs us))
    (RequestUnion_Run spark std_sort fuel r ctx lhs rhs u).
Proof.
  intros Hp Hi Hu. unfold RequestUnion_Run. rewrite (Hp _ Hi). cbn [env ctx_parameter].
  destruct lhs as [[lr|t|p]|]; try by apply agree_ret. destruct rhs; [|by apply agree_ret].
  apply agree_bind. intros row. apply agree_bind. intros ts.
  apply agree_inputs; [by apply Hu|]. intros unions c1 Hc1. apply agree_bind. intros segs.
  apply agree_bind. intros out. by apply agree_ret.
Qed.

(** Running one runner in any context with the same parameters; the request
    matters only to the request runner. *)
Lemma run_agree I op lim inputs us js u j request parameter ctx :
  (forall c, I c -> ctx_parameter c = parameter) ->
  (op = OpRequest -> ctx_request ctx = request) -> I ctx ->
  (forall c, I c -> gives I us (u c)) -> (forall c, I c -> gives I js (j c)) ->
  agree I (run op lim (env request parameter) inputs (pure_inputs us) (pure_inputs js))
    (run op lim ctx inputs u j).
Proof.
  intros Hp Hr Hi Hu Hj. destruct op; cbn [Runners.Run];
    try (by apply window_agg_agree); try (by apply request_union_agree);
    rewrite ?(Hp _ Hi); cbn [env ctx_parameter ctx_request];
    try (by apply agree_ret); try (apply agree_bind; intros ?; by apply agree_ret).
  - rewrite Hr by done. by apply agree_ret.
  - destruct (input_at inputs 0); [|by apply agree_ret]. apply agree_bind; intros ?; by apply agree_ret.
Qed.

(** ** Caches *)

Section Cached.
Context (root : Runner) (request parameter : Row) (requests : list Row) (batch : gmap Z DataHandlerList).

(** Runners that are cached are told apart by their ids. *)
Definition ids_unique : Prop :=
  forall r1 r2, r1 ∈ nodes root -> r2 ∈ nodes root ->
    r_need_cache r1 = true -> r_need_cache r2 = true -> r_id r1 = r_id r2 -> r1 = r2.

(** What is cached is the result of the runner with this id. *)
Definition cache_ok (c : RunnerContext) : Prop :=
  (ctx_request c = request /\ ctx_parameter c = parameter /\
   ctx_requests c = requests /\ ctx_batch_cache c = batch) /\
  forall r d, r ∈ nodes root -> r_need_cache r = true -> GetCache (r_id r) c = Some d ->
    denote request parameter r = Some (Some d).

Lemma SetCache_ok c r res :
  ids_unique -> cache_ok c -> r ∈ nodes root -> r_need_cache r = true ->
  denote request parameter r = Some res -> cache_ok (SetCache (r_id r) res c).
Proof.
  intros Hu (H1 & Hc) Hr Hn Hd. split; [done|]. intros r' d Hr' Hn' Hg.
  unfold GetCache in Hg. cbn [SetCache ctx_cache] in Hg. rewrite lookup_insert in Hg.
  case_decide as Heq; [|by apply Hc]. rewrite (Hu r' r) by done. by rewrite Hd, Hg.
Qed.

Lemma run_forward_gives l ctx :
  Forall (fun r => forall c, cache_ok c -> gives cache_ok (denote request parameter r) (run_cached r c)) l ->
  cache_ok ctx -> gives cache_ok (mapM_opt (denote request parameter) l) (run_forward run_cached l ctx).
Proof.
  intros Hl. revert ctx. induction Hl as [|r l Hr _ IH]; intros ctx Hc; [by exists ctx|].
  cbn. specialize (Hr ctx Hc). destruct (denote request parameter r) as [d|]; cbn in Hr |- *; [|by rewrite Hr].
  destruct Hr as (c1 & -> & Hc1). cbn. specialize (IH c1 Hc1).
  destruct (mapM_opt _ l) as [ds|]; cbn in IH |- *; [|by rewrite IH].
  destruct IH as (c2 & -> & Hc2). cbn. by exists c2.
Qed.

Lemma run_backward_gives l ctx :
  Forall (fun r => forall c, cache_ok c -> gives cache_ok (denote request parameter r) (run_cached r c)) l ->
  cache_ok ctx -> gives cache_ok (mapM_opt (denote request parameter) l) (run_backward run_cached l ctx).
Proof.
  intros Hl. revert ctx. induction Hl as [|r l Hr _ IH]; intros ctx Hc; [by exists ctx|].
  cbn. specialize (IH ctx Hc). destruct (mapM_opt _ l) as [ds|]; cbn in IH |- *.
  2:{ rewrite IH. by destruct (denote _ _ r). }
  destruct IH as (c1 & -> & Hc1). cbn. specialize (Hr c1 Hc1).
  destruct (denote request parameter r) as [d|]; cbn in Hr |- *; [|by rewrite Hr].
  destruct Hr as (c2 & -> & Hc2). by exists c2.
Qed.
Lemma nodes_inputs id c b lim op ps us js x :
  x ∈ ps ++ us ++ js -> nodes x ⊆ nodes (mkRunner id c b lim op ps us js).
Proof.
  intros Hx y Hy. cbn [nodes]. right. rewrite !elem_of_app in Hx |- *.
  destruct Hx as [Hx|[Hx|Hx]]; [left|right; left|right; right]; apply list_elem_of_In, in_concat;
    exists (nodes x); (split; [by apply in_map, list_elem_of_In|by apply list_elem_of_In]).
Qed.

Lemma run_cached_gives r :
  ids_unique -> nodes r ⊆ nodes root ->
  forall c, cache_ok c -> gives cache_ok (denote request parameter r) (run_cached r c).
Proof.
  intros Hu. induction r as [id nc nb lim op ps us js Hps Hus Hjs] using runner_ind. intros Hsub c Hc.
  assert (forall l, l ⊆ ps ++ us ++ js ->
    Forall (fun r => nodes r ⊆ nodes root -> forall c, cache_ok c ->
      gives cache_ok (denote request parameter r) (run_cached r c)) l ->
    Forall (fun r => forall c, cache_ok c -> gives cache_ok (denote request parameter r) (run_cached r c)) l)
    as Hin.
  { intros l Hl Hf. apply Forall_forall. intros x Hx. apply (proj1 (Forall_forall _ _) Hf x Hx).
    etrans; [by eapply nodes_inputs, Hl|exact Hsub]. }
  assert (mkRunner id nc nb lim op ps us js ∈ nodes root) as Hroot by (apply Hsub; by left).
  cbn [RunWithCache]. destruct (if nc then GetCache id c else None) as [d|] eqn:Eg.
  { destruct nc; [|done]. rewrite (proj2 Hc _ d Hroot eq_refl Eg). by exists c. }
  cbn [denote].
  pose proof (run_backward_gives ps c (Hin ps ltac:(set_solver) Hps) Hc) as Hb.
  destruct (mapM_opt _ ps) as [inputs|] eqn:Eps; cbn in Hb |- *; [|by rewrite Hb].
  destruct Hb as (c1 & -> & Hc1). cbn [mbind option_bind].
  pose proof (run_agree cache_ok op lim inputs _ _ (run_forward run_cached us) (run_forward run_cached js)
    request parameter c1 ltac:(by intros ? ((? & ? & ?) & ?)) ltac:(by destruct Hc1 as ((? & _) & _)) Hc1
    (fun c Hc => run_forward_gives us c (Hin us ltac:(set_solver) Hus) Hc)
    (fun c Hc => run_forward_gives js c (Hin js ltac:(set_solver) Hjs) Hc)) as Ha.
  unfold agree in Ha. destruct (run op lim (env request parameter) inputs _ _) as [[res e]|] eqn:Er;
    cbn in Ha |- *; [|by rewrite Ha].
  destruct Ha as (c2 & -> & Hc2). cbn [mbind option_bind]. eexists. split; [done|].
  destruct nc; [|done]. apply (SetCache_ok c2 (mkRunner id true nb lim op ps us js)); try done.
  cbn [denote]. rewrite Eps. cbn [mbind option_bind]. by rewrite Er.
Qed.
End Cached.

Lemma cache_ok_empty root c :
  ctx_cache c = ∅ -> cache_ok root (ctx_request c) (ctx_parameter c) (ctx_requests c) (ctx_batch_cache c) c.
Proof. intros He. split; [done|]. intros r d _ _ Hg. unfold GetCache in Hg. by rewrite He, lookup_empty in Hg. Qed.

(** ** Batches *)

Section Batch.
Context (root : Runner) (parameter : Row) (requests : list Row) (request0 : Row).

(** The inputs of window unions and window joins do not depend on the request,
    and neither does a runner whose result is shared by the whole batch. *)
Definition batch_shared : Prop :=
  forall id nc nb lim op ps us js, mkRunner id nc nb lim op ps us js ∈ nodes root ->
    (forall x q, x ∈ us ++ js -> denote q parameter x = denote request0 parameter x) /\
    (nb = true -> forall q q', q ∈ requests -> q' ∈ requests ->
      denote q parameter (mkRunner id nc nb lim op ps us js) =
      denote q' parameter (mkRunner id nc nb lim op ps us js)).

(** A list of results that has the result of the plan for every request. *)
Definition represents (r : Runner) (l : DataHandlerList) : Prop :=
  forall i q, requests !! i = Some q -> denote q parameter r = Some (dl_Get l (Z.of_nat i)).

Definition batch_ok (c : RunnerContext) : Prop :=
  cache_ok root request0 parameter requests (ctx_batch_cache c) c /\
  forall r l, r ∈ nodes root -> r_need_cache r = true -> GetBatchCache (r_id r) c = Some l ->
    represents r l.

Hypothesis Hids : ids_unique root.
Hypothesis Hshared : batch_shared.

Lemma SetBatchCache_ok c r l :
  batch_ok c -> r ∈ nodes root -> r_need_cache r = true -> represents r l ->
  batch_ok (SetBatchCache (r_id r) l c).
Proof.
  intros [[(? & ? & ? & ?) Hc] Hb] Hr Hn Hl. split; [by split|].
  intros r' l' Hr' Hn' Hg. unfold GetBatchCache in Hg. cbn [SetBatchCache ctx_batch_cache] in Hg.
  rewrite lookup_insert in Hg. case_decide; [|by apply Hb]. injection Hg as <-. by rewrite (Hids r' r).
Qed.

Lemma mapM_opt_ext {A B} (f g : A -> option B) l :
  (forall x, x ∈ l -> f x = g x) -> mapM_opt f l = mapM_opt g l.
Proof.
  induction l as [|x l IH]; intros H; [done|]. cbn. rewrite (H x) by (by left).
  rewrite IH; [done|]. intros. apply H. by right.
Qed.

(** The inputs of the window operators in a batch. *)
Lemma batch_inputs_give id nc nb lim op ps us js l q c :
  mkRunner id nc nb lim op ps us js ∈ nodes root -> nodes (mkRunner id nc nb lim op ps us js) ⊆ nodes root ->
  l = us \/ l = js -> batch_ok c ->
  gives batch_ok (mapM_opt (denote q parameter) l) (run_forward run_cached l c).
Proof.
  intros Hr Hsub Hl [Hc Hb].
  assert (forall x, x ∈ l -> x ∈ us ++ js) as Hin by (destruct Hl; set_solver).
  rewrite (mapM_opt_ext _ (denote request0 parameter))
    by (intros x Hx; by eapply (proj1 (Hshared _ _ _ _ _ _ _ _ Hr)), Hin).
  assert (gives (cache_ok root request0 parameter requests (ctx_batch_cache c))
    (mapM_opt (denote request0 parameter) l) (run_forward run_cached l c)) as Hg.
  { apply run_forward_gives; [|done]. apply Forall_forall. intros x Hx. apply run_cached_gives; [done|].
    etrans; [|exact Hsub]. apply nodes_inputs, elem_of_app. right. by apply Hin. }
  destruct (mapM_opt _ l) as [ds|]; [|done]. destruct Hg as (c' & E & Hc'). exists c'. split; [done|].
  assert (ctx_batch_cache c' = ctx_batch_cache c) as Eb by apply Hc'.
  split; [by rewrite Eb|]. intros r ls. unfold GetBatchCache. rewrite Eb. apply Hb.
Qed.
(** The loop over the requests, when each step computes a plan. *)
Lemma batch_loop_represents r step ls n : forall i outs c,
  (forall c k q, batch_ok c -> requests !! k = Some q -> exists res c',
    step ((fun l => dl_Get l (Z.of_nat k)) <$> ls) c = Some (res, c') /\ batch_ok c' /\
    denote q parameter r = Some res) ->
  (i + n = length requests)%nat -> length outs = i -> batch_ok c ->
  (forall k q d, requests !! k = Some q -> outs !! k = Some d -> denote q parameter r = Some d) ->
  exists outs' c', batch_loop false (Z.of_nat (length requests)) step ls n (Z.of_nat i) outs c =
      Some (DVector outs', c') /\ batch_ok c' /\ length outs' = length requests /\
    forall k q d, requests !! k = Some q -> outs' !! k = Some d -> denote q parameter r = Some d.
Proof.
  induction n as [|n IH]; intros i outs c Hstep Hn Ho Hc Hd.
  - exists outs, c. split_and!; try done. lia.
  - destruct (lookup_lt_is_Some_2 requests i ltac:(lia)) as [q Hq].
    destruct (Hstep c i q Hc Hq) as (res & c1 & E & Hc1 & Hres). cbn [batch_loop]. rewrite E.
    cbn [mbind option_bind]. replace (Z.of_nat i + 1) with (Z.of_nat (S i)) by lia.
    apply IH; try done; [lia|unfold dl_Add; rewrite length_app; cbn; lia|].
    intros k q' d Hq' Hk. apply lookup_app_Some in Hk as [Hk|[Hk1 Hk]]; [by eapply Hd|].
    apply list_lookup_singleton_Some in Hk as [Hk <-]. replace k with i in Hq' by lia. congruence.
Qed.

Lemma represents_vector r outs :
  length outs = length requests ->
  (forall k q d, requests !! k = Some q -> outs !! k = Some d -> denote q parameter r = Some d) ->
  represents r (DVector outs).
Proof.
  intros Hl Hd i q Hq. apply lookup_lt_Some in Hq as Hlt. cbn.
  rewrite (proj2 (Z.ltb_lt _ _)), Nat2Z.id by lia.
  destruct (lookup_lt_is_Some_2 outs i ltac:(lia)) as [d Ed]. rewrite Ed. by apply (Hd i).
Qed.

Lemma represents_repeater r d :
  (forall q, q ∈ requests -> denote q parameter r = Some d) ->
  represents r (DRepeater d (Z.of_nat (length requests))).
Proof.
  intros Hd i q Hq. apply lookup_lt_Some in Hq as Hlt. cbn. rewrite (proj2 (Z.ltb_lt _ _)) by lia.
  by eapply Hd, list_elem_of_lookup_2.
Qed.

Lemma mapM_represents ps ls i q :
  Forall2 represents ps ls -> requests !! i = Some q ->
  mapM_opt (denote q parameter) ps = Some ((fun l => dl_Get l (Z.of_nat i)) <$> ls).
Proof. intros Hf Hq. induction Hf as [|r l ps ls Hr _ IH]; [done|]. cbn. by rewrite (Hr i q Hq), IH. Qed.

(** One request of a batch. *)
Lemma batch_step id nc nb lim op ps us js ls c i q :
  let r := mkRunner id nc nb lim op ps us js in
  nodes r ⊆ nodes root -> op <> OpRequest -> Forall2 represents ps ls ->
  (forall q, q ∈ requests -> is_Some (denote q parameter r)) ->
  batch_ok c -> requests !! i = Some q -> exists res c',
    run op lim c ((fun l => dl_Get l (Z.of_nat i)) <$> ls) (run_forward run_cached us)
      (run_forward run_cached js) = Some (res, c') /\ batch_ok c' /\
    denote q parameter r = Some res.
Proof.
  intros r Hsub Hop Hps Hdef Hc Hq. assert (r ∈ nodes root) as Hr by (apply Hsub; by left).
  destruct (Hdef q) as [d Hd]; [by eapply list_elem_of_lookup_2|]. rewrite Hd.
  cbn [denote r] in Hd. rewrite (mapM_represents _ _ _ _ Hps Hq) in Hd. cbn [mbind option_bind] in Hd.
  pose proof (run_agree batch_ok op lim ((fun l => dl_Get l (Z.of_nat i)) <$> ls) _ _
    (run_forward run_cached us) (run_forward run_cached js) q parameter c
    ltac:(by intros ? [((? & ? & ?) & ?) ?]) ltac:(done) Hc
    (fun c Hc => batch_inputs_give _ _ _ _ _ _ _ _ us q c Hr Hsub (or_introl eq_refl) Hc)
    (fun c Hc => batch_inputs_give _ _ _ _ _ _ _ _ js q c Hr Hsub (or_intror eq_refl) Hc)) as Ha.
  unfold agree in Ha. destruct (run op lim (env q parameter) _ _ _) as [[res e]|]; [|done].
  injection Hd as <-. destruct Ha as (c' & E & Hc'). by exists res, c'.
Qed.
(** The requests of a batch, without the lookup in the cache. *)
Definition batch_result (r : Runner) (ctx : RunnerContext) : option (DataHandlerList * RunnerContext) :=
  match r with
  | mkRunner id nc nb lim op ps us js =>
      let size := Z.of_nat (length (ctx_requests ctx)) in
      match op with
      | OpData d => Some (DRepeater d size, ctx)
      | OpRequest => Some (DVector ((fun row => Some (HRow (RMem row))) <$> ctx_requests ctx), ctx)
      | _ =>
          '(ls, ctx1) ← batch_backward run_batch ps ctx;
          batch_loop nb size (fun inputs c => run op lim c inputs
            (run_forward run_cached us) (run_forward run_cached js)) ls (length (ctx_requests ctx)) 0 [] ctx1
      end
  end.

Lemma batch_other id nc nb lim op ps us js ls c1 c :
  let r := mkRunner id nc nb lim op ps us js in
  nodes r ⊆ nodes root -> op <> OpRequest -> Forall2 represents ps ls ->
  (forall q, q ∈ requests -> is_Some (denote q parameter r)) -> batch_ok c1 -> ctx_requests c = requests ->
  exists l c', batch_loop nb (Z.of_nat (length (ctx_requests c))) (fun inputs c => run op lim c inputs
      (run_forward run_cached us) (run_forward run_cached js)) ls (length (ctx_requests c)) 0 [] c1 =
    Some (l, c') /\ represents r l /\ batch_ok c'.
Proof.
  intros r Hsub Hop Hps Hdef Hc1 ->.
  pose proof (fun c k q => batch_step id nc nb lim op ps us js ls c k q Hsub Hop Hps Hdef) as Hstep.
  destruct nb.
  - destruct (decide (requests = [])) as [E|Hne].
    { exists (DVector []), c1. rewrite E. split_and!; [done|intros i q; by rewrite E|done]. }
    destruct requests as [|q0 rs] eqn:Er; [done|]. rewrite <- Er in *.
    destruct (Hstep c1 0%nat q0 Hc1 ltac:(by rewrite Er)) as (res & c2 & E & Hc2 & Hd).
    exists (DRepeater res (Z.of_nat (length requests))), c2. rewrite Er at 2. cbn [length batch_loop].
    change 0 with (Z.of_nat 0). rewrite E. split_and!; [done| |done].
    apply represents_repeater. intros q Hq. rewrite <- Hd.
    destruct (Hshared _ _ _ _ _ _ _ _ (Hsub r ltac:(by left))) as [_ Hs].
    apply Hs; [done|done|]. rewrite Er. by left.
  - destruct (batch_loop_represents r (fun inputs c => run op lim c inputs (run_forward run_cached us)
      (run_forward run_cached js)) ls (length requests) 0 [] c1 Hstep) as (outs & c' & E & Hc' & Hl & Hd);
      try done. exists (DVector outs), c'. split_and!; [exact E|by apply represents_vector|done].
Qed.

Definition batch_correct (r : Runner) : Prop :=
  forall c, batch_ok c -> exists l c', run_batch r c = Some (l, c') /\ represents r l /\ batch_ok c'.

Lemma batch_backward_represents ps c :
  Forall batch_correct ps -> batch_ok c ->
  exists ls c', batch_backward run_batch ps c = Some (ls, c') /\ Forall2 represents ps ls /\ batch_ok c'.
Proof.
  intros Hf. revert c. induction Hf as [|x ps Hx _ IH]; intros c Hc; [by exists [], c|].
  cbn. destruct (IH c Hc) as (ls & c1 & E1 & Hls & Hc1). rewrite E1. cbn.
  destruct (Hx c1 Hc1) as (l & c2 & E2 & Hl & Hc2). rewrite E2. cbn.
  exists (l :: ls), c2. split_and!; [done|by constructor|done].
Qed.

Lemma mapM_opt_elem {A B} (f : A -> option B) l x : is_Some (mapM_opt f l) -> x ∈ l -> is_Some (f x).
Proof.
  induction l as [|y l IH]; intros Hs Hx; [by apply not_elem_of_nil in Hx|]. cbn in Hs.
  destruct (f y) eqn:Ey; cbn in Hs; [|by destruct Hs]. destruct (mapM_opt f l); [|by destruct Hs].
  apply elem_of_cons in Hx as [->|Hx]; [by eexists|]. by apply IH.
Qed.

Lemma denote_inputs q id nc nb lim op ps us js x :
  is_Some (denote q parameter (mkRunner id nc nb lim op ps us js)) -> x ∈ ps -> is_Some (denote q parameter x).
Proof. cbn [denote]. destruct (mapM_opt _ ps) eqn:E; [|by destruct 1]. intros _. apply mapM_opt_elem. by rewrite E. Qed.

Lemma run_batch_represents r :
  nodes r ⊆ nodes root -> (forall q, q ∈ requests -> is_Some (denote q parameter r)) ->
  batch_correct r.
Proof.
  induction r as [id nc nb lim op ps us js Hps _ _] using runner_ind. intros Hsub Hdef c Hc.
  set (r := mkRunner id nc nb lim op ps us js) in *. assert (r ∈ nodes root) as Hr by (apply Hsub; by left).
  assert (ctx_requests c = requests) as Ereq by apply Hc.
  assert (exists l c', batch_result r c = Some (l, c') /\ represents r l /\ batch_ok c') as Hres.
  { destruct (batch_backward_represents ps c) as (ls & c1 & Eb & Hls & Hc1); [|done|].
    { apply Forall_forall. intros x Hx. apply (proj1 (Forall_forall _ _) Hps x Hx).
      - etrans; [|exact Hsub]. apply nodes_inputs, elem_of_app. by left.
      - intros q Hq. by eapply denote_inputs; [apply Hdef|]. }
    pose proof (batch_other id nc nb lim op ps us js ls c1 c Hsub) as Ho.
    destruct op; cbn [batch_result r]; try (rewrite Eb; apply Ho; done).
    - eexists _, _. split_and!; [done| |done]. rewrite Ereq. apply represents_repeater. intros q Hq.
      destruct (Hdef q Hq) as [d' Hd']. rewrite Hd'. cbn [denote r] in Hd'.
      destruct (mapM_opt _ ps); [|done]. by injection Hd' as <-.
    - eexists _, _. split_and!; [done| |done]. rewrite Ereq.
      apply represents_vector; [by rewrite length_fmap|]. intros k q d Hq Hk.
      rewrite list_lookup_fmap, Hq in Hk. injection Hk as <-.
      destruct (Hdef q) as [d' Hd']; [by eapply list_elem_of_lookup_2|]. rewrite Hd'. cbn [denote r] in Hd'.
      destruct (mapM_opt _ ps); [|done]. by injection Hd' as <-. }
  destruct Hres as (l & c' & El & Hl & Hc').
  change (run_batch r c) with (match (if nc then GetBatchCache id c else None) with
    | Some cached => Some (cached, c)
    | None => '(res, c2) ← batch_result r c; Some (res, if nc then SetBatchCache id res c2 else c2) end).
  destruct (if nc then GetBatchCache id c else None) as [cached|] eqn:Eg.
  - destruct nc; [|done]. exists cached, c. split_and!; [done|by apply (proj2 Hc)|done].
  - rewrite El. cbn [mbind option_bind]. eexists _, _. split_and!; [done|done|].
    destruct nc; [|done]. by apply (SetBatchCache_ok c' r).
Qed.
End Batch.
(** ** Main properties *)

(** C7: caching does not change what a plan computes. When cached runners have
    their own ids, a run from an empty cache yields the meaning of the plan,
    however often a runner is used in it, and fails exactly when the plan
    does; a second run in the context it leaves yields the same result. *)
Theorem cached_run r ctx :
  ids_unique r -> ctx_cache ctx = ∅ ->
  match denote (ctx_request ctx) (ctx_parameter ctx) r with
  | None => run_cached r ctx = None
  | Some d => exists ctx', run_cached r ctx = Some (d, ctx') /\
      option_map fst (run_cached r ctx') = Some d
  end.
Proof.
  intros Hu He. pose proof (run_cached_gives r (ctx_request ctx) (ctx_parameter ctx) (ctx_requests ctx)
    (ctx_batch_cache ctx) r Hu (fun _ H => H)) as Hg.
  pose proof (Hg ctx (cache_ok_empty r ctx He)) as H1. destruct (denote _ _ r) as [d|]; [|done].
  destruct H1 as (c & E & Hc). exists c. split; [done|].
  destruct (Hg c Hc) as (c' & -> & _). done.
Qed.

(** C13: a batch of requests yields, for every request, the result that a run
    of the plan on this request alone yields: results computed once for the
    whole batch and results in the batch cache included. The inputs of window
    unions and joins, and the runners that are marked as shared by the batch,
    are those that do not depend on the request. *)
Theorem batch_run r ctx :
  ids_unique r -> batch_shared r (ctx_parameter ctx) (ctx_requests ctx) (ctx_request ctx) ->
  ctx_cache ctx = ∅ -> ctx_batch_cache ctx = ∅ ->
  (forall q, q ∈ ctx_requests ctx -> is_Some (run_cached r (env q (ctx_parameter ctx)))) ->
  exists l ctx', run_batch r ctx = Some (l, ctx') /\
    forall i q, ctx_requests ctx !! i = Some q ->
      option_map fst (run_cached r (env q (ctx_parameter ctx))) = Some (dl_Get l (Z.of_nat i)).
Proof.
  intros Hu Hs Hc Hb Hdef.
  assert (forall q, option_map fst (run_cached r (env q (ctx_parameter ctx))) =
    denote q (ctx_parameter ctx) r) as Hsingle.
  { intros q. pose proof (run_cached_gives r _ _ _ _ r Hu (fun _ H => H) _
      (cache_ok_empty r (env q (ctx_parameter ctx)) eq_refl)) as Hg. cbn in Hg.
    destruct (denote q _ r); [|by rewrite Hg]. by destruct Hg as (c & -> & _). }
  destruct (run_batch_represents r (ctx_parameter ctx) (ctx_requests ctx) (ctx_request ctx) Hu Hs r
    (fun _ H => H)) with (c := ctx) as (l & ctx' & E & Hl & _).
  - intros q Hq. rewrite <- Hsingle. destruct (Hdef q Hq) as [x ->]. by eexists.
  - split; [by apply cache_ok_empty|]. intros r' l _ _. unfold GetBatchCache.
    by rewrite Hb, lookup_empty.
  - exists l, ctx'. split; [done|]. intros i q Hq. by rewrite Hsingle, (Hl i q Hq).
Qed.
End Plans.

(** ** Concrete plans *)

(** A plan that uses the cached request row twice. *)
Definition ex_request : Runner := mkRunner 1 true false 0 OpRequest [] [] [].
Definition ex_plan : Runner := mkRunner 2 false false 0 (OpConcat 1 1) [ex_request; ex_request] [] [].
Definition ex_ctx (requests : list Row) : RunnerContext :=
  mkRunnerContext (Row_of_string [1]) requests Row_default ∅ ∅.

Ltac each_node H := repeat (apply elem_of_cons in H as [H|H]); [..|by apply not_elem_of_nil in H].

Lemma ex_plan_ids : ids_unique ex_plan.
Proof. intros r1 r2 H1 H2 N1 N2 _. each_node H1; each_node H2; by subst. Qed.

Lemma cached_run_witness :
  exists ctx', RunWithCache false (fun _ => []) (fun _ => []) merge_sort_by 5 ex_plan (ex_ctx []) =
    Some (Some (HRow (RCombine (Some (RMem (Row_of_string [1]))) 1 (Some (RMem (Row_of_string [1]))) 1)), ctx').
Proof.
  destruct (cached_run false (fun _ => []) (fun _ => []) merge_sort_by 5 ex_plan (ex_ctx [])
    ex_plan_ids eq_refl) as (ctx' & E & _). by exists ctx'.
Defined.

Lemma batch_run_witness :
  exists l ctx', BatchRequestRun false (fun _ => []) (fun _ => []) merge_sort_by 5 ex_plan
      (ex_ctx [Row_of_string [2]; Row_of_string [3]]) = Some (l, ctx') /\
    dl_Get l 1 = Some (HRow (RCombine (Some (RMem (Row_of_string [3]))) 1 (Some (RMem (Row_of_string [3]))) 1)).
Proof.
  destruct (batch_run false (fun _ => []) (fun _ => []) merge_sort_by 5 ex_plan
    (ex_ctx [Row_of_string [2]; Row_of_string [3]]) ex_plan_ids) as (l & ctx' & E & Hl).
  - intros id nc nb lim op ps us js H. each_node H; injection H as -> -> -> -> -> -> -> ->;
      (split; [intros x q Hx; by apply not_elem_of_nil in Hx|done]).
  - done.
  - done.
  - intros q _. by eexists.
  - exists l, ctx'. split; [done|]. pose proof (Hl 1%nat _ eq_refl) as H. injection H as H. exact (eq_sym H).
Defined.
