(* ===== verification/Queries.v ===== *)
(** * Queries end to end

    Plans for SELECT with WHERE and LIMIT and for GROUP BY, run with
    [RunWithCache] and read with [ExtractRows], against their meaning on the
    rows of the table. *)

From stdpp Require Import base numbers option list gmap sorting.
From S2P Require Import Prelude Layout TypeCodec Iterators MemCatalog MemCatalogProof Window Rows CatalogWrapper Handlers HandlersProof FnGenerators Generators GeneratorsProof Joins WindowRunners Runners RunnersProof.

(** ** Loops with a limit *)

Section Queries.
Context (spark : bool) (float_text double_text : Z -> list Z).
Context (std_sort : ((Z * Row) -> (Z * Row) -> bool) -> list (Z * Row) -> list (Z * Row)).
Context (fuel : nat).

Abbreviation run_cached := (RunWithCache spark float_text double_text std_sort fuel).

(** A limit that is not positive is none. *)
Definition first_rows {A} (limit_cnt cnt : Z) (l : list A) : list A :=
  if limit_cnt >? 0 then take (Z.to_nat (limit_cnt - cnt)) l else l.

Lemma first_rows_stop {A} L cnt (l : list A) : (L >? 0) && (cnt >=? L) = true -> first_rows L cnt l = [].
Proof.
  unfold first_rows. rewrite Z.gtb_ltb, Z.geb_leb. destruct (Z.ltb_spec 0 L); [|done].
  cbn [andb]. intros Hc%Z.leb_le. by replace (Z.to_nat _) with 0%nat by lia.
Qed.

Lemma first_rows_cons {A} L cnt (e : A) l :
  L < 2147483648 -> 0 <= cnt -> (L >? 0) && (cnt >=? L) = false ->
  first_rows L cnt (e :: l) = e :: first_rows L (if L >? 0 then i32 (cnt + 1) else cnt) l.
Proof.
  unfold first_rows. rewrite Z.gtb_ltb, Z.geb_leb. intros HL Hc. destruct (Z.ltb_spec 0 L); [|done].
  cbn [andb]. intros Hlt%Z.leb_gt. rewrite i32_small by lia.
  by replace (Z.to_nat (L - cnt)) with (S (Z.to_nat (L - (cnt + 1)))) by lia.
Qed.

Lemma first_rows_nil {A} L cnt : first_rows L cnt (@nil A) = [].
Proof. unfold first_rows. rewrite take_nil. by destruct (_ >? _). Qed.

Lemma next_cnt L cnt : L < 2147483648 -> 0 <= cnt -> (L >? 0) && (cnt >=? L) = false ->
  0 <= (if L >? 0 then i32 (cnt + 1) else cnt).
Proof.
  rewrite Z.gtb_ltb, Z.geb_leb. intros HL Hc. destruct (Z.ltb_spec 0 L); [|done].
  cbn [andb]. intros Hlt%Z.leb_gt. rewrite i32_small; lia.
Qed.

Definition add_rows_to (h : MemTableHandler Row) (l : list Row) : MemTableHandler Row :=
  mkMemTableHandler (tb_table h ++ l) (tb_order_type h).

Lemma add_rows_to_nil h : Some h = Some (add_rows_to h []).
Proof. unfold add_rows_to. rewrite app_nil_r. by destruct h. Qed.

Lemma add_rows_to_cons h row l : add_rows_to (tb_AddRow row h) l = add_rows_to h (row :: l).
Proof. unfold add_rows_to. cbn. by rewrite <- app_assoc. Qed.

(** ** Projection *)

(** A projection that computes a row for every row of a list. *)
Definition projects (g : FnGenerator) (parameter : Row) (f : Row -> Row) (l : list (Z * Row)) : Prop :=
  forall e, e ∈ l -> ProjectGenerator_Gen g e.2 parameter = Some (f e.2).

Lemma projects_cons g parameter f e l :
  projects g parameter f (e :: l) ->
  ProjectGenerator_Gen g e.2 parameter = Some (f e.2) /\ projects g parameter f l.
Proof. intros H. split; [apply H; by left|]. intros x Hx. apply H. by right. Qed.

Lemma table_project_loop_rows g L parameter f l : forall n it cnt output,
  it_ok it -> rest it = l -> (length l <= n)%nat -> L < 2147483648 -> 0 <= cnt ->
  projects g parameter f l ->
  table_project_loop g L parameter n it cnt output =
  Some (add_rows_to output (f <$> (first_rows L cnt l).*2)).
Proof.
  induction l as [|e l IH]; intros n it cnt output Ho Er Hn HL Hc Hp.
  - rewrite first_rows_nil. destruct n; cbn [table_project_loop]; rewrite (exhausted _ Ho Er);
      apply add_rows_to_nil.
  - destruct n as [|n]; [cbn in Hn; lia|]. cbn [table_project_loop length] in *.
    apply projects_cons in Hp as [Hp Hps].
    rewrite (valid_cons _ _ _ Ho Er). destruct ((L >? 0) && (cnt >=? L)) eqn:El.
    { rewrite first_rows_stop by done. apply add_rows_to_nil. }
    rewrite (value_rest _ _ _ Ho Er). cbn [mbind option_bind]. rewrite Hp. cbn [mbind option_bind].
    destruct (rest_next _ _ _ Ho Er) as [Er' Ho'].
    rewrite (IH n _ _ _ Ho' Er') by (done || lia || by apply next_cnt).
    rewrite first_rows_cons by done. by rewrite add_rows_to_cons.
Qed.

Lemma TableProject_Run_rows g L parameter f t l :
  t_ok fuel t -> entries t = Some l -> (length l <= fuel)%nat -> L < 2147483648 ->
  projects g parameter f l ->
  TableProject_Run fuel g L parameter (Some (HTable t)) =
  Some (Some (HTable (TMem (mkMemTableHandler (f <$> (first_rows L 0 l).*2) kNoneOrder)))).
Proof.
  intros Hok El Hf HL Hp. destruct (table_iterator fuel t l Hok El) as (it & E & _ & _ & Ho & Er).
  unfold TableProject_Run. rewrite E. cbn [mbind option_bind].
  by rewrite (table_project_loop_rows g L parameter f l fuel _ 0 _ Ho Er).
Qed.

(** ** Limit *)

Lemma limit_loop_rows L l : forall n it cnt output,
  it_ok it -> rest it = l -> (length l <= n)%nat -> L < 2147483648 -> 0 <= cnt ->
  limit_loop L n it cnt output = Some (add_rows_to output (take (Z.to_nat (L - cnt)) l).*2).
Proof.
  induction l as [|e l IH]; intros n it cnt output Ho Er Hn HL Hc.
  - rewrite take_nil. destruct n; cbn [limit_loop]; rewrite (exhausted _ Ho Er), andb_false_r;
      apply add_rows_to_nil.
  - destruct n as [|n]; [cbn in Hn; lia|]. cbn [limit_loop length] in *.
    rewrite (valid_cons _ _ _ Ho Er), andb_true_r. destruct (Z.ltb_spec cnt L).
    + rewrite (value_rest _ _ _ Ho Er). cbn [mbind option_bind].
      destruct (rest_next _ _ _ Ho Er) as [Er' Ho']. rewrite i32_small by lia.
      rewrite (IH n _ _ _ Ho' Er') by lia.
      replace (Z.to_nat (L - cnt)) with (S (Z.to_nat (L - (cnt + 1)))) by lia.
      by rewrite add_rows_to_cons.
    + replace (Z.to_nat (L - cnt)) with 0%nat by lia. apply add_rows_to_nil.
Qed.

Lemma Limit_Run_rows L t l :
  t_ok fuel t -> entries t = Some l -> (length l <= fuel)%nat -> L < 2147483648 ->
  Limit_Run fuel L (Some (HTable t)) =
  Some (Some (HTable (TMem (mkMemTableHandler (take (Z.to_nat L) l).*2 kNoneOrder)))).
Proof.
  intros Hok El Hf HL. destruct (table_iterator fuel t l Hok El) as (it & E & _ & _ & Ho & Er).
  unfold Limit_Run. rewrite E. cbn [mbind option_bind].
  rewrite (limit_loop_rows L l fuel _ 0 _ Ho Er) by (done || lia). cbn. by rewrite Z.sub_0_r.
Qed.

(** ** Reading results *)

Lemma ExtractRows_table t l out :
  t_ok fuel t -> entries t = Some l -> (length l <= fuel)%nat ->
  ExtractRows fuel (Some (HTable t)) out = Some (true, out ++ l.*2).
Proof.
  intros Hok El Hf. unfold ExtractRows.
  destruct (table_loop (fun _ row rows => Some (rows ++ [row])) fuel t l out Hok El Hf) as (it & -> & E).
  cbn [mbind option_bind]. rewrite E, (fold_rows_total _ (fun _ row rows => rows ++ [row])) by done.
  cbn [mbind option_bind]. do 2 f_equal. clear. revert out.
  induction l as [|e l IH]; intros out; cbn; [by rewrite app_nil_r|]. rewrite IH, <- app_assoc. done.
Qed.

Lemma numbered_values (l : list Row) n : (numbered n l).*2 = l.
Proof. revert n. induction l as [|r l IH]; intros n; [done|]. rewrite numbered_cons. cbn. by rewrite IH. Qed.

Lemma ExtractRows_mem (l : list Row) o :
  (length l <= fuel)%nat -> Z.of_nat fuel < 18446744073709551616 ->
  ExtractRows fuel (Some (HTable (TMem (mkMemTableHandler l o)))) [] = Some (true, l).
Proof.
  intros Hl Hf. assert (length (numbered 0 l) = length l) as En
    by (rewrite <- (numbered_values l 0) at 2; by rewrite length_fmap).
  rewrite (ExtractRows_table _ (numbered 0 l)); [|cbn; lia|done|lia]. by rewrite numbered_values.
Qed.

(** ** SELECT ... WHERE ... LIMIT *)

(** The plan [TableProject(Filter(Data))]. *)
Definition select_plan (t : TableHandler) (cond : FilterGenerator) (g : FnGenerator) (limit_cnt : Z) : Runner :=
  mkRunner 3 false false limit_cnt (OpTableProject g)
    [mkRunner 2 false false 0 (OpFilter cond)
      [mkRunner 1 false false 0 (OpData (Some (HTable t))) [] [] []] [] []] [] [].

(** A condition that decides every row of a list. *)
Definition decides (cond : FilterGenerator) (parameter : Row) (q : Row -> bool) (l : list (Z * Row)) : Prop :=
  fn_Valid (fg_condition_gen cond) = true /\
  forall e, e ∈ l -> fg_call cond parameter e.2 = Some (q e.2).

Lemma select_decides cond parameter q l :
  decides cond parameter q l ->
  select (fun row => default false (fg_call cond parameter row)) l = select q l.
Proof.
  intros [_ Hq]. induction l as [|e l IH]; [done|]. rewrite !select_cons, IH by (intros; apply Hq; by right).
  by rewrite (Hq e) by (by left).
Qed.

Lemma length_first_rows {A} L cnt (l : list A) : (length (first_rows L cnt l) <= length l)%nat.
Proof. unfold first_rows. destruct (_ >? _); [rewrite length_take; lia|done]. Qed.

(** C16: a SELECT with WHERE and LIMIT. The plan terminates, and the extracted
    rows are the projections of the rows that satisfy the condition, in the
    order of the table, the first [limit_cnt] of them when the limit is
    positive. *)
Theorem select_query t l cond q g f limit_cnt ctx :
  t_ok fuel t -> entries t = Some l -> (length l <= fuel)%nat -> Z.of_nat fuel < 18446744073709551616 ->
  limit_cnt < 2147483648 -> decides cond (ctx_parameter ctx) q l ->
  projects g (ctx_parameter ctx) f (select q l) ->
  exists d ctx', run_cached (select_plan t cond g limit_cnt) ctx = Some (d, ctx') /\
    ExtractRows fuel d [] = Some (true, f <$> (first_rows limit_cnt 0 (select q l)).*2).
Proof.
  intros Hok El Hf Hf' HL Hq Hp. pose proof (length_select q l) as Hs.
  eexists _, ctx. split.
  - cbn -[TableProject_Run]. unfold Filter_table. rewrite (proj1 Hq). cbn -[TableProject_Run].
    rewrite (TableProject_Run_rows g limit_cnt (ctx_parameter ctx) f _ (select q l)); try done.
    + split; [done|]. by rewrite El.
    + change (entries (TFilter ?p t)) with (select p <$> entries t). rewrite El. cbn.
      by rewrite (select_decides _ _ q).
    + lia.
  - apply ExtractRows_mem; [|done]. rewrite !length_fmap.
    pose proof (length_first_rows limit_cnt 0 (select q l)). lia.
Qed.

(** pushing a limit into a projection: for a positive limit, projecting
    with the limit gives the same table as projecting everything and then
    limiting. (For other limits a projection returns everything and a limit
    runner returns nothing.) *)
Theorem limit_pushdown t l g f limit_cnt parameter :
  t_ok fuel t -> entries t = Some l -> (length l <= fuel)%nat -> Z.of_nat fuel < 18446744073709551616 ->
  0 < limit_cnt < 2147483648 -> projects g parameter f l ->
  (d ← TableProject_Run fuel g 0 parameter (Some (HTable t)); Limit_Run fuel limit_cnt d) =
  TableProject_Run fuel g limit_cnt parameter (Some (HTable t)).
Proof.
  intros Hok El Hf Hf' HL Hp. rewrite !(TableProject_Run_rows g _ parameter f t l) by (done || lia).
  cbn [mbind option_bind].
  assert (length (numbered 0 (f <$> l.*2)) = length l) as En.
  { rewrite <- (length_fmap snd (numbered _ _)), numbered_values, !length_fmap. done. }
  rewrite (Limit_Run_rows limit_cnt _ (numbered 0 (f <$> l.*2))); [|cbn; rewrite !length_fmap; lia|done|lia|lia].
  unfold first_rows. rewrite Z.gtb_ltb, (proj2 (Z.ltb_lt 0 limit_cnt)), Z.sub_0_r by lia.
  do 4 f_equal. rewrite !fmap_take, numbered_values. done.
Qed.

(** ** GROUP BY *)

(** The plan [GroupAgg(Group(Data))]. *)
Definition group_plan (t : TableHandler) (key_gen agg_gen : FnGenerator) (limit_cnt : Z) : Runner :=
  mkRunner 3 false false limit_cnt (OpGroupAgg agg_gen)
    [mkRunner 2 false false 0 (OpGroup key_gen)
      [mkRunner 1 false false 0 (OpData (Some (HTable t))) [] [] []] [] []] [] [].

(** The row of a group: the compiled function on its first row and its table. *)
Definition group_output (fn : JitFn) (parameter : Row) (e : Z * Row) (t : TableHandler) : option Row :=
  let '(ret, out) := fn (i64 e.1) (Some e.2) (Some (LTable t)) parameter in
  if negb (u32 ret =? 0) then Some Row_default else s ← managed_slice out; Some (Row_of_slice s).

Lemma GroupbyProject_output fn parameter t e l :
  t_ok fuel t -> entries t = Some (e :: l) ->
  GroupbyProject fuel fn parameter t = group_output fn parameter e t.
Proof.
  intros Hok El. destruct (table_iterator fuel t _ Hok El) as (it & E & _ & _ & Ho & Er).
  unfold GroupbyProject. rewrite E. cbn [mbind option_bind].
  rewrite (valid_cons _ _ _ Ho Er), (value_rest _ _ _ Ho Er), (key_rest _ _ _ Ho Er). done.
Qed.

Lemma group_agg_loop_rows g fn L parameter p out : forall n i cnt output,
  fn_ g = Some fn ->
  (forall k, k ∈ (ph_partitions p).*1 ->
    GroupbyProject fuel fn parameter (TSegment (PMem p) k) = Some (out k)) ->
  (length (ph_partitions p) <= i + n)%nat -> (i <= length (ph_partitions p))%nat ->
  L < 2147483648 -> 0 <= cnt ->
  group_agg_loop fuel g L parameter (PMem p) n (WMem (mkMemWindowIterator (ph_partitions p) i)) cnt output =
  Some (Some (add_rows_to output (out <$> first_rows L cnt (drop i (ph_partitions p)).*1))).
Proof.
  intros n i cnt output Hfn Hout. revert i cnt output.
  induction n as [|n IH]; intros i cnt output Hn Hi HL Hc.
  - replace i with (length (ph_partitions p)) by lia. rewrite drop_all, fmap_nil, first_rows_nil.
    cbn [group_agg_loop]. unfold wi_Valid, mw_Valid. cbn [wi_root mw_iter mw_partitions].
    rewrite bool_decide_true by done. cbn [negb]. by rewrite <- add_rows_to_nil.
  - cbn [group_agg_loop]. unfold wi_Valid, mw_Valid. cbn [wi_root mw_iter mw_partitions].
    destruct (ph_partitions p !! i) as [[k seg]|] eqn:Es.
    + apply lookup_lt_Some in Es as Hlt. rewrite bool_decide_false by lia. cbn [negb].
      rewrite (drop_S _ _ _ Es). cbn [fmap list_fmap fst].
      destruct ((L >? 0) && (cnt >=? L)) eqn:El.
      { rewrite first_rows_stop by done. by rewrite <- add_rows_to_nil. }
      rewrite first_rows_cons by done. cbn [wi_GetValue wi_GetKey wi_root]. unfold mw_GetValue, mw_GetKey.
      cbn [mw_partitions mw_iter]. unfold wi_GetKey, mw_GetKey. cbn [wi_root mw_partitions mw_iter].
      rewrite Es. cbn [mbind option_bind p_GetSegment fst]. rewrite Hfn. cbn [mbind option_bind].
      rewrite Hout by (apply list_elem_of_fmap; exists (k, seg); split; [done|by eapply list_elem_of_lookup_2]).
      cbn [mbind option_bind]. cbn [wi_Next wi_map]. unfold mw_Next. cbn [mw_partitions mw_iter].
      rewrite IH by (done || lia || by apply next_cnt). by rewrite add_rows_to_cons.
    + apply lookup_ge_None in Es. rewrite bool_decide_true by lia. cbn [negb].
      rewrite drop_ge, fmap_nil, first_rows_nil by lia. by rewrite <- add_rows_to_nil.
Qed.

Lemma seg_get_elem (m : list (list Z * list (Z * Row))) k : k ∈ m.*1 <-> is_Some (seg_get k m).
Proof.
  induction m as [|[k' t] m IH].
  - rewrite seg_get_nil. split; [by intros ?%not_elem_of_nil|by intros [? [=]]].
  - cbn [fmap list_fmap fst]. rewrite seg_get_cons, elem_of_cons, IH. case_decide.
    + split; [by eexists|by left].
    + split; [by intros [->|?]|by right].
Qed.

Lemma keys_sorted_nodup (m : list (list Z * list (Z * Row))) : keys_sorted m -> NoDup m.*1.
Proof.
  induction 1 as [|[k t] m Hs IH Hf]; [constructor|]. cbn. constructor; [|done].
  intros Hin. apply list_elem_of_fmap in Hin as ([k' t'] & E & Hin). cbn in E. subst k'.
  apply (proj1 (Forall_forall _ _) Hf) in Hin. cbn in Hin.
  pose proof (proj2 (lex_compare_eq k k) eq_refl). lia.
Qed.

Lemma with_key_head (key : Row -> list Z) k l :
  is_Some (head (with_key key k l)) <-> exists e, e ∈ l /\ key e.2 = k.
Proof.
  split.
  - intros [e He]. exists e. destruct (with_key key k l) as [|e' l'] eqn:E; [done|]. injection He as ->.
    assert (e ∈ with_key key k l) as Hin by (rewrite E; by left).
    apply list_elem_of_filter in Hin as [Hk ?]. by case_bool_decide.
  - intros (e & He & Hk). destruct (with_key key k l) as [|e' l'] eqn:E; [|by eexists].
    assert (e ∈ with_key key k l) as Hin
      by (apply list_elem_of_filter; split; [by rewrite bool_decide_true|done]).
    rewrite E in Hin. by apply not_elem_of_nil in Hin.
Qed.

(** A partition whose segments are the groups of a list. *)
Definition groups (key : Row -> list Z) (l : list (Z * Row)) (p : MemPartitionHandler Row) : Prop :=
  keys_sorted (ph_partitions p) /\
  forall k, seg_get k (ph_partitions p) = match with_key key k l with [] => None | rows => Some rows end.

Lemma groups_keys key l p k :
  groups key l p -> k ∈ (ph_partitions p).*1 <-> exists e, e ∈ l /\ key e.2 = k.
Proof.
  intros [_ Hseg]. rewrite seg_get_elem, Hseg, <- with_key_head.
  destruct (with_key key k l); split; intros [? [=]]; by eexists.
Qed.

Lemma groups_length key l p : groups key l p -> (length (ph_partitions p).*1 <= length l)%nat.
Proof.
  intros Hg. rewrite <- (length_fmap (fun e => key e.2) l). apply submseteq_length, NoDup_submseteq.
  - apply keys_sorted_nodup, Hg.
  - intros k Hk. apply (groups_keys key l p k Hg) in Hk as (e & He & <-). apply list_elem_of_fmap. by exists e.
Qed.

Lemma groups_output key l p k fn parameter :
  groups key l p -> (forall e tb, e ∈ l -> is_Some (group_output fn parameter e tb)) ->
  k ∈ (ph_partitions p).*1 ->
  exists e rest out, with_key key k l = e :: rest /\ entries (TSegment (PMem p) k) = Some (e :: rest) /\
    group_output fn parameter e (TSegment (PMem p) k) = Some out /\
    GroupbyProject fuel fn parameter (TSegment (PMem p) k) = Some out.
Proof.
  intros Hg Hout Hin. apply (groups_keys key l p k Hg), with_key_head in Hin as [e He].
  destruct (with_key key k l) as [|e' rest] eqn:Ew; [done|]. injection He as ->.
  assert (entries (TSegment (PMem p) k) = Some (e :: rest)) as Ee by (cbn; by rewrite (proj2 Hg), Ew).
  assert (e ∈ with_key key k l) as Hin by (rewrite Ew; by left). apply list_elem_of_filter in Hin as [_ Hin].
  destruct (Hout e (TSegment (PMem p) k) Hin) as [out Ho].
  exists e, rest, out. split_and!; try done. by rewrite (GroupbyProject_output _ _ _ e rest).
Qed.

(** C17: GROUP BY. The plan terminates; there is one output row for each
    different key of the table (the first [limit_cnt] of them when the limit is
    positive), and it is the compiled function applied to the first row of the
    group and a table that holds exactly the rows of the group, in the order
    of the input. *)
Theorem group_query t l key_gen key agg_gen fn limit_cnt ctx :
  t_ok fuel t -> entries t = Some l -> (length l <= fuel)%nat -> Z.of_nat fuel < 18446744073709551616 ->
  limit_cnt < 2147483648 -> fn_Valid key_gen = true -> keyed spark key_gen (ctx_parameter ctx) key l ->
  fn_ agg_gen = Some fn -> (forall e tb, e ∈ l -> is_Some (group_output fn (ctx_parameter ctx) e tb)) ->
  exists d ctx' keys outs, run_cached (group_plan t key_gen agg_gen limit_cnt) ctx = Some (d, ctx') /\
    ExtractRows fuel d [] = Some (true, outs) /\ NoDup keys /\
    (forall k, k ∈ keys <-> exists e, e ∈ l /\ key e.2 = k) /\
    Forall2 (fun k out => exists e rest tb, with_key key k l = e :: rest /\ entries tb = Some (e :: rest) /\
      group_output fn (ctx_parameter ctx) e tb = Some out) (first_rows limit_cnt 0 keys) outs.
Proof.
  intros Hok El Hf Hf' HL Hv Hk Hfn Hout.
  destruct (partition_table_segments spark fuel key_gen t (ctx_parameter ctx) key l Hv Hok El Hf Hk)
    as (p & Ep & _ & Hg).
  set (keys := (ph_partitions p).*1). pose proof (groups_length key l p Hg) as Hlen. fold keys in Hlen.
  pose proof (fun k => groups_output key l p k fn _ Hg Hout) as Hgroups.
  set (out := fun k => default Row_default (GroupbyProject fuel fn (ctx_parameter ctx) (TSegment (PMem p) k))).
  eexists _, ctx, keys, (out <$> first_rows limit_cnt 0 keys). split_and!.
  - cbn -[GroupAgg_Run]. rewrite Ep. cbn -[GroupAgg_Run]. unfold GroupAgg_Run.
    cbn [p_GetWindowIterator wi_SeekToFirst wi_map]. unfold mw_SeekToFirst. cbn [ph_GetWindowIterator mw_partitions].
    rewrite (group_agg_loop_rows agg_gen fn limit_cnt (ctx_parameter ctx) p out fuel 0 0 MemTableHandler_new); try done.
    + intros k Hin. destruct (Hgroups k Hin) as (? & ? & o & _ & _ & _ & Eg). unfold out. by rewrite Eg.
    + unfold keys in Hlen. rewrite length_fmap in Hlen. lia.
    + lia.
  - apply ExtractRows_mem; [|done]. rewrite length_fmap. pose proof (length_first_rows limit_cnt 0 keys).
    change (drop 0 (ph_partitions p)).*1 with keys. lia.
  - apply keys_sorted_nodup, Hg.
  - intros k. by apply groups_keys.
  - apply Forall2_fmap_r, Forall_Forall2_diag, Forall_forall. intros k Hin.
    assert (k ∈ keys) as Hin'.
    { unfold first_rows in Hin. destruct (_ >? 0); [|done]. by eapply subseteq_take. }
    destruct (Hgroups k Hin') as (e & rest & o & E1 & E2 & E3 & E4).
    exists e, rest, (TSegment (PMem p) k). unfold out. by rewrite E4.
Qed.
End Queries.

(** ** Concrete queries *)

(** A compiled function that returns a constant row. *)
Definition ex_const : JitFn := fun _ _ _ _ => (0, Some [1; 1; 6; 0; 0; 0]).
Definition ex_gen (f : JitFn) : FnGenerator := mkFnGenerator (Some f) [] RowView.RowView_default [].
Definition ex_bool_schema := [mkcol [98] kBool].
(** A compiled condition that returns a row with the value true. *)
Definition ex_true : JitFn := fun _ _ _ _ => (0, Some [1; 1; 8; 0; 0; 0; 0; 1]).
Definition ex_where : FilterGenerator :=
  mkFilterGenerator (mkFnGenerator (Some ex_true) ex_bool_schema (RowView.RowView_of_schema false ex_bool_schema) [0])
    (mkFnGenerator None [] RowView.RowView_default []).
Definition ex_out : Row := Row_of_slice (mkSlice 6 (Some [1; 1; 6; 0; 0; 0])).
Definition ex_table : TableHandler := TTime (mkMemTimeTableHandler ex_rows kDescOrder).
Definition ex_context : RunnerContext := mkRunnerContext Row_default [] Row_default ∅ ∅.

Ltac each_row H := repeat (apply elem_of_cons in H as [->|H]; [done|]); by apply not_elem_of_nil in H.

Lemma select_query_witness :
  exists d ctx', RunWithCache false (fun _ => []) (fun _ => []) merge_sort_by 9
      (select_plan ex_table ex_where (ex_gen ex_const) 2) ex_context = Some (d, ctx') /\
    ExtractRows 9 d [] = Some (true, [ex_out; ex_out]).
Proof.
  apply (select_query false (fun _ => []) (fun _ => []) merge_sort_by 9 ex_table ex_rows ex_where
    (fun _ => true) (ex_gen ex_const) (fun _ => ex_out) 2 ex_context); try done.
  - cbn. lia.
  - split; [done|]. intros e He. each_row He.
  - intros e He. each_row He.
Defined.

Lemma limit_pushdown_witness :
  (d ← TableProject_Run 9 (ex_gen ex_const) 0 Row_default (Some (HTable ex_table)); Limit_Run 9 2 d) =
  TableProject_Run 9 (ex_gen ex_const) 2 Row_default (Some (HTable ex_table)).
Proof.
  apply (limit_pushdown 9 ex_table ex_rows (ex_gen ex_const) (fun _ => ex_out)); try done.
  - cbn. lia.
  - intros e He. each_row He.
Defined.

Lemma group_query_witness :
  exists d ctx' keys outs, RunWithCache false (fun _ => []) (fun _ => []) merge_sort_by 9
      (group_plan ex_table GeneratorsProof.ex_key (ex_gen ex_const) 0) ex_context = Some (d, ctx') /\
    ExtractRows 9 d [] = Some (true, outs) /\ NoDup keys /\ (forall k, k ∈ keys <-> exists e, e ∈ ex_rows /\ ([] : list Z) = k).
Proof.
  destruct (group_query false (fun _ => []) (fun _ => []) merge_sort_by 9 ex_table ex_rows GeneratorsProof.ex_key
    (fun _ => []) (ex_gen ex_const) ex_const 0 ex_context) as (d & ctx' & keys & outs & ? & ? & ? & ? & _); try done.
  - cbn. lia.
  - intros e He. each_row He.
  - by exists d, ctx', keys, outs.
Defined.
