(* ===== verification/Frames.v ===== *)
(** * Window frames of the query and how the planner merges them

    Models the frame nodes of [include/node/sql_node.h] and
    [src/node/sql_node.cc], their merging in [src/node/node_manager.cc] and
    [src/plan/planner.cc], and the translation of a frame to the range of a
    window ([RangeGenerator] of [src/vm/runner.h]). A node pointer is an
    [option]. Signed 64-bit arithmetic is written with its wrap-around; the
    language leaves an overflow undefined. *)

From stdpp Require Import base numbers option list.
From S2P Require Import Prelude Iterators Window InnerLists.

Module node.
Inductive FrameType := kFrameRange | kFrameRows | kFrameRowsRange | kFrameRowsMergeRowsRange.
#[global] Instance FrameType_eq : EqDecision FrameType.
Proof. solve_decision. Defined.
End node.

Inductive BoundType :=
| kPrecedingUnbound | kPreceding | kOpenPreceding | kCurrent | kOpenFollowing | kFollowing | kFollowingUnbound.
#[export] Instance BoundType_eq : EqDecision BoundType.
Proof. solve_decision. Defined.

Definition INT64_MIN : Z := -9223372036854775808.
Definition INT64_MAX : Z := 9223372036854775807.

Record FrameBound := mkFrameBound { bound_type : BoundType; is_time_offset : bool; offset : Z }.
Record FrameExtent := mkFrameExtent { fe_start : option FrameBound; fe_end : option FrameBound }.
Record FrameNode := mkFrameNode {
  fn_type : node.FrameType;
  frame_range : option FrameExtent;
  frame_rows : option FrameExtent;
  frame_maxsize : Z
}.

(** ** Bounds *)

Definition FrameBound_of_type (t : BoundType) : FrameBound := mkFrameBound t false 0.

Definition GetSignedOffset (b : FrameBound) : Z :=
  match bound_type b with
  | kCurrent => 0
  | kFollowing => offset b
  | kOpenFollowing => i64 (offset b - 1)
  | kPreceding => i64 (-1 * offset b)
  | kOpenPreceding => i64 (-1 * i64 (offset b - 1))
  | kPrecedingUnbound => INT64_MIN
  | kFollowingUnbound => INT64_MAX
  end.

(** [SqlEquals] of two pointers, given the comparison of nodes. *)
Definition SqlEquals {A} (equals : A -> A -> bool) (x y : option A) : bool :=
  match x, y with
  | None, None => true
  | Some a, Some b => equals a b
  | _, _ => false
  end.

Definition FrameBound_Equals (b1 b2 : FrameBound) : bool :=
  bool_decide (bound_type b1 = bound_type b2) && (offset b1 =? offset b2).
Definition FrameExtent_Equals (e1 e2 : FrameExtent) : bool :=
  SqlEquals FrameBound_Equals (fe_start e1) (fe_start e2) && SqlEquals FrameBound_Equals (fe_end e1) (fe_end e2).
Definition FrameNode_Equals (f1 f2 : FrameNode) : bool :=
  bool_decide (fn_type f1 = fn_type f2) && SqlEquals FrameExtent_Equals (frame_range f1) (frame_range f2) &&
  SqlEquals FrameExtent_Equals (frame_rows f1) (frame_rows f2) && (frame_maxsize f1 =? frame_maxsize f2).

Definition FrameBound_Compare (b1 b2 : option FrameBound) : Z :=
  if SqlEquals FrameBound_Equals b1 b2 then 0
  else match b1, b2 with
       | None, _ => -1
       | _, None => 1
       | Some b1, Some b2 =>
           let offset1 := GetSignedOffset b1 in
           let offset2 := GetSignedOffset b2 in
           if offset1 =? offset2 then 0 else if offset1 >? offset2 then 1 else -1
       end.

(** ** Frames in the past *)

(** The start or end of an extent, [dflt] when it is missing, at most the
    current row. *)
Definition history_bound (dflt : Z) (b : option FrameBound) : Z :=
  match b with
  | None => dflt
  | Some b => if GetSignedOffset b >? 0 then 0 else GetSignedOffset b
  end.

Definition is_null {A} (x : option A) : bool := match x with None => true | Some _ => false end.

Definition GetHistoryRangeStart (f : FrameNode) : Z :=
  if is_null (frame_rows f) && is_null (frame_range f) then INT64_MIN
  else
    let dflt := if is_null (frame_rows f) then INT64_MIN else 0 in
    match frame_range f with None => dflt | Some e => history_bound dflt (fe_start e) end.

Definition GetHistoryRangeEnd (f : FrameNode) : Z :=
  match frame_range f with None => 0 | Some e => history_bound 0 (fe_end e) end.

Definition GetHistoryRowsStart (f : FrameNode) : Z :=
  if is_null (frame_rows f) && is_null (frame_range f) then INT64_MIN
  else
    let dflt := if is_null (frame_range f) then INT64_MIN else 0 in
    match frame_rows f with None => dflt | Some e => history_bound dflt (fe_start e) end.

Definition GetHistoryRowsStartPreceding (f : FrameNode) : Z := i64 (-1 * GetHistoryRowsStart f).

(** The end is read when the start is there; without a start the default is
    taken whatever the end is. A missing end is dereferenced. *)
Definition GetHistoryRowsEnd (f : FrameNode) : option Z :=
  if is_null (frame_rows f) && is_null (frame_range f) then Some INT64_MIN
  else
    let only_rows := is_null (frame_range f) in
    match frame_rows f with
    | None => Some (if only_rows then INT64_MIN else 0)
    | Some e =>
        if is_null (fe_start e) then Some (if only_rows then INT64_MIN else 0)
        else
          b ← fe_end e;
          Some (if only_rows then GetSignedOffset b else if GetSignedOffset b >? 0 then 0 else GetSignedOffset b)
    end.

Definition IsRowsRangeLikeFrame (f : FrameNode) : bool :=
  bool_decide (fn_type f = node.kFrameRowsRange) || bool_decide (fn_type f = node.kFrameRowsMergeRowsRange).
Definition IsRowsRangeLikeMaxSizeFrame (f : FrameNode) : bool :=
  IsRowsRangeLikeFrame f && (frame_maxsize f >? 0).

Definition IsPureHistoryFrame (f : FrameNode) : option bool :=
  match fn_type f with
  | node.kFrameRows => e ← GetHistoryRowsEnd f; Some (e <? 0)
  | node.kFrameRowsRange => Some (GetHistoryRangeEnd f <? 0)
  | node.kFrameRowsMergeRowsRange =>
      if GetHistoryRangeEnd f <? 0 then e ← GetHistoryRowsEnd f; Some (e <? 0) else Some false
  | node.kFrameRange => Some false
  end.

(** ** Which frames may share a window *)

(** The checks on a range frame [a] and a rows frame [b]. *)
Definition range_rows_mergeable (a b : FrameNode) : option bool :=
  if IsRowsRangeLikeFrame a && bool_decide (fn_type b = node.kFrameRows) then
    pure_history ← IsPureHistoryFrame a;
    Some (negb pure_history &&
          negb (IsRowsRangeLikeMaxSizeFrame a && (frame_maxsize a <? GetHistoryRowsStartPreceding b)))
  else Some true.

Definition FrameNode_CanMergeWith (this : FrameNode) (that : option FrameNode)
    (enbale_merge_with_maxsize : bool) : option bool :=
  match that with
  | None => Some false
  | Some that =>
      if FrameNode_Equals this that then Some true
      else if IsRowsRangeLikeFrame this && IsRowsRangeLikeFrame that &&
              ((negb enbale_merge_with_maxsize && ((frame_maxsize this >? 0) || (frame_maxsize that >? 0))) ||
               negb (frame_maxsize this =? frame_maxsize that))
      then Some false
      else
        ok1 ← range_rows_mergeable this that;
        if negb ok1 then Some false
        else
          ok2 ← range_rows_mergeable that this;
          if negb ok2 then Some false
          else Some (negb (bool_decide (fn_type this = node.kFrameRange) || bool_decide (fn_type that = node.kFrameRange)))
  end.

(** ** Merging frames *)

Definition merge_extent (e1 e2 : option FrameExtent) : option FrameExtent :=
  match e1, e2 with
  | None, _ => e2
  | _, None => e1
  | Some e1, Some e2 =>
      let start := if FrameBound_Compare (fe_start e1) (fe_start e2) <? 1 then fe_start e1 else fe_start e2 in
      let end_ := if FrameBound_Compare (fe_end e1) (fe_end e2) >=? 1 then fe_end e1 else fe_end e2 in
      Some (mkFrameExtent start end_)
  end.

Definition MergeFrameNode (f1 f2 : FrameNode) : FrameNode :=
  mkFrameNode
    (if bool_decide (fn_type f1 = fn_type f2) then fn_type f1 else node.kFrameRowsMergeRowsRange)
    (merge_extent (frame_range f1) (frame_range f2))
    (merge_extent (frame_rows f1) (frame_rows f2))
    (if frame_maxsize f1 =? 0 then frame_maxsize f2 else frame_maxsize f1).

Definition current_rows : FrameNode :=
  mkFrameNode node.kFrameRows None
    (Some (mkFrameExtent (Some (FrameBound_of_type kCurrent)) (Some (FrameBound_of_type kCurrent)))) 0.

Definition MergeFrameNodeWithCurrentHistoryFrame (f : FrameNode) : FrameNode :=
  match fn_type f with node.kFrameRows => MergeFrameNode f current_rows | _ => f end.

(** [RangeGenerator]: the range of a window for its frame. *)
Definition RangeGenerator_range (f : option FrameNode) : WindowRange :=
  match f with
  | None => WindowRange_default
  | Some f =>
      mkWindowRange
        (match fn_type f with
         | node.kFrameRows => kFrameRows
         | node.kFrameRowsRange => kFrameRowsRange
         | _ => kFrameRowsMergeRowsRange
         end)
        (GetHistoryRangeStart f) (GetHistoryRangeEnd f)
        (u64 (-1 * GetHistoryRowsStart f))
        (match GetHistoryRowsEnd f with Some e => u64 (-1 * e) | None => 0 end)
        (u64 (frame_maxsize f))
  end.

(** ** Windows of a query *)

Section Windows.
(** Unions, orders and partitions of a window, compared as a whole. *)
Context {K : Type} `{EqDecision K}.

Record WindowDefNode := mkWindowDefNode {
  window_name : list Z;
  wd_exclude_current_time : bool;
  wd_instance_not_in_window : bool;
  wd_over : K;
  wd_frame : FrameNode
}.

Definition WindowDefNode_Equals (w1 w2 : WindowDefNode) : bool :=
  bool_decide (window_name w1 = window_name w2) &&
  Bool.eqb (wd_exclude_current_time w1) (wd_exclude_current_time w2) &&
  Bool.eqb (wd_instance_not_in_window w1) (wd_instance_not_in_window w2) &&
  bool_decide (wd_over w1 = wd_over w2) && FrameNode_Equals (wd_frame w1) (wd_frame w2).

Definition WindowDefNode_CanMergeWith (this : WindowDefNode) (that : option WindowDefNode)
    (enable_window_maxsize_merged : bool) : option bool :=
  match that with
  | None => Some false
  | Some that =>
      if WindowDefNode_Equals this that then Some true
      else if bool_decide (wd_over this = wd_over that) &&
              Bool.eqb (wd_exclude_current_time this) (wd_exclude_current_time that) &&
              Bool.eqb (wd_instance_not_in_window this) (wd_instance_not_in_window that)
      then FrameNode_CanMergeWith (wd_frame this) (Some (wd_frame that)) enable_window_maxsize_merged
      else Some false
  end.

Definition MergeWindow (w1 w2 : WindowDefNode) : WindowDefNode :=
  mkWindowDefNode [] (wd_exclude_current_time w1) (wd_instance_not_in_window w1) (wd_over w1)
    (MergeFrameNode (wd_frame w1) (wd_frame w2)).

(** The inner loops of [MergeWindows]: the first window that is equal or can be
    merged takes the new one; the flag says whether there is one. *)
Fixpoint merge_into (enable : bool) (w : option WindowDefNode) (windows : list (option WindowDefNode))
  : option (bool * list (option WindowDefNode)) :=
  match windows with
  | [] => Some (false, [])
  | x :: windows' =>
      if SqlEquals WindowDefNode_Equals w x then Some (true, windows)
      else match x with
           | None => '(ok, l) ← merge_into enable w windows'; Some (ok, x :: l)
           | Some x' =>
               w' ← w;
               can ← WindowDefNode_CanMergeWith w' x enable;
               if (can : bool) then Some (true, Some (MergeWindow w' x') :: windows')
               else '(ok, l) ← merge_into enable w windows'; Some (ok, x :: l)
           end
  end.

Definition is_range_like (w : option WindowDefNode) : bool :=
  match w with None => false | Some w => IsRowsRangeLikeFrame (wd_frame w) end.

(** One of the two loops over the windows of the query: those that [take]
    accepts are handled. *)
Fixpoint merge_pass (enable : bool) (take : option WindowDefNode -> bool) (ws windows : list (option WindowDefNode))
    (merged : bool) : option (bool * list (option WindowDefNode)) :=
  match ws with
  | [] => Some (merged, windows)
  | w :: ws' =>
      if negb (take w) then merge_pass enable take ws' windows merged
      else
        '(ok, windows') ← merge_into enable w windows;
        if (ok : bool) then merge_pass enable take ws' windows' true
        else merge_pass enable take ws' (windows' ++ [w]) merged
  end.

(** [Planner::MergeWindows] on the windows of the query in the order of their
    ids. *)
Definition MergeWindows (ws : list (option WindowDefNode)) : option (bool * list (option WindowDefNode)) :=
  '(m1, l1) ← merge_pass true (fun w => negb (is_range_like w)) ws [] false;
  merge_pass true is_range_like ws l1 m1.

(** [Planner::ExpandCurrentHistoryWindow]. *)
Fixpoint ExpandCurrentHistoryWindow (windows : list (option WindowDefNode))
  : option (bool * list (option WindowDefNode)) :=
  match windows with
  | [] => Some (false, [])
  | w :: windows' =>
      '(expand, w') ← match w with
        | None => Some (false, w)
        | Some w0 =>
            if IsRowsRangeLikeFrame (wd_frame w0) then Some (false, w)
            else
              pure_history ← IsPureHistoryFrame (wd_frame w0);
              Some (if (pure_history : bool)
                    then (true, Some (mkWindowDefNode [] (wd_exclude_current_time w0) (wd_instance_not_in_window w0)
                                        (wd_over w0) (MergeFrameNodeWithCurrentHistoryFrame (wd_frame w0))))
                    else (false, w))
        end;
      '(rest, l) ← ExpandCurrentHistoryWindow windows';
      Some (expand || rest, w' :: l)
  end.

(** The window of the output that [Planner::MergeProjectMap] gives to the
    projections of a window of the query: the first, in the order of the map of
    window pointers, that is equal or could be merged. *)
Fixpoint assign_window (w : option WindowDefNode) (output : list (option WindowDefNode))
  : option (option (option WindowDefNode)) :=
  match output with
  | [] => Some None
  | x :: output' =>
      if SqlEquals WindowDefNode_Equals w x then Some (Some x)
      else
        can ← match w with None => Some false | Some w' => WindowDefNode_CanMergeWith w' x true end;
        if (can : bool) then Some (Some x) else assign_window w output'
  end.
End Windows.

Arguments WindowDefNode : clear implicits.

(** ** The rows of a frame in compiled code *)

(** [ExprIRBuilder::BuildWindow] and the loop over the list it creates: the
    inner range or inner rows list of the frame in the current window; a frame
    without extents has the name of the window itself. *)
Definition frame_list {I R} `{RowIterator I R} (fuel : nat) (f : FrameNode) (window : I) (row_key : Z)
  : option (list (Z * R)) :=
  match frame_range f, frame_rows f with
  | Some _, _ =>
      r ← BuildInnerRangeWindow window row_key (GetHistoryRangeStart f) (GetHistoryRangeEnd f);
      '(_, s, e) ← r.2;
      drain fuel (SeekToFirst (InnerRangeIterator_new window s e))
  | None, Some _ =>
      rows_end ← GetHistoryRowsEnd f;
      '(_, s, e) ← (BuildInnerRowsWindow window (GetHistoryRowsStart f) rows_end).2;
      drain fuel (SeekToFirst (InnerRowsIterator_new window s e))
  | None, None => drain fuel (SeekToFirst window)
  end.
