(* ===== verification/FramesProof.v ===== *)
(** * Sharing a window between frames

    The planner lets several frames share one window, and compiled code takes
    each frame as a part of the shared window. For frames without a size limit
    this does not change the rows an aggregate sees; the bounds that the
    planner checks for size limits are too weak. *)

From stdpp Require Import base numbers option list sorting.
From S2P Require Import Prelude Iterators MemCatalog MemCatalogProof Window WindowProof InnerLists InnerListsProof Frames.

(** ** Well-formed frames *)

Definition bound_ok (b : FrameBound) : Prop := 0 <= offset b < 9223372036854775808.
Definition extent_ok (e : FrameExtent) : Prop :=
  exists s b, fe_start e = Some s /\ fe_end e = Some b /\ bound_ok s /\ bound_ok b.

Definition present (e : option FrameExtent) : Prop := exists x, e = Some x /\ extent_ok x.

(** The frames of a query, and their merges. *)
Definition frame_ok (f : FrameNode) : Prop :=
  0 <= frame_maxsize f < 9223372036854775808 /\
  match fn_type f with
  | node.kFrameRows => frame_range f = None /\ present (frame_rows f)
  | node.kFrameRowsRange => present (frame_range f) /\ frame_rows f = None
  | node.kFrameRowsMergeRowsRange => present (frame_range f) /\ present (frame_rows f)
  | node.kFrameRange => False
  end.

Lemma signed_offset_range b : bound_ok b -> INT64_MIN <= GetSignedOffset b <= INT64_MAX.
Proof.
  unfold bound_ok, GetSignedOffset, INT64_MIN, INT64_MAX. intros Hb.
  destruct (bound_type b); rewrite ?i64_small; rewrite ?i64_small; lia.
Qed.

(** The offset of a bound, at most the current row. *)
Definition past (b : FrameBound) : Z := Z.min 0 (GetSignedOffset b).

Lemma history_bound_past dflt b : history_bound dflt (Some b) = past b.
Proof.
  unfold history_bound, past. rewrite Z.gtb_ltb.
  destruct (Z.ltb_spec 0 (GetSignedOffset b)); lia.
Qed.

Lemma past_range b : bound_ok b -> INT64_MIN <= past b <= 0.
Proof. intros Hb. pose proof (signed_offset_range b Hb). unfold past, INT64_MIN in *. lia. Qed.

Lemma Compare_signed b1 b2 :
  (FrameBound_Compare (Some b1) (Some b2) < 1 <-> GetSignedOffset b1 <= GetSignedOffset b2).
Proof.
  unfold FrameBound_Compare. cbn [SqlEquals]. destruct (FrameBound_Equals b1 b2) eqn:E.
  - apply andb_true_iff in E as [E1 E2]. apply bool_decide_eq_true in E1. apply Z.eqb_eq in E2.
    assert (GetSignedOffset b1 = GetSignedOffset b2) by (unfold GetSignedOffset; by rewrite E1, E2). lia.
  - rewrite Z.gtb_ltb. destruct (Z.eqb_spec (GetSignedOffset b1) (GetSignedOffset b2)); [lia|].
    destruct (Z.ltb_spec (GetSignedOffset b2) (GetSignedOffset b1)); lia.
Qed.

(** ** What a frame needs *)

(** The start and end of the parts of a frame. *)
Definition ext_start (e : FrameExtent) : Z := history_bound 0 (fe_start e).
Definition ext_end (e : FrameExtent) : Z := history_bound 0 (fe_end e).

Lemma extent_range e : extent_ok e -> INT64_MIN <= ext_start e <= 0 /\ INT64_MIN <= ext_end e <= 0.
Proof.
  intros (s & b & Es & Eb & Hs & Hb). unfold ext_start, ext_end. rewrite Es, Eb, !history_bound_past.
  split; by apply past_range.
Qed.

Lemma merge_extent_bounds e1 e2 :
  extent_ok e1 -> extent_ok e2 ->
  exists e, merge_extent (Some e1) (Some e2) = Some e /\ extent_ok e /\
    ext_start e = Z.min (ext_start e1) (ext_start e2) /\ ext_end e = Z.max (ext_end e1) (ext_end e2).
Proof.
  intros (s1 & b1 & Es1 & Eb1 & Hs1 & Hb1) (s2 & b2 & Es2 & Eb2 & Hs2 & Hb2).
  unfold merge_extent. rewrite Es1, Es2, Eb1, Eb2. eexists. split; [done|].
  pose proof (Compare_signed s1 s2) as Hs. pose proof (Compare_signed b1 b2) as Hb.
  rewrite Z.geb_leb. destruct (Z.ltb_spec (FrameBound_Compare (Some s1) (Some s2)) 1) as [Hc|Hc];
    destruct (Z.leb_spec 1 (FrameBound_Compare (Some b1) (Some b2))) as [Hd|Hd];
    (split; [by eexists _, _|]); unfold ext_start, ext_end; cbn [fe_start fe_end];
    rewrite Es1, Es2, Eb1, Eb2, !history_bound_past; unfold past; lia.
Qed.

Section Need.
Context {R : Type}.
Implicit Types C : list (Z * R).

(** How many of the newest rows a frame reaches back to. *)
Definition need_range (t : Z) C (e : option FrameExtent) : nat :=
  match e with None => 0 | Some e => cnt (Z.max 0 (t + ext_start e)) C end.
Definition need_rows (e : option FrameExtent) : nat :=
  match e with None => 0 | Some e => S (Z.to_nat (- ext_start e)) end.
Definition need (f : FrameNode) (t : Z) C : nat :=
  Nat.max (need_range t C (frame_range f)) (need_rows (frame_rows f)).

Lemma need_merge_extent t C e1 e2 :
  from_option extent_ok True e1 -> from_option extent_ok True e2 ->
  (need_range t C e1 <= need_range t C (merge_extent e1 e2))%nat /\
  (need_range t C e2 <= need_range t C (merge_extent e1 e2))%nat /\
  (need_rows e1 <= need_rows (merge_extent e1 e2))%nat /\
  (need_rows e2 <= need_rows (merge_extent e1 e2))%nat.
Proof.
  destruct e1 as [e1|], e2 as [e2|]; cbn [from_option]; intros H1 H2; try (cbn; lia).
  destruct (merge_extent_bounds e1 e2 H1 H2) as (e & -> & _ & Es & _).
  cbn [need_range need_rows]. rewrite Es.
  split_and!; [apply cnt_mono; lia|apply cnt_mono; lia|lia|lia].
Qed.

Lemma frame_ok_extents f :
  frame_ok f -> from_option extent_ok True (frame_range f) /\ from_option extent_ok True (frame_rows f).
Proof.
  intros [_ Hf]. destruct (fn_type f); try done.
  - destruct Hf as [-> (x & -> & Hx)]. done.
  - destruct Hf as [(x & -> & Hx) ->]. done.
  - destruct Hf as [(x & -> & Hx) (y & -> & Hy)]. done.
Qed.

(** The merged frame reaches back as far as both frames. *)
Lemma need_merge f1 f2 t C :
  frame_ok f1 -> frame_ok f2 ->
  (need f1 t C <= need (MergeFrameNode f1 f2) t C)%nat /\
  (need f2 t C <= need (MergeFrameNode f1 f2) t C)%nat.
Proof.
  intros H1 H2. destruct (frame_ok_extents f1 H1) as [Ha1 Hb1].
  destruct (frame_ok_extents f2 H2) as [Ha2 Hb2]. unfold need. cbn [MergeFrameNode frame_range frame_rows].
  destruct (need_merge_extent t C _ _ Ha1 Ha2) as (? & ? & _). 
  destruct (need_merge_extent t C _ _ Hb1 Hb2) as (_ & _ & ? & ?). lia.
Qed.
End Need.

Lemma present_merge e1 e2 : present e1 -> present e2 -> present (merge_extent e1 e2).
Proof.
  intros (x1 & -> & H1) (x2 & -> & H2). destruct (merge_extent_bounds x1 x2 H1 H2) as (e & -> & He & _).
  by eexists.
Qed.
Lemma present_merge_l e : present e -> present (merge_extent e None).
Proof. intros (x & -> & H). by eexists. Qed.

Lemma frame_ok_merge f1 f2 : frame_ok f1 -> frame_ok f2 -> frame_ok (MergeFrameNode f1 f2).
Proof.
  intros [Hm1 H1] [Hm2 H2]. split; [cbn; by destruct (_ =? _)|]. unfold MergeFrameNode.
  destruct (fn_type f1) eqn:E1, (fn_type f2) eqn:E2; try done; cbn [fn_type frame_range frame_rows];
    rewrite ?bool_decide_true by done; rewrite ?bool_decide_false by done;
    destruct H1 as [R1 W1], H2 as [R2 W2]; rewrite ?R1, ?R2, ?W1, ?W2;
    eauto using present_merge, present_merge_l.
Qed.

(** ** The range of the window *)

Lemma range_of_frame f : frame_ok f ->
  let r := RangeGenerator_range (Some f) in
  (end_offset r = 0 -> range_ok r) /\ end_offset r = match frame_range f with None => 0 | Some e => ext_end e end /\
  max_size r = frame_maxsize f /\
  forall R t (C : list (Z * R)), keepn r (Z.max 0 (t + start_offset r)) C = need f t C.
Proof.
  intros Hf r. pose proof (frame_ok_extents f Hf) as [Hr Hw]. destruct Hf as [Hm Hf].
  assert (max_size r = frame_maxsize f) as Em by (cbn; by rewrite u64_small by lia).
  unfold r in *. cbn [RangeGenerator_range start_offset end_offset start_row frame_type] in *.
  unfold range_ok, keepn, need. cbn [start_offset start_row max_size frame_type].
  unfold GetHistoryRangeStart, GetHistoryRangeEnd, GetHistoryRowsStart.
  destruct (fn_type f) eqn:Et; try done.
  - destruct Hf as [E1 (w & E2 & Hw')]. rewrite E1, E2 in *. cbn [is_null andb need_range need_rows] in *.
    pose proof (extent_range w Hw') as [Hs _]. destruct Hw' as (s & b & Es & _).
    unfold ext_start in *. rewrite Es, !history_bound_past in *. unfold INT64_MIN in *.
    rewrite !u64_small by lia. split_and!; try done; try lia; intros; lia.
  - destruct Hf as [(w & E1 & Hw') E2]. rewrite E1, E2 in *. cbn [is_null andb need_range need_rows] in *.
    pose proof (extent_range w Hw') as [Hs He]. destruct Hw' as (s & b & Es & Eb & _).
    unfold ext_start, ext_end in *. rewrite Es, Eb, !history_bound_past in *. unfold INT64_MIN in *.
    rewrite !u64_small by lia. split_and!; try done; try lia; intros; lia.
  - destruct Hf as [(w & E1 & Hw') (v & E2 & Hv')]. rewrite E1, E2 in *. cbn [is_null andb need_range need_rows] in *.
    pose proof (extent_range w Hw') as [Hs He]. pose proof (extent_range v Hv') as [Hs' _].
    destruct Hw' as (s & b & Es & Eb & _). destruct Hv' as (s' & b' & Es' & _).
    unfold ext_start, ext_end in *. rewrite Es, Es', Eb, !history_bound_past in *. unfold INT64_MIN in *.
    rewrite !u64_small by lia. split_and!; try done; try lia; intros; lia.
Qed.

(** ** The rows of a frame *)

Section Rows.
Context {R : Type}.
Implicit Types C : list (Z * R).

(** The rows of the frame of a query among rows in descending order: those of
    a time range, or those of a range of positions. *)
Definition frame_part (f : FrameNode) (t : Z) C : list (Z * R) :=
  match frame_range f, frame_rows f with
  | Some e, _ => filter (fun x => Z.max 0 (t + ext_start e) <= x.1 <= Z.max 0 (t + ext_end e)) C
  | None, Some e => take (Z.to_nat (ext_end e - ext_start e + 1)) (drop (Z.to_nat (- ext_end e)) C)
  | None, None => []
  end.

(** A frame of a query over past rows: its start is not after its end, and a
    frame of rows is bounded and ends at the current row or earlier. *)
Definition past_frame (f : FrameNode) : Prop :=
  frame_ok f /\
  match frame_range f, frame_rows f with
  | Some e, _ => ext_start e <= ext_end e
  | None, Some e => INT64_MIN < ext_start e <= ext_end e /\
                    match fe_end e with Some b => GetSignedOffset b <= 0 | None => False end
  | None, None => False
  end.

Lemma filter_take_cnt C s b n :
  desc C -> (cnt s C <= n)%nat ->
  filter (fun x => s <= x.1 <= b) (take n C) = filter (fun x => s <= x.1 <= b) C.
Proof.
  revert n. induction C as [|e C IH]; intros n Hd Hn; [by rewrite take_nil|].
  apply desc_cons in Hd as [Hd Hf]. rewrite cnt_cons in Hn. destruct n as [|n].
  - case_decide; [lia|]. rewrite filter_cons_False by (cbn; tauto). rewrite <- (IH 0%nat); [done|done|lia].
  - cbn [take]. rewrite !filter_cons, IH; [done|done|]. case_decide; [lia|].
    rewrite cnt_old; [lia|]. eapply Forall_impl; [exact Hf|]. cbn. intros; lia.
Qed.

(** A prefix that reaches back as far as the frame needs has all its rows. *)
Lemma frame_list_take (dflt : R) f t C n fuel :
  past_frame f -> 0 <= t < 9223372036854775808 -> desc C -> (need f t C <= n)%nat ->
  (length C <= fuel)%nat -> Z.of_nat (length C) < 18446744073709551616 ->
  frame_list fuel f (MemTimeTableIterator_new (take n C)) t = Some (frame_part f t C).
Proof.
  intros [Hok Hf] Ht Hd Hn Hfuel Hlen. pose proof (frame_ok_extents f Hok) as [Hr Hw].
  unfold frame_list, frame_part, need in *. set (root := MemTimeTableIterator_new (take n C)).
  assert (it_ok root) as Ho by (cbn; lia).
  assert (all root = take n C) as Ea by (cbn; unfold slice; by rewrite firstn_all).
  pose proof (length_take C n) as Hl.
  destruct (frame_range f) as [e|] eqn:Er.
  - cbn [from_option] in Hr. pose proof (extent_range e Hr) as [Hs He]. unfold INT64_MIN in *.
    destruct (inner_range_lists root Ho ltac:(rewrite Ea; by apply desc_take) t (ext_start e) (ext_end e) fuel)
      as (s & b & E & -> & -> & Ed); [done|lia|lia|rewrite Ea; lia|].
    destruct Hr as (s & b & Es & Eb & _).
    assert (GetHistoryRangeStart f = ext_start e) as ->.
    { unfold GetHistoryRangeStart, ext_start. rewrite Er, Es, andb_false_r. done. }
    assert (GetHistoryRangeEnd f = ext_end e) as ->.
    { unfold GetHistoryRangeEnd, ext_end. by rewrite Er. }
    rewrite E. cbn [mbind option_bind snd]. rewrite Ed, Ea. f_equal. apply filter_take_cnt; [done|].
    cbn [need_range] in Hn. lia.
  - destruct (frame_rows f) as [e|] eqn:Ew; [|done]. cbn [from_option] in Hw.
    destruct Hf as [Hse Hend]. pose proof (extent_range e Hw) as [Hs He].
    destruct Hw as (s & b & Es & Eb & _).
    assert (GetHistoryRowsStart f = ext_start e) as ->.
    { unfold GetHistoryRowsStart, ext_start. by rewrite Er, Ew, Es. }
    assert (GetHistoryRowsEnd f = Some (ext_end e)) as ->.
    { unfold GetHistoryRowsEnd, ext_end. rewrite Er, Ew, Es, Eb in *. cbn [is_null andb mbind option_bind].
      rewrite history_bound_past. unfold past. f_equal. lia. }
    cbn [mbind option_bind]. destruct (inner_rows_lists root dflt (ext_start e) (ext_end e) 0 fuel)
      as (s' & b' & -> & _ & Ed & _); [done|unfold INT64_MIN in *; lia|lia|rewrite Ea; lia..|].
    cbn [mbind option_bind snd]. rewrite Ed, Ea. f_equal.
    rewrite !take_drop_commute. f_equal. rewrite take_take. f_equal.
    cbn [need_range need_rows] in Hn. lia.
Qed.

(** The batch window of a frame without size limit that ends at the current row
    holds the rows of every frame that does not reach back further. *)
Lemma shared_window_rows F f (rows : list (Z * R)) (ex : bool) row A fuel :
  frame_ok F -> frame_maxsize F = 0 -> GetHistoryRangeEnd F = 0 -> past_frame f -> (forall t C, (need f t C <= need F t C)%nat) ->
  Forall (fun e => key_ok ex e.1) rows -> accepted rows = row :: A ->
  (length (candidates ex (row :: A)) <= fuel)%nat -> Z.of_nat (length (candidates ex (row :: A))) < 18446744073709551616 ->
  exists w,
    buffer_all HistoryWindow_BufferData rows (set_exclude_current_time ex (HistoryWindow_new (RangeGenerator_range (Some F)))) = Some w /\
    frame_list fuel f (MemTimeTableIterator_new (hw_table w)) row.1 = Some (frame_part f row.1 (candidates ex (row :: A))).
Proof.
  intros HF Hm HE Hf Hn Hk Ha Hfuel Hlen. destruct (range_of_frame F HF) as (Hr & _ & Hms & Hkeep). specialize (Hr HE).
  set (r := RangeGenerator_range (Some F)) in *.
  destruct (buffer_all_history r ex rows Hr HE [] _ (refines_new r ex) Hk) as (w & Ew & Hw).
  change (foldl accept [] rows) with (accepted rows) in Hw. rewrite Ha in Hw.
  exists w. split; [done|]. rewrite (rf_table _ _ _ _ Hw). unfold frame_spec, limit.
  assert (max_size r = 0) as Hm0 by (by rewrite Hms). rewrite Hm0. cbn [Z.eqb start_of]. rewrite Hkeep.
  pose proof (rf_desc _ _ _ _ Hw) as Hd. apply desc_candidates with (ex := ex) in Hd.
  pose proof (Forall_inv (rf_keys _ _ _ _ Hw)) as Hrow.
  assert (0 <= row.1 < 9223372036854775808) by (destruct ex; unfold key_ok in Hrow; lia).
  by apply (frame_list_take row.2).
Qed.

(** C14: sharing a window between two frames does not change what an aggregate
    sees. The batch window of the merged frame is fed with any rows; then the
    rows that compiled code iterates over for each of the two frames, through
    an inner list of the shared window, are those the frame itself selects
    from the rows accepted so far (with EXCLUDE CURRENT_TIME the current row
    and the rows strictly before its time). For frames without a size limit
    whose merge ends at the current row. *)
Theorem window_merging f1 f2 (rows : list (Z * R)) (ex : bool) row A fuel :
  past_frame f1 -> past_frame f2 -> frame_maxsize f1 = 0 -> frame_maxsize f2 = 0 ->
  let F := MergeFrameNode f1 f2 in
  GetHistoryRangeEnd F = 0 ->
  Forall (fun e => key_ok ex e.1) rows -> accepted rows = row :: A ->
  (length (candidates ex (row :: A)) <= fuel)%nat ->
  Z.of_nat (length (candidates ex (row :: A))) < 18446744073709551616 ->
  exists w,
    buffer_all HistoryWindow_BufferData rows
      (set_exclude_current_time ex (HistoryWindow_new (RangeGenerator_range (Some F)))) = Some w /\
    let it := MemTimeTableIterator_new (hw_table w) in
    frame_list fuel f1 it row.1 = Some (frame_part f1 row.1 (candidates ex (row :: A))) /\
    frame_list fuel f2 it row.1 = Some (frame_part f2 row.1 (candidates ex (row :: A))).
Proof.
  intros H1 H2 Hm1 Hm2 F HE Hk Ha Hfuel Hlen.
  pose proof (frame_ok_merge f1 f2 (proj1 H1) (proj1 H2)) as HF. fold F in HF.
  assert (frame_maxsize F = 0) as Hm by (cbn; by rewrite Hm1).
  pose proof (fun t C => need_merge f1 f2 t C (proj1 H1) (proj1 H2)) as Hn.
  destruct (shared_window_rows F f1 rows ex row A fuel HF Hm HE H1 (fun t C => proj1 (Hn t C)) Hk Ha Hfuel Hlen) as (w & Ew & E1).
  destruct (shared_window_rows F f2 rows ex row A fuel HF Hm HE H2 (fun t C => proj2 (Hn t C)) Hk Ha Hfuel Hlen) as (w' & Ew' & E2).
  assert (w' = w) as -> by congruence. by exists w.
Qed.
End Rows.

(** ** Merging the windows of a query *)

Lemma FrameBound_Equals_signed b1 b2 :
  FrameBound_Equals b1 b2 = true -> GetSignedOffset b1 = GetSignedOffset b2.
Proof.
  intros [E1 E2]%andb_true_iff. apply bool_decide_eq_true in E1. apply Z.eqb_eq in E2.
  unfold GetSignedOffset. by rewrite E1, E2.
Qed.

Lemma SqlEquals_history dflt b1 b2 :
  SqlEquals FrameBound_Equals b1 b2 = true -> history_bound dflt b1 = history_bound dflt b2.
Proof.
  destruct b1, b2; try done. intros E%FrameBound_Equals_signed. cbn. by rewrite E.
Qed.

Section Cover.
Context {K R : Type} `{EqDecision K}.
Implicit Types (w o : option (WindowDefNode K)) (C : list (Z * R)).

(** Equal frames need the same rows. *)
Lemma need_equals f1 f2 t C : FrameNode_Equals f1 f2 = true -> need f1 t C = need f2 t C.
Proof.
  intros [[[_ E1]%andb_true_iff E2]%andb_true_iff _]%andb_true_iff. unfold need. f_equal.
  - destruct (frame_range f1), (frame_range f2); try done. cbn in E1.
    apply andb_true_iff in E1 as [Es _]. cbn. unfold ext_start. by rewrite (SqlEquals_history 0 _ _ Es).
  - destruct (frame_rows f1), (frame_rows f2); try done. cbn in E2.
    apply andb_true_iff in E2 as [Es _]. cbn. unfold ext_start. by rewrite (SqlEquals_history 0 _ _ Es).
Qed.

(** Equal frames end at the same time. *)
Lemma end_equals f1 f2 : FrameNode_Equals f1 f2 = true -> GetHistoryRangeEnd f1 = GetHistoryRangeEnd f2.
Proof.
  intros [[[_ E1]%andb_true_iff _]%andb_true_iff _]%andb_true_iff. unfold GetHistoryRangeEnd. destruct (frame_range f1), (frame_range f2); try done. cbn in E1.
  apply andb_true_iff in E1 as [_ Ee]. by apply SqlEquals_history.
Qed.
(** A frame without size limit; ranges that were merged with rows end at the
    current row. *)
Definition shared_ok (f : FrameNode) : Prop :=
  frame_ok f /\ frame_maxsize f = 0 /\ (fn_type f = node.kFrameRowsMergeRowsRange -> GetHistoryRangeEnd f = 0).
Lemma range_end_le f : frame_ok f -> GetHistoryRangeEnd f <= 0.
Proof.
  intros Hf. apply frame_ok_extents in Hf as [Hr _]. unfold GetHistoryRangeEnd. destruct (frame_range f) as [e|]; [|done]. cbn [from_option] in Hr.
  apply extent_range in Hr as [_ Hr]. unfold ext_end in Hr. lia.
Qed.
Lemma rows_end f : frame_ok f -> fn_type f = node.kFrameRows -> frame_range f = None /\ GetHistoryRangeEnd f = 0.
Proof. intros [_ Hf] Et. rewrite Et in Hf. destruct Hf as [Hr _]. unfold GetHistoryRangeEnd. by rewrite Hr. Qed.
Lemma mergeable_end a b : range_rows_mergeable a b = Some true -> frame_ok a -> fn_type a = node.kFrameRowsRange -> fn_type b = node.kFrameRows -> GetHistoryRangeEnd a = 0.
Proof.
  unfold range_rows_mergeable, IsRowsRangeLikeFrame, IsPureHistoryFrame. intros Hm Ha Ea Eb. rewrite Ea, Eb in Hm. cbn in Hm. apply range_end_le in Ha.
  destruct (Z.ltb_spec (GetHistoryRangeEnd a) 0); [done|lia].
Qed.
(** If one of two frames ends at the current row their merge does. *)
Lemma end_merge f1 f2 : shared_ok f1 -> shared_ok f2 -> FrameNode_CanMergeWith f1 (Some f2) true = Some true ->
  GetHistoryRangeEnd f1 = 0 \/ GetHistoryRangeEnd f2 = 0 -> GetHistoryRangeEnd (MergeFrameNode f1 f2) = 0.
Proof.
  intros (H1 & _ & M1) (H2 & _ & M2) Hc Hor.
  pose proof (range_end_le f1 H1) as L1. pose proof (range_end_le f2 H2) as L2. destruct (frame_ok_extents f1 H1) as [X1 _]. destruct (frame_ok_extents f2 H2) as [X2 _].
  assert (is_null (frame_range f1) <> is_null (frame_range f2) -> range_rows_mergeable f1 f2 = Some true /\ range_rows_mergeable f2 f1 = Some true) as Hm.
  { intros Hne. unfold FrameNode_CanMergeWith in Hc. destruct (FrameNode_Equals f1 f2) eqn:He.
    { exfalso. apply Hne. apply andb_true_iff in He as [[[_ He]%andb_true_iff _]%andb_true_iff _]. by destruct (frame_range f1), (frame_range f2). }
    destruct (_ && _) in Hc; [done|]. destruct (range_rows_mergeable f1 f2) as [[]|]; [|done|done]. cbn [mbind option_bind negb] in Hc. by destruct (range_rows_mergeable f2 f1) as [[]|]. }
  unfold GetHistoryRangeEnd at 1. cbn [MergeFrameNode frame_range].
  destruct (frame_range f1) as [e1|] eqn:R1, (frame_range f2) as [e2|] eqn:R2; cbn [merge_extent from_option is_null] in *; [| | |done].
  - destruct (merge_extent_bounds e1 e2 X1 X2) as (e & Em & _ & _ & Ee). cbn [merge_extent] in Em. injection Em as <-. unfold ext_end in Ee at 1. cbn [fe_end] in Ee |- *.
    rewrite Ee. unfold GetHistoryRangeEnd in *. rewrite R1 in *. rewrite R2 in *. unfold ext_end. lia.
  - destruct Hm as [E1 _]; [done|]. assert (GetHistoryRangeEnd f1 = 0) as Hz; [|unfold GetHistoryRangeEnd in Hz; by rewrite R1 in Hz].
    assert (fn_type f2 = node.kFrameRows) as T2 by (destruct H2 as [_ Hf]; destruct (fn_type f2); try done; destruct Hf as [(? & ? & ?) ?]; congruence).
    destruct (fn_type f1) eqn:T1; [by destruct H1 as [_ Hf]; rewrite T1 in Hf|by destruct (rows_end f1 H1 T1)|by apply (mergeable_end f1 f2)|by apply M1].
  - destruct Hm as [_ E2]; [done|]. assert (GetHistoryRangeEnd f2 = 0) as Hz; [|unfold GetHistoryRangeEnd in Hz; by rewrite R2 in Hz].
    assert (fn_type f1 = node.kFrameRows) as T1 by (destruct H1 as [_ Hf]; destruct (fn_type f1); try done; destruct Hf as [(? & ? & ?) ?]; congruence).
    destruct (fn_type f2) eqn:T2; [by destruct H2 as [_ Hf]; rewrite T2 in Hf|by destruct (rows_end f2 H2 T2)|by apply (mergeable_end f2 f1)|by apply M2].
Qed.
Lemma shared_ok_merge f1 f2 : shared_ok f1 -> shared_ok f2 -> FrameNode_CanMergeWith f1 (Some f2) true = Some true -> shared_ok (MergeFrameNode f1 f2).
Proof.
  intros H1 H2 Hc. pose proof (end_merge f1 f2 H1 H2 Hc) as Hend. destruct H1 as (H1 & Z1 & M1), H2 as (H2 & Z2 & M2).
  split_and!; [by apply frame_ok_merge|cbn; by rewrite Z1|]. intros Et. apply Hend. cbn in Et.
  destruct (fn_type f1) eqn:T1; [by destruct H1 as [_ Hf]; rewrite T1 in Hf|left; by apply rows_end| |left; by apply M1].
  destruct (fn_type f2) eqn:T2; [by destruct H2 as [_ Hf]; rewrite T2 in Hf|right; by apply rows_end|done|right; by apply M2].
Qed.

(** Window [o] has the sources of window [w], reaches back as far, and ends at
    the current row if [w] does. *)
Definition covers o w : Prop :=
  match o, w with
  | None, None => True
  | Some o, Some w =>
      wd_over o = wd_over w /\ wd_exclude_current_time o = wd_exclude_current_time w /\
      wd_instance_not_in_window o = wd_instance_not_in_window w /\
      (GetHistoryRangeEnd (wd_frame w) = 0 -> GetHistoryRangeEnd (wd_frame o) = 0) /\
      forall t C, (need (wd_frame w) t C <= need (wd_frame o) t C)%nat
  | _, _ => False
  end.

#[local] Instance covers_preorder : PreOrder covers.
Proof.
  split.
  - intros [w|]; [by split_and!|done].
  - intros [a|] [b|] [c|]; try done. intros (E1 & E2 & E3 & E4 & H1) (F1 & F2 & F3 & F4 & H2).
    split_and!; [congruence..|by auto|]. intros t C. etrans; [apply H2|apply H1].
Qed.

Definition window_ok w : Prop := match w with None => True | Some w => shared_ok (wd_frame w) end.

Lemma covers_equals w o : SqlEquals WindowDefNode_Equals w o = true -> covers o w.
Proof.
  destruct w as [w|], o as [o|]; try done. cbn. unfold WindowDefNode_Equals.
  intros [[[[_ E1]%andb_true_iff E2]%andb_true_iff E3]%andb_true_iff E4]%andb_true_iff.
  apply Bool.eqb_prop in E1, E2. apply bool_decide_eq_true in E3.
  split_and!; [by symmetry..|by rewrite (end_equals _ _ E4)|]. intros t C. by rewrite (need_equals _ _ t C E4).
Qed.

Lemma can_merge_decided f1 f2 b : frame_ok f1 -> frame_ok f2 -> is_Some (FrameNode_CanMergeWith f1 (Some f2) b).
Proof.
  assert (forall f, frame_ok f -> is_Some (GetHistoryRowsEnd f)) as Hend.
  { intros f [_ Hf]. unfold GetHistoryRowsEnd. destruct (is_null (frame_rows f) && is_null (frame_range f)); [done|].
    destruct (frame_rows f) as [e|] eqn:E; [|done]. destruct (is_null (fe_start e)); [done|].
    assert (present (Some e)) as (? & [= <-] & s & x & _ & Ex & _)
      by (destruct (fn_type f); destruct Hf; done). rewrite Ex. done. }
  assert (forall f, frame_ok f -> is_Some (IsPureHistoryFrame f)) as Hpure.
  { intros f Hf. unfold IsPureHistoryFrame. destruct (Hend f Hf) as [e ->].
    destruct (fn_type f); try done. cbn. by destruct (_ <? 0). }
  assert (forall f g, frame_ok f -> is_Some (range_rows_mergeable f g)) as Hm.
  { intros f g Hf. unfold range_rows_mergeable. destruct (_ && _); [|done].
    destruct (Hpure f Hf) as [e ->]. done. }
  intros H1 H2. unfold FrameNode_CanMergeWith. destruct (FrameNode_Equals f1 f2); [done|].
  destruct (_ && _); [done|]. destruct (Hm f1 f2 H1) as [ok1 ->]. cbn. destruct ok1; [|done]. cbn.
  destruct (Hm f2 f1 H2) as [ok2 ->]. cbn. by destruct ok2.
Qed.

Lemma merge_covers (w o : WindowDefNode K) :
  shared_ok (wd_frame w) -> shared_ok (wd_frame o) -> WindowDefNode_CanMergeWith w (Some o) true = Some true ->
  WindowDefNode_Equals w o = false ->
  window_ok (Some (MergeWindow w o)) /\ covers (Some (MergeWindow w o)) (Some w) /\ covers (Some (MergeWindow w o)) (Some o).
Proof.
  intros Hw Ho. unfold WindowDefNode_CanMergeWith. intros Hc E. rewrite E in Hc.
  destruct (_ && _) eqn:Ef in Hc; [|done].
  apply andb_true_iff in Ef as [[E1 E2]%andb_true_iff E3]. apply bool_decide_eq_true in E1.
  apply Bool.eqb_prop in E2, E3. pose proof (fun t C => need_merge (R:=R) _ _ t C (proj1 Hw) (proj1 Ho)) as Hn.
  pose proof (end_merge _ _ Hw Ho Hc) as Hend. split; [by apply shared_ok_merge|].
  split; (split_and!; [done..|by intros ?; apply Hend; auto|]); intros t C; apply Hn.
Qed.

(** One step of the loops: the new window is taken by a window of the list, or
    the list is unchanged; nothing that was covered is lost. *)
Lemma merge_into_covers w l :
  window_ok w -> Forall window_ok l -> is_Some w ->
  exists ok l', merge_into true w l = Some (ok, l') /\ Forall window_ok l' /\
    Forall (fun x => Exists (fun o => covers o x) l') l /\
    if ok : bool then Exists (fun o => covers o w) l' else l' = l.
Proof.
  intros Hw Hl [w0 ->]. induction Hl as [|x l Hx Hl IH]; [by exists false, []|].
  assert (forall o l', covers o x ->
    Forall (fun x => Exists (fun o => covers o x) l') l ->
    Forall (fun x => Exists (fun o => covers o x) (o :: l')) (x :: l)) as Hcons.
  { intros o l' Ho Hl'. constructor; [by constructor|]. eapply Forall_impl; [exact Hl'|]. intros y ?. by constructor. }
  assert (Forall (fun x => Exists (fun o => covers o x) l) l) as Hself.
  { apply Forall_forall. intros y Hy. apply Exists_exists. by exists y. }
  cbn [merge_into]. destruct (SqlEquals WindowDefNode_Equals (Some w0) x) eqn:E.
  { eexists _, _. split_and!; [done|by constructor|by apply Hcons|]. constructor. by apply covers_equals. }
  destruct IH as (ok & l' & El & Hok & Hcov & Hend).
  assert (exists ok l0, ('(ok, l0) ← merge_into true (Some w0) l; Some (ok, x :: l0)) = Some (ok, l0) /\
    Forall window_ok l0 /\ Forall (fun x => Exists (fun o => covers o x) l0) (x :: l) /\
    if ok : bool then Exists (fun o => covers o (Some w0)) l0 else l0 = x :: l) as Hskip.
  { rewrite El. exists ok, (x :: l'). split_and!; [done|by constructor|by apply Hcons|].
    destruct ok; [by constructor|by rewrite Hend]. }
  destruct x as [x0|]; [|done]. cbn [mbind option_bind].
  destruct (WindowDefNode_CanMergeWith w0 (Some x0) true) as [[]|] eqn:Ec; [|done|].
  - destruct (merge_covers w0 x0 Hw Hx Ec E) as (C0 & C1 & C2). eexists _, _.
    split_and!; [done|by constructor|by apply Hcons|by constructor].
  - exfalso. revert Ec. unfold WindowDefNode_CanMergeWith. destruct (WindowDefNode_Equals _ _); [done|].
    destruct (_ && _); [|done]. destruct (can_merge_decided _ _ true (proj1 Hw) (proj1 Hx)) as [? ->]. done.
Qed.

Lemma Exists_covers_trans l l' w :
  Forall (fun x => Exists (fun o => covers o x) l') l -> Exists (fun o => covers o w) l ->
  Exists (fun o => covers o w) l'.
Proof.
  intros Hl (x & Hx & Hc)%Exists_exists. apply (proj1 (Forall_forall _ _) Hl) in Hx.
  eapply Exists_impl; [exact Hx|]. intros o Ho. by transitivity x.
Qed.

Lemma merge_pass_covers tk ws : forall l m,
  Forall is_Some ws -> Forall window_ok ws -> Forall window_ok l ->
  exists m' l', merge_pass true tk ws l m = Some (m', l') /\ Forall window_ok l' /\
    Forall (fun x => Exists (fun o => covers o x) l') l /\
    Forall (fun w => tk w = true -> Exists (fun o => covers o w) l') ws.
Proof.
  induction ws as [|w ws IH]; intros l m Hs Hw Hl; cbn [merge_pass].
  { exists m, l. split_and!; [done|done| |done]. apply Forall_forall. intros y Hy. apply Exists_exists. by exists y. }
  inversion_clear Hs as [|?? Hsw Hss]. inversion_clear Hw as [|?? Hw0 Hws]. destruct (tk w) eqn:Et; cbn [negb].
  - destruct (merge_into_covers w l Hw0 Hl Hsw) as (ok & l1 & -> & Hl1 & Hc1 & Hend). cbn [mbind option_bind].
    assert (exists l2, Forall window_ok l2 /\ Forall (fun x => Exists (fun o => covers o x) l2) l /\
      Exists (fun o => covers o w) l2 /\ l2 = if ok then l1 else l1 ++ [w]) as (l2 & H1 & H2 & H3 & ->).
    { eexists. split_and!; [| | |done]; destruct ok; subst; try done.
      - apply Forall_app. split; [done|by repeat constructor].
      - eapply Forall_impl; [exact Hc1|]. intros x Hx. apply Exists_app. by left.
      - apply Exists_app. right. by constructor. }
    destruct (IH _ (if ok then true else m) Hss Hws H1) as (m' & l' & E & H4 & H5 & H6).
    exists m', l'. split_and!; [by destruct ok|done| |].
    + eapply Forall_impl; [exact H2|]. intros x. by apply Exists_covers_trans.
    + constructor; [|done]. intros _. by eapply Exists_covers_trans.
  - destruct (IH l m Hss Hws Hl) as (m' & l' & E & H4 & H5 & H6). exists m', l'.
    split_and!; [done..|]. constructor; [congruence|done].
Qed.
End Cover.

(** Merging loses no window. *)
Lemma merge_windows_ok {K R} `{EqDecision K} (ws : list (option (WindowDefNode K))) :
  Forall is_Some (tail ws) -> Forall window_ok ws ->
  exists merged out, MergeWindows ws = Some (merged, out) /\ Forall window_ok out /\
    Forall (fun w => Exists (fun o => covers (R := R) o w) out) ws.
Proof.
  intros Hs Hw. unfold MergeWindows.
  assert (forall (l m : list (option (WindowDefNode K))), Forall is_Some l -> Forall window_ok l -> Forall window_ok m ->
    exists merged out, ('(m1, l1) ← merge_pass true (fun w => negb (is_range_like w)) l m false;
      merge_pass true is_range_like l l1 m1) = Some (merged, out) /\ Forall window_ok out /\
      Forall (fun w => Exists (fun o => covers (R := R) o w) out) m /\
      Forall (fun w => Exists (fun o => covers (R := R) o w) out) l) as Hall.
  { intros l m H1 H2 H3.
    destruct (merge_pass_covers (R := R) (fun w => negb (is_range_like w)) l m false H1 H2 H3)
      as (m1 & l1 & -> & Hl1 & Hc1 & Ht1). cbn [mbind option_bind].
    destruct (merge_pass_covers (R := R) is_range_like l l1 m1 H1 H2 Hl1) as (m2 & l2 & -> & Hl2 & Hc2 & Ht2).
    eexists _, _. split_and!; [done|done| |].
    - eapply Forall_impl; [exact Hc1|]. intros x. by apply Exists_covers_trans.
    - apply Forall_forall. intros x Hx. destruct (is_range_like x) eqn:Ex.
      + by apply (proj1 (Forall_forall _ _) Ht2).
      + eapply Exists_covers_trans; [exact Hc2|]. apply (proj1 (Forall_forall _ _) Ht1); [done|]. by rewrite Ex. }
  destruct ws as [|[w|] ws].
  - by exists false, [].
  - destruct (Hall (Some w :: ws) []) as (a & b & E & H1 & _ & H2); [by constructor|done|done|].
    by exists a, b.
  - inversion_clear Hw as [|?? _ Hw'].
    destruct (Hall ws [None]) as (a & b & E & H1 & H2 & H3); [done|done|by repeat constructor|].
    exists a, b. split_and!; [exact E|done|]. constructor; [by inversion_clear H2|done].
Qed.

(** A window as a query writes it: a frame of rows or of a range of times that
    starts and ends in the past or at the current row, without size limit. *)
Definition own_window {K} (w : option (WindowDefNode K)) : Prop :=
  match w with
  | None => True
  | Some w => past_frame (wd_frame w) /\ frame_maxsize (wd_frame w) = 0 /\ fn_type (wd_frame w) <> node.kFrameRowsMergeRowsRange
  end.
Lemma own_window_ok {K} (w : option (WindowDefNode K)) : own_window w -> window_ok w.
Proof. destruct w as [w|]; [|done]. intros ([Hf _] & Hm & Ht). by split_and!. Qed.

(** C26: merging the windows of a query loses no rows. For windows without MAXSIZE, [MergeWindows] succeeds, and every window of the
    query has a window in the result over the same sources and with the same
    flags, which ends at the current row if the window of the query does (or any
    window merged into it); a batch window of that frame, fed with any rows,
    then gives compiled code exactly the rows the window of the query selects. The
    windows are in the order of their ids, where only the first can be the null
    window of projections without one. Which window the projections are then given
    is a later step ([assign_window_not_covering]). *)
Theorem merged_windows_rows {K R} `{EqDecision K} (ws : list (option (WindowDefNode K))) :
  Forall is_Some (tail ws) -> Forall own_window ws ->
  exists merged out, MergeWindows ws = Some (merged, out) /\
    forall w, Some w ∈ ws -> exists o, Some o ∈ out /\
      wd_over o = wd_over w /\ wd_exclude_current_time o = wd_exclude_current_time w /\ wd_instance_not_in_window o = wd_instance_not_in_window w /\
      (GetHistoryRangeEnd (wd_frame w) = 0 -> GetHistoryRangeEnd (wd_frame o) = 0) /\
      (GetHistoryRangeEnd (wd_frame o) = 0 ->
       forall (rows : list (Z * R)) row A fuel, let ex := wd_exclude_current_time w in
         Forall (fun e => key_ok ex e.1) rows -> accepted rows = row :: A ->
         (length (candidates ex (row :: A)) <= fuel)%nat -> Z.of_nat (length (candidates ex (row :: A))) < 18446744073709551616 ->
         exists h, buffer_all HistoryWindow_BufferData rows
             (set_exclude_current_time ex (HistoryWindow_new (RangeGenerator_range (Some (wd_frame o))))) = Some h /\
           frame_list fuel (wd_frame w) (MemTimeTableIterator_new (hw_table h)) row.1 = Some (frame_part (wd_frame w) row.1 (candidates ex (row :: A)))).
Proof.
  intros Hs Hw. assert (Forall window_ok ws) as Hok by (eapply Forall_impl; [exact Hw|]; apply own_window_ok).
  destruct (merge_windows_ok (R := R) ws Hs Hok) as (merged & out & E & Hout & Hc). exists merged, out. split; [done|]. intros w Hin.
  rewrite Forall_forall in Hw, Hc, Hout. destruct (Hw _ Hin) as (Hp & _). specialize (Hc _ Hin). apply Exists_exists in Hc as ([o|] & Ho & Hcov); [|done].
  destruct Hcov as (E1 & E2 & E3 & E4 & Hn). destruct (Hout _ Ho) as (HF & Hm & _). exists o. split_and!; [done..|].
  intros HE rows row A fuel ex. by apply shared_window_rows.
Qed.

(** ** Size limits *)

(** [ROWS BETWEEN n PRECEDING AND CURRENT ROW]. *)
Definition rows_preceding (n : Z) : FrameNode :=
  mkFrameNode node.kFrameRows None
    (Some (mkFrameExtent (Some (mkFrameBound kPreceding false n)) (Some (FrameBound_of_type kCurrent)))) 0.
(** [ROWS_RANGE BETWEEN p PRECEDING AND CURRENT ROW MAXSIZE n]. *)
Definition range_preceding (p n : Z) : FrameNode :=
  mkFrameNode node.kFrameRowsRange
    (Some (mkFrameExtent (Some (mkFrameBound kPreceding true p)) (Some (FrameBound_of_type kCurrent)))) None n.

Lemma preceding_bound ti n : 0 <= n < 9223372036854775808 ->
  history_bound 0 (Some (mkFrameBound kPreceding ti n)) = - n.
Proof. intros Hn. rewrite history_bound_past. unfold past. cbn. rewrite i64_small by lia. lia. Qed.

Lemma rows_preceding_past n : 0 <= n < 9223372036854775808 ->
  past_frame (rows_preceding n) /\
  forall R t (C : list (Z * R)), frame_part (rows_preceding n) t C = take (S (Z.to_nat n)) C.
Proof.
  intros Hn. pose proof (preceding_bound false n Hn) as E. split.
  - split; [split; [cbn; lia|]|].
    + split; [done|]. eexists. split; [done|]. eexists _, _. split_and!; [done|done|unfold bound_ok; cbn; lia..].
    + cbn -[history_bound]. unfold ext_start, ext_end. cbn [fe_start fe_end]. rewrite E. cbn. unfold INT64_MIN. lia.
  - intros R t C. unfold frame_part. cbn [rows_preceding frame_range frame_rows].
    unfold ext_start, ext_end. cbn [fe_start fe_end]. rewrite E. cbn [history_bound]. cbn -[Z.sub].
    f_equal. lia.
Qed.

Lemma range_preceding_ok p n :
  0 <= p < 9223372036854775808 -> 0 <= n < 9223372036854775808 -> frame_ok (range_preceding p n).
Proof.
  intros Hp Hn. split; [done|]. split; [|done]. eexists. split; [done|].
  eexists _, _. split_and!; [done|done|unfold bound_ok; cbn; lia..].
Qed.

(** A size limit of [n] rows is accepted for a window that is shared with
    a frame of [n] preceding rows, which has [n+1] rows: whenever enough rows
    have arrived, the aggregate over the frame misses one. (The comment in the
    code excludes this case, the comparison admits it.) *)
Theorem maxsize_merge_drops_row {R} n p (rows : list (Z * R)) row A fuel :
  0 < n < 9223372036854775808 -> 0 <= p < 9223372036854775808 ->
  Forall (fun e => key_ok false e.1) rows -> accepted rows = row :: A -> (Z.to_nat n <= length A <= fuel)%nat ->
  Z.of_nat (length A) < 18446744073709551616 ->
  let F := MergeFrameNode (rows_preceding n) (range_preceding p n) in
  FrameNode_CanMergeWith (rows_preceding n) (Some (range_preceding p n)) true = Some true /\
  length (frame_part (rows_preceding n) row.1 (row :: A)) = S (Z.to_nat n) /\
  exists w l,
    buffer_all HistoryWindow_BufferData rows (HistoryWindow_new (RangeGenerator_range (Some F))) = Some w /\
    frame_list fuel (rows_preceding n) (MemTimeTableIterator_new (hw_table w)) row.1 = Some l /\
    (length l <= Z.to_nat n)%nat.
Proof.
  intros Hn Hp Hk Ha Hl Hlen F.
  destruct (rows_preceding_past n ltac:(lia)) as [Hpast Hpart].
  pose proof (range_preceding_ok p n Hp ltac:(lia)) as Hok.
  pose proof (frame_ok_merge _ _ (proj1 Hpast) Hok) as HF. fold F in HF.
  destruct (range_of_frame F HF) as (Hr & He & Hms & Hkeep).
  set (r := RangeGenerator_range (Some F)) in *.
  assert (end_offset r = 0) as HE by (rewrite He; done). specialize (Hr HE).
  assert (max_size r = n) as Hmax by (rewrite Hms; done).
  destruct (buffer_all_history r false rows Hr HE [] _ (refines_new r false) Hk) as (w & Ew & Hw).
  change (foldl accept [] rows) with (accepted rows) in Hw. rewrite Ha in Hw.
  split; [|split].
  - unfold FrameNode_CanMergeWith, range_rows_mergeable. cbn -[GetHistoryRowsStartPreceding].
    assert (GetHistoryRowsStartPreceding (rows_preceding n) = n) as E.
    { unfold GetHistoryRowsStartPreceding, GetHistoryRowsStart. cbn -[history_bound].
      change (history_bound INT64_MIN ?b) with (history_bound 0 b). rewrite preceding_bound, i64_small; lia. }
    rewrite E, Z.ltb_irrefl, andb_false_r. done.
  - rewrite Hpart, length_take. cbn [length]. lia.
  - set (C := take (Nat.min (Z.to_nat n) (need F row.1 (row :: A))) (row :: A)).
    exists w, (frame_part (rows_preceding n) row.1 C). split_and!.
    + exact Ew.
    + rewrite (rf_table _ _ _ _ Hw). unfold frame_spec, limit. rewrite Hmax.
      destruct (Z.eqb_spec n 0); [lia|]. cbn [start_of]. rewrite Hkeep. cbn [candidates]. fold C.
      rewrite <- (firstn_all2 (n := Nat.max (length C) (need (rows_preceding n) row.1 C)) C) at 1 by lia.
      pose proof (length_take (row :: A) (Nat.min (Z.to_nat n) (need F row.1 (row :: A)))) as HC. fold C in HC.
      cbn [length] in HC.
      apply (frame_list_take row.2); [done| |by apply desc_take; apply (rf_desc _ _ _ _ Hw)|lia|lia|lia].
      pose proof (Forall_inv (rf_keys _ _ _ _ Hw)). by unfold key_ok in *.
    + rewrite Hpart. unfold C. rewrite !length_take. lia.
Qed.

(** ** Instances *)

Definition demo_rows : list (Z * Z) := [(1, 10); (5, 20); (9, 30); (12, 40); (20, 50)].
(** [ROWS BETWEEN 3 PRECEDING AND 1 PRECEDING]. *)
Definition demo_history : FrameNode :=
  mkFrameNode node.kFrameRows None
    (Some (mkFrameExtent (Some (mkFrameBound kPreceding false 3)) (Some (mkFrameBound kPreceding false 1)))) 0.

Lemma demo_history_past : past_frame demo_history.
Proof.
  split; [split; [cbn; lia|]|by vm_compute].
  split; [done|]. eexists. split; [done|]. eexists _, _. by split_and!.
Qed.

Lemma demo_range_past : past_frame (range_preceding 12 0).
Proof. split; [by apply range_preceding_ok|by vm_compute]. Qed.

Lemma window_merging_witness : exists w,
  buffer_all HistoryWindow_BufferData demo_rows
    (HistoryWindow_new (RangeGenerator_range (Some (MergeFrameNode demo_history (range_preceding 12 0))))) = Some w /\
  frame_list 9 demo_history (MemTimeTableIterator_new (hw_table w)) 20 = Some [(12, 40); (9, 30); (5, 20)] /\
  frame_list 9 (range_preceding 12 0) (MemTimeTableIterator_new (hw_table w)) 20 = Some [(20, 50); (12, 40); (9, 30)].
Proof.
  destruct (window_merging demo_history (range_preceding 12 0) demo_rows false (20, 50)
    [(12, 40); (9, 30); (5, 20); (1, 10)] 9 demo_history_past demo_range_past) as (w & E1 & E2 & E3);
    [reflexivity|reflexivity|reflexivity|by repeat constructor|reflexivity|cbn; lia|reflexivity|].
  exists w. split_and!; [exact E1|exact E2|exact E3].
Defined.

(** A window without partition over the rows of a frame. *)
Definition demo_window (f : FrameNode) : option (WindowDefNode unit) :=
  Some (mkWindowDefNode [] false false tt f).

Definition demo_windows : list (option (WindowDefNode unit)) := [None; demo_window demo_history; demo_window (range_preceding 12 0)].
Lemma merged_windows_rows_witness : exists out o h, MergeWindows demo_windows = Some (true, out) /\ length out = 2%nat /\ Some o ∈ out /\
  buffer_all HistoryWindow_BufferData demo_rows (HistoryWindow_new (RangeGenerator_range (Some (wd_frame o)))) = Some h /\
  frame_list 9 demo_history (MemTimeTableIterator_new (hw_table h)) 20 = Some [(12, 40); (9, 30); (5, 20)].
Proof.
  destruct (merged_windows_rows (R := Z) demo_windows) as (m & out & E & H).
  - repeat constructor; done.
  - constructor; [done|]. constructor; [split_and!; [apply demo_history_past|done|done]|]. constructor; [split_and!; [apply demo_range_past|done|done]|done].
  - destruct (H (mkWindowDefNode [] false false tt demo_history)) as (o & Ho & _ & _ & _ & Hend & Hrows); [right; left|].
    destruct (Hrows (Hend eq_refl) demo_rows (20, 50) [(12, 40); (9, 30); (5, 20); (1, 10)] 9%nat) as (h & E1 & E2); [by repeat constructor|reflexivity|cbn; lia|reflexivity|].
    exists out, o, h. vm_compute in E. injection E as <- <-. split; [vm_compute; reflexivity|]. split; [reflexivity|]. split; [exact Ho|]. split; [exact E1|exact E2].
Defined.

Lemma maxsize_merge_drops_row_witness :
  FrameNode_CanMergeWith (rows_preceding 2) (Some (range_preceding 12 2)) true = Some true /\
  length (frame_part (rows_preceding 2) 20 (rev demo_rows)) = 3%nat /\
  exists w l,
    buffer_all HistoryWindow_BufferData demo_rows
      (HistoryWindow_new (RangeGenerator_range (Some (MergeFrameNode (rows_preceding 2) (range_preceding 12 2))))) = Some w /\
    frame_list 9 (rows_preceding 2) (MemTimeTableIterator_new (hw_table w)) 20 = Some l /\
    (length l <= 2)%nat.
Proof.
  apply (maxsize_merge_drops_row 2 12 demo_rows (20, 50) [(12, 40); (9, 30); (5, 20); (1, 10)] 9);
    [lia|lia|by repeat constructor|reflexivity|cbn; lia|reflexivity].
Defined.

(** [ROWS_RANGE BETWEEN 20 PRECEDING AND 10 PRECEDING]. *)
Definition demo_old_range : FrameNode :=
  mkFrameNode node.kFrameRowsRange
    (Some (mkFrameExtent (Some (mkFrameBound kPreceding true 20)) (Some (mkFrameBound kPreceding true 10)))) None 0.

(** The projections of a window of the query may be given to a window that
    does not hold its rows. Three windows are merged to two; the window for
    the last one is the merge of the frame of rows with its range, but when
    the range that ends in the past comes first in the map of window
    pointers, [CanMergeWith] accepts it, and its rows end 10 units before the
    current row. *)
Theorem assign_window_not_covering :
  let ws := [demo_window (rows_preceding 1); demo_window demo_old_range; demo_window (range_preceding 30 0)] in
  exists o1 o2, MergeWindows ws = Some (true, [o1; o2]) /\
    covers (R := Z) o1 (demo_window (range_preceding 30 0)) /\
    assign_window (demo_window (range_preceding 30 0)) [o1; o2] = Some (Some o1) /\
    assign_window (demo_window (range_preceding 30 0)) [o2; o1] = Some (Some o2) /\
    o2 = demo_window demo_old_range /\ ~ covers (R := Z) o2 (demo_window (range_preceding 30 0)).
Proof.
  eexists _, _. split; [reflexivity|]. split; [|split_and!; [reflexivity|reflexivity|reflexivity|]].
  - split_and!; [done..|]. intros t C.
    apply need_merge; [by apply range_preceding_ok|by apply rows_preceding_past].
  - intros (_ & _ & _ & _ & H). specialize (H 30 [(0, 0)]). vm_compute in H. lia.
Qed.
