(* ===== verification/SchemasContext.v ===== *)
(** * Schemas of plan nodes and column resolution

    Models [SchemaSource] and [SchemasContext] ([include/vm/schemas_context.h],
    [src/vm/schemas_context.cc]): a node of a physical plan has one schema
    source per slice of its output rows; every column has an id and remembers
    the child column it comes from. Names and ids are resolved to the slice
    and the position in it. A plan node is its context and its producers
    ([PhysicalOpNode] of [include/vm/physical_op.h]).

    Results are those of [CompiledCodec]: [Done], [Refused] for an error
    status, [Undefined] for undefined behaviour (an index outside a vector, a
    null schema). *)

From stdpp Require Import base numbers list option gmap.
From S2P Require Import Prelude Layout RowFormat CompiledCodec.
Local Open Scope cpp_scope.

(** ** Schema sources *)

Record SchemaSource := mkSource {
  ss_schema : option (list ColumnDef);
  ss_source_name : list Z;
  ss_column_ids : list Z;
  ss_source_child_idxs : list Z;
  ss_source_child_column_ids : list Z
}.

Definition SchemaSource_new : SchemaSource := mkSource None [] [] [] [].

Definition ss_size (s : SchemaSource) : nat := match ss_schema s with None => 0 | Some c => length c end.

Definition GetColumnID (idx : nat) (s : SchemaSource) : option Z := ss_column_ids s !! idx.
Definition GetColumnName (idx : nat) (s : SchemaSource) : option (list Z) :=
  schema ← ss_schema s; c ← schema !! idx; Some (col_name c).
Definition GetColumnType (idx : nat) (s : SchemaSource) : option Ty :=
  schema ← ss_schema s; c ← schema !! idx; Some (col_type c).
Definition GetSourceChildIdx (idx : nat) (s : SchemaSource) : option Z := ss_source_child_idxs s !! idx.
Definition GetSourceColumnID (idx : nat) (s : SchemaSource) : option Z :=
  child ← ss_source_child_idxs s !! idx;
  if child >=? 0 then id ← ss_source_child_column_ids s !! idx; Some (i32 id) else Some 0.
Definition IsSourceColumn (idx : nat) (s : SchemaSource) : option bool :=
  child ← GetSourceChildIdx idx s; Some (child >=? 0).
Definition IsStrictSourceColumn (idx : nat) (s : SchemaSource) : option bool :=
  column_id ← ss_source_child_column_ids s !! idx;
  child ← GetSourceChildIdx idx s;
  if (child >=? 0) && (column_id >? 0) then id ← GetColumnID idx s; Some (column_id =? id) else Some false.

Definition CheckSourceSetIndex (idx : nat) (s : SchemaSource) : bool :=
  match ss_schema s with None => false | Some schema => (idx <? length schema)%nat end.

Definition SetSchema (schema : option (list ColumnDef)) (s : SchemaSource) : SchemaSource :=
  match schema with
  | None => s
  | Some cols =>
      mkSource schema (ss_source_name s) (resize (length cols) 0 (ss_column_ids s))
        (replicate (length cols) (-1)) (replicate (length cols) 0)
  end.
Definition SetSourceName (name : list Z) (s : SchemaSource) : SchemaSource :=
  mkSource (ss_schema s) name (ss_column_ids s) (ss_source_child_idxs s) (ss_source_child_column_ids s).
Definition SetColumnID (idx : nat) (column_id : Z) (s : SchemaSource) : SchemaSource :=
  if negb (CheckSourceSetIndex idx s) then s
  else mkSource (ss_schema s) (ss_source_name s) (<[idx := column_id]> (ss_column_ids s))
         (ss_source_child_idxs s) (ss_source_child_column_ids s).
(** The index of the child is stored as an [int]. *)
Definition SetSource (idx : nat) (child_idx child_column_id : Z) (s : SchemaSource) : SchemaSource :=
  if negb (CheckSourceSetIndex idx s) then s
  else mkSource (ss_schema s) (ss_source_name s) (ss_column_ids s)
         (<[idx := i32 child_idx]> (ss_source_child_idxs s))
         (<[idx := child_column_id]> (ss_source_child_column_ids s)).
Definition SetNonSource (idx : nat) (s : SchemaSource) : SchemaSource :=
  if negb (CheckSourceSetIndex idx s) then s
  else mkSource (ss_schema s) (ss_source_name s) (ss_column_ids s)
         (<[idx := -1]> (ss_source_child_idxs s)) (<[idx := 0]> (ss_source_child_column_ids s)).

(** ** Contexts *)

Record SchemasContext := mkContext {
  sc_name : list Z;
  sc_column_id_map : gmap Z (nat * nat);
  sc_column_name_map : gmap (list Z) (list (nat * nat));
  sc_child_source_map : gmap Z (gmap Z Z);
  sc_schema_sources : list SchemaSource;
  sc_row_formats : list RowFormat;
  sc_owned_concat_output_schema : list ColumnDef
}.

Definition SchemasContext_new : SchemasContext := mkContext [] ∅ ∅ ∅ [] [] [].

Definition SetName (name : list Z) (ctx : SchemasContext) : SchemasContext :=
  mkContext name (sc_column_id_map ctx) (sc_column_name_map ctx) (sc_child_source_map ctx)
    (sc_schema_sources ctx) (sc_row_formats ctx) (sc_owned_concat_output_schema ctx).

(** [AddSource] returns a pointer through which its callers fill the new
    source; here the filled source is added. *)
Definition AddSource (source : SchemaSource) (ctx : SchemasContext) : SchemasContext :=
  mkContext (sc_name ctx) (sc_column_id_map ctx) (sc_column_name_map ctx) (sc_child_source_map ctx)
    (sc_schema_sources ctx ++ [source]) (sc_row_formats ctx) (sc_owned_concat_output_schema ctx).

Definition GetSchemaSource (idx : nat) (ctx : SchemasContext) : option SchemaSource := sc_schema_sources ctx !! idx.
Definition GetSchema (idx : nat) (ctx : SchemasContext) : option (list ColumnDef) :=
  match GetSchemaSource idx ctx with Some s => ss_schema s | None => None end.
Definition GetRowFormat (idx : nat) (ctx : SchemasContext) : option RowFormat := sc_row_formats ctx !! idx.

Definition GetOutputSchema (ctx : SchemasContext) : option (list ColumnDef) :=
  match sc_schema_sources ctx with
  | [source] => ss_schema source
  | _ => Some (sc_owned_concat_output_schema ctx)
  end.

Fixpoint foldM {A B} (f : A -> B -> option A) (acc : A) (l : list B) : option A :=
  match l with [] => Some acc | x :: l' => acc' ← f acc x; foldM f acc' l' end.

(** The new source of a child's source; the columns are copied by [column]. *)
Definition child_source (child_name : list Z) (source : SchemaSource) : SchemaSource :=
  SetSourceName child_name (SetSchema (ss_schema source) SchemaSource_new).

Definition merge_column (child_idx : Z) (source : SchemaSource) (new_source : SchemaSource) (j : nat)
  : option SchemaSource :=
  id ← GetColumnID j source; Some (SetSource j child_idx id (SetColumnID j id new_source)).
Definition Merge (child_idx : Z) (child : SchemasContext) (ctx : SchemasContext) : option SchemasContext :=
  foldM (fun ctx source =>
    new_source ← foldM (merge_column child_idx source) (child_source (sc_name child) source) (seq 0 (ss_size source));
    Some (AddSource new_source ctx)) ctx (sc_schema_sources child).

(** [counter] is the next id of the plan ([GetNewColumnID]). *)
Definition merge_column_new (child_idx : Z) (source : SchemaSource) (st : SchemaSource * Z) (j : nat)
  : option (SchemaSource * Z) :=
  let '(new_source, counter) := st in
  id ← GetColumnID j source;
  Some (SetSource j child_idx id (SetColumnID j counter new_source), u64 (counter + 1)).
Definition MergeWithNewID (child_idx : Z) (child : SchemasContext) (ctx : SchemasContext) (counter : Z)
  : option (SchemasContext * Z) :=
  foldM (fun '(ctx, counter) source =>
    '(new_source, counter') ←
      foldM (merge_column_new child_idx source) (child_source (sc_name child) source, counter) (seq 0 (ss_size source));
    Some (AddSource new_source ctx, counter')) (ctx, counter) (sc_schema_sources child).

(** ** Building the maps *)

Section Build.
Context (spark : bool).

(** The formats before the first missing schema, and whether one is missing. *)
Fixpoint build_formats (sources : list SchemaSource) : list RowFormat * bool :=
  match sources with
  | [] => ([], true)
  | s :: rest =>
      match ss_schema s with
      | None => ([], false)
      | Some schema => let '(fs, ok) := build_formats rest in (RowFormat_new spark (Some schema) :: fs, ok)
      end
  end.

Definition maps : Type := gmap Z (nat * nat) * gmap (list Z) (list (nat * nat)) * gmap Z (gmap Z Z).

Definition register_column (i : nat) (source : SchemaSource) (m : maps) (j : nat) : option maps :=
  let '(ids, names, children) := m in
  name ← GetColumnName j source;
  let names' := <[name := default [] (names !! name) ++ [(i, j)]]> names in
  column_id ← GetColumnID j source;
  let ids' := <[column_id := (i, j)]> ids in
  is_source ← IsSourceColumn j source;
  if (is_source : bool) then
    child ← GetSourceChildIdx j source;
    child_id ← GetSourceColumnID j source;
    Some (ids', names', <[child := <[u64 child_id := column_id]> (default ∅ (children !! child))]> children)
  else Some (ids', names', children).

Definition register_source (m : maps) (p : nat * SchemaSource) : option maps :=
  foldM (register_column p.1 p.2) m (seq 0 (ss_size p.2)).

Definition indexed {A} (l : list A) : list (nat * A) := imap pair l.

Definition schema_or_nil (s : SchemaSource) : list ColumnDef := default [] (ss_schema s).

Definition Build (ctx : SchemasContext) : option SchemasContext :=
  let sources := sc_schema_sources ctx in
  let '(formats, ok) := build_formats sources in
  if negb ok then
    Some (mkContext (sc_name ctx) (sc_column_id_map ctx) (sc_column_name_map ctx) (sc_child_source_map ctx)
            sources formats (sc_owned_concat_output_schema ctx))
  else
    '(ids, names, children) ← foldM register_source (∅, ∅, ∅) (indexed sources);
    Some (mkContext (sc_name ctx) ids names children sources formats
            (if (length sources =? 1)%nat then sc_owned_concat_output_schema ctx
             else concat (schema_or_nil <$> sources))).

(** [BuildTrivial] for schemas and for tables with their names. *)
Fixpoint trivial_columns (n : nat) (i : nat) (column_id : Z) (s : SchemaSource) : SchemaSource * Z :=
  match n with
  | O => (s, column_id)
  | S n' => trivial_columns n' (S i) (u64 (column_id + 1)) (SetColumnID i column_id s)
  end.
Fixpoint trivial_sources (tables : list (option (list Z) * list ColumnDef)) (column_id : Z) (ctx : SchemasContext)
  : SchemasContext :=
  match tables with
  | [] => ctx
  | (name, schema) :: rest =>
      let s := SetSchema (Some schema) SchemaSource_new in
      let s' := match name with Some n => SetSourceName n s | None => s end in
      let '(source, column_id') := trivial_columns (length schema) 0 column_id s' in
      trivial_sources rest column_id' (AddSource source ctx)
  end.
Definition BuildTrivial_schemas (schemas : list (list ColumnDef)) (ctx : SchemasContext) : option SchemasContext :=
  Build (trivial_sources ((fun s => (None, s)) <$> schemas) 1 ctx).
Definition BuildTrivial_tables (tables : list (list Z * list ColumnDef)) (ctx : SchemasContext) : option SchemasContext :=
  Build (trivial_sources ((fun t => (Some t.1, t.2)) <$> tables) 1 ctx).
End Build.

Definition SchemaSource_Clear (s : SchemaSource) : SchemaSource := mkSource None [] [] [] [].
Definition Clear (ctx : SchemasContext) : SchemasContext := mkContext [] ∅ ∅ ∅ [] [] [].

(** ** Resolution *)

Definition CheckBuild (ctx : SchemasContext) : bool :=
  (length (sc_row_formats ctx) =? length (sc_schema_sources ctx))%nat.

Definition ResolveColumnIndexByID (column_id : Z) (ctx : SchemasContext) : outcome (nat * nat) :=
  if negb (CheckBuild ctx) then Refused
  else match sc_column_id_map ctx !! column_id with None => Refused | Some p => Done p end.

Definition ResolveColumnNameByID (column_id : Z) (ctx : SchemasContext) : outcome (list Z) :=
  if negb (CheckBuild ctx) then Refused
  else match sc_column_id_map ctx !! column_id with
       | None => Refused
       | Some (i, j) =>
           match GetSchema i ctx with
           | None => Refused
           | Some sc => c <~ access (sc !! j); Done (col_name c)
           end
       end.

(** The id of the column at a position. *)
Definition id_at (ctx : SchemasContext) (p : nat * nat) : option Z :=
  source ← GetSchemaSource p.1 ctx; GetColumnID p.2 source.

Definition IsColumnAmbiguous (column_name : list Z) (ctx : SchemasContext) : option bool :=
  match sc_column_name_map ctx !! column_name with
  | None => Some true
  | Some ps =>
      column_id_set ← foldM (fun acc p => id ← id_at ctx p; Some ({[id]} ∪ acc)) (∅ : gset Z) ps;
      Some (negb (size column_id_set =? 1)%nat)
  end.

(** The first position of a name, when all its positions have the same id. *)
Definition lookup_name (column_name : list Z) (ps : list (nat * nat)) (ctx : SchemasContext) : outcome (nat * nat) :=
  ambiguous <~ access (if (1 <? length ps)%nat then IsColumnAmbiguous column_name ctx else Some false);
  if (ambiguous : bool) then Refused else access (head ps).

(** The search by relation name in a context without a plan node. *)
Fixpoint search_relation (relation_name : list Z) (ps : list (nat * nat)) (found : option (nat * nat * Z))
    (ctx : SchemasContext) : outcome (nat * nat) :=
  match ps with
  | [] => match found with Some (p, _) => Done p | None => Refused end
  | p :: rest =>
      source <~ access (GetSchemaSource p.1 ctx);
      if negb (bool_decide (ss_source_name source = [])) && bool_decide (ss_source_name source = relation_name) then
        id <~ access (GetColumnID p.2 source);
        match found with
        | None => search_relation relation_name rest (Some (p, id)) ctx
        | Some (_, cur) => if cur =? id then search_relation relation_name rest found ctx else Refused
        end
      else search_relation relation_name rest found ctx
  end.

(** *** Resolution in a plan *)

Inductive PhysicalOpNode := OpNode (schemas_ctx : SchemasContext) (producers : list PhysicalOpNode).

Definition schemas_ctx (n : PhysicalOpNode) : SchemasContext := let 'OpNode ctx _ := n in ctx.
Definition producers (n : PhysicalOpNode) : list PhysicalOpNode := let 'OpNode _ ps := n in ps.

(** The source of a column is a node, by its path from the node where the
    search starts, and the id there. *)
Record Resolved := mkResolved {
  r_column_id : Z;
  r_child_path_idx : Z;
  r_child_column_id : Z;
  r_source_column_id : Z;
  r_source_node : option (list nat)
}.

(** The loop that follows a column to the node that creates it. The child to
    go to is given by its index, the column by its id in the child. *)
Fixpoint trace (n : PhysicalOpNode) (child_col_id : Z) : outcome (Z * list nat) :=
  let 'OpNode ctx ps := n in
  pos <~ ResolveColumnIndexByID child_col_id ctx;
  source <~ access (GetSchemaSource pos.1 ctx);
  cur <~ access (GetColumnID pos.2 source);
  next_id <~ access (GetSourceColumnID pos.2 source);
  path_idx <~ access (GetSourceChildIdx pos.2 source);
  if (path_idx >=? 0) && (next_id >=? 0) then
    k <~ access (((fun p => trace p) <$> ps) !! Z.to_nat path_idx);
    r <~ k next_id;
    Done (r.1, Z.to_nat path_idx :: r.2)
  else Done (cur, []).

(** A match of the name in the context itself. *)
Definition resolve_here (relation_name column_name : list Z) (root : option (list PhysicalOpNode)) (ctx : SchemasContext)
  : option (outcome Resolved) :=
  if bool_decide (relation_name = []) || bool_decide (relation_name = sc_name ctx) then
    match sc_column_name_map ctx !! column_name with
    | None => None
    | Some ps => Some (
        pos <~ lookup_name column_name ps ctx;
        source <~ access (GetSchemaSource pos.1 ctx);
        column_id <~ access (GetColumnID pos.2 source);
        path_idx <~ access (GetSourceChildIdx pos.2 source);
        child_col_id <~ access (GetSourceColumnID pos.2 source);
        match root with
        | Some children =>
            if (path_idx >=? 0) && (child_col_id >=? 0) then
              child <~ access (children !! Z.to_nat path_idx);
              r <~ trace child child_col_id;
              Done (mkResolved column_id path_idx column_id r.1 (Some (Z.to_nat path_idx :: r.2)))
            else Done (mkResolved column_id path_idx column_id column_id (Some []))
        | None => Done (mkResolved column_id path_idx column_id column_id None)
        end)
    end
  else None.

(** The column of the context that a column of child [i] became. *)
Definition candidate (i : nat) (child_column_id : Z) (ctx : SchemasContext) : option Z :=
  match sc_column_id_map ctx !! child_column_id with
  | Some _ => Some child_column_id
  | None => child_dict ← sc_child_source_map ctx !! Z.of_nat i; child_dict !! child_column_id
  end.

Fixpoint combine_children (ctx : SchemasContext) (i : nat) (results : list (outcome Resolved)) (found : option Resolved)
  : outcome Resolved :=
  match results with
  | [] => match found with Some r => Done r | None => Refused end
  | Undefined :: _ => Undefined
  | Refused :: rest => combine_children ctx (S i) rest found
  | Done sub :: rest =>
      match candidate i (r_column_id sub) ctx with
      | None => combine_children ctx (S i) rest found
      | Some cand_column_id =>
          match found with
          | Some r => if r_column_id r =? cand_column_id then combine_children ctx (S i) rest found else Refused
          | None =>
              combine_children ctx (S i) rest
                (Some (mkResolved cand_column_id (Z.of_nat i) (r_column_id sub) (r_source_column_id sub)
                         (cons i <$> r_source_node sub)))
          end
      end
  end.

Section Names.
Context (relation_name column_name : list Z).

Fixpoint ResolveColumnID_node (n : PhysicalOpNode) : outcome Resolved :=
  let 'OpNode ctx ps := n in
  match resolve_here relation_name column_name (Some ps) ctx with
  | Some r => r
  | None => combine_children ctx 0 ((fun p => ResolveColumnID_node p) <$> ps) None
  end.
End Names.

(** A context with its plan node, if it has one. *)
Definition ResolveColumnIndexByName (root : option (list PhysicalOpNode)) (relation_name column_name : list Z)
    (ctx : SchemasContext) : outcome (nat * nat) :=
  if negb (CheckBuild ctx) then Refused
  else if bool_decide (relation_name = []) then
    match sc_column_name_map ctx !! column_name with
    | None => Refused
    | Some ps => lookup_name column_name ps ctx
    end
  else match root with
  | None =>
      match sc_column_name_map ctx !! column_name with
      | None => Refused
      | Some ps => search_relation relation_name ps None ctx
      end
  | Some children =>
      r <~ ResolveColumnID_node relation_name column_name (OpNode ctx children);
      ResolveColumnIndexByID (r_column_id r) ctx
  end.

Definition ResolveColumnID (root : option (list PhysicalOpNode)) (relation_name column_name : list Z)
    (ctx : SchemasContext) : outcome Z :=
  pos <~ ResolveColumnIndexByName root relation_name column_name ctx;
  access (id_at ctx pos).
