(* ===== verification/SchemasProof.v ===== *)
(** * Column resolution

    The maps of a schemas context agree with its sources; unqualified and
    qualified names resolve to the columns they denote, or are refused. *)

From stdpp Require Import base numbers list option gmap.
From S2P Require Import Prelude Layout RowFormat CompiledCodec SchemasContext.
Local Open Scope cpp_scope.

(** ** Folds *)

Lemma foldM_app {A B} (f : A -> B -> option A) l1 l2 a :
  foldM f a (l1 ++ l2) = b ← foldM f a l1; foldM f b l2.
Proof. revert a. induction l1 as [|x l1 IH]; intros a; [done|]. cbn. destruct (f a x); [apply IH|done]. Qed.

Lemma foldM_concat {A B C} (f : A -> B -> option A) (g : C -> list B) l a :
  foldM (fun a c => foldM f a (g c)) a l = foldM f a (mjoin (g <$> l)).
Proof.
  revert a. induction l as [|c l IH]; intros a; [done|]. cbn. rewrite foldM_app.
  destruct (foldM f a (g c)); [apply IH|done].
Qed.

(** A fold that never fails is a pure fold. *)
Lemma foldM_pure {A B} (f : A -> B -> option A) (h : A -> B -> A) l a :
  (forall a x, x ∈ l -> f a x = Some (h a x)) -> foldM f a l = Some (foldl h a l).
Proof.
  revert a. induction l as [|x l IH]; intros a H; [done|]. cbn. rewrite H by left.
  apply IH. intros b y Hy. apply H. by right.
Qed.

(** ** Columns of a context *)

(** A source whose vectors have one entry per column of its schema. *)
Record source_ok (s : SchemaSource) : Prop := {
  ok_schema : is_Some (ss_schema s);
  ok_ids : length (ss_column_ids s) = ss_size s;
  ok_child_idxs : length (ss_source_child_idxs s) = ss_size s;
  ok_child_ids : length (ss_source_child_column_ids s) = ss_size s
}.

Definition name_at (ctx : SchemasContext) (p : nat * nat) : option (list Z) :=
  source ← GetSchemaSource p.1 ctx; GetColumnName p.2 source.
Definition type_at (ctx : SchemasContext) (p : nat * nat) : option Ty :=
  source ← GetSchemaSource p.1 ctx; GetColumnType p.2 source.
(** The child and the child's column a column comes from. *)
Definition source_at (ctx : SchemasContext) (p : nat * nat) : option (Z * Z) :=
  source ← GetSchemaSource p.1 ctx;
  child ← GetSourceChildIdx p.2 source;
  if child >=? 0 then id ← GetSourceColumnID p.2 source; Some (child, u64 id) else None.

Definition positions (sources : list SchemaSource) : list (nat * nat) :=
  mjoin ((fun p => pair p.1 <$> seq 0 (ss_size p.2)) <$> indexed sources).

Lemma indexed_lookup {A} (l : list A) i x : (i, x) ∈ indexed l <-> l !! i = Some x.
Proof.
  unfold indexed. rewrite list_elem_of_lookup. setoid_rewrite list_lookup_imap_Some. split.
  - by intros (k & y & Hy & [= -> ->]).
  - intros H. by exists i, x.
Qed.

Lemma elem_of_positions sources i j :
  (i, j) ∈ positions sources <-> exists s, sources !! i = Some s /\ (j < ss_size s)%nat.
Proof.
  unfold positions. rewrite list_elem_of_join. setoid_rewrite list_elem_of_fmap. split.
  - intros (l & Hin & ((i' & s) & -> & Hs%indexed_lookup)). cbn in Hin.
    apply list_elem_of_fmap in Hin as (j' & [= -> ->] & Hj%elem_of_seq). exists s. split; [done|lia].
  - intros (s & Hs & Hj). exists (pair i <$> seq 0 (ss_size s)). split.
    + apply list_elem_of_fmap. exists j. split; [done|]. apply elem_of_seq. lia.
    + exists (i, s). split; [done|]. by apply indexed_lookup.
Qed.

Lemma source_columns s j : source_ok s -> (j < ss_size s)%nat ->
  exists name id child ty, GetColumnName j s = Some name /\ GetColumnType j s = Some ty /\ GetColumnID j s = Some id /\
    GetSourceChildIdx j s = Some child /\ exists cid, GetSourceColumnID j s = Some cid.
Proof.
  intros [[cols Hc] Hi Hx Hy] Hj. unfold GetColumnName, GetColumnType, GetColumnID, GetSourceChildIdx, GetSourceColumnID, ss_size in *.
  rewrite Hc in *. destruct (lookup_lt_is_Some_2 cols j Hj) as [c Ec]. rewrite <- Hi in Hj.
  destruct (lookup_lt_is_Some_2 _ _ Hj) as [id Ei]. rewrite Hi, <- Hx in Hj.
  destruct (lookup_lt_is_Some_2 _ _ Hj) as [x Ex]. rewrite Hx, <- Hy in Hj.
  destruct (lookup_lt_is_Some_2 _ _ Hj) as [y Ey]. rewrite Ex. cbn. rewrite Ec. cbn. rewrite Ei, Ey. cbn.
  do 4 eexists. split_and!; [done..|]. by case_match; eexists.
Qed.

Lemma id_at_positions ctx p id : Forall source_ok (sc_schema_sources ctx) ->
  id_at ctx p = Some id -> p ∈ positions (sc_schema_sources ctx).
Proof.
  intros Hok H. destruct p as [i j]. apply bind_Some in H as (s & Hs & Hid). cbn in *.
  apply elem_of_positions. exists s. split; [done|].
  destruct (Forall_lookup_1 _ _ _ _ Hok Hs) as [_ <- _ _]. by eapply lookup_lt_Some.
Qed.
Lemma name_at_positions ctx p name : name_at ctx p = Some name -> p ∈ positions (sc_schema_sources ctx).
Proof.
  intros H. destruct p as [i j]. apply bind_Some in H as (s & Hs & Hn). cbn in *.
  apply elem_of_positions. exists s. split; [done|].
  apply bind_Some in Hn as (cols & Hc & (c & Hj & _)%bind_Some). unfold ss_size. rewrite Hc. by eapply lookup_lt_Some.
Qed.
Lemma positions_at ctx p : Forall source_ok (sc_schema_sources ctx) -> p ∈ positions (sc_schema_sources ctx) ->
  is_Some (name_at ctx p) /\ is_Some (type_at ctx p) /\ is_Some (id_at ctx p).
Proof.
  intros Hok. destruct p as [i j]. intros (s & Hs & Hj)%elem_of_positions.
  destruct (source_columns s j) as (name & id & child & ty & En & Et & Ei & _); [by eapply Forall_lookup_1|done|].
  unfold name_at, type_at, id_at, GetSchemaSource. cbn [fst snd]. rewrite Hs. cbn [mbind option_bind]. rewrite En, Et, Ei.
  split_and!; by eexists.
Qed.

Lemma filter_snoc {A} (P : A -> Prop) `{!forall x, Decision (P x)} l p :
  filter P (l ++ [p]) = filter P l ++ if decide (P p) then [p] else [].
Proof. rewrite filter_app, filter_cons, filter_nil. by case_decide. Qed.

(** ** The maps *)

Section Register.
Context (ctx : SchemasContext).

(** What [register_column] does at a position. *)
Definition register_at (m : maps) (p : nat * nat) : maps :=
  let '(ids, names, children) := m in
  let name := default [] (name_at ctx p) in
  let id := default 0 (id_at ctx p) in
  (<[id := p]> ids, <[name := default [] (names !! name) ++ [p]]> names,
   match source_at ctx p with
   | Some (child, cid) => <[child := <[cid := id]> (default ∅ (children !! child))]> children
   | None => children
   end).

Context (Hok : Forall source_ok (sc_schema_sources ctx)).

Lemma register_column_pure m i j s : sc_schema_sources ctx !! i = Some s -> (j < ss_size s)%nat ->
  register_column i s m j = Some (register_at m (i, j)).
Proof.
  intros Hs Hj. destruct m as [[ids names] children].
  destruct (source_columns s j) as (name & id & child & ty & En & Et & Ei & Ec & cid & Es); [by eapply Forall_lookup_1|done|].
  unfold register_at, register_column, name_at, id_at, source_at, IsSourceColumn, GetSchemaSource. cbn [fst snd].
  rewrite Hs. cbn [mbind option_bind]. rewrite En, Ei, Ec. cbn [mbind option_bind default].
  destruct (child >=? 0); [|done]. by rewrite Es.
Qed.

Lemma register_all m :
  foldM register_source m (indexed (sc_schema_sources ctx)) =
  Some (foldl register_at m (positions (sc_schema_sources ctx))).
Proof.
  unfold positions.
  rewrite <- (foldM_pure (fun m p => Some (register_at m p)) register_at) by done.
  rewrite <- foldM_concat. assert (forall p, p ∈ indexed (sc_schema_sources ctx) -> sc_schema_sources ctx !! p.1 = Some p.2) as H
    by (intros [i s]; apply indexed_lookup).
  revert m. induction (indexed (sc_schema_sources ctx)) as [|[i s] l IH]; intros m; [done|]. cbn [foldM].
  assert (register_source m (i, s) = foldM (fun m p => Some (register_at m p)) m (pair i <$> seq 0 (ss_size s))) as ->.
  { unfold register_source. cbn [fst snd]. specialize (H (i, s) ltac:(left)). cbn in H. revert m.
    assert (forall j, j ∈ seq 0 (ss_size s) -> (j < ss_size s)%nat) as Hseq by (intros j ?%elem_of_seq; lia).
    induction (seq 0 (ss_size s)) as [|j js IHj]; intros m; [done|]. cbn.
    rewrite register_column_pure by (done || apply Hseq; left). cbn. apply IHj. intros k Hk. apply Hseq. by right. }
  cbn [fst snd]. destruct (foldM _ m (pair i <$> _)); [|done]. cbn [mbind option_bind]. apply IH. intros p Hp. apply H. by right.
Qed.

(** The maps after registering a list of positions. *)
Lemma registered l ids names children : l ⊆ positions (sc_schema_sources ctx) ->
  foldl register_at (∅, ∅, ∅) l = (ids, names, children) ->
  (forall id p, ids !! id = Some p -> p ∈ l /\ id_at ctx p = Some id) /\
  (forall p id, p ∈ l -> id_at ctx p = Some id -> is_Some (ids !! id)) /\
  (forall name, names !! name = let ps := filter (fun p => name_at ctx p = Some name) l in
                                if decide (ps = []) then None else Some ps) /\
  (forall i cid id, (d ← children !! i; d !! cid) = Some id ->
     exists p, p ∈ l /\ source_at ctx p = Some (i, cid) /\ id_at ctx p = Some id) /\
  (forall p i cid, p ∈ l -> source_at ctx p = Some (i, cid) -> is_Some (d ← children !! i; d !! cid)).
Proof.
  revert ids names children. induction l as [|p l IH] using rev_ind; intros ids names children Hl E.
  - cbn in E. injection E as <- <- <-. split_and!.
    + by intros id p ?%lookup_empty_Some.
    + intros p id ?%elem_of_nil. done.
    + intros name. by rewrite lookup_empty.
    + intros i cid id. by rewrite lookup_empty.
    + intros p i cid ?%elem_of_nil. done.
  - rewrite foldl_app in E. cbn [foldl] in E.
    destruct (foldl register_at (∅, ∅, ∅) l) as [[ids0 names0] children0] eqn:E0.
    destruct (IH ids0 names0 children0) as (H1 & H2 & H3 & H4 & H5); [set_solver|done|].
    destruct (positions_at ctx p Hok) as ([name Hname] & _ & [id Hid]); [set_solver|].
    unfold register_at in E. rewrite Hname, Hid in E. cbn [default] in E. injection E as <- <- <-. split_and!.
    + intros id' q. rewrite lookup_insert. case_decide as Hd.
      * intros [= <-]. subst. split; [apply elem_of_app; right; left|done].
      * intros [? ?]%H1. split; [apply elem_of_app; by left|done].
    + intros q id' Hq Hq'. rewrite lookup_insert. case_decide; [by eexists|].
      apply elem_of_app in Hq as [Hq|Hq%list_elem_of_singleton]; [by apply (H2 q id' Hq Hq')|congruence].
    + intros name'. rewrite lookup_insert. case_decide as Hd; [subst name'|].
      * cbn zeta. rewrite filter_snoc, (decide_True (P := name_at ctx p = Some name)) by done. rewrite H3. cbn zeta.
        destruct (decide (filter _ l = [])) as [->|]; cbn [app default]; [done|].
        rewrite decide_False; [done|]. by intros [? ?]%app_eq_nil.
      * rewrite H3. cbn zeta. rewrite filter_snoc, (decide_False (P := name_at ctx p = Some name')) by congruence.
        by rewrite app_nil_r.
    + intros i cid id'. destruct (source_at ctx p) as [[ch c]|] eqn:Hs.
      * rewrite lookup_insert. case_decide as Hd; [subst ch|]; cbn.
        -- rewrite lookup_insert. case_decide as Hd; [subst c|].
           ++ intros [= <-]. exists p. split; [apply elem_of_app; right; left|done].
           ++ intros Hx. destruct (H4 i cid id') as (q & Hq & ?); [by destruct (children0 !! i)|].
              exists q. split; [apply elem_of_app; by left|done].
        -- intros (q & Hq & ?)%H4. exists q. split; [apply elem_of_app; by left|done].
      * intros (q & Hq & ?)%H4. exists q. split; [apply elem_of_app; by left|done].
    + intros q i cid Hq Hq'. apply elem_of_app in Hq as [Hq|Hq%list_elem_of_singleton].
      * specialize (H5 q i cid Hq Hq'). destruct (source_at ctx p) as [[ch c]|]; [|done].
        rewrite lookup_insert. case_decide as Hd; [subst ch|done]. cbn. rewrite lookup_insert. case_decide; [by eexists|].
        by destruct (children0 !! i).
      * subst q. rewrite Hq'. rewrite lookup_insert_eq. cbn. rewrite lookup_insert_eq. by eexists.
Qed.
End Register.

(** A context whose maps and formats agree with its sources. *)
Record built (spark : bool) (ctx : SchemasContext) : Prop := {
  bt_sources : Forall source_ok (sc_schema_sources ctx);
  bt_formats : sc_row_formats ctx = (fun s => RowFormat_new spark (ss_schema s)) <$> sc_schema_sources ctx;
  bt_ids : forall id p, sc_column_id_map ctx !! id = Some p -> id_at ctx p = Some id;
  bt_ids_all : forall p id, id_at ctx p = Some id -> is_Some (sc_column_id_map ctx !! id);
  bt_names : forall name,
    sc_column_name_map ctx !! name =
    let ps := filter (fun p => name_at ctx p = Some name) (positions (sc_schema_sources ctx)) in
    if decide (ps = []) then None else Some ps;
  bt_children : forall i cid id, (d ← sc_child_source_map ctx !! i; d !! cid) = Some id ->
    exists p, source_at ctx p = Some (i, cid) /\ id_at ctx p = Some id;
  bt_children_all : forall p i cid, source_at ctx p = Some (i, cid) -> is_Some (d ← sc_child_source_map ctx !! i; d !! cid);
  bt_output : GetOutputSchema ctx = Some (concat (schema_or_nil <$> sc_schema_sources ctx))
}.

Lemma build_formats_ok spark sources : Forall source_ok sources ->
  build_formats spark sources = ((fun s => RowFormat_new spark (ss_schema s)) <$> sources, true).
Proof.
  induction 1 as [|s l [[cols Hc] _ _ _] _ IH]; [done|]. cbn. by rewrite Hc, IH.
Qed.

(** [Build] succeeds on complete sources and establishes the invariant:
    the id map, the name map, the map of child columns, the row formats and
    the output schema agree with the sources. *)
Lemma Build_agrees (spark : bool) (ctx : SchemasContext) : Forall source_ok (sc_schema_sources ctx) ->
  exists ctx', Build spark ctx = Some ctx' /\ sc_schema_sources ctx' = sc_schema_sources ctx /\
    sc_name ctx' = sc_name ctx /\ built spark ctx'.
Proof.
  intros Hok. unfold Build. rewrite build_formats_ok by done. cbn [negb]. rewrite register_all by done.
  destruct (foldl (register_at ctx) (∅, ∅, ∅) (positions (sc_schema_sources ctx))) as [[ids names] children] eqn:E.
  cbn [mbind option_bind].
  destruct (registered ctx Hok (positions (sc_schema_sources ctx)) ids names children) as (H1 & H2 & H3 & H4 & H5); [done|done|].
  eexists. split_and!; [done..|]. split; cbn [sc_schema_sources sc_row_formats sc_column_id_map sc_column_name_map sc_child_source_map].
  - done.
  - done.
  - intros id p Hp. by apply H1.
  - intros p id Hp. apply (H2 p id); [|exact Hp]. by eapply id_at_positions.
  - exact H3.
  - intros i cid id Hd. destruct (H4 i cid id Hd) as (p & _ & Hs & Hp). by exists p.
  - intros p i cid Hp. apply (H5 p i cid); [|exact Hp]. destruct p as [k j]. apply bind_Some in Hp as (s & Hs & Hx).
    apply elem_of_positions. exists s. split; [done|]. apply bind_Some in Hx as (ch & Hch & _).
    destruct (Forall_lookup_1 _ _ _ _ Hok Hs) as [_ _ <- _]. by eapply lookup_lt_Some.
  - unfold GetOutputSchema. cbn [sc_schema_sources sc_owned_concat_output_schema].
    destruct (sc_schema_sources ctx) as [|s [|s' l]] eqn:Es; [done| |done].
    apply Forall_cons in Hok as [[[cols Hc] _ _ _] _]. cbn. unfold schema_or_nil. by rewrite Hc, app_nil_r.
Qed.

(** ** Resolution of ids and unqualified names *)

Section Built.
Context (spark : bool) (ctx : SchemasContext) (Hb : built spark ctx).

Lemma built_check : CheckBuild ctx = true.
Proof. unfold CheckBuild. rewrite (bt_formats _ _ Hb), length_fmap. by apply Nat.eqb_eq. Qed.

Lemma resolve_id id :
  (exists p, ResolveColumnIndexByID id ctx = Done p /\ id_at ctx p = Some id) \/
  ResolveColumnIndexByID id ctx = Refused /\ forall p, id_at ctx p <> Some id.
Proof.
  unfold ResolveColumnIndexByID. rewrite built_check. cbn [negb].
  destruct (sc_column_id_map ctx !! id) as [p|] eqn:E.
  - left. exists p. split; [done|]. by apply (bt_ids _ _ Hb).
  - right. split; [done|]. intros p Hp. destruct (bt_ids_all _ _ Hb p id Hp) as [q Hq]. congruence.
Qed.

Lemma resolve_id_done id p : ResolveColumnIndexByID id ctx = Done p -> id_at ctx p = Some id.
Proof. intros E. destruct (resolve_id id) as [(q & E' & Hq)|[E' _]]; congruence. Qed.

(** The ids of a list of positions. *)
Lemma fold_ids ps acc : Forall (fun p => is_Some (id_at ctx p)) ps ->
  foldM (fun acc p => id ← id_at ctx p; Some ({[id]} ∪ acc)) acc ps =
  Some (list_to_set (base.omap (id_at ctx) ps) ∪ acc : gset Z).
Proof.
  intros H. revert acc. induction H as [|p ps [id Hp] _ IH]; intros acc.
  - cbn. f_equal. set_solver.
  - cbn. rewrite Hp. cbn. rewrite IH. f_equal. set_solver.
Qed.

Lemma ids_single ps p id : p ∈ ps -> id_at ctx p = Some id -> Forall (fun q => is_Some (id_at ctx q)) ps ->
  size (list_to_set (base.omap (id_at ctx) ps) ∪ ∅ : gset Z) = 1%nat <-> forall q, q ∈ ps -> id_at ctx q = Some id.
Proof.
  intros Hp Hid Hs. rewrite union_empty_r_L.
  assert (forall x, x ∈ (list_to_set (base.omap (id_at ctx) ps) : gset Z) <-> exists q, q ∈ ps /\ id_at ctx q = Some x) as Hx
    by (intros x; rewrite elem_of_list_to_set; apply list_elem_of_omap).
  split.
  - intros H1. apply size_1_elem_of in H1 as (x & H1). rewrite set_equiv in H1. intros q Hq.
    rewrite Forall_forall in Hs. destruct (Hs q Hq) as [y Hy].
    assert (forall z q, q ∈ ps -> id_at ctx q = Some z -> z = x) as Hz.
    { intros z q' Hq' Ez. apply (elem_of_singleton (C := gset Z)), H1, Hx. by exists q'. }
    rewrite Hy. by rewrite (Hz id p), (Hz y q).
  - intros H. assert (list_to_set (base.omap (id_at ctx) ps) = ({[id]} : gset Z)) as ->; [|apply size_singleton].
    apply set_eq. intros x. rewrite Hx, elem_of_singleton. split.
    + intros (q & Hq & E). rewrite (H q Hq) in E. congruence.
    + intros ->. by exists p.
Qed.

(** The positions of a name. *)
Lemma name_positions name ps : sc_column_name_map ctx !! name = Some ps ->
  ps <> [] /\ (forall p, p ∈ ps <-> name_at ctx p = Some name) /\ Forall (fun p => is_Some (id_at ctx p)) ps.
Proof.
  rewrite (bt_names _ _ Hb). cbn zeta. case_decide as Hd; [done|]. intros [= <-]. split; [done|].
  assert (forall p, p ∈ filter (fun p => name_at ctx p = Some name) (positions (sc_schema_sources ctx)) <-> name_at ctx p = Some name) as H.
  { intros p. rewrite list_elem_of_filter. split; [tauto|]. intros Hp. split; [done|]. by eapply name_at_positions. }
  split; [done|]. apply Forall_forall. intros p Hp%list_elem_of_filter.
  apply (positions_at ctx p); [apply (bt_sources _ _ Hb)|tauto].
Qed.
Lemma no_positions name p : sc_column_name_map ctx !! name = None -> name_at ctx p <> Some name.
Proof.
  rewrite (bt_names _ _ Hb). cbn zeta. case_decide as Hd; [|done]. intros _ Hp.
  assert (p ∈ filter (fun p => name_at ctx p = Some name) (positions (sc_schema_sources ctx))) as Hin
    by (apply list_elem_of_filter; split; [done|by eapply name_at_positions]).
  rewrite Hd in Hin. by apply elem_of_nil in Hin.
Qed.

(** The result of a search for the one column among those that match: all
    matches carry the same id, or the search is refused. *)
Definition unique_match (matches : nat * nat -> Prop) (r : outcome (nat * nat)) : Prop :=
  match r with
  | Done p => matches p /\ forall q, matches q -> id_at ctx q = id_at ctx p
  | Refused => (forall p, ~ matches p) \/ exists p q, matches p /\ matches q /\ id_at ctx p <> id_at ctx q
  | Undefined => False
  end.

Lemma lookup_name_ok name ps : sc_column_name_map ctx !! name = Some ps -> unique_match (fun p => name_at ctx p = Some name) (lookup_name name ps ctx).
Proof.
  intros E. destruct (name_positions name ps E) as (Hne & Hps & Hid). unfold lookup_name.
  destruct ps as [|p ps]; [done|]. clear Hne. assert (p ∈ p :: ps) as Hp by left.
  pose proof (proj1 (Forall_forall _ _) Hid p Hp) as [id Eid].
  assert (forall b, IsColumnAmbiguous name ctx = Some b -> b = false <-> forall q, q ∈ p :: ps -> id_at ctx q = Some id) as Hamb.
  { intros b. unfold IsColumnAmbiguous. rewrite E, fold_ids by done. cbn [mbind option_bind]. intros [= <-].
    rewrite <- (ids_single (p :: ps) p id Hp Eid Hid), negb_false_iff. apply Nat.eqb_eq. }
  assert (is_Some (IsColumnAmbiguous name ctx)) as [b Eb].
  { unfold IsColumnAmbiguous. rewrite E, fold_ids by done. by eexists. }
  destruct (1 <? length (p :: ps))%nat eqn:El.
  - rewrite Eb. cbn [access obind]. destruct b; cbn.
    + right. destruct (decide (Forall (fun q => id_at ctx q = Some id) (p :: ps))) as [Ha|Hn].
      * rewrite Forall_forall in Ha. discriminate (proj2 (Hamb true Eb) Ha).
      * apply not_Forall_Exists in Hn; [|apply _]. apply Exists_exists in Hn as (q & Hq & Hneq). exists q, p.
        split_and!; [by apply Hps|by apply Hps|congruence].
    + split; [by apply Hps|]. intros q Hq%Hps. rewrite Eid. by apply (Hamb false).
  - cbn. split; [by apply Hps|]. intros q Hq%Hps. destruct ps; [|done]. by apply list_elem_of_singleton in Hq as ->.
Qed.
End Built.

(** An unqualified column name is resolved to a column of that name
    when all columns of that name carry the same id (they are copies of one
    column), and refused otherwise (no such column, or two different ones);
    resolution never reads outside the vectors. *)
Theorem resolve_unqualified (spark : bool) (ctx : SchemasContext) (root : option (list PhysicalOpNode)) (name : list Z) :
  built spark ctx ->
  unique_match ctx (fun p => name_at ctx p = Some name) (ResolveColumnIndexByName root [] name ctx).
Proof.
  intros Hb. unfold ResolveColumnIndexByName. rewrite (built_check spark ctx Hb). cbn [negb].
  rewrite bool_decide_true by done. destruct (sc_column_name_map ctx !! name) as [ps|] eqn:E.
  - by eapply lookup_name_ok.
  - left. intros p. by apply (no_positions spark ctx Hb).
Qed.

(** ** Qualified names without a plan *)

(** A column of a relation. *)
Definition column_of (ctx : SchemasContext) (relation name : list Z) (p : nat * nat) : Prop :=
  name_at ctx p = Some name /\ (ss_source_name <$> GetSchemaSource p.1 ctx) = Some relation.

Lemma search_relation_ok spark ctx relation name ps found : built spark ctx -> relation <> [] ->
  (forall p, p ∈ ps -> name_at ctx p = Some name) ->
  match found with Some (p, id) => column_of ctx relation name p /\ id_at ctx p = Some id | None => True end ->
  match search_relation relation ps found ctx with
  | Done p => column_of ctx relation name p /\ (forall q id, found = Some (q, id) -> id_at ctx q = id_at ctx p) /\
              forall q, q ∈ ps -> column_of ctx relation name q -> id_at ctx q = id_at ctx p
  | Refused => found = None /\ (forall p, p ∈ ps -> ~ column_of ctx relation name p) \/
               exists p q, column_of ctx relation name p /\ column_of ctx relation name q /\ id_at ctx p <> id_at ctx q
  | Undefined => False
  end.
Proof.
  intros Hb Hr. revert found. induction ps as [|p ps IH]; intros found Hps Hf; cbn.
  - destruct found as [[p id]|]; [|left; split; [done|]; by intros p ?%elem_of_nil].
    split_and!; [tauto|by intros q id' [= <- _]|]. by intros q ?%elem_of_nil.
  - assert (name_at ctx p = Some name) as Hp by (apply Hps; left).
    pose proof Hp as (s & Es & _)%bind_Some. rewrite Es. cbn [access obind].
    assert (forall q, q ∈ ps -> name_at ctx q = Some name) as Hps' by (intros q Hq; apply Hps; by right).
    destruct (positions_at ctx p (bt_sources _ _ Hb) (name_at_positions _ _ _ Hp)) as (_ & _ & [id Eid]).
    destruct (negb _ && bool_decide _) eqn:Em.
    + apply andb_true_iff in Em as [_ Em%bool_decide_eq_true].
      assert (column_of ctx relation name p) as Hcol by (split; [done|]; rewrite Es; cbn; by rewrite Em).
      pose proof Eid as Eid'. unfold id_at in Eid'. rewrite Es in Eid'. cbn [mbind option_bind] in Eid'. rewrite Eid'.
      cbn [access obind]. destruct found as [[p0 cur]|].
      * destruct Hf as [Hc0 Hid0]. destruct (Z.eqb_spec cur id) as [->|Hne].
        -- specialize (IH (Some (p0, id)) Hps' (conj Hc0 Hid0)). destruct (search_relation _ _ _ _) as [| |q]; [done|by destruct IH as [[? ?]|?]; [|right]|].
           destruct IH as (H1 & H2 & H3). split_and!; [done|done|]. intros q' [->|Hq']%elem_of_cons; [|by apply H3].
           intros _. rewrite <- (H2 p0 id eq_refl). congruence.
        -- right. exists p0, p. split_and!; [done|done|congruence].
      * specialize (IH (Some (p, id)) Hps' (conj Hcol Eid)). destruct (search_relation _ _ _ _) as [| |q]; [done|by destruct IH as [[? ?]|?]; [|right]|].
        destruct IH as (H1 & H2 & H3). split_and!; [done|done|]. intros q' [->|Hq']%elem_of_cons; [|by apply H3].
        intros _. by apply (H2 p id).
    + assert (~ column_of ctx relation name p) as Hcol.
      { intros [_ Hn]. rewrite Es in Hn. cbn in Hn. injection Hn as Hn. rewrite Hn in Em.
        by rewrite (bool_decide_false (relation = [])), (bool_decide_true (relation = relation)) in Em. }
      specialize (IH found Hps' Hf). destruct (search_relation _ _ _ _) as [| |q]; [done| |].
      * destruct IH as [[-> H]|H]; [left|by right]. split; [done|]. by intros q [->|Hq]%elem_of_cons; [|apply H].
      * destruct IH as (H1 & H2 & H3). split_and!; [done|done|]. by intros q' [->|Hq']%elem_of_cons; [|apply H3].
Qed.

(** A qualified name in a context without a plan (parsed queries against
    tables) is resolved to a column of the named relation, when all such
    columns carry the same id, and refused otherwise. *)
Lemma resolve_in_relation (spark : bool) (ctx : SchemasContext) (relation name : list Z) :
  built spark ctx -> relation <> [] ->
  unique_match ctx (column_of ctx relation name) (ResolveColumnIndexByName None relation name ctx).
Proof.
  intros Hb Hr. unfold ResolveColumnIndexByName. rewrite (built_check spark ctx Hb). cbn [negb].
  rewrite bool_decide_false by done. destruct (sc_column_name_map ctx !! name) as [ps|] eqn:E.
  - destruct (name_positions spark ctx Hb name ps E) as (_ & Hps & _).
    pose proof (search_relation_ok spark ctx relation name ps None Hb Hr) as H.
    specialize (H (fun p => proj1 (Hps p)) I). destruct (search_relation _ _ _ _) as [| |p]; [done| |].
    + destruct H as [[_ H]|H]; [left|by right]. intros p Hp. apply (H p); [|done]. apply Hps, Hp.
    + destruct H as (H1 & _ & H3). split; [done|]. intros q Hq. apply H3; [|done]. apply Hps, Hq.
  - left. intros p [Hp _]. by apply (no_positions spark ctx Hb name p E).
Qed.

(** ** Qualified names in a plan *)

Section NodeInd.
Context (P : PhysicalOpNode -> Prop) (H : forall ctx ps, Forall P ps -> P (OpNode ctx ps)).
Fixpoint node_ind (n : PhysicalOpNode) : P n :=
  let 'OpNode ctx ps := n in
  H ctx ps ((fix go l := match l return Forall P l with
                         | [] => Forall_nil_2 P
                         | x :: l' => Forall_cons_2 P x l' (node_ind x) (go l')
                         end) ps).
End NodeInd.

(** A plan: the maps of all contexts are built, and a column that comes from a
    child has the index of a producer and an id of a column of it. *)
Inductive plan_ok (spark : bool) : PhysicalOpNode -> Prop :=
| plan_node ctx ps : built spark ctx -> Forall (plan_ok spark) ps ->
    (forall i s j child cid, GetSchemaSource i ctx = Some s -> GetSourceChildIdx j s = Some child -> 0 <= child ->
       GetSourceColumnID j s = Some cid ->
       0 <= cid < 2 ^ 31 /\ exists c q, ps !! Z.to_nat child = Some c /\ id_at (schemas_ctx c) q = Some cid) ->
    plan_ok spark (OpNode ctx ps).

(** Column [cid] of child [i] of [n] is visible as column [id] of [n]: with the
    same id, or as the recorded source. *)
Definition child_column (n : PhysicalOpNode) (i : nat) (cid id : Z) : Prop :=
  exists p, id_at (schemas_ctx n) p = Some id /\ (cid = id \/ source_at (schemas_ctx n) p = Some (Z.of_nat i, cid)).

(** Column [id] of [n] is column [mid] of the node [m] below it. *)
Inductive comes_from : PhysicalOpNode -> Z -> list nat -> PhysicalOpNode -> Z -> Prop :=
| cf_here n id : comes_from n id [] n id
| cf_child n id i c cid path m mid : producers n !! i = Some c -> child_column n i cid id ->
    comes_from c cid path m mid -> comes_from n id (i :: path) m mid.

Definition has_id (n : PhysicalOpNode) (id : Z) : Prop := exists p, id_at (schemas_ctx n) p = Some id.

(** A node below [n] where the traced column is created. *)
Definition created_at (n : PhysicalOpNode) (id : Z) (path : list nat) (mid : Z) : Prop :=
  exists m p, comes_from n id path m mid /\ id_at (schemas_ctx m) p = Some mid /\ source_at (schemas_ctx m) p = None.

Lemma trace_ok spark n id : plan_ok spark n -> has_id n id ->
  exists mid path, trace n id = Done (mid, path) /\ created_at n id path mid.
Proof.
  revert id. induction n as [ctx ps IH] using node_ind. intros id Hp Hid.
  inversion Hp as [ctx' ps' Hb Hps Hsrc E]. subst ctx' ps'. cbn [trace].
  destruct (resolve_id spark ctx Hb id) as [([i j] & -> & Hij)|[_ Hno]]; [|by destruct Hid as [q Hq]; destruct (Hno q)].
  cbn [obind]. pose proof Hij as (s & Hs & Hj)%bind_Some. cbn [fst snd] in *. rewrite Hs. cbn [access obind].
  pose proof Hs as Hs'. unfold GetSchemaSource in Hs'.
  destruct (source_columns s j) as (name & id' & child & ty & _ & _ & Ei & Ec & cid & Es).
  { eapply Forall_lookup_1; [apply (bt_sources _ _ Hb)|exact Hs']. }
  { pose proof (Forall_lookup_1 _ _ _ _ (bt_sources _ _ Hb) Hs') as [_ <- _ _]. by eapply lookup_lt_Some. }
  rewrite Ei, Es, Ec. cbn [access obind]. assert (id' = id) as -> by congruence.
  assert (source_at ctx (i, j) = if child >=? 0 then Some (child, u64 cid) else None) as Hat.
  { unfold source_at. cbn [fst snd]. rewrite Hs. cbn [mbind option_bind]. rewrite Ec. cbn [mbind option_bind]. by rewrite Es. }
  destruct (child >=? 0) eqn:Hc; cbn [andb].
  - apply Z.geb_le in Hc. destruct (Hsrc i s j child cid Hs Ec Hc Es) as [Hr (c & q & Hl & Hq)].
    assert ((cid >=? 0) = true) as -> by (apply Z.geb_le; lia). rewrite list_lookup_fmap, Hl. cbn [fmap option_fmap option_map access obind].
    rewrite Forall_lookup in IH, Hps. destruct (IH _ c Hl cid (Hps _ c Hl)) as (mid & path & -> & m & p & Hcf & Hm); [by exists q|].
    cbn [obind fst snd]. exists mid, (Z.to_nat child :: path). split; [done|]. exists m, p. split; [|done].
    apply (cf_child _ _ _ c cid); [done| |done]. exists (i, j). split; [done|]. right. change (schemas_ctx (OpNode ctx ps)) with ctx.
    by rewrite Hat, Z2Nat.id, u64_small by lia.
  - exists id, []. split; [done|]. exists (OpNode ctx ps), (i, j). split_and!; [constructor|done|done].
Qed.

(** The result of resolving [relation.name] at a node. *)
Definition resolution_ok (relation name : list Z) (n : PhysicalOpNode) (r : Resolved) : Prop :=
  has_id n (r_column_id r) /\
  (exists path m mid p, comes_from n (r_column_id r) path m mid /\ sc_name (schemas_ctx m) = relation /\
     name_at (schemas_ctx m) p = Some name /\ id_at (schemas_ctx m) p = Some mid) /\
  exists path, r_source_node r = Some path /\ created_at n (r_column_id r) path (r_source_column_id r).

Lemma resolve_here_ok spark relation name ctx ps r : plan_ok spark (OpNode ctx ps) -> relation <> [] ->
  resolve_here relation name (Some ps) ctx = Some r ->
  match r with Done r => resolution_ok relation name (OpNode ctx ps) r | Refused => True | Undefined => False end.
Proof.
  intros Hp Hr. inversion Hp as [ctx' ps' Hb Hps Hsrc E]. subst ctx' ps'. unfold resolve_here.
  rewrite bool_decide_false by done. cbn [orb]. case_bool_decide as Hn; [|done].
  destruct (sc_column_name_map ctx !! name) as [l|] eqn:El; [|done]. intros [= <-].
  pose proof (lookup_name_ok spark ctx Hb name l El) as Hl. destruct (lookup_name name l ctx) as [| |[i j]]; [done|done|].
  destruct Hl as [Hname _]. cbn [obind fst snd]. pose proof Hname as (s & Hs & _)%bind_Some. cbn [fst snd] in Hs. rewrite Hs. cbn [access obind].
  pose proof (name_at_positions _ _ _ Hname) as Hpos. apply elem_of_positions in Hpos as (s' & Hs' & Hj).
  unfold GetSchemaSource in Hs. assert (s' = s) as -> by congruence.
  destruct (source_columns s j) as (nm & id & child & ty & _ & _ & Ei & Ec & cid & Es);
    [by eapply Forall_lookup_1; [apply (bt_sources _ _ Hb)|]|done|].
  rewrite Ei, Ec, Es. cbn [access obind].
  assert (id_at ctx (i, j) = Some id) as Hid by (unfold id_at, GetSchemaSource; cbn [fst snd]; rewrite Hs; exact Ei).
  assert (has_id (OpNode ctx ps) id) as Hhas by (by exists (i, j)).
  assert (exists path m mid p, comes_from (OpNode ctx ps) id path m mid /\ sc_name (schemas_ctx m) = relation /\
     name_at (schemas_ctx m) p = Some name /\ id_at (schemas_ctx m) p = Some mid) as Hfrom
    by (by exists [], (OpNode ctx ps), id, (i, j); split; [constructor|]).
  destruct ((child >=? 0) && (cid >=? 0)) eqn:Hc.
  - apply andb_true_iff in Hc as [Hc Hc2]. rewrite Z.geb_le in Hc, Hc2.
    destruct (Hsrc i s j child cid Hs Ec Hc Es) as [Hrg (c & q & Hlk & Hq)]. rewrite Hlk. cbn [access obind].
    rewrite Forall_lookup in Hps. destruct (trace_ok spark c cid (Hps _ c Hlk)) as (mid & path & -> & m & p & Hcf & Hm); [by exists q|].
    cbn [obind fst snd]. split_and!; [done|done|]. cbn. eexists. split; [done|]. exists m, p. split; [|done].
    apply (cf_child _ _ _ c cid); [done| |done]. exists (i, j). split; [done|]. right. unfold source_at, GetSchemaSource. cbn [schemas_ctx fst snd].
    rewrite Hs. cbn [mbind option_bind]. rewrite Ec. cbn [mbind option_bind]. rewrite (proj2 (Z.geb_le _ _) Hc), Es. cbn [mbind option_bind].
    by rewrite Z2Nat.id, u64_small by lia.
  - split_and!; [done|done|]. cbn. exists []. split; [done|]. exists (OpNode ctx ps), (i, j). split_and!; [constructor|done|].
    unfold source_at, GetSchemaSource. cbn [schemas_ctx fst snd]. rewrite Hs. cbn [mbind option_bind]. rewrite Ec. cbn [mbind option_bind].
    destruct (child >=? 0) eqn:Hch; [|done]. apply Z.geb_le in Hch.
    destruct (Hsrc i s j child cid Hs Ec Hch Es) as [Hrg _]. apply andb_false_iff in Hc as [Hc|Hc]; [done|].
    apply Z.geb_le in Hch. assert ((cid >=? 0) = true) by (apply Z.geb_le; lia). congruence.
Qed.

(** A column of a child becomes a column of the node. *)
Lemma candidate_ok spark ctx ps i c cid id : built spark ctx -> ps !! i = Some c ->
  candidate i cid ctx = Some id -> has_id (OpNode ctx ps) id /\ child_column (OpNode ctx ps) i cid id.
Proof.
  intros Hb Hl. unfold candidate. destruct (sc_column_id_map ctx !! cid) as [p|] eqn:E.
  - intros [= <-]. apply (bt_ids _ _ Hb) in E. split; exists p; [done|]. split; [done|by left].
  - intros H. destruct (bt_children _ _ Hb _ _ _ H) as (p & Hs & Hid). split; exists p; [done|]. split; [done|by right].
Qed.

Lemma combine_ok spark relation name ctx ps k results found : built spark ctx ->
  (forall i r, results !! i = Some r ->
     exists c, ps !! (k + i)%nat = Some c /\ match r with Done r => resolution_ok relation name c r | Refused => True | Undefined => False end) ->
  match found with Some r => resolution_ok relation name (OpNode ctx ps) r | None => True end ->
  match combine_children ctx k results found with
  | Done r => resolution_ok relation name (OpNode ctx ps) r /\
      (forall i r' id, results !! i = Some (Done r') -> candidate (k + i) (r_column_id r') ctx = Some id -> id = r_column_id r) /\
      (forall r0, found = Some r0 -> r_column_id r0 = r_column_id r)
  | Refused => True
  | Undefined => False
  end.
Proof.
  intros Hb. revert k found. induction results as [|r results IH]; intros k found Hres Hf; cbn [combine_children].
  - destruct found as [r|]; [|done]. split_and!; [done|done|]. by intros r0 [= <-].
  - assert (forall i r, results !! i = Some r ->
     exists c, ps !! (S k + i)%nat = Some c /\ match r with Done r => resolution_ok relation name c r | Refused => True | Undefined => False end) as Hres'.
    { intros i r' Hi. specialize (Hres (S i) r' Hi). by rewrite <- plus_n_Sm in Hres. }
    assert (forall f r', (forall i r'' id, results !! i = Some (Done r'') -> candidate (S k + i) (r_column_id r'') ctx = Some id -> id = r_column_id r') ->
      (forall r0 id, r = Done r0 -> candidate k (r_column_id r0) ctx = Some id -> id = r_column_id r') ->
      (forall r0, f = Some r0 -> r_column_id r0 = r_column_id r') ->
      forall i r'' id, (r :: results) !! i = Some (Done r'') -> candidate (k + i) (r_column_id r'') ctx = Some id -> id = r_column_id r') as Hall.
    { intros f r' H1 H2 _ [|i] r'' id Hi; cbn in Hi.
      - injection Hi as Hi. rewrite Nat.add_0_r. by apply H2.
      - rewrite <- plus_n_Sm. by apply H1. }
    destruct (Hres 0%nat r eq_refl) as (c & Hc & Hr). rewrite Nat.add_0_r in Hc.
    destruct r as [| |sub]; [done| |].
    + specialize (IH (S k) found Hres' Hf). destruct (combine_children _ _ _ _) as [| |r']; [done|done|].
      destruct IH as (H1 & H2 & H3). split_and!; [done| |done]. by apply (Hall found).
    + destruct (candidate k (r_column_id sub) ctx) as [cand|] eqn:Ecand.
      * destruct found as [r0|].
        -- destruct (Z.eqb_spec (r_column_id r0) cand) as [Heq|]; [|done].
           specialize (IH (S k) (Some r0) Hres' Hf). destruct (combine_children _ _ _ _) as [| |r']; [done|done|].
           destruct IH as (H1 & H2 & H3). split_and!; [done| |done]. apply (Hall (Some r0)); [done| |done].
           intros r1 id [= <-]. rewrite Ecand. intros [= <-]. rewrite <- Heq. by apply H3.
        -- destruct (candidate_ok spark ctx ps k c _ _ Hb Hc Ecand) as [Hhas Hchild].
           destruct Hr as (_ & (path & m & mid & p & Hcf & Hm) & (spath & Hsn & m' & p' & Hcf' & Hm')).
           match goal with |- context [combine_children _ _ _ (Some ?r)] => set (r1 := r) end.
           assert (resolution_ok relation name (OpNode ctx ps) r1) as Hok1.
           { split_and!; [done| |].
             - exists (k :: path), m, mid, p. split; [|done]. by apply (cf_child _ _ _ c (r_column_id sub)).
             - exists (k :: spath). cbn. rewrite Hsn. split; [done|]. exists m', p'. split; [|done]. by apply (cf_child _ _ _ c (r_column_id sub)). }
           specialize (IH (S k) (Some r1) Hres' Hok1). destruct (combine_children _ _ _ _) as [| |r']; [done|done|].
           destruct IH as (H1 & H2 & H3). split_and!; [done| |done]. apply (Hall (Some r1)); [done| |done].
           intros r2 id [= <-]. rewrite Ecand. intros [= <-]. by rewrite <- (H3 r1 eq_refl).
      * specialize (IH (S k) found Hres' Hf). destruct (combine_children _ _ _ _) as [| |r']; [done|done|].
        destruct IH as (H1 & H2 & H3). split_and!; [done| |done]. apply (Hall found); [done| |done].
        intros r1 id [= <-]. by rewrite Ecand.
Qed.

Lemma resolve_node_ok spark relation name n : relation <> [] -> plan_ok spark n ->
  match ResolveColumnID_node relation name n with
  | Done r => resolution_ok relation name n r
  | Refused => True
  | Undefined => False
  end.
Proof.
  intros Hr. induction n as [ctx ps IH] using node_ind. intros Hp. cbn [ResolveColumnID_node].
  destruct (resolve_here relation name (Some ps) ctx) as [r|] eqn:E; [by eapply resolve_here_ok|].
  inversion Hp as [ctx' ps' Hb Hps Hsrc E']. subst ctx' ps'.
  pose proof (combine_ok spark relation name ctx ps 0 (ResolveColumnID_node relation name <$> ps) None Hb) as Hc.
  assert (match combine_children ctx 0 (ResolveColumnID_node relation name <$> ps) None with Done r => resolution_ok relation name (OpNode ctx ps) r | Refused => True | Undefined => False end) as H; [|exact H].
  destruct (combine_children _ _ _ _); [apply Hc|done|apply Hc]; try done;
    intros i r (c & -> & Hl)%list_lookup_fmap_Some; exists c; (split; [done|]);
    rewrite Forall_lookup in IH, Hps; by apply (IH i c Hl), (Hps i c Hl).
Qed.

(** Resolving [relation.name] in a plan never has undefined behaviour, and
    the column it finds is a column of the output row that comes from a
    column of that name of a node of that name below, through columns that
    keep their id or record their source. *)
Theorem resolve_in_plan (spark : bool) (ctx : SchemasContext) (ps : list PhysicalOpNode) (relation name : list Z) :
  plan_ok spark (OpNode ctx ps) -> relation <> [] ->
  match ResolveColumnIndexByName (Some ps) relation name ctx with
  | Done p => exists id path m mid q, id_at ctx p = Some id /\ comes_from (OpNode ctx ps) id path m mid /\
      sc_name (schemas_ctx m) = relation /\ name_at (schemas_ctx m) q = Some name /\ id_at (schemas_ctx m) q = Some mid
  | Refused => True
  | Undefined => False
  end.
Proof.
  intros Hp Hr. inversion Hp as [ctx' ps' Hb Hps Hsrc E]. subst ctx' ps'. unfold ResolveColumnIndexByName.
  rewrite (built_check spark ctx Hb), bool_decide_false by done. cbn [negb].
  pose proof (resolve_node_ok spark relation name (OpNode ctx ps) Hr Hp) as H.
  destruct (ResolveColumnID_node relation name (OpNode ctx ps)) as [| |r]; [done|done|]. cbn [obind].
  destruct H as ((q & Hq) & (path & m & mid & p & Hcf & Hm) & _).
  destruct (resolve_id spark ctx Hb (r_column_id r)) as [(p' & -> & Hp')|[_ Hno]]; [|by destruct (Hno q)].
  by exists (r_column_id r), path, m, mid, p.
Qed.

(** ** Merging children *)

Lemma insert_fill {A} (l : list A) (f : nat -> A) n : (n <= length l)%nat ->
  foldl (fun l j => <[j := f j]> l) l (seq 0 n) = (f <$> seq 0 n) ++ drop n l.
Proof.
  induction n as [|n IH]; intros Hn; [done|]. rewrite seq_S, foldl_app, fmap_app, IH by lia. cbn.
  rewrite insert_app_r_alt by (by rewrite length_fmap, length_seq). rewrite length_fmap, length_seq, Nat.sub_diag, <- app_assoc.
  f_equal. destruct (drop n l) as [|x l'] eqn:E.
  - apply (f_equal length) in E. rewrite length_drop in E. cbn in E. lia.
  - assert (l !! n = Some x) as Hx by (by rewrite <- (Nat.add_0_r n), <- lookup_drop, E).
    rewrite (drop_S l x n Hx) in E. injection E as <-. done.
Qed.

(** A list filled with the values of another one. *)
Lemma fill_from {A} (d : A) (l l0 : list A) : length l0 = length l ->
  foldl (fun l' j => <[j := default d (l !! j)]> l') l0 (seq 0 (length l)) = l.
Proof.
  intros Hl. rewrite insert_fill by lia. rewrite <- Hl, drop_all, app_nil_r, Hl. apply list_eq. intros i.
  rewrite list_lookup_fmap. destruct (decide (i < length l)%nat) as [Hi|Hi].
  - rewrite lookup_seq_lt by done. cbn. by destruct (lookup_lt_is_Some_2 l i Hi) as [x ->].
  - rewrite lookup_seq_ge, lookup_ge_None_2 by lia. done.
Qed.
Lemma fill_const {A} (x : A) (l0 : list A) : foldl (fun l' j => <[j := x]> l') l0 (seq 0 (length l0)) = replicate (length l0) x.
Proof.
  rewrite (insert_fill l0 (fun _ => x)), drop_all, app_nil_r by done. apply list_eq. intros i.
  rewrite list_lookup_fmap. destruct (decide (i < length l0)%nat) as [Hi|Hi].
  - by rewrite lookup_seq_lt, lookup_replicate_2.
  - rewrite lookup_seq_ge, lookup_ge_None_2; [done|rewrite length_replicate; lia|lia].
Qed.

(** The source that [Merge] adds for a source of a child. *)
Definition inherited (child_idx : Z) (name : list Z) (s : SchemaSource) : SchemaSource :=
  mkSource (ss_schema s) name (ss_column_ids s) (replicate (ss_size s) (i32 child_idx)) (ss_column_ids s).

Lemma set_column s cols j id child cid : ss_schema s = Some cols -> (j < length cols)%nat ->
  SetSource j child cid (SetColumnID j id s) =
  mkSource (Some cols) (ss_source_name s) (<[j := id]> (ss_column_ids s)) (<[j := i32 child]> (ss_source_child_idxs s))
    (<[j := cid]> (ss_source_child_column_ids s)).
Proof.
  intros Hs Hj%Nat.ltb_lt. unfold SetSource, SetColumnID, CheckSourceSetIndex. rewrite Hs, Hj. cbn [negb ss_schema]. by rewrite Hj.
Qed.

Lemma child_source_ok name s cols : ss_schema s = Some cols ->
  child_source name s = mkSource (Some cols) name (replicate (length cols) 0) (replicate (length cols) (-1)) (replicate (length cols) 0).
Proof. intros E. unfold child_source, SetSchema. rewrite E. cbn. by rewrite resize_nil. Qed.

Lemma merge_source child_idx name s : source_ok s ->
  foldM (merge_column child_idx s) (child_source name s) (seq 0 (ss_size s)) = Some (inherited child_idx name s).
Proof.
  intros [[cols Hc] Hi _ _]. rewrite (child_source_ok _ _ _ Hc). unfold inherited. rewrite Hc.
  assert (ss_size s = length cols) as Hsz by (unfold ss_size; by rewrite Hc). rewrite Hsz in *.
  assert (forall l a b c, (forall j, j ∈ l -> (j < length cols)%nat) ->
    foldM (merge_column child_idx s) (mkSource (Some cols) name a b c) l =
    Some (mkSource (Some cols) name (foldl (fun l' j => <[j := default 0 (ss_column_ids s !! j)]> l') a l)
      (foldl (fun l' j => <[j := i32 child_idx]> l') b l)
      (foldl (fun l' j => <[j := default 0 (ss_column_ids s !! j)]> l') c l))) as Hfold.
  { induction l as [|j l IH]; intros a b c Hl; [done|]. cbn [foldM foldl].
    assert (j < length cols)%nat as Hj by (apply Hl; left).
    destruct (lookup_lt_is_Some_2 (ss_column_ids s) j) as [id Eid]; [lia|].
    assert (merge_column child_idx s (mkSource (Some cols) name a b c) j =
      Some (mkSource (Some cols) name (<[j := id]> a) (<[j := i32 child_idx]> b) (<[j := id]> c))) as ->.
    { unfold merge_column, GetColumnID. rewrite Eid. cbn [mbind option_bind]. by rewrite (set_column _ cols). }
    rewrite Eid. cbn [mbind option_bind default]. apply IH. intros k Hk. apply Hl. by right. }
  rewrite Hfold by (intros j ?%elem_of_seq; lia). f_equal. f_equal.
  - rewrite <- Hi. apply fill_from. by rewrite length_replicate.
  - pose proof (fill_const (i32 child_idx) (replicate (length cols) (-1))) as H. by rewrite length_replicate in H.
  - rewrite <- Hi. apply fill_from. by rewrite length_replicate.
Qed.

Lemma inherited_ok child_idx name s : source_ok s -> source_ok (inherited child_idx name s).
Proof.
  intros [Hc Hi _ _]. split; cbn; [done|done|apply length_replicate|done].
Qed.

Lemma Merge_spec child_idx child ctx : Forall source_ok (sc_schema_sources child) ->
  Merge child_idx child ctx =
  Some (foldl (fun ctx s => AddSource (inherited child_idx (sc_name child) s) ctx) ctx (sc_schema_sources child)).
Proof.
  intros Hok. unfold Merge. apply foldM_pure. intros c s Hs. rewrite Forall_forall in Hok.
  by rewrite merge_source by (by apply Hok).
Qed.
Lemma foldl_AddSource (f : SchemaSource -> SchemaSource) (l : list SchemaSource) ctx :
  sc_schema_sources (foldl (fun ctx s => AddSource (f s) ctx) ctx l) = sc_schema_sources ctx ++ (f <$> l).
Proof.
  revert ctx. induction l as [|s l IH]; intros ctx; cbn; [by rewrite app_nil_r|]. rewrite IH. cbn. by rewrite <- app_assoc.
Qed.

(** The columns of an inherited source. *)
Lemma inherited_columns child_idx name s j : 0 <= child_idx < 2 ^ 31 -> source_ok s ->
  GetColumnID j (inherited child_idx name s) = GetColumnID j s /\
  GetColumnName j (inherited child_idx name s) = GetColumnName j s /\
  GetColumnType j (inherited child_idx name s) = GetColumnType j s /\
  forall id, 0 <= id < 2 ^ 31 -> GetColumnID j s = Some id ->
    GetSourceChildIdx j (inherited child_idx name s) = Some child_idx /\
    GetSourceColumnID j (inherited child_idx name s) = Some id.
Proof.
  intros Hc Hok. split_and!; [done..|]. intros id Hid Hj.
  assert (j < ss_size s)%nat as Hlt by (rewrite <- (ok_ids _ Hok); by eapply lookup_lt_Some).
  unfold GetSourceChildIdx, GetSourceColumnID. cbn. rewrite lookup_replicate_2 by done. rewrite i32_small by lia. cbn.
  rewrite (proj2 (Z.geb_le _ _)) by lia. unfold GetColumnID in Hj. rewrite Hj. cbn. by rewrite i32_small by lia.
Qed.

Lemma merged_columns ctx ctx0 k i child_idx name j : 0 <= child_idx < 2 ^ 31 -> Forall source_ok (sc_schema_sources ctx0) ->
  GetSchemaSource k ctx = inherited child_idx name <$> GetSchemaSource i ctx0 ->
  GetSchema k ctx = GetSchema i ctx0 /\ id_at ctx (k, j) = id_at ctx0 (i, j) /\ name_at ctx (k, j) = name_at ctx0 (i, j) /\ type_at ctx (k, j) = type_at ctx0 (i, j) /\
  forall id, 0 <= id < 2 ^ 31 -> id_at ctx0 (i, j) = Some id -> source_at ctx (k, j) = Some (child_idx, id).
Proof.
  intros Hc Hok E. unfold GetSchema, id_at, name_at, type_at, source_at. cbn [fst snd]. rewrite E.
  destruct (GetSchemaSource i ctx0) as [s|] eqn:Es; [|done]. cbn [fmap option_fmap option_map mbind option_bind].
  pose proof (Forall_lookup_1 _ _ _ _ Hok Es) as Hs. destruct (inherited_columns child_idx name s j Hc Hs) as (-> & -> & -> & H).
  split_and!; [done..|]. intros id Hid Hj. destruct (H id Hid Hj) as [-> ->]. cbn [mbind option_bind].
  rewrite (proj2 (Z.geb_le _ _)) by lia. by rewrite u64_small by lia.
Qed.

(** Merging the contexts of two inputs (a join) and building the maps gives
    a context with the slices of the first input followed by those of the
    second: every column keeps its id, name and type, and remembers its
    input. *)
Lemma Merge_joins (spark : bool) (left right : SchemasContext) :
  Forall source_ok (sc_schema_sources left) -> Forall source_ok (sc_schema_sources right) ->
  exists c1 c2 ctx, Merge 0 left SchemasContext_new = Some c1 /\ Merge 1 right c1 = Some c2 /\
    Build spark c2 = Some ctx /\ built spark ctx /\
    let n := length (sc_schema_sources left) in
    (forall i j, (i < n)%nat -> GetSchema i ctx = GetSchema i left /\ id_at ctx (i, j) = id_at left (i, j) /\ name_at ctx (i, j) = name_at left (i, j) /\
    type_at ctx (i, j) = type_at left (i, j) /\
    forall id, 0 <= id < 2 ^ 31 -> id_at left (i, j) = Some id -> source_at ctx (i, j) = Some (0, id)) /\
    (forall i j, GetSchema (n + i) ctx = GetSchema i right /\ id_at ctx ((n + i)%nat, j) = id_at right (i, j) /\ name_at ctx ((n + i)%nat, j) = name_at right (i, j) /\
    type_at ctx ((n + i)%nat, j) = type_at right (i, j) /\
    forall id, 0 <= id < 2 ^ 31 -> id_at right (i, j) = Some id -> source_at ctx ((n + i)%nat, j) = Some (1, id)).
Proof.
  intros Hl Hr. set (add k child ctx := foldl (fun ctx s => AddSource (inherited k (sc_name child) s) ctx) ctx (sc_schema_sources child)).
  set (c1 := add 0 left SchemasContext_new). set (c2 := add 1 right c1). exists c1, c2.
  assert (sc_schema_sources c2 = (inherited 0 (sc_name left) <$> sc_schema_sources left) ++
    (inherited 1 (sc_name right) <$> sc_schema_sources right)) as Es.
  { unfold c2, c1, add. rewrite (foldl_AddSource (inherited 1 (sc_name right))), (foldl_AddSource (inherited 0 (sc_name left))). reflexivity. }
  destruct (Build_agrees spark c2) as (ctx & Eb & Esrc & _ & Hb).
  { rewrite Es. apply Forall_app. split; apply Forall_fmap; eapply Forall_impl; try done; intros s Hs; by apply inherited_ok. }
  rewrite Es in Esrc. exists ctx. split_and!; [by apply Merge_spec|by apply Merge_spec|exact Eb|exact Hb|]. split.
  - intros i j Hi. apply merged_columns with (name := sc_name left); [lia|done|]. unfold GetSchemaSource.
    rewrite Esrc, lookup_app_l by (by rewrite length_fmap). by rewrite list_lookup_fmap.
  - intros i j. apply merged_columns with (name := sc_name right); [lia|done|]. unfold GetSchemaSource.
    rewrite Esrc, lookup_app_r by (rewrite length_fmap; lia). rewrite length_fmap, list_lookup_fmap.
    by replace (length (sc_schema_sources left) + i - length (sc_schema_sources left))%nat with i by lia.
Qed.

(** ** A small plan *)

(** The join of a table [t1 (a int, b bigint)] with [t2 (f bool, s string)]. *)
Module SamplePlan.
Definition left_cols : list ColumnDef := [mkcol [97] kInt32; mkcol [98] kInt64].
Definition right_cols : list ColumnDef := [mkcol [102] kBool; mkcol [115] kVarchar].
Definition left_source : SchemaSource := mkSource (Some left_cols) [] [1; 2] [-1; -1] [0; 0].
Definition right_source : SchemaSource := mkSource (Some right_cols) [] [3; 4] [-1; -1] [0; 0].
Definition context (name : list Z) (sources : list SchemaSource) : SchemasContext :=
  default SchemasContext_new (Build false (mkContext name ∅ ∅ ∅ sources [] [])).
Definition t1 : list Z := [116; 49].
Definition t2 : list Z := [116; 50].
Definition left : SchemasContext := context t1 [left_source].
Definition right : SchemasContext := context t2 [right_source].
Definition joined : SchemasContext := context [] [inherited 0 t1 left_source; inherited 1 t2 right_source].
Definition plan : PhysicalOpNode := OpNode joined [OpNode left []; OpNode right []].

Lemma context_built name sources : Forall source_ok sources ->
  built false (context name sources) /\ sc_schema_sources (context name sources) = sources.
Proof.
  intros H. destruct (Build_agrees false (mkContext name ∅ ∅ ∅ sources [] [])) as (ctx & E & Es & _ & Hb); [done|].
  unfold context. by rewrite E.
Qed.
Lemma sources_ok : source_ok left_source /\ source_ok right_source.
Proof. by split; split. Qed.
Lemma left_built : built false left /\ sc_schema_sources left = [left_source].
Proof. apply context_built. repeat constructor; by apply sources_ok. Qed.
Lemma right_built : built false right /\ sc_schema_sources right = [right_source].
Proof. apply context_built. repeat constructor; by apply sources_ok. Qed.
Lemma joined_built :
  built false joined /\ sc_schema_sources joined = [inherited 0 t1 left_source; inherited 1 t2 right_source].
Proof.
  apply context_built. apply Forall_cons. split; [apply inherited_ok, sources_ok|].
  apply Forall_cons. split; [apply inherited_ok, sources_ok|done].
Qed.

Lemma no_sources s j child cid (ps : list PhysicalOpNode) : ss_source_child_idxs s = [-1; -1] -> GetSourceChildIdx j s = Some child -> 0 <= child ->
  GetSourceColumnID j s = Some cid ->
  0 <= cid < 2 ^ 31 /\ exists c q, ps !! Z.to_nat child = Some c /\ id_at (schemas_ctx c) q = Some cid.
Proof. intros E H. unfold GetSourceChildIdx in H. rewrite E in H. destruct j as [|[|j]]; cbn in H; [injection H as <-; lia..|done]. Qed.

Lemma plan_valid : plan_ok false plan.
Proof.
  destruct left_built as [Hl El], right_built as [Hr Er], joined_built as [Hj Ej].
  assert (plan_ok false (OpNode left [])) as Pl.
  { constructor; [done|done|]. intros i s j child cid Hs. unfold GetSchemaSource in Hs. rewrite El in Hs.
    destruct i as [|i]; [|done]. injection Hs as <-. by apply no_sources. }
  assert (plan_ok false (OpNode right [])) as Pr.
  { constructor; [done|done|]. intros i s j child cid Hs. unfold GetSchemaSource in Hs. rewrite Er in Hs.
    destruct i as [|i]; [|done]. injection Hs as <-. by apply no_sources. }
  constructor; [done|apply Forall_cons; split; [done|by apply Forall_singleton]|]. intros i s j child cid Hs. unfold GetSchemaSource in Hs. rewrite Ej in Hs.
  destruct i as [|[|i]]; [..|done]; injection Hs as <-; (destruct j as [|[|j]]; [intros [= <-] _ [= <-]..|intros H; discriminate H]);
    (split; [done|]); eexists; [exists (0%nat, 0%nat)|exists (0%nat, 1%nat)|exists (0%nat, 0%nat)|exists (0%nat, 1%nat)];
    (split; [reflexivity|]); unfold id_at, GetSchemaSource; cbn [schemas_ctx fst]; rewrite ?El, ?Er; reflexivity.
Qed.
End SamplePlan.

Lemma resolve_unqualified_witness :
  ResolveColumnIndexByName None [] [102] SamplePlan.joined = Done (1%nat, 0%nat) /\
  unique_match SamplePlan.joined (fun p => name_at SamplePlan.joined p = Some [102])
    (ResolveColumnIndexByName None [] [102] SamplePlan.joined).
Proof.
  split; [vm_compute; reflexivity|]. apply (resolve_unqualified false). exact (proj1 SamplePlan.joined_built).
Defined.

Lemma resolve_in_plan_witness :
  ResolveColumnIndexByName (Some (producers SamplePlan.plan)) SamplePlan.t2 [102] SamplePlan.joined = Done (1%nat, 0%nat) /\
  match ResolveColumnIndexByName (Some (producers SamplePlan.plan)) SamplePlan.t2 [102] SamplePlan.joined with
  | Done p => exists id path m mid q, id_at SamplePlan.joined p = Some id /\ comes_from SamplePlan.plan id path m mid /\
      sc_name (schemas_ctx m) = SamplePlan.t2 /\ name_at (schemas_ctx m) q = Some [102] /\ id_at (schemas_ctx m) q = Some mid
  | Refused => True
  | Undefined => False
  end.
Proof.
  split; [vm_compute; reflexivity|].
  apply (resolve_in_plan false SamplePlan.joined (producers SamplePlan.plan)); [exact SamplePlan.plan_valid|discriminate].
Defined.
