(* ===== verification/Llvm.v ===== *)
(** * What the emitted instructions compute

    The code generator emits instructions through the [IRBuilder] of LLVM.
    This file gives the meaning of the instructions it uses on scalar values,
    as the language reference of LLVM documents them. An [LValue] is a typed
    register: its type is known when code is generated, its content when the
    code runs. A result that the reference calls poison is [Poison] and spreads
    along the data flow; immediate undefined behaviour, and an instruction
    whose operand types do not agree, is [UB] and spreads everywhere, because
    no emitted instruction is conditional. Floating point is IEEE 754 binary
    arithmetic with one NaN. *)

From Stdlib Require Import SpecFloat.
From stdpp Require Import base numbers option list.
From S2P Require Import Prelude.

(** The types of registers: [TokenTy] stands for the literal NULL; strings,
    time stamps and dates are pointers to their structs. *)
Inductive LType :=
| TokenTy | IntTy (w : Z) | FloatTy | DoubleTy | StringPtrTy | TimestampPtrTy | DatePtrTy.
#[export] Instance LType_eq : EqDecision LType.
Proof. solve_decision. Defined.

(** An integer is kept as a signed number, the struct of a string, time stamp
    or date by its contents. *)
Inductive Value :=
| VToken | VInt (n : Z) | VFp (x : spec_float) | VString (s : list Z) | VTimestamp (ts : Z) | VDate (code : Z).

Inductive Rt := Val (v : Value) | Poison | UB.

Record LValue := mkLV { getType : LType; lv_rt : Rt }.

Definition rt_bind (a : Rt) (f : Value -> Rt) : Rt :=
  match a with Val v => f v | Poison => Poison | UB => UB end.
Definition rt_bind2 (a b : Rt) (f : Value -> Value -> Rt) : Rt :=
  match a, b with
  | UB, _ | _, UB => UB
  | Val x, Val y => f x y
  | _, _ => Poison
  end.

(** ** Integers *)

Definition getInt (w n : Z) : LValue := mkLV (IntTy w) (Val (VInt (wraps w n))).
Definition bool_int (b : bool) : Z := if b then -1 else 0.
Definition getInt1 (b : bool) : LValue := mkLV (IntTy 1) (Val (VInt (bool_int b))).

Definition int_op (f : Z -> Z -> Z -> Rt) (a b : LValue) : Rt :=
  match getType a, getType b with
  | IntTy w, IntTy w' =>
      if w =? w' then rt_bind2 (lv_rt a) (lv_rt b)
        (fun x y => match x, y with VInt m, VInt n => f w m n | _, _ => UB end)
      else UB
  | _, _ => UB
  end.
Definition int_op2 (f : Z -> Z -> Z -> Rt) (a b : LValue) : LValue := mkLV (getType a) (int_op f a b).

Definition CreateAdd := int_op2 (fun w m n => Val (VInt (wraps w (m + n)))).
Definition CreateSub := int_op2 (fun w m n => Val (VInt (wraps w (m - n)))).
Definition CreateMul := int_op2 (fun w m n => Val (VInt (wraps w (m * n)))).
Definition CreateAnd := int_op2 (fun w m n => Val (VInt (Z.land m n))).
Definition CreateOr := int_op2 (fun w m n => Val (VInt (Z.lor m n))).
Definition CreateXor := int_op2 (fun w m n => Val (VInt (Z.lxor m n))).
(** The shift count is unsigned and must be less than the width. *)
Definition CreateShl := int_op2 (fun w m n =>
  let count := wrapu w n in if count <? w then Val (VInt (wraps w (Z.shiftl m count))) else Poison).
Definition CreateLShr := int_op2 (fun w m n =>
  let count := wrapu w n in if count <? w then Val (VInt (wraps w (Z.shiftr (wrapu w m) count))) else Poison).
Definition div_defined (w m n : Z) : bool := negb (n =? 0) && negb ((m =? - 2 ^ (w - 1)) && (n =? -1)).
Definition CreateSDiv := int_op2 (fun w m n => if div_defined w m n then Val (VInt (Z.quot m n)) else UB).
Definition CreateSRem := int_op2 (fun w m n => if div_defined w m n then Val (VInt (Z.rem m n)) else UB).
Definition CreateNot (a : LValue) : LValue :=
  mkLV (getType a) match getType a with
    | IntTy w => rt_bind (lv_rt a) (fun x => match x with VInt n => Val (VInt (Z.lnot n)) | _ => UB end)
    | _ => UB
    end.

Inductive CmpOp := CmpEq | CmpNe | CmpGt | CmpGe | CmpLt | CmpLe.
#[export] Instance CmpOp_eq : EqDecision CmpOp.
Proof. solve_decision. Defined.

Definition int_cmp (op : CmpOp) (m n : Z) : bool :=
  match op with
  | CmpEq => m =? n
  | CmpNe => negb (m =? n)
  | CmpGt => n <? m
  | CmpGe => n <=? m
  | CmpLt => m <? n
  | CmpLe => m <=? n
  end.
Definition CreateICmpS (op : CmpOp) (a b : LValue) : LValue :=
  mkLV (IntTy 1) (int_op (fun _ m n => Val (VInt (bool_int (int_cmp op m n)))) a b).
Definition CreateICmpU (op : CmpOp) (a b : LValue) : LValue :=
  mkLV (IntTy 1) (int_op (fun w m n => Val (VInt (bool_int (int_cmp op (wrapu w m) (wrapu w n))))) a b).

(** Both operands of a selection are computed. *)
Definition CreateSelect (c a b : LValue) : LValue :=
  mkLV (getType a)
    (if bool_decide (getType a = getType b) && bool_decide (getType c = IntTy 1) then
       match lv_rt c, lv_rt a, lv_rt b with
       | UB, _, _ | _, UB, _ | _, _, UB => UB
       | Val (VInt n), x, y => if n =? 0 then y else x
       | Val _, _, _ => UB
       | Poison, _, _ => Poison
       end
     else UB).

(** ** Floating point *)

Definition fp_format (t : LType) : option (Z * Z) :=
  match t with FloatTy => Some (24, 128) | DoubleTy => Some (53, 1024) | _ => None end.

Definition fp_op2 (f : Z -> Z -> spec_float -> spec_float -> Rt) (a b : LValue) : Rt :=
  if bool_decide (getType a = getType b) then
    match fp_format (getType a) with
    | Some (prec, emax) =>
        rt_bind2 (lv_rt a) (lv_rt b)
          (fun x y => match x, y with VFp u, VFp v => f prec emax u v | _, _ => UB end)
    | None => UB
    end
  else UB.

(** The remainder of a truncated division, with the sign of the dividend; it
    is exact. *)
Definition SFrem (prec emax : Z) (x y : spec_float) : spec_float :=
  match x, y with
  | S754_nan, _ | _, S754_nan => S754_nan
  | S754_infinity _, _ | _, S754_zero _ => S754_nan
  | _, S754_infinity _ => x
  | S754_zero _, _ => x
  | S754_finite sx mx ex, S754_finite sy my ey =>
      let e := Z.min ex ey in
      let m := Z.pos mx * 2 ^ (ex - e) mod (Z.pos my * 2 ^ (ey - e)) in
      binary_normalize prec emax (if sx then - m else m) e sx
  end.

Definition fp_arith (f : Z -> Z -> spec_float -> spec_float -> spec_float) (a b : LValue) : LValue :=
  mkLV (getType a) (fp_op2 (fun prec emax x y => Val (VFp (f prec emax x y))) a b).
Definition CreateFAdd := fp_arith SFadd.
Definition CreateFSub := fp_arith SFsub.
Definition CreateFMul := fp_arith SFmul.
Definition CreateFDiv := fp_arith SFdiv.
Definition CreateFRem := fp_arith SFrem.

(** The ordered comparisons are false on a NaN, except that [CmpNe] is the
    unordered one. *)
Definition fp_cmp (op : CmpOp) (x y : spec_float) : bool :=
  match SFcompare x y with
  | None => match op with CmpNe => true | _ => false end
  | Some c =>
      match op, c with
      | CmpEq, Eq | CmpNe, (Lt | Gt) | CmpGt, Gt | CmpGe, (Gt | Eq) | CmpLt, Lt | CmpLe, (Lt | Eq) => true
      | _, _ => false
      end
  end.
Definition CreateFCmp (op : CmpOp) (a b : LValue) : LValue :=
  mkLV (IntTy 1) (fp_op2 (fun _ _ x y => Val (VInt (bool_int (fp_cmp op x y)))) a b).

(** ** Conversions *)

Definition convert (f : Value -> Rt) (a : LValue) (t : LType) : LValue := mkLV t (rt_bind (lv_rt a) f).

Definition int_width (t : LType) : option Z := match t with IntTy w => Some w | _ => None end.

(** An extension needs a wider type, a truncation a narrower one. *)
Definition CreateZExt (a : LValue) (t : LType) : LValue :=
  convert (fun v => match v, int_width (getType a), int_width t with
    | VInt n, Some w, Some w' => if w <? w' then Val (VInt (wrapu w n)) else UB
    | _, _, _ => UB end) a t.
Definition CreateSExt (a : LValue) (t : LType) : LValue :=
  convert (fun v => match v, int_width (getType a), int_width t with
    | VInt n, Some w, Some w' => if w <? w' then Val (VInt n) else UB
    | _, _, _ => UB end) a t.
Definition CreateTrunc (a : LValue) (t : LType) : LValue :=
  convert (fun v => match v, int_width (getType a), int_width t with
    | VInt n, Some w, Some w' => if w' <? w then Val (VInt (wraps w' n)) else UB
    | _, _, _ => UB end) a t.
(** [CreateIntCast] of a signed value. *)
Definition CreateIntCast (a : LValue) (t : LType) : LValue :=
  match int_width (getType a), int_width t with
  | Some w, Some w' => if w' <? w then CreateTrunc a t else if w <? w' then CreateSExt a t else a
  | _, _ => mkLV t UB
  end.

Definition fp_of_Z (prec emax n : Z) : spec_float := binary_normalize prec emax n 0 false.
Definition CreateSIToFP (a : LValue) (t : LType) : LValue :=
  convert (fun v => match v, int_width (getType a), fp_format t with
    | VInt n, Some _, Some (prec, emax) => Val (VFp (fp_of_Z prec emax n))
    | _, _, _ => UB end) a t.
Definition CreateUIToFP (a : LValue) (t : LType) : LValue :=
  convert (fun v => match v, int_width (getType a), fp_format t with
    | VInt n, Some w, Some (prec, emax) => Val (VFp (fp_of_Z prec emax (wrapu w n)))
    | _, _, _ => UB end) a t.

Definition fp_round (prec emax : Z) (x : spec_float) : spec_float :=
  match x with
  | S754_finite s m e => binary_normalize prec emax (if s then Z.neg m else Z.pos m) e s
  | _ => x
  end.
Definition fp_convert (wider : bool) (a : LValue) (t : LType) : LValue :=
  convert (fun v => match v, fp_format (getType a), fp_format t with
    | VFp x, Some (p, _), Some (prec, emax) =>
        if Bool.eqb (p <? prec) wider && negb (p =? prec) then Val (VFp (fp_round prec emax x)) else UB
    | _, _, _ => UB end) a t.
Definition CreateFPExt := fp_convert true.
Definition CreateFPTrunc := fp_convert false.

(** The integer part of a number. *)
Definition fp_trunc (x : spec_float) : option Z :=
  match x with
  | S754_zero _ => Some 0
  | S754_finite s m e =>
      let n := if 0 <=? e then Z.pos m * 2 ^ e else Z.pos m / 2 ^ (- e) in Some (if s then - n else n)
  | _ => None
  end.
(** Poison when the integer part does not fit. *)
Definition CreateFPToSI (a : LValue) (t : LType) : LValue :=
  convert (fun v => match v, fp_format (getType a), int_width t with
    | VFp x, Some _, Some w =>
        match fp_trunc x with
        | Some n => if (- 2 ^ (w - 1) <=? n) && (n <? 2 ^ (w - 1)) then Val (VInt n) else Poison
        | None => Poison
        end
    | _, _, _ => UB end) a t.

(** ** Well-typed contents *)

Definition typed (t : LType) (v : Value) : Prop :=
  match t, v with
  | TokenTy, VToken => True
  | IntTy w, VInt n => - 2 ^ (w - 1) <= n < 2 ^ (w - 1)
  | FloatTy, VFp x => valid_binary 24 128 x = true
  | DoubleTy, VFp x => valid_binary 53 1024 x = true
  | StringPtrTy, VString _ => True
  | TimestampPtrTy, VTimestamp n => - 2 ^ 63 <= n < 2 ^ 63
  | DatePtrTy, VDate n => - 2 ^ 31 <= n < 2 ^ 31
  | _, _ => False
  end.
