(* ===== verification/ExprTypes.v ===== *)
(** * Types of expressions

    Models the type nodes of [src/node/type_node.cc], the rules of
    [src/node/expr_node.cc] that say which operand types an operator accepts
    and what it returns, and the map between these types and the types of
    registers ([src/codegen/ir_base_builder.cc]). Scalar types only: lists,
    rows and tuples are left out. A failed status is [None]. *)

From stdpp Require Import base numbers option list.
From S2P Require Import Prelude Llvm.

Inductive DataType :=
| kBool | kInt16 | kInt32 | kInt64 | kFloat | kDouble | kVarchar | kDate | kTimestamp | kNull.
#[export] Instance DataType_eq : EqDecision DataType.
Proof. solve_decision. Defined.

Definition is_type (a b : DataType) : bool := bool_decide (a = b).

Definition IsInteger (t : DataType) : bool :=
  is_type t kBool || is_type t kInt16 || is_type t kInt32 || is_type t kInt64.
Definition IsFloating (t : DataType) : bool := is_type t kFloat || is_type t kDouble.
Definition IsNumber (t : DataType) : bool := IsInteger t || IsFloating t.
Definition IsTimestamp (t : DataType) : bool := is_type t kTimestamp.
Definition IsString (t : DataType) : bool := is_type t kVarchar.
Definition IsDate (t : DataType) : bool := is_type t kDate.
Definition IsNull (t : DataType) : bool := is_type t kNull.
Definition IsBool (t : DataType) : bool := is_type t kBool.
Definition IsBaseType (t : DataType) : bool := IsNumber t || IsString t || IsTimestamp t || IsDate t.

(** ** Casts *)

Definition IsSafeCast (from_type target_type : DataType) : bool :=
  is_type from_type target_type ||
  match target_type with
  | kBool => is_type from_type kBool
  | kInt16 => is_type from_type kBool || is_type from_type kInt16
  | kInt32 => is_type from_type kBool || is_type from_type kInt16 || is_type from_type kInt32
  | kInt64 => is_type from_type kBool || IsInteger from_type
  | kFloat => is_type from_type kBool || is_type from_type kFloat
  | kDouble => is_type from_type kBool || IsFloating from_type
  | kTimestamp => is_type from_type kTimestamp || IsInteger from_type
  | _ => false
  end.

Definition IsIntFloat2PointerCast (lhs rhs : DataType) : bool := IsNumber lhs && IsFloating rhs.

Definition IsCastAccept (src dist : DataType) : option DataType :=
  if is_type src dist || IsSafeCast src dist then Some dist
  else if IsDate src && IsNumber dist && negb (IsBool dist) then None
  else if IsNumber src && IsDate dist then None
  else Some dist.

(** The type of an arithmetic operation on two numbers. *)
Definition InferNumberCastTypes (left_type right_type : DataType) : option DataType :=
  if negb (IsNumber left_type && IsNumber right_type) then None
  else if IsSafeCast left_type right_type then Some right_type
  else if IsSafeCast right_type left_type then Some left_type
  else if IsIntFloat2PointerCast left_type right_type then Some right_type
  else if IsIntFloat2PointerCast right_type left_type then Some left_type
  else None.

(** ** Operators *)

(** The common part of the rules: with a NULL operand the type is that of the
    other one. *)
Definition null_or (lhs rhs : DataType) (k : option DataType) : option DataType :=
  if IsNull lhs then Some rhs else if IsNull rhs then Some lhs else k.

Definition BitTypeAccept (lhs rhs : DataType) : option DataType :=
  if IsInteger lhs && IsInteger rhs then InferNumberCastTypes lhs rhs else None.
Definition AndTypeAccept := BitTypeAccept.
Definition LShiftTypeAccept := BitTypeAccept.

Definition number_or_time (t : DataType) : bool := IsNull t || IsNumber t || IsTimestamp t.

Definition AddTypeAccept (lhs rhs : DataType) : option DataType :=
  if negb (number_or_time lhs && number_or_time rhs) then None
  else null_or lhs rhs
    (if IsTimestamp lhs && IsTimestamp rhs then Some lhs
     else if IsTimestamp lhs && IsInteger rhs then Some lhs
     else if IsInteger lhs && IsTimestamp rhs then Some rhs
     else if IsNumber lhs && IsNumber rhs then InferNumberCastTypes lhs rhs
     else None).

Definition SubTypeAccept (lhs rhs : DataType) : option DataType :=
  if negb (number_or_time lhs && number_or_time rhs) then None
  else null_or lhs rhs
    (if IsTimestamp lhs && IsTimestamp rhs then Some lhs
     else if IsTimestamp lhs && IsInteger rhs then Some lhs
     else if IsNumber lhs && IsNumber rhs then InferNumberCastTypes lhs rhs
     else None).

Definition MultiTypeAccept (lhs rhs : DataType) : option DataType :=
  if (IsNull lhs || IsNumber lhs) && (IsNull rhs || IsNumber rhs)
  then null_or lhs rhs (InferNumberCastTypes lhs rhs) else None.

Definition FDivTypeAccept (lhs rhs : DataType) : option DataType :=
  if number_or_time lhs && (IsNull rhs || IsNumber rhs) then Some kDouble else None.

Definition SDivTypeAccept (lhs rhs : DataType) : option DataType :=
  if (IsNull lhs || IsInteger lhs) && (IsNull rhs || IsInteger rhs)
  then null_or lhs rhs (InferNumberCastTypes lhs rhs) else None.

Definition ModTypeAccept (lhs rhs : DataType) : option DataType :=
  if (IsNull lhs || IsNumber lhs) && (IsNull rhs || IsNumber rhs)
  then null_or lhs rhs (InferNumberCastTypes lhs rhs) else None.

Definition NotTypeAccept (lhs : DataType) : option DataType :=
  if IsNull lhs || IsBaseType lhs then Some kBool else None.

Definition CompareTypeAccept (lhs rhs : DataType) : option DataType :=
  if negb ((IsNull lhs || IsBaseType lhs) && (IsNull rhs || IsBaseType rhs)) then None
  else if IsNull lhs || IsNull rhs then Some kBool
  else if IsNumber lhs && IsNumber rhs then Some kBool
  else if IsString lhs || IsString rhs then Some kBool
  else if is_type lhs rhs then Some kBool
  else None.

Definition LogicalOpTypeAccept (lhs rhs : DataType) : option DataType :=
  if (IsNull lhs || IsBaseType lhs) && (IsNull rhs || IsBaseType rhs) then Some kBool else None.

(** ** Registers *)

Definition GetLlvmType (t : DataType) : option LType :=
  match t with
  | kBool => Some (IntTy 1)
  | kInt16 => Some (IntTy 16)
  | kInt32 => Some (IntTy 32)
  | kInt64 => Some (IntTy 64)
  | kFloat => Some FloatTy
  | kDouble => Some DoubleTy
  | kVarchar => Some StringPtrTy
  | kTimestamp => Some TimestampPtrTy
  | kDate => Some DatePtrTy
  | kNull => None
  end.

Definition GetBaseType (t : LType) : option DataType :=
  match t with
  | TokenTy => Some kNull
  | FloatTy => Some kFloat
  | DoubleTy => Some kDouble
  | IntTy w => if w =? 1 then Some kBool else if w =? 16 then Some kInt16
               else if w =? 32 then Some kInt32 else if w =? 64 then Some kInt64 else None
  | StringPtrTy => Some kVarchar
  | TimestampPtrTy => Some kTimestamp
  | DatePtrTy => Some kDate
  end.

Definition isIntegerTy (t : LType) : bool := match t with IntTy _ => true | _ => false end.
Definition isFloatingPointTy (t : LType) : bool := match t with FloatTy | DoubleTy => true | _ => false end.
Definition IsNumberTy (t : LType) : bool := isIntegerTy t || isFloatingPointTy t.
Definition is_lty (a b : LType) : bool := bool_decide (a = b).

Definition IsSafeCastTy (lhs rhs : LType) : bool :=
  match GetBaseType lhs, GetBaseType rhs with Some l, Some r => IsSafeCast l r | _, _ => false end.
Definition IsIntFloat2PointerCastTy (src dist : LType) : bool := isIntegerTy src && isFloatingPointTy dist.

Definition BinaryOpTypeInfer (accept : DataType -> DataType -> option DataType) (lhs rhs : LType) : option unit :=
  l ← GetBaseType lhs; r ← GetBaseType rhs; accept l r ≫= fun _ => Some tt.
Definition UnaryOpTypeInfer (accept : DataType -> option DataType) (lhs : LType) : option unit :=
  l ← GetBaseType lhs; accept l ≫= fun _ => Some tt.
