(* ===== verification/ExprBuilder.v ===== *)
(** * Code generation for expressions

    Models the builders of [src/codegen] that translate an expression to
    instructions: native values and their null flags, casts, selections,
    time stamps, dates and strings, arithmetic and predicates, and the
    recursion over the expression ([ExprIRBuilder::Build]), together with the
    type inference of [src/node/expr_node.cc]. A builder returns the register
    with its content, so that generating and running the code is one
    evaluation; [None] is a failed status of the builder.

    Calls of compiled code to run-time functions (conversions between strings,
    dates and other types, [src/udf/udf.cc]) are a parameter. The memory of a
    string, time stamp or date is represented by its contents. *)

From Stdlib Require Import SpecFloat.
From stdpp Require Import base numbers option list.
From S2P Require Import Prelude TypeCodec Llvm ExprTypes.

(** The functions compiled code calls by name: [string.<type>],
    [<type>.string], [timestamp.<type>] and [date.<type>]; those that can fail
    also say whether the result is NULL. *)
Record Externals := mkExternals {
  to_string : LType -> Value -> list Z;
  to_number : LType -> list Z -> Value * bool;
  to_timestamp : LType -> Value -> Z * bool;
  to_date : LType -> Value -> Z * bool
}.

Section Builder.
(** The content of an undefined register ([UndefValue]). *)
Context (undef : LType -> Value) (ext : Externals).

(** ** Native values *)

Record NativeValue := mkNV { nv_raw : option LValue; nv_flag : option LValue; nv_type : LType }.

Definition IsConstNull (v : NativeValue) : bool := match nv_raw v with None => true | Some _ => false end.
Definition HasFlag (v : NativeValue) : bool := match nv_flag v with None => false | Some _ => true end.
Definition IsNullable (v : NativeValue) : bool := IsConstNull v || HasFlag v.

Definition Create (raw : LValue) : NativeValue := mkNV (Some raw) None (getType raw).
Definition CreateNull (t : LType) : NativeValue := mkNV None None t.
Definition CreateWithFlag (raw flag : LValue) : NativeValue := mkNV (Some raw) (Some flag) (getType raw).
Definition SetType (t : LType) (v : NativeValue) : NativeValue := mkNV (nv_raw v) (nv_flag v) t.

(** An undefined pointer has no target. *)
Definition undef_value (t : LType) : LValue :=
  mkLV t match t with IntTy _ | FloatTy | DoubleTy => Val (undef t) | TokenTy => Val VToken | _ => Poison end.

Definition GetIsNull (v : NativeValue) : LValue :=
  let is_null := if IsConstNull v then getInt1 true else match nv_flag v with Some f => f | None => getInt1 false end in
  if is_lty (getType is_null) (IntTy 1) then is_null else CreateIntCast is_null (IntTy 1).
Definition GetValue (v : NativeValue) : LValue :=
  match nv_raw v with None => undef_value (nv_type v) | Some r => r end.

(** ** Null flags *)

Definition CheckAnyNull (v : NativeValue) (should_ret_null : option LValue) : option LValue :=
  if IsNullable v then
    Some match should_ret_null with None => GetIsNull v | Some f => CreateOr f (GetIsNull v) end
  else should_ret_null.

Definition with_flag (output : LValue) (flag : option LValue) : NativeValue :=
  match flag with Some f => CreateWithFlag output f | None => Create output end.

Definition SafeNullBinaryExpr (l r : NativeValue) (expr_func : LValue -> LValue -> option LValue)
  : option NativeValue :=
  if IsConstNull l then Some (CreateNull (nv_type r))
  else if IsConstNull r then Some (CreateNull (nv_type l))
  else
    let flag := CheckAnyNull r (CheckAnyNull l None) in
    output ← expr_func (GetValue l) (GetValue r);
    Some (with_flag output flag).

(** ** Selection *)

Definition Select (cond l r : NativeValue) : NativeValue :=
  let l' := if IsConstNull l then SetType (nv_type r) l else l in
  let r' := if IsConstNull r then SetType (nv_type l) r else r in
  let raw_cond := if IsNullable cond then CreateAnd (GetValue cond) (CreateNot (GetIsNull cond)) else GetValue cond in
  let raw_value := CreateSelect raw_cond (GetValue l') (GetValue r') in
  if IsNullable l' || IsNullable r'
  then CreateWithFlag raw_value (CreateSelect raw_cond (GetIsNull l') (GetIsNull r'))
  else Create raw_value.

(** ** Structs *)

(** A load through an undefined pointer is undefined. *)
Definition load (f : Value -> Rt) (a : Rt) : Rt := match a with Val v => f v | _ => UB end.

Definition GetTs (v : LValue) : option LValue :=
  if is_lty (getType v) TimestampPtrTy
  then Some (mkLV (IntTy 64) (load (fun x => match x with VTimestamp n => Val (VInt n) | _ => UB end) (lv_rt v)))
  else None.
Definition GetDate (v : LValue) : option LValue :=
  if is_lty (getType v) DatePtrTy
  then Some (mkLV (IntTy 32) (load (fun x => match x with VDate n => Val (VInt n) | _ => UB end) (lv_rt v)))
  else None.
Definition GetSize (v : LValue) : option LValue :=
  if is_lty (getType v) StringPtrTy
  then Some (mkLV (IntTy 32)
         (load (fun x => match x with VString s => Val (VInt (i32 (Z.of_nat (length s)))) | _ => UB end) (lv_rt v)))
  else None.
Definition NewTimestamp (ts : LValue) : LValue :=
  mkLV TimestampPtrTy (rt_bind (lv_rt ts) (fun x => match x with VInt n => Val (VTimestamp n) | _ => UB end)).
Definition NewDate (days : LValue) : LValue :=
  mkLV DatePtrTy (rt_bind (lv_rt days) (fun x => match x with VInt n => Val (VDate n) | _ => UB end)).

(** ** Casts of numbers *)

Definition SafeCastNumber_scalar (value : LValue) (type : LType) : option LValue :=
  let vt := getType value in
  if is_lty vt type then Some value
  else if isIntegerTy vt && isIntegerTy type then
    Some (if is_lty vt (IntTy 1) then CreateZExt value type else CreateSExt value type)
  else if isFloatingPointTy vt && isFloatingPointTy type then Some (CreateFPExt value type)
  else if is_lty vt (IntTy 1) && isFloatingPointTy type then Some (CreateUIToFP value type)
  else if isIntegerTy vt && isFloatingPointTy type then Some (CreateSIToFP value type)
  else None.

Definition SafeCastNumber (value : LValue) (type : LType) : option LValue :=
  if is_lty (getType value) type then Some value
  else if is_lty (getType value) TimestampPtrTy then ts ← GetTs value; SafeCastNumber_scalar ts type
  else SafeCastNumber_scalar value type.

Definition BoolCast_scalar (value : LValue) : option LValue :=
  match getType value with
  | IntTy w => Some (CreateICmpS CmpNe value (getInt w 0))
  | FloatTy | DoubleTy => Some (CreateFCmp CmpNe value (mkLV (getType value) (Val (VFp (S754_zero false)))))
  | _ => None
  end.
Definition BoolCast (value : LValue) : option LValue :=
  match getType value with
  | TimestampPtrTy => ts ← GetTs value; BoolCast_scalar ts
  | DatePtrTy => d ← GetDate value; BoolCast_scalar d
  | StringPtrTy => s ← GetSize value; BoolCast_scalar s
  | _ => BoolCast_scalar value
  end.

(** No data type is translated to a register of 8 bits, for which the source
    has a case of its own. *)
Definition UnSafeCastNumber_scalar (value : LValue) (type : LType) : option LValue :=
  let vt := getType value in
  if IsSafeCastTy vt type then SafeCastNumber value type
  else if is_lty type (IntTy 1) then BoolCast value
  else if isIntegerTy vt && isIntegerTy type then Some (CreateTrunc value type)
  else if isFloatingPointTy vt && isFloatingPointTy type then Some (CreateFPTrunc value type)
  else if is_lty vt (IntTy 1) && isFloatingPointTy type then Some (CreateUIToFP value type)
  else if isIntegerTy vt && is_lty type FloatTy then Some (CreateSIToFP value FloatTy)
  else if isIntegerTy vt && is_lty type DoubleTy then Some (CreateSIToFP value DoubleTy)
  else if isFloatingPointTy vt && isIntegerTy type then Some (CreateFPToSI value type)
  else None.

Definition UnSafeCastNumber (value : LValue) (type : LType) : option LValue :=
  let vt := getType value in
  if negb (IsSafeCastTy vt type) && negb (is_lty type (IntTy 1)) && is_lty vt TimestampPtrTy && IsNumberTy type
  then ts ← GetTs value; UnSafeCastNumber_scalar ts type
  else UnSafeCastNumber_scalar value type.

(** ** Arithmetic *)

(** The common type of two numbers. *)
Definition InferAndCastedNumberTypes (l r : LValue) : option (LValue * LValue) :=
  let lt := getType l in
  let rt := getType r in
  if negb (IsNumberTy lt && IsNumberTy rt) then None
  else if is_lty lt rt then Some (l, r)
  else if IsSafeCastTy lt rt then l' ← SafeCastNumber l rt; Some (l', r)
  else if IsSafeCastTy rt lt then r' ← SafeCastNumber r lt; Some (l, r')
  else if IsIntFloat2PointerCastTy lt rt then l' ← UnSafeCastNumber l rt; Some (l', r)
  else if IsIntFloat2PointerCastTy rt lt then r' ← UnSafeCastNumber r lt; Some (l, r')
  else None.

Definition InferAndCastIntegerTypes (l r : LValue) : option (LValue * LValue) :=
  let lt := getType l in
  let rt := getType r in
  if negb (isIntegerTy lt && isIntegerTy rt) then None
  else if is_lty lt rt then Some (l, r)
  else if IsSafeCastTy lt rt then l' ← SafeCastNumber l rt; Some (l', r)
  else if IsSafeCastTy rt lt then r' ← SafeCastNumber r lt; Some (l, r')
  else None.

Definition InferAndCastDoubleTypes (l r : LValue) : option (LValue * LValue) :=
  if negb (IsNumberTy (getType l) && IsNumberTy (getType r)) then None
  else
    l' ← (if is_lty (getType l) DoubleTy then Some l else UnSafeCastNumber l DoubleTy);
    r' ← (if is_lty (getType r) DoubleTy then Some r else UnSafeCastNumber r DoubleTy);
    Some (l', r').

(** An operation on numbers of the common type. *)
Definition number_op (iop fop : LValue -> LValue -> LValue) (l r : LValue) : option LValue :=
  '(l', r') ← InferAndCastedNumberTypes l r;
  if isIntegerTy (getType l') then Some (iop l' r')
  else if isFloatingPointTy (getType l') then Some (fop l' r') else None.

Definition add_number := number_op CreateAdd CreateFAdd.
Definition BuildMultiExpr := number_op CreateMul CreateFMul.

Definition TimestampAdd (timestamp duration : LValue) : option LValue :=
  if negb (is_lty (getType timestamp) TimestampPtrTy && isIntegerTy (getType duration)) then None
  else
    casted_right ← UnSafeCastNumber duration (IntTy 64);
    ts ← GetTs timestamp;
    add_ts ← add_number ts casted_right;
    Some (NewTimestamp add_ts).

Definition BuildAddExpr (l r : LValue) : option LValue :=
  if is_lty (getType l) TimestampPtrTy && isIntegerTy (getType r) then TimestampAdd l r
  else if isIntegerTy (getType l) && is_lty (getType r) TimestampPtrTy then TimestampAdd r l
  else if is_lty (getType l) TimestampPtrTy && is_lty (getType r) TimestampPtrTy then
    ts1 ← GetTs l; ts2 ← GetTs r; ts_add ← add_number ts1 ts2; Some (NewTimestamp ts_add)
  else add_number l r.

Definition BuildSubExpr (l r : LValue) : option LValue :=
  if is_lty (getType l) TimestampPtrTy && isIntegerTy (getType r) then
    negative_value ← BuildMultiExpr (getInt 16 (-1)) r; TimestampAdd l negative_value
  else number_op CreateSub CreateFSub l r.

(** With a time stamp on the left the cast fails; the division of the time
    stamp is built, and the failure returned. *)
Definition BuildFDivExpr (l r : LValue) : option LValue :=
  '(l', r') ← InferAndCastDoubleTypes l r; Some (CreateFDiv l' r').

(** A division by zero is replaced by a division by one and its result by
    zero. *)
Definition guard_zero (op : LValue -> LValue -> LValue) (l r : LValue) : option LValue :=
  w ← int_width (getType r);
  let zero := getInt w 0 in
  let is_zero := CreateICmpS CmpEq r zero in
  Some (CreateSelect is_zero zero (op l (CreateSelect is_zero (getInt w 1) r))).

Definition BuildSDivExpr (l r : LValue) : option LValue :=
  if negb (isIntegerTy (getType l) && isIntegerTy (getType r)) then None
  else '(l', r') ← InferAndCastIntegerTypes l r; guard_zero CreateSDiv l' r'.

Definition BuildModExpr (l r : LValue) : option LValue :=
  '(l', r') ← InferAndCastedNumberTypes l r;
  if isIntegerTy (getType l') then guard_zero CreateSRem l' r'
  else if isFloatingPointTy (getType l') then Some (CreateFRem l' r') else None.

Definition bit_op (op : LValue -> LValue -> LValue) (l r : LValue) : option LValue :=
  if isIntegerTy (getType l) && isIntegerTy (getType r) then Some (op l r) else None.
Definition BuildAnd := bit_op CreateAnd.
Definition BuildLShiftLeft := bit_op CreateShl.
Definition BuildLShiftRight := bit_op CreateLShr.

(** The operations on native values. *)
Definition arith_expr (accept : DataType -> DataType -> option DataType) (f : LValue -> LValue -> option LValue)
    (l r : NativeValue) : option NativeValue :=
  _ ← BinaryOpTypeInfer accept (nv_type l) (nv_type r); SafeNullBinaryExpr l r f.

Definition BuildFDiv_native (l r : NativeValue) : option NativeValue :=
  v ← arith_expr FDivTypeAccept BuildFDivExpr l r;
  Some (if IsConstNull v then SetType DoubleTy v else v).

(** ** Predicates *)

(** The call of a run-time function, which reads its argument through a
    pointer unless it is a number. *)
Definition call_with (src : LValue) (f : Value -> Rt) : Rt :=
  if IsNumberTy (getType src) then rt_bind (lv_rt src) f else load f (lv_rt src).

Definition CastFrom_string (src : LValue) : LValue :=
  if is_lty (getType src) StringPtrTy then src
  else mkLV StringPtrTy (call_with src (fun x => Val (VString (to_string ext (getType src) x)))).

(** [StringIRBuilder::Compare] on values that are not NULL. *)
Definition Compare_string (s1 s2 : LValue) : option LValue :=
  if negb (is_lty (getType s1) StringPtrTy && is_lty (getType s2) StringPtrTy) then None
  else
    let call := mkLV (IntTy 32) match lv_rt s1, lv_rt s2 with
      | Val (VString x), Val (VString y) => Val (VInt (lex_compare x y))
      | _, _ => UB
      end in
    Some (GetValue (Select (Create (getInt1 false)) (CreateNull (IntTy 32)) (Create call))).

Definition IsAcceptType (t : LType) : bool := match GetBaseType t with Some _ => true | None => false end.

Definition InferAndCastTypes (l r : LValue) : option (LValue * LValue) :=
  if negb (IsAcceptType (getType l) && IsAcceptType (getType r)) then None
  else if is_lty (getType l) StringPtrTy then Some (l, CastFrom_string r)
  else if is_lty (getType r) StringPtrTy then Some (CastFrom_string l, r)
  else
    l1 ← (if is_lty (getType l) TimestampPtrTy then GetTs l else Some l);
    r1 ← (if is_lty (getType r) TimestampPtrTy then GetTs r else Some r);
    let lt := getType l1 in
    let rt := getType r1 in
    '(l2, r2) ←
      (if is_lty lt rt then Some (l1, r1)
       else if IsSafeCastTy lt rt then l' ← SafeCastNumber l rt; Some (l', r1)
       else if IsSafeCastTy rt lt then r' ← SafeCastNumber r lt; Some (l1, r')
       else if IsIntFloat2PointerCastTy lt rt then l' ← UnSafeCastNumber l rt; Some (l', r1)
       else if IsIntFloat2PointerCastTy rt lt then r' ← UnSafeCastNumber r lt; Some (l1, r')
       else None);
    if is_lty (getType l2) DatePtrTy && is_lty (getType r2) DatePtrTy
    then l3 ← GetDate l2; r3 ← GetDate r2; Some (l3, r3) else Some (l2, r2).

(** A comparison of operands of one scalar type: equality of integers of any
    width is the same instruction, their order is unsigned for booleans. *)
Definition compare_scalar (op : CmpOp) (l r : LValue) : option LValue :=
  if isIntegerTy (getType l) then
    Some (match op with
          | CmpEq | CmpNe => CreateICmpS op l r
          | _ => if is_lty (getType l) (IntTy 1) then CreateICmpU op l r else CreateICmpS op l r
          end)
  else if isFloatingPointTy (getType l) then Some (CreateFCmp op l r) else None.

Definition build_compare (op : CmpOp) (l r : LValue) : option LValue :=
  '(l', r') ← InferAndCastTypes l r;
  if is_lty (getType l') StringPtrTy && is_lty (getType r') StringPtrTy
  then c ← Compare_string l' r'; compare_scalar op c (getInt 32 0)
  else compare_scalar op l' r'.

Definition BuildEqExpr := build_compare CmpEq.
Definition BuildNeqExpr := build_compare CmpNe.
Definition BuildGtExpr := build_compare CmpGt.
Definition BuildGeExpr := build_compare CmpGe.
Definition BuildLtExpr := build_compare CmpLt.
Definition BuildLeExpr := build_compare CmpLe.

Definition compare_expr (f : LValue -> LValue -> option LValue) (l r : NativeValue) : option NativeValue :=
  _ ← BinaryOpTypeInfer CompareTypeAccept (nv_type l) (nv_type r);
  v ← SafeNullBinaryExpr l r f;
  Some (if IsConstNull v then SetType (IntTy 1) v else v).

Definition InferAndCastBoolTypes (v : LValue) : option LValue :=
  if negb (IsAcceptType (getType v)) then None
  else if is_lty (getType v) (IntTy 1) then Some v else BoolCast v.

(** The three logical connectives, given the value and the null flag. *)
Definition logical_expr (value null : LValue -> LValue -> LValue -> LValue -> LValue) (l r : NativeValue)
  : option NativeValue :=
  _ ← BinaryOpTypeInfer LogicalOpTypeAccept (nv_type l) (nv_type r);
  x ← InferAndCastBoolTypes (GetValue l);
  y ← InferAndCastBoolTypes (GetValue r);
  let xn := GetIsNull l in
  let yn := GetIsNull r in
  if is_lty (getType x) (IntTy 1) && is_lty (getType y) (IntTy 1)
  then Some (CreateWithFlag (value x xn y yn) (null x xn y yn)) else None.

Definition BuildAndExpr := logical_expr
  (fun x xn y yn => CreateAnd x y)
  (fun x xn y yn => CreateOr (CreateAnd xn (CreateOr yn y)) (CreateAnd x yn)).
Definition BuildOrExpr := logical_expr
  (fun x xn y yn => CreateOr x y)
  (fun x xn y yn => CreateOr (CreateAnd xn (CreateOr yn (CreateNot y))) (CreateAnd (CreateNot x) yn)).
Definition BuildXorExpr := logical_expr
  (fun x xn y yn => CreateXor x y) (fun x xn y yn => CreateOr xn yn).

Definition BuildNotExpr (input : NativeValue) : option NativeValue :=
  _ ← UnaryOpTypeInfer NotTypeAccept (nv_type input);
  x ← InferAndCastBoolTypes (GetValue input);
  if is_lty (getType x) (IntTy 1) then Some (CreateWithFlag (CreateNot x) (GetIsNull input)) else None.

Definition BuildIsNullExpr (input : NativeValue) : NativeValue := Create (GetIsNull input).

(** ** Casts *)

(** The last branches of [SafeCast] and [UnSafeCast]: numbers. *)
Definition cast_number (cast : LValue -> LType -> option LValue) (v : NativeValue) (t : LType) : option NativeValue :=
  output ← cast (GetValue v) t;
  Some (if IsNullable v then CreateWithFlag output (GetIsNull v) else Create output).

(** The null flag of a conversion that can fail. *)
Definition fallible (t : LType) (wrap : Z -> Value) (f : Value -> Z * bool) (src : NativeValue) : NativeValue :=
  let dist := mkLV t (call_with (GetValue src) (fun v => Val (wrap (f v).1))) in
  let is_null := mkLV (IntTy 1) (call_with (GetValue src) (fun v => Val (VInt (bool_int (f v).2)))) in
  with_flag dist (CheckAnyNull src (Some is_null)).

Definition CastFrom_date (src : NativeValue) : option NativeValue :=
  if is_lty (nv_type src) DatePtrTy then Some src
  else if is_lty (nv_type src) TimestampPtrTy || is_lty (nv_type src) StringPtrTy
  then Some (fallible DatePtrTy VDate (to_date ext (nv_type src)) src)
  else None.

Definition CastFrom_string_native (src : NativeValue) : NativeValue :=
  with_flag (CastFrom_string (GetValue src)) (CheckAnyNull src None).

Definition CastToNumber (src : NativeValue) (t : LType) : option NativeValue :=
  if IsNumberTy t then
    let call := fun v => match v with VString s => to_number ext t s | _ => (VToken, true) end in
    let dist := mkLV t (call_with (GetValue src) (fun v => Val (call v).1)) in
    let is_null := mkLV (IntTy 1) (call_with (GetValue src) (fun v => Val (VInt (bool_int (call v).2)))) in
    Some (with_flag dist (CheckAnyNull src (Some is_null)))
  else None.

(** [SafeCast] and [UnSafeCast], given the conversion to time stamps. *)
Definition SafeCast_with (to_ts : NativeValue -> option NativeValue) (v : NativeValue) (t : LType)
  : option NativeValue :=
  if negb (IsSafeCastTy (nv_type v) t) then None
  else if IsConstNull v then Some (CreateNull t)
  else if is_lty t TimestampPtrTy then to_ts v
  else if is_lty t DatePtrTy then CastFrom_date v
  else if is_lty t StringPtrTy then Some (CastFrom_string_native v)
  else if IsNumberTy t then cast_number SafeCastNumber v t
  else None.

Definition UnSafeCast_with (to_ts : NativeValue -> option NativeValue) (v : NativeValue) (t : LType)
  : option NativeValue :=
  if IsConstNull v then Some (CreateNull t)
  else if is_lty t TimestampPtrTy then to_ts v
  else if is_lty t DatePtrTy then CastFrom_date v
  else if is_lty t StringPtrTy then Some (CastFrom_string_native v)
  else if IsNumberTy t && is_lty (nv_type v) StringPtrTy then CastToNumber v t
  else if IsNumberTy t && is_lty (nv_type v) DatePtrTy then Some (CreateNull t)
  else cast_number UnSafeCastNumber v t.

Definition Cast_with (to_ts : NativeValue -> option NativeValue) (v : NativeValue) (t : LType) : option NativeValue :=
  _ ← BinaryOpTypeInfer IsCastAccept (nv_type v) t;
  if IsSafeCastTy (nv_type v) t then SafeCast_with to_ts v t else UnSafeCast_with to_ts v t.

(** The conversion of a number casts to a 64-bit integer, which needs no time
    stamp. A constant NULL has been handled by the callers. *)
Definition CastFrom_timestamp (src : NativeValue) : option NativeValue :=
  if is_lty (nv_type src) TimestampPtrTy then Some src
  else if IsNumberTy (nv_type src) then
    ts ← Cast_with (fun _ => None) src (IntTy 64);
    cond ← compare_expr BuildGeExpr ts (Create (getInt 64 0));
    Some (Select cond (Create (NewTimestamp (GetValue ts))) (CreateNull TimestampPtrTy))
  else if is_lty (nv_type src) StringPtrTy || is_lty (nv_type src) DatePtrTy
  then Some (fallible TimestampPtrTy VTimestamp (to_timestamp ext (nv_type src)) src)
  else None.

Definition SafeCast := SafeCast_with CastFrom_timestamp.
Definition UnSafeCast := UnSafeCast_with CastFrom_timestamp.

(** ** Parts of time stamps and dates *)

Definition ts_part (v : LValue) (rest unit : Z) : option LValue :=
  ts ← (if is_lty (getType v) TimestampPtrTy then GetTs v else Some v);
  if negb (isIntegerTy (getType ts)) then None
  else
    x ← BuildModExpr ts (getInt 64 rest);
    y ← BuildSDivExpr x (getInt 64 unit);
    UnSafeCastNumber y (IntTy 32).
Definition Minute (v : LValue) : option LValue := ts_part v (1000 * 60 * 60) (1000 * 60).
Definition Second (v : LValue) : option LValue := ts_part v (1000 * 60) 1000.
Definition TIME_ZONE : Z := 8.
Definition Hour (v : LValue) : option LValue :=
  ts ← (if is_lty (getType v) TimestampPtrTy then GetTs v else Some v);
  if negb (isIntegerTy (getType ts)) then None
  else
    day_ms ← BuildAddExpr ts (getInt 64 (1000 * 60 * 60 * TIME_ZONE));
    x ← BuildModExpr day_ms (getInt 64 (1000 * 60 * 60 * 24));
    y ← BuildSDivExpr x (getInt 64 (1000 * 60 * 60));
    UnSafeCastNumber y (IntTy 32).

Definition Day (date : LValue) : option LValue := code ← GetDate date; BuildAnd code (getInt 32 255).
Definition Month (date : LValue) : option LValue :=
  code ← GetDate date;
  x ← BuildLShiftRight code (getInt 32 8);
  y ← BuildAnd x (getInt 32 255);
  BuildAddExpr y (getInt 32 1).
Definition Year (date : LValue) : option LValue :=
  code ← GetDate date;
  x ← BuildLShiftRight code (getInt 32 16);
  BuildAddExpr x (getInt 32 1900).
End Builder.
