(* ===== verification/Expr.v ===== *)
(** * Expressions

    Models the expression nodes, their type inference ([InferAttr] of
    [src/node/expr_node.cc]) and the recursion of code generation
    ([ExprIRBuilder::Build] of [src/codegen/expr_ir_builder.cc]). A column or
    parameter is a variable whose native value the row decoder provides. Calls
    of functions, windows and tuples are left out, and so is the cache of
    values that are already built, which returns the same value again. *)

From stdpp Require Import base numbers option list.
From S2P Require Import Prelude Llvm ExprTypes ExprBuilder.

Inductive UnaryOp := uNot | uMinus | uBracket | uIsNull | uNonNull.
Inductive BinaryOp :=
| kFnOpAdd | kFnOpMinus | kFnOpMulti | kFnOpDiv | kFnOpFDiv | kFnOpMod
| kFnOpAnd | kFnOpOr | kFnOpXor
| kFnOpEq | kFnOpNeq | kFnOpLt | kFnOpLe | kFnOpGt | kFnOpGe.

Inductive expr :=
| ConstNode (t : DataType) (v : Value)
| VarNode (x : nat)
| UnaryExpr (op : UnaryOp) (e : expr)
| BinaryExpr (op : BinaryOp) (l r : expr)
| CastExpr (t : DataType) (e : expr)
| CondExpr (c l r : expr)
| CaseWhenExpr (cases : whens)
with whens :=
| ElseExpr (e : expr)
| WhenExpr (c t : expr) (rest : whens).

Scheme expr_mind := Induction for expr Sort Prop
  with whens_mind := Induction for whens Sort Prop.
Combined Scheme expr_whens_ind from expr_mind, whens_mind.

Definition IsNullPrimary (e : expr) : bool := match e with ConstNode t _ => is_type t kNull | _ => false end.

Section Infer.
(** The types of the variables. *)
Context (G : nat -> option DataType).

Definition infer_binary (op : BinaryOp) : DataType -> DataType -> option DataType :=
  match op with
  | kFnOpAdd => AddTypeAccept
  | kFnOpMinus => SubTypeAccept
  | kFnOpMulti => MultiTypeAccept
  | kFnOpMod => ModTypeAccept
  | kFnOpDiv => SDivTypeAccept
  | kFnOpFDiv => FDivTypeAccept
  | kFnOpEq | kFnOpNeq | kFnOpLt | kFnOpLe | kFnOpGt | kFnOpGe => CompareTypeAccept
  | kFnOpOr | kFnOpXor | kFnOpAnd => LogicalOpTypeAccept
  end.

Definition infer_unary (op : UnaryOp) (t : DataType) : option DataType :=
  match op with
  | uNot => NotTypeAccept t
  | uMinus => if IsNumber t then Some t else None
  | uBracket | uNonNull => Some t
  | uIsNull => Some kBool
  end.

(** The types of the branches of a CASE: the type of the first THEN is the
    type of the expression; later ones are only compared when neither is
    NULL. *)
Definition then_accepts (type expr_type : DataType) : bool :=
  is_type expr_type kNull || is_type type kNull || is_type type expr_type.

Fixpoint infer (e : expr) : option DataType :=
  match e with
  | ConstNode t _ => Some t
  | VarNode x => G x
  | UnaryExpr op e1 => t ← infer e1; infer_unary op t
  | BinaryExpr op l r => tl ← infer l; tr ← infer r; infer_binary op tl tr
  | CastExpr t e1 => _ ← infer e1; Some t
  | CondExpr c l r =>
      tc ← infer c; tl ← infer l; tr ← infer r;
      if is_type tc kBool && is_type tl tr then Some tl else None
  | CaseWhenExpr w =>
      match w with
      | ElseExpr _ => None
      | WhenExpr c t rest => _ ← infer c; type ← infer t; infer_rest type rest
      end
  end
with infer_rest (type : DataType) (w : whens) : option DataType :=
  match w with
  | ElseExpr e => te ← infer e; if IsNullPrimary e || is_type type te then Some type else None
  | WhenExpr c t rest =>
      _ ← infer c; tt ← infer t; if then_accepts type tt then infer_rest type rest else None
  end.

Section Build.
Context (undef : LType -> Value) (ext : Externals).
(** The native values of the variables. *)
Context (env : nat -> option NativeValue).

Definition BuildConstExpr (t : DataType) (v : Value) : option NativeValue :=
  match GetLlvmType t with
  | None => Some (CreateNull TokenTy)
  | Some lt => Some (Create (mkLV lt (Val v)))
  end.

Definition BuildBinary (op : BinaryOp) (l r : NativeValue) : option NativeValue :=
  match op with
  | kFnOpAdd => arith_expr undef AddTypeAccept BuildAddExpr l r
  | kFnOpMulti => arith_expr undef MultiTypeAccept BuildMultiExpr l r
  | kFnOpFDiv => BuildFDiv_native undef l r
  | kFnOpDiv => arith_expr undef SDivTypeAccept BuildSDivExpr l r
  | kFnOpMinus => arith_expr undef SubTypeAccept BuildSubExpr l r
  | kFnOpMod => arith_expr undef ModTypeAccept BuildModExpr l r
  | kFnOpAnd => BuildAndExpr undef l r
  | kFnOpOr => BuildOrExpr undef l r
  | kFnOpXor => BuildXorExpr undef l r
  | kFnOpEq => compare_expr undef (BuildEqExpr undef ext) l r
  | kFnOpNeq => compare_expr undef (BuildNeqExpr undef ext) l r
  | kFnOpGt => compare_expr undef (BuildGtExpr undef ext) l r
  | kFnOpGe => compare_expr undef (BuildGeExpr undef ext) l r
  | kFnOpLt => compare_expr undef (BuildLtExpr undef ext) l r
  | kFnOpLe => compare_expr undef (BuildLeExpr undef ext) l r
  end.

(** [type] is the inferred type of the operation. *)
Definition BuildUnary (op : UnaryOp) (type : option DataType) (v : NativeValue) : option NativeValue :=
  match op with
  | uNot => BuildNotExpr undef v
  | uMinus =>
      if bool_decide (type = Some kBool) then Some v
      else arith_expr undef SubTypeAccept BuildSubExpr (Create (getInt 16 0)) v
  | uBracket => Some v
  | uIsNull => Some (BuildIsNullExpr v)
  | uNonNull => Some (Create (GetValue undef v))
  end.

Definition BuildCast (t : DataType) (v : NativeValue) : option NativeValue :=
  cast_type ← GetLlvmType t;
  if IsSafeCastTy (nv_type v) cast_type then SafeCast undef ext v cast_type else UnSafeCast undef ext v cast_type.

Fixpoint Build (e : expr) : option NativeValue :=
  match e with
  | ConstNode t v => BuildConstExpr t v
  | VarNode x => env x
  | UnaryExpr op e1 => v ← Build e1; BuildUnary op (infer e) v
  | BinaryExpr op l r => vl ← Build l; vr ← Build r; BuildBinary op vl vr
  | CastExpr t e1 => v ← Build e1; BuildCast t v
  | CondExpr c l r => vc ← Build c; vl ← Build l; vr ← Build r; Some (Select undef vc vl vr)
  | CaseWhenExpr w => match w with ElseExpr _ => None | _ => BuildCase w end
  end
with BuildCase (w : whens) : option NativeValue :=
  match w with
  | ElseExpr e => Build e
  | WhenExpr c t rest => vc ← Build c; vt ← Build t; vr ← BuildCase rest; Some (Select undef vc vt vr)
  end.
End Build.
End Infer.
