(* ===== verification/ExprProof.v ===== *)
(** * Compiled expressions compute what their types and SQL say

    Type soundness of code generation, its agreement with the acceptance
    rules, exact integer arithmetic and three-valued logic, and the cases
    where the two passes disagree. *)

From Stdlib Require Import SpecFloat.
From stdpp Require Import base numbers option list.
From S2P Require Import Prelude Llvm ExprTypes ExprBuilder Expr.

(** ** Evaluation of closed type tests *)

Ltac eval_types :=
  repeat match goal with
  | H : context [is_lty ?a ?b] |- _ => let r := eval vm_compute in (is_lty a b) in
      match r with true => idtac | false => idtac end; change (is_lty a b) with r in H
  | |- context [is_lty ?a ?b] => let r := eval vm_compute in (is_lty a b) in
      match r with true => idtac | false => idtac end; change (is_lty a b) with r
  | H : context [IsSafeCastTy ?a ?b] |- _ => let r := eval vm_compute in (IsSafeCastTy a b) in
      match r with true => idtac | false => idtac end; change (IsSafeCastTy a b) with r in H
  end.

(** ** Types of registers *)

Definition nv_ok (v : NativeValue) : Prop :=
  (forall r, nv_raw v = Some r -> getType r = nv_type v) /\
  (forall f, nv_flag v = Some f -> getType f = IntTy 1 \/ getType f = IntTy 8).

Definition has_type (v : NativeValue) (t : DataType) : Prop :=
  nv_ok v /\ (IsConstNull v = true \/ GetLlvmType t = Some (nv_type v)).

Lemma base_of_llvm t lt : GetLlvmType t = Some lt -> GetBaseType lt = Some t.
Proof. by destruct t; intros [= <-]. Qed.

Lemma SafeCastNumber_type v t v' : SafeCastNumber v t = Some v' -> getType v' = t.
Proof.
  assert (forall v v', SafeCastNumber_scalar v t = Some v' -> getType v' = t) as Hs.
  { intros u u'. unfold SafeCastNumber_scalar. intros H. destruct (is_lty (getType u) t) eqn:E.
    - injection H as <-. by apply bool_decide_eq_true in E.
    - by repeat (case_match; simplify_eq). }
  unfold SafeCastNumber. destruct (is_lty (getType v) t) eqn:E.
  - intros [= <-]. by apply bool_decide_eq_true in E.
  - destruct (is_lty (getType v) TimestampPtrTy); [|apply Hs].
    intros (ts & _ & H)%bind_Some. by apply Hs in H.
Qed.

Lemma BoolCast_type v v' : BoolCast v = Some v' -> getType v' = IntTy 1.
Proof.
  assert (forall v v', BoolCast_scalar v = Some v' -> getType v' = IntTy 1) as Hs.
  { intros u u'. unfold BoolCast_scalar. intros H. by repeat (case_match; simplify_eq). }
  unfold BoolCast. destruct (getType v); intros H; try (by apply Hs in H);
    apply bind_Some in H as (x & _ & H); by apply Hs in H.
Qed.

Lemma UnSafeCastNumber_type v t v' : UnSafeCastNumber v t = Some v' -> getType v' = t.
Proof.
  assert (forall v v', UnSafeCastNumber_scalar v t = Some v' -> getType v' = t) as Hs.
  { intros u u'. unfold UnSafeCastNumber_scalar. destruct (IsSafeCastTy (getType u) t); [apply SafeCastNumber_type|].
    destruct (is_lty t (IntTy 1)) eqn:E; [apply bool_decide_eq_true in E as ->; apply BoolCast_type|].
    intros H. repeat (case_match; simplify_eq); try done;
      match goal with H : _ && is_lty t _ = true |- _ => apply andb_true_iff in H as [_ H]; by apply bool_decide_eq_true in H end. }
  unfold UnSafeCastNumber. destruct (_ && _); [|apply Hs]. intros (ts & _ & H)%bind_Some. by apply Hs in H.
Qed.

Lemma base_inv lt t :
  GetBaseType lt = Some t -> lt = match GetLlvmType t with Some x => x | None => TokenTy end.
Proof.
  destruct lt as [|w| | | | |]; cbn; intros H; simplify_eq; try done.
  destruct (Z.eqb_spec w 1); [by simplify_eq|]. destruct (Z.eqb_spec w 16); [by simplify_eq|].
  destruct (Z.eqb_spec w 32); [by simplify_eq|]. destruct (Z.eqb_spec w 64); [by simplify_eq|done].
Qed.

(** The operands of a numeric operation get the inferred type. *)
Lemma number_types l r l' r' tl tr t :
  GetBaseType (getType l) = Some tl -> GetBaseType (getType r) = Some tr ->
  InferAndCastedNumberTypes l r = Some (l', r') -> InferNumberCastTypes tl tr = Some t ->
  GetLlvmType t = Some (getType l') /\ getType r' = getType l'.
Proof.
  intros Hl%base_inv Hr%base_inv H Ht. unfold InferAndCastedNumberTypes in H. rewrite Hl, Hr in H.
  destruct tl, tr; vm_compute in Ht; simplify_eq; cbn [GetLlvmType] in *; eval_types; cbn in H;
    simplify_eq; rewrite ?Hl, ?Hr; try done;
    apply bind_Some in H as (x & Hx & [= <- <-]);
    first [apply SafeCastNumber_type in Hx|apply UnSafeCastNumber_type in Hx]; rewrite Hx, ?Hl, ?Hr; done.
Qed.

(** Operation [f] on registers returns the type that [accept] says. *)
Definition op_typed (accept : DataType -> DataType -> option DataType) (f : LValue -> LValue -> option LValue) : Prop :=
  forall l r v tl tr t, GetBaseType (getType l) = Some tl -> GetBaseType (getType r) = Some tr ->
    IsNull tl = false -> IsNull tr = false -> accept tl tr = Some t -> f l r = Some v ->
    GetLlvmType t = Some (getType v).

Lemma number_op_type iop fop l r v tl tr t :
  (forall a b, getType (iop a b) = getType a) -> (forall a b, getType (fop a b) = getType a) ->
  GetBaseType (getType l) = Some tl -> GetBaseType (getType r) = Some tr ->
  number_op iop fop l r = Some v -> InferNumberCastTypes tl tr = Some t -> GetLlvmType t = Some (getType v).
Proof.
  intros Hi Hf Hl Hr ([l' r'] & E & H)%bind_Some Ht.
  destruct (number_types _ _ _ _ _ _ _ Hl Hr E Ht) as [Hl' _].
  repeat case_match; simplify_eq; by rewrite ?Hi, ?Hf.
Qed.

Lemma TimestampAdd_type a b v : TimestampAdd a b = Some v -> getType v = TimestampPtrTy.
Proof.
  unfold TimestampAdd. destruct (negb _); [done|].
  intros (? & _ & (? & _ & (? & _ & [= <-])%bind_Some)%bind_Some)%bind_Some. done.
Qed.

Lemma add_typed : op_typed AddTypeAccept BuildAddExpr.
Proof.
  intros l r v tl tr t Hl Hr Nl Nr Ht H. unfold BuildAddExpr in H.
  pose proof (base_inv _ _ Hl) as El. pose proof (base_inv _ _ Hr) as Er. rewrite El, Er in H.
  destruct tl, tr; vm_compute in Nl, Nr, Ht; simplify_eq; cbn [GetLlvmType] in El, Er, H; eval_types; cbn [andb isIntegerTy] in H;
    first [ apply TimestampAdd_type in H; rewrite H; done
          | apply bind_Some in H as (? & _ & (? & _ & (? & _ & [= <-])%bind_Some)%bind_Some); done
          | eapply number_op_type; [| |exact Hl|exact Hr|exact H|reflexivity]; done ].
Qed.

Lemma sub_typed : op_typed SubTypeAccept BuildSubExpr.
Proof.
  intros l r v tl tr t Hl Hr Nl Nr Ht H. unfold BuildSubExpr in H.
  pose proof (base_inv _ _ Hl) as El. pose proof (base_inv _ _ Hr) as Er. rewrite El, Er in H.
  destruct tl, tr; vm_compute in Nl, Nr, Ht; simplify_eq; cbn [GetLlvmType] in El, Er, H; eval_types; cbn [andb isIntegerTy] in H;
    first [ apply bind_Some in H as (? & _ & H); apply TimestampAdd_type in H; rewrite H; done
          | eapply number_op_type; [| |exact Hl|exact Hr|exact H|reflexivity]; done
          | unfold number_op, InferAndCastedNumberTypes in H; rewrite El in H; done ].
Qed.

Lemma null_or_not_null tl tr k t : IsNull tl = false -> IsNull tr = false -> null_or tl tr k = Some t -> k = Some t.
Proof. unfold null_or. by intros -> ->. Qed.

Lemma multi_typed : op_typed MultiTypeAccept BuildMultiExpr.
Proof.
  intros l r v tl tr t Hl Hr Nl Nr Ht H. unfold MultiTypeAccept in Ht. destruct (_ && _); [|done].
  apply null_or_not_null in Ht; [|done..]. eapply number_op_type; [| |exact Hl|exact Hr|exact H|exact Ht]; done.
Qed.

Lemma guard_zero_type op l r v : guard_zero op l r = Some v -> getType v = getType r.
Proof.
  intros (w & Hw & [= <-])%bind_Some. cbn. destruct (getType r); cbn in Hw; by simplify_eq.
Qed.

Lemma mod_typed : op_typed ModTypeAccept BuildModExpr.
Proof.
  intros l r v tl tr t Hl Hr Nl Nr Ht ([l' r'] & E & H)%bind_Some. unfold ModTypeAccept in Ht.
  destruct (_ && _) in Ht; [|done]. apply null_or_not_null in Ht; [|done..].
  destruct (number_types _ _ _ _ _ _ _ Hl Hr E Ht) as [Hl' Hr'].
  destruct (isIntegerTy _); [apply guard_zero_type in H; by rewrite H, Hr'|].
  destruct (isFloatingPointTy _); by simplify_eq.
Qed.

Lemma sdiv_typed : op_typed SDivTypeAccept BuildSDivExpr.
Proof.
  intros l r v tl tr t Hl Hr Nl Nr Ht H. unfold BuildSDivExpr in H. destruct (negb _) eqn:Ei; [done|].
  apply bind_Some in H as ([l' r'] & E & H). unfold SDivTypeAccept in Ht.
  destruct (_ && _) in Ht; [|done]. apply null_or_not_null in Ht; [|done..].
  apply negb_false_iff, andb_true_iff in Ei as [El Er].
  assert (InferAndCastedNumberTypes l r = Some (l', r')) as E'.
  { unfold InferAndCastIntegerTypes in E. unfold InferAndCastedNumberTypes, IsNumberTy. rewrite El, Er in *.
    cbn [negb andb orb] in *. repeat (case_match; try done). }
  destruct (number_types _ _ _ _ _ _ _ Hl Hr E' Ht) as [Hl' Hr'].
  apply guard_zero_type in H. by rewrite H, Hr'.
Qed.

Lemma fdiv_typed : op_typed FDivTypeAccept BuildFDivExpr.
Proof.
  intros l r v tl tr t Hl Hr Nl Nr Ht ([l' r'] & E & [= <-])%bind_Some. unfold FDivTypeAccept in Ht.
  case_match; simplify_eq. cbn. f_equal. unfold InferAndCastDoubleTypes in E. destruct (negb _); [done|].
  apply bind_Some in E as (a & Ea & (b & _ & [= <- <-])%bind_Some).
  destruct (is_lty (getType l) DoubleTy) eqn:Ed.
  - simplify_eq. by apply bool_decide_eq_true in Ed.
  - by apply UnSafeCastNumber_type in Ea.
Qed.

(** ** Type soundness *)

Create HintDb nv.

Section Sound.
Context (undef : LType -> Value) (ext : Externals).

Lemma GetIsNull_type v : nv_ok v -> getType (GetIsNull v) = IntTy 1.
Proof.
  intros [_ Hf]. unfold GetIsNull. destruct (IsConstNull v); [done|]. destruct (nv_flag v) as [f|]; [|done].
  unfold is_lty, CreateIntCast. destruct (Hf f eq_refl) as [E|E]; rewrite E; [by rewrite bool_decide_true|].
  by rewrite bool_decide_false.
Qed.

Lemma GetValue_type v : nv_ok v -> getType (GetValue undef v) = nv_type v.
Proof. intros [Hr _]. unfold GetValue. destruct (nv_raw v); [by apply Hr|done]. Qed.

Lemma CheckAnyNull_type v f : nv_ok v -> (forall x, f = Some x -> getType x = IntTy 1) ->
  forall x, CheckAnyNull v f = Some x -> getType x = IntTy 1.
Proof.
  intros Hv Hf x. unfold CheckAnyNull. destruct (IsNullable v); [|apply Hf]. intros [= <-].
  destruct f as [f|]; [exact (Hf f eq_refl)|by apply GetIsNull_type].
Qed.

Lemma with_flag_ok x f : (forall y, f = Some y -> getType y = IntTy 1) -> nv_ok (with_flag x f).
Proof. destruct f as [f|]; intros H; split; cbn; intros; simplify_eq; try done. left. by apply H. Qed.

Lemma with_flag_type x f : nv_type (with_flag x f) = getType x.
Proof. by destruct f. Qed.

Lemma with_flag_not_null x f : IsConstNull (with_flag x f) = false.
Proof. by destruct f. Qed.

Lemma CreateNull_ok t : nv_ok (CreateNull t).
Proof. by split. Qed.
Lemma Create_ok x : nv_ok (Create x).
Proof. split; cbn; intros; by simplify_eq. Qed.
Lemma CreateWithFlag_ok x f : getType f = IntTy 1 -> nv_ok (CreateWithFlag x f).
Proof. intros Hf. split; cbn; intros; simplify_eq; [done|by left]. Qed.
Lemma SetType_ok t v : IsConstNull v = true -> nv_ok v -> nv_ok (SetType t v).
Proof. intros Hn [_ Hf]. split; [|done]. cbn. unfold IsConstNull in Hn. by destruct (nv_raw v). Qed.

#[local] Hint Resolve GetIsNull_type GetValue_type CreateNull_ok Create_ok CreateWithFlag_ok : nv.

(** The two outcomes of an operation on nullable values. *)
Lemma SafeNull_cases l r f v :
  nv_ok l -> nv_ok r -> SafeNullBinaryExpr undef l r f = Some v ->
  nv_ok v /\ (IsConstNull v = true \/
    IsConstNull l = false /\ IsConstNull r = false /\
    exists x, f (GetValue undef l) (GetValue undef r) = Some x /\ nv_type v = getType x).
Proof.
  intros Hl Hr. unfold SafeNullBinaryExpr.
  destruct (IsConstNull l) eqn:El; [intros [= <-]; auto with nv|].
  destruct (IsConstNull r) eqn:Er; [intros [= <-]; auto with nv|].
  intros (x & Hx & [= <-])%bind_Some. split.
  - apply with_flag_ok. apply CheckAnyNull_type; [done|]. by apply CheckAnyNull_type.
  - right. split_and!; [done|done|]. exists x. by rewrite with_flag_type.
Qed.

Lemma not_null_type v t : has_type v t -> IsConstNull v = false ->
  GetBaseType (getType (GetValue undef v)) = Some t /\ IsNull t = false.
Proof.
  intros [Hok [Hn|Ht]] Hc; [congruence|]. rewrite GetValue_type by done.
  split; [by apply base_of_llvm|by destruct t].
Qed.

Lemma arith_expr_typed accept f l r tl tr t v :
  op_typed accept f -> has_type l tl -> has_type r tr -> accept tl tr = Some t ->
  arith_expr undef accept f l r = Some v -> has_type v t.
Proof.
  intros Hop Hl Hr Ht ([] & _ & H)%bind_Some.
  destruct (SafeNull_cases l r f v (proj1 Hl) (proj1 Hr) H) as [Hok [Hc|(Nl & Nr & x & Hx & E)]].
  - by split; [|left].
  - split; [done|]. right. rewrite E. destruct (not_null_type l tl Hl Nl) as [Bl Zl].
    destruct (not_null_type r tr Hr Nr) as [Br Zr]. exact (Hop _ _ _ _ _ _ Bl Br Zl Zr Ht Hx).
Qed.

Lemma compare_scalar_type op l r v : compare_scalar op l r = Some v -> getType v = IntTy 1.
Proof. unfold compare_scalar. intros H. by repeat (case_match; simplify_eq). Qed.

Lemma build_compare_type op l r v : build_compare undef ext op l r = Some v -> getType v = IntTy 1.
Proof.
  intros ([l' r'] & _ & H)%bind_Some. destruct (_ && _).
  - apply bind_Some in H as (c & _ & H). by apply compare_scalar_type in H.
  - by apply compare_scalar_type in H.
Qed.

Lemma compare_expr_typed op l r v :
  nv_ok l -> nv_ok r -> compare_expr undef (build_compare undef ext op) l r = Some v -> has_type v kBool.
Proof.
  intros Hl Hr ([] & _ & (u & Hu & [= <-])%bind_Some)%bind_Some.
  destruct (SafeNull_cases l r _ u Hl Hr Hu) as [Hok Hc]. destruct (IsConstNull u) eqn:En.
  - split; [by apply SetType_ok|]. by right.
  - destruct Hc as [?|(_ & _ & x & Hx & E)]; [congruence|]. split; [done|]. right. rewrite E.
    by apply build_compare_type in Hx as ->.
Qed.

Lemma logical_expr_typed value null l r v :
  (forall x xn y yn, getType (value x xn y yn) = getType x) ->
  (forall x xn y yn, getType (null x xn y yn) = getType xn) ->
  nv_ok l -> nv_ok r -> logical_expr undef value null l r = Some v -> has_type v kBool.
Proof.
  intros Hv Hn Hl Hr ([] & _ & (x & _ & (y & _ & H)%bind_Some)%bind_Some)%bind_Some.
  destruct (_ && _) eqn:E; [|done]. injection H as <-.
  apply andb_true_iff in E as [E _]. apply bool_decide_eq_true in E.
  split; [apply CreateWithFlag_ok; rewrite Hn; by apply GetIsNull_type|]. right. cbn. by rewrite Hv, E.
Qed.

Lemma Select_ok c l r :
  nv_ok l -> nv_ok r -> nv_ok (Select undef c l r) /\ IsConstNull (Select undef c l r) = false /\
  nv_type (Select undef c l r) = if IsConstNull l then nv_type r else nv_type l.
Proof.
  intros Hl Hr. unfold Select.
  assert (forall u t, nv_ok u -> nv_ok (if IsConstNull u then SetType t u else u)) as Hs.
  { intros u t Hu. destruct (IsConstNull u) eqn:E; [by apply SetType_ok|done]. }
  pose proof (Hs l (nv_type r) Hl) as Hl'. set (l' := if IsConstNull l then _ else l) in *.
  assert (nv_type l' = if IsConstNull l then nv_type r else nv_type l) as <- by (unfold l'; by destruct (IsConstNull l)).
  set (r' := if IsConstNull r then _ else r). set (c' := if IsNullable c then _ else _).
  destruct (_ || _); cbn.
  - split_and!; [|done|by apply GetValue_type]. apply CreateWithFlag_ok. cbn. by apply GetIsNull_type.
  - split_and!; [|done|by apply GetValue_type]. apply Create_ok.
Qed.

Lemma BuildBinary_typed op l r tl tr t v :
  has_type l tl -> has_type r tr -> infer_binary op tl tr = Some t ->
  BuildBinary undef ext op l r = Some v -> has_type v t.
Proof.
  intros Hl Hr Ht H.
  assert (CompareTypeAccept tl tr = Some t -> t = kBool) as Hcmp.
  { unfold CompareTypeAccept. intros E. by repeat (case_match; simplify_eq). }
  assert (LogicalOpTypeAccept tl tr = Some t -> t = kBool) as Hlog.
  { unfold LogicalOpTypeAccept. intros E. by case_match; simplify_eq. }
  destruct op; cbn [infer_binary BuildBinary] in Ht, H;
    try (rewrite (Hcmp Ht); eapply compare_expr_typed; [apply Hl|apply Hr|exact H]);
    try (rewrite (Hlog Ht); eapply logical_expr_typed; [| |apply Hl|apply Hr|exact H]; done).
  - exact (arith_expr_typed _ _ _ _ _ _ _ _ add_typed Hl Hr Ht H).
  - exact (arith_expr_typed _ _ _ _ _ _ _ _ sub_typed Hl Hr Ht H).
  - exact (arith_expr_typed _ _ _ _ _ _ _ _ multi_typed Hl Hr Ht H).
  - exact (arith_expr_typed _ _ _ _ _ _ _ _ sdiv_typed Hl Hr Ht H).
  - apply bind_Some in H as (u & Hu & [= <-]).
    pose proof (arith_expr_typed _ _ _ _ _ _ _ _ fdiv_typed Hl Hr Ht Hu) as Hu'.
    destruct (IsConstNull u) eqn:E; [|done]. split; [apply SetType_ok; [done|apply Hu']|by left].
  - exact (arith_expr_typed _ _ _ _ _ _ _ _ mod_typed Hl Hr Ht H).
Qed.

Lemma BuildUnary_typed op l tl t v :
  has_type l tl -> infer_unary op tl = Some t -> (op = uNonNull -> IsConstNull l = false) ->
  BuildUnary undef op (Some t) l = Some v -> has_type v t.
Proof.
  intros Hl Ht Hnn H. destruct op; cbn [infer_unary BuildUnary] in Ht, H.
  - unfold NotTypeAccept in Ht. case_match; simplify_eq.
    apply bind_Some in H as ([] & _ & (x & _ & H)%bind_Some).
    destruct (is_lty _ _) eqn:E; [|done]. injection H as <-. apply bool_decide_eq_true in E.
    split; [apply CreateWithFlag_ok, GetIsNull_type, Hl|]. right. cbn. by rewrite E.
  - destruct (IsNumber tl) eqn:En; [|done]. injection Ht as <-.
    destruct (bool_decide _) eqn:Eb; [by injection H as <-|]. apply bool_decide_eq_false in Eb.
    assert (has_type (Create (getInt 16 0)) kInt16) as H0 by (split; [apply Create_ok|by right]).
    refine (arith_expr_typed _ _ _ _ _ _ _ _ sub_typed H0 Hl _ H). by destruct tl.
  - by simplify_eq.
  - simplify_eq. split; [apply Create_ok|]. right. cbn. by rewrite GetIsNull_type by apply Hl.
  - simplify_eq. split; [apply Create_ok|]. right. cbn. rewrite GetValue_type by apply Hl.
    destruct Hl as [_ [Hc|Hc]]; [by rewrite Hnn in Hc|done].
Qed.

Lemma fallible_typed t wrap f src : nv_ok src ->
  nv_ok (fallible undef t wrap f src) /\ nv_type (fallible undef t wrap f src) = t.
Proof.
  intros Hs. unfold fallible. split; [|by rewrite with_flag_type].
  apply with_flag_ok, CheckAnyNull_type; [done|]. by intros x [= <-].
Qed.

Lemma CastFrom_timestamp_typed src v :
  nv_ok src -> CastFrom_timestamp undef ext src = Some v -> nv_ok v /\ nv_type v = TimestampPtrTy.
Proof.
  intros Hs. unfold CastFrom_timestamp. destruct (is_lty (nv_type src) TimestampPtrTy) eqn:E.
  { intros [= <-]. by apply bool_decide_eq_true in E. }
  destruct (IsNumberTy _).
  - intros (ts & _ & (c & _ & [= <-])%bind_Some)%bind_Some.
    destruct (Select_ok c (Create (NewTimestamp (GetValue undef ts))) (CreateNull TimestampPtrTy))
      as (Hok & _ & Ht); [apply Create_ok|done|]. by rewrite Ht.
  - destruct (_ || _); [|done]. intros [= <-]. by apply fallible_typed.
Qed.

Lemma CastFrom_date_typed src v :
  nv_ok src -> CastFrom_date undef ext src = Some v -> nv_ok v /\ nv_type v = DatePtrTy.
Proof.
  intros Hs. unfold CastFrom_date. destruct (is_lty (nv_type src) DatePtrTy) eqn:E.
  { intros [= <-]. by apply bool_decide_eq_true in E. }
  destruct (_ || _); [|done]. intros [= <-]. by apply fallible_typed.
Qed.

Lemma CastFrom_string_typed src : nv_ok src ->
  nv_ok (CastFrom_string_native undef ext src) /\ nv_type (CastFrom_string_native undef ext src) = StringPtrTy.
Proof.
  intros Hs. unfold CastFrom_string_native. split.
  - apply with_flag_ok, CheckAnyNull_type; done.
  - rewrite with_flag_type. unfold CastFrom_string.
    destruct (is_lty _ _) eqn:E; [by apply bool_decide_eq_true in E|done].
Qed.

Lemma cast_number_typed cast v t u : (forall x t y, cast x t = Some y -> getType y = t) ->
  nv_ok v -> cast_number undef cast v t = Some u -> nv_ok u /\ nv_type u = t.
Proof.
  intros Hc Hv (x & Hx & [= <-])%bind_Some. apply Hc in Hx.
  destruct (IsNullable v); (split; [|done]); [by apply CreateWithFlag_ok, GetIsNull_type|apply Create_ok].
Qed.

Lemma BuildCast_typed t v u : nv_ok v -> BuildCast undef ext t v = Some u -> has_type u t.
Proof.
  intros Hv (lt & Hlt & H)%bind_Some.
  assert (nv_ok u /\ nv_type u = lt \/ u = CreateNull lt) as [[Hok <-]| ->];
    [|by split; [done|right]|by split; [apply CreateNull_ok|left] ].
  unfold SafeCast, SafeCast_with, UnSafeCast, UnSafeCast_with in H.
  destruct (IsSafeCastTy (nv_type v) lt); cbn [negb] in H;
    (destruct (IsConstNull v); [right; by injection H as <-|]);
    (destruct (is_lty lt TimestampPtrTy) eqn:E1;
       [apply bool_decide_eq_true in E1 as ->; left; by apply (CastFrom_timestamp_typed v)|]);
    (destruct (is_lty lt DatePtrTy) eqn:E2;
       [apply bool_decide_eq_true in E2 as ->; left; by apply (CastFrom_date_typed v)|]);
    (destruct (is_lty lt StringPtrTy) eqn:E3;
       [apply bool_decide_eq_true in E3 as ->; left; injection H as <-; by apply CastFrom_string_typed|]).
  - destruct (IsNumberTy lt); [|done]. left. by apply (cast_number_typed SafeCastNumber v); [apply SafeCastNumber_type|..].
  - destruct (IsNumberTy lt && is_lty _ StringPtrTy).
    { unfold CastToNumber in H. destruct (IsNumberTy lt); [|done]. injection H as <-. left.
      rewrite with_flag_type. split; [|done]. apply with_flag_ok, CheckAnyNull_type; [done|]. by intros x [= <-]. }
    destruct (_ && _); [right; by injection H as <-|].
    left. by apply (cast_number_typed UnSafeCastNumber v); [apply UnSafeCastNumber_type|..].
Qed.
End Sound.

(** *** Whole expressions *)

Section Expressions.
Context (G : nat -> option DataType) (undef : LType -> Value) (ext : Externals) (env : nat -> option NativeValue).

Definition const_null (o : option NativeValue) : bool := match o with Some v => IsConstNull v | None => false end.

(** Nowhere are all branches of a selection the constant NULL, or is the
    constant NULL declared not null, and the first THEN of a CASE is not the
    literal NULL. *)
Fixpoint nulls_ok (e : expr) : bool :=
  match e with
  | ConstNode _ _ | VarNode _ => true
  | UnaryExpr op e1 =>
      nulls_ok e1 && match op with uNonNull => negb (const_null (Build G undef ext env e1)) | _ => true end
  | BinaryExpr _ l r => nulls_ok l && nulls_ok r
  | CastExpr _ e1 => nulls_ok e1
  | CondExpr c l r =>
      nulls_ok c && nulls_ok l && nulls_ok r &&
      negb (const_null (Build G undef ext env l) && const_null (Build G undef ext env r))
  | CaseWhenExpr w =>
      match w with
      | ElseExpr _ => true
      | WhenExpr _ t _ => negb (bool_decide (infer G t = Some kNull)) && cases_ok w
      end
  end
with cases_ok (w : whens) : bool :=
  match w with
  | ElseExpr e => nulls_ok e
  | WhenExpr c t rest =>
      nulls_ok c && nulls_ok t && cases_ok rest &&
      negb (const_null (Build G undef ext env t) && const_null (BuildCase G undef ext env rest))
  end.

(** The type of a selection one of whose branches is not the constant NULL. *)
Lemma Select_typed c l r t :
  has_type l t -> has_type r t -> negb (IsConstNull l && IsConstNull r) = true ->
  has_type (Select undef c l r) t.
Proof.
  intros [Hl Tl] [Hr Tr] Hn. destruct (Select_ok undef c l r Hl Hr) as (Hok & _ & E). split; [done|].
  right. rewrite E. destruct (IsConstNull l); [|by destruct Tl].
  destruct (IsConstNull r); [done|by destruct Tr].
Qed.

Lemma null_has_any_type v t t' : has_type v t -> GetLlvmType t = None -> has_type v t'.
Proof. intros [Hok [Hc|Hc]] Hn; [by split; [|left]|congruence]. Qed.

Context (Henv : forall x t v, G x = Some t -> env x = Some v -> has_type v t).

(** The equations of the mutual functions. *)
Lemma BuildCase_when c t rest :
  BuildCase G undef ext env (WhenExpr c t rest) =
  vc ← Build G undef ext env c; vt ← Build G undef ext env t; vr ← BuildCase G undef ext env rest;
  Some (Select undef vc vt vr).
Proof. done. Qed.
Lemma infer_rest_when type c t rest :
  infer_rest G type (WhenExpr c t rest) =
  _ ← infer G c; tt ← infer G t; if then_accepts type tt then infer_rest G type rest else None.
Proof. done. Qed.
Lemma infer_rest_else type e :
  infer_rest G type (ElseExpr e) = te ← infer G e; if IsNullPrimary e || is_type type te then Some type else None.
Proof. done. Qed.
Lemma infer_case c t rest :
  infer G (CaseWhenExpr (WhenExpr c t rest)) = _ ← infer G c; type ← infer G t; infer_rest G type rest.
Proof. done. Qed.
Lemma cases_ok_when c t rest :
  cases_ok (WhenExpr c t rest) = nulls_ok c && nulls_ok t && cases_ok rest &&
      negb (const_null (Build G undef ext env t) && const_null (BuildCase G undef ext env rest)).
Proof. done. Qed.

Lemma build_types :
  (forall e, nulls_ok e = true -> forall t v, infer G e = Some t -> Build G undef ext env e = Some v -> has_type v t) /\
  (forall w, cases_ok w = true -> forall type t v, type <> kNull -> infer_rest G type w = Some t ->
     BuildCase G undef ext env w = Some v -> t = type /\ has_type v type).
Proof.
  apply expr_whens_ind.
  - intros t v _ t' u [= <-] H. unfold Build, BuildConstExpr in H.
    destruct (GetLlvmType t) eqn:E; injection H as <-; (split; [|auto]); [apply Create_ok|apply CreateNull_ok].
  - intros x _ t v. apply Henv.
  - intros op e IH Hn t v Ht H. cbn [nulls_ok] in Hn. apply andb_true_iff in Hn as [Hn Hop].
    cbn [Build] in H. rewrite Ht in H. cbn [infer] in Ht. apply bind_Some in Ht as (te & Hte & Ht).
    apply bind_Some in H as (u & Hu & H). eapply BuildUnary_typed; [by apply IH|exact Ht| |exact H].
    intros ->. rewrite Hu in Hop. by apply negb_true_iff in Hop.
  - intros op l IHl r IHr Hn t v Ht H. cbn [nulls_ok] in Hn. apply andb_true_iff in Hn as [Hl Hr].
    cbn [infer] in Ht; cbn [Build] in H. apply bind_Some in Ht as (tl & Etl & (tr & Etr & Ht)%bind_Some).
    apply bind_Some in H as (u1 & E1 & (u2 & E2 & H)%bind_Some).
    eapply BuildBinary_typed; [by apply IHl|by apply IHr|exact Ht|exact H].
  - intros ct e IH Hn t v Ht H. cbn [nulls_ok cases_ok] in Hn; cbn [infer infer_rest] in Ht; cbn [Build BuildCase] in H. apply bind_Some in Ht as (te & Ete & [= <-]).
    apply bind_Some in H as (u & Eu & H). eapply BuildCast_typed; [|exact H]. by eapply IH.
  - intros c IHc l IHl r IHr Hn t v Ht H. cbn [nulls_ok cases_ok] in Hn; cbn [infer infer_rest] in Ht; cbn [Build BuildCase] in H.
    apply andb_true_iff in Hn as [[[_ Hl]%andb_true_iff Hr]%andb_true_iff Hb].
    apply bind_Some in Ht as (tc & _ & (tl & Etl & (tr & Etr & Ht)%bind_Some)%bind_Some).
    apply bind_Some in H as (vc & _ & (vl & El & (vr & Er & [= <-])%bind_Some)%bind_Some).
    destruct (_ && _) eqn:Et in Ht; [|done]. injection Ht as <-.
    apply andb_true_iff in Et as [_ Et]. apply bool_decide_eq_true in Et. subst tr.
    rewrite El, Er in Hb. apply Select_typed; [by apply IHl|by apply IHr|done].
  - intros [e|c t rest] IHw Hn; [done|]. intros t' v Ht H. cbn [nulls_ok] in Hn.
    apply andb_true_iff in Hn as [Hk Hw]. apply negb_true_iff, bool_decide_eq_false in Hk.
    rewrite infer_case in Ht. apply bind_Some in Ht as (tc & Htc & (type & Hty & Ht)%bind_Some).
    assert (type <> kNull) as Hnn by congruence.
    destruct (IHw Hw type t' v Hnn) as [-> Hv]; [|exact H|done].
    rewrite infer_rest_when, Htc, Hty. cbn. unfold then_accepts, is_type.
    by rewrite (bool_decide_true (type = type)), !orb_true_r.
  - intros e IH Hn type t v Hnn Ht H. rewrite infer_rest_else in Ht. apply bind_Some in Ht as (te & Ete & Ht).
    destruct (_ || _) eqn:Ea; [|done]. injection Ht as <-. split; [done|].
    pose proof (IH Hn te v Ete H) as Hv. apply orb_true_iff in Ea as [Ea|Ea].
    + destruct e; try done. cbn in Ea, Ete. apply bool_decide_eq_true in Ea. simplify_eq. by eapply null_has_any_type.
    + by apply bool_decide_eq_true in Ea as ->.
  - intros c IHc t IHt rest IHr Hn type t' v Hnn Ht H. rewrite cases_ok_when in Hn. rewrite infer_rest_when in Ht. rewrite BuildCase_when in H.
    apply andb_true_iff in Hn as [[[_ Hnt]%andb_true_iff Hr]%andb_true_iff Hb].
    apply bind_Some in Ht as (tc & _ & (tt & Ett & Ht)%bind_Some).
    destruct (then_accepts type tt) eqn:Ea; [|done].
    apply bind_Some in H as (vc & _ & (vt & Et & (vr & Er & [= <-])%bind_Some)%bind_Some).
    destruct (IHr Hr type t' vr Hnn Ht Er) as [-> Hvr]. split; [done|].
    rewrite Et, Er in Hb. apply Select_typed; [|done|done].
    pose proof (IHt Hnt tt vt Ett Et) as Hvt. unfold then_accepts, is_type in Ea.
    apply orb_true_iff in Ea as [[Ea|Ea]%orb_true_iff|Ea]; apply bool_decide_eq_true in Ea; subst; try done.
    by eapply null_has_any_type.
Qed.
End Expressions.

(** C12: type soundness of code generation. Whenever the type inference gives an
    expression a type and code generation succeeds, the register that holds
    its value has that type, or the value is the constant NULL; null flags are
    booleans. For all expressions over typed columns and parameters in which
    no selection has only constant NULL branches, no CASE starts with THEN NULL
    and no value asserted to be non-null is the constant NULL. *)
Theorem expr_type_sound (G : nat -> option DataType) undef ext env e t v :
  (forall x t v, G x = Some t -> env x = Some v -> has_type v t) ->
  nulls_ok G undef ext env e = true ->
  infer G e = Some t -> Build G undef ext env e = Some v -> has_type v t.
Proof. intros Henv Hn Ht Hv. by apply (proj1 (build_types G undef ext env Henv)) with e. Qed.

(** ** Which accepted operations compile *)

Definition compiles {A} (o : option A) : bool := match o with Some _ => true | None => false end.

(** The operations on registers of given types; the contents do not matter. *)
Definition register_op (undef : LType -> Value) (ext : Externals) (op : BinaryOp) : LValue -> LValue -> option LValue :=
  match op with
  | kFnOpAdd => BuildAddExpr
  | kFnOpMulti => BuildMultiExpr
  | kFnOpFDiv => BuildFDivExpr
  | kFnOpDiv => BuildSDivExpr
  | kFnOpMinus => BuildSubExpr
  | kFnOpMod => BuildModExpr
  | kFnOpEq => BuildEqExpr undef ext
  | kFnOpNeq => BuildNeqExpr undef ext
  | kFnOpGt => BuildGtExpr undef ext
  | kFnOpGe => BuildGeExpr undef ext
  | kFnOpLt => BuildLtExpr undef ext
  | kFnOpLe => BuildLeExpr undef ext
  | kFnOpAnd | kFnOpOr | kFnOpXor =>
      fun l r => x ← InferAndCastBoolTypes l; y ← InferAndCastBoolTypes r;
        if is_lty (getType x) (IntTy 1) && is_lty (getType y) (IntTy 1) then Some x else None
  end.

(** The accepted operations that do not compile. *)
Definition not_compiled (op : BinaryOp) (tl tr : DataType) : bool :=
  match op with
  | kFnOpMinus => is_type tl kTimestamp && is_type tr kTimestamp
  | kFnOpFDiv => is_type tl kTimestamp
  | _ => false
  end.

Lemma register_compiles undef ext op tl tr t a b lt rt :
  infer_binary op tl tr = Some t -> GetLlvmType tl = Some lt -> GetLlvmType tr = Some rt ->
  compiles (register_op undef ext op (mkLV lt a) (mkLV rt b)) = negb (not_compiled op tl tr).
Proof. destruct op, tl, tr; intros [= <-] [= <-] [= <-]; reflexivity. Qed.

Section Compiles.
Context (undef : LType -> Value) (ext : Externals).

Lemma infer_check accept l r tl tr t :
  GetLlvmType tl = Some (nv_type l) -> GetLlvmType tr = Some (nv_type r) -> accept tl tr = Some t ->
  BinaryOpTypeInfer accept (nv_type l) (nv_type r) = Some tt.
Proof.
  intros Hl%base_of_llvm Hr%base_of_llvm Ha. unfold BinaryOpTypeInfer. rewrite Hl, Hr. cbn. by rewrite Ha.
Qed.

Lemma compiles_bind {A B} (o : option A) (f : A -> option B) :
  (forall x, compiles (f x) = true) -> compiles (o ≫= f) = compiles o.
Proof. intros Hf. destruct o; cbn; [apply Hf|done]. Qed.

Lemma SafeNull_compiles l r f : IsConstNull l = false -> IsConstNull r = false ->
  compiles (SafeNullBinaryExpr undef l r f) = compiles (f (GetValue undef l) (GetValue undef r)).
Proof. intros Hl Hr. unfold SafeNullBinaryExpr. rewrite Hl, Hr. by apply compiles_bind. Qed.

Lemma native_compiles op l r tl tr t :
  GetLlvmType tl = Some (nv_type l) -> GetLlvmType tr = Some (nv_type r) ->
  IsConstNull l = false -> IsConstNull r = false -> infer_binary op tl tr = Some t ->
  compiles (BuildBinary undef ext op l r) = compiles (register_op undef ext op (GetValue undef l) (GetValue undef r)).
Proof.
  intros Hl Hr Nl Nr Ht. pose proof (fun accept => infer_check accept l r tl tr t Hl Hr) as Hi.
  destruct op; cbn [infer_binary] in Ht; unfold BuildBinary, BuildFDiv_native, arith_expr, compare_expr,
    BuildAndExpr, BuildOrExpr, BuildXorExpr, logical_expr, register_op; rewrite (Hi _ Ht); cbn [mbind option_bind];
    rewrite ?compiles_bind by done; rewrite ?SafeNull_compiles by done; try done;
    destruct (InferAndCastBoolTypes (GetValue undef l)); [|done| |done| |done]; cbn [mbind option_bind];
    destruct (InferAndCastBoolTypes (GetValue undef r)); [|done| |done| |done]; cbn [mbind option_bind];
    by destruct (_ && _).
Qed.
End Compiles.

(** C40: code generation and the acceptance rules agree. An operation on values
    (not constant NULLs) of types that the rules accept compiles, with two
    exceptions: the difference of two time stamps, and the quotient of a time
    stamp and a number, for which the rules infer a type but the builder
    returns an error. *)
Theorem accepted_compiles undef ext op l r tl tr t :
  has_type l tl -> has_type r tr -> IsConstNull l = false -> IsConstNull r = false ->
  infer_binary op tl tr = Some t ->
  BuildBinary undef ext op l r = None <->
  op = kFnOpMinus /\ tl = kTimestamp /\ tr = kTimestamp \/ op = kFnOpFDiv /\ tl = kTimestamp.
Proof.
  intros [Hl Tl] [Hr Tr] Nl Nr Ht. rewrite Nl in Tl. rewrite Nr in Tr.
  destruct Tl as [?|Tl]; [done|]. destruct Tr as [?|Tr]; [done|].
  pose proof (native_compiles undef ext op l r tl tr t Tl Tr Nl Nr Ht) as Hc.
  pose proof (GetValue_type undef l Hl) as El. pose proof (GetValue_type undef r Hr) as Er.
  destruct (GetValue undef l) as [lt a]. destruct (GetValue undef r) as [rt b]. cbn in El, Er. subst lt rt.
  rewrite (register_compiles undef ext op tl tr t a b _ _ Ht Tl Tr) in Hc.
  assert (not_compiled op tl tr = true <->
    op = kFnOpMinus /\ tl = kTimestamp /\ tr = kTimestamp \/ op = kFnOpFDiv /\ tl = kTimestamp) as <-.
  { destruct op; cbn; unfold is_type; try (split; [done|by intros [(? & _)|(? & _)]]).
    - rewrite andb_true_iff, !bool_decide_eq_true. naive_solver.
    - rewrite bool_decide_eq_true. naive_solver. }
  destruct (BuildBinary undef ext op l r), (not_compiled op tl tr); cbn in Hc; naive_solver.
Qed.

(** ** Witnesses *)

Module TypeExample.
(** A timestamp column and an int column;
    [CASE WHEN c0 > c1 THEN c0 + c1 ELSE NULL END]. *)
Definition G (x : nat) : option DataType := match x with 0%nat => Some kTimestamp | 1%nat => Some kInt32 | _ => None end.
Definition undef (_ : LType) : Value := VInt 0.
Definition ext : Externals := mkExternals (fun _ _ => []) (fun _ _ => (VInt 0, true)) (fun _ _ => (0, true)) (fun _ _ => (0, true)).
Definition c0 : NativeValue := Create (mkLV TimestampPtrTy (Val (VTimestamp 1590115420000))).
Definition c1 : NativeValue := CreateWithFlag (mkLV (IntTy 32) (Val (VInt 7))) (mkLV (IntTy 1) (Val (VInt 0))).
Definition env (x : nat) : option NativeValue := match x with 0%nat => Some c0 | 1%nat => Some c1 | _ => None end.
Definition query : expr :=
  CaseWhenExpr
    (WhenExpr (BinaryExpr kFnOpGt (VarNode 0) (VarNode 0)) (BinaryExpr kFnOpAdd (VarNode 0) (VarNode 1))
    (ElseExpr (ConstNode kNull (VInt 0)))).
End TypeExample.

Lemma example_columns x t v : TypeExample.G x = Some t -> TypeExample.env x = Some v -> has_type v t.
Proof. destruct x as [|[|x]]; intros [= <-] [= <-]; (split; [split; intros ? [= <-]; by auto|by right]). Qed.

Lemma expr_type_sound_witness :
  infer TypeExample.G TypeExample.query = Some kTimestamp /\
  exists v, Build TypeExample.G TypeExample.undef TypeExample.ext TypeExample.env TypeExample.query = Some v /\
    has_type v kTimestamp.
Proof.
  split; [reflexivity|]. eexists. split; [reflexivity|].
  apply (expr_type_sound TypeExample.G TypeExample.undef TypeExample.ext TypeExample.env TypeExample.query);
    [exact example_columns|reflexivity|reflexivity|reflexivity].
Defined.

Lemma accepted_compiles_witness :
  infer_binary kFnOpMinus kTimestamp kTimestamp = Some kTimestamp /\
  (BuildBinary TypeExample.undef TypeExample.ext kFnOpMinus TypeExample.c0 TypeExample.c0 = None <->
   kFnOpMinus = kFnOpMinus /\ kTimestamp = kTimestamp /\ kTimestamp = kTimestamp \/ kFnOpMinus = kFnOpFDiv /\ kTimestamp = kTimestamp).
Proof.
  split; [reflexivity|].
  apply (accepted_compiles TypeExample.undef TypeExample.ext kFnOpMinus TypeExample.c0 TypeExample.c0 kTimestamp kTimestamp kTimestamp);
    first [reflexivity|by apply (example_columns 0)].
Defined.
