(* ===== verification/ExprSem.v ===== *)
(** * Compiled integer and boolean expressions compute SQL values

    A reference semantics of expressions over integers, booleans and NULL,
    with exact arithmetic and three-valued logic, and the proof that compiled
    code computes it. *)

From stdpp Require Import base numbers option list.
From S2P Require Import Prelude Llvm ExprTypes ExprBuilder Expr ExprProof.

(** ** Reference semantics *)

Inductive sval := SNull | SInt (n : Z) | SBool (b : bool).

Definition width (t : DataType) : Z :=
  match t with kBool => 1 | kInt16 => 16 | kInt32 => 32 | kInt64 => 64 | _ => 0 end.
Definition int_type (t : DataType) : bool := is_type t kInt16 || is_type t kInt32 || is_type t kInt64.
Definition in_type (t : DataType) (n : Z) : bool := (- 2 ^ (width t - 1) <=? n) && (n <? 2 ^ (width t - 1)).

(** Exact arithmetic; a division by zero gives zero. *)
Definition exact (op : BinaryOp) (m n : Z) : option Z :=
  match op with
  | kFnOpAdd => Some (m + n)
  | kFnOpMinus => Some (m - n)
  | kFnOpMulti => Some (m * n)
  | kFnOpDiv => Some (if n =? 0 then 0 else Z.quot m n)
  | kFnOpMod => Some (if n =? 0 then 0 else Z.rem m n)
  | _ => None
  end.
Definition divides (op : BinaryOp) : bool := match op with kFnOpDiv | kFnOpMod => true | _ => false end.

(** The value of an operation of type [t]: defined when the result (for a
    remainder also the quotient) is in the range of the type. Compiled code
    computes also with NULLs; a division with one is defined when the divisor
    is a number other than -1. *)
Definition sem_arith (op : BinaryOp) (t : DataType) (a b : sval) : option sval :=
  match a, b with
  | SInt m, SInt n =>
      r ← exact op m n;
      if in_type t r && (negb (divides op) || (n =? 0) || in_type t (Z.quot m n)) then Some (SInt r) else None
  | SNull, SInt n =>
      _ ← exact op 0 0; if divides op && (n =? -1) then None else Some SNull
  | SInt _, SNull | SNull, SNull =>
      _ ← exact op 0 0; if divides op then None else Some SNull
  | _, _ => None
  end.

Definition cmp_op (op : BinaryOp) : option CmpOp :=
  match op with
  | kFnOpEq => Some CmpEq
  | kFnOpNeq => Some CmpNe
  | kFnOpGt => Some CmpGt
  | kFnOpGe => Some CmpGe
  | kFnOpLt => Some CmpLt
  | kFnOpLe => Some CmpLe
  | _ => None
  end.
Definition sem_cmp (op : CmpOp) (a b : sval) : option sval :=
  match a, b with
  | SNull, _ | _, SNull => Some SNull
  | SInt m, SInt n => Some (SBool (int_cmp op m n))
  | SBool x, SBool y => Some (SBool (int_cmp op (Z.b2z x) (Z.b2z y)))
  | _, _ => None
  end.

(** Three-valued logic; a number other than zero is true. *)
Definition truth (a : sval) : option bool :=
  match a with SNull => None | SBool b => Some b | SInt n => Some (negb (n =? 0)) end.
Definition of_truth (a : option bool) : sval := match a with None => SNull | Some b => SBool b end.
Definition and3 (a b : option bool) : option bool :=
  match a, b with
  | Some false, _ | _, Some false => Some false
  | Some true, Some true => Some true
  | _, _ => None
  end.
Definition or3 (a b : option bool) : option bool :=
  match a, b with
  | Some true, _ | _, Some true => Some true
  | Some false, Some false => Some false
  | _, _ => None
  end.
Definition xor3 (a b : option bool) : option bool :=
  match a, b with Some x, Some y => Some (xorb x y) | _, _ => None end.
Definition logic_op (op : BinaryOp) : option (option bool -> option bool -> option bool) :=
  match op with kFnOpAnd => Some and3 | kFnOpOr => Some or3 | kFnOpXor => Some xor3 | _ => None end.

Definition sem_binary (op : BinaryOp) (tl tr : DataType) (a b : sval) : option sval :=
  match cmp_op op, logic_op op with
  | Some c, _ =>
      if (int_type tl && int_type tr) || (is_type tl kBool && is_type tr kBool) then sem_cmp c a b else None
  | None, Some f => if IsInteger tl && IsInteger tr then Some (of_truth (f (truth a) (truth b))) else None
  | None, None =>
      if int_type tl && int_type tr then t ← InferNumberCastTypes tl tr; sem_arith op t a b else None
  end.

Definition sem_unary (op : UnaryOp) (t : DataType) (a : sval) : option sval :=
  match op with
  | uNot => if IsInteger t then Some (of_truth (negb <$> truth a)) else None
  | uMinus => if int_type t then sem_arith kFnOpMinus t (SInt 0) a else None
  | uBracket => Some a
  | uIsNull => Some (SBool match a with SNull => true | _ => false end)
  | uNonNull => None
  end.

(** Casts between integers and booleans; a number must fit. *)
Definition sem_cast (t : DataType) (a : sval) : option sval :=
  match a with
  | SNull => if IsInteger t then Some SNull else None
  | SInt n => if is_type t kBool then Some (SBool (negb (n =? 0)))
              else if int_type t && in_type t n then Some (SInt n) else None
  | SBool b => if is_type t kBool then Some a else if int_type t then Some (SInt (Z.b2z b)) else None
  end.

Definition sem_const (t : DataType) (v : Value) : option sval :=
  match v with
  | VInt n =>
      if int_type t && in_type t n then Some (SInt n)
      else if is_type t kBool && ((n =? 0) || (n =? -1)) then Some (SBool (negb (n =? 0)))
      else None
  | _ => None
  end.

Definition choose (c : sval) (x y : sval) : sval := match c with SBool true => x | _ => y end.

Section Sem.
Context (G : nat -> option DataType) (rho : nat -> option sval).

Fixpoint sem (e : expr) : option sval :=
  match e with
  | ConstNode t v => sem_const t v
  | VarNode x => rho x
  | UnaryExpr op e1 => t ← infer G e1; a ← sem e1; sem_unary op t a
  | BinaryExpr op l r => tl ← infer G l; tr ← infer G r; a ← sem l; b ← sem r; sem_binary op tl tr a b
  | CastExpr t e1 => a ← sem e1; sem_cast t a
  | CondExpr c l r =>
      tc ← infer G c; tl ← infer G l; tr ← infer G r;
      s ← sem c; a ← sem l; b ← sem r;
      if is_type tc kBool && is_type tl tr then Some (choose s a b) else None
  | CaseWhenExpr w =>
      match w with
      | ElseExpr _ => None
      | WhenExpr _ t _ => type ← infer G t; if is_type type kNull then None else sem_case type w
      end
  end
with sem_case (type : DataType) (w : whens) : option sval :=
  match w with
  | ElseExpr e =>
      if IsNullPrimary e then Some SNull
      else te ← infer G e; a ← sem e; if is_type type te then Some a else None
  | WhenExpr c t rest =>
      tc ← infer G c; s ← sem c;
      a ← (if IsNullPrimary t then match rest with ElseExpr e => if IsNullPrimary e then None else Some SNull | _ => Some SNull end
           else tt ← infer G t; a ← sem t; if is_type type tt then Some a else None);
      b ← sem_case type rest;
      if is_type tc kBool then Some (choose s a b) else None
  end.
End Sem.

(** ** Registers and native values that hold integers *)

Definition reg (t : DataType) (n : Z) : LValue := mkLV (IntTy (width t)) (Val (VInt n)).

(** A native value with content [n] and null flag [b]. *)
Definition int_value (v : NativeValue) (t : DataType) (n : Z) (b : bool) : Prop :=
  IsInteger t = true /\ in_type t n = true /\
  exists flag, v = mkNV (Some (reg t n)) flag (IntTy (width t)) /\
    (flag = None /\ b = false \/ flag = Some (reg kBool (bool_int b)) \/
     flag = Some (mkLV (IntTy 8) (Val (VInt (Z.b2z b))))).

Definition denotes (v : NativeValue) (t : DataType) (s : sval) : Prop :=
  exists n b, int_value v t n b /\
    match s with
    | SNull => b = true
    | SInt m => b = false /\ n = m /\ int_type t = true
    | SBool c => b = false /\ n = bool_int c /\ t = kBool
    end.

Lemma in_type_range t n : in_type t n = true <-> - 2 ^ (width t - 1) <= n < 2 ^ (width t - 1).
Proof. unfold in_type. rewrite andb_true_iff, Z.leb_le, Z.ltb_lt. done. Qed.

Lemma int_type_cases t : int_type t = true -> t = kInt16 \/ t = kInt32 \/ t = kInt64.
Proof. destruct t; try done; auto. Qed.
Lemma integer_cases t : IsInteger t = true -> t = kBool \/ int_type t = true.
Proof. destruct t; try done; auto. Qed.

Lemma wraps_in_type t n : int_type t = true -> in_type t (wraps (width t) n) = true.
Proof.
  intros [->|[->| ->]]%int_type_cases; apply in_type_range; unfold wraps; cbn [width];
    match goal with |- context [?x mod ?y] => pose proof (Z.mod_pos_bound x y ltac:(done)) end; lia.
Qed.
Lemma wraps_id t n : in_type t n = true -> 0 < width t -> wraps (width t) n = n.
Proof. intros Hn Hw. apply wraps_small; [done|]. by apply in_type_range. Qed.

Lemma bool_in_type b : in_type kBool (bool_int b) = true.
Proof. by destruct b. Qed.
Lemma bool_content n : in_type kBool n = true -> n = bool_int (negb (n =? 0)).
Proof. intros [H1 H2]%in_type_range. cbn in H1, H2. by assert (n = -1 \/ n = 0) as [->| ->] by lia. Qed.

(** ** Operations on registers *)

Lemma add_regs tl tr t m n : int_type tl = true -> int_type tr = true -> InferNumberCastTypes tl tr = Some t ->
  BuildAddExpr (reg tl m) (reg tr n) = Some (reg t (wraps (width t) (m + n))) /\
  BuildSubExpr (reg tl m) (reg tr n) = Some (reg t (wraps (width t) (m - n))) /\
  BuildMultiExpr (reg tl m) (reg tr n) = Some (reg t (wraps (width t) (m * n))) /\
  BuildSDivExpr (reg tl m) (reg tr n) = guard_zero CreateSDiv (reg t m) (reg t n) /\
  BuildModExpr (reg tl m) (reg tr n) = guard_zero CreateSRem (reg t m) (reg t n) /\
  int_type t = true.
Proof.
  intros [->|[->| ->]]%int_type_cases [->|[->| ->]]%int_type_cases [= <-]; split_and!; reflexivity.
Qed.

Lemma select_regs t b x y :
  CreateSelect (reg kBool (bool_int b)) (reg t x) (reg t y) = reg t (if b then x else y).
Proof.
  unfold CreateSelect, reg. cbn [getType lv_rt]. rewrite !bool_decide_true by done. by destruct b.
Qed.
Lemma icmp_regs op t m n : CreateICmpS op (reg t m) (reg t n) = reg kBool (bool_int (int_cmp op m n)).
Proof. unfold CreateICmpS, int_op, reg. cbn [getType lv_rt]. by rewrite Z.eqb_refl. Qed.
Lemma getInt_reg t n : in_type t n = true -> 0 < width t -> getInt (width t) n = reg t n.
Proof. intros Hn Hw. unfold getInt, reg. by rewrite wraps_id. Qed.
Lemma int_op2_regs f t m n : int_op2 f (reg t m) (reg t n) = mkLV (IntTy (width t)) (f (width t) m n).
Proof. unfold int_op2, int_op, reg. cbn [getType lv_rt]. by rewrite Z.eqb_refl. Qed.

Lemma guard_zero_regs t m n : int_type t = true ->
  n = 0 \/ div_defined (width t) m n = true ->
  guard_zero CreateSDiv (reg t m) (reg t n) = Some (reg t (if n =? 0 then 0 else Z.quot m n)) /\
  guard_zero CreateSRem (reg t m) (reg t n) = Some (reg t (if n =? 0 then 0 else Z.rem m n)).
Proof.
  intros Ht Hd.
  assert (0 < width t /\ in_type t 0 = true /\ in_type t 1 = true) as (Hw & H0 & H1)
    by (by apply int_type_cases in Ht as [->|[->| ->]]).
  unfold guard_zero. cbn [int_width getType reg mbind option_bind].
  rewrite !(getInt_reg t) by done. fold (reg t m) (reg t n).
  rewrite icmp_regs. cbn [int_cmp]. rewrite select_regs. unfold CreateSDiv, CreateSRem. rewrite !int_op2_regs.
  assert (div_defined (width t) m (if n =? 0 then 1 else n) = true) as ->.
  { destruct (Z.eqb_spec n 0); [|tauto]. unfold div_defined. by rewrite andb_false_r. }
  fold (reg t (Z.quot m (if n =? 0 then 1 else n))) (reg t (Z.rem m (if n =? 0 then 1 else n))).
  rewrite !select_regs. by destruct (n =? 0).
Qed.

(** The quotient and the remainder are in range unless the quotient
    overflows. *)
Lemma div_in_type t m n : int_type t = true -> in_type t m = true -> in_type t n = true -> n <> 0 ->
  in_type t (Z.quot m n) = true \/ n <> -1 ->
  div_defined (width t) m n = true /\ in_type t (Z.quot m n) = true /\ in_type t (Z.rem m n) = true.
Proof.
  intros Ht Hm Hn Hz Hq. rewrite in_type_range in *.
  assert (div_defined (width t) m n = true) as Hd.
  { unfold div_defined. apply andb_true_iff. split; [by apply negb_true_iff, Z.eqb_neq|].
    apply negb_true_iff, andb_false_iff. destruct (Z.eqb_spec n (-1)) as [->|]; [|by right]. left.
    apply Z.eqb_neq. intros ->. change (-1) with (Z.opp 1) in Hq. rewrite Z.quot_opp_opp, Z.quot_1_r in Hq by lia. lia. }
  assert (Z.abs (Z.quot m n) <= Z.abs m) as Hqa.
  { rewrite <- Z.quot_abs by done. apply Z.quot_le_upper_bound; nia. }
  split; [done|]. split.
  - destruct Hq as [Hq|Hq]; [lia|]. split; [lia|].
    destruct (Z.eq_dec m (- 2 ^ (width t - 1))) as [->|]; [|lia].
    destruct (Z.eq_dec n 1) as [->|]; [rewrite Z.quot_1_r; lia|].
    assert (2 * Z.abs (Z.quot (- 2 ^ (width t - 1)) n) <= Z.abs (- 2 ^ (width t - 1))); [|lia].
    rewrite <- Z.quot_abs by done. etrans; [|apply (Z.mul_quot_le _ (Z.abs n)); lia].
    apply Z.mul_le_mono_nonneg_r; [apply Z.quot_pos; lia|lia].
  - apply in_type_range. pose proof (Z.rem_bound_abs m n Hz). lia.
Qed.

Lemma compare_regs undef ext op tl tr m n :
  (int_type tl = true /\ int_type tr = true ->
    build_compare undef ext op (reg tl m) (reg tr n) = Some (reg kBool (bool_int (int_cmp op m n)))) /\
  (in_type kBool m = true -> in_type kBool n = true ->
    build_compare undef ext op (reg kBool m) (reg kBool n) =
      Some (reg kBool (bool_int (int_cmp op (Z.b2z (negb (m =? 0))) (Z.b2z (negb (n =? 0))))))).
Proof.
  split.
  - intros [[->|[->| ->]]%int_type_cases [->|[->| ->]]%int_type_cases]; by destruct op.
  - intros Hm Hn. rewrite (bool_content m Hm), (bool_content n Hn).
    destruct (m =? 0), (n =? 0), op; reflexivity.
Qed.

Lemma bool_cast_reg t n : IsInteger t = true -> in_type t n = true ->
  InferAndCastBoolTypes (reg t n) = Some (reg kBool (bool_int (negb (n =? 0)))).
Proof.
  intros [->|[->|[->| ->]]%int_type_cases]%integer_cases Hn; try reflexivity.
  by rewrite <- (bool_content n Hn).
Qed.

(** ** Operations on native values *)

Section Native.
Context (undef : LType -> Value) (ext : Externals).
Context (Hundef : forall t, IsInteger t = true -> exists n, undef (IntTy (width t)) = VInt n /\ in_type t n = true).

Lemma int_value_parts v t n b : int_value v t n b ->
  IsConstNull v = false /\ GetValue undef v = reg t n /\ GetIsNull v = reg kBool (bool_int b) /\
  (IsNullable v = false -> b = false) /\ nv_type v = IntTy (width t) /\ GetLlvmType t = Some (nv_type v).
Proof.
  intros (Ht & Hn & flag & -> & Hf). split_and!; try done.
  - destruct Hf as [[-> ->]|[-> | ->]]; [done|by destruct b..].
  - destruct Hf as [[-> ->]|[-> | ->]]; [done|by unfold IsNullable..].
  - by destruct t.
Qed.

Lemma or_bools a b :
  CreateOr (reg kBool (bool_int a)) (reg kBool (bool_int b)) = reg kBool (bool_int (a || b)).
Proof. by destruct a, b. Qed.
Lemma and_bools a b :
  CreateAnd (reg kBool (bool_int a)) (reg kBool (bool_int b)) = reg kBool (bool_int (a && b)).
Proof. by destruct a, b. Qed.
Lemma xor_bools a b :
  CreateXor (reg kBool (bool_int a)) (reg kBool (bool_int b)) = reg kBool (bool_int (xorb a b)).
Proof. by destruct a, b. Qed.
Lemma not_bool a : CreateNot (reg kBool (bool_int a)) = reg kBool (bool_int (negb a)).
Proof. by destruct a. Qed.

Lemma create_int t n : IsInteger t = true -> in_type t n = true -> int_value (Create (reg t n)) t n false.
Proof. intros Ht Hn. split_and!; [done|done|]. exists None. auto. Qed.
Lemma create_flag t n b : IsInteger t = true -> in_type t n = true ->
  int_value (CreateWithFlag (reg t n) (reg kBool (bool_int b))) t n b.
Proof. intros Ht Hn. split_and!; [done|done|]. eexists. split; [done|]. right; by left. Qed.

Lemma SafeNull_int l r f tl tr t m n k b1 b2 :
  int_value l tl m b1 -> int_value r tr n b2 ->
  f (reg tl m) (reg tr n) = Some (reg t k) -> IsInteger t = true -> in_type t k = true ->
  exists v, SafeNullBinaryExpr undef l r f = Some v /\ int_value v t k (b1 || b2).
Proof.
  intros Hl Hr Hf Ht Hk.
  destruct (int_value_parts l tl m b1 Hl) as (Cl & Vl & Nl & Fl & _).
  destruct (int_value_parts r tr n b2 Hr) as (Cr & Vr & Nr & Fr & _).
  unfold SafeNullBinaryExpr. rewrite Cl, Cr, Vl, Vr, Hf. cbn [mbind option_bind]. eexists. split; [done|].
  unfold CheckAnyNull. rewrite Nl, Nr.
  destruct (IsNullable l), (IsNullable r); cbn [with_flag].
  - rewrite or_bools. by apply create_flag.
  - rewrite Fr, orb_false_r by done. by apply create_flag.
  - rewrite Fl, orb_false_l by done. by apply create_flag.
  - rewrite Fl, Fr by done. by apply create_int.
Qed.

(** A branch of a selection: a value, or the constant NULL that takes the type
    of the other branch. *)
Definition branch (v : NativeValue) (t : DataType) (n : Z) (b : bool) : Prop :=
  GetValue undef v = reg t n /\ GetIsNull v = reg kBool (bool_int b) /\ (IsNullable v = false -> b = false).

Lemma Select_branches raw l r t m n b1 b2 c :
  branch l t m b1 -> branch r t n b2 -> IsInteger t = true -> in_type t m = true -> in_type t n = true ->
  raw = reg kBool (bool_int c) ->
  int_value (if IsNullable l || IsNullable r
             then CreateWithFlag (CreateSelect raw (GetValue undef l) (GetValue undef r))
                    (CreateSelect raw (GetIsNull l) (GetIsNull r))
             else Create (CreateSelect raw (GetValue undef l) (GetValue undef r)))
    t (if c then m else n) (if c then b1 else b2).
Proof.
  intros (Vl & Nl & Fl) (Vr & Nr & Fr) Ht Hm Hn ->. rewrite Vl, Vr, Nl, Nr, !select_regs.
  assert ((if c then bool_int b1 else bool_int b2) = bool_int (if c then b1 else b2)) as -> by (by destruct c).
  destruct (IsNullable l), (IsNullable r); cbn [orb]; try (apply create_flag; by destruct c).
  rewrite (Fl eq_refl), (Fr eq_refl).
  replace (if c then false else false) with false by (by destruct c). apply create_int; by destruct c.
Qed.

Lemma int_branch v t n b : int_value v t n b -> branch v t n b.
Proof. intros (_ & ? & ? & ? & _)%int_value_parts. done. Qed.

Lemma condition_reg c n b : int_value c kBool n b ->
  (if IsNullable c then CreateAnd (GetValue undef c) (CreateNot (GetIsNull c)) else GetValue undef c) =
  reg kBool (bool_int (negb (n =? 0) && negb b)).
Proof.
  intros Hc. destruct (int_value_parts c kBool n b Hc) as (_ & V & N & F & _). rewrite V, N.
  destruct Hc as (_ & Hn & _). 
  assert (reg kBool n = reg kBool (bool_int (negb (n =? 0)))) as -> by (f_equal; by apply bool_content).
  destruct (IsNullable c).
  - by rewrite not_bool, and_bools.
  - rewrite (F eq_refl). cbn [negb]. by rewrite andb_true_r.
Qed.

(** *** Arithmetic *)

Lemma infer_arith op tl tr : int_type tl = true -> int_type tr = true -> is_Some (exact op 0 0) ->
  exists t, InferNumberCastTypes tl tr = Some t /\ infer_binary op tl tr = Some t /\ int_type t = true /\
    (forall n, in_type tl n = true -> in_type t n = true) /\ (forall n, in_type tr n = true -> in_type t n = true).
Proof.
  intros [->|[->| ->]]%int_type_cases [->|[->| ->]]%int_type_cases [x Hx];
    (eexists; split; [reflexivity|]; split; [by destruct op|]; split; [done|]);
    split; intros n Hn; rewrite in_type_range in *; cbn in *; lia.
Qed.

Lemma int_is_integer t : int_type t = true -> IsInteger t = true.
Proof. by intros [->|[->| ->]]%int_type_cases. Qed.

Lemma arith_int op l r tl tr t m n b1 b2 :
  int_type tl = true -> int_type tr = true -> is_Some (exact op 0 0) -> InferNumberCastTypes tl tr = Some t ->
  int_value l tl m b1 -> int_value r tr n b2 ->
  (divides op = true -> n = 0 \/ n <> -1 \/ in_type t (Z.quot m n) = true) ->
  exists v k, BuildBinary undef ext op l r = Some v /\ int_value v t k (b1 || b2) /\
    forall x, exact op m n = Some x -> in_type t x = true -> k = x.
Proof.
  intros Hl Hr Ho Ht Il Ir Hd. destruct (infer_arith op tl tr Hl Hr Ho) as (t' & Ht' & Hb & Hit & Wl & Wr).
  assert (t' = t) as -> by congruence. destruct (int_value_parts l tl m b1 Il) as (_ & _ & _ & _ & _ & Tl).
  destruct (int_value_parts r tr n b2 Ir) as (_ & _ & _ & _ & _ & Tr).
  pose proof (fun accept => infer_check accept l r tl tr t Tl Tr) as Hi.
  destruct (add_regs tl tr t m n Hl Hr Ht) as (Ha & Hs & Hm & Hq & Hmod & _).
  pose proof (proj1 (proj2 Il)) as Hm0. pose proof (proj1 (proj2 Ir)) as Hn0.
  assert (0 < width t) as Hw by (by apply int_type_cases in Hit as [->|[->| ->]]).
  pose proof (int_is_integer t Hit) as Hii.
  assert (divides op = true -> guard_zero CreateSDiv (reg t m) (reg t n) = Some (reg t (if n =? 0 then 0 else Z.quot m n)) /\
    guard_zero CreateSRem (reg t m) (reg t n) = Some (reg t (if n =? 0 then 0 else Z.rem m n)) /\
    in_type t (if n =? 0 then 0 else Z.quot m n) = true /\ in_type t (if n =? 0 then 0 else Z.rem m n) = true) as Hz.
  { intros Hdiv. specialize (Hd Hdiv). destruct (Z.eqb_spec n 0) as [->|Hn].
    - destruct (guard_zero_regs t m 0 Hit ltac:(by left)) as [E1 E2]. split_and!; try done;
      by apply int_type_cases in Hit as [->|[->| ->]].
    - destruct (div_in_type t m n Hit) as (D & Q & R); [auto..|tauto|].
      destruct (guard_zero_regs t m n Hit ltac:(by right)) as [E1 E2].
      rewrite (proj2 (Z.eqb_neq n 0) Hn) in E1, E2. done. }
  destruct op; try (by destruct Ho); cbn [infer_binary] in Hb; unfold BuildBinary, arith_expr; rewrite (Hi _ Hb);
    cbn [mbind option_bind exact].
  - destruct (SafeNull_int l r _ tl tr t m n _ b1 b2 Il Ir Ha Hii (wraps_in_type t _ Hit)) as (v & E & Iv).
    exists v, (wraps (width t) (m + n)). split_and!; [done|done|]. intros x [= <-] Hx. by apply wraps_id.
  - destruct (SafeNull_int l r _ tl tr t m n _ b1 b2 Il Ir Hs Hii (wraps_in_type t _ Hit)) as (v & E & Iv).
    exists v, (wraps (width t) (m - n)). split_and!; [done|done|]. intros x [= <-] Hx. by apply wraps_id.
  - destruct (SafeNull_int l r _ tl tr t m n _ b1 b2 Il Ir Hm Hii (wraps_in_type t _ Hit)) as (v & E & Iv).
    exists v, (wraps (width t) (m * n)). split_and!; [done|done|]. intros x [= <-] Hx. by apply wraps_id.
  - destruct (Hz eq_refl) as (E1 & _ & R1 & _). rewrite E1 in Hq.
    destruct (SafeNull_int l r _ tl tr t m n _ b1 b2 Il Ir Hq Hii R1) as (v & E & Iv).
    eexists v, _. split_and!; [done|exact Iv|]. by intros x [= <-].
  - destruct (Hz eq_refl) as (_ & E2 & _ & R2). rewrite E2 in Hmod.
    destruct (SafeNull_int l r _ tl tr t m n _ b1 b2 Il Ir Hmod Hii R2) as (v & E & Iv).
    eexists v, _. split_and!; [done|exact Iv|]. by intros x [= <-].
Qed.

Lemma sem_arith_ok op l r tl tr t a b s :
  int_type tl = true -> int_type tr = true -> InferNumberCastTypes tl tr = Some t ->
  denotes l tl a -> denotes r tr b -> sem_arith op t a b = Some s ->
  infer_binary op tl tr = Some t /\ exists v, BuildBinary undef ext op l r = Some v /\ denotes v t s.
Proof.
  intros Hl Hr Ht (m & b1 & Il & Da) (n & b2 & Ir & Db) H.
  assert (is_Some (exact op 0 0)) as Ho by (by destruct op, a, b).
  destruct (infer_arith op tl tr Hl Hr Ho) as (t' & Ht' & Hb & Hit & _).
  assert (t' = t) as -> by congruence. split; [done|].
  pose proof (arith_int op l r tl tr t m n b1 b2 Hl Hr Ho Ht Il Ir) as Hv.
  assert ((divides op = true -> n = 0 \/ n <> -1 \/ in_type t (Z.quot m n) = true) /\
    match s with SNull => b1 || b2 = true | SInt x => b1 || b2 = false /\ exact op m n = Some x /\ in_type t x = true
            | SBool _ => False end) as [Hd Hs].
  { destruct a as [|x|], b as [|y|]; cbn [sem_arith] in H; try done.
    - apply bind_Some in H as (? & _ & H). destruct (divides op); [done|]. by simplify_eq.
    - apply bind_Some in H as (? & _ & H). destruct Db as (-> & -> & _). subst b1.
      destruct (divides op); cbn [andb] in H; [|by simplify_eq]. destruct (Z.eqb_spec y (-1)); [done|]. simplify_eq. auto.
    - apply bind_Some in H as (? & _ & H). destruct (divides op); [done|]. simplify_eq. split; [done|]. by rewrite orb_true_r.
    - apply bind_Some in H as (z & Hz & H). destruct Da as (-> & -> & _), Db as (-> & -> & _).
      destruct (_ && _) eqn:Ec; [|done]. simplify_eq. apply andb_true_iff in Ec as [Ez Ec]. split; [|done].
      intros Hdiv. rewrite Hdiv in Ec. cbn [negb orb] in Ec. apply orb_true_iff in Ec as [Ec|Ec]; [|tauto].
      apply Z.eqb_eq in Ec. tauto. }
  destruct (Hv Hd) as (v & k & E & Iv & Hk). exists v. split; [done|]. exists k, (b1 || b2). split; [done|].
  destruct s; [done| |done]. destruct Hs as (-> & Hx & Hr'). split_and!; [done|by apply Hk|done].
Qed.

(** *** Comparisons and logic *)

Lemma denotes_bool v n b s : int_value v kBool n b ->
  match s with SNull => b = true | SBool c => b = false /\ n = bool_int c | SInt _ => False end ->
  denotes v kBool s.
Proof. intros Iv Hs. exists n, b. split; [done|]. destruct s; [done|done|]. by destruct Hs as [-> ->]. Qed.

Lemma sem_cmp_ok c l r tl tr a b s :
  int_type tl && int_type tr || is_type tl kBool && is_type tr kBool = true ->
  denotes l tl a -> denotes r tr b -> sem_cmp c a b = Some s ->
  exists v, compare_expr undef (build_compare undef ext c) l r = Some v /\ denotes v kBool s.
Proof.
  intros Ht (m & b1 & Il & Da) (n & b2 & Ir & Db) H.
  destruct (int_value_parts l tl m b1 Il) as (Cl & Vl & _ & _ & _ & Tl).
  destruct (int_value_parts r tr n b2 Ir) as (Cr & Vr & _ & _ & _ & Tr).
  assert (CompareTypeAccept tl tr = Some kBool) as Hc.
  { apply orb_true_iff in Ht as [[H1 H2]%andb_true_iff|[H1 H2]%andb_true_iff].
    - by apply int_type_cases in H1 as [->|[->| ->]], H2 as [->|[->| ->]].
    - apply bool_decide_eq_true in H1, H2. by subst. }
  assert (exists k, build_compare undef ext c (reg tl m) (reg tr n) = Some (reg kBool (bool_int k)) /\
    match s with SNull => b1 || b2 = true | SBool x => b1 || b2 = false /\ k = x | SInt _ => False end) as (k & Hk & Hs).
  { apply orb_true_iff in Ht as [[H1 H2]%andb_true_iff|[H1 H2]%andb_true_iff].
    - eexists. split; [by apply (proj1 (compare_regs undef ext c tl tr m n))|].
      destruct a as [|x|x], b as [|y|y]; cbn in H; simplify_eq; try done; try (by rewrite ?Da, ?Db, ?orb_true_r);
        destruct Da as (-> & -> & ?), Db as (-> & -> & ?); subst; done.
    - apply bool_decide_eq_true in H1, H2. subst. eexists. split; [exact (proj2 (compare_regs undef ext c kBool kBool m n) (proj1 (proj2 Il)) (proj1 (proj2 Ir)))|].
      destruct a as [|x|x], b as [|y|y]; cbn in H; simplify_eq; try done; try (by rewrite ?Da, ?Db, ?orb_true_r);
        destruct Da as (-> & -> & ?), Db as (-> & -> & ?); try done. split; [done|]. by destruct x, y. }
  destruct (SafeNull_int l r _ tl tr kBool m n _ b1 b2 Il Ir Hk eq_refl (bool_in_type k)) as (v & E & Iv).
  exists v. split.
  - unfold compare_expr. rewrite (infer_check _ l r tl tr kBool Tl Tr Hc). cbn [mbind option_bind]. rewrite E.
    cbn [mbind option_bind]. by destruct (int_value_parts v _ _ _ Iv) as (-> & _).
  - eapply denotes_bool; [exact Iv|]. destruct s; [done|done|]. destruct Hs as [-> ->]. done.
Qed.

(** The truth of a value that may be NULL, from its content. *)
Lemma truth_content v t n b a : int_value v t n b -> denotes v t a ->
  truth a = if b then None else Some (negb (n =? 0)).
Proof.
  intros Iv (n' & b' & Iv' & Da).
  destruct (int_value_parts v t n b Iv) as (_ & V & N & _). destruct (int_value_parts v t n' b' Iv') as (_ & V' & N' & _).
  rewrite V in V'. rewrite N in N'. injection V' as <-.
  assert (b' = b) as -> by (injection N'; by destruct b, b'). destruct a as [|x|x]; [by rewrite Da|..].
  - by destruct Da as (-> & -> & _).
  - destruct Da as (-> & -> & _). by destruct x.
Qed.

Lemma logical_int value null (f : option bool -> option bool -> option bool) l r tl tr a b :
  (forall x xn y yn, exists z zn, value (reg kBool (bool_int x)) (reg kBool (bool_int xn)) (reg kBool (bool_int y)) (reg kBool (bool_int yn)) = reg kBool (bool_int z) /\
     null (reg kBool (bool_int x)) (reg kBool (bool_int xn)) (reg kBool (bool_int y)) (reg kBool (bool_int yn)) = reg kBool (bool_int zn) /\
     f (if xn then None else Some x) (if yn then None else Some y) = if zn then None else Some z) ->
  IsInteger tl = true -> IsInteger tr = true -> denotes l tl a -> denotes r tr b ->
  exists v, logical_expr undef value null l r = Some v /\ denotes v kBool (of_truth (f (truth a) (truth b))).
Proof.
  intros Hf Hl Hr Dl Dr. pose proof Dl as (m & b1 & Il & _). pose proof Dr as (n & b2 & Ir & _).
  rewrite (truth_content l tl m b1 a Il Dl), (truth_content r tr n b2 b Ir Dr).
  destruct (int_value_parts l tl m b1 Il) as (_ & Vl & Nl & _ & _ & Tl).
  destruct (int_value_parts r tr n b2 Ir) as (_ & Vr & Nr & _ & _ & Tr).
  destruct (Hf (negb (m =? 0)) b1 (negb (n =? 0)) b2) as (z & zn & Ez & Ezn & ->).
  assert (LogicalOpTypeAccept tl tr = Some kBool) as Hc.
  { unfold LogicalOpTypeAccept, IsBaseType, IsNumber. by rewrite Hl, Hr, !orb_true_r. }
  eexists. split.
  - unfold logical_expr. rewrite (infer_check _ l r tl tr kBool Tl Tr Hc). cbn [mbind option_bind].
    rewrite Vl, Vr, !bool_cast_reg by (done || apply Il || apply Ir). cbn [mbind option_bind].
    unfold is_lty. rewrite !bool_decide_true by done. cbn [andb]. rewrite Nl, Nr, Ez, Ezn. done.
  - eapply denotes_bool; [by apply create_flag, bool_in_type|]. by destruct zn.
Qed.

Lemma sem_logic_ok op f l r tl tr a b :
  logic_op op = Some f -> IsInteger tl = true -> IsInteger tr = true -> denotes l tl a -> denotes r tr b ->
  exists v, BuildBinary undef ext op l r = Some v /\ denotes v kBool (of_truth (f (truth a) (truth b))).
Proof.
  intros Hop Hl Hr Dl Dr. destruct op; try done; injection Hop as <-; cbn [BuildBinary];
    (eapply logical_int; [|exact Hl|exact Hr|exact Dl|exact Dr]); intros x xn y yn;
    rewrite ?not_bool, ?or_bools, ?and_bools, ?xor_bools; rewrite ?or_bools, ?and_bools; rewrite ?or_bools;
    eexists _, _; (split; [reflexivity|]); (split; [reflexivity|]); by destruct x, xn, y, yn.
Qed.

Lemma sem_binary_ok op l r tl tr a b s :
  denotes l tl a -> denotes r tr b -> sem_binary op tl tr a b = Some s ->
  exists t v, infer_binary op tl tr = Some t /\ BuildBinary undef ext op l r = Some v /\ denotes v t s.
Proof.
  intros Dl Dr H. unfold sem_binary in H. destruct (cmp_op op) as [c|] eqn:Ec.
  - destruct (_ || _) eqn:Et; [|done]. destruct (sem_cmp_ok c l r tl tr a b s Et Dl Dr H) as (v & E & Dv).
    exists kBool, v. split_and!; [| |done].
    + assert (infer_binary op tl tr = CompareTypeAccept tl tr) as -> by (by destruct op).
      apply orb_true_iff in Et as [[H1 H2]%andb_true_iff|[H1 H2]%andb_true_iff].
      * by apply int_type_cases in H1 as [->|[->| ->]], H2 as [->|[->| ->]].
      * apply bool_decide_eq_true in H1, H2. by subst.
    + destruct op; try done; injection Ec as <-; exact E.
  - destruct (logic_op op) as [f|] eqn:Ef.
    + destruct (_ && _) eqn:Et; [|done]. apply andb_true_iff in Et as [H1 H2]. injection H as <-.
      destruct (sem_logic_ok op f l r tl tr a b Ef H1 H2 Dl Dr) as (v & E & Dv). exists kBool, v.
      split_and!; [|done|done].
      assert (infer_binary op tl tr = LogicalOpTypeAccept tl tr) as -> by (by destruct op).
      unfold LogicalOpTypeAccept, IsBaseType, IsNumber. by rewrite H1, H2, !orb_true_r.
    + destruct (_ && _) eqn:Et; [|done]. apply andb_true_iff in Et as [H1 H2].
      apply bind_Some in H as (t & Ht & H).
      destruct (sem_arith_ok op l r tl tr t a b s H1 H2 Ht Dl Dr H) as (Hi & v & E & Dv). by exists t, v.
Qed.

(** *** Unary operators, casts and selections *)

Lemma sem_unary_ok op l tl a s :
  denotes l tl a -> sem_unary op tl a = Some s ->
  exists t v, infer_unary op tl = Some t /\ BuildUnary undef op (Some t) l = Some v /\ denotes v t s.
Proof.
  intros Dl H. pose proof Dl as (m & b1 & Il & Da).
  destruct (int_value_parts l tl m b1 Il) as (_ & Vl & Nl & _ & _ & Tl).
  destruct op; cbn [sem_unary] in H; try done.
  - destruct (IsInteger tl) eqn:Et; [|done]. injection H as <-.
    assert (NotTypeAccept tl = Some kBool) as Hn.
    { unfold NotTypeAccept, IsBaseType, IsNumber. by rewrite Et, !orb_true_r. }
    exists kBool. eexists. split_and!; [exact Hn| |].
    + cbn [BuildUnary]. unfold BuildNotExpr, UnaryOpTypeInfer. rewrite (base_of_llvm _ _ Tl). cbn [mbind option_bind].
      rewrite Hn. cbn [mbind option_bind]. rewrite Vl, bool_cast_reg by (done || apply Il). cbn [mbind option_bind].
      unfold is_lty. rewrite bool_decide_true by done. rewrite Nl, not_bool. done.
    + rewrite (truth_content l tl m b1 a Il Dl). eapply denotes_bool; [by apply create_flag, bool_in_type|].
      by destruct b1, (m =? 0).
  - destruct (int_type tl) eqn:Et; [|done].
    assert (InferNumberCastTypes kInt16 tl = Some tl) as Hi by (by apply int_type_cases in Et as [->|[->| ->]]).
    assert (denotes (Create (getInt 16 0)) kInt16 (SInt 0)) as D0.
    { exists 0, false. split; [by apply create_int|done]. }
    destruct (sem_arith_ok kFnOpMinus (Create (getInt 16 0)) l kInt16 tl tl (SInt 0) a s eq_refl Et Hi D0 Dl H)
      as (_ & v & E & Dv). exists tl, v. split_and!; [|cbn [BuildUnary]|done].
    + cbn [infer_unary]. by apply int_type_cases in Et as [->|[->| ->]].
    + rewrite bool_decide_false; [exact E|]. intros [= ->]. done.
  - injection H as <-. by exists tl, l.
  - injection H as <-. exists kBool. eexists. split_and!; [done|reflexivity|]. unfold BuildIsNullExpr. rewrite Nl.
    eapply denotes_bool; [by apply create_int, bool_in_type|]. split; [done|].
    destruct a; [by rewrite Da|..]; by destruct Da as (-> & _).
Qed.

(** The content of a cast between integer types. *)
Definition cast_int (from to : DataType) (n : Z) : Z :=
  if is_type from to then n
  else if is_type to kBool then bool_int (negb (n =? 0))
  else if is_type from kBool then wrapu 1 n
  else if width from <? width to then n else wraps (width to) n.

Lemma BuildCast_int t v tv n b :
  int_value v tv n b -> IsInteger t = true ->
  exists u, BuildCast undef ext t v = Some u /\ int_value u t (cast_int tv t n) b.
Proof.
  intros Iv Ht. pose proof Iv as (Htv & Hn & flag & -> & Hf).
  assert (in_type t (cast_int tv t n) = true) as Hc.
  { unfold cast_int, is_type. destruct (decide (tv = t)) as [->|]; [by rewrite bool_decide_true|].
    rewrite (bool_decide_false (tv = t)) by done. apply integer_cases in Ht as [->|Ht].
    - rewrite bool_decide_true by done. apply bool_in_type.
    - rewrite bool_decide_false by (by intros ->). apply integer_cases in Htv as [->|Htv].
      + rewrite bool_decide_true by done. pose proof (wrapu_range 1 n ltac:(lia)) as Hr. apply in_type_range.
        apply int_type_cases in Ht as [->|[->| ->]]; cbn; cbn in Hr; lia.
      + rewrite bool_decide_false by (by intros ->). destruct (Z.ltb_spec (width tv) (width t)); [|by apply wraps_in_type].
        rewrite in_type_range in *. apply int_type_cases in Ht as [->|[->| ->]], Htv as [->|[->| ->]]; cbn in *; lia. }
  assert (exists u, BuildCast undef ext t (mkNV (Some (reg tv n)) flag (IntTy (width tv))) = Some u /\
    u = mkNV (Some (reg t (cast_int tv t n))) match flag with Some _ => Some (reg kBool (bool_int b)) | None => None end (IntTy (width t)))
    as (u & Eu & ->).
  { destruct Hf as [[-> ->]|[-> | ->]]; [|destruct b..];
      apply integer_cases in Ht as [->|[->|[->| ->]]%int_type_cases];
      apply integer_cases in Htv as [->|[->|[->| ->]]%int_type_cases]; eexists; split; reflexivity. }
  eexists. split; [exact Eu|]. split_and!; [done|done|]. eexists. split; [done|]. destruct flag; [right; by left|].
  left. destruct Hf as [[_ ->]|[|]]; [done|discriminate..].
Qed.

Lemma sem_cast_ok t l tl a s :
  denotes l tl a -> sem_cast t a = Some s ->
  exists v, BuildCast undef ext t l = Some v /\ denotes v t s.
Proof.
  intros (n & b & Il & Da) H.
  assert (IsInteger t = true) as Ht.
  { destruct a; cbn in H; repeat case_match; simplify_eq; try done; try (by apply bool_decide_eq_true in H0; subst);
      apply int_is_integer; try done; by apply andb_true_iff in H1 as [? _]. }
  destruct (BuildCast_int t l tl n b Il Ht) as (v & E & Iv). exists v. split; [done|].
  exists (cast_int tl t n), b. split; [done|]. destruct a as [|m|c]; cbn [sem_cast] in H.
  - rewrite Ht in H. by injection H as <-.
  - destruct Da as (-> & -> & Htl). destruct (is_type t kBool) eqn:Eb.
    + injection H as <-. apply bool_decide_eq_true in Eb as ->. split_and!; [done| |done].
      unfold cast_int. unfold is_type at 1. rewrite bool_decide_false by (by intros ->). done.
    + destruct (_ && _) eqn:Er; [|done]. injection H as <-. apply andb_true_iff in Er as [Hit Hr].
      split_and!; [done| |done]. unfold cast_int. rewrite Eb. destruct (is_type tl t); [done|].
      unfold is_type. rewrite bool_decide_false by (by intros ->). destruct (_ <? _); [done|].
      apply wraps_id; [done|]. by apply int_type_cases in Hit as [->|[->| ->]].
  - destruct Da as (-> & -> & ->). destruct (is_type t kBool) eqn:Eb.
    + injection H as <-. apply bool_decide_eq_true in Eb as ->. by destruct c.
    + destruct (int_type t) eqn:Hit; [|done]. injection H as <-. split_and!; [done| |done].
      unfold cast_int. rewrite Eb. unfold is_type. rewrite bool_decide_false by (by intros <-).
      rewrite bool_decide_true by done. by destruct c.
Qed.

Lemma null_branch t : IsInteger t = true ->
  exists u, branch (mkNV None None (IntTy (width t))) t u true /\ in_type t u = true.
Proof.
  intros Ht. destruct (Hundef t Ht) as (u & E & Hu). exists u. split; [|done]. split_and!; [|done|done].
  unfold GetValue, undef_value. cbn. by rewrite E.
Qed.

(** A branch of a CASE: an expression of the type, or the literal NULL. *)
Definition denotes_branch (v : NativeValue) (t : DataType) (a : sval) : Prop :=
  denotes v t a \/ v = CreateNull TokenTy /\ a = SNull.

Lemma Select_ok_sem c l r t sc a b :
  denotes c kBool sc -> denotes_branch l t a -> denotes_branch r t b -> denotes l t a \/ denotes r t b ->
  denotes (Select undef c l r) t (choose sc a b).
Proof.
  intros Dc Dl Dr Hor. pose proof Dc as (nc & bc & Ic & Hc).
  assert (IsInteger t = true) as Ht by (destruct Hor as [(? & ? & [H _] & _)|(? & ? & [H _] & _)]; exact H).
  set (l' := if IsConstNull l then SetType (nv_type r) l else l).
  set (r' := if IsConstNull r then SetType (nv_type l) r else r).
  assert (exists m b1, branch l' t m b1 /\ in_type t m = true /\
    match a with SNull => b1 = true | SInt x => b1 = false /\ m = x /\ int_type t = true
            | SBool x => b1 = false /\ m = bool_int x /\ t = kBool end) as (m & b1 & Bl & Hm & Ha).
  { destruct Dl as [(m & b1 & Il & Da)|[-> ->]].
    - exists m, b1. destruct (int_value_parts l t m b1 Il) as (Cl & _). unfold l'. rewrite Cl.
      split_and!; [by apply int_branch|apply Il|done].
    - destruct Hor as [(? & ? & (_ & _ & ? & [=] & _) & _)|(n & b2 & Ir & _)].
      destruct (int_value_parts r t n b2 Ir) as (_ & _ & _ & _ & Tr & _).
      destruct (null_branch t Ht) as (u & Bu & Hu). exists u, true. unfold l'. cbn. unfold SetType. cbn. by rewrite Tr. }
  assert (exists n b2, branch r' t n b2 /\ in_type t n = true /\
    match b with SNull => b2 = true | SInt x => b2 = false /\ n = x /\ int_type t = true
            | SBool x => b2 = false /\ n = bool_int x /\ t = kBool end) as (n & b2 & Br & Hn & Hb).
  { destruct Dr as [(n & b2 & Ir & Db)|[-> ->]].
    - exists n, b2. destruct (int_value_parts r t n b2 Ir) as (Cr & _). unfold r'. rewrite Cr.
      split_and!; [by apply int_branch|apply Ir|done].
    - destruct Hor as [(m' & b1' & Il & _)|(? & ? & (_ & _ & ? & [=] & _) & _)].
      destruct (int_value_parts l t m' b1' Il) as (_ & _ & _ & _ & Tl & _).
      destruct (null_branch t Ht) as (u & Bu & Hu). exists u, true. unfold r'. cbn. unfold SetType. cbn. by rewrite Tl. }
  pose proof (Select_branches _ l' r' t m n b1 b2 _ Bl Br Ht Hm Hn (condition_reg c nc bc Ic)) as Is.
  unfold Select. fold l' r'. eexists _, _. split; [exact Is|].
  assert (negb (nc =? 0) && negb bc = match sc with SBool true => true | _ => false end) as ->.
  { destruct sc as [|x|[]]; [by rewrite Hc, andb_false_r|by destruct Hc as (_ & _ & ?)|..];
      by destruct Hc as (-> & -> & _). }
  destruct sc as [| |[]]; done.
Qed.
End Native.

(** ** Whole expressions *)

Section Whole.
Context (G : nat -> option DataType) (rho : nat -> option sval).
Context (undef : LType -> Value) (ext : Externals) (env : nat -> option NativeValue).
Context (Hundef : forall t, IsInteger t = true -> exists n, undef (IntTy (width t)) = VInt n /\ in_type t n = true).
Context (Henv : forall x s, rho x = Some s -> exists t v, G x = Some t /\ env x = Some v /\ denotes v t s).

Lemma null_literal e : IsNullPrimary e = true ->
  infer G e = Some kNull /\ Build G undef ext env e = Some (CreateNull TokenTy).
Proof. destruct e; try done. intros E%bool_decide_eq_true. subst. by split. Qed.

Lemma sem_case_when type c t rest :
  sem_case G rho type (WhenExpr c t rest) =
  tc ← infer G c; s ← sem G rho c;
  a ← (if IsNullPrimary t then match rest with ElseExpr e => if IsNullPrimary e then None else Some SNull | _ => Some SNull end
       else tt ← infer G t; a ← sem G rho t; if is_type type tt then Some a else None);
  b ← sem_case G rho type rest;
  if is_type tc kBool then Some (choose s a b) else None.
Proof. done. Qed.
Lemma sem_case_else type e :
  sem_case G rho type (ElseExpr e) =
  if IsNullPrimary e then Some SNull
  else te ← infer G e; a ← sem G rho e; if is_type type te then Some a else None.
Proof. done. Qed.

Lemma denotes_const t v s : sem_const t v = Some s ->
  exists u, BuildConstExpr t v = Some u /\ denotes u t s.
Proof.
  destruct v as [|n| | | |]; try done. cbn [sem_const]. intros H.
  destruct (int_type t && in_type t n) eqn:E1.
  - injection H as <-. apply andb_true_iff in E1 as [Hi Hr].
    assert (BuildConstExpr t (VInt n) = Some (Create (reg t n))) as Eb by (by apply int_type_cases in Hi as [->|[->| ->]]).
    exists (Create (reg t n)). split; [done|]. exists n, false.
    split; [by apply create_int; [apply int_is_integer|]|done].
  - destruct (is_type t kBool && ((n =? 0) || (n =? -1))) eqn:E2; [|done]. injection H as <-. apply andb_true_iff in E2 as [Hb Hn].
    apply bool_decide_eq_true in Hb as ->. exists (Create (reg kBool n)). split; [done|]. exists n, false.
    apply orb_true_iff in Hn as [->%Z.eqb_eq| ->%Z.eqb_eq]; (split; [by apply create_int|done]).
Qed.

Lemma sem_correct :
  (forall e s, sem G rho e = Some s ->
     exists t v, infer G e = Some t /\ Build G undef ext env e = Some v /\ denotes v t s) /\
  (forall w type s, sem_case G rho type w = Some s -> type <> kNull ->
     infer_rest G type w = Some type /\ exists v, BuildCase G undef ext env w = Some v /\
     denotes_branch v type s /\ ((forall e, w = ElseExpr e -> IsNullPrimary e = false) -> denotes v type s)).
Proof.
  apply expr_whens_ind.
  - intros t v s H. destruct (denotes_const t v s H) as (u & E & D). by exists t, u.
  - intros x s H. by apply Henv.
  - intros op e IH s H. cbn [sem] in H. apply bind_Some in H as (te & Ete & (a & Ea & H)%bind_Some).
    destruct (IH a Ea) as (te' & v & Ete' & Ev & Dv). assert (te' = te) as -> by congruence.
    destruct (sem_unary_ok undef ext op v te a s Dv H) as (t & u & Ht & Eu & Du). exists t, u.
    assert (infer G (UnaryExpr op e) = Some t) as Hi by (cbn [infer]; by rewrite Ete).
    split_and!; [done| |done]. cbn [Build]. rewrite Ev, Hi. exact Eu.
  - intros op l IHl r IHr s H. cbn [sem] in H.
    apply bind_Some in H as (tl & Etl & (tr & Etr & (a & Ea & (b & Eb & H)%bind_Some)%bind_Some)%bind_Some).
    destruct (IHl a Ea) as (tl' & vl & Etl' & El & Dl). destruct (IHr b Eb) as (tr' & vr & Etr' & Er & Dr).
    assert (tl' = tl) as -> by congruence. assert (tr' = tr) as -> by congruence.
    destruct (sem_binary_ok undef ext op vl vr tl tr a b s Dl Dr H) as (t & v & Ht & Ev & Dv). exists t, v.
    split_and!; [|cbn [Build]; by rewrite El, Er|done]. cbn [infer]. by rewrite Etl, Etr.
  - intros t e IH s H. cbn [sem] in H. apply bind_Some in H as (a & Ea & H).
    destruct (IH a Ea) as (te & v & Ete & Ev & Dv).
    destruct (sem_cast_ok undef ext t v te a s Dv H) as (u & Eu & Du). exists t, u.
    split_and!; [|cbn [Build]; by rewrite Ev|done]. cbn [infer]. by rewrite Ete.
  - intros c IHc l IHl r IHr s H. cbn [sem] in H.
    apply bind_Some in H as (tc & Etc & (tl & Etl & (tr & Etr & (sc & Esc & (a & Ea & (b & Eb & H)%bind_Some)%bind_Some)%bind_Some)%bind_Some)%bind_Some).
    destruct (IHc sc Esc) as (tc' & vc & Etc' & Ec & Dc). destruct (IHl a Ea) as (tl' & vl & Etl' & El & Dl).
    destruct (IHr b Eb) as (tr' & vr & Etr' & Er & Dr).
    assert (tc' = tc) as -> by congruence. assert (tl' = tl) as -> by congruence. assert (tr' = tr) as -> by congruence.
    destruct (_ && _) eqn:Et; [|done]. injection H as <-. pose proof Et as [E1 E2]%andb_true_iff.
    apply bool_decide_eq_true in E1, E2. subst tc tl. exists tr.
    eexists. split_and!; [cbn [infer]; rewrite Etc, Etl, Etr; cbn; by rewrite Et|cbn [Build]; by rewrite Ec, El, Er|].
    apply Select_ok_sem; try done; by left.
  - intros [e|c t rest] IHw s H; [done|]. cbn [sem] in H. apply bind_Some in H as (type & Ety & H).
    destruct (is_type type kNull) eqn:En; [done|]. apply bool_decide_eq_false in En as Hk.
    destruct (IHw type s H Hk) as (Hi & v & Ev & _ & Dv). exists type, v.
    split_and!; [|exact Ev|by apply Dv]. rewrite infer_case. rewrite infer_rest_when in Hi.
    apply bind_Some in Hi as (tc & -> & (tt & Htt & Hi)%bind_Some). cbn. rewrite Ety. cbn.
    by destruct (then_accepts type tt).
  - intros e IH type s H Hk. rewrite sem_case_else in H. rewrite infer_rest_else.
    destruct (IsNullPrimary e) eqn:En.
    + injection H as <-. destruct (null_literal e En) as [E1 E2]. rewrite E1. cbn. split; [done|].
      exists (CreateNull TokenTy). split_and!; [exact E2|by right|]. intros Hn. by rewrite (Hn e eq_refl) in En.
    + apply bind_Some in H as (te & Ete & (a & Ea & H)%bind_Some). destruct (is_type type te) eqn:Et; [|done].
      injection H as <-. apply bool_decide_eq_true in Et as <-. destruct (IH a Ea) as (te' & v & Ete' & Ev & Dv).
      assert (te' = type) as -> by congruence. rewrite Ete. cbn. unfold is_type. rewrite bool_decide_true by done.
      split; [done|]. exists v. split_and!; [exact Ev|by left|done].
  - intros c IHc t IHt rest IHr type s H Hk. rewrite sem_case_when in H.
    apply bind_Some in H as (tc & Etc & (sc & Esc & (a & Ha & (b & Eb & H)%bind_Some)%bind_Some)%bind_Some).
    destruct (is_type tc kBool) eqn:Et; [|done]. injection H as <-. apply bool_decide_eq_true in Et as ->.
    destruct (IHc sc Esc) as (tc' & vc & Etc' & Ec & Dc). assert (tc' = kBool) as -> by congruence.
    destruct (IHr type b Eb Hk) as (Hi & vr & Er & Br & Dr).
    assert (exists tt vt, infer G t = Some tt /\ Build G undef ext env t = Some vt /\ then_accepts type tt = true /\
      denotes_branch vt type a /\ (denotes vt type a \/ denotes vr type b)) as (tt & vt & Ett & Evt & Hta & Bt & Hor).
    { destruct (IsNullPrimary t) eqn:En.
      - destruct (null_literal t En) as [E1 E2]. eexists _, _. split_and!; [exact E1|exact E2|done|..].
        + right. split; [done|]. destruct rest; [case_match|]; by simplify_eq.
        + right. apply Dr. intros e ->. by destruct (IsNullPrimary e).
      - apply bind_Some in Ha as (tt & Htt & (a' & Ha' & Hif)%bind_Some). destruct (is_type type tt) eqn:Et; [|done].
        injection Hif as <-. apply bool_decide_eq_true in Et as <-.
        destruct (IHt a' Ha') as (tt' & vt & Ett' & Evt & Dt). assert (tt' = type) as -> by congruence.
        exists type, vt. split_and!; [done|done| |by left|by left]. unfold then_accepts, is_type.
        by rewrite (bool_decide_true (type = type)), orb_true_r. }
    rewrite infer_rest_when, BuildCase_when, Etc, Ett, Ec, Evt, Er. cbn [mbind option_bind]. rewrite Hta. split; [done|].
    pose proof (Select_ok_sem undef Hundef vc vt vr type sc a b Dc Bt Br Hor) as Ds.
    eexists. by split_and!; [reflexivity|left|].
Qed.
End Whole.

(** C4: An expression over integers, booleans and NULL that has a value in the
    reference semantics (exact arithmetic, three-valued logic, CASE taking the
    first true branch) is accepted by type inference and compiled, and the native
    value holds that value, with the null flag set exactly when it is NULL,
    whatever undefined registers and the contents behind NULL columns hold. For
    DIV and MOD by zero, which SQL leaves open, the reference takes the value the
    code generator selects, zero; the case 17 of [test_arithmetic.yaml], marked as
    a bug, asks for an infinity in an integer column instead. *)
Theorem expr_exact (G : nat -> option DataType) (rho : nat -> option sval) undef ext env e s :
  (forall t, IsInteger t = true -> exists n, undef (IntTy (width t)) = VInt n /\ in_type t n = true) ->
  (forall x a, rho x = Some a -> exists t v, G x = Some t /\ env x = Some v /\ denotes v t a) ->
  sem G rho e = Some s ->
  exists t v, infer G e = Some t /\ Build G undef ext env e = Some v /\ denotes v t s.
Proof. intros Hu He. by apply (proj1 (sem_correct G rho undef ext env Hu He)). Qed.

(** A row with a NULL bigint column 0 and an int column 1 that is 7, and
    [CASE WHEN c0 > c1 THEN 1 WHEN c0 > c1 OR c1 DIV 0 = 0 THEN c1 * -3 ELSE NULL END]
    over bigint. *)
Module Example.
Definition G (x : nat) : option DataType := match x with 0%nat => Some kInt64 | 1%nat => Some kInt32 | _ => None end.
Definition rho (x : nat) : option sval := match x with 0%nat => Some SNull | 1%nat => Some (SInt 7) | _ => None end.
Definition undef (_ : LType) : Value := VInt 0.
Definition ext : Externals := mkExternals (fun _ _ => []) (fun _ _ => (VInt 0, true)) (fun _ _ => (0, true)) (fun _ _ => (0, true)).
Definition env (x : nat) : option NativeValue :=
  match x with
  | 0%nat => Some (CreateWithFlag (reg kInt64 99) (reg kBool (-1)))
  | 1%nat => Some (CreateWithFlag (reg kInt32 7) (reg kBool 0))
  | _ => None
  end.
Definition query : expr :=
  CaseWhenExpr
    (WhenExpr (BinaryExpr kFnOpGt (VarNode 0) (VarNode 1)) (CastExpr kInt64 (ConstNode kInt32 (VInt 1)))
    (WhenExpr (BinaryExpr kFnOpOr (BinaryExpr kFnOpGt (VarNode 0) (VarNode 1))
                (BinaryExpr kFnOpEq (BinaryExpr kFnOpDiv (VarNode 1) (ConstNode kInt32 (VInt 0))) (ConstNode kInt32 (VInt 0))))
       (BinaryExpr kFnOpMulti (VarNode 1) (CastExpr kInt64 (ConstNode kInt32 (VInt (-3)))))
    (ElseExpr (ConstNode kNull (VInt 0))))).
End Example.

Lemma expr_exact_witness :
  sem Example.G Example.rho Example.query = Some (SInt (-21)) /\
  exists t v, infer Example.G Example.query = Some t /\
    Build Example.G Example.undef Example.ext Example.env Example.query = Some v /\ denotes v t (SInt (-21)).
Proof.
  split; [reflexivity|]. apply (expr_exact Example.G Example.rho).
  - intros t Ht. exists 0. split; [reflexivity|]. by destruct t.
  - intros [|[|x]] a E; [| |discriminate]; injection E as <-.
    + exists kInt64. eexists. split_and!; [reflexivity|reflexivity|]. exists 99, true.
      split; [|reflexivity]. split_and!; [reflexivity|reflexivity|]. eexists. split; [reflexivity|]. right; by left.
    + exists kInt32. eexists. split_and!; [reflexivity|reflexivity|]. exists 7, false.
      split; [|done]. split_and!; [reflexivity|reflexivity|]. eexists. split; [reflexivity|]. right; by left.
  - reflexivity.
Defined.

(** ** Where compiled code and SQL part *)

(** Integer division is guarded against a zero divisor and nothing else:
    with a non-null dividend and divisor, compiled [DIV] and [%] are undefined
    behaviour of the emitted code exactly at the least value of the type
    divided by -1. *)
Theorem division_undefined (t : DataType) (m n : Z) :
  int_type t = true -> in_type t m = true -> in_type t n = true ->
  exists q r, BuildSDivExpr (reg t m) (reg t n) = Some q /\ BuildModExpr (reg t m) (reg t n) = Some r /\
    (lv_rt q = UB <-> m = - 2 ^ (width t - 1) /\ n = -1) /\
    (lv_rt r = UB <-> m = - 2 ^ (width t - 1) /\ n = -1).
Proof.
  intros Ht Hm Hn.
  assert (InferNumberCastTypes t t = Some t) as Hc by (by apply int_type_cases in Ht as [->|[->| ->]]).
  destruct (add_regs t t t m n Ht Ht Hc) as (_ & _ & _ & Hq & Hr & _). rewrite Hq, Hr.
  destruct (decide (m = - 2 ^ (width t - 1) /\ n = -1)) as [[-> ->]|Hd].
  - apply int_type_cases in Ht as [->|[->| ->]]; (eexists _, _; split_and!; [reflexivity|reflexivity|done|done]).
  - destruct (guard_zero_regs t m n Ht) as [-> ->].
    + destruct (Z.eqb_spec n 0) as [->|Hz]; [by left|]. right. unfold div_defined.
      apply andb_true_iff. split; [by apply negb_true_iff, Z.eqb_neq|].
      apply negb_true_iff, andb_false_iff. rewrite !Z.eqb_neq.
      destruct (decide (n = -1)) as [->|]; [left; tauto|by right].
    + eexists _, _. split_and!; [reflexivity|reflexivity|done|done].
Qed.

Lemma division_undefined_witness :
  in_type kInt16 (-32768) = true /\
  exists q r, BuildSDivExpr (reg kInt16 (-32768)) (reg kInt16 (-1)) = Some q /\
    BuildModExpr (reg kInt16 (-32768)) (reg kInt16 (-1)) = Some r /\
    (lv_rt q = UB <-> Z.opp 32768 = - 2 ^ (width kInt16 - 1) /\ Z.opp 1 = -1) /\
    (lv_rt r = UB <-> Z.opp 32768 = - 2 ^ (width kInt16 - 1) /\ Z.opp 1 = -1).
Proof. split; [reflexivity|]. apply (division_undefined kInt16 (-32768) (-1)); reflexivity. Defined.
