(* ===== verification/Project.v ===== *)
(** * Compiled projections

    Models the function that a projection is compiled to
    ([RowFnLetIRBuilder::Build] of [src/codegen/fn_let_ir_builder.cc]): it
    decodes the columns its expressions use from the slices of the input row
    ([BuildGetFieldExpr] and [ExtractSliceFromRow] of
    [src/codegen/expr_ir_builder.cc]), evaluates the expressions, and encodes
    the results as an output row. Frames and aggregate columns are left out:
    expressions have no calls here. *)

From Stdlib Require Import SpecFloat.
From stdpp Require Import base numbers list option gmap.
From S2P Require Import Prelude Layout TypeCodec RowBuilder RowCodec RowFormat CompiledCodec Rows SchemasContext Llvm ExprTypes ExprBuilder Expr.
Local Open Scope cpp_scope.

(** ** Machine floats *)

(** The IEEE layout with [mw] bits of mantissa and [ew] bits of exponent. *)
Definition fp_decode (mw ew bits : Z) : spec_float :=
  let s := Z.testbit bits (mw + ew) in
  let m := bits mod 2 ^ mw in
  let e := (bits / 2 ^ mw) mod 2 ^ ew in
  let bias := 2 ^ (ew - 1) - 1 in
  if e =? 0 then (if m =? 0 then S754_zero s else S754_finite s (Z.to_pos m) (1 - bias - mw))
  else if e =? 2 ^ ew - 1 then (if m =? 0 then S754_infinity s else S754_nan)
  else S754_finite s (Z.to_pos (m + 2 ^ mw)) (e - bias - mw).
Definition fp_encode (mw ew : Z) (x : spec_float) : Z :=
  let bias := 2 ^ (ew - 1) - 1 in
  let sign (s : bool) := if s then 2 ^ (mw + ew) else 0 in
  match x with
  | S754_zero s => sign s
  | S754_infinity s => sign s + (2 ^ ew - 1) * 2 ^ mw
  | S754_nan => (2 ^ ew - 1) * 2 ^ mw + 2 ^ (mw - 1)
  | S754_finite s m e =>
      sign s + (if Z.pos m <? 2 ^ mw then Z.pos m else (e + bias + mw) * 2 ^ mw + (Z.pos m - 2 ^ mw))
  end.

(** ** Reading a column *)

Definition SchemaType2DataType (t : Ty) : option DataType :=
  match t with
  | Layout.kBool => Some kBool
  | Layout.kInt16 => Some kInt16
  | Layout.kInt32 => Some kInt32
  | Layout.kInt64 => Some kInt64
  | Layout.kFloat => Some kFloat
  | Layout.kDouble => Some kDouble
  | Layout.kVarchar => Some kVarchar
  | Layout.kTimestamp => Some kTimestamp
  | Layout.kDate => Some kDate
  | Layout.kBlob | Layout.kNull => None
  end.

Definition DataType2SchemaType (t : DataType) : option Ty :=
  match t with
  | kBool | kNull => Some Layout.kBool
  | kInt16 => Some Layout.kInt16
  | kInt32 => Some Layout.kInt32
  | kInt64 => Some Layout.kInt64
  | kFloat => Some Layout.kFloat
  | kDouble => Some Layout.kDouble
  | kVarchar => Some Layout.kVarchar
  | kTimestamp => Some Layout.kTimestamp
  | kDate => Some Layout.kDate
  end.

(** The register a getter of [codec::v1] returns: the word is cut to the type
    with which the function is declared. *)
Definition word_reg (t : DataType) (n : Native) : Rt :=
  match n, t with
  | NStr s, _ => Val (VString s)
  | NWord z, kFloat => Val (VFp (fp_decode 23 8 z))
  | NWord z, kDouble => Val (VFp (fp_decode 52 11 z))
  | NWord z, kBool => Val (VInt (wraps 1 z))
  | NWord z, _ => Val (VInt z)
  end.

(** The native value of a decoded field. The null flag of a field of fixed
    width is a byte, that of a string a bit. *)
Definition field_value (t : DataType) (r : outcome (Native * bool)) : option NativeValue :=
  let reg ty := mkLV ty match r with Done (n, _) => word_reg t n | _ => UB end in
  let flag ty := mkLV ty match r with
    | Done (_, b) => Val (VInt match ty with IntTy 1 => bool_int b | _ => Z.b2z b end)
    | _ => UB end in
  match r, t with
  | Refused, _ => None
  | _, kNull => None
  | _, kTimestamp => Some (CreateWithFlag (NewTimestamp (reg (IntTy 64))) (flag (IntTy 8)))
  | _, kDate => Some (CreateWithFlag (NewDate (reg (IntTy 32))) (flag (IntTy 8)))
  | _, kVarchar => Some (CreateWithFlag (reg StringPtrTy) (flag (IntTy 1)))
  | _, _ => ty ← GetLlvmType t; Some (CreateWithFlag (reg ty) (flag (IntTy 8)))
  end.

Section Project.
Context (spark : bool) (ctx : SchemasContext).

(** [GetFieldExpr::InferAttr]: the type of a column. *)
Definition field_type (column_id : nat) : option DataType :=
  match ResolveColumnIndexByID (Z.of_nat column_id) ctx with
  | Done (i, j) => schema ← GetSchema i ctx; c ← schema !! j; SchemaType2DataType (col_type c)
  | _ => None
  end.

(** [RowGetSlice] and [RowGetSliceSize], called by compiled code; the size is
    passed as a 32-bit number. *)
Definition ExtractSliceFromRow (row : Row) (schema_idx : nat) : option (option (list Z) * Z) :=
  slice_ptr ← buf row (Z.of_nat schema_idx);
  slice_size ← size row (Z.of_nat schema_idx);
  Some (slice_ptr, u32 slice_size).

(** The column [col_idx] of a slice of the row. *)
Definition slice_field (slice : option (option (list Z) * Z)) (schema_idx col_idx : nat) : option NativeValue :=
  format ← GetRowFormat schema_idx ctx;
  info ← GetColumnInfo (Z.of_nat col_idx) format;
  t ← SchemaType2DataType (ci_type info);
  field_value t
    match slice with
    | Some (Some b, slice_size) => BuildGetField spark format (Z.of_nat col_idx) b slice_size
    | _ => Undefined
    end.

Definition BuildGetFieldExpr (row : Row) (column_id : nat) : option NativeValue :=
  match ResolveColumnIndexByID (Z.of_nat column_id) ctx with
  | Done (schema_idx, col_idx) => slice_field (ExtractSliceFromRow row schema_idx) schema_idx col_idx
  | _ => None
  end.

(** ** Output values *)

(** The content of a register, as a value of the row encoder. A date keeps its
    code. *)
Definition content (v : LValue) : option RowBuilder.Value :=
  match getType v, lv_rt v with
  | IntTy 1, Val (VInt n) => Some (RowBuilder.VBool (negb (n =? 0)))
  | IntTy 16, Val (VInt n) => Some (VInt16 n)
  | IntTy 32, Val (VInt n) => Some (VInt32 n)
  | IntTy 64, Val (VInt n) => Some (VInt64 n)
  | FloatTy, Val (VFp x) => Some (VFloat (fp_encode 23 8 x))
  | DoubleTy, Val (VFp x) => Some (VDouble (fp_encode 52 11 x))
  | StringPtrTy, Val (VString s) => Some (RowBuilder.VString s)
  | TimestampPtrTy, Val (VTimestamp ts) => Some (RowBuilder.VTimestamp ts)
  | DatePtrTy, Val (VDate code) =>
      Some (RowBuilder.VDate (Z.shiftr code 16 + 1900) (Z.land (Z.shiftr code 8) 255 + 1) (Z.land code 255))
  | _, _ => None
  end.

Definition flag_content (v : LValue) : option bool :=
  match lv_rt v with Val (VInt n) => Some (negb (n =? 0)) | _ => None end.

Definition output_value (v : NativeValue) : outcome CompiledCodec.NativeValue :=
  match nv_raw v with
  | None =>
      match GetBaseType (nv_type v) with
      | Some kNull => Done NNullTy
      | Some t => match DataType2SchemaType t with Some ty => Done (NConstNull ty) | None => Refused end
      | None => Refused
      end
  | Some raw =>
      x <~ access (content raw);
      if HasFlag v then b <~ access (flag_content (GetIsNull v)); Done (NReg x (Some b)) else Done (NReg x None)
  end.

(** ** The compiled function *)

Context (undef : LType -> Value) (ext : Externals) (junk : nat -> list Z).

(** [BuildProject]: the expression is built and its type must have a column
    type. *)
Definition BuildProject (row : Row) (e : expr) : outcome CompiledCodec.NativeValue :=
  match Build field_type undef ext (BuildGetFieldExpr row) e with
  | None => Refused
  | Some v =>
      match data_type ← GetBaseType (nv_type v); DataType2SchemaType data_type with
      | None => Refused
      | Some _ => output_value v
      end
  end.

Fixpoint build_outputs (row : Row) (es : list expr) : outcome (list (option CompiledCodec.NativeValue)) :=
  match es with
  | [] => Done []
  | e :: es' => v <~ BuildProject row e; outs <~ build_outputs row es'; Done (Some v :: outs)
  end.

(** The compiled function on a row: the buffer of the output row. *)
Definition RowFnLet (es : list expr) (output_schema : list ColumnDef) (row : Row) : outcome Slice :=
  outs <~ build_outputs row es;
  r <~ BuildEncode spark junk output_schema outs;
  Done (mkSlice r.1 (Some r.2)).
End Project.
