(* ===== verification/ProjectProof.v ===== *)
(** * Compiled projections compute SQL values

    From stored rows to stored rows: columns are decoded from the slices of a
    row, expressions computed and the results encoded, and the output row
    holds the values that the reference semantics gives the expressions. *)

From stdpp Require Import base numbers list option gmap.
From S2P Require Import Prelude Layout TypeCodec RowBuilder RowView RowCodec RowWrite RowRead RowErrors RowFormat CompiledCodec CompiledProof Rows SchemasContext SchemasProof Llvm ExprTypes ExprBuilder Expr ExprProof ExprSem Project.
Local Open Scope cpp_scope.

(** ** Stored rows *)

(** A slice that holds a row of values of a schema. *)
Definition slice_holds (cols : list ColumnDef) (vs : list (option RowBuilder.Value)) (sl : Slice) : Prop :=
  row_ok cols vs /\ row_size cols vs <> 16777216 /\
  exists b, sl = mkSlice (row_size cols vs) (Some b) /\
    row_holds cols (row_size cols vs) (GetAddrLength (row_size cols vs)) vs b.

(** A row whose slices hold the values [vss] of the sources of a context. *)
Definition row_stores (ctx : SchemasContext) (vss : list (list (option RowBuilder.Value))) (row : Row) : Prop :=
  forall i vs, vss !! i = Some vs ->
    exists cols sl, GetSchema i ctx = Some cols /\ nth_slice row (Z.of_nat i) = Some sl /\ slice_holds cols vs sl.

Lemma stored_slice cols vs b0 : row_ok cols vs -> row_size cols vs <> 16777216 ->
  row_size cols vs <= Z.of_nat (length b0) ->
  exists b, encode_row cols vs b0 = Some b /\ slice_holds cols vs (mkSlice (row_size cols vs) (Some b)).
Proof.
  intros Hok H24 Hb. destruct (encode_row_holds cols vs b0 Hok Hb) as (_ & _ & rb1 & rb2 & b & E1 & E2 & E3 & Hh).
  exists b. split; [|by split_and!; [..|exists b]].
  unfold encode_row. fold (row_size cols vs). rewrite E1. cbn [mbind option_bind]. by rewrite E2.
Qed.

(** Readers of a slice get its values. *)
Lemma slice_readable cols vs sl : slice_holds cols vs sl ->
  exists rv, RowView_new false cols (sl_data sl) (sl_size sl) = Some rv /\ rv_is_valid rv = true /\
    forall j c v, cols !! j = Some c -> vs !! j = Some v -> read_value (col_type c) (Z.of_nat j) rv = Some (expected v).
Proof.
  intros (Hok & H24 & b & -> & Hh). destruct (row_size_exact _ _ Hok) as [He Hsz]. destruct Hok as [Hc Hv Hne Hn Hs].
  exists (view cols (row_size cols vs) b). split_and!; [by apply (RowView_new_view cols _ vs b)|done|].
  intros j c v. by apply (read_value_correct cols (row_size cols vs) vs b).
Qed.

(** ** Columns *)

Definition sval_of (v : option RowBuilder.Value) : option sval :=
  match v with
  | None => Some SNull
  | Some (RowBuilder.VBool b) => Some (SBool b)
  | Some (VInt16 n) | Some (VInt32 n) | Some (VInt64 n) => Some (SInt n)
  | _ => None
  end.

(** The value of a column of a stored row, for integers and booleans. *)
Definition column_value (ctx : SchemasContext) (vss : list (list (option RowBuilder.Value))) (x : nat) : option sval :=
  match ResolveColumnIndexByID (Z.of_nat x) ctx with
  | Done (i, j) =>
      t ← field_type ctx x;
      if IsInteger t then vs ← vss !! i; v ← vs !! j; sval_of v else None
  | _ => None
  end.

Lemma built_format spark ctx i cols : built spark ctx -> GetSchema i ctx = Some cols ->
  GetRowFormat i ctx = Some (RowFormat_new spark (Some cols)).
Proof.
  intros Hb. unfold GetSchema, GetSchemaSource, GetRowFormat. rewrite (bt_formats _ _ Hb), list_lookup_fmap.
  destruct (sc_schema_sources ctx !! i) as [s|]; [|done]. intros E. cbn. by rewrite E.
Qed.

Lemma row_format_info cols vs j c : row_ok cols vs -> cols !! j = Some c ->
  exists info, GetColumnInfo (Z.of_nat j) (RowFormat_new false (Some cols)) = Some info /\ ci_type info = col_type c.
Proof.
  intros [Hc Hv Hne Hn Hs] Hj.
  pose proof (sumz_nonneg strs strs_nonneg cols). pose proof (sumz_nonneg body_len body_len_nonneg vs).
  rewrite (GetColumnInfo_spec cols Hc Hn) with (c := c) by (done || lia). by eexists.
Qed.

(** A decoded integer or boolean. *)
Lemma field_denotes (c : ColumnDef) (t : DataType) v s : SchemaType2DataType (col_type c) = Some t -> IsInteger t = true ->
  value_fits c v -> sval_of v = Some s ->
  exists nv, field_value t (Done (NWord (from_option value_word 0 v), is_null_value v)) = Some nv /\ denotes nv t s.
Proof.
  intros Ht Hi Hf Hs.
  assert (exists n, word_reg t (NWord (from_option value_word 0 v)) = Val (VInt n) /\ in_type t n = true /\
    match s with SNull => v = None | SInt m => v <> None /\ n = m /\ int_type t = true
    | SBool b => v <> None /\ n = bool_int b /\ t = kBool end) as (n & En & Hn & Hsn).
  { destruct v as [x|]; cbn in Hs.
    - destruct Hf as [Hx Hr]. destruct x; try done; cbn in Hx; rewrite <- Hx in Ht; injection Ht as <-; injection Hs as <-;
        cbn in Hr; eexists; (split; [reflexivity|]); cbn.
      + by destruct b.
      + split; [apply in_type_range; cbn; lia|done].
      + split; [apply in_type_range; cbn; lia|done].
      + split; [apply in_type_range; cbn; lia|done].
    - injection Hs as <-. exists 0. by destruct t. }
  assert (field_value t (Done (NWord (from_option value_word 0 v), is_null_value v)) =
    Some (CreateWithFlag (reg t n) (mkLV (IntTy 8) (Val (VInt (Z.b2z (is_null_value v))))))) as E.
  { unfold field_value. rewrite En. by destruct t. }
  rewrite E. eexists. split; [done|]. exists n, (is_null_value v). split.
  - split_and!; [done|done|]. eexists. split; [reflexivity|]. by right; right.
  - destruct s; [by subst v|by destruct v as [x|], Hsn as (? & ? & ?)..].
Qed.

(** Only strings need the size of the slice. *)
Lemma BuildGetField_size rf j b n n' info : GetColumnInfo j rf = Some info -> ci_type info <> Layout.kVarchar ->
  BuildGetField false rf j b n = BuildGetField false rf j b n'.
Proof. intros E H. unfold BuildGetField. rewrite E. by destruct (ci_type info). Qed.

(** The column at a position of a stored row, read from its slice. *)
Lemma position_denotes ctx vss row i j t vs v s : built false ctx -> row_stores ctx vss row ->
  (sc ← GetSchema i ctx; c ← sc !! j; SchemaType2DataType (col_type c)) = Some t -> IsInteger t = true ->
  vss !! i = Some vs -> vs !! j = Some v -> sval_of v = Some s ->
  exists n b nv, nth_slice row (Z.of_nat i) = Some (mkSlice n (Some b)) /\
    (forall n', slice_field false ctx (Some (Some b, n')) i j = Some nv) /\ denotes nv t s.
Proof.
  intros Hb Hrow Et Hi Evs Ev Hs.
  destruct (Hrow i vs Evs) as (cols & sl & Esch & Esl & Hok & H24 & b & -> & Hh).
  rewrite Esch in Et. cbn [mbind option_bind] in Et. apply bind_Some in Et as (c & Ec & Hc).
  destruct (Forall2_lookup_l _ _ _ _ _ (ok_values _ _ Hok) Ec) as (v' & Ev' & Hfit). assert (v' = v) as -> by congruence.
  destruct (field_denotes c t v s Hc Hi Hfit Hs) as (nv & Env & Hd).
  destruct (row_size_exact _ _ Hok) as [He Hsz].
  exists (row_size cols vs), b, nv. split_and!; [done| |done]. intros n'. unfold slice_field. rewrite (built_format false ctx i cols Hb Esch). cbn [mbind option_bind].
  destruct (row_format_info cols vs j c Hok Ec) as (info & Einfo & Etype).
  rewrite Einfo. cbn [mbind option_bind]. rewrite Etype, Hc. cbn [mbind option_bind].
  destruct Hok as [Hcs Hv Hne Hn Hsm].
  assert (col_type c <> Layout.kVarchar) as Hvar by (intros Hvar; rewrite Hvar in Hc; by injection Hc as <-).
  rewrite (BuildGetField_size _ _ b n' (row_size cols vs) info Einfo) by congruence.
  rewrite (BuildGetField_primary cols (row_size cols vs) vs b Hcs Hn Hsz Hv He Hh H24 j c v); try done.
  by apply bool_decide_eq_false.
Qed.

Lemma column_denotes ctx vss row x s : built false ctx -> row_stores ctx vss row ->
  column_value ctx vss x = Some s ->
  exists t v, field_type ctx x = Some t /\ BuildGetFieldExpr false ctx row x = Some v /\ denotes v t s.
Proof.
  intros Hb Hrow H. unfold column_value in H. destruct (ResolveColumnIndexByID (Z.of_nat x) ctx) as [| |[i j]] eqn:Er; try done.
  apply bind_Some in H as (t & Et & H). destruct (IsInteger t) eqn:Hi; [|done].
  apply bind_Some in H as (vs & Evs & (v & Ev & Hs)%bind_Some). exists t.
  pose proof Et as Et'. unfold field_type in Et'. rewrite Er in Et'.
  destruct (position_denotes ctx vss row i j t vs v s Hb Hrow Et' Hi Evs Ev Hs) as (n & b & nv & Esl & Ef & Hd).
  exists nv. split_and!; [done| |done]. unfold BuildGetFieldExpr. rewrite Er.
  unfold ExtractSliceFromRow, buf, size. rewrite Esl. cbn [fmap option_fmap option_map mbind option_bind sl_data sl_size].
  apply Ef.
Qed.

(** ** Outputs *)

(** The value of a column of type [t] for the result of an expression. *)
Definition cell (t : Ty) (s : sval) : option RowBuilder.Value :=
  match s, t with
  | SBool b, Layout.kBool => Some (RowBuilder.VBool b)
  | SInt n, Layout.kInt16 => Some (VInt16 n)
  | SInt n, Layout.kInt32 => Some (VInt32 n)
  | SInt n, Layout.kInt64 => Some (VInt64 n)
  | _, _ => None
  end.

Lemma output_ok c nv t s : denotes nv t s -> DataType2SchemaType t = Some (col_type c) ->
  exists out, output_value nv = Done out /\ native_repr c out (cell (col_type c) s) /\ value_fits c (cell (col_type c) s) /\
    GetBaseType (nv_type nv) = Some t.
Proof.
  intros (n & b & (Ht & Hn & flag & -> & Hf) & Hs) Hc.
  assert (exists x, content (reg t n) = Some x /\ value_type x = col_type c /\ value_in_range x /\
    (b = false -> Some x = cell (col_type c) s)) as (x & Ex & Hx & Hr & Hcell).
  { apply in_type_range in Hn as Hrange. destruct t; try done; injection Hc as Hc; rewrite <- Hc; eexists; (split; [reflexivity|]).
    - split_and!; [done|done|]. intros ->. destruct s as [|m|b']; [done|by destruct Hs as (_ & _ & ?)|].
      destruct Hs as (_ & -> & _). by destruct b'.
    - split_and!; [done|cbn in *; lia|]. intros ->. destruct s as [|m|b']; [done|by destruct Hs as (_ & -> & _)|by destruct Hs as (_ & _ & ?)].
    - split_and!; [done|cbn in *; lia|]. intros ->. destruct s as [|m|b']; [done|by destruct Hs as (_ & -> & _)|by destruct Hs as (_ & _ & ?)].
    - split_and!; [done|cbn in *; lia|]. intros ->. destruct s as [|m|b']; [done|by destruct Hs as (_ & -> & _)|by destruct Hs as (_ & _ & ?)]. }
  assert (cell (col_type c) s = if b then None else Some x) as Ec.
  { destruct b; [|by rewrite <- Hcell]. destruct s; [done|by destruct Hs..]. }
  assert (output_value (mkNV (Some (reg t n)) flag (IntTy (width t))) = Done (NReg x (match flag with Some _ => Some b | None => None end))) as Eo.
  { unfold output_value. cbn [nv_raw]. rewrite Ex. cbn [access obind]. destruct Hf as [[-> ->]|[-> | ->]]; [done|by destruct b..]. }
  exists (NReg x (match flag with Some _ => Some b | None => None end)). rewrite Ec. split_and!; [done| | |].
  - destruct Hf as [[-> ->]|[-> | ->]]; [done|by destruct b..].
  - destruct b; [done|]. by split.
  - by destruct t.
Qed.

(** ** Projections *)

Section Projection.
Context (ctx : SchemasContext) (undef : LType -> Llvm.Value) (ext : Externals).
Context (vss : list (list (option RowBuilder.Value))) (row : Row).
Context (Hb : built false ctx) (Hrow : row_stores ctx vss row).
Context (Hundef : forall t, IsInteger t = true ->
  exists n, undef (IntTy (ExprSem.width t)) = VInt n /\ in_type t n = true).

(** Expression [e] has value [s], which fits the column [c]. *)
Definition projects (e : expr) (c : ColumnDef) (s : sval) : Prop :=
  sem (field_type ctx) (column_value ctx vss) e = Some s /\
  (t ← infer (field_type ctx) e; DataType2SchemaType t) = Some (col_type c).

Lemma project_ok e c s : projects e c s ->
  exists out, BuildProject false ctx undef ext row e = Done out /\ native_repr c out (cell (col_type c) s) /\
    value_fits c (cell (col_type c) s) /\ supported c.
Proof.
  intros [Hs Ht].
  destruct (proj1 (sem_correct (field_type ctx) (column_value ctx vss) undef ext (BuildGetFieldExpr false ctx row) Hundef
    (fun x a => column_denotes ctx vss row x a Hb Hrow)) e s Hs) as (t & v & Et & Ev & Hd).
  rewrite Et in Ht. cbn [mbind option_bind] in Ht. destruct (output_ok c v t s Hd Ht) as (out & Eo & Hr & Hf & Eb).
  exists out. unfold BuildProject. rewrite Ev, Eb. cbn [mbind option_bind]. rewrite Ht. split_and!; [done..|].
  split; intros E; rewrite E in Ht; by destruct t.
Qed.

Lemma outputs_of es cols ss : Forall3 projects es cols ss ->
  exists outs, build_outputs false ctx undef ext row es = Done outs /\
    outputs_ok cols outs (zip_with (fun c s => cell (col_type c) s) cols ss) /\
    Forall2 value_fits cols (zip_with (fun c s => cell (col_type c) s) cols ss) /\ Forall supported cols.
Proof.
  induction 1 as [|e c s es cols ss He _ (outs & Eo & Hok & Hf & Hs)].
  - exists []. cbn. split_and!; [done|done|constructor|constructor].
  - destruct (project_ok e c s He) as (out & E & Hr & Hfit & Hsup). exists (Some out :: outs). cbn.
    rewrite E. cbn. rewrite Eo. cbn. split_and!; [done|done|done|by constructor|by constructor].
Qed.

(** Rows of integers and booleans are short. *)
Lemma cells_len cols ss : sumz body_len (zip_with (fun c s => cell (col_type c) s) cols ss) = 0.
Proof.
  revert ss. induction cols as [|c cols IH]; intros [|s ss]; try done. unfold sumz in *. cbn [zip_with foldr]. rewrite IH.
  by destruct s, (col_type c).
Qed.

Lemma projected_row es cols ss : Forall3 projects es cols ss -> es <> [] -> Z.of_nat (length es) <= 1000000 ->
  row_ok cols (zip_with (fun c s => cell (col_type c) s) cols ss) /\
  ~ odd_size cols (zip_with (fun c s => cell (col_type c) s) cols ss).
Proof.
  intros H Hne Hlen. destruct (outputs_of es cols ss H) as (_ & _ & _ & Hf & Hs).
  assert (length cols = length es) as Hl by (clear -H; induction H; cbn; congruence).
  assert (schema_size cols <= 1000000) as Hn by (unfold schema_size; lia).
  assert (sumz strs cols = 0 /\ sumz RowCodec.width cols <= 8 * schema_size cols) as [Hstr Hw].
  { assert (Forall (fun c => col_type c ∈ [Layout.kBool; Layout.kInt16; Layout.kInt32; Layout.kInt64]) cols) as Ht.
    { clear Hne Hlen Hf Hs Hl Hn. induction H as [|e c s es cols ss [Hs Ht] _ IH]; constructor; [|done].
      destruct (infer (field_type ctx) e) as [t|] eqn:Et; [|done]. cbn in Ht.
      destruct (proj1 (sem_correct (field_type ctx) (column_value ctx vss) undef ext (BuildGetFieldExpr false ctx row) Hundef
        (fun x a => column_denotes ctx vss row x a Hb Hrow)) e s Hs) as (t' & v & Et' & _ & n & b & (Hi & _) & _).
      assert (t' = t) as -> by congruence. destruct t; try done; injection Ht as <-; set_solver. }
    unfold schema_size. clear -Ht. induction Ht as [|c cols Hc _ [IH1 IH2]]; [done|].
    assert (strs c = 0 /\ RowCodec.width c <= 8) as [Hs Hw].
    { unfold strs, RowCodec.width. rewrite !elem_of_cons, elem_of_nil in Hc.
      destruct Hc as [->|[->|[->|[->|[]]]]]; cbn; (split; [done|lia]). }
    unfold sumz in *. cbn [foldr length]. lia. }
  destruct (BitMapSize_default (schema_size cols)) as [Hbm0 Hbm]; [unfold schema_size; lia|].
  assert (6 <= fixed_end cols < 10000000) as Hend.
  { pose proof (sumz_nonneg RowCodec.width RowCodec.width_nonneg cols). unfold fixed_end, fixed_start. change HEADER_LENGTH with 6.
    unfold schema_size in *. lia. }
  pose proof (cells_len cols ss) as Hb0. split.
  - split; [done|done| |unfold schema_size in *; lia|lia]. by intros ->; destruct es.
  - unfold odd_size. lia.
Qed.
End Projection.

(** C3: a compiled projection computes the SQL values of its expressions. On a
    row whose slices store the columns of the input, the function compiled
    from expressions over integer and boolean columns runs without undefined
    behaviour and produces a slice that stores, column by column, the value
    of each expression in the reference semantics (NULL included), and that
    the interpreted reader reads back. Columns are found by id through the
    schemas context, in any slice of the row. *)
Theorem compiled_projection ctx undef ext junk vss row es cols ss :
  built false ctx -> row_stores ctx vss row -> (forall n, length (junk n) = n) ->
  (forall t, IsInteger t = true -> exists n, undef (IntTy (ExprSem.width t)) = VInt n /\ in_type t n = true) ->
  Forall3 (projects ctx vss) es cols ss -> es <> [] -> Z.of_nat (length es) <= 1000000 ->
  let vs := zip_with (fun c s => cell (col_type c) s) cols ss in
  exists sl rv, RowFnLet false ctx undef ext junk es cols row = Done sl /\ slice_holds cols vs sl /\
    RowView_new false cols (sl_data sl) (sl_size sl) = Some rv /\ rv_is_valid rv = true /\
    forall j c s, cols !! j = Some c -> ss !! j = Some s ->
      read_value (col_type c) (Z.of_nat j) rv = Some (expected (cell (col_type c) s)).
Proof.
  intros Hb Hrow Hjunk Hundef H Hne Hlen vs.
  destruct (projected_row ctx undef ext vss row Hb Hrow Hundef es cols ss H Hne Hlen) as [Hok Hodd].
  destruct (outputs_of ctx undef ext vss row Hb Hrow Hundef es cols ss H) as (outs & Eo & Ho & _ & _).
  destruct (BuildEncode_holds junk cols vs outs Hjunk Hok Ho Hodd) as (b & Eb & Hh).
  destruct (calc_size_agree _ _ Hok Hodd) as [_ H24].
  assert (slice_holds cols vs (mkSlice (row_size cols vs) (Some b))) as Hsl by (split_and!; [done|done|by exists b]).
  destruct (slice_readable _ _ _ Hsl) as (rv & Erv & Hval & Hread). exists (mkSlice (row_size cols vs) (Some b)), rv.
  split_and!; [|done|done|done|].
  - unfold RowFnLet. rewrite Eo. cbn [obind]. rewrite Eb. done.
  - intros j c s Hc Hs. apply Hread; [done|]. unfold vs. by rewrite lookup_zip_with, Hc, Hs.
Qed.

(** ** Joined rows *)

Lemma field_type_at ctx x : field_type ctx x =
  match ResolveColumnIndexByID (Z.of_nat x) ctx with
  | Done p => t ← type_at ctx p; SchemaType2DataType t
  | _ => None
  end.
Proof.
  unfold field_type, type_at, GetSchema. destruct (ResolveColumnIndexByID _ _) as [| |[i j]]; try done. cbn [fst snd].
  destruct (GetSchemaSource i ctx) as [s|]; [|done]. cbn. unfold GetColumnType. destruct (ss_schema s) as [cols|]; [|done]. cbn.
  by destruct (cols !! j).
Qed.

(** Every id belongs to one column. *)
Definition unique_ids (ctx : SchemasContext) : Prop :=
  forall p q id, id_at ctx p = Some id -> id_at ctx q = Some id -> p = q.

Lemma stored_nth ctx vss row i : row_stores ctx vss row -> (i < length vss)%nat ->
  nth_slice row (Z.of_nat i) = Some (GetSlice row (Z.of_nat i)).
Proof.
  intros H Hi. destruct (lookup_lt_is_Some_2 vss i Hi) as [vs Hvs]. destruct (H i vs Hvs) as (_ & sl & _ & E & _).
  rewrite E. f_equal. unfold nth_slice in E. unfold GetSlice. destruct (Z.eqb_spec 0 (Z.of_nat i)) as [E0|E0].
  - injection E as <-. rewrite Z.geb_leb, (proj2 (Z.leb_gt _ _)); [done|lia].
  - rewrite (proj2 (Z.ltb_lt 0 _)) in E by lia. pose proof (lookup_lt_Some _ _ _ E) as Hlt. rewrite E.
    rewrite Z.geb_leb, (proj2 (Z.leb_gt _ _)); [done|lia].
Qed.

(** A column that keeps its type and id, the only one with that id. *)
Lemma resolve_merged (ctx0 ctx : SchemasContext) x p p' : built false ctx ->
  type_at ctx p' = type_at ctx0 p -> id_at ctx p' = Some (Z.of_nat x) ->
  (forall q, id_at ctx q = Some (Z.of_nat x) -> q = p') ->
  ResolveColumnIndexByID (Z.of_nat x) ctx0 = Done p ->
  ResolveColumnIndexByID (Z.of_nat x) ctx = Done p' /\ field_type ctx x = field_type ctx0 x.
Proof.
  intros Hb Ht Hid Huniq E0. assert (ResolveColumnIndexByID (Z.of_nat x) ctx = Done p') as E.
  { destruct (resolve_id false ctx Hb (Z.of_nat x)) as [(q & -> & Hq)|[_ Hno]].
    - f_equal. by apply Huniq.
    - by destruct (Hno p'). }
  split; [done|]. by rewrite !field_type_at, E, E0, Ht.
Qed.

(** The row of a join can be read through the merged context. Merging the
    contexts of the inputs and concatenating their rows succeed; the joined
    row stores the columns of the merged context, and every integer or boolean
    column of either input keeps its value (columns being found by their ids,
    which the inputs do not share). *)
Theorem joined_row_columns (cl cr : SchemasContext) vl vr rl rr :
  built false cl -> built false cr -> unique_ids cl -> unique_ids cr ->
  (forall p q id, id_at cl p = Some id -> id_at cr q = Some id -> False) ->
  length vl = length (sc_schema_sources cl) -> length vr = length (sc_schema_sources cr) ->
  (0 < length vl)%nat -> (0 < length vr)%nat -> Z.of_nat (length vl + length vr) < 2 ^ 64 ->
  row_stores cl vl rl -> row_stores cr vr rr ->
  exists c1 c2 ctx row, Merge 0 cl SchemasContext_new = Some c1 /\ Merge 1 cr c1 = Some c2 /\
    SchemasContext.Build false c2 = Some ctx /\ built false ctx /\
    Row_concat (Z.of_nat (length vl)) rl (Z.of_nat (length vr)) rr = Some row /\
    row_stores ctx (vl ++ vr) row /\
    (forall x s, column_value cl vl x = Some s -> column_value ctx (vl ++ vr) x = Some s) /\
    (forall x s, column_value cr vr x = Some s -> column_value ctx (vl ++ vr) x = Some s).
Proof.
  intros Hbl Hbr Hul Hur Hdis Hll Hlr Hl0 Hr0 Hlen Hsl Hsr.
  destruct (Merge_joins false cl cr (bt_sources _ _ Hbl) (bt_sources _ _ Hbr)) as (c1 & c2 & ctx & E1 & E2 & E3 & Hb & HL & HR).
  destruct (Row_concat_lookup (length vl) (length vr) rl rr Hl0 Hr0 ltac:(lia)) as (row & Er & _ & HrL & HrR).
  rewrite <- Hll in HL, HR. exists c1, c2, ctx, row. split_and!; [done..| | |].
  - intros i vs Hi. destruct (decide (i < length vl)%nat) as [Hlt|Hge].
    + rewrite lookup_app_l in Hi by done. destruct (Hsl i vs Hi) as (cols & sl & Hs & Hn & Hh). exists cols, sl.
      split_and!; [by rewrite (proj1 (HL i 0%nat Hlt))| |done]. by rewrite HrL, <- (stored_nth cl vl).
    + rewrite lookup_app_r in Hi by lia. destruct (Hsr (i - length vl)%nat vs Hi) as (cols & sl & Hs & Hn & Hh). exists cols, sl.
      pose proof (lookup_lt_Some _ _ _ Hi) as Hlt. replace i with (length vl + (i - length vl))%nat by lia.
      split_and!; [by rewrite (proj1 (HR (i - length vl)%nat 0%nat))| |done]. by rewrite HrR, <- (stored_nth cr vr).
  - intros x s H. unfold column_value in H |- *.
    destruct (ResolveColumnIndexByID (Z.of_nat x) cl) as [| |[i j]] eqn:E; try done.
    pose proof (resolve_id_done false cl Hbl _ _ E) as Hid. pose proof (id_at_positions _ _ _ (bt_sources _ _ Hbl) Hid) as (s0 & Hs0 & _)%elem_of_positions.
    apply lookup_lt_Some in Hs0 as Hi. rewrite <- Hll in Hi. destruct (HL i j Hi) as (_ & Hid' & _ & Ht & _).
    destruct (resolve_merged cl ctx x (i, j) (i, j) Hb Ht) as [-> ->]; [congruence| |done|by rewrite lookup_app_l].
    intros [i' j'] Hq. destruct (decide (i' < length vl)%nat) as [Hlt|Hge].
    + destruct (HL i' j' Hlt) as (_ & Hq' & _). apply (Hul _ _ (Z.of_nat x)); congruence.
    + destruct (HR (i' - length vl)%nat j') as (_ & Hq' & _). replace (length vl + (i' - length vl))%nat with i' in Hq' by lia.
      exfalso. apply (Hdis (i, j) ((i' - length vl)%nat, j') (Z.of_nat x)); congruence.
  - intros x s H. unfold column_value in H |- *.
    destruct (ResolveColumnIndexByID (Z.of_nat x) cr) as [| |[i j]] eqn:E; try done.
    pose proof (resolve_id_done false cr Hbr _ _ E) as Hid. destruct (HR i j) as (_ & Hid' & _ & Ht & _).
    destruct (resolve_merged cr ctx x (i, j) ((length vl + i)%nat, j) Hb Ht) as [-> ->]; [congruence| |done|].
    2: { rewrite lookup_app_r by lia. by replace (length vl + i - length vl)%nat with i by lia. }
    intros [i' j'] Hq. destruct (decide (i' < length vl)%nat) as [Hlt|Hge].
    + destruct (HL i' j' Hlt) as (_ & Hq' & _). exfalso. apply (Hdis (i', j') (i, j) (Z.of_nat x)); congruence.
    + destruct (HR (i' - length vl)%nat j') as (_ & Hq' & _). replace (length vl + (i' - length vl))%nat with i' in Hq' by lia.
      assert (((i' - length vl)%nat, j') = (i, j)) as [= <- <-] by (apply (Hur _ _ (Z.of_nat x)); congruence).
      f_equal. lia.
Qed.

(** ** A projection of a join *)

Module SampleProjection.
Import SamplePlan.
Definition left_values : list (option RowBuilder.Value) := [Some (VInt32 7); None].
Definition right_values : list (option RowBuilder.Value) := [Some (RowBuilder.VBool true); Some (RowBuilder.VString [104; 105])].
Definition slice_of (cols : list ColumnDef) (vs : list (option RowBuilder.Value)) : Slice :=
  mkSlice (row_size cols vs) (encode_row cols vs (replicate (Z.to_nat (row_size cols vs)) 0)).
Definition left_row : Row := Row_of_slice (slice_of left_cols left_values).
Definition right_row : Row := Row_of_slice (slice_of right_cols right_values).
Definition joined_row : Row := mkRow (slice_of left_cols left_values) [slice_of right_cols right_values].
(** [SELECT a + b, CASE WHEN f THEN a DIV 2 ELSE 0 END]. *)
Definition exprs : list expr :=
  [BinaryExpr kFnOpAdd (VarNode 1) (VarNode 2);
   CaseWhenExpr (WhenExpr (VarNode 3) (BinaryExpr kFnOpDiv (VarNode 1) (ConstNode kInt32 (VInt 2)))
     (ElseExpr (ConstNode kInt32 (VInt 0))))].
Definition out_cols : list ColumnDef := [mkcol [120] Layout.kInt64; mkcol [121] Layout.kInt32].
Definition undef (_ : LType) : Llvm.Value := VInt 0.
Definition ext : Externals := mkExternals (fun _ _ => []) (fun _ _ => (VInt 0, true)) (fun _ _ => (0, true)) (fun _ _ => (0, true)).
Definition junk (n : nat) : list Z := replicate n 205.

Lemma slice_of_holds cols vs : row_ok cols vs -> row_size cols vs <> 16777216 -> slice_holds cols vs (slice_of cols vs).
Proof.
  intros Hok H24. destruct (row_size_exact cols vs Hok) as [_ Hsz].
  destruct (stored_slice cols vs (replicate (Z.to_nat (row_size cols vs)) 0) Hok H24) as (b & E & H);
    [rewrite length_replicate; lia|].
  unfold slice_of. by rewrite E.
Qed.
Lemma left_ok : slice_holds left_cols left_values (slice_of left_cols left_values).
Proof.
  apply slice_of_holds; [|vm_compute; discriminate].
  split; [|repeat constructor; vm_compute; repeat split; discriminate|done|done|done].
  repeat constructor; done.
Qed.
Lemma right_ok : slice_holds right_cols right_values (slice_of right_cols right_values).
Proof.
  apply slice_of_holds; [|vm_compute; discriminate].
  split; [|repeat constructor; vm_compute; repeat split; discriminate|done|done|done].
  repeat constructor; done.
Qed.
Lemma left_stores : row_stores left [left_values] left_row.
Proof.
  intros [|i] vs Hvs; [|done]. injection Hvs as <-. exists left_cols, (slice_of left_cols left_values).
  split_and!; [|done|apply left_ok]. unfold GetSchema, GetSchemaSource. by rewrite (proj2 left_built).
Qed.
Lemma right_stores : row_stores right [right_values] right_row.
Proof.
  intros [|i] vs Hvs; [|done]. injection Hvs as <-. exists right_cols, (slice_of right_cols right_values).
  split_and!; [|done|apply right_ok]. unfold GetSchema, GetSchemaSource. by rewrite (proj2 right_built).
Qed.
Lemma joined_stores : row_stores joined [left_values; right_values] joined_row.
Proof.
  intros [|[|i]] vs Hvs; [| |done]; injection Hvs as <-.
  - exists left_cols, (slice_of left_cols left_values). split_and!; [|done|apply left_ok].
    unfold GetSchema, GetSchemaSource. by rewrite (proj2 joined_built).
  - exists right_cols, (slice_of right_cols right_values). split_and!; [|done|apply right_ok].
    unfold GetSchema, GetSchemaSource. by rewrite (proj2 joined_built).
Qed.
Lemma single_ids ctx s : sc_schema_sources ctx = [s] -> NoDup (ss_column_ids s) -> unique_ids ctx.
Proof.
  intros E Hd [i j] [i' j'] id. unfold id_at, GetSchemaSource, GetColumnID. rewrite E. cbn [fst snd].
  destruct i as [|i], i' as [|i']; try done. cbn. intros H1 H2. f_equal. by eapply NoDup_lookup.
Qed.
End SampleProjection.

Lemma compiled_projection_witness :
  Forall3 (projects SamplePlan.joined [SampleProjection.left_values; SampleProjection.right_values])
    SampleProjection.exprs SampleProjection.out_cols [SNull; SInt 3] /\
  exists sl rv,
    RowFnLet false SamplePlan.joined SampleProjection.undef SampleProjection.ext SampleProjection.junk
      SampleProjection.exprs SampleProjection.out_cols SampleProjection.joined_row = Done sl /\
    slice_holds SampleProjection.out_cols [None; Some (VInt32 3)] sl /\
    RowView_new false SampleProjection.out_cols (sl_data sl) (sl_size sl) = Some rv /\ rv_is_valid rv = true /\
    forall j c s, SampleProjection.out_cols !! j = Some c -> [SNull; SInt 3] !! j = Some s ->
      read_value (col_type c) (Z.of_nat j) rv = Some (expected (cell (col_type c) s)).
Proof.
  assert (Forall3 (projects SamplePlan.joined [SampleProjection.left_values; SampleProjection.right_values])
    SampleProjection.exprs SampleProjection.out_cols [SNull; SInt 3]) as H.
  { repeat constructor; vm_compute; reflexivity. }
  split; [exact H|].
  apply (compiled_projection SamplePlan.joined SampleProjection.undef SampleProjection.ext SampleProjection.junk
    [SampleProjection.left_values; SampleProjection.right_values] SampleProjection.joined_row
    SampleProjection.exprs SampleProjection.out_cols [SNull; SInt 3]).
  - exact (proj1 SamplePlan.joined_built).
  - exact SampleProjection.joined_stores.
  - intros n. apply length_replicate.
  - intros t Ht. exists 0. split; [reflexivity|]. by destruct t.
  - exact H.
  - discriminate.
  - cbn. lia.
Defined.

Lemma joined_row_columns_witness :
  exists c1 c2 ctx row, Merge 0 SamplePlan.left SchemasContext_new = Some c1 /\ Merge 1 SamplePlan.right c1 = Some c2 /\
    SchemasContext.Build false c2 = Some ctx /\ built false ctx /\
    Row_concat 1 SampleProjection.left_row 1 SampleProjection.right_row = Some row /\
    row_stores ctx ([SampleProjection.left_values] ++ [SampleProjection.right_values]) row /\
    (forall x s, column_value SamplePlan.left [SampleProjection.left_values] x = Some s ->
       column_value ctx ([SampleProjection.left_values] ++ [SampleProjection.right_values]) x = Some s) /\
    (forall x s, column_value SamplePlan.right [SampleProjection.right_values] x = Some s ->
       column_value ctx ([SampleProjection.left_values] ++ [SampleProjection.right_values]) x = Some s).
Proof.
  destruct SamplePlan.left_built as [Hl El]. destruct SamplePlan.right_built as [Hr Er].
  apply (joined_row_columns SamplePlan.left SamplePlan.right [SampleProjection.left_values] [SampleProjection.right_values]
    SampleProjection.left_row SampleProjection.right_row); try done.
  - eapply SampleProjection.single_ids; [exact El|]. apply (bool_decide_unpack _). vm_compute. exact I.
  - eapply SampleProjection.single_ids; [exact Er|]. apply (bool_decide_unpack _). vm_compute. exact I.
  - intros [i j] [i' j'] id. unfold id_at, GetSchemaSource, GetColumnID. rewrite El, Er. cbn [fst snd].
    destruct i as [|i], i' as [|i']; try done. cbn. intros H1%list_elem_of_lookup_2 H2%list_elem_of_lookup_2.
    vm_compute in H1, H2. set_solver.
  - cbn. lia.
  - cbn. lia.
  - exact SampleProjection.left_stores.
  - exact SampleProjection.right_stores.
Defined.
