(* ===== verification/Aggregates.v ===== *)
(** * Aggregate functions

    Models the aggregates of the default library ([SumUdafDef], [MinUdafDef],
    [MaxUdafDef], [CountUdafDef], [AvgUdafDef] and the [_where] family of
    [src/udf/default_udf_library.cc]), their types
    ([ResolveFnAndAttrs::VisitUdafDef]) and the loop that is compiled for them
    ([UdfIRBuilder::BuildUdafCall] of [src/codegen/udf_ir_builder.cc]). An
    aggregate is given by expressions: an initial state, an update from the
    state and the elements, and an output. After [LambdafyProjects] the loop
    runs over the rows of the frame and the elements are the values of the
    arguments of the call on each row.

    Variables of these expressions are the fields of the state, then the
    elements. *)

From Stdlib Require Import SpecFloat.
From stdpp Require Import base numbers list option.
From S2P Require Import Prelude Iterators Rows SchemasContext Llvm ExprTypes ExprBuilder Expr Project.

(** ** Tuples *)

Inductive tvalue := One (v : NativeValue) | TupleOf (vs : list NativeValue).

(** The body of a function of an aggregate: an expression, [make_tuple], the
    state itself, or a condition between such bodies. *)
Inductive body :=
| Single (e : expr)
| MakeTuple (es : list expr)
| State
| Cond (c : expr) (l r : body).

Record UdafDef := mkUdaf { init_expr : body; update_func : body; output_func : body }.

(** ** The library *)

Definition zero_value (T : DataType) : Value :=
  match T with
  | kFloat | kDouble => VFp (S754_zero false)
  | kTimestamp => VTimestamp 0
  | kDate => VDate 0
  | kVarchar => VString []
  | _ => VInt 0
  end.
Definition maximum_value (T : DataType) : Value :=
  match T with
  | kInt16 => VInt (2 ^ 15 - 1)
  | kInt32 => VInt (2 ^ 31 - 1)
  | kInt64 => VInt (2 ^ 63 - 1)
  | kFloat => VFp (S754_finite false (Z.to_pos (2 ^ 24 - 1)) 104)
  | kDouble => VFp (S754_finite false (Z.to_pos (2 ^ 53 - 1)) 971)
  | kTimestamp => VTimestamp (2 ^ 63 - 1)
  | kDate => VDate (2 ^ 31 - 1)
  | _ => zero_value T
  end.
Definition minimum_value (T : DataType) : Value :=
  match T with
  | kInt16 => VInt (- 2 ^ 15)
  | kInt32 => VInt (- 2 ^ 31)
  | kInt64 => VInt (- 2 ^ 63)
  | kFloat => VFp (S754_finite true (Z.to_pos (2 ^ 24 - 1)) 104)
  | kDouble => VFp (S754_finite true (Z.to_pos (2 ^ 53 - 1)) 971)
  | _ => zero_value T
  end.

Definition const_false : expr := ConstNode kBool (VInt 0).
Definition const_true : expr := ConstNode kBool (VInt (-1)).
Definition const_one : expr := ConstNode kInt32 (VInt 1).
Definition const_null : expr := ConstNode kNull VToken.
Definition is_null (e : expr) : expr := UnaryExpr uIsNull e.

Definition SumUdafDef (T : DataType) : UdafDef :=
  let cur_sum := VarNode 0 in
  let input := VarNode 1 in
  mkUdaf (Single (ConstNode T (zero_value T)))
    (Single (CondExpr (is_null input) cur_sum (BinaryExpr kFnOpAdd cur_sum input)))
    State.

(** Minimum and maximum keep whether nothing was aggregated yet. *)
Definition extremum (init : Value) (better : expr -> expr -> expr) (T : DataType) : UdafDef :=
  let flag := VarNode 0 in
  let cur := VarNode 1 in
  let input := VarNode 2 in
  mkUdaf (MakeTuple [const_true; ConstNode T init])
    (MakeTuple [CondExpr (is_null input) flag const_false;
                CondExpr (is_null input) cur (better input cur)])
    (Single (CondExpr flag (CastExpr T const_null) cur)).
Definition MinUdafDef (T : DataType) : UdafDef :=
  if is_type T kVarchar then
    extremum (VString [])
      (fun input cur => CondExpr (VarNode 0) input (CondExpr (BinaryExpr kFnOpLt input cur) input cur)) T
  else extremum (maximum_value T) (fun input cur => CondExpr (BinaryExpr kFnOpLt input cur) input cur) T.
Definition MaxUdafDef (T : DataType) : UdafDef :=
  extremum (minimum_value T) (fun input cur => CondExpr (BinaryExpr kFnOpGt input cur) input cur) T.

Definition CountUdafDef (T : DataType) : UdafDef :=
  let cur_cnt := VarNode 0 in
  let input := VarNode 1 in
  mkUdaf (Single (ConstNode kInt64 (VInt 0)))
    (Single (CondExpr (is_null input) cur_cnt (BinaryExpr kFnOpAdd cur_cnt const_one)))
    State.

Definition AvgUdafDef (T : DataType) : UdafDef :=
  let cnt := VarNode 0 in
  let sum := VarNode 1 in
  let input := VarNode 2 in
  mkUdaf (MakeTuple [ConstNode kInt64 (VInt 0); ConstNode kDouble (VFp (S754_zero false))])
    (Cond (is_null input) State
       (MakeTuple [BinaryExpr kFnOpAdd cnt const_one; BinaryExpr kFnOpAdd sum input]))
    (Single (BinaryExpr kFnOpFDiv sum cnt)).

Definition cast_time (T : DataType) (e : expr) : expr := if is_type T kTimestamp then CastExpr kInt64 e else e.

Definition SumWhereDef (T : DataType) : UdafDef :=
  let sum := VarNode 0 in
  let elem := VarNode 1 in
  let cond := VarNode 2 in
  mkUdaf (Single (ConstNode T (zero_value T)))
    (Single (CondExpr cond (BinaryExpr kFnOpAdd sum (cast_time T elem)) sum))
    State.
Definition CountWhereDef (T : DataType) : UdafDef :=
  let cnt := VarNode 0 in
  let elem := VarNode 1 in
  let cond := VarNode 2 in
  mkUdaf (Single (ConstNode kInt64 (VInt 0)))
    (Single (CondExpr cond (CondExpr (is_null elem) cnt (BinaryExpr kFnOpAdd cnt const_one)) cnt))
    State.
Definition AvgWhereDef (T : DataType) : UdafDef :=
  let cnt := VarNode 0 in
  let sum := VarNode 1 in
  let elem := VarNode 2 in
  let cond := VarNode 3 in
  mkUdaf (MakeTuple [ConstNode kInt64 (VInt 0); ConstNode kDouble (VFp (S754_zero false))])
    (Cond cond
       (MakeTuple [CondExpr (is_null elem) cnt (BinaryExpr kFnOpAdd cnt const_one);
                   CondExpr (is_null elem) sum (BinaryExpr kFnOpAdd sum (cast_time T elem))])
       State)
    (Single (BinaryExpr kFnOpFDiv sum cnt)).
Definition MinWhereDef (T : DataType) : UdafDef :=
  let min := VarNode 0 in
  let elem := cast_time T (VarNode 1) in
  let cond := VarNode 2 in
  mkUdaf (Single (ConstNode T (maximum_value T)))
    (Single (CondExpr cond (CondExpr (BinaryExpr kFnOpGt min elem) elem min) min))
    State.
Definition MaxWhereDef (T : DataType) : UdafDef :=
  let max := VarNode 0 in
  let elem := cast_time T (VarNode 1) in
  let cond := VarNode 2 in
  mkUdaf (Single (ConstNode T (minimum_value T)))
    (Single (CondExpr cond (CondExpr (BinaryExpr kFnOpLt max elem) elem max) max))
    State.

(** The aggregates by name, and the types they are registered for. *)
Inductive AggName :=
| agg_sum | agg_min | agg_max | agg_count | agg_avg
| agg_sum_where | agg_count_where | agg_avg_where | agg_min_where | agg_max_where.

Definition in_types (T : DataType) (ts : list DataType) : bool := existsb (is_type T) ts.
Definition numbers : list DataType := [kInt16; kInt32; kInt64; kFloat; kDouble].

Definition ResolveFunction (name : AggName) (elem_types : list DataType) : option UdafDef :=
  match name, elem_types with
  | agg_sum, [T] => if in_types T (kTimestamp :: numbers) then Some (SumUdafDef T) else None
  | agg_min, [T] => if in_types T (kTimestamp :: kDate :: kVarchar :: numbers) then Some (MinUdafDef T) else None
  | agg_max, [T] => if in_types T (kTimestamp :: kDate :: kVarchar :: numbers) then Some (MaxUdafDef T) else None
  | agg_count, [T] =>
      if in_types T (kBool :: kTimestamp :: kDate :: kVarchar :: numbers) then Some (CountUdafDef T) else None
  | agg_avg, [T] => if in_types T numbers then Some (AvgUdafDef T) else None
  | agg_sum_where, [T; kBool] => if in_types T numbers then Some (SumWhereDef T) else None
  | agg_count_where, [T; kBool] =>
      if in_types T (kTimestamp :: kDate :: kVarchar :: numbers) then Some (CountWhereDef T) else None
  | agg_avg_where, [T; kBool] => if in_types T numbers then Some (AvgWhereDef T) else None
  | agg_min_where, [T; kBool] => if in_types T numbers then Some (MinWhereDef T) else None
  | agg_max_where, [T; kBool] => if in_types T numbers then Some (MaxWhereDef T) else None
  | _, _ => None
  end.

(** ** Types *)

Definition types_of (ts : list DataType) (x : nat) : option DataType := ts !! x.

Fixpoint infer_body (G : nat -> option DataType) (state : list DataType) (b : body) : option (list DataType) :=
  match b with
  | Single e => t ← infer G e; Some [t]
  | MakeTuple es => mapM (infer G) es
  | State => Some state
  | Cond c l r =>
      tc ← infer G c; tl ← infer_body G state l; tr ← infer_body G state r;
      if is_type tc kBool && bool_decide (tl = tr) then Some tl else None
  end.

(** The output type; the state must keep its type. *)
Definition VisitUdafDef (fn : UdafDef) (elem_types : list DataType) : option (list DataType) :=
  state_type ← infer_body (types_of []) [] (init_expr fn);
  update_type ← infer_body (types_of (state_type ++ elem_types)) state_type (update_func fn);
  output_type ← infer_body (types_of update_type) update_type (output_func fn);
  if bool_decide (update_type = state_type) then Some output_type else None.

(** ** Compiled loops *)

Section Call.
Context (undef : LType -> Value) (ext : Externals).

Definition select_field (raw_cond : LValue) (l r : NativeValue) : NativeValue :=
  let raw_value := CreateSelect raw_cond (GetValue undef l) (GetValue undef r) in
  if IsNullable l || IsNullable r
  then CreateWithFlag raw_value (CreateSelect raw_cond (GetIsNull l) (GetIsNull r))
  else Create raw_value.

(** [CondSelectIRBuilder::Select], for tuples too. *)
Definition select_values (cond : NativeValue) (l r : tvalue) : option tvalue :=
  match l, r with
  | One a, One b => Some (One (Select undef cond a b))
  | TupleOf ls, TupleOf rs =>
      let raw_cond :=
        if IsNullable cond then CreateAnd (GetValue undef cond) (CreateNot (GetIsNull cond)) else GetValue undef cond in
      if (length ls =? length rs)%nat then Some (TupleOf (zip_with (select_field raw_cond) ls rs)) else None
  | _, _ => None
  end.

(** A state of one field is a plain value. *)
Definition state_value (states : list NativeValue) : tvalue :=
  match states with [v] => One v | _ => TupleOf states end.

Fixpoint build_body (G : nat -> option DataType) (env : nat -> option NativeValue) (state : list NativeValue) (b : body)
  : option tvalue :=
  match b with
  | Single e => v ← Build G undef ext env e; Some (One v)
  | MakeTuple es => vs ← mapM (Build G undef ext env) es; Some (TupleOf vs)
  | State => Some (state_value state)
  | Cond c l r =>
      vc ← Build G undef ext env c;
      vl ← build_body G env state l;
      vr ← build_body G env state r;
      select_values vc vl vr
  end.

(** A store into the memory of a state field. *)
Definition store_state (t : LType) (v : LValue) : option LValue := if is_lty (getType v) t then Some v else None.
Fixpoint store_states (ts : list LType) (vs : list NativeValue) : option (list LValue) :=
  match ts, vs with
  | [], [] => Some []
  | t :: ts', v :: vs' => x ← store_state t (GetValue undef v); xs ← store_states ts' vs'; Some (x :: xs)
  | _, _ => None
  end.
Definition store_value (ts : list LType) (states : list LValue) (v : tvalue) : option (list LValue) :=
  match v with
  | TupleOf vs => store_states ts vs
  | One x => t ← head ts; y ← store_state t (GetValue undef x); Some (<[0%nat := y]> states)
  end.

Definition init_states (ts : list LType) (v : tvalue) : option (list LValue) :=
  match ts, v with
  | [t], One x => y ← store_state t (GetValue undef x); Some [y]
  | _ :: _ :: _, TupleOf vs => store_states ts vs
  | _, _ => None
  end.

(** One turn of the loop. *)
Definition udaf_step (fn : UdafDef) (state_types elem_types : list DataType) (elems : list NativeValue)
    (states : list LValue) : option (list LValue) :=
  ts ← mapM GetLlvmType state_types;
  let cur_state_values := Create <$> states in
  update_value ← build_body (types_of (state_types ++ elem_types)) (fun x => (cur_state_values ++ elems) !! x)
                   cur_state_values (update_func fn);
  store_value ts states update_value.

Section Loop.
Context {I R : Type} `{RowIterator I R}.

(** [elems] gives the elements of a row. *)
Definition BuildUdafCall (fn : UdafDef) (elem_types : list DataType) (elems : R -> option (list NativeValue))
    (fuel : nat) (window : I) : option tvalue :=
  state_types ← infer_body (types_of []) [] (init_expr fn);
  ts ← mapM GetLlvmType state_types;
  init_value ← build_body (types_of []) (fun _ => None) [] (init_expr fn);
  states ← init_states ts init_value;
  final ← for_rows (fun _ row states => es ← elems row; udaf_step fn state_types elem_types es states)
            fuel (SeekToFirst window) states;
  let final_state_values := Create <$> final in
  build_body (types_of state_types) (fun x => final_state_values !! x) final_state_values (output_func fn).
End Loop.
End Call.

(** ** Calls over a window of rows *)

Definition is_primary (e : expr) : bool := match e with ConstNode _ _ => true | _ => false end.

Section Window.
Context (spark : bool) (ctx : SchemasContext) (undef : LType -> Value) (ext : Externals).
Context {I : Type} `{RowIterator I Row}.

(** [LambdafyProjects::VisitAggExpr]: the arguments are computed on the row of
    the iteration; a call whose arguments are all constants has no loop
    condition and is refused. *)
Definition agg_call (name : AggName) (args : list expr) (fuel : nat) (window : I) : option NativeValue :=
  elem_types ← mapM (infer (field_type ctx)) args;
  fn ← ResolveFunction name elem_types;
  _ ← VisitUdafDef fn elem_types;
  if forallb is_primary args then None
  else
    v ← BuildUdafCall undef ext fn elem_types
          (fun row => mapM (Build (field_type ctx) undef ext (BuildGetFieldExpr spark ctx row)) args) fuel window;
    match v with One x => Some x | TupleOf _ => None end.
End Window.
