(* ===== verification/AggregatesProof.v ===== *)
(** * Compiled aggregates compute SQL aggregates

    The loop that is compiled for an aggregate call over the rows of a frame
    computes the aggregate of the values its argument has on the rows, with
    NULLs left out. *)

From stdpp Require Import base numbers list option.
From S2P Require Import Prelude Layout RowBuilder RowCodec Iterators MemCatalog MemCatalogProof Rows SchemasContext SchemasProof Llvm ExprTypes ExprBuilder Expr ExprProof ExprSem Project ProjectProof Aggregates.

(** ** Reference aggregates *)

Definition sval_int (s : sval) : option Z := match s with SInt n => Some n | _ => None end.
Definition ints (ss : list sval) : list Z := base.omap sval_int ss.
Definition not_null (s : sval) : bool := match s with SNull => false | _ => true end.
Definition non_nulls (ss : list sval) : list sval := base.filter (fun s => not_null s = true) ss.

Definition total (l : list Z) : Z := foldr Z.add 0 l.
Definition least (l : list Z) : option Z := match l with [] => None | n :: l' => Some (foldr Z.min n l') end.
Definition greatest (l : list Z) : option Z := match l with [] => None | n :: l' => Some (foldr Z.max n l') end.
Definition int_or_null (o : option Z) : sval := match o with Some n => SInt n | None => SNull end.

(** The value of an aggregate of a column of integers of type [T]: sums and
    counts wrap around in their type. *)
Definition agg_value (name : AggName) (T : DataType) (ss : list sval) : option sval :=
  match name with
  | agg_sum => Some (SInt (wraps (width T) (total (ints ss))))
  | agg_count => Some (SInt (wraps 64 (Z.of_nat (length (non_nulls ss)))))
  | agg_min => Some (int_or_null (least (ints ss)))
  | agg_max => Some (int_or_null (greatest (ints ss)))
  | _ => None
  end.
Definition agg_type (name : AggName) (T : DataType) : DataType := match name with agg_count => kInt64 | _ => T end.

(** The elements that a condition selects; extrema start from the bounds of
    the type. *)
Definition selected (ps : list (sval * sval)) : list sval :=
  base.omap (fun p => match p.2 with SBool true => Some p.1 | _ => None end) ps.
Definition agg_where_value (name : AggName) (T : DataType) (ps : list (sval * sval)) : option sval :=
  match name with
  | agg_sum_where => Some (SInt (wraps (width T) (total (ints (selected ps)))))
  | agg_count_where => Some (SInt (wraps 64 (Z.of_nat (length (non_nulls (selected ps))))))
  | agg_min_where => Some (SInt (foldr Z.min (2 ^ (width T - 1) - 1) (ints (selected ps))))
  | agg_max_where => Some (SInt (foldr Z.max (- 2 ^ (width T - 1)) (ints (selected ps))))
  | _ => None
  end.
Definition agg_where_type (name : AggName) (T : DataType) : DataType := match name with agg_count_where => kInt64 | _ => T end.

(** ** Accumulation *)

(** What one more element does to a sum, a count or an extremum. *)
Definition acc_sum (T : DataType) (m : Z) (s : sval) : Z := match s with SInt n => wraps (width T) (m + n) | _ => m end.
Definition acc_count (m : Z) (s : sval) : Z := if not_null s then wraps 64 (m + 1) else m.
Definition acc_ext (f : Z -> Z -> Z) (st : bool * Z) (s : sval) : bool * Z :=
  match s with SInt n => (false, f st.2 n) | _ => st end.

Lemma wraps_wraps_add w m n : 0 < w -> wraps w (wraps w m + n) = wraps w (m + n).
Proof.
  intros Hw. unfold wraps. f_equal.
  replace ((m + 2 ^ (w - 1)) mod 2 ^ w - 2 ^ (w - 1) + n + 2 ^ (w - 1)) with ((m + 2 ^ (w - 1)) mod 2 ^ w + n) by lia.
  rewrite Z.add_mod_idemp_l by lia. f_equal. lia.
Qed.

Lemma ints_cons s ss : ints (s :: ss) = match s with SInt n => n :: ints ss | _ => ints ss end.
Proof. by destruct s. Qed.

Lemma acc_sum_total T ss m : 0 < width T -> foldl (acc_sum T) (wraps (width T) m) ss = wraps (width T) (m + total (ints ss)).
Proof.
  intros Hw. revert m. induction ss as [|s ss IH]; intros m; cbn [foldl]; [by rewrite Z.add_0_r|].
  rewrite ints_cons. destruct s as [|n|b]; cbn [acc_sum]; [apply IH| |apply IH].
  rewrite wraps_wraps_add, IH by done. f_equal. unfold total. cbn [foldr]. lia.
Qed.
Lemma non_nulls_cons s ss : non_nulls (s :: ss) = if not_null s then s :: non_nulls ss else non_nulls ss.
Proof. by destruct s. Qed.
Lemma acc_count_total ss m : foldl acc_count (wraps 64 m) ss = wraps 64 (m + Z.of_nat (length (non_nulls ss))).
Proof.
  revert m. induction ss as [|s ss IH]; intros m; cbn [foldl]; [by rewrite Z.add_0_r|].
  rewrite non_nulls_cons. unfold acc_count at 2. destruct (not_null s); [|by rewrite IH].
  rewrite wraps_wraps_add, IH by done. f_equal. cbn [length]. lia.
Qed.

Lemma foldl_min_foldr (l : list Z) m : foldl Z.min m l = foldr Z.min m l.
Proof.
  revert m. induction l as [|n l IH]; intros m; [done|]. cbn. rewrite IH. clear IH.
  revert m n. induction l as [|k l IH]; intros m n; cbn; [lia|]. rewrite IH. lia.
Qed.
Lemma foldl_max_foldr (l : list Z) m : foldl Z.max m l = foldr Z.max m l.
Proof.
  revert m. induction l as [|n l IH]; intros m; [done|]. cbn. rewrite IH. clear IH.
  revert m n. induction l as [|k l IH]; intros m n; cbn; [lia|]. rewrite IH. lia.
Qed.

Lemma acc_ext_ints f ss b m : foldl (acc_ext f) (b, m) ss = (b && bool_decide (ints ss = []), foldl f m (ints ss)).
Proof.
  revert b m. induction ss as [|s ss IH]; intros b m; cbn [foldl].
  - by rewrite bool_decide_true, andb_true_r.
  - rewrite ints_cons. destruct s as [|n|c]; cbn [acc_ext]; [apply IH| |apply IH]. rewrite IH. cbn [foldl]. f_equal.
    by rewrite andb_false_r.
Qed.

(** ** Operations on integer values *)

Section Steps.
Context (undef : LType -> Value) (ext : Externals).
Context (Hundef : forall t, IsInteger t = true -> exists n, undef (IntTy (width t)) = VInt n /\ in_type t n = true).

Lemma int_is_null v t n b : int_value v t n b -> int_value (BuildIsNullExpr v) kBool (bool_int b) false.
Proof.
  intros (_ & _ & N & _)%(int_value_parts undef). unfold BuildIsNullExpr. rewrite N. apply create_int; [done|apply bool_in_type].
Qed.

Lemma int_select c l r t nc bc m n b1 b2 : int_value c kBool nc bc -> int_value l t m b1 -> int_value r t n b2 ->
  let k := negb (nc =? 0) && negb bc in
  int_value (Select undef c l r) t (if k then m else n) (if k then b1 else b2).
Proof.
  intros Ic Il Ir k. destruct (int_value_parts undef _ _ _ _ Il) as (Cl & _), (int_value_parts undef _ _ _ _ Ir) as (Cr & _).
  unfold Select. rewrite Cl, Cr. pose proof Il as (Ht & Hm & _). pose proof Ir as (_ & Hn & _).
  apply (Select_branches undef _ l r t m n b1 b2 k); [by apply int_branch|by apply int_branch|done|done|done|].
  by apply (condition_reg undef).
Qed.

Lemma int_select_null v l r t tv n b m1 m2 b1 b2 : int_value v tv n b -> int_value l t m1 b1 -> int_value r t m2 b2 ->
  int_value (Select undef (BuildIsNullExpr v) l r) t (if b then m1 else m2) (if b then b1 else b2).
Proof.
  intros Iv Il Ir. pose proof (int_select _ _ _ _ _ _ _ _ _ _ (int_is_null _ _ _ _ Iv) Il Ir) as H. by destruct b.
Qed.

Lemma int_add l r tl tr t m n b1 b2 : int_type tl = true -> int_type tr = true -> InferNumberCastTypes tl tr = Some t ->
  int_value l tl m b1 -> int_value r tr n b2 ->
  exists v, BuildBinary undef ext kFnOpAdd l r = Some v /\ int_value v t (wraps (width t) (m + n)) (b1 || b2).
Proof.
  intros Hl Hr Ht Il Ir. destruct (add_regs tl tr t m n Hl Hr Ht) as (Ha & _ & _ & _ & _ & Hit).
  destruct (SafeNull_int undef l r _ tl tr t m n _ b1 b2 Il Ir Ha (int_is_integer t Hit) (wraps_in_type t _ Hit)) as (v & E & Iv).
  exists v. split; [|done]. destruct (int_value_parts undef _ _ _ _ Il) as (_ & _ & _ & _ & Tl & _).
  destruct (int_value_parts undef _ _ _ _ Ir) as (_ & _ & _ & _ & Tr & _).
  unfold BuildBinary, arith_expr. rewrite Tl, Tr, E.
  by apply int_type_cases in Hl as [->|[->| ->]], Hr as [->|[->| ->]].
Qed.

Definition op_of (c : CmpOp) : BinaryOp :=
  match c with CmpEq => kFnOpEq | CmpNe => kFnOpNeq | CmpGt => kFnOpGt | CmpGe => kFnOpGe | CmpLt => kFnOpLt | CmpLe => kFnOpLe end.

Lemma int_compare c l r t m n b1 b2 : int_type t = true -> int_value l t m b1 -> int_value r t n b2 ->
  exists v, BuildBinary undef ext (op_of c) l r = Some v /\ int_value v kBool (bool_int (int_cmp c m n)) (b1 || b2).
Proof.
  intros Ht Il Ir.
  destruct (SafeNull_int undef l r _ t t kBool m n _ b1 b2 Il Ir (proj1 (compare_regs undef ext c t t m n) (conj Ht Ht)) eq_refl
    (bool_in_type _)) as (v & E & Iv).
  exists v. split; [|done]. destruct (int_value_parts undef _ _ _ _ Il) as (_ & _ & _ & _ & Tl & _).
  destruct (int_value_parts undef _ _ _ _ Ir) as (_ & _ & _ & _ & Tr & _).
  destruct (int_value_parts undef _ _ _ _ Iv) as (Cv & _).
  assert (compare_expr undef (build_compare undef ext c) l r = Some v) as Ec.
  { unfold compare_expr. rewrite Tl, Tr, E.
    apply int_type_cases in Ht as [->|[->| ->]]; cbn [mbind option_bind]; by rewrite Cv. }
  by destruct c.
Qed.

Lemma int_create t m : IsInteger t = true -> in_type t m = true -> int_value (Create (reg t m)) t m false.
Proof. apply create_int. Qed.

(** A stored state field. *)
Lemma store_int v t n b lt : int_value v t n b -> GetLlvmType t = Some lt -> store_state lt (GetValue undef v) = Some (reg t n).
Proof.
  intros (_ & V & _ & _ & Tv & El)%(int_value_parts undef) Et. rewrite V. unfold store_state, is_lty.
  rewrite bool_decide_true; [done|]. cbn. congruence.
Qed.

Lemma llvm_int t : IsInteger t = true -> GetLlvmType t = Some (IntTy (width t)).
Proof. by destruct t. Qed.

Lemma llvm_ints ts : forallb IsInteger ts = true -> mapM GetLlvmType ts = Some ((fun t => IntTy (width t)) <$> ts).
Proof.
  induction ts as [|t ts IH]; [done|]. cbn [forallb]. intros [Ht Hts]%andb_true_iff. cbn [mapM].
  rewrite llvm_int by done. cbn [mbind option_bind]. by rewrite IH.
Qed.

Lemma const_int t n : IsInteger t = true -> in_type t n = true ->
  BuildConstExpr t (VInt n) = Some (Create (reg t n)).
Proof. by destruct t. Qed.

(** ** The updates *)

(** The element of a value of the reference semantics. *)
Definition elem (T : DataType) (es : list NativeValue) (s : sval) : Prop := exists v, es = [v] /\ denotes v T s.

Lemma sum_step T es s m : int_type T = true -> elem T es s -> in_type T m = true ->
  udaf_step undef ext (SumUdafDef T) [T] [T] es [reg T m] = Some [reg T (acc_sum T m s)].
Proof.
  intros HT (v & -> & n & b & Iv & Hs) Hm. pose proof (int_is_integer T HT) as HTi.
  unfold udaf_step. rewrite llvm_ints by (cbn; by rewrite HTi). cbn [mbind option_bind].
  cbn [update_func SumUdafDef build_body Build fmap list_fmap app lookup list_lookup mbind option_bind is_null].
  pose proof (int_create T m HTi Hm) as Im.
  assert (InferNumberCastTypes T T = Some T) as Hc by (by apply int_type_cases in HT as [->|[->| ->]]).
  destruct (int_add _ _ T T T m n false b HT HT Hc Im Iv) as (u & Eu & Iu).
  cbn [BuildUnary mbind option_bind]. rewrite Eu. cbn [mbind option_bind store_value head fmap list_fmap].
  pose proof (int_select_null v _ _ T T n b m _ false (false || b) Iv Im Iu) as Is.
  rewrite (store_int _ T _ _ _ Is) by (by rewrite llvm_int). cbn [mbind option_bind]. do 3 f_equal.
  destruct s as [|x|x]; cbn [acc_sum]; [by subst b|by destruct Hs as (-> & -> & _)|].
  by destruct Hs as (_ & _ & ->).
Qed.

Ltac step_body :=
  unfold udaf_step; rewrite llvm_ints by (cbn; by rewrite ?andb_true_r);
  cbn [mbind option_bind update_func SumUdafDef CountUdafDef MinUdafDef MaxUdafDef extremum SumWhereDef CountWhereDef
       MinWhereDef MaxWhereDef build_body Build fmap list_fmap app lookup list_lookup is_null BuildUnary mapM
       const_one const_false const_true]; rewrite ?const_int by done; cbn [mbind option_bind].

Lemma count_step T es s m : IsInteger T = true -> elem T es s -> in_type kInt64 m = true ->
  udaf_step undef ext (CountUdafDef T) [kInt64] [T] es [reg kInt64 m] = Some [reg kInt64 (acc_count m s)].
Proof.
  intros HT (v & -> & n & b & Iv & Hs) Hm. pose proof (int_create kInt64 m eq_refl Hm) as Im.
  destruct (int_add _ (Create (reg kInt32 1)) kInt64 kInt32 kInt64 m 1 false false eq_refl eq_refl eq_refl Im
    ltac:(by apply int_create)) as (u & Eu & Iu).
  step_body. rewrite Eu. cbn [mbind option_bind store_value list.head fmap list_fmap].
  pose proof (int_select_null v _ _ kInt64 T n b m _ false _ Iv Im Iu) as Is.
  rewrite (store_int _ kInt64 _ _ _ Is (llvm_int kInt64 eq_refl)). cbn [mbind option_bind]. do 3 f_equal.
  destruct s as [|x|x]; cbn [acc_count not_null]; [by subst b|by destruct Hs as (-> & -> & _)..].
Qed.

(** Extrema: [c] is the comparison of the element with the state. *)
Definition pick (c : CmpOp) (cur n : Z) : Z := if int_cmp c n cur then n else cur.

Lemma ext_step T init c es s b0 m : int_type T = true -> elem T es s -> in_type T m = true ->
  udaf_step undef ext
    (extremum init (fun input cur => CondExpr (BinaryExpr (op_of c) input cur) input cur) T) [kBool; T] [T] es
    [reg kBool (bool_int b0); reg T m] =
  Some (let st := acc_ext (pick c) (b0, m) s in [reg kBool (bool_int st.1); reg T st.2]).
Proof.
  intros HT (v & -> & n & b & Iv & Hs) Hm. pose proof (int_is_integer T HT) as HTi.
  pose proof (int_create T m HTi Hm) as Im. pose proof (int_create kBool _ eq_refl (bool_in_type b0)) as If0.
  destruct (int_compare c _ _ T n m b false HT Iv Im) as (u & Eu & Iu).
  step_body. rewrite Eu. cbn [mbind option_bind mret option_ret store_value store_states fmap list_fmap].
  pose proof (int_select_null v _ (Create (reg kBool 0)) kBool T n b _ _ false false Iv If0
    ltac:(by apply int_create)) as I1.
  pose proof (int_select u v _ T _ _ _ _ _ _ Iu Iv Im) as I2.
  pose proof (int_select_null v _ _ T T n b m _ false _ Iv Im I2) as I3.
  rewrite (store_int _ kBool _ _ _ I1 (llvm_int kBool eq_refl)), (store_int _ T _ _ _ I3 (llvm_int T HTi)). cbn [mbind option_bind].
  destruct s as [|x|x]; cbn [acc_ext fst snd].
  - by subst b.
  - destruct Hs as (-> & -> & _). do 4 f_equal. unfold pick. by destruct (int_cmp c x m).
  - by destruct Hs as (_ & _ & ->).
Qed.

(** *** Conditional aggregates *)

Definition elem2 (T : DataType) (es : list NativeValue) (p : sval * sval) : Prop :=
  exists v c, es = [v; c] /\ denotes v T p.1 /\ denotes c kBool p.2.

Definition acc_where {A} (f : A -> sval -> A) (m : A) (p : sval * sval) : A :=
  match p.2 with SBool true => f m p.1 | _ => m end.
Definition acc_pick (c : CmpOp) (m : Z) (s : sval) : Z :=
  match s with SInt n => if int_cmp c m n then n else m | _ => m end.

Lemma select_where cv l r t sc m n b1 b2 : denotes cv kBool sc -> int_value l t m b1 -> int_value r t n b2 ->
  exists b, int_value (Select undef cv l r) t (match sc with SBool true => m | _ => n end) b.
Proof.
  intros (nc & bc & Ic & Hc) Il Ir. pose proof (int_select cv l r t nc bc m n b1 b2 Ic Il Ir) as H. cbn zeta in H.
  assert (negb (nc =? 0) && negb bc = match sc with SBool true => true | _ => false end) as E.
  { destruct sc as [|x|[]]; [by rewrite Hc, andb_false_r|by destruct Hc as (_ & _ & ?)|..]; by destruct Hc as (-> & -> & _). }
  rewrite E in H. destruct sc as [|x|[]]; eexists; exact H.
Qed.

Lemma no_cast T e : int_type T = true -> cast_time T e = e.
Proof. by destruct T. Qed.

Lemma sum_where_step T es p m : int_type T = true -> elem2 T es p -> (p.2 = SBool true -> p.1 <> SNull) -> in_type T m = true ->
  udaf_step undef ext (SumWhereDef T) [T] [T; kBool] es [reg T m] = Some [reg T (acc_where (acc_sum T) m p)].
Proof.
  intros HT (v & c & -> & (n & b & Iv & Hs) & Dc) Hnull Hm. pose proof (int_is_integer T HT) as HTi.
  pose proof (int_create T m HTi Hm) as Im.
  assert (InferNumberCastTypes T T = Some T) as Hc by (by apply int_type_cases in HT as [->|[->| ->]]).
  destruct (int_add _ _ T T T m n false b HT HT Hc Im Iv) as (u & Eu & Iu).
  step_body. rewrite no_cast by done. cbn [Build lookup list_lookup mbind option_bind]. rewrite Eu.
  cbn [mbind option_bind store_value list.head fmap list_fmap].
  destruct (select_where c _ _ T p.2 _ _ _ _ Dc Iu Im) as (b' & Is).
  rewrite (store_int _ T _ _ _ Is (llvm_int T HTi)). cbn [mbind option_bind]. do 3 f_equal.
  unfold acc_where. destruct p as [s [|x|[]]]; try done. cbn [fst snd] in *.
  destruct s as [|x|x]; [by destruct (Hnull eq_refl)|by destruct Hs as (_ & -> & _)|]. by destruct Hs as (_ & _ & ->).
Qed.

Lemma count_where_step T es p m : IsInteger T = true -> elem2 T es p -> in_type kInt64 m = true ->
  udaf_step undef ext (CountWhereDef T) [kInt64] [T; kBool] es [reg kInt64 m] =
  Some [reg kInt64 (acc_where acc_count m p)].
Proof.
  intros HT (v & c & -> & (n & b & Iv & Hs) & Dc) Hm. pose proof (int_create kInt64 m eq_refl Hm) as Im.
  destruct (int_add _ (Create (reg kInt32 1)) kInt64 kInt32 kInt64 m 1 false false eq_refl eq_refl eq_refl Im
    ltac:(by apply int_create)) as (u & Eu & Iu).
  step_body. rewrite Eu. cbn [mbind option_bind store_value list.head fmap list_fmap].
  pose proof (int_select_null v _ _ kInt64 T n b m _ false _ Iv Im Iu) as Is.
  destruct (select_where c _ _ kInt64 p.2 _ _ _ _ Dc Is Im) as (b' & Iw).
  rewrite (store_int _ kInt64 _ _ _ Iw (llvm_int kInt64 eq_refl)). cbn [mbind option_bind]. do 3 f_equal.
  unfold acc_where. destruct p as [s [|x|[]]]; try done. cbn [fst snd] in *.
  destruct s as [|x|x]; cbn [acc_count not_null]; [by subst b|by destruct Hs as (-> & -> & _)..].
Qed.

Lemma ext_where_step T init c es p m : int_type T = true -> elem2 T es p -> in_type T m = true ->
  udaf_step undef ext
    (mkUdaf (Single (ConstNode T init))
       (Single (CondExpr (VarNode 2)
          (CondExpr (BinaryExpr (op_of c) (VarNode 0) (cast_time T (VarNode 1))) (cast_time T (VarNode 1)) (VarNode 0))
          (VarNode 0))) State) [T] [T; kBool] es [reg T m] =
  Some [reg T (acc_where (acc_pick c) m p)].
Proof.
  intros HT (v & cv & -> & (n & b & Iv & Hs) & Dc) Hm. pose proof (int_is_integer T HT) as HTi.
  pose proof (int_create T m HTi Hm) as Im. rewrite no_cast by done.
  destruct (int_compare c _ _ T m n false b HT Im Iv) as (u & Eu & Iu).
  step_body. rewrite Eu. cbn [mbind option_bind store_value list.head fmap list_fmap].
  pose proof (int_select u v _ T _ _ _ _ _ _ Iu Iv Im) as Is.
  destruct (select_where cv _ _ T p.2 _ _ _ _ Dc Is Im) as (b' & Iw).
  rewrite (store_int _ T _ _ _ Iw (llvm_int T HTi)). cbn [mbind option_bind]. do 3 f_equal.
  unfold acc_where. destruct p as [s [|x|[]]]; try done. cbn [fst snd] in *.
  destruct s as [|x|x]; cbn [acc_pick].
  - subst b. by rewrite orb_true_r, andb_false_r.
  - destruct Hs as (-> & -> & _). by destruct (int_cmp c m x).
  - by destruct Hs as (_ & _ & ->).
Qed.

(** *** The output of an extremum *)

Lemma null_select T b0 m : int_type T = true -> in_type T m = true ->
  denotes (Select undef (Create (reg kBool (bool_int b0))) (CreateNull (IntTy (width T))) (Create (reg T m))) T
    (if b0 then SNull else SInt m).
Proof.
  intros HT Hm. pose proof (int_is_integer T HT) as HTi. destruct (null_branch undef Hundef T HTi) as (u & Bu & Hu).
  pose proof (int_create T m HTi Hm) as Im.
  pose proof (Select_branches undef _ _ _ T u m true false b0 Bu (int_branch undef _ _ _ _ Im) HTi Hu Hm eq_refl) as H.
  exists (if b0 then u else m), (if b0 then true else false). split; [|by destruct b0]. exact H.
Qed.

Lemma cast_null T : int_type T = true ->
  Build (types_of [kBool; T]) undef ext (fun _ => None) (CastExpr T const_null) = Some (CreateNull (IntTy (width T))).
Proof. by intros [->|[->| ->]]%int_type_cases. Qed.
End Steps.

(** ** The loop *)

Section Loop.
Context (undef : LType -> Value) (ext : Externals).
Context (Hundef : forall t, IsInteger t = true -> exists n, undef (IntTy (width t)) = VInt n /\ in_type t n = true).
Context {I R : Type} `{RowIteratorLaws I R}.

(** A loop whose turns accumulate [f]. *)
Lemma call_loop {A S} fn sts ets (elems : R -> option (list NativeValue)) (window : I) fuel
    (enc : A -> list LValue) (ok : A -> Prop) (f : A -> S -> A) (rel : list NativeValue -> S -> Prop) a0 ss :
  it_ok window -> (length (all window) <= fuel)%nat ->
  Forall2 (fun e s => exists es, elems e.2 = Some es /\ rel es s) (all window) ss ->
  (forall es s a, rel es s -> ok a -> udaf_step undef ext fn sts ets es (enc a) = Some (enc (f a s)) /\ ok (f a s)) ->
  ok a0 ->
  for_rows (fun _ row states => es ← elems row; udaf_step undef ext fn sts ets es states) fuel (SeekToFirst window) (enc a0) =
    Some (enc (foldl f a0 ss)) /\ ok (foldl f a0 ss).
Proof.
  intros Ho Hf Hrows Hstep Ha.
  rewrite for_rows_rest by (rewrite ?first_rest by done; (by apply first_ok) || done). rewrite first_rest by done.
  clear Hf. revert a0 Ha. induction Hrows as [|e s l ss (es & Ee & Hr) _ IH]; intros a0 Ha; cbn [fold_rows foldl]; [done|].
  rewrite Ee. cbn [mbind option_bind]. destruct (Hstep es s a0 Hr Ha) as [-> Hok]. cbn [mbind option_bind]. by apply IH.
Qed.

(** Rows with an element of type [T]. *)
Definition elements (T : DataType) (elems : R -> option (list NativeValue)) (rows : list (Z * R)) (ss : list sval) : Prop :=
  Forall2 (fun e s => exists es, elems e.2 = Some es /\ elem T es s) rows ss.

Lemma acc_sum_in T m s : int_type T = true -> in_type T m = true -> in_type T (acc_sum T m s) = true.
Proof. intros HT Hm. destruct s; [done| |done]. by apply wraps_in_type. Qed.
Lemma acc_count_in m s : in_type kInt64 m = true -> in_type kInt64 (acc_count m s) = true.
Proof. intros Hm. unfold acc_count. destruct (not_null s); [|done]. by apply (wraps_in_type kInt64). Qed.
Lemma elem_in T es s n : elem T es s -> s = SInt n -> in_type T n = true.
Proof. intros (v & -> & m & b & (_ & Hm & _) & Hs) ->. by destruct Hs as (_ & -> & _). Qed.

(** Aggregates with one integer as their state. *)
Lemma call_single {S} T ets upd elems window fuel n0 (f : Z -> S -> Z) rel (ss : list S) :
  IsInteger T = true -> in_type T n0 = true -> it_ok window -> (length (all window) <= fuel)%nat ->
  Forall2 (fun e s => exists es, elems e.2 = Some es /\ rel es s) (all window) ss ->
  (forall es s m, rel es s -> in_type T m = true ->
     udaf_step undef ext (mkUdaf (Single (ConstNode T (VInt n0))) upd State) [T] ets es [reg T m] = Some [reg T (f m s)] /\
     in_type T (f m s) = true) ->
  BuildUdafCall undef ext (mkUdaf (Single (ConstNode T (VInt n0))) upd State) ets elems fuel window =
    Some (One (Create (reg T (foldl f n0 ss)))) /\ in_type T (foldl f n0 ss) = true.
Proof.
  intros HT Hn Ho Hf Hrows Hstep.
  destruct (call_loop (mkUdaf (Single (ConstNode T (VInt n0))) upd State) [T] ets elems window fuel (fun m => [reg T m])
    (fun m => in_type T m = true) f rel n0 ss Ho Hf Hrows) as [E Hin]; [intros es s a; apply Hstep|done|].
  split; [|done]. unfold BuildUdafCall. cbn [init_expr infer_body infer mbind option_bind].
  rewrite llvm_ints by (cbn; by rewrite HT). cbn [mbind option_bind build_body Build fmap list_fmap].
  rewrite const_int by done. cbn [mbind option_bind init_states].
  rewrite (store_int undef _ T n0 false _ (int_create T n0 HT Hn) (llvm_int T HT)). cbn [mbind option_bind].
  by rewrite E.
Qed.

(** Extrema. *)
Lemma call_extremum T n0 c elems window fuel ss : int_type T = true -> in_type T n0 = true ->
  it_ok window -> (length (all window) <= fuel)%nat -> elements T elems (all window) ss ->
  exists v, BuildUdafCall undef ext
      (extremum (VInt n0) (fun input cur => CondExpr (BinaryExpr (op_of c) input cur) input cur) T) [T] elems fuel window =
    Some (One v) /\
    denotes v T (if bool_decide (ints ss = []) then SNull else SInt (foldl (pick c) n0 (ints ss))).
Proof.
  intros HT Hn Ho Hf Hrows. pose proof (int_is_integer T HT) as HTi.
  set (fn := extremum (VInt n0) (fun input cur => CondExpr (BinaryExpr (op_of c) input cur) input cur) T).
  destruct (call_loop fn [kBool; T] [T] elems window fuel
    (fun st : bool * Z => [reg kBool (bool_int st.1); reg T st.2]) (fun st => in_type T st.2 = true)
    (acc_ext (pick c)) (elem T) (true, n0) ss Ho Hf Hrows) as [E Hin]; [|done|].
  { intros es s [b m] Hr Hm. split; [by apply ext_step|]. destruct s as [|n|]; [done| |done].
    cbn. unfold pick. destruct (int_cmp c n m); [by eapply elem_in|done]. }
  rewrite acc_ext_ints in E, Hin. cbn [andb fst snd] in E, Hin. eexists. split.
  - unfold BuildUdafCall. change (infer_body (types_of []) [] (init_expr fn)) with (Some [kBool; T]).
    cbn [mbind option_bind]. rewrite llvm_ints by (cbn; by rewrite HTi).
    change (init_expr fn) with (MakeTuple [const_true; ConstNode T (VInt n0)]).
    cbn [mbind option_bind build_body Build mapM fmap list_fmap const_true].
    rewrite !const_int by done. cbn [mbind option_bind mret option_ret init_states store_states].
    rewrite (store_int undef _ kBool (-1) false _ (int_create kBool (-1) eq_refl eq_refl) (llvm_int kBool eq_refl)),
      (store_int undef _ T n0 false _ (int_create T n0 HTi Hn) (llvm_int T HTi)).
    cbn [mbind option_bind]. change (reg kBool (-1)) with (reg kBool (bool_int true)). rewrite E.
    change (output_func fn) with (Single (CondExpr (VarNode 0) (CastExpr T const_null) (VarNode 1))).
    cbn [mbind option_bind fmap list_fmap build_body].
    change (Build (types_of [kBool; T]) undef ext ?env (CondExpr (VarNode 0) ?l (VarNode 1))) with
      (vc ← env 0%nat; vl ← Build (types_of [kBool; T]) undef ext env l; vr ← env 1%nat; Some (Select undef vc vl vr)).
    cbn [lookup list_lookup mbind option_bind].
    assert (forall env, Build (types_of [kBool; T]) undef ext env (CastExpr T const_null) = Some (CreateNull (IntTy (width T)))) as ->
      by (intros env; by apply int_type_cases in HT as [->|[->| ->]]).
    cbn [mbind option_bind]. reflexivity.
  - pose proof (null_select undef Hundef T (bool_decide (ints ss = [])) _ HT Hin) as D. exact D.
Qed.

Lemma elements_in T elems rows ss : elements T elems rows ss -> Forall (fun n => in_type T n = true) (ints ss).
Proof.
  induction 1 as [|e s l ss (es & _ & Hr) _ IH]; [constructor|]. rewrite ints_cons.
  destruct s; [done| |done]. constructor; [by eapply elem_in|done].
Qed.

(** The types an aggregate is specified for: integers, for [count] also booleans;
    not floating point numbers, dates, time stamps and strings. *)
Definition agg_covers (name : AggName) (T : DataType) : bool :=
  match name with agg_count => IsInteger T | _ => int_type T end.

Lemma least_foldl T (l : list Z) : Forall (fun n => in_type T n = true) l ->
  (if bool_decide (l = []) then SNull else SInt (foldl (pick CmpLt) (2 ^ (width T - 1) - 1) l)) = int_or_null (least l).
Proof.
  intros Hl. assert (forall m l', foldl (pick CmpLt) m l' = foldr Z.min m l') as E.
  { intros m l'. rewrite <- foldl_min_foldr. revert m. induction l' as [|n l' IH]; intros m; [done|]. cbn [foldl]. rewrite IH.
    f_equal. unfold pick, int_cmp. destruct (Z.ltb_spec n m); lia. }
  rewrite E. destruct l as [|n l]; [done|]. rewrite bool_decide_false by done. cbn. f_equal.
  apply Forall_cons_1 in Hl as [Hn _]. apply in_type_range in Hn.
  induction l as [|k l IH]; cbn; lia.
Qed.
Lemma greatest_foldl T (l : list Z) : Forall (fun n => in_type T n = true) l ->
  (if bool_decide (l = []) then SNull else SInt (foldl (pick CmpGt) (- 2 ^ (width T - 1)) l)) = int_or_null (greatest l).
Proof.
  intros Hl. assert (forall m l', foldl (pick CmpGt) m l' = foldr Z.max m l') as E.
  { intros m l'. rewrite <- foldl_max_foldr. revert m. induction l' as [|n l' IH]; intros m; [done|]. cbn [foldl]. rewrite IH.
    f_equal. unfold pick, int_cmp. destruct (Z.ltb_spec m n); lia. }
  rewrite E. destruct l as [|n l]; [done|]. rewrite bool_decide_false by done. cbn. f_equal.
  apply Forall_cons_1 in Hl as [Hn _]. apply in_type_range in Hn.
  induction l as [|k l IH]; cbn; lia.
Qed.

(** A call on rows whose elements have values of the reference semantics. *)
Lemma call_value name T elems window fuel ss r : agg_covers name T = true -> agg_value name T ss = Some r ->
  it_ok window -> (length (all window) <= fuel)%nat -> elements T elems (all window) ss ->
  exists fn v, ResolveFunction name [T] = Some fn /\ VisitUdafDef fn [T] = Some [agg_type name T] /\
    BuildUdafCall undef ext fn [T] elems fuel window = Some (One v) /\ denotes v (agg_type name T) r.
Proof.
  intros Hc Hr Ho Hf Hrows. pose proof (elements_in T elems _ ss Hrows) as Hin.
  assert (forall m t, IsInteger t = true -> int_type t = true -> in_type t m = true -> denotes (Create (reg t m)) t (SInt m)) as Hd.
  { intros m t Hi Ht Hm. exists m, false. split; [by apply create_int|done]. }
  destruct name; try done; injection Hr as <-; cbn [agg_covers agg_type] in *.
  - exists (SumUdafDef T). assert (in_type T 0 = true /\ zero_value T = VInt 0 /\ 0 < width T) as (Hz & Ez & Hw)
      by (by apply int_type_cases in Hc as [->|[->| ->]]).
    destruct (call_single T [T] (update_func (SumUdafDef T)) elems window fuel 0 (acc_sum T) (elem T) ss
      (int_is_integer T Hc) Hz Ho Hf Hrows) as [E Hm].
    { intros es s m He Hm. split; [|by apply acc_sum_in]. pose proof (sum_step undef ext T es s m Hc He Hm) as Es.
      unfold SumUdafDef in Es. by rewrite Ez in Es. }
    pose proof (acc_sum_total T ss 0 Hw) as Et. rewrite wraps_id in Et by done. rewrite Et in E, Hm.
    eexists. split_and!; [by apply int_type_cases in Hc as [->|[->| ->]]..| |by apply Hd; [apply int_is_integer|..]].
    unfold SumUdafDef. rewrite Ez. exact E.
  - exists (MinUdafDef T).
    destruct (call_extremum T (2 ^ (width T - 1) - 1) CmpLt elems window fuel ss Hc) as (v & E & D); [|done..|].
    { apply int_type_cases in Hc as [->|[->| ->]]; by apply in_type_range. }
    exists v. rewrite (least_foldl T _ Hin) in D.
    split_and!; [by apply int_type_cases in Hc as [->|[->| ->]]..| |done].
    by apply int_type_cases in Hc as [->|[->| ->]].
  - exists (MaxUdafDef T).
    destruct (call_extremum T (- 2 ^ (width T - 1)) CmpGt elems window fuel ss Hc) as (v & E & D); [|done..|].
    { apply int_type_cases in Hc as [->|[->| ->]]; by apply in_type_range. }
    exists v. rewrite (greatest_foldl T _ Hin) in D.
    split_and!; [by apply int_type_cases in Hc as [->|[->| ->]]..| |done].
    by apply int_type_cases in Hc as [->|[->| ->]].
  - exists (CountUdafDef T).
    destruct (call_single kInt64 [T] (update_func (CountUdafDef T)) elems window fuel 0 acc_count (elem T) ss
      eq_refl eq_refl Ho Hf Hrows) as [E Hm].
    { intros es s m He Hm. split; [by apply count_step|by apply acc_count_in]. }
    pose proof (acc_count_total ss 0) as Et. change (wraps 64 0) with 0 in Et. rewrite Et in E, Hm.
    eexists. split_and!; [by destruct T..|exact E|by apply Hd].
Qed.

(** *** Conditional aggregates *)

Lemma foldl_where {A} (f : A -> sval -> A) ps a : foldl (acc_where f) a ps = foldl f a (selected ps).
Proof. revert a. induction ps as [|[s [|x|[]]] ps IH]; intros a; cbn; [done|apply IH..]. Qed.
Lemma foldl_pick_min ss m : foldl (acc_pick CmpGt) m ss = foldr Z.min m (ints ss).
Proof.
  rewrite <- foldl_min_foldr. revert m. induction ss as [|s ss IH]; intros m; [done|]. rewrite ints_cons. cbn [foldl]. rewrite IH.
  destruct s as [|n|b]; [done| |done]. cbn. f_equal. destruct (Z.ltb_spec n m); lia.
Qed.
Lemma foldl_pick_max ss m : foldl (acc_pick CmpLt) m ss = foldr Z.max m (ints ss).
Proof.
  rewrite <- foldl_max_foldr. revert m. induction ss as [|s ss IH]; intros m; [done|]. rewrite ints_cons. cbn [foldl]. rewrite IH.
  destruct s as [|n|b]; [done| |done]. cbn. f_equal. destruct (Z.ltb_spec m n); lia.
Qed.

(** Elements with their conditions; a sum does not check for NULL. *)
Definition where_ok (name : AggName) (p : sval * sval) : Prop :=
  match name with agg_sum_where => p.2 = SBool true -> p.1 <> SNull | _ => True end.

Lemma call_where_value name T elems window fuel ps r : int_type T = true -> agg_where_value name T ps = Some r ->
  it_ok window -> (length (all window) <= fuel)%nat ->
  Forall2 (fun e p => exists es, elems e.2 = Some es /\ elem2 T es p /\ where_ok name p) (all window) ps ->
  exists fn v, ResolveFunction name [T; kBool] = Some fn /\ VisitUdafDef fn [T; kBool] = Some [agg_where_type name T] /\
    BuildUdafCall undef ext fn [T; kBool] elems fuel window = Some (One v) /\ denotes v (agg_where_type name T) r.
Proof.
  intros Hc Hr Ho Hf Hrows. pose proof (int_is_integer T Hc) as Hi.
  assert (forall m t, IsInteger t = true -> int_type t = true -> in_type t m = true -> denotes (Create (reg t m)) t (SInt m)) as Hd.
  { intros m t Hti Ht Hm. exists m, false. split; [by apply create_int|done]. }
  assert (forall es p n, elem2 T es p -> p.1 = SInt n -> in_type T n = true) as Hel.
  { intros es [s c] n (v & cv & -> & (k & b & (_ & Hk & _) & Hs) & _) Es. cbn in *. rewrite Es in Hs. by destruct Hs as (_ & -> & _). }
  assert (forall c es p m, elem2 T es p -> in_type T m = true -> in_type T (acc_where (acc_pick c) m p) = true) as Hp.
  { intros c es [s [|x|[]]] m He Hm; try done. cbn. destruct s as [|n|]; [done| |done]. cbn.
    destruct (int_cmp c m n); [by eapply Hel|done]. }
  destruct name; try done; injection Hr as <-; cbn [agg_where_type] in *.
  - assert (in_type T 0 = true /\ zero_value T = VInt 0 /\ 0 < width T) as (Hz & Ez & Hw)
      by (by apply int_type_cases in Hc as [->|[->| ->]]).
    destruct (call_single T [T; kBool] (update_func (SumWhereDef T)) elems window fuel 0 (acc_where (acc_sum T))
      (fun es p => elem2 T es p /\ where_ok agg_sum_where p) ps Hi Hz Ho Hf Hrows) as [E Hm].
    { intros es p m [He Hn] Hm. split.
      - pose proof (sum_where_step undef ext T es p m Hc He Hn Hm) as Es. unfold SumWhereDef in Es. by rewrite Ez in Es.
      - unfold acc_where. destruct p.2 as [|x|[]]; [done|done|by apply acc_sum_in|done]. }
    rewrite foldl_where in E, Hm. pose proof (acc_sum_total T (selected ps) 0 Hw) as Et. rewrite wraps_id in Et by done.
    rewrite Et in E, Hm. eexists _, _. split_and!; [by apply int_type_cases in Hc as [->|[->| ->]]|
      by apply int_type_cases in Hc as [->|[->| ->]]| |by apply Hd].
    unfold SumWhereDef. rewrite Ez. exact E.
  - destruct (call_single kInt64 [T; kBool] (update_func (CountWhereDef T)) elems window fuel 0 (acc_where acc_count)
      (fun es p => elem2 T es p /\ where_ok agg_count_where p) ps eq_refl eq_refl Ho Hf Hrows) as [E Hm].
    { intros es p m [He _] Hm. split; [by apply count_where_step|].
      unfold acc_where. destruct p.2 as [|x|[]]; [done|done|by apply acc_count_in|done]. }
    rewrite foldl_where in E, Hm. pose proof (acc_count_total (selected ps) 0) as Et. change (wraps 64 0) with 0 in Et.
    rewrite Et in E, Hm. eexists _, _. split_and!; [by apply int_type_cases in Hc as [->|[->| ->]]|
      by apply int_type_cases in Hc as [->|[->| ->]]|exact E|by apply Hd].
  - assert (in_type T (2 ^ (width T - 1) - 1) = true /\ maximum_value T = VInt (2 ^ (width T - 1) - 1)) as [Hz Ez]
      by (by apply int_type_cases in Hc as [->|[->| ->]]).
    destruct (call_single T [T; kBool] (update_func (MinWhereDef T)) elems window fuel (2 ^ (width T - 1) - 1)
      (acc_where (acc_pick CmpGt)) (fun es p => elem2 T es p /\ where_ok agg_min_where p) ps Hi Hz Ho Hf Hrows) as [E Hm].
    { intros es p m [He _] Hm. split; [by apply (ext_where_step undef ext T _ CmpGt)|by eapply Hp]. }
    rewrite foldl_where, foldl_pick_min in E, Hm. eexists _, _.
    split_and!; [by apply int_type_cases in Hc as [->|[->| ->]]|by apply int_type_cases in Hc as [->|[->| ->]]| |by apply Hd].
    unfold MinWhereDef. rewrite Ez. exact E.
  - assert (in_type T (- 2 ^ (width T - 1)) = true /\ minimum_value T = VInt (- 2 ^ (width T - 1))) as [Hz Ez]
      by (by apply int_type_cases in Hc as [->|[->| ->]]).
    destruct (call_single T [T; kBool] (update_func (MaxWhereDef T)) elems window fuel (- 2 ^ (width T - 1))
      (acc_where (acc_pick CmpLt)) (fun es p => elem2 T es p /\ where_ok agg_max_where p) ps Hi Hz Ho Hf Hrows) as [E Hm].
    { intros es p m [He _] Hm. split; [by apply (ext_where_step undef ext T _ CmpLt)|by eapply Hp]. }
    rewrite foldl_where, foldl_pick_max in E, Hm. eexists _, _.
    split_and!; [by apply int_type_cases in Hc as [->|[->| ->]]|by apply int_type_cases in Hc as [->|[->| ->]]| |by apply Hd].
    unfold MaxWhereDef. rewrite Ez. exact E.
Qed.
End Loop.

(** ** Calls over a window *)

Section Window.
Context (ctx : SchemasContext) (undef : LType -> Value) (ext : Externals).
Context (Hb : built false ctx).
Context (Hundef : forall t, IsInteger t = true -> exists n, undef (IntTy (width t)) = VInt n /\ in_type t n = true).
Context {I : Type} `{RowIteratorLaws I Row}.

(** A stored row on which expression [e] has value [s]. *)
Definition has_value (e : expr) (row : Row) (s : sval) : Prop :=
  exists vss, row_stores ctx vss row /\ sem (field_type ctx) (column_value ctx vss) e = Some s.

Lemma value_denotes e row s T : has_value e row s -> infer (field_type ctx) e = Some T ->
  exists v, Build (field_type ctx) undef ext (BuildGetFieldExpr false ctx row) e = Some v /\ denotes v T s.
Proof.
  intros (vss & Hrow & Hs) HT.
  destruct (proj1 (sem_correct (field_type ctx) (column_value ctx vss) undef ext (BuildGetFieldExpr false ctx row) Hundef
    (fun x a => column_denotes ctx vss row x a Hb Hrow)) e s Hs) as (t & v & Et & Ev & Hd).
  exists v. by assert (t = T) as -> by congruence.
Qed.

Lemma agg_call_value name e T (window : I) fuel ss r :
  it_ok window -> (length (all window) <= fuel)%nat -> is_primary e = false ->
  infer (field_type ctx) e = Some T -> agg_covers name T = true -> agg_value name T ss = Some r ->
  Forall2 (fun x s => has_value e x.2 s) (all window) ss ->
  exists v, agg_call false ctx undef ext name [e] fuel window = Some v /\ denotes v (agg_type name T) r.
Proof.
  intros Ho Hf Hp HT Hc Hr Hrows.
  destruct (call_value undef ext Hundef name T
    (fun row => mapM (Build (field_type ctx) undef ext (BuildGetFieldExpr false ctx row)) [e]) window fuel ss r Hc Hr Ho Hf)
    as (fn & v & Efn & Evis & Ecall & Hd).
  { eapply Forall2_impl; [|exact Hrows]. intros x s Hx. destruct (value_denotes e x.2 s T Hx HT) as (v & Ev & Dv).
    exists [v]. split; [|by exists v]. cbn. by rewrite Ev. }
  exists v. split; [|done]. unfold agg_call.
  assert (mapM (infer (field_type ctx)) [e] = Some [T]) as -> by (cbn; by rewrite HT). cbn [mbind option_bind].
  rewrite Efn. cbn [mbind option_bind]. rewrite Evis. cbn [mbind option_bind forallb]. rewrite Hp. cbn [andb].
  rewrite Ecall. done.
Qed.

Lemma agg_where_call_value name e c T (window : I) fuel ps r :
  it_ok window -> (length (all window) <= fuel)%nat -> is_primary e = false ->
  infer (field_type ctx) e = Some T -> infer (field_type ctx) c = Some kBool -> int_type T = true ->
  agg_where_value name T ps = Some r ->
  Forall2 (fun x p => has_value e x.2 p.1 /\ has_value c x.2 p.2 /\ where_ok name p) (all window) ps ->
  exists v, agg_call false ctx undef ext name [e; c] fuel window = Some v /\ denotes v (agg_where_type name T) r.
Proof.
  intros Ho Hf Hp HT Hcond Hi Hr Hrows.
  destruct (call_where_value undef ext name T
    (fun row => mapM (Build (field_type ctx) undef ext (BuildGetFieldExpr false ctx row)) [e; c]) window fuel ps r Hi Hr Ho Hf)
    as (fn & v & Efn & Evis & Ecall & Hd).
  { eapply Forall2_impl; [|exact Hrows]. intros x p (Hx & Hy & Hok).
    destruct (value_denotes e x.2 p.1 T Hx HT) as (v & Ev & Dv).
    destruct (value_denotes c x.2 p.2 kBool Hy Hcond) as (w & Ew & Dw).
    exists [v; w]. split_and!; [|by exists v, w|done]. cbn. by rewrite Ev, Ew. }
  exists v. split; [|done]. unfold agg_call.
  assert (mapM (infer (field_type ctx)) [e; c] = Some [T; kBool]) as -> by (cbn; by rewrite HT, Hcond). cbn [mbind option_bind].
  rewrite Efn. cbn [mbind option_bind]. rewrite Evis. cbn [mbind option_bind forallb]. rewrite Hp. cbn [andb].
  rewrite Ecall. done.
Qed.
End Window.

(** C5: an aggregate of integers over a window computes the SQL aggregate. For
    every window whose iterator keeps its promises and whose rows store the columns
    of the context, the compiled call of [sum], [count], [min] or [max] on an
    expression of type smallint, int or bigint (for [count] also bool) that is not
    a constant runs through all rows and yields the aggregate of the values of
    the expression without NULLs: the sum (0 if there is no value) or the count
    modulo the width of its type, or the least or greatest value, NULL when there
    is none. Arguments of other types (float, double, date, timestamp, string) are
    not covered. *)
Theorem aggregate_call (ctx : SchemasContext) undef ext {I} `{RowIteratorLaws I Row} name e T (window : I) fuel ss r :
  built false ctx ->
  (forall t, IsInteger t = true -> exists n, undef (IntTy (width t)) = VInt n /\ in_type t n = true) ->
  it_ok window -> (length (all window) <= fuel)%nat -> is_primary e = false ->
  infer (field_type ctx) e = Some T -> agg_covers name T = true -> agg_value name T ss = Some r ->
  Forall2 (fun x s => has_value ctx e x.2 s) (all window) ss ->
  exists v, agg_call false ctx undef ext name [e] fuel window = Some v /\ denotes v (agg_type name T) r.
Proof. intros Hb Hu. by apply agg_call_value. Qed.

(** Conditional aggregates over a window ([sum_where], [count_where],
    [min_where], [max_where]) compute the aggregate of the values whose
    condition is true; without a value, extrema yield the bound of the type.
    A sum needs that no selected value is NULL. *)
Theorem aggregate_where_call (ctx : SchemasContext) undef ext {I} `{RowIteratorLaws I Row} name e c T (window : I) fuel ps r :
  built false ctx ->
  (forall t, IsInteger t = true -> exists n, undef (IntTy (width t)) = VInt n /\ in_type t n = true) ->
  it_ok window -> (length (all window) <= fuel)%nat -> is_primary e = false ->
  infer (field_type ctx) e = Some T -> infer (field_type ctx) c = Some kBool -> int_type T = true ->
  agg_where_value name T ps = Some r ->
  Forall2 (fun x p => has_value ctx e x.2 p.1 /\ has_value ctx c x.2 p.2 /\ where_ok name p) (all window) ps ->
  exists v, agg_call false ctx undef ext name [e; c] fuel window = Some v /\ denotes v (agg_where_type name T) r.
Proof. intros Hb Hu. by apply agg_where_call_value. Qed.

(** ** Samples *)

Module SampleAggregates.
Import SamplePlan SampleProjection.
Definition other_values : list (option RowBuilder.Value) := [Some (VInt32 (-3)); Some (VInt64 5)].
Definition other_row : Row := Row_of_slice (slice_of left_cols other_values).
Definition window : MemTimeTableIterator Row := MemTimeTableIterator_new [(20, left_row); (10, other_row)].
Definition a_plus_b : expr := BinaryExpr kFnOpAdd (VarNode 1) (VarNode 2).
Definition joined_window : MemTimeTableIterator Row := MemTimeTableIterator_new [(20, joined_row); (10, joined_row)].

Lemma other_stores : row_stores left [other_values] other_row.
Proof.
  intros [|i] vs Hvs; [|done]. injection Hvs as <-. exists left_cols, (slice_of left_cols other_values).
  split_and!; [|done|].
  - unfold GetSchema, GetSchemaSource. by rewrite (proj2 left_built).
  - apply slice_of_holds; [|vm_compute; discriminate].
    split; [|repeat constructor; vm_compute; repeat split; discriminate|done|done|done]. repeat constructor; done.
Qed.
Lemma undef_ok t : IsInteger t = true -> exists n, undef (IntTy (width t)) = VInt n /\ in_type t n = true.
Proof. intros Ht. exists 0. split; [reflexivity|]. by destruct t. Qed.
End SampleAggregates.

Lemma aggregate_call_witness :
  exists v, agg_call false SamplePlan.left SampleProjection.undef SampleProjection.ext agg_sum [SampleAggregates.a_plus_b] 2
      SampleAggregates.window = Some v /\ denotes v kInt64 (SInt 2).
Proof.
  apply (aggregate_call SamplePlan.left SampleProjection.undef SampleProjection.ext agg_sum SampleAggregates.a_plus_b kInt64
    SampleAggregates.window 2 [SNull; SInt 2] (SInt 2)).
  - exact (proj1 SamplePlan.left_built).
  - exact SampleAggregates.undef_ok.
  - cbn. lia.
  - cbn. lia.
  - reflexivity.
  - vm_compute. reflexivity.
  - reflexivity.
  - vm_compute. reflexivity.
  - repeat constructor.
    + exists [SampleProjection.left_values]. split; [exact SampleProjection.left_stores|vm_compute; reflexivity].
    + exists [SampleAggregates.other_values]. split; [exact SampleAggregates.other_stores|vm_compute; reflexivity].
Defined.

Lemma aggregate_where_call_witness :
  exists v, agg_call false SamplePlan.joined SampleProjection.undef SampleProjection.ext agg_sum_where [VarNode 1; VarNode 3] 2
      SampleAggregates.joined_window = Some v /\ denotes v kInt32 (SInt 14).
Proof.
  apply (aggregate_where_call SamplePlan.joined SampleProjection.undef SampleProjection.ext agg_sum_where (VarNode 1) (VarNode 3)
    kInt32 SampleAggregates.joined_window 2 [(SInt 7, SBool true); (SInt 7, SBool true)] (SInt 14)).
  - exact (proj1 SamplePlan.joined_built).
  - exact SampleAggregates.undef_ok.
  - cbn. lia.
  - cbn. lia.
  - reflexivity.
  - vm_compute. reflexivity.
  - vm_compute. reflexivity.
  - reflexivity.
  - vm_compute. reflexivity.
  - repeat constructor;
      (exists [SampleProjection.left_values; SampleProjection.right_values];
       split; [exact SampleProjection.joined_stores|vm_compute; reflexivity]) || discriminate.
Defined.

(** [sum_where] does not check its elements for NULL: on two rows with a = 7,
    b NULL and a true condition the value of [a + b] is NULL, but the sum is
    the sum of the registers behind the NULLs, 14. *)
Lemma sum_where_adds_nulls :
  (forall x, x ∈ all SampleAggregates.joined_window -> has_value SamplePlan.joined SampleAggregates.a_plus_b x.2 SNull) /\
  agg_call false SamplePlan.joined SampleProjection.undef SampleProjection.ext agg_sum_where
    [SampleAggregates.a_plus_b; VarNode 3] 2 SampleAggregates.joined_window = Some (Create (reg kInt64 14)).
Proof.
  split; [|vm_compute; reflexivity]. intros x Hx. exists [SampleProjection.left_values; SampleProjection.right_values].
  cbn in Hx. rewrite !elem_of_cons, elem_of_nil in Hx.
  destruct Hx as [->|[->|[]]]; (split; [exact SampleProjection.joined_stores|vm_compute; reflexivity]).
Qed.
