(* ===== verification/MultiAgg.v ===== *)
(** * Merged aggregates

    Models [src/codegen/aggregate_ir_builder.cc]: the calls of [sum], [avg],
    [count], [min] and [max] on plain columns of a projection are collected
    per column ([AggregateIRBuilder::CollectAggColumn]), the columns are
    grouped into generators of at most four adjacent columns of one type
    ([ScheduleAggGenerators]), and one loop over the rows of the frame updates
    the states of all generators ([StatisticalAggGenerator], [BuildMulti]).

    The map from column keys to their information is hashed; the order in
    which its entries are sorted by offset is a parameter of [BuildMulti]. *)

From Stdlib Require Import SpecFloat.
From stdpp Require Import base numbers list option gmap.
From S2P Require Import Prelude Layout RowFormat CompiledCodec Iterators Rows ColumnLists SchemasContext Llvm ExprTypes ExprBuilder Expr Project Aggregates.

(** ** Collecting the columns *)

Record AggColumnInfo := mkInfo {
  info_col_type : DataType;
  info_schema_idx : nat;
  info_col_idx : nat;
  info_offset : Z;
  info_aggs : list (AggName * nat)
}.

Definition AddAgg (fname : AggName) (output_idx : nat) (info : AggColumnInfo) : AggColumnInfo :=
  mkInfo (info_col_type info) (info_schema_idx info) (info_col_idx info) (info_offset info)
    (info_aggs info ++ [(fname, output_idx)]).

Definition IsAggFuncName (fname : AggName) : bool :=
  match fname with agg_sum | agg_avg | agg_count | agg_min | agg_max => true | _ => false end.

Definition GetOutputLlvmType (fname : AggName) (t : DataType) : option LType :=
  match t with
  | kInt16 | kInt32 | kInt64 | kFloat | kDouble =>
      match fname with agg_count => Some (IntTy 64) | agg_avg => Some DoubleTy | _ => GetLlvmType t end
  | _ => None
  end.

(** A projected expression: the call of an aggregate on a column, given by
    relation and name, or something else. *)
Inductive projected := AggOnColumn (fname : AggName) (relation column : list Z) | OtherExpr.

Definition col_key (relation column : list Z) : list Z := relation ++ 46 :: column.

Section Collect.
Context (ctx : SchemasContext) (root : option (list PhysicalOpNode)).

(** Whether the expression was collected; [None] is undefined behaviour (the
    resolved position has no format). *)
Definition CollectAggColumn (e : projected) (output_idx : nat) (infos : gmap (list Z) AggColumnInfo)
  : option (bool * gmap (list Z) AggColumnInfo) :=
  match e with
  | OtherExpr => Some (false, infos)
  | AggOnColumn fname relation column =>
      if negb (IsAggFuncName fname) then Some (false, infos)
      else match ResolveColumnIndexByName root relation column ctx with
      | Undefined => None
      | Refused => Some (false, infos)
      | Done (schema_idx, col_idx) =>
          format ← GetRowFormat schema_idx ctx;
          col_info ← GetColumnInfo (Z.of_nat col_idx) format;
          match SchemaType2DataType (ci_type col_info) with
          | None => Some (false, infos)
          | Some node_type =>
              match GetOutputLlvmType fname node_type with
              | None => Some (false, infos)
              | Some _ =>
                  let key := col_key relation column in
                  let info := default (mkInfo node_type schema_idx col_idx (ci_offset col_info) []) (infos !! key) in
                  Some (true, <[key := AddAgg fname output_idx info]> infos)
              end
          end
      end
  end.
End Collect.

(** ** Grouping the columns *)

Definition GetTypeByteSize (t : DataType) : Z :=
  match t with kInt16 => 2 | kInt32 | kFloat => 4 | kInt64 | kDouble => 8 | _ => 0 end.

Record StatisticalAggGenerator := mkGen { g_col_type : DataType; g_cols : list AggColumnInfo }.

(** The loop over the sorted columns; [cur] is the offset and type of the last
    column, [seq] the columns of the generator under construction. *)
Fixpoint schedule (infos : list AggColumnInfo) (cur : option (Z * DataType)) (seq : list AggColumnInfo)
  : list StatisticalAggGenerator :=
  let finished := match cur with Some (_, t) => mkGen t seq | None => mkGen kNull seq end in
  match infos with
  | [] => match seq with [] => [] | _ => [finished] end
  | info :: infos' =>
      let next := Some (info_offset info, info_col_type info) in
      let finish_seq :=
        (4 <=? length seq)%nat ||
        match cur with
        | Some (cur_offset, cur_col_type) =>
            negb (is_type (info_col_type info) cur_col_type) ||
            negb (u64 (info_offset info - cur_offset) =? GetTypeByteSize cur_col_type)
        | None => false
        end in
      if finish_seq then finished :: schedule infos' next [info] else schedule infos' next (seq ++ [info])
  end.
Definition ScheduleAggGenerators (sorted : list AggColumnInfo) : list StatisticalAggGenerator := schedule sorted None [].

(** ** States *)

Definition idxs_of (fname : AggName) (info : AggColumnInfo) : list nat :=
  base.omap (fun a => match a.1, fname with
    | agg_sum, agg_sum | agg_avg, agg_avg | agg_count, agg_count | agg_min, agg_min | agg_max, agg_max => Some a.2
    | _, _ => None end) (info_aggs info).
Definition wants (fname : AggName) (info : AggColumnInfo) : bool := match idxs_of fname info with [] => false | _ => true end.

Record col_state := mkCol {
  sum_state : option LValue;
  avg_state : option LValue;
  min_state : option LValue;
  max_state : option LValue
}.
Record gen_state := mkGenState { cols_state : list col_state; count_state : option LValue }.

Definition zero_reg (ty : LType) : LValue :=
  mkLV ty (Val match ty with IntTy _ => VInt 0 | _ => VFp (S754_zero false) end).
Definition GenSumInitState (t : DataType) : option LValue := ty ← GetOutputLlvmType agg_sum t; Some (zero_reg ty).
Definition GenAvgInitState (t : DataType) : option LValue := ty ← GetOutputLlvmType agg_avg t; Some (zero_reg ty).
Definition GenCountInitState : LValue := zero_reg (IntTy 64).
Definition GenMinInitState (t : DataType) : option LValue :=
  ty ← GetOutputLlvmType agg_min t; Some (mkLV ty (Val (maximum_value t))).
Definition GenMaxInitState (t : DataType) : option LValue :=
  ty ← GetOutputLlvmType agg_max t; Some (mkLV ty (Val (minimum_value t))).

Definition when {A} (b : bool) (x : option A) : option A := if b then x else None.

Definition init_col (t : DataType) (info : AggColumnInfo) : col_state :=
  let double_avg := wants agg_avg info && is_type t kDouble in
  mkCol (when (wants agg_sum info || double_avg) (GenSumInitState t))
    (when (wants agg_avg info && negb (is_type t kDouble)) (GenAvgInitState t))
    (when (wants agg_min info) (GenMinInitState t))
    (when (wants agg_max info) (GenMaxInitState t)).
Definition counts (info : AggColumnInfo) : bool :=
  wants agg_avg info || wants agg_count info || wants agg_min info || wants agg_max info.
Definition GenInitState (g : StatisticalAggGenerator) : gen_state :=
  mkGenState (init_col (g_col_type g) <$> g_cols g) (when (existsb counts (g_cols g)) (Some GenCountInitState)).

(** ** Updates *)

Definition isIntegerTy_reg (v : LValue) : bool := match getType v with IntTy _ => true | _ => false end.

Definition GenSumUpdate (accum input is_null : LValue) : LValue :=
  let add := if isIntegerTy_reg input then CreateAdd accum input else CreateFAdd accum input in
  CreateSelect is_null accum add.
Definition GenAvgUpdate (accum input is_null : LValue) : LValue :=
  let input' := if isIntegerTy_reg input then CreateSIToFP input (getType accum)
                else if is_lty (getType input) (getType accum) then input else CreateFPExt input (getType accum) in
  CreateSelect is_null accum (CreateFAdd accum input').
Definition GenCountUpdate (cnt is_null : LValue) : LValue :=
  CreateSelect is_null cnt (CreateAdd cnt (getInt 64 1)).
Definition GenMinUpdate (accum input is_null : LValue) : LValue :=
  let cmp := if isIntegerTy_reg accum then CreateICmpS CmpLt accum input else CreateFCmp CmpLt accum input in
  CreateSelect is_null accum (CreateSelect cmp accum input).
Definition GenMaxUpdate (accum input is_null : LValue) : LValue :=
  let cmp := if isIntegerTy_reg accum then CreateICmpS CmpLt accum input else CreateFCmp CmpLt accum input in
  CreateSelect is_null accum (CreateSelect cmp input accum).

(** The states of a column exist exactly when they are updated. *)
Definition update_col (info : AggColumnInfo) (input is_null : LValue) (st : col_state) : col_state :=
  mkCol ((fun a => GenSumUpdate a input is_null) <$> sum_state st)
    ((fun a => GenAvgUpdate a input is_null) <$> avg_state st)
    ((fun a => GenMinUpdate a input is_null) <$> min_state st)
    ((fun a => GenMaxUpdate a input is_null) <$> max_state st).

(** The count is updated once, at the first column that needs it. *)
Fixpoint update_cols (infos : list AggColumnInfo) (inputs : list (LValue * LValue)) (cols : list col_state)
    (count_updated : bool) (count : option LValue) : list col_state * option LValue :=
  match infos, inputs, cols with
  | info :: infos', (input, is_null) :: inputs', st :: cols' =>
      let update := counts info && negb count_updated in
      let count' := if update then (fun c => GenCountUpdate c is_null) <$> count else count in
      let '(rest, count'') := update_cols infos' inputs' cols' (count_updated || update) count' in
      (update_col info input is_null st :: rest, count'')
  | _, _, _ => (cols, count)
  end.
Definition GenUpdate (g : StatisticalAggGenerator) (inputs : list (LValue * LValue)) (st : gen_state) : gen_state :=
  let '(cols, count) := update_cols (g_cols g) inputs (cols_state st) false (count_state st) in mkGenState cols count.

(** ** Outputs *)

Definition to_outputs (idxs : list nat) (v : option NativeValue) : list (nat * NativeValue) :=
  match v with Some x => (fun i => (i, x)) <$> idxs | None => [] end.

Definition col_outputs (t : DataType) (count : option LValue) (info : AggColumnInfo) (st : col_state)
  : list (nat * NativeValue) :=
  let is_empty := (fun cnt => CreateICmpS CmpEq cnt (getInt 64 0)) <$> count in
  to_outputs (idxs_of agg_sum info) (Create <$> sum_state st) ++
  to_outputs (idxs_of agg_avg info)
    (sum ← match avg_state st with Some a => Some a | None => sum_state st end;
     cnt ← count;
     Some (Create (CreateFDiv sum (CreateSIToFP cnt DoubleTy)))) ++
  to_outputs (idxs_of agg_count info) (Create <$> count) ++
  to_outputs (idxs_of agg_min info) (accum ← min_state st; flag ← is_empty; Some (CreateWithFlag accum flag)) ++
  to_outputs (idxs_of agg_max info) (accum ← max_state st; flag ← is_empty; Some (CreateWithFlag accum flag)).
Definition GenOutputs (g : StatisticalAggGenerator) (st : gen_state) : list (nat * NativeValue) :=
  concat (zip_with (col_outputs (g_col_type g) (count_state st)) (g_cols g) (cols_state st)).

(** ** The loop *)

Section BuildMulti.
Context (spark : bool) (ctx : SchemasContext) (undef : LType -> Value).
Context {I : Type} `{RowIterator I Row}.

(** A field of the current row: its content and its null flag. *)
Definition row_field (it : I) (info : AggColumnInfo) : option (LValue * LValue) :=
  let slice :=
    p ← RowIterGetCurSlice it (Z.of_nat (info_schema_idx info));
    n ← RowIterGetCurSliceSize it (Z.of_nat (info_schema_idx info));
    Some (p, n) in
  v ← slice_field spark ctx slice (info_schema_idx info) (info_col_idx info);
  Some (GetValue undef v, GetIsNull v).

Definition update_gen (it : I) (g : StatisticalAggGenerator) (st : gen_state) : option gen_state :=
  inputs ← mapM (row_field it) (g_cols g); Some (GenUpdate g inputs st).
Fixpoint update_gens (it : I) (gs : list StatisticalAggGenerator) (sts : list gen_state) : option (list gen_state) :=
  match gs, sts with
  | g :: gs', st :: sts' => st' ← update_gen it g st; rest ← update_gens it gs' sts'; Some (st' :: rest)
  | _, _ => Some []
  end.

Fixpoint row_loop (fuel : nat) (it : I) (gs : list StatisticalAggGenerator) (sts : list gen_state)
  : option (list gen_state) :=
  if RowIterHasNext it then
    match fuel with
    | O => None
    | S fuel' => sts' ← update_gens it gs sts; row_loop fuel' (RowIterNext it) gs sts'
    end
  else Some sts.

(** The outputs by their positions in the output row. *)
Definition BuildMulti (sorted : list AggColumnInfo) (fuel : nat) (window : I) : option (list (nat * NativeValue)) :=
  let generators := ScheduleAggGenerators sorted in
  sts ← row_loop fuel (GetRowIter window) generators (GenInitState <$> generators);
  Some (concat (zip_with GenOutputs generators sts)).
End BuildMulti.
