(* ===== verification/MultiAggProof.v ===== *)
(** * Merged aggregates compute the aggregates of their columns

    The one loop that is compiled for all aggregates on plain columns computes,
    for every collected column, what a separate aggregate call computes, when
    the columns of a generator have the same number of NULLs: the generator
    has one count for all its columns. *)

From stdpp Require Import base numbers list option gmap.
From S2P Require Import Prelude Layout RowBuilder RowCodec RowRead RowFormat CompiledCodec Iterators MemCatalog MemCatalogProof Rows ColumnLists SchemasContext SchemasProof Llvm ExprTypes ExprBuilder Expr ExprProof ExprSem Project ProjectProof Aggregates AggregatesProof MultiAgg.

(** ** Grouping *)

(** The columns of all generators are the sorted columns, and a generator has
    between one and four columns of its type. *)
Definition gen_ok_shape (g : StatisticalAggGenerator) : Prop :=
  Forall (fun info => info_col_type info = g_col_type g) (g_cols g) /\ (1 <= length (g_cols g) <= 4)%nat.

Lemma schedule_spec infos : forall cur seq,
  match cur with
  | Some (_, t) => Forall (fun info => info_col_type info = t) seq /\ (1 <= length seq <= 4)%nat
  | None => seq = []
  end ->
  concat (g_cols <$> schedule infos cur seq) = seq ++ infos /\ Forall gen_ok_shape (schedule infos cur seq).
Proof.
  induction infos as [|info infos IH]; intros cur seq Hc; cbn [schedule].
  - rewrite app_nil_r. destruct seq as [|x seq]; [done|]. cbn. rewrite app_nil_r.
    split; [by destruct cur as [[]|]|]. destruct cur as [[o t]|]; [|done]. by apply Forall_singleton.
  - set (fin := _ || _). destruct fin eqn:Ef.
    + destruct (IH (Some (info_offset info, info_col_type info)) [info]) as [E H]; [split; [by repeat constructor|cbn; lia]|].
      destruct cur as [[o t]|]; [|unfold fin in Ef; by subst seq]. cbn [fmap list_fmap concat g_cols]. rewrite E.
      split; [done|]. constructor; [exact Hc|done].
    + destruct (IH (Some (info_offset info, info_col_type info)) (seq ++ [info])) as [E H].
      { apply orb_false_iff in Ef as [Hl Ht]. apply Nat.leb_gt in Hl. rewrite length_app. cbn [length].
        destruct cur as [[o t]|]; [|subst seq; split; [by repeat constructor|cbn; lia]].
        apply orb_false_iff in Ht as [Ht%negb_false_iff _]. apply bool_decide_eq_true in Ht. rewrite Ht.
        split; [|lia]. apply Forall_app. split; [apply Hc|by apply Forall_singleton]. }
      rewrite E, <- app_assoc. by split.
Qed.

Lemma ScheduleAggGenerators_spec sorted :
  concat (g_cols <$> ScheduleAggGenerators sorted) = sorted /\ Forall gen_ok_shape (ScheduleAggGenerators sorted).
Proof. by apply schedule_spec. Qed.

(** ** One generator *)

(** The columns of a row: the value of a collected column. *)
Definition col_val (vss : list (list (option RowBuilder.Value))) (info : AggColumnInfo) : option sval :=
  vs ← vss !! info_schema_idx info; v ← vs !! info_col_idx info; sval_of v.
Definition col_values (vsss : list (list (list (option RowBuilder.Value)))) (info : AggColumnInfo) : list sval :=
  (fun vss => default SNull (col_val vss info)) <$> vsss.

(** A field of a row in registers. *)
Definition field_regs (T : DataType) (x : LValue * LValue) (s : sval) : Prop :=
  exists n b, x = (reg T n, reg kBool (bool_int b)) /\ in_type T n = true /\
    match s with SNull => b = true | SInt m => b = false /\ n = m | SBool _ => False end.

Definition acc_min (m : Z) (s : sval) : Z := match s with SInt n => Z.min m n | _ => m end.
Definition acc_max (m : Z) (s : sval) : Z := match s with SInt n => Z.max m n | _ => m end.

Section Updates.
Context (T : DataType) (HT : int_type T = true).

Lemma sum_update m x s : field_regs T x s -> GenSumUpdate (reg T m) x.1 x.2 = reg T (acc_sum T m s).
Proof.
  intros (n & b & -> & Hn & Hs). unfold GenSumUpdate. cbn [fst snd isIntegerTy_reg getType reg].
  change (mkLV (IntTy (width T)) (Val (VInt ?k))) with (reg T k). unfold CreateAdd. rewrite int_op2_regs.
  change (mkLV (IntTy (width T)) (Val (VInt ?k))) with (reg T k). rewrite select_regs. f_equal.
  destruct s as [|k|]; [by subst b|by destruct Hs as [-> ->]|done].
Qed.
Lemma count_update m x s : field_regs T x s ->
  GenCountUpdate (reg kInt64 m) x.2 = reg kInt64 (acc_count m s).
Proof.
  intros (n & b & -> & Hn & Hs). unfold GenCountUpdate. cbn [fst snd].
  change (getInt 64 1) with (reg kInt64 1). unfold CreateAdd. rewrite int_op2_regs.
  change (mkLV (IntTy (width kInt64)) (Val (VInt ?k))) with (reg kInt64 k). rewrite select_regs. f_equal.
  destruct s as [|k|]; [by subst b|by destruct Hs as [-> ->]|done].
Qed.
Lemma min_update m x s : field_regs T x s -> GenMinUpdate (reg T m) x.1 x.2 = reg T (acc_min m s).
Proof.
  intros (n & b & -> & Hn & Hs). unfold GenMinUpdate. cbn [fst snd isIntegerTy_reg getType reg].
  change (mkLV (IntTy (width T)) (Val (VInt ?k))) with (reg T k). rewrite icmp_regs, !select_regs. f_equal. cbn [int_cmp].
  destruct s as [|k|]; [by subst b| |done]. destruct Hs as [-> ->]. cbn. destruct (Z.ltb_spec m k); lia.
Qed.
Lemma max_update m x s : field_regs T x s -> GenMaxUpdate (reg T m) x.1 x.2 = reg T (acc_max m s).
Proof.
  intros (n & b & -> & Hn & Hs). unfold GenMaxUpdate. cbn [fst snd isIntegerTy_reg getType reg].
  change (mkLV (IntTy (width T)) (Val (VInt ?k))) with (reg T k). rewrite icmp_regs, !select_regs. f_equal. cbn [int_cmp].
  destruct s as [|k|]; [by subst b| |done]. destruct Hs as [-> ->]. cbn. destruct (Z.ltb_spec m k); lia.
Qed.

(** What the states of a column hold after values [ss]. *)
Record col_ok (info : AggColumnInfo) (ss : list sval) (st : col_state) : Prop := {
  ok_sum : wants agg_sum info = true -> sum_state st = Some (reg T (foldl (acc_sum T) 0 ss));
  ok_min : wants agg_min info = true -> min_state st = Some (reg T (foldl acc_min (2 ^ (width T - 1) - 1) ss));
  ok_max : wants agg_max info = true -> max_state st = Some (reg T (foldl acc_max (- 2 ^ (width T - 1)) ss))
}.

Lemma init_col_ok info : col_ok info [] (init_col T info).
Proof.
  unfold init_col. split; cbn [sum_state min_state max_state foldl]; intros ->; cbn [when orb andb];
    by apply int_type_cases in HT as [->|[->| ->]].
Qed.
Lemma update_col_ok info ss s x st : field_regs T x s -> col_ok info ss st -> col_ok info (ss ++ [s]) (update_col info x.1 x.2 st).
Proof.
  intros Hx [H1 H2 H3]. split; intros Hw; cbn [update_col sum_state min_state max_state]; rewrite foldl_app; cbn [foldl].
  - rewrite H1 by done. cbn. by erewrite sum_update.
  - rewrite H2 by done. cbn. by erewrite min_update.
  - rewrite H3 by done. cbn. by erewrite max_update.
Qed.

(** The column whose NULLs the count of a generator follows. *)
Fixpoint counter (infos : list AggColumnInfo) : option AggColumnInfo :=
  match infos with [] => None | info :: infos' => if counts info then Some info else counter infos' end.

Lemma counter_exists infos : existsb counts infos = true -> is_Some (counter infos).
Proof. induction infos as [|info infos IH]; [done|]. cbn. destruct (counts info); [by eexists|]. apply IH. Qed.
Lemma counter_none infos : existsb counts infos = false -> counter infos = None.
Proof. induction infos as [|info infos IH]; [done|]. cbn. destruct (counts info); [done|]. apply IH. Qed.

Definition row_vals (vss : list (list (option RowBuilder.Value))) (inputs : list (LValue * LValue)) (infos : list AggColumnInfo) : Prop :=
  Forall2 (fun info x => field_regs T x (default SNull (col_val vss info))) infos inputs.

Lemma update_cols_count infos inputs vss : row_vals vss inputs infos -> forall cols updated m, length cols = length infos ->
  (update_cols infos inputs cols updated (Some (reg kInt64 m))).2 =
    Some (reg kInt64 match counter infos with
      | Some info => if updated : bool then m else acc_count m (default SNull (col_val vss info))
      | None => m end).
Proof.
  induction 1 as [|info x infos inputs Hx _ IH]; intros [|st cols] updated m Hl; try done.
  destruct x as [input nul]. cbn [update_cols counter]. injection Hl as Hl.
  destruct (counts info) eqn:Ec, updated; cbn [andb negb orb fmap option_fmap option_map].
  - specialize (IH cols true m Hl). destruct (update_cols _ _ _ _ _) as [r c]. cbn [snd] in *. rewrite IH.
    by destruct (counter infos).
  - pose proof (count_update m (input, nul) _ Hx) as Eu. cbn [snd] in Eu. rewrite Eu.
    specialize (IH cols true (acc_count m (default SNull (col_val vss info))) Hl).
    destruct (update_cols _ _ _ _ _) as [r c]. cbn [snd] in *. rewrite IH. by destruct (counter infos).
  - specialize (IH cols true m Hl). destruct (update_cols _ _ _ _ _) as [r c]. cbn [snd] in *. done.
  - specialize (IH cols false m Hl). destruct (update_cols _ _ _ _ _) as [r c]. cbn [snd] in *. done.
Qed.

Lemma update_cols_cols infos inputs vss vsss : row_vals vss inputs infos -> forall cols updated count,
  Forall2 (fun info st => col_ok info (col_values vsss info) st) infos cols ->
  Forall2 (fun info st => col_ok info (col_values (vsss ++ [vss]) info) st) infos (update_cols infos inputs cols updated count).1.
Proof.
  induction 1 as [|info x infos inputs Hx _ IH]; intros cols updated count Hc; inversion Hc as [|? st ? cols' Hst Hc']; subst.
  - constructor.
  - destruct x as [input nul]. cbn [update_cols].
    specialize (IH cols' (updated || counts info && negb updated)
      (if counts info && negb updated then (fun c => GenCountUpdate c nul) <$> count else count) Hc').
    destruct (update_cols _ _ _ _ _) as [r c]. constructor; [|done]. unfold col_values. rewrite fmap_app. cbn [fmap list_fmap].
    by apply (update_col_ok info _ _ (input, nul)).
Qed.

(** What the state of a generator holds after the rows [vsss]. *)
Record gen_ok (infos : list AggColumnInfo) (vsss : list (list (list (option RowBuilder.Value)))) (st : gen_state) : Prop := {
  gen_cols : Forall2 (fun info cs => col_ok info (col_values vsss info) cs) infos (cols_state st);
  gen_count : forall info, counter infos = Some info ->
    count_state st = Some (reg kInt64 (foldl acc_count 0 (col_values vsss info)))
}.

Lemma init_ok infos : gen_ok infos [] (GenInitState (mkGen T infos)).
Proof.
  split; cbn [GenInitState cols_state count_state g_cols g_col_type].
  - induction infos as [|info infos IH]; cbn; constructor; [apply init_col_ok|done].
  - intros info Hc. destruct (existsb counts infos) eqn:E; [done|]. by rewrite counter_none in Hc.
Qed.
Lemma update_ok infos vsss vss inputs st : row_vals vss inputs infos -> gen_ok infos vsss st ->
  gen_ok infos (vsss ++ [vss]) (GenUpdate (mkGen T infos) inputs st).
Proof.
  intros Hr [Hc Hn]. unfold GenUpdate. cbn [g_cols].
  pose proof (update_cols_cols infos inputs vss vsss Hr (cols_state st) false (count_state st) Hc) as Hcols.
  destruct (update_cols _ _ _ _ _) as [cols count] eqn:E. split; cbn [cols_state count_state]; [done|].
  intros info Hi. pose proof (update_cols_count infos inputs vss Hr (cols_state st) false
    (foldl acc_count 0 (col_values vsss info)) (eq_sym (Forall2_length _ _ _ Hc))) as H. rewrite <- (Hn info Hi), E, Hi in H.
  cbn [snd] in H. rewrite H. unfold col_values. rewrite fmap_app, foldl_app. done.
Qed.
End Updates.

(** ** The loop over the rows *)

Section Rows.
Context (ctx : SchemasContext) (undef : LType -> Value) (Hb : built false ctx).
Context {I : Type} `{RowIteratorLaws I Row}.

(** A collected column: an integer column of the context. *)
Definition info_ok (info : AggColumnInfo) : Prop :=
  (sc ← GetSchema (info_schema_idx info) ctx; c ← sc !! info_col_idx info; SchemaType2DataType (col_type c)) =
    Some (info_col_type info) /\ int_type (info_col_type info) = true.

Lemma row_field_ok (it : I) info row vss : info_ok info -> Iterators.GetValue it = Some row -> row_stores ctx vss row ->
  is_Some (col_val vss info) ->
  exists x, row_field false ctx undef it info = Some x /\ field_regs (info_col_type info) x (default SNull (col_val vss info)).
Proof.
  intros [Ht Hi] Hv Hrow [s Hs]. rewrite Hs. cbn [default from_option id].
  pose proof Hs as Hs'. unfold col_val in Hs'. apply bind_Some in Hs' as (vs & Evs & (v & Ev & Esv)%bind_Some).
  destruct (position_denotes ctx vss row _ _ _ vs v s Hb Hrow Ht (int_is_integer _ Hi) Evs Ev Esv)
    as (n & b & nv & Esl & Ef & m & nb & Inv & Hd).
  destruct (int_value_parts undef _ _ _ _ Inv) as (_ & Vv & Nv & _).
  exists (GetValue undef nv, GetIsNull nv). split.
  - unfold row_field, RowIterGetCurSlice, RowIterGetCurSliceSize. rewrite Hv. cbn [mbind option_bind].
    unfold buf, size. rewrite Esl. cbn [fmap option_fmap option_map mbind option_bind sl_data sl_size]. rewrite Ef. done.
  - exists m, nb. rewrite Vv, Nv. split_and!; [done|apply Inv|]. destruct s as [|k|k]; [done|by destruct Hd as (-> & -> & _)|].
    destruct Hd as (_ & _ & E). by rewrite E in Hi.
Qed.

Lemma row_fields_ok (it : I) infos row vss T : Forall (fun info => info_col_type info = T) infos ->
  Forall info_ok infos -> Iterators.GetValue it = Some row -> row_stores ctx vss row ->
  Forall (fun info => is_Some (col_val vss info)) infos ->
  exists inputs, mapM (row_field false ctx undef it) infos = Some inputs /\ row_vals T vss inputs infos.
Proof.
  intros HT Hok Hv Hrow Hs. induction infos as [|info infos IH]; [by exists []; split; [|constructor]|].
  apply Forall_cons_1 in HT as [HT1 HT], Hok as [Hok1 Hok], Hs as [Hs1 Hs].
  destruct (row_field_ok it info row vss Hok1 Hv Hrow Hs1) as (x & Ex & Hx). destruct (IH HT Hok Hs) as (inputs & Ei & Hi).
  exists (x :: inputs). split; [cbn; rewrite Ex; cbn; by rewrite Ei|]. constructor; [by rewrite <- HT1|done].
Qed.

(** All generators after the rows [vsss]. *)
Definition gens_ok (gs : list StatisticalAggGenerator) (vsss : list (list (list (option RowBuilder.Value)))) (sts : list gen_state) : Prop :=
  Forall2 (fun g st => gen_ok (g_col_type g) (g_cols g) vsss st) gs sts.

Definition gens_valid (gs : list StatisticalAggGenerator) : Prop :=
  Forall (fun g => gen_ok_shape g /\ Forall info_ok (g_cols g)) gs.

Lemma update_gens_ok (it : I) gs row vss vsss sts : gens_valid gs -> Iterators.GetValue it = Some row -> row_stores ctx vss row ->
  Forall (fun info => is_Some (col_val vss info)) (concat (g_cols <$> gs)) -> gens_ok gs vsss sts ->
  exists sts', update_gens false ctx undef it gs sts = Some sts' /\ gens_ok gs (vsss ++ [vss]) sts'.
Proof.
  intros Hval Hv Hrow Hs Hok. revert sts Hok. induction gs as [|g gs IH]; intros sts Hok; inversion Hok as [|? st ? sts' Hg Hgs]; subst.
  { exists []. by split; [|constructor]. }
  apply Forall_cons_1 in Hval as [[[HT _] Hinfo] Hval]. cbn [fmap list_fmap concat] in Hs. apply Forall_app in Hs as [Hs1 Hs].
  destruct (row_fields_ok it (g_cols g) row vss (g_col_type g) HT Hinfo Hv Hrow Hs1) as (inputs & Ei & Hi).
  destruct (IH Hval Hs sts' Hgs) as (rest & Er & Hr). exists (GenUpdate g inputs st :: rest). split.
  - cbn [update_gens]. unfold update_gen. rewrite Ei. cbn [mbind option_bind]. by rewrite Er.
  - constructor; [|done]. destruct g as [T infos]. by apply update_ok.
Qed.

Lemma row_loop_ok gs fuel : forall (it : I) vsss0 vsss sts, gens_valid gs -> it_ok it -> (length (rest it) <= fuel)%nat ->
  Forall2 (fun x vss => row_stores ctx vss x.2 /\ Forall (fun info => is_Some (col_val vss info)) (concat (g_cols <$> gs)))
    (rest it) vsss ->
  gens_ok gs vsss0 sts ->
  exists sts', row_loop false ctx undef fuel it gs sts = Some sts' /\ gens_ok gs (vsss0 ++ vsss) sts'.
Proof.
  induction fuel as [|fuel IH]; intros it vsss0 vsss sts Hval Ho Hf Hrows Hok; cbn [row_loop]; unfold RowIterHasNext, RowIterNext.
  - destruct (rest it) as [|e l] eqn:E; [|cbn in Hf; lia]. rewrite (exhausted _ Ho E). inversion Hrows. rewrite app_nil_r. by exists sts.
  - destruct (rest it) as [|e l] eqn:E.
    { rewrite (exhausted _ Ho E). inversion Hrows. rewrite app_nil_r. by exists sts. }
    rewrite (valid_cons _ _ _ Ho E). destruct (rest_next _ _ _ Ho E) as [En Hon].
    inversion Hrows as [|? vss ? vsss' [Hrow Hs] Hrest]; subst.
    destruct (update_gens_ok it gs e.2 vss vsss0 sts Hval (value_rest _ _ _ Ho E) Hrow Hs Hok) as (sts1 & -> & Hok1).
    cbn [mbind option_bind]. destruct (IH (Next it) (vsss0 ++ [vss]) vsss' sts1) as (sts' & E' & Hok'); try done.
    + cbn in Hf. lia.
    + exists sts'. split; [done|]. by rewrite <- app_assoc in Hok'.
Qed.
End Rows.

(** ** Outputs *)

Lemma idxs_elem fn idx info : IsAggFuncName fn = true -> (fn, idx) ∈ info_aggs info -> idx ∈ idxs_of fn info /\ wants fn info = true.
Proof.
  intros Hn Hin. assert (idx ∈ idxs_of fn info) as Hi.
  { unfold idxs_of. apply list_elem_of_omap. exists (fn, idx). split; [done|]. by destruct fn. }

  split; [done|]. unfold wants. destruct (idxs_of fn info); [by apply elem_of_nil in Hi|done].
Qed.

Lemma outputs_elem idxs (v : NativeValue) idx : idx ∈ idxs -> (idx, v) ∈ to_outputs idxs (Some v).
Proof. intros H. apply list_elem_of_fmap. by exists idx. Qed.

Section Outputs.
Context (T : DataType) (HT : int_type T = true).

Lemma acc_min_foldr ss m : foldl acc_min m ss = foldr Z.min m (ints ss).
Proof.
  rewrite <- foldl_min_foldr. revert m. induction ss as [|s ss IH]; intros m; [done|]. rewrite ints_cons. cbn [foldl]. rewrite IH.
  by destruct s.
Qed.
Lemma acc_max_foldr ss m : foldl acc_max m ss = foldr Z.max m (ints ss).
Proof.
  rewrite <- foldl_max_foldr. revert m. induction ss as [|s ss IH]; intros m; [done|]. rewrite ints_cons. cbn [foldl]. rewrite IH.
  by destruct s.
Qed.

(** Values of an integer column. *)
Definition int_val (s : sval) : Prop := match s with SNull => True | SInt n => in_type T n = true | SBool _ => False end.

Lemma int_vals ss : Forall int_val ss ->
  Forall (fun n => in_type T n = true) (ints ss) /\ length (non_nulls ss) = length (ints ss).
Proof.
  induction 1 as [|s ss Hs _ [IH1 IH2]]; [by split; [constructor|]|]. rewrite ints_cons, non_nulls_cons.
  destruct s as [|n|]; cbn [not_null]; [done| |done]. split; [by constructor|]. cbn. congruence.
Qed.

Lemma foldr_min_in l m : in_type T m = true -> Forall (fun n => in_type T n = true) l -> in_type T (foldr Z.min m l) = true.
Proof.
  intros Hm. induction 1 as [|n l Hn _ IH]; [done|]. cbn. rewrite in_type_range in *. lia.
Qed.
Lemma foldr_max_in l m : in_type T m = true -> Forall (fun n => in_type T n = true) l -> in_type T (foldr Z.max m l) = true.
Proof.
  intros Hm. induction 1 as [|n l Hn _ IH]; [done|]. cbn. rewrite in_type_range in *. lia.
Qed.

Lemma flagged_denotes m c (l : list Z) : in_type T m = true -> (c =? 0) = bool_decide (l = []) ->
  denotes (CreateWithFlag (reg T m) (CreateICmpS CmpEq (reg kInt64 c) (getInt 64 0))) T
    (if bool_decide (l = []) then SNull else SInt m).
Proof.
  intros Hm Hc. change (getInt 64 0) with (reg kInt64 0). rewrite icmp_regs. cbn [int_cmp]. rewrite Hc.
  exists m, (bool_decide (l = [])). split; [apply create_flag; [by apply int_is_integer|done]|]. by destruct (bool_decide _).
Qed.

Lemma col_outputs_ok info ss count st fn idx r :
  col_ok T info ss st -> Forall int_val ss -> Z.of_nat (length ss) < 2 ^ 63 ->
  (fn, idx) ∈ info_aggs info -> agg_value fn T ss = Some r ->
  fn = agg_sum \/ (exists sc, count = Some (reg kInt64 (foldl acc_count 0 sc)) /\ length (non_nulls sc) = length (non_nulls ss)) ->
  exists v, (idx, v) ∈ col_outputs T count info st /\ denotes v (agg_type fn T) r.
Proof.
  intros [H1 H2 H3] Hss Hlen Hin Hr Hcnt. destruct (int_vals ss Hss) as [Hints Hnn].
  assert (IsAggFuncName fn = true) as Hfn by (by destruct fn). destruct (idxs_elem fn idx info Hfn Hin) as [Hidx Hw].
  assert (0 < width T /\ in_type T 0 = true /\ in_type T (2 ^ (width T - 1) - 1) = true /\ in_type T (- 2 ^ (width T - 1)) = true)
    as (Hwd & Hz & Hmax & Hmin) by (by apply int_type_cases in HT as [->|[->| ->]]).
  assert (fn <> agg_sum -> count = Some (reg kInt64 (Z.of_nat (length (non_nulls ss))))) as Hc.
  { intros Hne. destruct Hcnt as [|(sc & -> & Esc)]; [done|].
    pose proof (acc_count_total sc 0) as E. change (wraps 64 0) with 0 in E. rewrite E, Esc. do 2 f_equal. apply wraps_small; [done|].
    assert (length (non_nulls ss) <= length ss)%nat by apply length_filter. lia. }
  assert ((Z.of_nat (length (non_nulls ss)) =? 0) = bool_decide (ints ss = [])) as He.
  { rewrite Hnn. destruct (ints ss) as [|n l]; [done|]. rewrite bool_decide_false by done. apply Z.eqb_neq. cbn. lia. }
  unfold col_outputs. destruct fn; try done; injection Hr as <-; cbn [agg_type].
  - rewrite (H1 Hw). eexists. split.
    { apply elem_of_app. left. by apply outputs_elem. }
    pose proof (acc_sum_total T ss 0 Hwd) as E. rewrite wraps_id in E by done. rewrite E.
    eexists _, false. split; [apply create_int; [by apply int_is_integer|by apply wraps_in_type]|done].
  - rewrite (H2 Hw), (Hc ltac:(done)). cbn [fmap option_fmap option_map mbind option_bind]. eexists. split.
    { rewrite !elem_of_app. right. right. right. left. by apply outputs_elem. }
    rewrite acc_min_foldr.
    pose proof (flagged_denotes (foldr Z.min (2 ^ (width T - 1) - 1) (ints ss)) _ (ints ss) ltac:(by apply foldr_min_in) He) as D.
    assert ((if bool_decide (ints ss = []) then SNull else SInt (foldr Z.min (2 ^ (width T - 1) - 1) (ints ss))) =
      int_or_null (least (ints ss))) as <-; [|done].
    destruct (ints ss) as [|n l]; [done|]. rewrite bool_decide_false by done. cbn. f_equal.
    apply Forall_cons_1 in Hints as [Hn _]. apply in_type_range in Hn. clear -Hn. induction l as [|k l IH]; cbn; lia.
  - rewrite (H3 Hw), (Hc ltac:(done)). cbn [fmap option_fmap option_map mbind option_bind]. eexists. split.
    { rewrite !elem_of_app. right. right. right. right. by apply outputs_elem. }
    rewrite acc_max_foldr.
    pose proof (flagged_denotes (foldr Z.max (- 2 ^ (width T - 1)) (ints ss)) _ (ints ss) ltac:(by apply foldr_max_in) He) as D.
    assert ((if bool_decide (ints ss = []) then SNull else SInt (foldr Z.max (- 2 ^ (width T - 1)) (ints ss))) =
      int_or_null (greatest (ints ss))) as <-; [|done].
    destruct (ints ss) as [|n l]; [done|]. rewrite bool_decide_false by done. cbn. f_equal.
    apply Forall_cons_1 in Hints as [Hn _]. apply in_type_range in Hn. clear -Hn. induction l as [|k l IH]; cbn; lia.
  - rewrite (Hc ltac:(done)). cbn [fmap option_fmap option_map]. eexists. split.
    { rewrite !elem_of_app. right. right. left. by apply outputs_elem. }
    rewrite wraps_small; [|done|].
    2: { assert (length (non_nulls ss) <= length ss)%nat by apply length_filter. lia. }
    eexists _, false. split; [apply create_int; [done|]|done]. apply in_type_range. cbn [width].
    assert (length (non_nulls ss) <= length ss)%nat by apply length_filter. lia.
Qed.
End Outputs.

(** ** All outputs *)

Section Merged.
Context (ctx : SchemasContext) (undef : LType -> Value) (Hb : built false ctx).
Context {I : Type} `{RowIteratorLaws I Row}.

(** Stored values of integer columns. *)
Lemma col_val_int info vss row : info_ok ctx info -> row_stores ctx vss row ->
  is_Some (col_val vss info) -> int_val (info_col_type info) (default SNull (col_val vss info)).
Proof.
  intros [Ht Hi] Hrow [s Hs]. rewrite Hs. cbn [default from_option id].
  unfold col_val in Hs. apply bind_Some in Hs as (vs & Evs & (v & Ev & Esv)%bind_Some).
  destruct (position_denotes ctx vss row _ _ _ vs v s Hb Hrow Ht (int_is_integer _ Hi) Evs Ev Esv)
    as (n & b & nv & _ & _ & m & nb & Inv & Hd).
  destruct s as [|k|k]; [done|destruct Hd as (_ & <- & _); apply Inv|]. destruct Hd as (_ & _ & E). by rewrite E in Hi.
Qed.

Lemma gen_outputs_elem g st info cs idx v :
  (exists i, g_cols g !! i = Some info /\ cols_state st !! i = Some cs) ->
  (idx, v) ∈ col_outputs (g_col_type g) (count_state st) info cs -> (idx, v) ∈ GenOutputs g st.
Proof.
  intros (i & Ei & Ec) Hv. unfold GenOutputs. apply list_elem_of_In, in_concat.
  exists (col_outputs (g_col_type g) (count_state st) info cs). split; [|by apply list_elem_of_In].
  apply list_elem_of_In, (list_elem_of_lookup_2 _ i). by rewrite lookup_zip_with, Ei, Ec.
Qed.

(** Rows of the window that hold the collected columns. *)
Definition holds_columns (sorted : list AggColumnInfo) (row : Row) (vss : list (list (option RowBuilder.Value))) : Prop :=
  row_stores ctx vss row /\ Forall (fun info => is_Some (col_val vss info)) sorted.

(** The columns of a generator have as many NULLs as column [info]. *)
Definition counted_alike (sorted : list AggColumnInfo) (vsss : list (list (list (option RowBuilder.Value)))) (info : AggColumnInfo) : Prop :=
  forall g c, g ∈ ScheduleAggGenerators sorted -> info ∈ g_cols g -> c ∈ g_cols g ->
    length (non_nulls (col_values vsss c)) = length (non_nulls (col_values vsss info)).

Lemma counter_in infos c : counter infos = Some c -> c ∈ infos.
Proof.
  induction infos as [|info infos IH]; [done|]. cbn. destruct (counts info); [intros [= ->]; left|intros E; right; by apply IH].
Qed.
Lemma counts_counter infos info : info ∈ infos -> counts info = true -> is_Some (counter infos).
Proof.
  intros Hin Hc. apply counter_exists, existsb_exists. exists info. split; [by apply list_elem_of_In|done].
Qed.

Lemma counts_of fn idx info : (fn, idx) ∈ info_aggs info -> is_Some (agg_value fn (info_col_type info) []) -> fn <> agg_sum ->
  counts info = true.
Proof.
  intros Hin Hv Hs. assert (IsAggFuncName fn = true) as Hn by (destruct fn; done || by destruct Hv).
  destruct (idxs_elem _ idx info Hn Hin) as [_ Hw]. unfold counts.
  destruct fn; try done; rewrite Hw; by rewrite ?orb_true_r.
Qed.

Lemma gen_value sorted g st info fn idx vsss r : g ∈ ScheduleAggGenerators sorted -> gen_ok_shape g -> info_ok ctx info ->
  gen_ok (g_col_type g) (g_cols g) vsss st -> info ∈ g_cols g -> Z.of_nat (length vsss) < 2 ^ 63 ->
  Forall (int_val (info_col_type info)) (col_values vsss info) ->
  (fn, idx) ∈ info_aggs info -> agg_value fn (info_col_type info) (col_values vsss info) = Some r ->
  fn = agg_sum \/ counted_alike sorted vsss info ->
  exists v, (idx, v) ∈ GenOutputs g st /\ denotes v (agg_type fn (info_col_type info)) r.
Proof.
  intros Hg [HT _] [_ Hi] [Hcols Hcnt] Hin H63 Hval Hagg Hr Hor.
  pose proof Hin as [i Ei]%list_elem_of_lookup_1. pose proof (Forall_lookup_1 _ _ _ _ HT Ei) as ET. cbn in ET.
  destruct (Forall2_lookup_l _ _ _ _ _ Hcols Ei) as (cs & Ecs & Hcs).
  rewrite <- ET in Hcs. destruct (col_outputs_ok (info_col_type info) Hi info (col_values vsss info) (count_state st) cs fn idx r)
    as (v & Hv & Hd); try done.
  - unfold col_values. by rewrite length_fmap.
  - assert (fn = agg_sum \/ fn <> agg_sum) as [->|Hne] by (destruct fn; by (left + right)); [by left|right]. destruct Hor as [|Halike]; [done|].
    assert (counts info = true) as Hc by (eapply counts_of; [done| |done]; by destruct fn).
    destruct (counts_counter _ _ Hin Hc) as [c Ec]. exists (col_values vsss c). split; [by apply Hcnt|].
    apply (Halike g c Hg Hin). by apply counter_in.
  - exists v. split; [|done]. apply (gen_outputs_elem g st info cs); [by exists i|]. by rewrite <- ET.
Qed.

Lemma merged_value sorted (window : I) fuel vsss :
  it_ok window -> (length (all window) <= fuel)%nat -> Z.of_nat (length (all window)) < 2 ^ 63 ->
  Forall (info_ok ctx) sorted -> Forall2 (fun x vss => holds_columns sorted x.2 vss) (all window) vsss ->
  exists outs, BuildMulti false ctx undef sorted fuel window = Some outs /\
    forall info fn idx r, info ∈ sorted -> (fn, idx) ∈ info_aggs info -> agg_value fn (info_col_type info) (col_values vsss info) = Some r ->
      fn = agg_sum \/ counted_alike sorted vsss info ->
      exists v, (idx, v) ∈ outs /\ denotes v (agg_type fn (info_col_type info)) r.
Proof.
  intros Ho Hf H63 Hinfo Hrows. destruct (ScheduleAggGenerators_spec sorted) as [Hcat Hshape].
  unfold BuildMulti. set (gs := ScheduleAggGenerators sorted) in *.
  assert (Forall (info_ok ctx) (concat (g_cols <$> gs))) as Hinfo' by (by rewrite Hcat).
  assert (gens_valid ctx gs) as Hval.
  { clear -Hshape Hinfo'. induction Hshape as [|g gs Hg _ IH]; [constructor|]. cbn in Hinfo'. apply Forall_app in Hinfo' as [Hg' Hr].
    constructor; [done|by apply IH]. }
  destruct (row_loop_ok ctx undef Hb gs fuel (GetRowIter window) [] vsss (GenInitState <$> gs)) as (sts & E & Hok).
  { done. }
  { by apply first_ok. }
  { unfold GetRowIter. by rewrite first_rest. }
  { unfold GetRowIter. rewrite first_rest, Hcat by done. exact Hrows. }
  { clear -Hval. induction gs as [|[T infos] gs IH]; cbn; [constructor|]. apply Forall_cons_1 in Hval as [[[HT Hl] Hi] Hval].
    constructor; [|by apply IH]. apply init_ok. destruct infos as [|info infos]; [cbn in Hl; lia|].
    apply Forall_cons_1 in HT as [HT _], Hi as [[_ Hi] _]. cbn in *. by subst T. }
  rewrite E. cbn [mbind option_bind]. eexists. split; [done|]. intros info fn idx r Hin Hagg Hr Hor.
  pose proof Hin as Hin'. rewrite <- Hcat in Hin'. apply list_elem_of_In, in_concat in Hin' as (cols & Hcols & Hic).
  apply list_elem_of_In, list_elem_of_fmap in Hcols as (g & -> & Hg). pose proof Hg as [i Ei]%list_elem_of_lookup_1.
  destruct (Forall2_lookup_l _ _ _ _ _ Hok Ei) as (st & Est & Hst). cbn in Hst.
  destruct (gen_value sorted g st info fn idx vsss r) as (v & Hv & Hd); try done.
  - exact (Forall_lookup_1 _ _ _ _ Hshape Ei).
  - exact (proj1 (Forall_forall _ _) Hinfo info Hin).
  - by apply list_elem_of_In.
  - by rewrite <- (Forall2_length _ _ _ Hrows).
  - unfold col_values. apply Forall_fmap. apply Forall_lookup_2. intros k vss Ek.
    destruct (Forall2_lookup_r _ _ _ _ _ Hrows Ek) as (x & _ & Hrow & Hs). cbn.
    apply (col_val_int info vss x.2); [exact (proj1 (Forall_forall _ _) Hinfo info Hin)|done|].
    exact (proj1 (Forall_forall _ _) Hs info Hin).
  - exists v. split; [|done]. apply list_elem_of_In, in_concat. exists (GenOutputs g st). split; [|by apply list_elem_of_In].
    apply list_elem_of_In, (list_elem_of_lookup_2 _ i). by rewrite lookup_zip_with, Ei, Est.
Qed.

(** A column by its id has the values of its position. *)
Lemma position_value info x vss row : info_ok ctx info ->
  ResolveColumnIndexByID (Z.of_nat x) ctx = Done (info_schema_idx info, info_col_idx info) ->
  row_stores ctx vss row -> is_Some (col_val vss info) -> has_value ctx (VarNode x) row (default SNull (col_val vss info)).
Proof.
  intros [Ht Hi] Er Hrow [s Hs]. rewrite Hs. exists vss. split; [done|]. cbn [sem]. unfold column_value, field_type. rewrite Er, Ht.
  cbn [mbind option_bind]. by rewrite (int_is_integer _ Hi).
Qed.
End Merged.

(** C15: merging aggregates into one loop does not change them. For every
    window whose rows store the collected integer columns, the merged loop
    runs through all rows, and each output of [sum], [count], [min] or [max]
    denotes the same value as the separate call of the aggregate on that
    column; for all but [sum] provided that the columns of one generator have
    equally many values, since a generator keeps one count. *)
Theorem merged_aggregates (ctx : SchemasContext) undef ext {I} `{RowIteratorLaws I Row} sorted (window : I) fuel vsss :
  built false ctx ->
  (forall t, IsInteger t = true -> exists n, undef (IntTy (width t)) = VInt n /\ in_type t n = true) ->
  it_ok window -> (length (all window) <= fuel)%nat -> Z.of_nat (length (all window)) < 2 ^ 63 ->
  Forall (info_ok ctx) sorted -> Forall2 (fun x vss => holds_columns ctx sorted x.2 vss) (all window) vsss ->
  exists outs, BuildMulti false ctx undef sorted fuel window = Some outs /\
    forall info fn idx x, info ∈ sorted -> (fn, idx) ∈ info_aggs info -> fn ∈ [agg_sum; agg_count; agg_min; agg_max] ->
      fn = agg_sum \/ counted_alike sorted vsss info ->
      ResolveColumnIndexByID (Z.of_nat x) ctx = Done (info_schema_idx info, info_col_idx info) ->
      exists v w s, (idx, v) ∈ outs /\ agg_call false ctx undef ext fn [VarNode x] fuel window = Some w /\
        denotes v (agg_type fn (info_col_type info)) s /\ denotes w (agg_type fn (info_col_type info)) s.
Proof.
  intros Hb Hu Ho Hf H63 Hinfo Hrows. destruct (merged_value ctx undef Hb sorted window fuel vsss Ho Hf H63 Hinfo Hrows)
    as (outs & E & Hv). exists outs. split; [done|]. intros info fn idx x Hin Hagg Hc Hor Hx.
  pose proof (proj1 (Forall_forall _ _) Hinfo info Hin) as [Ht Hi].
  assert (agg_covers fn (info_col_type info) = true /\ exists s, agg_value fn (info_col_type info) (col_values vsss info) = Some s)
    as [Hcov [s Hs]].
  { rewrite !elem_of_cons, elem_of_nil in Hc. destruct Hc as [->|[->|[->|[->|[]]]]]; (split; [|by eexists]); try done.
    by apply int_is_integer. }
  destruct (Hv info fn idx s Hin Hagg Hs Hor) as (v & Hv1 & Hv2).
  destruct (agg_call_value ctx undef ext Hb Hu fn (VarNode x) (info_col_type info) window fuel (col_values vsss info) s)
    as (w & Hw1 & Hw2); try done.
  - cbn [infer]. unfold field_type. by rewrite Hx.
  - unfold col_values. apply Forall2_fmap_r. eapply Forall2_impl; [exact Hrows|]. intros y vss [Hrow Hs']. cbn.
    by apply position_value; [split|..|exact (proj1 (Forall_forall _ _) Hs' info Hin)].
  - by exists v, w, s.
Qed.

(** ** Samples *)

Module SampleMerged.
Import SamplePlan SampleProjection.
Definition cols : list ColumnDef := [mkcol [97] Layout.kInt32; mkcol [98] Layout.kInt32].
Definition source : SchemaSource := mkSource (Some cols) [] [1; 2] [-1; -1] [0; 0].
Definition ctx : SchemasContext := context t1 [source].
Definition values1 : list (option RowBuilder.Value) := [Some (VInt32 7); Some (VInt32 1)].
Definition values2 : list (option RowBuilder.Value) := [None; Some (VInt32 (-5))].
Definition window : MemTimeTableIterator Row :=
  MemTimeTableIterator_new [(20, Row_of_slice (slice_of cols values1)); (10, Row_of_slice (slice_of cols values2))].
(** The collected columns of a list of calls, in the order of their keys. *)
Definition collect (calls : list projected) : list AggColumnInfo :=
  let infos := foldl (fun m e => from_option snd m (CollectAggColumn ctx None e.2 e.1 m)) (∅ : gmap (list Z) AggColumnInfo)
                 (imap pair calls) in
  base.omap (fun key => infos !! key) [col_key [] [97]; col_key [] [98]].
Definition counts_ab : list AggColumnInfo := collect [AggOnColumn agg_count [] [97]; AggOnColumn agg_count [] [98]].
Definition sums_ab : list AggColumnInfo := collect [AggOnColumn agg_sum [] [97]; OtherExpr; AggOnColumn agg_sum [] [98]].
Definition sorted_ab : list AggColumnInfo := [mkInfo kInt32 0 0 7 [(agg_sum, 0%nat)]; mkInfo kInt32 0 1 11 [(agg_sum, 2%nat)]].

Lemma source_valid : source_ok source.
Proof. by split. Qed.
Lemma ctx_built : built false ctx /\ sc_schema_sources ctx = [source].
Proof. apply context_built. repeat constructor; by apply source_valid. Qed.
Lemma stores vs : row_ok cols vs -> row_size cols vs <> 16777216 -> row_stores ctx [vs] (Row_of_slice (slice_of cols vs)).
Proof.
  intros Hok H24 [|i] vs' Hvs; [|done]. injection Hvs as <-. exists cols, (slice_of cols vs).
  split_and!; [|done|by apply slice_of_holds]. unfold GetSchema, GetSchemaSource. by rewrite (proj2 ctx_built).
Qed.
Lemma values_ok : row_ok cols values1 /\ row_ok cols values2.
Proof.
  split; (split; [|repeat constructor; vm_compute; repeat split; discriminate|done|done|done]); repeat constructor; done.
Qed.
End SampleMerged.

(** A generator counts once for all its columns. On two rows with a = 7,
    b = 1 and a NULL, b = -5 the merged [count(b)] is 1, the number of values
    of the neighbouring column [a]; the call of [count(b)] alone gives 2. *)
Theorem merged_count_shared :
  BuildMulti false SampleMerged.ctx SampleProjection.undef SampleMerged.counts_ab 2 SampleMerged.window =
    Some [(0%nat, Create (reg kInt64 1)); (1%nat, Create (reg kInt64 1))] /\
  agg_call false SampleMerged.ctx SampleProjection.undef SampleProjection.ext agg_count [VarNode 2] 2 SampleMerged.window =
    Some (Create (reg kInt64 2)).
Proof. split; vm_compute; reflexivity. Qed.

Lemma merged_aggregates_witness :
  SampleMerged.sums_ab = SampleMerged.sorted_ab /\
  exists outs, BuildMulti false SampleMerged.ctx SampleProjection.undef SampleMerged.sorted_ab 2 SampleMerged.window = Some outs /\
    exists v w s, (2%nat, v) ∈ outs /\
      agg_call false SampleMerged.ctx SampleProjection.undef SampleProjection.ext agg_sum [VarNode 2] 2 SampleMerged.window = Some w /\
      denotes v kInt32 s /\ denotes w kInt32 s.
Proof.
  split; [vm_compute; reflexivity|].
  destruct (merged_aggregates SampleMerged.ctx SampleProjection.undef SampleProjection.ext SampleMerged.sorted_ab
    SampleMerged.window 2 [[SampleMerged.values1]; [SampleMerged.values2]]) as (outs & E & Hv).
  - exact (proj1 SampleMerged.ctx_built).
  - exact SampleAggregates.undef_ok.
  - cbn. lia.
  - cbn. lia.
  - reflexivity.
  - repeat constructor; vm_compute; reflexivity.
  - repeat constructor; try (apply SampleMerged.stores; [apply SampleMerged.values_ok|vm_compute; discriminate]); vm_compute; by eexists.
  - exists outs. split; [exact E|].
    apply (Hv (mkInfo kInt32 0 1 11 [(agg_sum, 2%nat)]) agg_sum 2%nat 2%nat).
    + right. left.
    + left.
    + left.
    + by left.
    + vm_compute. reflexivity.
Defined.
