(* ===== verification/Conditions.v ===== *)
(** * Extracting keys from conditions

    Models [src/passes/physical/condition_optimized.cc]: the condition of a
    join or a filter is split into a list of conjuncts, equalities whose sides
    belong to the two inputs (or of which one side is constant) become pairs of
    keys, and the other conjuncts remain as condition.

    Expressions are those of [Expr], with column references as variables;
    [colref] gives the relation and the column name by which a variable is
    written. *)

From stdpp Require Import base numbers option list gmap.
From S2P Require Import Prelude Layout RowFormat CompiledCodec SchemasContext Llvm ExprTypes ExprBuilder Expr.
Local Open Scope cpp_scope.

(** ** Components of physical operators ([include/vm/physical_op.h]) *)

(** Keys, conditions and orders; [None] is the null pointer. An order has
    expressions (or none) with their directions. *)
Definition Key := option (list expr).
Definition ValidKey (k : Key) : bool := match k with Some (_ :: _) => true | _ => false end.
Definition OrderByNode := list (option expr * bool).

Record Filter := mkFilter {
  condition_ : option expr;
  left_key_ : Key;
  right_key_ : Key;
  index_key_ : Key
}.
Definition Filter_new (condition : option expr) : Filter := mkFilter condition None None None.

Inductive JoinType := kJoinTypeFull | kJoinTypeLast | kJoinTypeLeft | kJoinTypeRight | kJoinTypeInner | kJoinTypeConcat | kJoinTypeComma.
Record Join := mkJoin { join_filter : Filter; join_type_ : JoinType; right_sort_ : option OrderByNode }.

(** ** Constants and columns of an expression *)

Fixpoint ExprIsConst (e : expr) : bool :=
  match e with
  | ConstNode _ _ => true
  | VarNode _ => false
  | UnaryExpr _ e1 | CastExpr _ e1 => ExprIsConst e1
  | BinaryExpr _ l r => ExprIsConst l && ExprIsConst r
  | CondExpr c l r => ExprIsConst c && ExprIsConst l && ExprIsConst r
  | CaseWhenExpr w => cases_const w
  end
with cases_const (w : whens) : bool :=
  match w with
  | ElseExpr e => ExprIsConst e
  | WhenExpr c t rest => ExprIsConst c && ExprIsConst t && cases_const rest
  end.

Fixpoint DoSearchExprDependentColumns (e : expr) : list nat :=
  match e with
  | ConstNode _ _ => []
  | VarNode x => [x]
  | UnaryExpr _ e1 | CastExpr _ e1 => DoSearchExprDependentColumns e1
  | BinaryExpr _ l r => DoSearchExprDependentColumns l ++ DoSearchExprDependentColumns r
  | CondExpr c l r => DoSearchExprDependentColumns c ++ DoSearchExprDependentColumns l ++ DoSearchExprDependentColumns r
  | CaseWhenExpr w => search_cases w
  end
with search_cases (w : whens) : list nat :=
  match w with
  | ElseExpr e => DoSearchExprDependentColumns e
  | WhenExpr c t rest => DoSearchExprDependentColumns c ++ DoSearchExprDependentColumns t ++ search_cases rest
  end.

Section Columns.
Context (colref : nat -> list Z * list Z).

(** [ResolveExprDependentColumns] in the context of a plan node: the ids of
    the columns of an expression. *)
Fixpoint resolve_columns (node : PhysicalOpNode) (columns : list nat) : outcome (list Z) :=
  match columns with
  | [] => Done []
  | x :: columns' =>
      let '(relation, column) := colref x in
      pos <~ ResolveColumnIndexByName (Some (producers node)) relation column (schemas_ctx node);
      id <~ access (id_at (schemas_ctx node) pos);
      ids <~ resolve_columns node columns';
      Done (id :: ids)
  end.
Definition ResolveExprDependentColumns (e : expr) (node : PhysicalOpNode) : outcome (list Z) :=
  resolve_columns node (DoSearchExprDependentColumns e).

(** Whether the status is OK; [None] is undefined behaviour. *)
Definition CheckExprDependOnChildOnly (e : expr) (child : PhysicalOpNode) : option bool :=
  match ResolveExprDependentColumns e child with Done _ => Some true | Refused => Some false | Undefined => None end.

(** ** Splitting a condition *)

Fixpoint and_conditions (condition : expr) : list expr :=
  match condition with
  | UnaryExpr uBracket e => and_conditions e
  | BinaryExpr kFnOpAnd l r => and_conditions l ++ and_conditions r
  | _ => [condition]
  end.
Definition TransfromAndConditionList (condition : option expr) : option (list expr) := and_conditions <$> condition.

Fixpoint ExtractEqualExprPair (condition : expr) : option (expr * expr) :=
  match condition with
  | UnaryExpr uBracket e => ExtractEqualExprPair e
  | BinaryExpr kFnOpEq l r => Some (l, r)
  | _ => None
  end.

(** The result, if any; the outer [None] is undefined behaviour. *)
Definition MakeConstEqualExprPair (expr_pair : expr * expr) (right : PhysicalOpNode) : option (option (expr * expr)) :=
  let is_first_const := ExprIsConst expr_pair.1 in
  let is_second_const := ExprIsConst expr_pair.2 in
  if is_first_const && is_second_const then Some None
  else if is_first_const then
    b ← CheckExprDependOnChildOnly expr_pair.2 right;
    Some (if b : bool then Some (expr_pair.1, expr_pair.2) else None)
  else if is_second_const then
    b ← CheckExprDependOnChildOnly expr_pair.1 right;
    Some (if b : bool then Some (expr_pair.2, expr_pair.1) else None)
  else Some None.

(** [&&] of two checks. *)
Definition both_depend (e1 : expr) (n1 : PhysicalOpNode) (e2 : expr) (n2 : PhysicalOpNode) : option bool :=
  b1 ← CheckExprDependOnChildOnly e1 n1;
  if b1 : bool then CheckExprDependOnChildOnly e2 n2 else Some false.

(** The pair of keys of an equality: the left key of the left input, the right
    key of the right input. *)
Definition join_pair (left right : PhysicalOpNode) (expr_pair : expr * expr) : option (option (expr * expr)) :=
  const_pair ← MakeConstEqualExprPair expr_pair right;
  match const_pair with
  | Some p => Some (Some p)
  | None =>
      b ← both_depend expr_pair.1 left expr_pair.2 right;
      if b : bool then Some (Some (expr_pair.1, expr_pair.2))
      else
        b' ← both_depend expr_pair.2 left expr_pair.1 right;
        Some (if b' : bool then Some (expr_pair.2, expr_pair.1) else None)
  end.

(** The remaining conditions and the pairs of keys. *)
Fixpoint TransformJoinEqualExprPair (left right : PhysicalOpNode) (and_conditions : list expr)
  : option (list expr * list (expr * expr)) :=
  match and_conditions with
  | [] => Some ([], [])
  | e :: es =>
      p ← match ExtractEqualExprPair e with None => Some None | Some expr_pair => join_pair left right expr_pair end;
      '(out, eqs) ← TransformJoinEqualExprPair left right es;
      Some match p with Some kp => (out, kp :: eqs) | None => (e :: out, eqs) end
  end.

Fixpoint TransformConstEqualExprPair (and_conditions : list expr) : list expr * list (expr * expr) :=
  match and_conditions with
  | [] => ([], [])
  | e :: es =>
      let '(out, eqs) := TransformConstEqualExprPair es in
      match ExtractEqualExprPair e with
      | Some (l, r) =>
          if ExprIsConst l then (out, (l, r) :: eqs)
          else if ExprIsConst r then (out, (r, l) :: eqs)
          else (e :: out, eqs)
      | None => (e :: out, eqs)
      end
  end.

Definition MakeAndExpr (es : list expr) : option expr :=
  match es with [] => None | e :: es' => Some (foldl (BinaryExpr kFnOpAnd) e es') end.

Definition set_keys (eqs : list (expr * expr)) (condition : option expr) (f : Filter) : Filter :=
  mkFilter condition (Some eqs.*1) (Some eqs.*2) (index_key_ f).

(** Both passes: whether the operator was changed, and the operator. *)
Definition JoinConditionOptimized (ps : list PhysicalOpNode) (join : Join) : option (bool * Join) :=
  match ps with
  | [l; r] =>
      match TransfromAndConditionList (condition_ (join_filter join)) with
      | None => Some (false, join)
      | Some conditions =>
          '(out, eqs) ← TransformJoinEqualExprPair l r conditions;
          match eqs with
          | [] => Some (false, join)
          | _ => Some (true, mkJoin (set_keys eqs (MakeAndExpr out) (join_filter join)) (join_type_ join) (right_sort_ join))
          end
      end
  | _ => Some (false, join)
  end.

Definition FilterConditionOptimized (filter : Filter) : bool * Filter :=
  match TransfromAndConditionList (condition_ filter) with
  | None => (false, filter)
  | Some conditions =>
      match TransformConstEqualExprPair conditions with
      | (_, []) => (false, filter)
      | (out, eqs) => (true, set_keys eqs (MakeAndExpr out) filter)
      end
  end.

(** [ConditionOptimized::Transform] on the operators it applies to. *)
Inductive ConditionOp := OpJoin (join : Join) | OpRequestJoin (join : Join) | OpFilter (filter : Filter) | OpOther.

Definition Transform (op : ConditionOp) (ps : list PhysicalOpNode) : option (bool * ConditionOp) :=
  match op with
  | OpJoin join => '(b, j) ← JoinConditionOptimized ps join; Some (b, OpJoin j)
  | OpRequestJoin join => '(b, j) ← JoinConditionOptimized ps join; Some (b, OpRequestJoin j)
  | OpFilter filter => let '(b, f) := FilterConditionOptimized filter in Some (b, OpFilter f)
  | OpOther => Some (false, OpOther)
  end.
End Columns.
