(* ===== verification/ConditionsProof.v ===== *)
(** * Keys and condition together are the original condition

    The split of a condition into pairs of keys and a remaining condition does
    not change which pairs of rows it accepts, and the text of keys that the
    runners compare decides the equality of the keys, NULL excepted. *)

From stdpp Require Import base numbers option list gmap.
From S2P Require Import Prelude Layout TypeCodec RowBuilder RowCodec FnGenerators KeyText RowFormat CompiledCodec SchemasContext SchemasProof Llvm ExprTypes ExprBuilder Expr ExprProof ExprSem Conditions.

(** What the pass relies on: when a condition is true. *)
Class ConditionTruth (holds : expr -> Prop) := {
  holds_and : forall l r, holds (BinaryExpr kFnOpAnd l r) <-> holds l /\ holds r;
  holds_bracket : forall e, holds (UnaryExpr uBracket e) <-> holds e;
  holds_eq_sym : forall l r, holds (BinaryExpr kFnOpEq l r) <-> holds (BinaryExpr kFnOpEq r l)
}.

Section Split.
Context (colref : nat -> list Z * list Z) (holds : expr -> Prop) `{ConditionTruth holds}.

Lemma and_conditions_holds e : holds e <-> Forall holds (and_conditions e).
Proof.
  assert (forall x, holds x <-> Forall holds [x]) as H1 by (intros x; by rewrite Forall_singleton).
  induction e as [t v|x|op e IH|op l IHl r IHr|t e IH|c IHc l IHl r IHr|w] using expr_ind; try apply H1.
  - destruct op; try apply H1. cbn. by rewrite holds_bracket.
  - destruct op; try apply H1. cbn. by rewrite holds_and, IHl, IHr, Forall_app.
Qed.

Lemma extract_holds e l r : ExtractEqualExprPair e = Some (l, r) -> holds e <-> holds (BinaryExpr kFnOpEq l r).
Proof.
  induction e as [t v|x|op e IH|op a IHl b IHr|t e IH|c IHc a IHl b IHr|w] using expr_ind; try done.
  - destruct op; try done. intros E. rewrite holds_bracket. by apply IH.
  - destruct op; try done. by intros [= -> ->].
Qed.

Lemma and_expr_holds es : match MakeAndExpr es with Some e => holds e | None => True end <-> Forall holds es.
Proof.
  destruct es as [|e es]; [by split|]. cbn. rewrite Forall_cons.
  assert (forall e, holds (foldl (BinaryExpr kFnOpAnd) e es) <-> holds e /\ Forall holds es) as ->; [|done].
  induction es as [|e' es IH]; intros e0; cbn; [by rewrite Forall_nil; split; [|intros []]|].
  rewrite IH, holds_and, Forall_cons. tauto.
Qed.

Definition key_eq (p : expr * expr) : Prop := holds (BinaryExpr kFnOpEq p.1 p.2).

(** ** Joins *)

Lemma join_pair_spec left right e l r p : ExtractEqualExprPair e = Some (l, r) ->
  join_pair colref left right (l, r) = Some (Some p) ->
  (holds e <-> key_eq p) /\
  (ExprIsConst p.1 = true \/ CheckExprDependOnChildOnly colref p.1 left = Some true) /\
  CheckExprDependOnChildOnly colref p.2 right = Some true.
Proof.
  intros He Hp. apply extract_holds in He. unfold key_eq. rewrite He. clear He.
  assert (forall e1 n1 e2 n2, both_depend colref e1 n1 e2 n2 = Some true ->
    CheckExprDependOnChildOnly colref e1 n1 = Some true /\ CheckExprDependOnChildOnly colref e2 n2 = Some true) as Hb.
  { intros e1 n1 e2 n2. unfold both_depend. destruct (CheckExprDependOnChildOnly colref e1 n1) as [[]|]; [done|discriminate..]. }
  unfold join_pair in Hp. apply bind_Some in Hp as (cp & Ec & Hp). destruct cp as [q|].
  - injection Hp as ->. unfold MakeConstEqualExprPair in Ec. cbn [fst snd] in Ec.
    destruct (ExprIsConst l) eqn:El, (ExprIsConst r) eqn:Er; try done;
      apply bind_Some in Ec as ([] & Ec & E); try done; injection E as <-; cbn [fst snd].
    + split_and!; [done|by left|done].
    + split_and!; [apply holds_eq_sym|by left|done].
  - apply bind_Some in Hp as (b & Eb & Hp). destruct b.
    + injection Hp as <-. apply Hb in Eb as [E1 E2]. split_and!; [done|by right|done].
    + apply bind_Some in Hp as (b' & Eb' & Hp). destruct b'; [|done]. injection Hp as <-. apply Hb in Eb' as [E1 E2].
      cbn [fst snd]. split_and!; [apply holds_eq_sym|by right|done].
Qed.

Lemma join_split left right es out eqs : TransformJoinEqualExprPair colref left right es = Some (out, eqs) ->
  (Forall holds es <-> Forall key_eq eqs /\ Forall holds out) /\
  Forall (fun p => (ExprIsConst p.1 = true \/ CheckExprDependOnChildOnly colref p.1 left = Some true) /\
    CheckExprDependOnChildOnly colref p.2 right = Some true) eqs.
Proof.
  revert out eqs. induction es as [|e es IH]; intros out eqs E; cbn [TransformJoinEqualExprPair] in E.
  - injection E as <- <-. rewrite !Forall_nil. tauto.
  - apply bind_Some in E as (p & Ep & ([out' eqs'] & E' & E)%bind_Some). destruct (IH out' eqs' E') as [IH1 IH2].
    destruct (ExtractEqualExprPair e) as [[l r]|] eqn:Ee.
    + destruct p as [p|]; injection E as <- <-.
      * destruct (join_pair_spec left right e l r p Ee Ep) as (H1 & H2 & H3).
        split; [rewrite !Forall_cons, IH1, H1; tauto|]. by constructor.
      * split; [rewrite !Forall_cons, IH1; tauto|done].
    + injection Ep as <-. injection E as <- <-. split; [rewrite !Forall_cons, IH1; tauto|done].
Qed.

(** ** Filters *)

Lemma const_split es out eqs : TransformConstEqualExprPair es = (out, eqs) ->
  (Forall holds es <-> Forall key_eq eqs /\ Forall holds out) /\ Forall (fun p => ExprIsConst p.1 = true) eqs.
Proof.
  revert out eqs. induction es as [|e es IH]; intros out eqs E; cbn [TransformConstEqualExprPair] in E.
  - injection E as <- <-. rewrite !Forall_nil. tauto.
  - destruct (TransformConstEqualExprPair es) as [out' eqs']. destruct (IH out' eqs' eq_refl) as [IH1 IH2].
    destruct (ExtractEqualExprPair e) as [[l r]|] eqn:Ee.
    + pose proof (extract_holds e l r Ee) as He. destruct (ExprIsConst l) eqn:El; [|destruct (ExprIsConst r) eqn:Er];
        injection E as <- <-; rewrite !Forall_cons, IH1, ?He; unfold key_eq; cbn [fst snd].
      * tauto.
      * rewrite (holds_eq_sym l r). tauto.
      * tauto.
    + injection E as <- <-. rewrite !Forall_cons, IH1. tauto.
Qed.

(** The condition of an operator, as far as it is evaluated. *)
Definition condition_holds (c : option expr) : Prop := match c with Some e => holds e | None => True end.

(** The keys of the two sides are equal. *)
Definition keys_equal (f : Filter) : Prop :=
  Forall key_eq (zip (default [] (left_key_ f)) (default [] (right_key_ f))).

Lemma set_keys_equal eqs c f : keys_equal (set_keys eqs c f) <-> Forall key_eq eqs.
Proof. unfold keys_equal, set_keys. cbn. by rewrite zip_fst_snd. Qed.
End Split.

(** C19: extracting the keys of a join keeps its meaning. Whenever the pass
    changes a join, the original condition holds exactly when the left keys
    equal the right keys and the remaining condition holds, for every notion
    of truth in which AND is conjunction and equality is symmetric; there is
    at least one key, left keys are constants or use columns of the left input
    only, and right keys use columns of the right input only. A join that is
    not changed stays as it is. *)
Theorem join_condition_split colref (holds : expr -> Prop) `{ConditionTruth holds} left right join b join' :
  JoinConditionOptimized colref [left; right] join = Some (b, join') ->
  if b then
    (condition_holds holds (condition_ (join_filter join)) <->
      keys_equal holds (join_filter join') /\ condition_holds holds (condition_ (join_filter join'))) /\
    exists lk rk, left_key_ (join_filter join') = Some lk /\ right_key_ (join_filter join') = Some rk /\
      lk <> [] /\ length lk = length rk /\
      Forall (fun e => ExprIsConst e = true \/ CheckExprDependOnChildOnly colref e left = Some true) lk /\
      Forall (fun e => CheckExprDependOnChildOnly colref e right = Some true) rk
  else join' = join.
Proof.
  unfold JoinConditionOptimized, TransfromAndConditionList. destruct (condition_ (join_filter join)) as [c|] eqn:Ec; [|by intros [= <- <-]].
  cbn [fmap option_fmap option_map]. intros ([out eqs] & E & E')%bind_Some.
  destruct eqs as [|p eqs]; injection E' as <- <-; [done|].
  destruct (join_split colref holds left right _ _ _ E) as [H1 H2]. split.
  - cbn [condition_holds]. rewrite (and_conditions_holds holds c), H1. cbn [join_filter]. rewrite set_keys_equal.
    unfold condition_holds. cbn [condition_ set_keys]. by rewrite (and_expr_holds holds out).
  - exists ((p :: eqs).*1), ((p :: eqs).*2). split_and!; try done; [by rewrite !length_fmap|..];
      apply Forall_fmap; (eapply Forall_impl; [exact H2|]); by intros x [? ?].
Qed.

(** Extracting the keys of a filter keeps its meaning: the original
    condition holds exactly when the constants equal the right keys and the
    remaining condition holds. *)
Theorem filter_condition_split (holds : expr -> Prop) `{ConditionTruth holds} filter b filter' :
  FilterConditionOptimized filter = (b, filter') ->
  if b then
    (condition_holds holds (condition_ filter) <->
      keys_equal holds filter' /\ condition_holds holds (condition_ filter')) /\
    ValidKey (left_key_ filter') = true /\ Forall (fun e => ExprIsConst e = true) (default [] (left_key_ filter'))
  else filter' = filter.
Proof.
  unfold FilterConditionOptimized, TransfromAndConditionList. destruct (condition_ filter) as [c|] eqn:Ec; [|by intros [= <- <-]].
  cbn [fmap option_fmap option_map]. destruct (TransformConstEqualExprPair (and_conditions c)) as [out eqs] eqn:E.
  destruct eqs as [|p eqs]; intros [= <- <-]; [done|].
  destruct (const_split holds _ _ _ E) as [H1 H2]. split_and!.
  - cbn [condition_holds]. rewrite (and_conditions_holds holds c), H1, set_keys_equal.
    unfold condition_holds. cbn [condition_ set_keys]. by rewrite (and_expr_holds holds out).
  - done.
  - cbn [left_key_ set_keys default from_option id]. apply Forall_fmap. exact H2.
Qed.

(** ** Conditions over integers and booleans *)

Section Values.
Context (G : nat -> option DataType) (rho : nat -> option sval).

(** A condition is true on a row. *)
Definition is_true (e : expr) : Prop :=
  exists t s, infer G e = Some t /\ IsInteger t = true /\ sem G rho e = Some s /\ truth s = Some true.

#[global] Instance is_true_truth : ConditionTruth is_true.
Proof.
  assert (forall l r, is_true (BinaryExpr kFnOpEq l r) -> is_true (BinaryExpr kFnOpEq r l)) as Hsym.
  { intros l r (t & s & Ht & _ & Hs & Hv). cbn [infer sem] in *.
    apply bind_Some in Ht as (tl & El & (tr & Er & Ht)%bind_Some). rewrite El, Er in Hs. cbn [mbind option_bind] in Hs.
    apply bind_Some in Hs as (a & Ea & (b & Eb & Hs)%bind_Some). unfold sem_binary in Hs. cbn [cmp_op] in Hs.
    exists kBool, s. cbn [infer sem]. rewrite El, Er, Ea, Eb. cbn [mbind option_bind infer_binary]. unfold sem_binary. cbn [cmp_op].
    split_and!; [|done| |done].
    - destruct (int_type tl && int_type tr) eqn:Ei.
      + apply andb_true_iff in Ei as [E1 E2]. apply int_type_cases in E1 as [->|[->| ->]], E2 as [->|[->| ->]]; done.
      + destruct (is_type tl kBool && is_type tr kBool) eqn:Eb'; [|done]. apply andb_true_iff in Eb' as [E1 E2].
        destruct tl, tr; done.
    - rewrite (andb_comm (int_type tr)), (andb_comm (is_type tr kBool)). destruct (_ || _); [|done].
      destruct a as [|m|x], b as [|n|y]; try done; cbn in *; rewrite Z.eqb_sym; done. }
  split.
  - intros l r. unfold is_true. cbn [infer sem]. split.
    + intros (t & s & Ht & _ & Hs & Hv). apply bind_Some in Ht as (tl & El & (tr & Er & Ht)%bind_Some).
      rewrite El, Er in Hs. cbn [mbind option_bind] in Hs. apply bind_Some in Hs as (a & Ea & (b & Eb & Hs)%bind_Some).
      unfold sem_binary in Hs. cbn [cmp_op logic_op] in Hs. destruct (IsInteger tl && IsInteger tr) eqn:Ei; [|done].
      apply andb_true_iff in Ei as [E1 E2]. injection Hs as <-.
      assert (truth a = Some true /\ truth b = Some true) as [Ha Hb'] by (by destruct (truth a) as [[]|], (truth b) as [[]|]).
      split; [by exists tl, a|by exists tr, b].
    + intros [(tl & a & El & E1 & Ea & Ha) (tr & b & Er & E2 & Eb & Hb')]. exists kBool, (SBool true).
      rewrite El, Er, Ea, Eb. cbn [mbind option_bind infer_binary]. unfold sem_binary. cbn [cmp_op logic_op].
      rewrite E1, E2, Ha, Hb'. split_and!; [|done..]. by destruct tl, tr.
  - intros e. unfold is_true. cbn [infer sem]. split.
    + intros (t & s & Ht & Hi & Hs & Hv). apply bind_Some in Ht as (te & Ee & Ht). cbn in Ht. injection Ht as ->.
      rewrite Ee in Hs. cbn [mbind option_bind] in Hs. apply bind_Some in Hs as (a & Ea & Hs). cbn in Hs. injection Hs as ->.
      by exists t, s.
    + intros (t & s & Ht & Hi & Hs & Hv). exists t, s. rewrite Ht, Hs. done.
  - intros l r. split; apply Hsym.
Qed.
End Values.

(** ** The texts that runners compare *)

(** The cell of a key column of type [t] that holds [s]. *)
Definition key_cell (t : DataType) (s : sval) : option RowBuilder.Value :=
  match s with
  | SNull => None
  | SBool b => Some (RowBuilder.VBool b)
  | SInt n => Some match t with kInt16 => VInt16 n | kInt32 => VInt32 n | _ => VInt64 n end
  end.

(** A value of a key on a row, other than NULL. *)
Definition key_value (G : nat -> option DataType) (rho : nat -> option sval) (e : expr) (ts : DataType * sval) : Prop :=
  infer G e = Some ts.1 /\ sem G rho e = Some ts.2 /\
  match ts.2 with
  | SInt n => int_type ts.1 = true /\ in_type ts.1 n = true
  | SBool _ => ts.1 = kBool
  | SNull => False
  end.

(** Keys of the same kind. *)
Definition comparable (a b : DataType * sval) : Prop :=
  match a.2, b.2 with SInt _, SInt _ | SBool _, SBool _ => True | _, _ => False end.

Section Texts.
Context (G : nat -> option DataType) (rho : nat -> option sval).

Lemma key_eq_values l r a b : key_value G rho l a -> key_value G rho r b -> comparable a b ->
  key_eq (is_true G rho) (l, r) <-> a.2 = b.2.
Proof.
  destruct a as [ta a], b as [tb b]. unfold key_value, comparable, key_eq, is_true. cbn [fst snd].
  intros (Il & Sl & Ha) (Ir & Sr & Hb) Hc. cbn [infer sem]. rewrite Il, Ir, Sl, Sr. cbn [mbind option_bind infer_binary].
  unfold sem_binary. cbn [cmp_op]. destruct a as [|m|x], b as [|n|y]; try done.
  - destruct Ha as [Ha _], Hb as [Hb _]. rewrite Ha, Hb. cbn [andb orb sem_cmp int_cmp].
    assert (CompareTypeAccept ta tb = Some kBool) as ->
      by (apply int_type_cases in Ha as [->|[->| ->]], Hb as [->|[->| ->]]; done).
    split; [intros (t & s & _ & _ & [= <-] & [= E%Z.eqb_eq]); by subst|].
    intros [= <-]. exists kBool, (SBool true). by rewrite Z.eqb_refl.
  - subst ta tb. cbn. split; [intros (t & s & _ & _ & [= <-] & [= E%Z.eqb_eq]); by destruct x, y|].
    intros [= <-]. exists kBool, (SBool true). by rewrite Z.eqb_refl.
Qed.

(** The text of a key does not depend on the width of its type. *)
Lemma cells_text ks vs : Forall2 (key_value G rho) ks vs ->
  keys_text ((fun ts => key_cell ts.1 ts.2) <$> vs) = keys_text ((fun ts => key_cell kInt64 ts.2) <$> vs).
Proof.
  unfold keys_text. intros Hk. generalize (@nil Z). induction Hk as [|k [t s] ks vs (_ & _ & Hs) _ IH]; intros acc; [done|].
  cbn [fmap list_fmap foldl]. rewrite IH. do 2 f_equal. destruct s as [|n|]; [done| |done].
  destruct Hs as [Ht _]. by apply int_type_cases in Ht as [->|[->| ->]].
Qed.

Definition kind_col (ts : DataType * sval) : ColumnDef :=
  mkcol [] match ts.2 with SBool _ => Layout.kBool | _ => Layout.kInt64 end.

Lemma cells_fit ks vs ws : Forall2 (key_value G rho) ks vs -> Forall2 comparable ws vs ->
  Forall2 value_fits (kind_col <$> ws) ((fun ts => key_cell kInt64 ts.2) <$> vs).
Proof.
  intros Hk Hc. revert ks Hk. induction Hc as [|[tw w] [t s] ws vs H1 _ IH]; intros ks Hk; [constructor|].
  inversion Hk as [|k ? ks' ? (_ & _ & Hs) Hk']; subst. cbn [fmap list_fmap]. constructor; [|by eapply IH].
  destruct w as [|m|], s as [|n|]; try done. cbn in *. split; [done|]. destruct Hs as [Ht Hn].
  apply in_type_range in Hn. cbn. apply int_type_cases in Ht as [->|[->| ->]]; cbn in Hn; lia.
Qed.

Lemma keys_text_equal lk rk ls rs :
  Forall2 (key_value G rho) lk ls -> Forall2 (key_value G rho) rk rs -> Forall2 comparable ls rs ->
  keys_text ((fun ts => key_cell ts.1 ts.2) <$> ls) = keys_text ((fun ts => key_cell ts.1 ts.2) <$> rs) <->
  Forall (key_eq (is_true G rho)) (zip lk rk).
Proof.
  intros Hl Hr Hc. rewrite (cells_text lk ls Hl), (cells_text rk rs Hr).
  assert (Forall (key_eq (is_true G rho)) (zip lk rk) <-> (fun ts => key_cell kInt64 ts.2) <$> ls = (fun ts => key_cell kInt64 ts.2) <$> rs) as ->.
  { revert lk rk Hl Hr. induction Hc as [|a b ls rs H1 _ IH]; intros lk rk Hl Hr.
    - inversion Hl. inversion Hr. by split; [|constructor].
    - inversion Hl as [|l ? lk' ? Ha Hl']; inversion Hr as [|r ? rk' ? Hb Hr']; subst. cbn [zip zip_with].
      rewrite Forall_cons, (IH lk' rk'), (key_eq_values l r a b) by done. cbn [fmap list_fmap]. destruct a as [ta [|m|x]], b as [tb [|n|y]]; try done; cbn [snd key_cell].
      + split; [by intros [[= <-] <-]|]. by intros [= <- <-].
      + split; [by intros [[= <-] <-]|]. by intros [= <- <-]. }
  split; [|by intros ->]. apply (keys_text_inj (kind_col <$> ls)).
  - apply (cells_fit lk). { done. } clear -Hc Hl. revert lk Hl.
    induction Hc as [|a b ls rs H1 _ IH]; intros lk Hl; [constructor|]. inversion Hl; subst. constructor; [|by eapply IH].
    destruct a as [ta [| |]], b as [tb [| |]]; done.
  - by apply (cells_fit rk).
  - clear. induction ls as [|[t [|n|x]] ls IH]; cbn; constructor; done.
  - clear. induction rs as [|[t [|n|x]] rs IH]; cbn; constructor; done.
Qed.
End Texts.

(** C18: on integer and boolean keys without NULL, comparing the texts of the
    keys and evaluating the remaining condition decides the original condition
    of a join: a pair of rows passes the optimised join exactly when the
    original condition is true on it. *)
Theorem join_keys_runtime colref G rho left right join join' lk rk ls rs :
  JoinConditionOptimized colref [left; right] join = Some (true, join') ->
  left_key_ (join_filter join') = Some lk -> right_key_ (join_filter join') = Some rk ->
  Forall2 (key_value G rho) lk ls -> Forall2 (key_value G rho) rk rs -> Forall2 comparable ls rs ->
  condition_holds (is_true G rho) (condition_ (join_filter join)) <->
    keys_text ((fun ts => key_cell ts.1 ts.2) <$> ls) = keys_text ((fun ts => key_cell ts.1 ts.2) <$> rs) /\
    condition_holds (is_true G rho) (condition_ (join_filter join')).
Proof.
  intros E El Er Hl Hr Hc. rewrite (keys_text_equal G rho lk rk ls rs Hl Hr Hc).
  unfold JoinConditionOptimized, TransfromAndConditionList in E.
  destruct (condition_ (join_filter join)) as [c|]; [|done]. cbn [fmap option_fmap option_map] in E.
  apply bind_Some in E as ([out eqs] & E & E'). destruct eqs as [|p eqs]; [done|]. injection E' as <-.
  cbn [join_filter set_keys left_key_ right_key_ condition_] in *.
  assert (zip lk rk = p :: eqs) as -> by (injection El as <-; injection Er as <-; apply (zip_fst_snd (p :: eqs))).
  destruct (join_split colref (is_true G rho) left right _ _ _ E) as [H1 _].
  cbn [condition_holds]. rewrite (and_conditions_holds (is_true G rho) c), H1.
  unfold condition_holds. by rewrite (and_expr_holds (is_true G rho) out).
Qed.

(** ** Samples *)

Module SampleConditions.
Import SamplePlan.
Definition right_cols : list ColumnDef := [mkcol [99] Layout.kInt64].
Definition right_source : SchemaSource := mkSource (Some right_cols) [] [3] [-1] [0].
Definition left_node : PhysicalOpNode := OpNode left [].
Definition right_node : PhysicalOpNode := OpNode (context t2 [right_source]) [].
Definition colref (x : nat) : list Z * list Z :=
  match x with 1%nat => (t1, [97]) | 2%nat => (t1, [98]) | _ => (t2, [99]) end.
Definition G (x : nat) : option DataType := match x with 1%nat => Some kInt32 | 2%nat | 3%nat => Some kInt64 | _ => None end.
Definition rho (x : nat) : option sval := match x with 1%nat | 3%nat => Some (SInt 7) | 2%nat => Some (SInt 5) | _ => None end.
Definition residual : expr := BinaryExpr kFnOpGt (VarNode 2) (ConstNode kInt64 (VInt 3)).
(** [t2.c = t1.a AND t1.b > 3]. *)
Definition condition : expr :=
  BinaryExpr kFnOpAnd (UnaryExpr uBracket (BinaryExpr kFnOpEq (VarNode 3) (VarNode 1))) residual.
Definition join : Join := mkJoin (Filter_new (Some condition)) kJoinTypeLast None.
Definition join' : Join :=
  mkJoin (mkFilter (Some residual) (Some [VarNode 1]) (Some [VarNode 3]) None) kJoinTypeLast None.
(** [t1.a = 1]. *)
Definition filter : Filter := Filter_new (Some (BinaryExpr kFnOpEq (VarNode 1) (ConstNode kInt32 (VInt 1)))).

Lemma optimized : JoinConditionOptimized colref [left_node; right_node] join = Some (true, join').
Proof. vm_compute. reflexivity. Qed.
End SampleConditions.

Lemma join_condition_split_witness :
  condition_holds (is_true SampleConditions.G SampleConditions.rho) (Some SampleConditions.condition) <->
    keys_equal (is_true SampleConditions.G SampleConditions.rho) (join_filter SampleConditions.join') /\
    condition_holds (is_true SampleConditions.G SampleConditions.rho) (Some SampleConditions.residual).
Proof.
  exact (proj1 (join_condition_split SampleConditions.colref (is_true SampleConditions.G SampleConditions.rho)
    SampleConditions.left_node SampleConditions.right_node SampleConditions.join true SampleConditions.join'
    SampleConditions.optimized)).
Defined.

Lemma filter_condition_split_witness :
  exists filter', FilterConditionOptimized SampleConditions.filter = (true, filter') /\
    ValidKey (left_key_ filter') = true.
Proof.
  eexists. split; [vm_compute; reflexivity|].
  exact (proj1 (proj2 (filter_condition_split (is_true SampleConditions.G SampleConditions.rho) SampleConditions.filter true _ eq_refl))).
Defined.

Lemma join_keys_runtime_witness :
  condition_holds (is_true SampleConditions.G SampleConditions.rho) (Some SampleConditions.condition) <->
    keys_text [Some (VInt32 7)] = keys_text [Some (VInt64 7)] /\
    condition_holds (is_true SampleConditions.G SampleConditions.rho) (Some SampleConditions.residual).
Proof.
  apply (join_keys_runtime SampleConditions.colref SampleConditions.G SampleConditions.rho
    SampleConditions.left_node SampleConditions.right_node SampleConditions.join SampleConditions.join'
    [VarNode 1] [VarNode 3] [(kInt32, SInt 7)] [(kInt64, SInt 7)] SampleConditions.optimized eq_refl eq_refl).
  - repeat constructor.
  - repeat constructor.
  - repeat constructor.
Defined.

(** Rows with NULL keys meet in the optimised join although NULL = NULL is not
    true: the texts of NULL are equal. *)
Lemma null_keys_match t t' : keys_text [key_cell t SNull] = keys_text [key_cell t' SNull] /\
  (forall G rho l r, sem G rho l = Some SNull -> sem G rho r = Some SNull -> ~ is_true G rho (BinaryExpr kFnOpEq l r)).
Proof.
  split; [done|]. intros G rho l r El Er (u & s & _ & _ & Hs & Hv). cbn [sem] in Hs. rewrite El, Er in Hs.
  destruct (infer G l) as [tl|]; [|done]. destruct (infer G r) as [tr|]; [|done]. cbn [mbind option_bind] in Hs.
  unfold sem_binary in Hs. cbn [cmp_op] in Hs. destruct (_ || _); [|done]. cbn in Hs. by injection Hs as <-.
Qed.

(** A filter on a constant that no index serves: the equality is moved to keys
    that only an index lookup evaluates, and no condition remains. *)
Lemma filter_key_not_evaluated :
  condition_ (FilterConditionOptimized SampleConditions.filter).2 = None /\
  index_key_ (FilterConditionOptimized SampleConditions.filter).2 = None.
Proof. done. Qed.
