(* ===== verification/IndexMatch.v ===== *)
(** * Choosing an index for keys

    Models [src/passes/physical/group_and_sort_optimized.cc]: the keys of a
    group, a window, a join or a filter over a table are served by an index of
    the table when the columns of the index are among the keys, and then the
    table is read as a partition by that index ([KeysOptimized],
    [TransformKeysAndOrderExpr], [MatchBestIndex], [TransformOrderExpr]).

    The operators that the pass creates are given by their kind; their schema
    contexts are initialised from their inputs and not part of the result. *)

#[local] Set Warnings "-register-all".

From stdpp Require Import base numbers option list gmap.
From S2P Require Import Prelude Layout RowFormat CompiledCodec SchemasContext Llvm ExprTypes ExprBuilder Expr Conditions.
Local Open Scope cpp_scope.

(** ** Indexes of a table ([include/vm/catalog.h]) *)

Definition INVALID_POS : Z := 2 ^ 32 - 1.

Record IndexSt := mkIndex { ix_name : list Z; ix_ts_pos : Z; ix_keys : list (list Z) }.
(** The map of indexes in the order of its keys. *)
Definition IndexHint := list (list Z * IndexSt).
Record TableIndexes := mkTable { tb_schema : option (list ColumnDef); tb_index : IndexHint }.

Definition hint_at (name : list Z) (hint : IndexHint) : option IndexSt :=
  e ← list_find (fun e => e.1 = name) hint; Some e.2.2.

(** ** The best index *)

(** The columns that are marked. *)
Fixpoint marked (columns : list (list Z)) (bitmap : list bool) : gset (list Z) :=
  match columns, bitmap with
  | c :: columns', b :: bitmap' => (if b : bool then {[c]} else ∅) ∪ marked columns' bitmap'
  | _, _ => ∅
  end.
Definition key_set (index : IndexSt) : gset (list Z) := list_to_set (ix_keys index).

Section Match.
Context (columns order_columns : list (list Z)) (hint : IndexHint) (schema : list ColumnDef).

(** Whether the time stamp of the index is the column of the order; a position
    outside the schema is undefined behaviour. *)
Definition order_matches (index : IndexSt) : option bool :=
  match order_columns with
  | [] => Some true
  | o :: _ =>
      if ix_ts_pos index =? INVALID_POS then Some false
      else ts_column ← schema !! Z.to_nat (ix_ts_pos index); Some (bool_decide (col_name ts_column = o))
  end.

Fixpoint exact_index (column_set : gset (list Z)) (l : IndexHint) : option (option (list Z)) :=
  match l with
  | [] => Some None
  | (_, index) :: l' =>
      b ← order_matches index;
      if (b : bool) && bool_decide (column_set = key_set index) then Some (Some (ix_name index))
      else exact_index column_set l'
  end.

(** The better of the best index so far, of which the name is empty when there
    is none, and a new one. *)
Definition better_index (best new : list Z * list bool) : option (list Z * list bool) :=
  if bool_decide (best.1 = []) then Some new
  else
    org_index ← hint_at best.1 hint;
    new_index ← hint_at new.1 hint;
    Some (if (length (ix_keys org_index) <? length (ix_keys new_index))%nat then new else best).

(** The name and the bitmap of the index; the inner [None] is failure. *)
Fixpoint MatchBestIndex (fuel : nat) (bitmap : list bool) : option (option (list Z * list bool)) :=
  match fuel with
  | O => None
  | S fuel' =>
      if (1 <? length order_columns)%nat then Some None
      else
        exact ← exact_index (marked columns bitmap) hint;
        match exact with
        | Some name => Some (Some (name, bitmap))
        | None =>
            foldl (fun acc i =>
                best ← acc;
                match bitmap !! i with
                | Some true =>
                    sub ← MatchBestIndex fuel' (<[i := false]> bitmap);
                    match sub with
                    | None => Some best
                    | Some new =>
                        b ← better_index (default ([], []) best) new;
                        Some (Some b)
                    end
                | _ => Some best
                end)
              (Some None) (seq 0 (length bitmap))
        end
  end.
End Match.

(** ** Columns of a table behind a plan *)

Inductive ProviderType := kProviderTypeTable | kProviderTypePartition | kProviderTypeRequest.
Inductive PlanOp :=
| DataProvider (type : ProviderType) (table : TableIndexes) (index_name : list Z)
| SimpleProject
| Rename (name : list Z)
| OtherOp.
Inductive PlanNode := Plan (op : PlanOp) (ctx : SchemasContext) (ps : list PlanNode).

Fixpoint erase (n : PlanNode) : PhysicalOpNode := let 'Plan _ ctx ps := n in OpNode ctx (erase <$> ps).
Fixpoint node_at (path : list nat) (n : PlanNode) : option PlanNode :=
  match path with [] => Some n | i :: path' => let 'Plan _ _ ps := n in c ← ps !! i; node_at path' c end.
Definition plan_ctx (n : PlanNode) : SchemasContext := let 'Plan _ ctx _ := n in ctx.

Section Keys.
Context (colref : nat -> list Z * list Z).

(** [root] is the node whose context resolves the keys. *)
Definition ResolveColumnToSourceColumnName (x : nat) (root : PlanNode) : outcome (list Z) :=
  let '(relation, column) := colref x in
  let loose :=
    match ResolveColumnID_node relation column (erase root) with
    | Refused => if bool_decide (relation = []) then Refused else ResolveColumnID_node [] column (erase root)
    | r => r
    end in
  r <~ loose;
  match r_source_node r with
  | None => Refused
  | Some path =>
      n <~ access (node_at path root);
      match n with
      | Plan (DataProvider _ _ _) ctx _ => ResolveColumnNameByID (r_source_column_id r) ctx
      | _ => Refused
      end
  end.

(** The source columns of the keys that are column references, with their
    positions; [Refused] when one cannot be resolved. *)
Fixpoint key_columns (i : nat) (groups : list expr) (root : PlanNode) : outcome (list (nat * list Z)) :=
  match groups with
  | [] => Done []
  | VarNode x :: groups' =>
      name <~ ResolveColumnToSourceColumnName x root;
      rest <~ key_columns (S i) groups' root;
      Done ((i, name) :: rest)
  | _ :: groups' => key_columns (S i) groups' root
  end.
Fixpoint order_columns_of (order : OrderByNode) (root : PlanNode) : outcome (list (list Z)) :=
  match order with
  | [] => Done []
  | (Some (VarNode x), _) :: order' =>
      name <~ ResolveColumnToSourceColumnName x root;
      rest <~ order_columns_of order' root;
      Done (name :: rest)
  | _ :: order' => order_columns_of order' root
  end.

(** The marks of the positions of [columns] among the keys. *)
Fixpoint mark_keys (columns : list (nat * list Z)) (match_bitmap : list bool) (output_bitmap : list bool) : list bool :=
  match columns, match_bitmap with
  | (i, _) :: columns', b :: match_bitmap' =>
      mark_keys columns' match_bitmap' (if b : bool then <[i := true]> output_bitmap else output_bitmap)
  | _, _ => output_bitmap
  end.

(** The name of the index and the keys it serves. *)
Definition TransformKeysAndOrderExpr (root : PlanNode) (groups : list expr) (order : option OrderByNode)
    (table : TableIndexes) : outcome (list Z * list bool) :=
  columns <~ key_columns 0 groups root;
  order_columns <~ order_columns_of (default [] order) root;
  match columns with
  | [] => Refused
  | _ =>
      match tb_schema table with
      | None => Refused
      | Some schema =>
          m <~ access (MatchBestIndex columns.*2 order_columns (tb_index table) schema (S (length columns))
                         (replicate (length columns) true));
          match m with
          | None => Refused
          | Some (index_name, match_bitmap) =>
              if (length match_bitmap =? length columns)%nat
              then Done (index_name, mark_keys columns match_bitmap (replicate (length groups) false))
              else Refused
          end
      end
  end.

(** ** Splitting the keys *)

Definition pick {A} (b : bool) (bitmap : list bool) (l : list A) : list A :=
  base.omap (fun p => if Bool.eqb p.1 b then Some p.2 else None) (zip bitmap l).

(** The operators that the pass creates. *)
Inductive NewPlan := NewPartition (table : TableIndexes) (index_name : list Z) | NewSimpleProject (depend : NewPlan)
| NewRename (depend : NewPlan) (name : list Z).

Record KeysResult := mkKeysResult {
  kr_left_key : list expr;
  kr_index_key : list expr;
  kr_right_key : option (list expr);
  kr_sort : option (option OrderByNode);
  kr_new_in : NewPlan
}.

(** An order that an index provides keeps only its direction. *)
Definition clear_orders (sort : option (option OrderByNode)) : option (option OrderByNode) :=
  match sort with
  | Some (Some ((_, is_asc) :: _)) => Some (Some [(None, is_asc)])
  | _ => sort
  end.

(** [right_key] and [sort] are optional pointers. *)
Fixpoint KeysOptimized (root : PlanNode) (node : PlanNode) (left_key : Key) (right_key : option Key)
    (sort : option (option OrderByNode)) : outcome KeysResult :=
  if negb (ValidKey left_key) || match right_key with Some k => negb (ValidKey k) | None => false end then Refused
  else
    let left := default [] left_key in
    match node with
    | Plan (DataProvider kProviderTypeTable table _) _ _ =>
        let right_partition := match right_key with None => left | Some k => default [] k end in
        r <~ TransformKeysAndOrderExpr root right_partition (mjoin sort) table;
        Done (mkKeysResult (pick false r.2 left) (pick true r.2 left)
                (match right_key with Some k => Some (pick false r.2 (default [] k)) | None => None end)
                (clear_orders sort) (NewPartition table r.1))
    | Plan SimpleProject _ [p] =>
        r <~ KeysOptimized root p left_key right_key sort;
        Done (mkKeysResult (kr_left_key r) (kr_index_key r) (kr_right_key r) (kr_sort r) (NewSimpleProject (kr_new_in r)))
    | Plan (Rename name) _ [p] =>
        r <~ KeysOptimized root p left_key right_key sort;
        Done (mkKeysResult (kr_left_key r) (kr_index_key r) (kr_right_key r) (kr_sort r) (NewRename (kr_new_in r) name))
    | _ => Refused
    end.

(** Groups, windows and their unions: the index keys are thrown away by the
    callers without one. *)
Definition KeysAndOrderFilterOptimized (root node : PlanNode) (group : Key) (sort : option (option OrderByNode))
  : outcome KeysResult := KeysOptimized root node group None sort.
Definition FilterAndOrderOptimized (root node : PlanNode) (filter : Filter) (sort : option (option OrderByNode))
  : outcome (Filter * KeysResult) :=
  r <~ KeysOptimized root node (left_key_ filter) (Some (right_key_ filter)) sort;
  Done (mkFilter (condition_ filter) (Some (kr_left_key r)) (kr_right_key r) (Some (kr_index_key r)), r).
Definition JoinKeysOptimized (root node : PlanNode) (join : Join) : outcome (Join * KeysResult) :=
  r <~ FilterAndOrderOptimized root node (join_filter join) (Some (right_sort_ join));
  Done (mkJoin r.1 (join_type_ join) (match kr_sort r.2 with Some s => s | None => right_sort_ join end), r.2).

(** ** Orders that the index of a partition provides *)

Fixpoint find_order (i : nat) (order : OrderByNode) (ts_name : list Z) (root : PlanNode) : outcome (option nat) :=
  match order with
  | [] => Done None
  | (Some (VarNode x), _) :: order' =>
      match ResolveColumnToSourceColumnName x root with
      | Undefined => Undefined
      | Done name => if bool_decide (ts_name = name) then Done (Some i) else find_order (S i) order' ts_name root
      | Refused => find_order (S i) order' ts_name root
      end
  | _ :: order' => find_order (S i) order' ts_name root
  end.

(** Whether the order was changed, and the order. *)
Definition TransformOrderExpr (root : PlanNode) (order : option OrderByNode) (schema : list ColumnDef) (index : IndexSt)
  : outcome (bool * option OrderByNode) :=
  match order with
  | None => Done (false, None)
  | Some l =>
      if ix_ts_pos index =? INVALID_POS then Done (false, order)
      else
        ts_column <~ access (schema !! Z.to_nat (ix_ts_pos index));
        succ_match <~ find_order 0 l (col_name ts_column) root;
        Done match succ_match with
        | Some i => (true, Some (take i l ++ drop (S i) l))
        | None => (false, order)
        end
  end.
End Keys.
