(* ===== verification/IndexMatchProof.v ===== *)
(** * The best index for a set of keys

    [MatchBestIndex] tries all subsets of the keys; it finds an index exactly
    when the columns of one are among the keys, and then one with the most
    columns. *)

From stdpp Require Import base numbers option list gmap.
From S2P Require Import Prelude Layout RowFormat CompiledCodec SchemasContext SchemasProof Llvm ExprTypes ExprBuilder Expr ExprProof ExprSem Conditions ConditionsProof IndexMatch.

(** ** Marked columns *)

Lemma marked_elem columns bitmap c :
  c ∈ marked columns bitmap <-> exists i, columns !! i = Some c /\ bitmap !! i = Some true.
Proof.
  revert bitmap. induction columns as [|d columns IH]; intros [|b bitmap]; cbn [marked].
  - rewrite elem_of_empty. split; [done|by intros (i & ? & _)].
  - rewrite elem_of_empty. split; [done|by intros (i & ? & _)].
  - rewrite elem_of_empty. split; [done|by intros (i & _ & ?)].
  - rewrite elem_of_union, IH. split.
    + intros [H|(i & H1 & H2)]; [|by exists (S i)]. destruct b; [|by apply elem_of_empty in H].
      apply elem_of_singleton in H as ->. by exists 0%nat.
    + intros ([|i] & H1 & H2); cbn in H1, H2; [left|right; by exists i]. injection H1 as <-. injection H2 as ->.
      by apply elem_of_singleton.
Qed.

Lemma marked_mono columns bm bm' : (forall i, bm !! i = Some true -> bm' !! i = Some true) -> marked columns bm ⊆ marked columns bm'.
Proof. intros H c (i & H1 & H2)%marked_elem. apply marked_elem. exists i. split; [done|by apply H]. Qed.

(** The number of marks. *)
Definition marks (bitmap : list bool) : nat := length (base.filter (fun b => b = true) bitmap).

Lemma marks_unset bitmap i : bitmap !! i = Some true -> marks bitmap = S (marks (<[i := false]> bitmap)).
Proof.
  unfold marks. revert i. induction bitmap as [|b bitmap IH]; intros [|i] H; try done.
  - injection H as ->. done.
  - cbn [list_insert insert]. rewrite !filter_cons. rewrite lookup_cons in H. pose proof (IH i H) as E.
    destruct (decide (b = true)); cbn [length]; [|exact E]. f_equal. exact E.
Qed.

Section Match.
Context (columns order_columns : list (list Z)) (hint : IndexHint) (schema : list ColumnDef).

(** Indexes as the catalog has them: under their names, on different columns,
    with a time stamp column of the schema or none. *)
Definition hint_ok : Prop :=
  NoDup hint.*1 /\
  Forall (fun e => ix_name e.2 = e.1 /\ e.1 <> [] /\ NoDup (ix_keys e.2) /\
    (ix_ts_pos e.2 = INVALID_POS \/ (Z.to_nat (ix_ts_pos e.2) < length schema)%nat)) hint.

(** An index that can provide the order. *)
Definition usable (index : IndexSt) : Prop :=
  exists name, (name, index) ∈ hint /\ order_matches order_columns schema index = Some true.

Context (Hok : hint_ok).

Lemma order_total e : e ∈ hint -> is_Some (order_matches order_columns schema e.2).
Proof.
  intros He. destruct Hok as [_ Hall]. apply (proj1 (Forall_forall _ _) Hall) in He as (_ & _ & _ & Hts).
  unfold order_matches. destruct order_columns as [|o l]; [by eexists|]. destruct (Z.eqb_spec (ix_ts_pos e.2) INVALID_POS); [by eexists|].
  destruct Hts as [|Hts]; [done|]. apply lookup_lt_is_Some_2 in Hts as [c ->]. by eexists.
Qed.

Lemma exact_index_spec s l : Forall (fun e => e ∈ hint) l ->
  exists r, exact_index order_columns schema s l = Some r /\
    match r with
    | Some name => exists e, e ∈ l /\ ix_name e.2 = name /\ order_matches order_columns schema e.2 = Some true /\ s = key_set e.2
    | None => forall e, e ∈ l -> order_matches order_columns schema e.2 = Some true -> s <> key_set e.2
    end.
Proof.
  induction 1 as [|[name index] l He _ IH]; cbn [exact_index].
  { exists None. split; [done|]. intros e He. by apply elem_of_nil in He. }
  destruct (order_total _ He) as [b Hb]. cbn in Hb. rewrite Hb. cbn [mbind option_bind].
  destruct (b && bool_decide (s = key_set index)) eqn:E.
  - apply andb_true_iff in E as [-> E%bool_decide_eq_true]. eexists. split; [done|]. exists (name, index). split_and!; try done. left.
  - destruct IH as (r & -> & Hr). exists r. split; [done|]. destruct r as [n|].
    + destruct Hr as (e & H1 & H2). exists e. split; [by right|done].
    + intros e Hin Hm. apply elem_of_cons in Hin as [->|Hin]; [|by apply Hr]. cbn in Hm. assert (b = true) as -> by congruence.
      by apply bool_decide_eq_false in E.
Qed.

Lemma hint_at_name name index : (name, index) ∈ hint -> hint_at name hint = Some index.
Proof.
  intros Hin. unfold hint_at. destruct Hok as [Hnd _]. apply list_elem_of_lookup_1 in Hin as [i Hi].
  assert (list_find (fun e => e.1 = name) hint = Some (i, (name, index))) as ->; [|done].
  apply list_find_Some. split_and!; [done|done|]. intros j y Hj Hlt E.
  assert (j = i); [|lia]. apply (NoDup_lookup hint.*1 j i name Hnd); rewrite list_lookup_fmap; [by rewrite Hj, <- E|by rewrite Hi].
Qed.

(** The names of indexes are those of the map. *)
Lemma named e : e ∈ hint -> ix_name e.2 = e.1 /\ e.1 <> [] /\ NoDup (ix_keys e.2).
Proof. intros He. destruct Hok as [_ Hall]. apply (proj1 (Forall_forall _ _) Hall) in He. tauto. Qed.

(** What is promised for a bitmap. *)
Definition answers (bitmap : list bool) (r : option (list Z * list bool)) : Prop :=
  match r with
  | Some (name, bm) =>
      length bm = length bitmap /\ (forall i, bm !! i = Some true -> bitmap !! i = Some true) /\
      exists index, (name, index) ∈ hint /\ order_matches order_columns schema index = Some true /\
        marked columns bm = key_set index /\
        forall index', usable index' -> key_set index' ⊆ marked columns bitmap ->
          (length (ix_keys index') <= length (ix_keys index))%nat
  | None => forall index', usable index' -> ~ key_set index' ⊆ marked columns bitmap
  end.

Lemma keys_size index : NoDup (ix_keys index) -> size (key_set index) = length (ix_keys index).
Proof. intros H. unfold key_set. by rewrite size_list_to_set. Qed.

Lemma usable_named index : usable index -> exists e, e ∈ hint /\ e.2 = index /\ NoDup (ix_keys index).
Proof. intros (name & Hin & _). exists (name, index). pose proof (named _ Hin) as (_ & _ & Hn). by split_and!. Qed.

(** The partial maximum of the loop after the first positions. *)
Definition loop_ok (bitmap : list bool) (n : nat) (best : option (list Z * list bool)) : Prop :=
  match best with
  | Some (name, bm) =>
      length bm = length bitmap /\ (forall i, bm !! i = Some true -> bitmap !! i = Some true) /\
      exists index, (name, index) ∈ hint /\ order_matches order_columns schema index = Some true /\
        marked columns bm = key_set index /\
        forall i index', (i < n)%nat -> bitmap !! i = Some true -> usable index' ->
          key_set index' ⊆ marked columns (<[i := false]> bitmap) -> (length (ix_keys index') <= length (ix_keys index))%nat
  | None => forall i index', (i < n)%nat -> bitmap !! i = Some true -> usable index' ->
      ~ key_set index' ⊆ marked columns (<[i := false]> bitmap)
  end.

(** One turn of the loop. *)
Lemma loop_turn bitmap n best sub :
  loop_ok bitmap n best -> bitmap !! n = Some true -> answers (<[n := false]> bitmap) sub ->
  exists best', match sub with
      | None => Some best
      | Some new => b ← better_index hint (default ([], []) best) new; Some (Some b)
      end = Some best' /\ loop_ok bitmap (S n) best'.
Proof.
  intros Hbest Hn Hsub.
  assert (forall bm : list bool, (forall i, bm !! i = Some true -> <[n:=false]> bitmap !! i = Some true) ->
    forall i, bm !! i = Some true -> bitmap !! i = Some true) as Hless.
  { intros bm H i Hi. specialize (H i Hi). destruct (decide (i = n)) as [->|Hne]; [done|]. by rewrite list_lookup_insert_ne in H. }
  destruct sub as [[name bm]|].
  - destruct Hsub as (Hl & Hsub & index & Hin & Ho & Hm & Hmax). rewrite length_insert in Hl.
    destruct best as [[name0 bm0]|]; cbn [default from_option id].
    + destruct Hbest as (Hl0 & Hsub0 & index0 & Hin0 & Ho0 & Hm0 & Hmax0). unfold better_index. cbn [fst].
      pose proof (named _ Hin0) as (_ & Hne & _). cbn in Hne. rewrite bool_decide_false by done.
      rewrite (hint_at_name _ _ Hin0), (hint_at_name _ _ Hin). cbn [mbind option_bind].
      destruct (Nat.ltb_spec (length (ix_keys index0)) (length (ix_keys index))) as [Hlt|Hge].
      * eexists. split; [done|]. split_and!; [done|by apply Hless|]. exists index. split_and!; try done.
        intros i index' Hi Hb Hu Hk. destruct (decide (i = n)) as [->|Hne']; [by apply Hmax|].
        pose proof (Hmax0 i index' ltac:(lia) Hb Hu Hk). lia.
      * eexists. split; [done|]. split_and!; [done..|]. exists index0. split_and!; try done.
        intros i index' Hi Hb Hu Hk. destruct (decide (i = n)) as [->|Hne']; [|by apply (Hmax0 i); [lia|..]].
        pose proof (Hmax index' Hu Hk). lia.
    + unfold better_index. cbn [fst]. rewrite bool_decide_true by done. eexists. split; [done|]. cbn.
      split_and!; [done|by apply Hless|]. exists index. split_and!; try done.
      intros i index' Hi Hb Hu Hk. destruct (decide (i = n)) as [->|Hne']; [by apply Hmax|].
      by destruct (Hbest i index' ltac:(lia) Hb Hu).
  - exists best. split; [done|]. destruct best as [[name0 bm0]|].
    + destruct Hbest as (Hl0 & Hsub0 & index0 & Hin0 & Ho0 & Hm0 & Hmax0). split_and!; [done..|]. exists index0. split_and!; try done.
      intros i index' Hi Hb Hu Hk. destruct (decide (i = n)) as [->|Hne']; [by destruct (Hsub index')|by apply (Hmax0 i); [lia|..]].
    + intros i index' Hi Hb Hu Hk. destruct (decide (i = n)) as [->|Hne']; [by apply (Hsub index')|by apply (Hbest i index'); [lia|..]].
Qed.

(** A proper subset of the marked columns misses a marked position. *)
Lemma missing_column bitmap s : length bitmap = length columns -> s ⊆ marked columns bitmap -> marked columns bitmap <> s ->
  exists i, bitmap !! i = Some true /\ s ⊆ marked columns (<[i := false]> bitmap).
Proof.
  intros Hlen Hs Hne. assert (exists c, c ∈ marked columns bitmap /\ c ∉ s) as (c & Hc & Hcs).
  { destruct (decide (marked columns bitmap ⊆ s)) as [H|H]; [exfalso; apply Hne; by apply set_eq_subseteq|].
    destruct (set_choose_or_empty (marked columns bitmap ∖ s)) as [[c Hc]|E].
    - apply elem_of_difference in Hc as [H1 H2]. by exists c.
    - exfalso. apply H. intros c Hc. destruct (decide (c ∈ s)); [done|]. assert (c ∈ marked columns bitmap ∖ s) as H1 by (by apply elem_of_difference).
      rewrite E in H1. by apply elem_of_empty in H1. }
  pose proof Hc as (i & Hi & Hb)%marked_elem. exists i. split; [done|]. intros d Hd.
  pose proof (Hs d Hd) as (j & Hj & Hbj)%marked_elem. apply marked_elem. exists j. split; [done|].
  rewrite list_lookup_insert_ne; [done|]. intros <-. assert (c = d) as -> by congruence. done.
Qed.

Lemma MatchBestIndex_spec fuel : forall bitmap, length bitmap = length columns -> (marks bitmap < fuel)%nat ->
  (length order_columns <= 1)%nat ->
  exists r, MatchBestIndex columns order_columns hint schema fuel bitmap = Some r /\ answers bitmap r.
Proof.
  induction fuel as [|fuel IH]; intros bitmap Hlen Hf Ho; [lia|]. cbn [MatchBestIndex].
  destruct (Nat.ltb_spec 1 (length order_columns)) as [?|_]; [lia|].
  destruct (exact_index_spec (marked columns bitmap) hint) as (ex & -> & Hex); [by apply Forall_forall|]. cbn [mbind option_bind].
  destruct ex as [name|].
  - destruct Hex as ([name' index] & Hin & Hname & Hm & Hset). eexists. split; [done|]. cbn [snd] in *.
    pose proof (named _ Hin) as (En & _ & Hnd). cbn in En, Hnd. assert (name' = name) as -> by congruence.
    split_and!; [done|done|]. exists index. split_and!; [done..|]. intros index' Hu Hk. rewrite Hset in Hk.
    destruct (usable_named _ Hu) as (e' & _ & _ & Hnd'). rewrite <- (keys_size index), <- (keys_size index') by done. by apply subseteq_size.
  - set (step := fun acc i => _).
    assert (forall n, (n <= length bitmap)%nat -> exists best, foldl step (Some None) (seq 0 n) = Some best /\ loop_ok bitmap n best) as Hloop.
    { induction n as [|n IHn]; intros Hn.
      { exists None. split; [done|]. intros i index' Hi. lia. }
      destruct IHn as (best & Eb & Hb); [lia|]. rewrite seq_S, foldl_app, Eb. cbn [foldl]. unfold step at 1. cbn [mbind option_bind Nat.add].
      destruct (lookup_lt_is_Some_2 bitmap n) as [b Hbn]; [lia|]. rewrite Hbn. destruct b.
      - destruct (IH (<[n := false]> bitmap)) as (sub & -> & Hsub); [by rewrite length_insert| |done|].
        { rewrite (marks_unset bitmap n Hbn) in Hf. lia. }
        cbn [mbind option_bind]. by apply loop_turn.
      - exists best. split; [done|]. destruct best as [[name0 bm0]|].
        + destruct Hb as (Hl0 & Hsub0 & index0 & Hin0 & Ho0 & Hm0 & Hmax0). split_and!; [done..|]. exists index0. split_and!; try done.
          intros i index' Hi Hbi. assert (i <> n) by congruence. apply Hmax0; [lia|done].
        + intros i index' Hi Hbi. assert (i <> n) by congruence. apply Hb; [lia|done]. }
    destruct (Hloop (length bitmap) ltac:(lia)) as (best & -> & Hb). exists best. split; [done|].
    assert (forall index', usable index' -> key_set index' ⊆ marked columns bitmap ->
      exists i, (i < length bitmap)%nat /\ bitmap !! i = Some true /\ key_set index' ⊆ marked columns (<[i := false]> bitmap)) as Hmiss.
    { intros index' Hu Hk. destruct (missing_column bitmap (key_set index') Hlen Hk) as (i & Hi & Hk').
      - destruct Hu as (name & Hin & Hm). exact (Hex _ Hin Hm).
      - exists i. split_and!; [by apply lookup_lt_Some in Hi|done..]. }
    destruct best as [[name bm]|].
    + destruct Hb as (Hl0 & Hsub0 & index0 & Hin0 & Ho0 & Hm0 & Hmax0). split_and!; [done..|]. exists index0. split_and!; try done.
      intros index' Hu Hk. destruct (Hmiss index' Hu Hk) as (i & Hi & Hbi & Hk'). by apply (Hmax0 i).
    + intros index' Hu Hk. destruct (Hmiss index' Hu Hk) as (i & Hi & Hbi & Hk'). by apply (Hb i index').
Qed.
End Match.

(** C33: the choice of an index is right. For a table whose indexes are stored
    under their names and have different columns, the search over the subsets
    of the key columns always returns, and it finds an index exactly when the
    columns of some index with the required time stamp are among the keys. The
    index found has the required time stamp and the most columns of all such
    indexes, and the marked keys are exactly its columns. *)
Theorem match_best_index columns order_columns hint schema :
  hint_ok hint schema -> (length order_columns <= 1)%nat ->
  exists r, MatchBestIndex columns order_columns hint schema (S (length columns)) (replicate (length columns) true) = Some r /\
    match r with
    | Some (name, bm) => length bm = length columns /\
        exists index, (name, index) ∈ hint /\ order_matches order_columns schema index = Some true /\
          marked columns bm = key_set index /\
          forall index', usable order_columns hint schema index' -> key_set index' ⊆ list_to_set columns ->
            (length (ix_keys index') <= length (ix_keys index))%nat
    | None => forall index', usable order_columns hint schema index' -> ~ key_set index' ⊆ list_to_set columns
    end.
Proof.
  intros Hok Ho.
  assert (marked columns (replicate (length columns) true) = list_to_set columns) as Hall.
  { induction columns as [|c columns IH]; cbn; [done|]. by rewrite IH. }
  destruct (MatchBestIndex_spec columns order_columns hint schema Hok (S (length columns)) (replicate (length columns) true))
    as (r & E & Hr).
  - by rewrite length_replicate.
  - unfold marks. assert (length (base.filter (fun b => b = true) (replicate (length columns) true)) <= length columns)%nat; [|lia].
    rewrite <- (length_replicate (length columns) true) at 2. apply length_filter.
  - done.
  - exists r. split; [done|]. unfold answers in Hr. rewrite Hall in Hr. destruct r as [[name bm]|]; [|done].
    destruct Hr as (Hl & _ & Hr). rewrite length_replicate in Hl. by split.
Qed.

(** ** Keys that an index serves *)

Lemma mark_keys_lookup cols mb out i :
  length mb = length cols -> Forall (fun c => (c.1 < length out)%nat) cols ->
  mark_keys cols mb out !! i = Some true <->
    out !! i = Some true \/ exists k name, cols !! k = Some (i, name) /\ mb !! k = Some true.
Proof.
  revert mb out. induction cols as [|[j n] cols IH]; intros [|b mb] out Hl Hlt; try done; cbn [mark_keys].
  - split; [by left|]. by intros [|(k & name & ? & _)].
  - apply Forall_cons_1 in Hlt as [Hj Hlt]. cbn [fst] in Hj. injection Hl as Hl.
    rewrite IH; [|done|destruct b; [by rewrite length_insert|done]]. split.
    + intros [H|(k & name & H1 & H2)]; [|right; by exists (S k), name]. destruct b; [|by left].
      destruct (decide (i = j)) as [->|Hne]; [right; by exists 0%nat, n|left; by rewrite list_lookup_insert_ne in H].
    + intros [H|(k & name & H1 & H2)].
      * left. destruct b; [|done]. destruct (decide (i = j)) as [->|Hne]; [by apply list_lookup_insert_eq|by rewrite list_lookup_insert_ne].
      * destruct k as [|k]; cbn in H1, H2; [|right; by exists k, name]. injection H1 as -> ->. injection H2 as ->. left.
        by apply list_lookup_insert_eq.
Qed.

Lemma mark_keys_length cols mb out : length (mark_keys cols mb out) = length out.
Proof. revert mb out. induction cols as [|[j n] cols IH]; intros [|[] mb] out; cbn; rewrite ?IH, ?length_insert; done. Qed.

Section Keys.
Context (colref : nat -> list Z * list Z) (root : PlanNode).

(** The source column of a key that is a column reference. *)
Definition source_column (e : expr) (name : list Z) : Prop :=
  match e with VarNode x => ResolveColumnToSourceColumnName colref x root = Done name | _ => False end.

Lemma key_columns_spec groups i cols : key_columns colref i groups root = Done cols ->
  Forall (fun c => (i <= c.1 < i + length groups)%nat) cols /\
  (forall j name, (j, name) ∈ cols <-> exists e, groups !! (j - i)%nat = Some e /\ (i <= j)%nat /\ source_column e name) /\
  NoDup cols.*1.
Proof.
  revert i cols. induction groups as [|e groups IH]; intros i cols E.
  { injection E as <-. split_and!; [constructor| |constructor]. intros j name. rewrite elem_of_nil.
    split; [done|]. intros (e & He & _). by rewrite lookup_nil in He. }
  assert (forall rest, key_columns colref (S i) groups root = Done rest ->
    Forall (fun c => (i <= c.1 < i + S (length groups))%nat) rest /\
    (forall j name, (j, name) ∈ rest -> i <> j) /\
    (forall j name, i <> j -> (j, name) ∈ rest <-> exists e', (e :: groups) !! (j - i)%nat = Some e' /\ (i <= j)%nat /\ source_column e' name) /\
    NoDup rest.*1) as Hrest.
  { intros rest Er. destruct (IH (S i) rest Er) as (H1 & H2 & H3). split_and!.
    - eapply Forall_impl; [exact H1|]. intros c Hc. cbn in Hc. lia.
    - intros j name Hj. pose proof (proj1 (Forall_forall _ _) H1 _ Hj) as Hc. cbn in Hc. lia.
    - intros j name Hne. rewrite H2. split; intros (e' & He & Hj & Hs); exists e'; split_and!; try done; try lia.
      + replace (j - i)%nat with (S (j - S i)) by lia. exact He.
      + replace (j - i)%nat with (S (j - S i)) in He by lia. exact He.
    - done. }
  assert (key_columns colref (S i) groups root = Done cols -> (forall name, ~ source_column e name) ->
    Forall (fun c => (i <= c.1 < i + S (length groups))%nat) cols /\
    (forall j name, (j, name) ∈ cols <-> exists e', (e :: groups) !! (j - i)%nat = Some e' /\ (i <= j)%nat /\ source_column e' name) /\
    NoDup cols.*1) as Hskip.
  { intros Er Hn. destruct (Hrest cols Er) as (H1 & H2 & H3 & H4). split_and!; [done| |done]. intros j name.
    destruct (decide (i = j)) as [<-|Hne]; [|by apply H3]. split; [by intros Hj; destruct (H2 i name Hj)|].
    intros (e' & He & _ & Hs). replace (i - i)%nat with 0%nat in He by lia. injection He as <-. by destruct (Hn name). }
  cbn [length]. destruct e as [|x| | | | |]; cbn [key_columns] in E; try (apply Hskip; [exact E|by intros ? []]).
  destruct (ResolveColumnToSourceColumnName colref x root) as [| |name0] eqn:Ex; [done..|]. cbn [obind] in E.
  destruct (key_columns colref (S i) groups root) as [| |rest] eqn:Er; [done..|]. cbn [obind] in E. injection E as <-.
  destruct (Hrest rest eq_refl) as (H1 & H2 & H3 & H4). split_and!.
  - constructor; [cbn; lia|done].
  - intros j name. rewrite elem_of_cons. destruct (decide (i = j)) as [<-|Hne].
    + replace (i - i)%nat with 0%nat by lia. split.
      * intros [[= ->]|Hj]; [by exists (VarNode x)|by destruct (H2 i name Hj)].
      * intros (e' & [= <-] & _ & Hs). cbn in Hs. left. congruence.
    + rewrite <- H3 by done. split; [intros [[= -> _]|?]; done|by right].
  - cbn [fmap list_fmap]. constructor; [|done]. intros Hi. apply list_elem_of_fmap in Hi as ([j n] & Hj & Hin). cbn in Hj. subst j.
    by apply (H2 i n).
Qed.

Lemma obind_Done {A B} (f : A -> outcome B) x b : obind f x = Done b -> exists a, x = Done a /\ f a = Done b.
Proof. destruct x as [| |a]; [done..|]. intros E. by exists a. Qed.
Lemma access_Done {A} (x : option A) a : access x = Done a -> x = Some a.
Proof. destruct x; [by intros [= ->]|done]. Qed.

(** The tables of a plan. *)
Definition table_ok (table : TableIndexes) : Prop := forall schema, tb_schema table = Some schema -> hint_ok (tb_index table) schema.

(** An index of the table whose columns are the source columns of the marked
    keys. *)
Definition serves (table : TableIndexes) (name : list Z) (keys : list expr) (bm : list bool) : Prop :=
  length bm = length keys /\
  exists index, (name, index) ∈ tb_index table /\
    (forall c, c ∈ key_set index <-> exists i e, keys !! i = Some e /\ bm !! i = Some true /\ source_column e c) /\
    (forall i e, keys !! i = Some e -> bm !! i = Some true -> exists c, source_column e c).

Lemma transform_keys_spec groups order table name bm : table_ok table ->
  TransformKeysAndOrderExpr colref root groups order table = Done (name, bm) -> serves table name groups bm.
Proof.
  intros Hok E. unfold TransformKeysAndOrderExpr in E. apply obind_Done in E as (cols & Ec & E).
  apply obind_Done in E as (ocols & Eo & E). destruct cols as [|c0 cols']; [done|]. set (cols := c0 :: cols') in *.
  destruct (tb_schema table) as [schema|] eqn:Es; [|done]. apply obind_Done in E as (m & Em%access_Done & E).
  destruct m as [[index_name mb]|]; [|done]. destruct (Nat.eqb_spec (length mb) (length cols)) as [Hl|]; [|done].
  assert (name = index_name /\ bm = mark_keys cols mb (replicate (length groups) false)) as [-> ->] by (split; congruence). clear E.
  assert (length ocols <= 1)%nat as Ho.
  { destruct (decide (length ocols <= 1)%nat); [done|]. cbn [MatchBestIndex] in Em.
    destruct (Nat.ltb_spec 1 (length ocols)) as [?|?]; [done|lia]. }
  destruct (MatchBestIndex_spec cols.*2 ocols (tb_index table) schema (Hok schema Es) (S (length cols)) (replicate (length cols) true))
    as (r & Er & Hr); [by rewrite length_replicate, length_fmap| |done|].
  { unfold marks. assert (length (base.filter (fun b => b = true) (replicate (length cols) true)) <= length cols)%nat; [|lia].
    rewrite <- (length_replicate (length cols) true) at 2. apply length_filter. }
  rewrite Em in Er. injection Er as <-. destruct Hr as (_ & _ & index & Hin & _ & Hm & _).
  destruct (key_columns_spec groups 0 cols Ec) as (H1 & H2 & H3).
  assert (forall i, mark_keys cols mb (replicate (length groups) false) !! i = Some true <->
    exists k n, cols !! k = Some (i, n) /\ mb !! k = Some true) as Hmark.
  { intros i. rewrite mark_keys_lookup; [|done|].
    - split; [|by right]. intros [H|H]; [|done]. by apply lookup_replicate in H as [H _].
    - rewrite length_replicate. eapply Forall_impl; [exact H1|]. intros c Hc. cbn in Hc. lia. }
  split; [by rewrite mark_keys_length, length_replicate|]. exists index. split_and!; [done| |].
  - intros c. rewrite <- Hm, marked_elem. split.
    + intros (k & Hk & Hb). rewrite list_lookup_fmap in Hk. apply fmap_Some in Hk as ([i n] & Hk & ->).
      pose proof (list_elem_of_lookup_2 _ _ _ Hk) as (e & He & _ & Hs)%H2. rewrite Nat.sub_0_r in He.
      exists i, e. split_and!; [done| |done]. apply Hmark. by exists k, n.
    + intros (i & e & He & Hb & Hs). apply Hmark in Hb as (k & n & Hk & Hb). exists k. split; [|done].
      rewrite list_lookup_fmap, Hk. cbn. f_equal.
      pose proof (list_elem_of_lookup_2 _ _ _ Hk) as (e' & He' & _ & Hs')%H2. rewrite Nat.sub_0_r in He'.
      assert (e' = e) as -> by congruence. destruct e as [|x| | | | |]; try done. cbn in Hs, Hs'. congruence.
  - intros i e He Hb. apply Hmark in Hb as (k & n & Hk & Hb). exists n.
    pose proof (list_elem_of_lookup_2 _ _ _ Hk) as (e' & He' & _ & Hs')%H2. rewrite Nat.sub_0_r in He'. by assert (e' = e) as -> by congruence.
Qed.

(** Induction over chains of operators with one input. *)
Lemma plan_unary_ind (P : PlanNode -> Prop) :
  (forall op ctx ps, (forall p, ps = [p] -> P p) -> P (Plan op ctx ps)) -> forall n, P n.
Proof. intros H. fix IH 1. intros [op ctx ps]. apply H. destruct ps as [|p ps']; [discriminate|]. intros q [= <- _]. apply IH. Qed.

(** The table under the projections and renamings of a plan. *)
Fixpoint base_table (n : PlanNode) : option TableIndexes :=
  match n with
  | Plan (DataProvider kProviderTypeTable table _) _ _ => Some table
  | Plan SimpleProject _ [p] | Plan (Rename _) _ [p] => base_table p
  | _ => None
  end.
Fixpoint new_base (n : NewPlan) : TableIndexes * list Z :=
  match n with NewPartition table name => (table, name) | NewSimpleProject d | NewRename d _ => new_base d end.

Lemma keys_optimized_spec left_key right_key sort : forall node r,
  (forall table, base_table node = Some table -> table_ok table) ->
  KeysOptimized colref root node left_key right_key sort = Done r ->
  exists table name bm, base_table node = Some table /\ new_base (kr_new_in r) = (table, name) /\
    serves table name (default [] (default left_key right_key)) bm /\
    kr_left_key r = pick false bm (default [] left_key) /\ kr_index_key r = pick true bm (default [] left_key) /\
    kr_right_key r = (fun k => pick false bm (default [] k)) <$> right_key /\ kr_sort r = clear_orders sort.
Proof.
  induction node as [op ctx ps IH] using plan_unary_ind. intros r Ht E. cbn [KeysOptimized] in E.
  destruct (_ || _); [done|]. destruct op as [type table iname| |name|]; [|..|done].
  - destruct type; try done. apply obind_Done in E as ([name bm] & E & Er). injection Er as <-.
    exists table, name, bm. split_and!; [done|done| |done|done|by destruct right_key|done].
    replace (default [] (default left_key right_key)) with (match right_key with None => default [] left_key | Some k => default [] k end)
      by (by destruct right_key). by eapply transform_keys_spec; [apply Ht|].
  - destruct ps as [|p [|? ?]]; try done. apply obind_Done in E as (r' & E & Er). injection Er as <-.
    destruct (IH p eq_refl r') as (table & name & bm & H); [exact Ht|exact E|]. by exists table, name, bm.
  - destruct ps as [|p [|? ?]]; try done. apply obind_Done in E as (r' & E & Er). injection Er as <-.
    destruct (IH p eq_refl r') as (table & n & bm & H); [exact Ht|exact E|]. by exists table, n, bm.
Qed.
End Keys.

(** ** Samples *)

Module SampleIndex.
Import SamplePlan SampleConditions.
Definition a_name : list Z := [97].
Definition b_name : list Z := [98].
Definition table : TableIndexes :=
  mkTable (Some left_cols)
    [([105; 49], mkIndex [105; 49] INVALID_POS [a_name]); ([105; 50], mkIndex [105; 50] INVALID_POS [a_name; b_name])].
Definition one_index : TableIndexes := mkTable (Some left_cols) [([105; 49], mkIndex [105; 49] INVALID_POS [a_name])].
Definition node (t : TableIndexes) : PlanNode := Plan (DataProvider kProviderTypeTable t []) left [].
(** [l.x = t1.b AND l.y = t1.a]: the keys of the left side are variables 4, 5. *)
Definition join : Join := mkJoin (mkFilter None (Some [VarNode 4; VarNode 5]) (Some [VarNode 2; VarNode 1]) None) kJoinTypeLast None.
Definition twice : Join := mkJoin (mkFilter None (Some [VarNode 4; VarNode 5]) (Some [VarNode 1; VarNode 1]) None) kJoinTypeLast None.

Lemma table_valid : table_ok table /\ table_ok one_index.
Proof.
  split; intros schema _; (split; [apply NoDup_ListNoDup; repeat constructor; cbn; intuition discriminate|]);
    repeat constructor; cbn; try (by left); try set_solver; try discriminate.
Qed.
End SampleIndex.

Lemma match_best_index_witness :
  exists r, MatchBestIndex [SampleIndex.b_name; SampleIndex.a_name] [] (tb_index SampleIndex.table) SamplePlan.left_cols 3
    [true; true] = Some r.
Proof.
  destruct (match_best_index [SampleIndex.b_name; SampleIndex.a_name] [] (tb_index SampleIndex.table) SamplePlan.left_cols)
    as (r & E & _).
  - exact (proj1 SampleIndex.table_valid _ eq_refl).
  - cbn. lia.
  - exists r. exact E.
Defined.

(** The keys that look up an index are in the order of the query: for an index
    on (a, b) and the condition x = b AND y = a they are x, y, although rows are
    stored under the text of a, then b. *)
Lemma index_key_order :
  exists join' r, JoinKeysOptimized SampleConditions.colref (SampleIndex.node SampleIndex.table) (SampleIndex.node SampleIndex.table)
      SampleIndex.join = Done (join', r) /\
    new_base (kr_new_in r) = (SampleIndex.table, [105; 50]) /\
    index_key_ (join_filter join') = Some [VarNode 4; VarNode 5] /\ left_key_ (join_filter join') = Some [].
Proof. eexists _, _. vm_compute. split_and!; reflexivity. Qed.

(** Two keys on the same column are both served by an index on that column:
    the lookup has two parts for an index with one. *)
Lemma index_key_twice :
  exists join' r, JoinKeysOptimized SampleConditions.colref (SampleIndex.node SampleIndex.one_index) (SampleIndex.node SampleIndex.one_index)
      SampleIndex.twice = Done (join', r) /\
    new_base (kr_new_in r) = (SampleIndex.one_index, [105; 49]) /\
    index_key_ (join_filter join') = Some [VarNode 4; VarNode 5] /\ left_key_ (join_filter join') = Some [].
Proof. eexists _, _. vm_compute. split_and!; reflexivity. Qed.
