(* ===== verification/Limits.v ===== *)
(** * Pushing limits down

    Models [src/passes/physical/limit_optimized.cc] on plans whose nodes are
    given by their kind, their limit and the rows they compute from the rows
    of their inputs, and the limits as the runners of [src/vm/runner.cc] apply
    them ([RunnerBuilder::Build] creates no runner for an optimised LIMIT; of
    the other operators only table projections, window aggregations and group
    aggregations stop at their limit). *)

#[local] Set Warnings "-register-all".

From stdpp Require Import base numbers option list.
From S2P Require Import Prelude.

Inductive PhysicalOpType :=
| kPhysicalOpDataProvider | kPhysicalOpFilter | kPhysicalOpGroupBy | kPhysicalOpSortBy
| kPhysicalOpRowProject | kPhysicalOpTableProject | kPhysicalOpAggregation | kPhysicalOpGroupAggregation
| kPhysicalOpWindowAggregation | kPhysicalOpSimpleProject | kPhysicalOpConstProject
| kPhysicalOpLimit | kPhysicalOpRename | kPhysicalOpDistinct | kPhysicalOpJoin | kPhysicalOpUnion
| kPhysicalOpPostRequestUnion | kPhysicalOpRequestUnion | kPhysicalOpRequestJoin.

(** The flag that the constructors of [include/vm/physical_op.h] set. *)
Definition is_block (t : PhysicalOpType) : bool :=
  match t with
  | kPhysicalOpRowProject | kPhysicalOpTableProject | kPhysicalOpJoin | kPhysicalOpRequestJoin | kPhysicalOpRename => false
  | _ => true
  end.

(** The operators whose runners stop at their limit. *)
Definition stops_at_limit (t : PhysicalOpType) : bool :=
  match t with
  | kPhysicalOpTableProject | kPhysicalOpWindowAggregation | kPhysicalOpGroupAggregation => true
  | _ => false
  end.

Section Plans.
Context {R : Type}.

(** [compute] gives the rows of the operator without limit. *)
Inductive PlanOp :=
  Op (type : PhysicalOpType) (limit_cnt : Z) (limit_optimized : bool) (compute : list (list R) -> list R) (producers : list PlanOp).

Definition GetOpType (n : PlanOp) : PhysicalOpType := let 'Op t _ _ _ _ := n in t.

(** ** The pass *)

(** Whether the limit was applied, and the plan. *)
Fixpoint ApplyLimitCnt (limit_cnt : Z) (node : PlanOp) : bool * PlanOp :=
  let 'Op t cnt opt f ps := node in
  let lower := (0 =? cnt) || (cnt >? limit_cnt) in
  match t with
  | kPhysicalOpLimit =>
      if lower then
        if opt then
          match ps with
          | p :: ps' => let '(b, p') := ApplyLimitCnt limit_cnt p in (b, Op t cnt opt f (p' :: ps'))
          | [] => (false, node)
          end
        else (true, Op t limit_cnt opt f ps)
      else (true, node)
  | _ =>
      match ps with
      | [] => (false, node)
      | p :: ps' =>
          match t with
          | kPhysicalOpSimpleProject | kPhysicalOpRename => (false, node)
          | _ =>
              if is_block t then (true, if lower then Op t limit_cnt opt f ps else node)
              else
                match ApplyLimitCnt limit_cnt p with
                | (true, p') => (true, Op t cnt opt f (p' :: ps'))
                | (false, p') =>
                    if lower then (true, Op t limit_cnt opt f (p' :: ps')) else (false, Op t cnt opt f (p' :: ps'))
                end
          end
      end
  end.

Definition Transform (node : PlanOp) : bool * PlanOp :=
  match node with
  | Op kPhysicalOpLimit cnt opt f (p :: ps) =>
      let '(b, p') := ApplyLimitCnt cnt p in (b, Op kPhysicalOpLimit cnt (opt || b) f (p' :: ps))
  | _ => (false, node)
  end.

(** ** Running a plan *)

Definition cut (limit_cnt : Z) (l : list R) : list R := if limit_cnt >? 0 then take (Z.to_nat limit_cnt) l else l.

Fixpoint run (n : PlanOp) : list R :=
  let 'Op t cnt opt f ps := n in
  let inputs := run <$> ps in
  match t with
  | kPhysicalOpLimit => let input := default [] (head inputs) in if (cnt =? 0) || opt then input else cut cnt input
  | _ => if stops_at_limit t then cut cnt (f inputs) else f inputs
  end.

(** ** What the pass does to the result *)

(** Operators that are not blocking compute row by row; the rows below an
    optimised LIMIT are limited already; limits are not negative. *)
Inductive plan_ok : PlanOp -> Prop :=
| plan_ok_op t cnt opt f ps :
    0 <= cnt -> Forall plan_ok ps ->
    (is_block t = false -> forall k l rest, f (take k l :: rest) = take k (f (l :: rest))) ->
    (t = kPhysicalOpLimit -> opt = true -> 0 < cnt -> (length (default [] (head (run <$> ps))) <= Z.to_nat cnt)%nat) ->
    (t = kPhysicalOpLimit -> ps <> []) ->
    plan_ok (Op t cnt opt f ps).

(** Whether the operator that ends up with the limit stops at it. *)
Fixpoint honoured (limit_cnt : Z) (node : PlanOp) : bool :=
  let 'Op t cnt opt f ps := node in
  match t with
  | kPhysicalOpLimit =>
      if ((0 =? cnt) || (cnt >? limit_cnt)) && opt then match ps with p :: _ => honoured limit_cnt p | [] => true end else true
  | _ =>
      if is_block t then stops_at_limit t
      else match ps with
           | p :: _ => if (ApplyLimitCnt limit_cnt p).1 then honoured limit_cnt p else stops_at_limit t
           | [] => true
           end
  end.

(** Induction along the first inputs. *)
Lemma first_input_ind (P : PlanOp -> Prop) :
  (forall t cnt opt f ps, (forall p ps', ps = p :: ps' -> P p) -> P (Op t cnt opt f ps)) -> forall n, P n.
Proof. intros H. fix IH 1. intros [t cnt opt f ps]. apply H. destruct ps as [|p ps]; [discriminate|]. intros q l [= <- _]. apply IH. Qed.

Lemma not_applied limit_cnt node : (ApplyLimitCnt limit_cnt node).1 = false -> (ApplyLimitCnt limit_cnt node).2 = node.
Proof.
  induction node as [t cnt opt f ps IH] using first_input_ind. cbn [ApplyLimitCnt].
  destruct ps as [|p ps]; [destruct t; cbn; try done; by repeat case_match|].
  specialize (IH p ps eq_refl). destruct (ApplyLimitCnt limit_cnt p) as [[] p'] eqn:E; cbn [fst snd] in IH;
    [|rewrite (IH eq_refl)]; destruct t; cbn [is_block]; try done; by repeat case_match.
Qed.

Lemma cut_take limit_cnt cnt l : 0 < limit_cnt -> 0 <= cnt ->
  cut (if (0 =? cnt) || (cnt >? limit_cnt) then limit_cnt else cnt) l = take (Z.to_nat limit_cnt) (cut cnt l).
Proof.
  intros H1 H2. unfold cut. rewrite (Z.gtb_ltb cnt limit_cnt), !(Z.gtb_ltb _ 0).
  destruct (Z.eqb_spec 0 cnt) as [<-|Hz]; cbn [orb]; [by rewrite (proj2 (Z.ltb_lt 0 limit_cnt))|].
  rewrite (proj2 (Z.ltb_lt 0 cnt)) by lia.
  destruct (Z.ltb_spec limit_cnt cnt); [rewrite (proj2 (Z.ltb_lt 0 limit_cnt)) by lia|rewrite (proj2 (Z.ltb_lt 0 cnt)) by lia];
    rewrite take_take; f_equal; lia.
Qed.

Lemma cut_comm n k (l : list R) : cut n (take k l) = take k (cut n l).
Proof. unfold cut. destruct (n >? 0); [|done]. rewrite !take_take. f_equal. lia. Qed.

(** Operators other than LIMIT, as far as their result is concerned. *)
Definition cut_op (t : PhysicalOpType) (cnt : Z) (l : list R) : list R := if stops_at_limit t then cut cnt l else l.

Lemma run_op t cnt opt f ps : t <> kPhysicalOpLimit -> run (Op t cnt opt f ps) = cut_op t cnt (f (run <$> ps)).
Proof. by destruct t. Qed.

Lemma block_run limit_cnt t cnt opt f ps : t <> kPhysicalOpLimit -> 0 < limit_cnt -> 0 <= cnt ->
  run (if (0 =? cnt) || (cnt >? limit_cnt) then Op t limit_cnt opt f ps else Op t cnt opt f ps) =
    if stops_at_limit t then take (Z.to_nat limit_cnt) (run (Op t cnt opt f ps)) else run (Op t cnt opt f ps).
Proof.
  intros Ht H1 H2. pose proof (cut_take limit_cnt cnt (f (run <$> ps)) H1 H2) as E.
  rewrite (run_op t cnt) by done. destruct (_ || _); rewrite run_op by done; unfold cut_op; by destruct (stops_at_limit t).
Qed.

Lemma apply_run limit_cnt node : 0 < limit_cnt -> plan_ok node -> (ApplyLimitCnt limit_cnt node).1 = true ->
  run (ApplyLimitCnt limit_cnt node).2 =
    if honoured limit_cnt node then take (Z.to_nat limit_cnt) (run node) else run node.
Proof.
  intros Hl. induction node as [t cnt opt f ps IH] using first_input_ind. intros Hok Ha.
  inversion Hok as [? ? ? ? ? Hc Hps Hrow Hopt Hne]; subst.
  assert (t = kPhysicalOpLimit \/ t <> kPhysicalOpLimit) as [->|Ht] by (destruct t; (left; reflexivity) || (right; discriminate)).
  - specialize (Hne eq_refl). destruct ps as [|p ps]; [done|]. apply Forall_cons_1 in Hps as [Hp _].
    specialize (IH p ps eq_refl Hp). specialize (Hopt eq_refl). cbn [ApplyLimitCnt honoured run fmap list_fmap head default from_option id] in *.
    destruct ((0 =? cnt) || (cnt >? limit_cnt)) eqn:El; cbn [andb].
    + destruct opt.
      * destruct (ApplyLimitCnt limit_cnt p) as [b p']. cbn [fst snd] in *. subst b. cbn [run fmap list_fmap head default from_option id].
        rewrite !orb_true_r. by apply IH.
      * cbn [snd run fmap list_fmap head default from_option id]. rewrite !orb_false_r, (proj2 (Z.eqb_neq limit_cnt 0)) by lia.
        pose proof (cut_take limit_cnt cnt (run p) Hl Hc) as E. rewrite El in E. rewrite E. destruct (Z.eqb_spec cnt 0) as [->|]; done.
    + cbn [snd run fmap list_fmap head default from_option id]. apply orb_false_iff in El as [E1%Z.eqb_neq E2].
      rewrite Z.gtb_ltb in E2. apply Z.ltb_ge in E2. rewrite (proj2 (Z.eqb_neq cnt 0)) by lia. destruct opt; cbn [orb].
      * rewrite take_ge; [done|]. specialize (Hopt eq_refl). lia.
      * unfold cut. rewrite Z.gtb_ltb, (proj2 (Z.ltb_lt 0 cnt)) by lia. rewrite take_take. f_equal. lia.
  - destruct ps as [|p ps]; [by destruct t|]. destruct (is_block t) eqn:Eb.
    + assert ((ApplyLimitCnt limit_cnt (Op t cnt opt f (p :: ps))).2 =
        (if (0 =? cnt) || (cnt >? limit_cnt) then Op t limit_cnt opt f (p :: ps) else Op t cnt opt f (p :: ps)) /\
        honoured limit_cnt (Op t cnt opt f (p :: ps)) = stops_at_limit t) as [-> ->] by (by destruct t).
      by apply block_run.
    + apply Forall_cons_1 in Hps as [Hp _]. specialize (IH p ps eq_refl Hp). specialize (Hrow eq_refl).
      assert (t <> kPhysicalOpRename) as Hren by (intros ->; done).
      assert (ApplyLimitCnt limit_cnt (Op t cnt opt f (p :: ps)) =
        match ApplyLimitCnt limit_cnt p with
        | (true, p') => (true, Op t cnt opt f (p' :: ps))
        | (false, p') => if (0 =? cnt) || (cnt >? limit_cnt) then (true, Op t limit_cnt opt f (p' :: ps)) else (false, Op t cnt opt f (p' :: ps))
        end /\ honoured limit_cnt (Op t cnt opt f (p :: ps)) =
          if (ApplyLimitCnt limit_cnt p).1 then honoured limit_cnt p else stops_at_limit t) as [E1 E2] by (by destruct t).
      rewrite E2. rewrite E1 in *. clear E1 E2. pose proof (not_applied limit_cnt p) as Hna.
      destruct (ApplyLimitCnt limit_cnt p) as [[] p']; cbn [fst snd] in *.
      * rewrite !run_op by done. cbn [fmap list_fmap]. rewrite (IH eq_refl). destruct (honoured limit_cnt p); [|done].
        rewrite Hrow. unfold cut_op. destruct (stops_at_limit t); [apply cut_comm|done].
      * rewrite (Hna eq_refl) in *. pose proof (block_run limit_cnt t cnt opt f (p :: ps) Ht Hl Hc) as E.
        destruct ((0 =? cnt) || (cnt >? limit_cnt)); [exact E|done].
Qed.
End Plans.

(** C36: pushing a limit down, exactly. After the pass the plan computes the rows
    of the limited plan when the operator that took the limit stops at it; when
    the limit went to an operator whose runner ignores it (a filter, a sort, a
    group, a union, a join over a table), the LIMIT has no effect any more and
    the plan computes all rows. If the pass does not apply, nothing changes. *)
Theorem limit_pass {R} limit_cnt (f : list (list R) -> list R) p ps b node' :
  0 < limit_cnt -> plan_ok (Op kPhysicalOpLimit limit_cnt false f (p :: ps)) ->
  Transform (Op kPhysicalOpLimit limit_cnt false f (p :: ps)) = (b, node') ->
  run node' = if b && negb (honoured limit_cnt p) then run p else run (Op kPhysicalOpLimit limit_cnt false f (p :: ps)).
Proof.
  intros Hl Hok E. inversion Hok as [? ? ? ? ? _ Hps _ _ _]; subst. apply Forall_cons_1 in Hps as [Hp _].
  pose proof (apply_run limit_cnt p Hl Hp) as Ha. pose proof (not_applied limit_cnt p) as Hn. cbn [Transform] in E.
  destruct (ApplyLimitCnt limit_cnt p) as [b' p']. injection E as <- <-. cbn [fst snd] in *.
  cbn [run fmap list_fmap head default from_option id]. rewrite (proj2 (Z.eqb_neq limit_cnt 0)) by lia. destruct b'; cbn [orb andb].
  - rewrite (Ha eq_refl). destruct (honoured limit_cnt p); cbn [negb]; [|done].
    unfold cut. by rewrite Z.gtb_ltb, (proj2 (Z.ltb_lt 0 limit_cnt)).
  - by rewrite (Hn eq_refl).
Qed.

Module SampleLimits.
Definition table (n : nat) : PlanOp := Op (R := nat) kPhysicalOpDataProvider 0 false (fun _ => seq 0 n) [].
Definition first_input (g : nat -> nat) (inputs : list (list nat)) : list nat := g <$> default [] (head inputs).
Definition projected (below : PlanOp) : PlanOp := Op kPhysicalOpTableProject 0 false (first_input S) [below].
Definition filtered : PlanOp := Op kPhysicalOpFilter 0 false (first_input id) [table 5].
Definition limited (below : PlanOp) : PlanOp := Op kPhysicalOpLimit 2 false (first_input id) [below].

Lemma limited_ok : plan_ok (limited (projected (table 5))).
Proof.
  repeat constructor; try done; try lia. intros _ k l rest. unfold first_input. cbn. by rewrite fmap_take.
Qed.
End SampleLimits.

Lemma limit_pass_witness :
  run (Transform (SampleLimits.limited (SampleLimits.projected (SampleLimits.table 5)))).2 =
    run (SampleLimits.limited (SampleLimits.projected (SampleLimits.table 5))).
Proof.
  exact (limit_pass 2 (SampleLimits.first_input id) (SampleLimits.projected (SampleLimits.table 5)) [] true _
    eq_refl SampleLimits.limited_ok eq_refl).
Defined.

(** [SELECT a + 1 FROM t WHERE c LIMIT 2]: the filter takes the limit and
    ignores it. *)
Lemma limit_lost_on_filter :
  run (SampleLimits.limited (SampleLimits.projected SampleLimits.filtered)) = [1; 2]%nat /\
  run (Transform (SampleLimits.limited (SampleLimits.projected SampleLimits.filtered))).2 = [1; 2; 3; 4; 5]%nat.
Proof. split; reflexivity. Qed.
