(* ===== verification/Containers.v ===== *)
(** * Containers of the aggregate library

    Models [src/udf/containers.h] and the functions of
    [src/udf/default_defs/*_by_category_def.cc] that use it: the [top]
    aggregate keeps the greatest elements ([TopKContainer]), the category
    aggregates keep one value per key ([BoundedGroupByDict]), of which the
    top-n variants keep the greatest keys only. The results are printed into a
    buffer whose size is computed before.

    A [std::map] is the list of its entries in the order of the keys. Keys are
    printed by [snprintf] or, for strings, copied ([raw]); [text] is the text
    of a key. Keys that are dates or time stamps, printed by [strftime], and the
    averages of doubles are left out. *)

From stdpp Require Import base numbers option list.
From S2P Require Import Prelude FnGenerators.

(** ** Maps *)

Section Maps.
Context {K V : Type} (ltb : K -> K -> bool).

Fixpoint map_find (key : K) (m : list (K * V)) : option V :=
  match m with
  | [] => None
  | (k, v) :: m' => if ltb k key then map_find key m' else if ltb key k then None else Some v
  end.

(** The value of a key is changed, or inserted at its place. *)
Fixpoint map_alter (key : K) (f : option V -> V) (m : list (K * V)) : list (K * V) :=
  match m with
  | [] => [(key, f None)]
  | (k, v) :: m' =>
      if ltb k key then (k, v) :: map_alter key f m'
      else if ltb key k then (key, f None) :: m
      else (k, f (Some v)) :: m'
  end.
End Maps.

(** ** Printing *)

(** [v1::format_string] at position [cur] of a buffer with [size] bytes left:
    the buffer and the returned length. *)
Definition format_string (raw : bool) (txt : list Z) (buffer : mem) (cur size : Z) : option (mem * Z) :=
  if raw then
    if Z.of_nat (length txt) <? size
    then b ← store buffer cur txt; Some (b, Z.of_nat (length txt))
    else b ← store buffer cur (take (Z.to_nat size) txt); Some (b, size)
  else if size =? 0 then Some (buffer, Z.of_nat (length txt))
  else b ← store buffer cur (take (Z.to_nat (size - 1)) txt ++ [0]); Some (b, Z.of_nat (length txt)).

(** [if (remain_space-- > 0) *(cur++) = ',']. *)
Definition put_comma (b : mem) (cur remain : Z) : option (mem * Z * Z) :=
  if remain >? 0 then b' ← store b cur [44]; Some (b', cur + 1, u32 (remain - 1)) else Some (b, cur, u32 (remain - 1)).

(** A buffer of the runtime; its size is converted to a signed integer, and
    there is none of a negative size. [alloc] is the contents of new memory. *)
Definition AllocManagedStringBuf (alloc : nat -> mem) (bytes : Z) : option mem :=
  let n := wraps 32 bytes in if n <? 0 then None else Some (alloc (Z.to_nat n)).

(** The terminator and the string that is handed out. *)
Definition finish (b : mem) (str_len : Z) : option (list Z) :=
  b' ← store b (str_len - 1) [0]; load b' 0 (Z.to_nat (u32 (str_len - 1))).

(** ** [TopKContainer] *)

Section TopK.
Context {K : Type} (ltb : K -> K -> bool) (raw : bool) (text : K -> list Z).
(** The width of the type of the bound. *)
Context (w : Z).

Record TopKContainer := mkTopK { map_ : list (K * Z); elem_cnt_ : Z; bound_ : Z }.
Definition TopK_Init : TopKContainer := mkTopK [] 0 (-1).

(** [None] is a dereference of the end of the map. *)
Definition push_key (key : K) (c : TopKContainer) : option TopKContainer :=
  let m := map_alter ltb key (fun o => match o with None => 1 | Some n => u64 (n + 1) end) (map_ c) in
  let cnt := wraps w (elem_cnt_ c + 1) in
  if cnt >? bound_ c then
    match m with
    | [] => None
    | (k, n) :: m' =>
        let n' := u64 (n - 1) in
        Some (mkTopK (if n' =? 0 then m' else (k, n') :: m') (wraps w (cnt - 1)) (bound_ c))
    end
  else Some (mkTopK m cnt (bound_ c)).

Definition Push (t : option K) (bound : Z) (c : TopKContainer) : option TopKContainer :=
  let c1 := if bound_ c <=? 0 then mkTopK (map_ c) (elem_cnt_ c) bound else c in
  match t with Some key => push_key key c1 | None => Some c1 end.

Fixpoint push_all (ts : list (option K)) (bound : Z) (c : TopKContainer) : option TopKContainer :=
  match ts with [] => Some c | t :: ts' => c' ← Push t bound c; push_all ts' bound c' end.

(** The elements from the greatest. *)
Definition elements_desc (m : list (K * Z)) : list K := e ← rev m; replicate (Z.to_nat e.2) e.1.

Definition top_len (m : list (K * Z)) : Z :=
  foldl (fun str_len e => u32 (str_len + u64 (u32 (u32 (Z.of_nat (length (text e.1))) + 1) * e.2))) 0 (rev m).

Fixpoint fill_keys (ks : list K) (b : mem) (cur remain : Z) : option mem :=
  match ks with
  | [] => Some b
  | k :: ks' =>
      '(b1, key_len) ← format_string raw (text k) b cur remain;
      '(b2, cur', remain') ← put_comma b1 (cur + key_len) (u32 (remain - key_len));
      fill_keys ks' b2 cur' remain'
  end.

(** The first write through a null buffer is undefined: [None]. *)
Definition TopK_OutputString (alloc : nat -> mem) (c : TopKContainer) : option (list Z) :=
  match map_ c with
  | [] => Some []
  | m =>
      let str_len := top_len m in
      buffer ← AllocManagedStringBuf alloc str_len;
      b ← fill_keys (elements_desc m) buffer 0 str_len;
      finish b str_len
  end.
End TopK.

(** ** [BoundedGroupByDict] *)

Section Dict.
Context {K S : Type} (ltb : K -> K -> bool) (raw : bool) (text : K -> list Z) (format_value : S -> list Z).

Definition MAX_OUTPUT_STR_SIZE : Z := 4096.

(** The length of the output and the entries it has room for. *)
Fixpoint estimate (m : list (K * S)) (str_len : Z) : Z * list (K * S) :=
  match m with
  | [] => (str_len, [])
  | e :: m' =>
      let new_len := u32 (u32 (u32 (str_len + Z.of_nat (length (text e.1))) + Z.of_nat (length (format_value e.2))) + 2) in
      if new_len >? MAX_OUTPUT_STR_SIZE then (str_len, [])
      else let '(n, l) := estimate m' new_len in (n, e :: l)
  end.

Fixpoint fill_entries (es : list (K * S)) (b : mem) (cur remain : Z) : option mem :=
  match es with
  | [] => Some b
  | e :: es' =>
      '(b1, key_len) ← format_string raw (text e.1) b cur remain;
      b2 ← store b1 (cur + key_len) [58];
      let cur2 := cur + key_len + 1 in
      let remain2 := u32 (remain - u32 (key_len + 1)) in
      '(b3, value_len) ← format_string false (format_value e.2) b2 cur2 remain2;
      '(b4, cur', remain') ← put_comma b3 (cur2 + value_len) (u32 (remain2 - value_len));
      fill_entries es' b4 cur' remain'
  end.

Definition Dict_OutputString (alloc : nat -> mem) (is_desc : bool) (m : list (K * S)) : option (list Z) :=
  match m with
  | [] => Some []
  | _ =>
      let '(str_len, es) := estimate (if is_desc then rev m else m) 0 in
      buffer ← AllocManagedStringBuf alloc str_len;
      b ← fill_entries es buffer 0 str_len;
      finish b str_len
  end.

(** ** Aggregates by category *)

Section Category.
Context {V : Type} (step : option S -> V -> S).

(** A row: value and key, or NULL. *)
Definition Cate_Update (value : option V) (key : option K) (m : list (K * S)) : list (K * S) :=
  match key, value with Some k, Some v => map_alter ltb k (fun o => step o v) m | _, _ => m end.
Definition CateWhere_Update (value : option V) (cond : option bool) (key : option K) (m : list (K * S)) : list (K * S) :=
  match cond with Some true => Cate_Update value key m | _ => m end.
Definition TopN_Update (bound : Z) (value : option V) (cond : option bool) (key : option K) (m : list (K * S)) : list (K * S) :=
  match cond with
  | Some true =>
      let m' := Cate_Update value key m in
      if (bound >=? 0) && (Z.of_nat (length m') >? u64 bound) then tail m' else m'
  | _ => m
  end.
End Category.
End Dict.

(** The values of the categories: counts, sums, minima and maxima of [w]-bit
    integers. *)
Definition count_step (o : option Z) (_ : Z) : Z := match o with None => 1 | Some n => wraps 64 (n + 1) end.
Definition sum_step (w : Z) (o : option Z) (v : Z) : Z := match o with None => v | Some n => wraps w (n + v) end.
Definition min_step (o : option Z) (v : Z) : Z := match o with None => v | Some n => if n >? v then v else n end.
Definition max_step (o : option Z) (v : Z) : Z := match o with None => v | Some n => if n <? v then v else n end.

(** The aggregates of the library. *)
Section Library.
Context {K : Type} (ltb : K -> K -> bool) (w : Z).

Definition CountCate_Update := Cate_Update ltb count_step.
Definition CountCateWhere_Update := CateWhere_Update ltb count_step.
Definition TopKCountCateWhere_Update := TopN_Update ltb count_step.
Definition SumCate_Update := Cate_Update ltb (sum_step w).
Definition SumCateWhere_Update := CateWhere_Update ltb (sum_step w).
Definition TopKSumCateWhere_Update := TopN_Update ltb (sum_step w).
Definition MinCate_Update := Cate_Update ltb min_step.
Definition MinCateWhere_Update := CateWhere_Update ltb min_step.
Definition TopKMinCateWhere_Update := TopN_Update ltb min_step.
Definition MaxCate_Update := Cate_Update ltb max_step.
Definition MaxCateWhere_Update := CateWhere_Update ltb max_step.
Definition TopKMaxCateWhere_Update := TopN_Update ltb max_step.
End Library.
