(* ===== verification/ContainersProof.v ===== *)
(** * Containers keep the greatest elements and the groups

    [TopKContainer] holds the greatest elements of all that were pushed, the
    category maps hold the aggregate of every group, restricted to the greatest
    keys in the top-n variants, and the printed texts list them. *)

From stdpp Require Import base numbers option list sorting.
From S2P Require Import Prelude TypeCodec FnGenerators Containers.

(** Strict total orders, as [std::less] must be. *)
Class TotalOrder {K} (ltb : K -> K -> bool) := {
  lt_irrefl : forall a, ltb a a = false;
  lt_trans : forall a b c, ltb a b = true -> ltb b c = true -> ltb a c = true;
  lt_total : forall a b, ltb a b = false -> ltb b a = false -> a = b
}.
#[global] Instance Z_order : TotalOrder Z.ltb.
Proof.
  split; [apply Z.ltb_irrefl|intros a b c; rewrite !Z.ltb_lt; lia|intros a b; rewrite !Z.ltb_ge; lia].
Qed.
#[global] Instance bytes_order : TotalOrder (fun a b => lex_compare a b <? 0).
Proof.
  split.
  - intros a. by rewrite (proj2 (lex_compare_eq a a)).
  - intros a b c. rewrite !Z.ltb_lt. apply lex_compare_trans.
  - intros a b. rewrite !Z.ltb_ge, (lex_compare_antisym a b). intros H1 H2. apply lex_compare_eq. lia.
Qed.

(** The last [n] elements of a list. *)
Definition lastn {A} (n : nat) (l : list A) : list A := drop (length l - n) l.

Lemma lastn_all {A} n (l : list A) : (length l <= n)%nat -> lastn n l = l.
Proof. intros H. unfold lastn. by replace (length l - n)%nat with 0%nat by lia. Qed.
Lemma lastn_app {A} n (l1 l2 : list A) : (n <= length l2)%nat -> lastn n (l1 ++ l2) = lastn n l2.
Proof. intros H. unfold lastn. rewrite length_app, drop_app_ge by lia. f_equal. lia. Qed.
Lemma lastn_tail {A} n (l : list A) : length l = S n -> lastn n l = tail l.
Proof. intros H. unfold lastn. replace (length l - n)%nat with 1%nat by lia. by destruct l. Qed.
Lemma length_lastn {A} n (l : list A) : length (lastn n l) = Nat.min n (length l).
Proof. unfold lastn. rewrite length_drop. lia. Qed.
Lemma lastn_split {A} n (l : list A) : exists pre, l = pre ++ lastn n l /\ (pre <> [] -> length (lastn n l) = n).
Proof.
  exists (take (length l - n) l). split; [unfold lastn; by rewrite take_drop|].
  intros H. rewrite length_lastn. destruct (decide (length l <= n)%nat) as [Hl|Hl]; [|lia].
  exfalso. apply H. by replace (length l - n)%nat with 0%nat by lia.
Qed.

(** Keep at most [n] elements by dropping the first. *)
Definition bounded {A} (n : nat) (l : list A) : list A := if (n <? length l)%nat then tail l else l.

Lemma bounded_lastn {A} n (l : list A) : (length l <= S n)%nat -> bounded n l = lastn n l.
Proof.
  intros H. unfold bounded. destruct (Nat.ltb_spec n (length l)); [|by rewrite lastn_all]. by rewrite lastn_tail by lia.
Qed.

(** ** Sorted lists and maps *)

Section Order.
Context {K : Type} (ltb : K -> K -> bool) `{TotalOrder K ltb}.

Definition le (a b : K) : Prop := ltb b a = false.

Lemma le_of_lt a b : ltb a b = true -> le a b.
Proof. intros H1. unfold le. destruct (ltb b a) eqn:E; [|done]. pose proof (lt_trans _ _ _ H1 E). by rewrite lt_irrefl in *. Qed.
Lemma lt_le_trans a b c : ltb a b = true -> le b c -> ltb a c = true.
Proof.
  unfold le. intros H1 H2. destruct (ltb b c) eqn:E; [by eapply lt_trans|]. by rewrite <- (lt_total b c E H2).
Qed.
Lemma le_lt_trans a b c : le a b -> ltb b c = true -> ltb a c = true.
Proof.
  unfold le. intros H1 H2. destruct (ltb a b) eqn:E; [by eapply lt_trans|]. by rewrite (lt_total a b E H1).
Qed.
#[global] Instance le_trans : Transitive le.
Proof.
  intros a b c H1 H2. unfold le. destruct (ltb c a) eqn:E; [|done]. pose proof (le_lt_trans b c a H2 E). unfold le in H1. congruence.
Qed.

Fixpoint ins (x : K) (l : list K) : list K :=
  match l with [] => [x] | y :: l' => if ltb y x then y :: ins x l' else x :: l end.
Definition isort (l : list K) : list K := foldl (fun s x => ins x s) [] l.

Lemma length_ins x l : length (ins x l) = S (length l).
Proof. induction l as [|y l IH]; cbn; [done|]. destruct (ltb y x); cbn; by rewrite ?IH. Qed.
Lemma ins_perm x l : ins x l ≡ₚ x :: l.
Proof. induction l as [|y l IH]; cbn; [done|]. destruct (ltb y x); [|done]. rewrite IH. apply perm_swap. Qed.
Lemma ins_sorted x l : StronglySorted le l -> StronglySorted le (ins x l).
Proof.
  induction 1 as [|y l Hl IH Hy]; cbn; [by repeat constructor|]. destruct (ltb y x) eqn:E.
  - constructor; [done|]. rewrite ins_perm. constructor; [by apply le_of_lt|done].
  - constructor; [by constructor|]. constructor; [exact E|]. eapply Forall_impl; [exact Hy|]. intros z Hz. by eapply le_trans; [exact E|].
Qed.
Lemma isort_spec l : StronglySorted le (isort l) /\ isort l ≡ₚ l.
Proof.
  unfold isort. assert (forall s, StronglySorted le s -> StronglySorted le (foldl (fun s x => ins x s) s l) /\
    foldl (fun s x => ins x s) s l ≡ₚ l ++ s) as Hg.
  { induction l as [|x l IH]; intros s Hs; cbn; [done|]. destruct (IH (ins x s) (ins_sorted x s Hs)) as [H1 H2].
    split; [done|]. rewrite H2, ins_perm. by rewrite Permutation_middle. }
  destruct (Hg [] ltac:(constructor)) as [H1 H2]. by rewrite app_nil_r in H2.
Qed.

Lemma ins_app_r x pre suf : Forall (fun y => ltb y x = true) pre -> ins x (pre ++ suf) = pre ++ ins x suf.
Proof. induction 1 as [|y pre Hy _ IH]; cbn; [done|]. by rewrite Hy, IH. Qed.
Lemma ins_app_l x pre suf : ~ Forall (fun y => ltb y x = true) pre -> ins x (pre ++ suf) = ins x pre ++ suf.
Proof.
  induction pre as [|y pre IH]; cbn; intros Hn; [by destruct Hn|]. destruct (ltb y x) eqn:E; [|done].
  rewrite IH; [done|]. intros Hp. apply Hn. by constructor.
Qed.

(** Inserting into the last [n] elements and dropping the least one. *)
Lemma bounded_ins n x s : StronglySorted le s -> bounded n (ins x (lastn n s)) = lastn n (ins x s).
Proof.
  intros Hs. destruct (lastn_split n s) as (pre & Es & Hp). set (suf := lastn n s) in *.
  assert (length suf <= n)%nat as Hl by (unfold suf; rewrite length_lastn; lia).
  rewrite bounded_lastn by (rewrite length_ins; lia). rewrite Es at 1. destruct pre as [|p pre]; [done|]. specialize (Hp ltac:(done)).
  destruct (decide (Forall (fun y => ltb y x = true) (p :: pre))) as [Ha|Hn].
  - rewrite ins_app_r by done. by rewrite lastn_app by (rewrite length_ins; lia).
  - rewrite ins_app_l, lastn_app by (done || lia). rewrite (lastn_all n suf) by lia.
    destruct suf as [|z suf'] eqn:Esuf; [cbn in Hp; subst n; done|].
    assert (ltb z x = false) as Hz.
    { destruct (ltb z x) eqn:E; [|done]. exfalso. apply Hn. apply Forall_forall. intros y Hy.
      rewrite Es in Hs. pose proof (StronglySorted_app_1_elem_of le _ _ y z Hs Hy ltac:(left)) as Hle. by eapply le_lt_trans. }
    cbn [ins]. rewrite Hz. unfold bounded. rewrite lastn_tail; [done|]. cbn in *. lia.
Qed.
End Order.

(** ** The greatest elements *)

Section TopKProof.
Context {K : Type} (ltb : K -> K -> bool) `{TotalOrder K ltb} (raw : bool) (text : K -> list Z) (w : Z).

(** The elements of a map with counts, from the least. *)
Definition expand (m : list (K * Z)) : list K := e ← m; replicate (Z.to_nat e.2) e.1.
Definition counted (m : list (K * Z)) : Prop := Forall (fun e => 0 < e.2 < 2 ^ 63) m.

Lemma rev_alt_replicate {A} n (x : A) : replicate n x = rev (replicate n x).
Proof. induction n as [|n IH]; [done|]. cbn [replicate rev]. by rewrite <- IH, replicate_cons_app. Qed.

Lemma elements_desc_rev m : elements_desc m = rev (expand m).
Proof.
  unfold elements_desc, expand. induction m as [|[k n] m IH]; [done|]. cbn [rev mbind list_bind].
  rewrite bind_app, IH. cbn [mbind list_bind fst snd]. rewrite app_nil_r, rev_app_distr. f_equal. by rewrite <- rev_alt_replicate.
Qed.

Lemma ins_replicate_lt x k n r : ltb k x = true -> ins ltb x (replicate n k ++ r) = replicate n k ++ ins ltb x r.
Proof. intros Hk. apply ins_app_r. apply Forall_replicate. done. Qed.

Lemma alter_expand key m : counted m ->
  let m' := map_alter ltb key (fun o => match o with None => 1 | Some n => u64 (n + 1) end) m in
  expand m' = ins ltb key (expand m) /\ Forall (fun e => 0 < e.2 <= 2 ^ 63) m' /\ m' <> [].
Proof.
  intros Hc. induction Hc as [|[k n] m [Hn1 Hn2] Hc IH]; cbn [map_alter]; [by repeat constructor|]. cbn [snd] in Hn1, Hn2.
  assert (Forall (fun e => 0 < e.2 <= 2 ^ 63) m) as Hc' by (eapply Forall_impl; [exact Hc|]; intros e He; cbn in He; lia).
  destruct (ltb k key) eqn:E1; [|destruct (ltb key k) eqn:E2].
  - destruct IH as (IH1 & IH2 & _). cbn [expand mbind list_bind fst snd]. split_and!; [|by constructor; [cbn; lia|]|done].
    rewrite ins_replicate_lt by done. unfold expand in IH1. by rewrite IH1.
  - split_and!; [|constructor; [cbn; lia|constructor; [cbn; lia|done]]|done]. cbn [expand mbind list_bind fst snd].
    replace (Z.to_nat n) with (S (Z.to_nat (n - 1))) by lia. cbn [replicate app ins]. by rewrite E1.
  - assert (key = k) as -> by (by apply lt_total). split_and!; [|constructor; [cbn; rewrite u64_small by lia; lia|done]|done].
    cbn [expand mbind list_bind fst snd]. rewrite u64_small by lia. replace (Z.to_nat (n + 1)) with (S (Z.to_nat n)) by lia.
    replace (Z.to_nat n) with (S (Z.to_nat (n - 1))) by lia. cbn [replicate app ins]. by rewrite E1.
Qed.

(** The container after the elements [vs] with bound [b]. *)
Record topk_ok (b : Z) (vs : list K) (c : TopKContainer) : Prop := {
  tk_bound : bound_ c = b \/ (vs = [] /\ bound_ c <= 0);
  tk_elems : expand (map_ c) = lastn (Z.to_nat b) (isort ltb vs);
  tk_counted : counted (map_ c);
  tk_cnt : elem_cnt_ c = Z.of_nat (length (expand (map_ c)))
}.

Lemma counts_le m e : Forall (fun e => 0 < e.2 <= 2 ^ 63) m -> e ∈ m -> (Z.to_nat e.2 <= length (expand m))%nat.
Proof.
  intros Hm. induction Hm as [|[k n] m Hn _ IH]; [by intros ?%elem_of_nil|]. intros [->|He]%elem_of_cons; cbn [expand mbind list_bind fst snd];
    rewrite length_app, length_replicate; [lia|]. specialize (IH He). unfold expand in IH. lia.
Qed.

Lemma push_ok b vs key c : 0 < w <= 64 -> 0 <= b < 2 ^ (w - 1) - 1 -> topk_ok b vs c -> bound_ c = b ->
  exists c', push_key ltb w key c = Some c' /\ topk_ok b (vs ++ [key]) c' /\ bound_ c' = b.
Proof.
  intros Hw Hb [_ He Hc Hn] Eb. unfold push_key. pose proof (Z.pow_le_mono_r 2 (w - 1) 63 ltac:(lia) ltac:(lia)) as Hp63.
  change (2 ^ 63) with 9223372036854775808 in Hp63. destruct (alter_expand key (map_ c) Hc) as (Ea & Hm & Hne).
  set (m := map_alter _ _ _ _) in *. rewrite He in Ea.
  destruct (isort_spec ltb vs) as [Hs _]. pose proof (bounded_ins ltb (Z.to_nat b) key _ Hs) as Ebd. rewrite <- Ea in Ebd.
  assert (isort ltb (vs ++ [key]) = ins ltb key (isort ltb vs)) as Ei by (unfold isort; by rewrite foldl_app).
  rewrite <- Ei in Ebd. assert (length (expand (map_ c)) <= Z.to_nat b)%nat as Hlen by (rewrite He, length_lastn; lia).
  assert (length (expand m) = S (length (expand (map_ c)))) as Hlm by (rewrite Ea, length_ins; by rewrite He).
  assert (wraps w (elem_cnt_ c + 1) = Z.of_nat (length (expand m))) as ->.
  { rewrite Hn, Hlm. rewrite wraps_small; lia. }
  assert (counted m) as Hcm.
  { apply Forall_forall. intros e Hin. pose proof (proj1 (Forall_forall _ _) Hm e Hin) as Hp. cbn in Hp.
    pose proof (counts_le m e Hm Hin). split; [lia|]. lia. }
  rewrite Z.gtb_ltb. unfold bounded in Ebd.
  destruct (Z.ltb_spec (bound_ c) (Z.of_nat (length (expand m)))) as [Hgt|Hle].
  - destruct (Nat.ltb_spec (Z.to_nat b) (length (expand m))); [|lia]. destruct m as [|[k n] m'] eqn:Em; [done|].
    apply Forall_cons_1 in Hcm as [Hk Hcm]. cbn [snd] in Hk. rewrite u64_small by lia. eexists. split; [done|].
    assert (expand (if n - 1 =? 0 then m' else (k, n - 1) :: m') = tail (expand ((k, n) :: m'))) as Et.
    { cbn [expand mbind list_bind fst snd]. replace (Z.to_nat n) with (S (Z.to_nat (n - 1))) by lia. cbn [replicate app tail].
      destruct (Z.eqb_spec (n - 1) 0) as [->|]; done. }
    split; [|done]. split; cbn [map_ elem_cnt_ bound_].
    + by left.
    + by rewrite Et.
    + destruct (Z.eqb_spec (n - 1) 0); [done|]. constructor; [cbn; lia|done].
    + rewrite Et, wraps_small by lia. destruct (expand ((k, n) :: m')); cbn [tail length] in *; lia.
  - destruct (Nat.ltb_spec (Z.to_nat b) (length (expand m))); [lia|]. eexists. split; [done|]. split; [|done].
    split; cbn [map_ elem_cnt_ bound_]; [by left|done..].
Qed.

Lemma Push_ok b vs t c : 0 < w <= 64 -> 0 <= b < 2 ^ (w - 1) - 1 -> topk_ok b vs c ->
  exists c', Push ltb w t b c = Some c' /\ topk_ok b (vs ++ option_list t) c'.
Proof.
  intros Hw Hb Hc. unfold Push. set (c1 := if bound_ c <=? 0 then _ else c).
  assert (topk_ok b vs c1 /\ bound_ c1 = b) as [Hc1 Eb].
  { unfold c1. destruct Hc as [H1 H2 H3 H4]. destruct (Z.leb_spec (bound_ c) 0) as [Hz|Hz].
    - split; [|done]. split; cbn; [by left|done..].
    - destruct H1 as [H1|[_ H1]]; [|lia]. split; [|done]. split; [by left|done..]. }
  destruct t as [key|]; cbn [option_list]; [|rewrite app_nil_r; by exists c1].
  destruct (push_ok b vs key c1 Hw Hb Hc1 Eb) as (c' & E & Hc' & _). by exists c'.
Qed.
Lemma push_all_ok b ts : 0 < w <= 64 -> 0 <= b < 2 ^ (w - 1) - 1 -> forall vs c, topk_ok b vs c ->
  exists c', push_all ltb w ts b c = Some c' /\ topk_ok b (vs ++ base.omap id ts) c'.
Proof.
  intros Hw Hb. induction ts as [|t ts IH]; intros vs c Hc; cbn [push_all].
  - exists c. by rewrite app_nil_r.
  - destruct (Push_ok b vs t c Hw Hb Hc) as (c1 & -> & Hc1). cbn [mbind option_bind].
    destruct (IH _ c1 Hc1) as (c' & E & Hc'). exists c'. split; [done|]. rewrite <- app_assoc in Hc'. by destruct t.
Qed.
Lemma init_topk_ok b : topk_ok b [] TopK_Init.
Proof. split; [right; by split|done|constructor|done]. Qed.

(** *** The text *)

(** Texts with commas after, and between, them. *)
Definition with_commas (ts : list (list Z)) : list Z := t ← ts; t ++ [44].
Fixpoint joined (ts : list (list Z)) : list Z :=
  match ts with [] => [] | [t] => t | t :: ts' => t ++ 44 :: joined ts' end.

Lemma joined_commas ts : ts <> [] -> with_commas ts = joined ts ++ [44].
Proof.
  induction ts as [|t ts IH]; [done|]. intros _. cbn [with_commas mbind list_bind joined]. destruct ts as [|t' ts]; [by rewrite app_nil_r|].
  unfold with_commas in IH. rewrite IH by done. by rewrite <- !app_assoc.
Qed.

Lemma store_mid (pre old bs rest : list Z) : length old = length bs ->
  store (pre ++ old ++ rest) (Z.of_nat (length pre)) bs = Some (pre ++ bs ++ rest).
Proof.
  intros Hl. rewrite store_Some by (rewrite ?length_app; lia). f_equal. rewrite Nat2Z.id, take_app_length. do 2 f_equal.
  rewrite drop_app_ge by lia. rewrite drop_app_ge by lia. replace (_ - _ - _)%nat with 0%nat by lia. done.
Qed.

(** A text and the separator after it are written at the end of [pre]. *)
Lemma put_text r txt pre rest sep : (length txt < length rest)%nat ->
  exists b rest', format_string r txt (pre ++ rest) (Z.of_nat (length pre)) (Z.of_nat (length rest)) = Some (b, Z.of_nat (length txt)) /\
    store b (Z.of_nat (length pre) + Z.of_nat (length txt)) [sep] = Some ((pre ++ txt ++ [sep]) ++ rest') /\
    length rest = (length txt + 1 + length rest')%nat.
Proof.
  intros Hl. exists (if r then pre ++ txt ++ drop (length txt) rest else pre ++ txt ++ 0 :: drop (S (length txt)) rest), (drop (S (length txt)) rest).
  assert (length rest = length txt + 1 + length (drop (S (length txt)) rest))%nat as Hrest by (rewrite length_drop; lia).
  split_and!; [..|done].
  - unfold format_string. destruct r.
    + rewrite (proj2 (Z.ltb_lt _ _)) by lia.
      rewrite <- (take_drop (length txt) rest) at 1. rewrite store_mid; [done|]. rewrite length_take. lia.
    + rewrite (proj2 (Z.eqb_neq _ 0)) by lia. rewrite take_ge by lia.
      rewrite <- (take_drop (S (length txt)) rest) at 1. rewrite store_mid; [by rewrite <- app_assoc|]. rewrite length_take, length_app. change (length [0]) with 1%nat. lia.
  - assert (exists x, drop (length txt) rest = x :: drop (S (length txt)) rest) as [x Ex].
    { destruct (lookup_lt_is_Some_2 rest (length txt)) as [x Hx]; [lia|]. exists x. by apply drop_S. }
    rewrite <- Nat2Z.inj_add, <- length_app. destruct r; rewrite ?Ex.
    + rewrite (app_assoc pre). change (x :: ?l) with ([x] ++ l). rewrite store_mid by done. by rewrite <- !app_assoc.
    + rewrite (app_assoc pre). change (0 :: ?l) with ([0] ++ l). rewrite store_mid by done. by rewrite <- !app_assoc.
Qed.

Lemma fill_keys_ok ks : forall pre rest, length rest = length (with_commas (text <$> ks)) -> (length rest < Z.to_nat 4294967296)%nat ->
  fill_keys raw text ks (pre ++ rest) (Z.of_nat (length pre)) (Z.of_nat (length rest)) = Some (pre ++ with_commas (text <$> ks)).
Proof.
  induction ks as [|k ks IH]; intros pre rest Hl Hs; cbn [fill_keys fmap list_fmap].
  - destruct rest; [|done]. done.
  - cbn [with_commas fmap list_fmap mbind list_bind] in Hl. rewrite !length_app in Hl. cbn [length] in Hl.
    destruct (put_text raw (text k) pre rest 44) as (b & rest' & -> & Es & Hr); [lia|]. cbn [mbind option_bind].
    rewrite u32_small by lia. unfold put_comma. rewrite Z.gtb_ltb, (proj2 (Z.ltb_lt 0 _)) by lia. rewrite Es. cbn [mbind option_bind].
    rewrite u32_small by lia.
    replace (Z.of_nat (length rest) - Z.of_nat (length (text k)) - 1) with (Z.of_nat (length rest')) by lia.
    replace (Z.of_nat (length pre) + Z.of_nat (length (text k)) + 1) with (Z.of_nat (length (pre ++ text k ++ [44]))) by (rewrite !length_app; cbn; lia).
    rewrite IH; [|unfold with_commas; lia|lia]. by rewrite <- app_assoc.
Qed.

Lemma finish_ok l x : (length l < Z.to_nat 4294967295)%nat -> finish (l ++ [x]) (Z.of_nat (length (l ++ [x]))) = Some l.
Proof.
  intros Hl. unfold finish. rewrite length_app. cbn [length].
  replace (Z.of_nat (length l + 1) - 1) with (Z.of_nat (length l)) by lia.
  pose proof (store_mid l [x] [0] [] eq_refl) as E. rewrite !app_nil_r in E. rewrite E. cbn [mbind option_bind].
  rewrite u32_small by lia. rewrite Nat2Z.id, load_Some by (rewrite ?length_app; lia). change (Z.to_nat 0) with 0%nat. by rewrite drop_0, take_app_length.
Qed.

Lemma top_len_ok m : counted m -> Z.of_nat (length (with_commas (text <$> elements_desc m))) < 4294967296 ->
  top_len text m = Z.of_nat (length (with_commas (text <$> elements_desc m))).
Proof.
  intros Hc. unfold top_len, elements_desc. assert (Forall (fun e => 0 < e.2 < 2 ^ 63) (rev m)) as Hr.
  { apply Forall_forall. intros e He. apply (proj1 (Forall_forall _ _) Hc). by rewrite <- elem_of_reverse, <- rev_alt in * || (apply list_elem_of_In; apply list_elem_of_In in He; by apply in_rev). }
  generalize (rev m) Hr. clear m Hc Hr. intros m Hc.
  assert (forall acc, 0 <= acc -> acc + Z.of_nat (length (with_commas (text <$> (e ← m; replicate (Z.to_nat e.2) e.1)))) < 4294967296 ->
    foldl (fun str_len e => u32 (str_len + u64 (u32 (u32 (Z.of_nat (length (text e.1))) + 1) * e.2))) acc m =
    acc + Z.of_nat (length (with_commas (text <$> (e ← m; replicate (Z.to_nat e.2) e.1))))) as Hg; [|intros Hl; by apply (Hg 0)].
  induction Hc as [|[k n] m [Hn1 Hn2] _ IH]; intros acc Ha Hl; cbn [foldl mbind list_bind fst snd] in *; [cbn; lia|].
  assert (forall j, length (with_commas (text <$> replicate j k)) = (j * (length (text k) + 1))%nat) as Hj.
  { induction j as [|j IHj]; [done|]. cbn [replicate fmap list_fmap with_commas mbind list_bind]. unfold with_commas in IHj.
    rewrite !length_app, IHj. cbn. lia. }
  rewrite fmap_app in *. unfold with_commas in *. rewrite bind_app, length_app in *. rewrite Hj in *.
  set (rest := length _) in *. set (t := length (text k)) in *.
  assert (Z.of_nat t + 1 <= n * (Z.of_nat t + 1)) by nia.
  assert (Z.of_nat (Z.to_nat n * (t + 1)) = n * (Z.of_nat t + 1)) as En by (rewrite Nat2Z.inj_mul, Z2Nat.id by lia; lia).
  rewrite Nat2Z.inj_add, En in *. rewrite (u32_small (Z.of_nat t)) by lia. rewrite (u32_small (Z.of_nat t + 1)) by lia.
  rewrite u64_small by lia. rewrite u32_small by lia. rewrite IH by lia. lia.
Qed.
End TopKProof.

Lemma rev_lastn {A} n (l : list A) : rev (lastn n l) = take n (rev l).
Proof.
  destruct (lastn_split n l) as (pre & E & Hp). rewrite E at 2. rewrite rev_app_distr. destruct pre as [|p pre].
  - rewrite app_nil_r. rewrite take_ge; [done|]. rewrite length_rev, length_lastn. lia.
  - rewrite take_app_le by (rewrite length_rev, Hp; done || lia). by rewrite take_ge by (rewrite length_rev, Hp; done || lia).
Qed.
Lemma rev_sorted {A} (R : A -> A -> Prop) l : StronglySorted R l -> StronglySorted (flip R) (rev l).
Proof.
  induction 1 as [|x l Hl IH Hx]; cbn [rev]; [constructor|]. apply StronglySorted_app_2; [|done|by repeat constructor].
  intros y z Hy ->%list_elem_of_singleton. rewrite Forall_forall in Hx. apply Hx. apply list_elem_of_In, in_rev. by apply list_elem_of_In.
Qed.

Section Top.
Context {K : Type} (ltb : K -> K -> bool) `{TotalOrder K ltb} (raw : bool) (text : K -> list Z) (w : Z).

Lemma alloc_ok (alloc : nat -> mem) n : 0 <= n < 2 ^ 31 -> AllocManagedStringBuf alloc n = Some (alloc (Z.to_nat n)).
Proof. intros Hn. unfold AllocManagedStringBuf. rewrite wraps_small by lia. by rewrite (proj2 (Z.ltb_ge n 0)) by lia. Qed.

(** [top(column, b)]: pushing any rows in any order leaves in the container
    exactly the first [b] of the non-NULL values ordered from the greatest
    (repeated values counted), and the printed string lists their texts in this
    order, separated by commas; the buffer is never written out of its bounds,
    provided the text is shorter than 2^31 bytes. *)
Theorem top_k (ts : list (option K)) (b : Z) (alloc : nat -> mem) : 0 < w <= 64 -> 0 <= b < 2 ^ (w - 1) - 1 ->
  (forall n, length (alloc n) = n) ->
  exists c s, push_all ltb w ts b TopK_Init = Some c /\
    StronglySorted (flip (le ltb)) s /\ s ≡ₚ base.omap id ts /\
    elements_desc (map_ c) = take (Z.to_nat b) s /\
    (Z.of_nat (length (with_commas (text <$> take (Z.to_nat b) s))) < 2 ^ 31 ->
     TopK_OutputString raw text alloc c = Some (joined (text <$> take (Z.to_nat b) s))).
Proof.
  intros Hw Hb Ha. destruct (push_all_ok ltb w b ts Hw Hb [] _ (init_topk_ok ltb b)) as (c & Ec & [_ He Hc _]).
  cbn [app] in He. destruct (isort_spec ltb (base.omap id ts)) as [Hs Hperm].
  exists c, (rev (isort ltb (base.omap id ts))).
  assert (elements_desc (map_ c) = take (Z.to_nat b) (rev (isort ltb (base.omap id ts)))) as Ed
    by (by rewrite elements_desc_rev, He, rev_lastn).
  split_and!; [done|by apply rev_sorted| |done|].
  - etransitivity; [symmetry; apply Permutation_rev|exact Hperm].
  - rewrite <- Ed. intros Hl. unfold TopK_OutputString. destruct (map_ c) as [|[k n] m] eqn:Em; [done|].
    rewrite <- Em in *. rewrite top_len_ok by (done || lia). rewrite alloc_ok, Nat2Z.id by lia. cbn [mbind option_bind].
    set (l := with_commas _) in *. pose proof (fill_keys_ok raw text (elements_desc (map_ c)) [] (alloc (length l))) as Hf.
    cbn [app length] in Hf. rewrite Ha in Hf. change (Z.of_nat 0) with 0 in Hf. rewrite Hf by (done || lia). cbn [mbind option_bind].
    assert (text <$> elements_desc (map_ c) <> []) as Hne.
    { rewrite elements_desc_rev, Em. cbn [expand mbind list_bind fst snd]. rewrite Em in Hc. apply Forall_cons_1 in Hc as [Hn _]. cbn in Hn.
      replace (Z.to_nat n) with (S (Z.to_nat (n - 1))) by lia. cbn [replicate app rev]. rewrite fmap_app. by intros [_ ?]%app_nil. }
    unfold l. rewrite joined_commas by done. apply finish_ok. unfold l in Hl. rewrite joined_commas, length_app in Hl by done. cbn in Hl. lia.
Qed.
End Top.

Lemma top_k_witness : exists c s,
  push_all Z.ltb 32 [Some 3; None; Some 5; Some 3; Some 1] 2 TopK_Init = Some c /\ s ≡ₚ [3; 5; 3; 1] /\
  elements_desc (map_ c) = take 2 s /\
  TopK_OutputString false (fun k => [48 + k]) (fun n => replicate n 7) c = Some (joined ((fun k => [48 + k]) <$> take 2 s)).
Proof.
  destruct (top_k Z.ltb false (fun k => [48 + k]) 32 [Some 3; None; Some 5; Some 3; Some 1] 2 (fun n => replicate n 7)
    ltac:(lia) ltac:(lia) (fun n => length_replicate n 7)) as (c & s & H1 & _ & H3 & H4 & H5).
  exists c, s. split_and!; [exact H1|exact H3|exact H4|]. apply H5.
  do 3 (destruct s as [|? s]; [vm_compute; reflexivity|]). vm_compute. reflexivity.
Defined.

(** ** Categories *)

Section CategoryProof.
Context {K S V : Type} (ltb : K -> K -> bool) `{TotalOrder K ltb} (step : option S -> V -> S).

Definition keys_lt (a b : K * S) : Prop := ltb a.1 b.1 = true.
Definition eqk (a b : K) : bool := negb (ltb a b) && negb (ltb b a).

Lemma eqk_eq a b : eqk a b = true <-> a = b.
Proof.
  unfold eqk. split; [|intros ->; by rewrite (lt_irrefl (ltb := ltb))]. intros [?%negb_true_iff ?%negb_true_iff]%andb_prop. by apply lt_total.
Qed.

Lemma alter_keys key (f : option S -> S) m e : e ∈ map_alter ltb key f m -> e.1 = key \/ exists v, (e.1, v) ∈ m.
Proof.
  induction m as [|[k v] m IH]; cbn [map_alter].
  - intros ->%list_elem_of_singleton. by left.
  - destruct (ltb k key); [|destruct (ltb key k)]; intros [->|He]%elem_of_cons; cbn [fst].
    + right. exists v. left.
    + destruct (IH He) as [?|[v' ?]]; [by left|]. right. exists v'. by right.
    + by left.
    + right. exists e.2. by destruct e.
    + right. exists v. left.
    + right. exists e.2. destruct e. by right.
Qed.
Lemma alter_sorted key (f : option S -> S) m : StronglySorted keys_lt m -> StronglySorted keys_lt (map_alter ltb key f m).
Proof.
  induction 1 as [|[k v] m Hm IH Hk]; cbn [map_alter]; [by repeat constructor|].
  destruct (ltb k key) eqn:E1; [|destruct (ltb key k) eqn:E2].
  - constructor; [done|]. apply Forall_forall. intros e He. rewrite Forall_forall in Hk.
    destruct (alter_keys _ _ _ _ He) as [Ee|[v' Ev]]; unfold keys_lt; cbn; [by rewrite Ee|]. exact (Hk _ Ev).
  - constructor; [by constructor|]. constructor; [done|]. eapply Forall_impl; [exact Hk|]. intros e He. unfold keys_lt in *; cbn in *. by eapply lt_trans.
  - constructor; [done|]. eapply Forall_impl; [exact Hk|]. intros e He. exact He.
Qed.

Lemma find_alter k key (f : option S -> S) m : StronglySorted keys_lt m ->
  map_find ltb k (map_alter ltb key f m) = if eqk k key then Some (f (map_find ltb k m)) else map_find ltb k m.
Proof.
  induction 1 as [|[k0 v] m Hm IH Hk]; cbn [map_alter map_find].
  - unfold eqk. destruct (ltb key k) eqn:E1; [by rewrite andb_false_r|]. by destruct (ltb k key).
  - destruct (ltb k0 key) eqn:E1; [|destruct (ltb key k0) eqn:E2]; cbn [map_find].
    + rewrite IH. destruct (ltb k0 k) eqn:E3; [done|]. destruct (eqk k key) eqn:E4; [|done]. apply eqk_eq in E4 as ->. congruence.
    + destruct (ltb key k) eqn:E3.
      * unfold eqk. by rewrite E3, andb_false_r.
      * unfold eqk. rewrite E3. destruct (ltb k key) eqn:E4; cbn.
        { rewrite (lt_trans _ _ _ E4 E2). by rewrite (le_of_lt ltb _ _ (lt_trans _ _ _ E4 E2)). }
        rewrite <- (lt_total _ _ E3 E4) in *. by rewrite E1, E2.
    + rewrite <- (lt_total _ _ E1 E2) in *. destruct (ltb k0 k) eqn:E3.
      * unfold eqk. by rewrite E3, andb_false_r.
      * unfold eqk. rewrite E3. by destruct (ltb k k0).
Qed.

Lemma length_alter key (f : option S -> S) m : (length m <= length (map_alter ltb key f m) <= Datatypes.S (length m))%nat.
Proof. induction m as [|[k v] m IH]; cbn [map_alter length]; [lia|]. destruct (ltb k key); [cbn; lia|]. destruct (ltb key k); cbn; lia. Qed.
Lemma alter_app_r key (f : option S -> S) pre suf : Forall (fun e => ltb e.1 key = true) pre ->
  map_alter ltb key f (pre ++ suf) = pre ++ map_alter ltb key f suf.
Proof. induction 1 as [|[k v] pre Hy _ IH]; cbn [map_alter app]; [done|]. cbn in Hy. by rewrite Hy, IH. Qed.
Lemma alter_app_l key (f : option S -> S) pre suf : ~ Forall (fun e => ltb e.1 key = true) pre ->
  map_alter ltb key f (pre ++ suf) = map_alter ltb key f pre ++ suf.
Proof.
  induction pre as [|[k v] pre IH]; cbn [map_alter app]; intros Hn; [by destruct Hn|]. destruct (ltb k key) eqn:E; [|by destruct (ltb key k)].
  rewrite IH; [done|]. intros Hp. apply Hn. by constructor.
Qed.

(** A key is updated in the map of the greatest [n] keys. *)
Lemma bounded_alter n key (f : option S -> S) m : StronglySorted keys_lt m ->
  bounded n (map_alter ltb key f (lastn n m)) = lastn n (map_alter ltb key f m).
Proof.
  intros Hs. destruct (lastn_split n m) as (pre & Es & Hp). set (suf := lastn n m) in *.
  assert (length suf <= n)%nat as Hl by (unfold suf; rewrite length_lastn; lia). pose proof (length_alter key f suf) as Hlen.
  rewrite bounded_lastn by lia. rewrite Es at 1. destruct pre as [|p pre]; [done|]. specialize (Hp ltac:(done)).
  destruct (decide (Forall (fun e => ltb e.1 key = true) (p :: pre))) as [Ha|Hn].
  - rewrite alter_app_r by done. by rewrite lastn_app by lia.
  - rewrite alter_app_l, lastn_app by (done || lia). rewrite (lastn_all n suf) by lia.
    destruct suf as [|[z v] suf'] eqn:Esuf; [cbn in Hp; subst n; done|].
    assert (ltb key z = true) as Hz.
    { apply not_Forall_Exists, Exists_exists in Hn as (e & He & Hk); [|intros ?; apply _]. rewrite Es in Hs.
      pose proof (StronglySorted_app_1_elem_of _ _ _ e (z, v) Hs He ltac:(left)) as Hle. apply (le_lt_trans ltb key e.1 z); [|exact Hle].
      unfold le. cbn in Hk. by destruct (ltb e.1 key). }
    cbn [map_alter]. rewrite (le_of_lt ltb _ _ Hz), Hz. rewrite lastn_tail; [done|]. cbn in *. lia.
Qed.

(** The rows of an aggregate: value, condition and key. *)
Definition category_row : Type := option V * option bool * option K.
Definition all_groups (rows : list category_row) : list (K * S) :=
  foldl (fun m r => CateWhere_Update ltb step r.1.1 r.1.2 r.2 m) [] rows.
Definition top_groups (bound : Z) (rows : list category_row) : list (K * S) :=
  foldl (fun m r => TopN_Update ltb step bound r.1.1 r.1.2 r.2 m) [] rows.
(** The values of the rows of a group. *)
Definition member (key : K) (r : category_row) : option V :=
  match r with (Some v, Some true, Some k) => if eqk key k then Some v else None | _ => None end.
Definition group_value (key : K) (rows : list category_row) : option S :=
  foldl (fun o v => Some (step o v)) None (base.omap (member key) rows).

Lemma groups_step m (r : category_row) : StronglySorted keys_lt m ->
  let m' := CateWhere_Update ltb step r.1.1 r.1.2 r.2 m in
  StronglySorted keys_lt m' /\
  forall k, map_find ltb k m' = match member k r with Some v => Some (step (map_find ltb k m) v) | None => map_find ltb k m end.
Proof.
  intros Hs. destruct r as [[[v|] [[]|]] [k0|]]; try done. cbn. split; [by apply alter_sorted|].
  intros k. rewrite find_alter by done. by destruct (eqk k k0).
Qed.

Lemma topn_step bound m (r : category_row) : 0 <= bound < 2 ^ 63 -> StronglySorted keys_lt m ->
  TopN_Update ltb step bound r.1.1 r.1.2 r.2 (lastn (Z.to_nat bound) m) =
  lastn (Z.to_nat bound) (CateWhere_Update ltb step r.1.1 r.1.2 r.2 m).
Proof.
  intros Hb Hs. destruct r as [[v [[]|]] k]; try done. cbn [fst snd TopN_Update CateWhere_Update]. rewrite Z.geb_leb, (proj2 (Z.leb_le 0 _)) by lia.
  rewrite u64_small by lia. cbn [andb]. set (m' := Cate_Update _ _ _ _ (lastn _ _)).
  transitivity (bounded (Z.to_nat bound) m').
  { unfold bounded. rewrite Z.gtb_ltb. destruct (Z.ltb_spec bound (Z.of_nat (length m'))), (Nat.ltb_spec (Z.to_nat bound) (length m')); done || lia. }
  unfold m', Cate_Update. destruct k as [k|], v as [v|]; [by apply bounded_alter|..];
    (rewrite bounded_lastn by (rewrite length_lastn; lia); apply lastn_all; rewrite length_lastn; lia).
Qed.

(** C32: the category aggregates ([count_cate_where], [sum_cate_where], ... and
    their [top_n_key] variants): whatever the order of the rows, the map holds
    its keys in ascending order, each with the fold of the values of exactly
    the rows of its group whose condition holds and whose value is not NULL,
    and the variant bounded by [n] holds, although it forgets keys while it
    runs, exactly the [n] greatest keys with the values of all their rows. *)
Theorem top_n_categories (bound : Z) (rows : list category_row) : 0 <= bound < 2 ^ 63 ->
  StronglySorted keys_lt (all_groups rows) /\
  (forall key, map_find ltb key (all_groups rows) = group_value key rows) /\
  top_groups bound rows = lastn (Z.to_nat bound) (all_groups rows).
Proof.
  intros Hb. unfold all_groups, top_groups, group_value. induction rows as [|r rows (IH1 & IH2 & IH3)] using rev_ind; [split_and!; by constructor|].
  rewrite !foldl_app. cbn [foldl]. destruct (groups_step _ r IH1) as [Hs Hf]. split_and!; [done| |by rewrite IH3, topn_step].
  intros k. rewrite Hf, IH2, omap_app, foldl_app. cbn [base.omap list_omap]. by destruct (member k r).
Qed.
End CategoryProof.

Lemma top_n_categories_witness :
  top_groups Z.ltb (sum_step 64) 2 [(Some 1, Some true, Some 5); (Some 2, Some true, Some 3); (Some 7, None, Some 3); (Some 4, Some true, Some 8); (Some 6, Some true, Some 5)]
  = [(5, 7); (8, 4)] /\
  map_find Z.ltb 5 (all_groups Z.ltb (sum_step 64) [(Some 1, Some true, Some 5); (Some 6, Some true, Some 5)]) = Some 7.
Proof.
  split.
  - rewrite (proj2 (proj2 (top_n_categories Z.ltb (sum_step 64) 2 _ ltac:(lia)))). vm_compute. reflexivity.
  - rewrite (proj1 (proj2 (top_n_categories Z.ltb (sum_step 64) 2 _ ltac:(lia)))). vm_compute. reflexivity.
Defined.

(** ** The text of the groups *)

Section DictText.
Context {K S : Type} (raw : bool) (text : K -> list Z) (format_value : S -> list Z).

Definition entry_text (e : K * S) : list Z := text e.1 ++ 58 :: format_value e.2.
(** The size of the entries with a comma after each. *)
Definition entries_len (es : list (K * S)) : Z := Z.of_nat (length (with_commas (entry_text <$> es))).

Lemma entries_len_cons e es : entries_len (e :: es) =
  Z.of_nat (length (text e.1)) + Z.of_nat (length (format_value e.2)) + 2 + entries_len es.
Proof.
  unfold entries_len. cbn [fmap list_fmap with_commas mbind list_bind]. unfold entry_text at 1. rewrite !length_app. cbn [length]. unfold with_commas. lia.
Qed.

(** The estimate takes the longest prefix that fits. *)
Lemma estimate_ok es acc : 0 <= acc <= MAX_OUTPUT_STR_SIZE ->
  Forall (fun e => Z.of_nat (length (text e.1)) + Z.of_nat (length (format_value e.2)) < 2 ^ 31) es ->
  exists l rest, es = l ++ rest /\ estimate text format_value es acc = (acc + entries_len l, l) /\
    acc + entries_len l <= MAX_OUTPUT_STR_SIZE /\
    (forall e rest', rest = e :: rest' -> MAX_OUTPUT_STR_SIZE < acc + entries_len (l ++ [e])).
Proof.
  intros Ha Hf. revert acc Ha. induction Hf as [|e es He _ IH]; intros acc Ha; cbn [estimate].
  - exists [], []. change (entries_len []) with 0. rewrite Z.add_0_r. split_and!; [done..|lia|done].
  - unfold MAX_OUTPUT_STR_SIZE in *. rewrite (u32_small (acc + _)) by lia. rewrite (u32_small (_ + Z.of_nat (length (format_value _)))) by lia.
    rewrite u32_small by lia. rewrite Z.gtb_ltb. destruct (Z.ltb_spec 4096 (acc + Z.of_nat (length (text e.1)) + Z.of_nat (length (format_value e.2)) + 2)) as [Hgt|Hle].
    + exists [], (e :: es). cbn [app]. split_and!; [done|change (entries_len []) with 0; by rewrite Z.add_0_r|change (entries_len []) with 0; lia|].
      intros e' r' [= <- <-]. rewrite entries_len_cons. change (entries_len []) with 0. lia.
    + destruct (IH (acc + Z.of_nat (length (text e.1)) + Z.of_nat (length (format_value e.2)) + 2) ltac:(lia)) as (l & rest & -> & -> & Hl & Hn). exists (e :: l), rest. cbn [app]. rewrite entries_len_cons.
      split_and!; [done|f_equal; lia|lia|]. intros e' r' Er. specialize (Hn e' r' Er). rewrite entries_len_cons. lia.
Qed.

Lemma fill_entries_ok es : forall pre rest, Z.of_nat (length rest) = entries_len es -> Z.of_nat (length rest) < 4294967296 ->
  fill_entries raw text format_value es (pre ++ rest) (Z.of_nat (length pre)) (Z.of_nat (length rest)) = Some (pre ++ with_commas (entry_text <$> es)).
Proof.
  induction es as [|e es IH]; intros pre rest Hl Hs; cbn [fill_entries fmap list_fmap].
  - destruct rest; [done|]. done.
  - rewrite entries_len_cons in Hl. pose proof (Nat2Z.is_nonneg (length (with_commas (entry_text <$> es)))) as Hnn. unfold entries_len in Hl.
    destruct (put_text raw (text e.1) pre rest 58) as (b & rest' & -> & Es & Hr); [lia|]. cbn [mbind option_bind]. rewrite Es. cbn [mbind option_bind].
    replace (Z.of_nat (length pre) + Z.of_nat (length (text e.1)) + 1) with (Z.of_nat (length (pre ++ text e.1 ++ [58]))) by (rewrite !length_app; cbn; lia).
    rewrite (u32_small (_ + 1)) by lia. rewrite (u32_small (Z.of_nat (length rest) - _)) by lia.
    replace (Z.of_nat (length rest) - (Z.of_nat (length (text e.1)) + 1)) with (Z.of_nat (length rest')) by lia.
    set (pre2 := pre ++ text e.1 ++ [58]).
    destruct (put_text false (format_value e.2) pre2 rest' 44) as (b2 & rest2 & -> & Es2 & Hr2); [lia|]. cbn [mbind option_bind].
    rewrite u32_small by lia. unfold put_comma. rewrite Z.gtb_ltb, (proj2 (Z.ltb_lt 0 _)) by lia. rewrite Es2. cbn [mbind option_bind].
    rewrite u32_small by lia. replace (Z.of_nat (length rest') - Z.of_nat (length (format_value e.2)) - 1) with (Z.of_nat (length rest2)) by lia.
    replace (Z.of_nat (length pre2) + Z.of_nat (length (format_value e.2)) + 1) with (Z.of_nat (length (pre2 ++ format_value e.2 ++ [44]))) by (rewrite !length_app; cbn; lia).
    rewrite IH; [|unfold entries_len; lia|lia]. f_equal. unfold pre2, entry_text. cbn [with_commas mbind list_bind]. by rewrite <- !app_assoc; cbn; rewrite <- ?app_assoc.
Qed.

(** The printed groups: the text is the longest prefix of the entries, in
    ascending or descending order of their keys, whose [key:value,] texts fit
    in 4096 bytes, joined by commas, and every write is in the buffer; only
    when already the first entry does not fit, the terminator is written before
    the (empty) buffer. *)
Theorem dict_output (alloc : nat -> mem) (is_desc : bool) (m : list (K * S)) :
  (forall n, length (alloc n) = n) -> m <> [] ->
  Forall (fun e => Z.of_nat (length (text e.1)) + Z.of_nat (length (format_value e.2)) < 2 ^ 31) m ->
  exists shown hidden, (if is_desc then rev m else m) = shown ++ hidden /\
    entries_len shown <= 4096 /\
    (forall e hidden', hidden = e :: hidden' -> 4096 < entries_len (shown ++ [e])) /\
    Dict_OutputString raw text format_value alloc is_desc m =
      if bool_decide (entries_len shown = 0) then None else Some (joined (entry_text <$> shown)).
Proof.
  intros Ha Hne Hf. destruct (estimate_ok (if is_desc then rev m else m) 0) as (l & rest & El & Ee & Hl & Hn); [by unfold MAX_OUTPUT_STR_SIZE| |].
  { destruct is_desc; [|done]. apply Forall_forall. intros e He. apply (proj1 (Forall_forall _ _) Hf). apply list_elem_of_In, in_rev. by apply list_elem_of_In. }
  exists l, rest. unfold MAX_OUTPUT_STR_SIZE in *. split_and!; [done|lia|intros e r' Er; specialize (Hn e r' Er); lia|].
  unfold Dict_OutputString. destruct m as [|e0 m0]; [done|]. rewrite Ee. destruct l as [|e l].
  - rewrite bool_decide_true by done. change (entries_len []) with 0. change (0 + 0) with 0. rewrite alloc_ok by lia. cbn [fill_entries mbind option_bind]. assert (alloc (Z.to_nat 0) = []) as -> by (apply nil_length_inv, Ha). done.
  - rewrite bool_decide_false by (rewrite entries_len_cons; unfold entries_len; lia).
    pose proof (fill_entries_ok (e :: l) [] (alloc (Z.to_nat (entries_len (e :: l))))) as Hfill. rewrite Ha in Hfill. cbn [app length] in Hfill.
    rewrite Z2Nat.id in Hfill by (unfold entries_len; lia). change (Z.of_nat 0) with 0 in Hfill. rewrite Z.add_0_l, alloc_ok by (unfold entries_len in *; lia). cbn [mbind option_bind]. rewrite Hfill by lia. cbn [mbind option_bind].
    unfold entries_len in *. rewrite joined_commas in * by done. apply finish_ok. rewrite length_app in Hl. cbn [length] in Hl. lia.
Qed.
End DictText.

Lemma dict_output_witness : exists shown hidden, [(7, 10); (8, 11)] = shown ++ hidden /\
  Dict_OutputString false (fun k => [48 + k]) (fun v => [55 + v]) (fun n => replicate n 9) false [(7, 10); (8, 11)] =
    if bool_decide (entries_len (fun k => [48 + k]) (fun v => [55 + v]) shown = 0) then None else Some (joined (entry_text (fun k => [48 + k]) (fun v => [55 + v]) <$> shown)).
Proof.
  destruct (dict_output false (fun k => [48 + k]) (fun v => [55 + v]) (fun n => replicate n 9) false [(7, 10); (8, 11)]
    (fun n => length_replicate n 9) ltac:(discriminate) ltac:(repeat constructor)) as (shown & hidden & H1 & _ & _ & H4).
  exists shown, hidden. split; [exact H1|exact H4].
Defined.

(** A key that does not fit in 4096 bytes: the terminator is stored before
    the buffer. *)
Theorem long_category_overruns (alloc : nat -> mem) (v : Z) : (forall n, length (alloc n) = n) ->
  Dict_OutputString true (fun k : list Z => k) (fun _ : Z => [48]) alloc false [(replicate 5000 65, v)] = None.
Proof.
  intros Ha. unfold Dict_OutputString. cbn [estimate fst snd]. rewrite length_replicate.
  replace (u32 _ >? _) with true by (vm_compute; reflexivity). rewrite alloc_ok by lia. cbn [fill_entries mbind option_bind].
  assert (alloc (Z.to_nat 0) = []) as -> by (apply nil_length_inv, Ha). done.
Qed.
