(* ===== verification/Calendar.v ===== *)
(** * The calendar of the C library

    The functions of [time.h] the engine calls: [gmtime_r] splits a number of
    seconds since 1970 into the fields of a [struct tm] (the proleptic
    Gregorian calendar, no leap seconds), [timegm] is its inverse, [strftime]
    prints the fields and [strptime] reads them. *)

From Stdlib Require Import String Ascii.
From stdpp Require Import base numbers list option.
From S2P Require Import Prelude FnGenerators.

(** ** Days *)

Definition leap (y : Z) : bool := (y mod 4 =? 0) && (negb (y mod 100 =? 0) || (y mod 400 =? 0)).
Definition days_in_month (y m : Z) : Z :=
  if m =? 2 then (if leap y then 29 else 28)
  else if (m =? 4) || (m =? 6) || (m =? 9) || (m =? 11) then 30 else 31.
Definition valid_date (y m d : Z) : Prop := 1 <= m <= 12 /\ 1 <= d <= days_in_month y m.

(** The day after a date. *)
Definition next_day (y m d : Z) : Z * Z * Z :=
  if d <? days_in_month y m then (y, m, d + 1) else if m <? 12 then (y, m + 1, 1) else (y + 1, 1, 1).

(** Days since 1970-01-01. Years are counted from March, so that the leap day
    is the last day of a year. *)
Definition days_of_date (y m d : Z) : Z :=
  let y' := if m <=? 2 then y - 1 else y in
  let mp := if m <=? 2 then m + 9 else m - 3 in
  365 * y' + y' / 4 - y' / 100 + y' / 400 + (153 * mp + 2) / 5 + d - 1 - 719468.

(** The date of a day: 400-year cycles, centuries, 4-year cycles and years. *)
Definition date_of_days (n : Z) : Z * Z * Z :=
  let z := n + 719468 in
  let era := z / 146097 in
  let doe := z mod 146097 in
  let c := Z.min 3 (doe / 36524) in
  let doc := doe - 36524 * c in
  let q := doc / 1461 in
  let doq := doc - 1461 * q in
  let a := Z.min 3 (doq / 365) in
  let doy := doq - 365 * a in
  let mp := (5 * doy + 2) / 153 in
  let y' := 400 * era + 100 * c + 4 * q + a in
  let d := doy - (153 * mp + 2) / 5 + 1 in
  if mp <? 10 then (y', mp + 3, d) else (y' + 1, mp - 9, d).

Lemma days_epoch : days_of_date 1970 1 1 = 0.
Proof. reflexivity. Qed.

Lemma leap_spec y : leap y = true <-> y mod 4 = 0 /\ (y mod 100 <> 0 \/ y mod 400 = 0).
Proof. unfold leap. rewrite andb_true_iff, orb_true_iff, negb_true_iff, Z.eqb_eq, Z.eqb_neq, Z.eqb_eq. tauto. Qed.
Lemma leap_false y : leap y = false <-> y mod 4 <> 0 \/ (y mod 100 = 0 /\ y mod 400 <> 0).
Proof.
  rewrite <- not_true_iff_false, leap_spec. split; intros; [|lia].
  destruct (decide (y mod 4 = 0)); [|by left]. right. lia.
Qed.

(** The days before a year that begins in March. *)
Definition days_before (y : Z) : Z := 365 * y + y / 4 - y / 100 + y / 400.
Lemma days_before_S y : days_before (y + 1) = days_before y + (if leap (y + 1) then 366 else 365).
Proof.
  unfold days_before. destruct (leap (y + 1)) eqn:E; [apply leap_spec in E|apply leap_false in E]; Z.to_euclidean_division_equations; lia.
Qed.

Ltac months m := assert (m = 1 \/ m = 2 \/ m = 3 \/ m = 4 \/ m = 5 \/ m = 6 \/ m = 7 \/ m = 8 \/ m = 9 \/ m = 10 \/ m = 11 \/ m = 12) as [->|[->|[->|[->|[->|[->|[->|[->|[->|[->|[->| ->]]]]]]]]]]] by lia.

Ltac constants := repeat match goal with
  | |- context [Z.add 0 (Zpos ?q)] => change (Z.add 0 (Zpos q)) with (Zpos q)
  | |- context [Z.add (Zpos ?p) (Zpos ?q)] => let v := eval vm_compute in (Z.add (Zpos p) (Zpos q)) in change (Z.add (Zpos p) (Zpos q)) with v
  | |- context [Z.sub (Zpos ?p) (Zpos ?q)] => let v := eval vm_compute in (Z.sub (Zpos p) (Zpos q)) in change (Z.sub (Zpos p) (Zpos q)) with v
  | |- context [Z.div (Z.add (Z.mul 153 ?m) 2) 5] =>
      let v := eval vm_compute in (Z.div (Z.add (Z.mul 153 m) 2) 5) in change (Z.div (Z.add (Z.mul 153 m) 2) 5) with v
  end.

(** Consecutive dates have consecutive numbers. *)
Lemma days_next y m d : valid_date y m d ->
  let '(y', m', d') := next_day y m d in valid_date y' m' d' /\ days_of_date y' m' d' = days_of_date y m d + 1.
Proof.
  intros [Hm Hd]. unfold next_day. pose proof (days_before_S (y - 1)) as Hy. replace (y - 1 + 1) with y in Hy by lia. unfold days_before in Hy.
  destruct (Z.ltb_spec d (days_in_month y m)) as [Hlt|Hge].
  - split; [split; lia|]. unfold days_of_date. lia.
  - assert (d = days_in_month y m) as -> by lia. clear Hd Hge. unfold valid_date.
    months m; cbn [Z.ltb Z.compare Pos.compare Pos.compare_cont]; constants; unfold days_of_date, days_in_month; cbn -[leap Z.div Z.mul Z.add Z.sub];
      repeat split; try lia; destruct (leap y) in Hy |- *; rewrite ?Z.add_simpl_r; constants; lia.
Qed.

(** The day in a year that begins in March, and its month. *)
Lemma day_of_year mp d y : 0 <= mp <= 11 ->
  let m := if mp <? 10 then mp + 3 else mp - 9 in
  let doy := (153 * mp + 2) / 5 + d - 1 in
  1 <= d <= days_in_month (if mp <? 10 then y else y + 1) m ->
  0 <= doy <= (if leap (y + 1) then 365 else 364) /\ (5 * doy + 2) / 153 = mp.
Proof.
  intros Hm. assert (mp = 0 \/ mp = 1 \/ mp = 2 \/ mp = 3 \/ mp = 4 \/ mp = 5 \/ mp = 6 \/ mp = 7 \/ mp = 8 \/ mp = 9 \/ mp = 10 \/ mp = 11) as Hc by lia.
  clear Hm. destruct Hc as [->|[->|[->|[->|[->|[->|[->|[->|[->|[->|[->| ->]]]]]]]]]]]; unfold days_in_month; cbn -[leap Z.div Z.mul Z.add Z.sub]; constants; cbn -[leap Z.div Z.mul Z.add Z.sub];
    destruct (leap (y + 1)); intros Hd; (split; [lia|]); Z.to_euclidean_division_equations; lia.
Qed.
Lemma month_of_day doy y : 0 <= doy <= (if leap (y + 1) then 365 else 364) ->
  let mp := (5 * doy + 2) / 153 in
  0 <= mp <= 11 /\ 1 <= doy - (153 * mp + 2) / 5 + 1 <= days_in_month (if mp <? 10 then y else y + 1) (if mp <? 10 then mp + 3 else mp - 9).
Proof.
  intros Hd. assert (0 <= (5 * doy + 2) / 153 <= 11) as Hm by (destruct (leap _); Z.to_euclidean_division_equations; lia).
  split; [done|]. remember ((5 * doy + 2) / 153) as mp eqn:E.
  assert (mp = 0 \/ mp = 1 \/ mp = 2 \/ mp = 3 \/ mp = 4 \/ mp = 5 \/ mp = 6 \/ mp = 7 \/ mp = 8 \/ mp = 9 \/ mp = 10 \/ mp = 11) as Hc by lia.
  clear Hm. destruct Hc as [->|[->|[->|[->|[->|[->|[->|[->|[->|[->|[->| ->]]]]]]]]]]]; unfold days_in_month; cbn -[leap Z.div Z.mul Z.add Z.sub]; constants; cbn -[leap Z.div Z.mul Z.add Z.sub];
    revert E Hd; destruct (leap (y + 1)); intros E Hd; Z.to_euclidean_division_equations; lia.
Qed.

(** The year and the day in it. *)
Definition split_year (z : Z) : Z * Z :=
  let era := z / 146097 in
  let doe := z mod 146097 in
  let c := Z.min 3 (doe / 36524) in
  let doc := doe - 36524 * c in
  let q := doc / 1461 in
  let doq := doc - 1461 * q in
  let a := Z.min 3 (doq / 365) in
  (400 * era + 100 * c + 4 * q + a, doq - 365 * a).
Lemma split_year_spec z : let '(y, doy) := split_year z in
  z = days_before y + doy /\ 0 <= doy <= (if leap (y + 1) then 365 else 364).
Proof.
  unfold split_year. cbv zeta. pose proof (Z.div_mod z 146097 ltac:(lia)) as Hz. pose proof (Z.mod_pos_bound z 146097 ltac:(lia)) as Hdoe.
  set (era := z / 146097) in *. set (doe := z mod 146097) in *.
  set (c := Z.min 3 (doe / 36524)). assert (0 <= c <= 3 /\ 0 <= doe - 36524 * c <= 36524 /\ (c <= 2 -> doe - 36524 * c < 36524)) as (Hc & Hdoc & Hc2)
    by (unfold c; Z.to_euclidean_division_equations; lia).
  set (doc := doe - 36524 * c) in *. set (q := doc / 1461).
  assert (0 <= q <= 24 /\ 0 <= doc - 1461 * q < 1461) as (Hq & Hdoq) by (unfold q; Z.to_euclidean_division_equations; lia).
  set (doq := doc - 1461 * q) in *. set (a := Z.min 3 (doq / 365)).
  assert (0 <= a <= 3 /\ 0 <= doq - 365 * a <= 365 /\ (doq - 365 * a = 365 -> a = 3)) as (Ha & Hdoy & Ha2)
    by (unfold a; Z.to_euclidean_division_equations; lia).
  assert (doq - 365 * a = 365 -> q <= 23 \/ c = 3) as Hq2 by lia. clearbody era doe c q a.
  set (y := 400 * era + 100 * c + 4 * q + a). assert (y / 400 = era) as E4 by (unfold y; Z.to_euclidean_division_equations; lia).
  assert (y / 100 = 4 * era + c) as E1 by (unfold y; Z.to_euclidean_division_equations; lia).
  assert (y / 4 = 100 * era + 25 * c + q) as Eq by (unfold y; Z.to_euclidean_division_equations; lia).
  split; [unfold days_before; rewrite E4, E1, Eq; unfold y, doq, doc in *; lia|]. destruct (leap (y + 1)) eqn:E; [lia|].
  apply leap_false in E. destruct (decide (doq - 365 * a = 365)) as [H5|]; [|lia]. exfalso. specialize (Ha2 H5). specialize (Hq2 H5).
  unfold y in E. clear -E Ha2 Hq2 Hc Hq. subst a. destruct E as [E|[E1 E2]]; Z.to_euclidean_division_equations; lia.
Qed.

Lemma days_before_mono y y' : y < y' -> days_before y + 365 <= days_before y'.
Proof. unfold days_before. intros. Z.to_euclidean_division_equations; lia. Qed.
Lemma split_year_unique z y doy : z = days_before y + doy -> 0 <= doy <= (if leap (y + 1) then 365 else 364) -> split_year z = (y, doy).
Proof.
  intros Hz Hd. pose proof (split_year_spec z) as Hs. destruct (split_year z) as [y1 d1]. destruct Hs as [Hs Hd1].
  pose proof (days_before_S y). pose proof (days_before_S y1).
  destruct (Z.lt_trichotomy y y1) as [Hlt|[->|Hlt]].
  - destruct (decide (y1 = y + 1)) as [->|]; [destruct (leap (y + 1)); lia|].
    pose proof (days_before_mono (y + 1) y1 ltac:(lia)). destruct (leap (y + 1)); lia.
  - f_equal. lia.
  - destruct (decide (y = y1 + 1)) as [->|]; [destruct (leap (y1 + 1)); lia|].
    pose proof (days_before_mono (y1 + 1) y ltac:(lia)). destruct (leap (y1 + 1)); lia.
Qed.

Lemma date_of_days_split n : date_of_days n =
  let '(y, doy) := split_year (n + 719468) in
  let mp := (5 * doy + 2) / 153 in
  let d := doy - (153 * mp + 2) / 5 + 1 in
  if mp <? 10 then (y, mp + 3, d) else (y + 1, mp - 9, d).
Proof. reflexivity. Qed.

(** [date_of_days] finds the only date with a number. *)
Lemma days_date n : let '(y, m, d) := date_of_days n in valid_date y m d /\ days_of_date y m d = n.
Proof.
  rewrite date_of_days_split. pose proof (split_year_spec (n + 719468)) as Hs. destruct (split_year (n + 719468)) as [y doy]. destruct Hs as [Hz Hd].
  destruct (month_of_day doy y Hd) as [Hm Hday]. cbv zeta in *. set (mp := (5 * doy + 2) / 153) in *. clearbody mp.
  unfold valid_date, days_of_date. unfold days_before in Hz. destruct (Z.ltb_spec mp 10).
  - split; [lia|]. rewrite (proj2 (Z.leb_gt _ 2)) by lia. replace (mp + 3 - 3) with mp by lia. lia.
  - split; [lia|]. rewrite (proj2 (Z.leb_le _ 2)) by lia. replace (mp - 9 + 9) with mp by lia. rewrite Z.add_simpl_r. lia.
Qed.
Lemma date_days y m d : valid_date y m d -> date_of_days (days_of_date y m d) = (y, m, d).
Proof.
  intros [Hm Hd]. rewrite date_of_days_split. set (mp := if m <=? 2 then m + 9 else m - 3). set (y' := if m <=? 2 then y - 1 else y).
  assert (0 <= mp <= 11 /\ (if mp <? 10 then mp + 3 else mp - 9) = m /\ (if mp <? 10 then y' else y' + 1) = y) as (Hmp & Em & Ey).
  { unfold mp, y'. destruct (Z.leb_spec m 2).
    - rewrite (proj2 (Z.ltb_ge _ _)) by lia. split_and!; lia.
    - rewrite (proj2 (Z.ltb_lt _ _)) by lia. split_and!; lia. }
  destruct (day_of_year mp d y' Hmp) as [Hdoy Emp]; [by rewrite Ey, Em|]. set (doy := (153 * mp + 2) / 5 + d - 1) in *.
  rewrite (split_year_unique _ y' doy); [|unfold days_of_date, days_before, doy; fold mp y'; lia|done].
  cbv zeta. rewrite Emp. replace (doy - (153 * mp + 2) / 5 + 1) with d by (unfold doy; lia).
  destruct (mp <? 10); congruence.
Qed.

(** ** Broken-down time *)

Record tm := mkTm { tm_year : Z; tm_mon : Z; tm_mday : Z; tm_hour : Z; tm_min : Z; tm_sec : Z; tm_wday : Z }.

Definition gmtime (time : Z) : tm :=
  let days := time / 86400 in
  let s := time mod 86400 in
  let '(y, m, d) := date_of_days days in
  mkTm (y - 1900) (m - 1) d (s / 3600) (s mod 3600 / 60) (s mod 60) ((days + 4) mod 7).

Definition timegm (t : tm) : Z :=
  86400 * days_of_date (tm_year t + 1900) (tm_mon t + 1) (tm_mday t) + 3600 * tm_hour t + 60 * tm_min t + tm_sec t.

(** Fields in their ranges. *)
Definition tm_ok (t : tm) : Prop :=
  valid_date (tm_year t + 1900) (tm_mon t + 1) (tm_mday t) /\ 0 <= tm_hour t <= 23 /\ 0 <= tm_min t <= 59 /\ 0 <= tm_sec t <= 59.

Lemma gmtime_ok time : tm_ok (gmtime time) /\ timegm (gmtime time) = time.
Proof.
  unfold gmtime, timegm, tm_ok. pose proof (days_date (time / 86400)) as Hd. destruct (date_of_days _) as [[y m] d]. destruct Hd as [Hv Hd]. cbn.
  replace (y - 1900 + 1900) with y by lia. replace (m - 1 + 1) with m by lia. rewrite Hd. split; [split; [done|]|]; Z.to_euclidean_division_equations; lia.
Qed.
Lemma timegm_gmtime t : tm_ok t -> let u := gmtime (timegm t) in
  tm_year u = tm_year t /\ tm_mon u = tm_mon t /\ tm_mday u = tm_mday t /\ tm_hour u = tm_hour t /\ tm_min u = tm_min t /\ tm_sec u = tm_sec t.
Proof.
  intros (Hv & Hh & Hm & Hs). unfold gmtime. set (D := days_of_date (tm_year t + 1900) (tm_mon t + 1) (tm_mday t)).
  assert (timegm t / 86400 = D) as -> by (unfold timegm; fold D; Z.to_euclidean_division_equations; lia).
  unfold D. rewrite date_days by done. cbn. unfold timegm. fold D. Z.to_euclidean_division_equations; lia.
Qed.

(** ** [strftime] and [strptime] *)

Section Format.
(** The text of the directives that are not modelled. *)
Variable other : Z -> tm -> list Z.

Definition directive (t : tm) (c : Z) : list Z :=
  if c =? 89 then to_string (tm_year t + 1900)
  else if c =? 109 then padded 48 2 (tm_mon t + 1)
  else if c =? 100 then padded 48 2 (tm_mday t)
  else if c =? 72 then padded 48 2 (tm_hour t)
  else if c =? 77 then padded 48 2 (tm_min t)
  else if c =? 83 then padded 48 2 (tm_sec t)
  else if c =? 37 then [37]
  else other c t.
Fixpoint format_text (fmt : list Z) (t : tm) : list Z :=
  match fmt with
  | [] => []
  | c :: fmt' =>
      if c =? 37 then
        match fmt' with [] => other 0 t | x :: fmt'' => directive t x ++ format_text fmt'' t end
      else c :: format_text fmt' t
  end.
(** [strftime(buffer, size, ..)]: the text in the buffer, whose contents are
    indeterminate when it has no room for the text and a zero. *)
Definition strftime (size : nat) (fmt : list Z) (t : tm) : option (list Z) :=
  let s := format_text fmt t in if (length s <? size)%nat then Some s else None.
End Format.

Definition is_space (c : Z) : bool := (c =? 32) || ((9 <=? c) && (c <=? 13)).
Definition is_digit (c : Z) : bool := (48 <=? c) && (c <=? 57).
Fixpoint skip_spaces (s : list Z) : list Z :=
  match s with c :: s' => if is_space c then skip_spaces s' else s | [] => [] end.

(** At most [n] more digits, as long as the number may stay below [to]. *)
Fixpoint read_digits (n : nat) (to val : Z) (s : list Z) : Z * list Z :=
  match n, s with
  | S n', c :: s' => if (val * 10 <=? to) && is_digit c then read_digits n' to (10 * val + (c - 48)) s' else (val, s)
  | _, _ => (val, s)
  end.
Definition get_number (from to : Z) (n : nat) (s : list Z) : option (Z * list Z) :=
  match skip_spaces s with
  | c :: s' =>
      if is_digit c then
        let '(v, r) := read_digits (n - 1) to (c - 48) s' in
        if (from <=? v) && (v <=? to) then Some (v, r) else None
      else None
  | [] => None
  end.

(** [strptime] for numeric directives: the fields and the rest of the input. *)
Fixpoint strptime (s fmt : list Z) (t : tm) : option (tm * list Z) :=
  match fmt with
  | [] => Some (t, s)
  | c :: fmt' =>
      if c =? 37 then
        match fmt' with
        | [] => None
        | x :: f =>
            let number from to n set := '(v, r) ← get_number from to n s; strptime r f (set v) in
            let '(mkTm Y mo d h mi sec w) := t in
            if x =? 89 then number 0 9999 4%nat (fun v => mkTm (v - 1900) mo d h mi sec w)
            else if x =? 109 then number 1 12 2%nat (fun v => mkTm Y (v - 1) d h mi sec w)
            else if x =? 100 then number 1 31 2%nat (fun v => mkTm Y mo v h mi sec w)
            else if x =? 72 then number 0 23 2%nat (fun v => mkTm Y mo d v mi sec w)
            else if x =? 77 then number 0 59 2%nat (fun v => mkTm Y mo d h v sec w)
            else if x =? 83 then number 0 61 2%nat (fun v => mkTm Y mo d h mi v w)
            else None
        end
      else if is_space c then strptime (skip_spaces s) fmt' t
      else match s with x :: s' => if x =? c then strptime s' fmt' t else None | [] => None end
  end.

Definition DATE_TIME_FORMAT : list Z := text "%Y-%m-%d %H:%M:%S"%string.
Definition DATE_FORMAT : list Z := text "%Y-%m-%d"%string.

(** *** Numbers *)

Lemma digits_small f n : 0 <= n < 10 -> digits (S f) n = [48 + n].
Proof. intros Hn. cbn [digits]. rewrite (proj2 (Z.ltb_lt n 10)) by lia. by rewrite Z.mod_small by lia. Qed.
Lemma digits_step f n : 10 <= n -> digits (S f) n = digits f (n / 10) ++ [48 + n mod 10].
Proof. intros Hn. cbn [digits]. by rewrite (proj2 (Z.ltb_ge n 10)) by lia. Qed.

Lemma padded2 n : 0 <= n < 100 -> padded 48 2 n = [48 + n / 10; 48 + n mod 10].
Proof.
  intros Hn. unfold padded, to_string. rewrite (proj2 (Z.ltb_ge n 0)) by lia. destruct (Z.ltb_spec n 10).
  - rewrite digits_small by lia. cbn. rewrite Z.div_small, Z.mod_small by lia. done.
  - rewrite digits_step by lia. rewrite digits_small by (Z.to_euclidean_division_equations; lia). done.
Qed.
Lemma year_text n : 1000 <= n <= 9999 -> to_string n = [48 + n / 1000; 48 + n / 100 mod 10; 48 + n / 10 mod 10; 48 + n mod 10].
Proof.
  intros Hn. unfold to_string. rewrite (proj2 (Z.ltb_ge n 0)) by lia.
  rewrite digits_step by lia. rewrite digits_step by (Z.to_euclidean_division_equations; lia). rewrite digits_step by (Z.to_euclidean_division_equations; lia).
  rewrite digits_small by (Z.to_euclidean_division_equations; lia). cbn. rewrite !Z.div_div by lia. done.
Qed.

Lemma digit_spec n : 0 <= n <= 9 -> is_digit (48 + n) = true /\ is_space (48 + n) = false.
Proof. intros Hn. unfold is_digit, is_space. split; [apply andb_true_iff; lia|]. apply orb_false_iff. split; [lia|]. apply andb_false_iff. right. lia. Qed.

Lemma get_number2 from to v r : 0 <= v < 100 -> from <= v <= to -> get_number from to 2 (padded 48 2 v ++ r) = Some (v, r).
Proof.
  intros Hv Hr. rewrite padded2 by done. cbn [app].
  destruct (digit_spec (v / 10)) as [Hd1 Hs1]; [Z.to_euclidean_division_equations; lia|].
  destruct (digit_spec (v mod 10)) as [Hd2 _]; [Z.to_euclidean_division_equations; lia|].
  unfold get_number. cbn [skip_spaces]. rewrite Hs1, Hd1. cbn [Nat.sub read_digits]. rewrite Hd2.
  rewrite (proj2 (Z.leb_le _ to)) by (Z.to_euclidean_division_equations; lia). cbn [andb].
  replace (10 * (48 + v / 10 - 48) + (48 + v mod 10 - 48)) with v by (Z.to_euclidean_division_equations; lia).
  rewrite (proj2 (Z.leb_le from v)), (proj2 (Z.leb_le v to)) by lia. done.
Qed.
Lemma get_number4 v r : 1000 <= v <= 9999 -> get_number 0 9999 4 (to_string v ++ r) = Some (v, r).
Proof.
  intros Hv. rewrite year_text by done. cbn [app].
  destruct (digit_spec (v / 1000)) as [Hd1 Hs1]; [Z.to_euclidean_division_equations; lia|].
  destruct (digit_spec (v / 100 mod 10)) as [Hd2 _]; [Z.to_euclidean_division_equations; lia|].
  destruct (digit_spec (v / 10 mod 10)) as [Hd3 _]; [Z.to_euclidean_division_equations; lia|].
  destruct (digit_spec (v mod 10)) as [Hd4 _]; [Z.to_euclidean_division_equations; lia|].
  unfold get_number. cbn [skip_spaces]. rewrite Hs1, Hd1. cbn [Nat.sub read_digits]. rewrite Hd2, Hd3, Hd4.
  rewrite !andb_true_r. rewrite (proj2 (Z.leb_le (_ * 10) 9999)) by (Z.to_euclidean_division_equations; lia).
  rewrite (proj2 (Z.leb_le ((10 * (48 + v / 1000 - 48) + _) * 10) 9999)) by (Z.to_euclidean_division_equations; lia).
  rewrite (proj2 (Z.leb_le _ 9999)) by (Z.to_euclidean_division_equations; lia).
  match goal with |- context [Some (?x, r)] => replace x with v by (Z.to_euclidean_division_equations; lia) end.
  by rewrite (proj2 (Z.leb_le 0 v)), (proj2 (Z.leb_le v 9999)) by lia.
Qed.

Lemma skip_digit v r : 0 <= v < 100 -> skip_spaces (padded 48 2 v ++ r) = padded 48 2 v ++ r.
Proof.
  intros Hv. rewrite padded2 by done. destruct (digit_spec (v / 10)) as [_ Hs1]; [Z.to_euclidean_division_equations; lia|]. cbn [app skip_spaces]. by rewrite Hs1.
Qed.

(** *** Reading back what was printed *)

Lemma date_time_text other t : format_text other DATE_TIME_FORMAT t =
  to_string (tm_year t + 1900) ++ 45 :: padded 48 2 (tm_mon t + 1) ++ 45 :: padded 48 2 (tm_mday t) ++ 32 ::
  padded 48 2 (tm_hour t) ++ 58 :: padded 48 2 (tm_min t) ++ 58 :: padded 48 2 (tm_sec t).
Proof.
  change DATE_TIME_FORMAT with [37; 89; 45; 37; 109; 45; 37; 100; 32; 37; 72; 58; 37; 77; 58; 37; 83].
  cbn [format_text directive Z.eqb Pos.eqb]. by rewrite app_nil_r.
Qed.
Lemma date_text_of other t : format_text other DATE_FORMAT t =
  to_string (tm_year t + 1900) ++ 45 :: padded 48 2 (tm_mon t + 1) ++ 45 :: padded 48 2 (tm_mday t).
Proof.
  change DATE_FORMAT with [37; 89; 45; 37; 109; 45; 37; 100]. cbn [format_text directive Z.eqb Pos.eqb]. by rewrite app_nil_r.
Qed.
Lemma valid_day y m d : valid_date y m d -> 1 <= m <= 12 /\ 1 <= d <= 31.
Proof. intros [Hm Hd]. unfold days_in_month in Hd. destruct (_ =? 2); [destruct (leap _)|destruct (_ || _)]; lia. Qed.

Lemma strptime_strftime other t t0 r : tm_ok t -> 1000 <= tm_year t + 1900 <= 9999 ->
  strptime (format_text other DATE_TIME_FORMAT t ++ r) DATE_TIME_FORMAT t0 =
  Some (mkTm (tm_year t) (tm_mon t) (tm_mday t) (tm_hour t) (tm_min t) (tm_sec t) (tm_wday t0), r).
Proof.
  intros (Hv & Hh & Hmi & Hs) Hy. apply valid_day in Hv as [Hm Hd]. rewrite date_time_text.
  change DATE_TIME_FORMAT with [37; 89; 45; 37; 109; 45; 37; 100; 32; 37; 72; 58; 37; 77; 58; 37; 83].
  destruct t0 as [Y0 mo0 d0 h0 mi0 s0 w0].
  repeat (rewrite <- ?app_assoc; cbn [strptime app Z.eqb Pos.eqb is_space orb andb Z.leb Z.compare Pos.compare Pos.compare_cont skip_spaces];
    first [rewrite get_number4 by lia|rewrite get_number2 by lia|rewrite skip_digit by lia|idtac]; cbn [mbind option_bind]).
  cbn. do 3 f_equal; lia.
Qed.

(** The text of a time has 19 bytes. *)
Lemma date_time_length other t : tm_ok t -> 1000 <= tm_year t + 1900 <= 9999 -> length (format_text other DATE_TIME_FORMAT t) = 19%nat.
Proof.
  intros (Hv & Hh & Hmi & Hs) Hy. apply valid_day in Hv as [Hm Hd]. rewrite date_time_text, year_text by lia.
  rewrite !padded2 by lia. done.
Qed.
Lemma date_length other t : tm_ok t -> 1000 <= tm_year t + 1900 <= 9999 -> length (format_text other DATE_FORMAT t) = 10%nat.
Proof. intros (Hv & _) Hy. apply valid_day in Hv as [Hm Hd]. rewrite date_text_of, year_text by lia. rewrite !padded2 by lia. done. Qed.
