(* ===== verification/Udf.v ===== *)
(** * Scalar functions

    Models the functions of [src/udf/udf.cc] on time stamps, dates and strings:
    calendar fields, formats, casts from and to strings, substrings and the
    comparison of strings.

    A pointer that may be null is an [option]; an output string is a new
    value, [None] is undefined behaviour. Casts from strings return the value
    and the NULL flag. [boost::gregorian] and the local time zone are
    parameters. *)

From Stdlib Require Import String Ascii.
From stdpp Require Import base numbers list option.
From S2P Require Import Prelude TypeCodec FnGenerators Calendar.

(** ** What the functions call *)

(** [boost::gregorian]: [None] is an exception. *)
Class Gregorian := {
  gdate : Type;
  g_date : Z -> Z -> Z -> option gdate;
  year_month_day : gdate -> Z * Z * Z;
  day_of_week : gdate -> Z;
  week_number : gdate -> Z;
  to_tm : gdate -> tm;
  date_from_tm : tm -> option gdate;
  from_simple_string : list Z -> option gdate;
  date_from_iso_string : list Z -> option gdate
}.

(** The local time zone: [mktime] returns the time and sets [tm_gmtoff];
    [strtof] and [strtod] return the bits of a number and how many bytes were
    read; [other_directive] is the text of further directives of [strftime]. *)
Class CLibrary := {
  mktime : tm -> Z * Z;
  strtof : list Z -> Z * Z;
  strtod : list Z -> Z * Z;
  other_directive : Z -> tm -> list Z
}.

(** A string in a buffer of the runtime. *)
Definition managed (s : list Z) : StringRef := mkStringRef (Z.of_nat (length s)) (Some s).

(** The bytes before the first zero. *)
Fixpoint c_str (s : list Z) : list Z :=
  match s with [] => [] | c :: s' => if c =? 0 then [] else c :: c_str s' end.

Section Udf.
Context `{Gregorian} `{CLibrary}.

(** ** Calendar fields *)

Definition TZ : Z := 8.
Definition TZ_OFFSET : Z := TZ * 3600000.

(** [(ts + TZ_OFFSET) / 1000], split by [gmtime_r]. *)
Definition local_seconds (ts : Z) : option Z := x ← checked_i64 (ts + TZ_OFFSET); Some (Z.quot x 1000).
Definition local_tm (ts : Z) : option tm := gmtime <$> local_seconds ts.

Definition dayofmonth (ts : Z) : option Z := tm_mday <$> local_tm ts.
Definition dayofweek (ts : Z) : option Z := t ← local_tm ts; Some (tm_wday t + 1).
Definition weekofyear (ts : Z) : option Z :=
  t ← local_tm ts; Some match date_from_tm t with Some d => week_number d | None => 0 end.
Definition month (ts : Z) : option Z := t ← local_tm ts; Some (tm_mon t + 1).
Definition year (ts : Z) : option Z := t ← local_tm ts; Some (tm_year t + 1900).

(** The guards shared by the functions on dates. *)
Definition decoded_date (date : Date) : option gdate :=
  match Date_Decode (date_ date) with
  | None => None
  | Some (year, month, day) =>
      if (month <=? 0) || (month >? 12) then None
      else if (day <=? 0) || (day >? 31) then None
      else g_date year month day
  end.
Definition dayofweek_date (date : Date) : Z :=
  match decoded_date date with Some d => day_of_week d + 1 | None => 0 end.
Definition weekofyear_date (date : Date) : Z :=
  match decoded_date date with Some d => week_number d | None => 0 end.

(** ** Formats *)

(** [char buffer[80]] and the string made of it. *)
Definition format_buffer (format : list Z) (t : tm) : option StringRef :=
  s ← strftime other_directive 80 (c_str format) t; Some (managed (c_str s)).

(** The output after the call. *)
Definition date_format_timestamp (timestamp : option Z) (format : list Z) (output : option StringRef) : option (option StringRef) :=
  match output with
  | None => Some None
  | Some _ =>
      match timestamp with
      | None => Some (Some (mkStringRef 0 None))
      | Some ts => t ← local_tm ts; s ← format_buffer format t; Some (Some s)
      end
  end.
Definition date_format_timestamp_ref (timestamp : option Z) (format : option StringRef) (output : option StringRef) : option (option StringRef) :=
  match format with
  | None => Some output
  | Some f => fmt ← StringRef_ToString f; date_format_timestamp timestamp fmt output
  end.
Definition date_format_date (date : option Date) (format : list Z) (output : option StringRef) : option (option StringRef) :=
  match output with
  | None => Some None
  | Some _ =>
      match date with
      | None => Some (Some (mkStringRef 0 None))
      | Some d =>
          match decoded_date d with
          | None => Some (Some (mkStringRef 0 None))
          | Some g => s ← format_buffer format (to_tm g); Some (Some s)
          end
      end
  end.
Definition date_format_date_ref (date : option Date) (format : option StringRef) (output : option StringRef) : option (option StringRef) :=
  match format with
  | None => Some output
  | Some f => fmt ← StringRef_ToString f; date_format_date date fmt output
  end.

Definition timestamp_to_string (v : option Z) (output : option StringRef) := date_format_timestamp v DATE_TIME_FORMAT output.
Definition date_to_string (date : option Date) (output : option StringRef) := date_format_date date DATE_FORMAT output.
Definition bool_to_string (v : bool) : StringRef := managed (text (if v then "true" else "false")%string).
Definition timestamp_to_date (timestamp : Z) : option (option Date) :=
  t ← local_tm timestamp; Some (Some (Date_of_ymd (tm_year t + 1900) (tm_mon t + 1) (tm_mday t))).

(** ** Casts from strings *)

Definition one_of (temp : list Z) (words : list string) : bool := existsb (fun w => bool_decide (text w = temp)) words.
Definition string_to_bool (str : option StringRef) : option (bool * bool) :=
  match str with
  | None => Some (false, true)
  | Some s =>
      if sr_size s =? 0 then Some (false, true)
      else
        temp ← StringRef_ToString s;
        Some (if one_of temp ["y"; "yes"; "1"; "t"; "true"]%string then (true, false)
              else if one_of temp ["n"; "no"; "0"; "f"; "false"]%string then (false, false)
              else (false, true))
  end.

(** [strtol] and [strtoll]: the value, and how many bytes were read. *)
Definition digit_value (c : Z) : Z :=
  if is_digit c then c - 48
  else if (97 <=? c) && (c <=? 122) then c - 87
  else if (65 <=? c) && (c <=? 90) then c - 55
  else 255.
Fixpoint read_base (base acc : Z) (s : list Z) : Z * list Z :=
  match s with
  | c :: s' => if digit_value c <? base then read_base base (base * acc + digit_value c) s' else (acc, s)
  | [] => (acc, [])
  end.
Definition starts_digit (base : Z) (s : list Z) : bool :=
  match s with c :: _ => digit_value c <? base | [] => false end.
(** Base 0 looks at the prefix. *)
Definition number_base (base : Z) (s : list Z) : Z * list Z :=
  if base =? 0 then
    match s with
    | c :: s1 =>
        if c =? 48 then
          match s1 with
          | x :: s2 => if ((x =? 120) || (x =? 88)) && starts_digit 16 s2 then (16, s2) else (8, s)
          | [] => (8, s)
          end
        else (10, s)
    | [] => (10, s)
    end
  else (base, s).
Definition strtoll (base : Z) (s : list Z) : Z * Z :=
  let s1 := skip_spaces s in
  let '(neg, s2) :=
    match s1 with
    | c :: s' => if c =? 45 then (true, s') else if c =? 43 then (false, s') else (false, s1)
    | [] => (false, s1)
    end in
  let '(b, s3) := number_base base s2 in
  if starts_digit b s3 then
    let '(v, rest) := read_base b 0 s3 in
    let v := if neg then - v else v in
    (Z.max (- 2 ^ 63) (Z.min (2 ^ 63 - 1) v), Z.of_nat (length s - length rest))
  else (0, 0).

(** The steps shared by the numeric casts. *)
Definition string_to_number (parse : list Z -> Z * Z) (conv : Z -> Z) (str : option StringRef) : option (Z * bool) :=
  match str with
  | None => Some (0, true)
  | Some s =>
      if sr_size s =? 0 then Some (0, true)
      else
        str_obj ← StringRef_ToString s;
        let '(v, n) := parse str_obj in
        Some (if n <? sr_size s then (0, true) else (conv v, false))
  end.
Definition string_to_int : option StringRef -> option (Z * bool) := string_to_number (strtoll 10) i32.
Definition string_to_smallint : option StringRef -> option (Z * bool) := string_to_number (strtoll 10) (fun v => i16 (i32 v)).
Definition string_to_bigint : option StringRef -> option (Z * bool) := string_to_number (strtoll 0) (fun v => v).
Definition string_to_float : option StringRef -> option (Z * bool) := string_to_number strtof (fun v => v).
Definition string_to_double : option StringRef -> option (Z * bool) := string_to_number strtod (fun v => v).

(** The fields of an uninitialised [struct tm]. *)
Definition any_tm : tm := mkTm 0 0 0 0 0 0 0.

(** [Some None] is NULL. *)
Definition string_to_date (str : StringRef) : option (option Date) :=
  if sr_size str =? 19 then
    s ← StringRef_ToString str;
    Some match strptime s DATE_TIME_FORMAT any_tm with
         | None => None
         | Some (t, _) => if tm_year t <? 0 then None else Some (Date_of_ymd (tm_year t + 1900) (tm_mon t + 1) (tm_mday t))
         end
  else if (sr_size str =? 10) || (sr_size str =? 8) then
    s ← StringRef_ToString str;
    Some match (if sr_size str =? 10 then from_simple_string s else date_from_iso_string s) with
         | None => None
         | Some g => let '(y, m, d) := year_month_day g in if y <? 1900 then None else Some (Date_of_ymd y m d)
         end
  else Some None.

(** [(mktime(&t) + t.tm_gmtoff) * 1000 - TZ_OFFSET]. *)
Definition time_of_tm (t : tm) : option Z :=
  let '(time, gmtoff) := mktime t in
  x ← checked_i64 (time + gmtoff); y ← checked_i64 (x * 1000); checked_i64 (y - TZ_OFFSET).
Definition time_of_gdate (g : gdate) : option (option Z) :=
  let t := to_tm g in if tm_year t <? 0 then Some None else Some <$> time_of_tm t.

Definition string_to_timestamp (str : StringRef) : option (option Z) :=
  if sr_size str =? 19 then
    s ← StringRef_ToString str;
    match strptime s DATE_TIME_FORMAT any_tm with
    | None => Some None
    | Some (t, _) => if tm_year t <? 0 then Some None else Some <$> time_of_tm t
    end
  else if (sr_size str =? 10) || (sr_size str =? 8) then
    s ← StringRef_ToString str;
    match (if sr_size str =? 10 then from_simple_string s else date_from_iso_string s) with
    | None => Some None
    | Some g => time_of_gdate g
    end
  else Some None.
Definition date_to_timestamp (date : Date) : option (option Z) :=
  match decoded_date date with None => Some None | Some g => time_of_gdate g end.

(** ** Strings *)

Definition sub_string (str : option StringRef) (from len : Z) : option StringRef :=
  match str with
  | None => Some (mkStringRef 0 None)
  | Some s =>
      match sr_data s with
      | None => Some (mkStringRef 0 None)
      | Some data =>
          if (from =? 0) || (len <? 1) then Some (mkStringRef 0 (Some data))
          else
            let str_size := i32 (sr_size s) in
            min ← (if str_size =? - 2 ^ 31 then None else Some (-1 * str_size));
            if (from >? str_size) || (from <? min) then Some (mkStringRef 0 (Some data))
            else
              let from := if from <? 0 then str_size + from else from - 1 in
              let len := if str_size - from <? len then str_size - from else len in
              Some (mkStringRef (u32 len) (Some (drop (Z.to_nat from) data)))
      end
  end.
Definition sub_string_from (str : option StringRef) (from : Z) : option StringRef :=
  match str with
  | None => Some (mkStringRef 0 None)
  | Some s => match sr_data s with None => Some (mkStringRef 0 None) | Some _ => sub_string str from (i32 (sr_size s)) end
  end.

(** [same]: both pointers are equal. *)
Definition strcmp (same : bool) (s1 s2 : option StringRef) : option Z :=
  if same then Some 0
  else match s1, s2 with None, _ => Some (-1) | _, None => Some 1 | Some a, Some b => StringRef_compare a b end.
End Udf.
