(* ===== verification/UdfProof.v ===== *)
(** * Scalar functions on time stamps, dates and strings

    Calendar fields are those of the Gregorian date eight hours ahead of UTC,
    casts to strings are undone by the casts from strings (of times that the
    zone of the process does not skip), and substrings stay in their string. The last theorems show where the casts accept too much. *)

From Stdlib Require Import String Ascii.
From stdpp Require Import base numbers list option.
From S2P Require Import Prelude TypeCodec FnGenerators KeyText Calendar Udf.

(** What is documented of [boost::gregorian]: dates of the years 1400 to 9999,
    exceptions for dates that do not exist, and the texts it reads. *)
Class GregorianLaws `{Gregorian} := {
  g_date_ok : forall y m d, 1400 <= y <= 9999 -> valid_date y m d -> exists g, g_date y m d = Some g /\ year_month_day g = (y, m, d);
  to_tm_ok : forall g y m d, year_month_day g = (y, m, d) ->
    let t := to_tm g in tm_year t = y - 1900 /\ tm_mon t = m - 1 /\ tm_mday t = d /\ tm_hour t = 0 /\ tm_min t = 0 /\ tm_sec t = 0;
  simple_string_ok : forall y m d, 1400 <= y <= 9999 -> valid_date y m d ->
    from_simple_string (to_string y ++ 45 :: padded 48 2 m ++ 45 :: padded 48 2 d) = g_date y m d;
  iso_string_ok : forall y m d, 1400 <= y <= 9999 -> valid_date y m d ->
    date_from_iso_string (to_string y ++ padded 48 2 m ++ padded 48 2 d) = g_date y m d
}.
(** The local time zone of the process: its offset from UTC at every instant,
    and what is documented of [mktime]. It returns an instant and sets
    [tm_gmtoff] to the offset of that instant; if the clocks of the zone show the
    local time at all, it is an instant at which they do. *)
Class ZoneLaws `{CLibrary} := {
  utc_offset : Z -> Z;
  mktime_offset : forall t, tm_ok t -> 1900 <= tm_year t + 1900 <= 9999 -> (mktime t).2 = utc_offset (mktime t).1;
  mktime_ok : forall t x, tm_ok t -> 1900 <= tm_year t + 1900 <= 9999 -> x + utc_offset x = timegm t -> (mktime t).1 + (mktime t).2 = timegm t
}.
(** The local time [l], in seconds, is shown by the clocks of the zone: it is not
    skipped by a change of the offset. *)
Definition clocks_show `{ZoneLaws} (l : Z) : Prop := exists x, x + utc_offset x = l.

Lemma denotes_managed s : sr_denotes (managed s) s.
Proof. split; [done|]. cbn. rewrite load_Some by lia. change (Z.to_nat 0) with 0%nat. by rewrite drop_0, firstn_all. Qed.
Lemma to_string_denotes r s : sr_denotes r s -> StringRef_ToString r = Some s.
Proof.
  intros [Hs Hd]. unfold StringRef_ToString. rewrite Hs. destruct (Z.eqb_spec (Z.of_nat (length s)) 0) as [E|].
  - by destruct s.
  - by rewrite Nat2Z.id.
Qed.
Lemma c_str_id s : Forall (fun c => c <> 0) s -> c_str s = s.
Proof. induction 1 as [|c s Hc _ IH]; cbn; [done|]. by rewrite (proj2 (Z.eqb_neq c 0)), IH. Qed.

Lemma padded2_nz n : 0 <= n < 100 -> Forall (fun c => c <> 0) (padded 48 2 n).
Proof. intros Hn. rewrite padded2 by done. repeat constructor; Z.to_euclidean_division_equations; lia. Qed.
Lemma year_nz n : 1000 <= n <= 9999 -> Forall (fun c => c <> 0) (to_string n).
Proof. intros Hn. rewrite year_text by done. repeat constructor; Z.to_euclidean_division_equations; lia. Qed.

Section Dates.
Context `{GregorianLaws} `{ZoneLaws}.

Lemma date_time_nz t : tm_ok t -> 1000 <= tm_year t + 1900 <= 9999 -> Forall (fun c => c <> 0) (format_text other_directive DATE_TIME_FORMAT t).
Proof.
  intros (Hv & Hh & Hmi & Hs) Hy. apply valid_day in Hv as [Hm Hd]. rewrite date_time_text.
  repeat (apply Forall_app; split; [first [apply year_nz; lia|apply padded2_nz; lia]|]; constructor; [lia|]). apply padded2_nz; lia.
Qed.
Lemma date_nz t : tm_ok t -> 1000 <= tm_year t + 1900 <= 9999 -> Forall (fun c => c <> 0) (format_text other_directive DATE_FORMAT t).
Proof.
  intros (Hv & _) Hy. apply valid_day in Hv as [Hm Hd]. rewrite date_text_of.
  repeat (apply Forall_app; split; [first [apply year_nz; lia|apply padded2_nz; lia]|]; constructor; [lia|]). apply padded2_nz; lia.
Qed.
Lemma format_date_time t : tm_ok t -> 1000 <= tm_year t + 1900 <= 9999 ->
  format_buffer DATE_TIME_FORMAT t = Some (managed (format_text other_directive DATE_TIME_FORMAT t)).
Proof.
  intros Ht Hy. unfold format_buffer, strftime. change (c_str DATE_TIME_FORMAT) with DATE_TIME_FORMAT.
  rewrite date_time_length by done. cbn [Nat.ltb Nat.leb mbind option_bind]. by rewrite c_str_id by (by apply date_time_nz).
Qed.
Lemma format_date t : tm_ok t -> 1000 <= tm_year t + 1900 <= 9999 ->
  format_buffer DATE_FORMAT t = Some (managed (format_text other_directive DATE_FORMAT t)).
Proof.
  intros Ht Hy. unfold format_buffer, strftime. change (c_str DATE_FORMAT) with DATE_FORMAT.
  rewrite date_length by done. cbn [Nat.ltb Nat.leb mbind option_bind]. by rewrite c_str_id by (by apply date_nz).
Qed.

(** *** Years are bounded *)
Lemma days_year_bound y m d : valid_date y m d -> 1400 <= y <= 9999 -> -208195 <= days_of_date y m d <= 2932896.
Proof.
  intros Hv Hy. apply valid_day in Hv as [Hm Hd]. unfold days_of_date. destruct (Z.leb_spec m 2); Z.to_euclidean_division_equations; lia.
Qed.
Lemma timegm_bound t : tm_ok t -> 1400 <= tm_year t + 1900 <= 9999 -> - 2 ^ 40 < timegm t < 2 ^ 40.
Proof. intros (Hv & Hh & Hm & Hs) Hy. pose proof (days_year_bound _ _ _ Hv Hy). unfold timegm. lia. Qed.

Lemma time_of_tm_ok t : tm_ok t -> 1900 <= tm_year t + 1900 <= 9999 -> clocks_show (timegm t) -> time_of_tm t = Some (1000 * timegm t - TZ_OFFSET).
Proof.
  intros Ht Hy [x Hx]. unfold time_of_tm. pose proof (mktime_ok t x Ht Hy Hx) as Hz. destruct (mktime t) as [time off]. cbn in Hz. rewrite Hz.
  pose proof (timegm_bound t Ht ltac:(lia)). unfold checked_i64, in_i64, TZ_OFFSET, TZ.
  rewrite (proj2 (andb_true_iff _ _)) by lia. cbn [mbind option_bind]. rewrite (proj2 (andb_true_iff _ _)) by lia. cbn [mbind option_bind].
  rewrite (proj2 (andb_true_iff _ _)) by lia. f_equal. lia.
Qed.

Lemma time_of_tm_shown t : tm_ok t -> 1900 <= tm_year t + 1900 <= 9999 -> time_of_tm t = Some (1000 * timegm t - TZ_OFFSET) <-> clocks_show (timegm t).
Proof.
  intros Ht Hy. split; [|by apply time_of_tm_ok]. unfold time_of_tm. pose proof (mktime_offset t Ht Hy) as Ho. destruct (mktime t) as [time off]. cbn in Ho. subst off. unfold checked_i64.
  destruct (in_i64 (time + _)); [|done]. cbn [mbind option_bind]. destruct (in_i64 (_ * 1000)); [|done]. cbn [mbind option_bind]. destruct (in_i64 _); [|done]. intros [= He]. exists time. lia.
Qed.

Lemma decoded_valid y m d : valid_ymd y m d -> valid_date y m d ->
  exists g, decoded_date (Date_of_ymd y m d) = Some g /\ year_month_day g = (y, m, d).
Proof.
  intros Hv Hd. unfold decoded_date. rewrite Date_decode_encode by done. destruct Hv as (Hy & Hm & Hday).
  rewrite (proj2 (orb_false_iff _ _)) by lia. rewrite (proj2 (orb_false_iff _ _)) by lia. apply g_date_ok; [lia|done].
Qed.

(** ** Round trips *)

Lemma local_tm_ok ts t : local_tm ts = Some t -> tm_ok t /\ timegm t = Z.quot (ts + TZ_OFFSET) 1000.
Proof.
  unfold local_tm, local_seconds, checked_i64. destruct (in_i64 _); [|done]. cbn [mbind option_bind fmap option_fmap option_map].
  intros [= <-]. apply gmtime_ok.
Qed.
Lemma tm_ok_wday t w : let u := mkTm (tm_year t) (tm_mon t) (tm_mday t) (tm_hour t) (tm_min t) (tm_sec t) w in
  (tm_ok t -> tm_ok u) /\ timegm u = timegm t.
Proof. by destruct t. Qed.

(** C38: a time stamp cast to a string and back is the same time stamp without
    its milliseconds, for all years from 1900 to 9999, exactly if the clocks of the
    time zone of the process show the local time of the text at some instant:
    [mktime] moves a time that the zone skips (the hour lost when daylight saving
    starts). The text cast to a date is always the date of the time stamp. *)
Theorem timestamp_text_roundtrip (ts : Z) (t : tm) (out : StringRef) :
  local_tm ts = Some t -> 1900 <= tm_year t + 1900 <= 9999 ->
  exists s, timestamp_to_string (Some ts) (Some out) = Some (Some s) /\ sr_size s = 19 /\
    (string_to_timestamp s = Some (Some (ts - Z.rem (ts + TZ_OFFSET) 1000)) <-> clocks_show (timegm t)) /\
    string_to_date s = timestamp_to_date ts.
Proof.
  intros El Hy. destruct (local_tm_ok ts t El) as [Hok Hsec]. set (s := format_text other_directive DATE_TIME_FORMAT t).
  exists (managed s).
  assert (Z.of_nat (length s) = 19) as Hlen by (unfold s; by rewrite date_time_length by (done || lia)).
  pose proof (strptime_strftime other_directive t any_tm [] Hok ltac:(lia)) as Es. rewrite app_nil_r in Es. fold s in Es.
  split_and!; [|exact Hlen|..].
  - unfold timestamp_to_string, date_format_timestamp. rewrite El. cbn [mbind option_bind]. by rewrite format_date_time by (done || lia).
  - unfold string_to_timestamp. cbn [managed sr_size]. rewrite Hlen. cbn [Z.eqb Pos.eqb]. rewrite (to_string_denotes _ s) by apply denotes_managed. cbn [mbind option_bind].
    rewrite Es. cbn [tm_year tm_mon tm_mday]. rewrite (proj2 (Z.ltb_ge _ 0)) by lia. destruct (tm_ok_wday t (tm_wday any_tm)) as [Hw Ew].
    pose proof (time_of_tm_shown _ (Hw Hok) ltac:(cbn [tm_year]; lia)) as Hs. rewrite Ew in Hs. rewrite <- Hs.
    replace (ts - Z.rem (ts + TZ_OFFSET) 1000) with (1000 * timegm t - TZ_OFFSET) by (rewrite Hsec; pose proof (Z.quot_rem' (ts + TZ_OFFSET) 1000); lia).
    destruct (time_of_tm _); cbn [fmap option_fmap option_map]; split; congruence.
  - unfold string_to_date, timestamp_to_date. cbn [managed sr_size]. rewrite Hlen. cbn [Z.eqb Pos.eqb]. rewrite (to_string_denotes _ s) by apply denotes_managed. cbn [mbind option_bind].
    rewrite Es, El. cbn [mbind option_bind tm_year tm_mon tm_mday]. by rewrite (proj2 (Z.ltb_ge _ 0)) by lia.
Qed.

Lemma gdate_tm g y m d : year_month_day g = (y, m, d) -> valid_date y m d ->
  tm_ok (to_tm g) /\ tm_year (to_tm g) + 1900 = y /\ timegm (to_tm g) = 86400 * days_of_date y m d.
Proof.
  intros Hg Hv. destruct (to_tm_ok g y m d Hg) as (E1 & E2 & E3 & E4 & E5 & E6). unfold tm_ok, timegm. rewrite E1, E2, E3, E4, E5, E6.
  replace (y - 1900 + 1900) with y by lia. replace (m - 1 + 1) with m by lia. split_and!; done || lia.
Qed.
Lemma gdate_text g y m d : year_month_day g = (y, m, d) ->
  format_text other_directive DATE_FORMAT (to_tm g) = to_string y ++ 45 :: padded 48 2 m ++ 45 :: padded 48 2 d.
Proof.
  intros Hg. destruct (to_tm_ok g y m d Hg) as (E1 & E2 & E3 & _). rewrite date_text_of, E1, E2, E3.
  by replace (y - 1900 + 1900) with y by lia; replace (m - 1 + 1) with m by lia.
Qed.

Lemma local_tm_of x : - 2 ^ 50 < x < 2 ^ 50 -> local_tm (1000 * x - TZ_OFFSET) = Some (gmtime x).
Proof.
  intros Hx. unfold local_tm, local_seconds. replace (1000 * x - TZ_OFFSET + TZ_OFFSET) with (x * 1000) by lia.
  unfold checked_i64, in_i64. rewrite (proj2 (andb_true_iff _ _)) by lia. cbn [mbind option_bind fmap option_fmap option_map]. by rewrite Z.quot_mul by lia.
Qed.

(** Every existing date from 1900 to 9999 is unchanged by the casts to a
    string and back and to a time stamp and back; the casts of the date and of
    its text to a time stamp agree: midnight of the day in the fixed time zone, if
    the zone of the process does not skip that midnight. *)
Theorem date_roundtrip (y m d : Z) (out : StringRef) : valid_ymd y m d -> valid_date y m d -> clocks_show (86400 * days_of_date y m d) ->
  let D := Date_of_ymd y m d in
  exists s, date_to_string (Some D) (Some out) = Some (Some s) /\
    string_to_date s = Some (Some D) /\
    let ts := 86400000 * days_of_date y m d - TZ_OFFSET in
    date_to_timestamp D = Some (Some ts) /\ string_to_timestamp s = Some (Some ts) /\ timestamp_to_date ts = Some (Some D).
Proof.
  intros Hv Hd Hshow D. pose proof Hv as (Hy & Hm & Hday). destruct (decoded_valid y m d Hv Hd) as (g & Eg & Ey). fold D in Eg.
  destruct (gdate_tm g y m d Ey Hd) as (Hok & Hty & Htg). pose proof (days_year_bound y m d Hd ltac:(lia)) as Hb.
  set (s := to_string y ++ 45 :: padded 48 2 m ++ 45 :: padded 48 2 d). pose proof (gdate_text g y m d Ey) as Es. fold s in Es.
  assert (Z.of_nat (length s) = 10) as Hlen by (rewrite <- Es, date_length by (done || lia); done).
  destruct (g_date_ok y m d ltac:(lia) Hd) as (g' & Eg' & Ey'). pose proof (simple_string_ok y m d ltac:(lia) Hd) as Hfs. fold s in Hfs. rewrite Eg' in Hfs.
  destruct (gdate_tm g' y m d Ey' Hd) as (Hok' & Hty' & Htg').
  assert (forall h, year_month_day h = (y, m, d) -> time_of_gdate h = Some (Some (86400000 * days_of_date y m d - TZ_OFFSET))) as Ht.
  { intros h Eh. destruct (gdate_tm h y m d Eh Hd) as (Hokh & Htyh & Htgh). unfold time_of_gdate. rewrite (proj2 (Z.ltb_ge _ 0)) by lia.
    rewrite time_of_tm_ok by (done || lia || by rewrite Htgh). cbn [fmap option_fmap option_map]. do 2 f_equal. lia. }
  exists (managed s). split; [|split; [|cbv zeta; split_and!]].
  - unfold date_to_string, date_format_date. rewrite Eg. rewrite format_date by (done || lia). by rewrite Es.
  - unfold string_to_date. cbn [managed sr_size]. rewrite Hlen. cbn [Z.eqb Pos.eqb orb]. rewrite (to_string_denotes _ s) by apply denotes_managed. cbn [mbind option_bind].
    rewrite Hfs, Ey'. by rewrite (proj2 (Z.ltb_ge y 1900)) by lia.
  - unfold date_to_timestamp. rewrite Eg. by apply Ht.
  - unfold string_to_timestamp. cbn [managed sr_size]. rewrite Hlen. cbn [Z.eqb Pos.eqb orb]. rewrite (to_string_denotes _ s) by apply denotes_managed. cbn [mbind option_bind].
    rewrite Hfs. by apply Ht.
  - unfold timestamp_to_date. replace (86400000 * days_of_date y m d) with (1000 * (86400 * days_of_date y m d)) by lia. rewrite local_tm_of by lia. cbn [mbind option_bind].
    unfold gmtime. rewrite (Z.mul_comm 86400), Z.div_mul, date_days by done || lia. cbn.
    by replace (y - 1900 + 1900) with y by lia; replace (m - 1 + 1) with m by lia.
Qed.

(** [year], [month], [dayofmonth] and [dayofweek] of a time stamp that is
    not before 1970 in the fixed time zone: the fields of the one existing
    date whose number is the number of whole days since 1970, and its day of
    the week, 1 for a Sunday. *)
Theorem calendar_fields (ts : Z) : 0 <= ts + TZ_OFFSET < 2 ^ 63 ->
  exists y m d, valid_date y m d /\ days_of_date y m d = (ts + TZ_OFFSET) / 86400000 /\
    year ts = Some y /\ month ts = Some m /\ dayofmonth ts = Some d /\
    dayofweek ts = Some ((days_of_date y m d + 4) mod 7 + 1).
Proof.
  intros Hts. unfold year, month, dayofmonth, dayofweek, local_tm, local_seconds, checked_i64, in_i64.
  rewrite (proj2 (andb_true_iff _ _)) by lia. cbn [mbind option_bind fmap option_fmap option_map]. rewrite Z.quot_div_nonneg by lia.
  unfold gmtime. rewrite Z.div_div by lia. change (1000 * 86400) with 86400000. pose proof (days_date ((ts + TZ_OFFSET) / 86400000)) as Hd.
  destruct (date_of_days _) as [[y m] d]. destruct Hd as [Hv Hd]. exists y, m, d. cbn [tm_year tm_mon tm_mday tm_wday].
  split_and!; [done|done|f_equal; lia|f_equal; lia|done|by rewrite Hd].
Qed.
End Dates.

(** ** Integers *)

Lemma digit_value_digit c : 48 <= c <= 57 -> digit_value c = c - 48 /\ is_space c = false.
Proof.
  intros Hc. unfold digit_value. replace c with (48 + (c - 48)) at 1 3 by lia. destruct (digit_spec (c - 48)) as [-> ->]; [lia|done].
Qed.
Lemma read_base10 (l : list Z) (acc : Z) : Forall (fun c => 48 <= c <= 57) l -> read_base 10 acc l = (foldl (fun a c => 10 * a + (c - 48)) acc l, []).
Proof.
  intros Hl. revert acc. induction Hl as [|c l Hc _ IH]; intros acc; cbn [read_base foldl]; [done|].
  destruct (digit_value_digit c Hc) as [-> _]. rewrite (proj2 (Z.ltb_lt _ 10)) by lia. apply IH.
Qed.
Lemma digits_head f n : 0 < n < 10 ^ Z.of_nat f -> exists c l, digits f n = c :: l /\ 49 <= c <= 57.
Proof.
  revert n. induction f as [|f IH]; intros n Hn; [cbn in Hn; lia|]. destruct (Z.ltb_spec n 10).
  - rewrite digits_small by lia. exists (48 + n), []. split; [done|lia].
  - rewrite digits_step by lia. rewrite Nat2Z.inj_succ, Z.pow_succ_r in Hn by lia.
    destruct (IH (n / 10)) as (c & l & -> & Hc); [Z.to_euclidean_division_equations; lia|]. exists c, (l ++ [48 + n mod 10]). by split.
Qed.

(** Reading a decimal text, in base 10 or with the base taken from it. *)
Lemma strtoll_digits base n (neg : bool) : base = 10 \/ base = 0 -> 0 < n <= 9223372036854775808 ->
  strtoll base (if neg then 45 :: digits 20 n else digits 20 n) =
  (Z.max (- 2 ^ 63) (Z.min (2 ^ 63 - 1) (if neg then - n else n)), Z.of_nat (length (if neg then 45 :: digits 20 n else digits 20 n))).
Proof.
  intros Hb Hn. pose proof (digits_range 20 n) as Hr. pose proof (digits_value 20 n ltac:(lia)) as Hv. unfold of_digits in Hv.
  destruct (digits_head 20 n ltac:(lia)) as (c & l & E & Hc). rewrite E in *.
  assert (number_base base (c :: l) = (10, c :: l)) as Enb.
  { unfold number_base. destruct Hb as [-> | ->]; [done|]. cbn [Z.eqb]. by rewrite (proj2 (Z.eqb_neq c 48)) by lia. }
  destruct (digit_value_digit c ltac:(lia)) as [Ed Es].
  assert (starts_digit 10 (c :: l) = true) as Est by (cbn [starts_digit]; rewrite Ed; apply Z.ltb_lt; lia).
  unfold strtoll. destruct neg; cbn [skip_spaces].
  - change (is_space 45) with false. cbn [Z.eqb Pos.eqb]. rewrite Enb, Est, read_base10 by done. rewrite Hv. f_equal; cbn [length]; lia.
  - rewrite Es. rewrite (proj2 (Z.eqb_neq c 45)), (proj2 (Z.eqb_neq c 43)) by lia. rewrite Enb, Est, read_base10 by done. rewrite Hv. f_equal; cbn [length]; lia.
Qed.
Lemma strtoll_text base z : base = 10 \/ base = 0 -> -9223372036854775808 <= z < 9223372036854775808 ->
  strtoll base (to_string z) = (z, Z.of_nat (length (to_string z))).
Proof.
  intros Hb Hz. unfold to_string. destruct (Z.ltb_spec z 0).
  - pose proof (strtoll_digits base (- z) true Hb ltac:(lia)) as E. cbn [negb] in E. rewrite E. f_equal. lia.
  - destruct (decide (z = 0)) as [->|].
    + rewrite digits_small by lia. destruct Hb as [-> | ->]; reflexivity.
    + rewrite (strtoll_digits base z false Hb ltac:(lia)). f_equal. lia.
Qed.
Lemma string_to_number_text parse conv s v : s <> [] -> parse s = (v, Z.of_nat (length s)) ->
  string_to_number parse conv (Some (managed s)) = Some (conv v, false).
Proof.
  intros Hs Hp. unfold string_to_number. cbn [managed sr_size]. rewrite (proj2 (Z.eqb_neq _ 0)) by (destruct s; [done|cbn [length]; lia]).
  rewrite (to_string_denotes _ s) by apply denotes_managed. cbn [mbind option_bind]. rewrite Hp. by rewrite Z.ltb_irrefl.
Qed.

(** The decimal text of an integer of 16, 32 or 64 bits is cast back to
    it. *)
Theorem int_text_roundtrip (z : Z) :
  (- 2 ^ 15 <= z < 2 ^ 15 -> string_to_smallint (Some (managed (to_string z))) = Some (z, false)) /\
  (- 2 ^ 31 <= z < 2 ^ 31 -> string_to_int (Some (managed (to_string z))) = Some (z, false)) /\
  (- 2 ^ 63 <= z < 2 ^ 63 -> string_to_bigint (Some (managed (to_string z))) = Some (z, false)).
Proof.
  split_and!; intros Hz.
  - unfold string_to_smallint. rewrite (string_to_number_text _ _ _ z) by (apply to_string_nonempty || (apply strtoll_text; [by left|lia])).
    by rewrite i32_small, i16_small by lia.
  - unfold string_to_int. rewrite (string_to_number_text _ _ _ z) by (apply to_string_nonempty || (apply strtoll_text; [by left|lia])).
    by rewrite i32_small by lia.
  - unfold string_to_bigint. by rewrite (string_to_number_text _ _ _ z) by (apply to_string_nonempty || (apply strtoll_text; [by right|lia])).
Qed.
Lemma int_text_roundtrip_witness : string_to_int (Some (managed (text "-2147483648"%string))) = Some (-2147483648, false) /\
  string_to_bigint (Some (managed (text "9223372036854775807"%string))) = Some (9223372036854775807, false).
Proof.
  split; [exact (proj1 (proj2 (int_text_roundtrip (-2147483648))) ltac:(lia))|exact (proj2 (proj2 (int_text_roundtrip 9223372036854775807)) ltac:(lia))].
Defined.

(** Text outside the range of the type is not NULL but a wrapped number, and a
    leading zero makes a [bigint] octal. *)
Theorem int_casts_accept_too_much :
  string_to_int (Some (managed (text "4294967297"%string))) = Some (1, false) /\
  string_to_smallint (Some (managed (text "70000"%string))) = Some (4464, false) /\
  string_to_bigint (Some (managed (text "010"%string))) = Some (8, false) /\
  string_to_int (Some (managed (text "010"%string))) = Some (10, false) /\
  string_to_bigint (Some (managed (text "99999999999999999999"%string))) = Some (9223372036854775807, false).
Proof. split_and!; vm_compute; reflexivity. Qed.

(** A boolean cast to a string and back. *)
Theorem bool_text_roundtrip (b : bool) : string_to_bool (Some (bool_to_string b)) = Some (b, false).
Proof. destruct b; vm_compute; reflexivity. Qed.

(** ** Substrings *)

(** The part SQL asks for: positions count from 1, or from the end if they are
    negative. *)
Definition substring_spec (s : list Z) (from len : Z) : list Z :=
  if len <? 1 then []
  else if (1 <=? from) && (from <=? Z.of_nat (length s)) then take (Z.to_nat len) (drop (Z.to_nat (from - 1)) s)
  else if (from <=? -1) && (- Z.of_nat (length s) <=? from) then take (Z.to_nat len) (drop (Z.to_nat (Z.of_nat (length s) + from)) s)
  else [].

Lemma denotes_sub data s from n : sr_denotes (mkStringRef (Z.of_nat (length s)) (Some data)) s -> (from + n <= length s)%nat ->
  sr_denotes (mkStringRef (Z.of_nat n) (Some (drop from data))) (take n (drop from s)).
Proof.
  intros [_ Hd] Hn. cbn [sr_data ptr_load] in Hd. apply load_inv in Hd as (_ & Hl & Es & _). change (Z.to_nat 0) with 0%nat in Es. rewrite drop_0 in Es.
  assert (length (take n (drop from s)) = n) as El by (rewrite length_take, length_drop; lia).
  split; cbn [sr_size sr_data ptr_load]; rewrite El; [done|]. rewrite load_Some by (rewrite ?length_drop; lia). f_equal. change (Z.to_nat 0) with 0%nat. rewrite drop_0.
  rewrite Es. rewrite skipn_firstn_comm, firstn_firstn. f_equal. lia.
Qed.
Lemma denotes_empty p : sr_denotes (mkStringRef 0 p) [].
Proof. split; [done|]. destruct p as [m|]; [|done]. cbn. by rewrite load_Some by (cbn; lia). Qed.

(** [substring] of a string is the part SQL asks for, for any position and
    length: never a read outside the string, and no overflow. *)
Theorem sub_string_correct (r : StringRef) (s : list Z) (from len : Z) :
  sr_denotes r s -> sr_data r <> None -> Z.of_nat (length s) < 2 ^ 31 -> - 2 ^ 31 <= from < 2 ^ 31 -> - 2 ^ 31 <= len < 2 ^ 31 ->
  exists out, sub_string (Some r) from len = Some out /\ sr_denotes out (substring_spec s from len).
Proof.
  intros Hd Hp Hs Hf Hl. destruct r as [size [data|]]; [|done]. pose proof Hd as [Esz _]. cbn [sr_size] in Esz. subst size.
  unfold sub_string, substring_spec. cbn [sr_data sr_size]. rewrite (i32_small (Z.of_nat _)) by lia.
  destruct (Z.ltb_spec len 1); [rewrite orb_true_r; eexists; split; [done|apply denotes_empty]|]. rewrite orb_false_r.
  destruct (Z.eqb_spec from 0) as [->|Hf0]; [eexists; split; [done|]; cbn; apply denotes_empty|].
  rewrite (proj2 (Z.eqb_neq _ (- 2 ^ 31))) by lia. cbn [mbind option_bind]. rewrite Z.gtb_ltb.
  replace (-1 * Z.of_nat (length s)) with (- Z.of_nat (length s)) by lia.
  destruct (Z.ltb_spec (Z.of_nat (length s)) from); [|destruct (Z.ltb_spec from (- Z.of_nat (length s)))]; cbn [orb].
  - eexists. split; [done|]. rewrite (proj2 (andb_false_iff _ _)) by lia. rewrite (proj2 (andb_false_iff _ _)) by lia. apply denotes_empty.
  - eexists. split; [done|]. rewrite (proj2 (andb_false_iff _ _)) by lia. rewrite (proj2 (andb_false_iff _ _)) by lia. apply denotes_empty.
  - eexists. split; [done|]. set (k := if from <? 0 then _ else _).
    assert (0 <= k < Z.of_nat (length s)) as Hk by (unfold k; destruct (Z.ltb_spec from 0); lia).
    set (n := if _ <? len then _ else len). assert (n = Z.min len (Z.of_nat (length s) - k)) as En by (unfold n; destruct (Z.ltb_spec (Z.of_nat (length s) - k) len); lia).
    clearbody n. rewrite u32_small by lia. replace n with (Z.of_nat (Z.to_nat n)) by lia.
    assert ((if (1 <=? from) && (from <=? Z.of_nat (length s)) then take (Z.to_nat len) (drop (Z.to_nat (from - 1)) s)
      else if (from <=? -1) && (- Z.of_nat (length s) <=? from) then take (Z.to_nat len) (drop (Z.to_nat (Z.of_nat (length s) + from)) s) else [])
      = take (Z.to_nat len) (drop (Z.to_nat k) s)) as ->.
    { unfold k. destruct (Z.ltb_spec from 0).
      - rewrite (proj2 (andb_false_iff _ _)) by lia. by rewrite (proj2 (andb_true_iff _ _)) by lia.
      - by rewrite (proj2 (andb_true_iff _ _)) by lia. }
    assert (take (Z.to_nat len) (drop (Z.to_nat k) s) = take (Z.to_nat n) (drop (Z.to_nat k) s)) as ->.
    { rewrite En. destruct (Z.min_spec len (Z.of_nat (length s) - k)) as [[? ->]|[? ->]]; [done|]. rewrite !take_ge; rewrite ?length_drop; done || lia. }
    apply denotes_sub; [done|lia].
Qed.
Lemma sub_string_correct_witness : exists out, sub_string (Some (managed (text "hello"%string))) (-3) 2 = Some out /\ sr_denotes out (text "ll"%string).
Proof.
  exact (sub_string_correct (managed (text "hello"%string)) (text "hello"%string) (-3) 2 (denotes_managed _) ltac:(discriminate) ltac:(vm_compute; reflexivity) ltac:(lia) ltac:(lia)).
Defined.

(** ** An instance of the parameters *)

Module SampleLibrary.
Definition date_ok (y m d : Z) : bool :=
  (1400 <=? y) && (y <=? 9999) && (1 <=? m) && (m <=? 12) && (1 <=? d) && (d <=? days_in_month y m).
Definition make (y m d : Z) : option (Z * Z * Z) := if date_ok y m d then Some (y, m, d) else None.
Definition read (format : string) (s : list Z) : option (Z * Z * Z) :=
  '(t, _) ← strptime s (text format) any_tm; make (tm_year t + 1900) (tm_mon t + 1) (tm_mday t).
Definition wday (g : Z * Z * Z) : Z := (days_of_date g.1.1 g.1.2 g.2 + 4) mod 7.
#[local] Instance gregorian : Gregorian := {
  gdate := Z * Z * Z;
  g_date := make;
  year_month_day g := g;
  day_of_week := wday;
  week_number g := (days_of_date g.1.1 g.1.2 g.2 - days_of_date g.1.1 1 1) / 7 + 1;
  to_tm g := mkTm (g.1.1 - 1900) (g.1.2 - 1) g.2 0 0 0 (wday g);
  date_from_tm t := make (tm_year t + 1900) (tm_mon t + 1) (tm_mday t);
  from_simple_string := read "%Y-%m-%d"%string;
  date_from_iso_string := read "%Y%m%d"%string
}.
(** The zone of Shanghai with the first summer of daylight saving in 1986: an
    instant that shows the local time, or the time as it would be without the
    change. *)
Definition summer (x : Z) : bool := (515527200 <=? x) && (x <? 527014800).
Definition offset (x : Z) : Z := if summer x then 32400 else 28800.
Definition shanghai (l : Z) : Z * Z :=
  if negb (summer (l - 28800)) then (l - 28800, 28800) else if summer (l - 32400) then (l - 32400, 32400) else (l - 28800, 32400).
#[local] Instance library : CLibrary := {
  mktime t := shanghai (timegm t);
  strtof _ := (0, 0);
  strtod _ := (0, 0);
  other_directive c _ := [37; c]
}.

Lemma make_ok y m d : 1400 <= y <= 9999 -> valid_date y m d -> make y m d = Some (y, m, d).
Proof.
  intros Hy [Hm Hd]. unfold make, date_ok. rewrite !(proj2 (Z.leb_le _ _)) by lia. done.
Qed.
#[local] Instance gregorian_laws : GregorianLaws.
Proof.
  split.
  - intros y m d Hy Hv. exists (y, m, d). split; [by apply make_ok|done].
  - intros [[y0 m0] d0] y m d E. cbn in *. by simplify_eq.
  - intros y m d Hy Hv. pose proof (valid_day _ _ _ Hv) as [Hm Hd]. cbn [from_simple_string gregorian]. unfold read.
    change (text "%Y-%m-%d"%string) with [37; 89; 45; 37; 109; 45; 37; 100]. cbn [strptime Z.eqb Pos.eqb any_tm].
    rewrite get_number4 by lia. cbn [mbind option_bind Z.eqb Pos.eqb is_space orb andb Z.leb Z.compare Pos.compare Pos.compare_cont].
    rewrite get_number2 by lia. cbn [mbind option_bind Z.eqb Pos.eqb]. rewrite <- (app_nil_r (padded 48 2 d)), get_number2 by lia. cbn [mbind option_bind].
    cbn [tm_year tm_mon tm_mday]. by replace (y - 1900 + 1900) with y by lia; replace (m - 1 + 1) with m by lia.
  - intros y m d Hy Hv. pose proof (valid_day _ _ _ Hv) as [Hm Hd]. cbn [date_from_iso_string gregorian]. unfold read.
    change (text "%Y%m%d"%string) with [37; 89; 37; 109; 37; 100]. cbn [strptime Z.eqb Pos.eqb any_tm].
    rewrite get_number4 by lia. cbn [mbind option_bind Z.eqb Pos.eqb].
    rewrite get_number2 by lia. cbn [mbind option_bind Z.eqb Pos.eqb]. rewrite <- (app_nil_r (padded 48 2 d)), get_number2 by lia. cbn [mbind option_bind].
    cbn [tm_year tm_mon tm_mday]. by replace (y - 1900 + 1900) with y by lia; replace (m - 1 + 1) with m by lia.
Qed.
#[local] Instance zone_laws : ZoneLaws.
Proof.
  refine {| utc_offset := offset |}; cbn [mktime library]; unfold shanghai, offset.
  - intros t _ _. destruct (summer (timegm t - 28800)) eqn:E1; cbn [negb]; [|cbn; by rewrite E1]. destruct (summer (timegm t - 32400)) eqn:E2; cbn; [by rewrite E2|by rewrite E1].
  - intros t x _ _ Hx. destruct (summer x) eqn:Ex.
    + replace (timegm t - 32400) with x by lia. rewrite Ex. destruct (summer (timegm t - 28800)); cbn; lia.
    + replace (timegm t - 28800) with x by lia. rewrite Ex. cbn. lia.
Defined.
(** Half past two of May 4th, 1986: the cast to a string and back adds an hour. *)
Theorem skipped_time_moves : exists s, timestamp_to_string (Some 515529000000) (Some (managed [])) = Some (Some s) /\
  string_to_timestamp s = Some (Some (515529000000 + 3600000)).
Proof. exists (managed (text "1986-05-04 02:30:00"%string)). split; vm_compute; reflexivity. Qed.

Lemma timestamp_text_roundtrip_witness : exists s,
  timestamp_to_string (Some 1590569100123) (Some (managed [])) = Some (Some s) /\ sr_size s = 19 /\
  string_to_timestamp s = Some (Some 1590569100000) /\ string_to_date s = Some (Some (Date_of_ymd 2020 5 27)).
Proof.
  destruct (timestamp_text_roundtrip 1590569100123 (gmtime 1590597900) (managed []) eq_refl ltac:(vm_compute; split; discriminate)) as (s & H1 & H2 & H3 & H4).
  exists s. split; [exact H1|]. split; [exact H2|]. split; [|rewrite H4; vm_compute; reflexivity]. apply (proj2 H3). exists 1590569100. vm_compute. reflexivity.
Defined.
Lemma date_roundtrip_witness : exists s, date_to_string (Some (Date_of_ymd 2020 2 29)) (Some (managed [])) = Some (Some s) /\
  string_to_date s = Some (Some (Date_of_ymd 2020 2 29)) /\ string_to_timestamp s = Some (Some 1582905600000).
Proof.
  destruct (date_roundtrip 2020 2 29 (managed []) ltac:(repeat split; discriminate) ltac:(repeat split; discriminate) ltac:(exists 1582905600; vm_compute; reflexivity)) as (s & H1 & H2 & H3 & H4 & H5).
  exists s. split; [exact H1|]. split; [exact H2|]. exact H4.
Defined.
Lemma calendar_fields_witness : exists y m d, year 1590569100123 = Some y /\ month 1590569100123 = Some m /\ dayofmonth 1590569100123 = Some d /\
  days_of_date y m d = 18409.
Proof.
  destruct (calendar_fields 1590569100123 ltac:(vm_compute; split; [discriminate|reflexivity])) as (y & m & d & _ & H2 & H3 & H4 & H5 & _).
  exists y, m, d. split; [exact H3|]. split; [exact H4|]. split; [exact H5|]. rewrite H2. vm_compute. reflexivity.
Defined.

(** A time before 1970 is rounded up to the next second: one millisecond
    before the first day of 1970 has the year 1970. *)
Theorem early_timestamp_rounded : year (-28800001) = Some 1970 /\ year (-28801000) = Some 1969.
Proof. split; vm_compute; reflexivity. Qed.
(** Text after the seconds is ignored, and a day that does not exist is cast
    to a date. *)
Theorem time_casts_accept_too_much :
  string_to_timestamp (managed (text "2020-5-27 1:2:3 xyz"%string)) = Some (Some 1590512523000) /\
  string_to_date (managed (text "2021-02-31 00:00:00"%string)) = Some (Some (Date_of_ymd 2021 2 31)).
Proof. split; vm_compute; reflexivity. Qed.
(** A format with more than 79 bytes of output: the buffer that is measured is
    indeterminate. *)
Theorem long_format_undefined : date_format_timestamp (Some 0) (replicate 80 65) (Some (managed [])) = None.
Proof. vm_compute. reflexivity. Qed.
End SampleLibrary.
