(* ===== verification/SkipList.v ===== *)
(** * The skip list of the toy database

    Models [examples/toydb/src/storage/skiplist.h] with the generator of
    [base/fe_random.h]: nodes on a heap with one next pointer per level, a head
    node, and the operations as they write them, store by store. Writers are
    synchronised by the caller; readers are not, so insertion is also given as
    the sequence of its stores.

    [None] is undefined behaviour: a null or dangling pointer, a level above
    the height of a node, or an element of an array that was not set. Loops
    along the list take fuel, one unit per turn. *)

From stdpp Require Import base numbers option list gmap.
From S2P Require Import Prelude.

(** ** Random numbers *)

Definition RANDOM_M : Z := 2147483647.
Definition RANDOM_A : Z := 16807.

Definition Random_new (s : Z) : Z :=
  let seed := Z.land s 0x7fffffff in if (seed =? 0) || (seed =? 2147483647) then 1 else seed.
Definition Random_Next (seed : Z) : Z :=
  let product := u64 (seed * RANDOM_A) in
  let seed := u32 (Z.shiftr product 31 + Z.land product RANDOM_M) in
  if seed >? RANDOM_M then u32 (seed - RANDOM_M) else seed.

Section SkipList.
(** [K()] and [V()] are the key and the value of the head. *)
Context {K V : Type} (default_key : K) (default_value : V) (compare_ : K -> K -> Z) (MaxHeight : nat) (Branch : Z).

(** ** Nodes *)

Definition loc : Type := nat.
(** A pointer to a node, or null. *)
Definition ptr : Type := option loc.

Record Node := mkNode { key_ : K; value_ : V; nexts_ : list ptr }.

Record SkipList := mkSkipList {
  heap_ : gmap loc Node;
  max_height_ : nat;
  rand_ : Z;
  head_ : loc;
  tail_ : ptr
}.

Definition with_heap (h : gmap loc Node) (s : SkipList) : SkipList :=
  mkSkipList h (max_height_ s) (rand_ s) (head_ s) (tail_ s).
Definition with_tail (t : ptr) (s : SkipList) : SkipList :=
  mkSkipList (heap_ s) (max_height_ s) (rand_ s) (head_ s) t.
Definition with_height (n : nat) (s : SkipList) : SkipList :=
  mkSkipList (heap_ s) n (rand_ s) (head_ s) (tail_ s).

Definition Height (s : SkipList) (l : loc) : option nat := length ∘ nexts_ <$> heap_ s !! l.
Definition GetNext (s : SkipList) (l : loc) (level : nat) : option ptr := n ← heap_ s !! l; nexts_ n !! level.
Definition SetNext (l : loc) (level : nat) (p : ptr) (s : SkipList) : option SkipList :=
  n ← heap_ s !! l;
  if (level <? length (nexts_ n))%nat
  then Some (with_heap (<[l := mkNode (key_ n) (value_ n) (<[level := p]> (nexts_ n))]> (heap_ s)) s)
  else None.
Definition GetKey (s : SkipList) (l : loc) : option K := key_ <$> heap_ s !! l.
Definition GetValue (s : SkipList) (l : loc) : option V := value_ <$> heap_ s !! l.

(** A new node; its next pointers are not initialised: they are written before
    the node is linked. *)
Definition NewNode (key : K) (value : V) (height : nat) (s : SkipList) : loc * SkipList :=
  let l := fresh (dom (heap_ s)) in
  (l, with_heap (<[l := mkNode key value (replicate height None)]> (heap_ s)) s).

Definition SkipList_new : SkipList :=
  mkSkipList {[ O := mkNode default_key default_value (replicate MaxHeight None) ]} 1 (Random_new 0xdeadbeef) O None.

(** ** Searching *)

Definition fuel_of (s : SkipList) : nat := size (heap_ s) + MaxHeight + 1.

Definition IsAfterNode (key : K) (s : SkipList) (node : ptr) : option bool :=
  match node with None => Some false | Some l => k ← GetKey s l; Some (compare_ key k >? 0) end.

(** The array [nodes]: what is at a level, if it was set. *)
Fixpoint find_less_or_equal (fuel : nat) (s : SkipList) (key : K) (node : loc) (level : nat) (nodes : list (option ptr)) : option (loc * list (option ptr)) :=
  match fuel with
  | O => None
  | S fuel' =>
      next ← GetNext s node level;
      after ← IsAfterNode key s next;
      match after, next with
      | true, Some n => find_less_or_equal fuel' s key n level nodes
      | _, _ =>
          let nodes := <[level := Some (Some node)]> nodes in
          match level with O => Some (node, nodes) | S level' => find_less_or_equal fuel' s key node level' nodes end
      end
  end.
Definition FindLessOrEqual (s : SkipList) (key : K) (nodes : list (option ptr)) : option (loc * list (option ptr)) :=
  find_less_or_equal (fuel_of s) s key (head_ s) (max_height_ s - 1) nodes.

(** The search that goes on while [go key] holds of the next key. *)
Fixpoint find_while (fuel : nat) (s : SkipList) (go : K -> bool) (node : loc) (level : nat) : option loc :=
  match fuel with
  | O => None
  | S fuel' =>
      next ← GetNext s node level;
      advance ← match next with None => Some None | Some n => k ← GetKey s n; Some (if go k then Some n else None) end;
      match advance with
      | Some n => find_while fuel' s go n level
      | None => match level with O => Some node | S level' => find_while fuel' s go node level' end
      end
  end.
Definition FindEqual (s : SkipList) (key : K) : option loc :=
  find_while (fuel_of s) s (fun k => negb (compare_ k key >? 0)) (head_ s) (max_height_ s - 1).
Definition FindLessThan (s : SkipList) (key : K) : option loc :=
  find_while (fuel_of s) s (fun k => negb (compare_ k key >=? 0)) (head_ s) (max_height_ s - 1).

(** ** Insertion *)

(** At most [fuel] more levels. *)
Fixpoint random_height (fuel : nat) (height : nat) (seed : Z) : nat * Z :=
  match fuel with
  | O => (height, seed)
  | S fuel' =>
      if (height <? MaxHeight)%nat then
        let seed := Random_Next seed in
        if Z.rem seed Branch =? 0 then random_height fuel' (S height) seed else (height, seed)
      else (height, seed)
  end.
Definition RandomHeight (s : SkipList) : nat * SkipList :=
  let '(h, seed) := random_height MaxHeight 1 (rand_ s) in
  (h, mkSkipList (heap_ s) (max_height_ s) seed (head_ s) (tail_ s)).

(** The element of an array that must have been set to a node. *)
Definition at_level (pre : list (option ptr)) (i : nat) : option loc :=
  match pre !! i with Some (Some (Some l)) => Some l | _ => None end.

(** One turn of the loop that links a node: both stores. *)
Definition link_level (pre : list (option ptr)) (node : loc) (i : nat) (s : SkipList) : option SkipList :=
  p ← at_level pre i;
  next ← GetNext s p i;
  s1 ← SetNext node i next s;
  SetNext p i (Some node) s1.
Fixpoint link_levels (pre : list (option ptr)) (node : loc) (levels : list nat) (s : SkipList) : option SkipList :=
  match levels with [] => Some s | i :: levels' => s1 ← link_level pre node i s; link_levels pre node levels' s1 end.

(** The state before the loop: the node exists and the predecessors are
    known. *)
Definition insert_prepare (key : K) (value : V) (s0 : SkipList) : option (loc * list (option ptr) * nat * SkipList) :=
  let '(height, s) := RandomHeight s0 in
  '(_, pre) ← FindLessOrEqual s key (replicate MaxHeight None);
  let '(pre, s) :=
    if (max_height_ s <? height)%nat
    then (foldl (fun pre i => <[i := Some (Some (head_ s))]> pre) pre (seq (max_height_ s) (height - max_height_ s)), with_height height s)
    else (pre, s) in
  let '(node, s) := NewNode key value height s in
  p ← at_level pre 0;
  next ← GetNext s p 0;
  let s := match next with None => with_tail (Some node) s | Some _ => s end in
  Some (node, pre, height, s).
Definition Insert (key : K) (value : V) (s : SkipList) : option (nat * SkipList) :=
  '(node, pre, height, s1) ← insert_prepare key value s;
  s2 ← link_levels pre node (seq 0 height) s1;
  Some (height, s2).

(** [AddToFirst]: refused when the key is greater than the first. *)
Definition AddToFirst (key : K) (value : V) (s0 : SkipList) : option (bool * SkipList) :=
  first ← GetNext s0 (head_ s0) 0;
  greater ← match first with None => Some false | Some n => k ← GetKey s0 n; Some (compare_ key k >? 0) end;
  if greater : bool then Some (false, s0)
  else
    let '(height, s) := RandomHeight s0 in
    let pre := (fun i => if (i <? height)%nat then Some (Some (head_ s)) else None) <$> seq 0 MaxHeight in
    let s := if (max_height_ s <? height)%nat then with_height height s else s in
    let '(node, s) := NewNode key value height s in
    next ← GetNext s (head_ s) 0;
    let s := match next with None => with_tail (Some node) s | Some _ => s end in
    s' ← link_levels pre node (seq 0 height) s;
    Some (true, s').

(** ** Removal and splitting *)

Fixpoint unlink_levels (pre : list (option ptr)) (node : loc) (levels : list nat) (s : SkipList) : option SkipList :=
  match levels with
  | [] => Some s
  | i :: levels' =>
      p ← at_level pre i;
      next ← GetNext s node i;
      s1 ← SetNext p i next s;
      s2 ← SetNext node i None s1;
      unlink_levels pre node levels' s2
  end.
(** The node that was taken out, if any. *)
Definition Remove (key : K) (s : SkipList) : option (ptr * SkipList) :=
  '(target, pre) ← FindLessOrEqual s key (replicate MaxHeight (Some (Some (head_ s))));
  result ← GetNext s target 0;
  match result with
  | None => Some (None, s)
  | Some r =>
      k ← GetKey s r;
      if negb (compare_ k key =? 0) then Some (None, s)
      else
        height ← Height s r;
        s1 ← unlink_levels pre r (seq 0 height) s;
        if bool_decide (tail_ s1 = Some r) then
          p ← at_level pre 0;
          Some (Some r, with_tail (if bool_decide (p = head_ s1) then None else Some p) s1)
        else Some (Some r, s1)
  end.

(** The next pointer is cleared at all levels that were set. *)
Fixpoint cut_levels (pre : list (option ptr)) (i : nat) (s : SkipList) : option SkipList :=
  match pre with
  | [] => Some s
  | p :: pre' =>
      s1 ← match p with None => None | Some None => Some s | Some (Some l) => SetNext l i None s end;
      cut_levels pre' (S i) s1
  end.
Definition Split (key : K) (s : SkipList) : option (ptr * SkipList) :=
  '(target, pre) ← FindLessOrEqual s key (replicate MaxHeight (Some None));
  let s := with_tail (Some target) s in
  result ← GetNext s target 0;
  s' ← cut_levels pre 0 s;
  Some (result, s').

(** [SplitByPos]: the node at a position, ... *)
Fixpoint node_at (pos : nat) (s : SkipList) (p : ptr) : option ptr :=
  match pos with
  | O => Some p
  | S pos' => match p with None => Some None | Some l => p' ← GetNext s l 0; node_at pos' s p' end
  end.
(** ... the levels above the list that lead over it, ... *)
Fixpoint cut_over (levels : list nat) (bound : K) (node : loc) (s : SkipList) : option SkipList :=
  match levels with
  | [] => Some s
  | i :: levels' =>
      next ← GetNext s node i;
      s1 ← match next with
           | None => Some s
           | Some n => k ← GetKey s n; if compare_ bound k <=? 0 then SetNext node i None s else Some s
           end;
      cut_over levels' bound node s1
  end.
Fixpoint clear_nexts (levels : list nat) (node : loc) (s : SkipList) : option SkipList :=
  match levels with [] => Some s | i :: levels' => s1 ← SetNext node i None s; clear_nexts levels' node s1 end.
(** ... and the walk to it: [todo] is [pos - cnt]. *)
Fixpoint split_walk (todo : nat) (bound : K) (pre : loc) (node : ptr) (s : SkipList) : option (ptr * SkipList) :=
  match node with
  | None => Some (None, s)
  | Some n =>
      match todo with
      | O => h ← Height s pre; s1 ← clear_nexts (seq 0 h) pre (with_tail (Some pre) s); Some (Some n, s1)
      | S todo' =>
          h ← Height s n;
          s1 ← cut_over (seq 1 (h - 1)) bound n s;
          next ← GetNext s1 n 0;
          split_walk todo' bound n next s1
      end
  end.
Definition SplitByPos (pos : nat) (s : SkipList) : option (ptr * SkipList) :=
  first ← GetNext s (head_ s) 0;
  pos_node ← node_at pos s first;
  match pos_node with
  | None => Some (None, s)
  | Some l => k ← GetKey s l; split_walk (S pos) k (head_ s) (Some (head_ s)) s
  end.

(** [Clear]: all nodes are deleted. *)
Fixpoint clear_loop (fuel : nat) (node : ptr) (cnt : Z) (s : SkipList) : option (Z * SkipList) :=
  match fuel with
  | O => None
  | S fuel' =>
      match node with
      | None => Some (cnt, s)
      | Some l =>
          next ← GetNext s l 0;
          h ← Height s l;
          s1 ← clear_nexts (seq 0 h) l s;
          clear_loop fuel' next (u64 (cnt + 1)) (with_heap (delete l (heap_ s1)) s1)
      end
  end.
Definition Clear (s : SkipList) : option (Z * SkipList) :=
  node ← GetNext s (head_ s) 0;
  h ← Height s (head_ s);
  s1 ← clear_nexts (seq 0 h) (head_ s) s;
  clear_loop (fuel_of s) node 0 (with_tail None s1).

(** ** Reading *)

Definition IsEmpty (s : SkipList) : option bool := p ← GetNext s (head_ s) 0; Some (bool_decide (p = None)).
(** [int Get(key, v)]: the value, if it returns 0. *)
Definition Get (key : K) (s : SkipList) : option (option V) :=
  node ← FindEqual s key;
  n ← heap_ s !! node;
  Some (if compare_ (key_ n) key =? 0 then Some (value_ n) else None).
Definition GetLast (s : SkipList) : ptr := tail_ s.
Fixpoint count_nodes (fuel : nat) (s : SkipList) (p : ptr) (cnt : Z) : option Z :=
  match fuel with
  | O => None
  | S fuel' =>
      match p with
      | None => Some cnt
      | Some l => tmp ← GetNext s l 0; match tmp with None => Some (u32 (cnt + 1)) | Some _ => count_nodes fuel' s tmp (u32 (cnt + 1)) end
      end
  end.
Definition GetSize (s : SkipList) : option Z := p ← GetNext s (head_ s) 0; count_nodes (fuel_of s) s p 0.

(** The iterator is its current node. *)
Definition it_Valid (it : ptr) : bool := bool_decide (it <> None).
Definition it_Next (s : SkipList) (it : ptr) : option ptr := l ← it; GetNext s l 0.
Definition it_GetKey (s : SkipList) (it : ptr) : option K := l ← it; GetKey s l.
Definition it_GetValue (s : SkipList) (it : ptr) : option V := l ← it; GetValue s l.
Definition it_Seek (s : SkipList) (key : K) : option ptr := l ← FindLessThan s key; GetNext s l 0.
Definition it_SeekToFirst (s : SkipList) : option ptr := GetNext s (head_ s) 0.
Definition it_SeekToLast (s : SkipList) : ptr := GetLast s.
End SkipList.
