(* ===== verification/SkipListProof.v ===== *)
(** * The skip list is a sorted list, also while a node is inserted

    The representation invariant says that following the next pointers of a
    level from the head leads through the nodes of the list that are linked at
    this level. A node that is being inserted is linked at some of its levels
    only, so the invariant has a function [lvl] for the number of levels of a
    node that are linked. *)

From stdpp Require Import base numbers option list gmap sorting relations.
From S2P Require Import Prelude SkipList.

Class ComparatorLaws {K} (compare_ : K -> K -> Z) := {
  cmp_flip : forall a b, 0 < compare_ a b <-> compare_ b a < 0;
  cmp_trans : forall a b c, compare_ a b <= 0 -> compare_ b c <= 0 -> compare_ a c <= 0
}.

Section Proof.
Context {K V : Type} (default_key : K) (default_value : V) (compare_ : K -> K -> Z) (MaxHeight : nat) (Branch : Z).
Context `{!ComparatorLaws compare_}.
Notation list := Datatypes.list.

(** An entry: the node, its key and its value. *)
Definition entry : Type := loc * (K * V).
Notation keyof e := (e.2.1).
Notation SL := (SkipList (K := K) (V := V)).

(** ** Pointers *)

Lemma GetNext_node (s : SL) x i p : GetNext s x i = Some p -> exists n, heap_ s !! x = Some n /\ nexts_ n !! i = Some p.
Proof. unfold GetNext. destruct (heap_ s !! x) as [n|] eqn:E; [|done]. cbn. by exists n. Qed.

Lemma SetNext_ok (s : SL) x i q p : GetNext s x i = Some q ->
  exists s', SetNext x i p s = Some s' /\
    (forall y j, GetNext s' y j = if decide (y = x /\ j = i) then Some p else GetNext s y j) /\
    (forall y, key_ <$> heap_ s' !! y = key_ <$> heap_ s !! y) /\
    (forall y, value_ <$> heap_ s' !! y = value_ <$> heap_ s !! y) /\
    (forall y, Height s' y = Height s y) /\
    size (heap_ s') = size (heap_ s) /\
    head_ s' = head_ s /\ tail_ s' = tail_ s /\ max_height_ s' = max_height_ s.
Proof.
  intros (n & Hn & Hi)%GetNext_node. unfold SetNext. rewrite Hn. cbn [mbind option_bind].
  pose proof (lookup_lt_Some _ _ _ Hi) as Hlt. rewrite (proj2 (Nat.ltb_lt _ _)) by done. eexists. split; [done|].
  unfold GetNext, Height. cbn [with_heap heap_ head_ tail_ max_height_]. split_and!; try done.
  - intros y j. destruct (decide (y = x)) as [->|Hy].
    + rewrite lookup_insert. rewrite decide_True by done. cbn. rewrite Hn. cbn. destruct (decide (j = i)) as [->|Hj].
      * rewrite decide_True by done. by apply list_lookup_insert_eq.
      * rewrite decide_False by (by intros [? ?]). by apply list_lookup_insert_ne.
    + rewrite lookup_insert_ne by done. by rewrite decide_False by (by intros [? ?]).
  - intros y. destruct (decide (y = x)) as [->|]; [rewrite lookup_insert, decide_True by done; by rewrite Hn|by rewrite lookup_insert_ne].
  - intros y. destruct (decide (y = x)) as [->|]; [rewrite lookup_insert, decide_True by done; by rewrite Hn|by rewrite lookup_insert_ne].
  - intros y. destruct (decide (y = x)) as [->|]; [|by rewrite lookup_insert_ne]. rewrite lookup_insert, decide_True by done. rewrite Hn. cbn. by rewrite length_insert.
  - apply map_size_insert_Some. by rewrite Hn.
Qed.

(** ** Chains *)

Fixpoint linked (s : SL) (i : nat) (a : loc) (es : list entry) : Prop :=
  match es with
  | [] => GetNext s a i = Some None
  | e :: es' => GetNext s a i = Some (Some e.1) /\ linked s i e.1 es'
  end.
(** The last node of a chain that begins at [h]. *)
Definition lastl (h : loc) (es : list entry) : loc := match last es with Some e => e.1 | None => h end.

Lemma lastl_cons h e es : lastl h (e :: es) = lastl e.1 es.
Proof. unfold lastl. rewrite last_cons. by destruct (last es). Qed.
Lemma lastl_snoc h es e : lastl h (es ++ [e]) = e.1.
Proof. unfold lastl. by rewrite last_snoc. Qed.
Lemma lastl_app h xs e ys : lastl h (xs ++ e :: ys) = lastl e.1 ys.
Proof. revert h. induction xs as [|x xs IH]; intros h; cbn [app]; rewrite lastl_cons; [done|apply IH]. Qed.
Lemma lastl_elem h es : lastl h es ∈ h :: es.*1.
Proof. revert h. induction es as [|e es IH]; intros h; [left|]. rewrite lastl_cons. cbn. right. apply IH. Qed.

Lemma linked_next s i a es : linked s i a es -> GetNext s a i = Some (fst <$> head es).
Proof. destruct es; cbn; [done|by intros [? _]]. Qed.
Lemma linked_app s i a xs ys : linked s i a (xs ++ ys) -> linked s i (lastl a xs) ys.
Proof. revert a. induction xs as [|x xs IH]; intros a; cbn [app linked]; [done|]. intros [_ Hx]. rewrite lastl_cons. by apply IH. Qed.
Lemma linked_frame s s' i a es : (forall x, x ∈ a :: es.*1 -> GetNext s' x i = GetNext s x i) -> linked s i a es -> linked s' i a es.
Proof.
  revert a. induction es as [|e es IH]; intros a Hf; cbn [linked].
  - intros <-. apply Hf. left.
  - intros [<- Hl]. split; [apply Hf; left|]. apply IH; [|done]. intros x Hx. apply Hf. by right.
Qed.
(** A node is put between two parts of a chain. *)
Lemma linked_insert s s' i a xs e ys : NoDup (a :: xs.*1) -> e.1 ∉ (a :: (xs ++ ys).*1) -> (forall y, y ∈ ys.*1 -> y ∉ (a :: xs.*1)) ->
  (forall x, GetNext s' x i = if decide (x = lastl a xs) then Some (Some e.1) else if decide (x = e.1) then Some (fst <$> head ys) else GetNext s x i) ->
  linked s i a (xs ++ ys) -> linked s' i a (xs ++ e :: ys).
Proof.
  revert a. induction xs as [|x xs IH]; intros a Hnd He Hys Hs; cbn [app linked].
  - intros Hl. cbn [app] in He. rewrite Hs. rewrite decide_True by done. split; [done|].
    assert (e.1 <> a) as Hea by (intros E; apply He; rewrite E; left).
    assert (GetNext s' e.1 i = Some (fst <$> head ys)) as En by (rewrite Hs, decide_False, decide_True by done; done).
    destruct ys as [|y ys]; cbn [linked head fmap option_fmap option_map] in *; [done|]. split; [done|]. destruct Hl as [_ Hl].
    eapply linked_frame; [|exact Hl]. intros z Hz. rewrite Hs. rewrite decide_False, decide_False; [done| |].
    + intros ->. apply He. by right.
    + intros ->. apply (Hys a); [exact Hz|left].
  - intros [Hax Hl]. rewrite lastl_cons in Hs. cbn in Hnd. apply NoDup_cons in Hnd as [Hna Hnd].
    assert (a <> lastl x.1 xs) as Hal by (intros ->; apply Hna; apply lastl_elem).
    assert (a <> e.1) as Hae by (intros ->; apply He; left).
    split; [rewrite Hs, decide_False, decide_False by done; done|]. apply IH; try done.
    + intros Hin. apply He. by right.
    + intros y Hy Hin. apply (Hys y Hy). by right.
Qed.

(** ** The representation *)

Notation at_lvl lvl i := (filter (fun e : entry => (i < lvl e.1)%nat)).

(** What does not depend on the links. *)
Record nodes_ok (s : SL) (es : list entry) : Prop := {
  n_head : Height s (head_ s) = Some MaxHeight;
  n_entries : forall e, e ∈ es -> key_ <$> heap_ s !! e.1 = Some (keyof e) /\ value_ <$> heap_ s !! e.1 = Some e.2.2;
  n_nodup : NoDup (head_ s :: es.*1);
  n_sorted : StronglySorted (fun a b => compare_ (keyof a) (keyof b) <= 0) es
}.
Record rep (s : SL) (lvl : loc -> nat) (es : list entry) : Prop := {
  r_nodes : nodes_ok s es;
  r_linked : forall i, (i < MaxHeight)%nat -> linked s i (head_ s) (at_lvl lvl i es);
  r_lvl : forall e, e ∈ es -> (1 <= lvl e.1 <= max_height_ s)%nat;
  r_max : (1 <= max_height_ s <= MaxHeight)%nat
}.
Definition tail_ok (s : SL) (es : list entry) : Prop := tail_ s = fst <$> last es.

Lemma rep_new : (1 <= MaxHeight)%nat -> rep (SkipList_new default_key default_value MaxHeight) (fun _ => O) [] /\
  tail_ok (SkipList_new default_key default_value MaxHeight) [].
Proof.
  intros Hm. split; [|done]. split.
  - split.
    + unfold Height, SkipList_new. cbn [heap_ head_]. rewrite lookup_singleton, decide_True by done. cbn. by rewrite length_replicate.
    + intros e He. by apply elem_of_nil in He.
    + cbn. by repeat constructor; apply not_elem_of_nil.
    + constructor.
  - intros i Hi. rewrite filter_nil. cbn [linked]. unfold GetNext, SkipList_new. cbn [heap_ head_]. rewrite lookup_singleton, decide_True by done. cbn. by apply lookup_replicate_2.
  - intros e He. by apply elem_of_nil in He.
  - cbn. lia.
Qed.

(** ** Searching *)

Section Search.
Context (s : SL) (lvl : loc -> nat) (es : list entry) (Hrep : rep s lvl es).

Lemma rep_key e : e ∈ es -> GetKey s e.1 = Some (keyof e).
Proof. intros He. unfold GetKey. by destruct (n_entries _ _ (r_nodes _ _ _ Hrep) e He). Qed.

(** From a node that is linked at a level, the level leads through the nodes
    after it. *)
Lemma linked_from i a r : (i < MaxHeight)%nat -> es = a ++ r -> (a = [] \/ (i < lvl (lastl (head_ s) a))%nat) ->
  linked s i (lastl (head_ s) a) (at_lvl lvl i r).
Proof.
  intros Hi -> Ha. pose proof (r_linked _ _ _ Hrep i Hi) as Hl. rewrite filter_app in Hl. apply linked_app in Hl.
  destruct Ha as [->|Ha]; [done|]. destruct a as [|e a _] using rev_ind; [done|]. rewrite lastl_snoc in *.
  rewrite filter_app in Hl. rewrite (filter_cons_True _ e) in Hl by done. rewrite filter_nil, lastl_snoc in Hl. done.
Qed.

(** The next node at a level of the last node of [a]: either the first node of
    [b] that is linked there, or none of [b]. *)
Lemma search_step i a b c : (i < MaxHeight)%nat -> es = a ++ b ++ c -> (a = [] \/ (i < lvl (lastl (head_ s) a))%nat) ->
  (at_lvl lvl i b = [] /\ exists next, GetNext s (lastl (head_ s) a) i = Some next /\
     match next with None => True | Some n => exists e, e ∈ c /\ n = e.1 end) \/
  (exists b1 e b2, b = b1 ++ e :: b2 /\ (i < lvl e.1)%nat /\ GetNext s (lastl (head_ s) a) i = Some (Some e.1)).
Proof.
  intros Hi He Ha. pose proof (linked_next _ _ _ _ (linked_from i a (b ++ c) Hi He Ha)) as Hn. rewrite filter_app in Hn.
  destruct (at_lvl lvl i b) as [|e b'] eqn:Eb.
  - left. split; [done|]. eexists. split; [exact Hn|]. cbn [app]. destruct (at_lvl lvl i c) as [|e c'] eqn:Ec; cbn; [done|].
    exists e. split; [|done]. assert (e ∈ at_lvl lvl i c) as Hin by (rewrite Ec; left). by apply list_elem_of_filter in Hin as [_ ?].
  - right. assert (e ∈ at_lvl lvl i b) as Hin by (rewrite Eb; left). apply list_elem_of_filter in Hin as [Hlt Hin].
    apply list_elem_of_split in Hin as (b1 & b2 & ->). exists b1, e, b2. by split_and!.
Qed.

(** Every node of the list is linked at level 0. *)
Lemma at_lvl_0 (b : list entry) : (forall e, e ∈ b -> e ∈ es) -> at_lvl lvl 0 b = b.
Proof.
  intros Hb. induction b as [|e b IHb]; [done|]. destruct (r_lvl _ _ _ Hrep e (Hb e ltac:(left))) as [Hl _].
  rewrite filter_cons_True by lia. rewrite IHb; [done|]. intros e' He'. apply Hb. by right.
Qed.
Lemma rep_size : (length es < size (heap_ s))%nat.
Proof.
  pose proof (n_nodup _ _ (r_nodes _ _ _ Hrep)) as Hnd. assert (list_to_set (C := gset loc) (head_ s :: es.*1) ⊆ dom (heap_ s)) as Hsub.
  { intros x Hx. apply elem_of_list_to_set, elem_of_cons in Hx as [->|Hx].
    - pose proof (n_head _ _ (r_nodes _ _ _ Hrep)) as Hh. unfold Height in Hh. apply elem_of_dom. destruct (heap_ s !! head_ s); [done|discriminate].
    - apply list_elem_of_fmap in Hx as (e & -> & He). destruct (n_entries _ _ (r_nodes _ _ _ Hrep) e He) as [Hk _]. apply elem_of_dom. destruct (heap_ s !! e.1); [done|discriminate]. }
  apply subseteq_size in Hsub. rewrite size_list_to_set, size_dom in Hsub by done. rewrite length_cons, length_fmap in Hsub. exact Hsub.
Qed.

Context (go : K -> bool) (pre suf : list entry) (Hes : es = pre ++ suf).
Context (Hpre : forall e, e ∈ pre -> go (keyof e) = true) (Hsuf : forall e, e ∈ suf -> go (keyof e) = false).

Lemma find_while_ok fuel : forall level a b, pre = a ++ b -> (a = [] \/ (level < lvl (lastl (head_ s) a))%nat) ->
  (level < MaxHeight)%nat -> (length b + level < fuel)%nat ->
  find_while fuel s go (lastl (head_ s) a) level = Some (lastl (head_ s) pre).
Proof.
  induction fuel as [|fuel IH]; intros level a b Hp Ha Hl Hf; [lia|]. cbn [find_while].
  assert (es = a ++ b ++ suf) as Hes' by (by rewrite Hes, Hp, <- app_assoc).
  destruct (search_step level a b suf Hl Hes' Ha) as [(Hb & next & Hn & Hc)|(b1 & e & b2 & -> & Hlt & Hn)]; rewrite Hn; cbn [mbind option_bind].
  - assert (forall {A} (f : option loc -> option A), (match next with None => Some None | Some n => k ← GetKey s n; Some (if go k then Some n else None) end ≫= f) = f None) as Hadv.
    { intros A f. destruct next as [n|]; [|done]. destruct Hc as (e & He & ->). rewrite rep_key by (rewrite Hes; set_solver). cbn. by rewrite Hsuf. }
    rewrite Hadv. destruct level as [|level].
    + rewrite at_lvl_0 in Hb by (intros e He; rewrite Hes'; set_solver). subst b. by rewrite Hp, app_nil_r.
    + apply (IH level a b); [done| |lia|lia]. destruct Ha; [by left|right; lia].
  - rewrite rep_key by (rewrite Hes', <- app_assoc; set_solver). cbn. rewrite Hpre by (rewrite Hp; set_solver).
    rewrite length_app in Hf. cbn [length] in Hf.
    assert (lastl (head_ s) (a ++ b1 ++ [e]) = e.1) as El by (by rewrite app_assoc, lastl_snoc).
    rewrite <- El. apply (IH level _ b2); [by rewrite Hp, <- !app_assoc|right; by rewrite El|done|lia].
Qed.

(** The search that remembers the last node of every level. *)
Lemma lastl_at_lvl i a b : at_lvl lvl i b = [] -> (a = [] \/ (i < lvl (lastl (head_ s) a))%nat) ->
  lastl (head_ s) (at_lvl lvl i (a ++ b)) = lastl (head_ s) a.
Proof.
  intros Hb Ha. rewrite filter_app, Hb, app_nil_r. destruct Ha as [->|Ha]; [done|].
  destruct a as [|e a _] using rev_ind; [done|]. rewrite lastl_snoc in *. rewrite filter_app, filter_cons_True by done. by rewrite filter_nil, lastl_snoc.
Qed.

Lemma find_less_or_equal_ok key fuel : (forall k, go k = (compare_ key k >? 0)) -> forall level a b nodes, pre = a ++ b -> (a = [] \/ (level < lvl (lastl (head_ s) a))%nat) ->
  (level < MaxHeight)%nat -> (level < length nodes)%nat -> (length b + level < fuel)%nat ->
  exists nodes', find_less_or_equal compare_ fuel s key (lastl (head_ s) a) level nodes = Some (lastl (head_ s) pre, nodes') /\
    length nodes' = length nodes /\
    (forall i, (i <= level)%nat -> nodes' !! i = Some (Some (Some (lastl (head_ s) (at_lvl lvl i pre))))) /\
    (forall i, (level < i)%nat -> nodes' !! i = nodes !! i).
Proof.
  intros Hgo. induction fuel as [|fuel IH]; intros level a b nodes Hp Ha Hl Hnl Hf; [lia|]. cbn [find_less_or_equal].
  assert (es = a ++ b ++ suf) as Hes' by (by rewrite Hes, Hp, <- app_assoc).
  destruct (search_step level a b suf Hl Hes' Ha) as [(Hb & next & Hn & Hc)|(b1 & e & b2 & -> & Hlt & Hn)]; rewrite Hn; cbn [mbind option_bind].
  - assert (IsAfterNode compare_ key s next = Some false) as ->.
    { destruct next as [n|]; [|done]. destruct Hc as (e & He & ->). cbn. rewrite rep_key by (rewrite Hes; set_solver). cbn. by rewrite <- Hgo, Hsuf. }
    cbn [mbind option_bind]. pose proof (lastl_at_lvl level a b Hb Ha) as El. rewrite <- Hp in El. set (nodes1 := <[level := _]> nodes).
    assert (nodes1 !! level = Some (Some (Some (lastl (head_ s) (at_lvl lvl level pre))))) as Hlev by (unfold nodes1; rewrite list_lookup_insert_eq by done; by rewrite El).
    destruct level as [|level].
    + exists nodes1. split_and!; [|unfold nodes1; by rewrite length_insert| |].
      * rewrite at_lvl_0 in Hb by (intros e He; rewrite Hes'; set_solver). subst b. rewrite app_nil_r in Hp. subst a. by destruct next.
      * intros i Hi. by replace i with O by lia.
      * intros i Hi. unfold nodes1. by rewrite list_lookup_insert_ne by lia.
    + destruct (IH level a b nodes1) as (nodes' & E & Hlen & H1 & H2); [done|destruct Ha; [by left|right; lia]|lia|unfold nodes1; rewrite length_insert; lia|lia|].
      exists nodes'. split_and!; [|rewrite Hlen; unfold nodes1; by rewrite length_insert| |].
      * destruct next; exact E.
      * intros i Hi. destruct (decide (i = S level)) as [->|]; [|apply H1; lia]. by rewrite H2 by lia.
      * intros i Hi. rewrite H2 by lia. unfold nodes1. by rewrite list_lookup_insert_ne by lia.
  - cbn [IsAfterNode]. rewrite rep_key by (rewrite Hes', <- app_assoc; set_solver). cbn [mbind option_bind]. rewrite <- Hgo, Hpre by (rewrite Hp; set_solver).
    rewrite length_app in Hf. cbn [length] in Hf.
    assert (lastl (head_ s) (a ++ b1 ++ [e]) = e.1) as El by (by rewrite app_assoc, lastl_snoc).
    rewrite <- El. apply (IH level _ b2); [by rewrite Hp, <- !app_assoc|right; by rewrite El|done|done|lia].
Qed.
End Search.

(** ** The list at a key *)

Fixpoint before (go : K -> bool) (es : list entry) : list entry :=
  match es with e :: es' => if go (keyof e) then e :: before go es' else [] | [] => [] end.
Fixpoint after (go : K -> bool) (es : list entry) : list entry :=
  match es with e :: es' => if go (keyof e) then after go es' else es | [] => [] end.

Lemma before_after go es : es = before go es ++ after go es.
Proof. induction es as [|e es IH]; [done|]. cbn. destruct (go (keyof e)); cbn; by rewrite <- ?IH. Qed.
Lemma before_go go es e : e ∈ before go es -> go (keyof e) = true.
Proof.
  induction es as [|x es IH]; cbn; [by intros ?%elem_of_nil|]. destruct (go (keyof x)) eqn:E; [|by intros ?%elem_of_nil].
  intros [->|He]%elem_of_cons; auto.
Qed.
(** Keys stop being accepted at most once. *)
Definition downward (go : K -> bool) : Prop := forall a b, compare_ a b <= 0 -> go b = true -> go a = true.
Lemma after_go go es e : downward go -> StronglySorted (fun a b => compare_ (keyof a) (keyof b) <= 0) es -> e ∈ after go es -> go (keyof e) = false.
Proof.
  intros Hd Hs. induction Hs as [|x es Hs IH Hx]; cbn; [by intros ?%elem_of_nil|]. destruct (go (keyof x)) eqn:E; [done|].
  intros [->|He]%elem_of_cons; [done|]. destruct (go (keyof e)) eqn:Ee; [|done]. rewrite Forall_forall in Hx. specialize (Hx e He). by rewrite (Hd _ _ Hx Ee) in E.
Qed.
Definition lt_key (key k : K) : bool := compare_ key k >? 0.
Definition le_key (key k : K) : bool := negb (compare_ k key >? 0).
Lemma lt_downward key : downward (lt_key key).
Proof.
  intros a b Hab. unfold lt_key. rewrite !Z.gtb_lt. intros Hb. apply cmp_flip in Hb. apply cmp_flip.
  destruct (Z.lt_ge_cases (compare_ a key) 0) as [|Hge]; [done|]. exfalso.
  assert (compare_ key a <= 0) as Hka. { destruct (Z.lt_ge_cases 0 (compare_ key a)) as [Hp|]; [|lia]. apply cmp_flip in Hp. lia. }
  pose proof (cmp_trans _ _ _ Hka Hab) as Hkb. pose proof (proj2 (cmp_flip key b) Hb). lia.
Qed.
Lemma le_downward key : downward (le_key key).
Proof.
  intros a b Hab. unfold le_key. rewrite !negb_true_iff, !Z.gtb_ltb, !Z.ltb_ge. intros Hb. by eapply cmp_trans.
Qed.

Lemma lt_key_flip key k : lt_key key k = negb (compare_ k key >=? 0).
Proof.
  unfold lt_key. pose proof (cmp_flip key k). destruct (Z.gtb_spec (compare_ key k) 0), (Z.geb_spec (compare_ k key) 0); cbn; lia || done.
Qed.
Lemma before_ext go go' es : (forall k, go k = go' k) -> before go es = before go' es.
Proof. intros He. induction es as [|e es IH]; [done|]. cbn. by rewrite He, IH. Qed.

(** ** What readers see *)

Section Readers.
Context (s : SL) (lvl : loc -> nat) (es : list entry) (Hrep : rep s lvl es).

Lemma find_while_rep go : downward go ->
  find_while (fuel_of MaxHeight s) s go (head_ s) (max_height_ s - 1) = Some (lastl (head_ s) (before go es)).
Proof.
  intros Hd. pose proof (r_max _ _ _ Hrep) as Hm. pose proof (rep_size s lvl es Hrep) as Hsz.
  apply (find_while_ok s lvl es Hrep go (before go es) (after go es) (before_after go es)) with (a := []) (b := before go es).
  - intros e He. by apply before_go in He.
  - intros e He. eapply after_go; [done| |exact He]. apply (n_sorted _ _ (r_nodes _ _ _ Hrep)).
  - done.
  - by left.
  - lia.
  - unfold fuel_of. pose proof (f_equal length (before_after go es)) as El. rewrite length_app in El.
    assert (length (before go es) < size (heap_ s))%nat by (eapply Nat.le_lt_trans; [|exact Hsz]; rewrite El; lia). lia.
Qed.
Lemma FindLessOrEqual_rep key nodes : (MaxHeight <= length nodes)%nat ->
  exists nodes', FindLessOrEqual compare_ MaxHeight s key nodes = Some (lastl (head_ s) (before (lt_key key) es), nodes') /\ length nodes' = length nodes /\
    (forall i, (i < max_height_ s)%nat -> nodes' !! i = Some (Some (Some (lastl (head_ s) (at_lvl lvl i (before (lt_key key) es)))))) /\
    (forall i, (max_height_ s <= i)%nat -> nodes' !! i = nodes !! i).
Proof.
  intros Hn. pose proof (r_max _ _ _ Hrep) as Hm. pose proof (rep_size s lvl es Hrep) as Hsz. unfold FindLessOrEqual.
  destruct (find_less_or_equal_ok s lvl es Hrep (lt_key key) (before (lt_key key) es) (after (lt_key key) es) (before_after _ es)) with
    (key := key) (fuel := fuel_of MaxHeight s) (level := (max_height_ s - 1)%nat) (a := @nil entry) (b := before (lt_key key) es) (nodes := nodes)
    as (nodes' & E & Hlen & H1 & H2); try done.
  - intros e He. by apply before_go in He.
  - intros e He. eapply after_go; [apply lt_downward| |exact He]. apply (n_sorted _ _ (r_nodes _ _ _ Hrep)).
  - by left.
  - lia.
  - lia.
  - unfold fuel_of. pose proof (f_equal length (before_after (lt_key key) es)) as El. rewrite length_app in El.
    assert (length (before (lt_key key) es) < size (heap_ s))%nat by (eapply Nat.le_lt_trans; [|exact Hsz]; rewrite El; lia). lia.
  - exists nodes'. split_and!; [exact E|done|intros i Hi; apply H1; lia|intros i Hi; apply H2; lia].
Qed.

Lemma next_rep a b : es = a ++ b -> GetNext s (lastl (head_ s) a) 0 = Some (fst <$> head b).
Proof.
  intros E. pose proof (r_max _ _ _ Hrep) as Hm. assert (linked s 0 (lastl (head_ s) a) (at_lvl lvl 0 b)) as Hl.
  { apply (linked_from s lvl es Hrep 0 a b); [lia|done|]. destruct a as [|e a _] using rev_ind; [by left|right]. rewrite lastl_snoc.
    destruct (r_lvl _ _ _ Hrep e); [rewrite E; set_solver|lia]. }
  rewrite (at_lvl_0 s lvl es Hrep) in Hl by (intros e He; rewrite E; set_solver). exact (linked_next _ _ _ _ Hl).
Qed.

Lemma skiplist_next a e b : es = a ++ e :: b -> it_Next s (Some e.1) = Some (fst <$> head b).
Proof. intros E. pose proof (next_rep (a ++ [e]) b ltac:(by rewrite E, <- app_assoc)) as Hn. by rewrite lastl_snoc in Hn. Qed.
(** The iterator finds the first key that is not less. *)
Lemma seek_rep key : it_Seek compare_ MaxHeight s key = Some (fst <$> head (after (lt_key key) es)).
Proof.
  unfold it_Seek, FindLessThan. rewrite find_while_rep.
  - rewrite (before_ext _ (lt_key key)) by (intros k; symmetry; apply lt_key_flip). cbn [mbind option_bind]. by apply next_rep, before_after.
  - intros a b Hab. rewrite <- !lt_key_flip. by apply lt_downward.
Qed.
Lemma first_rep : it_SeekToFirst s = Some (fst <$> head es).
Proof. apply (next_rep [] es). done. Qed.

(** [Get]: the last entry that is not greater decides, or the head. *)
Lemma get_rep key n : heap_ s !! head_ s = Some n ->
  Get compare_ MaxHeight key s = Some
    match last (before (le_key key) es) with
    | Some e => if compare_ (keyof e) key =? 0 then Some e.2.2 else None
    | None => if compare_ (key_ n) key =? 0 then Some (value_ n) else None
    end.
Proof.
  intros Hh. unfold Get, FindEqual. change (fun k => negb (compare_ k key >? 0)) with (le_key key). rewrite find_while_rep by apply le_downward. cbn [mbind option_bind]. unfold lastl.
  destruct (last (before (le_key key) es)) as [e|] eqn:El; [|by rewrite Hh].
  assert (e ∈ es) as He by (rewrite (before_after (le_key key) es); apply elem_of_app; left; by apply last_Some_elem_of).
  destruct (n_entries _ _ (r_nodes _ _ _ Hrep) e He) as [Hk Hv]. destruct e as [x [k v]]. cbn in *. destruct (heap_ s !! x) as [m|]; [|done]. cbn in *.
  injection Hk as ->. injection Hv as ->. done.
Qed.

Lemma count_rep b : forall a fuel cnt, es = a ++ b -> (length b < fuel)%nat -> cnt + Z.of_nat (length b) < 2 ^ 32 -> 0 <= cnt ->
  count_nodes fuel s (fst <$> head b) cnt = Some (cnt + Z.of_nat (length b)).
Proof.
  induction b as [|e b IH]; intros a fuel cnt E Hf Hc Hp; (destruct fuel as [|fuel]; [lia|]); cbn [count_nodes head fmap option_fmap option_map]; [by rewrite Z.add_0_r|].
  pose proof (next_rep (a ++ [e]) b ltac:(by rewrite E, <- app_assoc)) as Hn. rewrite lastl_snoc in Hn. rewrite Hn. cbn [mbind option_bind]. cbn [length] in *.
  rewrite u32_small by lia. destruct b as [|e' b]; cbn [head fmap option_fmap option_map].
  - cbn. f_equal.
  - change (Some e'.1) with (fst <$> head (e' :: b)). rewrite (IH (a ++ [e])); [f_equal; cbn [length]; lia|by rewrite E, <- app_assoc|cbn [length] in *; lia..].
Qed.
Lemma size_rep : Z.of_nat (length es) < 2 ^ 32 -> GetSize MaxHeight s = Some (Z.of_nat (length es)).
Proof.
  intros Hl. unfold GetSize. change (head_ s) with (lastl (head_ s) []). rewrite (next_rep [] es eq_refl). cbn [mbind option_bind]. pose proof (rep_size s lvl es Hrep).
  rewrite (count_rep es []); [done|done|unfold fuel_of; lia|lia|lia].
Qed.
End Readers.

(** ** Insertion *)

Lemma Height_GetNext (s : SL) x h i : Height s x = Some h -> (i < h)%nat -> exists p, GetNext s x i = Some p.
Proof.
  unfold Height, GetNext. destruct (heap_ s !! x) as [n|]; [|done]. cbn. intros [= <-] Hi. destruct (lookup_lt_is_Some_2 (nexts_ n) i Hi) as [p Hp]. by exists p.
Qed.
Lemma at_lvl_ext (f g : loc -> nat) i (xs : list entry) : (forall e, e ∈ xs -> (i < f e.1)%nat <-> (i < g e.1)%nat) -> at_lvl f i xs = at_lvl g i xs.
Proof.
  intros Hx. induction xs as [|e xs IH]; [done|]. rewrite !filter_cons, IH by (intros e' He'; apply Hx; by right).
  specialize (Hx e ltac:(left)). by repeat case_decide; try tauto.
Qed.
Lemma nodes_ok_same (s s' : SL) es : nodes_ok s es -> head_ s' = head_ s -> (forall y, Height s' y = Height s y) ->
  (forall y, key_ <$> heap_ s' !! y = key_ <$> heap_ s !! y) -> (forall y, value_ <$> heap_ s' !! y = value_ <$> heap_ s !! y) -> nodes_ok s' es.
Proof.
  intros [H1 H2 H3 H4] Hh HH Hk Hv. split; [by rewrite Hh, HH| |by rewrite Hh|done]. intros e He. rewrite Hk, Hv. by apply H2.
Qed.

Lemma NoDup_fst_at_lvl (f : loc -> nat) i (xs : list entry) : NoDup xs.*1 -> NoDup (at_lvl f i xs).*1.
Proof.
  induction xs as [|x xs IH]; [done|]. cbn [fmap list_fmap]. intros [Hx Hnd]%NoDup_cons. rewrite filter_cons. case_decide; [|by apply IH].
  cbn [fmap list_fmap]. apply NoDup_cons. split; [|by apply IH]. intros (y & E & Hy)%list_elem_of_fmap. apply Hx. rewrite E. apply list_elem_of_fmap.
  exists y. split; [done|]. by apply list_elem_of_filter in Hy as [_ ?].
Qed.

Section Insertion.
Context (lvl : loc -> nat) (pre suf : list entry) (n : loc) (key : K) (value : V) (height : nat).
Notation e := (pair n (pair key value)).
Notation es' := (pre ++ e :: suf).

(** The node is linked at its first [j] levels. *)
Definition partial (j : nat) (x : loc) : nat := if decide (x = n) then j else lvl x.

Record linking (s : SL) (j : nat) : Prop := {
  k_nodes : nodes_ok s es';
  k_linked : forall i, (i < MaxHeight)%nat -> linked s i (head_ s) (at_lvl (partial j) i es');
  k_height : Height s n = Some height;
  k_range : (1 <= height <= max_height_ s)%nat /\ (max_height_ s <= MaxHeight)%nat;
  k_lvl : forall x, x ∈ pre ++ suf -> (1 <= lvl x.1 <= max_height_ s)%nat
}.

Lemma linking_nodup s j : linking s j -> NoDup (head_ s :: pre.*1) /\ (n ∉ (head_ s :: (pre ++ suf).*1)) /\ (forall y, y ∈ suf.*1 -> y ∉ (head_ s :: pre.*1)).
Proof.
  intros Hl. pose proof (n_nodup _ _ (k_nodes _ _ Hl)) as Hnd. rewrite fmap_app in *. cbn [fmap list_fmap] in Hnd. rewrite app_comm_cons in Hnd.
  apply NoDup_app in Hnd as (H1 & H2 & H3). apply NoDup_cons in H3 as [H3 H4]. cbn [fst] in *. split_and!; [done| |].
  - rewrite app_comm_cons. intros [Hin|Hin]%elem_of_app; [|by apply H3]. apply (H2 n Hin). left.
  - intros y Hy Hin. apply (H2 y Hin). by right.
Qed.
(** The other nodes are linked as before. *)
Lemma partial_parts s j i : linking s j -> at_lvl (partial j) i pre = at_lvl lvl i pre /\ at_lvl (partial j) i suf = at_lvl lvl i suf.
Proof.
  intros Hl. destruct (linking_nodup s j Hl) as (_ & Hn & _). split; apply at_lvl_ext; intros x Hx; unfold partial; rewrite decide_False; try done;
    intros E; apply Hn; right; apply list_elem_of_fmap; exists x; (split; [by rewrite E|set_solver]).
Qed.
Lemma partial_list s j i : linking s j -> at_lvl (partial j) i es' = at_lvl lvl i pre ++ (if decide (i < j)%nat then [e] else []) ++ at_lvl lvl i suf.
Proof.
  intros Hl. destruct (partial_parts s j i Hl) as [E1 E2]. rewrite filter_app, E1, filter_cons, E2. cbn [fst].
  assert (partial j n = j) as -> by (unfold partial; by rewrite decide_True). by destruct (decide (i < j)%nat).
Qed.

Lemma linking_rep s j : linking s j -> (1 <= j)%nat -> (j <= height)%nat -> rep s (partial j) es'.
Proof.
  intros Hl Hj Hh. pose proof (k_range _ _ Hl) as Hr. split; [apply Hl|apply Hl| |lia].
  intros x Hx. unfold partial. destruct (decide (x.1 = n)); [lia|]. apply (k_lvl _ _ Hl). apply elem_of_app in Hx as [Hx|[->|Hx]%elem_of_cons]; [set_solver|done|set_solver].
Qed.
Lemma linking_rep_0 s : linking s 0 -> rep s lvl (pre ++ suf).
Proof.
  intros Hl. pose proof (k_range _ _ Hl) as Hr. destruct (k_nodes _ _ Hl) as [H1 H2 H3 H4]. split; [split; [done| | |]| | |lia].
  - intros x Hx. apply H2. set_solver.
  - rewrite fmap_app in *. cbn [fmap list_fmap] in H3. rewrite app_comm_cons in *. apply NoDup_app in H3 as (Ha & Hb & Hc). apply NoDup_cons in Hc as [_ Hc].
    apply NoDup_app. split_and!; [done| |done]. intros x Hx Hin. apply (Hb x Hx). by right.
  - apply StronglySorted_app in H4 as (Ha & Hb & Hc). apply StronglySorted_app. split_and!; [|done|by inversion Hc]. intros x1 x2 Hx1 Hx2. apply Ha; [done|by right].
  - intros i Hi. pose proof (k_linked _ _ Hl i Hi) as Hk. rewrite (partial_list s 0 i Hl) in Hk. rewrite decide_False in Hk by lia. cbn [app] in Hk. by rewrite filter_app.
  - apply (k_lvl _ _ Hl).
Qed.

(** Both stores of a level keep the invariant. *)
Lemma link_level_ok s j arr : linking s j -> (j < height)%nat -> at_level arr j = Some (lastl (head_ s) (at_lvl lvl j pre)) ->
  exists s1 s2 p next, at_level arr j = Some p /\ GetNext s p j = Some next /\ SetNext n j next s = Some s1 /\ SetNext p j (Some n) s1 = Some s2 /\
    linking s1 j /\ linking s2 (S j) /\ tail_ s2 = tail_ s /\ head_ s2 = head_ s.
Proof.
  intros Hl Hj Ha. pose proof (k_range _ _ Hl) as Hr. destruct (linking_nodup s j Hl) as (Hnd & Hn & Hsuf).
  set (p := lastl (head_ s) (at_lvl lvl j pre)) in *. set (xs := at_lvl lvl j pre) in *. set (ys := at_lvl lvl j suf).
  assert (Hxs : forall x, x ∈ head_ s :: xs.*1 -> x ∈ head_ s :: pre.*1).
  { intros x [->|Hx]%elem_of_cons; [left|]. apply list_elem_of_fmap in Hx as (y & -> & Hy). apply list_elem_of_filter in Hy as [_ Hy]. right. apply list_elem_of_fmap. by exists y. }
  assert (Hys : forall y, y ∈ ys.*1 -> y ∈ suf.*1).
  { intros x Hx. apply list_elem_of_fmap in Hx as (y & -> & Hy). apply list_elem_of_filter in Hy as [_ Hy]. apply list_elem_of_fmap. by exists y. }
  assert (p ∈ head_ s :: pre.*1) as Hp by (apply Hxs, lastl_elem).
  assert (p <> n) as Hpn. { intros ->. apply Hn. rewrite fmap_app. set_solver. }
  assert (linked s j (head_ s) (xs ++ ys)) as Hlj.
  { pose proof (k_linked _ _ Hl j ltac:(lia)) as Hk. rewrite (partial_list s j j Hl), decide_False in Hk by lia. exact Hk. }
  pose proof (linked_next _ _ _ _ (linked_app _ _ _ _ _ Hlj)) as Hnext. fold p in Hnext.
  destruct (Height_GetNext s n height j (k_height _ _ Hl) Hj) as [q Hq].
  destruct (SetNext_ok s n j q (fst <$> head ys) Hq) as (s1 & E1 & G1 & K1 & V1 & H1 & _ & h1 & t1 & m1).
  destruct (SetNext_ok s1 p j (fst <$> head ys) (Some n)) as (s2 & E2 & G2 & K2 & V2 & H2 & _ & h2 & t2 & m2).
  { rewrite G1. rewrite decide_False by (by intros [? _]). exact Hnext. }
  exists s1, s2, p, (fst <$> head ys). split_and!; [done|done|done|done| | |congruence|congruence].
  - split; [by eapply nodes_ok_same; [apply Hl|..]| |by rewrite H1; apply Hl|by rewrite m1|rewrite m1; apply Hl].
    intros i Hi. rewrite h1. eapply linked_frame; [|apply (k_linked _ _ Hl i Hi)]. intros x Hx. rewrite G1. rewrite decide_False; [done|].
    intros [-> ->]. rewrite (partial_list s j j Hl), decide_False in Hx by lia. cbn [app] in Hx. apply Hn.
    apply elem_of_cons in Hx as [->|Hx]; [left|]. right. rewrite fmap_app in *. apply elem_of_app in Hx as [Hx|Hx]; apply elem_of_app; [left|right; by apply Hys].
    apply list_elem_of_fmap in Hx as (y & -> & Hy). apply list_elem_of_filter in Hy as [_ Hy]. apply list_elem_of_fmap. by exists y.
  - assert (nodes_ok s2 es') as Hno by (eapply nodes_ok_same; [apply (k_nodes _ _ Hl)|congruence|intros y; congruence|intros y; congruence|intros y; congruence]).
    split; [exact Hno| |by rewrite H2, H1; apply Hl|by rewrite m2, m1|rewrite m2, m1; apply Hl].
    assert (forall i, at_lvl (partial (S j)) i es' = at_lvl lvl i pre ++ (if decide (i < S j)%nat then [e] else []) ++ at_lvl lvl i suf) as Hpl.
    { intros i. destruct (partial_parts s j i Hl) as [Ep Es]. assert (forall ws : list entry, (forall x, x ∈ ws -> x.1 <> n) -> at_lvl (partial (S j)) i ws = at_lvl lvl i ws) as Hw.
      { intros ws Hw. apply at_lvl_ext. intros x Hx. unfold partial. by rewrite decide_False by (by apply Hw). }
      rewrite filter_app, filter_cons, !Hw; cbn [fst]; [|intros x Hx E; apply Hn; right; apply list_elem_of_fmap; exists x; (split; [by rewrite E|set_solver])..].
      assert (partial (S j) n = S j) as -> by (unfold partial; by rewrite decide_True). by destruct (decide (i < S j)%nat). }
    intros i Hi. rewrite Hpl, h2, h1. destruct (decide (i = j)) as [->|Hij].
    + rewrite decide_True by lia. apply (linked_insert s s2 j (head_ s) xs e ys); try done.
      * apply NoDup_cons in Hnd as [Ha1 Ha2]. apply NoDup_cons. split; [|].
        { intros (y & E & Hy)%list_elem_of_fmap. apply Ha1. apply list_elem_of_filter in Hy as [_ Hy]. rewrite E. apply list_elem_of_fmap. by exists y. }
        unfold xs. by apply NoDup_fst_at_lvl.
      * cbn [fst]. intros Hin. apply Hn. apply elem_of_cons in Hin as [E|Hin]; [rewrite E; left|right]. rewrite fmap_app in *. cbn [fst] in Hin.
        apply elem_of_app in Hin as [Hin|Hin]; apply elem_of_app; [left|right; by apply Hys].
        destruct (proj1 (elem_of_cons _ _ _) (Hxs n ltac:(by right))) as [E|]; [|done]. exfalso. apply Hn. rewrite E. left.
      * intros y Hy Hin. by apply (Hsuf y (Hys y Hy)), Hxs.
      * intros x. rewrite G2, G1. fold p. destruct (decide (x = p)) as [->|]; [by rewrite decide_True by done|].
        rewrite decide_False by (by intros [? _]). cbn [fst]. destruct (decide (x = n)) as [->|]; [by rewrite decide_True by done|]. by rewrite decide_False by (by intros [? _]).
    + pose proof (k_linked _ _ Hl i Hi) as Hk. rewrite (partial_list s j i Hl) in Hk.
      assert ((if decide (i < S j)%nat then [e] else []) = (if decide (i < j)%nat then [e] else [])) as ->
        by (destruct (decide (i < S j)%nat), (decide (i < j)%nat); done || lia).
      eapply linked_frame; [|exact Hk]. intros x _. rewrite G2, G1. by rewrite !decide_False by (by intros [_ ?]).
Qed.
End Insertion.

Lemma random_height_range fuel h seed : (1 <= h <= MaxHeight)%nat -> (1 <= (random_height MaxHeight Branch fuel h seed).1 <= MaxHeight)%nat.
Proof.
  revert h seed. induction fuel as [|fuel IH]; intros h seed Hh; cbn [random_height]; [done|].
  destruct (Nat.ltb_spec h MaxHeight); [|done]. destruct (_ =? 0); [|done]. apply IH. lia.
Qed.
Lemma fill_head hd (arr : list (option ptr)) a k : (a + k <= length arr)%nat ->
  let arr' := foldl (fun pre i => <[i := Some (Some hd)]> pre) arr (seq a k) in
  length arr' = length arr /\ (forall i, (a <= i < a + k)%nat -> arr' !! i = Some (Some (Some hd))) /\ (forall i, ~ (a <= i < a + k)%nat -> arr' !! i = arr !! i).
Proof.
  revert arr a. induction k as [|k IH]; intros arr a Hl; cbn [seq foldl]; [split_and!; [done|lia|done]|].
  destruct (IH (<[a := Some (Some hd)]> arr) (S a)) as (H1 & H2 & H3); [rewrite length_insert; lia|]. split_and!.
  - by rewrite H1, length_insert.
  - intros i Hi. destruct (decide (i = a)) as [->|]; [|apply H2; lia]. rewrite H3 by lia. apply list_lookup_insert_eq. eapply Nat.lt_le_trans; [|exact Hl]. lia.
  - intros i Hi. rewrite H3 by lia. by rewrite list_lookup_insert_ne by lia.
Qed.
Lemma rep_same (s s' : SL) lvl es : heap_ s' = heap_ s -> head_ s' = head_ s -> (max_height_ s <= max_height_ s' <= MaxHeight)%nat -> rep s lvl es -> rep s' lvl es.
Proof.
  intros Eh Ed Em [[H1 H2 H3 H4] Hl Hv Hm]. assert (forall x i, GetNext s' x i = GetNext s x i) as Hg by (intros; unfold GetNext; by rewrite Eh).
  split; [split|..]; unfold Height in *; rewrite ?Eh, ?Ed; try done.
  - intros i Hi. eapply linked_frame; [|by apply Hl]. intros; apply Hg.
  - intros e He. specialize (Hv e He). lia.
  - lia.
Qed.

(** A new node that is not linked. *)
Lemma new_node_linking (s : SL) lvl es key value height : rep s lvl es -> (1 <= height <= max_height_ s)%nat ->
  let '(n, s1) := NewNode key value height s in
  linking lvl (before (lt_key key) es) (after (lt_key key) es) n key value height s1 0 /\
  head_ s1 = head_ s /\ tail_ s1 = tail_ s /\ max_height_ s1 = max_height_ s /\ rand_ s1 = rand_ s /\ (n ∉ (head_ s :: es.*1)).
Proof.
  intros Hrep Hh. unfold NewNode. set (n := fresh (dom (heap_ s))). assert (n ∉ dom (heap_ s)) as Hf by apply is_fresh.
  set (node := mkNode key value (replicate height None)). set (s1 := with_heap _ s). pose proof Hrep as [[H1 H2 H3 H4] Hl Hv Hm].
  assert (n ∉ (head_ s :: es.*1)) as Hn.
  { intros [E|Hin]%elem_of_cons.
    - unfold Height in H1. rewrite <- E in H1. apply not_elem_of_dom in Hf. by rewrite Hf in H1.
    - apply list_elem_of_fmap in Hin as (x & E & Hx). destruct (H2 x Hx) as [Hk _]. rewrite <- E in Hk. apply not_elem_of_dom in Hf. by rewrite Hf in Hk. }
  assert (forall x, x <> n -> heap_ s1 !! x = heap_ s !! x) as Hne by (intros x Hx; unfold s1; cbn [with_heap heap_]; by rewrite lookup_insert_ne).
  assert (heap_ s1 !! n = Some node) as Hnn by (unfold s1; cbn [with_heap heap_]; by rewrite lookup_insert, decide_True).
  split_and!; try done. set (pre := before (lt_key key) es). set (suf := after (lt_key key) es).
  pose proof (before_after (lt_key key) es : es = pre ++ suf) as Ees.
  assert (forall x, x ∈ es -> x.1 <> n) as Hxn by (intros x Hx E; apply Hn; right; rewrite <- E; apply list_elem_of_fmap; by exists x).
  assert (head_ s <> n) as Hhn by (intros E; apply Hn; rewrite <- E; left).
  split.
  - split.
    + unfold Height in *. cbn [s1 with_heap head_]. by rewrite Hne.
    + intros x Hx. apply elem_of_app in Hx as [Hx|[->|Hx]%elem_of_cons]; [|cbn [fst snd]; by rewrite Hnn|];
        (assert (x ∈ es) as Hx' by (rewrite Ees; set_solver); rewrite !Hne by (by apply Hxn); by apply H2).
    + cbn [s1 with_heap head_]. rewrite fmap_app. cbn [fmap list_fmap fst]. rewrite Ees, fmap_app in H3, Hn. rewrite app_comm_cons in *. apply NoDup_app in H3 as (Ha & Hb & Hc).
      apply NoDup_app. split_and!; [done| |].
      * intros x Hx [->|Hin]%elem_of_cons; [apply Hn; apply elem_of_app; by left|by apply (Hb x)].
      * apply NoDup_cons. split; [|done]. intros Hin. apply Hn. apply elem_of_app. by right.
    + rewrite Ees in H4. apply StronglySorted_app in H4 as (Ha & Hb & Hc). apply StronglySorted_app. split_and!; [|done|].
      * intros x1 x2 Hx1 [->|Hx2]%elem_of_cons; [|by apply Ha]. cbn [fst snd]. apply before_go in Hx1. unfold lt_key in Hx1. apply Z.gtb_lt, cmp_flip in Hx1. lia.
      * constructor; [done|]. apply Forall_forall. intros x Hx. cbn [fst snd]. eapply (after_go (lt_key key) es) in Hx; [|apply lt_downward|by apply (n_sorted _ _ (r_nodes _ _ _ Hrep))].
        unfold lt_key in Hx. rewrite Z.gtb_ltb in Hx. apply Z.ltb_ge in Hx. lia.
  - intros i Hi. assert (at_lvl (partial lvl n 0) i (pre ++ (n, (key, value)) :: suf) = at_lvl lvl i es) as ->.
    { rewrite Ees, !filter_app, filter_cons_False by (cbn [fst]; unfold partial; rewrite decide_True by done; lia).
      f_equal; apply at_lvl_ext; intros x Hx; unfold partial; (rewrite decide_False; [done|apply Hxn; rewrite Ees; set_solver]). }
    eapply linked_frame; [|by apply Hl]. intros x Hx. unfold GetNext. rewrite Hne; [done|]. intros ->. apply Hn. apply elem_of_cons in Hx as [E|Hx]; [rewrite E; left|right].
    apply list_elem_of_fmap in Hx as (y & -> & Hy). apply list_elem_of_filter in Hy as [_ Hy]. apply list_elem_of_fmap. by exists y.
  - unfold Height. rewrite Hnn. cbn. by rewrite length_replicate.
  - cbn [s1 with_heap max_height_]. lia.
  - intros x Hx. cbn [s1 with_heap max_height_]. apply Hv. by rewrite Ees.
Qed.

Lemma link_levels_ok lvl pre suf n key value height arr k : forall s j,
  linking lvl pre suf n key value height s j -> (j + k = height)%nat ->
  (forall i, (i < height)%nat -> at_level arr i = Some (lastl (head_ s) (at_lvl lvl i pre))) ->
  exists s', link_levels arr n (seq j k) s = Some s' /\ linking lvl pre suf n key value height s' height /\ tail_ s' = tail_ s.
Proof.
  induction k as [|k IH]; intros s j Hl Hk Ha; cbn [seq link_levels].
  - exists s. replace height with j by lia. split_and!; [done| |done]. by replace j with height in * by lia.
  - destruct (link_level_ok lvl pre suf n key value height s j arr Hl ltac:(lia) (Ha j ltac:(lia))) as (s1 & s2 & p & next & E1 & E2 & E3 & E4 & _ & L2 & T2 & D2).
    unfold link_level. rewrite E1. cbn [mbind option_bind]. rewrite E2. cbn [mbind option_bind]. rewrite E3. cbn [mbind option_bind]. rewrite E4. cbn [mbind option_bind].
    destruct (IH s2 (S j) L2 ltac:(lia)) as (s' & E & L & T); [intros i Hi; rewrite D2; by apply Ha|]. exists s'. split_and!; [done|done|congruence].
Qed.

Lemma at_lvl_nil (f : loc -> nat) i (xs : list entry) : (forall x, x ∈ xs -> (f x.1 <= i)%nat) -> at_lvl f i xs = [].
Proof.
  intros Hx. induction xs as [|x xs IH]; [done|]. rewrite filter_cons_False by (specialize (Hx x ltac:(left)); lia). apply IH. intros y Hy. apply Hx. by right.
Qed.

Lemma linking_tail lvl pre suf n key value height s j t :
  linking lvl pre suf n key value height s j -> linking lvl pre suf n key value height (with_tail t s) j.
Proof.
  intros [[N1 N2 N3 N4] L2 L3 L4 L5]. split; [by split|..]; [|exact L3|exact L4|exact L5].
  intros i Hi. eapply linked_frame; [|by apply L2]. done.
Qed.

Lemma insert_prepare_ok (s : SL) lvl es key value : rep s lvl es -> tail_ok s es ->
  exists n arr height s1, insert_prepare compare_ MaxHeight Branch key value s = Some (n, arr, height, s1) /\
    linking lvl (before (lt_key key) es) (after (lt_key key) es) n key value height s1 0 /\
    (forall i, (i < height)%nat -> at_level arr i = Some (lastl (head_ s1) (at_lvl lvl i (before (lt_key key) es)))) /\
    tail_ok s1 (before (lt_key key) es ++ (n, (key, value)) :: after (lt_key key) es) /\ (n ∉ (head_ s :: es.*1)).
Proof.
  intros Hrep Ht. pose proof (r_max _ _ _ Hrep) as Hm. unfold insert_prepare, RandomHeight.
  pose proof (random_height_range MaxHeight 1 (rand_ s) ltac:(lia)) as Hh. destruct (random_height MaxHeight Branch MaxHeight 1 (rand_ s)) as [height seed]. cbn [fst] in Hh.
  set (s0 := mkSkipList (heap_ s) (max_height_ s) seed (head_ s) (tail_ s)). assert (rep s0 lvl es) as Hrep0 by (eapply rep_same; [..|exact Hrep]; done || (cbn; lia)).
  destruct (FindLessOrEqual_rep s0 lvl es Hrep0 key (replicate MaxHeight None)) as (arr & -> & Hlen & Hlow & _); [by rewrite length_replicate|]. rewrite length_replicate in Hlen.
  cbn [mbind option_bind]. set (pre := before (lt_key key) es) in *. set (suf := after (lt_key key) es) in *.
  set (X := if (max_height_ s0 <? height)%nat then _ else _).
  assert (exists arr2 s2, X = (arr2, s2) /\ rep s2 lvl es /\ (height <= max_height_ s2)%nat /\ head_ s2 = head_ s /\ tail_ s2 = tail_ s /\
    (forall i, (i < height)%nat -> at_level arr2 i = Some (lastl (head_ s) (at_lvl lvl i pre)))) as (arr2 & s2 & -> & Hrep2 & Hh2 & Hd2 & Ht2 & Harr).
  { unfold X. clear X. cbn [s0 max_height_ head_] in *. destruct (Nat.ltb_spec (max_height_ s) height) as [Hlt|Hge].
    - eexists _, _. split; [done|]. split; [eapply rep_same; [..|exact Hrep0]; done || (cbn; lia)|]. split_and!; [done|done|done|].
      intros i Hi. destruct (fill_head (head_ s) arr (max_height_ s) (height - max_height_ s)) as (_ & F1 & F2); [rewrite Hlen; lia|].
      unfold at_level. destruct (decide (max_height_ s <= i)%nat) as [Hi2|].
      + rewrite F1 by lia. assert (at_lvl lvl i pre = []) as ->; [|done]. apply at_lvl_nil. intros x Hx.
        destruct (r_lvl _ _ _ Hrep x) as [_ Hx2]; [rewrite (before_after (lt_key key) es); fold pre; set_solver|lia].
      + rewrite F2 by lia. by rewrite Hlow by lia.
    - eexists _, _. split; [done|]. split_and!; [done|done|done|done|]. intros i Hi. unfold at_level. by rewrite Hlow by lia. }
  cbn [mbind option_bind]. pose proof (new_node_linking s2 lvl es key value height Hrep2 ltac:(lia)) as Hnew. destruct (NewNode key value height s2) as [n s3].
  destruct Hnew as (Hlk & Hd3 & Ht3 & _ & _ & Hn). fold pre suf in Hlk. rewrite Hd2 in *. pose proof (linking_rep_0 _ _ _ _ _ _ _ s3 Hlk) as Hrep3.
  rewrite (Harr O) by lia. cbn [mbind option_bind].
  assert (at_lvl lvl 0 pre = pre) as E0 by (apply (at_lvl_0 s lvl es Hrep); intros e He; rewrite (before_after (lt_key key) es); fold pre; set_solver). rewrite E0.
  pose proof (next_rep s3 lvl _ Hrep3 pre suf eq_refl) as Hnext. rewrite Hd3 in Hnext. rewrite Hnext. cbn [mbind option_bind].
  eexists n, arr2, height, _. split; [done|]. unfold tail_ok in *. rewrite (before_after (lt_key key) es) in Ht. fold pre suf in Ht.
  destruct suf as [|y suf'] eqn:Es; cbn [head fmap option_fmap option_map].
  - split_and!; [|intros i Hi; cbn [with_tail head_]; rewrite Hd3; by apply Harr|cbn [with_tail tail_]; by rewrite last_snoc|done].
    by apply linking_tail.
  - split_and!; [done|intros i Hi; rewrite Hd3; by apply Harr| |done].
    rewrite Ht3, Ht2, Ht. rewrite last_app_cons, last_app_cons. by rewrite last_cons_cons.
Qed.

(** All levels of the nodes are linked: no insertion is in progress. *)
Definition full (s : SL) (lvl : loc -> nat) (es : list entry) : Prop := forall e, e ∈ es -> Height s e.1 = Some (lvl e.1).

(** The stores do not change the heights of nodes. *)
Lemma SetNext_height (s s' : SL) x i p : SetNext x i p s = Some s' -> forall y, Height s' y = Height s y.
Proof.
  unfold SetNext. destruct (heap_ s !! x) as [n|] eqn:E; [|done]. cbn [mbind option_bind]. destruct (_ <? _)%nat; [|done]. intros [= <-] y. unfold Height. cbn [with_heap heap_].
  destruct (decide (y = x)) as [->|]; [|by rewrite lookup_insert_ne]. rewrite lookup_insert, decide_True by done. rewrite E. cbn. by rewrite length_insert.
Qed.
Lemma link_levels_height arr n ls : forall (s s' : SL), link_levels arr n ls s = Some s' -> forall y, Height s' y = Height s y.
Proof.
  induction ls as [|i ls IH]; intros s s'; cbn [link_levels]; [by intros [= <-]|]. unfold link_level. destruct (at_level arr i) as [p|]; [|done]. cbn [mbind option_bind].
  destruct (GetNext s p i) as [next|]; [|done]. cbn [mbind option_bind]. destruct (SetNext n i next s) as [s1|] eqn:E1; [|done]. cbn [mbind option_bind].
  destruct (SetNext p i (Some n) s1) as [s2|] eqn:E2; [|done]. cbn [mbind option_bind]. intros E y.
  by rewrite (IH _ _ E), (SetNext_height _ _ _ _ _ E2), (SetNext_height _ _ _ _ _ E1).
Qed.
Lemma insert_prepare_height (s s1 : SL) key value n arr height : insert_prepare compare_ MaxHeight Branch key value s = Some (n, arr, height, s1) ->
  forall y, y <> n -> Height s1 y = Height s y.
Proof.
  unfold insert_prepare, RandomHeight. destruct (random_height _ _ _ _ _) as [h seed]. set (s0 := mkSkipList _ _ _ _ _).
  destruct (FindLessOrEqual _ _ _ _ _) as [[target arr0]|]; [|done]. cbn [mbind option_bind]. set (X := if (_ <? _)%nat then _ else _).
  assert (heap_ X.2 = heap_ s) as EX by (unfold X; by destruct (_ <? _)%nat). destruct X as [arr2 s2]. unfold NewNode. cbn [snd] in EX. set (l := fresh _). set (s3 := with_heap _ _).
  destruct (at_level arr2 0) as [p|]; [|done]. cbn [mbind option_bind]. destruct (GetNext s3 p 0) as [next|]; [|done]. cbn [mbind option_bind]. intros E y Hy.
  assert (heap_ s1 = heap_ s3 /\ n = l) as [E1 ->] by (destruct next; by injection E as -> _ _ <-). unfold Height. rewrite E1. unfold s3. cbn [with_heap heap_].
  by rewrite lookup_insert_ne, EX.
Qed.

Lemma insert_ok (s : SL) (lvl : loc -> nat) (es : list entry) (key : K) (value : V) : rep s lvl es -> tail_ok s es ->
  exists height s' n lvl', Insert compare_ MaxHeight Branch key value s = Some (height, s') /\ (n ∉ es.*1) /\
    let es' := before (lt_key key) es ++ (n, (key, value)) :: after (lt_key key) es in
    rep s' lvl' es' /\ tail_ok s' es' /\ (full s lvl es -> full s' lvl' es').
Proof.
  intros Hrep Ht. destruct (insert_prepare_ok s lvl es key value Hrep Ht) as (n & arr & height & s1 & E1 & Hl & Harr & Ht1 & Hn).
  destruct (link_levels_ok lvl _ _ n key value height arr height s1 0 Hl eq_refl Harr) as (s' & E2 & Hl2 & Ht2).
  pose proof (k_range _ _ _ _ _ _ _ _ _ Hl2) as Hr. exists height, s', n, (partial lvl n height). unfold Insert. rewrite E1. cbn [mbind option_bind]. rewrite E2. cbn [mbind option_bind].
  cbv zeta. split_and!; [done|intros Hin; apply Hn; by right|by apply (linking_rep _ _ _ _ _ _ _ _ _ Hl2); lia|unfold tail_ok in *; by rewrite Ht2|].
  intros Hf x Hx. unfold partial. destruct (decide (x.1 = n)) as [E|Hne]; [rewrite E; apply Hl2|].
  rewrite (link_levels_height _ _ _ _ _ E2), (insert_prepare_height _ _ _ _ _ _ _ E1) by done. apply Hf. rewrite (before_after (lt_key key) es).
  apply elem_of_app in Hx as [Hx|[->|Hx]%elem_of_cons]; [set_solver|done|set_solver].
Qed.

(** ** A reader beside a writer *)

(** The writer is between two insertions, or inside the loop that links a
    node: before the first or before the second store of a level. *)
Inductive writer :=
| Idle
| Linking (n : loc) (arr : list (option ptr)) (j height : nat)
| Linked (n : loc) (arr : list (option ptr)) (p : loc) (j height : nat).

(** The list, the writer, the position of an iterator and the nodes it has
    left behind. *)
Record world := World { w_list : SL; w_writer : writer; w_it : ptr; w_seen : list loc }.

(** The stores of an insertion that has begun, and the moves of the iterator. *)
Inductive quiet : world -> world -> Prop :=
| step_store1 s n arr j height p next s1 it seen :
    (j < height)%nat -> at_level arr j = Some p -> GetNext s p j = Some next -> SetNext n j next s = Some s1 ->
    quiet (World s (Linking n arr j height) it seen) (World s1 (Linked n arr p j height) it seen)
| step_store2 s n arr p j height s1 it seen :
    SetNext p j (Some n) s = Some s1 ->
    quiet (World s (Linked n arr p j height) it seen) (World s1 (Linking n arr (S j) height) it seen)
| step_done s n arr height it seen :
    quiet (World s (Linking n arr height height) it seen) (World s Idle it seen)
| step_next s w x it seen :
    it_Next s (Some x) = Some it ->
    quiet (World s w (Some x) seen) (World s w it (seen ++ [x])).
(** A new insertion begins at any time the writer is idle. *)
Inductive step : world -> world -> Prop :=
| step_begin s key value n arr height s1 it seen :
    insert_prepare compare_ MaxHeight Branch key value s = Some (n, arr, height, s1) ->
    step (World s Idle it seen) (World s1 (Linking n arr 0 height) it seen)
| step_quiet w w' : quiet w w' -> step w w'.

Lemma SetNext_same (s : SL) x i p : GetNext s x i = Some p -> SetNext x i p s = Some s.
Proof.
  intros (n & Hn & Hi)%GetNext_node. unfold SetNext. rewrite Hn. cbn [mbind option_bind].
  rewrite (proj2 (Nat.ltb_lt _ _)) by (by eapply lookup_lt_Some). f_equal. rewrite list_insert_id by done.
  destruct s, n. unfold with_heap. cbn in *. by rewrite insert_id.
Qed.

(** The contents while the writer works. *)
Definition writer_ok (s : SL) (w : writer) (lvl : loc -> nat) (es : list entry) : Prop :=
  match w with
  | Idle => rep s lvl es /\ tail_ok s es
  | Linking n arr j height => exists lvl0 pre suf key value,
      linking lvl0 pre suf n key value height s j /\ (j <= height)%nat /\ tail_ok s (pre ++ (n, (key, value)) :: suf) /\
      (forall i, (i < height)%nat -> at_level arr i = Some (lastl (head_ s) (at_lvl lvl0 i pre))) /\
      es = (if decide (j = 0)%nat then pre ++ suf else pre ++ (n, (key, value)) :: suf) /\
      rep s lvl es
  | Linked n arr p j height => exists lvl0 pre suf key value next,
      linking lvl0 pre suf n key value height s j /\ (j < height)%nat /\ tail_ok s (pre ++ (n, (key, value)) :: suf) /\
      (forall i, (i < height)%nat -> at_level arr i = Some (lastl (head_ s) (at_lvl lvl0 i pre))) /\
      at_level arr j = Some p /\ GetNext s p j = Some next /\ GetNext s n j = Some next /\
      es = (if decide (j = 0)%nat then pre ++ suf else pre ++ (n, (key, value)) :: suf) /\
      rep s lvl es
  end.
Lemma writer_rep s w lvl es : writer_ok s w lvl es -> rep s lvl es.
Proof. destruct w; cbn; [by intros [? _]|intros (? & ? & ? & ? & ? & H); apply H|intros (? & ? & ? & ? & ? & ? & H); apply H]. Qed.

(** The iterator is at the first node of [b]; what was in the list when it
    began is behind it or before it. *)
Definition reader_ok (start : list loc) (es : list entry) (it : ptr) (seen : list loc) (left : nat) : Prop :=
  exists a b, es = a ++ b /\ left = length b /\ it = fst <$> head b /\ sublist seen a.*1 /\ (forall x, x ∈ start -> x ∈ seen ++ b.*1).

Lemma reader_insert start pre suf e it seen k : reader_ok start (pre ++ suf) it seen k ->
  exists k', (k' <= S k)%nat /\ reader_ok start (pre ++ e :: suf) it seen k'.
Proof.
  intros (a & b & E & -> & -> & Hs & Hst). destruct (app_eq_inv _ _ _ _ E) as [(k & -> & Ek)|(k & -> & Ek)].
  - (* pre = a ++ k, b = k ++ suf *)
    subst b. destruct k as [|y k].
    + exists (length suf). split; [cbn; lia|]. exists (a ++ [e]), suf. rewrite app_nil_r. cbn [app] in *. split_and!; [by rewrite <- app_assoc|done|done| |done].
      rewrite fmap_app. by apply sublist_inserts_r.
    + exists (length ((y :: k) ++ e :: suf)). split; [rewrite !length_app; cbn; lia|]. exists a, ((y :: k) ++ e :: suf). split_and!; [by rewrite <- app_assoc|done|done|done|].
      intros x Hx. specialize (Hst x Hx). rewrite !fmap_app in *. cbn [fmap list_fmap] in *. set_solver.
  - (* a = pre ++ k, suf = k ++ b *)
    subst suf. exists (length b). split; [lia|]. exists (pre ++ e :: k), b. split_and!; [by rewrite <- app_assoc|done|done| |done].
    rewrite fmap_app in *. cbn [fmap list_fmap]. etransitivity; [exact Hs|]. apply sublist_app; [done|]. by apply sublist_cons.
Qed.
Lemma reader_next start (s : SL) lvl es x it seen k : rep s lvl es -> reader_ok start es (Some x) seen k -> it_Next s (Some x) = Some it ->
  exists k', k = S k' /\ reader_ok start es it (seen ++ [x]) k'.
Proof.
  intros Hrep (a & b & E & -> & Ex & Hs & Hst) Hn. destruct b as [|e b]; [done|]. cbn in Ex. injection Ex as ->.
  pose proof (next_rep s lvl es Hrep (a ++ [e]) b ltac:(by rewrite E, <- app_assoc)) as Hn'. rewrite lastl_snoc in Hn'. cbn in Hn. rewrite Hn' in Hn. injection Hn as <-.
  exists (length b). split; [done|]. exists (a ++ [e]), b. split_and!; [by rewrite E, <- app_assoc|done|done| |].
  - rewrite fmap_app. by apply sublist_app.
  - intros y Hy. specialize (Hst y Hy). cbn [fmap list_fmap] in Hst. rewrite <- app_assoc. exact Hst.
Qed.

(** The stores that are left, counting the node a reader may still meet. *)
Definition writer_left (w : writer) : nat :=
  match w with
  | Idle => 0
  | Linking _ _ j height => 2 * (height - j) + 1 + (if decide (j = 0)%nat then 1 else 0)
  | Linked _ _ _ j height => 2 * (height - j) + (if decide (j = 0)%nat then 1 else 0)
  end.
Definition world_ok (start : list loc) (w : world) (m : nat) : Prop :=
  exists lvl es k, writer_ok (w_list w) (w_writer w) lvl es /\ reader_ok start es (w_it w) (w_seen w) k /\ m = (k + writer_left (w_writer w))%nat.

Lemma begin_ok start s key value n arr height s1 it seen m : world_ok start (World s Idle it seen) m ->
  insert_prepare compare_ MaxHeight Branch key value s = Some (n, arr, height, s1) -> exists m', world_ok start (World s1 (Linking n arr 0 height) it seen) m'.
Proof.
  intros (lvl & es & k & Hw & Hr & ->) E. cbn [w_list w_writer w_it w_seen] in *. destruct Hw as [Hrep Ht].
  destruct (insert_prepare_ok s lvl es key value Hrep Ht) as (n' & arr' & h' & s1' & E' & Hl & Harr & Ht1 & _).
  rewrite E in E'. injection E' as <- <- <- <-. eexists. exists lvl, (before (lt_key key) es ++ after (lt_key key) es), k. split; [|split; [by rewrite <- before_after|done]].
  cbn. exists lvl, (before (lt_key key) es), (after (lt_key key) es), key, value. split_and!; [done|lia|done|done|done|]. by eapply linking_rep_0.
Qed.

Lemma store1_ok s n arr j height p next s1 lvl es : (j < height)%nat -> at_level arr j = Some p -> GetNext s p j = Some next -> SetNext n j next s = Some s1 ->
  writer_ok s (Linking n arr j height) lvl es -> exists lvl', writer_ok s1 (Linked n arr p j height) lvl' es.
Proof.
  intros Hj Ep En Es1 (lvl0 & pre & suf & key & value & Hl & Hjh & Ht & Harr & Ees & Hrep).
  destruct (link_level_ok lvl0 pre suf n key value height s j arr Hl Hj (Harr j Hj)) as (s1' & s2 & p' & next' & E1 & E2 & E3 & _ & L1 & _).
  rewrite Ep in E1. injection E1 as <-. rewrite En in E2. injection E2 as <-. rewrite Es1 in E3. injection E3 as <-.
  assert (p <> n) as Hpn.
  { destruct (linking_nodup _ _ _ _ _ _ _ _ _ Hl) as (_ & Hn & _). intros ->. apply Hn. rewrite Harr in Ep by done. injection Ep as Ep. rewrite <- Ep.
    pose proof (lastl_elem (head_ s) (at_lvl lvl0 j pre)) as Hin. apply elem_of_cons in Hin as [->|Hin]; [left|right].
    apply list_elem_of_fmap in Hin as (y & -> & Hy). apply list_elem_of_filter in Hy as [_ Hy]. rewrite fmap_app. apply elem_of_app. left. apply list_elem_of_fmap. by exists y. }
  destruct (Height_GetNext s n height j (k_height _ _ _ _ _ _ _ _ _ Hl) Hj) as [q Hq].
  destruct (SetNext_ok s n j q next Hq) as (s1' & E1 & G1 & _ & _ & _ & _ & D1 & T1 & _). rewrite Es1 in E1. injection E1 as <-.
  exists (if decide (j = 0)%nat then lvl0 else partial lvl0 n j). cbn. exists lvl0, pre, suf, key, value, next.
  unfold tail_ok in *. rewrite T1, D1. split_and!; [done|done|done|done|done|by rewrite G1, decide_False by (by intros [? _])|by rewrite G1, decide_True by done|done|].
  destruct (decide (j = 0)%nat) as [->|]; subst es; [by eapply linking_rep_0|by apply (linking_rep _ _ _ _ _ _ _ _ _ L1); lia].
Qed.
Lemma store2_ok s n arr p j height s1 lvl es : SetNext p j (Some n) s = Some s1 -> writer_ok s (Linked n arr p j height) lvl es ->
  exists lvl' pre suf e, writer_ok s1 (Linking n arr (S j) height) lvl' (pre ++ e :: suf) /\ (j < height)%nat /\
    es = if decide (j = 0)%nat then pre ++ suf else pre ++ e :: suf.
Proof.
  intros Es (lvl0 & pre & suf & key & value & next & Hl & Hjh & Ht & Harr & Ep & En1 & En2 & Ees & Hrep).
  destruct (link_level_ok lvl0 pre suf n key value height s j arr Hl Hjh (Harr j Hjh)) as (s1' & s2 & p' & next' & E1 & E2 & E3 & E4 & _ & L2 & T2 & D2).
  rewrite Ep in E1. injection E1 as <-. rewrite En1 in E2. injection E2 as <-. rewrite (SetNext_same _ _ _ _ En2) in E3. injection E3 as <-. rewrite Es in E4. injection E4 as <-.
  exists (partial lvl0 n (S j)), pre, suf, (n, (key, value)). split_and!; [|done|done].
  cbn. exists lvl0, pre, suf, key, value. unfold tail_ok in *. rewrite T2, D2. split_and!; [done|lia|done|done|done|]. by apply (linking_rep _ _ _ _ _ _ _ _ _ L2); lia.
Qed.

(** Every step that is not the begin of an insertion comes closer to the end. *)
Lemma quiet_ok start w w' m : world_ok start w m -> quiet w w' -> exists m', (m' < m)%nat /\ world_ok start w' m'.
Proof.
  intros (lvl & es & k & Hw & Hr & ->) Hq. destruct Hq as [s n arr j height p next s1 it seen Hj Ep En Es1|s n arr p j height s1 it seen Es|s n arr height it seen|s w x it seen En];
    cbn [w_list w_writer w_it w_seen] in *.
  - destruct (store1_ok _ _ _ _ _ _ _ _ _ _ Hj Ep En Es1 Hw) as [lvl' Hw']. eexists. split; [|exists lvl', es, k; cbn [w_list w_writer w_it w_seen]; done].
    unfold writer_left. lia.
  - destruct (store2_ok _ _ _ _ _ _ _ _ _ Es Hw) as (lvl' & pre & suf & e & Hw' & Hj & Ees). destruct (decide (j = 0)%nat) as [->|]; subst es.
    + destruct (reader_insert start pre suf e it seen k Hr) as (k' & Hk & Hr'). eexists. split; [|exists lvl', (pre ++ e :: suf), k'; cbn [w_list w_writer w_it w_seen]; done].
      unfold writer_left. rewrite decide_False, decide_True by lia. lia.
    + eexists. split; [|exists lvl', (pre ++ e :: suf), k; cbn [w_list w_writer w_it w_seen]; done]. unfold writer_left. rewrite !decide_False by lia. lia.
  - destruct Hw as (lvl0 & pre & suf & key & value & Hl & _ & Ht & _ & Ees & Hrep). pose proof (k_range _ _ _ _ _ _ _ _ _ Hl) as Hrg. rewrite decide_False in Ees by lia.
    eexists. split; [|exists lvl, es, k; cbn [w_list w_writer w_it w_seen]; split; [by cbn; rewrite Ees in *|done]]. unfold writer_left. lia.
  - destruct (reader_next start s lvl es x it seen k ltac:(by eapply writer_rep) Hr En) as (k' & -> & Hr'). eexists. split; [|exists lvl, es, k'; cbn [w_list w_writer w_it w_seen]; done]. lia.
Qed.
Lemma reachable_ok start w w' m : world_ok start w m -> rtc step w w' -> exists m', world_ok start w' m'.
Proof.
  intros Hw Hr. revert m Hw. induction Hr as [|w1 w2 w3 Hs _ IH]; intros m Hw; [by exists m|].
  destruct Hs as [s key value n arr height s1 it seen E|w1 w2 Hq].
  - destruct (begin_ok _ _ _ _ _ _ _ _ _ _ _ Hw E) as [m' Hm']. by eapply IH.
  - destruct (quiet_ok _ _ _ _ Hw Hq) as (m' & _ & Hm'). by eapply IH.
Qed.

(** The state in which an iterator was moved to the first entry. *)
Definition scan_of (s : SL) (es : list entry) : world := World s Idle (fst <$> head es) [].
Lemma scan_ok s lvl es : rep s lvl es -> tail_ok s es -> it_SeekToFirst s = Some (w_it (scan_of s es)) /\ world_ok es.*1 (scan_of s es) (length es).
Proof.
  intros Hrep Ht. split; [by eapply first_rep|]. exists lvl, es, (length es). split; [done|]. split; [|cbn; lia].
  exists [], es. split_and!; [done|done|done|constructor|done].
Qed.

Lemma sublist_sorted {A} (R : A -> A -> Prop) l k : sublist l k -> StronglySorted R k -> StronglySorted R l.
Proof.
  intros Hs. induction Hs as [|x l k Hs IH|x l k Hs IH]; intros Hk; [constructor|..]; inversion Hk as [|? ? Hk1 Hk2]; subst; [|by apply IH].
  constructor; [by apply IH|]. apply Forall_forall. intros y Hy. rewrite Forall_forall in Hk2. apply Hk2. eapply elem_of_submseteq; [exact Hy|by apply sublist_submseteq].
Qed.

(** C23: an iterator that begins to scan the list between two insertions (not
    between the stores of one) and goes on while other entries are being inserted:
    whatever the interleaving of its moves with the single stores of the
    insertions, when it reaches the end it has met every entry that was in the
    list when it began, and the entries it has met are in the order of their
    keys. *)
Theorem concurrent_scan (s : SL) (lvl : loc -> nat) (es : list entry) (w : world) : rep s lvl es -> tail_ok s es ->
  rtc step (scan_of s es) w -> w_it w = None ->
  (forall e, e ∈ es -> e.1 ∈ w_seen w) /\
  StronglySorted (fun x y => exists kx ky, GetKey (w_list w) x = Some kx /\ GetKey (w_list w) y = Some ky /\ compare_ kx ky <= 0) (w_seen w).
Proof.
  intros Hrep Ht Hr Hit. destruct (scan_ok s lvl es Hrep Ht) as [_ Hok]. destruct (reachable_ok _ _ _ _ Hok Hr) as (m & lvl' & es' & k & Hw & (a & b & E & _ & Hb & Hsub & Hst) & _).
  rewrite Hit in Hb. destruct b as [|e b]; [|done]. rewrite app_nil_r in *. subst a. split.
  - intros e He. specialize (Hst e.1 ltac:(apply list_elem_of_fmap; by exists e)). cbn in Hst. by rewrite ?app_nil_r in Hst.
  - apply writer_rep in Hw. eapply sublist_sorted; [exact Hsub|]. pose proof (n_sorted _ _ (r_nodes _ _ _ Hw)) as Hso.
    assert (forall x, x ∈ es' -> GetKey (w_list w) x.1 = Some (keyof x)) as Hk by (intros x Hx; by eapply rep_key).
    clear -Hso Hk. induction Hso as [|x es' Hso IH Hx]; cbn [fmap list_fmap]; constructor; [apply IH; intros y Hy; apply Hk; by right|].
    apply Forall_fmap, Forall_forall. intros y Hy. rewrite Forall_forall in Hx. exists (keyof x), (keyof y). split_and!; [apply Hk; left|apply Hk; by right|by apply Hx].
Qed.

(** C35: no step of a scan beside insertions can block: from every reachable
    state, as long as no further insertion begins, only finitely many steps can
    be made, and there is always one until the iterator is at the end and the
    insertion in progress is complete. *)
Theorem scan_completes (s : SL) (lvl : loc -> nat) (es : list entry) (w : world) : rep s lvl es -> tail_ok s es -> rtc step (scan_of s es) w ->
  exists bound, (forall k w', nsteps quiet k w w' -> (k <= bound)%nat) /\
    (forall w', rtc quiet w w' -> (w_it w' = None /\ w_writer w' = Idle) \/ exists w'', quiet w' w'').
Proof.
  intros Hrep Ht Hr. destruct (scan_ok s lvl es Hrep Ht) as [_ Hok]. destruct (reachable_ok _ _ _ _ Hok Hr) as (m & Hm). clear Hr Hok. exists m. split.
  - intros k w' Hn. revert m Hm. induction Hn as [|k w1 w2 w3 Hq _ IH]; intros m Hm; [lia|]. destruct (quiet_ok _ _ _ _ Hm Hq) as (m' & Hlt & Hm'). specialize (IH m' Hm'). lia.
  - intros w' Hq. assert (exists m', world_ok es.*1 w' m') as (m' & lvl' & es' & k & Hw & Hrd & _).
    { revert m Hm. induction Hq as [|w1 w2 w3 Hq _ IH]; intros m Hm; [by exists m|]. destruct (quiet_ok _ _ _ _ Hm Hq) as (m' & _ & Hm').
      by apply (IH m'). }
    destruct w' as [s' w' it seen]. cbn [w_list w_writer w_it w_seen] in *. destruct it as [x|].
    + right. destruct Hrd as (a & b & E & _ & Hx & _). destruct b as [|e b]; [done|]. cbn in Hx. injection Hx as ->.
      pose proof (next_rep s' lvl' es' (writer_rep _ _ _ _ Hw) (a ++ [e]) b ltac:(by rewrite E, <- app_assoc)) as Hn. rewrite lastl_snoc in Hn.
      eexists. by apply step_next.
    + destruct w' as [|n arr j height|n arr p j height]; [by left|right..].
      * destruct Hw as (lvl0 & pre & suf & key & value & Hl & Hjh & _ & Harr & _). destruct (decide (j = height)) as [->|Hne]; [eexists; by apply step_done|].
        destruct (link_level_ok lvl0 pre suf n key value height s' j arr Hl ltac:(lia) (Harr j ltac:(lia))) as (s1 & s2 & p & next & E1 & E2 & E3 & _). eexists. eapply step_store1; [lia|done..].
      * destruct Hw as (lvl0 & pre & suf & key & value & next & Hl & Hjh & _ & Harr & Ep & En1 & En2 & _).
        destruct (SetNext_ok s' p j next (Some n) En1) as (s1 & E1 & _). eexists. by eapply step_store2.
Qed.

(** ** Removal and splitting *)

Lemma linked_remove s s' i a xs e ys : NoDup (a :: (xs ++ e :: ys).*1) ->
  (forall x, x <> e.1 -> GetNext s' x i = if decide (x = lastl a xs) then Some (fst <$> head ys) else GetNext s x i) ->
  linked s i a (xs ++ e :: ys) -> linked s' i a (xs ++ ys).
Proof.
  revert a. induction xs as [|x xs IH]; intros a Hnd Hs; cbn [app linked].
  - intros [_ Hl]. cbn [app fmap list_fmap] in Hnd. apply NoDup_cons in Hnd as [Ha Hnd]. apply NoDup_cons in Hnd as [He Hnd].
    assert (GetNext s' a i = Some (fst <$> head ys)) as Ea. { rewrite Hs by (intros ->; apply Ha; left). by rewrite decide_True. }
    destruct ys as [|y ys]; cbn [linked] in *; [done|]. split; [done|]. destruct Hl as [_ Hl]. eapply linked_frame; [|exact Hl].
    intros z Hz. rewrite Hs by (intros ->; by apply He). rewrite decide_False; [done|]. intros ->. apply Ha. by right.
  - intros [Hax Hl]. rewrite <- app_comm_cons, fmap_cons in Hnd. apply NoDup_cons in Hnd as [Ha Hnd]. rewrite lastl_cons in Hs. split; [|by apply IH].
    rewrite fmap_app in Ha. rewrite Hs, decide_False; [done| |].
    + intros ->. apply Ha. pose proof (lastl_elem x.1 xs) as Hin. apply elem_of_cons in Hin as [->|Hin]; [left|right]. apply elem_of_app. by left.
    + intros ->. apply Ha. right. apply elem_of_app. right. left.
Qed.
Lemma linked_cut s s' i a xs ys : NoDup (a :: xs.*1) -> (forall x, GetNext s' x i = if decide (x = lastl a xs) then Some None else GetNext s x i) ->
  linked s i a (xs ++ ys) -> linked s' i a xs.
Proof.
  revert a. induction xs as [|x xs IH]; intros a Hnd Hs; cbn [app linked].
  - intros _. by rewrite Hs, decide_True.
  - intros [Hax Hl]. cbn [fmap list_fmap] in Hnd. apply NoDup_cons in Hnd as [Ha Hnd]. rewrite lastl_cons in Hs. split; [|by apply IH].
    rewrite Hs, decide_False; [done|]. intros ->. apply Ha. apply lastl_elem.
Qed.

Lemma nodup_at_lvl (s : SL) (f : loc -> nat) i es : NoDup (head_ s :: es.*1) -> NoDup (head_ s :: (at_lvl f i es).*1).
Proof.
  intros [Hh Hnd]%NoDup_cons. apply NoDup_cons. split; [|by apply NoDup_fst_at_lvl]. intros (y & E & Hy)%list_elem_of_fmap. apply Hh. rewrite E.
  apply list_elem_of_fmap. exists y. split; [done|]. by apply list_elem_of_filter in Hy as [_ ?].
Qed.

Section Removal.
Context (lvl : loc -> nat) (pre suf : list entry) (r : entry) (arr : list (option ptr)).
Notation es := (pre ++ r :: suf).

(** The node is taken out of its first [j] levels. *)
Record unlinking (s0 s : SL) (j : nat) : Prop := {
  u_same : head_ s = head_ s0 /\ tail_ s = tail_ s0 /\ max_height_ s = max_height_ s0 /\ (forall y, Height s y = Height s0 y) /\
    (forall y, key_ <$> heap_ s !! y = key_ <$> heap_ s0 !! y) /\ (forall y, value_ <$> heap_ s !! y = value_ <$> heap_ s0 !! y);
  u_low : forall i, (i < MaxHeight)%nat -> (i < j)%nat -> linked s i (head_ s0) (at_lvl lvl i (pre ++ suf));
  u_high : forall i, (i < MaxHeight)%nat -> (j <= i)%nat -> linked s i (head_ s0) (at_lvl lvl i es)
}.

Lemma unlink_step s0 s j : rep s0 lvl es -> unlinking s0 s j -> (j < lvl r.1)%nat -> Height s0 r.1 = Some (lvl r.1) -> at_level arr j = Some (lastl (head_ s0) (at_lvl lvl j pre)) ->
  exists p next s1 s2, at_level arr j = Some p /\ GetNext s r.1 j = Some next /\ SetNext p j next s = Some s1 /\ SetNext r.1 j None s1 = Some s2 /\ unlinking s0 s2 (S j).
Proof.
  intros Hrep [(U1 & U2 & U3 & U4 & U5 & U6) Hlow Hhigh] Hj Hh Ha. pose proof (r_max _ _ _ Hrep) as Hm.
  destruct (r_lvl _ _ _ Hrep r ltac:(set_solver)) as [_ Hlr]. set (xs := at_lvl lvl j pre) in *. set (ys := at_lvl lvl j suf).
  assert (at_lvl lvl j es = xs ++ r :: ys) as Ees by (rewrite filter_app, filter_cons_True by done; done).
  pose proof (Hhigh j ltac:(lia) ltac:(lia)) as Hl. rewrite Ees in Hl.
  assert (NoDup (head_ s0 :: (xs ++ r :: ys).*1)) as Hnd by (rewrite <- Ees; apply nodup_at_lvl, (n_nodup _ _ (r_nodes _ _ _ Hrep))).
  pose proof (linked_app _ _ _ _ _ Hl) as Hl1. cbn [linked] in Hl1. destruct Hl1 as [Hp Hl2]. pose proof (linked_next _ _ _ _ Hl2) as Hrn.
  set (p := lastl (head_ s0) xs) in *.
  assert (p <> r.1) as Hpr.
  { intros E. assert (r.1 ∈ head_ s0 :: xs.*1) as Hin by (rewrite <- E; apply lastl_elem). rewrite fmap_app in Hnd. cbn [fmap list_fmap] in Hnd. rewrite app_comm_cons in Hnd.
    apply NoDup_app in Hnd as (_ & Hd & _). apply (Hd r.1 Hin). left. }
  destruct (SetNext_ok s p j (Some r.1) (fst <$> head ys) Hp) as (s1 & E1 & G1 & K1 & V1 & H1 & _ & h1 & t1 & m1).
  destruct (SetNext_ok s1 r.1 j (fst <$> head ys) None) as (s2 & E2 & G2 & K2 & V2 & H2 & _ & h2 & t2 & m2).
  { rewrite G1, decide_False by (by intros [? _]). exact Hrn. }
  exists p, (fst <$> head ys), s1, s2. split_and!; [done|done|done|done|]. split.
  - split_and!; [congruence|congruence|congruence|intros y; congruence|intros y; congruence|intros y; congruence].
  - intros i Hi Hij. destruct (decide (i = j)) as [->|].
    + rewrite filter_app. fold xs ys. apply (linked_remove s s2 j (head_ s0) xs r ys); [done| |done].
      intros x Hx. rewrite G2, decide_False by (by intros [? _]). rewrite G1. fold p. destruct (decide (x = p)) as [->|]; [by rewrite decide_True|by rewrite decide_False by (by intros [? _])].
    + eapply linked_frame; [|apply Hlow; lia]. intros x _. rewrite G2, G1. by rewrite !decide_False by (by intros [_ ?]).
  - intros i Hi Hij. eapply linked_frame; [|apply Hhigh; lia]. intros x _. rewrite G2, G1. by rewrite !decide_False by (intros [_ ?]; lia).
Qed.

Lemma unlink_levels_ok s0 k : rep s0 lvl es -> Height s0 r.1 = Some (lvl r.1) -> (forall i, (i < lvl r.1)%nat -> at_level arr i = Some (lastl (head_ s0) (at_lvl lvl i pre))) ->
  forall s j, unlinking s0 s j -> (j + k = lvl r.1)%nat -> exists s', unlink_levels arr r.1 (seq j k) s = Some s' /\ unlinking s0 s' (lvl r.1).
Proof.
  intros Hrep Hh Harr. induction k as [|k IH]; intros s j Hu Hk; cbn [seq unlink_levels].
  - exists s. split; [done|]. by replace (lvl r.1) with j by lia.
  - destruct (unlink_step s0 s j Hrep Hu ltac:(lia) Hh (Harr j ltac:(lia))) as (p & next & s1 & s2 & E1 & E2 & E3 & E4 & Hu2).
    rewrite E1. cbn [mbind option_bind]. rewrite E2. cbn [mbind option_bind]. rewrite E3. cbn [mbind option_bind]. rewrite E4. cbn [mbind option_bind]. apply (IH s2 (S j) Hu2). lia.
Qed.

Lemma unlinking_rep s0 s : rep s0 lvl es -> unlinking s0 s (lvl r.1) -> rep s lvl (pre ++ suf).
Proof.
  intros Hrep [(U1 & U2 & U3 & U4 & U5 & U6) Hlow Hhigh]. pose proof Hrep as [[N1 N2 N3 N4] _ Hv Hm].
  split; [split; [by rewrite U1, U4| | |]| | |by rewrite U3].
  - intros x Hx. rewrite U5, U6. apply N2. set_solver.
  - rewrite U1. rewrite fmap_app in *. cbn [fmap list_fmap] in N3. rewrite app_comm_cons in *. apply NoDup_app in N3 as (Ha & Hb & Hc). apply NoDup_cons in Hc as [_ Hc].
    apply NoDup_app. split_and!; [done| |done]. intros x Hx Hin. apply (Hb x Hx). by right.
  - apply StronglySorted_app in N4 as (Ha & Hb & Hc). apply StronglySorted_app. split_and!; [|done|by inversion Hc]. intros x1 x2 Hx1 Hx2. apply Ha; [done|by right].
  - intros i Hi. rewrite U1. destruct (decide (i < lvl r.1)%nat) as [|Hge]; [by apply Hlow|]. specialize (Hhigh i Hi ltac:(lia)).
    rewrite filter_app, filter_cons_False in Hhigh by lia. by rewrite filter_app.
  - intros x Hx. rewrite U3. apply Hv. set_solver.
Qed.
End Removal.

(** Removal of a key: the first entry with the key is taken out of all its
    levels and returned, the rest of the list is unchanged and the tail follows;
    when no entry has the key, nothing changes. *)
Theorem skiplist_remove (s : SL) (lvl : loc -> nat) (es : list entry) (key : K) : rep s lvl es -> full s lvl es -> tail_ok s es ->
  match after (lt_key key) es with
  | r :: suf =>
      if compare_ (keyof r) key =? 0
      then exists s', Remove compare_ MaxHeight key s = Some (Some r.1, s') /\ let es' := before (lt_key key) es ++ suf in rep s' lvl es' /\ full s' lvl es' /\ tail_ok s' es'
      else Remove compare_ MaxHeight key s = Some (None, s)
  | [] => Remove compare_ MaxHeight key s = Some (None, s)
  end.
Proof.
  intros Hrep Hf Ht. pose proof (r_max _ _ _ Hrep) as Hm. unfold Remove.
  destruct (FindLessOrEqual_rep s lvl es Hrep key (replicate MaxHeight (Some (Some (head_ s))))) as (arr & -> & _ & Hlow & Hhigh); [by rewrite length_replicate|].
  cbn [mbind option_bind]. set (pre := before (lt_key key) es) in *. pose proof (before_after (lt_key key) es) as Ees. fold pre in Ees.
  rewrite (next_rep s lvl es Hrep pre _ Ees). cbn [mbind option_bind]. destruct (after (lt_key key) es) as [|r suf]; [done|]. cbn [head fmap option_fmap option_map].
  assert (r ∈ es) as Hr by (rewrite Ees; set_solver). rewrite (rep_key s lvl es Hrep r Hr). cbn [mbind option_bind].
  destruct (compare_ (keyof r) key =? 0); cbn [negb]; [|done]. rewrite (Hf r Hr). cbn [mbind option_bind]. rewrite Ees in Hrep, Hf, Ht.
  destruct (unlink_levels_ok lvl pre suf r arr s (lvl r.1) Hrep (Hf r ltac:(set_solver))) with (s := s) (j := O) as (s1 & -> & Hu); [|split; [done|lia|intros i Hi _; by apply (r_linked _ _ _ Hrep)]|done|].
  { intros i Hi. destruct (r_lvl _ _ _ Hrep r ltac:(set_solver)) as [_ Hlr]. unfold at_level. by rewrite Hlow by lia. }
  cbn [mbind option_bind]. pose proof (unlinking_rep lvl pre suf r s s1 Hrep Hu) as Hrep1. destruct (u_same _ _ _ _ _ _ _ Hu) as (U1 & U2 & U3 & U4 & _).
  assert (full s1 lvl (pre ++ suf)) as Hf1 by (intros x Hx; rewrite U4; apply Hf; set_solver).
  unfold tail_ok in Ht. rewrite U2, Ht, last_app_cons. rewrite last_cons. destruct (last suf) as [z|] eqn:Ez.
  - rewrite bool_decide_false; [eexists; split; [done|]; cbv zeta; split_and!; [done|done|]|].
    + unfold tail_ok. rewrite U2, Ht, last_app_cons, last_cons, Ez. destruct suf as [|y suf _] using rev_ind; [done|]. rewrite app_assoc, last_snoc. rewrite last_snoc in Ez. injection Ez as ->. done.
    + intros [= E]. pose proof (n_nodup _ _ (r_nodes _ _ _ Hrep)) as Hnd. rewrite fmap_app in Hnd. cbn [fmap list_fmap] in Hnd. rewrite app_comm_cons in Hnd.
      apply NoDup_app in Hnd as (_ & _ & Hnd). apply NoDup_cons in Hnd as [Hnd _]. apply Hnd. rewrite <- E. apply list_elem_of_fmap. exists z. split; [done|]. by apply last_Some_elem_of.
  - rewrite bool_decide_true by done. assert (suf = []) as -> by (by apply last_None). rewrite app_nil_r in *.
    assert (at_level arr 0 = Some (lastl (head_ s) pre)) as ->.
    { unfold at_level. rewrite Hlow by lia. by rewrite (at_lvl_0 s lvl _ Hrep) by (intros x Hx; set_solver). }
    cbn [mbind option_bind]. eexists. split; [done|]. cbv zeta. split_and!; [eapply rep_same; [..|exact Hrep1]; done || (cbn; lia)|done|].
    unfold tail_ok. cbn [with_tail tail_]. rewrite U1. destruct pre as [|x pre _] using rev_ind; [by rewrite bool_decide_true|]. rewrite lastl_snoc, last_snoc. cbn.
    rewrite bool_decide_false; [done|]. intros E. pose proof (n_nodup _ _ (r_nodes _ _ _ Hrep1)) as Hnd. apply NoDup_cons in Hnd as [Hnd _]. apply Hnd.
    rewrite U1, <- E. apply list_elem_of_fmap. exists x. split; [done|set_solver].
Qed.

(** C22: insertion into a skip list: it never fails, whatever height the
    generator chooses; the list is then the old one with the new entry before
    the first entry whose key is not less, all levels are linked again
    (all of every node if they were before), and the tail points to the last
    node. *)
Theorem skiplist_insert (s : SL) (lvl : loc -> nat) (es : list entry) (key : K) (value : V) : rep s lvl es -> tail_ok s es ->
  exists height s' n lvl', Insert compare_ MaxHeight Branch key value s = Some (height, s') /\ (n ∉ es.*1) /\
    let es' := before (lt_key key) es ++ (n, (key, value)) :: after (lt_key key) es in
    rep s' lvl' es' /\ tail_ok s' es' /\ (full s lvl es -> full s' lvl' es').
Proof. apply insert_ok. Qed.

(** C24: readers see the list, also while an insertion links its levels: seeking
    a key finds the first entry whose key is not less, moving on leads from an
    entry to the next one and the entries are counted; no pointer is followed
    that is not a node of the list, and every search ends. *)
Theorem skiplist_reads (s : SL) (lvl : loc -> nat) (es : list entry) : rep s lvl es ->
  (forall key, it_Seek compare_ MaxHeight s key = Some (fst <$> head (after (lt_key key) es))) /\
  it_SeekToFirst s = Some (fst <$> head es) /\
  (forall a e b, es = a ++ e :: b ->
     it_Next s (Some e.1) = Some (fst <$> head b) /\ it_GetKey s (Some e.1) = Some (keyof e) /\ it_GetValue s (Some e.1) = Some e.2.2) /\
  (Z.of_nat (length es) < 2 ^ 32 -> GetSize MaxHeight s = Some (Z.of_nat (length es))).
Proof.
  intros Hrep. split_and!; [intros key; by eapply seek_rep|by eapply first_rep| |by eapply size_rep].
  intros a e b E. assert (e ∈ es) as He by (rewrite E; set_solver). destruct (n_entries _ _ (r_nodes _ _ _ Hrep) e He) as [Hk Hv].
  pose proof (next_rep s lvl es Hrep (a ++ [e]) b ltac:(by rewrite E, <- app_assoc)) as Hn. rewrite lastl_snoc in Hn. cbn. unfold GetKey, GetValue. by split_and!.
Qed.

(** ** Insertion keeps the nodes *)

Definition keeps (s s' : SL) : Prop :=
  head_ s' = head_ s /\ forall l n, heap_ s !! l = Some n -> exists n', heap_ s' !! l = Some n' /\ key_ n' = key_ n /\ value_ n' = value_ n.
Lemma keeps_heap (s s' : SL) : head_ s' = head_ s -> heap_ s' = heap_ s -> keeps s s'.
Proof. intros E1 E2. split; [done|]. intros l n Hn. rewrite E2. by exists n. Qed.
Lemma keeps_trans (s1 s2 s3 : SL) : keeps s1 s2 -> keeps s2 s3 -> keeps s1 s3.
Proof.
  intros [E1 K1] [E2 K2]. split; [congruence|]. intros l n Hn. destruct (K1 l n Hn) as (n1 & H1 & ? & ?), (K2 l n1 H1) as (n2 & H2 & ? & ?).
  exists n2. split_and!; [done|congruence..].
Qed.
Lemma SetNext_keeps (s s' : SL) x i p : SetNext x i p s = Some s' -> keeps s s'.
Proof.
  unfold SetNext. destruct (heap_ s !! x) as [m|] eqn:Em; [|done]. cbn [mbind option_bind]. destruct (_ <? _)%nat; [|done]. intros [= <-]. split; [done|].
  intros l n Hn. cbn [with_heap heap_]. destruct (decide (l = x)) as [->|Hl]; [|rewrite lookup_insert_ne by done; by exists n].
  rewrite lookup_insert, decide_True by done. eexists. split; [done|]. rewrite Em in Hn. by injection Hn as ->.
Qed.
Lemma link_levels_keeps pre node levels (s s' : SL) : link_levels pre node levels s = Some s' -> keeps s s'.
Proof.
  revert s. induction levels as [|i levels IH]; intros s; cbn [link_levels]; [intros [= <-]; by apply keeps_heap|].
  unfold link_level. destruct (at_level pre i) as [p|]; [|done]. cbn [mbind option_bind]. destruct (GetNext s p i) as [q|]; [|done]. cbn [mbind option_bind].
  destruct (SetNext node i q s) as [s1|] eqn:E1; [|done]. cbn [mbind option_bind]. destruct (SetNext p i (Some node) s1) as [s2|] eqn:E2; [|done]. cbn [mbind option_bind]. intros E3.
  eapply keeps_trans; [by eapply SetNext_keeps|]. eapply keeps_trans; [by eapply SetNext_keeps|]. by apply IH.
Qed.
Lemma Insert_keeps key value (s s' : SL) h : Insert compare_ MaxHeight Branch key value s = Some (h, s') -> keeps s s'.
Proof.
  unfold Insert, insert_prepare, RandomHeight. destruct (random_height _ _ _ _ _) as [h0 seed]. destruct (FindLessOrEqual _ _ _ _ _) as [[x pre]|]; [|done]. cbn [mbind option_bind].
  set (s0 := mkSkipList (heap_ s) (max_height_ s) seed (head_ s) (tail_ s)).
  assert (forall s1 : SL, keeps s s1 -> keeps s (NewNode key value h0 s1).2) as Hn.
  { intros s1 [E1 K1]. split; [done|]. intros l n Hl. destruct (K1 l n Hl) as (n1 & H1 & ? & ?). exists n1. split; [|done]. cbn. rewrite lookup_insert_ne; [done|].
    intros <-. apply (is_fresh (dom (heap_ s1))). apply elem_of_dom. by exists n1. }
  assert (keeps s s0) as H0 by (by apply keeps_heap). assert (keeps s (with_height h0 s0)) as H0' by (by apply keeps_heap).
  destruct (max_height_ s0 <? h0)%nat.
  all: match goal with |- context [NewNode ?k ?v ?hh ?s1] => specialize (Hn s1 ltac:(done)); destruct (NewNode k v hh s1) as [node s2] end; cbn [snd] in Hn.
  all: destruct (at_level _ 0) as [p|]; [|done]; cbn [mbind option_bind]; destruct (GetNext s2 p 0) as [[q|]|]; [..|done]; cbn [mbind option_bind];
    match goal with |- context [link_levels ?a ?b ?c ?d] => destruct (link_levels a b c d) as [s3|] eqn:E3; [|done] end; cbn [mbind option_bind]; intros [= _ <-];
    (eapply keeps_trans; [exact Hn|]); apply link_levels_keeps in E3; try done; (eapply keeps_trans; [by apply keeps_heap|exact E3]).
Qed.
End Proof.

(** ** Integer keys *)

Module SampleSkipList.
Definition cmp (a b : Z) : Z := a - b.
#[local] Instance cmp_laws : ComparatorLaws cmp.
Proof. unfold cmp. split; intros; lia. Qed.
Definition empty : SkipList := SkipList_new 0 0 4.
Fixpoint insert_all (ks : list Z) (s : SkipList) : option SkipList :=
  match ks with [] => Some s | k :: ks' => '(_, s') ← Insert cmp 4 2 k (10 * k) s; insert_all ks' s' end.

Lemma empty_rep : rep cmp 4 empty (fun _ => O) [] /\ tail_ok empty [].
Proof. apply (rep_new 0 0 cmp 4). lia. Qed.
(** A list with one entry. *)
Lemma one_rep : exists s n lvl, Insert cmp 4 2 5 50 empty = Some (2%nat, s) /\ rep cmp 4 s lvl [(n, (5, 50))] /\ tail_ok s [(n, (5, 50))] /\ full s lvl [(n, (5, 50))].
Proof.
  destruct empty_rep as [Hr Ht]. destruct (insert_ok cmp 4 2 empty _ [] 5 50 Hr Ht) as (h & s & n & lvl & E & _ & Hr' & Ht' & Hf).
  assert (h = 2%nat) as ->. { apply (f_equal (fmap fst)) in E. vm_compute in E. congruence. }
  exists s, n, lvl. split_and!; [exact E|exact Hr'|exact Ht'|]. apply Hf. intros e He. by apply elem_of_nil in He.
Qed.

Lemma skiplist_insert_witness : exists height s n lvl, Insert cmp 4 2 5 50 empty = Some (height, s) /\ rep cmp 4 s lvl [(n, (5, 50))].
Proof.
  destruct (skiplist_insert cmp 4 2 empty _ [] 5 50 (proj1 empty_rep) (proj2 empty_rep)) as (h & s & n & lvl & E & _ & Hr & _).
  exists h, s, n, lvl. split; [exact E|exact Hr].
Defined.
Lemma skiplist_reads_witness : exists s n, Insert cmp 4 2 5 50 empty = Some (2%nat, s) /\ it_Seek cmp 4 s 7 = Some None /\ it_Seek cmp 4 s 3 = Some (Some n) /\
  it_GetKey s (Some n) = Some 5 /\ GetSize 4 s = Some 1.
Proof.
  destruct one_rep as (s & n & lvl & E & Hr & _). destruct (skiplist_reads cmp 4 s lvl [(n, (5, 50))] Hr) as (H1 & _ & H3 & H4). exists s, n.
  split; [exact E|]. split; [exact (H1 7)|]. split; [exact (H1 3)|]. split; [exact (proj1 (proj2 (H3 [] (n, (5, 50)) [] eq_refl)))|exact (H4 eq_refl)].
Defined.
Lemma skiplist_remove_witness : exists s n s', Insert cmp 4 2 5 50 empty = Some (2%nat, s) /\ Remove cmp 4 5 s = Some (Some n, s') /\ tail_ok s' [].
Proof.
  destruct one_rep as (s & n & lvl & E & Hr & Ht & Hf). destruct (skiplist_remove cmp 4 s lvl [(n, (5, 50))] 5 Hr Hf Ht) as (s' & E' & _ & _ & Ht').
  exists s, n, s'. split; [exact E|]. split; [exact E'|exact Ht'].
Defined.
Lemma concurrent_scan_witness : exists s n w, Insert cmp 4 2 5 50 empty = Some (2%nat, s) /\
  rtc (step cmp 4 2) (scan_of s [(n, (5, 50))]) w /\ n ∈ w_seen w.
Proof.
  destruct one_rep as (s & n & lvl & E & Hr & Ht & Hf).
  pose proof (skiplist_next cmp 4 s lvl [(n, (5, 50))] Hr [] (n, (5, 50)) [] eq_refl) as Hn.
  exists s, n, (World s Idle None [n]). split; [exact E|].
  assert (rtc (step cmp 4 2) (scan_of s [(n, (5, 50))]) (World s Idle None [n])) as Hs.
  { eapply rtc_l; [|apply rtc_refl]. apply step_quiet. exact (step_next s Idle n None [] Hn). }
  split; [exact Hs|]. apply (proj1 (concurrent_scan cmp 4 2 s lvl [(n, (5, 50))] _ Hr Ht Hs eq_refl) (n, (5, 50))). left.
Defined.
Lemma scan_completes_witness : exists s n bound, Insert cmp 4 2 5 50 empty = Some (2%nat, s) /\
  forall k w', nsteps quiet k (scan_of s [(n, (5, 50))]) w' -> (k <= bound)%nat.
Proof.
  destruct one_rep as (s & n & lvl & E & Hr & Ht & Hf). destruct (scan_completes cmp 4 2 s lvl [(n, (5, 50))] _ Hr Ht (rtc_refl _ _)) as (bound & H1 & _).
  exists s, n, bound. split; [exact E|exact H1].
Defined.

(** The head has a key of its own: looking up the default key in an empty list
    succeeds. *)
Theorem get_finds_head : Get cmp 4 0 empty = Some (Some 0) /\ Get cmp 4 1 empty = Some None.
Proof. split; vm_compute; reflexivity. Qed.
(** Splitting before the first entry leaves a tail that is the head. *)
Theorem split_tail_is_head : exists s r s', insert_all [3; 5] empty = Some s /\ Split cmp 4 1 s = Some (Some r, s') /\
  IsEmpty s' = Some true /\ GetLast s' = Some (head_ s').
Proof. vm_compute. do 3 eexists. split_and!; reflexivity. Qed.
End SampleSkipList.
