(* ===== verification/TimeList.v ===== *)
(** * The time lists of the toy database

    Models [examples/toydb/src/storage/list.h]: the entries of a key, sorted by
    the comparator, first in an array that is copied by every insertion, then,
    from 400 entries on, in a linked list. The contents do not depend on which
    of them holds the entries; [split_forgets_nothing_last] and
    [seek_past_array_end] show where their operations differ.

    The nodes of a linked list are the list of their keys and values, a node
    pointer is the list that begins at the node. [None] is undefined behaviour. *)

From stdpp Require Import base numbers option list sorting.
From S2P Require Import Prelude.

Section TimeList.
Context {K V : Type} (compare_ : K -> K -> Z).

Definition MAX_ARRAY_LIST_LEN : Z := 400.

(** ** Linked lists *)

Fixpoint Link_FindLessOrEqual (key : K) (nodes : list (K * V)) : nat :=
  match nodes with n :: nodes' => if compare_ key n.1 >? 0 then S (Link_FindLessOrEqual key nodes') else O | [] => O end.
Fixpoint Link_FindLessThan (key : K) (nodes : list (K * V)) : nat :=
  match nodes with n :: nodes' => if compare_ n.1 key >? 0 then O else S (Link_FindLessThan key nodes') | [] => O end.
Definition Link_Insert (key : K) (value : V) (nodes : list (K * V)) : list (K * V) :=
  let pre := Link_FindLessOrEqual key nodes in take pre nodes ++ (key, value) :: drop pre nodes.
(** The nodes that are cut off, and the list. *)
Definition Link_Split (key : K) (nodes : list (K * V)) : list (K * V) * list (K * V) :=
  let pre := Link_FindLessOrEqual key nodes in (drop pre nodes, take pre nodes).
Definition Link_SplitByPos (pos : nat) (nodes : list (K * V)) : list (K * V) * list (K * V) :=
  if (length nodes <? pos)%nat then ([], nodes) else (drop pos nodes, take pos nodes).
Definition Link_IsEmpty (nodes : list (K * V)) : bool := bool_decide (nodes = []).
Definition Link_GetSize (nodes : list (K * V)) : Z := u32 (Z.of_nat (length nodes)).

(** ** Arrays *)

(** The header holds the length in 16 bits. *)
Record ArraySt := mkArraySt { length_ : Z; buf_ : list (K * V) }.
Definition array : Type := option ArraySt.

Definition Array_GetSize (a : array) : Z := match a with None => 0 | Some st => length_ st end.
(** The loop over the first [n] elements that are left, from position [idx]. *)
Fixpoint find_from (stop : K -> bool) (n : nat) (buf : list (K * V)) (idx : Z) : option Z :=
  match n with
  | O => Some idx
  | S n' => match buf with [] => None | e :: buf' => if stop e.1 then Some idx else find_from stop n' buf' (idx + 1) end
  end.
Definition Array_FindLessOrEqual (key : K) (a : array) : option Z :=
  match a with None => Some 0 | Some st => find_from (fun k => compare_ k key >=? 0) (Z.to_nat (length_ st)) (buf_ st) 0 end.
Definition Array_FindLessThan (key : K) (a : array) : option Z :=
  match a with None => Some 0 | Some st => find_from (fun k => compare_ k key >? 0) (Z.to_nat (length_ st)) (buf_ st) 0 end.
(** [n] elements of the old buffer from a position on. *)
Definition copied (st : ArraySt) (from n : nat) : option (list (K * V)) :=
  if (from + n <=? length (buf_ st))%nat then Some (take n (drop from (buf_ st))) else None.
Definition Array_Insert (key : K) (value : V) (a : array) : option array :=
  let length := Array_GetSize a in
  pos ← Array_FindLessOrEqual key a;
  low ← match a with Some st => if (length >? 0) && (pos >? 0) then copied st 0 (Z.to_nat pos) else Some [] | None => Some [] end;
  high ← match a with Some st => if (length >? 0) && (pos <? length) then copied st (Z.to_nat pos) (Z.to_nat (length - pos)) else Some [] | None => Some [] end;
  Some (Some (mkArraySt (u16 (length + 1)) (low ++ (key, value) :: high))).
Definition Array_IsEmpty (a : array) : bool := bool_decide (a = None).
Definition Array_Clear : array := None.
Definition Array_Split (key : K) (a : array) : option array :=
  let length := Array_GetSize a in
  if length =? 0 then Some a
  else
    pos ← Array_FindLessOrEqual key a;
    if pos =? 0 then Some Array_Clear
    else if pos <? length - 1 then
      match a with Some st => b ← copied st 0 (Z.to_nat pos); Some (Some (mkArraySt (u16 pos) b)) | None => None end
    else Some a.
Definition Array_SplitByPos (pos : nat) (a : array) : option array :=
  if (pos <? 1)%nat then Some Array_Clear
  else
    let length := Array_GetSize a in
    if (length =? 0) || (Z.of_nat pos >=? length) then Some a
    else match a with Some st => b ← copied st 0 pos; Some (Some (mkArraySt (u16 (Z.of_nat pos)) b)) | None => None end.
(** From the last element to the first. *)
Definition ConvertToLinkList (a : array) : option (list (K * V)) :=
  if Array_GetSize a =? 0 then None
  else match a with
       | Some st => b ← copied st 0 (Z.to_nat (length_ st)); Some (foldr (fun e nodes => Link_Insert e.1 e.2 nodes) [] b)
       | None => None
       end.

(** ** [List] *)

Inductive BaseList := ArrayList (a : array) | LinkList (nodes : list (K * V)).
Definition List_new : BaseList := ArrayList None.
Definition List_Insert (key : K) (value : V) (l : BaseList) : option BaseList :=
  match l with
  | ArrayList a =>
      if Array_GetSize a >=? MAX_ARRAY_LIST_LEN
      then nodes ← ConvertToLinkList a; Some (LinkList (Link_Insert key value nodes))
      else ArrayList <$> Array_Insert key value a
  | LinkList nodes => Some (LinkList (Link_Insert key value nodes))
  end.

(** An iterator: a position in a snapshot of the array, or a node. *)
Inductive iterator := ArrayIt (pos : Z) (a : array) | LinkIt (node : list (K * V)) (nodes : list (K * V)).
Definition NewIterator (l : BaseList) : iterator :=
  match l with ArrayList a => ArrayIt (-1) a | LinkList nodes => LinkIt [] nodes end.
Definition lit_Valid (it : iterator) : bool :=
  match it with
  | ArrayIt pos a => match a with None => false | Some st => (pos >=? 0) && (pos <? length_ st) end
  | LinkIt node _ => negb (bool_decide (node = []))
  end.
Definition lit_Next (it : iterator) : option iterator :=
  match it with
  | ArrayIt pos a => Some (ArrayIt (pos + 1) a)
  | LinkIt node nodes => match node with [] => None | _ :: rest => Some (LinkIt rest nodes) end
  end.
Definition lit_Get (it : iterator) : option (K * V) :=
  match it with
  | ArrayIt pos a => st ← a; if pos <? 0 then None else buf_ st !! Z.to_nat pos
  | LinkIt node _ => head node
  end.
Definition lit_SeekToFirst (it : iterator) : iterator :=
  match it with ArrayIt _ a => ArrayIt 0 a | LinkIt _ nodes => LinkIt nodes nodes end.
Definition lit_Seek (key : K) (it : iterator) : option iterator :=
  match it with
  | ArrayIt pos a =>
      match a with
      | None => Some it
      | Some st =>
          p ← find_from (fun k => compare_ k key >=? 0) (Z.to_nat (length_ st)) (buf_ st) 0;
          Some (if p <? length_ st then ArrayIt p a else it)
      end
  | LinkIt _ nodes => Some (LinkIt (drop (Link_FindLessOrEqual key nodes) nodes) nodes)
  end.

(** ** The contents *)

Definition contents (l : BaseList) : list (K * V) :=
  match l with ArrayList None => [] | ArrayList (Some st) => buf_ st | LinkList nodes => nodes end.
Definition list_ok (l : BaseList) : Prop :=
  match l with
  | ArrayList None => True
  | ArrayList (Some st) => length_ st = Z.of_nat (length (buf_ st)) /\ 0 < length_ st <= MAX_ARRAY_LIST_LEN
  | LinkList nodes => True
  end.
(** Where an entry goes: before the first whose key is not less. *)
Fixpoint put (e : K * V) (es : list (K * V)) : list (K * V) :=
  match es with x :: es' => if compare_ e.1 x.1 >? 0 then x :: put e es' else e :: es | [] => [e] end.

Class Laws := {
  c_flip : forall a b, 0 < compare_ a b <-> compare_ b a < 0;
  c_trans : forall a b c, compare_ a b <= 0 -> compare_ b c <= 0 -> compare_ a c <= 0
}.
Context `{!Laws}.
Notation sorted := (StronglySorted (fun a b : K * V => compare_ a.1 b.1 <= 0)).

Lemma put_perm e es : put e es ≡ₚ e :: es.
Proof. induction es as [|x es IH]; cbn; [done|]. destruct (_ >? _); [|done]. rewrite IH. apply perm_swap. Qed.
Lemma put_sorted e es : sorted es -> sorted (put e es).
Proof.
  induction 1 as [|x es Hs IH Hx]; cbn; [by repeat constructor|]. rewrite Z.gtb_ltb. destruct (Z.ltb_spec 0 (compare_ e.1 x.1)) as [Hlt|Hge].
  - constructor; [done|]. rewrite put_perm. apply c_flip in Hlt. constructor; [lia|done].
  - constructor; [by constructor|]. constructor; [done|]. eapply Forall_impl; [exact Hx|]. intros y Hy. by eapply c_trans.
Qed.
Lemma put_split e es : put e es = take (Link_FindLessOrEqual e.1 es) es ++ e :: drop (Link_FindLessOrEqual e.1 es) es.
Proof. induction es as [|x es IH]; cbn; [done|]. destruct (_ >? _); cbn; [by rewrite IH|done]. Qed.
Lemma link_insert key value nodes : Link_Insert key value nodes = put (key, value) nodes.
Proof. by rewrite put_split. Qed.
Lemma find_bound key es : (Link_FindLessOrEqual key es <= length es)%nat.
Proof. induction es as [|x es IH]; cbn; [done|]. destruct (_ >? _); cbn; lia. Qed.

Lemma flip_geb a b : (compare_ a b >=? 0) = negb (compare_ b a >? 0).
Proof. pose proof (c_flip b a). destruct (Z.geb_spec (compare_ a b) 0), (Z.gtb_spec (compare_ b a) 0); cbn; lia || done. Qed.
Lemma array_find key (buf : list (K * V)) idx :
  find_from (fun k => compare_ k key >=? 0) (length buf) buf idx = Some (idx + Z.of_nat (Link_FindLessOrEqual key buf)).
Proof.
  revert idx. induction buf as [|e buf IH]; intros idx; cbn [length find_from Link_FindLessOrEqual]; [f_equal; lia|].
  rewrite flip_geb. destruct (_ >? _); cbn [negb]; [|f_equal; lia]. rewrite IH. f_equal. lia.
Qed.
Lemma array_insert key value st : list_ok (ArrayList (Some st)) -> length_ st < MAX_ARRAY_LIST_LEN ->
  Array_Insert key value (Some st) = Some (Some (mkArraySt (Z.of_nat (S (length (buf_ st)))) (put (key, value) (buf_ st)))).
Proof.
  intros [Hl Hr] Hlt. unfold MAX_ARRAY_LIST_LEN in *. unfold Array_Insert, Array_FindLessOrEqual, Array_GetSize. rewrite Hl, Nat2Z.id, array_find. cbn [mbind option_bind]. rewrite !Z.add_0_l.
  set (p := Link_FindLessOrEqual key (buf_ st)). pose proof (find_bound key (buf_ st)) as Hp. fold p in Hp. assert ((0 <? Z.of_nat (length (buf_ st))) = true) as E1 by (apply Z.ltb_lt; lia). rewrite ?Z.gtb_ltb, ?E1. cbn [andb].
  assert ((if 0 <? Z.of_nat p then copied st 0 (Z.to_nat (Z.of_nat p)) else Some []) = Some (take p (buf_ st))) as ->.
  { rewrite Nat2Z.id. unfold copied. rewrite drop_0. destruct (Z.ltb_spec 0 (Z.of_nat p)); [by rewrite (proj2 (Nat.leb_le _ _)) by lia|]. by replace p with O by lia. }
  cbn [mbind option_bind].
  assert ((if Z.of_nat p <? Z.of_nat (length (buf_ st)) then copied st (Z.to_nat (Z.of_nat p)) (Z.to_nat (Z.of_nat (length (buf_ st)) - Z.of_nat p)) else Some []) = Some (drop p (buf_ st))) as ->.
  { unfold copied. rewrite Nat2Z.id. destruct (Z.ltb_spec (Z.of_nat p) (Z.of_nat (length (buf_ st)))).
    - rewrite (proj2 (Nat.leb_le _ _)) by lia. f_equal. apply take_ge. rewrite length_drop. lia.
    - f_equal. symmetry. apply drop_ge. lia. }
  cbn [mbind option_bind]. rewrite put_split. cbn [fst]. fold p. rewrite u16_small by lia. do 3 f_equal. lia.
Qed.
Lemma convert_sorted (b : list (K * V)) : sorted b -> foldr (fun e nodes => Link_Insert e.1 e.2 nodes) [] b = b.
Proof.
  induction 1 as [|e b Hs IH He]; cbn [foldr]; [done|]. rewrite IH, link_insert. destruct b as [|x b]; cbn [put fst]; destruct e as [k v]; [done|]. cbn [fst].
  apply Forall_cons_1 in He as [Hx _]. cbn [fst] in Hx. by rewrite Z.gtb_ltb, (proj2 (Z.ltb_ge 0 _)) by lia.
Qed.

Lemma length_put e es : length (put e es) = S (length es).
Proof. by rewrite (Permutation_length (put_perm e es)). Qed.

(** Insertion, for whoever uses the lists. *)
Lemma list_insert_ok (key : K) (value : V) (l : BaseList) : list_ok l -> sorted (contents l) ->
  exists l', List_Insert key value l = Some l' /\ list_ok l' /\ contents l' = put (key, value) (contents l) /\ sorted (contents l').
Proof.
  intros Hok Hs. destruct l as [[st|]|nodes]; cbn [contents] in *.
  - pose proof Hok as [Hl Hr]. unfold List_Insert, Array_GetSize. rewrite Z.geb_leb. destruct (Z.leb_spec MAX_ARRAY_LIST_LEN (length_ st)) as [Hge|Hlt].
    + unfold ConvertToLinkList, Array_GetSize, copied. rewrite (proj2 (Z.eqb_neq _ 0)) by lia. rewrite Hl, Nat2Z.id, (proj2 (Nat.leb_le _ _)) by lia.
      cbn [mbind option_bind]. rewrite drop_0, firstn_all. eexists. split; [done|]. cbn [list_ok contents]. rewrite convert_sorted, link_insert by done. split_and!; [done|done|by apply put_sorted].
    + rewrite array_insert by done. eexists. split; [done|]. cbn [list_ok contents length_ buf_]. rewrite length_put. unfold MAX_ARRAY_LIST_LEN in *.
      split_and!; [done|lia|lia|done|by apply put_sorted].
  - eexists. split; [done|]. cbn. split_and!; [done|done|done|done|by repeat constructor].
  - eexists. split; [done|]. cbn [list_ok contents]. rewrite link_insert. split_and!; [done|done|by apply put_sorted].
Qed.

(** Insertion into the list of a key: it succeeds, also when the array is
    full and becomes a linked list, and the contents are the old ones with the
    new entry before the first entry whose key is not less: sorted lists stay
    sorted and among equal keys the newest comes first. *)
Theorem time_list_insert (key : K) (value : V) (l : BaseList) : list_ok l -> sorted (contents l) ->
  exists l', List_Insert key value l = Some l' /\ list_ok l' /\ contents l' = put (key, value) (contents l) /\ sorted (contents l').
Proof. apply list_insert_ok. Qed.

(** An iterator that stands at the first of [rest]. *)
Definition at_rest (l : BaseList) (rest : list (K * V)) (it : iterator) : Prop :=
  exists pre, contents l = pre ++ rest /\
    it = match l with ArrayList a => ArrayIt (Z.of_nat (length pre)) a | LinkList nodes => LinkIt rest nodes end.
Lemma at_first l : at_rest l (contents l) (lit_SeekToFirst (NewIterator l)).
Proof. exists []. split; [done|]. by destruct l as [[st|]|nodes]. Qed.
Lemma at_valid l rest it : list_ok l -> at_rest l rest it -> lit_Valid it = negb (bool_decide (rest = [])).
Proof.
  intros Hok (pre & E & ->). destruct l as [[st|]|nodes]; cbn [contents lit_Valid] in *.
  - destruct Hok as [Hl _]. rewrite Hl, E, length_app. rewrite Z.geb_leb, (proj2 (Z.leb_le 0 _)) by lia. cbn [andb].
    destruct rest; [rewrite bool_decide_true by done; cbn; apply Z.ltb_ge; lia|rewrite bool_decide_false by done; cbn; apply Z.ltb_lt; lia].
  - symmetry in E. apply app_nil in E as [-> ->]. by rewrite bool_decide_true.
  - done.
Qed.
Lemma at_next l e rest it : at_rest l (e :: rest) it -> lit_Get it = Some e /\ exists it', lit_Next it = Some it' /\ at_rest l rest it'.
Proof.
  intros (pre & E & ->). split.
  - destruct l as [[st|]|nodes]; cbn [contents lit_Get] in *; [|by destruct pre|done]. cbn [mbind option_bind]. rewrite (proj2 (Z.ltb_ge _ 0)) by lia. rewrite Nat2Z.id, E. by rewrite list_lookup_middle.
  - exists (match l with ArrayList a => ArrayIt (Z.of_nat (length (pre ++ [e]))) a | LinkList nodes => LinkIt rest nodes end). split; [|exists (pre ++ [e]); split; [by rewrite E, <- app_assoc|by destruct l]].
    destruct l as [a|nodes]; cbn [lit_Next]; [|done]. do 2 f_equal. rewrite length_app. cbn. lia.
Qed.
(** Seeking a key that is in reach finds the first entry whose key is not less. *)
Lemma seek_found l key it rest : list_ok l -> at_rest l rest it -> drop (Link_FindLessOrEqual key (contents l)) (contents l) <> [] ->
  exists it', lit_Seek key it = Some it' /\ at_rest l (drop (Link_FindLessOrEqual key (contents l)) (contents l)) it'.
Proof.
  intros Hok (pre & E & ->) Hne. set (p := Link_FindLessOrEqual key (contents l)) in *.
  assert (p < length (contents l))%nat as Hp. { destruct (decide (p < length (contents l))%nat); [done|]. exfalso. apply Hne. apply drop_ge. lia. }
  destruct l as [[st|]|nodes]; cbn [contents lit_Seek] in *; [|cbn in Hp; lia|].
  - destruct Hok as [Hl _]. rewrite Hl, Nat2Z.id, array_find. cbn [mbind option_bind]. rewrite Z.add_0_l. fold p. rewrite (proj2 (Z.ltb_lt _ _)) by lia. eexists. split; [done|].
    exists (take p (buf_ st)). split; [by rewrite take_drop|]. f_equal. rewrite length_take. lia.
  - eexists. split; [done|]. exists (take p nodes). by rewrite take_drop.
Qed.
End TimeList.

(** ** Time stamps *)

(** [TimeComparator]: the newest first. *)
Definition tcmp (a b : Z) : Z := if a >? b then -1 else if a =? b then 0 else 1.
#[global] Instance tcmp_laws : Laws tcmp.
Proof.
  split; intros *; unfold tcmp; rewrite ?Z.gtb_ltb; repeat match goal with |- context [?x <? ?y] => destruct (Z.ltb_spec x y) | |- context [?x =? ?y] => destruct (Z.eqb_spec x y) end; lia.
Qed.

Lemma time_list_insert_witness : exists l', List_Insert tcmp 5 50 (LinkList [(9, 90); (5, 0); (2, 20)]) = Some l' /\ contents l' = [(9, 90); (5, 50); (5, 0); (2, 20)].
Proof.
  destruct (time_list_insert tcmp 5 50 (LinkList [(9, 90); (5, 0); (2, 20)]) I ltac:(repeat constructor; discriminate)) as (l' & E & _ & C & _).
  exists l'. split; [exact E|exact C].
Defined.

(** [ArrayList::Split] keeps the last entry although its time stamp is not
    newer than the key; [LinkList::Split] cuts it off. *)
Theorem split_forgets_nothing_last :
  Array_Split tcmp 2 (Some (mkArraySt 3 [(9, 90); (5, 50); (2, 20)])) = Some (Some (mkArraySt 3 [(9, 90); (5, 50); (2, 20)])) /\
  Link_Split tcmp 2 [(9, 90); (5, 50); (2, 20)] = ([(2, 20)], [(9, 90); (5, 50)]).
Proof. split; vm_compute; reflexivity. Qed.
(** Seeking a time older than all entries leaves the iterator of an array where
    it was, that of a linked list at the end. *)
Theorem seek_past_array_end :
  lit_Valid <$> lit_Seek tcmp 1 (lit_SeekToFirst (NewIterator (ArrayList (Some (mkArraySt 2 [(9, 90); (5, 50)]))))) = Some true /\
  lit_Valid <$> lit_Seek tcmp 1 (lit_SeekToFirst (NewIterator (LinkList [(9, 90); (5, 50)]))) = Some false.
Proof. split; vm_compute; reflexivity. Qed.
