(* ===== verification/Storage.v ===== *)
(** * The tables of the toy database

    Models [examples/toydb/src/storage]: segments (segment.cc), tables with
    their indexes (table_impl.cc), the iterators over them (table_iterator.cc)
    and the handlers through which the engine sees a table
    (../tablet/tablet_catalog.cc), with the hash of include/base/fe_hash.h.

    A segment maps the text of a key to a time list. The skip list stores
    untyped pointers to the lists, so a segment has a heap of them. A data
    block is its bytes. Keys are shorter than 4 GB (a slice has a 32-bit size).
    Rows are put before they are scanned: the iterators
    get the segments as they are. *)

From stdpp Require Import base numbers option list gmap.
From S2P Require Import Prelude Layout TypeCodec RowBuilder RowView RowCodec Rows FnGenerators SkipList TimeList.

(** ** The hash of keys *)

Definition hash_m : Z := 0x5bd1e995.
Definition hash_r : Z := 24.
Definition hash_word (h k : Z) : Z :=
  let k := u32 (k * hash_m) in
  let k := Z.lxor k (Z.shiftr k hash_r) in
  let k := u32 (k * hash_m) in
  Z.lxor (u32 (h * hash_m)) k.
Fixpoint hash_data (h : Z) (data : list Z) : Z :=
  match data with
  | a :: b :: c :: d :: rest => hash_data (hash_word h (le_val [a; b; c; d])) rest
  | [a; b; c] => u32 (Z.lxor (Z.lxor (Z.lxor h (Z.shiftl c 16)) (Z.shiftl b 8)) a * hash_m)
  | [a; b] => u32 (Z.lxor (Z.lxor h (Z.shiftl b 8)) a * hash_m)
  | [a] => u32 (Z.lxor h a * hash_m)
  | [] => h
  end.
Definition hash (key : list Z) (seed : Z) : Z :=
  let len := u32 (Z.of_nat (length key)) in
  let h := hash_data (Z.lxor seed len) (take (Z.to_nat len) key) in
  let h := Z.lxor h (Z.shiftr h 13) in
  let h := u32 (h * hash_m) in
  Z.lxor h (Z.shiftr h 15).

(** ** Segments *)

Definition KEY_ENTRY_MAX_HEIGHT : nat := 12.
Definition KEY_ENTRY_BRANCH : Z := 4.
(** [SliceComparator]. *)
Definition scmp (a b : list Z) : Z := lex_compare a b.

Abbreviation KeyEntry := (SkipList (K := list Z) (V := option nat)).
Abbreviation TimeEntry := (BaseList (K := Z) (V := list Z)).
Record Segment := mkSegment { entries_ : KeyEntry; times_ : gmap nat TimeEntry }.

Definition Segment_new : Segment := mkSegment (SkipList_new [] None KEY_ENTRY_MAX_HEIGHT) ∅.
Definition Segment_Put (key : list Z) (time : Z) (row : list Z) (s : Segment) : option Segment :=
  ret ← SkipList.Get scmp KEY_ENTRY_MAX_HEIGHT key (entries_ s);
  '(t, s) ← match ret with
            | Some (Some t) => Some (t, s)
            | _ =>
                let t := fresh (dom (times_ s)) in
                '(_, entries) ← SkipList.Insert scmp KEY_ENTRY_MAX_HEIGHT KEY_ENTRY_BRANCH key (Some t) (entries_ s);
                Some (t, mkSegment entries (<[t := List_new]> (times_ s)))
            end;
  l ← times_ s !! t;
  l' ← List_Insert tcmp time row l;
  Some (mkSegment (entries_ s) (<[t := l']> (times_ s))).

(** ** Tables *)

Definition SEG_CNT : nat := 8.
Definition SEED : Z := 0xe17a1465.
Definition INVALID_POS : Z := UINT32_MAX.

Record IndexDef := mkIndexDef { name : list Z; first_keys : list (list Z); second_key : list Z }.
Record TableDef := mkTableDef { columns : list ColumnDef; indexes : list IndexDef }.
Record IndexSt := mkIndexSt { st_name : list Z; st_index : nat; ts_pos : Z; keys : list (Ty * Z) }.
Record Table := mkTable {
  table_def_ : TableDef;
  row_view_ : RowView;
  index_map_ : list (list Z * IndexSt);
  segments_ : option (list (list Segment))
}.

(** A [std::map] with string keys: its entries in the order of the keys. *)
Fixpoint map_find {A} (k : list Z) (m : list (list Z * A)) : option A :=
  match m with [] => None | (k', a) :: m' => if bool_decide (k = k') then Some a else map_find k m' end.
Fixpoint map_insert {A} (k : list Z) (a : A) (m : list (list Z * A)) : list (list Z * A) :=
  match m with
  | [] => [(k, a)]
  | (k', a') :: m' => if lex_compare k k' <? 0 then (k, a) :: m else if lex_compare k k' =? 0 then m else (k', a') :: map_insert k a m'
  end.
(** The first column of a name. *)
Fixpoint col_pos (n : list Z) (cols : list ColumnDef) (idx : Z) : option Z :=
  match cols with [] => None | c :: cols' => if bool_decide (col_name c = n) then Some idx else col_pos n cols' (idx + 1) end.

Section Tables.
Context (spark : bool).

Definition Table_new (def : TableDef) : Table := mkTable def (RowView_of_schema spark (columns def)) [] None.

Definition ts_column (cols : list ColumnDef) (d : IndexDef) : option Z :=
  if bool_decide (second_key d = []) then Some INVALID_POS
  else
    p ← col_pos (second_key d) cols 0;
    c ← schema_get cols p;
    match col_type c with kInt64 | kTimestamp => Some p | _ => None end.
Fixpoint key_columns (cols : list ColumnDef) (ts : Z) (names : list (list Z)) : option (list (Ty * Z)) :=
  match names with
  | [] => Some []
  | n :: names' =>
      p ← col_pos n cols 0;
      if ts =? p then None
      else
        c ← schema_get cols p;
        match col_type c with
        | kBool | kInt16 | kInt32 | kInt64 | kDate | kTimestamp | kVarchar =>
            rest ← key_columns cols ts names'; Some ((col_type c, p) :: rest)
        | _ => None
        end
  end.
(** One turn of the loop of [Init]; [None] is its [return false]. *)
Definition index_st (cols : list ColumnDef) (idx : nat) (d : IndexDef) : option IndexSt :=
  ts ← ts_column cols d;
  ks ← key_columns cols ts (first_keys d);
  if bool_decide (ks = []) then None else Some (mkIndexSt (name d) idx ts ks).
Fixpoint init_indexes (cols : list ColumnDef) (idx : nat) (defs : list IndexDef) (m : list (list Z * IndexSt)) : bool * list (list Z * IndexSt) :=
  match defs with
  | [] => (true, m)
  | d :: defs' =>
      match map_find (name d) m with
      | Some _ => (false, m)
      | None =>
          match index_st cols idx d with
          | None => (false, m)
          | Some st => init_indexes cols (S idx) defs' (map_insert (name d) st m)
          end
      end
  end.
Definition Table_Init (t : Table) : bool * Table :=
  let '(ok, m) := init_indexes (columns (table_def_ t)) 0 (indexes (table_def_ t)) (index_map_ t) in
  if negb ok then (false, mkTable (table_def_ t) (row_view_ t) m (segments_ t))
  else if bool_decide (m = []) then (false, mkTable (table_def_ t) (row_view_ t) m (segments_ t))
  else (true, mkTable (table_def_ t) (row_view_ t) m (Some (replicate (length m) (replicate SEG_CNT Segment_new)))).

(** The text of a column: of a string its bytes, of everything else what
    [GetInteger] leaves in [value]. *)
Definition column_text (rv : RowView) (row : list Z) (col : Ty * Z) : option (list Z) :=
  n ← IsNULL (Some row) col.2;
  if (n : bool) then Some NONETOKEN
  else match col.1 with
       | kVarchar =>
           '(_, p, n) ← GetValue_str spark (Some row) col.2 (Some PNull) (Some 0) rv;
           p ← p; n ← n;
           if n =? 0 then Some EMPTY_STRING else charp_string row p n
       | _ => '(_, v) ← GetInteger (Some row) col.2 col.1 0 rv; Some (to_string v)
       end.
Fixpoint combined_key (rv : RowView) (row : list Z) (cols : list (Ty * Z)) (key : list Z) : option (list Z) :=
  match cols with
  | [] => Some key
  | c :: cols' =>
      t ← column_text rv row c;
      combined_key rv row cols' ((if bool_decide (key = []) then key else key ++ SEPARATOR) ++ t)
  end.
(** [now] is the time of day in milliseconds, [time] what the reference holds
    before the call. *)
Definition DecodeKeysAndTs (t : Table) (ix : IndexSt) (row : list Z) (now time : Z) : option (list Z * Z) :=
  let rv := row_view_ t in
  key ← (if (1 <? length (keys ix))%nat then combined_key rv row (keys ix) []
         else c ← keys ix !! 0%nat; column_text rv row c);
  null ← (if ts_pos ix =? INVALID_POS then Some true else IsNULL (Some row) (ts_pos ix));
  if (null : bool) then Some (key, now)
  else
    c ← schema_get (columns (table_def_ t)) (ts_pos ix);
    '(_, v) ← GetInteger (Some row) (ts_pos ix) (col_type c) time rv;
    Some (key, v).

Definition seg_of (key : list Z) : nat := Z.to_nat (hash key SEED mod Z.of_nat SEG_CNT).
Fixpoint put_indexes (t : Table) (row data : list Z) (now : Z) (m : list (list Z * IndexSt)) (segs : option (list (list Segment))) : option (option (list (list Segment))) :=
  match m with
  | [] => Some segs
  | (_, ix) :: m' =>
      '(key, time) ← DecodeKeysAndTs t ix row now 1;
      ss ← segs;
      arr ← ss !! st_index ix;
      s ← arr !! seg_of key;
      s' ← Segment_Put key (u64 time) data s;
      put_indexes t row data now m' (Some (<[st_index ix := <[seg_of key := s']> arr]> ss))
  end.
(** The row is copied: a block holds the first [size] bytes. *)
Definition Table_Put (row : list Z) (size now : Z) (t : Table) : option (bool * Table) :=
  n ← buffer_size row;
  if negb (n =? size) then Some (false, t)
  else
    data ← load row 0 (Z.to_nat size);
    segs ← put_indexes t row data now (index_map_ t) (segments_ t);
    Some (true, mkTable (table_def_ t) (row_view_ t) (index_map_ t) segs).
End Tables.

(** ** Iterators over the segments of an index *)

(** An iterator over the keys of a segment: which segment, and the node. *)
Definition pk_iterator : Type := nat * ptr.
Abbreviation ts_iterator := (iterator (K := Z) (V := list Z)).

Section Scan.
Context (segs : list Segment).

Definition pk_Valid (it : pk_iterator) : bool := it_Valid it.2.
Definition pk_Next (it : pk_iterator) : option pk_iterator := s ← segs !! it.1; p ← it_Next (entries_ s) it.2; Some (it.1, p).
Definition pk_SeekToFirst (i : nat) : option pk_iterator := s ← segs !! i; p ← it_SeekToFirst (entries_ s); Some (i, p).
Definition pk_Seek (i : nat) (key : list Z) : option pk_iterator := s ← segs !! i; p ← it_Seek scmp KEY_ENTRY_MAX_HEIGHT (entries_ s) key; Some (i, p).
Definition pk_GetKey (it : pk_iterator) : option (list Z) := s ← segs !! it.1; it_GetKey (entries_ s) it.2.
(** [reinterpret_cast<TimeEntry*>(pk_it_->GetValue())->NewIterator()]. *)
Definition pk_times (it : pk_iterator) : option ts_iterator :=
  s ← segs !! it.1; v ← it_GetValue (entries_ s) it.2; t ← v; l ← times_ s !! t; Some (NewIterator l).

(** [SeekToNextTsInPks], also a loop of [FullTableIterator]: the keys from
    [pk] on until one has an entry; [ts] is the iterator of the entries before,
    which is deleted when a key has none. *)
Fixpoint ts_walk (fuel : nat) (pk : pk_iterator) (ts : option ts_iterator) : option (pk_iterator * option ts_iterator * bool) :=
  match fuel with
  | O => None
  | S fuel' =>
      if pk_Valid pk then
        it ← pk_times pk;
        let it := lit_SeekToFirst it in
        if lit_Valid it then Some (pk, Some it, true) else pk' ← pk_Next pk; ts_walk fuel' pk' None
      else Some (pk, ts, false)
  end.
Definition SeekToNextTsInPks (pk : pk_iterator) (ts : option ts_iterator) : option (pk_iterator * option ts_iterator * bool) :=
  s ← segs !! pk.1; ts_walk (fuel_of KEY_ENTRY_MAX_HEIGHT (entries_ s)) pk ts.

(** *** [FullTableIterator] *)

Record FullTableIterator := mkFull { f_seg_idx : nat; f_ts_it : option ts_iterator; f_pk_it : option pk_iterator }.
(** [n] segments are left from [seg] on. *)
Fixpoint full_start (n seg : nat) : option FullTableIterator :=
  match n with
  | O => Some (mkFull seg None None)
  | S n' =>
      pk ← pk_SeekToFirst seg;
      if pk_Valid pk then
        it ← pk_times pk;
        let it := lit_SeekToFirst it in
        if lit_Valid it then Some (mkFull seg (Some it) (Some pk)) else full_start n' (S seg)
      else full_start n' (S seg)
  end.
Definition FullTableIterator_new (seg_cnt : nat) : option FullTableIterator := full_start seg_cnt 0.
Fixpoint full_segments (n seg : nat) (ts : option ts_iterator) (pk : option pk_iterator) : option FullTableIterator :=
  match n with
  | O => Some (mkFull seg ts pk)
  | S n' =>
      pk ← pk_SeekToFirst seg;
      '(pk, it, found) ← SeekToNextTsInPks pk None;
      if (found : bool) then Some (mkFull seg it (Some pk)) else full_segments n' (S seg) ts (Some pk)
  end.
Definition Full_Next (seg_cnt : nat) (f : FullTableIterator) : option FullTableIterator :=
  ts ← match f_ts_it f with None => Some None | Some it => it' ← lit_Next it; Some (Some it') end;
  if match ts with Some it => lit_Valid it | None => false end then Some (mkFull (f_seg_idx f) ts (f_pk_it f))
  else match f_pk_it f with
       | None => Some (mkFull (f_seg_idx f) ts None)
       | Some pk =>
           pk ← pk_Next pk;
           '(pk, it, found) ← SeekToNextTsInPks pk None;
           if (found : bool) then Some (mkFull (f_seg_idx f) it (Some pk))
           else full_segments (seg_cnt - S (f_seg_idx f)) (S (f_seg_idx f)) ts (Some pk)
       end.
Definition Full_Valid (f : FullTableIterator) : bool := match f_ts_it f with Some it => lit_Valid it | None => false end.
(** The row of a block, as long as its header says. *)
Definition block_row (data : list Z) : option Row := n ← buffer_size data; Some (Row_of_slice (mkSlice n (Some data))).
Definition Full_GetValue (f : FullTableIterator) : option Row := it ← f_ts_it f; e ← lit_Get it; block_row e.2.

(** *** [WindowTableIterator] *)

Record WindowTableIterator := mkWindow { w_seg_idx : nat; w_pk_it : option pk_iterator }.
Fixpoint window_start (n seg : nat) : option WindowTableIterator :=
  match n with
  | O => Some (mkWindow seg None)
  | S n' => pk ← pk_SeekToFirst seg; if pk_Valid pk then Some (mkWindow seg (Some pk)) else window_start n' (S seg)
  end.
Definition WindowTableIterator_new (seg_cnt : nat) : option WindowTableIterator := window_start seg_cnt 0.
Fixpoint window_segments (n seg : nat) (pk : option pk_iterator) : option WindowTableIterator :=
  match n with
  | O => Some (mkWindow seg pk)
  | S n' => pk ← pk_SeekToFirst seg; if pk_Valid pk then Some (mkWindow seg (Some pk)) else window_segments n' (S seg) (Some pk)
  end.
Definition Window_Next (seg_cnt : nat) (w : WindowTableIterator) : option WindowTableIterator :=
  pk ← match w_pk_it w with None => Some None | Some pk => pk' ← pk_Next pk; Some (Some pk') end;
  if match pk with Some pk => pk_Valid pk | None => false end then Some (mkWindow (w_seg_idx w) pk)
  else window_segments (seg_cnt - S (w_seg_idx w)) (S (w_seg_idx w)) pk.
Definition Window_Seek (key : list Z) (w : WindowTableIterator) : option WindowTableIterator :=
  pk ← pk_Seek (seg_of key) key; Some (mkWindow (w_seg_idx w) (Some pk)).
Definition Window_Valid (w : WindowTableIterator) : bool := match w_pk_it w with Some pk => pk_Valid pk | None => false end.
(** [WindowInternalIterator], or [None] for an [EmptyWindowIterator]. *)
Definition Window_GetValue (w : WindowTableIterator) : option (option ts_iterator) :=
  match w_pk_it w with None => Some None | Some pk => it ← pk_times pk; Some (Some it) end.
Definition Window_GetKey (w : WindowTableIterator) : option Row :=
  match w_pk_it w with None => Some Row_default | Some pk => k ← pk_GetKey pk; Some (Row_of_string k) end.

(** *** [TableIterator] *)

Record TableIterator := mkTableIt { t_seg_cnt : nat; t_seg_idx : nat; t_pk_it : option pk_iterator; t_ts_it : option ts_iterator }.
Definition TableIterator_default : TableIterator := mkTableIt 0 0 None None.
Definition TableIterator_ts (it : ts_iterator) : TableIterator := mkTableIt 0 0 None (Some it).
Definition TableIterator_segs (seg_cnt : nat) : TableIterator := mkTableIt seg_cnt 0 None None.

Definition Table_Seek (time : Z) (t : TableIterator) : option TableIterator :=
  match t_ts_it t with None => Some t | Some it => it' ← lit_Seek tcmp time it; Some (mkTableIt (t_seg_cnt t) (t_seg_idx t) (t_pk_it t) (Some it')) end.
(** The time stamp that is passed is not used. *)
Definition Table_Seek_key (key : list Z) (t : TableIterator) : option TableIterator :=
  if bool_decide (t_pk_it t = None) && (t_seg_cnt t =? 0)%nat then Some t
  else
    seg ← (if (1 <? t_seg_cnt t)%nat then Some (seg_of key) else fst <$> t_pk_it t);
    pk ← pk_Seek seg key;
    if pk_Valid pk then
      '(pk, it, _) ← SeekToNextTsInPks pk None;
      Some (mkTableIt (t_seg_cnt t) (if (1 <? t_seg_cnt t)%nat then seg else t_seg_idx t) (Some pk) it)
    else Some (mkTableIt (t_seg_cnt t) (if (1 <? t_seg_cnt t)%nat then seg else t_seg_idx t) (Some pk) (t_ts_it t)).
Definition CurrentTsValid (t : TableIterator) : bool := match t_ts_it t with Some it => lit_Valid it | None => false end.
Definition TableIt_Valid (t : TableIterator) : bool :=
  match t_ts_it t with
  | None => false
  | Some it => match t_pk_it t with None => lit_Valid it | Some pk => pk_Valid pk && lit_Valid it end
  end.
(** The rest of [Next] and [NextTsInPks]: [while (seg_idx_ + 1 < seg_cnt_)]. *)
Fixpoint table_segments (n : nat) (t : TableIterator) : option TableIterator :=
  match n with
  | O => Some t
  | S n' =>
      pk ← pk_SeekToFirst (S (t_seg_idx t));
      '(pk, it, found) ← SeekToNextTsInPks pk (t_ts_it t);
      let t' := mkTableIt (t_seg_cnt t) (S (t_seg_idx t)) (Some pk) it in
      if (found : bool) then Some t' else table_segments n' t'
  end.
(** What they have in common, after [ts_it_] was moved. *)
Definition NextTsInPks (t : TableIterator) : option TableIterator :=
  it ← t_ts_it t;
  '(t, found) ← match t_pk_it t with
                | Some pk =>
                    if lit_Valid it then Some (t, false)
                    else
                      pk ← pk_Next pk;
                      '(pk, it', found) ← SeekToNextTsInPks pk (t_ts_it t);
                      Some (mkTableIt (t_seg_cnt t) (t_seg_idx t) (Some pk) it', found)
                | None => Some (t, false)
                end;
  if (found : bool) then Some t
  else match t_pk_it t with
       | Some pk => if pk_Valid pk then Some t else table_segments (t_seg_cnt t - S (t_seg_idx t)) t
       | None => Some t
       end.
Definition NextTs (t : TableIterator) : option TableIterator :=
  match t_ts_it t with None => Some t | Some it => it' ← lit_Next it; Some (mkTableIt (t_seg_cnt t) (t_seg_idx t) (t_pk_it t) (Some it')) end.
Definition TableIt_Next (t : TableIterator) : option TableIterator :=
  match t_ts_it t with None => Some t | Some _ => t' ← NextTs t; NextTsInPks t' end.
Definition TableIt_GetValue (t : TableIterator) : option Row := it ← t_ts_it t; e ← lit_Get it; block_row e.2.
Definition TableIt_GetKey (t : TableIterator) : option Z := it ← t_ts_it t; e ← lit_Get it; Some e.1.
Definition GetPK (t : TableIterator) : option (list Z) := match t_pk_it t with None => Some [] | Some pk => pk_GetKey pk end.
(** The loop of [SeekToFirst] over the segments; true when it returns. *)
Fixpoint first_segments (n seg : nat) (pk : option pk_iterator) : option (nat * option pk_iterator * option ts_iterator * bool) :=
  match n with
  | O => Some (seg, pk, None, false)
  | S n' =>
      pk ← pk_SeekToFirst seg;
      '(pk, it, found) ← SeekToNextTsInPks pk None;
      if (found : bool) then Some (seg, Some pk, it, true) else first_segments n' (S seg) (Some pk)
  end.
Definition TableIt_SeekToFirst (t : TableIterator) : option TableIterator :=
  '(seg, pk, ts, found) ← (if (0 <? t_seg_cnt t)%nat then first_segments (t_seg_cnt t) 0 (t_pk_it t) else Some (t_seg_idx t, t_pk_it t, t_ts_it t, false));
  let t := mkTableIt (t_seg_cnt t) seg pk ts in
  if (found : bool) then Some t
  else match pk with
       | Some pk =>
           pk ← pk_SeekToFirst pk.1;
           '(pk, it, found) ← SeekToNextTsInPks pk None;
           Some (mkTableIt (t_seg_cnt t) seg (Some pk) (if (found : bool) then it else None))
       | None => match ts with None => Some t | Some it => Some (mkTableIt (t_seg_cnt t) seg None (Some (lit_SeekToFirst it))) end
       end.
End Scan.

(** ** Access to a table *)

Definition index_segments (t : Table) (i : nat) : option (list Segment) := ss ← segments_ t; ss !! i.
Definition NewIndexIterator (t : Table) (pk : list Z) (i : nat) : option TableIterator :=
  segs ← index_segments t i;
  s ← segs !! seg_of pk;
  ret ← SkipList.Get scmp KEY_ENTRY_MAX_HEIGHT pk (entries_ s);
  match ret with
  | Some (Some l) => l ← times_ s !! l; Some (TableIterator_ts (NewIterator l))
  | _ => Some TableIterator_default
  end.
(** [NewIterator(pk, index_name)]: null when there is no such index. *)
Definition Table_NewIterator (t : Table) (pk index_name : list Z) : option (option TableIterator) :=
  match map_find index_name (index_map_ t) with None => Some None | Some ix => Some <$> NewIndexIterator t pk (st_index ix) end.
Definition Table_NewIterator_ts (t : Table) (pk : list Z) (ts : Z) : option TableIterator := it ← NewIndexIterator t pk 0; Table_Seek ts it.
Definition NewTraverseIterator (t : Table) (index_name : list Z) : option (option (list Segment * TableIterator)) :=
  match map_find index_name (index_map_ t) with
  | None => Some None
  | Some ix => segs ← index_segments t (st_index ix); Some (Some (segs, TableIterator_segs SEG_CNT))
  end.

(** ** The handlers of the engine *)

(** [TabletTableHandler]: the hints are those of its own index list. *)
Record TabletTableHandler := mkTablet { schema_ : list ColumnDef; index_list_ : list IndexDef; table_ : Table; index_hint_ : list (list Z * IndexSt) }.
Definition TabletTableHandler_new (def : TableDef) (t : Table) : TabletTableHandler := mkTablet (columns def) (indexes def) t [].
Fixpoint hint_keys (schema : list ColumnDef) (names : list (list Z)) : option (list (Ty * Z)) :=
  match names with
  | [] => Some []
  | n :: names' => p ← col_pos n schema 0; c ← schema_get schema p; rest ← hint_keys schema names'; Some ((col_type c, p) :: rest)
  end.
Fixpoint init_hints (schema : list ColumnDef) (idx : nat) (defs : list IndexDef) (m : list (list Z * IndexSt)) : bool * list (list Z * IndexSt) :=
  match defs with
  | [] => (true, m)
  | d :: defs' =>
      match (ts ← (if bool_decide (second_key d = []) then Some INVALID_POS else col_pos (second_key d) schema 0);
             ks ← hint_keys schema (first_keys d); Some (mkIndexSt (name d) idx ts ks)) with
      | None => (false, m)
      | Some st => init_hints schema (S idx) defs' (map_insert (name d) st m)
      end
  end.
Definition Tablet_Init (h : TabletTableHandler) : bool * TabletTableHandler :=
  let '(ok, m) := init_hints (schema_ h) 0 (index_list_ h) (index_hint_ h) in (ok, mkTablet (schema_ h) (index_list_ h) (table_ h) m).

Definition Tablet_GetIterator (h : TabletTableHandler) : option (list Segment * FullTableIterator) :=
  segs ← index_segments (table_ h) 0; it ← FullTableIterator_new segs SEG_CNT; Some (segs, it).
Fixpoint full_count (fuel : nat) (segs : list Segment) (it : FullTableIterator) (cnt : Z) : option Z :=
  match fuel with
  | O => None
  | S fuel' => if Full_Valid it then it' ← Full_Next segs SEG_CNT it; full_count fuel' segs it' (u64 (cnt + 1)) else Some cnt
  end.
Definition Tablet_GetCount (fuel : nat) (h : TabletTableHandler) : option Z := '(segs, it) ← Tablet_GetIterator h; full_count fuel segs it 0.
Fixpoint full_at (pos : nat) (segs : list Segment) (it : FullTableIterator) : option Row :=
  match pos with
  | O => if Full_Valid it then Full_GetValue it else Some Row_default
  | S pos' => if Full_Valid it then it' ← Full_Next segs SEG_CNT it; full_at pos' segs it' else Some Row_default
  end.
Definition Tablet_At (h : TabletTableHandler) (pos : nat) : option Row := '(segs, it) ← Tablet_GetIterator h; full_at pos segs it.
(** The inner [None] is a null iterator. *)
Definition Tablet_GetWindowIterator (h : TabletTableHandler) (idx_name : list Z) : option (option (list Segment * WindowTableIterator)) :=
  match map_find idx_name (index_hint_ h), segments_ (table_ h) with
  | Some ix, Some ss => segs ← ss !! st_index ix; w ← WindowTableIterator_new segs SEG_CNT; Some (Some (segs, w))
  | _, _ => Some None
  end.
(** [TabletSegmentHandler::GetIterator]; the inner [None] is a null iterator,
    an empty window iterator cannot be valid. *)
Definition TabletSegment_GetIterator (h : TabletTableHandler) (idx_name key : list Z) : option (option ts_iterator) :=
  iter ← Tablet_GetWindowIterator h idx_name;
  match iter with
  | None => Some None
  | Some (segs, w) =>
      w ← Window_Seek segs key w;
      if Window_Valid w then
        k ← Window_GetKey segs w;
        c ← Row_compare k (Row_of_string key);
        if c =? 0 then Window_GetValue segs w else Some None
      else Some None
  end.
(** [TabletSegmentHandler::GetCount] and [At]: a null iterator is
    dereferenced. *)
Fixpoint ts_count (fuel : nat) (it : ts_iterator) (cnt : Z) : option Z :=
  match fuel with
  | O => None
  | S fuel' => if lit_Valid it then it' ← lit_Next it; ts_count fuel' it' (u64 (cnt + 1)) else Some cnt
  end.
Definition TabletSegment_GetCount (fuel : nat) (h : TabletTableHandler) (idx_name key : list Z) : option Z :=
  it ← TabletSegment_GetIterator h idx_name key; it ← it; ts_count fuel it 0.
Fixpoint ts_at (pos : nat) (it : ts_iterator) : option Row :=
  match pos with
  | O => if lit_Valid it then e ← lit_Get it; block_row e.2 else Some Row_default
  | S pos' => if lit_Valid it then it' ← lit_Next it; ts_at pos' it' else Some Row_default
  end.
Definition TabletSegment_At (h : TabletTableHandler) (idx_name key : list Z) (pos : nat) : option Row :=
  it ← TabletSegment_GetIterator h idx_name key; it ← it; ts_at pos it.
(** [TabletPartitionHandler::GetCount]. *)
Fixpoint window_count (fuel : nat) (segs : list Segment) (w : WindowTableIterator) (cnt : Z) : option Z :=
  match fuel with
  | O => None
  | S fuel' => if Window_Valid w then w' ← Window_Next segs SEG_CNT w; window_count fuel' segs w' (u64 (cnt + 1)) else Some cnt
  end.
Definition TabletPartition_GetCount (fuel : nat) (h : TabletTableHandler) (idx_name : list Z) : option Z :=
  iter ← Tablet_GetWindowIterator h idx_name; '(segs, w) ← iter; window_count fuel segs w 0.
