(* ===== verification/StorageProof.v ===== *)
(** * Tables of the toy database hold what was put into them

    A segment represents an association list from keys to the entries of the
    key, sorted by key; the segments of an index represent the log of what was
    put into them: under every key the entries put with this key, newest first,
    and in all of them together every entry once. *)

From stdpp Require Import base numbers option list gmap sorting.
From S2P Require Import Prelude Layout TypeCodec RowBuilder RowView RowCodec RowWrite RowRead Rows FnGenerators KeyText SkipList SkipListProof TimeList Storage.

#[global] Instance scmp_laws : ComparatorLaws scmp.
Proof.
  unfold scmp. split; intros *.
  - rewrite (lex_compare_antisym a b). lia.
  - intros H1 H2. destruct (Z.eq_dec (lex_compare a b) 0) as [E|]; [apply lex_compare_eq in E as ->; done|].
    destruct (Z.eq_dec (lex_compare b c) 0) as [E|]; [apply lex_compare_eq in E as <-; done|].
    pose proof (lex_compare_trans a b c). lia.
Qed.
Lemma scmp_slice a b x y : sl_denotes a x -> sl_denotes b y -> Slice_compare a b = Some (scmp x y).
Proof. apply Slice_compare_lex. Qed.
Lemma scmp_eq a b : scmp a b = 0 <-> a = b.
Proof. apply lex_compare_eq. Qed.
Lemma scmp_flip a b : scmp b a = - scmp a b.
Proof. apply lex_compare_antisym. Qed.

Lemma load_all b : load b 0 (length b) = Some b.
Proof. unfold load, in_bounds. rewrite (proj2 (Z.leb_le _ _)), (proj2 (Z.leb_le _ _)) by lia. cbn [andb]. change (Z.to_nat 0) with O. by rewrite drop_0, firstn_all. Qed.

(** ** What a segment represents *)

Abbreviation times := (list (Z * list Z)).
Abbreviation dict := (list (list Z * times)).
Abbreviation newest_first := (StronglySorted (fun a b : Z * list Z => tcmp a.1 b.1 <= 0)).
Abbreviation keys_up := (StronglySorted (fun a b : list Z * times => scmp a.1 b.1 < 0)).

Definition ent_ok (s : Segment) (e : entry (K := list Z) (V := option nat)) (kv : list Z * times) : Prop :=
  e.2.1 = kv.1 /\ exists t l, e.2.2 = Some t /\ times_ s !! t = Some l /\ list_ok l /\ contents l = kv.2 /\ newest_first kv.2 /\ kv.2 <> [].
Record seg_ok (s : Segment) (m : dict) (lvl : loc -> nat) (es : list (entry (K := list Z) (V := option nat))) : Prop := {
  so_rep : rep scmp KEY_ENTRY_MAX_HEIGHT (entries_ s) lvl es;
  so_tail : tail_ok (entries_ s) es;
  so_head : exists n, heap_ (entries_ s) !! head_ (entries_ s) = Some n /\ value_ n = None;
  so_ents : Forall2 (ent_ok s) es m;
  so_inj : NoDup (es.*2.*2);
  so_keys : keys_up m
}.
Definition seg_rep (s : Segment) (m : dict) : Prop := exists lvl es, seg_ok s m lvl es.

Fixpoint seg_put (k : list Z) (e : Z * list Z) (m : dict) : dict :=
  match m with
  | [] => [(k, [e])]
  | kv :: m' => if scmp k kv.1 <? 0 then (k, [e]) :: m else if scmp k kv.1 =? 0 then (kv.1, put tcmp e kv.2) :: m' else kv :: seg_put k e m'
  end.
Fixpoint seg_get (k : list Z) (m : dict) : times :=
  match m with [] => [] | kv :: m' => if bool_decide (kv.1 = k) then kv.2 else seg_get k m' end.

Lemma seg_new : seg_rep Segment_new [].
Proof.
  destruct (rep_new [] (None : option nat) scmp KEY_ENTRY_MAX_HEIGHT) as [Hr Ht]; [unfold KEY_ENTRY_MAX_HEIGHT; lia|].
  exists (fun _ => O), []. split; [exact Hr|exact Ht|eexists; split; [vm_compute; reflexivity|done]|constructor..].
Qed.

Lemma seg_put_old k e l m1 m2 : Forall (fun kv => scmp kv.1 k < 0) m1 -> seg_put k e (m1 ++ (k, l) :: m2) = m1 ++ (k, put tcmp e l) :: m2.
Proof.
  induction 1 as [|kv m1 Hk H IH]; cbn [app seg_put fst snd].
  - rewrite (proj2 (scmp_eq k k) eq_refl). done.
  - rewrite scmp_flip, IH. rewrite (proj2 (Z.ltb_ge _ 0)), (proj2 (Z.eqb_neq _ 0)) by lia. done.
Qed.
Lemma seg_put_new k e m1 m2 : Forall (fun kv => scmp kv.1 k < 0) m1 -> Forall (fun kv => 0 < scmp kv.1 k) m2 -> seg_put k e (m1 ++ m2) = m1 ++ (k, [e]) :: m2.
Proof.
  intros H1 H2. induction H1 as [|kv m1 Hk H IH]; cbn [app seg_put].
  - destruct H2 as [|kv m2 Hk H2]; cbn [seg_put]; [done|]. rewrite scmp_flip. by rewrite (proj2 (Z.ltb_lt _ 0)) by lia.
  - rewrite scmp_flip, IH. rewrite (proj2 (Z.ltb_ge _ 0)), (proj2 (Z.eqb_neq _ 0)) by lia. done.
Qed.
(** Either the key is there, or the place where it goes. *)
Lemma dict_split k m : keys_up m ->
  exists m1 m2, Forall (fun kv => scmp kv.1 k < 0) m1 /\ Forall (fun kv => 0 < scmp kv.1 k) m2 /\ ((exists l, m = m1 ++ (k, l) :: m2) \/ m = m1 ++ m2).
Proof.
  induction 1 as [|kv m Hs IH Hx]; [exists [], []; split_and!; [done|done|by right]|].
  destruct (Z.lt_trichotomy (scmp kv.1 k) 0) as [Hlt|[He|Hgt]].
  - destruct IH as (m1 & m2 & H1 & H2 & E). exists (kv :: m1), m2. split_and!; [by constructor|done|]. destruct E as [[l ->]| ->]; [left; by exists l|by right].
  - apply scmp_eq in He as <-. exists [], m. split_and!; [done| |left; exists kv.2; by destruct kv]. eapply Forall_impl; [exact Hx|]. intros y Hy. rewrite scmp_flip. cbn in *. lia.
  - exists [], (kv :: m). split_and!; [done| |by right]. constructor; [done|]. eapply Forall_impl; [exact Hx|]. intros y Hy. cbn in *.
    rewrite scmp_flip in Hgt |- *. unfold scmp in *. pose proof (lex_compare_trans k kv.1 y.1). lia.
Qed.

Lemma cut_at {K V} (go : K -> bool) (a b : list (entry (K := K) (V := V))) : (forall e, e ∈ a -> go e.2.1 = true) -> (forall e, e ∈ b -> go e.2.1 = false) ->
  before go (a ++ b) = a /\ after go (a ++ b) = b.
Proof.
  intros Ha Hb. induction a as [|x a IH]; cbn [app before after].
  - destruct b as [|x b]; [done|]. cbn [before after]. by rewrite Hb by left.
  - rewrite Ha by left. destruct IH as [-> ->]; [|done]. intros e He. apply Ha. by right.
Qed.
Lemma before_app {K V} (go : K -> bool) (a b : list (entry (K := K) (V := V))) : (forall e, e ∈ a -> go e.2.1 = true) -> (forall e, e ∈ b -> go e.2.1 = false) -> before go (a ++ b) = a.
Proof. intros Ha Hb. by destruct (cut_at go a b Ha Hb). Qed.
Lemma ents_key s es m e : Forall2 (ent_ok s) es m -> e ∈ es -> exists kv, kv ∈ m /\ e.2.1 = kv.1.
Proof. intros Hf He. apply list_elem_of_lookup in He as [i Hi]. destruct (Forall2_lookup_l _ _ _ _ _ Hf Hi) as (kv & Hkv & Hk & _). exists kv. split; [by eapply list_elem_of_lookup_2|done]. Qed.
Lemma ents_lt s es m k : Forall2 (ent_ok s) es m -> Forall (fun kv => scmp kv.1 k < 0) m -> forall e, e ∈ es -> scmp e.2.1 k < 0.
Proof. intros Hf Hm e He. destruct (ents_key _ _ _ _ Hf He) as (kv & Hkv & ->). rewrite Forall_forall in Hm. by apply Hm. Qed.
Lemma ents_gt s es m k : Forall2 (ent_ok s) es m -> Forall (fun kv => 0 < scmp kv.1 k) m -> forall e, e ∈ es -> 0 < scmp e.2.1 k.
Proof. intros Hf Hm e He. destruct (ents_key _ _ _ _ Hf He) as (kv & Hkv & ->). rewrite Forall_forall in Hm. by apply Hm. Qed.

(** What [Get] answers. *)
Lemma seg_get_old s m1 m2 k l lvl es : seg_ok s (m1 ++ (k, l) :: m2) lvl es -> Forall (fun kv => scmp kv.1 k < 0) m1 -> Forall (fun kv => 0 < scmp kv.1 k) m2 ->
  exists es1 x t es2, es = es1 ++ (x, (k, Some t)) :: es2 /\ Forall2 (ent_ok s) es1 m1 /\ ent_ok s (x, (k, Some t)) (k, l) /\ Forall2 (ent_ok s) es2 m2 /\
    Get scmp KEY_ENTRY_MAX_HEIGHT k (entries_ s) = Some (Some (Some t)).
Proof.
  intros [Hr Ht (n & Hn & Hv) He Hi Hk] H1 H2. apply Forall2_app_inv_r in He as (es1 & es' & He1 & He' & ->). inversion He' as [|e ? es2 ? Hee He2]; subst.
  destruct e as [x [k' v]]. destruct Hee as [E (t & l' & E2 & Hee)]. cbn in E, E2. subst k' v. exists es1, x, t, es2. split_and!; [done|done|by split; [|exists t, l']|done|].
  rewrite (get_rep scmp KEY_ENTRY_MAX_HEIGHT _ lvl _ Hr k n Hn). rewrite cons_middle, app_assoc.
  rewrite (before_app (le_key scmp k)).
  - rewrite last_snoc. cbn [fst snd]. by rewrite (proj2 (scmp_eq k k) eq_refl).
  - intros e [He|He]%elem_of_app.
    + pose proof (ents_lt _ _ _ _ He1 H1 e He). unfold le_key. rewrite Z.gtb_ltb, (proj2 (Z.ltb_ge _ _)) by lia. done.
    + apply list_elem_of_singleton in He as ->. unfold le_key. cbn [fst snd]. by rewrite (proj2 (scmp_eq k k) eq_refl).
  - intros e He. pose proof (ents_gt _ _ _ _ He2 H2 e He). unfold le_key. rewrite Z.gtb_ltb, (proj2 (Z.ltb_lt _ _)) by lia. done.
Qed.
Lemma seg_get_none s m1 m2 k lvl es : seg_ok s (m1 ++ m2) lvl es -> Forall (fun kv => scmp kv.1 k < 0) m1 -> Forall (fun kv => 0 < scmp kv.1 k) m2 ->
  exists es1 es2 ret, es = es1 ++ es2 /\ Forall2 (ent_ok s) es1 m1 /\ Forall2 (ent_ok s) es2 m2 /\
    before (lt_key scmp k) es = es1 /\ after (lt_key scmp k) es = es2 /\
    Get scmp KEY_ENTRY_MAX_HEIGHT k (entries_ s) = Some ret /\ (ret = None \/ ret = Some None).
Proof.
  intros [Hr Ht (n & Hn & Hv) He Hi Hk] H1 H2. apply Forall2_app_inv_r in He as (es1 & es2 & He1 & He2 & ->).
  pose proof (ents_lt _ _ _ _ He1 H1) as L1. pose proof (ents_gt _ _ _ _ He2 H2) as L2.
  assert (before (lt_key scmp k) (es1 ++ es2) = es1 /\ after (lt_key scmp k) (es1 ++ es2) = es2) as [B1 B2].
  { apply cut_at; intros e He; unfold lt_key; [specialize (L1 e He)|specialize (L2 e He)]; rewrite scmp_flip, Z.gtb_ltb; [apply Z.ltb_lt|apply Z.ltb_ge]; lia. }
  rewrite (get_rep scmp KEY_ENTRY_MAX_HEIGHT _ lvl _ Hr k n Hn). rewrite (before_app (le_key scmp k)).
  - eexists es1, es2, _. split_and!; [done|done|done|done|done|reflexivity|]. destruct (last es1) as [e|] eqn:El.
    + left. specialize (L1 e (last_Some_elem_of _ _ El)). by rewrite (proj2 (Z.eqb_neq _ 0) (Z.lt_neq _ _ L1)).
    + rewrite Hv. destruct (_ =? 0); auto.
  - intros e He. specialize (L1 e He). unfold le_key. by rewrite Z.gtb_ltb, (proj2 (Z.ltb_ge _ _)) by lia.
  - intros e He. specialize (L2 e He). unfold le_key. by rewrite Z.gtb_ltb, (proj2 (Z.ltb_lt _ _)) by lia.
Qed.

(** Other time lists do not change. *)
Lemma ents_other s s' t es m : (forall t', t' <> t -> times_ s' !! t' = times_ s !! t') -> Some t ∉ es.*2.*2 -> Forall2 (ent_ok s) es m -> Forall2 (ent_ok s') es m.
Proof.
  intros Hs Ht Hf. induction Hf as [|e kv es m He Hf IH]; [constructor|]. cbn [fmap list_fmap] in Ht. apply not_elem_of_cons in Ht as [H1 H2].
  constructor; [|by apply IH]. destruct He as [E (t' & l & E2 & El & Hl)]. split; [done|]. exists t', l. split; [done|]. split; [|done]. rewrite Hs; [done|]. intros ->. by rewrite E2 in H1.
Qed.
Lemma keys_up_put k e m : keys_up m -> keys_up (seg_put k e m).
Proof.
  intros Hm. destruct (dict_split k m Hm) as (m1 & m2 & H1 & H2 & E).
  assert (forall l, keys_up (m1 ++ m2) -> keys_up (m1 ++ (k, l) :: m2)) as Hins.
  { intros l Hs. clear Hm E. induction H1 as [|x m1 Hx H1 IH]; cbn [app] in *.
    - constructor; [done|]. eapply Forall_impl; [exact H2|]. intros y Hy. cbn [fst] in *. pose proof (scmp_flip k y.1). lia.
    - apply StronglySorted_cons in Hs as [Hx1 Hs]. constructor; [by apply IH|]. apply Forall_app in Hx1 as [Ha Hb]. apply Forall_app. split; [done|]. constructor; [done|done]. }
  destruct E as [[l ->]| ->]; [rewrite seg_put_old by done|rewrite seg_put_new by done]; apply Hins; [|done].
  clear Hins H2. induction H1 as [|x m1 Hx H1 IH]; cbn [app] in *; apply StronglySorted_cons in Hm as [Hx1 Hs]; [done|].
  constructor; [by apply IH|]. apply Forall_app in Hx1 as [Ha Hb]. apply Forall_app. split; [done|]. by apply Forall_cons_1 in Hb as [_ ?].
Qed.

Lemma segment_put k time row s m : seg_rep s m -> exists s', Segment_Put k time row s = Some s' /\ seg_rep s' (seg_put k (time, row) m).
Proof.
  intros (lvl & es & Hok). destruct (dict_split k m (so_keys _ _ _ _ Hok)) as (m1 & m2 & H1 & H2 & E).
  assert (keys_up (seg_put k (time, row) m)) as Hk by apply keys_up_put, Hok. unfold Segment_Put. destruct E as [[l ->]| ->].
  - destruct (seg_get_old s m1 m2 k l lvl es Hok H1 H2) as (es1 & x & t & es2 & -> & He1 & He & He2 & ->). cbn [mbind option_bind].
    destruct He as [_ (t' & l' & [= <-] & El & Hl & Hc & Hs & Hne)]. cbn [fst snd] in Hc, Hs, Hne. rewrite El. cbn [mbind option_bind].
    destruct (list_insert_ok tcmp time row l' Hl ltac:(by rewrite Hc)) as (l2 & -> & Hl2 & Hc2 & Hs2). cbn [mbind option_bind]. eexists. split; [done|].
    rewrite seg_put_old in Hk |- * by done. destruct Hok as [Hr Ht Hh _ Hi _]. exists lvl, (es1 ++ (x, (k, Some t)) :: es2).
    assert ((Some t ∉ es1.*2.*2) /\ (Some t ∉ es2.*2.*2)) as [N1 N2].
    { rewrite !fmap_app in Hi. cbn [fmap list_fmap] in Hi. apply NoDup_app in Hi as (_ & Hd & Hi). apply NoDup_cons in Hi as [Hi _]. split; [|done]. intros Hin. apply (Hd _ Hin). left. }
    split; cbn [entries_ times_]; try done. apply Forall2_app; [|constructor].
    + eapply ents_other; [|exact N1|exact He1]. intros t' Ht'. cbn [times_]. by rewrite lookup_insert_ne.
    + split; [done|]. exists t, l2. cbn [snd]. split_and!; [done|cbn [times_]; by rewrite lookup_insert, decide_True|done|by rewrite Hc2, Hc|by rewrite <- Hc, <- Hc2|].
      intros E. apply (f_equal length) in E. rewrite length_put in E. done.
    + eapply ents_other; [|exact N2|exact He2]. intros t' Ht'. cbn [times_]. by rewrite lookup_insert_ne.
  - destruct (seg_get_none s m1 m2 k lvl es Hok H1 H2) as (es1 & es2 & ret & -> & He1 & He2 & B1 & B2 & -> & Hret). cbn [mbind option_bind].
    destruct Hok as [Hr Ht Hh _ Hi _]. set (t := fresh (dom (times_ s))).
    destruct (insert_ok scmp KEY_ENTRY_MAX_HEIGHT KEY_ENTRY_BRANCH (entries_ s) lvl (es1 ++ es2) k (Some t) Hr Ht) as (h & s1 & x & lvl1 & E & Hx & Hr1 & Ht1 & _).
    rewrite B1, B2 in Hr1, Ht1. pose proof (Insert_keeps _ _ _ _ _ _ _ _ E) as [Kh Kn].
    assert (match ret with Some (Some t) => Some (t, s) | _ => '(_, entries) ← Insert scmp KEY_ENTRY_MAX_HEIGHT KEY_ENTRY_BRANCH k (Some t) (entries_ s); Some (t, mkSegment entries (<[t := List_new]> (times_ s))) end
      = Some (t, mkSegment s1 (<[t := List_new]> (times_ s)))) as -> by (destruct Hret as [-> | ->]; rewrite E; done).
    cbn [mbind option_bind times_ entries_]. rewrite lookup_insert, decide_True by done. cbn [mbind option_bind].
    destruct (list_insert_ok tcmp time row List_new I ltac:(constructor)) as (l2 & -> & Hl2 & Hc2 & Hs2). cbn [mbind option_bind]. eexists. split; [done|].
    rewrite seg_put_new in Hk |- * by done. exists lvl1, (es1 ++ (x, (k, Some t)) :: es2).
    assert (forall es0 m0, Forall2 (ent_ok s) es0 m0 -> Some t ∉ es0.*2.*2) as Nt.
    { intros es0 m0 Hf Hin. apply list_elem_of_fmap in Hin as (y & Ey & (e & -> & He)%list_elem_of_fmap). apply list_elem_of_lookup in He as [i Hi0].
      destruct (Forall2_lookup_l _ _ _ _ _ Hf Hi0) as (kv & _ & _ & t' & l & E' & El & _). rewrite E' in Ey. injection Ey as Et. rewrite <- Et in El.
      apply (is_fresh (dom (times_ s))). apply elem_of_dom. by exists l. }
    split; cbn [entries_ times_]; try done.
    + destruct Hh as (n & Hn & Hv). destruct (Kn _ _ Hn) as (n' & Hn' & _ & Hv'). exists n'. rewrite Kh, Hv'. done.
    + apply Forall2_app; [|constructor].
      * eapply ents_other; [|by eapply Nt|exact He1]. intros t' Ht'. cbn [times_]. by rewrite !lookup_insert_ne.
      * split; [done|]. exists t, l2. cbn [snd]. split_and!; [done|cbn [times_]; by rewrite lookup_insert, decide_True|done|done|by rewrite Hc2 in Hs2|done].
      * eapply ents_other; [|by eapply Nt|exact He2]. intros t' Ht'. cbn [times_]. by rewrite !lookup_insert_ne.
    + pose proof (Nt _ _ He1). pose proof (Nt _ _ He2). rewrite !fmap_app in Hi |- *. cbn [fmap list_fmap]. apply NoDup_app in Hi as (Hi1 & Hd & Hi2).
      apply NoDup_app. split_and!; [done| |by apply NoDup_cons]. intros y Hy [->|Hy']%elem_of_cons; [done|by apply (Hd y)].
Qed.

(** ** Keys and entries of a segment *)

Definition dict_rows (m : dict) : times := mjoin (m.*2).
Lemma seg_put_rows k e m : dict_rows (seg_put k e m) ≡ₚ e :: dict_rows m.
Proof.
  unfold dict_rows. induction m as [|kv m IH]; cbn [seg_put]; [done|]. destruct (_ <? _); [done|]. destruct (_ =? _); cbn [fmap list_fmap mjoin list_join snd].
  - by rewrite put_perm.
  - rewrite IH. by rewrite Permutation_middle.
Qed.
Lemma seg_put_keys k e m k' : k' ∈ (seg_put k e m).*1 -> k' = k \/ k' ∈ m.*1.
Proof.
  induction m as [|kv m IH]; cbn [seg_put]; [by intros ->%list_elem_of_singleton; left|]. destruct (_ <? _); cbn [fmap list_fmap fst]; [by intros [->|?]%elem_of_cons; [left|right]|].
  destruct (_ =? _); cbn [fmap list_fmap fst]; [by right|]. intros [->|H]%elem_of_cons; [right; left|]. destruct (IH H); [by left|right; by right].
Qed.
Lemma seg_get_out k m : Forall (fun kv => scmp kv.1 k <> 0) m -> seg_get k m = [].
Proof. induction 1 as [|kv m Hk H IH]; cbn [seg_get]; [done|]. rewrite bool_decide_false; [done|]. intros E. by apply Hk, scmp_eq. Qed.
Lemma seg_get_put k e m k' : keys_up m -> seg_get k' (seg_put k e m) = if bool_decide (k' = k) then put tcmp e (seg_get k m) else seg_get k' m.
Proof.
  induction 1 as [|kv m Hs IH Hx]; cbn [seg_put seg_get fst snd]; [by repeat case_bool_decide|].
  destruct (Z.ltb_spec (scmp k kv.1) 0) as [Hlt|Hge]; [|destruct (Z.eqb_spec (scmp k kv.1) 0) as [He|Hne]]; cbn [seg_get fst snd].
  - destruct (decide (k' = k)) as [->|Hk]; [rewrite !(bool_decide_true (k = k)) by done|by rewrite (bool_decide_false (k = k')), (bool_decide_false (k' = k)) by done].
    rewrite bool_decide_false by (intros E; symmetry in E; apply scmp_eq in E; lia). rewrite seg_get_out; [done|]. eapply Forall_impl; [exact Hx|]. intros y Hy. cbn in Hy.
    unfold scmp in *. pose proof (lex_compare_trans _ _ _ Hlt Hy). rewrite lex_compare_antisym. lia.
  - apply scmp_eq in He as ->. rewrite (bool_decide_true (kv.1 = kv.1)) by done. by repeat case_bool_decide.
  - rewrite IH. destruct (decide (kv.1 = k')) as [<-|Hk]; [|by rewrite (bool_decide_false (kv.1 = k')), (bool_decide_false (kv.1 = k)) by (done || (intros <-; by rewrite (proj2 (scmp_eq kv.1 kv.1) eq_refl) in Hne))].
    rewrite bool_decide_true by done. rewrite bool_decide_false; [done|]. intros <-. by rewrite (proj2 (scmp_eq kv.1 kv.1) eq_refl) in Hne.
Qed.

(** ** The segments of an index *)

Abbreviation log := (list (list Z * (Z * list Z))).
(** The entries of a key, newest first, the last put first among equals. *)
Definition times_of (k : list Z) (L : log) : times := foldl (fun l e => put tcmp e.2 l) [] (filter (fun e => e.1 = k) L).

Record index_ok (segs : list Segment) (ms : list dict) (L : log) : Prop := {
  io_segs : Forall2 seg_rep segs ms;
  io_count : length segs = SEG_CNT;
  io_place : forall j m k, ms !! j = Some m -> k ∈ m.*1 -> seg_of k = j;
  io_times : forall k m, ms !! seg_of k = Some m -> seg_get k m = times_of k L;
  io_rows : mjoin (dict_rows <$> ms) ≡ₚ L.*2
}.
Definition index_log (segs : list Segment) (L : log) : Prop := exists ms, index_ok segs ms L.

Lemma seg_of_bound k : (seg_of k < SEG_CNT)%nat.
Proof. unfold seg_of, SEG_CNT. pose proof (Z.mod_pos_bound (hash k SEED) (Z.of_nat 8) ltac:(lia)). lia. Qed.
Lemma index_new : index_log (replicate SEG_CNT Segment_new) [].
Proof.
  exists (replicate SEG_CNT []). split; [|apply length_replicate| | |done].
  - apply Forall2_replicate. exact seg_new.
  - intros j m k [-> _]%lookup_replicate Hk. by apply elem_of_nil in Hk.
  - intros k m [-> _]%lookup_replicate. done.
Qed.
Lemma mjoin_insert {A B} (f : A -> list B) (l : list A) i x y b : l !! i = Some x -> f y ≡ₚ b :: f x -> mjoin (f <$> <[i := y]> l) ≡ₚ b :: mjoin (f <$> l).
Proof.
  intros Hi Hy. rewrite insert_take_drop by (by eapply lookup_lt_Some). rewrite <- (take_drop_middle l i x Hi) at 3. rewrite !fmap_app, !fmap_cons, !join_app. cbn [mjoin list_join].
  rewrite Hy. rewrite <- app_comm_cons. symmetry. apply Permutation_middle.
Qed.
Lemma times_of_snoc k L k' e : times_of k (L ++ [(k', e)]) = if bool_decide (k = k') then put tcmp e (times_of k L) else times_of k L.
Proof.
  unfold times_of. rewrite filter_app, foldl_app. destruct (decide (k = k')) as [->|Hk].
  - rewrite bool_decide_true by done. by rewrite filter_cons_True, filter_nil.
  - rewrite bool_decide_false by done. by rewrite filter_cons_False, filter_nil.
Qed.
Lemma index_put segs L k time row : index_log segs L ->
  exists s s', segs !! seg_of k = Some s /\ Segment_Put k time row s = Some s' /\ index_log (<[seg_of k := s']> segs) (L ++ [(k, (time, row))]).
Proof.
  intros (ms & [Hs Hc Hp Ht Hr]). pose proof (seg_of_bound k) as Hb. destruct (lookup_lt_is_Some_2 segs (seg_of k)) as [s Es]; [lia|].
  destruct (Forall2_lookup_l _ _ _ _ _ Hs Es) as (m & Em & Hm). destruct (segment_put k time row s m Hm) as (s' & E & Hm'). exists s, s'. split_and!; [done|done|].
  destruct Hm as (lvl & es & Hm). exists (<[seg_of k := seg_put k (time, row) m]> ms). pose proof (lookup_lt_Some _ _ _ Em) as Hlt. split.
  - by apply Forall2_insert.
  - by rewrite length_insert.
  - intros j m' k' Hj Hk'. apply list_lookup_insert_Some in Hj as [(<- & <- & _)|[_ Hj]]; [|by eapply Hp].
    apply seg_put_keys in Hk' as [->|Hk']; [done|by eapply Hp].
  - intros k' m' Hj. rewrite times_of_snoc. apply list_lookup_insert_Some in Hj as [(Hk & <- & _)|[Hk Hj]].
    + rewrite seg_get_put by apply Hm. rewrite (Ht k m Em). case_bool_decide as Hkk; [by subst|]. apply Ht. by rewrite <- Hk.
    + rewrite bool_decide_false by (by intros ->). by apply Ht.
  - rewrite (mjoin_insert dict_rows _ _ _ _ (time, row) Em) by apply seg_put_rows. rewrite fmap_app, Hr. cbn. by rewrite Permutation_cons_append.
Qed.

(** ** Scans *)

Section Scans.
Context (segs : list Segment) (ms : list dict) (L : log) (Hix : index_ok segs ms L).

Lemma pk_valid_some j x : pk_Valid (j, Some x) = true.
Proof. by apply bool_decide_true. Qed.
Lemma pk_valid_none j : pk_Valid (j, None) = false.
Proof. apply bool_decide_false. by intros H. Qed.
(** The keys that are left in a segment, with their nodes. *)
Record suffix (j : nat) (b : list (entry (K := list Z) (V := option nat))) (mb : dict) : Prop := {
  sx : exists s m lvl es a ma, segs !! j = Some s /\ ms !! j = Some m /\ seg_ok s m lvl es /\ es = a ++ b /\ m = ma ++ mb /\ Forall2 (ent_ok s) b mb
}.
Lemma suffix_all j m : ms !! j = Some m -> exists es, suffix j es m /\ pk_SeekToFirst segs j = Some (j, fst <$> head es).
Proof.
  intros Hm. destruct (Forall2_lookup_r _ _ _ _ _ (io_segs _ _ _ Hix) Hm) as (s & Hs & lvl & es & Hok). exists es. split.
  - split. exists s, m, lvl, es, [], []. split_and!; try done. apply Hok.
  - unfold pk_SeekToFirst. rewrite Hs. cbn [mbind option_bind]. by rewrite (first_rep scmp KEY_ENTRY_MAX_HEIGHT _ lvl es (so_rep _ _ _ _ Hok)).
Qed.
Lemma suffix_next j e b kv mb : suffix j (e :: b) (kv :: mb) -> suffix j b mb /\ pk_Next segs (j, Some e.1) = Some (j, fst <$> head b).
Proof.
  intros [(s & m & lvl & es & a & ma & Hs & Hm & Hok & -> & -> & Hf)]. inversion Hf as [|? ? ? ? He Hf']; subst. split.
  - split. exists s, (ma ++ kv :: mb), lvl, (a ++ e :: b), (a ++ [e]), (ma ++ [kv]). rewrite <- !app_assoc. done.
  - unfold pk_Next. cbn [fst snd]. rewrite Hs. cbn [mbind option_bind]. by rewrite (skiplist_next scmp KEY_ENTRY_MAX_HEIGHT _ lvl _ (so_rep _ _ _ _ Hok) a e b eq_refl).
Qed.
Lemma suffix_times j e b kv mb : suffix j (e :: b) (kv :: mb) ->
  exists l, pk_times segs (j, Some e.1) = Some (NewIterator l) /\ list_ok l /\ contents l = kv.2 /\ kv.2 <> [] /\ newest_first kv.2 /\ pk_GetKey segs (j, Some e.1) = Some kv.1.
Proof.
  intros [(s & m & lvl & es & a & ma & Hs & Hm & Hok & -> & -> & Hf)]. inversion Hf as [|? ? ? ? He Hf']; subst. destruct He as [Ek (t & l & Et & El & Hl & Hc & Hn & Hne)].
  destruct (n_entries _ _ _ _ (r_nodes _ _ _ _ _ (so_rep _ _ _ _ Hok)) e ltac:(set_solver)) as [Hk Hv]. exists l. unfold pk_times, pk_GetKey, it_GetValue, it_GetKey, SkipList.GetValue, GetKey. cbn [fst snd].
  rewrite Hs. cbn [mbind option_bind]. rewrite Hk, Hv. cbn [mbind option_bind]. rewrite Et. cbn [mbind option_bind]. rewrite El. cbn [mbind option_bind]. by rewrite Ek.
Qed.

(** An iterator of times at an entry of the first key that is left. *)
Definition at_entry (j : nat) (pk : pk_iterator) (it : ts_iterator) (rest : times) : Prop :=
  exists e b kv mb l x r, suffix j (e :: b) (kv :: mb) /\ pk = (j, Some e.1) /\ list_ok l /\ at_rest l (x :: r) it /\
    rest = x :: r ++ dict_rows mb ++ mjoin (dict_rows <$> drop (S j) ms).

Lemma entry_first j e b kv mb l : suffix j (e :: b) (kv :: mb) -> list_ok l -> contents l = kv.2 -> kv.2 <> [] ->
  lit_Valid (lit_SeekToFirst (NewIterator l)) = true /\
  at_entry j (j, Some e.1) (lit_SeekToFirst (NewIterator l)) (dict_rows (kv :: mb) ++ mjoin (dict_rows <$> drop (S j) ms)).
Proof.
  intros Hsx Hl Hc Hne. pose proof (at_first l) as Ha. rewrite Hc in Ha. destruct (kv.2) as [|x r] eqn:Er; [done|]. split.
  - by rewrite (at_valid l _ _ Hl Ha).
  - exists e, b, kv, mb, l, x, r. split_and!; [done|done|done|done|]. unfold dict_rows. cbn [fmap list_fmap mjoin list_join]. rewrite Er. by rewrite <- app_assoc.
Qed.
Lemma walk_suffix j b mb ts : suffix j b mb ->
  exists it, SeekToNextTsInPks segs (j, fst <$> head b) ts = Some (j, fst <$> head b, it, negb (bool_decide (mb = []))) /\
    (mb = [] -> it = ts /\ b = []) /\
    (mb <> [] -> exists it0 rest, it = Some it0 /\ at_entry j (j, fst <$> head b) it0 rest /\ rest = dict_rows mb ++ mjoin (dict_rows <$> drop (S j) ms)).
Proof.
  intros Hsx. pose proof Hsx as [(s & m & lvl & es & a & ma & Hs & Hm & Hok & Ea & Ema & Hf)]. unfold SeekToNextTsInPks. cbn [fst]. rewrite Hs. cbn [mbind option_bind].
  assert (exists f, fuel_of KEY_ENTRY_MAX_HEIGHT (entries_ s) = S f) as [f ->] by (unfold fuel_of; eexists; rewrite Nat.add_1_r; reflexivity). cbn [ts_walk].
  destruct Hf as [|e kv b mb He Hf]; cbn [head fmap option_fmap option_map].
  - exists ts. split_and!; [reflexivity|done|done].
  - rewrite pk_valid_some. destruct (suffix_times j e b kv mb Hsx) as (l & -> & Hl & Hc & Hne & _). cbn [mbind option_bind].
    destruct (entry_first j e b kv mb l Hsx Hl Hc Hne) as [-> Hat]. eexists. split_and!; [done|done|]. intros _. eauto.
Qed.

(** *** Full scans *)

Definition full_rest (f : FullTableIterator) (rest : times) : Prop :=
  (rest = [] /\ Full_Valid f = false) \/
  exists it pk, f_ts_it f = Some it /\ f_pk_it f = Some pk /\ at_entry (f_seg_idx f) pk it rest.

Lemma drop_segs j : (j < SEG_CNT)%nat -> exists m, ms !! j = Some m /\ mjoin (dict_rows <$> drop j ms) = dict_rows m ++ mjoin (dict_rows <$> drop (S j) ms).
Proof.
  intros Hj. destruct (lookup_lt_is_Some_2 ms j) as [m Hm]. { rewrite <- (Forall2_length _ _ _ (io_segs _ _ _ Hix)), (io_count _ _ _ Hix). done. }
  exists m. split; [done|]. by rewrite (drop_S _ _ _ Hm).
Qed.
Lemma drop_all : drop SEG_CNT ms = [].
Proof. apply drop_ge. rewrite <- (Forall2_length _ _ _ (io_segs _ _ _ Hix)), (io_count _ _ _ Hix). done. Qed.
Lemma full_start_ok n : forall j, (n + j = SEG_CNT)%nat -> exists f, full_start segs n j = Some f /\ full_rest f (mjoin (dict_rows <$> drop j ms)).
Proof.
  induction n as [|n IH]; intros j Hj; cbn [full_start].
  - eexists. split; [done|]. left. cbn in Hj. subst j. rewrite drop_all. done.
  - destruct (drop_segs j) as (m & Hm & ->); [lia|]. destruct (suffix_all j m Hm) as (es & Hsx & ->). cbn [mbind option_bind]. pose proof Hsx as [(s & ? & ? & ? & ? & ? & _ & _ & _ & _ & _ & Hf)].
    destruct Hf as [|e kv b mb He Hf]; cbn [head fmap option_fmap option_map]; [rewrite pk_valid_none; apply IH; lia|]. rewrite pk_valid_some.
    destruct (suffix_times j e b kv mb Hsx) as (l & -> & Hl & Hc & Hne & _). cbn [mbind option_bind]. destruct (entry_first j e b kv mb l Hsx Hl Hc Hne) as [-> Hat].
    eexists. split; [done|]. right. cbn. eauto.
Qed.
Lemma full_segments_ok n : forall j ts pk, (n + j = SEG_CNT)%nat -> match ts with Some it => lit_Valid it = false | None => True end ->
  exists f, full_segments segs n j ts pk = Some f /\ full_rest f (mjoin (dict_rows <$> drop j ms)).
Proof.
  induction n as [|n IH]; intros j ts pk Hj Hts; cbn [full_segments].
  - eexists. split; [done|]. left. cbn in Hj. subst j. rewrite drop_all. split; [done|]. unfold Full_Valid. cbn. by destruct ts.
  - destruct (drop_segs j) as (m & Hm & ->); [lia|]. destruct (suffix_all j m Hm) as (es & Hsx & ->). cbn [mbind option_bind].
    destruct (walk_suffix j es m None Hsx) as (it & -> & H0 & H1). cbn [mbind option_bind]. destruct (decide (m = [])) as [->|Hne].
    + rewrite bool_decide_true by done. cbn [negb]. apply IH; [lia|done].
    + rewrite bool_decide_false by done. cbn [negb]. destruct (H1 Hne) as (it0 & rest & -> & Hat & ->). eexists. split; [done|]. right. cbn. eauto.
Qed.
(** Moving on from an entry. *)
Lemma full_next f x rest : full_rest f (x :: rest) ->
  Full_Valid f = true /\ (it ← f_ts_it f; lit_Get it) = Some x /\ exists f', Full_Next segs SEG_CNT f = Some f' /\ full_rest f' rest.
Proof.
  intros [[? _]|(it & pk & Et & Ep & e & b & kv & mb & l & y & r & Hsx & -> & Hl & Ha & E)]; [done|]. injection E as <- ->. destruct (at_next l x r it Ha) as (Hg & it' & Hn & Ha').
  assert (f_seg_idx f < SEG_CNT)%nat as Hb.
  { destruct Hsx as [(s & ? & ? & ? & ? & ? & Hs & _)]. apply lookup_lt_Some in Hs. by rewrite (io_count _ _ _ Hix) in Hs. }
  unfold Full_Valid, Full_Next. rewrite Et. cbn [mbind option_bind]. split; [by rewrite (at_valid l _ _ Hl Ha)|]. split; [done|]. rewrite Hn. cbn [mbind option_bind]. rewrite (at_valid l _ _ Hl Ha').
  destruct r as [|z r]; cycle 1.
  - rewrite bool_decide_false by done. cbn [negb]. eexists. split; [done|]. right. cbn [f_ts_it f_pk_it f_seg_idx]. rewrite Ep. exists it'. eexists. split_and!; [done|done|]. exists e, b, kv, mb, l, z, r. done.
  - rewrite bool_decide_true by done. cbn [negb]. rewrite Ep. destruct (suffix_next _ e b kv mb Hsx) as [Hsx' ->]. cbn [mbind option_bind].
    destruct (walk_suffix _ b mb None Hsx') as (it2 & -> & H0 & H1). cbn [mbind option_bind]. destruct (decide (mb = [])) as [->|Hne].
    + rewrite bool_decide_true by done. cbn [negb app]. apply full_segments_ok; [lia|]. by rewrite (at_valid l _ _ Hl Ha').
    + rewrite bool_decide_false by done. cbn [negb]. destruct (H1 Hne) as (it0 & rest & -> & Hat & ->). eexists. split; [done|]. right. cbn. eauto.
Qed.
End Scans.

(** ** Keys and times of a row *)

(** The text of a column in a key: that of the engine but for booleans, of
    which [GetInteger] reads nothing. *)
Definition storage_text (v : option Value) : list Z := match v with Some (VBool _) => to_string 0 | _ => value_text v end.
Definition column_value (vs : list (option Value)) (c : Ty * Z) : option Value := default None (vs !! Z.to_nat c.2).
Definition index_key (ix : IndexSt) (vs : list (option Value)) : list Z :=
  foldl (fun key c => add_key key (storage_text (column_value vs c))) [] (keys ix).
Definition index_time (ix : IndexSt) (vs : list (option Value)) (now : Z) : Z :=
  if ts_pos ix =? INVALID_POS then now else match vs !! Z.to_nat (ts_pos ix) with Some (Some (VInt64 z | VTimestamp z)) => z | _ => now end.

Definition key_column (cols : list ColumnDef) (c : Ty * Z) : Prop :=
  0 <= c.2 /\ exists col, cols !! Z.to_nat c.2 = Some col /\ col_type col = c.1 /\ c.1 <> kFloat /\ c.1 <> kDouble /\ c.1 <> kBlob /\ c.1 <> kNull.
Record ix_ok (cols : list ColumnDef) (ix : IndexSt) : Prop := {
  ix_some : keys ix <> [];
  ix_cols : Forall (key_column cols) (keys ix);
  ix_ts : ts_pos ix = INVALID_POS \/ (0 <= ts_pos ix /\ exists col, cols !! Z.to_nat (ts_pos ix) = Some col /\ (col_type col = kInt64 \/ col_type col = kTimestamp))
}.

Section Decode.
Context (cols : list ColumnDef) (vs : list (option Value)) (b : list Z) (He : encodes cols vs b).
Let rv := RowView_of_schema false cols.

Lemma row_views : views cols (row_size cols vs) b rv.
Proof. destruct (encodes_facts _ _ _ He) as (Hex & Hsz & _ & _). destruct He as [[Hc Hv Hne Hcnt Hs] Hh]. by apply RowView_of_schema_views with vs. Qed.
Lemma row_null j v : vs !! j = Some v -> IsNULL (Some b) (Z.of_nat j) = Some (is_null_value v).
Proof. intros Hv. destruct (encodes_facts _ _ _ He) as (Hex & Hsz & _ & _). destruct He as [[Hc Hfit Hne Hcnt Hs] Hh]. by apply (column_null cols (row_size cols vs) vs b). Qed.
Lemma row_column j col : cols !! j = Some col -> exists v, vs !! j = Some v /\ value_fits col v.
Proof.
  intros Hc. destruct He as [[_ Hfit _ _ _] _]. destruct (Forall2_lookup_l _ _ _ _ _ Hfit Hc) as (v & Hv & Hf). by exists v.
Qed.
Lemma row_value j col x : cols !! j = Some col -> vs !! j = Some (Some x) -> col_type col <> kVarchar ->
  RowView.GetValue (Some b) (Z.of_nat j) (col_type col) (Some 0) rv = Some (0, Some (cell x)).
Proof.
  intros Hc Hv Hn. pose proof row_views as Hrv. destruct (encodes_facts _ _ _ He) as (Hex & Hsz & _ & _). destruct He as [[Hcs Hfit Hne Hcnt Hs] Hh].
  by rewrite (GetValue_stored cols (row_size cols vs) vs b) with (v := Some x).
Qed.
Lemma row_string j col s : cols !! j = Some col -> vs !! j = Some (Some (VString s)) -> col_type col = kVarchar ->
  exists p, GetValue_str false (Some b) (Z.of_nat j) (Some PNull) (Some 0) rv = Some (0, Some p, Some (Z.of_nat (length s))) /\
    charp_string b p (Z.of_nat (length s)) = Some s.
Proof.
  intros Hc Hv Ht. pose proof row_views as Hrv. destruct (encodes_facts _ _ _ He) as (Hex & Hsz & _ & _). destruct He as [[Hcs Hfit Hne Hcnt Hs] Hh].
  eexists. split; [by rewrite (GetValue_str_value cols (row_size cols vs) vs b) with (v := Some (VString s)) (c := col)|].
  cbn [charp_string]. rewrite Nat2Z.id. by rewrite (rd_body _ _ _ _ _ (proj1 Hh) _ _ Hv).
Qed.
Lemma column_text_ok c : key_column cols c -> column_text false rv b c = Some (storage_text (column_value vs c)).
Proof.
  destruct c as [ty p]. intros (Hp & col & Hc & Hty & N1 & N2 & N3 & N4). cbn [fst snd] in *. subst ty. destruct (row_column _ _ Hc) as (v & Hv & Hfit).
  unfold column_text, column_value. cbn [fst snd]. rewrite Hv. cbn [default]. rewrite <- (Z2Nat.id p) by done. rewrite (row_null _ _ Hv). cbn [mbind option_bind].
  destruct v as [x|]; cbn [is_null_value]; [|done]. destruct Hfit as [Ht Hr]. destruct (decide (col_type col = kVarchar)) as [Hs|Hs].
  - rewrite Hs in *. destruct x; try done. destruct (row_string _ _ _ Hc Hv Hs) as (q & -> & E). cbn [mbind option_bind]. unfold id. cbn [storage_text value_text].
    destruct (Z.eqb_spec (Z.of_nat (length s)) 0) as [E0|E0]; [destruct s; [done|cbn in E0; lia]|]. rewrite bool_decide_false by (by intros ->). done.
  - assert (forall t, t = col_type col -> RowView.GetValue (Some b) (Z.of_nat (Z.to_nat p)) t (Some 0) rv = Some (0, Some (cell x))) as Hg by (intros t ->; by apply row_value).
    destruct x; cbn [value_type] in Ht; rewrite <- Ht in *; try done; unfold GetInteger; rewrite ?Hg by done; done.
Qed.
Lemma combined_key_ok cs key : Forall (key_column cols) cs -> combined_key false rv b cs key = Some (foldl (fun key c => add_key key (storage_text (column_value vs c))) key cs).
Proof. intros Hc. revert key. induction Hc as [|c cs Hc Hcs IH]; intros key; cbn [combined_key foldl]; [done|]. rewrite column_text_ok by done. cbn [mbind option_bind]. apply IH. Qed.
Lemma decode_ok ix def now time m segs : columns def = cols -> ix_ok cols ix ->
  DecodeKeysAndTs false (mkTable def rv m segs) ix b now time = Some (index_key ix vs, index_time ix vs now).
Proof.
  intros Hdef [Hne Hcs Hts]. unfold DecodeKeysAndTs. cbn [row_view_ table_def_]. rewrite Hdef.
  assert ((if (1 <? length (keys ix))%nat then combined_key false rv b (keys ix) [] else c ← keys ix !! 0%nat; column_text false rv b c) = Some (index_key ix vs)) as ->.
  { unfold index_key. destruct (Nat.ltb_spec 1 (length (keys ix))); [by apply combined_key_ok|]. destruct (keys ix) as [|c [|]]; [done| |cbn in *; lia].
    cbn [lookup list_lookup mbind option_bind foldl]. apply Forall_cons_1 in Hcs as [Hc _]. by rewrite column_text_ok. }
  cbn [mbind option_bind]. unfold index_time. destruct Hts as [->|(Hp & col & Hc & Ht)]; [done|].
  destruct (Z.eqb_spec (ts_pos ix) INVALID_POS); [done|]. destruct (row_column _ _ Hc) as (v & Hv & Hfit). rewrite Hv. remember (Z.to_nat (ts_pos ix)) as j. assert (ts_pos ix = Z.of_nat j) as -> by lia.
  rewrite (row_null _ _ Hv). cbn [mbind option_bind]. destruct v as [x|]; cbn [is_null_value]; [|done]. unfold schema_get. rewrite Nat2Z.id, Hc. cbn [mbind option_bind].
  destruct Hfit as [Hx _]. assert (forall t, t = col_type col -> RowView.GetValue (Some b) (Z.of_nat j) t (Some 0) rv = Some (0, Some (cell x))) as Hg by (intros t ->; apply row_value; [done|done|destruct Ht as [-> | ->]; done]).
  destruct Ht as [Ht|Ht]; rewrite Ht in *; destruct x; try done; unfold GetInteger; rewrite Hg by done; done.
Qed.
End Decode.

(** ** Initialisation *)

Lemma map_insert_perm {A} k (a : A) m : map_find k m = None -> map_insert k a m ≡ₚ (k, a) :: m.
Proof.
  induction m as [|[k' a'] m IH]; cbn [map_find map_insert]; [done|]. case_bool_decide as Hk; [done|]. intros Hn. destruct (_ <? 0); [done|].
  destruct (Z.eqb_spec (lex_compare k k') 0) as [E|E]; [by apply lex_compare_eq in E|]. rewrite IH by done. apply perm_swap.
Qed.
Lemma map_find_in {A} k (a : A) m : map_find k m = Some a -> (k, a) ∈ m.
Proof. induction m as [|[k' a'] m IH]; cbn [map_find]; [done|]. case_bool_decide as Hk; [intros [= ->]; subst; left|intros H; right; by apply IH]. Qed.
Lemma col_pos_ok n cols idx p : col_pos n cols idx = Some p -> exists i col, p = idx + Z.of_nat i /\ cols !! i = Some col.
Proof.
  revert idx. induction cols as [|c cols IH]; intros idx; cbn [col_pos]; [done|]. case_bool_decide as Hc.
  - intros [= <-]. exists O, c. split; [lia|done].
  - intros H. destruct (IH _ H) as (i & col & -> & Hi). exists (S i), col. split; [lia|done].
Qed.
Lemma key_columns_ok cols ts names ks : key_columns cols ts names = Some ks -> Forall (key_column cols) ks /\ hint_keys cols names = Some ks.
Proof.
  revert ks. induction names as [|n names IH]; intros ks; cbn [key_columns hint_keys]; [intros [= <-]; by split; [constructor|]|].
  destruct (col_pos n cols 0) as [p|] eqn:Ep; [|done]. cbn [mbind option_bind]. destruct (ts =? p); [done|]. destruct (col_pos_ok _ _ _ _ Ep) as (i & col & -> & Hc).
  unfold schema_get. rewrite Z.add_0_l, Nat2Z.id, Hc. cbn [mbind option_bind].
  destruct (col_type col) eqn:Et; try done; (destruct (key_columns cols ts names) as [rest|]; [|done]); intros [= <-]; destruct (IH _ eq_refl) as [Hf ->]; (split; [|done]);
    (constructor; [|done]); (split; [cbn; lia|]); exists col; cbn [fst snd]; rewrite Nat2Z.id; done.
Qed.
Lemma ts_column_ok cols d ts : ts_column cols d = Some ts ->
  (if bool_decide (second_key d = []) then Some INVALID_POS else col_pos (second_key d) cols 0) = Some ts /\
  (ts = INVALID_POS \/ (0 <= ts /\ exists col, cols !! Z.to_nat ts = Some col /\ (col_type col = kInt64 \/ col_type col = kTimestamp))).
Proof.
  unfold ts_column. case_bool_decide as Hs; [intros [= <-]; auto|]. destruct (col_pos (second_key d) cols 0) as [p|] eqn:Ep; [|done]. cbn [mbind option_bind].
  destruct (col_pos_ok _ _ _ _ Ep) as (i & col & -> & Hc). unfold schema_get. rewrite Z.add_0_l, Nat2Z.id, Hc. cbn [mbind option_bind].
  destruct (col_type col) eqn:Et; intros [= <-]; (split; [done|right]); (split; [lia|]); exists col; rewrite Nat2Z.id; auto.
Qed.
Lemma index_st_ok cols idx d st : index_st cols idx d = Some st ->
  ix_ok cols st /\ st_index st = idx /\
  (ts ← (if bool_decide (second_key d = []) then Some INVALID_POS else col_pos (second_key d) cols 0); ks ← hint_keys cols (first_keys d); Some (mkIndexSt (name d) idx ts ks)) = Some st.
Proof.
  unfold index_st. destruct (ts_column cols d) as [ts|] eqn:Et; [|done]. cbn [mbind option_bind]. destruct (key_columns cols ts (first_keys d)) as [ks|] eqn:Ek; [|done]. cbn [mbind option_bind].
  case_bool_decide as Hn; [done|]. intros [= <-]. destruct (ts_column_ok _ _ _ Et) as [-> Hts], (key_columns_ok _ _ _ _ Ek) as [Hf Hh]. cbn [mbind option_bind]. rewrite Hh. split_and!; [by split|done|done].
Qed.

(** The indexes of a table: their positions are distinct and below the number
    of indexes. *)
Record map_ok (cols : list ColumnDef) (m : list (list Z * IndexSt)) : Prop := {
  mo_ix : Forall (fun kv => ix_ok cols kv.2 /\ (st_index kv.2 < length m)%nat) m;
  mo_nodup : NoDup (st_index <$> m.*2)
}.
Lemma init_indexes_ok cols : forall defs idx m0 m, init_indexes cols idx defs m0 = (true, m) -> map_ok cols m0 -> length m0 = idx ->
  map_ok cols m /\ length m = (idx + length defs)%nat /\ init_hints cols idx defs m0 = (true, m) /\ (forall kv, kv ∈ m0 -> kv ∈ m).
Proof.
  induction defs as [|d defs IH]; intros idx m0 m; cbn [init_indexes init_hints]; [intros [= <-] Hm Hl; split_and!; [done|cbn; lia|done|done]|].
  destruct (map_find (name d) m0) eqn:Ef; [done|]. destruct (index_st cols idx d) as [st|] eqn:Es; [|done]. destruct (index_st_ok _ _ _ _ Es) as (Hix & Hi & ->). intros H [Hm Hn] Hl.
  pose proof (map_insert_perm (name d) st m0 Ef) as Hp. pose proof (Permutation_length Hp) as Hpl. cbn [length] in Hpl.
  destruct (IH (S idx) _ m H) as (H1 & H2 & H3 & H4).
  - split.
    + rewrite Hpl, Hp. constructor; [cbn; split; [done|lia]|]. eapply Forall_impl; [exact Hm|]. intros kv [? ?]. split; [done|lia].
    + rewrite Hp. cbn [fmap list_fmap snd]. apply NoDup_cons. split; [|done]. intros Hin. apply list_elem_of_fmap in Hin as (st' & E & (kv & -> & Hkv)%list_elem_of_fmap).
      rewrite Forall_forall in Hm. destruct (Hm _ Hkv). lia.
  - lia.
  - split_and!; [done|cbn [length] in *; lia|done|]. intros kv Hkv. apply H4. rewrite Hp. by right.
Qed.
Lemma init_first cols d defs m : init_indexes cols 0 (d :: defs) [] = (true, m) -> exists kv, kv ∈ m /\ st_index kv.2 = O.
Proof.
  cbn [init_indexes map_find map_insert]. destruct (index_st cols 0 d) as [st|] eqn:Es; [|done]. destruct (index_st_ok _ _ _ _ Es) as (Hix & Hi & _). intros H.
  destruct (init_indexes_ok cols defs 1 [(name d, st)] m H) as (_ & _ & _ & Hin); [split|done|].
  - apply Forall_singleton. cbn [snd length]. split; [exact Hix|lia].
  - cbn. apply NoDup_singleton.
  - exists (name d, st). split; [apply Hin; left|done].
Qed.

(** ** Tables *)

(** A row that is put: its values, its bytes and the time of day. *)
Record put_row := mkPut { pr_values : list (option Value); pr_row : list Z; pr_now : Z }.
Definition good_put (cols : list ColumnDef) (p : put_row) : Prop := encodes cols (pr_values p) (pr_row p) /\ Z.of_nat (length (pr_row p)) = row_size cols (pr_values p).
Fixpoint put_all (ps : list put_row) (t : Table) : option Table :=
  match ps with
  | [] => Some t
  | p :: ps' => '(ok, t') ← Table_Put false (pr_row p) (Z.of_nat (length (pr_row p))) (pr_now p) t; if (ok : bool) then put_all ps' t' else None
  end.

Definition put_entry (ix : IndexSt) (p : put_row) : list Z * (Z * list Z) :=
  (index_key ix (pr_values p), (u64 (index_time ix (pr_values p) (pr_now p)), pr_row p)).
Record table_ok (def : TableDef) (t : Table) (ss : list (list Segment)) (ps : list put_row) : Prop := {
  to_def : table_def_ t = def;
  to_view : row_view_ t = RowView_of_schema false (columns def);
  to_map : map_ok (columns def) (index_map_ t);
  to_first : exists kv, kv ∈ index_map_ t /\ st_index kv.2 = O;
  to_segments : segments_ t = Some ss;
  to_log : forall kv, kv ∈ index_map_ t -> exists segs, ss !! st_index kv.2 = Some segs /\ index_log segs (put_entry kv.2 <$> ps)
}.

Lemma table_init def t : Table_Init (Table_new false def) = (true, t) -> exists ss, table_ok def t ss [].
Proof.
  unfold Table_Init, Table_new. cbn [table_def_ row_view_ index_map_ segments_]. destruct (init_indexes _ _ _ _) as [ok m] eqn:Ei. destruct ok; cbn [negb]; [|done].
  case_bool_decide as Hm; [done|]. intros [= <-]. destruct (init_indexes_ok _ _ _ _ _ Ei) as (Hok & Hl & _ & _); [split; constructor|done|].
  exists (replicate (length m) (replicate SEG_CNT Segment_new)). split; cbn [table_def_ row_view_ index_map_ segments_]; try done.
  - destruct (indexes def) as [|d defs]; [cbn in Ei; by injection Ei as <-|]. by eapply init_first.
  - intros kv Hkv. exists (replicate SEG_CNT Segment_new). split; [|exact index_new]. destruct Hok as [Hf _]. rewrite Forall_forall in Hf. destruct (Hf _ Hkv). by apply lookup_replicate_2.
Qed.

Lemma put_indexes_ok def t p ps : table_def_ t = def -> row_view_ t = RowView_of_schema false (columns def) -> good_put (columns def) p ->
  forall m ss, Forall (fun kv => ix_ok (columns def) kv.2) m -> NoDup (st_index <$> m.*2) ->
  (forall kv, kv ∈ m -> exists segs, ss !! st_index kv.2 = Some segs /\ index_log segs (put_entry kv.2 <$> ps)) ->
  exists ss', put_indexes false t (pr_row p) (pr_row p) (pr_now p) m (Some ss) = Some (Some ss') /\
    (forall kv, kv ∈ m -> exists segs, ss' !! st_index kv.2 = Some segs /\ index_log segs (put_entry kv.2 <$> (ps ++ [p]))) /\
    (forall i, i ∉ st_index <$> m.*2 -> ss' !! i = ss !! i).
Proof.
  intros Hdef Hrv [He Hlen]. induction m as [|[n ix] m IH]; intros ss Hix Hnd Hlog; cbn [put_indexes].
  - exists ss. split_and!; [done| |done]. intros kv Hkv. by apply elem_of_nil in Hkv.
  - apply Forall_cons_1 in Hix as [Hix Hixs]. cbn [fmap list_fmap snd] in Hnd. apply NoDup_cons in Hnd as [Hnin Hnd]. destruct t as [def' rv m' segs']. cbn in Hdef, Hrv. subst def' rv.
    rewrite (decode_ok (columns def) (pr_values p) (pr_row p) He) by done. cbn [mbind option_bind]. destruct (Hlog (n, ix)) as (segs & Hs & Hl); [left|]. cbn [snd] in Hs, Hl. rewrite Hs. cbn [mbind option_bind].
    destruct (index_put segs _ (index_key ix (pr_values p)) (u64 (index_time ix (pr_values p) (pr_now p))) (pr_row p) Hl) as (s & s' & -> & E & Hl'). cbn [mbind option_bind]. rewrite E. cbn [mbind option_bind].
    pose proof (lookup_lt_Some _ _ _ Hs) as Hlt.
    destruct (IH (<[st_index ix := <[seg_of (index_key ix (pr_values p)) := s']> segs]> ss) Hixs Hnd) as (ss' & -> & H1 & H2).
    { intros kv Hkv. destruct (Hlog kv) as (segs1 & Hs1 & Hl1); [by right|]. exists segs1. split; [|done]. rewrite list_lookup_insert_ne; [done|]. intros E'. apply Hnin. rewrite E'. apply list_elem_of_fmap. exists kv.2. split; [done|]. apply list_elem_of_fmap. by exists kv. }
    exists ss'. split_and!; [done| |].
    + intros kv [->|Hkv]%elem_of_cons; [|by apply H1]. cbn [snd]. exists (<[seg_of (index_key ix (pr_values p)) := s']> segs). split; [|rewrite fmap_app; exact Hl']. rewrite H2 by done. by apply list_lookup_insert_eq.
    + intros i Hi. cbn [fmap list_fmap snd] in Hi. apply not_elem_of_cons in Hi as [Hi1 Hi2]. rewrite H2 by done. by apply list_lookup_insert_ne.
Qed.
Lemma table_put def t ss ps p : table_ok def t ss ps -> good_put (columns def) p ->
  exists t' ss', Table_Put false (pr_row p) (Z.of_nat (length (pr_row p))) (pr_now p) t = Some (true, t') /\ table_ok def t' ss' (ps ++ [p]) /\ index_map_ t' = index_map_ t.
Proof.
  intros [Hd Hv Hm Hf Hs Hl] Hp. pose proof Hp as [He Hlen]. destruct (encodes_facts _ _ _ He) as (_ & _ & Hb & _). unfold Table_Put. rewrite Hb. cbn [mbind option_bind]. rewrite Hlen, Z.eqb_refl. cbn [negb].
  rewrite <- Hlen, Nat2Z.id, load_all.
  cbn [mbind option_bind]. rewrite Hs. destruct Hm as [Hm1 Hm2].
  destruct (put_indexes_ok def t p ps Hd Hv Hp (index_map_ t) ss) as (ss' & -> & H1 & _); [eapply Forall_impl; [exact Hm1|]; by intros kv [? _]|done|done|].
  cbn [mbind option_bind]. eexists _, ss'. split_and!; [done| |done]. split; cbn [table_def_ row_view_ index_map_ segments_]; done.
Qed.
Lemma table_puts def ps : forall t ss ps0, table_ok def t ss ps0 -> Forall (good_put (columns def)) ps ->
  exists t' ss', put_all ps t = Some t' /\ table_ok def t' ss' (ps0 ++ ps) /\ index_map_ t' = index_map_ t.
Proof.
  induction ps as [|p ps IH]; intros t ss ps0 Hok Hg; cbn [put_all]; [exists t, ss; rewrite app_nil_r; done|].
  apply Forall_cons_1 in Hg as [Hp Hg]. destruct (table_put def t ss ps0 p Hok Hp) as (t1 & ss1 & -> & Hok1 & E1). cbn [mbind option_bind].
  destruct (IH t1 ss1 (ps0 ++ [p]) Hok1 Hg) as (t2 & ss2 & E & Hok2 & E2). exists t2, ss2. rewrite <- app_assoc in Hok2. split_and!; [done|done|congruence].
Qed.

(** ** Lookups *)

Section Lookup.
Context (segs : list Segment) (ms : list dict) (L : log) (Hix : index_ok segs ms L).
Notation short k := (Z.of_nat (length k) < 2 ^ 32).

Lemma string_compare a b : short a -> short b -> Row_compare (Row_of_string a) (Row_of_string b) = Some (scmp a b).
Proof.
  intros Ha Hb. unfold Row_compare, Row_of_string. cbn [slice_ slices_]. rewrite (scmp_slice _ _ a b).
  - cbn [mbind option_bind compare_loop]. destruct (Z.eqb_spec (scmp a b) 0) as [->|]; done.
  - split; cbn [sl_size sl_data]; [by apply u32_small; lia|]. apply load_all.
  - split; cbn [sl_size sl_data]; [by apply u32_small; lia|]. apply load_all.
Qed.
Lemma window_start_ok n : forall j, (n + j = SEG_CNT)%nat -> exists w, window_start segs n j = Some w.
Proof.
  induction n as [|n IH]; intros j Hj; cbn [window_start]; [by eexists|]. destruct (drop_segs segs ms L Hix j) as (m & Hm & _); [lia|].
  destruct (suffix_all segs ms L Hix j m Hm) as (es & _ & ->). cbn [mbind option_bind]. destruct (pk_Valid _); [by eexists|]. apply IH. lia.
Qed.
Lemma seg_get_mid k l m1 m2 : Forall (fun kv => scmp kv.1 k < 0) m1 -> seg_get k (m1 ++ (k, l) :: m2) = l.
Proof.
  induction 1 as [|kv m1 Hk H IH]; cbn [app seg_get fst snd]; [by rewrite bool_decide_true|]. rewrite bool_decide_false; [done|]. intros E. apply scmp_eq in E. lia.
Qed.
(** The segment iterator is at the key if it is there, at another key or at
    the end if not. *)
Lemma window_seek k w : exists pk, Window_Seek segs k w = Some (mkWindow (w_seg_idx w) (Some pk)) /\
  ((times_of k L = [] /\ pk_Valid pk = false) \/
   (times_of k L = [] /\ pk_Valid pk = true /\ exists k', pk_GetKey segs pk = Some k' /\ k' <> k /\ times_of k' L <> []) \/
   (times_of k L <> [] /\ pk_Valid pk = true /\ pk_GetKey segs pk = Some k /\
    exists l, pk_times segs pk = Some (NewIterator l) /\ list_ok l /\ contents l = times_of k L)).
Proof.
  pose proof (seg_of_bound k) as Hb. destruct (drop_segs segs ms L Hix (seg_of k) Hb) as (m & Hm & _). destruct (Forall2_lookup_r _ _ _ _ _ (io_segs _ _ _ Hix) Hm) as (s & Hs & lvl & es & Hok).
  rewrite <- (io_times _ _ _ Hix k m Hm). unfold Window_Seek, pk_Seek. rewrite Hs. cbn [mbind option_bind]. rewrite (seek_rep scmp KEY_ENTRY_MAX_HEIGHT _ lvl es (so_rep _ _ _ _ Hok)). cbn [mbind option_bind].
  eexists. split; [done|]. destruct (dict_split k m (so_keys _ _ _ _ Hok)) as (m1 & m2 & H1 & H2 & [[l ->]| ->]).
  - right. right. destruct (seg_get_old s m1 m2 k l lvl es Hok H1 H2) as (es1 & x & t & es2 & -> & He1 & He & He2 & _).
    assert (after (lt_key scmp k) (es1 ++ (x, (k, Some t)) :: es2) = (x, (k, Some t)) :: es2) as ->.
    { apply cut_at; intros e Hin; unfold lt_key.
      - pose proof (ents_lt _ _ _ _ He1 H1 e Hin). rewrite scmp_flip, Z.gtb_ltb. apply Z.ltb_lt. lia.
      - rewrite scmp_flip, Z.gtb_ltb. apply Z.ltb_ge. apply elem_of_cons in Hin as [->|Hin]; [cbn [fst snd]; by rewrite (proj2 (scmp_eq k k) eq_refl)|]. pose proof (ents_gt _ _ _ _ He2 H2 e Hin). lia. }
    destruct (suffix_times segs ms L Hix (seg_of k) (x, (k, Some t)) es2 (k, l) m2) as (l' & Hl' & Hlo & Hc & Hne & _ & Hk).
    { split. exists s, (m1 ++ (k, l) :: m2), lvl, (es1 ++ (x, (k, Some t)) :: es2), es1, m1. split_and!; try done. by constructor. }
    rewrite seg_get_mid by done. cbn [head fmap option_fmap option_map fst] in *. cbn [snd] in Hne, Hc. rewrite pk_valid_some. split_and!; [done|done|done|]. by exists l'.
  - rewrite seg_get_out by (apply Forall_app; split; [eapply Forall_impl; [exact H1|]|eapply Forall_impl; [exact H2|]]; cbn; intros; lia).
    destruct (seg_get_none s m1 m2 k lvl es Hok H1 H2) as (es1 & es2 & _ & -> & He1 & He2 & _ & -> & _). destruct He2 as [|e kv es2 m2' He He2]; cbn [head fmap option_fmap option_map].
    + left. by rewrite pk_valid_none.
    + right. left. rewrite pk_valid_some. split_and!; [done|done|]. exists kv.1. apply Forall_cons_1 in H2 as [Hkv H2].
      destruct (suffix_times segs ms L Hix (seg_of k) e es2 kv m2') as (l' & _ & _ & _ & Hne & _ & Hk).
      { split. exists s, (m1 ++ kv :: m2'), lvl, (es1 ++ e :: es2), es1, m1. split_and!; try done. by constructor. }
      assert (kv.1 <> k) as Hkk by (intros E; apply scmp_eq in E; lia). split_and!; [done|done|].
      assert (seg_of kv.1 = seg_of k) as Hseg. { eapply (io_place _ _ _ Hix); [exact Hm|]. rewrite fmap_app. cbn. set_solver. }
      rewrite <- (io_times _ _ _ Hix kv.1 (m1 ++ kv :: m2')) by (by rewrite Hseg). destruct kv as [k1 l1]. cbn [fst snd] in *. rewrite seg_get_mid; [done|].
      pose proof (so_keys _ _ _ _ Hok) as Hup. clear -Hup. induction m1 as [|y m1 IH]; cbn [app] in Hup; [constructor|]. apply StronglySorted_cons in Hup as [Hy Hup].
      constructor; [|by apply IH]. apply Forall_app in Hy as [_ Hy]. by apply Forall_cons_1 in Hy as [? _].
Qed.
Lemma times_of_some k : times_of k L <> [] -> exists e, e ∈ L /\ e.1 = k.
Proof.
  unfold times_of. intros H. destruct (filter (fun e => e.1 = k) L) as [|e l] eqn:E; [done|]. exists e. assert (e ∈ filter (fun e => e.1 = k) L) as He by (rewrite E; left). apply list_elem_of_filter in He as [? ?]. done.
Qed.
(** [TabletSegmentHandler::GetIterator]. *)
Lemma segment_iterator h idx k ix ss : map_find idx (index_hint_ h) = Some ix -> segments_ (table_ h) = Some ss -> ss !! st_index ix = Some segs ->
  short k -> Forall (fun e => short e.1) L ->
  exists it, TabletSegment_GetIterator h idx k = Some it /\
    match it with None => times_of k L = [] | Some it => times_of k L <> [] /\ exists l, it = NewIterator l /\ list_ok l /\ contents l = times_of k L end.
Proof.
  intros Hf Hs Hss Hk HL. unfold TabletSegment_GetIterator, Tablet_GetWindowIterator. rewrite Hf, Hs, Hss. cbn [mbind option_bind]. unfold WindowTableIterator_new.
  destruct (window_start_ok SEG_CNT 0 eq_refl) as [w ->]. cbn [mbind option_bind]. destruct (window_seek k w) as (pk & -> & Hcase). cbn [mbind option_bind]. unfold Window_Valid, Window_GetKey, Window_GetValue. cbn [w_pk_it].
  destruct Hcase as [[E ->]|[(E & -> & k' & -> & Hkk & Hne)|(E & -> & -> & l & -> & Hl & Hc)]]; cbn [mbind option_bind].
  - by exists None.
  - destruct (times_of_some k' Hne) as (e & He & <-). rewrite Forall_forall in HL. rewrite string_compare by (done || by apply HL). cbn [mbind option_bind].
    destruct (Z.eqb_spec (scmp e.1 k) 0) as [E0|]; [by apply scmp_eq in E0|]. by exists None.
  - rewrite string_compare by done. rewrite (proj2 (scmp_eq k k) eq_refl). cbn [mbind option_bind Z.eqb]. eexists. split; [done|]. split; [done|]. by exists l.
Qed.
End Lookup.

(** ** What the engine sees *)

Definition stored_row (row : list Z) : Row := Row_of_slice (mkSlice (Z.of_nat (length row)) (Some row)).
(** A loop over a full scan, and one over the entries of a key. *)
Fixpoint full_scan (fuel : nat) (segs : list Segment) (f : FullTableIterator) : option (list Row) :=
  match fuel with
  | O => None
  | S fuel' => if Full_Valid f then r ← Full_GetValue f; f' ← Full_Next segs SEG_CNT f; rs ← full_scan fuel' segs f'; Some (r :: rs) else Some []
  end.
Fixpoint ts_scan (fuel : nat) (it : ts_iterator) : option (list (Z * Row)) :=
  match fuel with
  | O => None
  | S fuel' => if lit_Valid it then e ← lit_Get it; r ← block_row e.2; it' ← lit_Next it; rs ← ts_scan fuel' it'; Some ((e.1, r) :: rs) else Some []
  end.

(** Bytes whose header has their length. *)
Definition sized (row : list Z) : Prop := buffer_size row = Some (Z.of_nat (length row)).
Lemma block_row_ok row : sized row -> block_row row = Some (stored_row row).
Proof. intros H. unfold block_row. rewrite H. done. Qed.
Lemma good_sized cols p : good_put cols p -> sized (pr_row p).
Proof. intros [He Hl]. destruct (encodes_facts _ _ _ He) as (_ & _ & Hb & _). unfold sized. by rewrite Hb, Hl. Qed.
Lemma ts_scan_ok l rest : list_ok l -> Forall (fun e => sized e.2) rest -> forall it fuel, at_rest l rest it -> (length rest < fuel)%nat ->
  ts_scan fuel it = Some ((fun e => (e.1, stored_row e.2)) <$> rest).
Proof.
  intros Hl. induction 1 as [|e rest He Hr IH]; intros it fuel Ha Hf; (destruct fuel as [|fuel]; [cbn in Hf; lia|]); cbn [ts_scan]; rewrite (at_valid l _ _ Hl Ha).
  - rewrite bool_decide_true by done. done.
  - rewrite bool_decide_false by done. cbn [negb]. destruct (at_next l e rest it Ha) as (-> & it' & -> & Ha'). cbn [mbind option_bind]. rewrite (block_row_ok _ He). cbn [mbind option_bind].
    rewrite (IH it' fuel Ha') by (cbn in Hf; lia). done.
Qed.
Lemma full_scan_ok segs ms L (Hix : index_ok segs ms L) rest : Forall (fun e => sized e.2) rest -> forall f fuel, full_rest segs ms f rest -> (length rest < fuel)%nat ->
  full_scan fuel segs f = Some ((fun e => stored_row e.2) <$> rest).
Proof.
  induction 1 as [|e rest He Hr IH]; intros f fuel Ha Hf; (destruct fuel as [|fuel]; [cbn in Hf; lia|]); cbn [full_scan].
  - destruct Ha as [[_ ->]|(it & pk & _ & _ & ? & ? & ? & ? & ? & ? & ? & _ & _ & _ & _ & ?)]; done.
  - destruct (full_next segs ms L Hix f e rest Ha) as (-> & Hg & f' & -> & Ha'). unfold Full_GetValue. destruct (f_ts_it f) as [it|]; [|done]. cbn [mbind option_bind] in *. rewrite Hg. cbn [mbind option_bind].
    rewrite (block_row_ok _ He). cbn [mbind option_bind]. rewrite (IH f' fuel Ha') by (cbn in Hf; lia). done.
Qed.
Lemma full_count_ok segs ms L (Hix : index_ok segs ms L) rest : forall f fuel cnt, full_rest segs ms f rest -> (length rest < fuel)%nat -> 0 <= cnt -> cnt + Z.of_nat (length rest) < 2 ^ 64 ->
  full_count fuel segs f cnt = Some (cnt + Z.of_nat (length rest)).
Proof.
  induction rest as [|e rest IH]; intros f fuel cnt Ha Hf Hc Hb; (destruct fuel as [|fuel]; [cbn in Hf; lia|]); cbn [full_count].
  - destruct Ha as [[_ ->]|(it & pk & _ & _ & ? & ? & ? & ? & ? & ? & ? & _ & _ & _ & _ & ?)]; [|done]. cbn. f_equal. lia.
  - destruct (full_next segs ms L Hix f e rest Ha) as (-> & _ & f' & -> & Ha'). cbn [mbind option_bind]. cbn [length] in *. rewrite u64_small by lia. rewrite (IH f' fuel) by (done || lia). f_equal. lia.
Qed.

Lemma table_log def t ss ps kv : table_ok def t ss ps -> kv ∈ index_map_ t -> exists segs ms, ss !! st_index kv.2 = Some segs /\ index_ok segs ms (put_entry kv.2 <$> ps).
Proof. intros Hok Hkv. destruct (to_log _ _ _ _ Hok kv Hkv) as (segs & Hs & ms & Hix). by exists segs, ms. Qed.

(** C21: a full scan of a table. Whatever rows are put into an initialised
    table, every put succeeds, and the iterator of the table meets every row
    once, with its bytes; the handler counts them. *)
Theorem table_full_scan (def : TableDef) (t : Table) (ps : list put_row) : Table_Init (Table_new false def) = (true, t) -> Forall (good_put (columns def)) ps ->
  exists t', put_all ps t = Some t' /\ let h := TabletTableHandler_new def t' in
    exists rows, rows ≡ₚ ((fun p => stored_row (pr_row p)) <$> ps) /\
      forall fuel, (length ps < fuel)%nat ->
        ('(segs, it) ← Tablet_GetIterator h; full_scan fuel segs it) = Some rows /\
        (Z.of_nat (length ps) < 2 ^ 64 -> Tablet_GetCount fuel h = Some (Z.of_nat (length ps))).
Proof.
  intros Hi Hg. destruct (table_init def t Hi) as (ss & Hok). destruct (table_puts def ps t ss [] Hok Hg) as (t' & ss' & E & Hok' & _). cbn [app] in Hok'.
  exists t'. split; [done|]. cbv zeta. destruct (to_first _ _ _ _ Hok') as (kv & Hkv & H0). destruct (table_log _ _ _ _ _ Hok' Hkv) as (segs & ms & Hs & Hix). rewrite H0 in Hs.
  destruct (full_start_ok segs ms _ Hix SEG_CNT 0 eq_refl) as (f & Ef & Hf). rewrite drop_0 in Hf. pose proof (io_rows _ _ _ Hix) as Hp. rewrite <- list_fmap_compose in Hp.
  assert (length (mjoin (dict_rows <$> ms)) = length ps) as Hl by (rewrite (Permutation_length Hp); by rewrite length_fmap).
  exists ((fun e => stored_row e.2) <$> mjoin (dict_rows <$> ms)). split; [rewrite Hp, <- list_fmap_compose; done|]. intros fuel Hfuel.
  unfold Tablet_GetCount, Tablet_GetIterator, index_segments, FullTableIterator_new, TabletTableHandler_new. cbn [table_]. rewrite (to_segments _ _ _ _ Hok'). cbn [mbind option_bind]. rewrite Hs. cbn [mbind option_bind]. rewrite Ef. cbn [mbind option_bind]. split.
  - apply (full_scan_ok segs ms _ Hix); [|done|lia]. rewrite Hp. apply Forall_fmap. eapply Forall_impl; [exact Hg|]. intros p. apply good_sized.
  - intros Hb. rewrite (full_count_ok segs ms _ Hix _ f fuel 0 Hf) by lia. rewrite Hl. f_equal.
Qed.

#[global] Instance Value_eq_dec : EqDecision Value.
Proof. solve_decision. Defined.

Definition key_values (ix : IndexSt) (vs : list (option Value)) : list (option Value) := column_value vs <$> keys ix.
(** The entries of rows under one key, newest first, the last put first among
    equal times. *)
Definition newest (ix : IndexSt) (ps : list put_row) : times :=
  foldl (fun l p => put tcmp (u64 (index_time ix (pr_values p) (pr_now p)), pr_row p) l) [] ps.

Lemma index_key_text ix vs : Forall (fun c => match column_value vs c with Some (VBool _) => False | _ => True end) (keys ix) -> index_key ix vs = keys_text (key_values ix vs).
Proof.
  unfold index_key, keys_text, key_values. generalize (@nil Z) as k. intros k Hn. revert k. induction Hn as [|c cs Hc Hn IH]; intros k; cbn [foldl fmap list_fmap]; [done|].
  rewrite <- IH. do 2 f_equal. unfold storage_text. destruct (column_value vs c) as [[]|]; done.
Qed.
Lemma newest_facts ix ps : newest_first (newest ix ps) /\ newest ix ps ≡ₚ (fun p => (put_entry ix p).2) <$> ps.
Proof.
  unfold newest. induction ps as [|p ps IH] using rev_ind; [split; [constructor|done]|]. rewrite foldl_app, fmap_app. cbn [foldl fmap list_fmap]. destruct IH as [IH1 IH2].
  split; [by apply (put_sorted tcmp)|]. rewrite put_perm, IH2. by rewrite Permutation_cons_append.
Qed.
Lemma times_of_puts ix k ps : times_of k (put_entry ix <$> ps) = newest ix (filter (fun p => index_key ix (pr_values p) = k) ps).
Proof.
  unfold times_of, newest. generalize (@nil (Z * list Z)) as l. induction ps as [|p ps IH]; intros l; [done|]. cbn [fmap list_fmap]. destruct (decide (index_key ix (pr_values p) = k)) as [Hk|Hk].
  - rewrite !filter_cons_True by done. cbn [foldl]. apply IH.
  - rewrite !filter_cons_False by done. apply IH.
Qed.
Lemma key_values_fit cols ix p : good_put cols p -> Forall (key_column cols) (keys ix) -> Forall2 (fun c v => value_fits (mkcol [] c.1) v) (keys ix) (key_values ix (pr_values p)).
Proof.
  intros [[[_ Hfit _ _ _] _] _] Hk. unfold key_values. induction Hk as [|c cs (Hp & col & Hc & Et & _) Hk IH]; cbn [fmap list_fmap]; constructor; [|done].
  unfold column_value. destruct (Forall2_lookup_l _ _ _ _ _ Hfit Hc) as (v & -> & Hv). cbn [default]. destruct v as [x|]; [|done]. cbn in *. by rewrite <- Et.
Qed.

Lemma init_hints_map def t : Table_Init (Table_new false def) = (true, t) -> init_hints (columns def) 0 (indexes def) [] = (true, index_map_ t).
Proof.
  unfold Table_Init, Table_new. cbn [table_def_ row_view_ index_map_ segments_]. destruct (init_indexes _ _ _ _) as [ok m] eqn:Ei. destruct ok; cbn [negb]; [|done].
  case_bool_decide as Hm; [done|]. intros [= <-]. cbn [index_map_]. destruct (init_indexes_ok _ _ _ _ _ Ei) as (_ & _ & H & _); [split; constructor|done|done].
Qed.
(** The key of a row is the text of its key values, and tells them apart. *)
Lemma put_key_text cols ix p : good_put cols p -> Forall (key_column cols) (keys ix) -> Forall (fun c => c.1 <> kBool) (keys ix) ->
  index_key ix (pr_values p) = keys_text (key_values ix (pr_values p)).
Proof.
  intros Hg Hcs Hb. apply index_key_text. pose proof (key_values_fit _ ix p Hg Hcs) as Hfit. unfold key_values in Hfit. rewrite Forall2_fmap_r in Hfit.
  clear -Hfit Hb. induction (keys ix) as [|c cs IH]; [constructor|]. apply Forall_cons_1 in Hb as [Hb Hbs]. apply Forall2_cons_1 in Hfit as [Hv Hfit].
  constructor; [|by apply IH]. unfold value_fits, compose in Hv. destruct (column_value (pr_values p) c) as [[]|]; try done. destruct Hv as [Hv _]. by cbn in Hv; symmetry in Hv.
Qed.
Lemma found_rows cols ix ps kvs : Forall (good_put cols) ps -> Forall (key_column cols) (keys ix) -> Forall (fun c => c.1 <> kBool) (keys ix) ->
  Forall (fun p => Forall plain (key_values ix (pr_values p))) ps -> Forall2 (fun c v => value_fits (mkcol [] c.1) v) (keys ix) kvs -> Forall plain kvs ->
  filter (fun p => index_key ix (pr_values p) = keys_text kvs) ps = filter (fun p => key_values ix (pr_values p) = kvs) ps.
Proof.
  intros Hg Hcs Hb Hp Hkf Hkp. induction Hg as [|p ps Hgp Hg IH]; [done|]. apply Forall_cons_1 in Hp as [Hpl Hp].
  assert (index_key ix (pr_values p) = keys_text kvs <-> key_values ix (pr_values p) = kvs) as Hiff.
  { rewrite (put_key_text cols) by done. split; [|by intros ->]. apply (keys_text_inj ((fun c => mkcol [] c.1) <$> keys ix)); try done; apply Forall2_fmap_l; [by eapply key_values_fit|done]. }
  destruct (decide (key_values ix (pr_values p) = kvs)); [rewrite !filter_cons_True|rewrite !filter_cons_False]; try tauto; by rewrite IH.
Qed.

(** C20: an index lookup. The handler of a segment, asked for the key text of
    some values, finds exactly the rows whose key columns have these values, the
    newest first (times compared as unsigned numbers) and of equal times the last
    put first; it answers with no
    iterator when there is none. The strings must not contain the separator or be
    reserved words, keys must be shorter than 4 GB, and no key column may be a
    boolean. *)
Theorem index_lookup (def : TableDef) (t : Table) (ps : list put_row) (idx : list Z) (ix : IndexSt) (kvs : list (option Value)) :
  Table_Init (Table_new false def) = (true, t) -> Forall (good_put (columns def)) ps -> map_find idx (index_map_ t) = Some ix ->
  Forall (fun c => c.1 <> kBool) (keys ix) ->
  Forall (fun p => Forall plain (key_values ix (pr_values p)) /\ Z.of_nat (length (index_key ix (pr_values p))) < 2 ^ 32) ps ->
  Forall2 (fun c v => value_fits (mkcol [] c.1) v) (keys ix) kvs -> Forall plain kvs -> Z.of_nat (length (keys_text kvs)) < 2 ^ 32 ->
  exists t' h it, put_all ps t = Some t' /\ Tablet_Init (TabletTableHandler_new def t') = (true, h) /\
    TabletSegment_GetIterator h idx (keys_text kvs) = Some it /\
    let found := filter (fun p => key_values ix (pr_values p) = kvs) ps in
    newest_first (newest ix found) /\ newest ix found ≡ₚ (fun p => (put_entry ix p).2) <$> found /\
    match it with
    | None => found = []
    | Some it => found <> [] /\ forall fuel, (length ps < fuel)%nat -> ts_scan fuel (lit_SeekToFirst it) = Some ((fun e => (e.1, stored_row e.2)) <$> newest ix found)
    end.
Proof.
  intros Hi Hg Hf Hb Hp Hkf Hkp Hks. destruct (table_init def t Hi) as (ss & Hok). destruct (table_puts def ps t ss [] Hok Hg) as (t' & ss' & E & Hok' & Em). cbn [app] in Hok'.
  pose proof (map_find_in _ _ _ Hf) as Hin. rewrite <- Em in Hin, Hf. destruct (table_log _ _ _ _ _ Hok' Hin) as (segs & ms & Hs & Hix). cbn [snd] in Hs, Hix.
  pose proof (init_hints_map def t Hi) as Hh. rewrite <- Em in Hh.
  set (h := mkTablet (columns def) (indexes def) t' (index_map_ t')). exists t', h.
  destruct (to_map _ _ _ _ Hok') as [Hm _]. rewrite Forall_forall in Hm. destruct (Hm _ Hin) as [[_ Hcs _] _]. cbn [snd] in Hcs.
  pose proof (found_rows (columns def) ix ps kvs Hg Hcs Hb (Forall_impl _ _ _ Hp (fun p H => proj1 H)) Hkf Hkp) as Hfl.
  destruct (segment_iterator segs ms _ Hix h idx (keys_text kvs) ix ss' Hf (to_segments _ _ _ _ Hok') Hs Hks) as (it & Eit & Hit).
  { apply Forall_fmap. eapply Forall_impl; [exact Hp|]. by intros p [_ ?]. }
  exists it. split_and!; [done|unfold Tablet_Init, TabletTableHandler_new; cbn [schema_ index_list_ index_hint_ table_]; by rewrite Hh|done|].
  rewrite times_of_puts, Hfl in Hit. destruct (newest_facts ix (filter (fun p => key_values ix (pr_values p) = kvs) ps)) as [N1 N2]. cbv zeta. split_and!; [done|done|].
  assert (length (newest ix (filter (fun p => key_values ix (pr_values p) = kvs) ps)) = length (filter (fun p => key_values ix (pr_values p) = kvs) ps)) as Hlen by (rewrite (Permutation_length N2); apply length_fmap).
  destruct it as [it|].
  - destruct Hit as (Hne & l & -> & Hl & Hc). split; [by intros E0; rewrite E0 in Hne|]. intros fuel Hfuel. apply (ts_scan_ok l); [done| |by rewrite <- Hc; apply at_first|].
    + rewrite N2. apply Forall_fmap, Forall_forall. intros p Hpin. apply list_elem_of_filter in Hpin as [_ Hpin]. rewrite Forall_forall in Hg. cbn. by eapply good_sized, Hg.
    + rewrite Hlen. pose proof (length_filter (fun p => key_values ix (pr_values p) = kvs) ps). lia.
  - rewrite Hit in Hlen. by apply nil_length_inv.
Qed.

(** ** A table of one index *)

Module SampleStorage.
Definition cols : list ColumnDef := [mkcol [107] kVarchar; mkcol [116] kInt64].
Definition def : TableDef := mkTableDef cols [mkIndexDef [105] [[107]] [116]].
Definition values (s : list Z) (ts : Z) : list (option Value) := [Some (VString s); Some (VInt64 ts)].
Definition bytes (s : list Z) (ts : Z) : list Z := default [] (encode_row cols (values s ts) (replicate (16 + length s) 0)).
Definition a_row (s : list Z) (ts : Z) : put_row := mkPut (values s ts) (bytes s ts) 0.
Definition t0 : Table := (Table_Init (Table_new false def)).2.
Definition ix0 : IndexSt := mkIndexSt [105] 0 1 [(kVarchar, 0)].
Definition ps : list put_row := [a_row [97] 5; a_row [98] 7; a_row [97] 9].

Lemma a_row_good s ts : s = [97] \/ s = [98] -> ts = 5 \/ ts = 7 \/ ts = 9 -> good_put cols (a_row s ts).
Proof.
  intros [-> | ->] [->|[->| ->]]; (split; [|vm_compute; reflexivity]);
    (apply (encode_encodes _ _ (replicate 17 0)); [constructor; [repeat constructor; done|repeat constructor; cbn; lia|done|done|vm_compute; done]|vm_compute; done|vm_compute; reflexivity]).
Qed.
Lemma ps_good : Forall (good_put cols) ps.
Proof. apply Forall_cons_2; [|apply Forall_cons_2; [|apply Forall_cons_2; [|apply Forall_nil_2]]]; apply a_row_good; auto. Qed.
Lemma a_plain : plain (Some (VString [97])).
Proof. split_and!; [|done|done]. intros H. repeat (apply elem_of_cons in H as [H|H]; [done|]). by apply elem_of_nil in H. Qed.
Lemma b_plain : plain (Some (VString [98])).
Proof. split_and!; [|done|done]. intros H. repeat (apply elem_of_cons in H as [H|H]; [done|]). by apply elem_of_nil in H. Qed.

Lemma table_full_scan_witness : exists t', put_all ps t0 = Some t' /\ Tablet_GetCount 4 (TabletTableHandler_new def t') = Some 3.
Proof.
  destruct (table_full_scan def t0 ps eq_refl ps_good) as (t' & E & rows & _ & H). exists t'. split; [exact E|]. apply (H 4%nat); [cbn; lia|reflexivity].
Defined.
Lemma index_lookup_witness : exists t' h it, put_all ps t0 = Some t' /\ Tablet_Init (TabletTableHandler_new def t') = (true, h) /\
  TabletSegment_GetIterator h [105] [97] = Some (Some it) /\ ts_scan 4 (lit_SeekToFirst it) = Some [(9, stored_row (bytes [97] 9)); (5, stored_row (bytes [97] 5))].
Proof.
  destruct (index_lookup def t0 ps [105] ix0 [Some (VString [97])] eq_refl ps_good eq_refl) as (t' & h & it & E & Eh & Eit & _ & _ & H).
  - repeat constructor. discriminate.
  - apply Forall_cons_2; [|apply Forall_cons_2; [|apply Forall_cons_2; [|constructor]]]; (split; [apply Forall_singleton; exact a_plain || exact b_plain|vm_compute; reflexivity]).
  - repeat constructor; reflexivity.
  - apply Forall_singleton. exact a_plain.
  - reflexivity.
  - exists t', h. destruct it as [it|]; [|exfalso; vm_compute in H; discriminate]. exists it. destruct H as [_ H]. split; [exact E|]. split; [exact Eh|]. split; [exact Eit|].
    rewrite (H 4%nat ltac:(cbn; lia)). vm_compute. reflexivity.
Defined.

Definition handler (d : TableDef) (t : Table) : TabletTableHandler := (Tablet_Init (TabletTableHandler_new d t)).2.

(** The handler of a segment counts the rows of a new iterator, which is not at
    the first row yet: the count is 0 although there are rows, and undefined for
    a key that is not there. *)
Theorem segment_count_zero : exists t', put_all ps t0 = Some t' /\
  TabletSegment_GetCount 9 (handler def t') [105] [97] = Some 0 /\ TabletSegment_GetCount 9 (handler def t') [105] [99] = None.
Proof. eexists. split; [vm_compute; reflexivity|]. split; vm_compute; reflexivity. Qed.
(** After [Seek] to the key of a later segment, [Next] goes on from the segment
    where the iterator was before, and meets the key again. *)
Theorem window_seek_repeats : exists t' segs w w1 w2, put_all ps t0 = Some t' /\ Tablet_GetWindowIterator (handler def t') [105] = Some (Some (segs, w)) /\
  Window_Seek segs [98] w = Some w1 /\ Window_Next segs SEG_CNT w1 = Some w2 /\
  Window_GetKey segs w1 = Some (Row_of_string [98]) /\ Window_GetKey segs w2 = Some (Row_of_string [98]).
Proof. do 5 eexists. do 4 (split; [vm_compute; reflexivity|]). split; vm_compute; reflexivity. Qed.

(** An index on a boolean column: the storage has one key text for both values,
    and no lookup finds the rows. *)
Definition bool_def : TableDef := mkTableDef [mkcol [107] kBool; mkcol [116] kInt64] [mkIndexDef [105] [[107]] [116]].
Definition bool_row (b : bool) : list Z := default [] (encode_row (columns bool_def) [Some (VBool b); Some (VInt64 1)] (replicate 16 0)).
Theorem bool_index_lost : exists t t1 t2, Table_Init (Table_new false bool_def) = (true, t) /\
  Table_Put false (bool_row true) 16 0 t = Some (true, t1) /\ Table_Put false (bool_row false) 16 0 t1 = Some (true, t2) /\
  TabletSegment_GetIterator (handler bool_def t2) [105] (keys_text [Some (VBool true)]) = Some None /\
  TabletSegment_GetIterator (handler bool_def t2) [105] (keys_text [Some (VBool false)]) = Some None /\
  Tablet_GetCount 9 (handler bool_def t2) = Some 2 /\ TabletPartition_GetCount 9 (handler bool_def t2) [105] = Some 1.
Proof. do 3 eexists. do 3 (split; [vm_compute; reflexivity|]). split_and!; vm_compute; reflexivity. Qed.
End SampleStorage.
