(* ===== verification/FeatureZero.v ===== *)
(** * The feature functions of the library

    Models [src/udf/default_defs/feature_zero_def.cc]: lists of strings made by
    splitting strings and columns of strings, joining them, and the frequency of
    keys. A string reference is its bytes, NULL is [None]. Strings are shorter
    than 2^31 bytes.

    Delimiters of several characters are regular expressions of boost:
    [compile_regex] may throw ([None]), [split_regex] splits. *)

From stdpp Require Import base numbers option list sorting.
From S2P Require Import Prelude FnGenerators Containers ContainersProof.

(** ** Lists of strings *)

Definition MAXIMUM_STRING_LENGTH : Z := 4096.
Record MutableStringListV := mkStrings { buffer_ : list (list Z); total_len_ : Z }.
Definition strings_new : MutableStringListV := mkStrings [] 0.
Definition strings_GetCount (l : MutableStringListV) : Z := Z.of_nat (length (buffer_ l)).
Definition strings_At (l : MutableStringListV) (pos : nat) : option (list Z) := buffer_ l !! pos.
Definition Add (str : list Z) (l : MutableStringListV) : MutableStringListV :=
  if u64 (total_len_ l + Z.of_nat (length str)) >? MAXIMUM_STRING_LENGTH then l
  else mkStrings (buffer_ l ++ [str]) (u64 (total_len_ l + Z.of_nat (length str))).

(** [MutableStringListVIterator]: the position and the value it hands out. *)
Record strings_it := mkIt { si_buffer : list (list Z); si_pos : nat; si_tmp : list Z }.
Definition si_Valid (it : strings_it) : bool := negb (si_pos it =? length (si_buffer it))%nat.
Definition refresh (it : strings_it) : strings_it :=
  if si_Valid it then mkIt (si_buffer it) (si_pos it) (default [] (si_buffer it !! si_pos it)) else it.
Definition si_new (buffer : list (list Z)) : strings_it := refresh (mkIt buffer 0 []).
Definition si_Next (it : strings_it) : strings_it := refresh (mkIt (si_buffer it) (S (si_pos it)) (si_tmp it)).
Definition si_GetValue (it : strings_it) : list Z := si_tmp it.
Definition si_SeekToFirst (it : strings_it) : strings_it := refresh (mkIt (si_buffer it) 0 (si_tmp it)).
(** [Seek] does not refresh the value. *)
Definition si_Seek (key : nat) (it : strings_it) : strings_it :=
  mkIt (si_buffer it) (if (length (si_buffer it) <=? key)%nat then length (si_buffer it) else key) (si_tmp it).

(** ** Splitting *)

(** [std::string(begin, cur - begin)]. *)
Definition sub (s : list Z) (begin cur : nat) : list Z := take (cur - begin) (drop begin s).

Section Split.
Context {regex : Type} (compile_regex : list Z -> option regex) (split_regex : regex -> list Z -> list (list Z)).

Record StringSplitState := mkSplit { list_ : MutableStringListV; delims_ : option regex * option regex; delims_compiled_ : bool }.
Definition InitList : StringSplitState := mkSplit strings_new (None, None) false.
Definition with_list (l : MutableStringListV) (st : StringSplitState) : StringSplitState := mkSplit l (delims_ st) (delims_compiled_ st).
Definition add_all (ps : list (list Z)) (l : MutableStringListV) : MutableStringListV := foldl (fun l p => Add p l) l ps.

Fixpoint split_loop (d : Z) (s rest : list Z) (begin cur : nat) (l : MutableStringListV) : nat * nat * MutableStringListV :=
  match rest with
  | [] => (begin, cur, l)
  | c :: rest' => if c =? d then split_loop d s rest' (S cur) (S cur) (Add (sub s begin cur) l) else split_loop d s rest' begin (S cur) l
  end.
Definition UpdateSplit (str : option (list Z)) (delimeter : list Z) (st : StringSplitState) : option StringSplitState :=
  match str with
  | None => Some st
  | Some s =>
      match delimeter with
      | [] => Some st
      | [d] =>
          let '(begin, cur, l) := split_loop d s s 0 0 (list_ st) in
          Some (with_list (if (begin =? cur)%nat then Add [] l else Add (sub s begin cur) l) st)
      | _ =>
          st ← (if delims_compiled_ st then Some st else r ← compile_regex delimeter; Some (mkSplit (list_ st) (Some r, (delims_ st).2) true));
          r ← (delims_ st).1;
          Some (with_list (add_all (split_regex r s) (list_ st)) st)
      end
  end.

Fixpoint key_loop (d1 d2 : Z) (s rest : list Z) (begin cur : nat) (part_found : bool) (l : MutableStringListV) : MutableStringListV :=
  match rest with
  | [] => l
  | c :: rest' =>
      if c =? d1 then key_loop d1 d2 s rest' (S cur) (S cur) false l
      else if (c =? d2) && negb part_found then key_loop d1 d2 s rest' begin (S cur) true (Add (sub s begin cur) l)
      else key_loop d1 d2 s rest' begin (S cur) part_found l
  end.
(** The regular expressions of both delimiters, compiled at the first use. *)
Definition compile_both (delimeter kv_delimeter : list Z) (st : StringSplitState) : option StringSplitState :=
  if delims_compiled_ st then Some st
  else r1 ← compile_regex delimeter; r2 ← compile_regex kv_delimeter; Some (mkSplit (list_ st) (Some r1, Some r2) true).
(** [sub_parts[i]] of every part that has at least two. *)
Definition sub_parts_at (i : nat) (r1 r2 : regex) (s : list Z) : list (list Z) :=
  omap (fun part => let sub_parts := split_regex r2 part in if (2 <=? length sub_parts)%nat then sub_parts !! i else None) (split_regex r1 s).
Definition UpdateSplitByKey (str : option (list Z)) (delimeter kv_delimeter : list Z) (st : StringSplitState) : option StringSplitState :=
  match str with
  | None => Some st
  | Some s =>
      match delimeter, kv_delimeter with
      | [], _ | _, [] => Some st
      | [d1], [d2] => Some (with_list (key_loop d1 d2 s s 0 0 false (list_ st)) st)
      | _, _ =>
          st ← compile_both delimeter kv_delimeter st;
          r1 ← (delims_ st).1; r2 ← (delims_ st).2;
          Some (with_list (add_all (sub_parts_at 0 r1 r2 s) (list_ st)) st)
      end
  end.

Fixpoint value_loop (d1 d2 : Z) (s rest : list Z) (begin cur cur_parts : nat) (l : MutableStringListV) : nat * nat * nat * MutableStringListV :=
  match rest with
  | [] => (begin, cur, cur_parts, l)
  | c :: rest' =>
      if c =? d1 then value_loop d1 d2 s rest' begin (S cur) 0 (if (cur_parts =? 1)%nat then Add (sub s begin cur) l else l)
      else if c =? d2 then
        let cur_parts := S cur_parts in
        if (cur_parts =? 1)%nat then value_loop d1 d2 s rest' (S cur) (S cur) cur_parts l
        else if (cur_parts =? 2)%nat then value_loop d1 d2 s rest' begin (S cur) cur_parts (Add (sub s begin cur) l)
        else value_loop d1 d2 s rest' begin (S cur) cur_parts l
      else value_loop d1 d2 s rest' begin (S cur) cur_parts l
  end.
Definition UpdateSplitByValue (str : option (list Z)) (delimeter kv_delimeter : list Z) (st : StringSplitState) : option StringSplitState :=
  match str with
  | None => Some st
  | Some s =>
      match delimeter, kv_delimeter with
      | [], _ | _, [] => Some st
      | [d1], [d2] =>
          let '(begin, cur, cur_parts, l) := value_loop d1 d2 s s 0 0 0 (list_ st) in
          Some (with_list (if (cur_parts =? 1)%nat then (if (cur =? begin)%nat then Add [] l else Add (sub s begin cur) l) else l) st)
      | _, _ =>
          st ← compile_both delimeter kv_delimeter st;
          r1 ← (delims_ st).1; r2 ← (delims_ st).2;
          Some (with_list (add_all (sub_parts_at 1 r1 r2 s) (list_ st)) st)
      end
  end.

(** The functions on one string. *)
Definition SingleSplit (str : option (list Z)) (delimeter : list Z) : option MutableStringListV := list_ <$> UpdateSplit str delimeter InitList.
Definition SingleSplitByKey (str : option (list Z)) (delimeter kv_delimeter : list Z) : option MutableStringListV :=
  list_ <$> UpdateSplitByKey str delimeter kv_delimeter InitList.
Definition SingleSplitByValue (str : option (list Z)) (delimeter kv_delimeter : list Z) : option MutableStringListV :=
  list_ <$> UpdateSplitByValue str delimeter kv_delimeter InitList.
(** The aggregate over the rows of a window. *)
Fixpoint window_split (rows : list (option (list Z))) (delimeter : list Z) (st : StringSplitState) : option StringSplitState :=
  match rows with [] => Some st | r :: rows' => st' ← UpdateSplit r delimeter st; window_split rows' delimeter st' end.
End Split.

(** ** Joining *)

Fixpoint join_bytes (fuel : nat) (delim : list Z) (it : strings_it) (bytes : Z) : option Z :=
  match fuel with
  | O => None
  | S fuel' =>
      if si_Valid it then
        let bytes := u64 (bytes + Z.of_nat (length (si_GetValue it))) in
        let it := si_Next it in
        join_bytes fuel' delim it (if si_Valid it then u64 (bytes + Z.of_nat (length delim)) else bytes)
      else Some bytes
  end.
Fixpoint join_copy (fuel : nat) (delim : list Z) (it : strings_it) (buf : mem) (offset : Z) : option mem :=
  match fuel with
  | O => None
  | S fuel' =>
      if si_Valid it then
        let next := si_GetValue it in
        buf ← store buf offset next;
        let offset := u64 (offset + Z.of_nat (length next)) in
        let it := si_Next it in
        if si_Valid it then buf ← store buf offset delim; join_copy fuel' delim it buf (u64 (offset + Z.of_nat (length delim)))
        else join_copy fuel' delim it buf offset
      else Some buf
  end.
Definition StringJoin (alloc : nat -> mem) (l : MutableStringListV) (delim : list Z) : option (list Z) :=
  let fuel := S (length (buffer_ l)) in
  bytes ← join_bytes fuel delim (si_new (buffer_ l)) 0;
  buf ← AllocManagedStringBuf alloc (u64 (bytes + 1));
  buf ← store buf bytes [0];
  buf ← join_copy fuel delim (si_SeekToFirst (si_new (buffer_ l))) buf 0;
  load buf 0 (Z.to_nat (u32 bytes)).

(** ** Frequencies *)

Section Frequency.
Context {K : Type} (ltb : K -> K -> bool) (raw : bool) (text : K -> list Z).

Definition count_key (key : K) (m : list (K * Z)) : list (K * Z) := map_alter ltb key (fun o => match o with None => 1 | Some n => i64 (n + 1) end) m.

(** [FZTop1Ratio]; the division is the machine's. *)
Definition Top1Ratio_Update (key : option K) (m : list (K * Z)) : list (K * Z) := match key with None => m | Some k => count_key k m end.
Definition top1_counts (m : list (K * Z)) : Z * Z :=
  foldl (fun '(max, size) e => (if e.2 >? max then i32 e.2 else max, i32 (size + e.2))) (0, 0) m.
Definition Top1Ratio_Output {D : Type} (zero : D) (fdiv : Z -> Z -> D) (m : list (K * Z)) : D :=
  match m with [] => zero | _ => let '(max, size) := top1_counts m in fdiv max size end.

(** [FZTopNFrequency]. *)
Definition MAXIMUM_TOPN : Z := 1024.
Record TopNContainer := mkTopN { n_map : list (K * Z); top_n_ : Z }.
Definition TopN_Init : TopNContainer := mkTopN [] 0.
Definition TopNFrequency_Update (key : option K) (top_n : Z) (c : TopNContainer) : TopNContainer :=
  mkTopN (match key with None => n_map c | Some k => count_key k (n_map c) end) (u64 top_n).
(** The comparator of the queue, and the entry at its top. *)
Definition cmp (x y : K * Z) : bool := if x.2 <? y.2 then true else if x.2 =? y.2 then ltb y.1 x.1 else false.
Fixpoint queue_top (q : list (K * Z)) : option (K * Z * list (K * Z)) :=
  match q with
  | [] => None
  | e :: q' => match queue_top q' with None => Some (e, []) | Some (t, r) => if cmp e t then Some (t, e :: r) else Some (e, t :: r) end
  end.
Fixpoint pop_keys (n : nat) (q : list (K * Z)) : list K :=
  match n with O => [] | S n' => match queue_top q with None => [] | Some (t, r) => t.1 :: pop_keys n' r end end.
Definition topn_len (top_n : nat) (keys : list K) : Z :=
  foldl (fun str_len i => u32 (str_len + match keys !! i with Some k => Z.of_nat (length (text k)) + 1 | None => 5 end)) 0 (seq 0 top_n).
Fixpoint fill_topn (slots : list (option K)) (b : mem) (cur remain : Z) : option mem :=
  match slots with
  | [] => Some b
  | s :: slots' =>
      '(b1, key_len) ← match s with
                       | Some k => format_string raw (text k) b cur remain
                       | None => b ← store b cur [78; 85; 76; 76; 0]; Some (b, 4)
                       end;
      b2 ← store b1 (cur + key_len) [44];
      fill_topn slots' b2 (cur + key_len + 1) (u32 (remain - (key_len + 1)))
  end.
Definition TopNFrequency_Output (alloc : nat -> mem) (c : TopNContainer) : option (list Z) :=
  if top_n_ c =? 0 then Some []
  else
    let top_n := Z.to_nat (if top_n_ c <? MAXIMUM_TOPN then top_n_ c else MAXIMUM_TOPN) in
    let keys := pop_keys top_n (n_map c) in
    let str_len := topn_len top_n keys in
    buffer ← AllocManagedStringBuf alloc str_len;
    b ← fill_topn ((fun i => keys !! i) <$> seq 0 top_n) buffer 0 str_len;
    finish b str_len.
End Frequency.

(** * Splitting, joining and counting strings

    The loops over characters are compared with the plain definition of
    splitting at a character; keys and values of pairs with splitting twice, as
    the code does for delimiters of several characters. *)

(** ** Splitting at a character *)

Fixpoint split_on (d : Z) (s : list Z) : list (list Z) :=
  match s with
  | [] => [[]]
  | c :: s' => if c =? d then [] :: split_on d s' else match split_on d s' with p :: ps => (c :: p) :: ps | [] => [[c]] end
  end.
(** The parts when [p] stands before the string. *)
Definition prefixed (p : list Z) (ps : list (list Z)) : list (list Z) := match ps with q :: ps' => (p ++ q) :: ps' | [] => [p] end.

Lemma split_on_some d s : exists p ps, split_on d s = p :: ps.
Proof. destruct s as [|c s]; cbn; [eauto|]. destruct (c =? d); [eauto|]. destruct (split_on d s); eauto. Qed.
Lemma split_on_cons d c s : split_on d (c :: s) = if c =? d then [] :: split_on d s else prefixed [c] (split_on d s).
Proof. cbn. destruct (c =? d); [done|]. by destruct (split_on d s). Qed.
Lemma prefixed_nil d s : prefixed [] (split_on d s) = split_on d s.
Proof. by destruct (split_on_some d s) as (p & ps & ->). Qed.
Lemma prefixed_snoc p c d s : prefixed p (prefixed [c] (split_on d s)) = prefixed (p ++ [c]) (split_on d s).
Proof. destruct (split_on_some d s) as (q & ps & ->). cbn. by rewrite <- app_assoc. Qed.
Lemma split_on_app d p s : d ∉ p -> split_on d (p ++ s) = prefixed p (split_on d s).
Proof.
  induction p as [|c p IH]; intros Hp; cbn [app]; [by rewrite prefixed_nil|]. apply not_elem_of_cons in Hp as [Hc Hp]. rewrite split_on_cons, (proj2 (Z.eqb_neq _ _)) by done.
  rewrite IH by done. destruct (split_on_some d s) as (q & ps & ->). done.
Qed.
Lemma split_parts d s : Forall (fun p => d ∉ p) (split_on d s).
Proof.
  induction s as [|c s IH]; cbn [split_on]; [repeat constructor; apply not_elem_of_nil|]. destruct (Z.eqb_spec c d) as [|Hc]; [constructor; [apply not_elem_of_nil|done]|].
  destruct (split_on d s) as [|p ps]; [by repeat constructor; apply not_elem_of_cons; split; [intros ->|apply not_elem_of_nil]|].
  apply Forall_cons_1 in IH as [Hp IH]. constructor; [|done]. by apply not_elem_of_cons.
Qed.

(** Joined again. *)
Fixpoint join_with (d : list Z) (ps : list (list Z)) : list Z :=
  match ps with [] => [] | [p] => p | p :: ps' => p ++ d ++ join_with d ps' end.
Lemma join_with_cons d p q ps : join_with d (p :: q :: ps) = p ++ d ++ join_with d (q :: ps).
Proof. done. Qed.
Lemma join_split_on d s : join_with [d] (split_on d s) = s.
Proof.
  induction s as [|c s IH]; cbn [split_on]; [done|]. destruct (split_on_some d s) as (p & ps & E). rewrite E in *. destruct (Z.eqb_spec c d) as [->|Hc].
  - rewrite join_with_cons, IH. done.
  - destruct ps as [|q ps]; cbn [join_with app] in *; by rewrite IH.
Qed.
Lemma split_join d ps : ps <> [] -> Forall (fun p => d ∉ p) ps -> split_on d (join_with [d] ps) = ps.
Proof.
  intros Hne H. induction H as [|p ps Hp H IH]; [done|]. destruct ps as [|q ps].
  - cbn [join_with]. rewrite <- (app_nil_r p) at 1. rewrite split_on_app by done. cbn. by rewrite app_nil_r.
  - rewrite join_with_cons, split_on_app by done. cbn [app]. rewrite split_on_cons, Z.eqb_refl, IH by done. cbn. by rewrite app_nil_r.
Qed.
Lemma mjoin_cons {A} (x : list A) xs : mjoin (x :: xs) = x ++ mjoin xs.
Proof. done. Qed.
Lemma length_split d s : Z.of_nat (length (mjoin (split_on d s))) <= Z.of_nat (length s).
Proof.
  induction s as [|c s IH]; cbn [split_on]; [done|]. destruct (c =? d); [rewrite mjoin_cons; cbn [app length]; lia|]. destruct (split_on_some d s) as (p & ps & E). rewrite E in *. rewrite !mjoin_cons, !length_app in *. cbn [length]. lia.
Qed.

(** ** The list *)

Lemma add_room str l : 0 <= total_len_ l -> total_len_ l + Z.of_nat (length str) <= MAXIMUM_STRING_LENGTH ->
  Add str l = mkStrings (buffer_ l ++ [str]) (total_len_ l + Z.of_nat (length str)).
Proof. intros H0 H. unfold Add, MAXIMUM_STRING_LENGTH in *. rewrite u64_small by lia. rewrite Z.gtb_ltb, (proj2 (Z.ltb_ge _ _)) by lia. done. Qed.
Lemma add_all_room ps l : 0 <= total_len_ l -> total_len_ l + Z.of_nat (length (mjoin ps)) <= MAXIMUM_STRING_LENGTH ->
  add_all ps l = mkStrings (buffer_ l ++ ps) (total_len_ l + Z.of_nat (length (mjoin ps))).
Proof.
  revert l. induction ps as [|p ps IH]; intros l H0 H; cbn [add_all foldl].
  - cbn. rewrite app_nil_r, Z.add_0_r. by destruct l.
  - rewrite mjoin_cons, length_app in *. fold (add_all ps (Add p l)). rewrite add_room by lia. rewrite IH; cbn [buffer_ total_len_]; [|lia..].
    rewrite <- app_assoc. f_equal. lia.
Qed.
(** The list never holds more than the limit. *)
Definition strings_ok (l : MutableStringListV) : Prop := total_len_ l = Z.of_nat (length (mjoin (buffer_ l))) /\ total_len_ l <= MAXIMUM_STRING_LENGTH.
Lemma add_ok str l : strings_ok l -> Z.of_nat (length str) < 2 ^ 32 -> strings_ok (Add str l).
Proof.
  intros [Ht Hm] Hs. unfold Add, MAXIMUM_STRING_LENGTH, strings_ok in *. rewrite u64_small by lia. rewrite Z.gtb_ltb. destruct (Z.ltb_spec 4096 (total_len_ l + Z.of_nat (length str))); [done|].
  cbn [buffer_ total_len_]. rewrite join_app, mjoin_cons, !length_app. change (length (mjoin [] : list Z)) with O. unfold MAXIMUM_STRING_LENGTH. lia.
Qed.

(** ** The loops *)

Lemma sub_snoc s begin cur c rest : (begin <= cur)%nat -> drop cur s = c :: rest -> sub s begin (S cur) = sub s begin cur ++ [c].
Proof.
  intros Hb Hd. unfold sub. assert (s !! cur = Some c) as Hc by (rewrite <- (Nat.add_0_r cur), <- lookup_drop, Hd; done).
  replace (S cur - begin)%nat with (S (cur - begin)) by lia. apply take_S_r. rewrite lookup_drop. by replace (begin + (cur - begin))%nat with cur by lia.
Qed.
Lemma sub_nil s x : sub s x x = [].
Proof. unfold sub. by rewrite Nat.sub_diag. Qed.
Lemma drop_next {A} (s : list A) cur c rest : drop cur s = c :: rest -> drop (S cur) s = rest.
Proof. intros H. rewrite <- Nat.add_1_r, <- drop_drop, H. done. Qed.

Lemma split_loop_ok d s rest : forall begin cur l, drop cur s = rest -> (begin <= cur)%nat ->
  exists b c l', split_loop d s rest begin cur l = (b, c, l') /\ Add (sub s b c) l' = add_all (prefixed (sub s begin cur) (split_on d rest)) l.
Proof.
  induction rest as [|x rest IH]; intros begin cur l Hd Hb; cbn [split_loop].
  - do 3 eexists. split; [done|]. cbn. by rewrite app_nil_r.
  - rewrite split_on_cons. destruct (Z.eqb_spec x d) as [->|Hx].
    + destruct (IH (S cur) (S cur) (Add (sub s begin cur) l)) as (b & c & l' & -> & E); [by eapply drop_next|lia|]. do 3 eexists. split; [done|]. rewrite E, sub_nil, prefixed_nil. cbn. by rewrite app_nil_r.
    + destruct (IH begin (S cur) l) as (b & c & l' & -> & E); [by eapply drop_next|lia|]. do 3 eexists. split; [done|]. rewrite E, prefixed_snoc. by rewrite (sub_snoc s begin cur x rest).
Qed.

(** Splitting twice. *)
Definition part_at (d2 : Z) (i : nat) (part : list Z) : option (list Z) := if (2 <=? length (split_on d2 part))%nat then split_on d2 part !! i else None.
Lemma part_none d2 i p : d2 ∉ p -> part_at d2 i p = None.
Proof. intros Hp. unfold part_at. rewrite <- (app_nil_r p), split_on_app by done. done. Qed.
Lemma part_key d2 p q : d2 ∉ p -> part_at d2 0 (p ++ d2 :: q) = Some p.
Proof. intros Hp. unfold part_at. rewrite split_on_app, split_on_cons, Z.eqb_refl by done. destruct (split_on_some d2 q) as (x & xs & ->). cbn. by rewrite app_nil_r. Qed.
Lemma part_value d2 p q : d2 ∉ p -> part_at d2 1 (p ++ d2 :: q) = head (split_on d2 q).
Proof. intros Hp. unfold part_at. rewrite split_on_app, split_on_cons, Z.eqb_refl by done. by destruct (split_on_some d2 q) as (x & xs & ->). Qed.
Lemma part_skip d2 p q : d2 ∉ p -> part_at d2 1 (p ++ q) = part_at d2 1 q.
Proof. intros Hp. unfold part_at. rewrite split_on_app by done. by destruct (split_on_some d2 q) as (x & xs & ->). Qed.

Lemma key_loop_ok d1 d2 s rest : forall begin cur found l, drop cur s = rest -> (begin <= cur)%nat -> (found = false -> d2 ∉ sub s begin cur) ->
  key_loop d1 d2 s rest begin cur found l =
  add_all (omap (part_at d2 0) (if found then tail (split_on d1 rest) else prefixed (sub s begin cur) (split_on d1 rest))) l.
Proof.
  induction rest as [|x rest IH]; intros begin cur found l Hd Hb Hf; cbn [key_loop].
  - destruct found; cbn; [done|]. rewrite app_nil_r, part_none by auto. done.
  - rewrite split_on_cons. pose proof (sub_snoc s begin cur x rest Hb Hd) as Hsub. pose proof (drop_next _ _ _ _ Hd) as Hd'. destruct (Z.eqb_spec x d1) as [->|Hx].
    + rewrite IH by (done || lia || (intros _; rewrite sub_nil; apply not_elem_of_nil)). rewrite sub_nil, prefixed_nil. destruct found; cbn; [done|]. rewrite app_nil_r, part_none by auto. done.
    + destruct (split_on_some d1 rest) as (q & ps & Eq). destruct (Z.eqb_spec x d2) as [->|Hx2]; cbn [andb].
      * destruct found; cbn [negb]; (rewrite IH by (done || lia)); rewrite Eq; cbn [prefixed tail omap list_omap app]; [done|]. rewrite part_key by auto. done.
      * rewrite IH; [|done|lia|]; [|intros ->; rewrite Hsub; intros [?|?%list_elem_of_singleton]%elem_of_app; [by apply Hf|done]].
        rewrite Eq. destruct found; cbn [prefixed tail]; [done|]. rewrite Hsub, <- app_assoc. done.
Qed.

Definition upto (d : Z) (q : list Z) : list Z := default [] (head (split_on d q)).
Lemma upto_head d q : head (split_on d q) = Some (upto d q).
Proof. unfold upto. by destruct (split_on_some d q) as (x & xs & ->). Qed.
Lemma upto_cons d c q : upto d (c :: q) = if c =? d then [] else c :: upto d q.
Proof. unfold upto. rewrite split_on_cons. destruct (c =? d); [done|]. by destruct (split_on_some d q) as (x & xs & ->). Qed.
(** The values still to be added, with [n] delimiters in the current part and
    [v] the text since the first. *)
Definition values_left (d2 : Z) (n : nat) (v : list Z) (parts : list (list Z)) : list (list Z) :=
  match n, parts with
  | O, _ => omap (part_at d2 1) parts
  | 1%nat, q :: ps => (v ++ upto d2 q) :: omap (part_at d2 1) ps
  | _, _ => omap (part_at d2 1) (tail parts)
  end.
Lemma value_loop_ok d1 d2 s rest : forall begin cur n l, drop cur s = rest -> (begin <= cur)%nat ->
  exists b c n' l', value_loop d1 d2 s rest begin cur n l = (b, c, n', l') /\
    (if (n' =? 1)%nat then Add (sub s b c) l' else l') = add_all (values_left d2 n (sub s begin cur) (split_on d1 rest)) l.
Proof.
  induction rest as [|x rest IH]; intros begin cur n l Hd Hb; cbn [value_loop].
  - do 4 eexists. split; [done|]. destruct n as [|[|n]]; cbn; [done| |done]. by rewrite app_nil_r.
  - rewrite split_on_cons. pose proof (sub_snoc s begin cur x rest Hb Hd) as Hsub. pose proof (drop_next _ _ _ _ Hd) as Hd'. destruct (Z.eqb_spec x d1) as [->|Hx].
    + destruct (IH begin (S cur) O (if (n =? 1)%nat then Add (sub s begin cur) l else l) Hd' ltac:(lia)) as (b & c & n' & l' & -> & E). do 4 eexists. split; [done|]. rewrite E.
      destruct n as [|[|n]]; cbn [Nat.eqb values_left]; [|change (upto d2 []) with (@nil Z); rewrite app_nil_r|]; done.
    + destruct (split_on_some d1 rest) as (q & ps & Eq). rewrite Eq. cbn [prefixed app]. destruct (Z.eqb_spec x d2) as [->|Hx2].
      * destruct n as [|[|n]]; cbn [Nat.eqb].
        -- destruct (IH (S cur) (S cur) 1%nat l Hd' ltac:(lia)) as (b & c & n' & l' & -> & E). do 4 eexists. split; [done|]. rewrite E, Eq, sub_nil. cbn [values_left omap list_omap app].
           pose proof (part_value d2 [] q (not_elem_of_nil _)) as Hv. cbn [app] in Hv. by rewrite Hv, upto_head.
        -- destruct (IH begin (S cur) 2%nat (Add (sub s begin cur) l) Hd' ltac:(lia)) as (b & c & n' & l' & -> & E). do 4 eexists. split; [done|]. rewrite E, Eq. cbn [values_left tail].
           rewrite upto_cons, Z.eqb_refl, app_nil_r. done.
        -- destruct (IH begin (S cur) (S (S (S n))) l Hd' ltac:(lia)) as (b & c & n' & l' & -> & E). do 4 eexists. split; [done|]. rewrite E, Eq. done.
      * destruct (IH begin (S cur) n l Hd' ltac:(lia)) as (b & c & n' & l' & -> & E). do 4 eexists. split; [done|]. rewrite E, Eq. destruct n as [|[|n]]; cbn [values_left tail omap list_omap]; [|rewrite upto_cons, (proj2 (Z.eqb_neq x d2)), Hsub, <- app_assoc by done; done|done].
        pose proof (part_skip d2 [x] q ltac:(intros ?%list_elem_of_singleton; done)) as Hk. cbn [app] in Hk. by rewrite Hk.
Qed.

Lemma omap_eq {A B} (f g : A -> option B) (l : list A) : (forall x, f x = g x) -> omap f l = omap g l.
Proof. intros H. induction l as [|x l IH]; cbn; [done|]. by rewrite H, IH. Qed.

(** ** The split functions *)

Section Split.
Context {regex : Type} (compile_regex : list Z -> option regex) (split_regex : regex -> list Z -> list (list Z)).
Notation State := (StringSplitState (regex := regex)).

Lemma update_split d s (st : State) : UpdateSplit compile_regex split_regex (Some s) [d] st = Some (with_list (add_all (split_on d s) (list_ st)) st).
Proof.
  cbn [UpdateSplit]. destruct (split_loop_ok d s s 0 0 (list_ st) eq_refl ltac:(done)) as (b & c & l' & -> & E). rewrite sub_nil, prefixed_nil in E. rewrite <- E. do 2 f_equal.
  destruct (Nat.eqb_spec b c) as [->|]; [by rewrite sub_nil|done].
Qed.
Lemma update_key d1 d2 s (st : State) :
  UpdateSplitByKey compile_regex split_regex (Some s) [d1] [d2] st = Some (with_list (add_all (omap (part_at d2 0) (split_on d1 s)) (list_ st)) st).
Proof.
  cbn [UpdateSplitByKey]. rewrite key_loop_ok by (done || (intros _; rewrite sub_nil; apply not_elem_of_nil)). by rewrite sub_nil, prefixed_nil.
Qed.
Lemma update_value d1 d2 s (st : State) :
  UpdateSplitByValue compile_regex split_regex (Some s) [d1] [d2] st = Some (with_list (add_all (omap (part_at d2 1) (split_on d1 s)) (list_ st)) st).
Proof.
  cbn [UpdateSplitByValue]. destruct (value_loop_ok d1 d2 s s 0 0 0 (list_ st) eq_refl ltac:(done)) as (b & c & n' & l' & -> & E). rewrite sub_nil in E. cbn [values_left] in E. rewrite <- E. do 2 f_equal.
  destruct (n' =? 1)%nat; [|done]. destruct (Nat.eqb_spec c b) as [->|]; [by rewrite sub_nil|done].
Qed.

(** The loops over characters do what the regular expressions of one character
    do: all three functions, for every string, delimiter and state, wherever the
    list is full. *)
Theorem split_fast_paths (literal : Z -> regex) (d1 d2 : Z) (s : list Z) (st : State) :
  (forall d str, split_regex (literal d) str = split_on d str) ->
  UpdateSplit compile_regex split_regex (Some s) [d1] st = Some (with_list (add_all (split_regex (literal d1) s) (list_ st)) st) /\
  UpdateSplitByKey compile_regex split_regex (Some s) [d1] [d2] st = Some (with_list (add_all (sub_parts_at split_regex 0 (literal d1) (literal d2) s) (list_ st)) st) /\
  UpdateSplitByValue compile_regex split_regex (Some s) [d1] [d2] st = Some (with_list (add_all (sub_parts_at split_regex 1 (literal d1) (literal d2) s) (list_ st)) st).
Proof.
  intros Hr. rewrite update_split, update_key, update_value, Hr. unfold sub_parts_at. rewrite Hr. split_and!; [done|..]; do 3 f_equal; apply omap_eq; intros p; unfold part_at; by rewrite Hr.
Qed.
End Split.

(** ** Joining *)

Lemma si_at buffer k tmp : (k <= length buffer)%nat -> refresh (mkIt buffer k tmp) = mkIt buffer k (default tmp (buffer !! k)).
Proof.
  intros Hk. unfold refresh, si_Valid. cbn [si_pos si_buffer]. destruct (Nat.eqb_spec k (length buffer)) as [->|Hn]; cbn [negb]; [by rewrite lookup_ge_None_2|].
  destruct (lookup_lt_is_Some_2 buffer k) as [x ->]; [lia|done].
Qed.
Lemma si_end buffer tmp : si_Valid (mkIt buffer (length buffer) tmp) = false.
Proof. unfold si_Valid. cbn. by rewrite Nat.eqb_refl. Qed.
Lemma si_in buffer k tmp : (k < length buffer)%nat -> si_Valid (mkIt buffer k tmp) = true.
Proof. intros Hk. unfold si_Valid. cbn. by rewrite (proj2 (Nat.eqb_neq _ _)) by lia. Qed.
(** An iterator in front of [rest]. *)
Lemma si_next pre x rest tmp : si_Next (mkIt (pre ++ x :: rest) (length pre) tmp) = mkIt (pre ++ x :: rest) (length (pre ++ [x])) (default tmp (head rest)).
Proof.
  unfold si_Next. cbn [si_buffer si_pos si_tmp]. replace (S (length pre)) with (length (pre ++ [x])) by (rewrite length_app; cbn; lia).
  rewrite (cons_middle x pre rest), app_assoc. rewrite si_at by (rewrite (length_app (pre ++ [x])); lia). f_equal. f_equal. by rewrite lookup_app_r, Nat.sub_diag by lia; destruct rest.
Qed.
Lemma join_bytes_ok delim rest : forall pre fuel tmp bytes, tmp = default tmp (head rest) -> (length rest < fuel)%nat -> 0 <= bytes ->
  bytes + Z.of_nat (length (join_with delim rest)) < 2 ^ 64 ->
  join_bytes fuel delim (mkIt (pre ++ rest) (length pre) tmp) bytes = Some (bytes + Z.of_nat (length (join_with delim rest))).
Proof.
  induction rest as [|x rest IH]; intros pre fuel tmp bytes Ht Hf H0 Hb; (destruct fuel as [|fuel]; [cbn in Hf; lia|]); cbn [join_bytes].
  - rewrite app_nil_r, si_end. cbn. f_equal. lia.
  - rewrite si_in by (rewrite length_app; cbn; lia). rewrite si_next. cbn [si_GetValue si_tmp]. cbn in Ht. subst tmp. destruct rest as [|y rest]; cbn [head default].
    + rewrite si_end. destruct fuel as [|fuel]; [cbn in Hf; lia|]. cbn [join_bytes join_with] in *. rewrite si_end. f_equal. apply u64_small. lia.
    + rewrite si_in by (rewrite !length_app; cbn; lia). rewrite join_with_cons in *. rewrite !length_app in Hb. rewrite (u64_small (bytes + _)) by lia. rewrite u64_small by lia.
      assert (pre ++ x :: y :: rest = (pre ++ [x]) ++ y :: rest) as -> by (by rewrite <- app_assoc). rewrite (IH (pre ++ [x]) fuel y) by (done || (cbn in *; lia) || lia). f_equal. rewrite !(length_app x), (length_app delim). lia.
Qed.
Lemma store_part (pre old bs rest : mem) off : off = Z.of_nat (length pre) -> length old = length bs -> store (pre ++ old ++ rest) off bs = Some (pre ++ bs ++ rest).
Proof. intros -> Hl. by apply store_mid. Qed.
Lemma join_copy_ok delim rest : forall pre fuel tmp done old tail, tmp = default tmp (head rest) -> (length rest < fuel)%nat ->
  length old = length (join_with delim rest) -> Z.of_nat (length (done ++ old ++ tail)) < 2 ^ 64 ->
  join_copy fuel delim (mkIt (pre ++ rest) (length pre) tmp) (done ++ old ++ tail) (Z.of_nat (length done)) = Some (done ++ join_with delim rest ++ tail).
Proof.
  induction rest as [|x rest IH]; intros pre fuel tmp dn old tail Ht Hf Hl Hb; (destruct fuel as [|fuel]; [cbn in Hf; lia|]); cbn [join_copy].
  - rewrite app_nil_r, si_end. cbn in Hl. by apply nil_length_inv in Hl as ->.
  - rewrite si_in by (rewrite length_app; cbn; lia). rewrite si_next. cbn [si_GetValue si_tmp]. cbn in Ht. subst tmp. rewrite !length_app in Hb. destruct rest as [|y rest]; cbn [head default].
    + cbn [join_with] in *. rewrite (store_part dn old x tail) by done. cbn [mbind option_bind]. rewrite si_end. destruct fuel as [|fuel]; [cbn in Hf; lia|]. cbn [join_copy]. by rewrite si_end.
    + rewrite si_in by (rewrite !length_app; cbn; lia). rewrite join_with_cons in *. rewrite !length_app in Hl.
      assert (exists o1 o2 o3, old = o1 ++ o2 ++ o3 /\ length o1 = length x /\ length o2 = length delim /\ length o3 = length (join_with delim (y :: rest))) as (o1 & o2 & o3 & -> & L1 & L2 & L3).
      { exists (take (length x) old), (take (length delim) (drop (length x) old)), (drop (length delim) (drop (length x) old)). rewrite !take_drop. split; [done|]. rewrite !length_take, !length_drop. lia. }
      rewrite !length_app in Hb. rewrite <- !app_assoc. rewrite (store_part dn o1 x) by done. cbn [mbind option_bind]. rewrite (u64_small (Z.of_nat (length dn) + Z.of_nat (length x))) by lia.
      rewrite (app_assoc dn x). rewrite (store_part (dn ++ x) o2 delim) by (rewrite ?length_app; lia). cbn [mbind option_bind]. rewrite u64_small by lia.
      assert (pre ++ x :: y :: rest = (pre ++ [x]) ++ y :: rest) as -> by (by rewrite <- app_assoc). rewrite (app_assoc (dn ++ x) delim).
      replace (Z.of_nat (length dn) + Z.of_nat (length x) + Z.of_nat (length delim)) with (Z.of_nat (length ((dn ++ x) ++ delim))) by (rewrite !length_app; lia).
      rewrite (IH (pre ++ [x]) fuel y) by (done || (cbn in *; lia) || (rewrite !length_app; lia)). by rewrite <- !app_assoc.
Qed.
Lemma string_join (alloc : nat -> mem) l delim : (forall n, length (alloc n) = n) -> Z.of_nat (length (join_with delim (buffer_ l))) < 2 ^ 31 - 1 ->
  StringJoin alloc l delim = Some (join_with delim (buffer_ l)).
Proof.
  intros Ha Hl. unfold StringJoin. assert (si_new (buffer_ l) = mkIt (buffer_ l) 0 (default [] (head (buffer_ l)))) as ->.
  { unfold si_new. rewrite si_at by lia. by destruct (buffer_ l). }
  rewrite (join_bytes_ok delim (buffer_ l) [] _ _ 0) by first [lia | by destruct (buffer_ l)]. cbn [mbind option_bind]. rewrite Z.add_0_l. set (n := length (join_with delim (buffer_ l))) in *.
  rewrite u64_small, alloc_ok by lia. cbn [mbind option_bind]. pose proof (Ha (Z.to_nat (Z.of_nat n + 1))) as HA. destruct (alloc (Z.to_nat (Z.of_nat n + 1))) as [|z b] eqn:Ea using rev_ind; [cbn in HA; lia|]. clear IHb.
  rewrite length_app in HA. cbn in HA. assert (length b = n) as Hn by lia.
  pose proof (store_part b [z] [0] [] (Z.of_nat n) ltac:(lia) eq_refl) as Es. cbn [app] in Es. rewrite Es. cbn [mbind option_bind].
  unfold si_SeekToFirst. cbn [si_buffer si_tmp]. rewrite si_at by lia.
  pose proof (join_copy_ok delim (buffer_ l) [] (S (length (buffer_ l))) (default [] (head (buffer_ l))) [] b [0]) as Hc. cbn [app length] in Hc.
  replace (default (default [] (head (buffer_ l))) (buffer_ l !! 0%nat)) with (default [] (head (buffer_ l))) by (by destruct (buffer_ l)).
  change (Z.of_nat 0) with 0 in Hc. rewrite Hc; [|by destruct (buffer_ l)|lia|done|rewrite length_app; cbn; lia]. cbn [mbind option_bind]. rewrite u32_small, Nat2Z.id by lia.
  unfold load, in_bounds. fold n. rewrite length_app. fold n. rewrite (proj2 (Z.leb_le _ _)), (proj2 (Z.leb_le _ _)) by (cbn; lia). cbn [andb]. change (Z.to_nat 0) with O. rewrite drop_0. unfold n. by rewrite take_app_length.
Qed.

(** C29: [fz_join(fz_split(s, d), d)] is [s] for every delimiter [d] of one byte
    and every string of at most 4096 bytes (a longer delimiter is a regular
    expression, and the empty one gives an empty list): the split finds the parts between the delimiters, none is lost, and
    joining them fills exactly the buffer that was allocated. Conversely, parts
    without the delimiter are found again in their join. *)
Theorem split_join_roundtrip {regex : Type} (compile_regex : list Z -> option regex) (split_regex : regex -> list Z -> list (list Z)) (alloc : nat -> mem) (d : Z) :
  (forall n, length (alloc n) = n) ->
  (forall s, Z.of_nat (length s) <= MAXIMUM_STRING_LENGTH ->
     exists l, SingleSplit compile_regex split_regex (Some s) [d] = Some l /\ buffer_ l = split_on d s /\ Forall (fun p => d ∉ p) (buffer_ l) /\ StringJoin alloc l [d] = Some s) /\
  (forall l, buffer_ l <> [] -> Forall (fun p => d ∉ p) (buffer_ l) -> Z.of_nat (length (join_with [d] (buffer_ l))) <= MAXIMUM_STRING_LENGTH ->
     exists s l', StringJoin alloc l [d] = Some s /\ SingleSplit compile_regex split_regex (Some s) [d] = Some l' /\ buffer_ l' = buffer_ l).
Proof.
  intros Ha.
  assert (forall s, Z.of_nat (length s) <= MAXIMUM_STRING_LENGTH -> exists l, SingleSplit compile_regex split_regex (Some s) [d] = Some l /\ buffer_ l = split_on d s) as Hs.
  { intros s Hs. unfold SingleSplit. rewrite update_split. cbn [fmap option_fmap option_map with_list list_ InitList]. eexists. split; [done|]. pose proof (length_split d s).
    rewrite add_all_room; cbn [strings_new total_len_ buffer_]; [done|done|unfold MAXIMUM_STRING_LENGTH in *; lia]. }
  unfold MAXIMUM_STRING_LENGTH in *. split.
  - intros s Hl. destruct (Hs s Hl) as (l & E & Eb). exists l. split_and!; [done|done|rewrite Eb; apply split_parts|]. rewrite string_join by (done || (rewrite Eb, join_split_on; lia)). by rewrite Eb, join_split_on.
  - intros l Hne Hp Hl. destruct (Hs _ Hl) as (l' & E & Eb). exists (join_with [d] (buffer_ l)), l'. rewrite string_join by (done || lia). split_and!; [done|done|]. by rewrite Eb, split_join.
Qed.

(** ** Frequencies *)

Section Frequency.
Context {K : Type} (ltb : K -> K -> bool) `{TotalOrder K ltb} (raw : bool) (text : K -> list Z).
Notation counts := (list (K * Z)).

(** How often a key occurs among the rows. *)
Fixpoint occ (k : K) (rows : list (option K)) : Z :=
  match rows with [] => 0 | Some k' :: rows' => (if eqk ltb k k' then 1 else 0) + occ k rows' | None :: rows' => occ k rows' end.
Lemma occ_app k a b : occ k (a ++ b) = occ k a + occ k b.
Proof. induction a as [|[k'|] a IH]; cbn [app occ]; lia. Qed.
Lemma occ_bound k rows : 0 <= occ k rows <= Z.of_nat (length rows).
Proof. induction rows as [|[k'|] rows IH]; cbn [occ length]; [lia| |lia]. destruct (eqk ltb k k'); lia. Qed.

Lemma find_elem (m : counts) e : StronglySorted (keys_lt ltb) m -> e ∈ m <-> map_find ltb e.1 m = Some e.2.
Proof.
  induction 1 as [|[k v] m Hm IH Hk]; cbn [map_find]; [split; [by intros ?%elem_of_nil|done]|]. rewrite elem_of_cons. destruct e as [k' v']. cbn [fst snd]. rewrite Forall_forall in Hk. split.
  - intros [[= -> ->]|He]; [by rewrite !lt_irrefl|]. specialize (Hk _ He). unfold keys_lt in Hk. cbn in Hk. rewrite Hk. by apply IH.
  - destruct (ltb k k') eqn:E1; [intros Hf; right; by apply IH|]. destruct (ltb k' k) eqn:E2; [done|]. intros [= ->]. left. by rewrite (lt_total _ _ E1 E2).
Qed.
Lemma sorted_nodup (m : counts) : StronglySorted (keys_lt ltb) m -> NoDup m.*1.
Proof.
  induction 1 as [|[k v] m Hm IH Hk]; cbn [fmap list_fmap]; constructor; [|done]. intros (e & E & He)%list_elem_of_fmap. rewrite Forall_forall in Hk. specialize (Hk _ He). unfold keys_lt in Hk. cbn in *.
  subst k. by rewrite lt_irrefl in Hk.
Qed.

(** The map of the rows: every key with its number of occurrences. *)
Record counts_ok (rows : list (option K)) (m : counts) : Prop := {
  co_sorted : StronglySorted (keys_lt ltb) m;
  co_find : forall k, map_find ltb k m = if occ k rows =? 0 then None else Some (occ k rows)
}.
Lemma count_key_ok rows k m : counts_ok rows m -> Z.of_nat (length rows) < 2 ^ 63 - 1 -> counts_ok (rows ++ [Some k]) (count_key ltb k m).
Proof.
  intros [Hs Hf] Hb. split; [by apply alter_sorted|]. intros k'. unfold count_key. rewrite find_alter by done. rewrite occ_app. cbn [occ]. rewrite Hf. pose proof (occ_bound k' rows) as Ho.
  destruct (eqk ltb k' k); [|by rewrite !Z.add_0_r]. rewrite (proj2 (Z.eqb_neq (occ k' rows + (1 + 0)) 0)) by lia. f_equal. destruct (Z.eqb_spec (occ k' rows) 0) as [->|]; [done|]. rewrite i64_small by lia. lia.
Qed.
Lemma skip_null_ok rows m : counts_ok rows m -> counts_ok (rows ++ [None]) m.
Proof. intros [Hs Hf]. split; [done|]. intros k. rewrite occ_app. cbn [occ]. by rewrite Z.add_0_r. Qed.
Lemma ratio_rows rows : Z.of_nat (length rows) < 2 ^ 63 - 1 -> counts_ok rows (foldl (fun m k => Top1Ratio_Update ltb k m) [] rows).
Proof.
  induction rows as [|k rows IH] using rev_ind; intros Hb; [by split; [constructor|]|]. rewrite length_app in Hb. cbn [length] in Hb. rewrite foldl_app. cbn [foldl]. specialize (IH ltac:(lia)).
  destruct k as [k|]; cbn [Top1Ratio_Update]; [apply count_key_ok; [done|lia]|by apply skip_null_ok].
Qed.
Lemma topn_rows n rows : Z.of_nat (length rows) < 2 ^ 63 - 1 -> rows <> [] ->
  exists m, counts_ok rows m /\ foldl (fun c k => TopNFrequency_Update ltb k n c) TopN_Init rows = mkTopN m (u64 n).
Proof.
  intros Hb Hne. exists (foldl (fun m k => Top1Ratio_Update ltb k m) [] rows). split; [by apply ratio_rows|]. clear Hb. induction rows as [|k rows IH] using rev_ind; [done|]. rewrite !foldl_app. cbn [foldl].
  destruct rows as [|x rows]; [by destruct k|]. rewrite IH by done. by destruct k.
Qed.

(** The order of the queue: most frequent first, then the smaller key. *)
Lemma cmp_irrefl (x : K * Z) : cmp ltb x x = false.
Proof. unfold cmp. by rewrite Z.ltb_irrefl, Z.eqb_refl, lt_irrefl. Qed.
Lemma cmp_true (x y : K * Z) : cmp ltb x y = true <-> x.2 < y.2 \/ (x.2 = y.2 /\ ltb y.1 x.1 = true).
Proof. unfold cmp. destruct (Z.ltb_spec x.2 y.2); [split; [by left|done]|]. destruct (Z.eqb_spec x.2 y.2); (split; [intros E; right; done || lia|intros [?|[? ?]]; [lia|done || lia]]). Qed.
Lemma cmp_neg_trans (x y z : K * Z) : cmp ltb x y = false -> cmp ltb y z = false -> cmp ltb x z = false.
Proof.
  rewrite <- !not_true_iff_false, !cmp_true. intros H1 H2 [Hc|[Hc Hl]].
  - destruct (Z.lt_trichotomy x.2 y.2) as [?|[E|?]]; [tauto| |]; destruct (Z.lt_trichotomy y.2 z.2) as [?|[E'|?]]; try tauto; lia.
  - destruct (Z.lt_trichotomy x.2 y.2) as [?|[E|?]]; [tauto| |]; destruct (Z.lt_trichotomy y.2 z.2) as [?|[E'|?]]; try tauto; try lia.
    assert (ltb y.1 x.1 = false) as L1 by (apply not_true_iff_false; intros ?; apply H1; by right). assert (ltb z.1 y.1 = false) as L2 by (apply not_true_iff_false; intros ?; apply H2; by right).
    destruct (ltb x.1 y.1) eqn:E1.
    + rewrite (lt_trans _ _ _ Hl E1) in L2. done.
    + rewrite (lt_total _ _ E1 L1) in Hl. congruence.
Qed.
Lemma cmp_asym (x y : K * Z) : cmp ltb x y = true -> cmp ltb y x = false.
Proof.
  rewrite <- not_true_iff_false, !cmp_true. intros [?|[E L]] [?|[E' L']]; try lia. pose proof (lt_trans _ _ _ L L') as E3. by rewrite lt_irrefl in E3.
Qed.
Notation before_ x y := (cmp ltb x y = false).
Lemma queue_top_ok (q : counts) : match queue_top ltb q with None => q = [] | Some (t, r) => t :: r ≡ₚ q /\ Forall (fun x => before_ t x) r end.
Proof.
  induction q as [|e q IH]; cbn [queue_top]; [done|]. destruct (queue_top ltb q) as [[t r]|]; [|subst q; done]. destruct IH as [Hp Hf]. destruct (cmp ltb e t) eqn:E.
  - split; [rewrite <- Hp; apply perm_swap|]. constructor; [by apply cmp_asym|done].
  - split; [by rewrite Hp|]. constructor; [done|]. eapply Forall_impl; [exact Hf|]. intros x Hx. by eapply cmp_neg_trans.
Qed.
Lemma pop_sorted n : forall q : counts, length q = n -> exists l, l ≡ₚ q /\ StronglySorted (fun x y => before_ x y) l /\ forall k, pop_keys ltb k q = take k l.*1.
Proof.
  induction n as [|n IH]; intros q Hq.
  - apply nil_length_inv in Hq as ->. exists []. split_and!; [done|constructor|]. by intros [|k].
  - pose proof (queue_top_ok q) as Ht. destruct (queue_top ltb q) as [[t r]|] eqn:E; [|by subst q]. destruct Ht as [Hp Hf].
    destruct (IH r) as (l & Hl & Hs & Hk); [pose proof (Permutation_length Hp); cbn in *; lia|]. exists (t :: l). split_and!; [by rewrite Hl|constructor; [done|by rewrite Hl]|].
    intros [|k]; cbn [pop_keys]; [done|]. rewrite E, Hk. done.
Qed.

(** *** The text *)

Definition NULL_TEXT : list Z := [78; 85; 76; 76].
Definition slot_text (s : option K) : list Z := match s with Some k => text k | None => NULL_TEXT end.
Lemma fill_topn_ok slots : forall pre rest, length rest = length (with_commas (slot_text <$> slots)) -> Z.of_nat (length rest) < 4294967296 ->
  fill_topn raw text slots (pre ++ rest) (Z.of_nat (length pre)) (Z.of_nat (length rest)) = Some (pre ++ with_commas (slot_text <$> slots)).
Proof.
  induction slots as [|s slots IH]; intros pre rest Hl Hs; cbn [fill_topn fmap list_fmap].
  - destruct rest; [|done]. done.
  - cbn [with_commas fmap list_fmap mbind list_bind] in Hl. rewrite !length_app in Hl. cbn [length] in Hl. fold (with_commas (slot_text <$> slots)) in Hl.
    assert (exists b rest', match s with Some k => format_string raw (text k) (pre ++ rest) (Z.of_nat (length pre)) (Z.of_nat (length rest)) | None => b ← store (pre ++ rest) (Z.of_nat (length pre)) [78; 85; 76; 76; 0]; Some (b, 4) end = Some (b, Z.of_nat (length (slot_text s))) /\
      store b (Z.of_nat (length pre) + Z.of_nat (length (slot_text s))) [44] = Some ((pre ++ slot_text s ++ [44]) ++ rest') /\ length rest = (length (slot_text s) + 1 + length rest')%nat) as (b & rest' & -> & Es & Hr).
    { destruct s as [k|]; cbn [slot_text] in *; [apply put_text; lia|]. change (length NULL_TEXT) with 4%nat in *.
      exists (pre ++ NULL_TEXT ++ 0 :: drop 5 rest), (drop 5 rest). rewrite <- (take_drop 5 rest) at 1. rewrite store_mid by (rewrite length_take; change (length [78; 85; 76; 76; 0]) with 5%nat; lia). split; [done|]. split; [|rewrite length_drop; lia].
      pose proof (store_mid (pre ++ NULL_TEXT) [0] [44] (drop 5 rest) eq_refl) as E. rewrite length_app, Nat2Z.inj_add in E. rewrite <- !app_assoc in *. exact E. }
    cbn [mbind option_bind]. rewrite Es. cbn [mbind option_bind]. rewrite u32_small by lia.
    replace (Z.of_nat (length rest) - (Z.of_nat (length (slot_text s)) + 1)) with (Z.of_nat (length rest')) by lia.
    replace (Z.of_nat (length pre) + Z.of_nat (length (slot_text s)) + 1) with (Z.of_nat (length (pre ++ slot_text s ++ [44]))) by (rewrite !length_app; cbn; lia).
    rewrite IH; [|lia|lia]. by rewrite <- app_assoc.
Qed.
Definition slots_of (n : nat) (ks : list K) : list (option K) := (fun i => ks !! i) <$> seq 0 n.
Lemma with_commas_cons t ts : with_commas (t :: ts) = (t ++ [44]) ++ with_commas ts.
Proof. done. Qed.
Lemma topn_len_ok n ks : Z.of_nat (length (with_commas (slot_text <$> slots_of n ks))) < 4294967296 -> topn_len text n ks = Z.of_nat (length (with_commas (slot_text <$> slots_of n ks))).
Proof.
  unfold topn_len, slots_of. generalize (seq 0 n) as is_. intros is_.
  assert (forall acc, 0 <= acc -> acc + Z.of_nat (length (with_commas (slot_text <$> ((fun i => ks !! i) <$> is_)))) < 4294967296 ->
    foldl (fun str_len i => u32 (str_len + match ks !! i with Some k => Z.of_nat (length (text k)) + 1 | None => 5 end)) acc is_ = acc + Z.of_nat (length (with_commas (slot_text <$> ((fun i => ks !! i) <$> is_))))) as Hg; [|intros Hl; by apply (Hg 0)].
  induction is_ as [|i is_ IH]; intros acc H0 Hl; cbn [foldl fmap list_fmap] in *; [cbn; lia|]. rewrite with_commas_cons, !length_app in *. cbn [length] in *.
  assert (match ks !! i with Some k => Z.of_nat (length (text k)) + 1 | None => 5 end = Z.of_nat (length (slot_text (ks !! i))) + 1) as -> by (destruct (ks !! i); done).
  rewrite u32_small by lia. rewrite IH by lia. lia.
Qed.
Lemma slots_take n ks : slots_of n (take n ks) = (Some <$> take n ks) ++ replicate (n - length ks) None.
Proof.
  unfold slots_of. apply list_eq. intros i. rewrite list_lookup_fmap. destruct (decide (i < n)%nat) as [Hi|Hi].
  - rewrite lookup_seq_lt by done. cbn. destruct (decide (i < length ks)%nat) as [Hk|Hk].
    + rewrite lookup_app_l by (rewrite length_fmap, length_take; lia). rewrite list_lookup_fmap. destruct (lookup_lt_is_Some_2 (take n ks) i) as [x ->]; [rewrite length_take; lia|done].
    + rewrite lookup_app_r by (rewrite length_fmap, length_take; lia). rewrite length_fmap, length_take. rewrite lookup_ge_None_2 by (rewrite length_take; lia). rewrite lookup_replicate_2 by lia. done.
  - rewrite lookup_seq_ge by lia. cbn. symmetry. apply lookup_ge_None_2. rewrite length_app, length_fmap, length_take, length_replicate. lia.
Qed.
Lemma occ_pos k rows : occ k rows <> 0 <-> Some k ∈ rows.
Proof.
  induction rows as [|[k'|] rows IH]; cbn [occ].
  - split; [done|by intros ?%elem_of_nil].
  - rewrite elem_of_cons. pose proof (occ_bound k rows). pose proof (eqk_eq ltb k k') as Hk. destruct (eqk ltb k k').
    + split; [intros _; left; f_equal; by apply Hk|lia].
    + rewrite Z.add_0_l, IH. split; [by right|]. intros [[= ->]|?]; [|done]. destruct Hk as [_ Hk]. by specialize (Hk eq_refl).
  - rewrite elem_of_cons, IH. split; [by right|]. by intros [?|?].
Qed.

(** C30: [fz_topn_frequency(column, n)]: the text lists the [n] most frequent
    keys of the rows, the smaller key first among equally frequent ones, and NULL
    where there are fewer keys; NULLs are not counted and the buffer, whose
    length is computed before, is never left. At most 1024 keys are listed. *)
Theorem topn_frequency (alloc : nat -> mem) (rows : list (option K)) (n : Z) : (forall n, length (alloc n) = n) -> rows <> [] -> Z.of_nat (length rows) < 2 ^ 63 - 1 -> 0 < n < 2 ^ 31 ->
  exists ks, NoDup ks /\ (forall k, k ∈ ks <-> Some k ∈ rows) /\
    StronglySorted (fun a b => occ b rows < occ a rows \/ (occ b rows = occ a rows /\ ltb a b = true)) ks /\
    let top := Z.to_nat (Z.min n 1024) in
    let shown := (slot_text ∘ Some <$> take top ks) ++ replicate (top - length ks) NULL_TEXT in
    (Z.of_nat (length (with_commas shown)) < 2 ^ 31 ->
     TopNFrequency_Output ltb raw text alloc (foldl (fun c k => TopNFrequency_Update ltb k n c) TopN_Init rows) = Some (joined shown)).
Proof.
  intros Ha Hne Hb Hn. destruct (topn_rows n rows Hb Hne) as (m & [Hs Hf] & ->). destruct (pop_sorted (length m) m eq_refl) as (l & Hl & Hso & Hk). exists l.*1.
  assert (NoDup l.*1) as Hnd by (rewrite Hl; by apply sorted_nodup). assert (forall e, e ∈ l -> e.2 = occ e.1 rows /\ occ e.1 rows <> 0) as Hc.
  { intros e He. rewrite Hl in He. apply (find_elem m e Hs) in He. rewrite Hf in He. destruct (Z.eqb_spec (occ e.1 rows) 0); [done|]. injection He as <-. done. }
  split_and!; [done| | |].
  - intros k. rewrite <- occ_pos. split.
    + intros (e & -> & He)%list_elem_of_fmap. by apply Hc.
    + intros Ho. apply list_elem_of_fmap. exists (k, occ k rows). split; [done|]. rewrite Hl. apply (find_elem m); [done|]. cbn. rewrite Hf. by rewrite (proj2 (Z.eqb_neq _ 0)).
  - clear -Hso Hc Hnd H. induction Hso as [|x l Hso IH Hx]; cbn [fmap list_fmap] in *; constructor; apply NoDup_cons in Hnd as [Hn Hnd].
    + apply IH; [done|]. intros e He. apply Hc. by right.
    + apply Forall_fmap, Forall_forall. intros y Hy. rewrite Forall_forall in Hx. specialize (Hx y Hy). cbn. destruct (Hc x) as [E1 _]; [left|]. destruct (Hc y) as [E2 _]; [by right|]. rewrite <- E1, <- E2.
      rewrite <- not_true_iff_false, cmp_true in Hx. destruct (Z.lt_trichotomy x.2 y.2) as [?|[E|?]]; [tauto| |by left]. right. split; [done|].
      destruct (ltb x.1 y.1) eqn:L1; [done|]. destruct (ltb y.1 x.1) eqn:L2; [tauto|]. exfalso. apply Hn. apply list_elem_of_fmap. exists y. split; [by apply lt_total|done].
  - cbv zeta. intros Hlen. unfold TopNFrequency_Output. cbn [top_n_ n_map]. rewrite u64_small by lia. rewrite (proj2 (Z.eqb_neq n 0)) by lia.
    assert ((if n <? MAXIMUM_TOPN then n else MAXIMUM_TOPN) = Z.min n 1024) as -> by (unfold MAXIMUM_TOPN; destruct (Z.ltb_spec n 1024); lia).
    set (top := Z.to_nat (Z.min n 1024)) in *. rewrite Hk. fold (slots_of top (take top l.*1)).
    assert (slot_text <$> slots_of top (take top l.*1) = (slot_text ∘ Some <$> take top l.*1) ++ replicate (top - length l.*1) NULL_TEXT) as Et.
    { rewrite slots_take, fmap_app, <- list_fmap_compose. f_equal. by rewrite fmap_replicate. }
    rewrite topn_len_ok by (rewrite Et; lia). rewrite <- Et in *. set (txt := with_commas _) in *. rewrite alloc_ok, Nat2Z.id by lia. cbn [mbind option_bind].
    pose proof (fill_topn_ok (slots_of top (take top l.*1)) [] (alloc (length txt)) (Ha _)) as Hfill. rewrite Ha in Hfill. specialize (Hfill ltac:(lia)). cbn [app length] in Hfill. change (Z.of_nat 0) with 0 in Hfill. fold txt in Hfill.
    rewrite Hfill. cbn [mbind option_bind]. unfold txt. rewrite joined_commas; [apply finish_ok|].
    + unfold txt in Hlen. rewrite joined_commas, length_app in Hlen; [lia|]. unfold slots_of. intros E. apply (f_equal length) in E. rewrite !length_fmap, length_seq in E. cbn in E. lia.
    + unfold slots_of. intros E. apply (f_equal length) in E. rewrite !length_fmap, length_seq in E. cbn in E. lia.
Qed.

(** *** The ratio of the most frequent key *)

Definition present (rows : list (option K)) : Z := sumz (fun r : option K => match r with Some _ => 1 | None => 0 end) rows.
Definition total (m : counts) : Z := sumz snd m.
Definition positive (m : counts) : Prop := Forall (fun e => 0 < e.2) m.
Lemma total_cons k n m : total ((k, n) :: m) = n + total m.
Proof. done. Qed.
Lemma total_nonneg m : positive m -> 0 <= total m.
Proof. induction 1 as [|[k n] m Hn Hp IH]; [done|]. rewrite total_cons. cbn in Hn. lia. Qed.
Lemma present_bound rows : 0 <= present rows <= Z.of_nat (length rows).
Proof. induction rows as [|[k|] rows IH]; unfold present in *; cbn [sumz foldr length] in *; [lia| |]; fold (sumz (fun r : option K => match r with Some _ => 1 | None => 0 end) rows) in *; lia. Qed.
Lemma count_key_sum k (m : counts) : positive m -> total m < 2 ^ 63 - 1 -> total (count_key ltb k m) = total m + 1 /\ positive (count_key ltb k m).
Proof.
  intros Hp. induction Hp as [|[k' n] m Hn Hp IH]; intros Hb; unfold count_key in *; cbn [map_alter]; [by split; [done|repeat constructor]|]. cbn [snd] in Hn.
  pose proof (total_nonneg m Hp). rewrite total_cons in Hb |- *. destruct (ltb k' k); [|destruct (ltb k k')].
  - destruct IH as [IH1 IH2]; [lia|]. rewrite total_cons, IH1. split; [lia|by constructor].
  - rewrite !total_cons. split; [lia|]. repeat (constructor; [cbn; lia|]). done.
  - rewrite total_cons, i64_small by lia. split; [lia|]. constructor; [cbn; lia|done].
Qed.
Lemma ratio_total rows : Z.of_nat (length rows) < 2 ^ 63 - 1 -> let m := foldl (fun m k => Top1Ratio_Update ltb k m) [] rows in total m = present rows /\ positive m.
Proof.
  cbv zeta. induction rows as [|k rows IH] using rev_ind; intros Hb; [by split; [|constructor]|]. rewrite length_app in Hb. cbn [length] in Hb. rewrite foldl_app. cbn [foldl]. destruct IH as [IH1 IH2]; [lia|].
  pose proof (present_bound rows). unfold present in *. rewrite sumz_app. destruct k as [k|]; cbn [Top1Ratio_Update sumz foldr]; [|split; [lia|done]].
  destruct (count_key_sum k _ IH2) as [E Hp]; [lia|]. split; [rewrite E; lia|done].
Qed.
Lemma top1_fold (m : counts) : forall max size, 0 <= max <= size -> positive m -> size + total m < 2 ^ 31 ->
  foldl (fun '(max, size) (e : K * Z) => (if e.2 >? max then i32 e.2 else max, i32 (size + e.2))) (max, size) m = (foldr (fun e a => Z.max e.2 a) max m, size + total m).
Proof.
  induction m as [|[k n] m IH]; intros mx sz Hm Hp Hb; cbn [foldl foldr]; [f_equal; cbn; lia|]. apply Forall_cons_1 in Hp as [Hn Hp]. cbn [snd] in *. pose proof (total_nonneg m Hp). rewrite total_cons in *.
  rewrite Z.gtb_ltb. rewrite (i32_small (sz + n)) by lia. destruct (Z.ltb_spec mx n) as [Hc|Hc]; [rewrite (i32_small n) by lia|]; rewrite IH by (done || lia); (f_equal; [|lia]); clear -Hc; induction m as [|e m IH]; cbn [foldr]; lia.
Qed.
(** [fz_top1_ratio] divides the count of the most frequent key by the number of
    rows that are not NULL. *)
Theorem top1_ratio {D : Type} (zero : D) fdiv rows : Z.of_nat (length rows) < 2 ^ 31 -> rows <> [] ->
  exists max, (forall k, occ k rows <= max) /\ (present rows = 0 \/ exists k, occ k rows = max) /\
    Top1Ratio_Output zero fdiv (foldl (fun m k => Top1Ratio_Update ltb k m) [] rows) = if present rows =? 0 then zero else fdiv max (present rows).
Proof.
  intros Hb Hne. pose proof (ratio_rows rows ltac:(lia)) as [Hs Hf]. destruct (ratio_total rows ltac:(lia)) as [Ht Hp]. pose proof (present_bound rows). set (m := foldl _ [] rows) in *.
  exists (foldr (fun e a => Z.max e.2 a) 0 m). split_and!.
  - intros k. destruct (Z.eqb_spec (occ k rows) 0) as [E|E]; [rewrite E; clear; induction m as [|e m IH]; cbn [foldr]; lia|]. specialize (Hf k). rewrite (proj2 (Z.eqb_neq _ 0)) in Hf by done.
    apply (find_elem m (k, occ k rows) Hs) in Hf. clear -Hf. induction m as [|e m IH]; [by apply elem_of_nil in Hf|]. cbn [foldr]. apply elem_of_cons in Hf as [<-|Hf]; [cbn; lia|specialize (IH Hf); lia].
  - rewrite <- Ht. assert (m = [] \/ exists e, e ∈ m /\ e.2 = foldr (fun e a => Z.max e.2 a) 0 m) as [->|(e & He & <-)]; [|by left|].
    { clear -Hp. induction Hp as [|[k n] m Hn Hp IH]; [by left|]. right. cbn [foldr snd] in *. destruct IH as [->|(e & He & E)]; [exists (k, n); split; [left|cbn; lia]|].
      destruct (Z.max_spec n (foldr (fun e a => Z.max e.2 a) 0 m)) as [[_ ->]|[_ ->]]; [exists e; by split; [right|]|exists (k, n); by split; [left|]]. }
    right. exists e.1. apply (find_elem m e Hs) in He. rewrite Hf in He. destruct (Z.eqb_spec (occ e.1 rows) 0); [done|]. by injection He.
  - unfold Top1Ratio_Output. rewrite <- Ht. destruct m as [|[k n] m'] eqn:Em; [done|]. unfold top1_counts. rewrite top1_fold by (done || lia). rewrite Z.add_0_l. rewrite (proj2 (Z.eqb_neq _ 0)); [done|].
    apply Forall_cons_1 in Hp as [Hn Hp]. pose proof (total_nonneg _ Hp). rewrite total_cons. cbn in Hn. lia.
Qed.
End Frequency.

(** ** Surprises *)

(** Once the list is nearly full a long part is dropped and the parts after it
    are kept: the list is not a prefix of the parts. *)
Theorem split_drops_middle : let long := replicate 4096 97 in
  exists l, SingleSplit (fun _ => Some tt) (fun _ s => [s]) (Some ([98] ++ [44] ++ long ++ [44] ++ [99])) [44] = Some l /\ buffer_ l = [[98]; [99]].
Proof. eexists. split; [vm_compute; reflexivity|done]. Qed.
(** The expression of the first delimiter is used for every later row, whatever
    delimiter it has. *)
Theorem first_delimiter_wins {regex} (compile_regex : list Z -> option regex) split_regex st s d1 d2 : (2 <= length d1)%nat -> (2 <= length d2)%nat -> delims_compiled_ st = true ->
  UpdateSplit compile_regex split_regex s d1 st = UpdateSplit compile_regex split_regex s d2 st.
Proof. intros H1 H2 Hc. unfold UpdateSplit. destruct s as [s|]; [|done]. destruct d1 as [|a [|b d1]]; [cbn in H1; lia..|]. destruct d2 as [|a' [|b' d2]]; [cbn in H2; lia..|]. by rewrite Hc. Qed.
(** [Seek] leaves the value of the old position. *)
Theorem seek_keeps_value : si_GetValue (si_Seek 1 (si_new [[1]; [2]])) = [1] /\ si_Valid (si_Seek 1 (si_new [[1]; [2]])) = true.
Proof. done. Qed.

(** ** Witnesses *)

Module SampleFeatures.
Definition alloc (n : nat) : mem := replicate n 0.
Lemma alloc_length n : length (alloc n) = n.
Proof. apply length_replicate. Defined.
Lemma split_join_roundtrip_witness : exists l, SingleSplit (fun _ => Some tt) (fun _ s => [s]) (Some [97; 44; 44; 98]) [44] = Some l /\ buffer_ l = [[97]; []; [98]] /\ StringJoin alloc l [44] = Some [97; 44; 44; 98].
Proof.
  destruct (proj1 (split_join_roundtrip (fun _ => Some tt) (fun _ s => [s]) alloc 44 alloc_length) [97; 44; 44; 98] ltac:(vm_compute; discriminate)) as (l & H1 & H2 & _ & H3). exists l. split; [exact H1|split; [exact H2|exact H3]].
Defined.
Definition rows : list (option Z) := [Some 7; None; Some 5; Some 7; Some 6].
Lemma topn_frequency_witness : exists ks, NoDup ks /\ (forall k, k ∈ ks <-> Some k ∈ rows) /\
  Some (joined ((fun k => [48 + k]) <$> take 4 ks) ++ (if (length ks <? 4)%nat then [44; 78; 85; 76; 76] else [])) = Some [55; 44; 53; 44; 54; 44; 78; 85; 76; 76].
Proof.
  destruct (topn_frequency Z.ltb false (fun k => [48 + k]) alloc rows 4 alloc_length ltac:(discriminate) ltac:(reflexivity) ltac:(split; reflexivity)) as (ks & H1 & H2 & _ & H3).
  exists ks. split; [exact H1|]. split; [exact H2|]. cbv zeta in H3. change (Z.to_nat (Z.min 4 1024)) with 4%nat in H3.
  assert (TopNFrequency_Output Z.ltb false (fun k => [48 + k]) alloc (foldl (fun c k => TopNFrequency_Update Z.ltb k 4 c) TopN_Init rows) = Some [55; 44; 53; 44; 54; 44; 78; 85; 76; 76]) as E by (vm_compute; reflexivity).
  rewrite E in H3. destruct ks as [|a [|b [|c [|d ks]]]]; specialize (H3 ltac:(vm_compute; reflexivity)); vm_compute in H3; try discriminate H3; symmetry; exact H3.
Defined.
End SampleFeatures.
