(* ===== verification/RowIOBuf.v ===== *)
(** * [RowIOBufView]: rows in chained buffers

    Models [src/sdk/codec_sdk.cc] and [include/sdk/codec_sdk.h]: the reader of
    rows that arrive in a [butil::IOBuf]. The buffer is a class of operations
    with the laws of its documentation: [copy_to] copies the bytes that are
    there, at most as many as asked for, and leaves the rest of the destination
    alone; [append_to] appends such bytes to another buffer.

    The getters neither check the type of the column nor [is_valid_]. *)

From stdpp Require Import base numbers list option.
From S2P Require Import Prelude Layout TypeCodec RowBuilder RowView RowCodec RowWrite RowRead.

(** ** The buffers *)

Class IOBuf (iobuf : Type) := {
  contents : iobuf -> list Z;
  io_size : iobuf -> Z;
  copy_to : iobuf -> nat -> Z -> list Z;
  append_to : iobuf -> iobuf -> Z -> Z -> iobuf
}.
Class IOBufLaws (iobuf : Type) `{IOBuf iobuf} := {
  io_size_spec b : io_size b = Z.of_nat (length (contents b));
  copy_to_spec b n pos : 0 <= pos -> copy_to b n pos = take n (drop (Z.to_nat pos) (contents b));
  append_to_spec b out n pos : 0 <= pos -> contents (append_to b out n pos) = contents out ++ take (Z.to_nat n) (drop (Z.to_nat pos) (contents b))
}.

Section View.
Context {iobuf : Type} `{IOBuf iobuf} (spark : bool).

(** [copy_to] into a cell of [n] bytes that holds [old]. *)
Definition copied (row : iobuf) (n : nat) (pos old : Z) : Z :=
  let bs := copy_to row n pos in le_val (bs ++ drop (length bs) (le_bytes n old)).
Definition io_field_s (row : iobuf) (n : nat) (offset : Z) : Z := wraps (8 * Z.of_nat n) (copied row n offset 0).

(** ** Single fields *)

Definition GetBoolField (row : iobuf) (offset : Z) : Z := io_field_s row 1 offset.
Definition GetInt16Field (row : iobuf) (offset : Z) : Z := io_field_s row 2 offset.
Definition GetInt32Field (row : iobuf) (offset : Z) : Z := io_field_s row 4 offset.
Definition GetInt64Field (row : iobuf) (offset : Z) : Z := io_field_s row 8 offset.
Definition GetFloatField (row : iobuf) (offset : Z) : Z := copied row 4 offset 0.
Definition GetDoubleField (row : iobuf) (offset : Z) : Z := copied row 8 offset 0.

(** The [int32_t] position of an address slot, as [copy_to] gets it. *)
Definition slot_pos (str_start_offset field_offset addr_space : Z) : Z := i32 (u32 (str_start_offset + u32 (field_offset * addr_space))).
(** One address; [tmp] is the temporary of the case, which a second read of
    the same case finds as the first one left it. *)
Definition read_addr (row : iobuf) (addr_space pos tmp : Z) : Z * Z :=
  if addr_space =? 3 then
    let t0 := copied row 1 (u64 pos) tmp in
    let t1 := copied row 1 (u64 (i32 (pos + 1))) t0 in
    let t2 := copied row 1 (u64 (i32 (pos + 2))) t1 in
    (u32 (u32 (Z.shiftl (u32 (u32 (Z.shiftl t0 8) + t1)) 8) + t2), t2)
  else
    let t := copied row (Z.to_nat addr_space) (u64 pos) (if addr_space =? 4 then 0 else tmp) in (t, t).
Definition GetStrField (row : iobuf) (field_offset next_str_field_offset str_start_offset addr_space : Z) (output : option iobuf) : Z * option iobuf :=
  match output with
  | None => (-1, None)
  | Some out =>
      if (addr_space <? 1) || (addr_space >? 4) then (-2, output)
      else
        let '(str_offset, tmp) := read_addr row addr_space (slot_pos str_start_offset field_offset addr_space) 0 in
        let next_str_offset := if next_str_field_offset >? 0 then (read_addr row addr_space (slot_pos str_start_offset next_str_field_offset addr_space) tmp).1 else 0 in
        if next_str_field_offset <=? 0 then
          let tmp_size := copied row 4 VERSION_LENGTH 0 in
          (0, Some (append_to row out (u32 (tmp_size - str_offset)) str_offset))
        else (0, Some (append_to row out (u32 (next_str_offset - str_offset)) str_offset))
  end.

(** ** The view *)

Record RowIOBufView := mkIOView {
  io_row : iobuf; io_str_addr_length : Z; io_is_valid : bool; io_string_field_cnt : Z; io_str_field_start_offset : Z;
  io_size_ : Z; io_schema : list ColumnDef; io_offset_vec : list Z
}.
(** [Init] is that of [RowView]. *)
Definition io_Init (v : RowIOBufView) : bool * RowIOBufView :=
  let '(ok, offset, str_cnt, vec) :=
    init_loop spark (io_schema v) (u32 (HEADER_LENGTH + BitMapSize spark (schema_size (io_schema v)))) (io_string_field_cnt v) (io_offset_vec v) in
  if (ok : bool) then (true, mkIOView (io_row v) (io_str_addr_length v) (io_is_valid v) str_cnt offset (io_size_ v) (io_schema v) vec)
  else (false, mkIOView (io_row v) (io_str_addr_length v) false str_cnt (io_str_field_start_offset v) (io_size_ v) (io_schema v) vec).
Definition RowIOBufView_new (empty : iobuf) (schema : list ColumnDef) : RowIOBufView := (io_Init (mkIOView empty 0 true 0 0 0 schema [])).2.
Definition io_Reset (buf : iobuf) (v : RowIOBufView) : bool * RowIOBufView :=
  let view al ok size := mkIOView buf al ok (io_string_field_cnt v) (io_str_field_start_offset v) size (io_schema v) (io_offset_vec v) in
  if (schema_size (io_schema v) =? 0) || (io_size buf <=? HEADER_LENGTH) then (false, view (io_str_addr_length v) false (io_size_ v))
  else
    let size := u32 (io_size buf) in
    let tmp_size := copied buf (Z.to_nat SIZE_LENGTH) VERSION_LENGTH 0 in
    if negb (tmp_size =? size) then (false, view (io_str_addr_length v) false size)
    else (true, view (GetAddrLength size) (io_is_valid v) size).

Definition io_IsNULL (idx : Z) (v : RowIOBufView) : bool :=
  let val := copied (io_row v) 1 (u32 (HEADER_LENGTH + Z.shiftr idx 3)) 0 in
  negb (Z.land val (Z.shiftl 1 (Z.land idx 0x07)) =? 0).

(** A getter: null pointer, NULL, then the field; [vector::at] may throw. *)
Definition io_get {A} (field : iobuf -> Z -> A) (idx : Z) (val : option A) (v : RowIOBufView) : option (Z * option A) :=
  match val with
  | None => Some (-1, None)
  | Some _ => if io_IsNULL idx v then Some (1, val) else offset ← io_offset_vec v !! Z.to_nat idx; Some (0, Some (field (io_row v) offset))
  end.
Definition io_GetBool := io_get (fun row offset => GetBoolField row offset =? 1).
Definition io_GetInt16 := io_get GetInt16Field.
Definition io_GetInt32 := io_get GetInt32Field.
Definition io_GetInt64 := io_get GetInt64Field.
Definition io_GetFloat := io_get GetFloatField.
Definition io_GetDouble := io_get GetDoubleField.
Definition io_GetTimestamp := io_get GetInt64Field.
Definition io_GetDate_word := io_get GetInt32Field.
Definition date_parts (date : Z) : Z * Z * Z :=
  let day := Z.land date 0xFF in
  let date := Z.shiftr date 8 in
  (1900 + Z.shiftr date 8, 1 + Z.land date 0xFF, day).
Definition io_GetDate := io_get (fun row offset => date_parts (GetInt32Field row offset)).
Definition io_GetString (idx : Z) (buf : option iobuf) (v : RowIOBufView) : option (Z * option iobuf) :=
  match buf with
  | None => Some (-1, None)
  | Some _ =>
      if io_IsNULL idx v then Some (1, buf)
      else
        field_offset ← io_offset_vec v !! Z.to_nat idx;
        Some (GetStrField (io_row v) field_offset (next_str_field field_offset (io_string_field_cnt v)) (io_str_field_start_offset v) (io_str_addr_length v) buf)
  end.
End View.
Arguments mkIOView {iobuf}.
Arguments RowIOBufView iobuf : clear implicits.
Arguments io_row {iobuf}.
Arguments io_offset_vec {iobuf}.

(** ** Reading back *)

(** The getter a client calls for a column of the given type. *)
Section Client.
Context {iobuf : Type} `{IOBuf iobuf}.
Definition io_read_value (empty : iobuf) (type : Ty) (idx : Z) (v : RowIOBufView iobuf) : option (Z * option Value) :=
  match type with
  | kBool => answer VBool (io_GetBool idx (Some false) v)
  | kInt16 => answer VInt16 (io_GetInt16 idx (Some 0) v)
  | kInt32 => answer VInt32 (io_GetInt32 idx (Some 0) v)
  | kInt64 => answer VInt64 (io_GetInt64 idx (Some 0) v)
  | kTimestamp => answer VTimestamp (io_GetTimestamp idx (Some 0) v)
  | kFloat => answer VFloat (io_GetFloat idx (Some 0) v)
  | kDouble => answer VDouble (io_GetDouble idx (Some 0) v)
  | kDate => answer (fun '(y, m, d) => VDate y m d) (io_GetDate idx (Some (0, 0, 0)) v)
  | kVarchar => answer (fun out => VString (contents out)) (io_GetString idx (Some empty) v)
  | kBlob | kNull => Some (-1, None)
  end.
End Client.

Section Read.
Context {iobuf : Type} `{IOBufLaws iobuf}.
Context (cols : list ColumnDef) (size : Z) (vs : list (option Value)) (b : list Z) (buf : iobuf).
Context (Hcols : Forall supported cols) (Hcount : schema_size cols < 2147483648).
Context (Hsize : 0 <= size < 2147483648).
Context (Hfits : Forall2 value_fits cols vs).
Let al := GetAddrLength size.
Context (Hexact : size = bodies_start cols al + sumz body_len vs).
Context (Hrow : row_holds cols size al vs b).
Context (Hbuf : contents buf = take (Z.to_nat size) b).

(** What lies within the row is copied as it is loaded. *)
Lemma copied_load n pos old bs : load b pos n = Some bs -> pos + Z.of_nat n <= size -> copied buf n pos old = le_val bs.
Proof.
  intros (Hp & Hb & -> & Hl)%load_inv Hs. unfold copied. rewrite copy_to_spec by done. rewrite Hbuf, skipn_firstn_comm, take_take, Nat.min_l by lia.
  rewrite Hl. by rewrite (drop_ge (le_bytes n old)), app_nil_r by (rewrite length_le_bytes; lia).
Qed.
Lemma io_contents_length : io_size buf = size.
Proof. pose proof (rd_length _ _ _ _ _ (proj1 Hrow)). rewrite io_size_spec, Hbuf, length_take. lia. Qed.
Lemma io_order : 6 <= fixed_start cols <= fixed_end cols /\ fixed_end cols <= bodies_start cols al <= size /\ 8 * (fixed_start cols - 6) >= schema_size cols /\ 1 <= al <= 4.
Proof.
  pose proof (read_order cols size vs Hcount ltac:(lia) Hexact) as (H1 & H2 & H3). pose proof (GetAddrLength_range size) as Hal. fold al in Hal.
  pose proof (fixed_start_pos cols Hcount). unfold schema_size in *. fold al in H2, H3. split_and!; lia.
Qed.
Lemma io_stored_size : copied buf 4 VERSION_LENGTH 0 = size.
Proof.
  destruct io_order as (? & ? & _). rewrite (copied_load _ _ _ _ (rd_size _ _ _ _ _ (proj1 Hrow))) by (unfold VERSION_LENGTH; lia). apply (le_val_bytes_small 4). lia.
Qed.

(** The view on the buffer. *)
Definition io_view : RowIOBufView iobuf := mkIOView buf al true (sumz strs cols) (fixed_end cols) size cols (imap (entry cols (fixed_start cols) 0) cols).
Lemma io_Reset_view empty : cols <> [] -> io_Reset buf (RowIOBufView_new false empty cols) = (true, io_view).
Proof.
  intros Hne. destruct io_order as (? & ? & ? & ?). pose proof (sumz_nonneg strs strs_nonneg cols). assert (fixed_end cols + sumz strs cols <= bodies_start cols al) by (unfold bodies_start; nia).
  assert (0 < schema_size cols) by (unfold schema_size; destruct cols; [done|cbn; lia]).
  unfold RowIOBufView_new, io_Init. cbn [io_schema io_string_field_cnt io_offset_vec io_row io_str_addr_length io_is_valid io_size_]. fold (fixed_start cols). rewrite u32_small by lia.
  rewrite init_loop_spec by (done || unfold fixed_end in *; lia). unfold io_Reset. cbn [snd io_schema io_string_field_cnt io_offset_vec io_row io_str_addr_length io_is_valid io_size_ io_str_field_start_offset].
  rewrite io_contents_length, (proj2 (Z.eqb_neq _ 0)) by lia. rewrite (proj2 (Z.leb_gt size HEADER_LENGTH)) by (change HEADER_LENGTH with 6; lia). cbn [orb]. change (Z.to_nat SIZE_LENGTH) with 4%nat.
  by rewrite io_stored_size, u32_small, Z.eqb_refl by lia.
Qed.
Lemma io_null j v : vs !! j = Some v -> io_IsNULL (Z.of_nat j) io_view = is_null_value v.
Proof.
  intros Hv. destruct io_order as (? & ? & ? & ?). pose proof (lookup_lt_Some _ _ _ Hv) as Hj. rewrite <- (Forall2_length Hfits) in Hj. pose proof (proj2 Hrow j Hj) as Hb. rewrite Hv in Hb. cbn [from_option] in Hb.
  unfold v1.IsNullAt, load_u, v1.null_bit_ptr, v1.null_bit_mask in Hb. destruct (load b (HEADER_LENGTH + Z.shiftr (Z.of_nat j) 3) 1) as [bs|] eqn:El; [|done]. cbn [fmap option_fmap option_map mbind option_bind] in Hb. injection Hb as <-.
  unfold io_IsNULL. cbn [io_row io_view]. unfold schema_size in *. assert (0 <= Z.shiftr (Z.of_nat j) 3 < fixed_start cols - 6) by (rewrite Z.shiftr_div_pow2 by lia; split; [apply Z.div_pos; lia|apply Z.div_lt_upper_bound; lia]).
  change HEADER_LENGTH with 6 in *. rewrite u32_small by lia. by rewrite (copied_load _ _ _ _ El) by lia.
Qed.
Lemma io_entry j c : cols !! j = Some c -> io_offset_vec io_view !! Z.to_nat (Z.of_nat j) = Some (layout_entry cols j c).
Proof. intros Hc. rewrite Nat2Z.id. by apply layout_lookup. Qed.
Lemma io_fits j c v : cols !! j = Some c -> vs !! j = Some v -> value_fits c v.
Proof. intros Hc Hv. destruct (rd_fits _ _ _ _ _ (proj1 Hrow) _ _ Hv) as (c' & Hc' & Hf). by simplify_eq. Qed.

(** Fields of fixed width. *)
Lemma io_answer {A} (mk : A -> Value) (field : iobuf -> Z -> A) dflt j c v : cols !! j = Some c -> vs !! j = Some v ->
  (forall x o, v = Some x -> value_type x = col_type c -> value_in_range x -> (forall n, length (fixed_bytes x) = n -> copied buf n o 0 = le_val (fixed_bytes x)) -> mk (field buf o) = x) ->
  col_type c <> kVarchar -> answer mk (io_get field (Z.of_nat j) (Some dflt) io_view) = Some (expected v).
Proof.
  intros Hc Hv Hx Hnv. unfold io_get. rewrite (io_null _ _ Hv). destruct v as [x|]; cbn [is_null_value]; [|done]. rewrite (io_entry _ _ Hc). destruct (io_fits _ _ _ Hc Hv) as [Ht Hr].
  cbn [mbind option_bind answer fmap option_fmap option_map expected io_row io_view]. cbn. rewrite (Hx x); [done..|]. intros n <-. unfold layout_entry, is_varchar. rewrite bool_decide_false by done. destruct io_order as (? & ? & ?).
  pose proof (field_region cols j c Hc) as [? ?]. apply copied_load; [apply (rd_fixed _ _ _ _ _ (proj1 Hrow)); congruence|]. rewrite (fixed_bytes_width c) by (done || congruence). lia.
Qed.

(** Addresses and strings. *)
Lemma copied_u p n x old : load_u b p n = Some x -> 0 <= p -> p + Z.of_nat n <= size -> copied buf n (u64 p) old = x.
Proof. unfold load_u. destruct (load b p n) eqn:E; [|done]. intros [= <-] Hp Hs. rewrite u64_small by lia. by apply copied_load. Qed.
Lemma read_addr_row p a tmp : 0 <= p -> p + al <= size -> read_str_addr b p al = Some a -> (read_addr buf al p tmp).1 = a.
Proof.
  intros Hp Hs. destruct io_order as (_ & _ & _ & Hal). revert Hal Hs. generalize al. intros al' Hal Hs. unfold read_str_addr, read_addr. width_cases al'; intros Ha; try (cbn [fst]; apply copied_u; [done|lia|lia]).
  destruct (load_u b p 1) as [x0|] eqn:E0; cbn [mbind option_bind] in Ha; [|discriminate Ha]. destruct (load_u b (p + 1) 1) as [x1|] eqn:E1; cbn [mbind option_bind] in Ha; [|discriminate Ha]. destruct (load_u b (p + 2) 1) as [x2|] eqn:E2; cbn [mbind option_bind] in Ha; [|discriminate Ha]. cbn [mbind option_bind] in Ha. injection Ha as <-.
  rewrite !(i32_small (p + _)) by lia. cbn [fst]. rewrite (copied_u p 1 x0), (copied_u (p + 1) 1 x1), (copied_u (p + 2) 1 x2) by (done || lia). done.
Qed.
Lemma io_addr j c tmp : cols !! j = Some c -> is_varchar (col_type c) = true -> (read_addr buf al (slot_pos (fixed_end cols) (slot cols j) al) tmp).1 = body_pos cols al vs j.
Proof.
  intros Hc Hv. destruct io_order as (? & ? & ? & Hal). pose proof (addr_region cols al j c ltac:(lia) Hc Hv). pose proof (slot_range cols j c Hc Hv).
  pose proof (addr_read cols size vs b Hcount ltac:(lia) Hfits Hexact Hrow j c Hc Hv) as Ha. fold al in Ha. unfold slot_pos. assert (0 <= slot cols j * al) by nia. unfold addr_pos in *. rewrite (u32_small (slot cols j * al)) in * by nia.
  rewrite u32_small, i32_small by lia. apply read_addr_row; [lia..|]. done.
Qed.
Lemma io_string j c s out : cols !! j = Some c -> is_varchar (col_type c) = true -> vs !! j = Some (Some (VString s)) ->
  exists out', GetStrField buf (slot cols j) (next_str_field (slot cols j) (sumz strs cols)) (fixed_end cols) al (Some out) = (0, Some out') /\ contents out' = contents out ++ s.
Proof.
  intros Hc Hvar Hv. destruct io_order as (? & ? & ? & Hal). pose proof (slot_range cols j c Hc Hvar) as Hslot. destruct (next_string cols size vs Hfits Hexact j c _ Hc Hvar Hv) as [Hn Hl]. fold al in Hn, Hl.
  assert (bodies_start cols al = fixed_end cols + al * sumz strs cols) as Eb by done. pose proof (body_region cols al vs j _ Hv) as Hbr. cbn [body_len] in *.
  assert (contents buf = take (Z.to_nat size) b) as Hb by done. pose proof (rd_body _ _ _ _ _ (proj1 Hrow) _ _ Hv) as Hbody. apply load_inv in Hbody as (Hp & Hq & Es & _).
  assert (take (Z.to_nat (Z.of_nat (length s))) (drop (Z.to_nat (body_pos cols al vs j)) (contents buf)) = s) as Et.
  { rewrite Hb, Nat2Z.id, skipn_firstn_comm, take_take, Nat.min_l by lia. done. }
  unfold GetStrField. rewrite (proj2 (Z.ltb_ge al 1)), Z.gtb_ltb, (proj2 (Z.ltb_ge 4 al)) by lia. cbn [orb].
  pose proof (io_addr j c 0 Hc Hvar) as Ea. destruct (read_addr buf al (slot_pos (fixed_end cols) (slot cols j) al) 0) as [a tmp]. cbn [fst] in Ea. subst a.
  unfold next_str_field. rewrite u32_small by nia. rewrite Z.gtb_ltb. destruct (Z.ltb_spec (slot cols j) (sumz strs cols - 1)).
  - destruct Hn as (k & c' & Hk & Hvk & Esl & Ebody); [lia|]. rewrite u32_small by nia. rewrite (proj2 (Z.ltb_lt 0 _)), (proj2 (Z.leb_gt _ 0)) by lia. rewrite <- Esl, (io_addr k c' tmp Hk Hvk), Ebody. eexists. split; [done|].
    rewrite append_to_spec by done. rewrite u32_small by lia. by replace (body_pos cols al vs j + Z.of_nat (length s) - body_pos cols al vs j) with (Z.of_nat (length s)) by lia; rewrite Et.
  - cbn. rewrite io_stored_size. eexists. split; [done|]. rewrite append_to_spec by done. rewrite u32_small by lia. replace (size - body_pos cols al vs j) with (Z.of_nat (length s)) by lia. by rewrite Et.
Qed.

(** Every column. *)
Lemma io_read_value_correct empty j c v : contents empty = [] -> cols !! j = Some c -> vs !! j = Some v -> io_read_value empty (col_type c) (Z.of_nat j) io_view = Some (expected v).
Proof.
  intros He Hc Hv. pose proof (Forall_lookup_1 _ _ _ _ Hcols Hc) as [Hs1 Hs2]. pose proof (io_fits _ _ _ Hc Hv) as Hfv.
  destruct (col_type c) eqn:Ht; try done; cbn [io_read_value].
  all: unfold io_GetBool, io_GetInt16, io_GetInt32, io_GetInt64, io_GetTimestamp, io_GetFloat, io_GetDouble, io_GetDate.
  all: try (eapply io_answer; [exact Hc|exact Hv| |congruence]; intros [] o -> Hx Hr Hcp; rewrite Ht in Hx; try done; cbn [value_in_range] in Hr;
    unfold GetInt16Field, GetInt32Field, GetInt64Field, GetFloatField, GetDoubleField, GetBoolField, io_field_s; match goal with |- context [copied buf ?n o 0] => rewrite (Hcp n) by reflexivity end; cbn [fixed_bytes];
    first [f_equal; first [apply wraps_le_bytes; cbn; lia | apply le_val_bytes_small; cbn; lia] | idtac]).
  - match goal with |- VBool _ = VBool ?x => by destruct x end.
  - unfold io_GetString. rewrite (io_null _ _ Hv). destruct v as [x|]; [|done]. cbn [is_null_value]. destruct Hfv as [Htx _]. rewrite Ht in Htx. destruct x; try done. assert (is_varchar (col_type c) = true) as Hvar by (unfold is_varchar; by rewrite Ht).
    rewrite (io_entry _ _ Hc). unfold layout_entry. rewrite Hvar. destruct (io_string j c _ empty Hc Hvar Hv) as (out & E & Eo). cbn [mbind option_bind io_row io_view io_string_field_cnt io_str_field_start_offset io_str_addr_length]. rewrite E. cbn. by rewrite Eo, He.
  - pose proof Hr as (? & ? & ?). pose proof (date_pack_value y m d ltac:(lia) ltac:(lia)). rewrite (wraps_le_bytes 4) by (cbn; lia). pose proof (Date_decode_encode y m d Hr) as E. rewrite Date_of_ymd_valid, <- date_pack_value in E by (done || lia).
    unfold Date_Decode in E. cbn [date_] in E. destruct (date_pack y m d <? 0); [done|]. unfold date_parts. by injection E as -> -> ->.
Qed.
End Read.

(** C37: [RowIOBufView] reads the rows of [RowBuilder]: on a buffer that holds a
    row of less than 2^31 bytes the view resets successfully and every column is
    read back with the getter of its type, NULLs as status 1: the same answers
    as those of [RowView]. *)
Theorem io_view_roundtrip {iobuf : Type} `{IOBufLaws iobuf} (empty : iobuf) cols vs b0 :
  contents empty = [] -> row_ok cols vs -> row_size cols vs <= Z.of_nat (length b0) -> row_size cols vs < 2147483648 ->
  exists b, encode_row cols vs b0 = Some b /\
    forall buf, contents buf = take (Z.to_nat (row_size cols vs)) b ->
    exists v, io_Reset buf (RowIOBufView_new false empty cols) = (true, v) /\
      forall j c x, cols !! j = Some c -> vs !! j = Some x -> io_read_value empty (col_type c) (Z.of_nat j) v = Some (expected x).
Proof.
  intros Hem Hok Hb Hsm. destruct (encode_row_holds _ _ _ Hok Hb) as (He & Hsz & rb1 & rb2 & b & E1 & E2 & E3 & Hh). destruct Hok as [Hc Hv Hne Hn Hs]. exists b. split.
  - unfold encode_row. fold (row_size cols vs). rewrite E1. cbn [mbind option_bind]. by rewrite E2.
  - intros buf Hbuf. exists (io_view cols (row_size cols vs) buf). split; [apply (io_Reset_view cols _ vs b); try done; lia|]. intros j c x Hj Hx. apply (io_read_value_correct cols (row_size cols vs) vs b); try done; lia.
Qed.

(** The view stays usable after a failed [Reset]: no getter looks at
    [is_valid_], and missing bytes read as zero. *)
Lemma io_get_ignores_valid {iobuf : Type} `{IOBuf iobuf} {A} (field : iobuf -> Z -> A) idx val v ok :
  io_get field idx val (mkIOView (io_row v) (io_str_addr_length v) ok (io_string_field_cnt v) (io_str_field_start_offset v) (io_size_ v) (io_schema v) (io_offset_vec v)) = io_get field idx val v.
Proof. done. Qed.

(** ** Witnesses *)

Module SampleIOBuf.
#[export] Instance bytes_iobuf : IOBuf (list Z) := {
  contents b := b; io_size b := Z.of_nat (length b); copy_to b n pos := take n (drop (Z.to_nat pos) b);
  append_to b out n pos := out ++ take (Z.to_nat n) (drop (Z.to_nat pos) b) }.
#[export] Instance bytes_laws : IOBufLaws (list Z).
Proof. by split. Qed.
Lemma io_view_roundtrip_witness : exists b v, encode_row sample_schema sample_row (replicate 37 0) = Some b /\ io_Reset b (RowIOBufView_new false [] sample_schema) = (true, v) /\
  io_read_value [] kVarchar 1 v = Some (0, Some (VString [104; 105])).
Proof.
  destruct (@io_view_roundtrip (list Z) bytes_iobuf bytes_laws [] sample_schema sample_row (replicate 37 0) eq_refl sample_row_ok ltac:(vm_compute; discriminate) ltac:(vm_compute; reflexivity)) as (b & H1 & H2).
  destruct (H2 b) as (v & H3 & H4).
  - assert (encode_row sample_schema sample_row (replicate 37 0) = encode_row sample_schema sample_row (replicate 37 0)) as E by reflexivity. rewrite H1 in E at 1. vm_compute in E. injection E as ->. vm_compute. reflexivity.
  - exists b, v. split; [exact H1|]. split; [exact H3|]. exact (H4 1%nat _ _ eq_refl eq_refl).
Defined.
End SampleIOBuf.
