(* ===== verification/RunnerBuilder.v ===== *)
(** * From physical plans to runners

    Models [RunnerBuilder], [ClusterTask], [RouteInfo] and [ClusterJob] of
    [src/vm/runner.h] and [src/vm/runner.cc]. The builder walks over a plan whose
    nodes may be shared and creates mutable runners: they live in a heap, their
    address is their position. Shared tasks ([std::shared_ptr<ClusterTask>]) have
    an address as well, since tasks are compared by the address of their input.
    [None] is a null pointer that is dereferenced, an exception of [vector::at] or
    a loop that does not end within its fuel.

    The function informations of a plan are given by the generators that the
    runners make of them. A table handler is its address. *)

#[local] Set Warnings "-register-all".

From stdpp Require Import base numbers option list gmap.
From S2P Require Import Prelude Layout Window Rows Handlers FnGenerators Generators Joins WindowRunners Runners.

Section Builder.
Context {E : Type} (ExprListEquals : list E -> list E -> bool).

(** ** Components of plan nodes *)

Record Key := mkKey { keys_ : option (list E); key_fn : FnGenerator }.
Definition ValidKey (k : Key) : bool := match keys_ k with Some (_ :: _) => true | _ => false end.
(** [node::ExprEquals] on the key lists. *)
Definition KeyExprEquals (k1 k2 : Key) : bool :=
  match keys_ k1, keys_ k2 with None, None => true | Some l, Some r => ExprListEquals l r | _, _ => false end.

Inductive JoinType := kJoinTypeFull | kJoinTypeLast | kJoinTypeLeft | kJoinTypeRight | kJoinTypeInner | kJoinTypeConcat | kJoinTypeComma.
Record Join := mkJoin {
  join_type : JoinType; condition_ : FnGenerator; left_key_ : Key; right_key_ : Key; index_key_ : Key; right_sort_ : SortGenerator
}.
Definition JoinGenerator_new (j : Join) (left_slices right_slices : Z) : JoinGenerator :=
  mkJoinGenerator (condition_ j) (key_fn (left_key_ j)) (key_fn (right_key_ j)) (key_fn (index_key_ j)) (right_sort_ j) left_slices right_slices.
Record RequestWindowOp := mkRequestWindowOp { rwo_partition : Key; rwo_sort : SortGenerator; rwo_index_key : Key }.
Definition RequestWindowGenertor_new (w : RequestWindowOp) : RequestWindowGenertor :=
  mkRequestWindowGenertor (key_fn (rwo_partition w)) (rwo_sort w) (key_fn (rwo_index_key w)).

(** ** Plan nodes *)

Inductive PhysicalOp :=
| PTableProvider (table : option DataHandler)
| PPartitionProvider (table : Z) (index_name : list Z) (partition : option DataHandler)
| PRequestProvider
| PSimpleProject (select_slice : Z) (fn : FnGenerator)
| PConstProject (fn : FnGenerator)
| PTableProject (fn : FnGenerator)
| PAggregation (fn : FnGenerator)
| PGroupAggregation (fn : FnGenerator)
| PWindowAggregation (window : WindowGenerator) (fn : FnGenerator) (instance_not_in_window exclude_current_time need_append_input : bool)
    (union_windows : list WindowGenerator) (window_joins : list Join)
| PRowProject (fn : FnGenerator)
| PRequestUnion (ts_gen : FnGenerator) (range : WindowRange) (window : RequestWindowOp)
    (instance_not_in_window exclude_current_time output_request_row : bool) (union_windows : list RequestWindowOp)
| PRequestJoin (join : Join) (output_right_only : bool)
| PJoin (join : Join) (output_right_only : bool)
| PGroupBy (group : FnGenerator)
| PFilter (filter : FilterGenerator)
| PLimit (limit_optimized : bool)
| PRename
| PPostRequestUnion (request_ts : FnGenerator)
| PUnsupported.

(** A node: its identity, the number of schema sources of its output, its limit,
    its producers, and the nodes of its window unions and window joins. *)
Inductive PNode := mkPNode (node_id slices limit_cnt : Z) (op : PhysicalOp) (producers unions joins : list PNode).
Definition p_id (p : PNode) : Z := let '(mkPNode i _ _ _ _ _ _) := p in i.

(** ** Runners, tasks and jobs *)

(** What a runner runs; a concatenation takes its slices from its producers
    when it runs, a proxy sends its input to a task. *)
Inductive RunnerKind := KOp (op : RunnerOp) | KConcat | KProxy (task_id : Z) (index_input : option nat).
Record RunnerObj := mkObj {
  o_id : Z; o_kind : RunnerKind; o_limit : Z; o_slices : Z; o_need_cache : bool; o_need_batch_cache : bool;
  o_producers : list (option nat); o_unions : list (option nat); o_joins : list (option nat)
}.
Record RouteInfo := mkRoute {
  index_ : list Z; route_key : Key; index_key_input_runner_ : option nat; input_ : option nat; table_handler_ : option Z
}.
Record ClusterTask := mkTask { root_ : option nat; input_runners_ : list nat; route_info_ : RouteInfo }.

Definition NoKey : Key := mkKey None (mkFnGenerator None [] (RowView.RowView_default) []).
Definition NoRoute : RouteInfo := mkRoute [] NoKey None None None.
Definition InvalidTask : ClusterTask := mkTask None [] NoRoute.
Definition CommonTask (runner : nat) : ClusterTask := mkTask (Some runner) [] NoRoute.
Definition UnCompletedClusterTask (runner : nat) (table_handler : Z) (index : list Z) : ClusterTask :=
  mkTask (Some runner) [] (mkRoute index NoKey None None (Some table_handler)).

Definition not_empty {A} (l : list A) : bool := match l with [] => false | _ => true end.
Definition IsCompleted (r : RouteInfo) : bool := bool_decide (is_Some (table_handler_ r)) && not_empty (index_ r) && ValidKey (route_key r).
Definition IsCluster (r : RouteInfo) : bool := bool_decide (is_Some (table_handler_ r)) && not_empty (index_ r).
Definition RouteEqualWith (r1 r2 : RouteInfo) : bool :=
  bool_decide (input_ r1 = input_ r2) && bool_decide (table_handler_ r1 = table_handler_ r2) && bool_decide (index_ r1 = index_ r2) &&
  KeyExprEquals (route_key r1) (route_key r2).
Definition IsValid (t : ClusterTask) : bool := bool_decide (is_Some (root_ t)).
Definition IsCompletedClusterTask (t : ClusterTask) : bool := IsValid t && IsCompleted (route_info_ t).
Definition IsClusterTask (t : ClusterTask) : bool := IsCluster (route_info_ t).
Definition IsUnCompletedClusterTask (t : ClusterTask) : bool := IsClusterTask t && negb (IsCompleted (route_info_ t)).
Definition SetRoot (root : option nat) (t : ClusterTask) : ClusterTask := mkTask root (input_runners_ t) (route_info_ t).
Definition TaskCanBeMerge (t1 t2 : ClusterTask) : bool := RouteEqualWith (route_info_ t1) (route_info_ t2).
Definition TaskMergeToLeft (root : nat) (t1 t2 : ClusterTask) : ClusterTask := mkTask (Some root) (input_runners_ t1 ++ input_runners_ t2) (route_info_ t1).
Definition TaskMergeToRight (root : nat) (t1 t2 : ClusterTask) : ClusterTask := mkTask (Some root) (input_runners_ t1 ++ input_runners_ t2) (route_info_ t2).
Definition TaskMerge := TaskMergeToLeft.

Record ClusterJob := mkJob { tasks_ : list ClusterTask; main_task_id_ : Z }.
Definition AddTask (t : ClusterTask) (j : ClusterJob) : Z * ClusterJob :=
  if negb (IsValid t) then (-1, j) else (Z.of_nat (length (tasks_ j)), mkJob (tasks_ j ++ [t]) (main_task_id_ j)).
Definition AddMainTask (t : ClusterTask) (j : ClusterJob) : ClusterJob := let '(id, j) := AddTask t j in mkJob (tasks_ j) id.
Definition GetTask (id : Z) (j : ClusterJob) : ClusterTask :=
  if (id <? 0) || (id >=? Z.of_nat (length (tasks_ j))) then InvalidTask else default InvalidTask (tasks_ j !! Z.to_nat id).
Definition GetMainTask (j : ClusterJob) : ClusterTask := GetTask (main_task_id_ j) j.

(** ** The state of the builder *)

Record RunnerBuilder := mkBuilder {
  heap : list RunnerObj; id_ : Z; cluster_job_ : ClusterJob; shared_tasks : list ClusterTask; task_map_ : gmap Z ClusterTask;
  request_task_ : option nat; proxy_runner_map_ : gmap nat nat; status_ok : bool
}.
Definition RunnerBuilder_new : RunnerBuilder := mkBuilder [] 0 (mkJob [] (-1)) [] ∅ None ∅ true.

Definition M (A : Type) : Type := RunnerBuilder -> option (A * RunnerBuilder).
Definition ret {A} (a : A) : M A := fun s => Some (a, s).
Definition bind {A B} (m : M A) (f : A -> M B) : M B := fun s => match m s with Some (a, s') => f a s' | None => None end.
Definition crash {A} : M A := fun _ => None.
Definition get : M RunnerBuilder := fun s => Some (s, s).
Definition modify (f : RunnerBuilder -> RunnerBuilder) : M unit := fun s => Some (tt, f s).
#[local] Notation "x <-- m ;; k" := (bind m (fun x => k)) (at level 100, m at next level, right associativity).
#[local] Notation "m ;;; k" := (bind m (fun _ => k)) (at level 100, right associativity).

Definition set_heap (h : list RunnerObj) (s : RunnerBuilder) : RunnerBuilder :=
  mkBuilder h (id_ s) (cluster_job_ s) (shared_tasks s) (task_map_ s) (request_task_ s) (proxy_runner_map_ s) (status_ok s).
Definition set_job (j : ClusterJob) (s : RunnerBuilder) : RunnerBuilder :=
  mkBuilder (heap s) (id_ s) j (shared_tasks s) (task_map_ s) (request_task_ s) (proxy_runner_map_ s) (status_ok s).
(** A status with an error code. *)
Definition set_error : M unit :=
  modify (fun s => mkBuilder (heap s) (id_ s) (cluster_job_ s) (shared_tasks s) (task_map_ s) (request_task_ s) (proxy_runner_map_ s) false).

(** [CreateRunner] with [id_++]. *)
Definition CreateRunner (kind : RunnerKind) (slices limit_cnt : Z) : M nat :=
  fun s => Some (length (heap s),
    mkBuilder (heap s ++ [mkObj (id_ s) kind limit_cnt slices false false [] [] []]) (id_ s + 1) (cluster_job_ s) (shared_tasks s) (task_map_ s)
      (request_task_ s) (proxy_runner_map_ s) (status_ok s)).
(** A method called on a pointer to a runner. *)
Definition with_runner {A} (a : option nat) (f : RunnerObj -> A * RunnerObj) : M A :=
  fun s => r ← a; o ← heap s !! r; let '(x, o') := f o in Some (x, set_heap (<[r := o']> (heap s)) s).
Definition EnableCache (a : option nat) : M unit :=
  with_runner a (fun o => (tt, mkObj (o_id o) (o_kind o) (o_limit o) (o_slices o) true (o_need_batch_cache o) (o_producers o) (o_unions o) (o_joins o))).
Definition EnableBatchCache (a : option nat) : M unit :=
  with_runner a (fun o => (tt, mkObj (o_id o) (o_kind o) (o_limit o) (o_slices o) (o_need_cache o) true (o_producers o) (o_unions o) (o_joins o))).
Definition need_batch_cache (a : option nat) : M bool := with_runner a (fun o => (o_need_batch_cache o, o)).
Definition output_slices (a : option nat) : M Z := with_runner a (fun o => (o_slices o, o)).
Definition AddProducer (a : nat) (producer : option nat) : M unit :=
  with_runner (Some a) (fun o => (tt, mkObj (o_id o) (o_kind o) (o_limit o) (o_slices o) (o_need_cache o) (o_need_batch_cache o) (o_producers o ++ [producer]) (o_unions o) (o_joins o))).
Definition SetProducer (idx : nat) (producer : option nat) (a : nat) : M unit :=
  with_runner (Some a) (fun o => (tt, if (length (o_producers o) <=? idx)%nat then o
    else mkObj (o_id o) (o_kind o) (o_limit o) (o_slices o) (o_need_cache o) (o_need_batch_cache o) (<[idx := producer]> (o_producers o)) (o_unions o) (o_joins o))).
(** [AddWindowUnion] and [AddWindowJoin] of the window runners. *)
Definition add_union (kind : RunnerKind -> RunnerKind) (a : nat) (input : option nat) : M unit :=
  with_runner (Some a) (fun o => (tt, mkObj (o_id o) (kind (o_kind o)) (o_limit o) (o_slices o) (o_need_cache o) (o_need_batch_cache o) (o_producers o) (o_unions o ++ [input]) (o_joins o))).
Definition agg_union (w : WindowGenerator) (k : RunnerKind) : RunnerKind :=
  match k with
  | KOp (OpWindowAgg r) => KOp (OpWindowAgg (mkWindowAggRunner (wa_limit_cnt r) (wa_instance_not_in_window r) (wa_exclude_current_time r) (wa_append_slices r)
      (wa_instance_window_gen r) (wa_union_windows_gen r ++ [w]) (wa_joins_gen r) (wa_window_project_gen r)))
  | _ => k
  end.
Definition WindowAgg_AddWindowUnion (a : nat) (w : WindowGenerator) (input : option nat) : M unit := add_union (agg_union w) a input.
Definition request_union (w : RequestWindowOp) (k : RunnerKind) : RunnerKind :=
  match k with
  | KOp (OpRequestUnion r) => KOp (OpRequestUnion (mkRequestUnionRunner (ru_windows_gen r ++ [RequestWindowGenertor_new w]) (ru_ts_gen r) (ru_window_range r)
      (ru_exclude_current_time r) (ru_output_request_row r)))
  | _ => k
  end.
Definition RequestUnion_AddWindowUnion (a : nat) (w : RequestWindowOp) (input : option nat) : M unit := add_union (request_union w) a input.
Definition agg_join (g : JoinGenerator) (k : RunnerKind) : RunnerKind :=
  match k with
  | KOp (OpWindowAgg r) => KOp (OpWindowAgg (mkWindowAggRunner (wa_limit_cnt r) (wa_instance_not_in_window r) (wa_exclude_current_time r) (wa_append_slices r)
      (wa_instance_window_gen r) (wa_union_windows_gen r) (wa_joins_gen r ++ [g]) (wa_window_project_gen r)))
  | _ => k
  end.
Definition add_join (kind : RunnerKind -> RunnerKind) (a : nat) (input : option nat) : M unit :=
  with_runner (Some a) (fun o => (tt, mkObj (o_id o) (kind (o_kind o)) (o_limit o) (o_slices o) (o_need_cache o) (o_need_batch_cache o) (o_producers o) (o_unions o) (o_joins o ++ [input]))).
Definition AddWindowJoin (a : nat) (join : Join) (left_slices : Z) (input : option nat) : M unit :=
  right_slices <-- output_slices input ;; add_join (agg_join (JoinGenerator_new join left_slices right_slices)) a input.

(** [std::make_shared<ClusterTask>]; the task behind a shared pointer. *)
Definition make_shared (t : ClusterTask) : M nat :=
  fun s => Some (length (shared_tasks s),
    mkBuilder (heap s) (id_ s) (cluster_job_ s) (shared_tasks s ++ [t]) (task_map_ s) (request_task_ s) (proxy_runner_map_ s) (status_ok s)).
Definition deref (a : option nat) : M ClusterTask := fun s => p ← a; t ← shared_tasks s !! p; Some (t, s).

Context (support_cluster_optimized_ : bool) (batch_common_node_set_ : Z -> bool).

Definition RegisterTask (node : Z) (task : ClusterTask) : M ClusterTask :=
  modify (fun s => mkBuilder (heap s) (id_ s) (cluster_job_ s) (shared_tasks s) (<[node := task]> (task_map_ s)) (request_task_ s) (proxy_runner_map_ s) (status_ok s)) ;;;
  (if batch_common_node_set_ node then EnableBatchCache (root_ task) else ret tt) ;;;
  ret task.

(** ** Composing tasks *)

Definition UnaryInheritTask (input : ClusterTask) (runner : nat) : M ClusterTask :=
  AddProducer runner (root_ input) ;;; ret (SetRoot (Some runner) input).
Definition BuildRequestTask (runner : nat) : M ClusterTask :=
  let request_task := CommonTask runner in
  a <-- make_shared request_task ;;
  modify (fun s => mkBuilder (heap s) (id_ s) (cluster_job_ s) (shared_tasks s) (task_map_ s) (Some a) (proxy_runner_map_ s) (status_ok s)) ;;;
  ret request_task.
Definition BuildLocalTaskForBinaryRunner (left right : ClusterTask) (runner : nat) : M ClusterTask :=
  if IsClusterTask left || IsClusterTask right then ret InvalidTask
  else AddProducer runner (root_ left) ;;; AddProducer runner (root_ right) ;;; ret (CommonTask runner).

Definition BuildProxyRunnerForClusterTask (task : ClusterTask) : M ClusterTask :=
  if negb (IsCompletedClusterTask task) then ret InvalidTask
  else match root_ task with
  | None => ret InvalidTask
  | Some root =>
      s <-- get ;;
      proxy_runner <-- match proxy_runner_map_ s !! root with
        | Some p => EnableCache (Some p) ;;; ret p
        | None =>
            let '(remote_task_id, job) := AddTask task (cluster_job_ s) in
            modify (set_job job) ;;;
            slices <-- output_slices (Some root) ;;
            p <-- CreateRunner (KProxy (u32 remote_task_id) (index_key_input_runner_ (route_info_ task))) slices 0 ;;
            match index_key_input_runner_ (route_info_ task) with Some r => EnableCache (Some r) | None => ret tt end ;;;
            common <-- need_batch_cache (Some root) ;;
            (if (common : bool) then EnableBatchCache (Some p) else ret tt) ;;;
            modify (fun s => mkBuilder (heap s) (id_ s) (cluster_job_ s) (shared_tasks s) (task_map_ s) (request_task_ s) (<[root := p]> (proxy_runner_map_ s)) (status_ok s)) ;;;
            ret p
        end ;;
      s <-- get ;;
      input <-- deref (match input_ (route_info_ task) with Some a => Some a | None => request_task_ s end) ;;
      UnaryInheritTask input proxy_runner
  end.

(** The root of the input task, null without one. *)
Definition GetRequestInput (task : ClusterTask) : M (option nat) :=
  if negb (IsValid task) then ret None
  else match input_ (route_info_ task) with None => ret None | Some a => t <-- deref (Some a) ;; ret (root_ t) end.
Fixpoint set_producers (runners : list nat) (producer : option nat) : M unit :=
  match runners with [] => ret tt | r :: rs => SetProducer 0 producer r ;;; set_producers rs producer end.
(** [ResetInputs(nullptr)]. *)
Definition ResetInputs (task : ClusterTask) : M ClusterTask :=
  input <-- deref (input_ (route_info_ task)) ;;
  set_producers (input_runners_ task) (root_ input) ;;;
  let r := route_info_ task in
  ret (mkTask (root_ task) (input_runners_ task) (mkRoute (index_ r) (route_key r) (root_ input) None (table_handler_ r))).

Inductive TaskBiasType := kLeftBias | kRightBias | kNoBias.

Definition add_producers (runner : nat) (left right : ClusterTask) : M unit := AddProducer runner (root_ left) ;;; AddProducer runner (root_ right).
(** The loop over completed tasks; a merged task ends the whole function. *)
Fixpoint merge_completed (fuel : nat) (runner : nat) (bias : TaskBiasType) (new_left new_right : ClusterTask) : M (ClusterTask + ClusterTask * ClusterTask) :=
  match fuel with
  | O => crash
  | S fuel' =>
      if IsCompletedClusterTask new_left && IsCompletedClusterTask new_right then
        if TaskCanBeMerge new_left new_right then
          let task := TaskMerge runner new_left new_right in
          add_producers runner new_left new_right ;;; ret (inl task)
        else
          match bias with
          | kNoBias =>
              l <-- BuildProxyRunnerForClusterTask new_left ;; r <-- BuildProxyRunnerForClusterTask new_right ;; merge_completed fuel' runner bias l r
          | kLeftBias => r <-- BuildProxyRunnerForClusterTask new_right ;; merge_completed fuel' runner bias new_left r
          | kRightBias => l <-- BuildProxyRunnerForClusterTask new_left ;; merge_completed fuel' runner bias l new_right
          end
      else ret (inr (new_left, new_right))
  end.

(** The tasks when at most one of them is a completed cluster task. *)
Definition merge_mixed (runner : nat) (bias : TaskBiasType) (new_left new_right : ClusterTask) : M ClusterTask :=
  if IsUnCompletedClusterTask new_left || IsUnCompletedClusterTask new_right then ret InvalidTask
  else if IsCompletedClusterTask new_right then
    match bias with
    | kNoBias | kLeftBias =>
        r <-- BuildProxyRunnerForClusterTask new_right ;; add_producers runner new_left r ;;; ret (TaskMergeToLeft runner new_left r)
    | kRightBias =>
        left_input <-- GetRequestInput new_left ;;
        right_input <-- GetRequestInput new_right ;;
        if bool_decide (right_input = left_input) then
          add_producers runner new_left new_right ;;; ret (TaskMergeToRight runner new_left new_right)
        else if bool_decide (left_input = None) then
          r <-- ResetInputs new_right ;; add_producers runner new_left r ;;; ret (TaskMergeToRight runner new_left r)
        else ret InvalidTask
    end
  else if IsCompletedClusterTask new_left then
    match bias with
    | kNoBias | kRightBias =>
        l <-- BuildProxyRunnerForClusterTask new_left ;; add_producers runner l new_right ;;; ret (TaskMergeToRight runner l new_right)
    | kLeftBias =>
        (* both inputs are those of the right task *)
        left_input <-- GetRequestInput new_right ;;
        right_input <-- GetRequestInput new_right ;;
        if bool_decide (right_input = left_input) then
          add_producers runner new_left new_right ;;; ret (TaskMergeToLeft runner new_left new_right)
        else if bool_decide (right_input = None) then
          l <-- ResetInputs new_left ;; add_producers runner l new_right ;;; ret (TaskMergeToLeft runner l new_right)
        else ret InvalidTask
    end
  else add_producers runner new_left new_right ;;; ret (TaskMergeToLeft runner new_left new_right).

Definition BuildClusterTaskForBinaryRunner (left right : ClusterTask) (runner : nat) (index_key : Key) (bias : TaskBiasType) : M ClusterTask :=
  if ValidKey index_key then
    if negb (IsClusterTask right) then ret InvalidTask
    else if IsCompletedClusterTask right then ret InvalidTask
    else
      slices <-- output_slices (root_ left) ;;
      request_runner <-- CreateRunner (KOp OpRequest) slices 0 ;;
      AddProducer runner (Some request_runner) ;;;
      AddProducer runner (root_ right) ;;;
      input <-- make_shared left ;;
      let cluster_task := mkTask (Some runner) [runner] (mkRoute (index_ (route_info_ right)) index_key None (Some input) (table_handler_ (route_info_ right))) in
      if IsCompletedClusterTask left then BuildProxyRunnerForClusterTask cluster_task else ret cluster_task
  else
    s <-- get ;;
    res <-- merge_completed (S (S (length (shared_tasks s)))) runner bias left right ;;
    match res with inl task => ret task | inr (l, r) => merge_mixed runner bias l r end.

Definition BinaryInherit (left right : ClusterTask) (runner : nat) (index_key : Key) (bias : TaskBiasType) : M ClusterTask :=
  if support_cluster_optimized_ then BuildClusterTaskForBinaryRunner left right runner index_key bias
  else BuildLocalTaskForBinaryRunner left right runner.

(** ** Building *)

Definition fail_with_status : M ClusterTask := set_error ;;; ret InvalidTask.

(** The first and the second producer; an invalid task ends the caller. *)
Definition with_input (build : PNode -> M ClusterTask) (ps : list PNode) (k : ClusterTask -> M ClusterTask) : M ClusterTask :=
  match ps with
  | [] => crash
  | p :: _ => t <-- build p ;; if negb (IsValid t) then fail_with_status else k t
  end.
Definition with_inputs (build : PNode -> M ClusterTask) (ps : list PNode) (k : ClusterTask -> ClusterTask -> M ClusterTask) : M ClusterTask :=
  with_input build ps (fun left =>
    match ps with
    | _ :: p :: _ => right <-- build p ;; if negb (IsValid right) then fail_with_status else k left right
    | _ => crash
    end).

(** The window unions and joins of a window aggregation; [false] when a runner
    could not be built. *)
Definition window_unions (build : PNode -> M ClusterTask) (runner : nat) : list PNode -> list WindowGenerator -> M bool :=
  fix go us ws :=
    match us, ws with
    | u :: us', w :: ws' =>
        t <-- build u ;;
        match root_ t with None => ret false | Some _ => WindowAgg_AddWindowUnion runner w (root_ t) ;;; go us' ws' end
    | _, _ => ret true
    end.
Definition window_joins (build : PNode -> M ClusterTask) (runner : nat) (input_slices : Z) : list PNode -> list Join -> M bool :=
  fix go js jo :=
    match js, jo with
    | j :: js', w :: jo' =>
        t <-- build j ;;
        match root_ t with None => ret false | Some _ => AddWindowJoin runner w input_slices (root_ t) ;;; go js' jo' end
    | _, _ => ret true
    end.
(** The window unions of a request union: the task of the right side and the
    index key, or how the loop ends the function. *)
Inductive UnionEnd := UnionDone (right_task : ClusterTask) (index_key : Key) | UnionFail | UnionMulti.
Definition request_unions (build : PNode -> M ClusterTask) (runner : nat) (right : option nat) : list PNode -> list RequestWindowOp -> ClusterTask -> Key -> M UnionEnd :=
  fix go us ws right_task index_key :=
    match us, ws with
    | u :: us', w :: ws' =>
        t <-- build u ;;
        match root_ t with
        | None => ret UnionFail
        | Some _ =>
            RequestUnion_AddWindowUnion runner w (root_ t) ;;;
            if negb (ValidKey index_key) then go us' ws' (SetRoot right t) (rwo_index_key w)
            else if support_cluster_optimized_ then ret UnionMulti
            else go us' ws' right_task index_key
        end
    | _, _ => ret (UnionDone right_task index_key)
    end.

Fixpoint Build (node : PNode) : M ClusterTask :=
  match node with
  | mkPNode nid slices limit_cnt op ps us js =>
      s <-- get ;;
      match task_map_ s !! nid with
      | Some t => EnableCache (root_ t) ;;; ret t
      | None =>
          let unary kind := with_input Build ps (fun t => r <-- CreateRunner kind slices limit_cnt ;; t' <-- UnaryInheritTask t r ;; RegisterTask nid t') in
          match op with
          | PTableProvider table => r <-- CreateRunner (KOp (OpData table)) slices 0 ;; RegisterTask nid (CommonTask r)
          | PPartitionProvider table index_name partition =>
              r <-- CreateRunner (KOp (OpData partition)) slices 0 ;;
              if support_cluster_optimized_ then RegisterTask nid (UnCompletedClusterTask r table index_name) else RegisterTask nid (CommonTask r)
          | PRequestProvider => r <-- CreateRunner (KOp OpRequest) slices 0 ;; t <-- BuildRequestTask r ;; RegisterTask nid t
          | PSimpleProject select_slice fn => unary (if select_slice >=? 0 then KOp (OpSelectSlice select_slice) else KOp (OpSimpleProject fn))
          | PConstProject fn => r <-- CreateRunner (KOp (OpConstProject fn)) slices limit_cnt ;; RegisterTask nid (CommonTask r)
          | PTableProject fn =>
              with_input Build ps (fun t => if support_cluster_optimized_ then fail_with_status
                else r <-- CreateRunner (KOp (OpTableProject fn)) slices limit_cnt ;; t' <-- UnaryInheritTask t r ;; RegisterTask nid t')
          | PAggregation fn => unary (KOp (OpAgg fn))
          | PGroupAggregation fn =>
              with_input Build ps (fun t => if support_cluster_optimized_ then fail_with_status
                else r <-- CreateRunner (KOp (OpGroupAgg fn)) slices limit_cnt ;; t' <-- UnaryInheritTask t r ;; RegisterTask nid t')
          | PWindowAggregation window fn instance_not_in_window exclude_current_time need_append_input union_windows joins =>
              with_input Build ps (fun t => if support_cluster_optimized_ then fail_with_status
                else
                  r <-- CreateRunner (KOp (OpWindowAgg (mkWindowAggRunner limit_cnt instance_not_in_window exclude_current_time
                         (if need_append_input then slices else 0) window [] [] fn))) slices limit_cnt ;;
                  input_slices <-- output_slices (root_ t) ;;
                  ok <-- window_unions Build r us union_windows ;;
                  if negb ok then RegisterTask nid InvalidTask
                  else
                    ok <-- window_joins Build r input_slices js joins ;;
                    if negb ok then RegisterTask nid InvalidTask
                    else t' <-- UnaryInheritTask t r ;; RegisterTask nid t')
          | PRowProject fn => unary (KOp (OpRowProject fn))
          | PRequestUnion ts_gen range window instance_not_in_window exclude_current_time output_request_row union_windows =>
              with_inputs Build ps (fun left right =>
                r <-- CreateRunner (KOp (OpRequestUnion (mkRequestUnionRunner [] ts_gen range exclude_current_time output_request_row))) slices limit_cnt ;;
                (if negb instance_not_in_window then RequestUnion_AddWindowUnion r window (root_ right) else ret tt) ;;;
                e <-- request_unions Build r (root_ right) us union_windows right (if negb instance_not_in_window then rwo_index_key window else NoKey) ;;
                match e with
                | UnionFail => RegisterTask nid InvalidTask
                | UnionMulti => ret InvalidTask
                | UnionDone right_task index_key => t <-- BinaryInherit left right_task r index_key kRightBias ;; RegisterTask nid t
                end)
          | PRequestJoin join output_right_only =>
              with_inputs Build ps (fun left right =>
                match join_type join with
                | kJoinTypeLast =>
                    ls <-- output_slices (root_ left) ;; rs <-- output_slices (root_ right) ;;
                    r <-- CreateRunner (KOp (OpRequestLastJoin (JoinGenerator_new join ls rs) output_right_only)) slices limit_cnt ;;
                    t <-- BinaryInherit left right r (index_key_ join) kLeftBias ;; RegisterTask nid t
                | kJoinTypeConcat =>
                    r <-- CreateRunner KConcat slices limit_cnt ;; t <-- BinaryInherit left right r NoKey kNoBias ;; RegisterTask nid t
                | _ => set_error ;;; RegisterTask nid InvalidTask
                end)
          | PJoin join output_right_only =>
              with_inputs Build ps (fun left right =>
                match join_type join with
                | kJoinTypeLast =>
                    ls <-- output_slices (root_ left) ;; rs <-- output_slices (root_ right) ;;
                    if support_cluster_optimized_ then
                      r <-- CreateRunner (KOp (OpRequestLastJoin (JoinGenerator_new join ls rs) output_right_only)) slices limit_cnt ;;
                      t <-- BinaryInherit left right r (index_key_ join) kLeftBias ;; RegisterTask nid t
                    else
                      r <-- CreateRunner (KOp (OpLastJoin (JoinGenerator_new join ls rs))) slices limit_cnt ;;
                      t <-- BinaryInherit left right r NoKey kLeftBias ;; RegisterTask nid t
                | kJoinTypeConcat =>
                    r <-- CreateRunner KConcat slices limit_cnt ;; t <-- BinaryInherit left right r (index_key_ join) kNoBias ;; RegisterTask nid t
                | _ => set_error ;;; RegisterTask nid InvalidTask
                end)
          | PGroupBy group => if support_cluster_optimized_ then fail_with_status else unary (KOp (OpGroup group))
          | PFilter filter => unary (KOp (OpFilter filter))
          | PLimit limit_optimized =>
              with_input Build ps (fun t =>
                if (limit_cnt =? 0) || limit_optimized then RegisterTask nid t
                else r <-- CreateRunner (KOp OpLimit) slices limit_cnt ;; t' <-- UnaryInheritTask t r ;; RegisterTask nid t')
          | PRename => match ps with p :: _ => Build p | [] => crash end
          | PPostRequestUnion request_ts =>
              with_inputs Build ps (fun left right =>
                r <-- CreateRunner (KOp (OpPostRequestUnion request_ts)) slices 0 ;;
                t <-- BinaryInherit left right r NoKey kRightBias ;; RegisterTask nid t)
          | PUnsupported => set_error ;;; RegisterTask nid InvalidTask
          end
      end
  end.

Definition BuildClusterJob (node : PNode) : M ClusterJob :=
  modify (fun s => mkBuilder (heap s) 0 (mkJob [] (main_task_id_ (cluster_job_ s))) (shared_tasks s) (task_map_ s) (request_task_ s) (proxy_runner_map_ s) (status_ok s)) ;;;
  task <-- Build node ;;
  s <-- get ;;
  (if negb (status_ok s) then ret tt
   else if IsCompletedClusterTask task then
     proxy_task <-- BuildProxyRunnerForClusterTask task ;;
     if negb (IsValid proxy_task) then set_error else modify (fun s => set_job (AddMainTask proxy_task (cluster_job_ s)) s)
   else if IsUnCompletedClusterTask task then set_error
   else modify (fun s => set_job (AddMainTask task (cluster_job_ s)) s)) ;;;
  s <-- get ;; ret (cluster_job_ s).
End Builder.
