(* ===== verification/RunnerBuilderProof.v ===== *)
(** * The runners of a plan

    A plan has a meaning without ids, sharing and caches: the tree of runners
    that its nodes describe ([plan_tree]). The builder creates every runner of
    a shared node once and marks it as cached; the theorem says that the job it
    returns computes the meaning of the plan, caches included. *)

#[local] Set Warnings "-register-all".

From stdpp Require Import base numbers option list gmap sets.
From S2P Require Import Prelude Layout Window Rows Handlers FnGenerators Generators Joins WindowRunners Runners RunnersProof RunnerBuilder.

Section Proof.
Context {E : Type} (ExprListEquals : list E -> list E -> bool) (batch_common_node_set_ : Z -> bool).
Notation PNode := (PNode (E := E)).
Notation Builder := (RunnerBuilder (E := E)).
Notation ClusterTask := (ClusterTask (E := E)).
Notation build := (Build ExprListEquals false batch_common_node_set_).
Notation "x <-- m ;; k" := (bind m (fun x => k)) (at level 100, m at next level, right associativity).
Notation "m ;;; k" := (bind m (fun _ => k)) (at level 100, right associativity).

Lemma plan_ind (P : PNode -> Prop) :
  (forall id sl lim op ps us js, Forall P ps -> Forall P us -> Forall P js -> P (mkPNode id sl lim op ps us js)) -> forall p, P p.
Proof. intros H. fix IH 1. intros [id sl lim op ps us js]. apply H; [induction ps|induction us|induction js]; constructor; auto. Qed.

(** ** The meaning of a plan *)

Definition runner0 (lim : Z) (op : RunnerOp) (ps us js : list Runner) : Runner := mkRunner 0 false false lim op ps us js.
Definition first {A} (l : list A) : option A := head l.
Definition second {A} (l : list A) : option A := l !! 1%nat.

(** The tree and the number of schema sources of its root. *)
Fixpoint plan_tree (p : PNode) : option (Runner * Z) :=
  match p with
  | mkPNode _ slices lim op ps us js =>
      ins ← mapM_opt plan_tree ps;
      rus ← mapM_opt plan_tree us;
      rjs ← mapM_opt plan_tree js;
      let leaf lim op := Some (runner0 lim op [] [] [], slices) in
      let unary op := '(r, _) ← first ins; Some (runner0 lim op [r] [] [], slices) in
      let binary lim (op : Z -> Z -> RunnerOp) := '(l, ls) ← first ins; '(r, rs) ← second ins; Some (runner0 lim (op ls rs) [l; r] [] [], slices) in
      match op with
      | PTableProvider t => leaf 0 (OpData t)
      | PPartitionProvider _ _ t => leaf 0 (OpData t)
      | PRequestProvider => leaf 0 OpRequest
      | PSimpleProject slice fn => unary (if slice >=? 0 then OpSelectSlice slice else OpSimpleProject fn)
      | PConstProject fn => leaf lim (OpConstProject fn)
      | PTableProject fn => unary (OpTableProject fn)
      | PAggregation fn => unary (OpAgg fn)
      | PGroupAggregation fn => unary (OpGroupAgg fn)
      | PWindowAggregation w fn inst excl append ws jo =>
          '(r, ls) ← first ins;
          Some (runner0 lim (OpWindowAgg (mkWindowAggRunner lim inst excl (if append then slices else 0) w ws
            (zip_with (fun j (x : Runner * Z) => JoinGenerator_new j ls x.2) jo rjs) fn)) [r] rus.*1 rjs.*1, slices)
      | PRowProject fn => unary (OpRowProject fn)
      | PRequestUnion ts range w inst excl out ws =>
          '(l, _) ← first ins; '(r, _) ← second ins;
          let own := if inst then [] else [w] in
          Some (runner0 lim (OpRequestUnion (mkRequestUnionRunner (RequestWindowGenertor_new <$> own ++ ws) ts range excl out)) [l; r]
            ((if inst then [] else [r]) ++ rus.*1) [], slices)
      | PRequestJoin j right_only =>
          match join_type j with
          | kJoinTypeLast => binary lim (fun ls rs => OpRequestLastJoin (JoinGenerator_new j ls rs) right_only)
          | kJoinTypeConcat => binary lim OpConcat
          | _ => None
          end
      | PJoin j _ =>
          match join_type j with
          | kJoinTypeLast => binary lim (fun ls rs => OpLastJoin (JoinGenerator_new j ls rs))
          | kJoinTypeConcat => binary lim OpConcat
          | _ => None
          end
      | PGroupBy g => unary (OpGroup g)
      | PFilter f => unary (OpFilter f)
      | PLimit optimized => if (lim =? 0) || optimized then first ins else unary OpLimit
      | PRename => first ins
      | PPostRequestUnion ts => binary 0 (fun _ _ => OpPostRequestUnion ts)
      | PUnsupported => None
      end
  end.

(** The nodes of a plan; nodes with the same address are the same, and every
    window has its node. *)
Fixpoint plan_nodes (p : PNode) : list PNode :=
  match p with mkPNode _ _ _ _ ps us js => p :: concat (plan_nodes <$> ps) ++ concat (plan_nodes <$> us) ++ concat (plan_nodes <$> js) end.
Definition windows_match (p : PNode) : Prop :=
  match p with
  | mkPNode _ _ _ op _ us js =>
      match op with
      | PWindowAggregation _ _ _ _ _ ws jo => length us = length ws /\ length js = length jo
      | PRequestUnion _ _ _ _ _ _ ws => length us = length ws
      | _ => True
      end
  end.
Record plan_ok (root : PNode) : Prop := {
  po_ids : forall p q, p ∈ plan_nodes root -> q ∈ plan_nodes root -> p_id p = p_id q -> p = q;
  po_windows : Forall windows_match (plan_nodes root)
}.

(** ** Trees in the heap *)

Definition same (o o' : RunnerObj) : Prop :=
  o_id o = o_id o' /\ o_kind o = o_kind o' /\ o_limit o = o_limit o' /\ o_slices o = o_slices o' /\ o_producers o = o_producers o' /\ o_unions o = o_unions o' /\ o_joins o = o_joins o'.
(** The runners that are not being built. *)
Definition look (opn : gset nat) (h : list RunnerObj) (a : nat) : option RunnerObj := if decide (a ∈ opn) then None else h !! a.
Notation lookup_fn := (nat -> option RunnerObj).
Definition sub_heap (f g : lookup_fn) : Prop := forall a o, f a = Some o -> exists o', g a = Some o' /\ same o o'.
Definition slices_at (f : lookup_fn) (a : nat) : option Z := o_slices <$> f a.

Inductive op_at (f : lookup_fn) (ps : list nat) : RunnerKind -> RunnerOp -> Prop :=
| op_plain op : op_at f ps (KOp op) op
| op_concat l r ls rs : ps = [l; r] -> slices_at f l = Some ls -> slices_at f r = Some rs -> op_at f ps KConcat (OpConcat ls rs).
(** [tree f g a r]: the runner at [a] with its inputs, the id and the flags
    given by [g]. *)
Inductive tree (f : lookup_fn) (g : RunnerObj -> Z * bool * bool) : nat -> Runner -> Prop :=
| tree_node a o ps us js rps rus rjs op : f a = Some o -> o_producers o = Some <$> ps -> o_unions o = Some <$> us -> o_joins o = Some <$> js ->
    Forall2 (tree f g) ps rps -> Forall2 (tree f g) us rus -> Forall2 (tree f g) js rjs -> op_at f ps (o_kind o) op ->
    tree f g a (mkRunner (g o).1.1 (g o).1.2 (g o).2 (o_limit o) op rps rus rjs).
Definition plain (o : RunnerObj) : Z * bool * bool := (0, false, false).
Definition flags (o : RunnerObj) : Z * bool * bool := (o_id o, o_need_cache o, o_need_batch_cache o).

Lemma same_refl o : same o o.
Proof. done. Qed.
Lemma same_trans o1 o2 o3 : same o1 o2 -> same o2 o3 -> same o1 o3.
Proof. unfold same. intuition congruence. Qed.
Lemma sub_refl f : sub_heap f f.
Proof. intros a o H. exists o. split; [done|apply same_refl]. Qed.
Lemma sub_trans f g h : sub_heap f g -> sub_heap g h -> sub_heap f h.
Proof. intros H1 H2 a o H. destruct (H1 a o H) as (o1 & E1 & S1). destruct (H2 a o1 E1) as (o2 & E2 & S2). exists o2. split; [done|by eapply same_trans]. Qed.
Lemma sub_slices f g a n : sub_heap f g -> slices_at f a = Some n -> slices_at g a = Some n.
Proof. intros Hs. unfold slices_at. destruct (f a) as [o|] eqn:Ef; [|done]. intros [= <-]. destruct (Hs a o Ef) as (o' & -> & Ho). cbn. f_equal. symmetry. apply Ho. Qed.
Lemma sub_op f g ps k op : sub_heap f g -> op_at f ps k op -> op_at g ps k op.
Proof. intros Hs []; [constructor|]. by eapply op_concat; [done|eapply sub_slices..]. Qed.

(** Trees depend on the visible runners only, up to their flags. *)
Lemma tree_sub f g r : forall a, sub_heap f g -> tree f plain a r -> tree g plain a r.
Proof.
  induction r as [id c b lim op ps us js IHp IHu IHj] using runner_ind. intros a Hs Ht. inversion Ht as [? o aps aus ajs ? ? ? ? Hf Ep Eu Ej Tp Tu Tj Ho]; subst. destruct (Hs a o Hf) as (o' & Hg & So). pose proof So as (_ & Ek & El & _ & Ep' & Eu' & Ej').
  change (tree g plain a (mkRunner (plain o').1.1 (plain o').1.2 (plain o').2 (o_limit o) op ps us js)). rewrite El. apply (tree_node g plain a o' aps aus ajs); try congruence.
  - clear -Tp IHp Hs. induction Tp; inversion IHp; subst; constructor; auto.
  - clear -Tu IHu Hs. induction Tu; inversion IHu; subst; constructor; auto.
  - clear -Tj IHj Hs. induction Tj; inversion IHj; subst; constructor; auto.
  - rewrite <- Ek. by eapply sub_op.
Qed.
(** A runner has one tree. *)
Lemma tree_det f g r : forall a r', tree f g a r -> tree f g a r' -> r = r'.
Proof.
  assert (forall l, Forall (fun r => forall a r', tree f g a r -> tree f g a r' -> r = r') l -> forall xs l', Forall2 (tree f g) xs l -> Forall2 (tree f g) xs l' -> l = l') as Hl.
  { induction l as [|r1 l IH]; intros HF xs l' H1 H2; inversion H1; subst; inversion H2; subst; [done|]. apply Forall_cons_1 in HF as [Hr HF]. f_equal; [by eapply Hr|by eapply IH]. }
  induction r as [id c b lim op ps us js IHp IHu IHj] using runner_ind. intros a r' H1 H2. inversion H1 as [? o aps aus ajs ? ? ? ? Hf Ep Eu Ej Tp Tu Tj Ho]; subst. inversion H2 as [? o' aps' aus' ajs' ? ? ? ? Hf' Ep' Eu' Ej' Tp' Tu' Tj' Ho']; subst.
  assert (o' = o) as -> by congruence. assert (aps' = aps) as -> by (apply (inj (fmap Some)); congruence). assert (aus' = aus) as -> by (apply (inj (fmap Some)); congruence). assert (ajs' = ajs) as -> by (apply (inj (fmap Some)); congruence).
  f_equal; [|by eapply Hl..]. destruct Ho; inversion Ho'; subst; [done|]. simplify_eq. done.
Qed.

(** Ids and flags do not matter to what a plan computes. *)
Fixpoint strip (r : Runner) : Runner := match r with mkRunner _ _ _ lim op ps us js => runner0 lim op (strip <$> ps) (strip <$> us) (strip <$> js) end.
Lemma tree_flags f g r : forall a, tree f plain a r -> exists r', tree f g a r' /\ strip r' = r.
Proof.
  assert (forall l, Forall (fun r => forall a, tree f plain a r -> exists r', tree f g a r' /\ strip r' = r) l -> forall xs, Forall2 (tree f plain) xs l -> exists l', Forall2 (tree f g) xs l' /\ strip <$> l' = l) as Hl.
  { induction l as [|r1 l IH]; intros HF xs H1; inversion H1; subst; [by exists []|]. apply Forall_cons_1 in HF as [Hr HF]. destruct (Hr _ ltac:(eassumption)) as (r' & T & <-). destruct (IH HF _ ltac:(eassumption)) as (l' & T' & <-). exists (r' :: l'). by split; [constructor|]. }
  induction r as [id c b lim op ps us js IHp IHu IHj] using runner_ind. intros a H1. inversion H1 as [? o aps aus ajs ? ? ? ? Hf Ep Eu Ej Tp Tu Tj Ho]; subst.
  destruct (Hl _ IHp _ Tp) as (ps' & Tp' & <-). destruct (Hl _ IHu _ Tu) as (us' & Tu' & <-). destruct (Hl _ IHj _ Tj) as (js' & Tj' & <-). eexists. split; [by eapply (tree_node f g a o aps aus ajs)|done].
Qed.
Lemma tree_nodes f g r : forall a, tree f g a r -> forall x, x ∈ nodes r -> exists b, tree f g b x.
Proof.
  assert (forall l, Forall (fun r => forall a, tree f g a r -> forall x, x ∈ nodes r -> exists b, tree f g b x) l -> forall xs, Forall2 (tree f g) xs l -> forall x, x ∈ concat (nodes <$> l) -> exists b, tree f g b x) as Hl.
  { induction l as [|r1 l IH]; intros HF xs H1 x Hx; inversion H1; subst; [by apply elem_of_nil in Hx|]. apply Forall_cons_1 in HF as [Hr HF]. cbn in Hx. apply elem_of_app in Hx as [Hx|Hx]; [eapply Hr; eassumption|refine (IH HF _ _ x Hx); eassumption]. }
  induction r as [id c b lim op ps us js IHp IHu IHj] using runner_ind. intros a H1 x Hx. inversion H1 as [? o aps aus ajs ? ? ? ? Hf Ep Eu Ej Tp Tu Tj Ho]; subst. cbn [nodes] in Hx.
  apply elem_of_cons in Hx as [->|Hx]; [by exists a|]. rewrite !elem_of_app in Hx. destruct Hx as [Hx|[Hx|Hx]]; (eapply Hl; [| |exact Hx]; eassumption).
Qed.
Section Meaning.
Context (spark : bool) (float_text double_text : Z -> list Z) (std_sort : ((Z * Row) -> (Z * Row) -> bool) -> list (Z * Row) -> list (Z * Row)) (fuel : nat).
Lemma strip_denote request parameter r : denote spark float_text double_text std_sort fuel request parameter (strip r) = denote spark float_text double_text std_sort fuel request parameter r.
Proof.
  assert (forall l, Forall (fun r => denote spark float_text double_text std_sort fuel request parameter (strip r) = denote spark float_text double_text std_sort fuel request parameter r) l ->
    mapM_opt (denote spark float_text double_text std_sort fuel request parameter) (strip <$> l) = mapM_opt (denote spark float_text double_text std_sort fuel request parameter) l) as Hl.
  { induction 1 as [|r' l Hr HF IH]; [done|]. cbn. by rewrite Hr, IH. }
  induction r as [id c b lim op ps us js IHp IHu IHj] using runner_ind. cbn [strip runner0 denote]. by rewrite !Hl.
Qed.
End Meaning.
(** ** The state of the builder *)

Definition impl (opn : gset nat) (h : list RunnerObj) (p : PNode) (a : nat) : Prop :=
  exists r sl, plan_tree p = Some (r, sl) /\ tree (look opn h) plain a r /\ slices_at (look opn h) a = Some sl.
Lemma impl_sub opn h opn' h' p a : sub_heap (look opn h) (look opn' h') -> impl opn h p a -> impl opn' h' p a.
Proof. intros Hs (r & sl & Hp & Ht & Hsl). exists r, sl. split_and!; [done|by eapply tree_sub|by eapply sub_slices]. Qed.
(** The first [lo] runners are kept up to their flags. *)
Definition keeps (lo : nat) (h h' : list RunnerObj) : Prop := forall a o, (a < lo)%nat -> h !! a = Some o -> exists o', h' !! a = Some o' /\ same o o'.
Lemma keeps_sub opn h h' : keeps (length h) h h' -> sub_heap (look opn h) (look opn h').
Proof. intros Hk a o. unfold look. case_decide; [done|]. intros Ha. apply (Hk a o); [by eapply lookup_lt_Some|done]. Qed.
Lemma heap_keeps_refl lo h : keeps lo h h.
Proof. intros a o _ H. exists o. split; [done|apply same_refl]. Qed.
Lemma heap_keeps_trans lo h1 h2 h3 : keeps lo h1 h2 -> keeps lo h2 h3 -> keeps lo h1 h3.
Proof. intros H1 H2 a o Hl Ha. destruct (H1 a o Hl Ha) as (o1 & E1 & S1). destruct (H2 a o1 Hl E1) as (o2 & E2 & S2). exists o2. split; [done|by eapply same_trans]. Qed.
Lemma keeps_le lo lo' h h' : (lo <= lo')%nat -> keeps lo' h h' -> keeps lo h h'.
Proof. intros Hl H a o Ha. apply H. lia. Qed.
Lemma keeps_length h h' : keeps (length h) h h' -> (length h <= length h')%nat.
Proof.
  intros Hk. destruct (decide (length h <= length h')%nat) as [|Hn]; [done|]. destruct (lookup_lt_is_Some_2 h (length h')) as [o Ho]; [lia|]. destruct (Hk (length h') o) as (o' & Ho' & _); [lia|done|].
  apply lookup_lt_Some in Ho'. lia.
Qed.

Context (root : PNode) (Hroot : plan_ok root).
Record inv (opn : gset nat) (s : Builder) : Prop := {
  inv_ids : forall a o, heap s !! a = Some o -> o_id o = Z.of_nat a;
  inv_next : id_ s = Z.of_nat (length (heap s));
  inv_map : forall p t, p ∈ plan_nodes root -> task_map_ s !! p_id p = Some t -> exists a, t = CommonTask a /\ impl opn (heap s) p a;
  inv_ok : status_ok s = true;
  inv_open : forall a, a ∈ opn -> (a < length (heap s))%nat
}.
Lemma inv_sub opn opn' s s' : inv opn s -> sub_heap (look opn (heap s)) (look opn' (heap s')) -> (forall a o, heap s' !! a = Some o -> o_id o = Z.of_nat a) ->
  id_ s' = Z.of_nat (length (heap s')) -> task_map_ s' = task_map_ s -> status_ok s' = status_ok s -> (forall a, a ∈ opn' -> (a < length (heap s'))%nat) -> inv opn' s'.
Proof. intros [Hi Hn Hm Hk Ho] Hs Hi' Hn' Em Ek Ho'. split; [done|done| |congruence|done]. intros p t Hp. rewrite Em. intros Ht. destruct (Hm p t Hp Ht) as (a & -> & Ha). exists a. split; [done|by eapply impl_sub]. Qed.

(** *** Single steps *)

Definition append (o : RunnerObj) (s : Builder) : Builder :=
  mkBuilder (heap s ++ [o]) (id_ s + 1) (cluster_job_ s) (shared_tasks s) (task_map_ s) (request_task_ s) (proxy_runner_map_ s) (status_ok s).
Lemma set_heap_id (s : Builder) : set_heap (heap s) s = s.
Proof. by destruct s. Qed.
Lemma with_last {A} (f : RunnerObj -> A * RunnerObj) o (s : Builder) : with_runner (Some (length (heap s))) f (append o s) = Some ((f o).1, append (f o).2 s).
Proof.
  unfold with_runner. cbn [mbind option_bind append heap]. rewrite list_lookup_middle by done. cbn [mbind option_bind]. destruct (f o) as [x o']. cbn [fst snd]. unfold set_heap. cbn [append id_ cluster_job_ shared_tasks task_map_ request_task_ proxy_runner_map_ status_ok]. by rewrite insert_app_r_alt, Nat.sub_diag by done.
Qed.
Lemma output_slices_ok opn (s : Builder) a n : slices_at (look opn (heap s)) a = Some n -> output_slices (Some a) s = Some (n, s).
Proof.
  unfold slices_at, look. case_decide; [done|]. destruct (heap s !! a) as [o|] eqn:Ea; [|done]. intros [= <-]. unfold output_slices, with_runner. cbn [mbind option_bind]. rewrite Ea. cbn [mbind option_bind]. by rewrite list_insert_id, set_heap_id.
Qed.
Lemma append_ids opn s o : inv opn s -> o_id o = id_ s -> forall a o', heap (append o s) !! a = Some o' -> o_id o' = Z.of_nat a.
Proof.
  intros Hi Ho a o' Ha. cbn in Ha. apply lookup_app_Some in Ha as [Ha|[Hl Ha]]; [by eapply (inv_ids _ _ Hi)|]. apply list_lookup_singleton_Some in Ha as [Hz <-]. rewrite Ho, (inv_next _ _ Hi). lia.
Qed.
Lemma append_sub opn opn' (s : Builder) o : opn' ⊆ {[length (heap s)]} ∪ opn -> sub_heap (look opn (heap s)) (look opn' (heap (append o s))).
Proof.
  intros Hs a x. unfold look. case_decide as Hd; [done|]. intros Ha. pose proof (lookup_lt_Some _ _ _ Ha). cbn [append heap]. rewrite decide_False by (intros Hx%Hs; set_unfold; destruct Hx; [lia|done]). rewrite lookup_app_l by done. exists x. split; [done|apply same_refl].
Qed.
Lemma append_inv opn opn' s o : inv opn s -> o_id o = id_ s -> opn' ⊆ {[length (heap s)]} ∪ opn -> inv opn' (append o s).
Proof. intros Hi Ho Hs. eapply inv_sub; [exact Hi|by apply append_sub|by eapply append_ids| |done|done|]; cbn; rewrite length_app; cbn; [rewrite (inv_next _ _ Hi); lia|]. intros a [->%elem_of_singleton|Ha%(inv_open _ _ Hi)]%Hs%elem_of_union; lia. Qed.
Lemma append_keeps (s : Builder) o : keeps (length (heap s)) (heap s) (heap (append o s)).
Proof. intros a x Hl Ha. cbn. rewrite lookup_app_l by done. exists x. split; [done|apply same_refl]. Qed.

(** Flags. *)
Lemma flag_ok opn s a (f : RunnerObj -> RunnerObj) : inv opn s -> (a < length (heap s))%nat -> (forall o, same o (f o)) ->
  exists s', with_runner (Some a) (fun o => (tt, f o)) s = Some (tt, s') /\ inv opn s' /\ keeps (length (heap s)) (heap s) (heap s') /\ task_map_ s' = task_map_ s.
Proof.
  intros Hi Ha Hf. destruct (lookup_lt_is_Some_2 _ _ Ha) as [o Ho]. unfold with_runner. cbn [mbind option_bind]. rewrite Ho. cbn [mbind option_bind]. eexists. split; [done|].
  assert (keeps (length (heap s)) (heap s) (<[a:=f o]> (heap s))) as Hk.
  { intros b x Hb Hx. destruct (decide (a = b)) as [->|Hn]; [rewrite list_lookup_insert_eq by done; exists (f o); assert (x = o) as -> by congruence; by split|]. rewrite list_lookup_insert_ne by done. exists x. split; [done|apply same_refl]. }
  split; [|by split]. eapply inv_sub; [exact Hi|by apply keeps_sub| | |done|done|]; cbn.
  - intros b x Hx. destruct (decide (a = b)) as [->|Hn]; [|rewrite list_lookup_insert_ne in Hx by done; by eapply (inv_ids _ _ Hi)]. rewrite list_lookup_insert_eq in Hx by done. injection Hx as <-. destruct (Hf o) as [<- _]. by apply (inv_ids _ _ Hi).
  - rewrite length_insert. apply (inv_next _ _ Hi).
  - rewrite length_insert. apply (inv_open _ _ Hi).
Qed.
Lemma impl_bound opn h p a : impl opn h p a -> (a < length h)%nat.
Proof. intros (r & sl & _ & _ & Hs). unfold slices_at, look in Hs. case_decide; [done|]. destruct (h !! a) eqn:Ha; [|done]. by eapply lookup_lt_Some. Qed.

(** The result of building a node. *)
Definition built (opn : gset nat) (s : Builder) (p : PNode) (a : nat) (s' : Builder) : Prop :=
  inv opn s' /\ keeps (length (heap s)) (heap s) (heap s') /\ impl opn (heap s') p a.
Lemma register_ok opn s s1 p a : p ∈ plan_nodes root -> keeps (length (heap s)) (heap s) (heap s1) -> inv opn s1 -> impl opn (heap s1) p a ->
  exists s', RegisterTask batch_common_node_set_ (p_id p) (CommonTask a) s1 = Some (CommonTask a, s') /\ built opn s p a s'.
Proof.
  intros Hp Hk Hi Ha. unfold RegisterTask, bind, modify. set (s2 := mkBuilder (heap s1) _ _ _ _ _ _ _).
  assert (inv opn s2) as Hi2.
  { destruct Hi as [H1 H2 H3 H4 H5]. split; [done|done| |done|done]. cbn. intros q t Hq. destruct (decide (p_id p = p_id q)) as [Ei|Hn].
    - rewrite Ei, lookup_insert_eq. intros [= <-]. exists a. split; [done|]. by rewrite <- (po_ids _ Hroot p q Hp Hq Ei).
    - rewrite lookup_insert_ne by done. by apply H3. }
  assert (impl opn (heap s2) p a) as Ha2 by done. destruct (batch_common_node_set_ (p_id p)).
  - destruct (flag_ok opn s2 a (fun o => mkObj (o_id o) (o_kind o) (o_limit o) (o_slices o) (o_need_cache o) true (o_producers o) (o_unions o) (o_joins o)) Hi2) as (s3 & Ef & Hi3 & Hk3 & _); [by eapply impl_bound|done|].
    unfold EnableBatchCache. cbn [root_ CommonTask]. rewrite Ef. eexists. split; [done|]. split; [done|]. split; [|eapply impl_sub; [by apply keeps_sub|exact Ha2]].
    eapply heap_keeps_trans; [exact Hk|]. eapply keeps_le; [|exact Hk3]. apply keeps_length in Hk. exact Hk.
  - eexists. split; [done|]. by split.
Qed.

(** *** Nodes *)

Definition builds (p : PNode) : Prop :=
  forall opn s, inv opn s -> p ∈ plan_nodes root -> is_Some (plan_tree p) -> exists a s', build p s = Some (CommonTask a, s') /\ built opn s p a s'.

Lemma mapM_Forall2 {A B} (f : A -> option B) l k : mapM_opt f l = Some k <-> Forall2 (fun x y => f x = Some y) l k.
Proof.
  revert k. induction l as [|x l IH]; intros k; cbn; [split; [intros [= <-]; constructor|by inversion 1]|]. destruct (f x) as [y|] eqn:Ef; cbn; [|split; [done|inversion 1; congruence]].
  destruct (mapM_opt f l) as [ys|] eqn:El; cbn; split.
  - intros [= <-]. constructor; [done|]. by apply IH.
  - inversion 1 as [|? y' ? ys' Hy Hys]; subst. apply IH in Hys. congruence.
  - done.
  - inversion 1 as [|? y' ? ys' Hy Hys]; subst. apply IH in Hys. congruence.
Qed.
Lemma tree_impl opn h p a r sl : impl opn h p a -> plan_tree p = Some (r, sl) -> tree (look opn h) plain a r /\ slices_at (look opn h) a = Some sl.
Proof. intros (r' & sl' & Hp & Ht & Hs) Hp'. simplify_eq. done. Qed.
(** A node whose runner has all its inputs. *)
Lemma impl_node opn h p r o aps aus ajs rps rus rjs lim op sl : plan_tree p = Some (runner0 lim op rps rus rjs, sl) -> look opn h r = Some o ->
  o_limit o = lim -> o_slices o = sl -> o_producers o = Some <$> aps -> o_unions o = Some <$> aus -> o_joins o = Some <$> ajs -> op_at (look opn h) aps (o_kind o) op ->
  Forall2 (tree (look opn h) plain) aps rps -> Forall2 (tree (look opn h) plain) aus rus -> Forall2 (tree (look opn h) plain) ajs rjs -> impl opn h p r.
Proof.
  intros Hp Hl <- <- Ep Eu Ej Ho Tp Tu Tj. exists (runner0 (o_limit o) op rps rus rjs), (o_slices o). split_and!; [done| |unfold slices_at; by rewrite Hl]. exact (tree_node (look opn h) plain r o aps aus ajs rps rus rjs op Hl Ep Eu Ej Tp Tu Tj Ho).
Qed.
Lemma look_last opn (s : Builder) o : inv opn s -> look opn (heap (append o s)) (length (heap s)) = Some o.
Proof. intros Hi. unfold look. rewrite decide_False by (intros ?%(inv_open _ _ Hi); lia). cbn. by rewrite list_lookup_middle. Qed.
Lemma child_nodes id sl lim op ps us js x : mkPNode id sl lim op ps us js ∈ plan_nodes root -> x ∈ ps ++ us ++ js -> x ∈ plan_nodes root.
Proof.
  assert (forall (q p : PNode), q ∈ plan_nodes p -> plan_nodes q ⊆ plan_nodes p) as Ht.
  { intros q. induction p as [id' sl' lim' op' ps' us' js' IHp IHu IHj] using plan_ind. intros Hq. cbn [plan_nodes] in Hq. apply elem_of_cons in Hq as [->|Hq]; [done|]. cbn [plan_nodes]. intros z Hz. right. revert Hq. rewrite !elem_of_app.
    assert (forall l, Forall (fun p => q ∈ plan_nodes p -> plan_nodes q ⊆ plan_nodes p) l -> q ∈ concat (plan_nodes <$> l) -> z ∈ concat (plan_nodes <$> l)) as Hl.
    { induction 1 as [|y l Hy HF IH]; [by intros ?%elem_of_nil|]. cbn. rewrite !elem_of_app. intros [Hq|Hq]; [left; by apply Hy|right; by apply IH]. }
    intros [Hq|[Hq|Hq]]; eauto. }
  intros Hn Hx. apply (Ht _ _ Hn). cbn [plan_nodes]. right. rewrite !elem_of_app in *.
  assert (forall l, x ∈ l -> x ∈ concat (plan_nodes <$> l)) as Hl. { induction l as [|y l IHl]; [by intros ?%elem_of_nil|]. cbn. rewrite elem_of_cons, elem_of_app. intros [->|?]; [left; destruct y; by left|right; auto]. }
  destruct Hx as [Hx|[Hx|Hx]]; auto.
Qed.

(** The inputs of a node. *)
Lemma one_input opn s p rest k : inv opn s -> builds p -> p ∈ plan_nodes root -> is_Some (plan_tree p) ->
  exists a s1, with_input build (p :: rest) k s = k (CommonTask a) s1 /\ built opn s p a s1.
Proof. intros Hi Hb Hp Hs. destruct (Hb opn s Hi Hp Hs) as (a & s1 & Hr & Ho). exists a, s1. split; [|done]. cbn [with_input]. unfold bind. by rewrite Hr. Qed.
Lemma two_inputs opn s pl pr rest k : inv opn s -> builds pl -> builds pr -> pl ∈ plan_nodes root -> pr ∈ plan_nodes root -> is_Some (plan_tree pl) -> is_Some (plan_tree pr) ->
  exists al ar s2, with_inputs build (pl :: pr :: rest) k s = k (CommonTask al) (CommonTask ar) s2 /\
    inv opn s2 /\ keeps (length (heap s)) (heap s) (heap s2) /\ impl opn (heap s2) pl al /\ impl opn (heap s2) pr ar.
Proof.
  intros Hi Hl Hr Hpl Hpr Hsl Hsr. unfold with_inputs. destruct (one_input opn s pl (pr :: rest) (fun left => right <-- build pr ;; if negb (IsValid right) then fail_with_status else k left right) Hi Hl Hpl Hsl) as (al & s1 & -> & Hi1 & Hk1 & Ha1).
  destruct (Hr opn s1 Hi1 Hpr Hsr) as (ar & s2 & E2 & Hi2 & Hk2 & Ha2). exists al, ar, s2. unfold bind. rewrite E2. split; [done|]. split; [done|]. split; [|split; [|done]].
  - eapply heap_keeps_trans; [exact Hk1|]. eapply keeps_le; [|exact Hk2]. by apply keeps_length.
  - eapply impl_sub; [by apply keeps_sub|exact Ha1].
Qed.

(** A runner without inputs, with one, with two. *)
Lemma leaf_ok opn s p sl lim op : inv opn s -> p ∈ plan_nodes root -> plan_tree p = Some (runner0 lim op [] [] [], sl) ->
  exists a s', (r <-- CreateRunner (KOp op) sl lim ;; RegisterTask batch_common_node_set_ (p_id p) (CommonTask r)) s = Some (CommonTask a, s') /\ built opn s p a s'.
Proof.
  intros Hi Hp Ht. set (o := mkObj (id_ s) (KOp op) lim sl false false [] [] []). unfold bind, CreateRunner. fold o. fold (append o s).
  destruct (register_ok opn s (append o s) p (length (heap s)) Hp (append_keeps s o)) as (s' & -> & Hb); [apply (append_inv opn opn); [done|done|set_solver]| |eauto].
  apply (impl_node opn _ p _ o [] [] [] [] [] [] lim op sl); try done; [by apply look_last|constructor].
Qed.
Lemma unary_ok opn s s1 p p0 a0 r0 sl0 sl lim op : inv opn s1 -> keeps (length (heap s)) (heap s) (heap s1) -> impl opn (heap s1) p0 a0 -> plan_tree p0 = Some (r0, sl0) ->
  p ∈ plan_nodes root -> plan_tree p = Some (runner0 lim op [r0] [] [], sl) ->
  exists a s', (r <-- CreateRunner (KOp op) sl lim ;; t <-- UnaryInheritTask (CommonTask a0) r ;; RegisterTask batch_common_node_set_ (p_id p) t) s1 = Some (CommonTask a, s') /\ built opn s p a s'.
Proof.
  intros Hi Hk Ha H0 Hp Ht. set (o := mkObj (id_ s1) (KOp op) lim sl false false [] [] []). set (o' := mkObj (id_ s1) (KOp op) lim sl false false [Some a0] [] []).
  unfold bind at 1, CreateRunner. fold o. fold (append o s1). unfold UnaryInheritTask, bind, AddProducer. rewrite with_last. cbn [fst snd]. fold o'. cbn [ret].
  destruct (register_ok opn s (append o' s1) p (length (heap s1)) Hp) as (s' & Er & Hb).
  - eapply heap_keeps_trans; [exact Hk|]. eapply keeps_le; [|apply append_keeps]. by apply keeps_length.
  - apply (append_inv opn opn); [done|done|set_solver].
  - apply (impl_node opn _ p _ o' [a0] [] [] [r0] [] [] lim op sl); try done; [by apply look_last|constructor|]. constructor; [|constructor]. eapply tree_impl; [|exact H0]. eapply impl_sub; [apply (append_sub opn opn); set_solver|done].
  - exists (length (heap s1)), s'. split; [exact Er|done].
Qed.
Lemma binary_ok opn s s1 p pl pr al ar rl rr ls rs sl lim kind op key bias : inv opn s1 -> keeps (length (heap s)) (heap s) (heap s1) -> impl opn (heap s1) pl al -> impl opn (heap s1) pr ar ->
  plan_tree pl = Some (rl, ls) -> plan_tree pr = Some (rr, rs) -> p ∈ plan_nodes root -> plan_tree p = Some (runner0 lim op [rl; rr] [] [], sl) ->
  kind = KOp op \/ (kind = KConcat /\ op = OpConcat ls rs) ->
  exists a s', (r <-- CreateRunner kind sl lim ;; t <-- BinaryInherit ExprListEquals false (CommonTask al) (CommonTask ar) r key bias ;; RegisterTask batch_common_node_set_ (p_id p) t) s1 = Some (CommonTask a, s') /\ built opn s p a s'.
Proof.
  intros Hi Hk Hl Hr H1 H2 Hp Ht Hop. set (o := mkObj (id_ s1) kind lim sl false false [] [] []). set (o' := mkObj (id_ s1) kind lim sl false false [Some al; Some ar] [] []).
  unfold bind at 1, CreateRunner. fold o. fold (append o s1). unfold BinaryInherit, BuildLocalTaskForBinaryRunner, bind, AddProducer. change (IsClusterTask (CommonTask (E := E) al) || IsClusterTask (CommonTask (E := E) ar)) with false. cbv iota. cbn [root_ CommonTask].
  rewrite with_last. cbn [fst snd]. rewrite with_last. cbn [fst snd o_id o_kind o_limit o_slices o_need_cache o_need_batch_cache o_producers o_unions o_joins o app]. fold o'. cbn [ret].
  assert (sub_heap (look opn (heap s1)) (look opn (heap (append o' s1)))) as Hs by (apply (append_sub opn opn); set_solver). pose proof (impl_sub _ _ _ _ _ _ Hs Hl) as Hl'. pose proof (impl_sub _ _ _ _ _ _ Hs Hr) as Hr'.
  destruct (tree_impl _ _ _ _ _ _ Hl' H1) as [Tl Sl]. destruct (tree_impl _ _ _ _ _ _ Hr' H2) as [Tr Sr].
  destruct (register_ok opn s (append o' s1) p (length (heap s1)) Hp) as (s' & Er & Hb).
  - eapply heap_keeps_trans; [exact Hk|]. eapply keeps_le; [|apply append_keeps]. by apply keeps_length.
  - apply (append_inv opn opn); [done|done|set_solver].
  - apply (impl_node opn _ p _ o' [al; ar] [] [] [rl; rr] [] [] lim op sl); try done; [by apply look_last| |by repeat constructor]. cbn. destruct Hop as [->|[-> ->]]; [constructor|by eapply op_concat].
  - exists (length (heap s1)), s'. split; [exact Er|done].
Qed.

(** *** Runners with windows *)

(** The runner at [r] is under construction: everything else is kept. *)
Definition keeps_but (r : nat) (h h' : list RunnerObj) : Prop := forall a o, a <> r -> h !! a = Some o -> exists o', h' !! a = Some o' /\ same o o'.
Definition holds_at (r : nat) (o : RunnerObj) (h : list RunnerObj) : Prop := exists x, h !! r = Some x /\ same x o.
Lemma keeps_but_refl r h : keeps_but r h h.
Proof. intros a o _ H. exists o. split; [done|apply same_refl]. Qed.
Lemma keeps_but_trans r h1 h2 h3 : keeps_but r h1 h2 -> keeps_but r h2 h3 -> keeps_but r h1 h3.
Proof. intros H1 H2 a o Hl Ha. destruct (H1 a o Hl Ha) as (o1 & E1 & S1). destruct (H2 a o1 Hl E1) as (o2 & E2 & S2). exists o2. split; [done|by eapply same_trans]. Qed.
Lemma keeps_but_sub r opn h h' : r ∈ opn -> keeps_but r h h' -> sub_heap (look opn h) (look opn h').
Proof. intros Hr Hk a o. unfold look. case_decide; [done|]. intros Ha. apply (Hk a o); [by intros ->|done]. Qed.
Lemma keeps_keeps_but r h h' : keeps (length h) h h' -> keeps_but r h h'.
Proof. intros Hk a o _ Ha. apply (Hk a o); [by eapply lookup_lt_Some|done]. Qed.
Lemma holds_keeps r o h h' : keeps (length h) h h' -> holds_at r o h -> holds_at r o h'.
Proof.
  intros Hk (x & Hx & Sx). destruct (Hk r x) as (x' & Hx' & Sx'); [by eapply lookup_lt_Some|done|]. exists x'. split; [done|]. unfold same in *. intuition congruence.
Qed.
Lemma open_step opn r (s : Builder) (f : RunnerObj -> RunnerObj) o o' : inv opn s -> r ∈ opn -> holds_at r o (heap s) -> (forall x, same x o -> same (f x) o' /\ o_id (f x) = o_id x) ->
  exists s', with_runner (Some r) (fun o => (tt, f o)) s = Some (tt, s') /\ inv opn s' /\ keeps_but r (heap s) (heap s') /\ holds_at r o' (heap s').
Proof.
  intros Hi Hr (x & Hx & Sx) Hf. destruct (Hf x Sx) as [Sf If]. pose proof (lookup_lt_Some _ _ _ Hx) as Hl. unfold with_runner. cbn [mbind option_bind]. rewrite Hx. cbn [mbind option_bind]. eexists. split; [done|].
  assert (keeps_but r (heap s) (<[r:=f x]> (heap s))) as Hk. { intros a y Ha Hy. rewrite list_lookup_insert_ne by done. exists y. split; [done|apply same_refl]. }
  split; [|split; [done|exists (f x); split; [cbn; by rewrite list_lookup_insert_eq|done]]]. eapply inv_sub; [exact Hi|by apply (keeps_but_sub r)| | |done|done|]; cbn.
  - intros b y Hy. destruct (decide (r = b)) as [->|Hn]; [|rewrite list_lookup_insert_ne in Hy by done; by eapply (inv_ids _ _ Hi)]. rewrite list_lookup_insert_eq in Hy by done. injection Hy as <-. rewrite If. by apply (inv_ids _ _ Hi).
  - rewrite length_insert. apply (inv_next _ _ Hi).
  - rewrite length_insert. apply (inv_open _ _ Hi).
Qed.

Definition with_inputs_of (o : RunnerObj) (k : RunnerKind) (ps us js : list (option nat)) : RunnerObj :=
  mkObj (o_id o) k (o_limit o) (o_slices o) (o_need_cache o) (o_need_batch_cache o) ps us js.
Definition agg_kind (w : WindowAggRunner) (ws : list WindowGenerator) (jo : list JoinGenerator) : RunnerKind :=
  KOp (OpWindowAgg (mkWindowAggRunner (wa_limit_cnt w) (wa_instance_not_in_window w) (wa_exclude_current_time w) (wa_append_slices w) (wa_instance_window_gen w) (wa_union_windows_gen w ++ ws) (wa_joins_gen w ++ jo) (wa_window_project_gen w))).
Lemma agg_kind_nil w : agg_kind w [] [] = KOp (OpWindowAgg w).
Proof. destruct w. unfold agg_kind. cbn. by rewrite !app_nil_r. Qed.
Ltac same_step := let x := fresh in intros x (? & Ek & ? & ? & Ep & Eu & Ej); (split; [|done]); cbn in Ek, Ep, Eu, Ej; unfold same; cbn; rewrite ?Ek, ?Ep, ?Eu, ?Ej; cbn; unfold agg_kind; rewrite ?app_nil_r, <- ?app_assoc; done.

Lemma window_unions_ok opn r us : Forall builds us -> forall ws s o w vs U, inv opn s -> r ∈ opn -> holds_at r (with_inputs_of o (agg_kind w vs []) [] U []) (heap s) -> length us = length ws ->
  Forall (fun p => p ∈ plan_nodes root /\ is_Some (plan_tree p)) us ->
  exists as_ s', window_unions build r us ws s = Some (true, s') /\ inv opn s' /\ keeps_but r (heap s) (heap s') /\
    holds_at r (with_inputs_of o (agg_kind w (vs ++ ws) []) [] (U ++ (Some <$> as_)) []) (heap s') /\ Forall2 (impl opn (heap s')) us as_.
Proof.
  induction 1 as [|u us Hu HF IH]; intros ws s o w vs U Hi Hr Ho Hlen Hn; destruct ws as [|v ws]; try done.
  - exists [], s. cbn. rewrite !app_nil_r. split_and!; try done. apply keeps_but_refl.
  - apply Forall_cons_1 in Hn as [[Hn1 Hn2] Hn]. cbn in Hlen. cbn [window_unions]. destruct (Hu opn s Hi Hn1 Hn2) as (a & s1 & Eb & Hi1 & Hk1 & Ha1). unfold bind at 1. rewrite Eb. cbn [root_ CommonTask].
    destruct (open_step opn r s1 (fun x => mkObj (o_id x) (agg_union v (o_kind x)) (o_limit x) (o_slices x) (o_need_cache x) (o_need_batch_cache x) (o_producers x) (o_unions x ++ [Some a]) (o_joins x))
      (with_inputs_of o (agg_kind w vs []) [] U []) (with_inputs_of o (agg_kind w (vs ++ [v]) []) [] (U ++ [Some a]) []) Hi1 Hr) as (s2 & E2 & Hi2 & Hk2 & Ho2); [by eapply holds_keeps|same_step|].
    unfold WindowAgg_AddWindowUnion, add_union, bind at 1. rewrite E2.
    destruct (IH ws s2 o w (vs ++ [v]) (U ++ [Some a]) Hi2 Hr Ho2) as (as_ & s3 & E3 & Hi3 & Hk3 & Ho3 & Hs3); [lia|done|]. exists (a :: as_), s3. rewrite <- !app_assoc in Ho3. cbn [app] in Ho3. split; [exact E3|]. split; [done|]. split; [|split; [exact Ho3|constructor; [|done]]].
    + eapply keeps_but_trans; [by eapply keeps_keeps_but|]. by eapply keeps_but_trans.
    + eapply impl_sub; [eapply (keeps_but_sub r); [done|]|exact Ha1]. by eapply keeps_but_trans.
Qed.
Lemma window_joins_ok opn r ls js : Forall builds js -> forall jo rjs s o w vs gs U J, inv opn s -> r ∈ opn -> holds_at r (with_inputs_of o (agg_kind w vs gs) [] U J) (heap s) -> length js = length jo ->
  Forall (fun p => p ∈ plan_nodes root) js -> Forall2 (fun p y => plan_tree p = Some y) js rjs ->
  exists as_ s', window_joins build r ls js jo s = Some (true, s') /\ inv opn s' /\ keeps_but r (heap s) (heap s') /\
    holds_at r (with_inputs_of o (agg_kind w vs (gs ++ zip_with (fun j (x : Runner * Z) => JoinGenerator_new j ls x.2) jo rjs)) [] U (J ++ (Some <$> as_))) (heap s') /\ Forall2 (impl opn (heap s')) js as_.
Proof.
  induction 1 as [|u js Hu HF IH]; intros jo rjs s o w vs gs U J Hi Hr Ho Hlen Hn Ht; destruct jo as [|v jo]; try done.
  - exists [], s. inversion Ht; subst. cbn. rewrite !app_nil_r. split_and!; try done. apply keeps_but_refl.
  - apply Forall_cons_1 in Hn as [Hn1 Hn]. inversion Ht as [|? [ru su] ? rjs' Hu1 Ht']; subst. cbn in Hlen. cbn [window_joins]. destruct (Hu opn s Hi Hn1 ltac:(by eexists)) as (a & s1 & Eb & Hi1 & Hk1 & Ha1). unfold bind at 1. rewrite Eb. cbn [root_ CommonTask].
    destruct (tree_impl _ _ _ _ _ _ Ha1 Hu1) as [_ Sa]. unfold AddWindowJoin, bind at 1 2. rewrite (output_slices_ok _ _ _ _ Sa).
    destruct (open_step opn r s1 (fun x => mkObj (o_id x) (agg_join (JoinGenerator_new v ls su) (o_kind x)) (o_limit x) (o_slices x) (o_need_cache x) (o_need_batch_cache x) (o_producers x) (o_unions x) (o_joins x ++ [Some a]))
      (with_inputs_of o (agg_kind w vs gs) [] U J) (with_inputs_of o (agg_kind w vs (gs ++ [JoinGenerator_new v ls su])) [] U (J ++ [Some a])) Hi1 Hr) as (s2 & E2 & Hi2 & Hk2 & Ho2); [by eapply holds_keeps|same_step|].
    unfold add_join. rewrite E2.
    destruct (IH jo rjs' s2 o w vs (gs ++ [JoinGenerator_new v ls su]) U (J ++ [Some a]) Hi2 Hr Ho2) as (as_ & s3 & E3 & Hi3 & Hk3 & Ho3 & Hs3); [lia|done|done|]. exists (a :: as_), s3. rewrite <- !app_assoc in Ho3. cbn [app] in Ho3. split; [exact E3|]. split; [done|]. split; [|split; [exact Ho3|constructor; [|done]]].
    + eapply keeps_but_trans; [by eapply keeps_keeps_but|]. by eapply keeps_but_trans.
    + eapply impl_sub; [eapply (keeps_but_sub r); [done|]|exact Ha1]. by eapply keeps_but_trans.
Qed.
Definition union_kind (w : RequestUnionRunner) (ws : list RequestWindowGenertor) : RunnerKind :=
  KOp (OpRequestUnion (mkRequestUnionRunner (ru_windows_gen w ++ ws) (ru_ts_gen w) (ru_window_range w) (ru_exclude_current_time w) (ru_output_request_row w))).
Ltac union_step := let x := fresh in intros x (? & Ek & ? & ? & Ep & Eu & Ej); (split; [|done]); cbn in Ek, Ep, Eu, Ej; unfold same; cbn; rewrite ?Ek, ?Ep, ?Eu, ?Ej; cbn; unfold union_kind; rewrite ?app_nil_r, <- ?app_assoc; done.
Lemma request_unions_ok opn r ar us : Forall builds us -> forall ws s o w vs U key, inv opn s -> r ∈ opn -> holds_at r (with_inputs_of o (union_kind w vs) [] U []) (heap s) -> length us = length ws ->
  Forall (fun p => p ∈ plan_nodes root /\ is_Some (plan_tree p)) us ->
  exists as_ key' s', request_unions false build r (Some ar) us ws (CommonTask ar) key s = Some (UnionDone (CommonTask ar) key', s') /\ inv opn s' /\ keeps_but r (heap s) (heap s') /\
    holds_at r (with_inputs_of o (union_kind w (vs ++ (RequestWindowGenertor_new <$> ws))) [] (U ++ (Some <$> as_)) []) (heap s') /\ Forall2 (impl opn (heap s')) us as_.
Proof.
  induction 1 as [|u us Hu HF IH]; intros ws s o w vs U key Hi Hr Ho Hlen Hn; destruct ws as [|v ws]; try done.
  - exists [], key, s. cbn. rewrite !app_nil_r. split_and!; try done. apply keeps_but_refl.
  - apply Forall_cons_1 in Hn as [[Hn1 Hn2] Hn]. cbn in Hlen. cbn [request_unions]. destruct (Hu opn s Hi Hn1 Hn2) as (a & s1 & Eb & Hi1 & Hk1 & Ha1). unfold bind at 1. rewrite Eb. cbn [root_ CommonTask].
    destruct (open_step opn r s1 (fun x => mkObj (o_id x) (request_union v (o_kind x)) (o_limit x) (o_slices x) (o_need_cache x) (o_need_batch_cache x) (o_producers x) (o_unions x ++ [Some a]) (o_joins x))
      (with_inputs_of o (union_kind w vs) [] U []) (with_inputs_of o (union_kind w (vs ++ [RequestWindowGenertor_new v])) [] (U ++ [Some a]) []) Hi1 Hr) as (s2 & E2 & Hi2 & Hk2 & Ho2); [by eapply holds_keeps|union_step|].
    unfold RequestUnion_AddWindowUnion, add_union, bind at 1. rewrite E2.
    assert (forall key2, exists as_ key' s', request_unions false build r (Some ar) us ws (CommonTask ar) key2 s2 = Some (UnionDone (CommonTask ar) key', s') /\ inv opn s' /\ keeps_but r (heap s) (heap s') /\
      holds_at r (with_inputs_of o (union_kind w (vs ++ (RequestWindowGenertor_new <$> v :: ws))) [] (U ++ (Some <$> a :: as_)) []) (heap s') /\ Forall2 (impl opn (heap s')) (u :: us) (a :: as_)) as Hrest.
    { intros key2. destruct (IH ws s2 o w (vs ++ [RequestWindowGenertor_new v]) (U ++ [Some a]) key2 Hi2 Hr Ho2) as (as_ & key' & s3 & E3 & Hi3 & Hk3 & Ho3 & Hs3); [lia|done|]. exists as_, key', s3. rewrite <- !app_assoc in Ho3. cbn [app] in Ho3. split; [exact E3|]. split; [done|]. split; [|split; [exact Ho3|constructor; [|done]]].
      - eapply keeps_but_trans; [by eapply keeps_keeps_but|]. by eapply keeps_but_trans.
      - eapply impl_sub; [eapply (keeps_but_sub r); [done|]|exact Ha1]. by eapply keeps_but_trans. }
    destruct (negb (ValidKey key)); [destruct (Hrest (rwo_index_key v)) as (as_ & key' & s' & Er & Hx)|destruct (Hrest key) as (as_ & key' & s' & Er & Hx)]; exists (a :: as_), key', s'; (split; [exact Er|exact Hx]).
Qed.

(** A finished runner is visible again. *)
Lemma close_inv opn r s : inv ({[r]} ∪ opn) s -> inv opn s.
Proof.
  intros Hi. eapply inv_sub; [exact Hi| |apply (inv_ids _ _ Hi)|apply (inv_next _ _ Hi)|done|done|intros a Ha; apply (inv_open _ _ Hi); set_solver]. intros a o. unfold look. case_decide; [done|]. rewrite decide_False by set_solver. intros Ha. exists o. split; [done|apply same_refl].
Qed.
Lemma close_sub opn r h : sub_heap (look ({[r]} ∪ opn) h) (look opn h).
Proof. intros a o. unfold look. case_decide; [done|]. rewrite decide_False by set_solver. intros Ha. exists o. split; [done|apply same_refl]. Qed.
Lemma impl_trees opn h l as_ ys : Forall2 (impl opn h) l as_ -> Forall2 (fun p y => plan_tree p = Some y) l ys -> Forall2 (tree (look opn h) plain) as_ ys.*1.
Proof. intros H1. revert ys. induction H1 as [|p a l as_ Hp H1 IH]; intros ys H2; inversion H2 as [|? [r sl] ? ys' Hy H2']; subst; constructor; [by apply (tree_impl _ _ _ _ _ _ Hp Hy)|by apply IH]. Qed.
Lemma keeps_but_keeps lo r h h' : (lo <= r)%nat -> keeps_but r h h' -> keeps lo h h'.
Proof. intros Hl Hk a o Ha. apply Hk. lia. Qed.
Lemma finish_open opn (s s5 : Builder) p r o aps aus ajs rps rus rjs lim op sl : inv ({[r]} ∪ opn) s5 -> r ∉ opn -> holds_at r o (heap s5) -> keeps (length (heap s)) (heap s) (heap s5) ->
  p ∈ plan_nodes root -> plan_tree p = Some (runner0 lim op rps rus rjs, sl) -> o_kind o = KOp op -> o_limit o = lim -> o_slices o = sl -> o_producers o = Some <$> aps -> o_unions o = Some <$> aus -> o_joins o = Some <$> ajs ->
  Forall2 (tree (look ({[r]} ∪ opn) (heap s5)) plain) aps rps -> Forall2 (tree (look ({[r]} ∪ opn) (heap s5)) plain) aus rus -> Forall2 (tree (look ({[r]} ∪ opn) (heap s5)) plain) ajs rjs ->
  exists a s', RegisterTask batch_common_node_set_ (p_id p) (CommonTask r) s5 = Some (CommonTask a, s') /\ built opn s p a s'.
Proof.
  intros Hi Hr (x & Hx & Sx) Hk Hp Ht Ek El Es Ep Eu Ej Tp Tu Tj. destruct Sx as (_ & Sk & Sl & Ss & Sp & Su & Sj).
  assert (forall l k, Forall2 (tree (look ({[r]} ∪ opn) (heap s5)) plain) l k -> Forall2 (tree (look opn (heap s5)) plain) l k) as Hm. { intros l k H. eapply Forall2_impl; [exact H|]. intros a y. apply tree_sub, close_sub. }
  destruct (register_ok opn s s5 p r Hp Hk) as (s' & Er & Hb); [by eapply close_inv| |exists r, s'; by split].
  apply (impl_node opn (heap s5) p r x aps aus ajs rps rus rjs lim op sl); try congruence; try (by apply Hm); [unfold look; by rewrite decide_False|rewrite Sk, Ek; constructor].
Qed.
Lemma window_agg_ok opn (s s1 : Builder) id sl lim w fn inst excl append_ ws jo p0 rest us js a0 r0 sl0 ins rus rjs :
  let node := mkPNode id sl lim (PWindowAggregation w fn inst excl append_ ws jo) (p0 :: rest) us js in
  inv opn s1 -> keeps (length (heap s)) (heap s) (heap s1) -> impl opn (heap s1) p0 a0 -> plan_tree p0 = Some (r0, sl0) -> node ∈ plan_nodes root ->
  mapM_opt plan_tree (p0 :: rest) = Some ((r0, sl0) :: ins) -> Forall2 (fun p y => plan_tree p = Some y) us rus -> Forall2 (fun p y => plan_tree p = Some y) js rjs -> Forall builds us -> Forall builds js ->
  exists a s', (r <-- CreateRunner (KOp (OpWindowAgg (mkWindowAggRunner lim inst excl (if append_ then sl else 0) w [] [] fn))) sl lim ;;
    input_slices <-- output_slices (root_ (CommonTask (E := E) a0)) ;; ok <-- window_unions build r us ws ;;
    if negb ok then RegisterTask batch_common_node_set_ id InvalidTask
    else ok <-- window_joins build r input_slices js jo ;;
      if negb ok then RegisterTask batch_common_node_set_ id InvalidTask
      else t' <-- UnaryInheritTask (CommonTask a0) r ;; RegisterTask batch_common_node_set_ id t') s1 = Some (CommonTask a, s') /\ built opn s node a s'.
Proof.
  intros node Hi Hk Ha H0 Hn Hins Hus Hjs Bu Bj. set (wr := mkWindowAggRunner lim inst excl (if append_ then sl else 0) w [] [] fn). set (o := mkObj (id_ s1) (KOp (OpWindowAgg wr)) lim sl false false [] [] []). set (r := length (heap s1)).
  pose proof (proj1 (Forall_forall _ _) (po_windows _ Hroot) _ Hn) as Hw. cbn in Hw. destruct Hw as [Lu Lj].
  assert (r ∉ opn) as Hr by (intros ?%(inv_open _ _ Hi); unfold r in *; lia). unfold bind at 1, CreateRunner. fold o. fold (append o s1). fold r.
  assert (inv ({[r]} ∪ opn) (append o s1)) as Hi2 by (apply (append_inv opn); done). assert (sub_heap (look opn (heap s1)) (look ({[r]} ∪ opn) (heap (append o s1)))) as Hs2 by (by apply (append_sub opn)).
  pose proof (impl_sub _ _ _ _ _ _ Hs2 Ha) as Ha2. destruct (tree_impl _ _ _ _ _ _ Ha2 H0) as [_ Sa]. unfold bind at 1. cbn [root_ CommonTask]. rewrite (output_slices_ok _ _ _ _ Sa).
  assert (holds_at r (with_inputs_of o (agg_kind wr [] []) [] [] []) (heap (append o s1))) as Ho2 by (exists o; split; [cbn; by rewrite list_lookup_middle|done]).
  destruct (window_unions_ok ({[r]} ∪ opn) r us Bu ws (append o s1) o wr [] [] Hi2 ltac:(set_solver) Ho2 Lu) as (aus & s3 & E3 & Hi3 & Hk3 & Ho3 & Hu3).
  { apply Forall_forall. intros x Hx. split; [by eapply child_nodes; [exact Hn|set_solver]|]. apply list_elem_of_lookup in Hx as [i Hx]. destruct (Forall2_lookup_l _ _ _ _ _ Hus Hx) as (y & _ & ->). by eexists. }
  unfold bind at 1. rewrite E3. cbn [negb].
  destruct (window_joins_ok ({[r]} ∪ opn) r sl0 js Bj jo rjs s3 o wr ws [] (Some <$> aus) [] Hi3 ltac:(set_solver) Ho3 Lj) as (ajs & s4 & E4 & Hi4 & Hk4 & Ho4 & Hj4); [|done|].
  { apply Forall_forall. intros x Hx. by eapply child_nodes; [exact Hn|set_solver]. }
  unfold bind at 1. rewrite E4. cbn [negb]. unfold UnaryInheritTask, bind at 1 2, AddProducer. cbn [root_ CommonTask app] in *.
  destruct (open_step ({[r]} ∪ opn) r s4 (fun x => mkObj (o_id x) (o_kind x) (o_limit x) (o_slices x) (o_need_cache x) (o_need_batch_cache x) (o_producers x ++ [Some a0]) (o_unions x) (o_joins x))
    _ (with_inputs_of o (agg_kind wr ws (zip_with (fun j (x : Runner * Z) => JoinGenerator_new j sl0 x.2) jo rjs)) [Some a0] (Some <$> aus) (Some <$> ajs)) Hi4 ltac:(set_solver) Ho4) as (s5 & E5 & Hi5 & Hk5 & Ho5); [same_step|].
  rewrite E5. cbn [ret SetRoot CommonTask input_runners_ route_info_]. assert (keeps_but r (heap (append o s1)) (heap s5)) as Hkb by (eapply keeps_but_trans; [exact Hk3|by eapply keeps_but_trans]).
  assert (forall h, keeps_but r h (heap s5) -> sub_heap (look ({[r]} ∪ opn) h) (look ({[r]} ∪ opn) (heap s5))) as Hsub by (intros h; apply keeps_but_sub; set_solver).
  apply (finish_open opn s s5 node r _ [a0] aus ajs [r0] rus.*1 rjs.*1 lim (OpWindowAgg (mkWindowAggRunner lim inst excl (if append_ then sl else 0) w ws (zip_with (fun j (x : Runner * Z) => JoinGenerator_new j sl0 x.2) jo rjs) fn)) sl Hi5 Hr Ho5); try done.
  - pose proof (keeps_length _ _ Hk). eapply heap_keeps_trans; [exact Hk|]. eapply heap_keeps_trans; [eapply keeps_le; [|apply (append_keeps s1 o)]; done|]. eapply keeps_but_keeps; [|exact Hkb]. done.
  - cbn [plan_tree node]. rewrite Hins. cbn [mbind option_bind]. rewrite (proj2 (mapM_Forall2 _ _ _) Hus), (proj2 (mapM_Forall2 _ _ _) Hjs). done.
  - constructor; [|constructor]. apply (tree_impl _ _ _ _ _ _ (impl_sub _ _ _ _ _ _ (Hsub _ Hkb) Ha2) H0).
  - eapply Forall2_impl; [eapply impl_trees; [exact Hu3|exact Hus]|]. intros ? ?. apply tree_sub, Hsub. by eapply keeps_but_trans.
  - eapply Forall2_impl; [eapply impl_trees; [exact Hj4|exact Hjs]|]. intros ? ?. by apply tree_sub, Hsub.
Qed.
Lemma request_union_ok opn (s s1 : Builder) id sl lim ts range w inst excl out ws pl pr rest us js al ar rl rr ls rs ins rus rjs :
  let node := mkPNode id sl lim (PRequestUnion ts range w inst excl out ws) (pl :: pr :: rest) us js in
  inv opn s1 -> keeps (length (heap s)) (heap s) (heap s1) -> impl opn (heap s1) pl al -> impl opn (heap s1) pr ar -> plan_tree pl = Some (rl, ls) -> plan_tree pr = Some (rr, rs) -> node ∈ plan_nodes root ->
  mapM_opt plan_tree (pl :: pr :: rest) = Some ((rl, ls) :: (rr, rs) :: ins) -> Forall2 (fun p y => plan_tree p = Some y) us rus -> Forall2 (fun p y => plan_tree p = Some y) js rjs -> Forall builds us ->
  exists a s', (r <-- CreateRunner (KOp (OpRequestUnion (mkRequestUnionRunner [] ts range excl out))) sl lim ;;
    (if negb inst then RequestUnion_AddWindowUnion r w (root_ (CommonTask (E := E) ar)) else ret tt) ;;;
    e <-- request_unions false build r (root_ (CommonTask (E := E) ar)) us ws (CommonTask ar) (if negb inst then rwo_index_key w else NoKey) ;;
    match e with
    | UnionFail => RegisterTask batch_common_node_set_ id InvalidTask
    | UnionMulti => ret InvalidTask
    | UnionDone right_task index_key => t <-- BinaryInherit ExprListEquals false (CommonTask al) right_task r index_key kRightBias ;; RegisterTask batch_common_node_set_ id t
    end) s1 = Some (CommonTask a, s') /\ built opn s node a s'.
Proof.
  intros node Hi Hk Hal Har H1 H2 Hn Hins Hus Hjs Bu. set (wr := mkRequestUnionRunner [] ts range excl out). set (o := mkObj (id_ s1) (KOp (OpRequestUnion wr)) lim sl false false [] [] []). set (r := length (heap s1)).
  pose proof (proj1 (Forall_forall _ _) (po_windows _ Hroot) _ Hn) as Lu. cbn in Lu.
  assert (r ∉ opn) as Hr by (intros ?%(inv_open _ _ Hi); unfold r in *; lia). unfold bind at 1, CreateRunner. fold o. fold (append o s1). fold r.
  assert (inv ({[r]} ∪ opn) (append o s1)) as Hi2 by (apply (append_inv opn); done). assert (sub_heap (look opn (heap s1)) (look ({[r]} ∪ opn) (heap (append o s1)))) as Hs2 by (by apply (append_sub opn)).
  pose proof (impl_sub _ _ _ _ _ _ Hs2 Hal) as Hal2. pose proof (impl_sub _ _ _ _ _ _ Hs2 Har) as Har2. cbn [root_ CommonTask].
  assert (holds_at r (with_inputs_of o (union_kind wr []) [] [] []) (heap (append o s1))) as Ho2 by (exists o; split; [cbn; by rewrite list_lookup_middle|done]).
  set (own := if inst then [] else [w]). set (own_in := if inst then [] else [Some ar]).
  assert (exists s2, (if negb inst then RequestUnion_AddWindowUnion r w (Some ar) else ret tt) (append o s1) = Some (tt, s2) /\ inv ({[r]} ∪ opn) s2 /\ keeps_but r (heap (append o s1)) (heap s2) /\
    holds_at r (with_inputs_of o (union_kind wr (RequestWindowGenertor_new <$> own)) [] own_in []) (heap s2)) as (s2 & E2 & Hi2' & Hk2 & Ho2').
  { unfold own, own_in. destruct inst; cbn [negb]; [exists (append o s1); split_and!; try done; apply keeps_but_refl|]. apply (open_step ({[r]} ∪ opn) r (append o s1) (fun x => mkObj (o_id x) (request_union w (o_kind x)) (o_limit x) (o_slices x) (o_need_cache x) (o_need_batch_cache x) (o_producers x) (o_unions x ++ [Some ar]) (o_joins x)) _ _ Hi2 ltac:(set_solver) Ho2). union_step. }
  unfold bind at 1. rewrite E2. destruct (request_unions_ok ({[r]} ∪ opn) r ar us Bu ws s2 o wr (RequestWindowGenertor_new <$> own) own_in (if negb inst then rwo_index_key w else NoKey) Hi2' ltac:(set_solver) Ho2' Lu) as (aus & key & s3 & E3 & Hi3 & Hk3 & Ho3 & Hu3).
  { apply Forall_forall. intros x Hx. split; [by eapply child_nodes; [exact Hn|set_solver]|]. apply list_elem_of_lookup in Hx as [i Hx]. destruct (Forall2_lookup_l _ _ _ _ _ Hus Hx) as (y & _ & ->). by eexists. }
  unfold bind at 1. rewrite E3. unfold BinaryInherit, BuildLocalTaskForBinaryRunner. change (IsClusterTask (CommonTask (E := E) al) || IsClusterTask (CommonTask (E := E) ar)) with false. cbv iota. unfold bind at 1 2 3, AddProducer. cbn [root_ CommonTask].
  destruct (open_step ({[r]} ∪ opn) r s3 (fun x => mkObj (o_id x) (o_kind x) (o_limit x) (o_slices x) (o_need_cache x) (o_need_batch_cache x) (o_producers x ++ [Some al]) (o_unions x) (o_joins x))
    _ (with_inputs_of o (union_kind wr ((RequestWindowGenertor_new <$> own) ++ (RequestWindowGenertor_new <$> ws))) [Some al] (own_in ++ (Some <$> aus)) []) Hi3 ltac:(set_solver) Ho3) as (s4 & E4 & Hi4 & Hk4 & Ho4); [union_step|].
  rewrite E4. destruct (open_step ({[r]} ∪ opn) r s4 (fun x => mkObj (o_id x) (o_kind x) (o_limit x) (o_slices x) (o_need_cache x) (o_need_batch_cache x) (o_producers x ++ [Some ar]) (o_unions x) (o_joins x))
    _ (with_inputs_of o (union_kind wr ((RequestWindowGenertor_new <$> own) ++ (RequestWindowGenertor_new <$> ws))) [Some al; Some ar] (own_in ++ (Some <$> aus)) []) Hi4 ltac:(set_solver) Ho4) as (s5 & E5 & Hi5 & Hk5 & Ho5); [union_step|].
  rewrite E5. cbn [ret]. assert (keeps_but r (heap (append o s1)) (heap s5)) as Hkb by (eapply keeps_but_trans; [exact Hk2|eapply keeps_but_trans; [exact Hk3|by eapply keeps_but_trans]]).
  assert (forall h, keeps_but r h (heap s5) -> sub_heap (look ({[r]} ∪ opn) h) (look ({[r]} ∪ opn) (heap s5))) as Hsub by (intros h; apply keeps_but_sub; set_solver).
  destruct (tree_impl _ _ _ _ _ _ (impl_sub _ _ _ _ _ _ (Hsub _ Hkb) Hal2) H1) as [Tl _]. destruct (tree_impl _ _ _ _ _ _ (impl_sub _ _ _ _ _ _ (Hsub _ Hkb) Har2) H2) as [Tr _].
  apply (finish_open opn s s5 node r _ [al; ar] ((if inst then [] else [ar]) ++ aus) [] [rl; rr] ((if inst then [] else [rr]) ++ rus.*1) [] lim (OpRequestUnion (mkRequestUnionRunner (RequestWindowGenertor_new <$> own ++ ws) ts range excl out)) sl Hi5 Hr Ho5); try done.
  - pose proof (keeps_length _ _ Hk). eapply heap_keeps_trans; [exact Hk|]. eapply heap_keeps_trans; [eapply keeps_le; [|apply (append_keeps s1 o)]; done|]. eapply keeps_but_keeps; [|exact Hkb]. done.
  - cbn [plan_tree node]. rewrite Hins. cbn [mbind option_bind]. rewrite (proj2 (mapM_Forall2 _ _ _) Hus), (proj2 (mapM_Forall2 _ _ _) Hjs). done.
  - cbn. unfold union_kind. cbn. by rewrite fmap_app.
  - cbn. unfold own_in. rewrite fmap_app. by destruct inst.
  - by repeat constructor.
  - apply Forall2_app; [destruct inst; by repeat constructor|]. eapply Forall2_impl; [eapply impl_trees; [exact Hu3|exact Hus]|]. intros ? ?. apply tree_sub, Hsub. by eapply keeps_but_trans.
Qed.

(** ** Building a plan *)

Ltac unary_case :=
  match goal with Hi : inv ?opn ?s, IH0 : builds ?p0, Hp0 : plan_tree ?p0 = Some _ |- context [with_input _ (?p0 :: ?rest) ?k ?s] =>
    let Hc := fresh in let E1 := fresh in
    destruct (one_input opn s p0 rest k Hi IH0 ltac:(auto using list_elem_of_here) ltac:(by eexists)) as (a0 & s1 & E1 & Hi1 & Hk1 & Ha1); rewrite E1; clear E1 end.
Ltac binary_case :=
  lazymatch goal with Frest : Forall2 _ ?rest0 ?ins, IHp : Forall _ ?rest0 |- context [with_inputs _ (_ :: ?rest0) _ _] =>
    destruct ins as [|[r2 sl2] ins]; [exfalso; try (match goal with H : context [join_type ?j] |- _ => destruct (join_type j) end); match goal with H : _ = Some (_, _) |- _ => discriminate H end|]; inversion Frest as [|p1 ? rest1 ? Hp1 Frest1]; subst; apply Forall_cons_1 in IHp as [IH1 IHp1] end;
  lazymatch goal with Hi : inv ?opn ?s, IH0 : builds ?p0, IH1 : builds ?p1 |- context [with_inputs _ (?p0 :: ?p1 :: ?rest) ?k ?s] =>
    let E1 := fresh in
    destruct (two_inputs opn s p0 p1 rest k Hi IH0 IH1 ltac:(auto using list_elem_of_here, list_elem_of_further) ltac:(auto using list_elem_of_here, list_elem_of_further) ltac:(by eexists) ltac:(by eexists)) as (a1 & a2 & s1 & E1 & Hi1 & Hk1 & Ha1 & Ha2); rewrite E1; clear E1 end.
Lemma request_leaf_ok opn s p sl : inv opn s -> p ∈ plan_nodes root -> plan_tree p = Some (runner0 0 OpRequest [] [] [], sl) ->
  exists a s', (r <-- CreateRunner (KOp OpRequest) sl 0 ;; t <-- BuildRequestTask r ;; RegisterTask batch_common_node_set_ (p_id p) t) s = Some (CommonTask a, s') /\ built opn s p a s'.
Proof.
  intros Hi Hp Ht. set (o := mkObj (id_ s) (KOp OpRequest) 0 sl false false [] [] []). unfold bind at 1, CreateRunner. fold o. fold (append o s).
  assert (inv opn (append o s)) as Hi1 by (apply (append_inv opn opn); [done|done|set_solver]). unfold bind at 1, BuildRequestTask. unfold bind, make_shared, modify. cbn [ret]. set (s2 := mkBuilder _ _ _ _ _ (Some _) _ _).
  destruct (register_ok opn s s2 p (length (heap s)) Hp (append_keeps s o)) as (s' & -> & Hb); [|apply (impl_node opn _ p _ o [] [] [] [] [] [] 0 OpRequest sl); try done; [by apply look_last|constructor]|eauto].
  eapply inv_sub; [exact Hi1|apply sub_refl|apply (inv_ids _ _ Hi1)|apply (inv_next _ _ Hi1)|done|done|apply (inv_open _ _ Hi1)].
Qed.
Lemma build_node p : builds p.
Proof.
  induction p as [id sl lim op ps us js IHp IHu IHj] using plan_ind. intros opn s Hi Hn [[r0 sl0] Ht]. set (node := mkPNode id sl lim op ps us js) in *. cbn [Build node]. fold node. unfold bind at 1, get.
  destruct (task_map_ s !! id) as [t|] eqn:Em.
  { destruct (inv_map _ _ Hi node t Hn Em) as (a & -> & Ha). destruct (flag_ok opn s a (fun o => mkObj (o_id o) (o_kind o) (o_limit o) (o_slices o) true (o_need_batch_cache o) (o_producers o) (o_unions o) (o_joins o)) Hi) as (s' & Ef & Hi' & Hk' & _); [by eapply impl_bound|done|].
    exists a, s'. unfold EnableCache, bind. cbn [root_ CommonTask]. rewrite Ef. split; [done|]. split; [done|]. split; [done|]. eapply impl_sub; [by apply keeps_sub|exact Ha]. }
  pose proof Ht as Ht'. cbn [plan_tree node] in Ht'. fold node in Ht'. destruct (mapM_opt plan_tree ps) as [ins|] eqn:Ei; [|done]. destruct (mapM_opt plan_tree us) as [rus|] eqn:Eu; [|done]. destruct (mapM_opt plan_tree js) as [rjs|] eqn:Ej; [|done]. cbn [mbind option_bind] in Ht'.
  pose proof (proj1 (mapM_Forall2 _ _ _) Ei) as Fi. pose proof (proj1 (mapM_Forall2 _ _ _) Eu) as Fu. pose proof (proj1 (mapM_Forall2 _ _ _) Ej) as Fj.
  assert (forall x, x ∈ ps -> x ∈ plan_nodes root) as Hch by (intros x Hx; by eapply child_nodes; [exact Hn|set_solver]).
  destruct op as [t|t idx part| |slice fn|fn|fn|fn|fn|w fn inst excl app ws jo|fn|ts range w inst excl out ws|j right_only|j right_only|g|f|optimized| |ts|];
    try (destruct ins as [|[r1 sl1] ins]; [exfalso; cbn in Ht'; clear -Ht'; by repeat case_match|]; inversion Fi as [|p0 ? rest ? Hp0 Frest]; subst ps; apply Forall_cons_1 in IHp as [IH0 IHp]).
  - injection Ht' as <- <-. by apply (leaf_ok opn s node).
  - injection Ht' as <- <-. by apply (leaf_ok opn s node).
  - injection Ht' as <- <-. by apply (request_leaf_ok opn s node).
  - destruct (slice >=? 0); injection Ht' as <- <-; unary_case; by eapply (unary_ok opn s s1 node).
  - injection Ht' as <- <-. by apply (leaf_ok opn s node).
  - injection Ht' as <- <-. unary_case. by eapply (unary_ok opn s s1 node).
  - injection Ht' as <- <-. unary_case. by eapply (unary_ok opn s s1 node).
  - injection Ht' as <- <-. unary_case. by eapply (unary_ok opn s s1 node).
  - unary_case. by eapply (window_agg_ok opn s s1).
  - injection Ht' as <- <-. unary_case. by eapply (unary_ok opn s s1 node).
  - binary_case. by eapply (request_union_ok opn s s1).
  - binary_case. destruct (tree_impl _ _ _ _ _ _ Ha1 Hp0) as [_ Sl]. destruct (tree_impl _ _ _ _ _ _ Ha2 Hp1) as [_ Sr]. destruct (join_type j); try done; injection Ht' as <- <-.
    + unfold bind at 1 2. cbn [root_ CommonTask]. rewrite (output_slices_ok _ _ _ _ Sl), (output_slices_ok _ _ _ _ Sr). eapply (binary_ok opn s s1 node); eauto.
    + eapply (binary_ok opn s s1 node); eauto.
  - binary_case. destruct (tree_impl _ _ _ _ _ _ Ha1 Hp0) as [_ Sl]. destruct (tree_impl _ _ _ _ _ _ Ha2 Hp1) as [_ Sr]. destruct (join_type j); try done; injection Ht' as <- <-.
    + unfold bind at 1 2. cbn [root_ CommonTask]. rewrite (output_slices_ok _ _ _ _ Sl), (output_slices_ok _ _ _ _ Sr). eapply (binary_ok opn s s1 node); eauto.
    + eapply (binary_ok opn s s1 node); eauto.
  - injection Ht' as <- <-. unary_case. by eapply (unary_ok opn s s1 node).
  - injection Ht' as <- <-. unary_case. by eapply (unary_ok opn s s1 node).
  - unary_case. destruct ((lim =? 0) || optimized) eqn:Eo.
    + destruct (register_ok opn s s1 node a0 Hn Hk1 Hi1) as (s' & Er & Hb); [|by exists a0, s']. exists r1, sl1. destruct (tree_impl _ _ _ _ _ _ Ha1 Hp0). by simplify_eq/=.
    + injection Ht' as <- <-. by eapply (unary_ok opn s s1 node).
  - destruct (IH0 opn s Hi ltac:(auto using list_elem_of_here) ltac:(by eexists)) as (a & s' & Eb & Hi' & Hk' & Ha'). exists a, s'. split; [exact Eb|]. split; [done|]. split; [done|]. exists r1, sl1. destruct (tree_impl _ _ _ _ _ _ Ha' Hp0). by simplify_eq/=.
  - binary_case. injection Ht' as <- <-. eapply (binary_ok opn s s1 node); eauto.
  - done.
Qed.
Lemma build_plan : is_Some (plan_tree root) -> exists a s', build root RunnerBuilder_new = Some (CommonTask a, s') /\ inv ∅ s' /\ impl ∅ (heap s') root a.
Proof.
  intros Hs. assert (inv ∅ RunnerBuilder_new) as Hi. { split; [done|done| |done|]; [|intros a Ha; set_solver]. intros p t _ Ht. cbn in Ht. by rewrite lookup_empty in Ht. }
  destruct (build_node root ∅ RunnerBuilder_new Hi) as (a & s' & Eb & Hi' & _ & Ha'); [destruct root; by left|done|]. by exists a, s'.
Qed.
(** In one builder the id of a runner determines it. *)
Lemma tree_unique opn s a r : inv opn s -> tree (fun x => heap s !! x) flags a r -> ids_unique r.
Proof.
  intros Hi Ht r1 r2 H1 H2 _ _ Eid. destruct (tree_nodes _ _ _ _ Ht _ H1) as [b1 T1]. destruct (tree_nodes _ _ _ _ Ht _ H2) as [b2 T2].
  assert (forall b x, tree (fun x => heap s !! x) flags b x -> r_id x = Z.of_nat b) as Hid. { intros b x Tx. inversion Tx as [? o ? ? ? ? ? ? ? Hf]; subst. cbn. by apply (inv_ids _ _ Hi). }
  rewrite (Hid _ _ T1), (Hid _ _ T2) in Eid. assert (b1 = b2) as <- by lia. by eapply tree_det.
Qed.

(** *** The number of runners *)

Definition plan_ids (p : PNode) : gset Z := list_to_set (p_id <$> plan_nodes p).
Lemma plan_ids_spec p i : i ∈ plan_ids p <-> exists q, q ∈ plan_nodes p /\ p_id q = i.
Proof. unfold plan_ids. rewrite elem_of_list_to_set, list_elem_of_fmap. naive_solver. Qed.
Lemma elem_of_nodes (l : list PNode) q : q ∈ concat (plan_nodes <$> l) <-> exists x, x ∈ l /\ q ∈ plan_nodes x.
Proof.
  rewrite list_elem_of_In, in_concat. split.
  - intros (k & Hk & Hq). apply list_elem_of_In, list_elem_of_fmap in Hk as (x & -> & Hx). exists x. split; [done|by apply list_elem_of_In].
  - intros (x & Hx & Hq). exists (plan_nodes x). split; apply list_elem_of_In; [by apply list_elem_of_fmap_2|done].
Qed.
Lemma nodes_le (q p : PNode) : q ∈ plan_nodes p -> (length (plan_nodes q) <= length (plan_nodes p))%nat.
Proof.
  induction p as [id sl lim op ps us js IHp IHu IHj] using plan_ind. cbn [plan_nodes length]. rewrite !length_app. intros [->|Hq]%elem_of_cons; [cbn [plan_nodes length]; rewrite !length_app; lia|].
  assert (forall l, Forall (fun p => q ∈ plan_nodes p -> (length (plan_nodes q) <= length (plan_nodes p))%nat) l -> q ∈ concat (plan_nodes <$> l) -> (length (plan_nodes q) <= length (concat (plan_nodes <$> l)))%nat) as Hl.
  { induction 1 as [|y l Hy HF IH]; [by intros ?%elem_of_nil|]. cbn. rewrite elem_of_app, length_app. intros [H|H]; [apply Hy in H|apply IH in H]; lia. }
  rewrite !elem_of_app in Hq. destruct Hq as [Hq|[Hq|Hq]]; apply Hl in Hq; auto; lia.
Qed.
Lemma child_le (l : list PNode) x : x ∈ l -> (length (plan_nodes x) <= length (concat (plan_nodes <$> l)))%nat.
Proof. induction l as [|y l IH]; [by intros ?%elem_of_nil|]. cbn. rewrite length_app. intros [->|Hx%IH]%elem_of_cons; lia. Qed.
(** A node is not below itself. *)
Lemma child_fresh id sl lim op ps us js x : mkPNode id sl lim op ps us js ∈ plan_nodes root -> x ∈ ps ++ us ++ js -> id ∉ plan_ids x.
Proof.
  intros Hn Hx (q & Hq & Ei)%plan_ids_spec. set (p := mkPNode id sl lim op ps us js) in *.
  assert (q ∈ plan_nodes root) as Hqr.
  { clear Ei. pose proof (child_nodes _ _ _ _ _ _ _ x Hn Hx) as Hxr. revert Hq. clear -Hxr Hroot. revert Hxr. generalize root. intros rt. revert q x.
    assert (forall (p q : PNode), q ∈ plan_nodes p -> plan_nodes q ⊆ plan_nodes p) as Ht; [|intros q x Hx Hq; by apply (Ht rt x Hx)].
    induction p as [id' sl' lim' op' ps' us' js' IHp IHu IHj] using plan_ind. intros q Hq z Hz. cbn [plan_nodes] in Hq |- *. apply elem_of_cons in Hq as [->|Hq]; [done|]. right. revert Hq. rewrite !elem_of_app.
    assert (forall l, Forall (fun p => forall q, q ∈ plan_nodes p -> plan_nodes q ⊆ plan_nodes p) l -> q ∈ concat (plan_nodes <$> l) -> z ∈ concat (plan_nodes <$> l)) as Hl.
    { induction 1 as [|y l Hy HF IH]; [by intros ?%elem_of_nil|]. cbn. rewrite !elem_of_app. intros [Hq|Hq]; [left; by apply (Hy q)|right; by apply IH]. }
    intros [Hq|[Hq|Hq]]; eauto. }
  assert (q = p) as -> by (by apply (po_ids _ Hroot)). apply nodes_le in Hq. assert (length (plan_nodes x) < length (plan_nodes p))%nat; [|lia].
  subst p. cbn [plan_nodes length]. rewrite !length_app. rewrite !elem_of_app in Hx. destruct Hx as [Hx|[Hx|Hx]]; apply child_le in Hx; lia.
Qed.

(** [grows D m]: [m] registers nodes of [D] only and creates at most one runner for
    each of them; [pays nid D k m]: from a state where [nid] is not registered, [m]
    creates [k] runners less than it registers nodes. *)
Notation registered s := (dom (task_map_ s) : gset Z).
Definition grows {A} (D : gset Z) (m : M (E := E) A) : Prop := forall s x s', m s = Some (x, s') ->
  registered s ⊆ registered s' /\ registered s' ⊆ D ∪ registered s /\ (length (heap s') + base.size (registered s) <= length (heap s) + base.size (registered s'))%nat.
Definition pays {A} (nid : Z) (D : gset Z) (k : nat) (m : M (E := E) A) : Prop := forall s x s', nid ∉ registered s -> m s = Some (x, s') ->
  registered s ⊆ registered s' /\ registered s' ⊆ {[nid]} ∪ D ∪ registered s /\ (length (heap s') + base.size (registered s) + k <= length (heap s) + base.size (registered s'))%nat.
Lemma grows_same {A} D (m : M (E := E) A) : (forall s x s', m s = Some (x, s') -> task_map_ s' = task_map_ s /\ length (heap s') = length (heap s)) -> grows D m.
Proof. intros Hm s x s' Es. destruct (Hm s x s' Es) as [-> ->]. split; [done|]. split; [set_solver|lia]. Qed.
Lemma grows_mono {A} D D' (m : M (E := E) A) : D ⊆ D' -> grows D m -> grows D' m.
Proof. intros Hd Hm s x s' Es. destruct (Hm s x s' Es) as (H1 & H2 & H3). split; [done|]. split; [set_solver|done]. Qed.
Lemma grows_ret {A} D (x : A) : grows D (ret x).
Proof. apply grows_same. by intros s y s' [= _ <-]. Qed.
Lemma grows_with {A} D a (f : RunnerObj -> A * RunnerObj) : grows D (with_runner a f).
Proof.
  apply grows_same. intros s y s'. unfold with_runner. destruct a as [r|]; cbn [mbind option_bind]; [|done]. destruct (heap s !! r) as [o|]; cbn [mbind option_bind]; [|done]. destruct (f o). intros [= _ <-]. cbn. by rewrite length_insert.
Qed.
Lemma grows_bind {A B} D (m : M A) (f : A -> M B) : grows D m -> (forall x, grows D (f x)) -> grows D (bind m f).
Proof.
  intros Hm Hf s y s'. unfold bind. destruct (m s) as [[x s1]|] eqn:Em; [|done]. intros Hy. destruct (Hm _ _ _ Em) as (? & ? & ?). destruct (Hf x _ _ _ Hy) as (? & ? & ?). split; [by etrans|]. split; [set_solver|lia].
Qed.
Lemma pays_grows {A} nid D (m : M (E := E) A) : grows D m -> pays nid D 0 m.
Proof. intros Hm s x s' _ Es. destruct (Hm _ _ _ Es) as (? & ? & ?). split; [done|]. split; [set_solver|lia]. Qed.
Lemma pays_weaken {A} nid D (m : M (E := E) A) : pays nid D 1 m -> pays nid D 0 m.
Proof. intros Hm s x s' Hn Es. destruct (Hm _ _ _ Hn Es) as (? & ? & ?). split; [done|]. split; [done|lia]. Qed.
Lemma pays_bind {A B} nid D k (Q : A -> Prop) (m : M A) (f : A -> M B) : nid ∉ D -> grows D m -> (forall s x s', m s = Some (x, s') -> Q x) -> (forall x, Q x -> pays nid D k (f x)) -> pays nid D k (bind m f).
Proof.
  intros Hd Hm Hq Hf s y s' Hn. unfold bind. destruct (m s) as [[x s1]|] eqn:Em; [|done]. intros Hy. destruct (Hm _ _ _ Em) as (H1 & H2 & H3). destruct (Hf x (Hq _ _ _ Em) s1 y s') as (? & ? & ?); [set_solver|done|].
  split; [by etrans|]. split; [set_solver|lia].
Qed.
Lemma pays_then {A B} nid D k (m : M A) (f : A -> M B) : nid ∉ D -> grows D m -> (forall x, pays nid D k (f x)) -> pays nid D k (bind m f).
Proof. intros Hd Hm Hf. by apply (pays_bind nid D k (fun _ => True)). Qed.
(** A new runner is paid for by the registration of its node. *)
Lemma pays_create {B} nid D kind sl lim (f : nat -> M (E := E) B) : (forall r, pays nid D 1 (f r)) -> pays nid D 0 (bind (CreateRunner kind sl lim) f).
Proof. intros Hf s y s' Hn. unfold bind, CreateRunner. intros Hy. apply Hf in Hy as (H1 & H2 & H3); [|done]. cbn in *. rewrite length_app in H3. cbn in H3. split; [done|]. split; [done|lia]. Qed.
Lemma pays_register nid D t : pays nid D 1 (RegisterTask batch_common_node_set_ nid t).
Proof.
  intros s x s' Hn. unfold RegisterTask, bind at 1, modify. intros Hy.
  assert (grows ∅ (bind (if batch_common_node_set_ nid then EnableBatchCache (root_ t) else ret tt) (fun _ => ret t))) as Hg by (apply grows_bind; [destruct (batch_common_node_set_ nid); [apply grows_with|apply grows_ret]|intros; apply grows_ret]).
  destruct (Hg _ _ _ Hy) as (H1 & H2 & H3). cbn [task_map_ heap] in *. rewrite dom_insert_L in *. rewrite size_union, size_singleton in H3 by set_solver. split; [set_solver|]. split; [set_solver|lia].
Qed.
Lemma grows_error D : grows D (fail_with_status (E := E)).
Proof. apply grows_bind; [|intros; apply grows_ret]. apply grows_same. by intros s x s' [= _ <-]. Qed.
Lemma pays_input nid D ps k : nid ∉ D -> (forall x, x ∈ ps -> grows D (build x)) -> (forall t, pays nid D 0 (k t)) -> pays nid D 0 (with_input build ps k).
Proof. intros Hd Hb Hk. destruct ps as [|p ps]; [done|]. cbn [with_input]. apply pays_then; [done|apply Hb; set_solver|]. intros t. case_match; [apply pays_grows, grows_error|apply Hk]. Qed.
Lemma pays_inputs nid D ps k : nid ∉ D -> (forall x, x ∈ ps -> grows D (build x)) -> (forall l r, pays nid D 0 (k l r)) -> pays nid D 0 (with_inputs build ps k).
Proof.
  intros Hd Hb Hk. apply pays_input; [done|done|]. intros l. destruct ps as [|p [|p1 ps]]; [done|done|]. apply pays_then; [done|apply Hb; set_solver|]. intros t. case_match; [apply pays_grows, grows_error|apply Hk].
Qed.
Lemma grows_unions D r us ws : (forall x, x ∈ us -> grows D (build x)) -> grows D (window_unions build r us ws).
Proof.
  revert ws. induction us as [|u us IH]; intros [|w ws] Hu; try apply grows_ret. cbn [window_unions]. apply grows_bind; [apply Hu; set_solver|]. intros t. destruct (root_ t); [|apply grows_ret].
  apply grows_bind; [apply grows_with|]. intros _. apply IH. set_solver.
Qed.
Lemma grows_joins D r n js jo : (forall x, x ∈ js -> grows D (build x)) -> grows D (window_joins build r n js jo).
Proof.
  revert jo. induction js as [|u us IH]; intros [|w ws] Hu; try apply grows_ret. cbn [window_joins]. apply grows_bind; [apply Hu; set_solver|]. intros t. destruct (root_ t); [|apply grows_ret].
  apply grows_bind; [apply grows_bind; [apply grows_with|intros; apply grows_with]|]. intros _. apply IH. set_solver.
Qed.
Lemma grows_request_unions D r x us ws t k : (forall x, x ∈ us -> grows D (build x)) -> grows D (request_unions false build r x us ws t k).
Proof.
  revert ws t k. induction us as [|u us IH]; intros [|w ws] t k Hu; try apply grows_ret. cbn [request_unions]. apply grows_bind; [apply Hu; set_solver|]. intros t'. destruct (root_ t'); [|apply grows_ret].
  apply grows_bind; [apply grows_with|]. intros _. destruct (negb (ValidKey k)); apply IH; set_solver.
Qed.
(** Without clusters the windows of a request union are always accepted. *)
Lemma request_unions_end r x us : forall ws t k s e s', request_unions false build r x us ws t k s = Some (e, s') -> e <> UnionMulti.
Proof.
  induction us as [|u us IH]; intros [|w ws] t k s e s'; try (by intros [= <- _]). cbn [request_unions]. unfold bind at 1. destruct (build u s) as [[t' s1]|]; [|done]. destruct (root_ t'); [|by intros [= <- _]].
  unfold bind. destruct (RequestUnion_AddWindowUnion _ _ _ s1) as [[[] s2]|]; [|done]. destruct (negb (ValidKey k)); apply IH.
Qed.
Lemma grows_inherit D t r : grows D (UnaryInheritTask (E := E) t r).
Proof. apply grows_bind; [apply grows_with|intros; apply grows_ret]. Qed.
Lemma grows_binary D l r x k b : grows D (BinaryInherit ExprListEquals false l r x k b).
Proof. unfold BinaryInherit, BuildLocalTaskForBinaryRunner. case_match; [apply grows_ret|]. repeat (apply grows_bind; [apply grows_with|intros _]). apply grows_ret. Qed.
Lemma grows_request D r : grows D (BuildRequestTask (E := E) r).
Proof. apply grows_same. by intros ? ? ? [= _ <-]. Qed.
Lemma grows_set_error D : grows D (set_error (E := E)).
Proof. apply grows_same. by intros ? ? ? [= _ <-]. Qed.
Create HintDb grows.
#[local] Hint Resolve grows_ret grows_with grows_error grows_inherit grows_binary grows_request grows_set_error grows_unions grows_joins pays_register pays_grows pays_weaken : grows.
Ltac pays_auto := repeat first [solve [eauto with grows] | apply pays_create; intro | apply pays_inputs; [done|by auto|intros ? ?] | apply pays_input; [done|by auto|intro]
  | apply pays_then; [done|solve [eauto with grows | match goal with |- grows _ (match ?x with _ => _ end) => destruct x end; eauto with grows]|intro]
  | match goal with |- pays _ _ _ (match ?x with _ => _ end) => destruct x end].
Lemma grows_build p : p ∈ plan_nodes root -> grows (plan_ids p) (build p).
Proof.
  induction p as [id sl lim op ps us js IHp IHu IHj] using plan_ind. intros Hn. set (p := mkPNode id sl lim op ps us js) in *. rewrite Forall_forall in IHp, IHu, IHj.
  set (D := list_to_set (p_id <$> concat (plan_nodes <$> ps) ++ concat (plan_nodes <$> us) ++ concat (plan_nodes <$> js)) : gset Z).
  assert (plan_ids p = {[id]} ∪ D) as Ep by (unfold plan_ids, D, p; cbn [plan_nodes]; by rewrite fmap_cons, list_to_set_cons).
  assert (forall l x, x ∈ l -> forall q, q ∈ plan_nodes x -> q ∈ concat (plan_nodes <$> l)) as Hin by (intros l x Hx q Hq; apply elem_of_nodes; by exists x).
  assert (forall x, x ∈ ps ++ us ++ js -> plan_ids x ⊆ D) as Hsub.
  { intros x Hx i (q & Hq & <-)%plan_ids_spec. unfold D. rewrite elem_of_list_to_set. apply list_elem_of_fmap_2. rewrite !elem_of_app in *. destruct Hx as [Hx|[Hx|Hx]]; eauto. }
  assert (id ∉ D) as Hid.
  { unfold D. rewrite elem_of_list_to_set. intros (q & Eq & Hq)%list_elem_of_fmap. rewrite !elem_of_app in Hq.
    assert (forall l, q ∈ concat (plan_nodes <$> l) -> exists x, x ∈ l /\ id ∈ plan_ids x) as Hl. { intros l (x & Hx & Hq')%elem_of_nodes. exists x. split; [done|]. apply plan_ids_spec. by exists q. }
    destruct Hq as [(x & Hx & Hi)%Hl|[(x & Hx & Hi)%Hl|(x & Hx & Hi)%Hl]]; refine (child_fresh _ _ _ _ _ _ _ x Hn _ Hi); set_solver. }
  assert (forall x, x ∈ ps ++ us ++ js -> x ∈ plan_nodes root) as Hch by (intros x Hx; by eapply child_nodes).
  assert (forall x, x ∈ ps -> grows D (build x)) as Hp by (intros x Hx; apply (grows_mono (plan_ids x)); [apply Hsub; set_solver|apply IHp; [done|apply Hch; set_solver]]).
  assert (forall x, x ∈ us -> grows D (build x)) as Hu by (intros x Hx; apply (grows_mono (plan_ids x)); [apply Hsub; set_solver|apply IHu; [done|apply Hch; set_solver]]).
  assert (forall x, x ∈ js -> grows D (build x)) as Hj by (intros x Hx; apply (grows_mono (plan_ids x)); [apply Hsub; set_solver|apply IHj; [done|apply Hch; set_solver]]).
  rewrite Ep. clear Ep Hsub Hch IHp IHu IHj Hin Hn. clearbody D. intros s x s'. unfold p. cbn [Build]. unfold bind at 1, get. destruct (task_map_ s !! id) as [t|] eqn:Em.
  { intros Hs. assert (grows ({[id]} ∪ D) (bind (EnableCache (root_ t)) (fun _ => ret t))) as Hg by (apply grows_bind; [apply grows_with|intros; apply grows_ret]). exact (Hg _ _ _ Hs). }
  apply not_elem_of_dom in Em. intros Hs. match type of Hs with ?m s = _ => assert (pays id D 0 m) as Hg end; [|destruct (Hg s x s' Em Hs) as (? & ? & ?); split_and!; [done|done|lia]]. clear s x s' Em Hs p.
  destruct op; unfold output_slices, RequestUnion_AddWindowUnion, add_union; pays_auto.
  - apply (pays_bind id D 1 (fun e => e <> UnionMulti)); [done|by apply grows_request_unions|apply request_unions_end|]. intros [t k| |] He; [pays_auto|apply pays_register|done].
  - by intros ? ? ? _.
  - apply pays_grows, Hp, list_elem_of_here.
Qed.

(** *** The job *)

(** Without cluster tasks the job is left alone until the main task is added. *)
Definition keeps_job {A} (m : M (E := E) A) : Prop := forall s x s', m s = Some (x, s') -> cluster_job_ s' = cluster_job_ s.
Lemma job_bind {A B} (m : M A) (f : A -> M B) : keeps_job m -> (forall x, keeps_job (f x)) -> keeps_job (bind m f).
Proof. intros Hm Hf s y s'. unfold bind. destruct (m s) as [[x s1]|] eqn:Em; [|done]. intros Hy. by rewrite (Hf x s1 y s' Hy), (Hm s x s1 Em). Qed.
Lemma job_ret {A} (x : A) : keeps_job (ret x).
Proof. by intros s y s' [= _ <-]. Qed.
Lemma job_with {A} a (f : RunnerObj -> A * RunnerObj) : keeps_job (with_runner a f).
Proof. intros s y s'. unfold with_runner. destruct a as [r|]; cbn [mbind option_bind]; [|done]. destruct (heap s !! r) as [o|]; cbn [mbind option_bind]; [|done]. destruct (f o). by intros [= _ <-]. Qed.
Ltac job_step := first
  [apply job_ret | apply job_with | by intros ? ? ? [= _ <-] | done
  | apply job_bind; [|let x := fresh in intro x]
  | match goal with |- keeps_job (match ?x with _ => _ end) => destruct x end].
Lemma job_register id t : keeps_job (RegisterTask batch_common_node_set_ id t).
Proof. unfold RegisterTask, EnableBatchCache. repeat job_step. Qed.
Lemma job_inherit t r : keeps_job (UnaryInheritTask (E := E) t r).
Proof. unfold UnaryInheritTask, AddProducer. repeat job_step. Qed.
Lemma job_request r : keeps_job (BuildRequestTask (E := E) r).
Proof. unfold BuildRequestTask, make_shared, modify. repeat job_step. Qed.
Lemma job_binary l r x k b : keeps_job (BinaryInherit ExprListEquals false l r x k b).
Proof. unfold BinaryInherit, BuildLocalTaskForBinaryRunner, AddProducer. repeat job_step. Qed.
Lemma job_create k n l : keeps_job (CreateRunner (E := E) k n l).
Proof. by intros ? ? ? [= _ <-]. Qed.
Lemma job_input p ps k : (forall x, x ∈ p :: ps -> keeps_job (build x)) -> (forall t, keeps_job (k t)) -> keeps_job (with_input build (p :: ps) k).
Proof. intros Hb Hk. cbn [with_input]. apply job_bind; [apply Hb; set_solver|]. intros t. unfold fail_with_status, set_error, modify. case_match; [repeat job_step|apply Hk]. Qed.
Lemma job_input_any ps k : (forall x, x ∈ ps -> keeps_job (build x)) -> (forall t, keeps_job (k t)) -> keeps_job (with_input build ps k).
Proof. destruct ps as [|p ps]; [done|apply job_input]. Qed.
Lemma job_inputs ps k : (forall x, x ∈ ps -> keeps_job (build x)) -> (forall l r, keeps_job (k l r)) -> keeps_job (with_inputs build ps k).
Proof.
  intros Hb Hk. apply job_input_any; [done|]. intros l. destruct ps as [|p [|p1 ps]]; [done|done|]. apply job_bind; [apply Hb; set_solver|].
  intros t. unfold fail_with_status, set_error, modify. case_match; [repeat job_step|apply Hk].
Qed.
Lemma job_unions r us ws : (forall x, x ∈ us -> keeps_job (build x)) -> keeps_job (window_unions build r us ws).
Proof.
  revert ws. induction us as [|u us IH]; intros [|w ws] Hu; try apply job_ret. cbn [window_unions]. apply job_bind; [apply Hu; set_solver|]. intros t. destruct (root_ t); [|apply job_ret].
  apply job_bind; [apply job_with|]. intros _. apply IH. set_solver.
Qed.
Lemma job_joins r n js jo : (forall x, x ∈ js -> keeps_job (build x)) -> keeps_job (window_joins build r n js jo).
Proof.
  revert jo. induction js as [|u us IH]; intros [|w ws] Hu; try apply job_ret. cbn [window_joins]. apply job_bind; [apply Hu; set_solver|]. intros t. destruct (root_ t); [|apply job_ret].
  apply job_bind; [unfold AddWindowJoin, output_slices, add_join; repeat job_step|]. intros _. apply IH. set_solver.
Qed.
Lemma job_request_unions r x us ws t k : (forall x, x ∈ us -> keeps_job (build x)) -> keeps_job (request_unions false build r x us ws t k).
Proof.
  revert ws t k. induction us as [|u us IH]; intros [|w ws] t k Hu; try apply job_ret. cbn [request_unions]. apply job_bind; [apply Hu; set_solver|]. intros t'. destruct (root_ t'); [|apply job_ret].
  apply job_bind; [apply job_with|]. intros _. destruct (negb (ValidKey k)); apply IH; set_solver.
Qed.
Create HintDb job.
#[local] Hint Resolve job_register job_inherit job_request job_binary job_create job_ret job_with : job.
Ltac job_auto := repeat first [solve [eauto with job] | solve [by intros ? ? ? [= _ <-]] | apply job_input_any; [by auto|intro] | apply job_inputs; [by auto|intros ? ?] | apply job_unions; by auto | apply job_joins; by auto | apply job_request_unions; by auto
  | apply job_bind; [|intro] | match goal with |- keeps_job (match ?x with _ => _ end) => destruct x end].
Lemma job_build p : keeps_job (build p).
Proof.
  induction p as [id sl lim op ps us js IHp IHu IHj] using plan_ind. rewrite Forall_forall in IHp, IHu, IHj. cbn [Build]. apply job_bind; [by intros ? ? ? [= _ <-]|]. intros s. destruct (task_map_ s !! id); [unfold EnableCache; job_auto|].
  destruct op; unfold output_slices, RequestUnion_AddWindowUnion, add_union, set_error, modify; job_auto.
  all: apply IHp; set_solver.
Qed.
End Proof.

(** The main task of a plan in local mode: the only task, whose runners are the plan. *)
Lemma local_job {E : Type} (ExprListEquals : list E -> list E -> bool) (batch_common_node_set_ : Z -> bool) (plan : PNode (E := E)) (meaning : Runner) (slices : Z) :
  plan_ok plan -> plan_tree plan = Some (meaning, slices) ->
  exists s a r, BuildClusterJob ExprListEquals false batch_common_node_set_ plan RunnerBuilder_new = Some (mkJob [CommonTask a] 0, s) /\ status_ok s = true /\
    tree (fun x => heap s !! x) flags a r /\ ids_unique r /\ strip r = meaning /\
    (forall b o, heap s !! b = Some o -> o_id o = Z.of_nat b) /\ (length (heap s) <= base.size (plan_ids plan))%nat.
Proof.
  intros Hok Hm. destruct (build_plan ExprListEquals batch_common_node_set_ plan Hok ltac:(by eexists)) as (a & s & Eb & Hi & Ha). destruct (tree_impl _ _ _ _ _ _ Ha Hm) as [Ht _].
  assert (tree (fun x => heap s !! x) plain a meaning) as Ht0 by (eapply tree_sub; [|exact Ht]; intros b o Hb; exists o; split; [by unfold look in Hb; case_decide|apply same_refl]).
  destruct (tree_flags _ flags _ _ Ht0) as (r & Tr & Er). exists (set_job (mkJob [CommonTask a] 0) s), a, r.
  split_and!; [|apply (inv_ok _ _ _ Hi)|done|by eapply tree_unique|done|apply (inv_ids _ _ _ Hi)|].
  2: { destruct (grows_build ExprListEquals batch_common_node_set_ plan Hok plan ltac:(destruct plan; by left) _ _ _ Eb) as (_ & H2 & H3). cbn [heap task_map_ RunnerBuilder_new length] in H2, H3. rewrite dom_empty_L, size_empty in H3. rewrite dom_empty_L, (right_id_L ∅ (∪)) in H2. apply subseteq_size in H2. cbn [set_job heap]. lia. }
  pose proof (job_build ExprListEquals batch_common_node_set_ plan Hok _ _ _ _ Eb) as Hj.
  unfold BuildClusterJob, bind, modify, get. cbn [heap RunnerBuilder_new shared_tasks task_map_ request_task_ proxy_runner_map_ status_ok cluster_job_ main_task_id_]. change (mkBuilder [] 0 _ [] ∅ None ∅ true) with (RunnerBuilder_new (E := E)). rewrite Eb, (inv_ok _ _ _ Hi).
  change (IsCompletedClusterTask (CommonTask (E := E) a)) with false. change (IsUnCompletedClusterTask (CommonTask (E := E) a)) with false. cbn [negb ret set_job cluster_job_]. by rewrite Hj.
Qed.
(** Runners with unique ids may be cached. *)
Lemma unique_runs spark float_text double_text std_sort fuel r ctx : ids_unique r -> ctx_cache ctx = ∅ ->
  match denote spark float_text double_text std_sort fuel (ctx_request ctx) (ctx_parameter ctx) (strip r) with
  | None => RunWithCache spark float_text double_text std_sort fuel r ctx = None
  | Some d => exists ctx', RunWithCache spark float_text double_text std_sort fuel r ctx = Some (d, ctx')
  end.
Proof.
  intros Hu Hc. pose proof (run_cached_gives spark float_text double_text std_sort fuel r (ctx_request ctx) (ctx_parameter ctx) (ctx_requests ctx) (ctx_batch_cache ctx) r Hu (fun _ H => H) ctx (cache_ok_empty spark float_text double_text std_sort fuel r ctx Hc)) as Hg.
  rewrite strip_denote. destruct (denote _ _ _ _ _ _ _ r) as [d|]; [|done]. destruct Hg as (c & Eg & _). by exists c.
Qed.

(** C8: [BuildClusterJob] implements the plan in local mode (without cluster
    optimisation). For a plan of supported operators whose nodes may be shared in
    any way the builder succeeds, the main task of the job has a root, all runners
    have different ids, so that their results may be cached by id, and there are
    at most as many of them as the plan has different nodes: a shared node is built
    once (renames and limits without effect get no runner of their own). Running
    the job, with the caches the builder asked for, computes the meaning of the
    plan: what its operators compute from their inputs without any sharing; it
    fails exactly when they do. *)
Theorem job_runs_plan {E : Type} (ExprListEquals : list E -> list E -> bool) (batch_common_node_set_ : Z -> bool) (spark : bool) (float_text double_text : Z -> list Z)
    (std_sort : ((Z * Row) -> (Z * Row) -> bool) -> list (Z * Row) -> list (Z * Row)) (fuel : nat) (plan : PNode (E := E)) (meaning : Runner) (slices : Z) :
  plan_ok plan -> plan_tree plan = Some (meaning, slices) ->
  exists job s a r, BuildClusterJob ExprListEquals false batch_common_node_set_ plan RunnerBuilder_new = Some (job, s) /\ status_ok s = true /\
    root_ (GetMainTask job) = Some a /\ tree (fun x => heap s !! x) flags a r /\ ids_unique r /\
    (forall b o, heap s !! b = Some o -> o_id o = Z.of_nat b) /\ (length (heap s) <= base.size (plan_ids plan))%nat /\
    forall ctx, ctx_cache ctx = ∅ ->
      match denote spark float_text double_text std_sort fuel (ctx_request ctx) (ctx_parameter ctx) meaning with
      | None => RunWithCache spark float_text double_text std_sort fuel r ctx = None
      | Some d => exists ctx', RunWithCache spark float_text double_text std_sort fuel r ctx = Some (d, ctx')
      end.
Proof.
  intros Hok Hm. destruct (local_job ExprListEquals batch_common_node_set_ plan meaning slices Hok Hm) as (s & a & r & Eb & Hs & Tr & Hu & <- & Hids & Hlen). exists (mkJob [CommonTask a] 0), s, a, r.
  split_and!; [exact Eb|done|done|done|done|done|done|]. intros ctx Hc. by apply unique_runs.
Qed.

(** ** Cluster tasks *)

(** With the left bias a completed left task and a local right task are always
    merged as they are: the test compares the input of the right task with
    itself, so the inputs are never reset and different inputs are not refused.
    The right task is run on the input row of the left one. *)
Theorem left_bias_merges {E : Type} runner (l r : ClusterTask (E := E)) (s : RunnerBuilder (E := E)) :
  IsCompletedClusterTask l = true -> IsClusterTask r = false -> input_ (route_info_ r) = None ->
  merge_mixed runner kLeftBias l r s = bind (add_producers runner l r) (fun _ => ret (TaskMergeToLeft runner l r)) s.
Proof.
  intros Hl Hr Hi. unfold merge_mixed. assert (IsCompletedClusterTask r = false) as ->. { unfold IsCompletedClusterTask, IsCompleted, IsClusterTask, IsCluster in *. rewrite Hr. by rewrite andb_false_r. }
  assert (IsUnCompletedClusterTask l || IsUnCompletedClusterTask r = false) as ->. { unfold IsUnCompletedClusterTask. rewrite Hr. unfold IsCompletedClusterTask in Hl. apply andb_true_iff in Hl as [_ ->]. by rewrite andb_false_r. }
  rewrite Hl. unfold GetRequestInput. rewrite Hi. destruct (negb (IsValid r)); unfold bind, ret; by rewrite bool_decide_true.
Qed.

(** ** Witnesses *)

Module SampleJob.
Definition key : Key (E := Z) := NoKey.
Definition join : Join := mkJoin kJoinTypeConcat (key_fn key) key key key (mkSortGenerator false true (key_fn key)).
Definition request : PNode (E := Z) := mkPNode 1 1 0 PRequestProvider [] [] [].
Definition renamed : PNode (E := Z) := mkPNode 2 1 0 PRename [request] [] [].
(** The request row beside itself; its node is used twice. *)
Definition plan : PNode (E := Z) := mkPNode 3 2 0 (PRequestJoin join false) [request; renamed] [] [].
Lemma plan_is_ok : plan_ok plan.
Proof.
  split; [|repeat constructor]. intros p q Hp Hq. cbn in Hp, Hq. rewrite !elem_of_cons, elem_of_nil in Hp, Hq. destruct Hp as [->|[->|[->|[->|[]]]]], Hq as [->|[->|[->|[->|[]]]]]; done.
Qed.
Definition row : RunnerContext := mkRunnerContext Row_default [] Row_default ∅ ∅.
Lemma job_runs_plan_witness : exists job s r ctx', BuildClusterJob (fun _ _ => true) false (fun _ => false) plan RunnerBuilder_new = Some (job, s) /\ ids_unique r /\ (length (heap s) <= 3)%nat /\
  RunWithCache false (fun _ => []) (fun _ => []) (fun _ l => l) 10 r row = Some (Some (HRow (RCombine (Some (RMem Row_default)) 1 (Some (RMem Row_default)) 1)), ctx').
Proof.
  destruct (job_runs_plan (fun _ _ => true) (fun _ => false) false (fun _ => []) (fun _ => []) (fun _ l => l) 10 plan
    (mkRunner 0 false false 0 (OpConcat 1 1) [mkRunner 0 false false 0 OpRequest [] [] []; mkRunner 0 false false 0 OpRequest [] [] []] [] []) 2 plan_is_ok eq_refl) as (job & s & a & r & H1 & _ & _ & _ & H2 & _ & Hl & H3).
  destruct (H3 row eq_refl) as (ctx' & H4). exists job, s, r, ctx'. split; [exact H1|]. split; [exact H2|]. split; [exact Hl|exact H4].
Defined.
End SampleJob.
