(* ===== verification/Engine.v ===== *)
(** * The engine: compiled queries, their cache and sessions

    Models [src/vm/engine.cc] and [SqlCompiler::BuildClusterJob] of
    [src/vm/sql_compiler.cc]. The compilation of SQL to a physical plan is a
    parameter, a function of the catalog and of the fields of [SqlContext] that
    [Engine::Get] sets. The LRU cache of boost is a class with the laws of its
    documentation: it answers with what was inserted last, or with nothing.

    [Engine::Get] locks the cache twice, to look up and to store; the compilation
    in between is not locked. Sessions of several threads are the steps of
    [engine_step]. *)

#[local] Set Warnings "-register-all".

From stdpp Require Import base numbers option list gmap sets relations.
From S2P Require Import Prelude Layout Iterators MemCatalog Window Rows Handlers FnGenerators Generators Joins WindowRunners Runners RunnersProof RunnerBuilder RunnerBuilderProof.

Inductive EngineMode := kBatchMode | kRequestMode | kBatchRequestMode.
#[global] Instance EngineMode_eq : EqDecision EngineMode.
Proof. solve_decision. Defined.
#[global] Instance EngineMode_countable : Countable EngineMode.
Proof.
  refine (inj_countable' (fun m => match m with kBatchMode => 0%nat | kRequestMode => 1%nat | kBatchRequestMode => 2%nat end)
    (fun n => match n with 0%nat => kBatchMode | 1%nat => kRequestMode | _ => kBatchRequestMode end) _). by intros [].
Defined.

(** ** Options and contexts *)

Record EngineOptions := mkEngineOptions {
  keep_ir_ : bool; compile_only_ : bool; plan_only_ : bool; performance_sensitive_ : bool; cluster_optimized_ : bool;
  batch_request_optimized_ : bool; enable_expr_optimize_ : bool; enable_batch_window_parallelization_ : bool; max_sql_cache_size_ : Z
}.
Definition EngineOptions_default : EngineOptions := mkEngineOptions false false false true false true true false 50.

(** The fields of [SqlContext] that the compilation reads. *)
Record SqlContext := mkSqlContext {
  sql_ : list Z; db_ : list Z; engine_mode_ : EngineMode; is_performance_sensitive : bool; is_cluster_optimized : bool;
  is_batch_request_optimized : bool; enable_batch_window_parallelization : bool; enable_expr_optimize : bool;
  parameter_types : list ColumnDef; common_column_indices : gset Z
}.
(** A session: its mode, the schema of its parameters and, for a session of
    class [BatchRequestRunSession], its common columns. *)
Record RunSession := mkSession { s_mode : EngineMode; s_parameters : list ColumnDef; s_common : option (gset Z) }.

Section Engine.
Context {E : Type} (ExprListEquals : list E -> list E -> bool).

(** What a compilation yields: the plan and the nodes that are common to a batch. *)
Record Compiled := mkCompiled { physical_plan : option (PNode (E := E)); common_node_set : Z -> bool }.
(** [SqlCompileInfo]. *)
Record CompileInfo := mkInfo { ci_context : SqlContext; ci_job : ClusterJob (E := E); ci_heap : list RunnerObj }.

Context {Catalog : Type} (Compile : Catalog -> bool -> bool -> SqlContext -> option Compiled).

(** [SqlCompiler::BuildClusterJob]. *)
Definition is_request_mode (m : EngineMode) : bool := match m with kRequestMode | kBatchRequestMode => true | kBatchMode => false end.
Definition CompilerBuildClusterJob (ctx : SqlContext) (c : Compiled) : option (option CompileInfo) :=
  match physical_plan c with
  | None => Some None
  | Some plan =>
      '(job, s) ← BuildClusterJob ExprListEquals (is_cluster_optimized ctx && is_request_mode (engine_mode_ ctx)) (common_node_set c) plan RunnerBuilder_new;
      Some (if status_ok s then Some (mkInfo ctx job (heap s)) else None)
  end.

(** ** The cache *)

Class LRU (lru : Type) := {
  lru_new : Z -> lru;
  lru_get : list Z -> lru -> option CompileInfo * lru;
  lru_insert : list Z -> CompileInfo -> lru -> lru;
  lru_holds : lru -> list Z -> CompileInfo -> Prop
}.
Class LRULaws (lru : Type) `{LRU lru} := {
  new_holds n k v : ~ lru_holds (lru_new n) k v;
  get_holds k l v : (lru_get k l).1 = Some v -> lru_holds l k v;
  get_keeps k l k' v : lru_holds (lru_get k l).2 k' v -> lru_holds l k' v;
  insert_holds k v l k' v' : lru_holds (lru_insert k v l) k' v' -> (k' = k /\ v' = v) \/ lru_holds l k' v'
}.

Context {lru : Type} `{LRU lru} (options_ : EngineOptions).
Notation Cache := (gmap EngineMode (gmap (list Z) lru)).
Record Engine := mkEngine { cl_ : Catalog; lru_cache_ : Cache }.

Definition GetCacheLocked (db sql : list Z) (mode : EngineMode) (c : Cache) : option CompileInfo * Cache :=
  match c !! mode with
  | None => (None, c)
  | Some mode_cache =>
      match mode_cache !! db with
      | None => (None, c)
      | Some l => let '(value, l') := lru_get sql l in (value, <[mode := <[db := l']> mode_cache]> c)
      end
  end.
Definition is_batch_request (m : EngineMode) : bool := match m with kBatchRequestMode => true | _ => false end.
Definition SetCacheLocked (db sql : list Z) (mode : EngineMode) (info : CompileInfo) (c : Cache) : bool * Cache :=
  let mode_cache := default ∅ (c !! mode) in
  let l := default (lru_new (max_sql_cache_size_ options_)) (mode_cache !! db) in
  let '(value, l') := lru_get sql l in
  if match value with None => true | Some _ => is_batch_request mode end
  then (true, <[mode := <[db := lru_insert sql info l']> mode_cache]> c)
  else (false, <[mode := <[db := l']> mode_cache]> c).
Definition ClearCacheLocked (db : list Z) (c : Cache) : Cache := (fun mode_cache => delete db mode_cache) <$> c.
Definition UpdateCatalog (cl : Catalog) (e : Engine) : Engine := mkEngine cl (lru_cache_ e).

(** Why a cached query does not fit. *)
Inductive Inconsistent := BadMode | BadParameterSize | BadParameterType | BadCommonColumns.
Fixpoint types_differ (cached session : list ColumnDef) : bool :=
  match cached, session with
  | c :: cs, s :: ss => if bool_decide (col_type c = col_type s) then types_differ cs ss else true
  | _, _ => false
  end.
(** The result and the status; a session of another class is refused without one. *)
Definition IsCompatibleCache (session : RunSession) (info : CompileInfo) : bool * option Inconsistent :=
  let ctx := ci_context info in
  if negb (bool_decide (engine_mode_ ctx = s_mode session)) then (false, Some BadMode)
  else if negb (length (parameter_types ctx) =? length (s_parameters session))%nat then (false, Some BadParameterSize)
  else if types_differ (parameter_types ctx) (s_parameters session) then (false, Some BadParameterType)
  else if is_batch_request (s_mode session) then
    match s_common session with
    | None => (false, None)
    | Some common => if negb (bool_decide (common_column_indices ctx = common)) then (false, Some BadCommonColumns) else (true, None)
    end
  else (true, None).

(** ** [Get] *)

Definition new_context (sql db : list Z) (session : RunSession) : SqlContext :=
  mkSqlContext sql db (s_mode session) (performance_sensitive_ options_) (cluster_optimized_ options_) (batch_request_optimized_ options_)
    (enable_batch_window_parallelization_ options_) (enable_expr_optimize_ options_) (s_parameters session) (default ∅ (s_common session)).
(** The lookup; [Some] ends [Get]. *)
Definition get_lookup (sql db : list Z) (session : RunSession) (e : Engine) : option CompileInfo * Engine :=
  let '(cached, c) := GetCacheLocked db sql (s_mode session) (lru_cache_ e) in
  let e := mkEngine (cl_ e) c in
  match cached with
  | Some info => if (IsCompatibleCache session info).1 then (Some info, e) else (None, e)
  | None => (None, e)
  end.
(** The compilation with the catalog loaded from [cl_]. *)
Definition get_compile (sql db : list Z) (session : RunSession) (cl : Catalog) : option (option CompileInfo) :=
  let ctx := new_context sql db session in
  match Compile cl (keep_ir_ options_) (plan_only_ options_) ctx with
  | None => Some None
  | Some c => if compile_only_ options_ then Some (Some (mkInfo ctx (mkJob [] (-1)) [])) else CompilerBuildClusterJob ctx c
  end.
Definition get_store (sql db : list Z) (session : RunSession) (info : CompileInfo) (e : Engine) : Engine :=
  mkEngine (cl_ e) (SetCacheLocked db sql (s_mode session) info (lru_cache_ e)).2.
(** [Engine::Get] of one thread: the compile information of the session, if any. *)
Definition Get (sql db : list Z) (session : RunSession) (e : Engine) : option (option CompileInfo * Engine) :=
  let '(cached, e) := get_lookup sql db session e in
  match cached with
  | Some info => Some (Some info, e)
  | None =>
      r ← get_compile sql db session (cl_ e);
      Some (match r with Some info => (Some info, get_store sql db session info e) | None => (None, e) end)
  end.

(** Several threads: each is before the lookup, before the compilation, before
    storing, or done. *)
Record request := mkRequest { q_sql : list Z; q_db : list Z; q_session : RunSession }.
Inductive progress := PLookup | PCompile | PStore (info : CompileInfo) | PDone (result : option CompileInfo).
Record config := mkConfig { c_engine : Engine; c_catalogs : list Catalog; c_threads : list (request * progress) }.
Inductive engine_step : config -> config -> Prop :=
| step_start e cs ts q : engine_step (mkConfig e cs ts) (mkConfig e cs (ts ++ [(q, PLookup)]))
| step_lookup e cs ts i q r e' : ts !! i = Some (q, PLookup) -> get_lookup (q_sql q) (q_db q) (q_session q) e = (r, e') ->
    engine_step (mkConfig e cs ts) (mkConfig e' cs (<[i := (q, match r with Some info => PDone (Some info) | None => PCompile end)]> ts))
| step_compile e cs ts i q r : ts !! i = Some (q, PCompile) -> get_compile (q_sql q) (q_db q) (q_session q) (cl_ e) = Some r ->
    engine_step (mkConfig e cs ts) (mkConfig e cs (<[i := (q, match r with Some info => PStore info | None => PDone None end)]> ts))
| step_store e cs ts i q info : ts !! i = Some (q, PStore info) ->
    engine_step (mkConfig e cs ts) (mkConfig (get_store (q_sql q) (q_db q) (q_session q) info e) cs (<[i := (q, PDone (Some info))]> ts))
| step_update e cs ts cl : engine_step (mkConfig e cs ts) (mkConfig (UpdateCatalog cl e) (cl :: cs) ts)
| step_clear e cs ts db : engine_step (mkConfig e cs ts) (mkConfig (mkEngine (cl_ e) (ClearCacheLocked db (lru_cache_ e))) cs ts).
Definition Engine_new (cl : Catalog) : config := mkConfig (mkEngine cl ∅) [cl] [].

(** ** Dependent tables *)

(** A logical plan: a table or a node with children (null children are skipped). *)
Inductive LogicalPlan := LTable (table : list Z) | LNode (children : list (option LogicalPlan)).
Fixpoint GetDependentTables (node : LogicalPlan) (tables : gset (list Z)) : gset (list Z) :=
  match node with
  | LTable t => {[t]} ∪ tables
  | LNode children => foldl (fun acc c => match c with Some c => GetDependentTables c acc | None => acc end) tables children
  end.

(** ** Sessions *)

(** The runner behind a pointer as a tree, to a given depth. *)
Definition kind_op (h : list RunnerObj) (ps : list nat) (k : RunnerKind) : option RunnerOp :=
  match k with
  | KOp op => Some op
  | KConcat => match ps with [l; r] => ls ← o_slices <$> h !! l; rs ← o_slices <$> h !! r; Some (OpConcat ls rs) | _ => None end
  | KProxy _ _ => None
  end.
Fixpoint runner_at (depth : nat) (h : list RunnerObj) (a : nat) : option Runner :=
  match depth with
  | O => None
  | S depth' =>
      o ← h !! a;
      ps ← mapM_opt id (o_producers o); us ← mapM_opt id (o_unions o); js ← mapM_opt id (o_joins o);
      rps ← mapM_opt (runner_at depth' h) ps; rus ← mapM_opt (runner_at depth' h) us; rjs ← mapM_opt (runner_at depth' h) js;
      op ← kind_op h ps (o_kind o);
      Some (mkRunner (o_id o) (o_need_cache o) (o_need_batch_cache o) (o_limit o) op rps rus rjs)
  end.

Context (spark : bool) (float_text double_text : Z -> list Z) (std_sort : ((Z * Row) -> (Z * Row) -> bool) -> list (Z * Row) -> list (Z * Row)) (fuel depth : nat).
Notation run_cached := (RunWithCache spark float_text double_text std_sort fuel).

(** [RequestRunSession::Run]: the status and the row. *)
Definition RequestRun_task (info : CompileInfo) (task_id : Z) (in_row parameter_row out_row : Row) : option (Z * Row) :=
  match root_ (GetTask task_id (ci_job info)) with
  | None => Some (-2, out_row)
  | Some root =>
      r ← runner_at depth (ci_heap info) root;
      '(output, _) ← run_cached r (mkRunnerContext in_row [] parameter_row ∅ ∅);
      match output with
      | None => Some (-1, out_row)
      | Some h => '(ok, row) ← ExtractRow fuel h out_row; Some (if (ok : bool) then 0 else -1, row)
      end
  end.
Definition RequestRun (info : CompileInfo) (in_row parameter_row out_row : Row) : option (Z * Row) :=
  RequestRun_task info (main_task_id_ (ci_job info)) in_row parameter_row out_row.
(** [BatchRequestRunSession::Run]. *)
Definition BatchRequestRun_task (info : CompileInfo) (id : Z) (request_batch : list Row) (parameter_row : Row) (output : list Row) : option (Z * list Row) :=
  match root_ (GetTask id (ci_job info)) with
  | None => Some (-2, output)
  | Some root =>
      r ← runner_at depth (ci_heap info) root;
      '(handler, _) ← BatchRequestRun spark float_text double_text std_sort fuel r (mkRunnerContext Row_default request_batch parameter_row ∅ ∅);
      '(ok, rows) ← ExtractRows_batch fuel (Some handler) output;
      Some (if (ok : bool) then 0 else -1, rows)
  end.
Definition BatchRequestSession_Run (info : CompileInfo) (request_batch : list Row) (parameter_row : Row) (output : list Row) : option (Z * list Row) :=
  BatchRequestRun_task info (main_task_id_ (ci_job info)) request_batch parameter_row output.
(** [BatchRunSession::Run]: as a table, and as rows with a status. *)
Definition BatchRun_table (info : CompileInfo) (parameter_row : Row) : option (option TableHandler) :=
  root ← root_ (GetMainTask (ci_job info));
  r ← runner_at depth (ci_heap info) root;
  '(output, _) ← run_cached r (mkRunnerContext Row_default [] parameter_row ∅ ∅);
  match output with
  | None => Some None
  | Some (HTable t) => Some (Some t)
  | Some (HRow h) => row ← r_GetValue h; Some (Some (TMem (tb_AddRow row MemTableHandler_new)))
  | Some (HPartition _) => Some None
  end.
(** The limit is not used. *)
Definition BatchRun_rows (info : CompileInfo) (parameter_row : Row) (rows : list Row) (limit : Z) : option (Z * list Row) :=
  root ← root_ (GetTask 0 (ci_job info));
  r ← runner_at depth (ci_heap info) root;
  '(output, _) ← run_cached r (mkRunnerContext Row_default [] parameter_row ∅ ∅);
  match output with
  | None => Some (-1, rows)
  | Some (HTable t) =>
      o ← t_GetIterator fuel t;
      match o with
      | None => Some (0, rows)
      | Some iter => rows ← for_rows (fun _ row rows => Some (rows ++ [row])) fuel (SeekToFirst iter) rows; Some (0, rows)
      end
  | Some (HRow h) => row ← r_GetValue h; Some (0, rows ++ [row])
  | Some (HPartition _) => Some (-1, rows)
  end.
End Engine.

(** * What the engine hands out and what its sessions compute

    Whatever the interleaving of threads, updates of the catalog and clearings of
    the cache, a session receives what a compilation of its own query yields, for
    a session that agrees with it in all that the engine compares. A session then
    computes the meaning of the compiled plan. *)

(** ** The cache *)

(** The sessions for which a query is compiled alike: names and other
    attributes of the parameters are not compared. *)
Record agree (s s' : RunSession) : Prop := {
  agree_mode : s_mode s = s_mode s';
  agree_types : col_type <$> s_parameters s = col_type <$> s_parameters s';
  agree_common : s_mode s' = kBatchRequestMode -> default ∅ (s_common s) = default ∅ (s_common s')
}.
Lemma agree_refl s : agree s s.
Proof. done. Qed.
Lemma types_differ_spec l1 : forall l2, length l1 = length l2 -> types_differ l1 l2 = false -> col_type <$> l1 = col_type <$> l2.
Proof. induction l1 as [|c l1 IH]; intros [|c2 l2] Hl Hd; try done. cbn in Hl, Hd. case_bool_decide as Ht; [|done]. cbn. rewrite Ht. f_equal. apply IH; [by injection Hl|done]. Qed.

Section Cache.
Context {E : Type} (ExprListEquals : list E -> list E -> bool) {Catalog : Type} (Compile : Catalog -> bool -> bool -> SqlContext -> option (Compiled (E := E))).
Context {lru : Type} `{HL : LRU (E := E) lru} (HLaws : LRULaws (E := E) lru) (options_ : EngineOptions).
Notation compile := (get_compile ExprListEquals Compile options_).
Notation step := (engine_step ExprListEquals Compile options_).

(** [info] is what a compilation of the query for a session yields. *)
Definition compiled_for (cs : list Catalog) (sql db : list Z) (session : RunSession) (info : CompileInfo) : Prop :=
  exists cl, cl ∈ cs /\ compile sql db session cl = Some (Some info).
Lemma compile_context sql db session cl info : compile sql db session cl = Some (Some info) -> ci_context info = new_context options_ sql db session.
Proof.
  unfold get_compile, CompilerBuildClusterJob. destruct (Compile _ _ _ _) as [c|]; [|done]. destruct (compile_only_ options_); [by intros [= <-]|]. destruct (physical_plan c) as [p|]; [|done].
  destruct (BuildClusterJob _ _ _ _ _) as [[job s]|]; [|done]. cbn. destruct (status_ok s); [by intros [= <-]|done].
Qed.
(** A compatible query was compiled for a session that agrees. *)
Lemma compatible_agrees sql db session s cl info : compile sql db s cl = Some (Some info) -> (IsCompatibleCache session info).1 = true -> agree s session.
Proof.
  intros Hc. unfold IsCompatibleCache. rewrite (compile_context _ _ _ _ _ Hc). cbn [new_context engine_mode_ parameter_types common_column_indices].
  case_bool_decide as Hm; [|done]. cbn [negb]. destruct (Nat.eqb_spec (length (s_parameters s)) (length (s_parameters session))) as [Hl|]; [|done]. cbn [negb].
  destruct (types_differ _ _) eqn:Ht; [done|]. apply types_differ_spec in Ht; [|done]. destruct (s_mode session) eqn:Es; cbn; try (intros _; by split; [congruence|done|rewrite Es]).
  destruct (s_common session) as [c|] eqn:Ec; [|done]. case_bool_decide as Hb; [|done]. intros _. split; [congruence|done|]. intros _. by rewrite Hb, Ec.
Qed.

(** Every entry of the cache is what its key asks for. *)
Definition cache_ok (cs : list Catalog) (c : gmap EngineMode (gmap (list Z) lru)) : Prop :=
  forall mode mc db l sql info, c !! mode = Some mc -> mc !! db = Some l -> lru_holds l sql info -> exists s, s_mode s = mode /\ compiled_for cs sql db s info.
Lemma cache_ok_insert cs c mode mc db l : cache_ok cs c -> mc = default ∅ (c !! mode) ->
  (forall sql info, lru_holds l sql info -> exists s, s_mode s = mode /\ compiled_for cs sql db s info) -> cache_ok cs (<[mode := <[db := l]> mc]> c).
Proof.
  intros Hc -> Hl m mc' d l' sql info Hm Hd Hh. apply lookup_insert_Some in Hm as [[<- <-]|[Hn Hm]]; [|by eapply Hc].
  apply lookup_insert_Some in Hd as [[<- <-]|[Hn Hd]]; [by apply Hl|]. destruct (c !! mode) as [mc|] eqn:Em; [by eapply (Hc mode mc)|]. cbn in Hd. by rewrite lookup_empty in Hd.
Qed.
Lemma lookup_ok cs c db sql mode r c' : cache_ok cs c -> GetCacheLocked db sql mode c = (r, c') ->
  cache_ok cs c' /\ forall info, r = Some info -> exists s, s_mode s = mode /\ compiled_for cs sql db s info.
Proof.
  intros Hc. unfold GetCacheLocked. destruct (c !! mode) as [mc|] eqn:Em; [|by intros [= <- <-]]. destruct (mc !! db) as [l|] eqn:Ed; [|by intros [= <- <-]].
  destruct (lru_get sql l) as [v l'] eqn:Eg. intros [= <- <-]. split.
  - apply cache_ok_insert; [done|by rewrite Em|]. intros k x Hx. eapply (Hc mode mc); [done..|]. apply (get_keeps sql l). by rewrite Eg.
  - intros info ->. eapply (Hc mode mc); [done..|]. apply (get_holds sql l). by rewrite Eg.
Qed.
Lemma store_ok cs c db sql mode info : cache_ok cs c -> (exists s, s_mode s = mode /\ compiled_for cs sql db s info) -> cache_ok cs (SetCacheLocked options_ db sql mode info c).2.
Proof.
  intros Hc Hi. unfold SetCacheLocked. set (l := default _ (default ∅ (c !! mode) !! db)).
  assert (forall k x, lru_holds l k x -> exists s, s_mode s = mode /\ compiled_for cs k db s x) as Hl.
  { intros k x. unfold l. destruct (c !! mode) as [mc|] eqn:Em; cbn [default id from_option]; [|rewrite lookup_empty; cbn; by intros Hx%new_holds].
    destruct (mc !! db) as [l0|] eqn:Ed; cbn; [|by intros Hx%new_holds]. by apply (Hc mode mc). }
  destruct (lru_get sql l) as [v l'] eqn:Eg. assert (forall k x, lru_holds l' k x -> lru_holds l k x) as Hk by (intros k x Hx; apply (get_keeps sql l); by rewrite Eg).
  destruct (match v with None => true | Some _ => is_batch_request mode end); cbn [snd]; apply cache_ok_insert; try done; intros k x Hx; [|by apply Hl, Hk].
  apply insert_holds in Hx as [[-> ->]|Hx]; [done|by apply Hl, Hk].
Qed.
Lemma clear_ok cs c db : cache_ok cs c -> cache_ok cs (ClearCacheLocked db c).
Proof.
  intros Hc mode mc d l sql info Hm Hd. unfold ClearCacheLocked in Hm. rewrite lookup_fmap in Hm. destruct (c !! mode) as [mc0|] eqn:Em; [|done]. injection Hm as <-.
  apply lookup_delete_Some in Hd as [_ Hd]. by apply (Hc mode mc0).
Qed.
Lemma cache_ok_more cs cl c : cache_ok cs c -> cache_ok (cl :: cs) c.
Proof. intros Hc mode mc db l sql info H1 H2 H3. destruct (Hc _ _ _ _ _ _ H1 H2 H3) as (s & Hs & cl' & Hin & Hg). exists s. split; [done|]. exists cl'. split; [by right|done]. Qed.

(** ** Threads *)

Definition thread_ok (cs : list Catalog) (t : request * progress) : Prop :=
  match t.2 with
  | PStore info => compiled_for cs (q_sql t.1) (q_db t.1) (q_session t.1) info
  | PDone (Some info) => exists s, agree s (q_session t.1) /\ compiled_for cs (q_sql t.1) (q_db t.1) s info
  | _ => True
  end.
Record config_ok (c : config) : Prop := {
  co_cache : cache_ok (c_catalogs c) (lru_cache_ (c_engine c));
  co_catalog : cl_ (c_engine c) ∈ c_catalogs c;
  co_threads : forall i t, c_threads c !! i = Some t -> thread_ok (c_catalogs c) t
}.
Lemma thread_more cs cl t : thread_ok cs t -> thread_ok (cl :: cs) t.
Proof. destruct t as [q [| |info|[info|]]]; unfold thread_ok; cbn; try done; [intros (x & Hx & Hc); exists x; split; [by right|done]|]. intros (s & Hs & x & Hx & Hc). exists s. split; [done|]. exists x. split; [by right|done]. Qed.
Lemma threads_insert cs (ts : list (request * progress)) i t : (forall j u, ts !! j = Some u -> thread_ok cs u) -> thread_ok cs t -> forall j u, <[i := t]> ts !! j = Some u -> thread_ok cs u.
Proof. intros Hts Ht j u Hu. apply list_lookup_insert_Some in Hu as [(-> & <- & _)|[_ Hu]]; [done|by eapply Hts]. Qed.
Lemma step_ok c c' : config_ok c -> step c c' -> config_ok c'.
Proof.
  intros [Hc Hcl Ht] Hs. destruct Hs as [e cs ts q|e cs ts i q r e' Hi Hg|e cs ts i q r Hi Hg|e cs ts i q info Hi|e cs ts cl|e cs ts db]; cbn [c_engine c_catalogs c_threads] in *.
  - split; cbn; [done|done|]. intros j t [Hj|[_ Hj]]%lookup_app_Some; [by eapply Ht|]. by apply list_lookup_singleton_Some in Hj as [_ <-].
  - unfold get_lookup in Hg. destruct (GetCacheLocked _ _ _ _) as [v c1] eqn:Eg. destruct (lookup_ok _ _ _ _ _ _ _ Hc Eg) as [Hc1 Hv].
    assert (lru_cache_ e' = c1 /\ cl_ e' = cl_ e) as [E1 E2] by (destruct v as [x|]; [destruct (IsCompatibleCache _ _).1|]; by injection Hg as <- <-).
    split; cbn; [by rewrite E1|by rewrite E2|]. apply threads_insert; [done|]. destruct v as [x|]; [|by injection Hg as <- _]. destruct (IsCompatibleCache _ _).1 eqn:Ei; injection Hg as <- _; [|done].
    destruct (Hv x eq_refl) as (s & _ & cl & Hin & Hx). exists s. split; [by eapply compatible_agrees|by exists cl].
  - split; cbn; [done|done|]. apply threads_insert; [done|]. destruct r as [info|]; [|done]. by exists (cl_ e).
  - pose proof (Ht i _ Hi) as Hq. split; cbn; [|done|apply threads_insert; [done|exists (q_session q); by split; [apply agree_refl|]]]. apply store_ok; [done|]. by exists (q_session q).
  - split; cbn; [by apply cache_ok_more|by left|]. intros j t Hj. by eapply thread_more, Ht.
  - split; cbn; [by apply clear_ok|done|done].
Qed.
Lemma new_ok cl : config_ok (Engine_new cl).
Proof. split; cbn; [|by left|done]. intros mode mc db l sql info Hm. by rewrite lookup_empty in Hm. Qed.
Lemma engine_reachable c c' : rtc step c c' -> config_ok c -> config_ok c'.
Proof. induction 1 as [|x y z Hxy _ IH]; [done|]. intros Hx. by eapply IH, step_ok. Qed.
End Cache.

(** C10: What [Engine::Get] hands out. Sessions of any number of threads look up,
    compile and store in any order, while the catalog is replaced and the cache
    cleared. A session that receives a compiled query receives what a compilation of its own SQL
    and database with a catalog the engine has or had yields, for a session of the same
    mode, parameter types and, in batch request mode, common columns: never
    another query and never a plan for other parameters. *)
Theorem engine_get {E : Type} (ExprListEquals : list E -> list E -> bool) {Catalog : Type} (Compile : Catalog -> bool -> bool -> SqlContext -> option (Compiled (E := E)))
    {lru : Type} `{HL : LRU (E := E) lru} (HLaws : LRULaws (E := E) lru) (options_ : EngineOptions) (cl0 : Catalog) (c : config) (i : nat) (q : request) (info : CompileInfo) :
  rtc (engine_step ExprListEquals Compile options_) (Engine_new cl0) c -> c_threads c !! i = Some (q, PDone (Some info)) ->
  exists cl s, cl ∈ c_catalogs c /\ agree s (q_session q) /\ get_compile ExprListEquals Compile options_ (q_sql q) (q_db q) s cl = Some (Some info).
Proof.
  intros Hr Hi. pose proof (co_threads _ _ _ _ (engine_reachable _ _ HLaws _ _ _ Hr (new_ok _ _ _ _)) i _ Hi) as (s & Hs & cl & Hin & Hc). by exists cl, s.
Qed.

(** ** Sessions *)

(** Enough depth reaches every runner. *)
Lemma mapM_id {A} (l : list A) : mapM_opt id (Some <$> l) = Some l.
Proof. apply mapM_Forall2. induction l; constructor; auto. Qed.
Lemma runner_at_tree h r : forall a, tree (fun x => h !! x) flags a r -> exists n, forall m, (n <= m)%nat -> runner_at m h a = Some r.
Proof.
  assert (forall l, Forall (fun r => forall a, tree (fun x => h !! x) flags a r -> exists n, forall m, (n <= m)%nat -> runner_at m h a = Some r) l ->
    forall xs, Forall2 (tree (fun x => h !! x) flags) xs l -> exists n, forall m, (n <= m)%nat -> mapM_opt (runner_at m h) xs = Some l) as Hl.
  { induction 1 as [|r1 l Hr _ IH]; intros xs Hx; inversion Hx as [|x ? xs' ? Tx Txs]; subst; [by exists O|]. destruct (Hr _ Tx) as [n1 H1]. destruct (IH _ Txs) as [n2 H2].
    exists (n1 + n2)%nat. intros m Hm. cbn [mapM_opt]. rewrite H1, H2 by lia. done. }
  induction r as [id c b lim op ps us js IHp IHu IHj] using runner_ind. intros a Ht. inversion Ht as [? o aps aus ajs ? ? ? ? Hf Ep Eu Ej Tp Tu Tj Ho]; subst.
  destruct (Hl _ IHp _ Tp) as [n1 H1]. destruct (Hl _ IHu _ Tu) as [n2 H2]. destruct (Hl _ IHj _ Tj) as [n3 H3]. exists (S (n1 + n2 + n3)). intros [|m] Hm; [lia|]. cbn [runner_at].
  rewrite Hf. cbn [mbind option_bind]. rewrite Ep, Eu, Ej, !mapM_id. cbn [mbind option_bind]. rewrite H1, H2, H3 by lia. cbn [mbind option_bind].
  destruct Ho as [op|l r ls rs -> El Er]; [done|]. cbn [kind_op]. unfold slices_at in El, Er. rewrite El. cbn [mbind option_bind]. by rewrite Er.
Qed.

Section Sessions.
Context {E : Type} (ExprListEquals : list E -> list E -> bool) {Catalog : Type} (Compile : Catalog -> bool -> bool -> SqlContext -> option (Compiled (E := E))) (options_ : EngineOptions).
Context (spark : bool) (float_text double_text : Z -> list Z) (std_sort : ((Z * Row) -> (Z * Row) -> bool) -> list (Z * Row) -> list (Z * Row)) (fuel : nat).

(** The answers for the output of a plan. *)
Definition request_answer (out_row : Row) (output : option DataHandler) : option (Z * Row) :=
  match output with
  | None => Some (-1, out_row)
  | Some h => '(ok, row) ← ExtractRow fuel h out_row; Some (if (ok : bool) then 0 else -1, row)
  end.
Definition table_answer (output : option DataHandler) : option (option TableHandler) :=
  match output with
  | Some (HTable t) => Some (Some t)
  | Some (HRow h) => row ← r_GetValue h; Some (Some (TMem (tb_AddRow row MemTableHandler_new)))
  | _ => Some None
  end.
Definition rows_answer (rows : list Row) (output : option DataHandler) : option (Z * list Row) :=
  match output with
  | Some (HTable t) =>
      o ← t_GetIterator fuel t;
      match o with None => Some (0, rows) | Some _ => '(_, rows) ← ExtractRows fuel output rows; Some (0, rows) end
  | Some (HRow _) => '(_, rows) ← ExtractRows fuel output rows; Some (0, rows)
  | _ => Some (-1, rows)
  end.

Notation meaning_of := (denote spark float_text double_text std_sort fuel).
Lemma run_main (info : CompileInfo (E := E)) a r depth (ctx : RunnerContext) : runner_at depth (ci_heap info) a = Some r -> ids_unique r -> ctx_cache ctx = ∅ ->
  (r ← runner_at depth (ci_heap info) a; '(output, _) ← RunWithCache spark float_text double_text std_sort fuel r ctx; Some output) = meaning_of (ctx_request ctx) (ctx_parameter ctx) (strip r).
Proof.
  intros Ha Hu Hc. rewrite Ha. cbn [mbind option_bind]. pose proof (unique_runs spark float_text double_text std_sort fuel r ctx Hu Hc) as Hr. destruct (denote _ _ _ _ _ _ _ _) as [d|]; [|by rewrite Hr]. destruct Hr as [c' ->]. done.
Qed.
(** A compiled plan in local mode. *)
Lemma compile_plan sql db session cl c plan meaning slices : compile_only_ options_ = false -> cluster_optimized_ options_ && is_request_mode (s_mode session) = false ->
  Compile cl (keep_ir_ options_) (plan_only_ options_) (new_context options_ sql db session) = Some c -> physical_plan c = Some plan -> plan_ok plan -> plan_tree plan = Some (meaning, slices) ->
  exists info a r n, get_compile ExprListEquals Compile options_ sql db session cl = Some (Some info) /\ ci_job info = mkJob [CommonTask a] 0 /\ ids_unique r /\ strip r = meaning /\
    forall depth, (n <= depth)%nat -> runner_at depth (ci_heap info) a = Some r.
Proof.
  intros Ho Hm Hc Hp Hok Ht. destruct (local_job ExprListEquals (common_node_set c) plan meaning slices Hok Ht) as (s & a & r & Eb & Hs & Tr & Hu & Er & _ & _). destruct (runner_at_tree _ _ _ Tr) as [n Hn].
  exists (mkInfo (new_context options_ sql db session) (mkJob [CommonTask a] 0) (heap s)), a, r, n. split_and!; try done.
  unfold get_compile. rewrite Hc, Ho. unfold CompilerBuildClusterJob. rewrite Hp. cbn [new_context is_cluster_optimized engine_mode_]. rewrite Hm, Eb. cbn [mbind option_bind]. by rewrite Hs.
Qed.

(** C9: Sessions compute the meaning of the compiled plan. A query whose
    compilation yields a plan of supported operators compiles in local mode, and,
    with enough depth to reach every runner, a request session returns the row,
    and a batch session the table or the rows, that the operators of the
    plan give without ids, sharing and caches, with status -1 when there is
    no result; the limit of a batch run has no effect. *)
Theorem session_runs (sql db : list Z) (session : RunSession) (cl : Catalog) (c : Compiled) (plan : PNode) (meaning : Runner) (slices : Z) :
  compile_only_ options_ = false -> cluster_optimized_ options_ && is_request_mode (s_mode session) = false ->
  Compile cl (keep_ir_ options_) (plan_only_ options_) (new_context options_ sql db session) = Some c -> physical_plan c = Some plan ->
  plan_ok plan -> plan_tree plan = Some (meaning, slices) ->
  exists info n, get_compile ExprListEquals Compile options_ sql db session cl = Some (Some info) /\ forall depth, (n <= depth)%nat ->
    (forall request parameter out_row, RequestRun spark float_text double_text std_sort fuel depth info request parameter out_row = d ← meaning_of request parameter meaning; request_answer out_row d) /\
    (forall parameter, BatchRun_table spark float_text double_text std_sort fuel depth info parameter = d ← meaning_of Row_default parameter meaning; table_answer d) /\
    (forall parameter rows limit, BatchRun_rows spark float_text double_text std_sort fuel depth info parameter rows limit = d ← meaning_of Row_default parameter meaning; rows_answer rows d).
Proof.
  intros Ho Hm Hc Hp Hok Ht. destruct (compile_plan sql db session cl c plan meaning slices Ho Hm Hc Hp Hok Ht) as (info & a & r & n & Hg & Hj & Hu & <- & Hn). exists info, n. split; [done|]. intros depth Hd. specialize (Hn depth Hd).
  unfold RequestRun, RequestRun_task, BatchRun_table, BatchRun_rows, GetMainTask. rewrite Hj. change (GetTask (main_task_id_ (mkJob [CommonTask (E := E) a] 0)) (mkJob [CommonTask a] 0)) with (CommonTask (E := E) a). change (GetTask 0 (mkJob [CommonTask (E := E) a] 0)) with (CommonTask (E := E) a).
  cbn [root_ CommonTask mbind option_bind]. split_and!; [intros rq parameter out_row|intros parameter|intros parameter rows limit].
  - rewrite <- (run_main info a r depth (mkRunnerContext rq [] parameter ∅ ∅) Hn Hu eq_refl). rewrite Hn. cbn [mbind option_bind]. destruct (RunWithCache _ _ _ _ _ _ _) as [[d ?]|]; done.
  - rewrite <- (run_main info a r depth (mkRunnerContext Row_default [] parameter ∅ ∅) Hn Hu eq_refl). rewrite Hn. cbn [mbind option_bind]. destruct (RunWithCache _ _ _ _ _ _ _) as [[[[]|] ?]|]; done.
  - rewrite <- (run_main info a r depth (mkRunnerContext Row_default [] parameter ∅ ∅) Hn Hu eq_refl). rewrite Hn. cbn [mbind option_bind]. destruct (RunWithCache _ _ _ _ _ _ _) as [[[[t|t|t]|] ?]|]; try done.
    + cbn [mbind option_bind rows_answer ExtractRows]. by destruct (r_GetValue t).
    + cbn [mbind option_bind rows_answer ExtractRows]. destruct (t_GetIterator fuel t) as [[it|]|]; try done. cbn [mbind option_bind]. by destruct (for_rows _ _ _ _).
Qed.
End Sessions.

(** ** Dependent tables *)

(** The tables at the leaves of a logical plan. *)
Inductive table_in (t : list Z) : LogicalPlan -> Prop :=
| in_table : table_in t (LTable t)
| in_child children c : Some c ∈ children -> table_in t c -> table_in t (LNode children).
Lemma logical_ind (P : LogicalPlan -> Prop) : (forall t, P (LTable t)) -> (forall l, Forall (fun c => match c with Some c => P c | None => True end) l -> P (LNode l)) -> forall n, P n.
Proof. intros Ht Hn. fix IH 1. intros [t|l]; [apply Ht|]. apply Hn. induction l as [|[c|] l IHl]; constructor; auto. Qed.
(** [GetDependentTables] adds exactly the tables of the plan. *)
Theorem dependent_tables t : forall node tables, t ∈ GetDependentTables node tables <-> table_in t node \/ t ∈ tables.
Proof.
  induction node as [x|children HF] using logical_ind; intros tables; cbn [GetDependentTables].
  - split; [intros [->%elem_of_singleton|Ht]%elem_of_union; [left; constructor|by right]|intros [Ht|Ht]; [inversion Ht; set_solver|set_solver]].
  - assert (forall acc, t ∈ foldl (fun acc c => match c with Some c => GetDependentTables c acc | None => acc end) acc children <-> (exists c, Some c ∈ children /\ table_in t c) \/ t ∈ acc) as Hl.
    { induction HF as [|[c|] l IH _ IHl]; intros acc; cbn [foldl].
      - split; [by right|intros [(c & Hc & _)|Ht]; [by apply not_elem_of_nil in Hc|done]].
      - rewrite IHl, IH. split; [intros [(d & Hd & Ht)|[Ht|Ht]]; [left; exists d; split; [by right|done]|left; exists c; split; [by left|done]|by right]|].
        intros [(d & [[= ->]|Hd]%elem_of_cons & Ht)|Ht]; [by right; left|left; by exists d|by right; right].
      - rewrite IHl. split; (intros [(d & Hd & Ht)|Ht]; [|by right]); left; exists d; [by split; [right|]|]. apply elem_of_cons in Hd as [|Hd]; [done|by split]. }
    rewrite Hl. split; (intros [H|H]; [|by right]); left; [destruct H as (c & Hc & Ht); by econstructor|inversion H; eauto].
Qed.

(** ** Witnesses *)

Module SampleEngine.
(** A cache that keeps its entries in the order of their last use. *)
Record list_lru := mkLru { capacity : nat; entries : list (list Z * CompileInfo (E := Z)) }.
Definition others (k : list Z) (l : list (list Z * CompileInfo (E := Z))) := filter (fun e => e.1 <> k) l.
Definition list_get (k : list Z) (l : list_lru) : option CompileInfo * list_lru :=
  match list_find (fun e => e.1 = k) (entries l) with
  | Some (_, e) => (Some e.2, mkLru (capacity l) (e :: others k (entries l)))
  | None => (None, l)
  end.
#[global] Instance list_lru_ops : LRU (E := Z) list_lru := {
  lru_new n := mkLru (Z.to_nat n) [];
  lru_get := list_get;
  lru_insert k v l := mkLru (capacity l) (take (capacity l) ((k, v) :: others k (entries l)));
  lru_holds l k v := (k, v) ∈ entries l
}.
Lemma others_in k l e : e ∈ others k l -> e ∈ l.
Proof. unfold others. rewrite list_elem_of_filter. tauto. Qed.
#[global] Instance list_lru_laws : LRULaws (E := Z) list_lru.
Proof.
  split; cbn.
  - intros n k v. apply not_elem_of_nil.
  - intros k l v. unfold list_get. destruct (list_find _ _) as [[i [k1 v1]]|] eqn:Ef; [|done]. intros [= <-]. apply list_find_Some in Ef as (Hi & Hk & _). cbn in Hk. subst. by eapply list_elem_of_lookup_2.
  - intros k l k' v. unfold list_get. destruct (list_find _ _) as [[i e]|] eqn:Ef; [|done]. cbn. apply list_find_Some in Ef as (Hi & _). intros [->|H%others_in]%elem_of_cons; [by eapply list_elem_of_lookup_2|done].
  - intros k v l k' v' H. apply elem_of_take in H as (i & Hi & _). apply list_elem_of_lookup_2, elem_of_cons in Hi as [[= -> ->]|Hi]; [by left|right]. by eapply others_in.
Qed.

Definition compile (catalog : Z) (keep_ir plan_only : bool) (ctx : SqlContext) : option (Compiled (E := Z)) := Some (mkCompiled (Some SampleJob.plan) (fun _ => false)).
Definition eq_exprs (l r : list Z) : bool := true.
Definition session : RunSession := mkSession kRequestMode [] None.
Definition query : request := mkRequest [1] [2] session.
Notation step := (engine_step (lru := list_lru) eq_exprs compile EngineOptions_default).
Definition sample_info : CompileInfo (E := Z) :=
  Eval vm_compute in match get_compile eq_exprs compile EngineOptions_default [1] [2] session 7 with Some (Some info) => info | _ => mkInfo (new_context EngineOptions_default [] [] session) (mkJob [] 0) [] end.
Lemma sample_compiles : get_compile eq_exprs compile EngineOptions_default [1] [2] session 7 = Some (Some sample_info).
Proof. vm_compute. reflexivity. Qed.
(** The first session compiles and stores, the catalog changes, the second
    session finds the query in the cache. *)
Definition stored : Engine (Catalog := Z) (lru := list_lru) := UpdateCatalog 8 (get_store EngineOptions_default [1] [2] session sample_info (mkEngine 7 ∅)).
Definition final : config := mkConfig (get_lookup [1] [2] session stored).2 [8; 7] [(query, PDone (Some sample_info)); (query, PDone (Some sample_info))].
Lemma final_reached : rtc step (Engine_new 7) final.
Proof.
  eapply rtc_l; [exact (step_start _ _ _ _ _ _ query)|].
  eapply rtc_l; [eapply (step_lookup _ _ _ _ _ _ 0 query None); [done|vm_compute; reflexivity]|].
  eapply rtc_l; [eapply (step_compile _ _ _ _ _ _ 0 query (Some sample_info)); [done|exact sample_compiles]|].
  eapply rtc_l; [eapply (step_store _ _ _ _ _ _ 0 query sample_info); done|].
  eapply rtc_l; [exact (step_update _ _ _ _ _ _ 8)|].
  eapply rtc_l; [exact (step_start _ _ _ _ _ _ query)|].
  eapply rtc_l; [eapply (step_lookup _ _ _ _ _ _ 1 query (Some sample_info)); [done|vm_compute; reflexivity]|]. apply rtc_refl.
Qed.
Lemma engine_get_witness : c_threads final !! 1%nat = Some (query, PDone (Some sample_info)) /\
  exists cl s, cl ∈ [8; 7] /\ agree s session /\ get_compile eq_exprs compile EngineOptions_default [1] [2] s cl = Some (Some sample_info).
Proof. split; [reflexivity|]. exact (engine_get eq_exprs compile list_lru_laws EngineOptions_default 7 final 1 query sample_info final_reached eq_refl). Defined.

Definition row : Row := Row_of_string [1].
Lemma session_runs_witness : exists info n, get_compile eq_exprs compile EngineOptions_default [1] [2] session 7 = Some (Some info) /\
  RequestRun false (fun _ => []) (fun _ => []) (fun _ l => l) 10 n info row Row_default Row_default = (joined ← Row_concat 1 row 1 row; Some (0, joined)).
Proof.
  destruct (session_runs eq_exprs compile EngineOptions_default false (fun _ => []) (fun _ => []) (fun _ l => l) 10 [1] [2] session 7 (mkCompiled (Some SampleJob.plan) (fun _ => false)) SampleJob.plan
    (mkRunner 0 false false 0 (OpConcat 1 1) [mkRunner 0 false false 0 OpRequest [] [] []; mkRunner 0 false false 0 OpRequest [] [] []] [] []) 2 eq_refl eq_refl eq_refl eq_refl SampleJob.plan_is_ok eq_refl) as (info & n & Hg & Hr).
  exists info, n. split; [exact Hg|]. destruct (Hr n (le_n n)) as [H1 _]. rewrite H1. reflexivity.
Defined.
End SampleEngine.
