(* ===== verification/UdfLibrary.v ===== *)
(** * The library of functions

    Models [UdfLibrary] of [src/udf/udf_library.cc] and [ArgSignatureTable] of
    [src/udf/udf_registry.h]: the functions a query may call, registered under
    names and argument types, and the choice of the overload for the types of a
    call; with the comparison and the names of types ([include/node/type_node.h],
    [src/node/sql_node.cc]).

    An overload is a value of any type. Entries are shared between a name and its
    aliases, so they have addresses. The order in which an [unordered_map] is
    enumerated is a parameter. *)

#[local] Set Warnings "-register-all".

From Stdlib Require Import String Ascii.
From stdpp Require Import base numbers option list gmap sets strings pretty.
From S2P Require Import Prelude CompiledCodec.

#[local] Open Scope string_scope.

(** ** Types *)

Inductive DataType :=
| kBool | kInt16 | kInt32 | kInt64 | kFloat | kDouble | kVarchar | kDate | kTimestamp | kList | kHour | kMinute | kSecond | kDay
| kMap | kIterator | kInt8Ptr | kRow | kOpaque | kTuple | kVoid | kNull | kPlaceholder.
#[global] Instance UdfDataType_eq : EqDecision DataType.
Proof. solve_decision. Defined.
Definition DataTypeName (t : DataType) : string :=
  match t with
  | kBool => "bool" | kInt16 => "int16" | kInt32 => "int32" | kInt64 => "int64" | kFloat => "float" | kDouble => "double"
  | kVarchar => "string" | kTimestamp => "timestamp" | kDate => "date" | kList => "list" | kMap => "map" | kIterator => "iterator"
  | kRow => "row" | kSecond => "second" | kMinute => "minute" | kHour => "hour" | kNull => "null" | kVoid => "void"
  | kPlaceholder => "placeholder" | kOpaque => "opaque" | kTuple => "tuple" | kDay => "day" | kInt8Ptr => "int8ptr"
  end.

(** [TypeNode] and [OpaqueTypeNode]; the schemas of a row type are not compared. *)
Inductive TypeNode := TNode (base : DataType) (generics : list TypeNode) | TOpaque (bytes : N).
Definition type_base (t : TypeNode) : DataType := match t with TNode b _ => b | TOpaque _ => kOpaque end.
Definition type_generics (t : TypeNode) : list TypeNode := match t with TNode _ gs => gs | TOpaque _ => [] end.
Fixpoint GetName (t : TypeNode) : string :=
  match t with
  | TNode b gs => foldl (fun name g => name ++ "_" ++ g) (DataTypeName b) (GetName <$> gs)
  | TOpaque n => "opaque<" ++ pretty n ++ ">"
  end.

(** [std::equal] on the generics: the second list is read as far as the first
    one goes. *)
Definition equal_range (eq : TypeNode -> TypeNode -> option bool) : list TypeNode -> list TypeNode -> option bool :=
  fix go l r :=
    match l, r with
    | [], _ => Some true
    | _ :: _, [] => None
    | x :: l', y :: r' => e ← eq x y; if (e : bool) then go l' r' else Some false
    end.
Fixpoint type_Equals (t u : TypeNode) : option bool :=
  match t with
  | TNode b gs => if bool_decide (b = type_base u) then equal_range type_Equals gs (type_generics u) else Some false
  | TOpaque _ => Some (bool_decide (kOpaque = type_base u))
  end.
(** Unknown types are different from every type. *)
Definition TypeEquals (left right : option TypeNode) : option bool :=
  match left, right with Some l, Some r => type_Equals l r | _, _ => Some false end.

(** ** Signatures *)

Section Table.
Context {T : Type}.

(** An unknown argument type is any type. *)
Record DefItem := mkDefItem { value : T; arg_types : list (option TypeNode); is_variadic : bool }.
Notation TableType := (gmap string DefItem).

Fixpoint signature (args : list (option TypeNode)) : string :=
  match args with
  | [] => ""
  | a :: rest => match a with None => "?" | Some t => GetName t end ++ match rest with [] => "" | _ => ", " ++ signature rest end
  end.
Definition Register (args : list (option TypeNode)) (variadic : bool) (t : T) (table : TableType) : bool * TableType :=
  match table !! signature args with
  | Some _ => (false, table)
  | None => (true, <[signature args := mkDefItem t args variadic]> table)
  end.

(** The loop over the arguments of a signature: whether it matches, and whether
    it matches with placeholders. *)
Fixpoint match_args (defs args : list (option TypeNode)) (matches placeholder : bool) : option (bool * bool) :=
  match defs with
  | [] => Some (matches, placeholder)
  | d :: defs' =>
      match args with
      | [] => None
      | a :: args' =>
          match d with
          | None => match_args defs' args' false true
          | Some _ => e ← TypeEquals d a; if (e : bool) then match_args defs' args' matches placeholder else Some (false, false)
          end
      end
  end.

Record FindState := mkFind {
  placeholder_match : option (string * DefItem); variadic_match : option (string * DefItem); variadic_placeholder_match : option (string * DefItem);
  variadic_match_pos : Z; variadic_placeholder_match_pos : Z
}.
Definition Find_init : FindState := mkFind None None None (-1) (-1).
(** One signature; an explicit match ends the search. *)
Definition find_step (args : list (option TypeNode)) (it : string * DefItem) (st : FindState) : option (option (string * DefItem) * FindState) :=
  let defs := arg_types it.2 in
  let n := Z.of_nat (length defs) in
  if is_variadic it.2 then
    if (length args <? length defs)%nat then Some (None, st)
    else
      '(matches, placeholder) ← match_args defs args true false;
      Some (None,
        if (matches : bool) then
          if (variadic_match_pos st <? n)%Z
          then mkFind (Some it) (variadic_match st) (variadic_placeholder_match st) n (variadic_placeholder_match_pos st) else st
        else if (placeholder : bool) then
          if (variadic_placeholder_match_pos st <? n)%Z
          then mkFind (placeholder_match st) (variadic_match st) (Some it) (variadic_match_pos st) n else st
        else st)
  else if (length args =? length defs)%nat then
    '(matches, placeholder) ← match_args defs args true false;
    Some (if (matches : bool) then (Some it, st)
          else (None, if (placeholder : bool)
                      then mkFind (Some it) (variadic_match st) (variadic_placeholder_match st) (variadic_match_pos st) (variadic_placeholder_match_pos st) else st))
  else Some (None, st).
Fixpoint find_loop (args : list (option TypeNode)) (items : list (string * DefItem)) (st : FindState) : option (option (string * DefItem) * FindState) :=
  match items with
  | [] => Some (None, st)
  | it :: items' => '(found, st) ← find_step args it st; match found with Some _ => Some (found, st) | None => find_loop args items' st end
  end.
(** The variadic position, the signature and the value. *)
Definition Find_items (args : list (option TypeNode)) (items : list (string * DefItem)) : outcome (Z * string * T) :=
  match find_loop args items Find_init with
  | None => Undefined
  | Some (Some it, _) => Done (-1, it.1, value it.2)
  | Some (None, st) =>
      match placeholder_match st with
      | Some it => Done (-1, it.1, value it.2)
      | None =>
          match variadic_match st with
          | Some it => Done (variadic_match_pos st, it.1, value it.2)
          | None =>
              match variadic_placeholder_match st with
              | Some it => Done (variadic_placeholder_match_pos st, it.1, value it.2)
              | None => Refused
              end
          end
      end
  end.
Context (enumerate : TableType -> list (string * DefItem)).
Definition Find (args : list (option TypeNode)) (table : TableType) : outcome (Z * string * T) := Find_items args (enumerate table).

(** ** The library *)

Record UdfLibraryEntry := mkEntry {
  signature_table : TableType; udaf_arg_nums : gset nat; arg_is_always_list : gmap nat bool; always_return_list : bool
}.
Definition Entry_new : UdfLibraryEntry := mkEntry ∅ ∅ ∅ false.
Record UdfLibrary := mkLibrary { entries : list UdfLibraryEntry; table_ : gmap string nat; case_sensitive_ : bool }.

Definition to_lower_char (c : ascii) : ascii :=
  let n := nat_of_ascii c in if ((65 <=? n) && (n <=? 90))%nat then ascii_of_nat (n + 32) else c.
Fixpoint to_lower (s : string) : string :=
  match s with EmptyString => EmptyString | String c s' => String (to_lower_char c) (to_lower s') end.
Definition GetCanonicalName (lib : UdfLibrary) (name : string) : string := if case_sensitive_ lib then name else to_lower name.
(** The entry behind a name. *)
Definition entry_of (lib : UdfLibrary) (name : string) : option UdfLibraryEntry := p ← table_ lib !! GetCanonicalName lib name; entries lib !! p.

Definition Library_Find (name : string) (args : list (option TypeNode)) (lib : UdfLibrary) : option (option T) :=
  match entry_of lib name with
  | None => Some None
  | Some e => match Find args (signature_table e) with Undefined => None | Refused => Some None | Done (_, _, r) => Some (Some r) end
  end.
(** [ResolveFunction] and [Transform] up to the call of the chosen registry. *)
Definition Library_Resolve (name : string) (args : list (option TypeNode)) (lib : UdfLibrary) : outcome T :=
  match entry_of lib name with
  | None => Refused
  | Some e => match Find args (signature_table e) with Undefined => Undefined | Refused => Refused | Done (_, _, r) => Done r end
  end.
Definition HasFunction (name : string) (lib : UdfLibrary) : bool := bool_decide (is_Some (table_ lib !! GetCanonicalName lib name)).

(** Positions that hold a list in every signature so far. *)
Definition is_list (t : option TypeNode) : bool := match t with Some t => bool_decide (type_base t = kList) | None => false end.
Fixpoint list_args (always_list_argidx : gset nat) (i : nat) (args : list (option TypeNode)) (d : gmap nat bool) : gmap nat bool :=
  match args with
  | [] => d
  | a :: rest =>
      list_args always_list_argidx (S i) rest
        (if is_list a then match d !! i with None => <[i := true]> d | Some _ => d end
         else if bool_decide (i ∈ always_list_argidx) && bool_decide (a = None) then d else <[i := false]> d)
  end.
Definition insert_registry (args : list (option TypeNode)) (variadic always_list : bool) (always_list_argidx : gset nat) (registry : T) (e : UdfLibraryEntry) : UdfLibraryEntry :=
  let returns_list := if always_list then (if bool_decide (signature_table e = ∅) then true else always_return_list e) else false in
  let d := set_fold (fun i d => <[i := true]> d) (arg_is_always_list e) always_list_argidx in
  mkEntry (Register args variadic registry (signature_table e)).2 (udaf_arg_nums e) (list_args always_list_argidx 0 args d) returns_list.
Definition InsertRegistry (name : string) (args : list (option TypeNode)) (variadic always_list : bool) (always_list_argidx : gset nat) (registry : T) (lib : UdfLibrary) : UdfLibrary :=
  let key := GetCanonicalName lib name in
  let '(p, es, t) := match table_ lib !! key with
    | Some p => (p, entries lib, table_ lib)
    | None => (length (entries lib), (entries lib ++ [Entry_new])%list, <[key := length (entries lib)]> (table_ lib))
    end in
  mkLibrary (alter (insert_registry args variadic always_list always_list_argidx registry) p es) t (case_sensitive_ lib).
Definition IsUdaf (name : string) (args : nat) (lib : UdfLibrary) : bool :=
  match entry_of lib name with Some e => bool_decide (args ∈ udaf_arg_nums e) | None => false end.
Definition set_udaf (args : nat) (e : UdfLibraryEntry) : UdfLibraryEntry :=
  mkEntry (signature_table e) ({[args]} ∪ udaf_arg_nums e) (arg_is_always_list e) (always_return_list e).
Definition SetIsUdaf (name : string) (args : nat) (lib : UdfLibrary) : UdfLibrary :=
  match table_ lib !! GetCanonicalName lib name with
  | None => lib
  | Some p => mkLibrary (alter (set_udaf args) p (entries lib)) (table_ lib) (case_sensitive_ lib)
  end.
Definition RequireListAt (name : string) (index : nat) (lib : UdfLibrary) : bool :=
  match entry_of lib name with Some e => default false (arg_is_always_list e !! index) | None => false end.
Definition IsListReturn (name : string) (lib : UdfLibrary) : bool := match entry_of lib name with Some e => always_return_list e | None => false end.
Definition RegisterAlias (alias name : string) (lib : UdfLibrary) : bool * UdfLibrary :=
  let canonical_alias := GetCanonicalName lib alias in
  match table_ lib !! canonical_alias with
  | Some _ => (false, lib)
  | None =>
      match table_ lib !! GetCanonicalName lib name with
      | None => (false, lib)
      | Some p => (true, mkLibrary (entries lib) (<[canonical_alias := p]> (table_ lib)) (case_sensitive_ lib))
      end
  end.
End Table.

#[local] Close Scope string_scope.

(** * Overload resolution

    A call finds an overload whenever one covers its arguments, and the one it
    finds is the best in the documented order (explicit types first, a variadic
    signature with placeholders last), but for one case in which the code stores
    the wrong match. What was registered under explicit types stays the answer
    for them, whatever is registered later. *)

(** ** Types *)

Section Types.
Context (arity : DataType -> nat).

(** Every base type has as many generic arguments as it should. *)
Inductive type_wf : TypeNode -> Prop :=
| wf_node b gs : b <> kOpaque -> length gs = arity b -> Forall type_wf gs -> type_wf (TNode b gs)
| wf_opaque n : type_wf (TOpaque n).
Inductive plain_type : TypeNode -> Prop := plain_node b gs : Forall plain_type gs -> plain_type (TNode b gs).
Lemma type_ind (P : TypeNode -> Prop) : (forall b gs, Forall P gs -> P (TNode b gs)) -> (forall n, P (TOpaque n)) -> forall t, P t.
Proof. intros Hn Ho. fix IH 1. intros [b gs|n]; [|apply Ho]. apply Hn. induction gs; constructor; auto. Qed.

Lemma equals_defined t : forall u, type_wf t -> type_wf u -> is_Some (type_Equals t u).
Proof.
  induction t as [b gs IH|n] using type_ind; intros u Ht Hu; [|by eexists]. cbn [type_Equals]. case_bool_decide as Hb; [|by eexists].
  inversion Ht as [? ? Hb1 Hl Hg|]; subst. assert (length gs = length (type_generics u) /\ Forall type_wf (type_generics u)) as [Hlu Hgu] by (inversion Hu; subst; cbn in *; [split; congruence|done]).
  clear -IH Hg Hlu Hgu. revert Hgu Hlu. generalize (type_generics u) as us. induction IH as [|g gs Hg0 _ IHs]; intros us Hgu Hlu; [by eexists|].
  destruct us as [|x us]; [done|]. apply Forall_cons_1 in Hg as [Hg1 Hg2]. apply Forall_cons_1 in Hgu as [Hu1 Hu2]. cbn. destruct (Hg0 x Hg1 Hu1) as [[] ->]; cbn; [|by eexists]. apply IHs; [done|done|]. by injection Hlu.
Qed.
(** Equality of types without opaque ones is equality. *)
Lemma equals_eq t : forall u, type_wf t -> type_wf u -> plain_type u -> type_Equals t u = Some true -> t = u.
Proof.
  induction t as [b gs IH|n] using type_ind; intros u Ht Hu Hp; [|cbn; intros [= Hb%bool_decide_eq_true]; inversion Hp; subst; cbn in Hb; by inversion Hu].
  inversion Hp as [b' us Hps]; subst. inversion Hu as [? ? Hb' Hlu Hgu|]; subst. inversion Ht as [? ? Hb Hl Hg|]; subst. cbn. case_bool_decide as Eb; [|done]. subst b'. intros He. f_equal.
  assert (length gs = length us) as Hlen by congruence. clear -IH Hg Hgu Hps He Hlen. revert us Hgu Hps He Hlen. induction IH as [|g gs Hg0 _ IHs]; intros us Hgu Hps He Hlen; [by destruct us|].
  destruct us as [|x us]; [done|]. apply Forall_cons_1 in Hg as [Hg1 Hg2]. apply Forall_cons_1 in Hgu as [Hu1 Hu2]. apply Forall_cons_1 in Hps as [Hp1 Hp2]. cbn in He. destruct (type_Equals g x) as [[]|] eqn:Ee; [|done|done].
  f_equal; [by apply Hg0|]. apply IHs; try done. by injection Hlen.
Qed.
Lemma equals_refl t : type_wf t -> type_Equals t t = Some true.
Proof.
  induction t as [b gs IH|n] using type_ind; intros Ht; [|cbn; by rewrite bool_decide_true]. cbn. rewrite bool_decide_true by done. inversion Ht as [? ? _ _ Hg|]; subst. clear -IH Hg.
  induction IH as [|g gs Hg0 _ IHs]; [done|]. apply Forall_cons_1 in Hg as [Hg1 Hg2]. cbn. rewrite (Hg0 Hg1). cbn. by apply IHs.
Qed.

(** ** Signatures *)

Definition arg_ok (a : option TypeNode) : Prop := match a with Some t => type_wf t | None => True end.
Definition fits (d a : option TypeNode) : Prop := d = None \/ TypeEquals d a = Some true.
#[global] Instance fits_dec d a : Decision (fits d a).
Proof. unfold fits. apply _. Defined.
Lemma TypeEquals_defined d a : arg_ok d -> arg_ok a -> is_Some (TypeEquals d a).
Proof. destruct d, a; cbn; try (by eexists). apply equals_defined. Qed.
Definition placeholders (defs : list (option TypeNode)) : bool := existsb (fun d => match d with None => true | Some _ => false end) defs.
(** The arguments as far as the signature goes. *)
Definition fixed_args (defs args : list (option TypeNode)) : Prop := Forall2 fits defs (take (length defs) args).
Lemma match_args_spec defs : forall args m p, Forall arg_ok defs -> Forall arg_ok args -> (length defs <= length args)%nat ->
  (fixed_args defs args /\ match_args defs args m p = Some (m && negb (placeholders defs), p || placeholders defs)) \/
  (~ fixed_args defs args /\ match_args defs args m p = Some (false, false)).
Proof.
  unfold fixed_args. induction defs as [|d defs IH]; intros args m p Hd Ha Hl.
  { left. split; [constructor|]. cbn. by rewrite andb_true_r, orb_false_r. }
  destruct args as [|a args]; [cbn in Hl; lia|]. apply Forall_cons_1 in Hd as [Hd Hds]. apply Forall_cons_1 in Ha as [Ha Has]. cbn [length take match_args]. cbn in Hl.
  destruct d as [t|].
  - destruct (TypeEquals_defined (Some t) a Hd Ha) as [[] He]; rewrite He; cbn [mbind option_bind].
    + change (placeholders (Some t :: defs)) with (placeholders defs). destruct (IH args m p Hds Has ltac:(lia)) as [[Hf ->]|[Hf ->]]; [left; split; [constructor; [by right|done]|done]|right; split; [|done]]. intros H. inversion H; subst. by apply Hf.
    + right. split; [|done]. intros H. inversion H as [|? ? ? ? [|Hx]]; subst; [done|]. congruence.
  - change (placeholders (None :: defs)) with true. destruct (IH args false true Hds Has ltac:(lia)) as [[Hf ->]|[Hf ->]]; [left|right; split; [|done]].
    + split; [constructor; [by left|done]|]. by rewrite andb_false_r, orb_true_r.
    + intros H. inversion H; subst. by apply Hf.
Qed.

Section Table.
Context {T : Type}.
Notation DefItem := (DefItem (T := T)).

(** An overload that can take the arguments, and its rank in the documented
    order: explicit types, explicit types with placeholders, variadic, variadic
    with placeholders. *)
Definition covers (it : DefItem) (args : list (option TypeNode)) : Prop :=
  (if is_variadic it then length (arg_types it) <= length args else length args = length (arg_types it))%nat /\ fixed_args (arg_types it) args.
Definition rank (it : DefItem) : nat :=
  match is_variadic it, placeholders (arg_types it) with false, false => 3 | false, true => 2 | true, false => 1 | true, true => 0 end%nat.

Context (args : list (option TypeNode)) (Hargs : Forall arg_ok args).
Record search_ok (done : list (string * DefItem)) (st : FindState) : Prop := {
  so_exact : forall it, it ∈ done -> covers it.2 args -> rank it.2 <> 3%nat;
  so_mid : forall it, placeholder_match st = Some it -> it ∈ done /\ covers it.2 args /\
    (rank it.2 = 2%nat \/ rank it.2 = 1%nat /\ variadic_match_pos st = Z.of_nat (length (arg_types it.2)));
  so_no_mid : placeholder_match st = None -> (variadic_match_pos st < 0)%Z /\ forall it, it ∈ done -> covers it.2 args -> rank it.2 <> 2%nat;
  so_mid_longest : forall it, it ∈ done -> covers it.2 args -> rank it.2 = 1%nat -> (Z.of_nat (length (arg_types it.2)) <= variadic_match_pos st)%Z;
  so_variadic : variadic_match st = None;
  so_low : forall it, variadic_placeholder_match st = Some it -> it ∈ done /\ covers it.2 args /\ rank it.2 = 0%nat /\ variadic_placeholder_match_pos st = Z.of_nat (length (arg_types it.2));
  so_no_low : variadic_placeholder_match st = None -> (variadic_placeholder_match_pos st < 0)%Z;
  so_longest : forall it, it ∈ done -> covers it.2 args -> rank it.2 = 0%nat -> (Z.of_nat (length (arg_types it.2)) <= variadic_placeholder_match_pos st)%Z
}.
Lemma find_step_cases (it : string * DefItem) st : Forall arg_ok (arg_types it.2) ->
  let n := Z.of_nat (length (arg_types it.2)) in
  (covers it.2 args /\ rank it.2 = 3%nat /\ find_step args it st = Some (Some it, st)) \/
  (covers it.2 args /\ rank it.2 = 2%nat /\ find_step args it st = Some (None, mkFind (Some it) (variadic_match st) (variadic_placeholder_match st) (variadic_match_pos st) (variadic_placeholder_match_pos st))) \/
  (covers it.2 args /\ rank it.2 = 1%nat /\ find_step args it st = Some (None, if (variadic_match_pos st <? n)%Z
    then mkFind (Some it) (variadic_match st) (variadic_placeholder_match st) n (variadic_placeholder_match_pos st) else st)) \/
  (covers it.2 args /\ rank it.2 = 0%nat /\ find_step args it st = Some (None, if (variadic_placeholder_match_pos st <? n)%Z
    then mkFind (placeholder_match st) (variadic_match st) (Some it) (variadic_match_pos st) n else st)) \/
  (~ covers it.2 args /\ find_step args it st = Some (None, st)).
Proof.
  intros Hd n. unfold find_step, covers, rank. fold n. destruct (is_variadic it.2).
  - destruct (Nat.ltb_spec (length args) (length (arg_types it.2))) as [Hl|Hl]; [do 4 right; split; [intros [? _]; lia|done]|].
    destruct (match_args_spec _ _ true false Hd Hargs Hl) as [[Hf ->]|[Hf ->]]; cbn [mbind option_bind andb orb]; [|do 4 right; split; [by intros [_ ?]|done]].
    destruct (placeholders _); cbn [negb]; [do 3 right; left|do 2 right; left]; done.
  - destruct (Nat.eqb_spec (length args) (length (arg_types it.2))) as [Hl|Hl]; [|do 4 right; split; [by intros [? _]|done]].
    destruct (match_args_spec _ _ true false Hd Hargs ltac:(lia)) as [[Hf ->]|[Hf ->]]; cbn [mbind option_bind andb orb]; [|do 4 right; split; [by intros [_ ?]|done]].
    destruct (placeholders _); cbn [negb]; [right; left|left]; done.
Qed.
Lemma find_step_ok done (it : string * DefItem) st : search_ok done st -> Forall arg_ok (arg_types it.2) ->
  (covers it.2 args /\ rank it.2 = 3%nat /\ find_step args it st = Some (Some it, st)) \/ exists st', find_step args it st = Some (None, st') /\ search_ok (it :: done) st'.
Proof.
  intros [Hx Hm Hnm Hml Hv Hlo Hnl Hlong] Hd. destruct (find_step_cases it st Hd) as [?|[(Hc & Hr & ->)|[(Hc & Hr & ->)|[(Hc & Hr & ->)|(Hc & ->)]]]]; [by left|right; eexists; (split; [done|])..].
  all: try match goal with |- context [(?a <? ?b)%Z] => destruct (Z.ltb_spec a b) as [Hlt|Hlt] end.
  all: split; cbn; try done.
  all: try (intros x [->|Hin]%elem_of_cons Hcx; [|by apply Hx]; congruence).
  all: try (intros x [= <-]; split_and!; [by left|done|by auto]).
  all: try (intros x [= <-]; split_and!; [by left|done..]).
  all: try (intros x Ex; destruct (Hm x Ex) as (? & ? & ?); split_and!; [by right|done..]).
  all: try (intros x Ex; destruct (Hlo x Ex) as (? & ? & ? & ?); split_and!; [by right|done..]).
  all: try (intros x [->|Hin]%elem_of_cons Hcx Hrx; [|by apply Hlong]; congruence).
  all: try (intros x [->|Hin]%elem_of_cons Hcx Hrx; [|by apply Hml]; first [congruence | done]).
  all: try (intros En; exfalso; destruct (Hnm En) as [Hneg _]; lia).
  all: try (intros En; destruct (Hnm En) as [Hneg Hno]; (split; [lia|]); intros x [->|Hin]%elem_of_cons Hcx; [first [congruence | done | lia]|by apply Hno]).
  all: intros x [->|Hin]%elem_of_cons Hcx Hrx; [lia|first [specialize (Hml x Hin Hcx Hrx)|specialize (Hlong x Hin Hcx Hrx)]; lia].
Qed.
Lemma find_loop_ok items : forall done st, search_ok done st -> Forall (fun it => Forall arg_ok (arg_types it.2)) items ->
  (exists it st', find_loop args items st = Some (Some it, st') /\ it ∈ items /\ covers it.2 args /\ rank it.2 = 3%nat) \/
  exists st', find_loop args items st = Some (None, st') /\ search_ok (reverse items ++ done) st'.
Proof.
  induction items as [|it items IH]; intros done st Hs Hf; [right; by exists st|]. apply Forall_cons_1 in Hf as [Hit Hf]. cbn [find_loop].
  destruct (find_step_ok done it st Hs Hit) as [(Hc & Hr & ->)|(st1 & -> & Hs1)]; cbn [mbind option_bind].
  - left. exists it, st. split_and!; [done|by left|done|done].
  - destruct (IH _ _ Hs1 Hf) as [(x & st' & E & Hin & Hc & Hr)|(st' & E & Hs')]; [left; exists x, st'; split_and!; [done|by right|done|done]|right].
    exists st'. split; [done|]. by rewrite reverse_cons, <- (assoc_L app).
Qed.
Lemma find_init_ok : search_ok [] Find_init.
Proof. split; cbn; try done; intros; try set_solver; lia. Qed.

(** ** The answer *)

(** The first in the documented order; among variadic ones the longest. *)
Definition best (table : gmap string DefItem) (it : DefItem) : Prop :=
  forall k' it', table !! k' = Some it' -> covers it' args ->
    (rank it' <= rank it)%nat /\ (rank it' = rank it -> is_variadic it = true -> (length (arg_types it') <= length (arg_types it))%nat).
(** The longest variadic signature without placeholders, although an explicit
    signature with placeholders covers the arguments. *)
Definition shadows (table : gmap string DefItem) (it : DefItem) : Prop :=
  rank it = 1%nat /\ (exists k' it', table !! k' = Some it' /\ covers it' args /\ rank it' = 2%nat) /\
  forall k' it', table !! k' = Some it' -> covers it' args -> rank it' <> 3%nat /\ (rank it' = 1%nat -> (length (arg_types it') <= length (arg_types it))%nat).
Lemma rank_max (it : DefItem) : (rank it <= 3)%nat.
Proof. unfold rank. repeat case_match; lia. Qed.
Lemma rank_variadic (it : DefItem) : is_variadic it = true -> (rank it <= 1)%nat.
Proof. unfold rank. intros ->. case_match; lia. Qed.
#[local] Instance covers_dec (it : DefItem) : Decision (covers it args).
Proof. unfold covers, fixed_args. destruct (is_variadic it); apply _. Defined.
(** What the search leaves behind the last signature. *)
Lemma search_answer (items : list (string * DefItem)) (table : gmap string DefItem) st : (forall k it, (k, it) ∈ items <-> table !! k = Some it) -> search_ok items st ->
  (forall it, placeholder_match st = Some it -> table !! it.1 = Some it.2 /\ covers it.2 args /\ (best table it.2 \/ shadows table it.2)) /\
  (placeholder_match st = None -> forall it, variadic_placeholder_match st = Some it -> table !! it.1 = Some it.2 /\ covers it.2 args /\ best table it.2) /\
  (placeholder_match st = None -> variadic_placeholder_match st = None -> forall k it, table !! k = Some it -> ~ covers it args).
Proof.
  intros Hin [Hx Hm Hnm Hml Hv Hlo Hnl Hlong].
  assert (forall k it, table !! k = Some it -> covers it args -> rank it <> 3%nat) as Hx' by (intros k it Hk; apply (Hx (k, it)), Hin, Hk).
  assert (forall k it, table !! k = Some it -> covers it args -> rank it = 1%nat -> (Z.of_nat (length (arg_types it)) <= variadic_match_pos st)%Z) as Hml' by (intros k it Hk; apply (Hml (k, it)), Hin, Hk).
  assert (forall k it, table !! k = Some it -> covers it args -> rank it = 0%nat -> (Z.of_nat (length (arg_types it)) <= variadic_placeholder_match_pos st)%Z) as Hl' by (intros k it Hk; apply (Hlong (k, it)), Hin, Hk).
  assert (placeholder_match st = None -> forall k it, table !! k = Some it -> covers it args -> rank it = 0%nat) as H0.
  { intros En k it Hk Hc. destruct (Hnm En) as [Hneg Hno]. pose proof (Hno (k, it) (proj2 (Hin k it) Hk) Hc). cbn in H. pose proof (Hx' k it Hk Hc). pose proof (rank_max it). destruct (decide (rank it = 1%nat)) as [E1|]; [|lia]. pose proof (Hml' k it Hk Hc E1). lia. }
  split_and!.
  - intros [k it] Ex. destruct (Hm _ Ex) as (Hi & Hc & Hr). cbn in *. split; [by apply Hin|]. split; [done|]. destruct Hr as [Hr|[Hr Hp]].
    + left. intros k' it' Hk' Hc'. rewrite Hr. split; [pose proof (Hx' _ _ Hk' Hc'); pose proof (rank_max it'); lia|]. intros _ Hvar. pose proof (rank_variadic it Hvar). lia.
    + destruct (decide (Exists (fun x => covers x.2 args /\ rank x.2 = 2%nat) items)) as [He|He].
      * right. split; [done|]. apply Exists_exists in He as ([k' it'] & Hi' & Hc' & Hr'). split; [exists k', it'; split; [by apply Hin|done]|]. intros k2 it2 H2 Hc2. split; [by eapply Hx'|]. intros Hr2. pose proof (Hml' _ _ H2 Hc2 Hr2). lia.
      * left. intros k' it' Hk' Hc'. rewrite Hr. pose proof (Hx' _ _ Hk' Hc'). pose proof (rank_max it'). assert (rank it' <> 2%nat) by (intros Hr'; apply He, Exists_exists; exists (k', it'); split; [by apply Hin|done]). split; [lia|]. intros Hr' _. pose proof (Hml' _ _ Hk' Hc' Hr'). lia.
  - intros En [k it] Ex. destruct (Hlo _ Ex) as (Hi & Hc & Hr & Hp). cbn in *. split; [by apply Hin|]. split; [done|]. intros k' it' Hk' Hc'. rewrite Hr. split; [by rewrite (H0 En _ _ Hk' Hc')|]. intros Hr' _. pose proof (Hl' _ _ Hk' Hc' Hr'). lia.
  - intros En El k it Hk Hc. pose proof (Hl' _ _ Hk Hc (H0 En _ _ Hk Hc)). specialize (Hnl El). lia.
Qed.
Lemma find_items_ok (items : list (string * DefItem)) (table : gmap string DefItem) : items ≡ₚ map_to_list table -> (forall k it, table !! k = Some it -> Forall arg_ok (arg_types it)) ->
  match Find_items args items with
  | Undefined => False
  | Refused => forall k it, table !! k = Some it -> ~ covers it args
  | Done (_, k, v) => exists it, table !! k = Some it /\ value it = v /\ covers it args /\ (best table it \/ shadows table it)
  end.
Proof.
  intros Hp Hw. assert (forall k it, (k, it) ∈ items <-> table !! k = Some it) as Hin by (intros; rewrite Hp; apply elem_of_map_to_list).
  unfold Find_items. destruct (find_loop_ok items [] Find_init find_init_ok) as [(it & st & -> & Hi & Hc & Hr)|(st & -> & Hs)].
  { apply Forall_forall. intros [k it] Hi. by eapply Hw, Hin. }
  { destruct it as [k it]. exists it. split_and!; [by apply Hin|done|done|]. left. intros k' it' _ _. cbn in Hr. rewrite Hr. split; [apply rank_max|]. intros _ Hvar. pose proof (rank_variadic it Hvar). lia. }
  rewrite app_nil_r in Hs. rewrite (so_variadic _ _ Hs). destruct (search_answer (reverse items) table st) as (H1 & H2 & H3); [intros; by rewrite elem_of_reverse, Hin|done|].
  destruct (placeholder_match st) as [[k it]|]; [|destruct (variadic_placeholder_match st) as [[k it]|]; [|by apply H3]].
  - destruct (H1 _ eq_refl) as (? & ? & ?). by exists it.
  - destruct (H2 eq_refl _ eq_refl) as (? & ? & ?). exists it. by split_and!; [..|left].
Qed.
(** With explicit types the overload has the types of the call. *)
Definition plain_arg (a : option TypeNode) : Prop := match a with Some t => plain_type t | None => True end.
Lemma exact_types (it : DefItem) : covers it args -> rank it = 3%nat -> Forall arg_ok (arg_types it) -> Forall plain_arg args -> arg_types it = args.
Proof.
  intros [Hl Hf] Hr Hd Hp. unfold rank in Hr. destruct (is_variadic it); [by case_match|]. destruct (placeholders (arg_types it)) eqn:Ep; [done|]. unfold fixed_args in Hf. rewrite <- Hl, firstn_all in Hf. clear -Hf Ep Hd Hp Hargs.
  induction Hf as [|d a ds as_ Hfit _ IH]; [done|]. apply Forall_cons_1 in Hd as [Hd Hds]. apply Forall_cons_1 in Hp as [Hp Hps]. apply Forall_cons_1 in Hargs as [Ha Has]. destruct d as [t|]; [|done]. destruct Hfit as [|He]; [done|]. destruct a as [u|]; [|done].
  f_equal; [f_equal; by apply equals_eq|by apply IH].
Qed.
Lemma exact_covers t v : Forall (fun a => is_Some a) args -> covers (mkDefItem t args v) args /\ (v = false -> rank (mkDefItem t args v) = 3%nat).
Proof.
  intros Hs. split; [split; [destruct v; cbn; lia|]|intros ->; unfold rank; cbn [is_variadic arg_types]].
  - cbn. unfold fixed_args. rewrite firstn_all. clear -Hs Hargs. induction args as [|a l IH]; constructor; [|by apply IH; [inversion Hargs|inversion Hs]]. apply Forall_cons_1 in Hs as [[x ->] _]. apply Forall_cons_1 in Hargs as [Ha _]. right. by apply equals_refl.
  - assert (placeholders args = false) as ->; [|done]. clear -Hs. induction Hs as [|a l [x ->] _ IH]; done.
Qed.
End Table.

Definition table_ok {T} (table : gmap string (DefItem (T := T))) : Prop := forall k it, table !! k = Some it -> k = signature (arg_types it) /\ Forall arg_ok (arg_types it).
Definition enumerates {T} (enumerate : gmap string (DefItem (T := T)) -> list (string * DefItem)) : Prop := forall t, enumerate t ≡ₚ map_to_list t.
(** Explicit types are found whatever else is registered. *)
Lemma exact_found {T} enumerate (table : gmap string (DefItem (T := T))) args t : enumerates enumerate -> table_ok table -> Forall arg_ok args -> Forall plain_arg args -> Forall (fun a => is_Some a) args ->
  table !! signature args = Some (mkDefItem t args false) -> exists pos, Find enumerate args table = Done (pos, signature args, t).
Proof.
  intros He Ht Ha Hp Hs Hk. destruct (exact_covers args Ha t false Hs) as [Hc Hr]. specialize (Hr eq_refl). unfold Find. pose proof (find_items_ok args Ha (enumerate table) table (He table) (fun k it H => proj2 (Ht k it H))) as Hf.
  destruct (Find_items args (enumerate table)) as [| |[[pos k] v]]; [done|by destruct (Hf _ _ Hk)|]. destruct Hf as (it & Hit & <- & Hcit & Hb). assert (rank it = 3%nat) as Hr2.
  { destruct Hb as [Hb|(_ & _ & Hb)]; [|by destruct (Hb _ _ Hk Hc)]. destruct (Hb _ _ Hk Hc) as [Hle _]. rewrite Hr in Hle. pose proof (rank_max it). lia. }
  pose proof (Ht _ _ Hit) as [-> Hok]. rewrite (exact_types args Ha it Hcit Hr2 Hok Hp) in Hit |- *. rewrite Hk in Hit. injection Hit as <-. by exists pos.
Qed.

(** ** The library *)

Definition lib_ok {T} (lib : UdfLibrary (T := T)) : Prop :=
  (forall name p, table_ lib !! name = Some p -> is_Some (entries lib !! p)) /\ forall p e, entries lib !! p = Some e -> table_ok (signature_table e).
Inductive library_op {T : Type} :=
| OpInsert (name : string) (args : list (option TypeNode)) (variadic always_list : bool) (idx : gset nat) (registry : T)
| OpAlias (alias name : string)
| OpUdaf (name : string) (args : nat).
Definition op_ok {T} (op : library_op (T := T)) : Prop := match op with OpInsert _ args _ _ _ _ => Forall arg_ok args | _ => True end.
Definition run_op {T} (op : library_op (T := T)) (lib : UdfLibrary) : UdfLibrary :=
  match op with
  | OpInsert name args variadic always_list idx registry => InsertRegistry name args variadic always_list idx registry lib
  | OpAlias alias name => (RegisterAlias alias name lib).2
  | OpUdaf name args => SetIsUdaf name args lib
  end.
Definition run_ops {T} (ops : list (library_op (T := T))) (lib : UdfLibrary) : UdfLibrary := foldl (fun lib op => run_op op lib) lib ops.

(** A library grows: names keep their entries, entries keep their overloads. *)
Definition entry_le {T} (e e' : UdfLibraryEntry (T := T)) : Prop := signature_table e ⊆ signature_table e'.
Record lib_le {T} (lib lib' : UdfLibrary (T := T)) : Prop := {
  le_names : table_ lib ⊆ table_ lib';
  le_entries : forall p e, entries lib !! p = Some e -> exists e', entries lib' !! p = Some e' /\ entry_le e e';
  le_case : case_sensitive_ lib' = case_sensitive_ lib
}.
#[global] Instance lib_le_preorder {T} : PreOrder (lib_le (T := T)).
Proof.
  split.
  - intros lib. split; [done| |done]. intros p e He. exists e. by split; [|unfold entry_le].
  - intros l1 l2 l3 [N1 E1 C1] [N2 E2 C2]. split; [by etrans| |congruence]. intros p e He. destruct (E1 p e He) as (e1 & He1 & L1). destruct (E2 p e1 He1) as (e2 & He2 & L2). exists e2. split; [done|]. unfold entry_le in *. by etrans.
Qed.
Lemma signature_register_ok {T} args variadic (t : T) table : table_ok table -> Forall arg_ok args -> table_ok (Register args variadic t table).2 /\ table ⊆ (Register args variadic t table).2.
Proof.
  intros Ht Ha. unfold Register. destruct (table !! signature args) eqn:Es; [by split|]. cbn. split; [|by apply insert_subseteq].
  intros k it [[<- <-]|[_ Hk]]%lookup_insert_Some; [done|by apply Ht].
Qed.
Lemma alter_entry {T} (f : UdfLibraryEntry (T := T) -> UdfLibraryEntry) (p : nat) (es : list UdfLibraryEntry) : (forall e, es !! p = Some e -> entry_le e (f e)) ->
  forall q e, es !! q = Some e -> exists e', alter f p es !! q = Some e' /\ entry_le e e'.
Proof. intros Hf q e He. destruct (decide (p = q)) as [->|Hn]; [rewrite list_lookup_alter_eq, He; exists (f e); split; [done|by apply Hf]|rewrite list_lookup_alter_ne by done; exists e; split; [done|by unfold entry_le]]. Qed.
Lemma alter_entries_ok {T} (f : UdfLibraryEntry (T := T) -> UdfLibraryEntry) (p : nat) (es : list UdfLibraryEntry) : (forall e, table_ok (signature_table e) -> table_ok (signature_table (f e))) -> (forall q e, es !! q = Some e -> table_ok (signature_table e)) ->
  forall q e, alter f p es !! q = Some e -> table_ok (signature_table e).
Proof. intros Hf Hes q e. destruct (decide (p = q)) as [->|Hn]; [rewrite list_lookup_alter_eq|rewrite list_lookup_alter_ne by done; apply Hes]. destruct (es !! q) as [e0|] eqn:E0; [|done]. intros [= <-]. apply Hf, (Hes q e0 E0). Qed.
Lemma insert_registry_le {T} args variadic al idx (r : T) e : entry_le e (insert_registry args variadic al idx r e).
Proof. unfold entry_le, insert_registry. cbn. unfold Register. destruct (signature_table e !! _) eqn:Es; [done|]. by apply insert_subseteq. Qed.
Lemma insert_registry_ok {T} args variadic al idx (r : T) e : Forall arg_ok args -> table_ok (signature_table e) -> table_ok (signature_table (insert_registry args variadic al idx r e)).
Proof. intros Ha He. cbn. by apply signature_register_ok. Qed.
Lemma op_grows {T} (op : library_op (T := T)) lib : op_ok op -> lib_ok lib -> lib_ok (run_op op lib) /\ lib_le lib (run_op op lib).
Proof.
  intros Ho [Hp He]. destruct op as [name args variadic al idx r|alias name|name n]; cbn [run_op].
  - unfold InsertRegistry. destruct (table_ lib !! GetCanonicalName lib name) as [p|] eqn:Et.
    + split; [split; cbn|split; cbn; [done| |done]].
      * intros x q Hq. destruct (Hp x q Hq) as [e Ee]. rewrite list_lookup_alter. case_decide; [subst; rewrite Ee; by eexists|by eexists].
      * apply alter_entries_ok; [intros e; by apply insert_registry_ok|done].
      * apply alter_entry. intros e _. apply insert_registry_le.
    + assert (forall q e, entries lib !! q = Some e -> q <> length (entries lib)) as Hne by (intros q e Hq ->; by rewrite lookup_ge_None_2 in Hq by done).
      split; [split; cbn|split; cbn; [by apply insert_subseteq| |done]].
      * intros x q [[<- <-]|[_ Hq]]%lookup_insert_Some; [rewrite list_lookup_alter_eq, list_lookup_middle by done; by eexists|]. destruct (Hp x q Hq) as [e Ee]. rewrite list_lookup_alter_ne by (intros <-; by eapply Hne). rewrite lookup_app_l by (by eapply lookup_lt_Some). by eexists.
      * apply alter_entries_ok; [intros e; by apply insert_registry_ok|]. intros q e [Hq|[_ Hq]]%lookup_app_Some; [by eapply He|]. apply list_lookup_singleton_Some in Hq as [_ <-]. intros k it Hk. cbn in Hk. by rewrite lookup_empty in Hk.
      * intros q e Hq. rewrite list_lookup_alter_ne by (intros <-; by eapply Hne). rewrite lookup_app_l by (by eapply lookup_lt_Some). exists e. split; [done|by unfold entry_le].
  - unfold RegisterAlias. destruct (table_ lib !! GetCanonicalName lib alias) as [p|] eqn:Ea; [by split; [|reflexivity]|]. destruct (table_ lib !! GetCanonicalName lib name) as [p|] eqn:En; [|by split; [|reflexivity]]. cbn.
    split; [split; cbn; [|done]|split; cbn; [by apply insert_subseteq| |done]]; [intros x q [[<- <-]|[_ Hq]]%lookup_insert_Some; by eapply Hp|]. intros q e Hq. exists e. split; [done|by unfold entry_le].
  - unfold SetIsUdaf. destruct (table_ lib !! GetCanonicalName lib name) as [p|] eqn:En; [|by split; [|reflexivity]]. split; [split; cbn|split; cbn; [done| |done]].
    + intros x q Hq. destruct (Hp x q Hq) as [e Ee]. rewrite list_lookup_alter. case_decide; [subst; rewrite Ee; by eexists|by eexists].
    + by apply alter_entries_ok.
    + apply alter_entry. intros e _. by unfold entry_le.
Qed.
Lemma ops_grow {T} (ops : list (library_op (T := T))) : forall lib, Forall op_ok ops -> lib_ok lib -> lib_ok (run_ops ops lib) /\ lib_le lib (run_ops ops lib).
Proof.
  induction ops as [|op ops IH]; intros lib Ho Hl; [by split; [|reflexivity]|]. apply Forall_cons_1 in Ho as [Ho Hos]. destruct (op_grows op lib Ho Hl) as [H1 L1]. destruct (IH _ Hos H1) as [H2 L2]. split; [done|by etrans].
Qed.
Lemma entry_grows {T} (lib lib' : UdfLibrary (T := T)) name e : lib_le lib lib' -> entry_of lib name = Some e -> exists e', entry_of lib' name = Some e' /\ entry_le e e'.
Proof.
  intros [Hn He Hc]. unfold entry_of, GetCanonicalName. rewrite Hc. destruct (table_ lib !! _) as [p|] eqn:Et; [|done]. cbn [mbind option_bind]. rewrite (lookup_weaken _ _ _ _ Et Hn). apply He.
Qed.
Lemma inserted {T} (lib : UdfLibrary (T := T)) name args al idx r : lib_ok lib -> (forall e, entry_of lib name = Some e -> signature_table e !! signature args = None) ->
  exists e, entry_of (InsertRegistry name args false al idx r lib) name = Some e /\ signature_table e !! signature args = Some (mkDefItem r args false).
Proof.
  intros [Hp _] Hfresh. unfold entry_of in *. assert (GetCanonicalName (InsertRegistry name args false al idx r lib) name = GetCanonicalName lib name) as ->. { unfold InsertRegistry, GetCanonicalName. by destruct (table_ lib !! _). }
  unfold InsertRegistry. destruct (table_ lib !! GetCanonicalName lib name) as [p|] eqn:Et; cbn [table_ entries].
  - rewrite Et. cbn [mbind option_bind] in *. destruct (Hp _ _ Et) as [e Ee]. rewrite list_lookup_alter_eq, Ee. eexists. split; [done|]. cbn. unfold Register. rewrite (Hfresh e Ee). cbn. apply lookup_insert_eq.
  - rewrite lookup_insert_eq. cbn [mbind option_bind]. rewrite list_lookup_alter_eq, list_lookup_middle by done. eexists. split; [done|]. cbn. unfold Register. rewrite lookup_empty. cbn. apply lookup_insert_eq.
Qed.
End Types.

(** C31: Overload resolution. A call whose types have the right number of generic
    arguments is refused only if no registered overload covers its arguments, and
    otherwise gets an overload that covers them and is the best of all that do in
    the documented order: (1) explicit types, (2) explicit types with
    placeholders, (3) a variadic signature, (4) a variadic signature with
    placeholders, and among variadic ones the longest; with one exception, a
    defect of the code: where signatures of the kinds (2) and (3) both cover the
    arguments and none of kind (1) does, the answer may be the longest one of kind
    (3). An overload of kind (1) is the only answer if no type is opaque. This
    holds for every order in which the hash table is enumerated; which of several
    overloads of kind (2) is found, and whether the exception occurs, depends on
    that order. *)
Theorem overload_found (arity : DataType -> nat) {T : Type} (enumerate : gmap string (DefItem (T := T)) -> list (string * DefItem)) (table : gmap string DefItem) (args : list (option TypeNode)) :
  enumerates enumerate -> table_ok arity table -> Forall (arg_ok arity) args ->
  match Find enumerate args table with
  | Undefined => False
  | Refused => forall k it, table !! k = Some it -> ~ covers it args
  | Done (_, k, v) => exists it, table !! k = Some it /\ value it = v /\ covers it args /\ (best args table it \/ shadows args table it) /\
      (rank it = 3%nat -> Forall plain_arg args -> forall k' it', table !! k' = Some it' -> covers it' args -> rank it' = 3%nat -> k' = k)
  end.
Proof.
  intros He Ht Ha. unfold Find. pose proof (find_items_ok arity args Ha (enumerate table) table (He table) (fun k it H => proj2 (Ht k it H))) as Hf.
  destruct (Find_items args (enumerate table)) as [| |[[pos k] v]]; [done|done|]. destruct Hf as (it & Hit & Hv & Hc & Hb). exists it. split_and!; try done.
  intros Hr Hp k' it' Hk' Hc' Hr'. destruct (Ht _ _ Hit) as [-> Hok]. destruct (Ht _ _ Hk') as [-> Hok']. by rewrite (exact_types arity args Ha it Hc Hr Hok Hp), (exact_types arity args Ha it' Hc' Hr' Hok' Hp).
Qed.

(** What was registered under explicit types stays the answer for them: after
    any further registrations, aliases and marks, under every spelling of
    the name, and under every alias. *)
Theorem registration_stays (arity : DataType -> nat) {T : Type} (enumerate : gmap string (DefItem (T := T)) -> list (string * DefItem)) (lib : UdfLibrary) (name : string) (args : list (option TypeNode))
    (always_list : bool) (idx : gset nat) (registry : T) (ops : list library_op) (name' : string) :
  enumerates enumerate -> lib_ok arity lib -> Forall (arg_ok arity) args -> Forall plain_arg args -> Forall (fun a => is_Some a) args -> Forall (op_ok arity) ops ->
  (forall e, entry_of lib name = Some e -> signature_table e !! signature args = None) ->
  let lib' := run_ops ops (InsertRegistry name args false always_list idx registry lib) in
  table_ lib' !! GetCanonicalName lib' name' = table_ lib' !! GetCanonicalName lib' name ->
  Library_Resolve enumerate name' args lib' = Done registry.
Proof.
  intros He Hl Ha Hp Hs Ho Hf lib' Hn. destruct (inserted arity lib name args always_list idx registry Hl Hf) as (e & Ee & Hreg).
  destruct (op_grows arity (OpInsert name args false always_list idx registry) lib Ha Hl) as [Hl1 _]. destruct (ops_grow arity ops _ Ho Hl1) as [Hl2 Hle]. destruct (entry_grows _ _ name e Hle Ee) as (e' & Ee' & Hsub).
  cbn [run_op] in *. fold lib' in Ee', Hl2. unfold Library_Resolve. assert (entry_of lib' name' = Some e') as -> by (unfold entry_of in *; by rewrite Hn).
  assert (table_ok arity (signature_table e')) as Hok. { unfold entry_of in Ee'. destruct (table_ lib' !! GetCanonicalName lib' name) as [p|]; [|discriminate Ee']. exact (proj2 Hl2 p e' Ee'). }
  by destruct (exact_found arity enumerate (signature_table e') args registry He Hok Ha Hp Hs (lookup_weaken _ _ _ _ Hreg Hsub)) as [pos ->].
Qed.

(** ** Deviations *)

Module Overloads.
Definition int32 : option TypeNode := Some (TNode kInt32 []).
Definition placeholder_one : string * DefItem (T := nat) := ("?"%string, mkDefItem 1%nat [None] false).
Definition variadic_two : string * DefItem (T := nat) := ("int32"%string, mkDefItem 2%nat [int32] true).
(** The comment in [Find] puts an explicit match with placeholders before a
    variadic match. The variadic match is stored as a placeholder match, so the
    last one in the order of the hash table wins. *)
Theorem variadic_shadows_placeholder :
  Find_items [int32] [placeholder_one; variadic_two] = Done (-1, "int32"%string, 2%nat) /\ Find_items [int32] [variadic_two; placeholder_one] = Done (-1, "?"%string, 1%nat).
Proof. split; reflexivity. Qed.
(** A variadic and an explicit signature with the same types cannot both be
    registered. *)
Theorem variadic_is_duplicate : (Register [int32] true 2%nat (Register [int32] false 1%nat ∅).2).1 = false.
Proof. reflexivity. Qed.
(** Tuples are compared by their first components, and past the end of the
    shorter one. *)
Definition one_tuple : TypeNode := TNode kTuple [TNode kInt32 []].
Definition two_tuple : TypeNode := TNode kTuple [TNode kInt32 []; TNode kInt32 []].
Theorem tuple_prefix_equal : type_Equals one_tuple two_tuple = Some true /\ type_Equals two_tuple one_tuple = None.
Proof. split; reflexivity. Qed.
(** Opaque types of different sizes are equal. *)
Theorem opaque_sizes_equal n m : type_Equals (TOpaque n) (TOpaque m) = Some true.
Proof. reflexivity. Qed.
(** A position that some overload does not take as a list is required to be a
    list again by a later overload. *)
Theorem list_requirement_returns (lib := InsertRegistry (T := nat) "f" [int32] false false ∅ 1%nat (mkLibrary [] ∅ false)) :
  RequireListAt "f" 0 lib = false /\ RequireListAt "f" 0 (InsertRegistry "f" [None; None] false false {[0%nat]} 2%nat lib) = true.
Proof. split; vm_compute; reflexivity. Qed.

(** ** Witnesses *)

Definition table : gmap string (DefItem (T := nat)) := {[ "?"%string := mkDefItem 1%nat [None] false; "int32"%string := mkDefItem 2%nat [int32] false ]}.
Lemma table_is_ok : table_ok (fun _ => 0%nat) table.
Proof.
  intros k it. unfold table. intros [[<- <-]|[_ Hk]]%lookup_insert_Some; [split; [reflexivity|by repeat constructor]|]. apply lookup_singleton_Some in Hk as [<- <-]. split; [reflexivity|]. constructor; [|constructor]. by constructor.
Qed.
Lemma overload_found_witness : Find map_to_list [int32] table = Done (-1, "int32"%string, 2%nat) /\
  exists it, table !! "int32"%string = Some it /\ covers it [int32] /\ best [int32] table it.
Proof.
  assert (Forall (arg_ok (fun _ => 0%nat)) [int32]) as Ha by (constructor; [by constructor|constructor]).
  pose proof (overload_found (fun _ => 0%nat) map_to_list table [int32] (fun _ => reflexivity _) table_is_ok Ha) as H.
  assert (Find map_to_list [int32] table = Done (-1, "int32"%string, 2%nat)) as E by (vm_compute; reflexivity). rewrite E in H. destruct H as (it & Hk & _ & Hc & Hb & _).
  split; [exact E|]. exists it. split; [exact Hk|]. split; [exact Hc|]. destruct Hb as [Hb|[Hs _]]; [exact Hb|]. vm_compute in Hk. injection Hk as <-. discriminate Hs.
Defined.
End Overloads.
