(* ===== verification/WindowFns.v ===== *)
(** * Functions on windows

    Models [at], [lag] and [first_value] of
    [src/udf/default_defs/window_functions_def.cc]: the function that compiled
    code calls and the expression that a call is turned into. *)

#[local] Set Warnings "-register-all".

From stdpp Require Import base numbers option list gmap strings.
From S2P Require Import UdfLibrary Prelude Layout TypeCodec RowBuilder RowView RowCodec RowWrite RowRead RowFormat CompiledCodec CompiledProof Iterators Rows ColumnLists ColumnListsProof.


(** ** The value at a position *)

Section At.
Context (spark : bool) {I : Type} `{RowIterator I Row}.

(** A list is a column of rows, or has an [At] of its own. *)
Inductive ListImpl := LColumn (column : Column) (root : option I) | LOther (at_ : nat -> option Native).
(** The value, [None] for NULL. *)
Definition AtList (l : ListImpl) (pos : Z) : option (option Native) :=
  if pos <? 0 then Some None
  else match l with
  | LColumn column root =>
      row ← At (Z.to_nat pos) root Row_default;
      if empty row then Some None else GetField spark column row
  | LOther at_ => Some <$> at_ (Z.to_nat pos)
  end.
End At.

(** ** The expression *)

Inductive AtExpr := AtCall (cast_index : bool) | IfNull (call : AtExpr).
Inductive AtError := NotAList | GenericElement | BadDefault.
(** The types of the list, the index and the default value; types of kind
    [kNull] are unknown values. *)
Definition IsGeneric (t : UdfLibrary.TypeNode) : bool := match UdfLibrary.type_generics t with [] => false | _ => true end.
Definition BuildAt (input_type : UdfLibrary.TypeNode) (idx_type : option UdfLibrary.TypeNode) (default_type : option UdfLibrary.TypeNode) : option (AtError + AtExpr) :=
  if negb (bool_decide (UdfLibrary.type_base input_type = UdfLibrary.kList)) then Some (inl NotAList)
  else
    element ← head (UdfLibrary.type_generics input_type);
    if IsGeneric element then Some (inl GenericElement)
    else
      bad ← match default_type with
        | Some d => if bool_decide (UdfLibrary.type_base d = UdfLibrary.kNull) then Some false else UdfLibrary.TypeEquals (Some d) (Some element)
        | None => Some false
        end;
      if (bad : bool) then Some (inl BadDefault)
      else
        let call := AtCall (match idx_type with Some t => negb (bool_decide (UdfLibrary.type_base t = UdfLibrary.kInt64)) | None => true end) in
        Some (inr (match default_type with Some _ => IfNull call | None => call end)).

(** ** Properties *)

Lemma stored_not_empty cols k row vs : stored cols k row vs -> empty row = false.
Proof.
  intros (Hok & _ & b0 & b & Hb & _ & Hs). destruct (encode_row_holds _ _ _ Hok Hb) as (He & Hsz & _). destruct Hok as [Hc1 Hv1 Hne Hn1 Hs1].
  unfold nth_slice in Hs. unfold empty, Slice_empty. destruct (0 =? k).
  - injection Hs as Hs. rewrite Hs. cbn [sl_size]. pose proof (read_order cols (row_size cols vs) vs ltac:(unfold schema_size in *; lia) ltac:(lia) He) as (H1 & H2 & H3).
    pose proof (fixed_start_pos cols ltac:(unfold schema_size in *; lia)). rewrite (proj2 (Z.eqb_neq _ _)); [done|]. lia.
  - destruct (0 <? k); [|done]. destruct (slices_ row); [done|]. by rewrite andb_false_r.
Qed.
(** [at(column, pos)] is the value of the column in row [pos] of the window,
    NULL when it is NULL, and NULL for positions outside the window; it never
    reads anything else. *)
Theorem at_value {I} `{RowIteratorLaws I Row} (root : I) cols k j c (vals : list (list (option Value))) pos :
  it_ok root -> cols !! j = Some c -> Forall2 (fun e vs => stored cols k e.2 vs /\ is_Some (vs !! j)) (rest root) vals ->
  AtList false (LColumn (column_of cols k j c) (Some root)) pos =
    Some (if pos <? 0 then None else vs ← vals !! Z.to_nat pos; v ← vs !! j; native_of <$> v).
Proof.
  intros Ho Hc H2. unfold AtList. destruct (pos <? 0); [done|]. rewrite (At_rest root Row_default (Z.to_nat pos) Ho). cbn [mbind option_bind].
  destruct (rest root !! Z.to_nat pos) as [e|] eqn:Er; cbn [from_option].
  - destruct (Forall2_lookup_l _ _ _ _ _ H2 Er) as (vs & -> & Hst & [v Hv]). cbn [mbind option_bind]. rewrite Hv, (stored_not_empty _ _ _ _ Hst). cbn [mbind option_bind].
    by destruct (stored_value _ _ _ _ _ _ _ Hst Hc Hv) as [-> _].
  - assert (vals !! Z.to_nat pos = None) as ->; [|done]. apply lookup_ge_None in Er. apply lookup_ge_None. by rewrite <- (Forall2_length _ _ _ H2).
Qed.
(** A default value is refused when it has the type of the elements, and
    accepted when it has another one. *)
Theorem default_check_reversed : BuildAt (UdfLibrary.TNode UdfLibrary.kList [UdfLibrary.TNode UdfLibrary.kInt32 []]) None (Some (UdfLibrary.TNode UdfLibrary.kInt32 [])) = Some (inl BadDefault) /\
  BuildAt (UdfLibrary.TNode UdfLibrary.kList [UdfLibrary.TNode UdfLibrary.kInt32 []]) None (Some (UdfLibrary.TNode UdfLibrary.kVarchar [])) = Some (inr (IfNull (AtCall true))).
Proof. split; reflexivity. Qed.
